(* ===== verification/_CoqProject ===== *)
-Q . S2P
Prelude.v
Prism.v
PageTables.v
PageTableProofs.v
PageMap.v
PageMapTheorems.v
BitmapAllocator.v
BitmapAllocatorProofs.v
PhysicalMemory.v
AddressSpace.v
AddressSpaceProofs.v
Unicode.v
Terminal.v
TerminalProofs.v
VideoTerminal.v
VideoTerminalProofs.v
Console.v
ConsoleTheorems.v
ZLib.v
Huffman.v
Inflate.v
InflateTheorems.v
Event.v
TTY.v
TTYTheorems.v
Keyboard.v
KeyboardTheorems.v
Locking.v
Posix.v
Disk.v
Fat32.v
Fat32Proofs.v
Fat32Theorems.v
Ext2.v
Ext2Proofs.v
Ext2Files.v
Ext2Alloc.v
Ext2Dir.v
Ext2DirProofs.v
Ext2Theorems.v
Partitions.v
SynthFs.v
SynthFsTheorems.v
FileDescriptors.v
FileDescriptorTheorems.v
Effects.v
VFS.v
VFSProofs.v
VFSTheorems.v
Scheduler.v
SchedulerProofs.v
SchedulerTheorems.v
Process.v
ProcessTheorems.v
ELF.v
ELFTheorems.v
ExecutableProgram.v
ProgramTheorems.v
LoaderTheorems.v
Time.v
Devices.v
Initrd.v
PCI.v
PCITheorems.v
Interrupts.v
InterruptTheorems.v
Apic.v
HardwareTimers.v
I8042.v
CommandLine.v
FileSyscalls.v
FileSyscallTheorems.v
PNG.v
PNGTheorems.v
MemoryCalls.v
MemoryCallTheorems.v
Kasan.v
Firmware.v
EchFs.v
NVMe.v
