(* ===== verification/Prelude.v ===== *)
(** * Verification of the CryptixOS kernel

    CryptixOS is a Unix-like kernel in C++ ([src/Kernel]).  This library models parts of it
    as executable Gallina functions translated from the sources and proves what they do.
    All paths below are relative to [src/Kernel].

    ** Components, files and how they interact

    - Memory.  [PMM] hands out page frames through a bitmap allocator; page maps translate
      virtual to physical addresses with four- or five-level tables whose frames come from
      a heap; an address space keeps the regions of a process apart; the memory calls and the
      page fault handler put the three together.
      - [PageTables]: entries, attributes and the walk ([Arch/x86_64/VMM.cpp],
        [Memory/PageTableEntry.hpp], [PageMap::NextLevel] of [Memory/VMM.cpp]); memory is a finite map
        from table addresses to tables.  [PageTableProofs] has the walk of the hardware, the
        well-formedness invariant and the lemmas on both.
      - [PageMap]: the operations of [Memory/PageMap.cpp] over it; [PageMapTheorems]: their theorems.
      - [BitmapAllocator]: [Memory/Allocator/BitmapAllocator.cpp], [Memory/PMM.cpp],
        [Memory/MemoryZone.hpp]; [BitmapAllocatorProofs], [PhysicalMemory]: invariant, histories, theorems.
      - [AddressSpace], [AddressSpaceProofs]: [Memory/AddressSpace.cpp], [Memory/AddressRange.hpp],
        [Memory/Region.hpp].
      - [MemoryCalls], [MemoryCallTheorems]: [API/MM.cpp], [Memory/MM.cpp], [Memory/PageFault.hpp] and the regions
        of the kernel in [Memory/VMM.cpp].
      - [Kasan]: the address sanitizer, [Debug/Kasan.cpp].
    - Console.  A byte from the keyboard becomes characters, which the TTY's line discipline
      edits, echoes and hands to readers; the terminal interprets what is written to it and
      draws cells.
      - [I8042]: the controller, [Arch/x86_64/Drivers/I8042Controller.cpp], over its ports.
      - [Keyboard], [KeyboardTheorems]: [Drivers/HID/Ps2KeyboardDevice.cpp], [Drivers/HID/PS2Scancodes.hpp].
      - [TTY], [TTYTheorems]: [Drivers/TTY.cpp], [Drivers/TTY.hpp] (class [Screen] for the terminal it echoes to,
        class [CircularQueue] for its raw buffer).
      - [Terminal], [TerminalProofs]: the escape sequence machine of [Drivers/Terminal.cpp], over the class
        [TerminalBackend], the virtual functions of a display.
      - [VideoTerminal], [VideoTerminalProofs]: the framebuffer display, [Drivers/Video/VideoTerminal.cpp] and
        [Library/Color.hpp]; [Console] and [ConsoleTheorems] instantiate the terminal with it.
      - [Unicode]: [Library/Unicode.hpp].
    - Compressed data and images.  [ZLib]: [Library/ZLib.cpp] over the class [BitStream]; [Huffman]: canonical codes
      and what [HuffmanTree::Build] establishes; [Inflate]: decoding symbols, tokens and blocks;
      [InflateTheorems].  [PNG], [PNGTheorems]: [Library/Image.cpp] on top of the decompressor.
    - Synchronisation and time.  [Event]: [Scheduler/Event.cpp]; [Locking]: [Library/Locking/Mutex.cpp],
      [RecursiveMutex.cpp] and [Semaphore.cpp] as transition systems of interleaved threads; [Time]:
      [Time/Time.cpp], [API/Time.cpp], timers and sleeping on top of events and the scheduler.
    - Threads and processes.  [Scheduler] has the state of one processor's scheduler, the threads and the
      process table, in a state and error monad, with [Scheduler/Scheduler.cpp], [Scheduler/Thread.cpp] and the
      calls of [API/Process.cpp]; [SchedulerProofs] and [SchedulerTheorems] prove its invariant and its behaviour;
      [Process] and [ProcessTheorems] have [Scheduler/Process.cpp]: forking, ending, waiting, signals.
    - Programs.  [ELF], [ELFTheorems]: [Library/ELF.cpp]; [ExecutableProgram], [ProgramTheorems], [LoaderTheorems]:
      [Library/ExecutableProgram.cpp], which maps the segments with the page map and frames of the
      allocator, and the initial stack.
    - File systems.  [Disk] is the interface of a block device; [NVMe]: the queues and the block cache of
      [Drivers/Storage/NVMe]; [Partitions]: partition tables; [Fat32],
      [Fat32Proofs], [Fat32Theorems]: [VFS/Fat32Fs]; [Ext2], [Ext2Proofs], [Ext2Files], [Ext2Alloc], [Ext2Dir],
      [Ext2DirProofs], [Ext2Theorems]: [VFS/Ext2Fs]; [EchFs]: [VFS/EchFs]; [SynthFs], [SynthFsTheorems]: the nodes of the
      in-memory file systems; [Initrd]: the tar loader.
    - Virtual file system.  [VFS], [VFSProofs], [VFSTheorems]: [VFS/VFS.cpp], [VFS/PathResolver.cpp],
      [VFS/DirectoryEntry.cpp] over file systems given as a class; [FileDescriptors],
      [FileDescriptorTheorems]: descriptor tables, directory listings and pipes over inodes given as a
      class; [FileSyscalls], [FileSyscallTheorems]: [API/VFS.cpp], which composes the two on user memory.
    - Hardware.  [Devices]: device numbers, the registry, the memory devices; [PCI], [PCITheorems]:
      [Drivers/PCI]; [Interrupts], [InterruptTheorems]: descriptor tables, handlers and the 8259A; [Apic]: the
      interrupt controllers of the firmware tables; [HardwareTimers]: real time clock, interval
      timer, APIC timer; [Firmware]: SMBIOS structures, flattened device trees, lookup of ACPI tables;
      [CommandLine]: [Boot/CommandLine.cpp].
    - [Prism]: interfaces (classes with laws) of the Prism library: bitmap, ordered tree, alignment.
      Its sources are a submodule that is not part of the repository.  [Effects]: the state and error monad;
      [Posix]: error numbers and file modes.

    [Prelude] (this file) has machine integers, bitwise lemmas, the hint databases and the shared tactics.

    ** Conventions

    A [w]-bit integer is a [Z]; wrap-around is written out with [u8], [u16], [u32], [u64], [i8], [i64]
    where the code can reach it.  Objects are records, member functions take and return them.  Code that
    is not in the repository is a class whose laws state the documented behaviour the code relies on;
    each class has an instance, used by the witnesses.  Out-of-range accesses, null pointers and failed
    assertions are values ([None], [OutOfBounds], [Panic], ...), so theorems about results exclude them.

    Fuel.  These amounts are the most iterations the loops make: [BitmapAllocator.find_loop] the length of
    its window; [ZLib.find_length] seven, the lengths 10 to 16; [ZLib.grow] sixty-five doublings, [SynthFs.grow] sixty-three,
    [PNG.idat_grow] sixty-four; [ZLib.fill_fast] one per table entry; the drain and erase loops of the TTY the size of
    the queue; the scheduler's search one pass over its queue; a new process number, a free
    descriptor and a mount point the number of processes, of descriptors and of entries; the parsers of
    the command line and of the vendor names the length of the text; the tar loader a record for every
    512 bytes; bus numbers 256, capabilities 48; the interrupt controller table its length; the sanitizer
    the number of bytes.  Other loops take fuel as an argument: [DecodeBlock], [DecompressStream], cluster chains,
    nested links, extended partitions, bridges, PNG chunks, SMBIOS texts, device tree tokens, EchFs entries; their
    theorems give an amount that is enough (or show that none is).  For a thread that waits, the fuel is the
    number of wake-ups it is given.

    ** What the theorems show

    - Page maps: mapping and unmapping ranges change the translation a processor would compute from
      the tables at exactly the pages concerned and keep the tables well formed; mapping
      succeeds when the heap has enough tables; [Virt2Phys] agrees.
    - Page frames: along any history of allocations and releases blocks are disjoint and the
      counters exact; an allocation takes a free run or reports that its windows have none.
    - Address spaces and process memory: regions stay disjoint, aligned, found and erased as asked; where
      no translation is left behind by [munmap], the first access to mapped memory faults, is backed, and reads
      zero; in every history of calls and faults no frame backs two regions.  The sanitizer's check of a range agrees with the check of each byte.
    - Terminal and display: control sequences are parsed exactly, text appears where it should,
      scrolling moves rows, and flushing makes the screen show the picture.
    - Keyboard and TTY: keystrokes become lines, lines are read back whole and in order, a waiting
      reader is woken; modifiers follow the keys.
    - Inflate and PNG: [Build] accepts exactly the prefix codes, [Decode] inverts them, streams of
      fixed-Huffman blocks decompress to what was encoded, and PNG files of four channels of eight bits
      made of such streams are loaded as their pictures.
    - Locks and events: mutual exclusion and the bound of the semaphore hold in every interleaving; waiters
      can be left asleep, by a race in the mutex and always in the semaphore; a sleeping thread wakes at
      the tick that completes its time.
    - Scheduler and processes: in every history the queues stay consistent or the kernel stops at a
      thread that blocks with its own lock taken, a tick is a round-robin step,
      registers are restored, unblocked threads run again; a forked child has what its parent had.
    - Programs: relocation patches what it should, a loaded program reads its segments through the
      page tables and its arguments from its stack.
    - File systems: partition tables, FAT32 and EchFs files and directories, ext2 block maps with
      their indirect blocks in place, allocation with its counts, files and directories are read (and for
      ext2 written) as their formats say; in-memory stores stay well formed; an archive without hard links is
      installed member by member.
    - Virtual file system: without symbolic links, paths resolve to what a walk of the file systems and their
      mounts gives, and a file created at a path is what the path resolves to;
      descriptors refer to their files until closed, pipes keep order, written bytes are read back.
    - Hardware: PCI detection is complete on a bus, NVMe commands complete in order, a name space with small blocks and
      buffers within pages behaves as an array of bytes, interrupts reach their owners, also with the legacy
      controller, firmware tables are read as they were written, the device tree parser ends on every input.
    - Defects: some theorems state what the code does where it departs from its purpose, among them an
      incomplete rollback, out-of-bounds writes on malformed input, lost parts of lines, [..] that stays in a
      mounted file system, memory that stays mapped after [munmap], red zones that are never reported, and device tree nodes that are lost.

    ** What is not modelled

    Processor set-up and the start of further processors, the set-up of NVMe controllers, USB, virtio and network drivers, the
    aarch64 port, the boot protocol and the order of initialisation, logging and panics, the ACPI interpreters, the kernel
    heap (a third-party allocator), ProcFs, condition variables, and user programs.  Most of these are accesses to
    registers whose effect only the device defines, glue to code outside the repository, or stubs.
    The scheduler is that of one processor.  Dynamic Huffman blocks are modelled but have no round trip theorem.
    Glyph pixels of the framebuffer terminal are abstracted to the character a cell shows.  Outside [Locking],
    operations guarded by a spinlock are modelled as atomic. *)

From Stdlib Require Import ZArith Lia List Bool.
From stdpp Require Import base gmap list numbers.

#[global] Open Scope Z_scope.

(** ** Machine integers

    A [w]-bit unsigned integer is a [Z] in [[0, 2^w)].  C++ conversions to an
    unsigned type reduce modulo [2^w]; conversions to a signed type reinterpret
    the two's-complement pattern. *)
Declare Scope bits_scope.
Delimit Scope bits_scope with bits.
Notation "a .& b" := (Z.land a b) (at level 46, left associativity) : bits_scope.
Notation "a .| b" := (Z.lor a b) (at level 47, left associativity) : bits_scope.
Notation "a .<< b" := (Z.shiftl a b) (at level 45, left associativity) : bits_scope.
Notation "a .>> b" := (Z.shiftr a b) (at level 45, left associativity) : bits_scope.
#[global] Open Scope bits_scope.

Definition wrap (w x : Z) : Z := x mod 2 ^ w.
Definition u8 (x : Z) : Z := wrap 8 x.
Definition u16 (x : Z) : Z := wrap 16 x.
Definition u32 (x : Z) : Z := wrap 32 x.
Definition u64 (x : Z) : Z := wrap 64 x.

(** Two's-complement reading of the low [w] bits. *)
Definition swrap (w x : Z) : Z :=
  let y := x mod 2 ^ w in if y <? 2 ^ (w - 1) then y else y - 2 ^ w.
Definition i8 (x : Z) : Z := swrap 8 x.
Definition i32 (x : Z) : Z := swrap 32 x.
Definition i64 (x : Z) : Z := swrap 64 x.

(** [static_cast<bool>] of an integer. *)
Definition truthy (x : Z) : bool := negb (x =? 0).

(** Complement of a 64-bit pattern. *)
Definition not64 (x : Z) : Z := Z.lxor x (Z.ones 64).

Definition in_u (w x : Z) : Prop := 0 <= x < 2 ^ w.

Lemma i64_small x : 0 <= x < 2 ^ 63 -> i64 x = x.
Proof.
  intros H. unfold i64, swrap. change (2 ^ 64) with 18446744073709551616. change (2 ^ (64 - 1)) with 9223372036854775808 in *.
  rewrite Z.mod_small by lia. destruct (Z.ltb_spec x 9223372036854775808); lia.
Qed.

Create HintDb kern.
Create Rewrite HintDb bits.

(** ** Bitwise reasoning *)
Lemma testbit_above (w n i : Z) : in_u w n -> 0 <= w -> w <= i -> Z.testbit n i = false.
Proof.
  intros [Hlo Hhi] Hw Hi. rewrite <- (Z.mod_small n (2 ^ w)) by lia.
  now apply Z.mod_pow2_bits_high.
Qed.

Lemma testbit_ones (n i : Z) : 0 <= n -> 0 <= i -> Z.testbit (Z.ones n) i = (i <? n).
Proof.
  intros Hn Hi. destruct (Z.ltb_spec i n).
  - now apply Z.ones_spec_low.
  - now apply Z.ones_spec_high.
Qed.

Lemma testbit_wrap (w x i : Z) :
  0 <= w -> 0 <= i -> Z.testbit (wrap w x) i = Z.testbit x i && (i <? w).
Proof.
  intros Hw Hi. unfold wrap. rewrite <- Z.land_ones, Z.land_spec, testbit_ones by lia.
  reflexivity.
Qed.

Lemma wrap_small (w x : Z) : in_u w x -> wrap w x = x.
Proof. intros H. unfold wrap. now apply Z.mod_small. Qed.

Lemma wrap_range (w x : Z) : 0 <= w -> in_u w (wrap w x).
Proof. intros Hw. unfold in_u, wrap. apply Z.mod_pos_bound. lia. Qed.

(** A number whose bits from [w] up are clear is a [w]-bit number. *)
Lemma in_u_bits (w x : Z) :
  0 <= w -> 0 <= x -> (forall i, w <= i -> Z.testbit x i = false) -> in_u w x.
Proof.
  intros Hw Hx Hb. split; [lia|].
  destruct (Z.lt_ge_cases x (2 ^ w)) as [|Hge]; [lia|].
  assert (0 < x) by (assert (0 < 2 ^ w) by lia; lia).
  pose proof (Z.bit_log2 x) as Hl.
  rewrite Hb in Hl; [discriminate Hl; lia|].
  apply Z.log2_le_pow2; lia.
Qed.

Lemma in_u_land (w a b : Z) : 0 <= w -> in_u w a -> 0 <= b -> in_u w (a .& b).
Proof.
  intros Hw Ha Hb. apply in_u_bits; [lia|apply Z.land_nonneg; left; apply Ha|].
  intros i Hi. rewrite Z.land_spec, (testbit_above w a) by (trivial; lia). reflexivity.
Qed.

Lemma in_u_lor (w a b : Z) : 0 <= w -> in_u w a -> in_u w b -> in_u w (a .| b).
Proof.
  intros Hw Ha Hb. apply in_u_bits; [lia|apply Z.lor_nonneg; split; [apply Ha|apply Hb]|].
  intros i Hi. rewrite Z.lor_spec, (testbit_above w a), (testbit_above w b) by (trivial; lia).
  reflexivity.
Qed.

#[export] Hint Resolve in_u_land in_u_lor wrap_range : kern.
#[export] Hint Rewrite Z.land_spec Z.lor_spec Z.lxor_spec Z.bits_0 andb_false_r andb_false_l
  orb_false_r orb_false_l andb_true_r andb_true_l : bits.

(** Reduce an equation between bit patterns to one about each bit. *)
Ltac bitwise i :=
  apply Z.bits_inj'; intros i ?; autorewrite with bits.

(** A power of two written as a shift tests a single bit. *)
Lemma testbit_bit (n i : Z) : 0 <= n -> 0 <= i -> Z.testbit (1 .<< n) i = (i =? n).
Proof.
  intros Hn Hi. rewrite Z.shiftl_spec by lia.
  destruct (Z.eqb_spec i n) as [->|Hne].
  - rewrite Z.sub_diag. reflexivity.
  - destruct (Z.ltb_spec i n).
    + rewrite Z.testbit_neg_r by lia. reflexivity.
    + assert (0 < i - n) by lia.
      destruct (i - n) eqn:E; try lia. now destruct p.
Qed.

(** Testing a mask of one bit. *)
Lemma land_bit_zero (x n : Z) : 0 <= n -> (x .& (1 .<< n) =? 0) = negb (Z.testbit x n).
Proof.
  intros Hn. destruct (Z.testbit x n) eqn:E; simpl.
  - apply Z.eqb_neq. intros H0.
    assert (Hb : Z.testbit (x .& (1 .<< n)) n = true).
    { rewrite Z.land_spec, E, testbit_bit, Z.eqb_refl by lia. reflexivity. }
    rewrite H0, Z.bits_0 in Hb. discriminate.
  - apply Z.eqb_eq. bitwise i. rewrite testbit_bit by lia.
    destruct (Z.eqb_spec i n) as [->|]; [now rewrite E|now rewrite andb_false_r].
Qed.

Lemma truthy_land_bit (x n : Z) : 0 <= n -> truthy (x .& (1 .<< n)) = Z.testbit x n.
Proof. intros Hn. unfold truthy. rewrite land_bit_zero by lia. apply negb_involutive. Qed.

(** ** Loops of the form [for (i = 0; i < size; i += step)] *)
Definition strides (size step : Z) : list Z :=
  (fun k => k * step) <$> seqZ 0 ((size + step - 1) / step).

Lemma elem_of_strides (size step x : Z) :
  0 < step -> x ∈ strides size step <-> exists k, 0 <= k /\ x = k * step /\ x < size.
Proof.
  intros Hs. unfold strides. rewrite list_elem_of_fmap. split.
  - intros (k & -> & Hk%elem_of_seqZ). exists k.
    assert (k < (size + step - 1) / step) by lia.
    assert (step * ((size + step - 1) / step) <= size + step - 1) by (apply Z.mul_div_le; lia).
    split_and!; [lia|reflexivity|nia].
  - intros (k & Hk & -> & Hlt). exists k. split; [reflexivity|]. apply elem_of_seqZ.
    split; [lia|]. assert (k + 1 <= (size + step - 1) / step); [|lia].
    apply Z.div_le_lower_bound; nia.
Qed.

(** ** Decidable equality of the scalar flags used across components *)
Ltac case_bool b E := destruct b eqn:E; simpl in *.

(** * Bit fields

    Fields of registers and packed numbers: every operation on them as a function of the bit
    position, so that equations between packed numbers reduce to comparisons of positions. *)

(** [n] ones from bit [lo] up. *)
Definition window (lo n : Z) : Z := Z.ones n .<< lo.

Lemma bit_window lo n i : 0 <= lo -> 0 <= n -> Z.testbit (window lo n) i = (lo <=? i) && (i <? lo + n).
Proof.
  intros Hlo Hn. unfold window. destruct (Z.leb_spec lo i) as [Hi|Hi].
  - rewrite Z.shiftl_spec, testbit_ones by lia. cbn [andb]. destruct (Z.ltb_spec (i - lo) n), (Z.ltb_spec i (lo + n)); trivial; lia.
  - destruct (Z.le_gt_cases 0 i); [rewrite Z.shiftl_spec by lia|]; now rewrite Z.testbit_neg_r by lia.
Qed.
Lemma bit_shl a n i : 0 <= n -> Z.testbit (a .<< n) i = (n <=? i) && Z.testbit a (i - n).
Proof.
  intros Hn. destruct (Z.leb_spec n i) as [Hi|Hi]; [now rewrite Z.shiftl_spec by lia|].
  destruct (Z.le_gt_cases 0 i); [rewrite Z.shiftl_spec by lia|]; now rewrite Z.testbit_neg_r by lia.
Qed.
Lemma bit_shr a n i : 0 <= n -> Z.testbit (a .>> n) i = (0 <=? i) && Z.testbit a (i + n).
Proof. intros Hn. destruct (Z.leb_spec 0 i); [now rewrite Z.shiftr_spec by lia|now rewrite Z.testbit_neg_r by lia]. Qed.
Lemma bit_wrap w x i : 0 <= w -> Z.testbit (wrap w x) i = (0 <=? i) && (i <? w) && Z.testbit x i.
Proof.
  intros Hw. destruct (Z.leb_spec 0 i); [|now rewrite Z.testbit_neg_r by lia]. rewrite testbit_wrap by lia. now rewrite andb_comm.
Qed.
Lemma bit_outside w x i : in_u w x -> 0 <= w -> (i < 0 \/ w <= i) -> Z.testbit x i = false.
Proof. intros Hx Hw [Hi|Hi]; [now apply Z.testbit_neg_r|now apply (testbit_above w)]. Qed.

(** Numbers without common bits. *)
Lemma lor_add a b k : 0 <= k -> a mod 2 ^ k = 0 -> 0 <= b < 2 ^ k -> a .| b = a + b.
Proof.
  intros Hk Ha Hb. assert (E : a .& b = 0).
  { apply Z.bits_inj'. intros i Hi. rewrite Z.bits_0, Z.land_spec. destruct (Z.lt_ge_cases i k) as [Hi'|Hi'].
    - apply Z.mod_divide in Ha; [|lia]. destruct Ha as [q ->]. now rewrite Z.mul_pow2_bits_low.
    - rewrite (bit_outside k b i); [apply andb_false_r|exact Hb|exact Hk|lia]. }
  rewrite Z.add_nocarry_lxor by trivial. now rewrite Z.lxor_lor.
Qed.

Create Rewrite HintDb fields.
#[export] Hint Rewrite Z.lor_spec Z.land_spec Z.ldiff_spec : fields.
#[export] Hint Rewrite bit_shl bit_shr bit_wrap bit_window using lia : fields.

(** Decide the comparisons of positions of the goal. *)
Ltac positions := repeat match goal with
  | |- context [?a <=? ?b] => destruct (Z.leb_spec a b); try lia
  | |- context [?a <? ?b] => destruct (Z.ltb_spec a b); try lia
  end; repeat (cbn [andb orb negb]; progress rewrite ?andb_true_r, ?andb_false_r, ?orb_false_r, ?orb_true_r); cbn [andb orb negb].
(** Bits beyond the width of a number. *)
Ltac beyond w x := repeat match goal with
  | |- context [Z.testbit x ?k] => rewrite (bit_outside w x k) by (trivial; lia)
  end.
Ltac fields i := apply Z.bits_inj'; intros i ?; autorewrite with fields.
