(* ===== verification/Prism.v ===== *)
(** * Interfaces of the Prism library

    [Prism] (containers, pointers, arithmetic helpers) is a git submodule whose
    sources are not part of the repository.  Every facility the kernel takes from
    it is a class here: the operations the kernel calls, and the documented
    behaviour it relies on as laws.  The components are verified against the
    classes; each class has a reference instance, so that concrete inputs can be
    evaluated and the laws are known to be satisfiable. *)

From Stdlib Require Import ZArith Lia.
From stdpp Require Import base gmap list numbers sorting.
From S2P Require Import Prelude.

(** ** [Prism/Utility/Math.hpp] *)
Class PrismMath := {
  AlignUp : Z -> Z -> Z;
  AlignDown : Z -> Z -> Z;
  DivRoundUp : Z -> Z -> Z;
  IsPowerOfTwo : Z -> bool;
  AlignUp_ge (x a : Z) : 0 <= x -> 0 < a -> x <= AlignUp x a < x + a;
  AlignUp_divide (x a : Z) : 0 <= x -> 0 < a -> (a | AlignUp x a);
  AlignDown_le (x a : Z) : 0 <= x -> 0 < a -> x - a < AlignDown x a <= x;
  AlignDown_divide (x a : Z) : 0 <= x -> 0 < a -> (a | AlignDown x a);
  DivRoundUp_spec (x d : Z) : 0 <= x -> 0 < d -> d * (DivRoundUp x d - 1) < x <= d * DivRoundUp x d;
  IsPowerOfTwo_spec (x : Z) : IsPowerOfTwo x = true <-> exists k, 0 <= k /\ x = 2 ^ k
}.

(** ** Higher-half direct map ([Prism/Memory/Pointer.hpp])

    [ToHigherHalf] and [FromHigherHalf] translate between a physical address and
    its alias in the kernel's direct map. *)
Class HigherHalf := {
  ToHigherHalf : Z -> Z;
  FromHigherHalf : Z -> Z
}.

(** ** [Prism/Containers/Bitmap.hpp] *)
Class Bitmap (B : Type) := {
  bitmap_empty : B;
  bitmap_size : B -> Z;
  Allocate : Z -> B -> B;
  SetAll : Z -> B -> B;
  GetIndex : B -> Z -> bool;
  SetIndex : Z -> bool -> B -> B;
  Allocate_size (n : Z) (b : B) : 0 <= n -> bitmap_size (Allocate n b) = n;
  SetAll_size (v : Z) (b : B) : bitmap_size (SetAll v b) = bitmap_size b;
  SetAll_get (b : B) (i : Z) :
    0 <= i < bitmap_size b -> GetIndex (SetAll 0xff b) i = true;
  SetIndex_size (i : Z) (v : bool) (b : B) : bitmap_size (SetIndex i v b) = bitmap_size b;
  SetIndex_get_eq (i : Z) (v : bool) (b : B) :
    0 <= i < bitmap_size b -> GetIndex (SetIndex i v b) i = v;
  SetIndex_get_ne (i j : Z) (v : bool) (b : B) :
    0 <= i < bitmap_size b -> 0 <= j < bitmap_size b -> i <> j ->
    GetIndex (SetIndex i v b) j = GetIndex b j
}.

(** ** [Prism/Containers/RedBlackTree.hpp]

    A tree keyed by addresses; iteration visits the entries in key order. *)
Class RedBlackTree (T V : Type) := {
  tree_empty : T;
  tree_elements : T -> list (Z * V);
  tree_insert : Z -> V -> T -> T;
  tree_erase : Z -> T -> T;
  tree_empty_elements : tree_elements tree_empty = [];
  tree_sorted (t : T) : StronglySorted Z.lt (tree_elements t).*1;
  tree_insert_elements (k : Z) (v : V) (t : T) :
    k ∉ (tree_elements t).*1 -> tree_elements (tree_insert k v t) ≡ₚ (k, v) :: tree_elements t;
  tree_erase_elements (k : Z) (t : T) :
    tree_elements (tree_erase k t) ≡ₚ filter (λ kv, kv.1 ≠ k) (tree_elements t)
}.

(** ** Reference instances *)
#[export] Program Instance prism_math_ref : PrismMath := {|
  AlignUp x a := (x + a - 1) / a * a;
  AlignDown x a := x / a * a;
  DivRoundUp x d := (x + d - 1) / d;
  IsPowerOfTwo x := (0 <? x) && (2 ^ Z.log2 x =? x)
|}.
Next Obligation.
  intros x a Hx Ha. simpl. pose proof (Z.mod_pos_bound (x + a - 1) a).
  pose proof (Z.div_mod (x + a - 1) a). nia.
Qed.
Next Obligation. intros. exists ((x + a - 1) / a). reflexivity. Qed.
Next Obligation.
  intros x a Hx Ha. simpl. pose proof (Z.mod_pos_bound x a).
  pose proof (Z.div_mod x a). nia.
Qed.
Next Obligation. intros. exists (x / a). reflexivity. Qed.
Next Obligation.
  intros x d Hx Hd. simpl. pose proof (Z.mod_pos_bound (x + d - 1) d).
  pose proof (Z.div_mod (x + d - 1) d). nia.
Qed.
Next Obligation.
  intros x. simpl. rewrite andb_true_iff, Z.ltb_lt, Z.eqb_eq. split.
  - intros [Hx Heq]. exists (Z.log2 x). split; [apply Z.log2_nonneg|lia].
  - intros (k & Hk & ->). rewrite Z.log2_pow2 by lia. split; [|reflexivity].
    apply Z.pow_pos_nonneg; lia.
Qed.

(** A bitmap as the list of its bits. *)
Definition bm_get (b : list bool) (i : Z) : bool :=
  if i <? 0 then false else default false (b !! Z.to_nat i).
#[export] Program Instance bitmap_ref : Bitmap (list bool) := {|
  bitmap_empty := [];
  bitmap_size b := Z.of_nat (length b);
  Allocate n _ := replicate (Z.to_nat n) false;
  SetAll v b := (λ _, truthy v) <$> b;
  GetIndex := bm_get;
  SetIndex i v b := if i <? 0 then b else <[Z.to_nat i := v]> b
|}.
Next Obligation. intros n b Hn. simpl. rewrite length_replicate. lia. Qed.
Next Obligation. intros v b. simpl. rewrite length_fmap. reflexivity. Qed.
Next Obligation.
  intros b i Hi. unfold bm_get. simpl in Hi |- *. destruct (Z.ltb_spec i 0); [lia|].
  rewrite list_lookup_fmap.
  destruct (lookup_lt_is_Some_2 b (Z.to_nat i)) as [x Hx]; [lia|]. rewrite Hx. reflexivity.
Qed.
Next Obligation.
  intros i v b. simpl. destruct (i <? 0); [reflexivity|]. rewrite length_insert. reflexivity.
Qed.
Next Obligation.
  intros i v b Hi. simpl in *. unfold bm_get. destruct (Z.ltb_spec i 0); [lia|].
  rewrite list_lookup_insert_eq by lia. reflexivity.
Qed.
Next Obligation.
  intros i j v b Hi Hj Hne. simpl in *. unfold bm_get.
  destruct (Z.ltb_spec i 0); [lia|]. destruct (Z.ltb_spec j 0); [lia|].
  rewrite list_lookup_insert_ne by lia. reflexivity.
Qed.

(** A tree as its sorted list of entries. *)
Fixpoint assoc_insert {V} (k : Z) (v : V) (l : list (Z * V)) : list (Z * V) :=
  match l with
  | [] => [(k, v)]
  | (k', v') :: l' =>
      if k <? k' then (k, v) :: l
      else if k =? k' then (k, v) :: l'
      else (k', v') :: assoc_insert k v l'
  end.
Definition assoc_sorted {V} (l : list (Z * V)) : Prop := StronglySorted Z.lt l.*1.

Lemma assoc_insert_keys {V} (k : Z) (v : V) l x :
  x ∈ (assoc_insert k v l).*1 -> x = k \/ x ∈ l.*1.
Proof.
  induction l as [|[k' v'] l IH]; simpl; [set_solver|].
  destruct (Z.ltb_spec k k'); [simpl; set_solver|].
  destruct (Z.eqb_spec k k'); simpl; set_solver.
Qed.

Lemma assoc_insert_sorted {V} (k : Z) (v : V) l :
  assoc_sorted l -> assoc_sorted (assoc_insert k v l).
Proof.
  unfold assoc_sorted. induction l as [|[k' v'] l IH]; simpl; intros Hs.
  { repeat constructor. }
  apply StronglySorted_inv in Hs as [Hs Hall].
  destruct (Z.ltb_spec k k').
  - constructor; [constructor; assumption|]. constructor; [assumption|].
    eapply Forall_impl; [exact Hall|]. intros x Hx. simpl. lia.
  - destruct (Z.eqb_spec k k') as [->|]; simpl; [constructor; assumption|].
    constructor; [auto|]. apply Forall_forall. intros x Hx.
    apply assoc_insert_keys in Hx. simpl.
    destruct Hx as [->|Hx]; [lia|]. rewrite Forall_forall in Hall. now apply Hall.
Qed.

Lemma assoc_insert_perm {V} (k : Z) (v : V) l :
  k ∉ l.*1 -> assoc_insert k v l ≡ₚ (k, v) :: l.
Proof.
  induction l as [|[k' v'] l IH]; simpl; intros Hk; [reflexivity|].
  destruct (Z.ltb_spec k k'); [reflexivity|].
  destruct (Z.eqb_spec k k') as [->|]; [set_solver|].
  rewrite IH by set_solver. apply Permutation_swap.
Qed.

Lemma filter_sorted {V} (k : Z) (l : list (Z * V)) :
  assoc_sorted l -> assoc_sorted (filter (λ kv, kv.1 ≠ k) l).
Proof.
  unfold assoc_sorted. induction l as [|[k' v'] l IH]; simpl; intros Hs; [constructor|].
  apply StronglySorted_inv in Hs as [Hs Hall]. rewrite filter_cons. simpl.
  case_decide; [|auto]. simpl. constructor; [auto|].
  rewrite Forall_forall in Hall |- *. intros x Hx. apply Hall.
  apply list_elem_of_fmap in Hx as (kv & -> & Hkv).
  apply list_elem_of_fmap. exists kv. split; [reflexivity|].
  apply list_elem_of_filter in Hkv. tauto.
Qed.

#[export] Program Instance tree_ref {V} : RedBlackTree {l : list (Z * V) | assoc_sorted l} V := {|
  tree_empty := exist _ [] _;
  tree_elements t := proj1_sig t;
  tree_insert k v t := exist _ (assoc_insert k v (proj1_sig t)) _;
  tree_erase k t := exist _ (filter (λ kv, kv.1 ≠ k) (proj1_sig t)) _
|}.
Next Obligation. intros V. constructor. Qed.
Next Obligation. intros V k v [l Hl]. now apply assoc_insert_sorted. Qed.
Next Obligation. intros V k [l Hl]. now apply filter_sorted. Qed.
Next Obligation. reflexivity. Qed.
Next Obligation. intros V [l Hl]. exact Hl. Qed.
Next Obligation. intros V k v [l Hl] Hk. now apply assoc_insert_perm. Qed.
Next Obligation. reflexivity. Qed.
