(* ===== verification/PageTables.v ===== *)
(** * Page tables (x86_64)

    [Memory/PageTableEntry.hpp], [Arch/x86_64/VMM.cpp] and the architecture
    independent part of [Memory/VMM.cpp] ([PageMap::NextLevel]): page attributes,
    page-table entries, the table walk [Virt2Pte] with its on-demand allocation,
    and mapping, unmapping and translating one page. *)

From Stdlib Require Import ZArith Lia Bool.
From stdpp Require Import base gmap list numbers.
From S2P Require Import Prelude Prism.

(** ** Page attributes *)
Inductive PageAttributes :=
  | eRead | eWrite | eExecutable | eUser | eGlobal | eLPage | eLLPage
  | eRW | eRWX | eRWXU
  | eUncacheableStrong | eWriteCombining | eWriteThrough | eWriteProtected
  | eWriteBack | eUncacheable.

Definition attr (a : PageAttributes) : Z :=
  match a with
  | eRead => 1 .<< 0
  | eWrite => 1 .<< 1
  | eExecutable => 1 .<< 2
  | eUser => 1 .<< 3
  | eGlobal => 1 .<< 4
  | eLPage => 1 .<< 5
  | eLLPage => 1 .<< 6
  | eRW => (1 .<< 0) .| (1 .<< 1)
  | eRWX => ((1 .<< 0) .| (1 .<< 1)) .| (1 .<< 2)
  | eRWXU => (((1 .<< 0) .| (1 .<< 1)) .| (1 .<< 2)) .| (1 .<< 3)
  | eUncacheableStrong => 1 .<< 8
  | eWriteCombining => (1 .<< 7) .| (1 .<< 7)
  | eWriteThrough => 1 .<< 9
  | eWriteProtected => (1 .<< 9) .| (1 .<< 7)
  | eWriteBack => (1 .<< 9) .| (1 .<< 8)
  | eUncacheable => ((1 .<< 7) .| (1 .<< 8)) .| (1 .<< 9)
  end.
Coercion attr : PageAttributes >-> Z.

(** The operators on attribute sets go through [int], except [&], which is on
    [isize]; sets are signed 64-bit values. *)
Definition attr_not (value : Z) : Z := Z.lnot (i32 value).
Definition attr_or (left right : Z) : Z := i32 left .| i32 right.
Definition attr_and (left right : Z) : Z := left .& right.
Definition attr_xor (left right : Z) : Z := Z.lxor (i32 left) (i32 right).

(** ** Native entry bits *)
Definition PTE_PRESENT : Z := 1 .<< 0.
Definition PTE_WRITEABLE : Z := 1 .<< 1.
Definition PTE_USER_SUPER : Z := 1 .<< 2.
Definition PTE_PWT : Z := 1 .<< 3.
Definition PTE_PCD : Z := 1 .<< 4.
Definition PTE_LPAGE : Z := 1 .<< 7.
Definition PTE_PAT4K : Z := 1 .<< 7.
Definition PTE_GLOBAL : Z := 1 .<< 8.
Definition PTE_PATLG : Z := 1 .<< 12.
Definition PTE_NOEXEC : Z := 1 .<< 63.

Definition PTE_ADDRESS_MASK : Z := 0x000ffffffffff000.
Definition g_DefaultPteFlags : Z := PTE_PRESENT .| PTE_WRITEABLE .| PTE_USER_SUPER.
Definition PAGE_SIZE : Z := 0x1000.
Definition LPAGE_SIZE : Z := 0x200000.
Definition LLPAGE_SIZE : Z := 0x40000000.
Definition GetAddressMask : Z := PTE_ADDRESS_MASK.

(** [ret] is declared without an initialiser: [ret0] is the indeterminate value
    it starts from. *)
Definition FromNativeFlags (ret0 flags : Z) : Z :=
  let ret := ret0 in
  let ret := if truthy (flags .& PTE_PRESENT) then attr_or ret eRead else ret in
  let ret := if truthy (flags .& PTE_WRITEABLE) then attr_or ret eWrite else ret in
  let ret := if negb (truthy (flags .& PTE_NOEXEC)) then attr_or ret eExecutable else ret in
  let ret := if truthy (flags .& PTE_USER_SUPER) then attr_or ret eUser else ret in
  let ret := if truthy (flags .& PTE_GLOBAL) then attr_or ret eGlobal else ret in
  let patbit := if truthy (flags .& PTE_LPAGE) then PTE_PATLG else PTE_PAT4K in
  if flags .& (patbit .| PTE_PCD) =? patbit .| PTE_PCD then attr_or ret eWriteBack
  else if flags .& (PTE_PCD .| PTE_PWT) =? PTE_PCD .| PTE_PWT then attr_or ret eWriteCombining
  else ret.

Definition ToNativeFlags (attribs : Z) : Z :=
  let pteFlags := PTE_PRESENT in
  let pteFlags := if truthy (attr_and attribs eWrite) then pteFlags .| PTE_WRITEABLE else pteFlags in
  let pteFlags :=
    if negb (truthy (attr_and attribs eExecutable)) then pteFlags .| PTE_NOEXEC else pteFlags in
  let pteFlags := if truthy (attr_and attribs eUser) then pteFlags .| PTE_USER_SUPER else pteFlags in
  let pteFlags := if truthy (attr_and attribs eGlobal) then pteFlags .| PTE_GLOBAL else pteFlags in
  let pteFlags :=
    if truthy (attr_and attribs eLPage) || truthy (attr_and attribs eLLPage)
    then pteFlags .| PTE_LPAGE else pteFlags in
  let largePages := truthy (pteFlags .& PTE_LPAGE) in
  let patbit := if largePages then PTE_PATLG else PTE_PAT4K in
  let pteFlags :=
    if truthy (attr_and attribs eUncacheableStrong) then pteFlags .| PTE_PCD else pteFlags in
  if truthy (attr_and attribs eWriteCombining)
  then (pteFlags .| (PTE_PCD .| PTE_PWT)) .& not64 patbit
  else if truthy (attr_and attribs eWriteThrough) then pteFlags .| patbit
  else if truthy (attr_and attribs eWriteProtected) then pteFlags .| (patbit .| PTE_PWT)
  else if truthy (attr_and attribs eWriteBack) then pteFlags .| (patbit .| PTE_PCD)
  else if truthy (attr_and attribs eUncacheable) then pteFlags .| (patbit .| PTE_PCD .| PTE_PWT)
  else pteFlags.

Definition GetPageSize (flags : Z) : Z :=
  if truthy (attr_and flags eLLPage) then LLPAGE_SIZE
  else if truthy (attr_and flags eLPage) then LPAGE_SIZE
  else PAGE_SIZE.

(** ** Page-table entries: a 64-bit word *)
Definition Address (pte : Z) : Z := pte .& GetAddressMask.
Definition GetFlag (pte flag : Z) : bool := truthy (pte .& flag).
Definition Flags (pte : Z) : Z := pte .& not64 GetAddressMask.
Definition SetAddress (pte address : Z) : Z := (pte .& not64 GetAddressMask) .| address.
Definition SetFlags (pte flags : Z) (enabled : bool) : Z :=
  if enabled then pte .| flags else pte .& not64 flags.
Definition Clear (pte : Z) : Z := 0.
Definition IsValid (pte : Z) : bool := GetFlag pte PTE_PRESENT.
Definition IsLarge (pte : Z) : bool := GetFlag pte PTE_LPAGE.

Inductive PagingMode := eLevel4 | eLevel5.

(** ** The heap behind [new PageTable]

    [Callocate] is [KernelHeap::Callocate], reached through [operator new]; its
    slab pool is a Prism container.  It returns the address of a zeroed block, 0
    when it has none.  [live] is the set of blocks handed out. *)
Class TableHeap {HH : HigherHalf} (H : Type) := {
  Callocate : H -> Z -> Z * H;
  live : H -> gset Z;
  Callocate_fresh (h : H) (n p : Z) (h' : H) :
    Callocate h n = (p, h') -> p <> 0 -> p ∉ live h /\ live h' = live h ∪ {[p]};
  Callocate_none (h : H) (n : Z) (h' : H) : Callocate h n = (0, h') -> live h' = live h;
  Callocate_aligned (h : H) (p : Z) (h' : H) :
    Callocate h 4096 = (p, h') -> p <> 0 ->
    FromHigherHalf p .& PTE_ADDRESS_MASK = FromHigherHalf p /\
    ToHigherHalf (FromHigherHalf p) = p
}.

Section Walk.
Context {HH : HigherHalf} {H : Type} {TH : TableHeap H}.
Variable pagingMode : PagingMode.

(** Page tables live in kernel memory and are named by the (higher-half) address
    of their first entry; a [PageTableEntry*] is a table and an index. *)
Record Memory := mkMemory { tables : gmap Z (list Z); heap : H }.
Definition PtePtr : Type := Z * Z.

Definition rd (m : Memory) (e : PtePtr) : Z :=
  match tables m !! e.1 with
  | Some entries => default 0 (entries !! Z.to_nat e.2)
  | None => 0
  end.
Definition wr (m : Memory) (e : PtePtr) (v : Z) : Memory :=
  mkMemory (alter (λ entries, <[Z.to_nat e.2 := v]> entries) e.1 (tables m)) (heap m).

(** What [new PageTable] leaves at its address: 512 zeroed entries. *)
Definition zeroed_table : list Z := replicate 512 0.

Definition AllocatePageTable (m : Memory) : Z * Memory :=
  let '(p, h') := Callocate (heap m) 4096 in
  (p, mkMemory (if p =? 0 then tables m else <[p := zeroed_table]> (tables m)) h').

Definition NextLevel (m : Memory) (entry : PtePtr) (allocate : bool) : Z * Memory :=
  if IsValid (rd m entry) then (ToHigherHalf (Address (rd m entry)), m)
  else if negb allocate then (0, m)
  else
    let '(newEntry, m1) := AllocatePageTable m in
    let v := SetAddress (rd m1 entry) (FromHigherHalf newEntry) in
    (newEntry, wr m1 entry (SetFlags v g_DefaultPteFlags true)).

Definition Virt2Pte (m : Memory) (topLevel virt : Z) (allocate : bool) (pageSize : Z)
    : option PtePtr * Memory :=
  let pml5Entry := (virt .>> 48) .& 0x1ff in
  let pml4Entry := (virt .>> 39) .& 0x1ff in
  let pml3Entry := (virt .>> 30) .& 0x1ff in
  let pml2Entry := (virt .>> 21) .& 0x1ff in
  let pml1Entry := (virt .>> 12) .& 0x1ff in
  if topLevel =? 0 then (None, m) else
  let '(pml4, m) :=
    match pagingMode with
    | eLevel5 => NextLevel m (topLevel, pml5Entry) allocate
    | eLevel4 => (topLevel, m)
    end in
  if pml4 =? 0 then (None, m) else
  let '(pml3, m) := NextLevel m (pml4, pml4Entry) allocate in
  if pml3 =? 0 then (None, m) else
  if (pageSize =? LLPAGE_SIZE) || IsLarge (rd m (pml3, pml3Entry))
  then (Some (pml3, pml3Entry), m) else
  let '(pml2, m) := NextLevel m (pml3, pml3Entry) allocate in
  if pml2 =? 0 then (None, m) else
  if (pageSize =? LPAGE_SIZE) || IsLarge (rd m (pml2, pml2Entry))
  then (Some (pml2, pml2Entry), m) else
  let '(pml1, m) := NextLevel m (pml2, pml2Entry) allocate in
  if pml1 =? 0 then (None, m) else (Some (pml1, pml1Entry), m).

(** [u64(-1)] is the "not mapped" answer. *)
Definition Virt2Phys (m : Memory) (m_TopLevel virt flags : Z) : Z :=
  let pageSize := GetPageSize flags in
  match (Virt2Pte m m_TopLevel virt false pageSize).1 with
  | None => 2 ^ 64 - 1
  | Some pmlEntry =>
      if negb (GetFlag (rd m pmlEntry) PTE_PRESENT) then 2 ^ 64 - 1
      else u64 (Address (rd m pmlEntry) + virt mod pageSize)
  end.

(** [InternalMap] once the page size is one the hardware supports. *)
Definition InternalMapOne (m : Memory) (m_TopLevel virt phys flags pageSize : Z) : bool * Memory :=
  match Virt2Pte m m_TopLevel virt true pageSize with
  | (None, m) => (false, m)
  | (Some pmlEntry, m) =>
      let v := Clear (rd m pmlEntry) in
      let v := SetAddress v phys in
      let v := SetFlags v (ToNativeFlags flags) true in
      (true, wr m pmlEntry v)
  end.

(** Run [step] on each offset until one fails. *)
Fixpoint all_pages (step : Memory -> Z -> bool * Memory) (m : Memory) (offsets : list Z)
    : bool * Memory :=
  match offsets with
  | [] => (true, m)
  | i :: offsets =>
      match step m i with
      | (true, m) => all_pages step m offsets
      | (false, m) => (false, m)
      end
  end.

Variable s_1GibPages : bool.

Definition InternalMap (m : Memory) (m_TopLevel virt phys flags : Z) : bool * Memory :=
  let pageSize := GetPageSize flags in
  if (pageSize =? LLPAGE_SIZE) && negb s_1GibPages then
    let flags := attr_or (attr_and flags (attr_not eLLPage)) eLPage in
    all_pages (λ m i,
        InternalMapOne m m_TopLevel (u64 (virt + i)) (u64 (phys + i)) flags (GetPageSize flags))
      m (strides 0x40000000 0x200000)
  else InternalMapOne m m_TopLevel virt phys flags pageSize.

Definition unmapOne (m : Memory) (m_TopLevel virt pageSize : Z) : bool * Memory :=
  match Virt2Pte m m_TopLevel virt false pageSize with
  | (None, m) => (false, m)
  | (Some pmlEntry, m) => (true, wr m pmlEntry (Clear (rd m pmlEntry)))
  end.

Definition InternalUnmap (m : Memory) (m_TopLevel virt flags : Z) : bool * Memory :=
  let pageSize := GetPageSize flags in
  if (pageSize =? LLPAGE_SIZE) && negb s_1GibPages then
    all_pages (λ m i, unmapOne m m_TopLevel (u64 (virt + i)) 0x200000) m
      (strides 0x40000000 0x200000)
  else unmapOne m m_TopLevel virt pageSize.

Definition PageMap_SetFlags (m : Memory) (m_TopLevel virt flags : Z) : bool * Memory :=
  let pageSize := GetPageSize flags in
  match Virt2Pte m m_TopLevel virt true pageSize with
  | (None, m) => (false, m)
  | (Some pmlEntry, m) =>
      let nativeFlags := ToNativeFlags flags in
      let addr := Address (rd m pmlEntry) in
      let v := Clear (rd m pmlEntry) in
      let v := SetAddress v addr in
      (true, wr m pmlEntry (SetFlags v nativeFlags true))
  end.
End Walk.
