(* ===== verification/PageTableProofs.v ===== *)
(** * Page tables: the walk refines the address translation of the MMU

    The abstract view of a page map is the hardware walk [mmu]: from a virtual
    address to the leaf entry that translates it.  The theorems show that mapping
    and unmapping one page change that view at exactly the addresses of the page,
    whatever tables they allocate on the way, and that [Virt2Phys] reads it back. *)

From Stdlib Require Import ZArith Lia Bool.
From stdpp Require Import base gmap list numbers.
From S2P Require Import Prelude Prism PageTables.

(** ** Entries, bit by bit *)
Lemma IsValid_bit (p : Z) : IsValid p = Z.testbit p 0.
Proof. apply truthy_land_bit. lia. Qed.
Lemma IsLarge_bit (p : Z) : IsLarge p = Z.testbit p 7.
Proof. apply truthy_land_bit. lia. Qed.

Definition mask_bit (i : Z) : bool := (12 <=? i) && (i <? 52).
Lemma testbit_mask (i : Z) : 0 <= i -> Z.testbit PTE_ADDRESS_MASK i = mask_bit i.
Proof.
  intros Hi. change PTE_ADDRESS_MASK with (Z.ones 40 .<< 12). unfold mask_bit.
  rewrite Z.shiftl_spec by lia. destruct (Z.leb_spec 12 i).
  - rewrite testbit_ones by lia. simpl. apply eq_true_iff_eq. rewrite !Z.ltb_lt. lia.
  - rewrite Z.testbit_neg_r by lia. reflexivity.
Qed.

Lemma testbit_not64 (x i : Z) :
  0 <= i < 64 -> Z.testbit (not64 x) i = negb (Z.testbit x i).
Proof.
  intros Hi. unfold not64. rewrite Z.lxor_spec, testbit_ones by lia.
  destruct (Z.ltb_spec i 64); [|lia]. apply xorb_true_r.
Qed.

(** Writing an address that fits the mask makes it the entry's address and keeps
    every flag outside the mask. *)
Lemma Address_SetAddress (p a fl : Z) :
  a .& PTE_ADDRESS_MASK = a -> fl .& PTE_ADDRESS_MASK = 0 ->
  Address (SetFlags (SetAddress p a) fl true) = a.
Proof.
  intros Ha Hf. unfold Address, SetFlags, SetAddress, GetAddressMask.
  rewrite !Z.land_lor_distr_l, Ha, Hf, Z.lor_0_r.
  replace (p .& not64 PTE_ADDRESS_MASK .& PTE_ADDRESS_MASK) with 0; [reflexivity|].
  bitwise i. rewrite testbit_mask by lia. unfold mask_bit.
  destruct (Z.leb_spec 12 i); [|now rewrite andb_false_r].
  destruct (Z.ltb_spec i 52); [|now rewrite andb_false_r].
  rewrite testbit_not64, testbit_mask by lia. unfold mask_bit.
  destruct (Z.leb_spec 12 i), (Z.ltb_spec i 52); lia.
Qed.

Lemma testbit_SetAddress (p a i : Z) :
  a .& PTE_ADDRESS_MASK = a -> 0 <= i < 12 -> Z.testbit (SetAddress p a) i = Z.testbit p i.
Proof.
  intros Ha Hi. unfold SetAddress, GetAddressMask. autorewrite with bits.
  rewrite <- Ha, Z.land_spec, testbit_not64, testbit_mask by lia. unfold mask_bit.
  destruct (Z.leb_spec 12 i); [lia|]. simpl. now rewrite andb_true_r, andb_false_r, orb_false_r.
Qed.

(** ** The attribute translation *)
Lemma truthy_land_lor (x a b : Z) : truthy (x .& (a .| b)) = truthy (x .& a) || truthy (x .& b).
Proof.
  unfold truthy. rewrite Z.land_lor_distr_r.
  destruct (Z.eqb_spec (x .& a) 0) as [->|Ha]; [reflexivity|].
  destruct (Z.eqb_spec (x .& a .| x .& b) 0) as [E|]; [|reflexivity].
  apply Z.lor_eq_0_iff in E. tauto.
Qed.

(** An attribute test is a test of the attribute's bits. *)
Ltac attr_cases attribs :=
  unfold attr_and, attr; rewrite ?truthy_land_lor, ?truthy_land_bit by lia;
  destruct (Z.testbit attribs 1), (Z.testbit attribs 2), (Z.testbit attribs 3),
    (Z.testbit attribs 4), (Z.testbit attribs 5), (Z.testbit attribs 6),
    (Z.testbit attribs 7), (Z.testbit attribs 8), (Z.testbit attribs 9).

(** The flags written into an entry: present, only flag bits, and the page-size
    bit exactly when a large page is asked for. *)
Lemma ToNativeFlags_shape (attribs : Z) :
  let large := Z.testbit attribs 5 || Z.testbit attribs 6 in
  IsValid (ToNativeFlags attribs) = true /\
  (large = true -> IsLarge (ToNativeFlags attribs) = true) /\
  (large = false -> ToNativeFlags attribs .& PTE_ADDRESS_MASK = 0).
Proof.
  unfold ToNativeFlags. attr_cases attribs; vm_compute; repeat split; (discriminate || reflexivity).
Qed.

Lemma GetPageSize_bits (flags : Z) :
  GetPageSize flags =
    if Z.testbit flags 6 then LLPAGE_SIZE else if Z.testbit flags 5 then LPAGE_SIZE else PAGE_SIZE.
Proof. unfold GetPageSize, attr_and, attr. now rewrite !truthy_land_bit by lia. Qed.

Section WalkProofs.
Context {HH : HigherHalf} {H : Type} {TH : TableHeap H}.
Implicit Types (m : Memory (H:=H)) (L : gmap Z nat) (e : PtePtr).

(** ** The walk, level by level *)
Definition idx (k : nat) (virt : Z) : Z := (virt .>> (12 + 9 * (Z.of_nat k - 1))) .& 0x1ff.

Lemma idx_range (k : nat) (virt : Z) : 0 <= idx k virt < 512.
Proof.
  unfold idx. change 0x1ff with (Z.ones 9). rewrite Z.land_ones by lia.
  apply Z.mod_pos_bound. lia.
Qed.

Fixpoint walk (k stop : nat) m (t virt : Z) (allocate : bool) : option PtePtr * Memory :=
  match k with
  | O => (None, m)
  | S k' =>
      if (k =? stop)%nat || ((k <=? 3)%nat && IsLarge (rd m (t, idx k virt)))
      then (Some (t, idx k virt), m)
      else
        let '(t', m') := NextLevel m (t, idx k virt) allocate in
        if t' =? 0 then (None, m') else walk k' stop m' t' virt allocate
  end.

Definition depth (pagingMode : PagingMode) : nat :=
  match pagingMode with eLevel4 => 4 | eLevel5 => 5 end.
Definition stop_of (pageSize : Z) : nat :=
  if pageSize =? LLPAGE_SIZE then 3 else if pageSize =? LPAGE_SIZE then 2 else 1.

Lemma stop_of_eqb (pageSize : Z) :
  (3 =? stop_of pageSize)%nat = (pageSize =? LLPAGE_SIZE) /\
  (2 =? stop_of pageSize)%nat = (pageSize =? LPAGE_SIZE) /\
  (1 <= stop_of pageSize <= 3)%nat.
Proof.
  unfold stop_of. destruct (Z.eqb_spec pageSize LLPAGE_SIZE) as [->|];
    [|destruct (Z.eqb_spec pageSize LPAGE_SIZE)]; repeat split; lia.
Qed.

(** The part of [Virt2Pte] below the fourth level. *)
Lemma walk_from_pml4 m (pml4 virt pageSize : Z) (allocate : bool) :
  (let '(pml3, m) := NextLevel m (pml4, idx 4 virt) allocate in
   if pml3 =? 0 then (None, m) else
   if (pageSize =? LLPAGE_SIZE) || IsLarge (rd m (pml3, idx 3 virt))
   then (Some (pml3, idx 3 virt), m) else
   let '(pml2, m) := NextLevel m (pml3, idx 3 virt) allocate in
   if pml2 =? 0 then (None, m) else
   if (pageSize =? LPAGE_SIZE) || IsLarge (rd m (pml2, idx 2 virt))
   then (Some (pml2, idx 2 virt), m) else
   let '(pml1, m) := NextLevel m (pml2, idx 2 virt) allocate in
   if pml1 =? 0 then (None, m) else (Some (pml1, idx 1 virt), m)) =
  walk 4 (stop_of pageSize) m pml4 virt allocate.
Proof.
  destruct (stop_of_eqb pageSize) as (Hs3 & Hs2 & Hs).
  generalize dependent (stop_of pageSize). intros s Hs3 Hs2 Hs.
  assert (H4 : (4 =? s)%nat = false) by (apply Nat.eqb_neq; lia).
  cbn [walk]. rewrite H4. cbn [orb Nat.leb andb].
  destruct (NextLevel m _ allocate) as [t3 m3]. destruct (t3 =? 0); [reflexivity|].
  rewrite Hs3. destruct ((pageSize =? LLPAGE_SIZE) || IsLarge (rd m3 (t3, idx 3 virt))) eqn:E3;
    [reflexivity|].
  destruct (NextLevel m3 _ allocate) as [t2 m2]. destruct (t2 =? 0); [reflexivity|].
  rewrite Hs2. destruct ((pageSize =? LPAGE_SIZE) || IsLarge (rd m2 (t2, idx 2 virt))) eqn:E2;
    [reflexivity|].
  destruct (NextLevel m2 _ allocate) as [t1 m1]. destruct (t1 =? 0); [reflexivity|].
  apply orb_false_iff in E3 as [E3 _], E2 as [E2 _]. rewrite E3 in Hs3. rewrite E2 in Hs2.
  apply Nat.eqb_neq in Hs3, Hs2. replace s with 1%nat by lia. reflexivity.
Qed.

Lemma Virt2Pte_walk (pm : PagingMode) m (top virt : Z) (allocate : bool) (pageSize : Z) :
  Virt2Pte pm m top virt allocate pageSize =
    if top =? 0 then (None, m) else walk (depth pm) (stop_of pageSize) m top virt allocate.
Proof.
  unfold Virt2Pte. destruct (top =? 0) eqn:Htop; [reflexivity|]. destruct pm; cbn [depth].
  - rewrite Htop. apply walk_from_pml4.
  - destruct (stop_of_eqb pageSize) as (_ & _ & Hs).
    assert (H5 : (5 =? stop_of pageSize)%nat = false) by (apply Nat.eqb_neq; lia).
    cbn [walk]. rewrite H5. cbn [orb Nat.leb andb].
    change ((virt .>> 48) .& 0x1ff) with (idx 5 virt).
    destruct (NextLevel m _ allocate) as [t4 m4]. destruct (t4 =? 0) eqn:E4; [reflexivity|].
    apply walk_from_pml4.
Qed.

(** ** Reading and writing entries *)
Lemma rd_wr_eq m e v l :
  tables m !! e.1 = Some l -> 0 <= e.2 < Z.of_nat (length l) -> rd (wr m e v) e = v.
Proof.
  intros Hl He. unfold rd, wr. simpl. rewrite lookup_alter_eq, Hl. simpl.
  rewrite list_lookup_insert_eq by lia. reflexivity.
Qed.

Lemma rd_wr_ne m e e' v : e <> e' -> 0 <= e.2 -> 0 <= e'.2 -> rd (wr m e v) e' = rd m e'.
Proof.
  destruct e as [t i], e' as [t' i']. simpl. intros Hne Hi Hi'. unfold rd, wr. simpl.
  destruct (decide (t = t')) as [<-|Ht].
  - rewrite lookup_alter_eq. destruct (tables m !! t) as [l|]; [|reflexivity]. simpl.
    rewrite list_lookup_insert_ne; [reflexivity|]. intros E. apply Hne. f_equal. lia.
  - now rewrite lookup_alter_ne by congruence.
Qed.

Lemma wr_tables m e v t l :
  tables (wr m e v) !! t = Some l -> exists l', tables m !! t = Some l' /\ length l' = length l.
Proof.
  unfold wr. simpl. destruct (decide (e.1 = t)) as [<-|Ht].
  - rewrite lookup_alter_eq. destruct (tables m !! e.1) as [l'|]; [|discriminate].
    intros [= <-]. exists l'. split; [reflexivity|]. now rewrite length_insert.
  - rewrite lookup_alter_ne by congruence. eauto.
Qed.

Lemma wr_tables_some m e v t : is_Some (tables (wr m e v) !! t) <-> is_Some (tables m !! t).
Proof. unfold wr. simpl. rewrite lookup_alter. case_decide; [subst|reflexivity]. apply fmap_is_Some. Qed.

(** ** Well-formed page maps

    [L] labels each allocated table with its level.  An entry of a table of level
    [k >= 2] that is present and is not a large page leads to a table of level
    [k - 1], no two such entries lead to the same table, and an entry that is not
    present does not carry the page-size bit. *)
Definition child (k : nat) (p : Z) : bool := IsValid p && negb ((k <=? 3)%nat && IsLarge p).
Definition target (p : Z) : Z := ToHigherHalf (Address p).

Record wf m L : Prop := {
  wf_dom t : is_Some (tables m !! t) <-> is_Some (L !! t);
  wf_live t : is_Some (L !! t) -> t ∈ live (heap m);
  wf_null : L !! 0 = None;
  wf_len t l : tables m !! t = Some l -> length l = 512%nat;
  wf_child t k i : L !! t = Some k -> (2 <= k)%nat -> 0 <= i < 512 ->
    child k (rd m (t, i)) = true -> L !! target (rd m (t, i)) = Some (k - 1)%nat;
  wf_absent t k i : L !! t = Some k -> (2 <= k)%nat -> 0 <= i < 512 ->
    IsValid (rd m (t, i)) = false -> IsLarge (rd m (t, i)) = false;
  wf_inj t1 t2 k1 k2 i1 i2 : L !! t1 = Some k1 -> L !! t2 = Some k2 ->
    (2 <= k1)%nat -> (2 <= k2)%nat -> 0 <= i1 < 512 -> 0 <= i2 < 512 ->
    child k1 (rd m (t1, i1)) = true -> child k2 (rd m (t2, i2)) = true ->
    target (rd m (t1, i1)) = target (rd m (t2, i2)) -> t1 = t2 /\ i1 = i2
}.

Lemma wf_table m L t k : wf m L -> L !! t = Some k -> exists l, tables m !! t = Some l /\ length l = 512%nat.
Proof.
  intros Hwf Ht. destruct (proj2 (wf_dom _ _ Hwf t)) as [l Hl]; [eauto|].
  exists l. split; [exact Hl|]. eapply wf_len; eauto.
Qed.

(** ** One level down *)
Lemma NextLevel_child m L t k i allocate :
  wf m L -> L !! t = Some k -> (2 <= k)%nat -> 0 <= i < 512 -> child k (rd m (t, i)) = true ->
  NextLevel m (t, i) allocate = (target (rd m (t, i)), m) /\ target (rd m (t, i)) <> 0.
Proof.
  intros Hwf Ht Hk Hi Hc. assert (Hc' := Hc). unfold child in Hc'. apply andb_true_iff in Hc' as [Hv _].
  split; [unfold NextLevel; now rewrite Hv|].
  intros E. pose proof (wf_child _ _ Hwf t k i Ht Hk Hi Hc) as HL.
  rewrite E, (wf_null _ _ Hwf) in HL. discriminate.
Qed.

(** The entry [NextLevel] writes for a new table. *)
Lemma fresh_entry (p a : Z) :
  a .& PTE_ADDRESS_MASK = a ->
  let v := SetFlags (SetAddress p a) g_DefaultPteFlags true in
  Address v = a /\ IsValid v = true /\ IsLarge v = IsLarge p.
Proof.
  intros Ha v. split; [now apply Address_SetAddress|].
  rewrite IsValid_bit, !IsLarge_bit. subst v. unfold SetFlags. autorewrite with bits.
  rewrite !testbit_SetAddress by (trivial; lia).
  split; [apply orb_true_r|reflexivity].
Qed.

Lemma NextLevel_fresh_unfold m L t k i t' m' :
  wf m L -> L !! t = Some k -> 0 <= i < 512 ->
  IsValid (rd m (t, i)) = false -> NextLevel m (t, i) true = (t', m') -> t' <> 0 ->
  exists h', Callocate (heap m) 4096 = (t', h') /\ L !! t' = None /\
    m' = wr (mkMemory (<[t' := zeroed_table]> (tables m)) h') (t, i)
           (SetFlags (SetAddress (rd m (t, i)) (FromHigherHalf t')) g_DefaultPteFlags true).
Proof.
  intros Hwf Ht Hi Hv Hn Hne. unfold NextLevel in Hn. rewrite Hv in Hn. simpl in Hn.
  unfold AllocatePageTable in Hn. destruct (Callocate (heap m) 4096) as [p h'] eqn:Ec.
  injection Hn as -> Hm. exists h'. split; [reflexivity|].
  destruct (Callocate_fresh _ _ _ _ Ec Hne) as [Hfresh _].
  assert (HL : L !! t' = None).
  { destruct (L !! t') eqn:E; [|reflexivity]. destruct Hfresh. apply (wf_live _ _ Hwf). eauto. }
  split; [exact HL|]. rewrite <- Hm. destruct (Z.eqb_spec t' 0); [lia|].
  unfold rd at 1. simpl. rewrite lookup_insert_ne by congruence. reflexivity.
Qed.

Lemma rd_insert_table m t' (h' : H) e :
  0 <= e.2 -> rd (mkMemory (<[t' := zeroed_table]> (tables m)) h') e = if decide (e.1 = t') then 0 else rd m e.
Proof.
  intros He. unfold rd. simpl. case_decide as E.
  - rewrite E, lookup_insert_eq. destruct (zeroed_table !! Z.to_nat e.2) eqn:El; [|reflexivity].
    apply lookup_replicate in El. simpl. tauto.
  - now rewrite lookup_insert_ne by congruence.
Qed.

Lemma NextLevel_fresh_reads m L t k i t' m' :
  wf m L -> L !! t = Some k -> 0 <= i < 512 ->
  IsValid (rd m (t, i)) = false -> ((k <=? 3)%nat && IsLarge (rd m (t, i))) = false ->
  NextLevel m (t, i) true = (t', m') -> t' <> 0 ->
  L !! t' = None /\ child k (rd m' (t, i)) = true /\ target (rd m' (t, i)) = t' /\
  (forall j, 0 <= j -> rd m' (t', j) = 0) /\
  (forall e, 0 <= e.2 -> e.1 <> t' -> e <> (t, i) -> rd m' e = rd m e).
Proof.
  intros Hwf Ht Hi Hv Hl Hn Hne.
  destruct (NextLevel_fresh_unfold _ _ _ _ _ _ _ Hwf Ht Hi Hv Hn Hne) as (h' & Ec & HL & ->).
  destruct (Callocate_aligned _ _ _ Ec Hne) as [Ha Hth].
  destruct (fresh_entry (rd m (t, i)) _ Ha) as (Had & Hva & Hla).
  destruct (wf_table _ _ _ _ Hwf Ht) as (l & Htab & Hlen).
  assert (Htt : t <> t') by congruence.
  rewrite (rd_wr_eq _ _ _ l) by (simpl; first [now rewrite lookup_insert_ne by congruence|lia]).
  split; [exact HL|]. unfold child, target. rewrite Had, Hva, Hla, Hl, Hth.
  split; [reflexivity|]. split; [reflexivity|]. split.
  - intros j Hj. rewrite rd_wr_ne, rd_insert_table by (simpl; congruence || lia).
    simpl. now rewrite decide_True.
  - intros e He Het Hei. rewrite rd_wr_ne, rd_insert_table by (simpl; congruence || lia).
    now rewrite decide_False.
Qed.

Lemma child_0 (k : nat) : child k 0 = false.
Proof. reflexivity. Qed.

Lemma NextLevel_fresh_wf m L t k i t' m' :
  wf m L -> L !! t = Some k -> (2 <= k)%nat -> 0 <= i < 512 ->
  IsValid (rd m (t, i)) = false -> ((k <=? 3)%nat && IsLarge (rd m (t, i))) = false ->
  NextLevel m (t, i) true = (t', m') -> t' <> 0 -> wf m' (<[t' := (k - 1)%nat]> L).
Proof.
  intros Hwf Ht Hk Hi Hv Hl Hn Hne.
  destruct (NextLevel_fresh_reads _ _ _ _ _ _ _ Hwf Ht Hi Hv Hl Hn Hne) as (HL & Hc & Htg & Hz & Ho).
  destruct (NextLevel_fresh_unfold _ _ _ _ _ _ _ Hwf Ht Hi Hv Hn Hne) as (h' & Ec & _ & Hm').
  destruct (Callocate_fresh _ _ _ _ Ec Hne) as [_ Hlive].
  assert (Hcase : forall t0 k0 i0, <[t' := (k - 1)%nat]> L !! t0 = Some k0 -> (2 <= k0)%nat ->
    0 <= i0 < 512 -> child k0 (rd m' (t0, i0)) = true ->
    (t0 = t /\ i0 = i /\ k0 = k) \/
    (L !! t0 = Some k0 /\ (t0, i0) <> (t, i) /\ rd m' (t0, i0) = rd m (t0, i0))).
  { intros t0 k0 i0 HL0 Hk0 Hi0 Hc0. apply lookup_insert_Some in HL0 as [[<- <-]|[Hne0 HL0]].
    - rewrite Hz in Hc0 by lia. discriminate.
    - destruct (decide ((t0, i0) = (t, i))) as [[= -> ->]|Hd]; [left; split_and!; congruence|].
      right. split_and!; [exact HL0|exact Hd|apply Ho; simpl; congruence || lia]. }
  assert (Htgt : forall t0 k0 i0, L !! t0 = Some k0 -> (2 <= k0)%nat -> 0 <= i0 < 512 ->
    child k0 (rd m (t0, i0)) = true -> target (rd m (t0, i0)) <> t').
  { intros t0 k0 i0 HL0 Hk0 Hi0 Hc0 E. pose proof (wf_child _ _ Hwf _ _ _ HL0 Hk0 Hi0 Hc0). congruence. }
  constructor.
  - intros t0. subst m'. rewrite wr_tables_some. simpl. rewrite !lookup_insert_is_Some.
    rewrite (wf_dom _ _ Hwf). reflexivity.
  - intros t0 Ht0. subst m'. simpl. rewrite Hlive. apply lookup_insert_is_Some in Ht0 as [->|[_ Ht0]];
      [set_solver|]. apply (wf_live _ _ Hwf) in Ht0. set_solver.
  - rewrite lookup_insert_ne by congruence. apply (wf_null _ _ Hwf).
  - intros t0 l. subst m'. intros (l' & Hl' & Hlen)%wr_tables. simpl in Hl'.
    rewrite <- Hlen. apply lookup_insert_Some in Hl' as [[_ <-]|[_ Hl']]; [reflexivity|].
    now apply (wf_len _ _ Hwf) in Hl'.
  - intros t0 k0 i0 HL0 Hk0 Hi0 Hc0.
    destruct (Hcase _ _ _ HL0 Hk0 Hi0 Hc0) as [(-> & -> & ->)|(HL' & _ & Hrd)].
    + rewrite Htg. apply lookup_insert_eq.
    + rewrite Hrd in Hc0 |- *. rewrite lookup_insert_ne by (intros E; symmetry in E; eapply Htgt; eauto).
      now apply (wf_child _ _ Hwf).
  - intros t0 k0 i0 HL0 Hk0 Hi0 Hv0. apply lookup_insert_Some in HL0 as [[<- <-]|[Hne0 HL0]].
    + now rewrite Hz by lia.
    + destruct (decide ((t0, i0) = (t, i))) as [[= -> ->]|Hd].
      * unfold child in Hc. rewrite Hv0 in Hc. discriminate.
      * rewrite Ho in Hv0 |- * by (simpl; congruence || lia). now apply (wf_absent _ _ Hwf _ k0).
  - intros t1 t2 k1 k2 i1 i2 HL1 HL2 Hk1 Hk2 Hi1 Hi2 Hc1 Hc2 E.
    destruct (Hcase _ _ _ HL1 Hk1 Hi1 Hc1) as [(-> & -> & ->)|(HL1' & _ & Hrd1)];
      destruct (Hcase _ _ _ HL2 Hk2 Hi2 Hc2) as [(-> & -> & ->)|(HL2' & _ & Hrd2)].
    + auto.
    + rewrite Hrd2 in *. destruct (Htgt _ _ _ HL2' Hk2 Hi2 Hc2). congruence.
    + rewrite Hrd1 in *. destruct (Htgt _ _ _ HL1' Hk1 Hi1 Hc1). congruence.
    + rewrite Hrd1, Hrd2 in *. exact (wf_inj _ _ Hwf _ _ _ _ _ _ HL1' HL2' Hk1 Hk2 Hi1 Hi2 Hc1 Hc2 E).
Qed.

(** ** The translation performed by the hardware

    [mmu k m t virt] is the leaf entry, with its level, that the processor finds
    from the level-[k] table [t]. *)
Fixpoint mmu (k : nat) m (t virt : Z) : option (Z * nat) :=
  match k with
  | O => None
  | S k' =>
      let p := rd m (t, idx k virt) in
      if negb (IsValid p) then None
      else if (k =? 1)%nat || ((k <=? 3)%nat && IsLarge p) then Some (p, k)
      else mmu k' m (target p) virt
  end.

(** The entry [e] of level [s] is where the walk for [virt] arrives. *)
Fixpoint reach (k s : nat) m (t virt : Z) e : Prop :=
  match k with
  | O => False
  | S k' =>
      if (k =? s)%nat then e = (t, idx k virt)
      else child k (rd m (t, idx k virt)) = true /\ reach k' s m (target (rd m (t, idx k virt))) virt e
  end.

Lemma mmu_step (k : nat) m (t virt : Z) :
  (2 <= k)%nat -> child k (rd m (t, idx k virt)) = true ->
  mmu k m t virt = mmu (k - 1) m (target (rd m (t, idx k virt))) virt.
Proof.
  intros Hk Hc. destruct k as [|k]; [lia|]. cbn [mmu]. rewrite Nat.sub_1_r. cbn [pred].
  unfold child in Hc. apply andb_true_iff in Hc as [-> Hl]. apply negb_true_iff in Hl.
  rewrite Hl. simpl. destruct k; [lia|reflexivity].
Qed.

(** Without a child below, the translation is decided by the entry itself. *)
Lemma mmu_stop (k : nat) m (t virt : Z) :
  (1 <= k)%nat -> child k (rd m (t, idx k virt)) = false ->
  mmu k m t virt =
    if IsValid (rd m (t, idx k virt)) then Some (rd m (t, idx k virt), k) else None.
Proof.
  intros Hk Hc. destruct k as [|k]; [lia|]. cbn [mmu]. unfold child in Hc.
  destruct (IsValid _); [|reflexivity]. simpl in Hc |- *. apply negb_false_iff in Hc.
  rewrite Hc. now rewrite orb_true_r.
Qed.

Lemma mmu_1 m (t virt : Z) :
  mmu 1 m t virt = if IsValid (rd m (t, idx 1 virt)) then Some (rd m (t, idx 1 virt), 1%nat) else None.
Proof. cbn [mmu]. now destruct (IsValid _). Qed.

(** Allocating a table changes no translation. *)
Lemma mmu_fresh m L t k i t' m' :
  wf m L -> L !! t = Some k -> (2 <= k)%nat -> 0 <= i < 512 ->
  IsValid (rd m (t, i)) = false -> ((k <=? 3)%nat && IsLarge (rd m (t, i))) = false ->
  NextLevel m (t, i) true = (t', m') -> t' <> 0 ->
  forall k0 t0 virt, L !! t0 = Some k0 -> (1 <= k0)%nat -> mmu k0 m' t0 virt = mmu k0 m t0 virt.
Proof.
  intros Hwf Ht Hk Hi Hv Hl Hn Hne.
  destruct (NextLevel_fresh_reads _ _ _ _ _ _ _ Hwf Ht Hi Hv Hl Hn Hne) as (HL & Hc & Htg & Hz & Ho).
  induction k0 as [|k0 IH]; intros t0 virt Ht0 Hk0; [reflexivity|].
  pose proof (idx_range (S k0) virt) as Hi0.
  destruct (decide ((t0, idx (S k0) virt) = (t, i))) as [[= -> Ei]|Hd].
  - rewrite Ht in Ht0. injection Ht0 as ->. subst i.
    rewrite (mmu_step _ m') by (trivial; lia). rewrite Htg.
    rewrite (mmu_stop _ m t) by (unfold child; rewrite ?Hv; trivial; lia). rewrite Hv.
    rewrite mmu_stop; rewrite ?Hz by apply idx_range; try reflexivity; lia.
  - assert (Hrd : rd m' (t0, idx (S k0) virt) = rd m (t0, idx (S k0) virt))
      by (apply Ho; simpl; congruence || lia).
    destruct k0 as [|k0]; [rewrite !mmu_1; now rewrite Hrd|].
    destruct (child (S (S k0)) (rd m (t0, idx (S (S k0)) virt))) eqn:Hc0.
    + rewrite (mmu_step _ m') by (rewrite ?Hrd; trivial; lia).
      rewrite (mmu_step _ m) by (trivial; lia). rewrite Hrd.
      cbn [Nat.sub]. apply IH; [|lia].
      pose proof (wf_child _ _ Hwf t0 _ _ Ht0 ltac:(lia) Hi0 Hc0). now rewrite Nat.sub_1_r in *.
    + rewrite (mmu_stop _ m') by (rewrite ?Hrd; trivial; lia).
      rewrite (mmu_stop _ m) by (trivial; lia). now rewrite Hrd.
Qed.

(** ** Where a walk arrives *)
Lemma reach_level m L (k s : nat) t virt e :
  wf m L -> L !! t = Some k -> (1 <= s)%nat -> reach k s m t virt e ->
  L !! e.1 = Some s /\ 0 <= e.2 < 512 /\ (s <= k)%nat.
Proof.
  intros Hwf. revert t. induction k as [|k IH]; intros t Ht Hs Hr; [destruct Hr|].
  cbn [reach] in Hr. destruct (Nat.eqb_spec (S k) s) as [<-|Hne].
  - subst e. simpl. split_and!; [exact Ht|apply idx_range|apply idx_range|lia].
  - destruct Hr as [Hc Hr]. destruct k as [|k]; [destruct Hr|].
    destruct (IH (target (rd m (t, idx (S (S k)) virt)))) as (? & ? & ?); trivial; [|split_and!; trivial; lia].
    apply (wf_child _ _ Hwf t (S (S k))); trivial; [lia|apply idx_range].
Qed.

(** An entry is reached from one table only, and by addresses that agree on every
    index from that table down to the entry. *)
Lemma reach_inj m L (k s : nat) t1 t2 v1 v2 e :
  wf m L -> L !! t1 = Some k -> L !! t2 = Some k -> (1 <= s)%nat ->
  reach k s m t1 v1 e -> reach k s m t2 v2 e ->
  t1 = t2 /\ forall j, (s <= j <= k)%nat -> idx j v1 = idx j v2.
Proof.
  intros Hwf. revert t1 t2. induction k as [|k IH]; intros t1 t2 Ht1 Ht2 Hs Hr1 Hr2; [destruct Hr1|].
  cbn [reach] in Hr1, Hr2. destruct (Nat.eqb_spec (S k) s) as [<-|Hne].
  - subst e. injection Hr2 as -> E. split; [reflexivity|].
    intros j Hj. now replace j with (S k) by lia.
  - destruct Hr1 as [Hc1 Hr1], Hr2 as [Hc2 Hr2]. destruct k as [|k]; [destruct Hr1|].
    pose proof (idx_range (S (S k)) v1) as Hi1. pose proof (idx_range (S (S k)) v2) as Hi2.
    pose proof (wf_child _ _ Hwf _ _ _ Ht1 ltac:(lia) Hi1 Hc1) as HL1.
    pose proof (wf_child _ _ Hwf _ _ _ Ht2 ltac:(lia) Hi2 Hc2) as HL2.
    destruct (IH _ _ HL1 HL2 Hs Hr1 Hr2) as [Et Hidx].
    destruct (wf_inj _ _ Hwf _ _ _ _ _ _ Ht1 Ht2 ltac:(lia) ltac:(lia) Hi1 Hi2 Hc1 Hc2 Et) as [-> Ei].
    split; [reflexivity|]. intros j Hj. destruct (decide (j = S (S k))) as [->|]; [exact Ei|].
    apply Hidx. lia.
Qed.

Lemma reach_idx m (k s : nat) t v1 v2 e :
  (1 <= s)%nat -> (forall j, (s <= j <= k)%nat -> idx j v1 = idx j v2) ->
  reach k s m t v1 e -> reach k s m t v2 e.
Proof.
  intros Hs. revert t. induction k as [|k IH]; intros t Hidx Hr; [destruct Hr|].
  cbn [reach] in *. destruct (Nat.eqb_spec (S k) s) as [<-|Hne].
  - now rewrite <- (Hidx (S k)) by lia.
  - destruct Hr as [Hc Hr]. destruct (le_lt_dec s (S k)) as [Hle|Hlt].
    + rewrite <- (Hidx (S k)) by lia. split; [exact Hc|]. apply IH; trivial. intros; apply Hidx; lia.
    + exfalso. clear -Hr Hlt. revert Hr. generalize (target (rd m (t, idx (S k) v1))).
      induction k as [|k IHk]; intros t' Hr; [exact Hr|]. cbn [reach] in Hr.
      destruct (Nat.eqb_spec (S k) s); [lia|]. destruct Hr as [_ Hr]. eapply IHk; [lia|exact Hr].
Qed.

(** Writing an entry changes the translation of the addresses that reach it only. *)
Lemma mmu_wr_or m L (k s : nat) t virt e v :
  wf m L -> L !! t = Some k -> (1 <= k)%nat -> L !! e.1 = Some s -> 0 <= e.2 < 512 ->
  mmu k (wr m e v) t virt = mmu k m t virt \/ reach k s m t virt e.
Proof.
  intros Hwf. revert t. induction k as [|k IH]; intros t Ht Hk He Hi; [lia|].
  pose proof (idx_range (S k) virt) as Hx.
  destruct (decide (e = (t, idx (S k) virt))) as [->|Hd].
  - right. simpl in He. assert (s = S k) as -> by congruence. cbn [reach]. now rewrite Nat.eqb_refl.
  - assert (Hrd : rd (wr m e v) (t, idx (S k) virt) = rd m (t, idx (S k) virt))
      by (apply rd_wr_ne; simpl; trivial; lia).
    destruct k as [|k]; [left; rewrite !mmu_1; now rewrite Hrd|].
    destruct (child (S (S k)) (rd m (t, idx (S (S k)) virt))) eqn:Hc.
    + pose proof (wf_child _ _ Hwf t _ _ Ht ltac:(lia) Hx Hc) as HLc. rewrite Nat.sub_1_r in HLc.
      destruct (IH _ HLc ltac:(lia) He Hi) as [Heq|Hr].
      * left. rewrite (mmu_step _ (wr m e v)) by (rewrite ?Hrd; trivial; lia).
        rewrite (mmu_step _ m) by (trivial; lia). rewrite Hrd. exact Heq.
      * right. cbn [reach]. destruct (Nat.eqb_spec (S (S k)) s) as [Es|]; [|now split].
        exfalso. assert (Hs1 : (1 <= s)%nat) by lia.
        destruct (reach_level _ _ _ _ _ _ _ Hwf HLc Hs1 Hr) as (_ & _ & ?). simpl in *. lia.
    + left. rewrite (mmu_stop _ (wr m e v)) by (rewrite ?Hrd; trivial; lia).
      rewrite (mmu_stop _ m) by (trivial; lia). now rewrite Hrd.
Qed.

(** The addresses that reach it are translated by the new entry. *)
Lemma mmu_wr_reach m L (k s : nat) t virt e v :
  wf m L -> L !! t = Some k -> (1 <= s)%nat -> (s = 1%nat \/ child s v = false) ->
  reach k s m t virt e ->
  mmu k (wr m e v) t virt = if IsValid v then Some (v, s) else None.
Proof.
  intros Hwf. revert t. induction k as [|k IH]; intros t Ht Hs Hv Hr; [destruct Hr|].
  destruct (reach_level _ _ _ _ _ _ _ Hwf Ht Hs Hr) as (He & Hi & Hle).
  cbn [reach] in Hr. destruct (Nat.eqb_spec (S k) s) as [<-|Hne].
  - subst e. destruct (wf_table _ _ _ _ Hwf Ht) as (l & Hl & Hlen).
    assert (Hrd : rd (wr m (t, idx (S k) virt) v) (t, idx (S k) virt) = v)
      by (apply (rd_wr_eq _ _ _ l); simpl in *; trivial; lia).
    destruct Hv as [Hv|Hv].
    + injection Hv as ->. rewrite mmu_1. now rewrite Hrd.
    + rewrite mmu_stop; rewrite ?Hrd; trivial.
  - destruct Hr as [Hc Hr]. destruct k as [|k]; [destruct Hr|].
    assert (Hrd : rd (wr m e v) (t, idx (S (S k)) virt) = rd m (t, idx (S (S k)) virt)).
    { apply rd_wr_ne; [|lia|apply idx_range]. intros ->. simpl in He. congruence. }
    rewrite mmu_step by (rewrite ?Hrd; trivial; lia). rewrite Hrd. cbn [Nat.sub].
    apply IH; trivial. apply (wf_child _ _ Hwf t (S (S k))); trivial; [lia|apply idx_range].
Qed.

(** Entries that may be written at level [s]: no table hangs below them. *)
Definition no_child (s : nat) (v : Z) : Prop :=
  s = 1%nat \/ (child s v = false /\ (IsValid v = false -> IsLarge v = false)).

(** Overwriting an entry by one that has no child keeps the page map well formed. *)
Lemma wf_wr m L (s : nat) e v :
  wf m L -> L !! e.1 = Some s -> 0 <= e.2 < 512 -> no_child s v -> wf (wr m e v) L.
Proof.
  intros Hwf He Hi Hv. destruct (wf_table _ _ _ _ Hwf He) as (l & Hl & Hlen).
  assert (Hcase : forall t k i, L !! t = Some k -> (2 <= k)%nat -> 0 <= i < 512 ->
    rd (wr m e v) (t, i) = rd m (t, i) \/
    (child k (rd (wr m e v) (t, i)) = false /\
     (IsValid (rd (wr m e v) (t, i)) = false -> IsLarge (rd (wr m e v) (t, i)) = false))).
  { intros t k i Ht Hk Hi'. destruct (decide (e = (t, i))) as [->|Hd];
      [right|left; apply rd_wr_ne; simpl; trivial; lia].
    simpl in He. assert (s = k) as -> by congruence. destruct Hv as [->|Hv]; [lia|].
    rewrite (rd_wr_eq _ _ _ l) by (simpl in *; trivial; lia). exact Hv. }
  constructor.
  - intros t. rewrite wr_tables_some. apply (wf_dom _ _ Hwf).
  - apply (wf_live _ _ Hwf).
  - apply (wf_null _ _ Hwf).
  - intros t l' (l'' & Hl'' & <-)%wr_tables. now apply (wf_len _ _ Hwf) in Hl''.
  - intros t k i Ht Hk Hi' Hc. destruct (Hcase _ _ _ Ht Hk Hi') as [E|[E _]]; [|congruence].
    rewrite E in Hc |- *. now apply (wf_child _ _ Hwf).
  - intros t k i Ht Hk Hi' Hc. destruct (Hcase _ _ _ Ht Hk Hi') as [E|[_ E]]; [|auto].
    rewrite E in Hc |- *. now apply (wf_absent _ _ Hwf _ k).
  - intros t1 t2 k1 k2 i1 i2 Ht1 Ht2 Hk1 Hk2 Hi1 Hi2 Hc1 Hc2.
    destruct (Hcase _ _ _ Ht1 Hk1 Hi1) as [E1|[E1 _]]; [|congruence].
    destruct (Hcase _ _ _ Ht2 Hk2 Hi2) as [E2|[E2 _]]; [|congruence].
    rewrite E1, E2 in *. now apply (wf_inj _ _ Hwf _ _ k1 k2).
Qed.

(** ** The walk arrives

    [unblocked]: no entry above the level asked for, on the path of [virt], has
    the page-size bit; then the walk stops exactly at that level. *)
Fixpoint unblocked (k s : nat) m (t virt : Z) : Prop :=
  match k with
  | O => True
  | S k' =>
      (k =? s)%nat = true \/
      (((k <=? 3)%nat && IsLarge (rd m (t, idx k virt))) = false /\
       (IsValid (rd m (t, idx k virt)) = true -> unblocked k' s m (target (rd m (t, idx k virt))) virt))
  end.

(** A path of clear entries is unblocked. *)
Lemma unblocked_zero (k s : nat) m (t virt : Z) : (forall j, 0 <= j -> rd m (t, j) = 0) -> unblocked k s m t virt.
Proof.
  intros Hz. destruct k as [|k]; [exact I|]. cbn [unblocked]. right.
  rewrite Hz by apply idx_range. split; [apply andb_false_r|discriminate].
Qed.

(** No path is blocked unless a larger page translates the address. *)
Lemma unblocked_mmu m L (k s : nat) t virt :
  wf m L -> L !! t = Some k -> (1 <= s <= k)%nat ->
  (forall p s', mmu k m t virt = Some (p, s') -> (s' <= s)%nat) -> unblocked k s m t virt.
Proof.
  intros Hwf. revert t. induction k as [|k IH]; intros t Ht Hs Hm; [exact I|]. cbn [unblocked].
  destruct (Nat.eqb_spec (S k) s) as [<-|Hne]; [now left|right].
  pose proof (idx_range (S k) virt) as Hi. destruct k as [|k]; [lia|].
  destruct (IsValid (rd m (t, idx (S (S k)) virt))) eqn:Hv.
  - destruct ((S (S k) <=? 3)%nat && IsLarge (rd m (t, idx (S (S k)) virt))) eqn:Hl.
    + assert (Hc : child (S (S k)) (rd m (t, idx (S (S k)) virt)) = false)
        by (unfold child; now rewrite Hv, Hl).
      specialize (Hm (rd m (t, idx (S (S k)) virt)) (S (S k))).
      rewrite mmu_stop, Hv in Hm by (trivial; lia). specialize (Hm eq_refl). lia.
    + assert (Hc : child (S (S k)) (rd m (t, idx (S (S k)) virt)) = true)
        by (unfold child; now rewrite Hv, Hl).
      split; [reflexivity|]. intros _. apply IH; [|lia|].
      * apply (wf_child _ _ Hwf t (S (S k))); trivial. lia.
      * intros p s' Hp. apply (Hm p). now rewrite mmu_step by (trivial; lia).
  - rewrite (wf_absent _ _ Hwf t (S (S k))) by (trivial; lia). rewrite andb_false_r.
    split; [reflexivity|discriminate].
Qed.

(** Existing tables keep their entries, except for children that are added. *)
Definition extends m m' L : Prop :=
  forall t k i, L !! t = Some k -> (2 <= k)%nat -> 0 <= i < 512 ->
    child k (rd m (t, i)) = true -> rd m' (t, i) = rd m (t, i).

Lemma walk_alloc m L (k s : nat) t virt e m' :
  wf m L -> L !! t = Some k -> (1 <= s <= k)%nat -> unblocked k s m t virt ->
  walk k s m t virt true = (Some e, m') ->
  exists L', wf m' L' /\ L ⊆ L' /\ reach k s m' t virt e /\ extends m m' L /\
    forall k0 t0 v, L !! t0 = Some k0 -> (1 <= k0)%nat -> mmu k0 m' t0 v = mmu k0 m t0 v.
Proof.
  revert m L t. induction k as [|k IH]; intros m L t Hwf Ht Hs Hu Hw; [discriminate|].
  cbn [walk unblocked reach] in *. destruct (Nat.eqb_spec (S k) s) as [<-|Hne].
  { injection Hw as <- <-. exists L. split_and!; trivial. now intros ?. }
  destruct Hu as [|[Hl Hu]]; [discriminate|]. rewrite Hl in Hw. cbn [orb] in Hw.
  destruct k as [|k]; [lia|]. pose proof (idx_range (S (S k)) virt) as Hi.
  destruct (NextLevel m (t, idx (S (S k)) virt) true) as [t1 m1] eqn:En.
  destruct (Z.eqb_spec t1 0) as [|Hne1]; [discriminate|].
  destruct (IsValid (rd m (t, idx (S (S k)) virt))) eqn:Hv.
  - assert (Hc : child (S (S k)) (rd m (t, idx (S (S k)) virt)) = true)
      by (unfold child; rewrite Hv, Hl; reflexivity).
    destruct (NextLevel_child _ _ _ _ _ true Hwf Ht ltac:(lia) Hi Hc) as [E _].
    rewrite E in En. injection En as <- <-.
    pose proof (wf_child _ _ Hwf _ _ _ Ht ltac:(lia) Hi Hc) as HLc.
    destruct (IH _ _ _ Hwf HLc ltac:(lia) (Hu eq_refl) Hw) as (L' & Hwf' & Hsub & Hr & Hext & Hm).
    exists L'. rewrite (Hext _ _ _ Ht ltac:(lia) Hi Hc). split_and!; trivial.
  - destruct (NextLevel_fresh_reads _ _ _ _ _ _ _ Hwf Ht Hi Hv Hl En Hne1) as (HL & Hc & Htg & Hz & Ho).
    pose proof (NextLevel_fresh_wf _ _ _ _ _ _ _ Hwf Ht ltac:(lia) Hi Hv Hl En Hne1) as Hwf1.
    pose proof (mmu_fresh _ _ _ _ _ _ _ Hwf Ht ltac:(lia) Hi Hv Hl En Hne1) as Hm1.
    cbn [Nat.sub] in Hwf1.
    assert (Hsub1 : L ⊆ <[t1 := S k]> L) by now apply insert_subseteq.
    destruct (IH m1 _ t1 Hwf1 (lookup_insert_eq _ _ _) ltac:(lia) (unblocked_zero _ _ _ _ _ Hz) Hw)
      as (L' & Hwf' & Hsub & Hr & Hext & Hm).
    exists L'. rewrite (Hext t (S (S k))) by (trivial; first [lia|now rewrite lookup_insert_ne by congruence]).
    rewrite Htg. split_and!; trivial; [now transitivity (<[t1 := S k]> L)|..].
    + intros t0 k0 i0 Ht0 Hk0 Hi0 Hc0.
      assert (Hrd : rd m1 (t0, i0) = rd m (t0, i0)).
      { apply Ho; simpl; [lia|congruence|]. intros [= -> ->]. unfold child in Hc0.
        rewrite Hv in Hc0. discriminate. }
      rewrite <- Hrd. apply (Hext _ k0); trivial; [|now rewrite Hrd].
      now rewrite lookup_insert_ne by congruence.
    + intros k0 t0 v Ht0 Hk0. rewrite Hm, Hm1; trivial. now rewrite lookup_insert_ne by congruence.
Qed.

(** Without allocation the walk leaves memory alone and finds the entry where it is. *)
Lemma walk_pure m (k s : nat) t virt : exists r, walk k s m t virt false = (r, m).
Proof.
  revert t. induction k as [|k IH]; intros t; [now exists None|]. cbn [walk].
  destruct (_ || _); [eauto|]. unfold NextLevel. destruct (IsValid _); simpl; [|eauto].
  destruct (_ =? 0); eauto.
Qed.

Lemma walk_reach m L (k s : nat) t virt e :
  wf m L -> L !! t = Some k -> (1 <= s)%nat -> reach k s m t virt e ->
  walk k s m t virt false = (Some e, m).
Proof.
  intros Hwf. revert t. induction k as [|k IH]; intros t Ht Hs Hr; [destruct Hr|].
  cbn [walk reach] in *. destruct (Nat.eqb_spec (S k) s) as [<-|Hne]; [now subst e|].
  destruct Hr as [Hc Hr]. destruct k as [|k]; [destruct Hr|].
  pose proof (idx_range (S (S k)) virt) as Hi.
  destruct (NextLevel_child _ _ _ _ _ false Hwf Ht ltac:(lia) Hi Hc) as [E Hnz]. rewrite E.
  assert (Hl : ((S (S k) <=? 3)%nat && IsLarge (rd m (t, idx (S (S k)) virt))) = false).
  { unfold child in Hc. apply andb_true_iff in Hc as [_ Hc]. now apply negb_true_iff. }
  rewrite Hl. cbn [orb]. destruct (Z.eqb_spec (target (rd m (t, idx (S (S k)) virt))) 0); [lia|].
  apply IH; trivial. apply (wf_child _ _ Hwf t (S (S k))); trivial. lia.
Qed.

Lemma walk_reach_inv m L (k s : nat) t virt e :
  wf m L -> L !! t = Some k -> (1 <= s)%nat -> unblocked k s m t virt ->
  walk k s m t virt false = (Some e, m) -> reach k s m t virt e.
Proof.
  intros Hwf. revert t. induction k as [|k IH]; intros t Ht Hs Hu Hw; [discriminate|].
  cbn [walk reach unblocked] in *. destruct (Nat.eqb_spec (S k) s) as [<-|Hne]; [cbn [orb] in Hw; injection Hw as <-; reflexivity|].
  destruct Hu as [|[Hl Hu]]; [discriminate|]. rewrite Hl in Hw. cbn [orb] in Hw.
  unfold NextLevel in Hw. unfold child. destruct (IsValid _) eqn:Hv; [|discriminate].
  rewrite Hl. split; [reflexivity|]. fold (target (rd m (t, idx (S k) virt))) in Hw.
  destruct (Z.eqb_spec (target (rd m (t, idx (S k) virt))) 0); [discriminate|].
  destruct k as [|k]; [discriminate|].
  apply IH; trivial; [|now apply Hu].
  apply (wf_child _ _ Hwf t (S (S k))); trivial; [lia|apply idx_range|].
  unfold child. now rewrite Hv, Hl.
Qed.

(** The next [n] allocations of the heap succeed. *)
Fixpoint can_alloc (n : nat) (h : H) : Prop :=
  match n with
  | O => True
  | S n => (Callocate h 4096).1 <> 0 /\ can_alloc n (Callocate h 4096).2
  end.

Lemma can_alloc_le (n n' : nat) h : (n <= n')%nat -> can_alloc n' h -> can_alloc n h.
Proof.
  revert n' h. induction n as [|n IH]; intros n' h Hle Hc; [exact I|].
  destruct n' as [|n']; [lia|]. destruct Hc as [Hp Hc]. split; [exact Hp|]. apply (IH n'); [lia|exact Hc].
Qed.

(** The walk down to level [s] allocates at most [k - s] tables; when the heap has
    them it arrives, and leaves the rest. *)
Lemma walk_total m L (k s n : nat) t virt :
  can_alloc (k - s + n) (heap m) ->
  wf m L -> L !! t = Some k -> (1 <= s <= k)%nat -> unblocked k s m t virt ->
  exists e m', walk k s m t virt true = (Some e, m') /\ can_alloc n (heap m').
Proof.
  revert m L t. induction k as [|k IH]; intros m L t Hheap Hwf Ht Hs Hu; [lia|].
  cbn [walk unblocked] in *. destruct (Nat.eqb_spec (S k) s) as [<-|Hne].
  { cbn [orb]. do 2 eexists. split; [reflexivity|]. now apply (can_alloc_le _ (S k - S k + n)); [lia|]. }
  destruct Hu as [|[Hl Hu]]; [discriminate|]. rewrite Hl. cbn [orb].
  destruct k as [|k]; [lia|]. pose proof (idx_range (S (S k)) virt) as Hi.
  replace (S (S k) - s + n)%nat with (S (S k - s + n)) in Hheap by lia.
  destruct (IsValid (rd m (t, idx (S (S k)) virt))) eqn:Hv.
  - assert (Hc : child (S (S k)) (rd m (t, idx (S (S k)) virt)) = true)
      by (unfold child; rewrite Hv, Hl; reflexivity).
    destruct (NextLevel_child _ _ _ _ _ true Hwf Ht ltac:(lia) Hi Hc) as [-> Hnz].
    destruct (Z.eqb_spec (target (rd m (t, idx (S (S k)) virt))) 0); [lia|].
    eapply IH; [now apply (can_alloc_le _ (S (S k - s + n))); [lia|]|exact Hwf| |lia|auto].
    apply (wf_child _ _ Hwf t (S (S k))); trivial; lia.
  - destruct (NextLevel m (t, idx (S (S k)) virt) true) as [t1 m1] eqn:En.
    assert (Hne1 : t1 <> 0 /\ heap m1 = (Callocate (heap m) 4096).2).
    { unfold NextLevel, AllocatePageTable in En. rewrite Hv in En. destruct Hheap as [Hp _].
      destruct (Callocate (heap m) 4096) as [p h']. simpl in *. now injection En as <- <-. }
    destruct Hne1 as [Hne1 Hh]. destruct (Z.eqb_spec t1 0); [lia|].
    destruct (NextLevel_fresh_reads _ _ _ _ _ _ _ Hwf Ht Hi Hv Hl En Hne1) as (_ & _ & _ & Hz & _).
    pose proof (NextLevel_fresh_wf _ _ _ _ _ _ _ Hwf Ht ltac:(lia) Hi Hv Hl En Hne1) as Hwf1.
    eapply IH; [rewrite Hh; apply Hheap|exact Hwf1|apply lookup_insert_eq|lia|now apply unblocked_zero].
Qed.

(** ** One page *)
Section OnePage.
Variable (pm : PagingMode) (top : Z).

(** The two addresses lie in the same page of level [s]. *)
Definition same_page (s : nat) (v1 v2 : Z) : Prop :=
  forall j, (s <= j <= depth pm)%nat -> idx j v1 = idx j v2.

#[export] Instance same_page_dec s v1 v2 : Decision (same_page s v1 v2).
Proof.
  unfold same_page.
  refine (match decide (Forall (λ j, idx j v1 = idx j v2) (seq s (S (depth pm) - s))) with
          | left h => left _ | right h => right _ end).
  - intros j Hj. rewrite Forall_forall in h. apply h, in_seq. lia.
  - intros Hj. apply h, Forall_forall. intros j Hin%in_seq. apply Hj. lia.
Defined.

(** What every operation assumes of the page map. *)
Definition page_map m L : Prop := wf m L /\ L !! top = Some (depth pm).

(** The entry a mapping installs. *)
Definition leaf (phys flags : Z) : Z := SetFlags (SetAddress 0 phys) (ToNativeFlags flags) true.
Definition level (flags : Z) : nat := stop_of (GetPageSize flags).

Lemma depth_ge : (4 <= depth pm)%nat.
Proof. destruct pm; simpl; lia. Qed.

Lemma top_nonnull m L : page_map m L -> (top =? 0) = false.
Proof.
  intros [Hwf Ht]. destruct (Z.eqb_spec top 0) as [E|]; [|reflexivity].
  pose proof (wf_null _ _ Hwf). congruence.
Qed.

Lemma level_range (flags : Z) : (1 <= level flags <= depth pm)%nat.
Proof. destruct (stop_of_eqb (GetPageSize flags)) as (_ & _ & ?). pose proof depth_ge. unfold level. lia. Qed.

Lemma leaf_shape (phys flags : Z) :
  IsValid (leaf phys flags) = true /\ no_child (level flags) (leaf phys flags).
Proof.
  destruct (ToNativeFlags_shape flags) as (Hv & Hl & _).
  assert (Hval : IsValid (leaf phys flags) = true).
  { unfold leaf, SetFlags. rewrite IsValid_bit in *. rewrite Z.lor_spec, Hv. apply orb_true_r. }
  split; [exact Hval|]. unfold no_child, level. rewrite GetPageSize_bits. unfold child. rewrite Hval.
  destruct (Z.testbit flags 6) eqn:E6, (Z.testbit flags 5) eqn:E5; [right..|now left];
    (split; [|discriminate]; unfold leaf, SetFlags; rewrite IsLarge_bit in *;
     rewrite Z.lor_spec, Hl, orb_true_r by reflexivity; reflexivity).
Qed.

(** No page larger than level [s] translates [virt]. *)
Definition not_covered (s : nat) m virt : Prop :=
  forall p s', mmu (depth pm) m top virt = Some (p, s') -> (s' <= s)%nat.

Lemma not_covered_unblocked m L s virt :
  page_map m L -> (1 <= s <= depth pm)%nat -> not_covered s m virt -> unblocked (depth pm) s m top virt.
Proof. intros [Hwf Ht] Hs Hn. now apply (unblocked_mmu _ L). Qed.

(** Writing the entry reached for [virt] changes the view at its page only. *)
Lemma write_page m L s virt e v :
  page_map m L -> (1 <= s)%nat -> no_child s v ->
  reach (depth pm) s m top virt e ->
  page_map (wr m e v) L /\
  forall w, mmu (depth pm) (wr m e v) top w =
    if decide (same_page s virt w) then (if IsValid v then Some (v, s) else None)
    else mmu (depth pm) m top w.
Proof.
  intros [Hwf Ht] Hs Hv Hr. destruct (reach_level _ _ _ _ _ _ _ Hwf Ht Hs Hr) as (He & Hi & Hle).
  split; [split; [now apply wf_wr with s|exact Ht]|].
  intros w. case_decide as Hp.
  - apply (mmu_wr_reach _ L _ s); trivial; [destruct Hv as [|[? _]]; tauto|].
    now apply (reach_idx _ _ _ _ virt).
  - pose proof depth_ge. destruct (mmu_wr_or _ _ _ s _ w e v Hwf Ht ltac:(lia) He Hi) as [E|Hr']; [exact E|].
    destruct Hp. exact (proj2 (reach_inj _ _ _ _ _ _ _ _ _ Hwf Ht Ht Hs Hr Hr')).
Qed.

Lemma InternalMapOne_view m L virt phys flags m' :
  page_map m L -> not_covered (level flags) m virt ->
  InternalMapOne pm m top virt phys flags (GetPageSize flags) = (true, m') ->
  exists L', page_map m' L' /\ L ⊆ L' /\
    forall w, mmu (depth pm) m' top w =
      if decide (same_page (level flags) virt w) then Some (leaf phys flags, level flags)
      else mmu (depth pm) m top w.
Proof.
  intros Hpm Hn Hmap. pose proof (not_covered_unblocked _ _ _ _ Hpm (level_range _) Hn) as Hu.
  unfold InternalMapOne in Hmap. rewrite Virt2Pte_walk, (top_nonnull _ _ Hpm) in Hmap.
  fold (level flags) in Hmap. destruct Hpm as [Hwf Ht].
  destruct (walk _ _ m top virt true) as [[e|] m1] eqn:Ew; [|discriminate].
  pose proof (level_range flags) as Hs. pose proof depth_ge.
  destruct (walk_alloc _ _ _ _ _ _ _ _ Hwf Ht Hs Hu Ew) as (L' & Hwf' & Hsub & Hr & _ & Hm).
  injection Hmap as <-. fold (leaf phys flags). destruct (leaf_shape phys flags) as [Hv Hc].
  assert (Ht' : L' !! top = Some (depth pm)) by now apply (lookup_weaken L).
  destruct (write_page m1 L' (level flags) virt e (leaf phys flags)) as [Hpm' Hview]; trivial; [now split|lia|].
  exists L'. split_and!; trivial. intros w. rewrite Hview, Hv. case_decide; [reflexivity|].
  apply Hm; [exact Ht|lia].
Qed.

Lemma unmapOne_view m L virt pageSize m' :
  page_map m L -> not_covered (stop_of pageSize) m virt ->
  unmapOne pm m top virt pageSize = (true, m') ->
  page_map m' L /\
  forall w, mmu (depth pm) m' top w =
    if decide (same_page (stop_of pageSize) virt w) then None else mmu (depth pm) m top w.
Proof.
  intros Hpm Hn Hun. destruct (stop_of_eqb pageSize) as (_ & _ & Hs). pose proof depth_ge as Hd.
  assert (Hu : unblocked (depth pm) (stop_of pageSize) m top virt)
    by (apply (not_covered_unblocked _ L); trivial; lia).
  unfold unmapOne in Hun. rewrite Virt2Pte_walk, (top_nonnull _ _ Hpm) in Hun.
  destruct (walk_pure m (depth pm) (stop_of pageSize) top virt) as [[e|] Ew];
    rewrite Ew in Hun; [|discriminate].
  injection Hun as <-. destruct Hpm as [Hwf Ht].
  assert (Hr : reach (depth pm) (stop_of pageSize) m top virt e) by (apply (walk_reach_inv _ L); trivial; lia).
  apply (write_page m L (stop_of pageSize) virt e (Clear (rd m e))); trivial; [now split|lia|right; split; reflexivity].
Qed.

(** A mapping's leaf is found by every later walk at its level. *)
Lemma mmu_reach m L (k s : nat) t virt p :
  wf m L -> L !! t = Some k -> mmu k m t virt = Some (p, s) ->
  exists e, reach k s m t virt e /\ rd m e = p /\ IsValid p = true /\ (1 <= s <= k)%nat.
Proof.
  intros Hwf. revert t. induction k as [|k IH]; intros t Ht Hm; [discriminate|].
  destruct (decide ((2 <= S k)%nat /\ child (S k) (rd m (t, idx (S k) virt)) = true)) as [[Hk Hc]|Hn].
  - rewrite (mmu_step _ _ _ _ Hk Hc) in Hm. cbn [Nat.sub] in Hm. rewrite Nat.sub_0_r in Hm.
    pose proof (wf_child _ _ Hwf _ _ _ Ht Hk (idx_range _ _) Hc) as HLc.
    cbn [Nat.sub] in HLc. rewrite Nat.sub_0_r in HLc.
    destruct (IH _ HLc Hm) as (e & Hr & Hrd & Hv & Hle). exists e. cbn [reach].
    destruct (Nat.eqb_spec (S k) s); [lia|]. split_and!; trivial; lia.
  - assert (Hm' : mmu (S k) m t virt = if IsValid (rd m (t, idx (S k) virt))
        then Some (rd m (t, idx (S k) virt), S k) else None).
    { destruct k as [|k]; [apply mmu_1|]. apply mmu_stop; [lia|].
      destruct (child _ _); [destruct Hn; split; [lia|reflexivity]|reflexivity]. }
    rewrite Hm' in Hm. destruct (IsValid (rd m (t, idx (S k) virt))) eqn:Hv; [|discriminate]. injection Hm as <- <-.
    exists (t, idx (S k) virt). cbn [reach]. rewrite Nat.eqb_refl. split_and!; trivial; lia.
Qed.
End OnePage.
End WalkProofs.
