(* ===== verification/PageMap.v ===== *)
(** * Page maps: mapping, unmapping and protecting ranges

    [Memory/PageMap.cpp] on top of the x86_64 primitives of [PageTables].  The
    abstract state of a page map is its [view], the function the hardware walk
    computes; every operation is shown to be an update of that function at the
    pages it names, by one loop lemma shared by all range operations. *)

From Stdlib Require Import ZArith Lia Bool.
From stdpp Require Import base gmap list numbers.
From S2P Require Import Prelude Prism PageTables PageTableProofs.

(** ** Operations *)
Definition PageSizeFlags (pageSize : Z) : Z :=
  if pageSize =? GetPageSize eLPage then eLPage
  else if pageSize =? GetPageSize eLLPage then eLLPage
  else 0.

Definition RequiredSize (m_PageSize size : Z) : Z * Z :=
  let lPageSize := GetPageSize eLPage in
  let llPageSize := GetPageSize eLLPage in
  if llPageSize <=? size then (llPageSize, attr eLLPage)
  else if lPageSize <=? size then (lPageSize, attr eLPage)
  else (m_PageSize, 0).

Section Operations.
Context {HH : HigherHalf} {H : Type} {TH : TableHeap H}.
Variable pagingMode : PagingMode.
Variable s_1GibPages : bool.
Variable m_TopLevel : Z.
Notation Mem := (Memory (H:=H)).

(** [ret0] is the indeterminate start value of [FromNativeFlags]. *)
Definition ValidateAddress (ret0 : Z) (m : Mem) (address flags : Z) : bool :=
  match (Virt2Pte pagingMode m m_TopLevel address false 4096).1 with
  | None => false
  | Some pte => truthy (attr_and (FromNativeFlags ret0 (Flags (rd m pte))) flags)
  end.

(** [Assert] is applied to the message of an already mapped address, a non-null
    pointer, and so never fails. *)
Definition Map (m : Mem) (virt phys flags : Z) : bool * Mem :=
  let pte := Virt2Phys pagingMode m m_TopLevel virt eRead in
  let assertion := if pte =? 2 ^ 64 - 1 then true else truthy 1 in
  if assertion then InternalMap pagingMode s_1GibPages m m_TopLevel virt phys flags else (false, m).

Definition Unmap (m : Mem) (virt flags : Z) : bool * Mem :=
  InternalUnmap pagingMode s_1GibPages m m_TopLevel virt flags.

Definition Remap (m : Mem) (virtOld virtNew flags : Z) : bool * Mem :=
  let phys := Virt2Phys pagingMode m m_TopLevel virtOld flags in
  let m := (Unmap m virtOld flags).2 in
  Map m virtNew phys flags.

(** The loops run over [0, pageSize, ..] below [size]; no offset wraps around as
    long as [size <= 2^64 - pageSize]. *)
Definition UnmapRange (m : Mem) (virt size flags : Z) : bool * Mem :=
  let pageSize := GetPageSize flags in
  all_pages (λ m i, Unmap m (u64 (virt + i)) flags) m (strides size pageSize).

Fixpoint MapRange_loop (m : Mem) (virt phys pageSize flags : Z) (offsets : list Z) : bool * Mem :=
  match offsets with
  | [] => (true, m)
  | i :: offsets =>
      match Map m (u64 (virt + i)) (u64 (phys + i)) flags with
      | (true, m) => MapRange_loop m virt phys pageSize flags offsets
      | (false, m) => (false, (UnmapRange m virt (u64 (i - pageSize)) 0).2)
      end
  end.

Definition MapRange (m : Mem) (virt phys size flags : Z) : bool * Mem :=
  let pageSize := GetPageSize flags in
  MapRange_loop m virt phys pageSize flags (strides size pageSize).

Definition RemapRange (m : Mem) (virtOld virtNew size flags : Z) : bool * Mem :=
  let pageSize := GetPageSize flags in
  all_pages (λ m i, Remap m (u64 (virtOld + i)) (u64 (virtNew + i)) flags) m (strides size pageSize).

Definition SetFlagsRange (m : Mem) (virt size flags : Z) : bool * Mem :=
  let pageSize := GetPageSize flags in
  all_pages (λ m i, PageMap_SetFlags pagingMode m m_TopLevel (u64 (virt + i)) flags) m
    (strides size pageSize).

(** [VMM::AllocateSpace] is the caller's parameter here. *)
Definition MapIoRegion {PM : PrismMath} (AllocateSpace : Z -> Z -> bool -> Z) (m : Mem)
    (phys length flags alignment : Z) : option Z * Mem :=
  let length := AlignUp length 4096 in
  let virt := AllocateSpace length alignment true in
  let phys := AlignDown phys 4096 in
  match MapRange m virt phys length flags with
  | (true, m) => (Some virt, m)
  | (false, m) => (None, m)
  end.

(** A region as the page map sees it. *)
Definition MapRegion (m : Mem) (virt phys size attributes pageSize : Z) : bool * Mem :=
  let flags := attr_or attributes (PageSizeFlags pageSize) in
  MapRange m virt phys size flags.

Definition RemapRegion (m : Mem) (oldVirt size attributes newVirt : Z) : bool * Mem :=
  let newVirt := if newVirt =? 0 then oldVirt else newVirt in
  RemapRange m oldVirt newVirt size attributes.
End Operations.

(** ** Pages as intervals of addresses *)
Definition page_bits (s : nat) : Z := 12 + 9 * (Z.of_nat s - 1).

Lemma GetPageSize_level (flags : Z) : GetPageSize flags = 2 ^ page_bits (level flags).
Proof.
  unfold level. rewrite GetPageSize_bits.
  now destruct (Z.testbit flags 6), (Z.testbit flags 5).
Qed.

Lemma testbit_idx (k : nat) (v b : Z) :
  (1 <= k)%nat -> 0 <= b < 9 -> Z.testbit (idx k v) b = Z.testbit v (page_bits k + b).
Proof.
  intros Hk Hb. unfold idx, page_bits. change 0x1ff with (Z.ones 9).
  rewrite Z.land_spec, Z.shiftr_spec, testbit_ones by lia.
  destruct (Z.ltb_spec b 9); [|lia]. rewrite andb_true_r. f_equal. lia.
Qed.

Lemma same_page_bits pm (s : nat) (v1 v2 : Z) :
  (1 <= s)%nat ->
  same_page pm s v1 v2 <->
  forall b, page_bits s <= b < page_bits (S (depth pm)) -> Z.testbit v1 b = Z.testbit v2 b.
Proof.
  intros Hs. unfold page_bits. split; intros Heq.
  - intros b Hb. set (d := b - (12 + 9 * (Z.of_nat s - 1))).
    assert (Hq : 0 <= d / 9) by (apply Z.div_pos; lia).
    pose proof (Z.div_mod d 9 ltac:(lia)) as Hdm. pose proof (Z.mod_pos_bound d 9 ltac:(lia)) as Hmod.
    assert (Hj : b = page_bits (s + Z.to_nat (d / 9)) + d mod 9) by (unfold page_bits; lia).
    rewrite Hj, <- !testbit_idx by lia. f_equal. apply Heq. lia.
  - intros j Hj. apply Z.bits_inj'. intros b Hb. destruct (Z.lt_ge_cases b 9).
    + rewrite !testbit_idx by lia. apply Heq. unfold page_bits. lia.
    + pose proof (idx_range j v1). pose proof (idx_range j v2).
      rewrite !(testbit_above 9) by (unfold in_u; lia). reflexivity.
Qed.

(** Same page: same page number, modulo the size of the address space. *)
Lemma same_page_div pm (s : nat) (v1 v2 : Z) :
  (1 <= s <= depth pm)%nat ->
  same_page pm s v1 v2 <->
  wrap (page_bits (S (depth pm)) - page_bits s) (v1 / 2 ^ page_bits s) =
  wrap (page_bits (S (depth pm)) - page_bits s) (v2 / 2 ^ page_bits s).
Proof.
  intros Hs. rewrite same_page_bits by lia. rewrite <- !Z.shiftr_div_pow2 by (unfold page_bits; lia).
  assert (Hp : 0 <= page_bits s <= page_bits (S (depth pm))) by (unfold page_bits; lia).
  split; intros Heq.
  - apply Z.bits_inj'. intros i Hi. rewrite !testbit_wrap, !Z.shiftr_spec by lia.
    destruct (Z.ltb_spec i (page_bits (S (depth pm)) - page_bits s)); [|now rewrite !andb_false_r].
    f_equal. apply Heq. lia.
  - intros b Hb. apply (f_equal (λ z, Z.testbit z (b - page_bits s))) in Heq.
    rewrite !testbit_wrap, !Z.shiftr_spec in Heq by lia. rewrite Z.sub_add in Heq.
    destruct (Z.ltb_spec (b - page_bits s) (page_bits (S (depth pm)) - page_bits s)); [|lia].
    now rewrite !andb_true_r in Heq.
Qed.

(** Pages of one range are distinct. *)
Lemma pages_distinct pm (s : nat) (virt i j size : Z) :
  (1 <= s <= depth pm)%nat -> size <= 2 ^ page_bits (S (depth pm)) ->
  (2 ^ page_bits s | i) -> (2 ^ page_bits s | j) -> 0 <= i < size -> 0 <= j < size ->
  same_page pm s (virt + i) (virt + j) -> i = j.
Proof.
  intros Hs Hsz [a ->] [b ->] Hi Hj Hp. apply same_page_div in Hp; [|exact Hs].
  assert (Hpb : 0 <= page_bits s <= page_bits (S (depth pm))) by (unfold page_bits; lia).
  assert (H2 : 0 < 2 ^ page_bits s) by lia.
  rewrite !Z.div_add in Hp by lia. f_equal. unfold wrap in Hp.
  set (n := page_bits (S (depth pm)) - page_bits s) in *.
  assert (Hn : 2 ^ page_bits (S (depth pm)) = 2 ^ n * 2 ^ page_bits s)
    by (rewrite <- Z.pow_add_r by lia; f_equal; lia).
  assert (H2n : 0 < 2 ^ n) by (apply Z.pow_pos_nonneg; lia).
  assert (Ha : 0 <= a < 2 ^ n) by nia. assert (Hb : 0 <= b < 2 ^ n) by nia.
  apply Z.cong_iff_ex in Hp as [q Hq]. assert (q = 0) by nia. lia.
Qed.

(** Every byte of an aligned page is in it. *)
Lemma same_page_offset pm (s : nat) (virt off : Z) :
  (1 <= s <= depth pm)%nat -> (2 ^ page_bits s | virt) ->
  same_page pm s (virt + off / 2 ^ page_bits s * 2 ^ page_bits s) (virt + off).
Proof.
  intros Hs [k ->]. apply same_page_div; [exact Hs|]. f_equal.
  assert (0 < 2 ^ page_bits s) by (apply Z.pow_pos_nonneg; unfold page_bits; lia).
  rewrite Z.div_add, Z.div_mul, (Z.add_comm _ off), Z.div_add by lia. lia.
Qed.

(** ** Refinement: operations as updates of the view *)
Section Refinement.
Context {HH : HigherHalf} {H : Type} {TH : TableHeap H}.
Variable (pm : PagingMode) (gib : bool) (top : Z).
Notation Mem := (Memory (H:=H)).
Implicit Types (m : Mem) (L : gmap Z nat).

Definition view m (virt : Z) : option (Z * nat) := mmu (depth pm) m top virt.
Definition covered_at (s : nat) (o : option (Z * nat)) : Prop :=
  match o with Some (_, s') => (s' <= s)%nat | None => True end.

(** A step updates one page of level [s], to [new]. *)
Definition updates (s : nat) (step : Mem -> Z -> bool * Mem) (page : Z -> Z)
    (new : Z -> option (Z * nat)) : Prop :=
  forall m L i m', page_map pm top m L -> covered_at s (view m (page i)) -> step m i = (true, m') ->
  exists L', page_map pm top m' L' /\ L ⊆ L' /\
    forall w, view m' w = if decide (same_page pm s (page i) w) then new i else view m w.

(** A loop of such steps over distinct pages updates each of them. *)
Lemma all_pages_view s step page new offs m L m' :
  updates s step page new -> (forall i, covered_at s (new i)) ->
  page_map pm top m L -> (forall i, i ∈ offs -> covered_at s (view m (page i))) ->
  NoDup offs -> (forall i j, i ∈ offs -> j ∈ offs -> same_page pm s (page i) (page j) -> i = j) ->
  all_pages step m offs = (true, m') ->
  exists L', page_map pm top m' L' /\ L ⊆ L' /\
    forall w, view m' w =
      match list_find (λ i, same_page pm s (page i) w) offs with
      | Some (_, i) => new i
      | None => view m w
      end.
Proof.
  intros Hup Hnew. revert m L. induction offs as [|i offs IH]; intros m L Hpm Hc Hnd Hdist Hall.
  { injection Hall as <-. exists L. split_and!; trivial. }
  apply list.NoDup_cons in Hnd as [Hni Hnd]. cbn [all_pages] in Hall.
  destruct (step m i) as [[|] m1] eqn:Es; [|discriminate].
  destruct (Hup m L i m1 Hpm (Hc i ltac:(set_solver)) Es) as (L1 & Hpm1 & Hsub1 & Hv1).
  destruct (IH m1 L1 Hpm1) as (L2 & Hpm2 & Hsub2 & Hv2); trivial.
  { intros j Hj. rewrite Hv1. case_decide; [apply Hnew|]. apply Hc. set_solver. }
  { intros j j' Hj Hj'. apply Hdist; set_solver. }
  exists L2. split_and!; [exact Hpm2|now transitivity L1|]. intros w. rewrite Hv2. cbn [list_find].
  destruct (decide (same_page pm s (page i) w)) as [Hp|Hp].
  - destruct (list_find _ offs) as [[x j]|] eqn:Ef; [|rewrite Hv1; now rewrite decide_True].
    apply list_find_Some in Ef as (Hj & Hpj & _). apply list_elem_of_lookup_2 in Hj.
    destruct Hni. replace i with j; [exact Hj|]. apply Hdist; [set_solver..|].
    intros k Hk. now rewrite Hpj, Hp.
  - destruct (list_find _ offs) as [[x j]|]; simpl; [reflexivity|]. rewrite Hv1. now rewrite decide_False.
Qed.

Definition native_size (flags : Z) : Prop := GetPageSize flags = LLPAGE_SIZE -> gib = true.

Lemma InternalMap_one m virt phys flags :
  native_size flags ->
  InternalMap pm gib m top virt phys flags = InternalMapOne pm m top virt phys flags (GetPageSize flags).
Proof.
  intros Hn. unfold InternalMap. destruct (Z.eqb_spec (GetPageSize flags) LLPAGE_SIZE) as [E|]; [|reflexivity].
  now rewrite (Hn E).
Qed.

Lemma InternalUnmap_one m virt flags :
  native_size flags ->
  InternalUnmap pm gib m top virt flags = unmapOne pm m top virt (GetPageSize flags).
Proof.
  intros Hn. unfold InternalUnmap. destruct (Z.eqb_spec (GetPageSize flags) LLPAGE_SIZE) as [E|]; [|reflexivity].
  now rewrite (Hn E).
Qed.

Lemma Map_InternalMap m virt phys flags :
  Map pm gib top m virt phys flags = InternalMap pm gib m top virt phys flags.
Proof. unfold Map. now destruct (_ =? _). Qed.

Lemma covered_not_covered s m virt : covered_at s (view m virt) <-> not_covered pm top s m virt.
Proof.
  unfold covered_at, not_covered, view. destruct (mmu _ _ _ _) as [[p s']|]; split; intros Hc; trivial.
  - now intros p' s'' [= <- <-].
  - now apply (Hc p).
  - discriminate.
Qed.

Lemma Map_updates virt phys flags :
  native_size flags ->
  updates (level flags) (λ m i, Map pm gib top m (u64 (virt + i)) (u64 (phys + i)) flags)
    (λ i, u64 (virt + i)) (λ i, Some (leaf (u64 (phys + i)) flags, level flags)).
Proof.
  intros Hn m L i m' Hpm Hc Hs. rewrite Map_InternalMap, InternalMap_one in Hs by exact Hn.
  apply covered_not_covered in Hc. exact (InternalMapOne_view pm top _ _ _ _ _ _ Hpm Hc Hs).
Qed.

Lemma Unmap_updates virt flags :
  native_size flags ->
  updates (level flags) (λ m i, Unmap pm gib top m (u64 (virt + i)) flags)
    (λ i, u64 (virt + i)) (λ _, None).
Proof.
  intros Hn m L i m' Hpm Hc Hs. unfold Unmap in Hs. rewrite InternalUnmap_one in Hs by exact Hn.
  apply covered_not_covered in Hc.
  destruct (unmapOne_view pm top _ _ _ _ _ Hpm Hc Hs) as [Hpm' Hv]. exists L. split_and!; trivial.
Qed.

(** Mapping one page uses up at most one table per level above it. *)
Lemma InternalMap_total m L virt phys flags n :
  page_map pm top m L -> native_size flags -> not_covered pm top (level flags) m virt ->
  can_alloc (depth pm - level flags + n) (heap m) ->
  exists m', InternalMap pm gib m top virt phys flags = (true, m') /\ can_alloc n (heap m').
Proof.
  intros Hpm Hn Hc Ha. rewrite InternalMap_one by exact Hn. unfold InternalMapOne.
  rewrite Virt2Pte_walk, (top_nonnull pm top _ _ Hpm). fold (level flags).
  pose proof (level_range pm flags) as Hl.
  pose proof (not_covered_unblocked pm top _ _ _ _ Hpm Hl Hc) as Hu. destruct Hpm as [Hwf Ht].
  destruct (walk_total _ _ _ _ n _ _ Ha Hwf Ht Hl Hu) as (e & m' & -> & Hr). eauto.
Qed.

Lemma MapRange_loop_true m virt phys ps flags offs m' :
  MapRange_loop pm gib top m virt phys ps flags offs = (true, m') ->
  all_pages (λ m i, Map pm gib top m (u64 (virt + i)) (u64 (phys + i)) flags) m offs = (true, m').
Proof.
  revert m. induction offs as [|i offs IH]; intros m; [trivial|]. cbn [MapRange_loop all_pages].
  destruct (Map _ _ _ _ _ _ _) as [[|] m1]; [apply IH|discriminate].
Qed.

(** ** Ranges *)
Lemma strides_NoDup (size step : Z) : 0 < step -> NoDup (strides size step).
Proof. intros Hs. unfold strides. apply NoDup_fmap_2; [intros x y; nia|apply NoDup_seqZ]. Qed.

(** The offsets of a range: in bounds, page-aligned and on distinct pages. *)
Lemma range_offsets virt size flags :
  0 <= virt -> virt + size <= 2 ^ 64 -> size <= 2 ^ page_bits (S (depth pm)) ->
  (forall i, i ∈ strides size (GetPageSize flags) ->
     u64 (virt + i) = virt + i /\ (GetPageSize flags | i) /\ 0 <= i < size) /\
  (forall i j, i ∈ strides size (GetPageSize flags) -> j ∈ strides size (GetPageSize flags) ->
     same_page pm (level flags) (u64 (virt + i)) (u64 (virt + j)) -> i = j).
Proof.
  intros Hv Hv2 Hsz. pose proof (level_range pm flags) as Hl. rewrite GetPageSize_level.
  assert (H2 : 0 < 2 ^ page_bits (level flags)) by (apply Z.pow_pos_nonneg; unfold page_bits; lia).
  assert (Hoff : forall i, i ∈ strides size (2 ^ page_bits (level flags)) ->
    u64 (virt + i) = virt + i /\ (2 ^ page_bits (level flags) | i) /\ 0 <= i < size).
  { intros i (k & Hk & -> & Hlt)%elem_of_strides; [|exact H2].
    split_and!; [apply wrap_small; split; nia|now exists k|nia|lia]. }
  split; [exact Hoff|]. intros i j Hi Hj. destruct (Hoff i Hi) as (-> & Hdi & Hri).
  destruct (Hoff j Hj) as (-> & Hdj & Hrj). now apply (pages_distinct pm (level flags) virt i j size).
Qed.

(** The page of the range that covers [w]. *)
Lemma find_page virt size (s : nat) off :
  (1 <= s <= depth pm)%nat -> 0 <= virt -> virt + size <= 2 ^ 64 -> size <= 2 ^ page_bits (S (depth pm)) ->
  (2 ^ page_bits s | virt) -> 0 <= off < size ->
  exists x, list_find (λ i, same_page pm s (u64 (virt + i)) (virt + off)) (strides size (2 ^ page_bits s)) =
    Some (x, off / 2 ^ page_bits s * 2 ^ page_bits s).
Proof.
  intros Hs Hv Hv2 Hsz Hal Hoff. set (i := off / 2 ^ page_bits s * 2 ^ page_bits s).
  assert (H2 : 0 < 2 ^ page_bits s) by (apply Z.pow_pos_nonneg; unfold page_bits; lia).
  assert (Hi : 0 <= i <= off).
  { unfold i. pose proof (Z.div_mod off (2 ^ page_bits s)). pose proof (Z.mod_pos_bound off (2 ^ page_bits s)).
    assert (0 <= off / 2 ^ page_bits s) by (apply Z.div_pos; lia). nia. }
  assert (Hin : i ∈ strides size (2 ^ page_bits s)).
  { apply elem_of_strides; [exact H2|]. exists (off / 2 ^ page_bits s).
    split_and!; [apply Z.div_pos; lia|reflexivity|lia]. }
  assert (Hu : forall j, j ∈ strides size (2 ^ page_bits s) -> u64 (virt + j) = virt + j /\ (2 ^ page_bits s | j) /\ 0 <= j < size).
  { intros j (k & Hk & -> & Hlt)%elem_of_strides; [|exact H2].
    split_and!; [apply wrap_small; split; nia|now exists k|nia|lia]. }
  assert (Hsp : same_page pm s (u64 (virt + i)) (virt + off)).
  { rewrite (proj1 (Hu i Hin)). now apply same_page_offset. }
  destruct (list_find_elem_of (λ i, same_page pm s (u64 (virt + i)) (virt + off)) _ _ Hin Hsp) as [[x j] Hf].
  exists x. rewrite Hf. do 2 f_equal. apply list_find_Some in Hf as (Hj & Hspj & _).
  apply list_elem_of_lookup_2 in Hj. destruct (Hu _ Hj) as (Ej & Hdj & Hrj). destruct (Hu _ Hin) as (Ei & Hdi & Hri).
  apply (pages_distinct pm s virt _ _ size); trivial. rewrite Ej in Hspj. rewrite Ei in Hsp.
  intros k Hk. now rewrite Hspj, Hsp.
Qed.

Lemma MapRange_view_pages m L virt phys size flags m' :
  page_map pm top m L -> native_size flags -> 0 <= virt -> virt + size <= 2 ^ 64 ->
  size <= 2 ^ page_bits (S (depth pm)) ->
  (forall i, i ∈ strides size (GetPageSize flags) -> covered_at (level flags) (view m (virt + i))) ->
  MapRange pm gib top m virt phys size flags = (true, m') ->
  exists L', page_map pm top m' L' /\ L ⊆ L' /\
    forall w, view m' w =
      match list_find (λ i, same_page pm (level flags) (u64 (virt + i)) w) (strides size (GetPageSize flags)) with
      | Some (_, i) => Some (leaf (u64 (phys + i)) flags, level flags)
      | None => view m w
      end.
Proof.
  intros Hpm Hn Hv Hv2 Hsz Hc Hr. apply MapRange_loop_true in Hr.
  destruct (range_offsets _ _ flags Hv Hv2 Hsz) as [Hoff Hdist].
  refine (all_pages_view _ _ _ _ _ _ _ _ (Map_updates virt phys flags Hn) _ Hpm _ _ Hdist Hr).
  - intros i. simpl. lia.
  - intros i Hi. destruct (Hoff i Hi) as (-> & _ & _). now apply Hc.
  - apply strides_NoDup. rewrite GetPageSize_level. unfold page_bits. pose proof (level_range pm flags). lia.
Qed.
Lemma MapRange_view m L virt phys size flags m' :
  page_map pm top m L -> native_size flags -> 0 <= virt -> virt + size <= 2 ^ 64 ->
  size <= 2 ^ page_bits (S (depth pm)) ->
  (forall off, 0 <= off < size -> covered_at (level flags) (view m (virt + off))) ->
  MapRange pm gib top m virt phys size flags = (true, m') ->
  exists L', page_map pm top m' L' /\ L ⊆ L' /\
    forall w, view m' w =
      match list_find (λ i, same_page pm (level flags) (u64 (virt + i)) w) (strides size (GetPageSize flags)) with
      | Some (_, i) => Some (leaf (u64 (phys + i)) flags, level flags)
      | None => view m w
      end.
Proof.
  intros Hpm Hn Hv Hv2 Hsz Hc. apply (MapRange_view_pages m L); trivial. intros i Hi.
  destruct (range_offsets _ _ flags Hv Hv2 Hsz) as [Hoff _]. destruct (Hoff i Hi) as (_ & _ & Hr). now apply Hc.
Qed.

Lemma UnmapRange_view m L virt size flags m' :
  page_map pm top m L -> native_size flags -> 0 <= virt -> virt + size <= 2 ^ 64 ->
  size <= 2 ^ page_bits (S (depth pm)) ->
  (forall off, 0 <= off < size -> covered_at (level flags) (view m (virt + off))) ->
  UnmapRange pm gib top m virt size flags = (true, m') ->
  exists L', page_map pm top m' L' /\ L ⊆ L' /\
    forall w, view m' w =
      match list_find (λ i, same_page pm (level flags) (u64 (virt + i)) w) (strides size (GetPageSize flags)) with
      | Some (_, i) => None
      | None => view m w
      end.
Proof.
  intros Hpm Hn Hv Hv2 Hsz Hc Hr.
  destruct (range_offsets _ _ flags Hv Hv2 Hsz) as [Hoff Hdist].
  refine (all_pages_view _ _ _ _ _ _ _ _ (Unmap_updates virt flags Hn) _ Hpm _ _ Hdist Hr).
  - intros i. exact I.
  - intros i Hi. destruct (Hoff i Hi) as (-> & _ & Hr'). now apply Hc.
  - apply strides_NoDup. rewrite GetPageSize_level. unfold page_bits. pose proof (level_range pm flags). lia.
Qed.

(** With enough tables on the heap a range is mapped. *)
Lemma MapRange_total m L virt phys size flags n :
  page_map pm top m L -> native_size flags ->
  (forall i, i ∈ strides size (GetPageSize flags) -> covered_at (level flags) (view m (u64 (virt + i)))) ->
  can_alloc ((depth pm - level flags) * length (strides size (GetPageSize flags)) + n) (heap m) ->
  exists m', MapRange pm gib top m virt phys size flags = (true, m') /\ can_alloc n (heap m').
Proof.
  intros Hpm Hn Hc Ha. unfold MapRange. revert Hc Ha. generalize (strides size (GetPageSize flags)) as offs. intros offs.
  revert m L Hpm. induction offs as [|i offs IH]; intros m L Hpm Hc Ha.
  { exists m. split; [reflexivity|]. now rewrite Nat.mul_0_r in Ha. }
  cbn [MapRange_loop length] in *.
  destruct (InternalMap_total m L (u64 (virt + i)) (u64 (phys + i)) flags ((depth pm - level flags) * length offs + n) Hpm Hn) as (m1 & Hm & Ha1).
  { apply covered_not_covered, Hc. left. }
  { replace (depth pm - level flags + _)%nat with ((depth pm - level flags) * S (length offs) + n)%nat by lia. exact Ha. }
  rewrite <- Map_InternalMap in Hm. rewrite Hm.
  destruct (Map_updates virt phys flags Hn m L i m1 Hpm ltac:(apply Hc; left) Hm) as (L1 & Hpm1 & _ & Hv).
  apply (IH m1 L1 Hpm1); [|exact Ha1]. intros j Hj. rewrite Hv. case_decide; [simpl; lia|]. apply Hc. now right.
Qed.

(** Outside the pages of a range nothing is found. *)
Lemma find_none virt size (s : nat) w :
  (forall off, 0 <= off < size -> ~ same_page pm s (virt + off) w) -> 0 <= virt -> virt + size <= 2 ^ 64 ->
  (1 <= s)%nat ->
  list_find (λ i, same_page pm s (u64 (virt + i)) w) (strides size (2 ^ page_bits s)) = None.
Proof.
  intros Hn Hv Hv2 Hs. apply list_find_None, Forall_forall. intros i Hi.
  assert (0 < 2 ^ page_bits s) by (apply Z.pow_pos_nonneg; unfold page_bits; lia).
  apply list_elem_of_In, elem_of_strides in Hi as (k & Hk & -> & Hlt); [|lia].
  unfold u64. rewrite wrap_small by (split; nia). apply Hn. nia.
Qed.

Lemma Virt2Phys_view m L virt flags p :
  page_map pm top m L -> view m virt = Some (p, level flags) ->
  Virt2Phys pm m top virt flags = u64 (Address p + virt mod GetPageSize flags).
Proof.
  intros Hpm Hv. unfold Virt2Phys. rewrite Virt2Pte_walk, (top_nonnull pm top _ _ Hpm).
  destruct Hpm as [Hwf Ht]. destruct (mmu_reach _ _ _ _ _ _ _ Hwf Ht Hv) as (e & Hr & Hrd & Hval & Hs).
  fold (level flags). rewrite (walk_reach _ _ _ _ _ _ _ Hwf Ht (proj1 Hs) Hr). simpl. rewrite Hrd.
  change (GetFlag p PTE_PRESENT) with (IsValid p). now rewrite Hval.
Qed.

Lemma Address_leaf phys flags :
  level flags = 1%nat -> phys .& PTE_ADDRESS_MASK = phys -> Address (leaf phys flags) = phys.
Proof.
  intros Hl Hp. apply Address_SetAddress; [exact Hp|]. apply (ToNativeFlags_shape flags).
  unfold level in Hl. rewrite GetPageSize_bits in Hl.
  destruct (Z.testbit flags 6), (Z.testbit flags 5); (reflexivity || discriminate).
Qed.
End Refinement.
