(* ===== verification/PageMapTheorems.v ===== *)
(** * Page maps: the theorems

    The correctness statements of the memory-management unit's software side: what
    mapping, unmapping and translating do to the address space, on every path.
    They are proved against the heap interface; [bump_heap] instantiates it. *)

From Stdlib Require Import ZArith Lia Bool.
From stdpp Require Import base gmap list numbers.
From S2P Require Import Prelude Prism PageTables PageTableProofs PageMap.

Section Theorems.
Context {HH : HigherHalf} {H : Type} {TH : TableHeap H}.
Implicit Types (m : Memory (H:=H)) (L : gmap Z nat).

(** A successful [InternalMap] makes the hardware translate every address of the page
    by the new entry and leaves the translation of every other address as it was,
    whatever page tables it allocated; the page map stays well formed. *)
Theorem InternalMap_refines pm gib top m L virt phys flags m' :
  page_map pm top m L -> native_size gib flags -> not_covered pm top (level flags) m virt ->
  InternalMap pm gib m top virt phys flags = (true, m') ->
  exists L', page_map pm top m' L' /\ L ⊆ L' /\
    forall w, view pm top m' w =
      if decide (same_page pm (level flags) virt w) then Some (leaf phys flags, level flags)
      else view pm top m w.
Proof.
  intros Hpm Hn Hc Hm. rewrite InternalMap_one in Hm by exact Hn.
  exact (InternalMapOne_view pm top _ _ _ _ _ _ Hpm Hc Hm).
Qed.

(** [InternalMap] needs at most one new table per level above the page's own: when
    the heap can provide them it succeeds. *)
Theorem InternalMap_succeeds pm gib top m L virt phys flags :
  page_map pm top m L -> native_size gib flags -> not_covered pm top (level flags) m virt ->
  can_alloc (depth pm - level flags) (heap m) ->
  exists m', InternalMap pm gib m top virt phys flags = (true, m').
Proof.
  intros Hpm Hn Hc Ha. destruct (InternalMap_total pm gib top m L virt phys flags 0 Hpm Hn Hc) as (m' & -> & _); [now rewrite Nat.add_0_r|eauto].
Qed.

(** C1: A successful [MapRange] of 4 KiB, 2 MiB or 1 GiB pages makes every byte of the range
    translate through the entry of its own page, and changes no address outside the
    pages of the range. *)
Theorem MapRange_refines pm gib top m L virt phys size flags m' :
  page_map pm top m L -> native_size gib flags ->
  0 <= virt -> virt + size <= 2 ^ 64 -> size <= 2 ^ page_bits (S (depth pm)) ->
  (GetPageSize flags | virt) -> 0 <= phys -> phys + size <= 2 ^ 64 ->
  (forall off, 0 <= off < size -> not_covered pm top (level flags) m (virt + off)) ->
  MapRange pm gib top m virt phys size flags = (true, m') ->
  (exists L', page_map pm top m' L') /\
  (forall off, 0 <= off < size ->
     view pm top m' (virt + off) =
       Some (leaf (phys + off / GetPageSize flags * GetPageSize flags) flags, level flags)) /\
  (forall w, (forall off, 0 <= off < size -> ~ same_page pm (level flags) (virt + off) w) ->
     view pm top m' w = view pm top m w).
Proof.
  intros Hpm Hn Hv Hv2 Hsz Hal Hp Hp2 Hc Hr. pose proof (level_range pm flags) as Hl.
  destruct (MapRange_view pm gib top m L virt phys size flags m' Hpm Hn Hv Hv2 Hsz) with (2 := Hr) as (L' & Hpm' & _ & Hview).
  { intros off Hoff. now apply covered_not_covered, Hc. }
  rewrite GetPageSize_level in *. split; [eauto|]. split.
  - intros off Hoff. rewrite Hview. destruct (find_page pm virt size (level flags) off) as [x ->]; trivial.
    unfold u64. rewrite wrap_small; [reflexivity|].
    assert (0 < 2 ^ page_bits (level flags)) by (apply Z.pow_pos_nonneg; unfold page_bits; lia).
    pose proof (Z.div_mod off (2 ^ page_bits (level flags))).
    pose proof (Z.mod_pos_bound off (2 ^ page_bits (level flags))).
    assert (0 <= off / 2 ^ page_bits (level flags)) by (apply Z.div_pos; lia). split; nia.
  - intros w Hw. rewrite Hview, find_none; trivial; lia.
Qed.

(** A successful [UnmapRange] leaves no byte of the range translated and changes no
    address outside the pages of the range. *)
Theorem UnmapRange_refines pm gib top m L virt size flags m' :
  page_map pm top m L -> native_size gib flags ->
  0 <= virt -> virt + size <= 2 ^ 64 -> size <= 2 ^ page_bits (S (depth pm)) ->
  (GetPageSize flags | virt) ->
  (forall off, 0 <= off < size -> not_covered pm top (level flags) m (virt + off)) ->
  UnmapRange pm gib top m virt size flags = (true, m') ->
  (exists L', page_map pm top m' L') /\
  (forall off, 0 <= off < size -> view pm top m' (virt + off) = None) /\
  (forall w, (forall off, 0 <= off < size -> ~ same_page pm (level flags) (virt + off) w) ->
     view pm top m' w = view pm top m w).
Proof.
  intros Hpm Hn Hv Hv2 Hsz Hal Hc Hr. pose proof (level_range pm flags) as Hl.
  destruct (UnmapRange_view pm gib top m L virt size flags m' Hpm Hn Hv Hv2 Hsz) with (2 := Hr) as (L' & Hpm' & _ & Hview).
  { intros off Hoff. now apply covered_not_covered, Hc. }
  rewrite GetPageSize_level in *. split; [eauto|]. split.
  - intros off Hoff. rewrite Hview. now destruct (find_page pm virt size (level flags) off) as [x ->].
  - intros w Hw. rewrite Hview, find_none; trivial; lia.
Qed.

(** Page-aligned physical addresses below 2^52 fit an entry. *)
Lemma mask_aligned (a : Z) : 0 <= a < 2 ^ 40 -> (a * 4096) .& PTE_ADDRESS_MASK = a * 4096.
Proof.
  intros Ha. bitwise i. rewrite testbit_mask by lia. unfold mask_bit.
  replace (a * 4096) with (a .<< 12) by (rewrite Z.shiftl_mul_pow2 by lia; reflexivity).
  rewrite Z.shiftl_spec by lia. destruct (Z.leb_spec 12 i); simpl.
  - destruct (Z.ltb_spec i 52); [apply andb_true_r|]. rewrite (testbit_above 40) by (unfold in_u; lia). reflexivity.
  - now rewrite Z.testbit_neg_r by lia.
Qed.

(** After a successful [MapRange] of 4 KiB pages, [Virt2Phys] translates every byte of
    the range to the matching byte of the physical range. *)
Theorem MapRange_Virt2Phys pm gib top m L virt phys size flags m' :
  page_map pm top m L -> GetPageSize flags = PAGE_SIZE ->
  0 <= virt -> virt + size <= 2 ^ 64 -> size <= 2 ^ page_bits (S (depth pm)) ->
  (PAGE_SIZE | virt) -> (PAGE_SIZE | phys) -> 0 <= phys -> phys + size <= 2 ^ 52 ->
  (forall off, 0 <= off < size -> not_covered pm top 1 m (virt + off)) ->
  MapRange pm gib top m virt phys size flags = (true, m') ->
  forall off, 0 <= off < size -> Virt2Phys pm m' top (virt + off) eRead = phys + off.
Proof.
  intros Hpm Hg Hv Hv2 Hsz Hal Hap Hp Hp2 Hc Hr off Hoff.
  assert (Hl : level flags = 1%nat) by (unfold level; now rewrite Hg).
  assert (Hn : native_size gib flags) by (unfold native_size; rewrite Hg; discriminate).
  destruct (MapRange_view pm gib top m L virt phys size flags m' Hpm Hn Hv Hv2 Hsz) with (2 := Hr) as (L' & Hpm' & _ & Hview).
  { intros o Ho. rewrite Hl. now apply covered_not_covered, Hc. }
  specialize (Hview (virt + off)). rewrite Hl, Hg in Hview.
  change PAGE_SIZE with (2 ^ page_bits 1) in Hview, Hal, Hap.
  destruct (find_page pm virt size 1 off) as [x Hf]; trivial; [destruct pm; simpl; lia|].
  rewrite Hf in Hview. erewrite Virt2Phys_view; [|exact Hpm'|exact Hview].
  change (2 ^ page_bits 1) with 4096 in *. change (GetPageSize eRead) with 4096.
  destruct Hap as [a ->], Hal as [b ->].
  pose proof (Z.div_mod off 4096 ltac:(lia)). pose proof (Z.mod_pos_bound off 4096 ltac:(lia)).
  assert (0 <= off / 4096) by (apply Z.div_pos; lia).
  unfold u64. rewrite (wrap_small 64 (a * 4096 + _)) by (split; lia).
  replace (a * 4096 + off / 4096 * 4096) with ((a + off / 4096) * 4096) by lia.
  rewrite Address_leaf by (trivial; apply mask_aligned; lia).
  rewrite Z.add_comm, (Z.add_comm (b * 4096)), Z_mod_plus_full.
  rewrite wrap_small by (split; lia). lia.
Qed.

(** When the heap has no memory for a page table, [NextLevel] reports failure but has
    already made the entry present, pointing at the physical alias of address 0: the
    next walk through the entry succeeds and follows that address. *)
Theorem NextLevel_out_of_memory m t i h' l :
  tables m !! t = Some l -> 0 <= i < Z.of_nat (length l) ->
  IsValid (rd m (t, i)) = false -> Callocate (heap m) 4096 = (0, h') ->
  FromHigherHalf 0 .& PTE_ADDRESS_MASK = FromHigherHalf 0 ->
  exists m', NextLevel m (t, i) true = (0, m') /\
    IsValid (rd m' (t, i)) = true /\ Address (rd m' (t, i)) = FromHigherHalf 0 /\
    NextLevel m' (t, i) true = (ToHigherHalf (FromHigherHalf 0), m').
Proof.
  intros Hl Hi Hv Hc Ha. destruct (fresh_entry (rd m (t, i)) _ Ha) as (Had & Hva & _).
  unfold NextLevel at 1. rewrite Hv. cbn [negb]. unfold AllocatePageTable. rewrite Hc. cbn [Z.eqb].
  eexists. split; [reflexivity|]. unfold NextLevel.
  rewrite (rd_wr_eq _ _ _ l) by (cbn [fst snd]; trivial).
  change (rd (mkMemory (tables m) h') (t, i)) with (rd m (t, i)).
  rewrite Hva, Had. auto.
Qed.
End Theorems.

(** The native flags as a function of the attribute bits. *)
Definition native_of (w x u g l ll b7 b8 b9 : bool) : Z :=
  let f := PTE_PRESENT in
  let f := if w then f .| PTE_WRITEABLE else f in
  let f := if negb x then f .| PTE_NOEXEC else f in
  let f := if u then f .| PTE_USER_SUPER else f in
  let f := if g then f .| PTE_GLOBAL else f in
  let f := if l || ll then f .| PTE_LPAGE else f in
  let patbit := if truthy (f .& PTE_LPAGE) then PTE_PATLG else PTE_PAT4K in
  let f := if b8 then f .| PTE_PCD else f in
  if b7 then (f .| (PTE_PCD .| PTE_PWT)) .& not64 patbit
  else if b9 then f .| patbit
  else if b8 then f .| (patbit .| PTE_PCD) else f.

Lemma ToNativeFlags_bits (attribs : Z) :
  ToNativeFlags attribs =
    native_of (Z.testbit attribs 1) (Z.testbit attribs 2) (Z.testbit attribs 3) (Z.testbit attribs 4)
      (Z.testbit attribs 5) (Z.testbit attribs 6) (Z.testbit attribs 7) (Z.testbit attribs 8)
      (Z.testbit attribs 9).
Proof.
  unfold ToNativeFlags. attr_cases attribs; vm_compute; reflexivity.
Qed.

(** Protection bits survive the translation to a native entry and back: write,
    execute, user and global of the attributes are those read from the entry, and the
    entry is readable (starting from a zero initial value). *)
Theorem native_flags_roundtrip (attribs i : Z) :
  0 <= i <= 4 -> Z.testbit (FromNativeFlags 0 (ToNativeFlags attribs)) i = (i =? 0) || Z.testbit attribs i.
Proof.
  intros Hi. rewrite ToNativeFlags_bits.
  assert (Hall : forall w x u g l ll b7 b8 b9,
    FromNativeFlags 0 (native_of w x u g l ll b7 b8 b9) .& Z.ones 5 =
      1 + 2 * Z.b2z w + 4 * Z.b2z x + 8 * Z.b2z u + 16 * Z.b2z g).
  { intros [] [] [] [] [] [] [] [] []; vm_compute; reflexivity. }
  rewrite <- (andb_true_r (Z.testbit (FromNativeFlags 0 _) i)).
  replace true with (Z.testbit (Z.ones 5) i) by (rewrite testbit_ones by lia; apply Z.ltb_lt; lia).
  rewrite <- Z.land_spec, Hall. assert (Hc : i = 0 \/ i = 1 \/ i = 2 \/ i = 3 \/ i = 4) by lia.
  destruct Hc as [->|[->|[->|[->| ->]]]];
    destruct (Z.testbit attribs 1), (Z.testbit attribs 2), (Z.testbit attribs 3), (Z.testbit attribs 4);
    reflexivity.
Qed.

(** The cache attributes are tested one bit at a time although they share bits:
    uncacheable and write-protected pages get the native flags of write-combining ones,
    and, outside write-combining, strongly uncacheable pages those of write-back ones. *)
Theorem cache_attributes_conflated (attribs : Z) :
  ToNativeFlags (attribs .| eUncacheable) = ToNativeFlags (attribs .| eWriteCombining .| eUncacheableStrong) /\
  ToNativeFlags (attribs .| eWriteProtected) = ToNativeFlags (attribs .| eWriteCombining) /\
  ToNativeFlags (attribs .| eUncacheableStrong) = ToNativeFlags (attribs .| eWriteBack).
Proof.
  rewrite !ToNativeFlags_bits, !Z.lor_spec.
  destruct (Z.testbit attribs 1), (Z.testbit attribs 2), (Z.testbit attribs 3), (Z.testbit attribs 4),
    (Z.testbit attribs 5), (Z.testbit attribs 6), (Z.testbit attribs 7), (Z.testbit attribs 8),
    (Z.testbit attribs 9); vm_compute; repeat split.
Qed.

Section Findings.
Context {HH : HigherHalf} {H : Type} {TH : TableHeap H}.
Implicit Types (m : Memory (H:=H)) (L : gmap Z nat).

(** [MapRange]'s rollback unmaps one page too few: when the second page cannot be
    mapped, the call fails and undoes nothing, the first page stays mapped. *)
Theorem MapRange_rollback_incomplete pm gib top m virt phys flags m1 m2 :
  Map pm gib top m (u64 virt) (u64 phys) flags = (true, m1) ->
  Map pm gib top m1 (u64 (virt + GetPageSize flags)) (u64 (phys + GetPageSize flags)) flags = (false, m2) ->
  MapRange pm gib top m virt phys (2 * GetPageSize flags) flags = (false, m2).
Proof.
  intros H1 H2. unfold MapRange.
  assert (Hs : strides (2 * GetPageSize flags) (GetPageSize flags) = [0; GetPageSize flags]).
  { rewrite GetPageSize_bits. now destruct (Z.testbit flags 6), (Z.testbit flags 5). }
  rewrite Hs. cbn [MapRange_loop]. rewrite !Z.add_0_r, H1, H2, Z.sub_diag. reflexivity.
Qed.

(** For large pages with the write-through bit, which the default write-back
    attributes set, the PAT bit lies inside the address mask: [Virt2Phys] answers an
    address one 4 KiB page too high. *)
Theorem large_page_Virt2Phys_off pm gib top m L virt a flags m' :
  page_map pm top m L -> not_covered pm top 2 m virt ->
  Z.testbit flags 6 = false -> Z.testbit flags 5 = true ->
  Z.testbit flags 9 = true -> Z.testbit flags 7 = false ->
  0 <= a < 2 ^ 31 -> InternalMap pm gib m top virt (a * LPAGE_SIZE) flags = (true, m') ->
  Virt2Phys pm m' top virt flags = a * LPAGE_SIZE + virt mod LPAGE_SIZE + 0x1000.
Proof.
  intros Hpm Hc H6 H5 H9 H7 Ha Hm.
  assert (Hg : GetPageSize flags = LPAGE_SIZE) by (rewrite GetPageSize_bits; now rewrite H6, H5).
  assert (Hl : level flags = 2%nat) by (unfold level; now rewrite Hg).
  assert (Hn : native_size gib flags) by (unfold native_size; rewrite Hg; discriminate).
  rewrite InternalMap_one in Hm by exact Hn. rewrite <- Hl in Hc.
  destruct (InternalMapOne_view pm top _ _ _ _ _ _ Hpm Hc Hm) as (L' & Hpm' & _ & Hv).
  specialize (Hv virt). rewrite decide_True in Hv by now intros ?.
  rewrite (Virt2Phys_view _ _ _ _ _ _ _ Hpm' Hv), Hg.
  assert (Had : Address (leaf (a * LPAGE_SIZE) flags) = a * LPAGE_SIZE + 0x1000).
  { unfold leaf, Address, SetFlags, SetAddress, GetAddressMask. rewrite Z.land_0_l, Z.lor_0_l, Z.land_lor_distr_l.
    replace (a * LPAGE_SIZE) with ((a * 512) * 4096) by (unfold LPAGE_SIZE; lia).
    rewrite mask_aligned by lia.
    assert (Ht : ToNativeFlags flags .& PTE_ADDRESS_MASK = 0x1000).
    { rewrite ToNativeFlags_bits, H5, H6, H7, H9. destruct (Z.testbit flags 1), (Z.testbit flags 2), (Z.testbit flags 3),
        (Z.testbit flags 4), (Z.testbit flags 8); reflexivity. }
    rewrite Ht. rewrite Z.add_nocarry_lxor, Z.lxor_lor; [reflexivity|..];
      (bitwise i; change 4096 with (1 .<< 12); replace (a * 512 * (1 .<< 12)) with (a .<< 21)
         by (rewrite !Z.shiftl_mul_pow2 by lia; lia);
       rewrite testbit_bit, Z.shiftl_spec by lia; destruct (Z.eqb_spec i 12) as [->|];
       [rewrite Z.testbit_neg_r by lia; reflexivity|apply andb_false_r]). }
  rewrite Had. unfold u64. pose proof (Z.mod_pos_bound virt LPAGE_SIZE ltac:(reflexivity)).
  unfold LPAGE_SIZE in *. rewrite wrap_small by (split; lia). lia.
Qed.
End Findings.

(** ** A concrete heap

    Consecutive pages of the direct map, up to a given number. *)
Record BumpHeap := mkBump { bump_next : nat; bump_room : nat }.
Definition direct_map : Z := 0xffff800000000000.
#[export] Instance higher_half_ref : HigherHalf := {|
  ToHigherHalf x := u64 (x + direct_map);
  FromHigherHalf x := u64 (x - direct_map)
|}.
Definition bump_page (i : nat) : Z := direct_map + Z.of_nat (S i) * 0x1000.
#[export] Program Instance bump_heap : TableHeap BumpHeap := {|
  Callocate h _ :=
    match bump_room h with
    | S room => if Z.of_nat (bump_next h) <? 2 ^ 20
                then (bump_page (bump_next h), mkBump (S (bump_next h)) room) else (0, h)
    | O => (0, h)
    end;
  live h := list_to_set (bump_page <$> seq 0 (bump_next h))
|}.
Next Obligation.
  intros [n [|r]] _ p h'; cbn [bump_room bump_next]; [congruence|]. destruct (_ <? _); [|congruence].
  intros [= <- <-] _. split.
  - rewrite elem_of_list_to_set, list_elem_of_fmap. intros (i & E & Hi%elem_of_seq).
    unfold bump_page in E. lia.
  - cbn [bump_next]. rewrite seq_S, fmap_app, list_to_set_app_L. simpl. set_solver.
Qed.
Next Obligation.
  intros [n [|r]] _ h'; cbn [bump_room bump_next]; [now intros [= <-]|].
  destruct (_ <? _); [|now intros [= <-]]. now intros [= E _].
Qed.
Next Obligation.
  intros [n [|r]] p h'; cbn [bump_room bump_next]; [congruence|].
  destruct (Z.ltb_spec (Z.of_nat n) (2 ^ 20)); [|congruence].
  intros [= <- <-] _. unfold bump_page. cbn [ToHigherHalf FromHigherHalf higher_half_ref].
  replace (direct_map + Z.of_nat (S n) * 4096 - direct_map) with (Z.of_nat (S n) * 4096) by lia.
  unfold u64. rewrite (wrap_small 64 (Z.of_nat (S n) * 4096)) by (split; lia).
  rewrite wrap_small by (unfold direct_map; split; lia). split; [apply mask_aligned; lia|lia].
Qed.

(** A page map with an empty top-level table, and a heap with room for [room] more. *)
Definition boot_top : Z := bump_page 0.
Definition boot_memory (room : nat) : Memory (H:=BumpHeap) :=
  mkMemory {[boot_top := zeroed_table]} (mkBump 1 room).
Definition boot_levels : gmap Z nat := {[boot_top := 4%nat]}.

Lemma boot_rd room t i : 0 <= i -> rd (boot_memory room) (t, i) = 0.
Proof.
  intros Hi. unfold rd, boot_memory. simpl. destruct (decide (t = boot_top)) as [->|Hne].
  - rewrite lookup_singleton_eq. destruct (zeroed_table !! _) eqn:E; [|reflexivity].
    apply lookup_replicate in E. simpl. tauto.
  - now rewrite lookup_singleton_ne by congruence.
Qed.

Lemma boot_page_map room : page_map eLevel4 boot_top (boot_memory room) boot_levels.
Proof.
  split; [|apply lookup_singleton_eq]. constructor.
  - intros t. unfold boot_memory, boot_levels. simpl. now rewrite !lookup_singleton_is_Some.
  - intros t Ht. unfold boot_levels in Ht. apply lookup_singleton_is_Some in Ht as <-. simpl. set_solver.
  - reflexivity.
  - intros t l. simpl. rewrite lookup_singleton_Some. intros [_ <-]. reflexivity.
  - intros t k i _ _ Hi. rewrite boot_rd by lia. discriminate.
  - intros t k i _ _ Hi. now rewrite boot_rd by lia.
  - intros t1 t2 k1 k2 i1 i2 _ _ _ _ Hi1 _. rewrite boot_rd by lia. discriminate.
Qed.

Lemma boot_view room w : view eLevel4 boot_top (boot_memory room) w = None.
Proof. unfold view. cbn [depth mmu]. now rewrite boot_rd by apply idx_range. Qed.

Lemma boot_not_covered room s w : not_covered eLevel4 boot_top s (boot_memory room) w.
Proof. intros p s' E. unfold view in *. pose proof (boot_view room w) as E'. unfold view in E'. congruence. Qed.

(** ** Witnesses *)
Definition rw_wb : Z := attr_or eRW eWriteBack.
Definition lp_wb : Z := attr_or rw_wb eLPage.

Lemma InternalMap_refines_witness :
  let m' := (InternalMap eLevel4 true (boot_memory 8) boot_top 0x400000 0x7000 rw_wb).2 in
  view eLevel4 boot_top m' 0x400123 = Some (leaf 0x7000 rw_wb, 1%nat).
Proof.
  cbv zeta. destruct (InternalMap_refines eLevel4 true boot_top (boot_memory 8) boot_levels 0x400000 0x7000 rw_wb
    (InternalMap eLevel4 true (boot_memory 8) boot_top 0x400000 0x7000 rw_wb).2) as (L' & _ & _ & Hv).
  - apply boot_page_map.
  - intros _. reflexivity.
  - apply boot_not_covered.
  - vm_compute. reflexivity.
  - rewrite Hv. rewrite decide_True; [reflexivity|]. apply (bool_decide_unpack _). vm_compute. exact I.
Defined.

Lemma InternalMap_succeeds_witness :
  exists m', InternalMap eLevel4 true (boot_memory 3) boot_top 0x400000 0x7000 rw_wb = (true, m').
Proof.
  apply (InternalMap_succeeds eLevel4 true boot_top (boot_memory 3) boot_levels);
    [apply boot_page_map|intros _; reflexivity|apply boot_not_covered|].
  vm_compute. repeat split; discriminate.
Defined.

Definition two_pages : Memory (H:=BumpHeap) :=
  (MapRange eLevel4 true boot_top (boot_memory 8) 0x400000 0x7000 0x2000 rw_wb).2.

Lemma MapRange_refines_witness :
  view eLevel4 boot_top two_pages 0x401123 = Some (leaf 0x8000 rw_wb, 1%nat).
Proof.
  destruct (MapRange_refines eLevel4 true boot_top (boot_memory 8) boot_levels 0x400000 0x7000 0x2000 rw_wb
    two_pages) as (_ & Hv & _);
    [apply boot_page_map|intros _; reflexivity|lia|lia|vm_compute; discriminate|now exists 0x400|lia|lia
    |intros off _; apply boot_not_covered|vm_compute; reflexivity|].
  apply (Hv 0x1123). lia.
Defined.

Lemma MapRange_Virt2Phys_witness : Virt2Phys eLevel4 two_pages boot_top 0x401123 eRead = 0x8123.
Proof.
  apply (MapRange_Virt2Phys eLevel4 true boot_top (boot_memory 8) boot_levels 0x400000 0x7000 0x2000 rw_wb
    two_pages) with (off := 0x1123);
    [apply boot_page_map|reflexivity|lia|lia|vm_compute; discriminate|now exists 0x400|now exists 7|lia|lia
    |intros off _; apply boot_not_covered|vm_compute; reflexivity|lia].
Defined.

Lemma two_pages_map :
  exists L, page_map eLevel4 boot_top two_pages L /\ forall w, not_covered eLevel4 boot_top 1 two_pages w.
Proof.
  destruct (MapRange_view eLevel4 true boot_top (boot_memory 8) boot_levels 0x400000 0x7000 0x2000 rw_wb
    two_pages) as (L & HL & _ & Hv);
    [apply boot_page_map|intros _; reflexivity|lia|lia|vm_compute; discriminate
    |intros off _; apply covered_not_covered, boot_not_covered|vm_compute; reflexivity|].
  exists L. split; [exact HL|]. intros w. apply covered_not_covered. rewrite Hv, boot_view.
  destruct (list_find _ _) as [[? ?]|]; simpl; [|exact I]. vm_compute. lia.
Qed.

Lemma UnmapRange_refines_witness :
  view eLevel4 boot_top (UnmapRange eLevel4 true boot_top two_pages 0x400000 0x1000 0).2 0x400123 = None.
Proof.
  destruct two_pages_map as (L & HL & Hc).
  destruct (UnmapRange_refines eLevel4 true boot_top two_pages L 0x400000 0x1000 0
    (UnmapRange eLevel4 true boot_top two_pages 0x400000 0x1000 0).2) as (_ & Hv & _);
    [exact HL|intros _; reflexivity|lia|lia|vm_compute; discriminate|now exists 0x400|intros off _; apply Hc
    |vm_compute; reflexivity|].
  apply (Hv 0x123). lia.
Defined.

Lemma NextLevel_out_of_memory_witness :
  exists m', NextLevel (boot_memory 0) (boot_top, 5) true = (0, m') /\ IsValid (rd m' (boot_top, 5)) = true.
Proof.
  destruct (NextLevel_out_of_memory (boot_memory 0) boot_top 5 (mkBump 1 0) zeroed_table)
    as (m' & H1 & H2 & _); [reflexivity|simpl; lia|reflexivity|reflexivity|reflexivity|].
  exists m'. split; [exact H1|exact H2].
Defined.

Lemma native_flags_roundtrip_witness :
  Z.testbit (FromNativeFlags 0 (ToNativeFlags rw_wb)) 1 = true.
Proof. rewrite (native_flags_roundtrip rw_wb 1); [reflexivity|lia]. Defined.

(** Three tables are left: the page at 0x1ff000 fits, the next one needs a fourth. *)
Lemma MapRange_rollback_incomplete_witness :
  let r := MapRange eLevel4 true boot_top (boot_memory 3) 0x1ff000 0x7000 0x2000 rw_wb in
  r.1 = false /\ view eLevel4 boot_top r.2 0x1ff000 = Some (leaf 0x7000 rw_wb, 1%nat).
Proof.
  cbv zeta. set (m1 := (Map eLevel4 true boot_top (boot_memory 3) 0x1ff000 0x7000 rw_wb).2).
  set (m2 := (Map eLevel4 true boot_top m1 0x200000 0x8000 rw_wb).2).
  pose proof (MapRange_rollback_incomplete eLevel4 true boot_top (boot_memory 3) 0x1ff000 0x7000 rw_wb m1 m2)
    as Hr. change (2 * GetPageSize rw_wb) with 0x2000 in Hr. rewrite Hr.
  - vm_compute. split; reflexivity.
  - vm_compute. reflexivity.
  - vm_compute. reflexivity.
Defined.

Lemma large_page_Virt2Phys_off_witness :
  Virt2Phys eLevel4 (InternalMap eLevel4 true (boot_memory 8) boot_top 0x600000 0x200000 lp_wb).2
    boot_top 0x600000 lp_wb = 0x201000.
Proof.
  apply (large_page_Virt2Phys_off eLevel4 true boot_top (boot_memory 8) boot_levels 0x600000 1 lp_wb);
    try reflexivity; try lia.
  - apply boot_page_map.
  - apply boot_not_covered.
Defined.
