(* ===== verification/BitmapAllocator.v ===== *)
(** * Physical memory: the bitmap page-frame allocator

    [Memory/MemoryZone.hpp], [Memory/Allocator/BitmapAllocator.cpp] and
    [Memory/PMM.cpp].  The bitmap is the Prism container behind the [Bitmap] class;
    a set bit is a page in use.  The specification is a first-fit search: the run
    found is the first one of the window, and only its pages change. *)

From Stdlib Require Import ZArith Lia Bool.
From stdpp Require Import base gmap list numbers.
From S2P Require Import Prelude Prism.

(** ** Memory zones *)
Inductive MemoryZoneType :=
  | eUsable | eReserved | eACPI_Reclaimable | eACPI_NVS | eBadMemory
  | eBootloaderReclaimable | eKernelAndModules | eFramebuffer | eCount.
#[export] Instance MemoryZoneType_eq_dec : EqDecision MemoryZoneType.
Proof. solve_decision. Defined.

Record MemoryZone := mkZone { Base : Z; Length : Z; Type_ : MemoryZoneType }.

(** [MemoryZone::Allocate]: carve [bytes] off the front of a usable zone. *)
Definition MemoryZone_Allocate (z : MemoryZone) (bytes : Z) : Z * MemoryZone :=
  if (Length z <? bytes) || bool_decide (Type_ z <> eUsable) then (0, z)
  else (Base z, mkZone (u64 (Base z + bytes)) (u64 (Length z - bytes)) (Type_ z)).

(** ** The allocator *)
Inductive Error := EINVAL | ENOMEM.

Section Allocator.
Context {B : Type} {BM : Bitmap B} {PM : PrismMath}.

(** [lastIndex] is the static local of [AllocatePages]. *)
Record BitmapAllocator := mkBA {
  m_PageBitmap : B;
  m_MemoryTop : Z;
  m_UsableMemoryTop : Z;
  m_PageSize : Z;
  m_UsableMemorySize : Z;
  m_TotalMemory : Z;
  m_UsedMemory : Z;
  lastIndex : Z
}.

Definition with_bitmap (s : BitmapAllocator) (b : B) (used last : Z) : BitmapAllocator :=
  mkBA b (m_MemoryTop s) (m_UsableMemoryTop s) (m_PageSize s) (m_UsableMemorySize s)
    (m_TotalMemory s) used last.

(** [for (i = from; i < from + n; i++) SetIndex(i, v)]. *)
Fixpoint set_pages (from : Z) (n : nat) (v : bool) (b : B) : B :=
  match n with
  | O => b
  | S n => set_pages (from + 1) n v (SetIndex from v b)
  end.

(** The first pass of [Initialize] over the memory map. *)
Definition Initialize_entry (s : BitmapAllocator) (entry : MemoryZone) : BitmapAllocator :=
  let top := u64 (Base entry + Length entry) in
  let memoryTop := Z.max (m_MemoryTop s) top in
  let '(usableSize, usableTop, used, total) :=
    match Type_ entry with
    | eUsable => (u64 (m_UsableMemorySize s + Length entry), Z.max (m_UsableMemoryTop s) top,
                  m_UsedMemory s, u64 (m_TotalMemory s + Length entry))
    | eACPI_Reclaimable | eBootloaderReclaimable | eKernelAndModules =>
        (m_UsableMemorySize s, m_UsableMemoryTop s, u64 (m_UsedMemory s + Length entry),
         u64 (m_TotalMemory s + Length entry))
    | _ => (m_UsableMemorySize s, m_UsableMemoryTop s, m_UsedMemory s, m_TotalMemory s)
    end in
  mkBA (m_PageBitmap s) memoryTop usableTop (m_PageSize s) usableSize total used (lastIndex s).

(** The second pass: the pages of one zone become free. *)
Definition Initialize_zone (pageSize : Z) (b : B) (current : MemoryZone) : B :=
  if bool_decide (Type_ current <> eUsable) then b
  else
    let first := if Base current =? 0 then 4096 else 0 in
    fold_left (λ b page, SetIndex (u64 (Base current + page) / pageSize) false b)
      ((λ k, first + k) <$> strides (Length current - first) pageSize) b.

(** [None] is a failed [Assert], which stops the kernel. *)
Definition Initialize (s : BitmapAllocator) (memoryMap : list MemoryZone) (pageSize : Z)
    : option (BitmapAllocator * option Error) :=
  if negb (IsPowerOfTwo pageSize) then Some (s, Some EINVAL)
  else
    let s := mkBA (m_PageBitmap s) (m_MemoryTop s) (m_UsableMemoryTop s) pageSize
               (m_UsableMemorySize s) (m_TotalMemory s) (m_UsedMemory s) (lastIndex s) in
    let s := fold_left Initialize_entry memoryMap s in
    if m_MemoryTop s =? 0 then Some (s, Some ENOMEM)
    else
      let bitmapEntryCount := m_UsableMemoryTop s / pageSize in
      let b := SetAll 0xff (Allocate bitmapEntryCount (m_PageBitmap s)) in
      if bitmap_size b =? 0 then None
      else
        let b := fold_left (Initialize_zone pageSize) memoryMap b in
        Some (with_bitmap s b (m_UsedMemory s) (lastIndex s), None).

Definition MemoryTop (s : BitmapAllocator) : Z := m_UsableMemoryTop s.
Definition TotalMemorySize (s : BitmapAllocator) : Z := m_TotalMemory s.
Definition UsedMemorySize (s : BitmapAllocator) : Z := m_UsedMemory s.
Definition FreeMemorySize (s : BitmapAllocator) : Z := u64 (TotalMemorySize s - UsedMemorySize s).

(** The search loop; each turn advances [start], so [limit - start] turns are enough.
    The answer is the index of the first page of the run. *)
Fixpoint find_loop (fuel : nat) (b : B) (start contiguousPages count limit : Z) : option Z * B * Z :=
  match fuel with
  | O => (None, b, start)
  | S fuel =>
      if start <? limit then
        let used := GetIndex b start in
        let start := start + 1 in
        if negb used then
          let contiguousPages := contiguousPages + 1 in
          if contiguousPages =? count then
            let page := start - count in
            (Some page, set_pages page (Z.to_nat (start - page)) true b, start)
          else find_loop fuel b start contiguousPages count limit
        else find_loop fuel b start 0 count limit
      else (None, b, start)
  end.

(** The pointer returned, the bitmap and the new value of the reference [start]. *)
Definition FindFreeRegions (s : BitmapAllocator) (start count limit : Z) : Z * B * Z :=
  match find_loop (Z.to_nat (limit - start)) (m_PageBitmap s) start 0 count limit with
  | (Some page, b, start) => (u64 (page * m_PageSize s), b, start)
  | (None, b, start) => (0, b, start)
  end.

Definition AllocatePages (s : BitmapAllocator) (pageCount : Z) : Z * BitmapAllocator :=
  if pageCount =? 0 then (0, s)
  else
    let i := lastIndex s in
    let '(pages, b, last) := FindFreeRegions s (lastIndex s) pageCount (m_UsableMemoryTop s / m_PageSize s) in
    let s1 := with_bitmap s b (m_UsedMemory s) last in
    if pages =? 0 then
      let '(pages, b, last) := FindFreeRegions s1 0 pageCount i in
      let s2 := with_bitmap s1 b (m_UsedMemory s1) last in
      if pages =? 0 then (0, s2)
      else (pages, with_bitmap s2 b (u64 (m_UsedMemory s2 + pageCount * m_PageSize s2)) last)
    else (pages, with_bitmap s1 b (u64 (m_UsedMemory s1 + pageCount * m_PageSize s1)) last).

Definition FreePages (s : BitmapAllocator) (page pageCount : Z) : BitmapAllocator :=
  if (pageCount =? 0) || (page =? 0) then s
  else
    let pageIndex := page / m_PageSize s in
    let b := set_pages pageIndex (Z.to_nat pageCount) false (m_PageBitmap s) in
    with_bitmap s b (u64 (m_UsedMemory s - pageCount * m_PageSize s)) (lastIndex s).
End Allocator.
Arguments BitmapAllocator : clear implicits.

(** ** [PMM]: the early allocator and the switch to the bitmap *)
Module PMM.
Definition PAGE_SIZE : Z := 4096.

Fixpoint EarlyAllocatePages (zones : list MemoryZone) (count : Z) : Z * list MemoryZone :=
  match zones with
  | [] => (0, [])
  | entry :: rest =>
      if bool_decide (Type_ entry <> eUsable) || (Length entry <? u64 (count * PAGE_SIZE)) then
        let '(p, rest) := EarlyAllocatePages rest count in (p, entry :: rest)
      else
        let '(p, entry) := MemoryZone_Allocate entry (u64 (count * PAGE_SIZE)) in (p, entry :: rest)
  end.

Section PMM.
Context {B : Type} {BM : Bitmap B} {PM : PrismMath}.

Record State := mkPMM {
  s_Initialized : bool;
  s_MemoryMap : list MemoryZone;
  s_BitmapAllocator : BitmapAllocator B
}.

Definition EarlyInitialize (st : State) (memoryMap : list MemoryZone) : State :=
  mkPMM (s_Initialized st) memoryMap (s_BitmapAllocator st).

Definition Initialize (st : State) (memoryMap : list MemoryZone) : option (bool * State) :=
  if bool_decide (memoryMap = []) then
    Some (false, mkPMM (s_Initialized st) memoryMap (s_BitmapAllocator st))
  else
    match BitmapAllocator.Initialize (s_BitmapAllocator st) memoryMap PAGE_SIZE with
    | None => None
    | Some (a, Some _) => Some (false, mkPMM (s_Initialized st) memoryMap a)
    | Some (a, None) => Some (true, mkPMM true memoryMap a)
    end.

Definition AllocatePages (st : State) (count : Z) : Z * State :=
  if negb (s_Initialized st) then
    let '(p, zones) := EarlyAllocatePages (s_MemoryMap st) count in
    (p, mkPMM (s_Initialized st) zones (s_BitmapAllocator st))
  else
    let '(p, a) := BitmapAllocator.AllocatePages (s_BitmapAllocator st) count in
    (p, mkPMM (s_Initialized st) (s_MemoryMap st) a).

Definition FreePages (st : State) (ptr count : Z) : State :=
  mkPMM (s_Initialized st) (s_MemoryMap st) (BitmapAllocator.FreePages (s_BitmapAllocator st) ptr count).

Definition GetFreeMemory (st : State) : Z :=
  u64 (TotalMemorySize (s_BitmapAllocator st) - UsedMemorySize (s_BitmapAllocator st)).
End PMM.
Arguments State : clear implicits.
End PMM.
