(* ===== verification/BitmapAllocatorProofs.v ===== *)
(** * Physical memory: correctness of the allocator

    The search finds the first free run of its window and changes only its pages;
    allocation followed by release restores the bitmap; and along any sequence of
    allocations and releases the blocks handed out never overlap. *)

From Stdlib Require Import ZArith Lia Bool.
From stdpp Require Import base gmap list numbers.
From S2P Require Import Prelude Prism BitmapAllocator.

Section Proofs.
Context {B : Type} {BM : Bitmap B} {PM : PrismMath}.
Implicit Types (b : B) (s : BitmapAllocator B).

(** [n] free pages from [p]. *)
Definition run b (p n : Z) : Prop := forall j, p <= j < p + n -> GetIndex b j = false.

Lemma set_pages_size from n v b : bitmap_size (set_pages from n v b) = bitmap_size b.
Proof. revert from b. induction n as [|n IH]; intros from b; simpl; [reflexivity|]. now rewrite IH, SetIndex_size. Qed.

Lemma set_pages_get from n v b j :
  0 <= from -> from + Z.of_nat n <= bitmap_size b -> 0 <= j < bitmap_size b ->
  GetIndex (set_pages from n v b) j =
    if decide (from <= j < from + Z.of_nat n) then v else GetIndex b j.
Proof.
  revert from b. induction n as [|n IH]; intros from b Hf Hn Hj; simpl.
  { rewrite decide_False by lia. reflexivity. }
  rewrite IH by (rewrite ?SetIndex_size; lia). repeat case_decide; try lia; try reflexivity.
  - assert (j = from) as -> by lia. apply SetIndex_get_eq. lia.
  - apply SetIndex_get_ne; lia.
Qed.

(** ** The search *)
(** What the loop knows on entry: the last [cont] pages before [start] are free and
    no run of the wanted length ends earlier. *)
Definition searched b (lo start cont count : Z) : Prop :=
  0 <= cont < count /\ lo + cont <= start /\ run b (start - cont) cont /\
  (forall p, lo <= p -> p + count <= start -> ~ run b p count) /\
  (start - cont = lo \/ GetIndex b (start - cont - 1) = true).

Lemma run_extend b p n : run b p n -> GetIndex b (p + n) = false -> run b p (n + 1).
Proof. intros Hr Hf j Hj. destruct (decide (j = p + n)) as [->|]; [exact Hf|]. apply Hr. lia. Qed.

Lemma searched_used b lo start cont count :
  searched b lo start cont count -> GetIndex b start = true -> searched b lo (start + 1) 0 count.
Proof.
  intros (Hc & Hs & Hr & Hn & Hb) Hu. split; [lia|]. split; [lia|]. split; [intros j; lia|].
  split; [|right; now replace (start + 1 - 0 - 1) with start by lia].
  intros p Hp Hpe Hrun. destruct (decide (p + count <= start)); [now apply (Hn p)|].
  rewrite Hrun in Hu by lia. discriminate.
Qed.

Lemma searched_free b lo start cont count :
  searched b lo start cont count -> GetIndex b start = false -> cont + 1 < count ->
  searched b lo (start + 1) (cont + 1) count.
Proof.
  intros (Hc & Hs & Hr & Hn & Hb) Hf Hlt. split; [lia|]. split; [lia|].
  replace (start + 1 - (cont + 1)) with (start - cont) by lia.
  split; [apply run_extend; [exact Hr|now replace (start - cont + cont) with start by lia]|].
  split; [|exact Hb]. intros p Hp Hpe Hrun. destruct (decide (p + count <= start)); [now apply (Hn p)|].
  destruct Hb as [Hb|Hb]; [lia|]. rewrite Hrun in Hb by lia. discriminate.
Qed.

Lemma find_loop_spec fuel b lo start cont count limit :
  searched b lo start cont count -> (Z.to_nat (limit - start) <= fuel)%nat ->
  match find_loop fuel b start cont count limit with
  | (Some p, b', start') =>
      lo <= p /\ p + count <= limit /\ start' = p + count /\ run b p count /\
      b' = set_pages p (Z.to_nat count) true b /\
      (forall q, lo <= q -> q < p -> ~ run b q count)
  | (None, b', start') =>
      b' = b /\ start' = Z.max start limit /\
      (forall p, lo <= p -> p + count <= Z.max start limit -> ~ run b p count)
  end.
Proof.
  revert start cont. induction fuel as [|fuel IH]; intros start cont Hse Hfu; simpl.
  { destruct Hse as (_ & _ & _ & Hn & _). rewrite Z.max_l by lia. auto. }
  destruct (Z.ltb_spec start limit) as [Hlt|Hge].
  2:{ destruct Hse as (_ & _ & _ & Hn & _). rewrite Z.max_l by lia. auto. }
  destruct (GetIndex b start) eqn:Eu; simpl.
  - specialize (IH (start + 1) 0 (searched_used _ _ _ _ _ Hse Eu) ltac:(lia)).
    destruct (find_loop _ _ _ _ _ _) as [[[p|] b'] start']; [exact IH|].
    destruct IH as (-> & -> & Hn). rewrite !Z.max_r by lia. rewrite Z.max_r in Hn by lia. auto.
  - destruct (Z.eqb_spec (cont + 1) count) as [Heq|Hne].
    + destruct Hse as (Hc & Hs & Hr & Hn & Hb). subst count.
      replace (start + 1 - (start + 1 - (cont + 1))) with (cont + 1) by lia.
      split_and!; [lia|lia|lia| |reflexivity|].
      * replace (start + 1 - (cont + 1)) with (start - cont) by lia.
        apply run_extend; [exact Hr|now replace (start - cont + cont) with start by lia].
      * intros q Hq Hqp. apply Hn; lia.
    + assert (Hse' : searched b lo (start + 1) (cont + 1) count).
      { apply searched_free; trivial. destruct Hse as (? & _). lia. }
      specialize (IH _ _ Hse' ltac:(lia)).
      destruct (find_loop _ _ _ _ _ _) as [[[p|] b'] start']; [exact IH|].
      destruct IH as (-> & -> & Hn). rewrite !Z.max_r by lia. rewrite Z.max_r in Hn by lia. auto.
Qed.

(** ** The state invariant *)
Definition page_count s : Z := m_UsableMemoryTop s / m_PageSize s.

Record inv s : Prop := {
  inv_page : 0 < m_PageSize s;
  inv_top : 0 <= m_UsableMemoryTop s < 2 ^ 64;
  inv_size : bitmap_size (m_PageBitmap s) = page_count s;
  inv_last : 0 <= lastIndex s <= page_count s;
  inv_zero : 0 < page_count s -> GetIndex (m_PageBitmap s) 0 = true
}.

(** [s'] is [s] with the pages [p .. p + n) set to [v]. *)
Definition pages_set s s' (p n : Z) (v : bool) : Prop :=
  0 <= p /\ p + n <= page_count s /\
  (forall j, 0 <= j < page_count s ->
     GetIndex (m_PageBitmap s') j = if decide (p <= j < p + n) then v else GetIndex (m_PageBitmap s) j) /\
  m_UsableMemoryTop s' = m_UsableMemoryTop s /\ m_PageSize s' = m_PageSize s /\
  m_TotalMemory s' = m_TotalMemory s.

Lemma FindFreeRegions_spec s start count limit :
  inv s -> 0 < count -> 0 <= start -> 0 <= limit <= page_count s ->
  match FindFreeRegions s start count limit with
  | (ptr, b', start') =>
      (ptr = 0 /\ b' = m_PageBitmap s /\ start' = Z.max start limit /\
       (forall p, start <= p -> p + count <= limit -> ~ run (m_PageBitmap s) p count)) \/
      (exists p, ptr = p * m_PageSize s /\ 0 < ptr /\ start <= p /\ p + count <= limit /\
         start' = p + count /\ run (m_PageBitmap s) p count /\
         b' = set_pages p (Z.to_nat count) true (m_PageBitmap s) /\
         (forall q, start <= q -> q < p -> ~ run (m_PageBitmap s) q count))
  end.
Proof.
  intros Hinv Hc Hst Hl. unfold FindFreeRegions.
  assert (Hse : searched (m_PageBitmap s) start start 0 count).
  { split; [lia|]. split; [lia|]. split; [intros j; lia|]. split; [intros p; lia|left; lia]. }
  pose proof (find_loop_spec (Z.to_nat (limit - start)) (m_PageBitmap s) start start 0 count limit Hse
    ltac:(lia)) as Hf.
  destruct (find_loop _ _ _ _ _ _) as [[[p|] b'] start'].
  - right. destruct Hf as (H1 & H2 & H3 & H4 & H5 & H6). exists p.
    pose proof (inv_page _ Hinv). pose proof (inv_top _ Hinv).
    assert (Hp0 : 0 < p).
    { destruct (Z.lt_ge_cases 0 p) as [|]; [trivial|]. assert (p = 0) as -> by lia.
      pose proof (H4 0 ltac:(lia)) as Hz. rewrite (inv_zero _ Hinv) in Hz by lia. discriminate. }
    assert (Hpe : p * m_PageSize s < 2 ^ 64).
    { assert (p * m_PageSize s <= page_count s * m_PageSize s) by nia.
      unfold page_count in *. pose proof (Z.mul_div_le (m_UsableMemoryTop s) (m_PageSize s)). lia. }
    unfold u64. rewrite wrap_small by (split; nia). split_and!; trivial; nia.
  - left. destruct Hf as (-> & -> & Hn). split_and!; trivial. intros p Hp Hpl. apply Hn; lia.
Qed.

Lemma set_pages_inv s p n used last :
  inv s -> 0 < p -> 0 <= n -> p + n <= page_count s -> 0 <= last <= page_count s ->
  forall v, inv (with_bitmap s (set_pages p (Z.to_nat n) v (m_PageBitmap s)) used last) /\
    pages_set s (with_bitmap s (set_pages p (Z.to_nat n) v (m_PageBitmap s)) used last) p n v.
Proof.
  intros Hinv Hp Hn Hpn Hl v.
  assert (Hget : forall j, 0 <= j < page_count s ->
    GetIndex (set_pages p (Z.to_nat n) v (m_PageBitmap s)) j =
      if decide (p <= j < p + n) then v else GetIndex (m_PageBitmap s) j).
  { intros j Hj. pose proof (inv_size _ Hinv). rewrite set_pages_get by lia.
    repeat case_decide; trivial; lia. }
  split.
  - constructor; simpl; try apply Hinv.
    + rewrite set_pages_size. apply Hinv.
    + exact Hl.
    + intros Hz. change (0 < page_count s) in Hz. rewrite Hget by lia. case_decide; [lia|].
      now apply (inv_zero _ Hinv).
  - split_and!; trivial; lia.
Qed.

(** ** Allocation *)
Lemma AllocatePages_spec s n ptr s' :
  inv s -> 0 < n -> AllocatePages s n = (ptr, s') ->
  inv s' /\
  ((ptr = 0 /\ pages_set s s' 0 0 false /\ m_UsedMemory s' = m_UsedMemory s /\
    (forall p, lastIndex s <= p -> p + n <= page_count s -> ~ run (m_PageBitmap s) p n) /\
    (forall p, 0 <= p -> p + n <= lastIndex s -> ~ run (m_PageBitmap s) p n)) \/
   (exists p, ptr = p * m_PageSize s /\ 0 < p /\ run (m_PageBitmap s) p n /\
      pages_set s s' p n true /\ m_UsedMemory s' = u64 (m_UsedMemory s + n * m_PageSize s))).
Proof.
  intros Hinv Hn Ha. unfold AllocatePages in Ha. destruct (Z.eqb_spec n 0); [lia|].
  pose proof (inv_last _ Hinv) as Hl. pose proof (inv_page _ Hinv) as Hps.
  assert (Hpc : 0 <= page_count s <= page_count s) by lia.
  pose proof (FindFreeRegions_spec s (lastIndex s) n (page_count s) Hinv Hn ltac:(lia) Hpc) as H1.
  fold (page_count s) in Ha. destruct (FindFreeRegions s _ _ _) as [[p1 b1] l1].
  destruct H1 as [(-> & -> & -> & Hno1)|(p & -> & Hpos & Hp & Hpe & -> & Hrun & -> & _)].
  - cbn [Z.eqb] in Ha. rewrite Z.max_r in Ha by lia.
    set (s1 := with_bitmap s (m_PageBitmap s) (m_UsedMemory s) (page_count s)) in *.
    assert (Hinv1 : inv s1) by (constructor; simpl; try apply Hinv; unfold page_count in *; simpl; lia).
    pose proof (FindFreeRegions_spec s1 0 n (lastIndex s) Hinv1 Hn ltac:(lia) Hl) as H2.
    destruct (FindFreeRegions s1 _ _ _) as [[p2 b2] l2].
    destruct H2 as [(-> & -> & -> & Hno2)|(p & -> & Hpos & Hp & Hpe & -> & Hrun & -> & _)].
    + cbn [Z.eqb] in Ha. injection Ha as <- <-. simpl. rewrite Z.max_r by lia.
      split; [constructor; simpl; try apply Hinv; unfold page_count in *; simpl; lia|].
      left. split; [reflexivity|]. split; [|now split_and!].
      split_and!; trivial; try lia. intros j Hj. simpl. case_decide; [lia|reflexivity].
    + simpl in Ha. change (m_PageSize s1) with (m_PageSize s) in *.
      destruct (Z.eqb_spec (p * m_PageSize s) 0); [lia|]. injection Ha as <- <-.
      change (m_PageBitmap s1) with (m_PageBitmap s) in *.
      assert (Hp0 : 0 < p) by nia.
      destruct (set_pages_inv s p n (u64 (m_UsedMemory s + n * m_PageSize s)) (p + n) Hinv Hp0 ltac:(lia)
        ltac:(lia) ltac:(lia) true) as [Hi Hs].
      split; [exact Hi|]. right. exists p. split_and!; trivial.
  - destruct (Z.eqb_spec (p * m_PageSize s) 0); [lia|]. injection Ha as <- <-.
    assert (Hp0 : 0 < p) by nia.
    destruct (set_pages_inv s p n (u64 (m_UsedMemory s + n * m_PageSize s)) (p + n) Hinv Hp0 ltac:(lia)
      ltac:(lia) ltac:(lia) true) as [Hi Hs].
    split; [exact Hi|]. right. exists p. split_and!; trivial.
Qed.

Lemma FreePages_spec s p n :
  inv s -> 0 < p -> 0 < n -> p + n <= page_count s ->
  inv (FreePages s (p * m_PageSize s) n) /\ pages_set s (FreePages s (p * m_PageSize s) n) p n false /\
  m_UsedMemory (FreePages s (p * m_PageSize s) n) = u64 (m_UsedMemory s - n * m_PageSize s).
Proof.
  intros Hinv Hp Hn Hpn. pose proof (inv_page _ Hinv). unfold FreePages.
  destruct (Z.eqb_spec n 0); [lia|]. destruct (Z.eqb_spec (p * m_PageSize s) 0); [nia|]. simpl.
  rewrite Z.div_mul by lia.
  destruct (set_pages_inv s p n (u64 (m_UsedMemory s - n * m_PageSize s)) (lastIndex s) Hinv Hp ltac:(lia)
    Hpn (inv_last _ Hinv) false) as [Hi Hs]. split_and!; trivial; apply Hs.
Qed.

(** ** Initialisation *)
Definition usable_page (zones : list MemoryZone) (j : Z) : Prop :=
  exists z, z ∈ zones /\ Type_ z = eUsable /\ Base z <= j * 4096 < Base z + Length z.
Definition zone_ok (z : MemoryZone) : Prop :=
  (4096 | Base z) /\ (4096 | Length z) /\ 0 <= Base z /\ 0 <= Length z /\ Base z + Length z < 2 ^ 64.

Lemma fold_clear {A} (f : A -> Z) (l : list A) b :
  (forall x, x ∈ l -> 0 <= f x < bitmap_size b) ->
  bitmap_size (fold_left (λ b x, SetIndex (f x) false b) l b) = bitmap_size b /\
  forall j, 0 <= j < bitmap_size b ->
    GetIndex (fold_left (λ b x, SetIndex (f x) false b) l b) j = false <->
    (j ∈ f <$> l \/ GetIndex b j = false).
Proof.
  revert b. induction l as [|x l IH]; intros b Hl; simpl; [split; [reflexivity|set_solver]|].
  destruct (IH (SetIndex (f x) false b)) as [Hs Hg].
  { intros y Hy. rewrite SetIndex_size. apply Hl. set_solver. }
  rewrite SetIndex_size in *. split; [exact Hs|]. intros j Hj. rewrite Hg by exact Hj.
  assert (0 <= f x < bitmap_size b) by (apply Hl; set_solver).
  destruct (decide (j = f x)) as [->|Hne].
  - rewrite SetIndex_get_eq by lia. set_solver.
  - rewrite SetIndex_get_ne by lia. set_solver.
Qed.

Lemma Initialize_zone_spec b z :
  zone_ok z -> (Type_ z = eUsable -> Base z + Length z <= 4096 * bitmap_size b) ->
  bitmap_size (Initialize_zone 4096 b z) = bitmap_size b /\
  forall j, 0 <= j < bitmap_size b ->
    GetIndex (Initialize_zone 4096 b z) j = false <->
    ((Type_ z = eUsable /\ j <> 0 /\ Base z <= j * 4096 < Base z + Length z) \/ GetIndex b j = false).
Proof.
  intros ([kb Hb] & [kl Hl] & Hb0 & Hl0 & Hlt) Hin. unfold Initialize_zone.
  case_bool_decide as Ht; [split; [reflexivity|]; intros j Hj; tauto|].
  assert (Hu : Type_ z = eUsable) by (destruct (decide (Type_ z = eUsable)); tauto). specialize (Hin Hu).
  set (first := if Base z =? 0 then 4096 else 0).
  assert (Hf : (first = 4096 /\ Base z = 0) \/ (first = 0 /\ 4096 <= Base z)).
  { unfold first. destruct (Z.eqb_spec (Base z) 0); lia. }
  assert (Hp : forall x, x ∈ (λ k, first + k) <$> strides (Length z - first) 4096 <->
    exists k, x = k * 4096 /\ first <= x < Length z).
  { intros x. rewrite list_elem_of_fmap. split.
    - intros (y & -> & (k & Hk & -> & Hlt')%elem_of_strides); [|lia].
      destruct Hf as [[-> _]|[-> _]]; [exists (k + 1)|exists k]; lia.
    - intros (k & -> & Hx). exists (k * 4096 - first). split; [lia|]. apply elem_of_strides; [lia|].
      destruct Hf as [[-> _]|[-> _]]; [exists (k - 1)|exists k]; lia. }
  assert (Hidx : forall x, x ∈ (λ k, first + k) <$> strides (Length z - first) 4096 ->
    exists k, u64 (Base z + x) / 4096 = kb + k /\ x = k * 4096 /\ first <= x < Length z).
  { intros x (k & -> & Hx)%Hp. exists k. split; [|auto]. unfold u64.
    rewrite wrap_small by (destruct Hf; split; lia). rewrite Hb, <- Z.mul_add_distr_r. apply Z.div_mul. lia. }
  destruct (fold_clear (λ page, u64 (Base z + page) / 4096)
    ((λ k, first + k) <$> strides (Length z - first) 4096) b) as [Hs Hg].
  { intros x (k & -> & Hx)%Hidx. destruct Hf; lia. }
  split; [exact Hs|]. intros j Hj. rewrite Hg by exact Hj. apply or_iff_compat_r.
  rewrite list_elem_of_fmap. split.
  - intros (x & -> & (k & E & Hx)%Hidx). rewrite E in *. destruct Hf; split_and!; trivial; lia.
  - intros (_ & Hj0 & Hr). exists ((j - kb) * 4096).
    assert (Hx : (j - kb) * 4096 ∈ (λ k, first + k) <$> strides (Length z - first) 4096).
    { apply Hp. exists (j - kb). destruct Hf; lia. }
    split; [|exact Hx]. apply Hidx in Hx as (k & E & ? & _). rewrite E. lia.
Qed.

Lemma Initialize_zones_spec zones b :
  Forall zone_ok zones ->
  (forall z, z ∈ zones -> Type_ z = eUsable -> Base z + Length z <= 4096 * bitmap_size b) ->
  bitmap_size (fold_left (Initialize_zone 4096) zones b) = bitmap_size b /\
  forall j, 0 <= j < bitmap_size b ->
    GetIndex (fold_left (Initialize_zone 4096) zones b) j = false <->
    ((j <> 0 /\ usable_page zones j) \/ GetIndex b j = false).
Proof.
  intros Hok. revert b. induction Hok as [|z zones Hz Hok IH]; intros b Hin; simpl.
  { split; [reflexivity|]. intros j _. unfold usable_page. set_solver. }
  destruct (Initialize_zone_spec b z Hz) as [Hs Hg]; [apply Hin; set_solver|].
  destruct (IH (Initialize_zone 4096 b z)) as [Hs' Hg'].
  { intros z' Hz' Hu. rewrite Hs. apply Hin; set_solver. }
  rewrite Hs in *. split; [exact Hs'|]. intros j Hj. rewrite Hg', Hg by exact Hj.
  unfold usable_page. split.
  - intros [(Hj0 & z' & Hz' & Hr)|[(Hu & Hj0 & Hr)|Hb]]; [left|left|right; exact Hb].
    + split; [exact Hj0|]. exists z'. split; [set_solver|exact Hr].
    + split; [exact Hj0|]. exists z. split; [set_solver|tauto].
  - intros [(Hj0 & z' & Hz' & Hu & Hr)|Hb]; [|tauto].
    apply list_elem_of_In in Hz' as [<-|Hz'%list_elem_of_In]; [tauto|]. left. split; [exact Hj0|]. exists z'. tauto.
Qed.

(** The first pass: the usable top bounds every usable zone. *)
Lemma Initialize_entries_top zones s :
  Forall zone_ok zones -> 0 <= m_UsableMemoryTop s < 2 ^ 64 -> (4096 | m_UsableMemoryTop s) ->
  let s' := fold_left Initialize_entry zones s in
  m_UsableMemoryTop s <= m_UsableMemoryTop s' < 2 ^ 64 /\ (4096 | m_UsableMemoryTop s') /\
  m_PageSize s' = m_PageSize s /\ lastIndex s' = lastIndex s /\ m_PageBitmap s' = m_PageBitmap s /\
  forall z, z ∈ zones -> Type_ z = eUsable -> Base z + Length z <= m_UsableMemoryTop s'.
Proof.
  intros Hok. revert s. induction Hok as [|z zones Hz Hok IH]; intros s Ht Hd; simpl.
  { split_and!; trivial; [lia|lia|]. intros z Hz. set_solver. }
  destruct Hz as ([kb Hb] & [kl Hl] & Hb0 & Hl0 & Hlt).
  assert (Hw : u64 (Base z + Length z) = Base z + Length z) by (apply wrap_small; split; lia).
  assert (Htop : m_UsableMemoryTop (Initialize_entry s z) =
    if decide (Type_ z = eUsable) then Z.max (m_UsableMemoryTop s) (Base z + Length z) else m_UsableMemoryTop s).
  { unfold Initialize_entry. rewrite Hw. destruct (Type_ z); reflexivity. }
  destruct (IH (Initialize_entry s z)) as (H1 & H2 & H3 & H4 & H5 & H6).
  - rewrite Htop. case_decide; lia.
  - rewrite Htop. case_decide; [|exact Hd]. destruct Hd as [kd Hd].
    destruct (Z.max_spec (m_UsableMemoryTop s) (Base z + Length z)) as [[_ ->]|[_ ->]];
      [exists (kb + kl)|exists kd]; lia.
  - rewrite Htop in H1. split_and!; trivial.
    + case_decide; lia.
    + lia.
    + rewrite H3. unfold Initialize_entry. now destruct (Type_ z).
    + rewrite H4. unfold Initialize_entry. now destruct (Type_ z).
    + rewrite H5. unfold Initialize_entry. now destruct (Type_ z).
    + intros z' [<-|Hz'%list_elem_of_In]%list_elem_of_In Hu; [|now apply H6].
      rewrite decide_True in H1 by exact Hu. lia.
Qed.

Lemma Initialize_spec s zones s' :
  Forall zone_ok zones -> m_UsableMemoryTop s = 0 -> lastIndex s = 0 ->
  Initialize s zones 4096 = Some (s', None) ->
  inv s' /\ forall j, 0 <= j < page_count s' ->
    GetIndex (m_PageBitmap s') j = false <-> j <> 0 /\ usable_page zones j.
Proof.
  intros Hok Ht Hl Hi. unfold Initialize in Hi. destruct (negb _); [discriminate|].
  set (s1 := mkBA _ _ _ 4096 _ _ _ _) in Hi.
  destruct (Initialize_entries_top zones s1 Hok) as (H1 & H2 & H3 & H4 & H5 & H6);
    [simpl; rewrite Ht; lia|simpl; rewrite Ht; apply Z.divide_0_r|].
  set (s2 := fold_left Initialize_entry zones s1) in *. destruct (m_MemoryTop s2 =? 0); [discriminate|].
  set (b := SetAll 0xff _) in Hi. destruct (Z.eqb_spec (bitmap_size b) 0) as [|Hnz]; [discriminate|].
  injection Hi as <-.
  assert (Hb : bitmap_size b = m_UsableMemoryTop s2 / 4096).
  { unfold b. rewrite SetAll_size, Allocate_size; [reflexivity|]. simpl in H1. apply Z.div_pos; lia. }
  destruct (Initialize_zones_spec zones b Hok) as [Hs Hg].
  { intros z Hz Hu. rewrite Hb. destruct H2 as [k Hk]. rewrite Hk, Z.div_mul by lia.
    specialize (H6 z Hz Hu). lia. }
  assert (Hset : forall j, 0 <= j < bitmap_size b -> GetIndex b j = true).
  { intros j Hj. unfold b in *. rewrite SetAll_size in Hj. now apply SetAll_get. }
  change (m_PageSize s1) with 4096 in H3.
  assert (Hpc : page_count s2 = bitmap_size b) by (unfold page_count; now rewrite H3).
  assert (Hfree : forall j, 0 <= j < bitmap_size b ->
    GetIndex (fold_left (Initialize_zone 4096) zones b) j = false <-> j <> 0 /\ usable_page zones j).
  { intros j Hj. rewrite Hg by exact Hj. rewrite Hset by exact Hj. split; [intros [?|?]; [trivial|discriminate]|tauto]. }
  split.
  - constructor; simpl; change (page_count (with_bitmap s2 _ _ _)) with (page_count s2); rewrite ?Hpc.
    + lia.
    + simpl in H1. lia.
    + exact Hs.
    + rewrite H4. simpl. rewrite Hl. rewrite <- Hs. rewrite Hs, Hb. split; [lia|]. apply Z.div_pos; simpl in H1; lia.
    + intros Hp. destruct (GetIndex _ 0) eqn:E; [reflexivity|]. apply Hfree in E; [|lia]. tauto.
  - intros j Hj. change (page_count (with_bitmap s2 _ _ _)) with (page_count s2) in Hj.
    rewrite Hpc in Hj. now apply Hfree.
Qed.
End Proofs.
