(* ===== verification/PhysicalMemory.v ===== *)
(** * Physical memory: the theorems

    Allocation as a contract (what a caller of [PMM::AllocatePages] may rely on), the
    safety of whole histories of allocations and releases, the state [Initialize]
    builds from the memory map, and the early allocator. *)

From Stdlib Require Import ZArith Lia Bool.
From stdpp Require Import base gmap list numbers.
From S2P Require Import Prelude Prism BitmapAllocator BitmapAllocatorProofs.

(** ** Histories

    The allocator together with the blocks its clients hold. *)
Section Histories.
Context {B : Type} {BM : Bitmap B} {PM : PrismMath}.

Definition Block : Type := Z * Z.
Record World := mkWorld { allocator : BitmapAllocator B; held : list Block }.

Inductive step : World -> World -> Prop :=
  | step_alloc s blocks n ptr s' :
      0 < n -> AllocatePages s n = (ptr, s') -> ptr <> 0 ->
      step (mkWorld s blocks) (mkWorld s' ((ptr, n) :: blocks))
  | step_alloc_fail s blocks n s' :
      0 < n -> AllocatePages s n = (0, s') -> step (mkWorld s blocks) (mkWorld s' blocks)
  | step_free s before ptr n after :
      step (mkWorld s (before ++ (ptr, n) :: after)) (mkWorld (FreePages s ptr n) (before ++ after)).

Definition covers (ps j : Z) (blk : Block) : Prop := blk.1 <= j * ps < blk.1 + blk.2 * ps.
#[export] Instance covers_dec ps j blk : Decision (covers ps j blk).
Proof. unfold covers. apply _. Defined.

(** How many blocks hold page [j]. *)
Definition owners (ps j : Z) (blocks : list Block) : nat := length (filter (covers ps j) blocks).
Definition total_pages (blocks : list Block) : Z := foldr (λ blk acc, blk.2 + acc) 0 blocks.

Definition block_ok (s : BitmapAllocator B) (blk : Block) : Prop :=
  exists p, blk.1 = p * m_PageSize s /\ 0 < p /\ 0 < blk.2 /\ p + blk.2 <= page_count s.

(** The invariant of histories. *)
Record safe (ps pc used0 : Z) (w : World) : Prop := {
  safe_inv : inv (allocator w);
  safe_ps : m_PageSize (allocator w) = ps;
  safe_pc : page_count (allocator w) = pc;
  safe_blocks : Forall (block_ok (allocator w)) (held w);
  safe_owner j : 0 <= j < pc -> (owners ps j (held w) <= 1)%nat;
  safe_used j : 0 <= j < pc -> owners ps j (held w) = 1%nat ->
    GetIndex (m_PageBitmap (allocator w)) j = true;
  safe_memory : m_UsedMemory (allocator w) = u64 (used0 + total_pages (held w) * ps)
}.

Lemma owners_cons ps j blk blocks :
  owners ps j (blk :: blocks) = ((if decide (covers ps j blk) then 1 else 0) + owners ps j blocks)%nat.
Proof. unfold owners. rewrite filter_cons. now case_decide. Qed.

Lemma owners_app ps j l1 l2 : owners ps j (l1 ++ l2) = (owners ps j l1 + owners ps j l2)%nat.
Proof. unfold owners. now rewrite list.filter_app, length_app. Qed.

Lemma total_pages_app l1 l2 : total_pages (l1 ++ l2) = total_pages l1 + total_pages l2.
Proof. induction l1 as [|blk l1 IH]; simpl; [lia|]. unfold total_pages in *. simpl. rewrite IH. lia. Qed.

Lemma covers_index ps j p n : 0 < ps -> covers ps j (p * ps, n) <-> p <= j < p + n.
Proof. intros Hps. unfold covers. simpl. nia. Qed.

Lemma pages_set_count s s' p n v :
  pages_set (BM:=BM) s s' p n v -> page_count s' = page_count s /\ m_PageSize s' = m_PageSize s.
Proof. intros (_ & _ & _ & H1 & H2 & _). unfold page_count. rewrite H1, H2. auto. Qed.

Lemma block_ok_same s s' blk :
  page_count s' = page_count s -> m_PageSize s' = m_PageSize s -> block_ok s blk -> block_ok s' blk.
Proof. intros H1 H2 (p & Hp). exists p. now rewrite H1, H2. Qed.

Lemma blocks_ok_same s s' blocks :
  page_count s' = page_count s -> m_PageSize s' = m_PageSize s ->
  Forall (block_ok s) blocks -> Forall (block_ok s') blocks.
Proof. intros H1 H2. rewrite !Forall_forall. intros Hb blk Hin. now apply (block_ok_same s), Hb. Qed.

Lemma u64_shift a b c : u64 a = u64 b -> u64 (a + c) = u64 (b + c).
Proof. unfold u64, wrap. intros E. now rewrite <- Zplus_mod_idemp_l, E, Zplus_mod_idemp_l. Qed.

Lemma safe_alloc ps pc used0 s blocks n ptr s' :
  safe ps pc used0 (mkWorld s blocks) -> 0 < n -> AllocatePages s n = (ptr, s') -> ptr <> 0 ->
  safe ps pc used0 (mkWorld s' ((ptr, n) :: blocks)).
Proof.
  intros [Hinv Hps Hpc Hbl How Hus Hmem] Hn Ha Hne. simpl in *.
  destruct (AllocatePages_spec _ _ _ _ Hinv Hn Ha) as [Hinv' [[? _]|(p & -> & Hp & Hrun & Hset & Hmem')]]; [lia|].
  destruct (pages_set_count _ _ _ _ _ Hset) as [Hc Hz]. destruct Hset as (_ & Hpe & Hget & _).
  pose proof (inv_page _ Hinv) as Hpos. rewrite Hps, Hpc in *.
  assert (Hfree : forall j, p <= j < p + n -> owners ps j blocks = 0%nat).
  { intros j Hj. specialize (How j ltac:(lia)). specialize (Hus j ltac:(lia)).
    destruct (owners ps j blocks) as [|[|]]; trivial; [|lia]. rewrite Hrun in Hus by lia.
    specialize (Hus eq_refl). discriminate. }
  constructor; simpl; trivial.
  - constructor; [exists p; rewrite Hz, Hc; simpl; auto|].
    apply (blocks_ok_same s); congruence.
  - intros j Hj. rewrite owners_cons. case_decide as Hd; [|now apply How].
    apply covers_index in Hd; [|lia]. now rewrite Hfree.
  - intros j Hj. rewrite owners_cons, Hget by lia. case_decide as Hd.
    + apply covers_index in Hd; [|lia]. now rewrite decide_True by lia.
    + rewrite covers_index in Hd by lia. rewrite decide_False by lia. now apply Hus.
  - rewrite Hmem'. rewrite Hmem. unfold u64, wrap at 1. fold (u64 (used0 + total_pages blocks * ps)).
    change (u64 (u64 (used0 + total_pages blocks * ps) + n * ps) = u64 (used0 + (n + total_pages blocks) * ps)).
    replace (used0 + (n + total_pages blocks) * ps) with (used0 + total_pages blocks * ps + n * ps) by lia.
    apply u64_shift. unfold u64, wrap. now rewrite Z.mod_mod by lia.
Qed.

Lemma safe_free ps pc used0 s before ptr n after :
  safe ps pc used0 (mkWorld s (before ++ (ptr, n) :: after)) ->
  safe ps pc used0 (mkWorld (FreePages s ptr n) (before ++ after)).
Proof.
  intros [Hinv Hps Hpc Hbl How Hus Hmem]. simpl in *.
  assert (Hb : block_ok s (ptr, n)).
  { rewrite Forall_forall in Hbl. apply Hbl, in_app_iff. right. left. reflexivity. }
  destruct Hb as (p & Hptr & Hp & Hn & Hpe). simpl in *. subst ptr.
  destruct (FreePages_spec s p n Hinv Hp Hn Hpe) as (Hinv' & Hset & Hmem').
  destruct (pages_set_count _ _ _ _ _ Hset) as [Hc Hz]. destruct Hset as (_ & _ & Hget & _).
  pose proof (inv_page _ Hinv) as Hpos. rewrite Hps, Hpc in *.
  assert (Hrest : forall j, 0 <= j < pc -> owners ps j (before ++ (p * ps, n) :: after) =
    ((if decide (p <= j < p + n)%Z then 1 else 0) + owners ps j (before ++ after))%nat).
  { intros j Hj. rewrite !owners_app, owners_cons.
    destruct (decide (covers ps j (p * ps, n))) as [Hd|Hd]; rewrite covers_index in Hd by lia;
      destruct (decide (p <= j < p + n)); tauto || lia. }
  constructor; simpl; trivial.
  - apply Forall_app in Hbl as [H1 H2]. apply Forall_cons_iff in H2 as [_ H2].
    assert (Hall : Forall (block_ok s) (before ++ after)) by (apply Forall_app; auto).
    apply (blocks_ok_same s); trivial; congruence.
  - intros j Hj. specialize (How j Hj). rewrite Hrest in How by exact Hj. lia.
  - intros j Hj Ho. rewrite Hget by exact Hj. specialize (How j Hj). specialize (Hus j Hj).
    rewrite Hrest in How, Hus by exact Hj. case_decide; [lia|]. apply Hus. lia.
  - rewrite Hmem', Hmem, !total_pages_app. simpl. unfold Z.sub at 1.
    replace (used0 + (total_pages before + total_pages after) * ps) with
      (used0 + (total_pages before + (n + total_pages after)) * ps + - (n * ps)) by lia.
    apply u64_shift. unfold u64, wrap. now rewrite Z.mod_mod by lia.
Qed.

Lemma safe_step ps pc used0 w w' : safe ps pc used0 w -> step w w' -> safe ps pc used0 w'.
Proof.
  intros Hs Hst. destruct Hst as [s blocks n ptr s' Hn Ha Hne|s blocks n s' Hn Ha|s before ptr n after].
  - now apply (safe_alloc _ _ _ s _ n).
  - destruct Hs as [Hinv Hps Hpc Hbl How Hus Hmem]. simpl in *.
    destruct (AllocatePages_spec _ _ _ _ Hinv Hn Ha) as [Hinv' [(_ & Hset & Hm & _)|(p & Hp & H0 & _)]].
    + destruct (pages_set_count _ _ _ _ _ Hset) as [Hc Hz]. destruct Hset as (_ & _ & Hget & _).
      constructor; simpl; trivial; try congruence.
      * apply (blocks_ok_same s); congruence.
      * intros j Hj Ho. rewrite Hget by lia. rewrite decide_False by lia. now apply Hus.
    + pose proof (inv_page _ Hinv). nia.
  - now apply safe_free.
Qed.
End Histories.
Arguments World : clear implicits.

(** ** Theorems *)
Section Theorems.
Context {B : Type} {BM : Bitmap B} {PM : PrismMath}.

(** C25: [AllocatePages] returns the address of a run of free pages and marks exactly
    those pages used, adding their size to the used memory; when it returns null
    nothing changes and no run of that length lies on either side of the search
    position.  The invariant of the allocator is kept in both cases. *)
Theorem AllocatePages_contract (s : BitmapAllocator B) n ptr s' :
  inv s -> 0 < n -> AllocatePages s n = (ptr, s') ->
  inv s' /\
  if ptr =? 0 then
    (forall j, 0 <= j < page_count s -> GetIndex (m_PageBitmap s') j = GetIndex (m_PageBitmap s) j) /\
    m_UsedMemory s' = m_UsedMemory s /\
    (forall p, lastIndex s <= p -> p + n <= page_count s -> ~ run (m_PageBitmap s) p n) /\
    (forall p, 0 <= p -> p + n <= lastIndex s -> ~ run (m_PageBitmap s) p n)
  else
    exists p, ptr = p * m_PageSize s /\ 0 < p /\ p + n <= page_count s /\ run (m_PageBitmap s) p n /\
      (forall j, 0 <= j < page_count s ->
         GetIndex (m_PageBitmap s') j = bool_decide (p <= j < p + n) || GetIndex (m_PageBitmap s) j) /\
      m_UsedMemory s' = u64 (m_UsedMemory s + n * m_PageSize s).
Proof.
  intros Hinv Hn Ha. destruct (AllocatePages_spec _ _ _ _ Hinv Hn Ha) as [Hinv' Hr]. split; [exact Hinv'|].
  pose proof (inv_page _ Hinv). destruct Hr as [(-> & Hset & Hm & Hr)|(p & -> & Hp & Hrun & Hset & Hm)].
  - split; [|tauto]. intros j Hj. destruct Hset as (_ & _ & Hg & _). rewrite Hg by exact Hj.
    now rewrite decide_False by lia.
  - destruct (Z.eqb_spec (p * m_PageSize s) 0); [nia|]. destruct Hset as (_ & Hpe & Hg & _).
    exists p. split_and!; trivial. intros j Hj. rewrite Hg by exact Hj.
    case_decide; [now rewrite bool_decide_true|now rewrite bool_decide_false].
Qed.

(** Releasing a block just allocated gives back the bitmap and the used-memory
    counter the allocation started from. *)
Theorem AllocatePages_FreePages (s : BitmapAllocator B) n ptr s' :
  inv s -> 0 < n -> 0 <= m_UsedMemory s < 2 ^ 64 -> AllocatePages s n = (ptr, s') -> ptr <> 0 ->
  m_UsedMemory (FreePages s' ptr n) = m_UsedMemory s /\
  forall j, 0 <= j < page_count s ->
    GetIndex (m_PageBitmap (FreePages s' ptr n)) j = GetIndex (m_PageBitmap s) j.
Proof.
  intros Hinv Hn Hu Ha Hne.
  destruct (AllocatePages_spec _ _ _ _ Hinv Hn Ha) as [Hinv' [[? _]|(p & -> & Hp & Hrun & Hset & Hm)]]; [lia|].
  destruct (pages_set_count _ _ _ _ _ Hset) as [Hc Hz]. destruct Hset as (_ & Hpe & Hg & _).
  assert (Hpe' : p + n <= page_count s') by (rewrite Hc; exact Hpe).
  rewrite <- Hz. destruct (FreePages_spec s' p n Hinv' Hp Hn Hpe') as (_ & (_ & _ & Hg' & _) & Hm').
  split.
  - rewrite Hm', Hm, Hz. unfold Z.sub.
    rewrite (u64_shift _ (m_UsedMemory s + n * m_PageSize s)) by (unfold u64, wrap; now rewrite Z.mod_mod by lia).
    replace (m_UsedMemory s + n * m_PageSize s + - (n * m_PageSize s)) with (m_UsedMemory s) by lia.
    now apply wrap_small.
  - intros j Hj. rewrite Hg' by lia. case_decide; [now rewrite Hrun|]. rewrite Hg by lia.
    now rewrite decide_False.
Qed.

(** C3: In every history of allocations and releases that starts with no block held, each
    page frame belongs to at most one held block, the pages of held blocks are marked
    used, page 0 is never handed out, and the used-memory counter is exact. *)
Theorem histories_safe (s : BitmapAllocator B) w :
  inv s -> 0 <= m_UsedMemory s < 2 ^ 64 -> rtc step (mkWorld s []) w ->
  (forall j, 0 <= j < page_count s -> (owners (m_PageSize s) j (held w) <= 1)%nat) /\
  (forall j, 0 <= j < page_count s -> owners (m_PageSize s) j (held w) = 1%nat ->
     GetIndex (m_PageBitmap (allocator w)) j = true) /\
  owners (m_PageSize s) 0 (held w) = 0%nat /\
  m_UsedMemory (allocator w) = u64 (m_UsedMemory s + total_pages (held w) * m_PageSize s).
Proof.
  intros Hinv Hu Hr.
  assert (Hs : safe (m_PageSize s) (page_count s) (m_UsedMemory s) w).
  { revert Hr. apply (rtc_ind_r (λ w, safe _ _ _ w)).
    - constructor; simpl; trivial.
      + intros j _. unfold owners. simpl. lia.
      + intros j _. discriminate.
      + rewrite Z.add_0_r. symmetry. now apply wrap_small.
    - intros w1 w2 _ Hst Hsafe. now apply (safe_step _ _ _ w1). }
  destruct Hs as [Hi Hps Hpc Hbl How Hus Hmem]. split_and!; trivial.
  unfold owners. destruct (filter _ (held w)) as [|blk l] eqn:E; [reflexivity|].
  assert (Hin : blk ∈ filter (covers (m_PageSize s) 0) (held w)) by (rewrite E; set_solver).
  apply list_elem_of_filter in Hin as [Hcov Hin]. rewrite Forall_forall in Hbl.
  apply list_elem_of_In, Hbl in Hin as (p & Hp & Hp0 & _). unfold covers in Hcov.
  pose proof (inv_page _ Hi). rewrite Hp in Hcov. nia.
Qed.

(** [Initialize] on a page-aligned memory map leaves exactly the pages of usable zones
    free, page 0 excepted, and establishes the invariant of the allocator. *)
Theorem Initialize_free_pages (s s' : BitmapAllocator B) zones :
  Forall zone_ok zones -> m_UsableMemoryTop s = 0 -> lastIndex s = 0 ->
  Initialize s zones 4096 = Some (s', None) ->
  inv s' /\ forall j, 0 <= j < page_count s' ->
    GetIndex (m_PageBitmap s') j = false <-> j <> 0 /\ usable_page zones j.
Proof. apply Initialize_spec. Qed.
End Theorems.

(** ** The early allocator *)
Definition zone_wf (z : MemoryZone) : Prop := 0 <= Base z /\ 0 <= Length z /\ Base z + Length z < 2 ^ 64.
Definition in_zone (a : Z) (z : MemoryZone) : Prop := Type_ z = eUsable /\ Base z <= a < Base z + Length z.

(** A block from the early allocator lies in a usable zone, and the zones lose exactly
    the addresses of the block: later early allocations, and the bitmap built from
    the same zones, never hand it out again. *)
Theorem EarlyAllocatePages_exact zones count p zones' :
  Forall zone_wf zones -> 0 <= count -> count * 4096 < 2 ^ 64 ->
  PMM.EarlyAllocatePages zones count = (p, zones') ->
  Forall zone_wf zones' /\
  ((zones' = zones /\ p = 0) \/
   exists l1 z z' l2, zones = l1 ++ z :: l2 /\ zones' = l1 ++ z' :: l2 /\ p = Base z /\
     forall a, in_zone a z <-> p <= a < p + count * 4096 \/ in_zone a z').
Proof.
  intros Hwf Hc Hc2. revert p zones'. induction Hwf as [|z zones Hz Hwf IH]; intros p zones' He; simpl in He.
  { injection He as <- <-. auto. }
  assert (Hw : u64 (count * PMM.PAGE_SIZE) = count * 4096) by (apply wrap_small; split; unfold PMM.PAGE_SIZE; lia).
  rewrite Hw in He. destruct (bool_decide (Type_ z <> eUsable) || (Length z <? count * 4096)) eqn:Eg.
  - destruct (PMM.EarlyAllocatePages zones count) as [p0 rest]. injection He as <- <-.
    destruct (IH _ _ eq_refl) as [Hwf' [[-> ->]|(l1 & z1 & z2 & l2 & -> & -> & -> & Hin)]].
    + split; [constructor; trivial|auto].
    + split; [constructor; trivial|]. right. exists (z :: l1), z1, z2, l2. auto.
  - apply orb_false_iff in Eg as [Et El]. apply bool_decide_eq_false in Et. apply Z.ltb_ge in El.
    unfold MemoryZone_Allocate in He. rewrite (proj2 (Z.ltb_ge _ _) El), bool_decide_false in He by exact Et.
    simpl in He. injection He as <- <-. destruct Hz as (Hb & Hl & Hlt).
    assert (Hb' : u64 (Base z + count * 4096) = Base z + count * 4096) by (apply wrap_small; split; lia).
    assert (Hl' : u64 (Length z - count * 4096) = Length z - count * 4096) by (apply wrap_small; split; lia).
    rewrite Hb', Hl'. split; [constructor; trivial; unfold zone_wf; simpl; lia|].
    right. eexists [], z, _, zones. split_and!; [reflexivity..|]. intros a. unfold in_zone. simpl.
    assert (Hu : Type_ z = eUsable) by (destruct (decide (Type_ z = eUsable)); tauto). split.
    + intros [_ Hr]. destruct (decide (a < Base z + count * 4096)); [left; lia|right; split; [exact Hu|lia]].
    + intros [Hr|[_ Hr]]; (split; [exact Hu|lia]).
Qed.

(** ** Witnesses, on the reference bitmap *)
Definition zones_ex : list MemoryZone :=
  [mkZone 0 0x3000 eUsable; mkZone 0x3000 0x2000 eReserved; mkZone 0x5000 0x3000 eUsable].
Definition blank : BitmapAllocator (list bool) := mkBA [] 0 0 0 0 0 0 0.
Definition booted : BitmapAllocator (list bool) :=
  match Initialize blank zones_ex 4096 with Some (s, _) => s | None => blank end.

Lemma zones_ex_ok : Forall zone_ok zones_ex.
Proof.
  apply Forall_forall. intros z Hz. unfold zone_ok.
  destruct Hz as [<-|[<-|[<-|[]]]]; cbn [Base Length]; split_and!; try lia;
    first [now exists 0|now exists 3|now exists 2|now exists 5].
Qed.

Lemma booted_ok : Initialize blank zones_ex 4096 = Some (booted, None).
Proof. vm_compute. reflexivity. Qed.

Lemma booted_inv : inv booted.
Proof. exact (proj1 (Initialize_spec blank zones_ex booted zones_ex_ok eq_refl eq_refl booted_ok)). Qed.

Lemma Initialize_free_pages_witness :
  m_PageBitmap booted = [true; false; false; true; true; false; false; false] /\
  (GetIndex (m_PageBitmap booted) 5 = false <-> 5 <> 0 /\ usable_page zones_ex 5).
Proof.
  split; [vm_compute; reflexivity|].
  apply (proj2 (Initialize_free_pages blank booted zones_ex zones_ex_ok eq_refl eq_refl booted_ok)).
  vm_compute. split; congruence.
Defined.

Lemma AllocatePages_contract_witness :
  let '(ptr, s') := AllocatePages booted 3 in ptr = 0x5000 /\ inv s'.
Proof.
  assert (Hn : 0 < 3) by lia.
  destruct (AllocatePages booted 3) as [ptr s'] eqn:E.
  destruct (AllocatePages_contract booted 3 ptr s' booted_inv Hn E) as [Hi _].
  split; [|exact Hi]. apply (f_equal fst) in E. vm_compute in E. now rewrite <- E.
Defined.

Lemma AllocatePages_FreePages_witness :
  let '(ptr, s') := AllocatePages booted 2 in
  ptr <> 0 /\ m_UsedMemory (FreePages s' ptr 2) = m_UsedMemory booted.
Proof.
  assert (Hn : 0 < 2) by lia.
  destruct (AllocatePages booted 2) as [ptr s'] eqn:E.
  assert (Hp : ptr <> 0) by (apply (f_equal fst) in E; vm_compute in E; now rewrite <- E).
  split; [exact Hp|].
  apply (AllocatePages_FreePages booted 2 ptr s' booted_inv Hn); trivial. vm_compute. split; congruence.
Defined.

Lemma histories_safe_witness :
  exists w, rtc step (mkWorld booted []) w /\ length (held w) = 2%nat /\
    (owners 4096 6 (held w) <= 1)%nat.
Proof.
  set (w1 := mkWorld (AllocatePages booted 2).2 [((AllocatePages booted 2).1, 2)]).
  set (w2 := mkWorld (AllocatePages (allocator w1) 3).2
               (((AllocatePages (allocator w1) 3).1, 3) :: held w1)).
  assert (Hr : rtc step (mkWorld booted []) w2).
  { apply (rtc_l _ _ w1).
    - apply step_alloc; [lia|reflexivity|vm_compute; discriminate].
    - apply rtc_once. apply step_alloc; [lia|reflexivity|vm_compute; discriminate]. }
  exists w2. split; [exact Hr|]. split; [reflexivity|].
  assert (Hu : 0 <= m_UsedMemory booted < 2 ^ 64) by (vm_compute; split; congruence).
  apply (histories_safe booted w2 booted_inv Hu Hr). vm_compute. split; congruence.
Defined.

Lemma EarlyAllocatePages_exact_witness :
  PMM.EarlyAllocatePages zones_ex 3 = (0, mkZone 0x3000 0 eUsable :: tail zones_ex) /\
  Forall zone_wf (mkZone 0x3000 0 eUsable :: tail zones_ex).
Proof.
  split; [reflexivity|].
  apply (EarlyAllocatePages_exact zones_ex 3 0 (mkZone 0x3000 0 eUsable :: tail zones_ex));
    [apply Forall_forall; intros z [<-|[<-|[<-|[]]]]; unfold zone_wf; simpl; lia|lia|lia|reflexivity].
Defined.

(** Eight pages, all free but page 0, the search position in the middle. *)
Definition half_way : BitmapAllocator (list bool) :=
  mkBA (true :: replicate 7 false) 0x8000 0x8000 4096 0x8000 0x8000 0 4.

(** The two search windows do not overlap: a free run that straddles the position of
    the last search is not found, and the allocation fails with enough contiguous
    memory free. *)
Theorem AllocatePages_misses_straddling_run :
  inv half_way /\ run (m_PageBitmap half_way) 1 6 /\ (AllocatePages half_way 6).1 = 0.
Proof.
  split; [|split].
  - constructor; try reflexivity; vm_compute; split; congruence.
  - intros j Hj. assert (Hc : j = 1 \/ j = 2 \/ j = 3 \/ j = 4 \/ j = 5 \/ j = 6) by lia.
    destruct Hc as [->|[->|[->|[->|[->| ->]]]]]; reflexivity.
  - vm_compute. reflexivity.
Qed.
