(* ===== verification/AddressSpace.v ===== *)
(** * Address spaces

    [Memory/AddressRange.hpp], [Memory/Region.hpp] and [Memory/AddressSpace.cpp]: the
    regions of a process in a tree keyed by their base, allocation of a region at a
    free address or at a fixed one, and lookup.  The tree is the Prism container
    behind [RedBlackTree]; iteration is in key order. *)

From Stdlib Require Import ZArith Lia Bool.
From stdpp Require Import base gmap list numbers sorting.
From S2P Require Import Prelude Prism.

(** ** Address ranges *)
Record AddressRange := mkRange { range_Base : Z; range_Size : Z }.
Definition range_End (r : AddressRange) : Z := u64 (range_Base r + range_Size r).
Definition range_Contains (r : AddressRange) (address : Z) : bool :=
  (range_Base r <=? address) && (address <? range_End r).
Definition range_Contains_range (r : AddressRange) (base length : Z) : bool :=
  let end_ := u64 (base + length) in
  (end_ <=? range_Base r) || (range_End r <=? base).
Definition Intersects (this other : AddressRange) : bool :=
  let '(a, b) := if range_Base other <? range_Base this then (other, this) else (this, other) in
  (range_Base a <? range_End b) && (range_Base b <? range_End a).

(** ** Regions *)
Record Region := mkRegion {
  m_VirtualRange : AddressRange;
  m_PhysicalBase : Z;
  m_Access : Z;
  m_Fd : Z
}.
(** [Region(phys, virt, size)]: no access rights, no descriptor. *)
Definition new_Region (phys virt size : Z) : Region := mkRegion (mkRange virt size) phys 0 0.
Definition VirtualBase (r : Region) : Z := range_Base (m_VirtualRange r).
Definition Size (r : Region) : Z := range_Size (m_VirtualRange r).
Definition End_ (r : Region) : Z := u64 (VirtualBase r + Size r).

(** Access rights: [VMM::Access] as bits. *)
Definition Access_eRead : Z := 0x01.
Definition Access_eWrite : Z := 0x02.
Definition Access_eExecute : Z := 0x04.
Definition IsReadable (r : Region) : bool := truthy (m_Access r .& Access_eRead).
Definition IsWriteable (r : Region) : bool := truthy (m_Access r .& Access_eWrite).
Definition IsExecutable (r : Region) : bool := truthy (m_Access r .& Access_eExecute).

Section AddressSpace.
Context {T : Type} {RB : RedBlackTree T Region} {PM : PrismMath}.

Record AddressSpace := mkSpace { m_RegionTree : T; m_TotalRange : AddressRange }.

(** The constructor: from 4 GiB above physical memory, rounded to 1 GiB. *)
Definition new_AddressSpace (memoryTop HigherHalfOffset : Z) : AddressSpace :=
  let base := AlignUp memoryTop 0x40000000 in
  mkSpace tree_empty (mkRange (u64 (base + 0x100000000)) HigherHalfOffset).

Definition regions (a : AddressSpace) : list Region := (tree_elements (m_RegionTree a)).*2.

Definition IsAvailable (a : AddressSpace) (base length : Z) : bool :=
  let end_ := u64 (base + length) in
  forallb (λ current, (end_ <=? VirtualBase current) || (End_ current <=? base)) (regions a).

Definition Insert (a : AddressSpace) (base : Z) (region : Region) : AddressSpace :=
  mkSpace (tree_insert base region (m_RegionTree a)) (m_TotalRange a).

Definition Erase (a : AddressSpace) (base : Z) : AddressSpace :=
  mkSpace (if decide (base ∈ (tree_elements (m_RegionTree a)).*1)
           then tree_erase base (m_RegionTree a) else m_RegionTree a) (m_TotalRange a).

(** The scan of [AllocateRegion]: the candidate address it settles on, and whether
    it was found in a gap before some region. *)
Fixpoint scan (a : AddressSpace) (length alignment current : Z) (rest : list Region) : Z * bool :=
  match rest with
  | [] => (current, false)
  | region :: rest =>
      let regionStart := VirtualBase region in
      let current := AlignUp current alignment in
      if (u64 (current + length) <=? regionStart) && IsAvailable a current length then (current, true)
      else scan a length alignment (End_ region) rest
  end.

Definition AllocateRegion (a : AddressSpace) (length alignment : Z) : option Region * AddressSpace :=
  let current := AlignUp (range_Base (m_TotalRange a)) alignment in
  match scan a length alignment current (regions a) with
  | (current, true) =>
      let region := new_Region 0 current length in
      (Some region, Insert a (VirtualBase region) region)
  | (current, false) =>
      let current := AlignUp current alignment in
      if IsAvailable a current length then
        let region := new_Region 0 current length in
        (Some region, Insert a (VirtualBase region) region)
      else (None, a)
  end.

Definition AllocateFixed (a : AddressSpace) (virt size : Z) : option Region * AddressSpace :=
  let size := AlignUp size 4096 in
  if negb (IsAvailable a virt size) then (None, a)
  else
    let region := new_Region 0 virt size in
    (Some region, Insert a (VirtualBase region) region).

Definition Find (a : AddressSpace) (address : Z) : option Region :=
  find (λ region, (VirtualBase region <=? address) && (address <? u64 (VirtualBase region + Size region)))
    (regions a).

Definition Contains (a : AddressSpace) (virt : Z) : bool := if Find a virt then true else false.
Definition Clear (a : AddressSpace) : AddressSpace := mkSpace tree_empty (m_TotalRange a).
End AddressSpace.
Arguments AddressSpace : clear implicits.
