(* ===== verification/AddressSpaceProofs.v ===== *)
(** * Address spaces: disjointness and allocation

    The invariant is that regions are pairwise disjoint and keyed by their base; the
    abstract state is the set of addresses each region owns.  Allocation always
    succeeds while addresses last, returns an aligned and free range, and lookup
    finds the owner of an address. *)

From Stdlib Require Import ZArith Lia Bool.
From stdpp Require Import base gmap list numbers sorting.
From S2P Require Import Prelude Prism AddressSpace.

Section Proofs.
Context {T : Type} {RB : RedBlackTree T Region} {PM : PrismMath}.
Implicit Types (a : AddressSpace T) (r : Region).

Definition elements a : list (Z * Region) := tree_elements (m_RegionTree a).
Definition owns r (x : Z) : Prop := VirtualBase r <= x < VirtualBase r + Size r.
Definition apart r1 r2 : Prop :=
  VirtualBase r1 + Size r1 <= VirtualBase r2 \/ VirtualBase r2 + Size r2 <= VirtualBase r1.
Definition region_ok r : Prop := 0 <= VirtualBase r /\ 0 < Size r /\ VirtualBase r + Size r < 2 ^ 64.

Record space_ok a : Prop := {
  ok_key k r : (k, r) ∈ elements a -> k = VirtualBase r /\ region_ok r;
  ok_apart k1 r1 k2 r2 : (k1, r1) ∈ elements a -> (k2, r2) ∈ elements a -> k1 <> k2 -> apart r1 r2;
  ok_base : 0 <= range_Base (m_TotalRange a)
}.

Lemma elem_regions a r : space_ok a -> r ∈ regions a <-> (VirtualBase r, r) ∈ elements a.
Proof.
  intros Hok. unfold regions. rewrite list_elem_of_fmap. split.
  - intros ([k r'] & -> & Hin). simpl in *. now destruct (ok_key _ Hok _ _ Hin) as [-> _].
  - intros Hin. now exists (VirtualBase r, r).
Qed.

Lemma regions_ok a r : space_ok a -> r ∈ regions a -> region_ok r.
Proof. intros Hok Hr. apply elem_regions in Hr; [|exact Hok]. now apply (ok_key _ Hok) in Hr as [_ ?]. Qed.

Lemma End_exact r : region_ok r -> End_ r = VirtualBase r + Size r.
Proof. intros (H1 & H2 & H3). apply wrap_small. split; lia. Qed.

(** Availability is disjointness from every region. *)
Lemma IsAvailable_spec a base length :
  space_ok a -> 0 <= base -> 0 < length -> base + length < 2 ^ 64 ->
  IsAvailable a base length = true <-> forall r, r ∈ regions a -> apart (new_Region 0 base length) r.
Proof.
  intros Hok Hb Hl Hlt. unfold IsAvailable. rewrite forallb_forall.
  assert (Hw : u64 (base + length) = base + length) by (apply wrap_small; split; lia). rewrite Hw.
  split; intros Hall r Hr.
  - specialize (Hall r (proj1 (list_elem_of_In _ _) Hr)). pose proof (regions_ok _ _ Hok Hr) as Hrok.
    rewrite (End_exact _ Hrok) in Hall. apply orb_true_iff in Hall. rewrite !Z.leb_le in Hall.
    unfold apart, VirtualBase, Size in *. simpl. tauto.
  - apply list_elem_of_In in Hr. specialize (Hall r Hr). pose proof (regions_ok _ _ Hok Hr) as Hrok.
    rewrite (End_exact _ Hrok). apply orb_true_iff. rewrite !Z.leb_le.
    unfold apart, VirtualBase, Size in *. simpl in Hall. tauto.
Qed.

(** Inserting a region that is apart from all others. *)
Lemma Insert_ok a r :
  space_ok a -> region_ok r -> (forall r', r' ∈ regions a -> apart r r') ->
  space_ok (Insert a (VirtualBase r) r) /\
  forall r', r' ∈ regions (Insert a (VirtualBase r) r) <-> r' = r \/ r' ∈ regions a.
Proof.
  intros Hok Hr Hap.
  assert (Hnew : VirtualBase r ∉ (elements a).*1).
  { intros Hin. apply list_elem_of_fmap in Hin as ([k r'] & Hk & Hin). simpl in Hk. subst k.
    destruct (ok_key _ Hok _ _ Hin) as [Hk (H1 & H2 & H3)]. assert (Hin' : r' ∈ regions a).
    { apply elem_regions; [exact Hok|]. now rewrite <- Hk. }
    specialize (Hap r' Hin'). destruct Hr as (_ & ? & _). unfold apart in Hap. lia. }
  assert (Hel : elements (Insert a (VirtualBase r) r) ≡ₚ (VirtualBase r, r) :: elements a)
    by (apply tree_insert_elements; exact Hnew).
  assert (Hin : forall k r', (k, r') ∈ elements (Insert a (VirtualBase r) r) <->
    (k = VirtualBase r /\ r' = r) \/ (k, r') ∈ elements a).
  { intros k r'. rewrite Hel, elem_of_cons. split; intros [E|E]; [left|now right|left|now right].
    - now injection E as -> ->.
    - destruct E as [-> ->]. reflexivity. }
  split; [constructor|].
  - intros k r' [[-> ->]|Hk]%Hin; [now split|]. now apply (ok_key _ Hok).
  - intros k1 r1 k2 r2 [[-> ->]|Hk1]%Hin [[-> ->]|Hk2]%Hin Hne; [tauto| | |now apply (ok_apart _ Hok k1 _ k2)].
    + apply Hap. apply elem_regions; [exact Hok|]. now destruct (ok_key _ Hok _ _ Hk2) as [<- _].
    + assert (Hr1 : r1 ∈ regions a).
      { apply elem_regions; [exact Hok|]. now destruct (ok_key _ Hok _ _ Hk1) as [<- _]. }
      specialize (Hap _ Hr1). unfold apart in *. tauto.
  - apply (ok_base _ Hok).
  - intros r'. unfold regions. rewrite !list_elem_of_fmap. split.
    + intros ([k r''] & -> & [[-> ->]|Hk]%Hin); [now left|right; now exists (k, r'')].
    + intros [->|([k r''] & -> & Hk)]; [exists (VirtualBase r, r)|exists (k, r'')];
        (split; [reflexivity|apply Hin; auto]).
Qed.

(** Regions come in address order: each ends before the next one starts. *)
Definition ordered (l : list Region) : Prop :=
  StronglySorted (λ r1 r2, VirtualBase r1 + Size r1 <= VirtualBase r2) l.

Lemma regions_ordered a : space_ok a -> ordered (regions a).
Proof.
  intros Hok. unfold ordered, regions. pose proof (tree_sorted (m_RegionTree a)) as Hs.
  pose proof (ok_key _ Hok) as Hk. pose proof (ok_apart _ Hok) as Ha. unfold elements in *.
  induction (tree_elements (m_RegionTree a)) as [|[k r] l IH]; simpl in *; [constructor|].
  apply StronglySorted_inv in Hs as [Hs Hall]. constructor.
  - apply IH; [exact Hs|intros; apply Hk; set_solver|intros k1 r1 k2 r2 H1 H2; apply Ha; set_solver].
  - apply Forall_forall. intros r' Hr'. apply list_elem_of_fmap in Hr' as ([k' r''] & -> & Hin). simpl.
    assert (Hlt : k < k').
    { rewrite Forall_forall in Hall. apply Hall. apply list_elem_of_fmap. now exists (k', r''). }
    destruct (Hk k r) as [-> (H1 & H2 & H3)]; [set_solver|]. destruct (Hk k' r'') as [-> (H4 & H5 & H6)]; [set_solver|].
    destruct (Ha (VirtualBase r) r (VirtualBase r'') r'') as [Hd|Hd]; [set_solver|set_solver|lia|exact Hd|lia].
Qed.

(** ** [AllocateRegion] *)
(** Enough addresses above every region and above the base of the range. *)
Definition roomy a (length alignment : Z) : Prop :=
  range_Base (m_TotalRange a) + 3 * alignment + length < 2 ^ 64 /\
  forall r, r ∈ regions a -> VirtualBase r + Size r + 2 * alignment + length < 2 ^ 64.

Lemma scan_spec a length alignment current rest :
  space_ok a -> 0 < length -> 0 < alignment -> roomy a length alignment ->
  (forall r, r ∈ rest -> r ∈ regions a) -> ordered rest ->
  0 <= current -> current + 2 * alignment + length < 2 ^ 64 ->
  match scan a length alignment current rest with
  | (x, true) => 0 <= x /\ x + length < 2 ^ 64 /\ (alignment | x) /\ IsAvailable a x length = true
  | (x, false) => 0 <= x /\ x + 2 * alignment + length < 2 ^ 64 /\
      (forall r, r ∈ rest -> VirtualBase r + Size r <= x) /\ (rest = [] -> x = current)
  end.
Proof.
  intros Hok Hl Hal [_ Hroom]. revert current.
  induction rest as [|r rest IH]; intros current Hsub Hord Hc Hlt; simpl.
  { split_and!; trivial. set_solver. }
  pose proof (AlignUp_ge current alignment Hc Hal) as Hup.
  destruct ((_ <=? _) && IsAvailable a _ length) eqn:E.
  { apply andb_true_iff in E as [_ E]. split_and!; trivial; [lia|lia|]. now apply AlignUp_divide. }
  pose proof (regions_ok a r Hok (Hsub r ltac:(set_solver))) as Hr. rewrite (End_exact _ Hr).
  apply StronglySorted_inv in Hord as [Hord Hall]. destruct Hr as (H1 & H2 & H3).
  pose proof (Hroom r (Hsub r ltac:(set_solver))) as Hr'.
  specialize (IH (VirtualBase r + Size r) ltac:(set_solver) Hord ltac:(lia) ltac:(lia)).
  destruct (scan _ _ _ _ rest) as [x []]; [exact IH|]. destruct IH as (Hx & Hx2 & Hall' & Hnil).
  split_and!; [exact Hx|exact Hx2| |discriminate]. intros r' [->|Hr'']%elem_of_cons; [|now apply Hall'].
  destruct rest as [|r2 rest]; [now rewrite Hnil|].
  rewrite Forall_forall in Hall. specialize (Hall r2 ltac:(set_solver)). specialize (Hall' r2 ltac:(set_solver)).
  pose proof (regions_ok a r2 Hok (Hsub r2 ltac:(set_solver))) as (? & ? & ?). lia.
Qed.

Lemma AllocateRegion_spec a length alignment :
  space_ok a -> 0 < length -> 0 < alignment -> roomy a length alignment ->
  exists r a', AllocateRegion a length alignment = (Some r, a') /\
    Size r = length /\ (alignment | VirtualBase r) /\ region_ok r /\
    (forall r', r' ∈ regions a -> apart r r') /\ space_ok a' /\
    (forall r', r' ∈ regions a' <-> r' = r \/ r' ∈ regions a).
Proof.
  intros Hok Hl Hal Hroom. pose proof (ok_base _ Hok) as Hb. pose proof Hroom as [Hr0 _].
  pose proof (AlignUp_ge _ _ Hb Hal) as Hup.
  assert (Hfin : forall x, 0 <= x -> x + length < 2 ^ 64 -> (alignment | x) -> IsAvailable a x length = true ->
    exists r a', (Some (new_Region 0 x length), Insert a x (new_Region 0 x length)) = (Some r, a') /\
    Size r = length /\ (alignment | VirtualBase r) /\ region_ok r /\
    (forall r', r' ∈ regions a -> apart r r') /\ space_ok a' /\
    (forall r', r' ∈ regions a' <-> r' = r \/ r' ∈ regions a)).
  { intros x Hx Hx2 Hd Hav. rewrite IsAvailable_spec in Hav by trivial.
    assert (Hnr : region_ok (new_Region 0 x length)) by (unfold region_ok, VirtualBase, Size; simpl; lia).
    destruct (Insert_ok a (new_Region 0 x length) Hok Hnr Hav) as [Hok' Hin].
    eexists _, _. split; [reflexivity|]. split_and!; trivial; apply Hnr. }
  unfold AllocateRegion.
  set (start := AlignUp (range_Base (m_TotalRange a)) alignment) in *.
  assert (Hst : 0 <= start) by lia. assert (Hst2 : start + 2 * alignment + length < 2 ^ 64) by lia.
  pose proof (scan_spec a length alignment start (regions a) Hok Hl Hal Hroom (λ _ h, h)
    (regions_ordered _ Hok) Hst Hst2) as Hscan.
  assert (Hroom2 : forall x, x + 2 * alignment + length < 2 ^ 64 -> 0 <= x ->
    (forall r, r ∈ regions a -> VirtualBase r + Size r <= x) ->
    0 <= AlignUp x alignment /\ AlignUp x alignment + length < 2 ^ 64 /\ (alignment | AlignUp x alignment) /\
    IsAvailable a (AlignUp x alignment) length = true).
  { intros x Hx2 Hx Hall. pose proof (AlignUp_ge x alignment Hx Hal). split_and!; [lia|lia|now apply AlignUp_divide|].
    apply IsAvailable_spec; trivial; try lia. intros r Hr. right.
    specialize (Hall r Hr). unfold VirtualBase, Size in *. simpl. lia. }
  destruct (scan _ _ _ _ _) as [x []].
  - destruct Hscan as (Hx & Hx2 & Hd & Hav). now apply Hfin.
  - destruct Hscan as (Hx & Hx2 & Hall & _). destruct (Hroom2 x Hx2 Hx Hall) as (H1 & H2 & H3 & H4).
    rewrite H4. now apply Hfin.
Qed.

Lemma AllocateFixed_spec a virt size :
  space_ok a -> 0 <= virt -> 0 < size -> virt + size + 4096 < 2 ^ 64 ->
  let len := AlignUp size 4096 in
  match AllocateFixed a virt size with
  | (Some r, a') => VirtualBase r = virt /\ Size r = len /\ (forall r', r' ∈ regions a -> apart r r') /\
      space_ok a' /\ (forall r', r' ∈ regions a' <-> r' = r \/ r' ∈ regions a)
  | (None, a') => a' = a /\ exists r' x, r' ∈ regions a /\ owns r' x /\ virt <= x < virt + len
  end.
Proof.
  intros Hok Hv Hs Hlt len. unfold AllocateFixed. fold len.
  pose proof (AlignUp_ge size 4096 ltac:(lia) ltac:(lia)) as Hup. fold len in Hup.
  pose proof (IsAvailable_spec a virt len Hok Hv ltac:(lia) ltac:(lia)) as Hav.
  destruct (IsAvailable a virt len) eqn:E; simpl.
  - assert (Hnr : region_ok (new_Region 0 virt len)) by (unfold region_ok, VirtualBase, Size; simpl; lia).
    destruct (Insert_ok a _ Hok Hnr (proj1 Hav eq_refl)) as [Hok' Hin]. split_and!; trivial. now apply Hav.
  - split; [reflexivity|]. destruct (decide (Forall (λ r, VirtualBase r + Size r <= virt \/ virt + len <= VirtualBase r) (regions a)))
      as [Hall|Hn].
    + assert (Hc : false = true); [apply Hav|discriminate]. intros r Hr. rewrite Forall_forall in Hall.
      specialize (Hall r Hr). unfold apart, VirtualBase, Size in *. simpl. lia.
    + apply not_Forall_Exists in Hn; [|apply _]. apply Exists_exists in Hn as (r & Hr & Hn). simpl in Hn.
      pose proof (regions_ok a r Hok Hr) as (H1 & H2 & H3).
      exists r, (Z.max virt (VirtualBase r)). unfold owns. split; [exact Hr|]. lia.
Qed.

(** ** Lookup and removal *)
Lemma Find_spec a address :
  space_ok a ->
  match Find a address with
  | Some r => r ∈ regions a /\ owns r address /\ forall r', r' ∈ regions a -> owns r' address -> r' = r
  | None => forall r, r ∈ regions a -> ~ owns r address
  end.
Proof.
  intros Hok. unfold Find.
  assert (Htest : forall r, r ∈ regions a ->
    (VirtualBase r <=? address) && (address <? u64 (VirtualBase r + Size r)) = true <-> owns r address).
  { intros r Hr. pose proof (regions_ok a r Hok Hr) as Hr'. fold (End_ r). rewrite (End_exact _ Hr').
    rewrite andb_true_iff, Z.leb_le, Z.ltb_lt. reflexivity. }
  destruct (find _ _) as [r|] eqn:E.
  - apply find_some in E as [Hr Ht]. apply list_elem_of_In in Hr. apply Htest in Ht; [|exact Hr].
    split_and!; trivial. intros r' Hr' Ho.
    assert (Hel := Hr). apply elem_regions in Hel; [|exact Hok].
    assert (Hel' := Hr'). apply elem_regions in Hel'; [|exact Hok].
    destruct (decide (VirtualBase r = VirtualBase r')) as [Eb|Hne].
    + pose proof (tree_sorted (m_RegionTree a)) as Hs. clear -Hs Hel Hel' Eb. unfold elements in *.
      induction (tree_elements (m_RegionTree a)) as [|[k v] l IH]; simpl in *; [set_solver|].
      apply StronglySorted_inv in Hs as [Hs Hall]. rewrite Forall_forall in Hall.
      assert (Hl : forall r0, (VirtualBase r0, r0) ∈ l -> k < VirtualBase r0).
      { intros r0 H0. apply Hall. apply list_elem_of_fmap. now exists (VirtualBase r0, r0). }
      apply elem_of_cons in Hel as [[= E1 E2]|Hel], Hel' as [[= E3 E4]|Hel']; try congruence.
      * specialize (Hl _ Hel'). lia.
      * specialize (Hl _ Hel). lia.
      * now apply IH.
    + pose proof (ok_apart _ Hok _ _ _ _ Hel Hel' Hne) as Hap. unfold apart, owns in *. lia.
  - intros r Hr Ho. apply Htest in Ho; [|exact Hr].
    pose proof (find_none _ _ E r (proj1 (list_elem_of_In _ _) Hr)). congruence.
Qed.

Lemma Erase_spec a base :
  space_ok a ->
  space_ok (Erase a base) /\
  forall r, r ∈ regions (Erase a base) <-> r ∈ regions a /\ VirtualBase r <> base.
Proof.
  intros Hok. unfold Erase.
  assert (Hel : forall k r, (k, r) ∈ elements (Erase a base) <-> (k, r) ∈ elements a /\ k <> base).
  { intros k r. unfold elements, Erase. simpl. case_decide as Hd.
    - rewrite tree_erase_elements, list_elem_of_filter. simpl. tauto.
    - split; [|tauto]. intros Hin. split; [exact Hin|]. intros ->. destruct Hd.
      apply list_elem_of_fmap. now exists (base, r). }
  fold (Erase a base). assert (Hok' : space_ok (Erase a base)).
  { constructor; [..|apply (ok_base _ Hok)].
    - intros k r [Hin _]%Hel. now apply (ok_key _ Hok).
    - intros k1 r1 k2 r2 [H1 _]%Hel [H2 _]%Hel. now apply (ok_apart _ Hok). }
  split; [exact Hok'|]. intros r. rewrite !elem_regions by assumption. apply Hel.
Qed.

(** ** Theorems *)

(** As long as addresses last, [AllocateRegion] succeeds: the new region has the size
    and alignment asked for, overlaps no region of the address space, is recorded in
    it beside all the others, and the regions stay pairwise disjoint. *)
Theorem AllocateRegion_contract a length alignment :
  space_ok a -> 0 < length -> 0 < alignment -> roomy a length alignment ->
  exists r a', AllocateRegion a length alignment = (Some r, a') /\
    Size r = length /\ (alignment | VirtualBase r) /\
    (forall r' x, r' ∈ regions a -> owns r x -> ~ owns r' x) /\ space_ok a' /\
    (forall r', r' ∈ regions a' <-> r' = r \/ r' ∈ regions a).
Proof.
  intros Hok Hl Hal Hroom.
  destruct (AllocateRegion_spec a length alignment Hok Hl Hal Hroom) as (r & a' & E & Hs & Hd & Hr & Hap & Hok' & Hin).
  exists r, a'. split_and!; trivial. intros r' x Hr' H1 H2. specialize (Hap r' Hr'). unfold apart, owns in *. lia.
Qed.

(** [AllocateFixed] places a region at the address asked for, rounded up to whole
    pages, exactly when no address of it is taken; otherwise it changes nothing. *)
Theorem AllocateFixed_contract a virt size :
  space_ok a -> 0 <= virt -> 0 < size -> virt + size + 4096 < 2 ^ 64 ->
  let len := AlignUp size 4096 in
  match AllocateFixed a virt size with
  | (Some r, a') => VirtualBase r = virt /\ Size r = len /\
      (forall r' x, r' ∈ regions a -> owns r' x -> ~ virt <= x < virt + len) /\
      space_ok a' /\ (forall r', r' ∈ regions a' <-> r' = r \/ r' ∈ regions a)
  | (None, a') => a' = a /\ exists r' x, r' ∈ regions a /\ owns r' x /\ virt <= x < virt + len
  end.
Proof.
  intros Hok Hv Hs Hlt len. pose proof (AllocateFixed_spec a virt size Hok Hv Hs Hlt) as Hspec.
  destruct (AllocateFixed a virt size) as [[r|] a']; [|exact Hspec].
  destruct Hspec as (H1 & H2 & H3 & H4 & H5). fold len in H2. split_and!; trivial.
  intros r' x Hr' Ho. specialize (H3 r' Hr'). unfold apart, owns in *. rewrite H1, H2 in H3. lia.
Qed.

(** [Find] returns the one region that owns an address, and nothing exactly for the
    addresses no region owns; after [Erase] of a base, the region there is gone and
    every other region is still found. *)
Theorem Find_Erase a base address :
  space_ok a ->
  Find (Erase a base) address =
    match Find a address with
    | Some r => if VirtualBase r =? base then None else Some r
    | None => None
    end.
Proof.
  intros Hok. destruct (Erase_spec a base Hok) as [Hok' Hin].
  pose proof (Find_spec a address Hok) as H1. pose proof (Find_spec (Erase a base) address Hok') as H2.
  destruct (Find (Erase a base) address) as [r'|].
  - destruct H2 as ([Hr' Hne]%Hin & Ho' & _). destruct (Find a address) as [r|].
    + destruct H1 as (Hr & Ho & Hu). rewrite (Hu r' Hr' Ho') in *. destruct (Z.eqb_spec (VirtualBase r) base); tauto.
    + destruct (H1 r' Hr' Ho').
  - destruct (Find a address) as [r|]; [|reflexivity]. destruct H1 as (Hr & Ho & _).
    destruct (Z.eqb_spec (VirtualBase r) base) as [|Hne]; [reflexivity|].
    destruct (H2 r); [|exact Ho]. apply Hin. auto.
Qed.

(** The scan continues at the end of each region it passes, even of one below the
    range the address space starts at: with one low region (a program's image, say)
    the next region is placed below the start of the range. *)
Theorem AllocateRegion_below_range a length alignment r r' :
  space_ok a -> 0 < length -> 0 < alignment -> roomy a length alignment -> regions a = [r] ->
  VirtualBase r + Size r + alignment <= range_Base (m_TotalRange a) ->
  (AllocateRegion a length alignment).1 = Some r' ->
  VirtualBase r' < range_Base (m_TotalRange a).
Proof.
  intros Hok Hl Hal [Hroom _] Hreg Hlow Hr'. pose proof (ok_base _ Hok) as Hb.
  pose proof (AlignUp_ge _ _ Hb Hal) as Hup.
  assert (Hst : 0 <= AlignUp (range_Base (m_TotalRange a)) alignment) by lia.
  pose proof (AlignUp_ge (AlignUp (range_Base (m_TotalRange a)) alignment) alignment Hst Hal) as Hup2.
  assert (Hr : region_ok r) by (apply (regions_ok a); trivial; rewrite Hreg; set_solver).
  unfold AllocateRegion in Hr'. rewrite Hreg in Hr'. cbn [scan] in Hr'.
  assert (Hw : u64 (AlignUp (AlignUp (range_Base (m_TotalRange a)) alignment) alignment + length) =
    AlignUp (AlignUp (range_Base (m_TotalRange a)) alignment) alignment + length) by (apply wrap_small; split; lia).
  destruct Hr as (H1 & H2 & H3).
  rewrite Hw, (proj2 (Z.leb_gt _ _)) in Hr' by lia. simpl in Hr'.
  rewrite End_exact in Hr' by (unfold region_ok; lia).
  assert (Hend : 0 <= VirtualBase r + Size r) by lia. pose proof (AlignUp_ge (VirtualBase r + Size r) alignment Hend Hal).
  destruct (IsAvailable _ _ _); [|discriminate]. injection Hr' as <-. unfold VirtualBase at 1. simpl. lia.
Qed.
End Proofs.

(** [AddressRange::Contains] of a range answers whether the two ranges are disjoint,
    the opposite of what its name says, while [Intersects] is exact. *)
Theorem range_Contains_range_inverted (r o : AddressRange) :
  0 <= range_Base r -> 0 < range_Size r -> range_Base r + range_Size r < 2 ^ 64 ->
  0 <= range_Base o -> 0 < range_Size o -> range_Base o + range_Size o < 2 ^ 64 ->
  let shared := exists x, range_Base r <= x < range_Base r + range_Size r /\
                          range_Base o <= x < range_Base o + range_Size o in
  (range_Contains_range r (range_Base o) (range_Size o) = true <-> ~ shared) /\
  (Intersects r o = true <-> shared).
Proof.
  intros H1 H2 H3 H4 H5 H6 shared.
  assert (Hr : range_End r = range_Base r + range_Size r) by (apply wrap_small; split; lia).
  assert (Ho : range_End o = range_Base o + range_Size o) by (apply wrap_small; split; lia).
  assert (Hsh : shared <-> range_Base r < range_Base o + range_Size o /\ range_Base o < range_Base r + range_Size r).
  { unfold shared. split; [intros (x & Hx); lia|]. intros Hx. exists (Z.max (range_Base r) (range_Base o)). lia. }
  rewrite Hsh. unfold range_Contains_range, Intersects. fold (range_End o). rewrite Hr, Ho.
  rewrite orb_true_iff, !Z.leb_le. split; [lia|].
  destruct (Z.ltb_spec (range_Base o) (range_Base r)); rewrite andb_true_iff, !Z.ltb_lt, Hr, Ho; lia.
Qed.

(** ** Witnesses, on the reference tree *)
Definition space0 : AddressSpace {l : list (Z * Region) | assoc_sorted l} :=
  new_AddressSpace 0x8000000 0x1000000000.
Definition space1 := (AllocateFixed space0 0x400000 0x800).2.

Lemma space0_ok : space_ok space0.
Proof. constructor; [intros k r Hin|intros k1 r1 k2 r2 Hin|vm_compute; congruence]; apply list_elem_of_In in Hin; destruct Hin. Qed.

Lemma space1_ok : space_ok space1.
Proof.
  pose proof (AllocateFixed_spec space0 0x400000 0x800 space0_ok ltac:(lia) ltac:(lia) ltac:(lia)) as Hs.
  unfold space1. destruct (AllocateFixed space0 0x400000 0x800) as [[r|] a'].
  - apply Hs.
  - destruct Hs as [-> _]. apply space0_ok.
Qed.

Lemma space1_roomy : roomy space1 0x3000 0x1000.
Proof.
  split; [vm_compute; congruence|]. intros r Hr. apply list_elem_of_In in Hr.
  vm_compute in Hr. destruct Hr as [<-|[]]. vm_compute. reflexivity.
Qed.

Lemma AllocateRegion_contract_witness :
  exists r a', AllocateRegion space1 0x3000 0x1000 = (Some r, a') /\ Size r = 0x3000 /\ space_ok a'.
Proof.
  destruct (AllocateRegion_contract space1 0x3000 0x1000 space1_ok ltac:(lia) ltac:(lia) space1_roomy)
    as (r & a' & H1 & H2 & _ & _ & H3 & _).
  exists r, a'. split_and!; trivial.
Defined.

Lemma AllocateFixed_contract_witness :
  (AllocateFixed space1 0x400800 0x1000).1 = None /\ (AllocateFixed space1 0x400800 0x1000).2 = space1.
Proof.
  pose proof (AllocateFixed_contract space1 0x400800 0x1000 space1_ok ltac:(lia) ltac:(lia) ltac:(lia)) as Hs.
  assert (E : (AllocateFixed space1 0x400800 0x1000).1 = None) by (vm_compute; reflexivity).
  destruct (AllocateFixed space1 0x400800 0x1000) as [o a']. simpl in E. subst o. split; [reflexivity|apply Hs].
Defined.

Lemma Find_Erase_witness : Find (Erase space1 0x400000) 0x400123 = None.
Proof. rewrite (Find_Erase space1 0x400000 0x400123 space1_ok). vm_compute. reflexivity. Defined.

Lemma AllocateRegion_below_range_witness :
  exists r', (AllocateRegion space1 0x3000 0x1000).1 = Some r' /\ VirtualBase r' = 0x401000 /\
    VirtualBase r' < range_Base (m_TotalRange space1).
Proof.
  exists (new_Region 0 0x401000 0x3000).
  assert (E : (AllocateRegion space1 0x3000 0x1000).1 = Some (new_Region 0 0x401000 0x3000))
    by (vm_compute; reflexivity).
  split; [exact E|]. split; [reflexivity|].
  refine (AllocateRegion_below_range space1 0x3000 0x1000 (new_Region 0 0x400000 0x1000) _
    space1_ok _ _ space1_roomy _ _ E); vm_compute; congruence.
Defined.

Lemma range_Contains_range_inverted_witness :
  range_Contains_range (mkRange 0x1000 0x4000) 0x2000 0x1000 = false.
Proof.
  destruct (range_Contains_range (mkRange 0x1000 0x4000) 0x2000 0x1000) eqn:E; [|reflexivity].
  apply (range_Contains_range_inverted (mkRange 0x1000 0x4000) (mkRange 0x2000 0x1000)) in E; simpl; try lia.
  destruct E. exists 0x2000. simpl. lia.
Defined.
