(* ===== verification/Unicode.v ===== *)
(** * Character tables

    [Library/Unicode.hpp]: the code page 437 table of the text console, and the
    width of a code point with its binary search over the table of combining
    characters ([std::lower_bound]). *)

From Stdlib Require Import ZArith Lia Bool.
From stdpp Require Import base gmap list numbers sorting.
From S2P Require Import Prelude.

(** ** Code page 437 *)
(** The [case] labels of the switch and the values they return. *)
Definition cp437_cases : list (Z * Z) :=
  [(0x263a, 1); (0x263b, 2); (0x2665, 3); (0x2666, 4); (0x2663, 5); (0x2660, 6);
   (0x2022, 7); (0x25d8, 8); (0x25cb, 9); (0x25d9, 10); (0x2642, 11); (0x2640, 12);
   (0x266a, 13); (0x266b, 14); (0x263c, 15); (0x25ba, 16); (0x25c4, 17); (0x2195, 18);
   (0x203c, 19); (0x00b6, 20); (0x00a7, 21); (0x25ac, 22); (0x21a8, 23); (0x2191, 24);
   (0x2193, 25); (0x2192, 26); (0x2190, 27); (0x221f, 28); (0x2194, 29); (0x25b2, 30);
   (0x25bc, 31); (0x2302, 127); (0x00c7, 128); (0x00fc, 129); (0x00e9, 130); (0x00e2, 131);
   (0x00e4, 132); (0x00e0, 133); (0x00e5, 134); (0x00e7, 135); (0x00ea, 136); (0x00eb, 137);
   (0x00e8, 138); (0x00ef, 139); (0x00ee, 140); (0x00ec, 141); (0x00c4, 142); (0x00c5, 143);
   (0x00c9, 144); (0x00e6, 145); (0x00c6, 146); (0x00f4, 147); (0x00f6, 148); (0x00f2, 149);
   (0x00fb, 150); (0x00f9, 151); (0x00ff, 152); (0x00d6, 153); (0x00dc, 154); (0x00a2, 155);
   (0x00a3, 156); (0x00a5, 157); (0x20a7, 158); (0x0192, 159); (0x00e1, 160); (0x00ed, 161);
   (0x00f3, 162); (0x00fa, 163); (0x00f1, 164); (0x00d1, 165); (0x00aa, 166); (0x00ba, 167);
   (0x00bf, 168); (0x2310, 169); (0x00ac, 170); (0x00bd, 171); (0x00bc, 172); (0x00a1, 173);
   (0x00ab, 174); (0x00bb, 175); (0x2591, 176); (0x2592, 177); (0x2593, 178); (0x2502, 179);
   (0x2524, 180); (0x2561, 181); (0x2562, 182); (0x2556, 183); (0x2555, 184); (0x2563, 185);
   (0x2551, 186); (0x2557, 187); (0x255d, 188); (0x255c, 189); (0x255b, 190); (0x2510, 191);
   (0x2514, 192); (0x2534, 193); (0x252c, 194); (0x251c, 195); (0x2500, 196); (0x253c, 197);
   (0x255e, 198); (0x255f, 199); (0x255a, 200); (0x2554, 201); (0x2569, 202); (0x2566, 203);
   (0x2560, 204); (0x2550, 205); (0x256c, 206); (0x2567, 207); (0x2568, 208); (0x2564, 209);
   (0x2565, 210); (0x2559, 211); (0x2558, 212); (0x2552, 213); (0x2553, 214); (0x256b, 215);
   (0x256a, 216); (0x2518, 217); (0x250c, 218); (0x2588, 219); (0x2584, 220); (0x258c, 221);
   (0x2590, 222); (0x2580, 223); (0x03b1, 224); (0x00df, 225); (0x0393, 226); (0x03c0, 227);
   (0x03a3, 228); (0x03c3, 229); (0x00b5, 230); (0x03c4, 231); (0x03a6, 232); (0x0398, 233);
   (0x03a9, 234); (0x03b4, 235); (0x221e, 236); (0x03c6, 237); (0x03b5, 238); (0x2229, 239);
   (0x2261, 240); (0x00b1, 241); (0x2265, 242); (0x2264, 243); (0x2320, 244); (0x2321, 245);
   (0x00f7, 246); (0x2248, 247); (0x00b0, 248); (0x2219, 249); (0x00b7, 250); (0x221a, 251);
   (0x207f, 252); (0x00b2, 253); (0x25a0, 254)].

Definition ToCodePage437 (codePoint : Z) : Z :=
  match find (λ c, c.1 =? codePoint) cp437_cases with
  | Some c => c.2
  | None => -1
  end.

(** ** Width of a code point *)
Record Interval := mkInterval { First : Z; Last : Z }.
Definition interval_lt (i : Interval) (ucs : Z) : bool := Last i <? ucs.
Definition nil_interval : Interval := mkInterval 0 0.

(** [std::lower_bound] over the elements [first .. first + count). *)
Fixpoint lower_bound (fuel : nat) (table : list Interval) (ucs : Z) (first count : nat) : nat :=
  match fuel, count with
  | S fuel, S _ =>
      let half := Nat.div2 count in
      let it := (first + half)%nat in
      if interval_lt (nth it table nil_interval) ucs
      then lower_bound fuel table ucs (S it) (count - half - 1)
      else lower_bound fuel table ucs first half
  | _, _ => first
  end.

Definition IsInCombining (ucs : Z) (table : list Interval) : bool :=
  let it := lower_bound (length table) table ucs 0 (length table) in
  if (it =? length table)%nat then false
  else (First (nth it table nil_interval) <=? ucs) && (ucs <=? Last (nth it table nil_interval)).

Definition combining : list Interval :=
  [mkInterval 0x0300 0x036f; mkInterval 0x0483 0x0486; mkInterval 0x0488 0x0489; mkInterval 0x0591 0x05bd;
   mkInterval 0x05bf 0x05bf; mkInterval 0x05c1 0x05c2; mkInterval 0x05c4 0x05c5; mkInterval 0x05c7 0x05c7;
   mkInterval 0x0600 0x0603; mkInterval 0x0610 0x0615; mkInterval 0x064b 0x065e; mkInterval 0x0670 0x0670;
   mkInterval 0x06d6 0x06e4; mkInterval 0x06e7 0x06e8; mkInterval 0x06ea 0x06ed; mkInterval 0x070f 0x070f;
   mkInterval 0x0711 0x0711; mkInterval 0x0730 0x074a; mkInterval 0x07a6 0x07b0; mkInterval 0x07eb 0x07f3;
   mkInterval 0x0901 0x0902; mkInterval 0x093c 0x093c; mkInterval 0x0941 0x0948; mkInterval 0x094d 0x094d;
   mkInterval 0x0951 0x0954; mkInterval 0x0962 0x0963; mkInterval 0x0981 0x0981; mkInterval 0x09bc 0x09bc;
   mkInterval 0x09c1 0x09c4; mkInterval 0x09cd 0x09cd; mkInterval 0x09e2 0x09e3; mkInterval 0x0a01 0x0a02;
   mkInterval 0x0a3c 0x0a3c; mkInterval 0x0a41 0x0a42; mkInterval 0x0a47 0x0a48; mkInterval 0x0a4b 0x0a4d;
   mkInterval 0x0a70 0x0a71; mkInterval 0x0a81 0x0a82; mkInterval 0x0abc 0x0abc; mkInterval 0x0ac1 0x0ac5;
   mkInterval 0x0ac7 0x0ac8; mkInterval 0x0acd 0x0acd; mkInterval 0x0ae2 0x0ae3; mkInterval 0x0b01 0x0b01;
   mkInterval 0x0b3c 0x0b3c; mkInterval 0x0b3f 0x0b3f; mkInterval 0x0b41 0x0b43; mkInterval 0x0b4d 0x0b4d;
   mkInterval 0x0b56 0x0b56; mkInterval 0x0b82 0x0b82; mkInterval 0x0bc0 0x0bc0; mkInterval 0x0bcd 0x0bcd;
   mkInterval 0x0c3e 0x0c40; mkInterval 0x0c46 0x0c48; mkInterval 0x0c4a 0x0c4d; mkInterval 0x0c55 0x0c56;
   mkInterval 0x0cbc 0x0cbc; mkInterval 0x0cbf 0x0cbf; mkInterval 0x0cc6 0x0cc6; mkInterval 0x0ccc 0x0ccd;
   mkInterval 0x0ce2 0x0ce3; mkInterval 0x0d41 0x0d43; mkInterval 0x0d4d 0x0d4d; mkInterval 0x0dcA 0x0dca;
   mkInterval 0x0dd2 0x0dd4; mkInterval 0x0dd6 0x0dd6; mkInterval 0x0e31 0x0e31; mkInterval 0x0e34 0x0e3a;
   mkInterval 0x0e47 0x0e4e; mkInterval 0x0eb1 0x0eb1; mkInterval 0x0eb4 0x0eb9; mkInterval 0x0ebb 0x0ebc;
   mkInterval 0x0ec8 0x0ecd; mkInterval 0x0f18 0x0f19; mkInterval 0x0f35 0x0f35; mkInterval 0x0f37 0x0f37;
   mkInterval 0x0f39 0x0f39; mkInterval 0x0f71 0x0f7e; mkInterval 0x0f80 0x0f84; mkInterval 0x0f86 0x0f87;
   mkInterval 0x0f90 0x0f97; mkInterval 0x0f99 0x0fbc; mkInterval 0x0fc6 0x0fc6; mkInterval 0x102d 0x1030;
   mkInterval 0x1032 0x1032; mkInterval 0x1036 0x1037; mkInterval 0x1039 0x1039; mkInterval 0x1058 0x1059;
   mkInterval 0x1160 0x11ff; mkInterval 0x135f 0x135f; mkInterval 0x1712 0x1714; mkInterval 0x1732 0x1734;
   mkInterval 0x1752 0x1753; mkInterval 0x1772 0x1773; mkInterval 0x17b4 0x17b5; mkInterval 0x17b7 0x17bd;
   mkInterval 0x17c6 0x17c6; mkInterval 0x17c9 0x17d3; mkInterval 0x17dd 0x17dd; mkInterval 0x180b 0x180d;
   mkInterval 0x18a9 0x18a9; mkInterval 0x1920 0x1922; mkInterval 0x1927 0x1928; mkInterval 0x1932 0x1932;
   mkInterval 0x1939 0x193b; mkInterval 0x1a17 0x1a18; mkInterval 0x1b00 0x1b03; mkInterval 0x1b34 0x1b34;
   mkInterval 0x1b36 0x1b3a; mkInterval 0x1b3c 0x1b3c; mkInterval 0x1b42 0x1b42; mkInterval 0x1B6b 0x1b73;
   mkInterval 0x1dc0 0x1dca; mkInterval 0x1dfe 0x1dff; mkInterval 0x200b 0x200f; mkInterval 0x202a 0x202e;
   mkInterval 0x2060 0x2063; mkInterval 0x206a 0x206f; mkInterval 0x20d0 0x20ef; mkInterval 0x302a 0x302f;
   mkInterval 0x3099 0x309a; mkInterval 0xa806 0xa806; mkInterval 0xa80b 0xa80b; mkInterval 0xa825 0xa826;
   mkInterval 0xfb1e 0xfb1e; mkInterval 0xfe00 0xfe0f; mkInterval 0xfe20 0xfe23; mkInterval 0xfeff 0xfeff;
   mkInterval 0xfff9 0xfffb; mkInterval 0x10a01 0x10a03; mkInterval 0x10a05 0x10a06; mkInterval 0x10a0c 0x10a0f;
   mkInterval 0x10a38 0x10a3a; mkInterval 0x10a3f 0x10a3f; mkInterval 0x1d167 0x1d169; mkInterval 0x1d173 0x1d182;
   mkInterval 0x1d185 0x1d18b; mkInterval 0x1d1aa 0x1d1ad; mkInterval 0x1d242 0x1d244; mkInterval 0xe0001 0xe0001;
   mkInterval 0xe0020 0xe007f; mkInterval 0xe0100 0xe01ef].

Definition is_wide (ucs : Z) : bool :=
  (0x1100 <=? ucs) &&
  ((ucs <=? 0x115f) || (ucs =? 0x2329) || (ucs =? 0x232a)
   || ((0x2e80 <=? ucs) && (ucs <=? 0xa4cf) && negb (ucs =? 0x303f))
   || ((0xac00 <=? ucs) && (ucs <=? 0xd7a3))
   || ((0xf900 <=? ucs) && (ucs <=? 0xfaff))
   || ((0xfe10 <=? ucs) && (ucs <=? 0xfe19))
   || ((0xfe30 <=? ucs) && (ucs <=? 0xfe6f))
   || ((0xff00 <=? ucs) && (ucs <=? 0xff60))
   || ((0xffe0 <=? ucs) && (ucs <=? 0xffe6))
   || ((0x20000 <=? ucs) && (ucs <=? 0x2fffd))
   || ((0x30000 <=? ucs) && (ucs <=? 0x3fffd))).

Definition GetWidth (ucs : Z) : Z :=
  if ucs =? 0 then 0
  else if (ucs <? 32) || ((0x7f <=? ucs) && (ucs <? 0xa0)) then 1
  else if IsInCombining ucs combining then 0
  else 1 + Z.b2z (is_wide ucs).

(** ** The binary search *)
(** Intervals in order and apart. *)
Definition sorted_table (table : list Interval) : Prop :=
  Forall (λ i, First i <= Last i) table /\ StronglySorted (λ a b, Last a < First b) table.

Lemma sorted_nth table i j :
  sorted_table table -> (i < j < length table)%nat ->
  Last (nth i table nil_interval) < First (nth j table nil_interval).
Proof.
  intros [_ Hs]. revert i j. induction Hs as [|a table Hs IH Hall]; intros i j Hij; simpl in *; [lia|].
  destruct j as [|j]; [lia|]. destruct i as [|i]; [|apply IH; lia].
  rewrite Forall_forall in Hall. apply Hall. apply list_elem_of_In, nth_In. lia.
Qed.

Lemma sorted_range table i :
  sorted_table table -> (i < length table)%nat ->
  First (nth i table nil_interval) <= Last (nth i table nil_interval).
Proof. intros [Hr _] Hi. rewrite Forall_forall in Hr. apply Hr. apply list_elem_of_In, nth_In, Hi. Qed.

(** The search ends at the boundary between the intervals that end before [ucs] and
    the others; [count] turns are enough since each at least halves [count]. *)
Lemma lower_bound_spec table ucs fuel first count :
  sorted_table table -> (count <= fuel)%nat -> (first + count <= length table)%nat ->
  let r := lower_bound fuel table ucs first count in
  (first <= r <= first + count)%nat /\
  (forall i, (first <= i < r)%nat -> Last (nth i table nil_interval) < ucs) /\
  (forall i, (r <= i < first + count)%nat -> ucs <= Last (nth i table nil_interval)).
Proof.
  intros Hs. revert first count. induction fuel as [|fuel IH]; intros first count Hf Hl; simpl.
  { assert (count = 0%nat) as -> by lia. split_and!; [lia|lia|intros i; lia|intros i; lia]. }
  destruct count as [|count]; [split_and!; [lia|lia|intros i; lia|intros i; lia]|].
  set (half := Nat.div2 (S count)). assert (Hh : (half <= count)%nat).
  { unfold half. pose proof (Nat.div2_decr (S count) count). lia. }
  destruct (interval_lt (nth (first + half) table nil_interval) ucs) eqn:E; unfold interval_lt in E.
  - apply Z.ltb_lt in E.
    destruct (IH (S (first + half)) (S count - half - 1)%nat) as (H1 & H2 & H3); [lia|lia|].
    split_and!; [lia|lia| |intros i Hi; apply H3; lia].
    intros i Hi. destruct (decide (S (first + half) <= i)%nat); [apply H2; lia|].
    destruct (decide (i = (first + half)%nat)) as [->|]; [exact E|].
    pose proof (sorted_nth table i (first + half) Hs ltac:(lia)).
    pose proof (sorted_range table (first + half) Hs ltac:(lia)). lia.
  - apply Z.ltb_ge in E. destruct (IH first half) as (H1 & H2 & H3); [lia|lia|].
    split_and!; [lia|lia|exact H2|].
    intros i Hi. destruct (decide (i < first + half)%nat); [apply H3; lia|].
    destruct (decide (i = (first + half)%nat)) as [->|]; [exact E|].
    pose proof (sorted_nth table (first + half) i Hs ltac:(lia)).
    pose proof (sorted_range table i Hs ltac:(lia)). lia.
Qed.

Definition in_interval (ucs : Z) (i : Interval) : bool := (First i <=? ucs) && (ucs <=? Last i).

Lemma IsInCombining_linear table ucs :
  sorted_table table -> IsInCombining ucs table = existsb (in_interval ucs) table.
Proof.
  intros Hs. unfold IsInCombining.
  destruct (lower_bound_spec table ucs (length table) 0 (length table) Hs ltac:(lia) ltac:(lia)) as (H1 & H2 & H3).
  set (r := lower_bound _ _ _ _ _) in *. apply eq_true_iff_eq. rewrite existsb_exists. split.
  - destruct (Nat.eqb_spec r (length table)) as [|Hne]; [discriminate|]. intros Ht.
    exists (nth r table nil_interval). split; [apply nth_In; lia|exact Ht].
  - intros (iv & Hin & Ht). apply (In_nth _ _ nil_interval) in Hin as (i & Hi & <-).
    unfold in_interval in Ht. rewrite andb_true_iff, !Z.leb_le in Ht.
    destruct (decide (i < r)%nat); [specialize (H2 i ltac:(lia)); lia|].
    destruct (Nat.eqb_spec r (length table)) as [|Hne]; [lia|].
    destruct (decide (i = r)) as [->|Hir]; [rewrite andb_true_iff, !Z.leb_le; lia|].
    specialize (H3 r ltac:(lia)). pose proof (sorted_nth table r i Hs ltac:(lia)). lia.
Qed.

(** Decision procedure for the order of a table. *)
Fixpoint sorted_tableb (lo : Z) (table : list Interval) : bool :=
  match table with
  | [] => true
  | i :: table => (lo <? First i) && (First i <=? Last i) && sorted_tableb (Last i) table
  end.

Lemma sorted_tableb_sound lo table :
  sorted_tableb lo table = true -> sorted_table table /\ Forall (λ i, lo < First i) table.
Proof.
  revert lo. induction table as [|a table IH]; intros lo Hb; simpl in Hb.
  { repeat constructor. }
  rewrite !andb_true_iff, Z.ltb_lt, Z.leb_le in Hb. destruct Hb as [[H1 H2] H3].
  destruct (IH _ H3) as [[Hr Hs] Hall]. split; [split|].
  - constructor; trivial.
  - constructor; trivial.
  - constructor; [exact H1|]. rewrite Forall_forall in *. intros x Hx. specialize (Hall x Hx). lia.
Qed.

(** ** Theorems *)

(** [GetWidth] agrees with the definition by linear search: 0 for NUL and for the
    combining characters of the table, 1 for control characters, 2 for wide ones and
    1 for the rest; the binary search finds every interval of the table. *)
Theorem GetWidth_linear (ucs : Z) :
  GetWidth ucs =
    if ucs =? 0 then 0
    else if (ucs <? 32) || ((0x7f <=? ucs) && (ucs <? 0xa0)) then 1
    else if existsb (in_interval ucs) combining then 0
    else if is_wide ucs then 2 else 1.
Proof.
  unfold GetWidth. rewrite IsInCombining_linear.
  - destruct (ucs =? 0); [reflexivity|]. destruct (_ || _); [reflexivity|].
    destruct (existsb _ _); [reflexivity|]. now destruct (is_wide ucs).
  - apply (sorted_tableb_sound 0). vm_compute. reflexivity.
Qed.

Lemma find_some_pair (c v : Z) :
  ToCodePage437 c = v -> v <> -1 -> (c, v) ∈ cp437_cases.
Proof.
  unfold ToCodePage437. destruct (find _ _) as [[c' v']|] eqn:E; [|congruence].
  apply find_some in E as [Hin Heq]. simpl in *. apply Z.eqb_eq in Heq as ->. intros <- _.
  now apply list_elem_of_In.
Qed.

(** [ToCodePage437] maps no two code points to the same glyph, and its glyphs are
    1 to 31 and 127 to 254; every such glyph has a code point. *)
Theorem ToCodePage437_bijective :
  (forall c1 c2, ToCodePage437 c1 = ToCodePage437 c2 -> ToCodePage437 c1 <> -1 -> c1 = c2) /\
  (forall v, (1 <= v <= 31 \/ 127 <= v <= 254) <-> v <> -1 /\ exists c, ToCodePage437 c = v).
Proof.
  assert (Hv : cp437_cases.*2 = seqZ 1 31 ++ seqZ 127 128) by (vm_compute; reflexivity).
  assert (Hn : NoDup (cp437_cases.*2)).
  { rewrite Hv. apply (bool_decide_unpack _). vm_compute. exact I. }
  assert (Hself : Forall (λ c, ToCodePage437 c.1 = c.2) cp437_cases).
  { apply (bool_decide_unpack _). vm_compute. exact I. }
  rewrite Forall_forall in Hself. split.
  - intros c1 c2 E Hne. pose proof (find_some_pair c1 _ eq_refl Hne) as H1.
    rewrite E in Hne. pose proof (find_some_pair c2 _ eq_refl Hne) as H2. rewrite <- E in H2.
    apply list_elem_of_lookup in H1 as [i Hi], H2 as [j Hj].
    assert (i = j) as ->; [|congruence].
    eapply (NoDup_lookup cp437_cases.*2); [exact Hn|rewrite list_lookup_fmap, Hi; reflexivity|].
    now rewrite list_lookup_fmap, Hj.
  - intros v. split.
    + intros Hr. split; [lia|]. assert (Hin : v ∈ cp437_cases.*2).
      { rewrite Hv, elem_of_app, !elem_of_seqZ. lia. }
      apply list_elem_of_fmap in Hin as (c & -> & Hc). exists c.1. now apply Hself.
    + intros [Hne [c Hc]]. pose proof (find_some_pair c v Hc Hne) as Hin.
      assert (Hin2 : v ∈ cp437_cases.*2) by (apply list_elem_of_fmap; now exists (c, v)).
      rewrite Hv, elem_of_app, !elem_of_seqZ in Hin2. lia.
Qed.
