(* ===== verification/Terminal.v ===== *)
(** * The terminal: control characters and escape sequences

    [Drivers/Terminal.cpp]: the state machine that turns a stream of characters into
    operations of a display.  The display is what [Terminal] declares as pure
    virtual methods: the class [TerminalBackend], implemented by [VideoTerminal].

    An access outside [m_EscapeValues] is undefined behaviour: the operations that
    index it return [None] there. *)

From Stdlib Require Import ZArith Lia Bool.
From stdpp Require Import base gmap list numbers.
From S2P Require Import Prelude.

(** ** What the virtual methods of the display can see of [Terminal] *)
Record Base := mkBase {
  ws_row : Z;
  ws_col : Z;
  m_ScrollTopMargin : Z;
  m_ScrollBottomMargin : Z
}.

Class TerminalBackend (V : Type) := {
  RawPutChar : Base -> Z -> V -> V;
  MoveCharacter : Base -> Z -> Z -> Z -> Z -> V -> V;
  ScrollDown : Base -> V -> V;
  ScrollUp : Base -> V -> V;
  Flush : Base -> V -> V;
  GetCursorPos : Base -> V -> Z * Z;
  SetCursorPos : Base -> Z -> Z -> V -> V;
  SaveState : V -> V;
  RestoreState : V -> V;
  ClearScreen : Base -> Z -> bool -> V -> V;
  SetTextForeground : Z -> V -> V;
  SetTextBackground : Z -> V -> V;
  SetTextForegroundRgb : Z * Z * Z -> V -> V;
  SetTextBackgroundRgb : Z * Z * Z -> V -> V;
  (** States of the display whose cursor has valid coordinates. *)
  display_ok : Base -> V -> Prop;
  (** A position inside the screen is taken as it is. *)
  cursor_set (b : Base) (x y : Z) (v : V) :
    0 <= x < ws_col b -> 0 <= y < ws_row b -> GetCursorPos b (SetCursorPos b x y v) = (x, y);
  (** The position reported is inside the screen. *)
  cursor_in (b : Base) (v : V) :
    display_ok b v -> 0 < ws_col b -> 0 < ws_row b ->
    0 <= (GetCursorPos b v).1 < ws_col b /\ 0 <= (GetCursorPos b v).2 < ws_row b
}.

(** ** State *)
Inductive State :=
  | eNormal | eEscape | eControlSequenceEntry | eControlSequenceParams | eCsiExpectParameters
  | eOsCommand | eDecPrivate | eDecParameters | eDecCursorMode.
#[export] Instance State_eq_dec : EqDecision State.
Proof. solve_decision. Defined.

Definition MAX_ESC_PARAMETER_COUNT : nat := 16.
Definition eDefault : Z := 0x09.

Section Terminal.
Context {V : Type} {TB : TerminalBackend V}.
(** Whether [TTY::GetCurrent] gives a terminal device; replies to it are recorded. *)
Variable has_tty : bool.

Record Terminal := mkTerminal {
  m_Initialized : bool;
  base : Base;
  m_State : State;
  m_EscapeValues : list Z;
  m_EscapeValueCount : nat;
  m_TabSize : Z;
  m_DecPrivate : bool;
  m_CursorKeyMode : bool;
  display : V;
  replies : list (list Z)
}.

Definition with_display (t : Terminal) (v : V) : Terminal :=
  mkTerminal (m_Initialized t) (base t) (m_State t) (m_EscapeValues t) (m_EscapeValueCount t)
    (m_TabSize t) (m_DecPrivate t) (m_CursorKeyMode t) v (replies t).
Definition with_state (t : Terminal) (s : State) : Terminal :=
  mkTerminal (m_Initialized t) (base t) s (m_EscapeValues t) (m_EscapeValueCount t)
    (m_TabSize t) (m_DecPrivate t) (m_CursorKeyMode t) (display t) (replies t).
Definition with_values (t : Terminal) (values : list Z) (count : nat) : Terminal :=
  mkTerminal (m_Initialized t) (base t) (m_State t) values count
    (m_TabSize t) (m_DecPrivate t) (m_CursorKeyMode t) (display t) (replies t).
Definition with_modes (t : Terminal) (dec keys : bool) : Terminal :=
  mkTerminal (m_Initialized t) (base t) (m_State t) (m_EscapeValues t) (m_EscapeValueCount t)
    (m_TabSize t) dec keys (display t) (replies t).
Definition with_reply (t : Terminal) (r : list Z) : Terminal :=
  mkTerminal (m_Initialized t) (base t) (m_State t) (m_EscapeValues t) (m_EscapeValueCount t)
    (m_TabSize t) (m_DecPrivate t) (m_CursorKeyMode t) (display t) (replies t ++ [r]).

Definition pos (t : Terminal) : Z * Z := GetCursorPos (base t) (display t).
Definition goto (x y : Z) (t : Terminal) : Terminal :=
  with_display t (SetCursorPos (base t) x y (display t)).
Definition put (c : Z) (t : Terminal) : Terminal :=
  with_display t (RawPutChar (base t) c (display t)).
Definition cols (t : Terminal) : Z := ws_col (base t).
Definition rows (t : Terminal) : Z := ws_row (base t).
Definition escape_value (t : Terminal) (i : nat) : Z := nth i (m_EscapeValues t) 0.

Definition Reset (t : Terminal) : Terminal :=
  mkTerminal (m_Initialized t) (mkBase (rows t) (cols t) 0 (rows t)) (m_State t) (m_EscapeValues t) 0
    8 (m_DecPrivate t) (m_CursorKeyMode t) (display t) (replies t).

Definition OnEscapeChar (t : Terminal) (c : Z) : Terminal :=
  let '(x, y) := pos t in
  if c =? 0x5b (* '[' *) then
    with_state (with_values t (replicate MAX_ESC_PARAMETER_COUNT 0) 0) eControlSequenceEntry
  else
    let t :=
      if c =? 0x63 (* 'c' *) then
        let t := Reset t in with_display t (ClearScreen (base t) 0xffffffff true (display t))
      else if (c =? 0x44 (* 'D' *)) || (c =? 0x45 (* 'E' *)) then
        let '(t, y) :=
          if y =? u64 (m_ScrollBottomMargin (base t) - 1)
          then (with_display t (ScrollDown (base t) (display t)), y + 1) else (t, y) in
        goto (if c =? 0x44 then x else 0) y t
      else if c =? 0x4d (* 'M' *) then
        let '(t, y) :=
          if y =? m_ScrollTopMargin (base t)
          then (with_display t (ScrollUp (base t) (display t)), u64 (y - 1)) else (t, y) in
        goto 0 y t
      else if c =? 0x37 (* '7' *) then with_display t (SaveState (display t))
      else if c =? 0x38 (* '8' *) then with_display t (RestoreState (display t))
      else t in
    with_state t eNormal.

(** ** Control sequences *)
(** [for (i = ws_col - 1; i >= x; i--)] *)
Definition ICH (t : Terminal) (count : Z) : Terminal :=
  let '(x, y) := pos t in
  let t := fold_left (λ t i,
      let t := with_display t (MoveCharacter (base t) (u64 (i + count)) y i y (display t)) in
      put 0x20 (goto i y t)) (reverse (seqZ x (cols t - x))) t in
  goto x y t.

Definition CHA (t : Terminal) (column : Z) : Terminal :=
  let column := u64 (column - 1) in
  let column := if cols t <=? column then u64 (cols t - 1) else column in
  let y := (pos t).2 in
  goto column y t.

Definition CUP (t : Terminal) : Terminal :=
  let x := escape_value t 1 in
  let y := escape_value t 0 in
  let x := if 0 <? x then x - 1 else x in
  let x := if cols t <=? x then u64 (cols t - 1) else x in
  let y := if 0 <? y then y - 1 else y in
  let y := if rows t <=? y then u64 (rows t - 1) else y in
  goto x y t.

Definition ED (t : Terminal) (parameter : Z) : Terminal :=
  let '(startX, startY) := pos t in
  let t :=
    if (m_EscapeValueCount t =? 0)%nat then
      let displaySize := cols t * rows t in
      let currentPos := startY * rows t + startX in
      let t := Nat.iter (Z.to_nat (displaySize - currentPos)) (put 0x20) t in
      goto startX startY t
    else t in
  if parameter =? 1 then
    Nat.iter (Z.to_nat startX) (put 0x20) (goto 0 startY t)
  else if (parameter =? 2) || (parameter =? 3) then
    goto 0 0 (with_display t (ClearScreen (base t) 0 false (display t)))
  else t.

Definition EL (t : Terminal) (parameter : Z) : Terminal :=
  let '(x, y) := pos t in
  let startX := if (parameter =? 1) || (parameter =? 2) then 0 else x in
  let endX := if parameter =? 1 then x else cols t in
  let t := goto startX y t in
  let t := Nat.iter (Z.to_nat (endX - startX)) (put 0x20) t in
  if negb (parameter =? 1) then goto x y t else t.

Definition VPA (t : Terminal) (row : Z) : Terminal :=
  let row := u64 (row - 1) in
  let row := if rows t <=? row then u64 (rows t - 1) else row in
  let x := (pos t).1 in
  goto x row t.

Definition within (lo x hi : Z) : bool := (lo <=? x) && (x <=? hi).

Definition SGR (t : Terminal) (parameter : Z) : Terminal :=
  let color := parameter mod 10 + (if 90 <=? parameter then 10 else 0) in
  if parameter =? 0 then
    with_display t (SetTextBackground eDefault (SetTextForeground eDefault (display t)))
  else if within 30 parameter 37 || (parameter =? 39) || within 90 parameter 97 then
    with_display t (SetTextForeground color (display t))
  else if (parameter =? 38) || (parameter =? 48) then
    if (m_EscapeValueCount t <? 4)%nat then t
    else
      let rgb := (escape_value t 1, escape_value t 2, escape_value t 3) in
      if parameter =? 38 then with_display t (SetTextForegroundRgb rgb (display t))
      else with_display t (SetTextBackgroundRgb rgb (display t))
  else if within 40 parameter 47 || (parameter =? 49) || within 100 parameter 107 then
    with_display t (SetTextBackground color (display t))
  else t.

(** Decimal digits of a number, for [fmt::format]. *)
Fixpoint digits_of (fuel : nat) (n : Z) : list Z :=
  match fuel with
  | O => []
  | S fuel => (if n <? 10 then [] else digits_of fuel (n / 10)) ++ [0x30 + n mod 10]
  end.
Definition decimal (n : Z) : list Z := digits_of 20 n.

(** Device status report: the reply goes to the current TTY. *)
Definition DSR (t : Terminal) (param x y : Z) : Terminal :=
  if negb has_tty then t
  else
    let response :=
      if param =? 5 then [0x1b; 0x5b; 0x30; 0x6e]
      else if param =? 6 then [0x1b; 0x5b] ++ decimal x ++ [0x3b] ++ decimal y
      else [] in
    with_reply t response.

(** The final character of a sequence; [true] asks for the return to the normal state. *)
Definition CsiFinal (t : Terminal) (c : Z) : Terminal * bool :=
  let param := escape_value t 0 in
  let '(x, y) := pos t in
  if c =? 0x40 (* '@' *) then (ICH t param, true)
  else if c =? 0x3f (* '?' *) then (with_modes t true (m_CursorKeyMode t), false)
  else if c =? 0x41 (* 'A' *) then
    let param := if y <? param then u32 y else param in
    let origY := y in
    let destY := u64 (y - param) in
    let top := m_ScrollTopMargin (base t) in
    let bottom := m_ScrollBottomMargin (base t) in
    let willBeScrolled := ((destY <=? top) && (top <=? origY)) || ((destY <=? bottom) && (bottom <=? origY)) in
    let destY := if willBeScrolled && (destY <? top) then top else destY in
    (goto x destY t, true)
  else if c =? 0x43 (* 'C' *) then
    let param := if u64 (cols t - 1) <? u64 (param + x) then u32 (cols t - 1 - x) else param in
    (goto (u64 (x + param)) y t, true)
  else if c =? 0x44 (* 'D' *) then
    let param := if x <? param then u32 x else param in
    (goto (u64 (x - param)) y t, true)
  else if c =? 0x47 (* 'G' *) then (CHA t param, true)
  else if c =? 0x48 (* 'H' *) then (CUP t, true)
  else if c =? 0x4a (* 'J' *) then (ED t param, true)
  else if c =? 0x4b (* 'K' *) then (EL t param, true)
  else if c =? 0x64 (* 'd' *) then (VPA t param, true)
  else if (c =? 0x68 (* 'h' *)) || (c =? 0x6c (* 'l' *)) then
    (if m_DecPrivate t && (0 <? m_EscapeValueCount t)%nat && (escape_value t 0 =? 1)
     then with_modes t (m_DecPrivate t) (c =? 0x68) else t, true)
  else if c =? 0x6d (* 'm' *) then (SGR t param, true)
  else if c =? 0x6e (* 'n' *) then (DSR t param x y, true)
  else (t, true).

Definition IsDigit (c : Z) : bool := (0x30 <=? c) && (c <=? 0x39).

Definition OnCsi (t : Terminal) (c : Z) : option Terminal :=
  if IsDigit c then
    let t := with_state t eControlSequenceParams in
    if (m_EscapeValueCount t =? MAX_ESC_PARAMETER_COUNT)%nat then Some t
    else
      match m_EscapeValues t !! m_EscapeValueCount t with
      | None => None
      | Some v =>
          let v := u32 (u32 (v * 10) + (c - 0x30)) in
          Some (with_values t (<[m_EscapeValueCount t := v]> (m_EscapeValues t)) (m_EscapeValueCount t))
      end
  else
    let finish t :=
      let '(t, normal) := CsiFinal t c in
      Some (if normal then with_modes (with_state t eNormal) false (m_CursorKeyMode t) else t) in
    if decide (m_State t = eControlSequenceParams) then
      let t := with_state (with_values t (m_EscapeValues t) (S (m_EscapeValueCount t))) eControlSequenceEntry in
      if c =? 0x3b (* ';' *) then Some t else finish t
    else if c =? 0x3b then
      if (m_EscapeValueCount t =? MAX_ESC_PARAMETER_COUNT)%nat then Some t
      else
        match m_EscapeValues t !! m_EscapeValueCount t with
        | None => None
        | Some _ =>
            Some (with_values t (<[m_EscapeValueCount t := 1]> (m_EscapeValues t)) (S (m_EscapeValueCount t)))
        end
    else finish t.

(** ** Characters *)
Definition PutCharImpl (t : Terminal) (c : Z) : option Terminal :=
  if negb (m_Initialized t) then Some t
  else if decide (m_State t = eEscape) then Some (OnEscapeChar t (i8 c))
  else if decide (m_State t = eControlSequenceEntry \/ m_State t = eControlSequenceParams) then OnCsi t (i8 c)
  else
    let '(x, y) := pos t in
    Some
      (if (c =? 0) || (c =? 7) then t
       else if c =? 8 then
         if x =? 0 then t else goto (x - 1) y (put 0x20 (goto (x - 1) y t))
       else if c =? 9 then
         if cols t <=? x / m_TabSize t + 1 then goto (u64 (cols t - 1)) y t
         else goto ((x / m_TabSize t + 1) * m_TabSize t) y t
       else if (c =? 10) || (c =? 11) || (c =? 12) then
         if y =? u64 (m_ScrollBottomMargin (base t) - 1)
         then goto 0 y (with_display t (ScrollDown (base t) (display t)))
         else goto 0 (y + 1) t
       else if c =? 13 then goto 0 y t
       else if (c =? 0x0e) || (c =? 0x0f) then t
       else if c =? 0x1a then with_state t eNormal
       else if c =? 0x1b then with_state t eEscape
       else if c =? 0x7f then t
       else if c =? 0x9b then with_state t eControlSequenceEntry
       else if (0x20 <=? c) && (c <=? 0x7e) then put c t
       else put 0xfe t).

Definition flush (t : Terminal) : Terminal := with_display t (Flush (base t) (display t)).

Definition PutChar (t : Terminal) (c : Z) : option Terminal := flush <$> PutCharImpl t c.

(** [PutCharImpl] of each character in turn. *)
Fixpoint feed (t : Terminal) (str : list Z) : option Terminal :=
  match str with
  | [] => Some t
  | c :: str => t ← PutCharImpl t c; feed t str
  end.

Definition PrintString (t : Terminal) (str : list Z) : option (Z * Terminal) :=
  if negb (m_Initialized t) then Some (0, t)
  else t ← feed t str; Some (Z.of_nat (length str), flush t).

(** The special graphics character set: the glyph for a character, if it has one. *)
Definition dec_special : list (Z * Z) :=
  [(0x60, 0x04); (0x30, 0xdb); (0x2d, 0x18); (0x2c, 0x1b); (0x2e, 0x19); (0x61, 0xb1); (0x66, 0xf8);
   (0x67, 0xf1); (0x68, 0xb0); (0x6a, 0xd9); (0x6b, 0xbf); (0x6c, 0xda); (0x6d, 0xc0); (0x6e, 0xc5);
   (0x71, 0xc4); (0x73, 0x5f); (0x74, 0xc3); (0x75, 0xb4); (0x76, 0xc1); (0x77, 0xc2); (0x78, 0xb3);
   (0x79, 0xf3); (0x7a, 0xf2); (0x7e, 0xfa); (0x5f, 0xff); (0x2b, 0x1a); (0x7b, 0xe3); (0x7d, 0x9c)].
Definition DecSpecialPrint (t : Terminal) (c : Z) : bool * Terminal :=
  match find (λ p, p.1 =? c) dec_special with
  | Some p => (true, put p.2 t)
  | None => (false, t)
  end.
End Terminal.
Arguments Terminal : clear implicits.
