(* ===== verification/TerminalProofs.v ===== *)
(** * The terminal: parsing of control sequences

    A control sequence with up to sixteen decimal parameters is parsed exactly:
    the final character is dispatched with the values of the parameters.  One
    parameter more and the parser writes past its array. *)

From Stdlib Require Import ZArith Lia Bool.
From stdpp Require Import base gmap list numbers.
From S2P Require Import Prelude Terminal.

Section Parsing.
Context {V : Type} {TB : TerminalBackend V}.
Variable has_tty : bool.
Implicit Types (t : Terminal V) (ps : list (list Z)).
Notation feed := (feed has_tty).
Notation OnCsi := (OnCsi has_tty).
Notation PutCharImpl := (PutCharImpl has_tty).

(** A parameter is a non-empty string of digits. *)
Definition digit (c : Z) : Prop := 0x30 <= c <= 0x39.
Definition numeral (p : list Z) : Prop := p <> [] /\ Forall digit p.
Definition add_digit (v c : Z) : Z := u32 (u32 (v * 10) + (c - 0x30)).
Definition value (p : list Z) : Z := fold_left add_digit p 0.
Definition join ps : list Z := mjoin (match ps with [] => [] | p :: ps => p :: map (λ p, 0x3b :: p) ps end).

Lemma i8_ascii c : 0 <= c < 128 -> i8 c = c.
Proof.
  intros Hc. unfold i8, swrap. rewrite Z.mod_small by lia.
  destruct (Z.ltb_spec c (2 ^ (8 - 1))) as [|Hge]; [reflexivity|]. change (2 ^ (8 - 1)) with 128 in Hge. lia.
Qed.

Lemma feed_app t l1 l2 : feed t (l1 ++ l2) = t' ← feed t l1; feed t' l2.
Proof. revert t. induction l1 as [|c l1 IH]; intros t; simpl; [reflexivity|]. destruct (PutCharImpl t c); simpl; auto. Qed.

(** The parser is inside a sequence, with [vals] collected so far and [cur] the value of
    the parameter being read. *)
Definition collecting t (s : State) (vals : list Z) (cur : Z) : Prop :=
  m_Initialized t = true /\ m_State t = s /\ m_EscapeValueCount t = length vals /\
  m_EscapeValues t = vals ++ cur :: replicate (15 - length vals) 0 /\ (length vals <= 15)%nat.

(** Everything but the parser's own fields is as in [t]. *)
Definition same_rest t t' : Prop :=
  base t' = base t /\ m_TabSize t' = m_TabSize t /\ m_DecPrivate t' = m_DecPrivate t /\
  m_CursorKeyMode t' = m_CursorKeyMode t /\ display t' = display t /\ replies t' = replies t /\
  m_Initialized t' = m_Initialized t.
#[local] Instance same_rest_refl : Reflexive same_rest.
Proof. intros t. repeat split. Qed.
#[local] Instance same_rest_trans : Transitive same_rest.
Proof. intros t1 t2 t3 (?&?&?&?&?&?&?) (?&?&?&?&?&?&?). repeat split; congruence. Qed.

Lemma csi_PutCharImpl t c :
  m_Initialized t = true -> m_State t = eControlSequenceEntry \/ m_State t = eControlSequenceParams ->
  0 <= c < 128 -> PutCharImpl t c = OnCsi t c.
Proof.
  intros Hi Hs Hc. unfold Terminal.PutCharImpl. rewrite Hi. simpl.
  rewrite decide_False by (destruct Hs; congruence). rewrite decide_True by exact Hs. now rewrite i8_ascii.
Qed.

Lemma collect_digit t s vals cur c :
  collecting t s vals cur -> s = eControlSequenceEntry \/ s = eControlSequenceParams -> digit c ->
  exists t', PutCharImpl t c = Some t' /\ collecting t' eControlSequenceParams vals (add_digit cur c) /\ same_rest t t'.
Proof.
  intros (Hi & Hs & Hn & Hv & Hl) Hss Hc. unfold digit in Hc.
  rewrite csi_PutCharImpl by (trivial; first [now rewrite Hs|lia]). unfold Terminal.OnCsi, IsDigit.
  destruct (Z.leb_spec 0x30 c); [|lia]. destruct (Z.leb_spec c 0x39); [|lia]. simpl.
  destruct (Nat.eqb_spec (m_EscapeValueCount t) MAX_ESC_PARAMETER_COUNT) as [E|_];
    [unfold MAX_ESC_PARAMETER_COUNT in E; lia|].
  assert (Hlk : m_EscapeValues t !! m_EscapeValueCount t = Some cur)
    by (rewrite Hv, Hn; now apply list_lookup_middle).
  rewrite Hlk. eexists. split; [reflexivity|]. split; [|repeat split].
  repeat split; simpl; trivial. rewrite Hv, Hn. rewrite insert_app_r_alt, Nat.sub_diag by lia. reflexivity.
Qed.

Lemma collect_digits t s vals cur p :
  collecting t s vals cur -> s = eControlSequenceEntry \/ s = eControlSequenceParams -> numeral p ->
  exists t', feed t p = Some t' /\
    collecting t' eControlSequenceParams vals (fold_left add_digit p cur) /\ same_rest t t'.
Proof.
  intros Hc Hs [Hne Hd]. destruct p as [|c p]; [congruence|]. apply Forall_cons_iff in Hd as [Hd Hp]. clear Hne.
  destruct (collect_digit t s vals cur c Hc Hs Hd) as (t1 & E1 & Hc1 & Hr1). cbn [Terminal.feed]. rewrite E1.
  cbn [mbind option_bind fold_left]. clear E1 Hc Hs Hd. generalize dependent (add_digit cur c). revert t1 Hr1.
  induction Hp as [|d p Hd Hp IH]; intros t1 Hr1 cur1 Hc1.
  { exists t1. auto. }
  destruct (collect_digit t1 _ vals cur1 d Hc1 (or_intror eq_refl) Hd) as (t2 & E2 & Hc2 & Hr2).
  cbn [Terminal.feed]. rewrite E2. cbn [mbind option_bind fold_left]. apply IH; trivial. now transitivity t1.
Qed.

Lemma collect_separator t vals cur :
  collecting t eControlSequenceParams vals cur -> (length vals <= 14)%nat ->
  exists t', PutCharImpl t 0x3b = Some t' /\ collecting t' eControlSequenceEntry (vals ++ [cur]) 0 /\ same_rest t t'.
Proof.
  intros (Hi & Hs & Hn & Hv & Hl) Hlt.
  rewrite csi_PutCharImpl by (trivial; first [now right|lia]). unfold Terminal.OnCsi. simpl.
  rewrite decide_True by exact Hs. eexists. split; [reflexivity|]. split; [|repeat split].
  repeat split; simpl; trivial.
  - rewrite Hn, length_app. simpl. lia.
  - rewrite Hv, length_app. simpl. rewrite <- app_assoc. simpl. do 2 f_equal.
    replace (15 - length vals)%nat with (S (15 - (length vals + 1)))%nat by lia. reflexivity.
  - rewrite length_app. simpl. lia.
Qed.

Lemma collect_params t vals p ps :
  collecting t eControlSequenceEntry vals 0 -> Forall numeral (p :: ps) ->
  (length vals + length ps <= 15)%nat ->
  exists t' front last, feed t (join (p :: ps)) = Some t' /\
    map value (p :: ps) = front ++ [last] /\
    collecting t' eControlSequenceParams (vals ++ front) last /\ same_rest t t'.
Proof.
  revert t vals p. induction ps as [|q ps IH]; intros t vals p Hc Hnum Hlen; apply Forall_cons_iff in Hnum as [Hp Hps].
  - destruct (collect_digits t _ vals 0 p Hc (or_introl eq_refl) Hp) as (t1 & E1 & Hc1 & Hr1).
    exists t1, [], (value p). unfold join. simpl. rewrite app_nil_r. split_and!; trivial. now rewrite app_nil_r.
  - destruct (collect_digits t _ vals 0 p Hc (or_introl eq_refl) Hp) as (t1 & E1 & Hc1 & Hr1).
    simpl in Hlen. destruct (collect_separator t1 vals _ Hc1 ltac:(lia)) as (t2 & E2 & Hc2 & Hr2).
    destruct (IH t2 (vals ++ [value p]) q Hc2 Hps) as (t3 & front & last & E3 & Hm & Hc3 & Hr3);
      [rewrite length_app; simpl; lia|].
    exists t3, (value p :: front), last. split_and!.
    + unfold join in *. cbn [map mjoin list_join] in *. rewrite feed_app, E1. cbn [mbind option_bind].
      cbn [app Terminal.feed]. rewrite E2. cbn [mbind option_bind]. exact E3.
    + change (map value (p :: q :: ps)) with (value p :: map value (q :: ps)). now rewrite Hm.
    + now rewrite <- app_assoc in Hc3.
    + now transitivity t2; [transitivity t1|].
Qed.

Lemma start_sequence t :
  m_Initialized t = true -> m_State t = eNormal ->
  exists t', feed t [0x1b; 0x5b] = Some t' /\ collecting t' eControlSequenceEntry [] 0 /\ same_rest t t'.
Proof.
  intros Hi Hs.
  assert (E : PutCharImpl t 0x1b = Some (with_state t eEscape)).
  { unfold Terminal.PutCharImpl. rewrite Hi, Hs. cbn [negb]. rewrite !decide_False by intuition congruence.
    now destruct (pos t). }
  cbn [Terminal.feed]. rewrite E. cbn [mbind option_bind]. unfold Terminal.PutCharImpl.
  change (m_Initialized (with_state t eEscape)) with (m_Initialized t).
  rewrite Hi. cbn [negb]. rewrite decide_True by reflexivity.
  unfold OnEscapeChar. destruct (pos _) as [x y]. eexists. split; [reflexivity|].
  split; repeat split; simpl; trivial. lia.
Qed.

(** The parameters as the final character finds them. *)
Definition params_are t (vals : list Z) : Prop :=
  m_EscapeValueCount t = length vals /\ forall i, nth i (m_EscapeValues t) 0 = nth i vals 0.

Lemma collecting_params t front last :
  collecting t eControlSequenceParams front last ->
  params_are (with_state (with_values t (m_EscapeValues t) (S (m_EscapeValueCount t))) eControlSequenceEntry)
    (front ++ [last]).
Proof.
  intros (_ & _ & Hn & Hv & _). split; simpl; [rewrite Hn, length_app; simpl; lia|].
  intros i. rewrite Hv. change (last :: replicate (15 - length front) 0) with ([last] ++ replicate (15 - length front) 0).
  rewrite app_assoc. destruct (decide (i < length (front ++ [last]))%nat) as [Hlt|Hge].
  - now rewrite app_nth1.
  - rewrite app_nth2, (nth_overflow (front ++ [last])) by lia.
    destruct (nth_in_or_default (i - length (front ++ [last])) (replicate (15 - length front) 0) 0) as [Hin|E]; [|exact E].
    apply list_elem_of_In, elem_of_replicate in Hin. tauto.
Qed.

Lemma sequence_dispatch t p ps f :
  m_Initialized t = true -> m_State t = eNormal -> Forall numeral (p :: ps) -> (length ps <= 15)%nat ->
  0 <= f < 128 -> IsDigit f = false -> f <> 0x3b ->
  exists u, same_rest t u /\ params_are u (map value (p :: ps)) /\
    feed t ([0x1b; 0x5b] ++ join (p :: ps) ++ [f]) =
      let '(t', normal) := CsiFinal has_tty u f in
      Some (if normal then with_modes (with_state t' eNormal) false (m_CursorKeyMode t') else t').
Proof.
  intros Hi Hs Hnum Hlen Hf Hd Hsc. destruct (start_sequence t Hi Hs) as (t1 & E1 & Hc1 & Hr1).
  destruct (collect_params t1 [] p ps Hc1 Hnum Hlen) as (t2 & front & last & E2 & Hm & Hc2 & Hr2).
  cbn [app] in Hc2. rewrite Hm. pose proof (collecting_params _ _ _ Hc2) as Hp.
  eexists. split; [|split; [exact Hp|]].
  - transitivity t1; [exact Hr1|]. transitivity t2; [exact Hr2|]. repeat split.
  - rewrite !feed_app, E1. cbn [mbind option_bind]. rewrite feed_app, E2. cbn [mbind option_bind Terminal.feed].
    destruct Hc2 as (Hi2 & Hs2 & _). rewrite csi_PutCharImpl by (trivial; now right).
    unfold Terminal.OnCsi. rewrite Hd, decide_True by exact Hs2.
    destruct (Z.eqb_spec f 0x3b); [lia|]. destruct (CsiFinal has_tty _ f) as [t' []]; reflexivity.
Qed.

(** Sixteen parameters and one digit: the parser is one step from leaving its array. *)
Lemma sixteen_params t ps :
  m_Initialized t = true -> m_State t = eNormal -> Forall numeral ps -> length ps = 16%nat ->
  exists u, feed t ([0x1b; 0x5b] ++ join ps) = Some u /\ m_Initialized u = true /\
    m_State u = eControlSequenceParams /\ m_EscapeValueCount u = 15%nat /\ length (m_EscapeValues u) = 16%nat.
Proof.
  intros Hi Hs Hnum Hlen. destruct (start_sequence t Hi Hs) as (t1 & E1 & Hc1 & Hr1).
  destruct ps as [|p ps]; [discriminate|]. injection Hlen as Hlen.
  destruct (collect_params t1 [] p ps Hc1 Hnum ltac:(simpl; lia)) as (t2 & front & last & E2 & Hm & Hc2 & Hr2).
  exists t2. rewrite feed_app, E1. cbn [mbind option_bind]. split; [exact E2|].
  apply (f_equal length) in Hm. rewrite length_map, length_app in Hm. simpl in Hm.
  destruct Hc2 as (H1 & H2 & H3 & H4 & H5). cbn [app] in *. split_and!; trivial; [lia|].
  rewrite H4, length_app. simpl. rewrite length_replicate. lia.
Qed.

(** ** Theorems *)

(** A control sequence of one to sixteen decimal parameters is parsed exactly: the
    final character is dispatched with the parameters' values in order, and nothing
    else of the terminal has changed before the dispatch. *)
Theorem control_sequence_parsed t p ps f :
  m_Initialized t = true -> m_State t = eNormal -> Forall numeral (p :: ps) -> (length ps <= 15)%nat ->
  0 <= f < 128 -> IsDigit f = false -> f <> 0x3b ->
  exists u, same_rest t u /\ params_are u (map value (p :: ps)) /\
    feed t ([0x1b; 0x5b] ++ join (p :: ps) ++ [f]) =
      let '(t', normal) := CsiFinal has_tty u f in
      Some (if normal then with_modes (with_state t' eNormal) false (m_CursorKeyMode t') else t').
Proof. apply sequence_dispatch. Qed.

Definition clamp (n size : Z) : Z := Z.min (Z.max (n - 1) 0) (size - 1).

Lemma add_digit_range v c : 0 <= add_digit v c < 2 ^ 32.
Proof. apply (wrap_range 32). lia. Qed.

Lemma value_range p : 0 <= value p < 2 ^ 32.
Proof.
  unfold value. assert (Hall : forall v, 0 <= v < 2 ^ 32 -> 0 <= fold_left add_digit p v < 2 ^ 32); [|apply Hall; lia].
  induction p as [|c p IH]; intros v Hv; simpl; [lia|]. apply IH, add_digit_range.
Qed.

(** [ESC [ row ; column H] puts the cursor at that row and column, counted from one
    and clamped to the screen, and returns the parser to its normal state. *)
Theorem cursor_position_sequence t r c :
  m_Initialized t = true -> m_State t = eNormal -> numeral r -> numeral c ->
  0 < cols t < 2 ^ 16 -> 0 < rows t < 2 ^ 16 ->
  exists t', feed t ([0x1b; 0x5b] ++ r ++ [0x3b] ++ c ++ [0x48]) = Some t' /\
    pos t' = (clamp (value c) (cols t), clamp (value r) (rows t)) /\ m_State t' = eNormal.
Proof.
  intros Hi Hs Hr Hc Hcol Hrow.
  destruct (sequence_dispatch t r [c] 0x48 Hi Hs) as (u & Hsame & [Hn Hv] & E);
    [repeat constructor; apply Hr || apply Hc|simpl; lia|lia|reflexivity|lia|].
  replace (join [r; c]) with (r ++ [0x3b] ++ c) in E by (unfold join; simpl; now rewrite app_nil_r).
  rewrite <- !app_assoc in E. rewrite E. unfold CsiFinal. destruct (pos u) as [x y]. simpl.
  eexists. split; [reflexivity|]. split; [|reflexivity].
  destruct Hsame as (Hb & _). unfold CUP, escape_value. rewrite !Hv. simpl.
  pose proof (value_range r). pose proof (value_range c). unfold cols, rows in *. rewrite Hb.
  unfold pos. simpl. rewrite Hb. unfold clamp, u64.
  rewrite !(wrap_small 64) by (split; lia).
  set (x' := if ws_col (base t) <=? _ then _ else _). set (y' := if ws_row (base t) <=? _ then _ else _).
  assert (Hx : x' = Z.min (Z.max (value c - 1) 0) (ws_col (base t) - 1)).
  { unfold x'. destruct (Z.ltb_spec 0 (value c)); destruct (Z.leb_spec (ws_col (base t)) (value c - 1));
      try destruct (Z.leb_spec (ws_col (base t)) (value c)); lia. }
  assert (Hy : y' = Z.min (Z.max (value r - 1) 0) (ws_row (base t) - 1)).
  { unfold y'. destruct (Z.ltb_spec 0 (value r)); destruct (Z.leb_spec (ws_row (base t)) (value r - 1));
      try destruct (Z.leb_spec (ws_row (base t)) (value r)); lia. }
  rewrite Hx, Hy. apply cursor_set; lia.
Qed.

Definition printable (c : Z) : Prop := 0x20 <= c <= 0x7e.

Lemma feed_text t str :
  m_Initialized t = true -> m_State t = eNormal -> Forall printable str ->
  feed t str = Some (with_display t (fold_left (λ v c, RawPutChar (base t) c v) str (display t))).
Proof.
  intros Hi Hs Hp. revert t Hi Hs. induction Hp as [|c str Hc Hp IH]; intros t Hi Hs; [now destruct t|].
  cbn [Terminal.feed fold_left]. unfold Terminal.PutCharImpl. rewrite Hi, Hs. cbn [negb].
  rewrite !decide_False by intuition congruence. destruct (pos t) as [x y]. unfold printable in Hc.
  rewrite !(proj2 (Z.eqb_neq c _)) by lia. cbn [orb].
  destruct (Z.leb_spec 0x20 c); [|lia]. destruct (Z.leb_spec c 0x7e); [|lia]. cbn [andb mbind option_bind].
  rewrite IH by (simpl; trivial). reflexivity.
Qed.

(** The parser accepts a digit when its parameter array is full and then counts one
    parameter too many: the eighteenth parameter is written outside the array. *)
Theorem escape_parameters_overflow t ps c d :
  m_Initialized t = true -> m_State t = eNormal -> Forall numeral ps -> length ps = 16%nat ->
  digit c -> digit d ->
  feed t ([0x1b; 0x5b] ++ join ps ++ [0x3b; c; 0x3b; d]) = None.
Proof.
  intros Hi Hs Hnum Hlen Hc Hd. destruct (sixteen_params t ps Hi Hs Hnum Hlen) as (u & E & Hui & Hus & Hun & Hul).
  rewrite app_assoc, feed_app, E. cbn [mbind option_bind Terminal.feed]. unfold digit in *.
  rewrite csi_PutCharImpl by (trivial; first [now right|lia]). unfold Terminal.OnCsi at 1. cbn [IsDigit Z.leb].
  change (IsDigit 59) with false. cbn iota. rewrite decide_True by exact Hus. cbn [Z.eqb Pos.eqb].
  cbn [mbind option_bind]. set (u1 := with_state _ _).
  rewrite csi_PutCharImpl by (trivial; first [now left|lia]). unfold Terminal.OnCsi at 1.
  assert (Hdc : IsDigit c = true) by (unfold IsDigit; apply andb_true_iff; rewrite !Z.leb_le; lia).
  rewrite Hdc. change (m_EscapeValueCount (with_state u1 eControlSequenceParams)) with (S (m_EscapeValueCount u)).
  rewrite Hun. cbn [Nat.eqb MAX_ESC_PARAMETER_COUNT mbind option_bind].
  set (u2 := with_state u1 _).
  rewrite csi_PutCharImpl by (trivial; first [now right|lia]). unfold Terminal.OnCsi at 1.
  change (IsDigit 59) with false. cbn iota. rewrite decide_True by reflexivity. cbn [Z.eqb Pos.eqb].
  cbn [mbind option_bind]. set (u3 := with_state _ _).
  rewrite csi_PutCharImpl by (trivial; first [now left|lia]). unfold Terminal.OnCsi at 1.
  assert (Hdd : IsDigit d = true) by (unfold IsDigit; apply andb_true_iff; rewrite !Z.leb_le; lia).
  rewrite Hdd. change (m_EscapeValueCount (with_state u3 eControlSequenceParams)) with (S (S (m_EscapeValueCount u))).
  rewrite Hun. cbn [Nat.eqb MAX_ESC_PARAMETER_COUNT].
  change (m_EscapeValues (with_state u3 eControlSequenceParams)) with (m_EscapeValues u).
  now rewrite lookup_ge_None_2 by lia.
Qed.

(** Without a parameter the column of [ESC [ G] is 0, which wraps around when it is
    decremented: the cursor goes to the last column instead of the first. *)
Theorem CHA_default_last_column t :
  display_ok (base t) (display t) -> 0 < cols t < 2 ^ 16 -> 0 < rows t ->
  (pos (CHA t 0)).1 = cols t - 1.
Proof.
  intros Hok Hc Hr. unfold CHA, pos, goto. simpl. change (u64 (0 - 1)) with (2 ^ 64 - 1).
  unfold cols, rows in *. destruct (Z.leb_spec (ws_col (base t)) (2 ^ 64 - 1)); [|lia].
  unfold u64. rewrite wrap_small by (split; lia). rewrite cursor_set; [reflexivity|lia|].
  apply (cursor_in (base t) (display t)); trivial; lia.
Qed.
End Parsing.
