(* ===== verification/VideoTerminal.v ===== *)
(** * The framebuffer console

    [Library/Color.hpp] and [Drivers/Video/VideoTerminal.cpp]: the grid of characters,
    the queue of pending updates with the map from cells to queue items, scrolling,
    the cursor, and [Flush], which draws what changed.  Drawing a glyph ([PlotChar])
    is modelled per cell: [shown] is the character last drawn in each cell, not the
    pixels.  A [QueueItem*] is an index into the queue. *)

From Stdlib Require Import ZArith Lia Bool.
From stdpp Require Import base gmap list numbers.
From S2P Require Import Prelude Terminal.

(** ** Colours *)
Record Color := mkColor { m_Red : Z; m_Green : Z; m_Blue : Z; m_Alpha : Z }.
#[export] Instance Color_eq_dec : EqDecision Color.
Proof. solve_decision. Defined.

Definition RED_BITS_MASK : Z := 0x00ff0000.
Definition GREEN_BITS_MASK : Z := 0x0000ff00.
Definition BLUE_BITS_MASK : Z := 0x000000ff.
Definition ALPHA_BITS_MASK : Z := 0xff000000.
Definition RED_BITS_SHIFT : Z := 16.
Definition GREEN_BITS_SHIFT : Z := 8.
Definition BLUE_BITS_SHIFT : Z := 0.
Definition ALPHA_BITS_SHIFT : Z := 24.

Definition Color_rgba (rgba : Z) : Color :=
  mkColor (u8 ((rgba .& RED_BITS_MASK) .>> RED_BITS_SHIFT))
          (u8 ((rgba .& GREEN_BITS_MASK) .>> GREEN_BITS_SHIFT))
          (u8 ((rgba .& BLUE_BITS_MASK) .>> BLUE_BITS_SHIFT))
          (u8 ((rgba .& ALPHA_BITS_MASK) .>> ALPHA_BITS_SHIFT)).
Definition Color_components (r g b a : Z) : Color := mkColor (u8 r) (u8 g) (u8 b) (u8 a).
Definition RGB (c : Color) : Z :=
  u32 (((m_Red c .<< RED_BITS_SHIFT) .| (m_Green c .<< GREEN_BITS_SHIFT)) .| (m_Blue c .<< BLUE_BITS_SHIFT)).
Definition RGBA (c : Color) : Z := u32 (RGB c .| (m_Alpha c .<< ALPHA_BITS_SHIFT)).

Definition Blend (this foreground : Color) : Color :=
  let alpha := u32 (255 - (m_Alpha foreground .<< ALPHA_BITS_SHIFT)) in
  let inverseAlpha := u32 (m_Alpha foreground + 1) in
  let mix f t := u8 (u32 (u32 (alpha * f) + u32 (inverseAlpha * t)) / 256) in
  Color_components (mix (m_Red foreground) (m_Red this)) (mix (m_Green foreground) (m_Green this))
    (mix (m_Blue foreground) (m_Blue this)) 0.

(** The palette, indexed by the value of [AnsiColor]. *)
Definition s_AnsiColors : list Color :=
  map Color_rgba
    [0xa0000000; 0xa0aa0000; 0xa000aa00; 0xa0aa5500; 0xa00000aa; 0xa0aa00aa; 0xa000aaaa; 0xa0aaaaaa;
     0x00555555; 0x00ff5555; 0xa0555555; 0xa0ff5555; 0xa055ff55; 0xa0ffff55; 0xa05555ff; 0xa0ff55ff;
     0xa055ffff; 0xa0ffffff].
Definition DEFAULT_TEXT_FOREGROUND : Color := Color_rgba 0x00aaaaaa.
Definition DEFAULT_TEXT_BACKGROUND : Color := Color_rgba 0xffffffff.
Definition DEFAULT_TEXT_FOREGROUND_BRIGHT : Color := Color_rgba 0xa0555555.
Definition DEFAULT_TEXT_BACKGROUND_BRIGHT : Color := Color_rgba 0x00aaaaaa.
Definition eDefaultBright : Z := 0x13.

(** [magic_enum::enum_contains]: the enumerators of [AnsiColor]. *)
Definition enum_contains (color : Z) : bool :=
  ((0 <=? color) && (color <=? 7)) || (color =? 9) || ((10 <=? color) && (color <=? 17)) || (color =? 19).

(** ** State *)
Record Character := mkChar { CodePoint : Z; Foreground : Color; Background : Color }.
#[export] Instance Character_eq_dec : EqDecision Character.
Proof. solve_decision. Defined.
Record QueueItem := mkItem { X : Z; Y : Z; item_Character : Character }.

Record ConsoleState := mkConsole {
  CursorX : Z;
  CursorY : Z;
  TextForeground : Color;
  TextBackground : Color
}.

Record VideoTerminal := mkVideo {
  m_Grid : list Character;
  m_Map : list (option nat);
  m_Queue : list QueueItem;
  m_CurrentState : ConsoleState;
  m_SavedState : ConsoleState;
  m_OldCursorX : Z;
  m_OldCursorY : Z;
  shown : list Character
}.

Definition with_cells (v : VideoTerminal) (grid : list Character) (map : list (option nat))
    (queue : list QueueItem) (screen : list Character) : VideoTerminal :=
  mkVideo grid map queue (m_CurrentState v) (m_SavedState v) (m_OldCursorX v) (m_OldCursorY v) screen.
Definition with_console (v : VideoTerminal) (s : ConsoleState) : VideoTerminal :=
  mkVideo (m_Grid v) (m_Map v) (m_Queue v) s (m_SavedState v) (m_OldCursorX v) (m_OldCursorY v) (shown v).
Definition with_cursor (v : VideoTerminal) (x y : Z) : VideoTerminal :=
  with_console v (mkConsole x y (TextForeground (m_CurrentState v)) (TextBackground (m_CurrentState v))).

Section Video.
Variable b : Base.

Definition VerifyBounds (x y : Z) : bool := (x <? ws_col b) && (y <? ws_row b).
Definition offset (x y : Z) : nat := Z.to_nat (y * ws_col b + x).
Definition blank (v : VideoTerminal) : Character :=
  mkChar 0x20 (TextForeground (m_CurrentState v)) (TextBackground (m_CurrentState v)).

(** ** The update queue *)
Definition EnqueueChar (c : Character) (x y : Z) (v : VideoTerminal) : VideoTerminal :=
  if (ws_col b <=? x) || (ws_row b <=? y) then v
  else
    let i := offset x y in
    match m_Map v !! i with
    | Some (Some q) =>
        with_cells v (m_Grid v) (m_Map v)
          (alter (λ item, mkItem (X item) (Y item) c) q (m_Queue v)) (shown v)
    | _ =>
        if bool_decide (m_Grid v !! i = Some c) then v
        else
          let q := length (m_Queue v) in
          with_cells v (m_Grid v) (<[i := Some q]> (m_Map v)) (m_Queue v ++ [mkItem x y c]) (shown v)
    end.

(** The pending character of a cell if it has one, else the one on the grid. *)
Definition cell (v : VideoTerminal) (i : nat) : option Character :=
  match m_Map v !! i with
  | Some (Some q) => item_Character <$> m_Queue v !! q
  | _ => m_Grid v !! i
  end.
(** Copy cell [i] to position [(x, y)]. *)
Definition copy_cell (v : VideoTerminal) (i : Z) (x y : Z) : VideoTerminal :=
  match cell v (Z.to_nat i) with
  | Some c => EnqueueChar c x y v
  | None => v
  end.

Definition video_MoveCharacter (newX newY oldX oldY : Z) (v : VideoTerminal) : VideoTerminal :=
  if (ws_col b <=? oldX) || (ws_row b <=? oldY) || (ws_col b <=? newX) || (ws_row b <=? newY) then v
  else copy_cell v (oldX + oldY * ws_col b) newX newY.

Definition fill_row (c : Character) (y : Z) (v : VideoTerminal) : VideoTerminal :=
  fold_left (λ v i, EnqueueChar c i y v) (seqZ 0 (ws_col b)) v.

Definition video_Clear (move : bool) (v : VideoTerminal) : VideoTerminal :=
  let empty := blank v in
  let v := fold_left (λ v i, EnqueueChar empty (i mod ws_col b) (i / ws_col b) v)
             (seqZ 0 (ws_row b * ws_col b)) v in
  if move then with_cursor v 0 0 else v.

Definition video_ScrollDown (v : VideoTerminal) : VideoTerminal :=
  let first := (m_ScrollTopMargin b + 1) * ws_col b in
  let last := m_ScrollBottomMargin b * ws_col b in
  let v := fold_left (λ v i, copy_cell v i ((i - ws_col b) mod ws_col b) ((i - ws_col b) / ws_col b))
             (seqZ first (last - first)) v in
  fill_row (blank v) (m_ScrollBottomMargin b - 1) v.

Definition video_ScrollUp (v : VideoTerminal) : VideoTerminal :=
  let first := m_ScrollTopMargin b * ws_col b in
  let last := (m_ScrollBottomMargin b - 1) * ws_col b in
  let v := fold_left (λ v i, copy_cell v i ((i + ws_col b) mod ws_col b) ((i + ws_col b) / ws_col b))
             (reverse (seqZ first (last - first))) v in
  fill_row (blank v) (m_ScrollTopMargin b) v.

Definition Scroll (count : Z) (v : VideoTerminal) : VideoTerminal :=
  if count <? 0 then Nat.iter (Z.to_nat (- count)) video_ScrollUp v
  else Nat.iter (Z.to_nat count) video_ScrollDown v.

Definition video_RawPutChar (c : Z) (v : VideoTerminal) : VideoTerminal :=
  let v :=
    if ws_col b <=? CursorX (m_CurrentState v) then
      let v := with_cursor v 0 (u64 (CursorY (m_CurrentState v) + 1)) in
      let v :=
        if CursorY (m_CurrentState v) =? m_ScrollBottomMargin b
        then video_ScrollDown (with_cursor v 0 (u64 (CursorY (m_CurrentState v) - 1))) else v in
      if ws_col b <=? CursorY (m_CurrentState v) then with_cursor v 0 (ws_col b - 1) else v
    else v in
  let s := m_CurrentState v in
  let ch := mkChar c (TextForeground s) (TextBackground s) in
  EnqueueChar ch (CursorX s) (CursorY s) (with_cursor v (u64 (CursorX s + 1)) (CursorY s)).

(** ** Drawing *)
Definition PlotChar (c : Character) (x y : Z) (v : VideoTerminal) : VideoTerminal :=
  if negb (VerifyBounds x y) then v
  else with_cells v (m_Grid v) (m_Map v) (m_Queue v) (<[offset x y := c]> (shown v)).

Definition swap_colors (c : Character) : Character := mkChar (CodePoint c) (Background c) (Foreground c).

Definition DrawCursor (v : VideoTerminal) : VideoTerminal :=
  let s := m_CurrentState v in
  if negb (VerifyBounds (CursorX s) (CursorY s)) then v
  else
    let i := offset (CursorX s) (CursorY s) in
    match cell v i with
    | None => v
    | Some c =>
        let v := PlotChar (swap_colors c) (CursorX s) (CursorY s) v in
        match m_Map v !! i with
        | Some (Some _) => with_cells v (<[i := c]> (m_Grid v)) (<[i := None]> (m_Map v)) (m_Queue v) (shown v)
        | _ => v
        end
    end.

(** The loop of [Flush]: items leave the queue from the back. *)
Definition flush_item (v : VideoTerminal) (q : QueueItem) : VideoTerminal :=
  let i := offset (X q) (Y q) in
  match m_Map v !! i with
  | Some (Some _) =>
      let v := PlotChar (item_Character q) (X q) (Y q) v in
      with_cells v (<[i := item_Character q]> (m_Grid v)) (<[i := None]> (m_Map v)) (m_Queue v) (shown v)
  | _ => v
  end.
Definition flush_queue (v : VideoTerminal) : VideoTerminal :=
  let items := reverse (m_Queue v) in
  fold_left flush_item items (with_cells v (m_Grid v) (m_Map v) [] (shown v)).

Definition video_Flush (v : VideoTerminal) : VideoTerminal :=
  let v := flush_queue (DrawCursor v) in
  let s := m_CurrentState v in
  let v :=
    if negb (m_OldCursorX v =? CursorX s) || negb (m_OldCursorY v =? CursorY s) then
      if (m_OldCursorX v <? ws_col b) && (m_OldCursorY v <? ws_row b) then
        match m_Grid v !! offset (m_OldCursorX v) (m_OldCursorY v) with
        | Some c => PlotChar c (m_OldCursorX v) (m_OldCursorY v) v
        | None => v
        end
      else v
    else v in
  mkVideo (m_Grid v) (m_Map v) (m_Queue v) s (m_SavedState v) (CursorX s) (CursorY s) (shown v).

(** ** Cursor and colours *)
Definition video_GetCursorPos (v : VideoTerminal) : Z * Z :=
  let s := m_CurrentState v in
  (if ws_col b <=? CursorX s then ws_col b - 1 else CursorX s,
   if ws_row b <=? CursorY s then ws_row b - 1 else CursorY s).

Definition video_SetCursorPos (xpos ypos : Z) (v : VideoTerminal) : VideoTerminal :=
  let xpos := if ws_col b <=? xpos then (if i32 xpos <? 0 then 0 else ws_col b - 1) else xpos in
  let ypos := if ws_row b <=? ypos then (if i32 ypos <? 0 then 0 else ws_row b - 1) else ypos in
  with_cursor v xpos ypos.
End Video.

Definition video_SaveState (v : VideoTerminal) : VideoTerminal :=
  mkVideo (m_Grid v) (m_Map v) (m_Queue v) (m_CurrentState v) (m_CurrentState v)
    (m_OldCursorX v) (m_OldCursorY v) (shown v).
Definition video_RestoreState (v : VideoTerminal) : VideoTerminal := with_console v (m_SavedState v).
Definition SwapPalette (v : VideoTerminal) : VideoTerminal :=
  let s := m_CurrentState v in
  with_console v (mkConsole (CursorX s) (CursorY s) (TextBackground s) (TextForeground s)).

Definition video_SetTextForegroundRgb (rgb : Color) (v : VideoTerminal) : VideoTerminal :=
  let s := m_CurrentState v in with_console v (mkConsole (CursorX s) (CursorY s) rgb (TextBackground s)).
Definition video_SetTextBackgroundRgb (rgb : Color) (v : VideoTerminal) : VideoTerminal :=
  let s := m_CurrentState v in with_console v (mkConsole (CursorX s) (CursorY s) (TextForeground s) rgb).

Definition video_SetTextForeground (color : Z) (v : VideoTerminal) : VideoTerminal :=
  if color =? eDefault then video_SetTextForegroundRgb DEFAULT_TEXT_FOREGROUND v
  else if color =? eDefaultBright then video_SetTextForegroundRgb DEFAULT_TEXT_FOREGROUND_BRIGHT v
  else if negb (enum_contains color) then v
  else match s_AnsiColors !! Z.to_nat color with
       | Some rgb => video_SetTextForegroundRgb rgb v
       | None => v
       end.
Definition video_SetTextBackground (color : Z) (v : VideoTerminal) : VideoTerminal :=
  if color =? eDefault then video_SetTextBackgroundRgb DEFAULT_TEXT_BACKGROUND v
  else if color =? eDefaultBright then video_SetTextBackgroundRgb DEFAULT_TEXT_BACKGROUND_BRIGHT v
  else if negb (enum_contains color) then v
  else match s_AnsiColors !! Z.to_nat color with
       | Some rgb => video_SetTextBackgroundRgb rgb v
       | None => v
       end.
