(* ===== verification/VideoTerminalProofs.v ===== *)
(** * The framebuffer console: the update queue is invisible

    The abstract state of the console is the character of each cell.  Queueing,
    scrolling and clearing are shown to be the expected updates of that picture,
    whatever is pending; [Flush] draws it; the queue never outgrows the space
    reserved for it, so pointers into it stay valid. *)

From Stdlib Require Import ZArith Lia Bool.
From stdpp Require Import base gmap list numbers.
From S2P Require Import Prelude Terminal VideoTerminal.

Section Proofs.
Variable b : Base.
Hypothesis Hcol : 0 < ws_col b.
Hypothesis Hrow : 0 < ws_row b.
Implicit Types (v : VideoTerminal) (c : Character).
Notation EnqueueChar := (EnqueueChar b).
Notation offset := (offset b).

Definition cells : Z := ws_row b * ws_col b.
Definition ncells : nat := Z.to_nat cells.

(** The picture: the character of each cell. *)
Definition at_ v (i : Z) : option Character := cell v (Z.to_nat i).

Record video_ok v : Prop := {
  ok_grid : length (m_Grid v) = ncells;
  ok_map : length (m_Map v) = ncells;
  ok_shown : length (shown v) = ncells;
  ok_pending i q : m_Map v !! i = Some (Some q) ->
    exists it, m_Queue v !! q = Some it /\ offset (X it) (Y it) = i;
  ok_queue q it : m_Queue v !! q = Some it ->
    0 <= X it < ws_col b /\ 0 <= Y it < ws_row b /\ m_Map v !! offset (X it) (Y it) = Some (Some q)
}.

Lemma offset_lt x y : 0 <= x < ws_col b -> 0 <= y < ws_row b -> (offset x y < ncells)%nat.
Proof. intros Hx Hy. unfold VideoTerminal.offset, ncells, cells. nia. Qed.

Lemma offset_coords i : 0 <= i < cells ->
  offset (i mod ws_col b) (i / ws_col b) = Z.to_nat i /\
  0 <= i mod ws_col b < ws_col b /\ 0 <= i / ws_col b < ws_row b.
Proof.
  intros Hi. unfold VideoTerminal.offset, cells in *.
  pose proof (Z.div_mod i (ws_col b) ltac:(lia)). pose proof (Z.mod_pos_bound i (ws_col b) Hcol).
  assert (0 <= i / ws_col b) by (apply Z.div_pos; lia). split; [f_equal; lia|]. nia.
Qed.

(** The queue holds at most one item per cell. *)
Lemma queue_bounded v : video_ok v -> (length (m_Queue v) <= ncells)%nat.
Proof.
  intros Hok. rewrite <- (length_fmap (λ it, offset (X it) (Y it)) (m_Queue v)).
  replace ncells with (length (seq 0 ncells)) by apply length_seq. apply submseteq_length, NoDup_submseteq.
  - apply NoDup_alt. intros q1 q2 o Hq1 Hq2. rewrite list_lookup_fmap in Hq1, Hq2.
    destruct (m_Queue v !! q1) as [i1|] eqn:E1; [|discriminate]. destruct (m_Queue v !! q2) as [i2|] eqn:E2; [|discriminate].
    simpl in *. apply (ok_queue _ Hok) in E1 as (_ & _ & H1), E2 as (_ & _ & H2). congruence.
  - intros o Ho. apply list_elem_of_fmap in Ho as (it & -> & Hit). apply list_elem_of_lookup in Hit as [q Hq].
    apply (ok_queue _ Hok) in Hq as (Hx & Hy & _). apply elem_of_seq. pose proof (offset_lt _ _ Hx Hy). lia.
Qed.

(** Everything but the pending updates is as in [v]. *)
Definition same_console v v' : Prop :=
  m_CurrentState v' = m_CurrentState v /\ m_SavedState v' = m_SavedState v /\ shown v' = shown v /\
  m_Grid v' = m_Grid v /\ m_OldCursorX v' = m_OldCursorX v /\ m_OldCursorY v' = m_OldCursorY v.
#[local] Instance same_console_refl : Reflexive same_console.
Proof. intros v. repeat split. Qed.
#[local] Instance same_console_trans : Transitive same_console.
Proof. intros v1 v2 v3 (?&?&?&?&?&?) (?&?&?&?&?&?). repeat split; congruence. Qed.

Lemma EnqueueChar_spec c x y v :
  video_ok v -> 0 <= x < ws_col b -> 0 <= y < ws_row b ->
  video_ok (EnqueueChar c x y v) /\ same_console v (EnqueueChar c x y v) /\
  forall j, cell (EnqueueChar c x y v) j = if decide (j = offset x y) then Some c else cell v j.
Proof.
  intros Hok Hx Hy. unfold VideoTerminal.EnqueueChar.
  destruct (Z.leb_spec (ws_col b) x); [lia|]. destruct (Z.leb_spec (ws_row b) y); [lia|]. simpl.
  pose proof (offset_lt x y Hx Hy) as Hlt. set (i := offset x y) in *.
  destruct (lookup_lt_is_Some_2 (m_Map v) i) as [o Ho]; [rewrite (ok_map _ Hok); exact Hlt|]. rewrite Ho.
  destruct o as [q|].
  - destruct (ok_pending _ Hok _ _ Ho) as (it & Hit & Hoff).
    split; [|split; [repeat split|]].
    + constructor; simpl; try apply Hok.
      * intros j q' Hj. destruct (ok_pending _ Hok _ _ Hj) as (it' & Hit' & Hoff').
        destruct (decide (q' = q)) as [->|Hne].
        -- rewrite list_lookup_alter_eq, Hit'. eexists. split; [reflexivity|exact Hoff'].
        -- rewrite list_lookup_alter_ne by congruence. eauto.
      * intros q' it' Hq'. destruct (decide (q' = q)) as [->|Hne].
        -- rewrite list_lookup_alter_eq, Hit in Hq'. injection Hq' as <-. simpl. now apply (ok_queue _ Hok).
        -- rewrite list_lookup_alter_ne in Hq' by congruence. now apply (ok_queue _ Hok).
    + intros j. unfold cell. simpl. case_decide as Hj.
      * subst j. rewrite Ho, list_lookup_alter_eq, Hit. reflexivity.
      * destruct (m_Map v !! j) as [[q'|]|] eqn:Hj'; [|reflexivity..].
        rewrite list_lookup_alter_ne; [reflexivity|]. intros ->.
        destruct (ok_pending _ Hok _ _ Hj') as (it' & Hit' & Hoff'). congruence.
  - case_bool_decide as Hg.
    { split; [exact Hok|]. split; [reflexivity|]. intros j. case_decide as Hj; [|reflexivity].
      subst j. unfold cell. now rewrite Ho. }
    split; [|split; [repeat split|]].
    + constructor; simpl; try apply Hok.
      * rewrite length_insert. apply Hok.
      * intros j q. destruct (decide (j = i)) as [->|Hne].
        -- rewrite list_lookup_insert_eq by (rewrite (ok_map _ Hok); exact Hlt). intros [= <-].
           exists (mkItem x y c). split; [now apply list_lookup_middle|reflexivity].
        -- rewrite list_lookup_insert_ne by congruence. intros Hj.
           destruct (ok_pending _ Hok _ _ Hj) as (it & Hit & Hoff). exists it. split; [|exact Hoff].
           now apply lookup_app_l_Some.
      * intros q it Hq. apply lookup_app_Some in Hq as [Hq|[Hge Hq]].
        -- destruct (ok_queue _ Hok _ _ Hq) as (H1 & H2 & H3). split_and!; try lia.
           rewrite list_lookup_insert_ne; [exact H3|]. intros E. rewrite <- E in H3. congruence.
        -- apply list_lookup_singleton_Some in Hq as [Hq <-]. simpl. split_and!; try lia.
           rewrite list_lookup_insert_eq by (rewrite (ok_map _ Hok); exact Hlt). do 2 f_equal. lia.
    + intros j. unfold cell. simpl. case_decide as Hj.
      * subst j. rewrite list_lookup_insert_eq by (rewrite (ok_map _ Hok); exact Hlt).
        now rewrite list_lookup_middle.
      * rewrite list_lookup_insert_ne by congruence.
        destruct (m_Map v !! j) as [[q'|]|] eqn:Hj'; [|reflexivity..].
        destruct (ok_pending _ Hok _ _ Hj') as (it' & Hit' & _).
        now rewrite Hit', (lookup_app_l_Some _ _ _ _ Hit').
Qed.

Lemma cell_some v i : video_ok v -> 0 <= i < cells -> exists c, at_ v i = Some c.
Proof.
  intros Hok Hi. unfold at_, cell. assert (Hlt : (Z.to_nat i < ncells)%nat) by (unfold ncells; lia).
  destruct (m_Map v !! Z.to_nat i) as [[q|]|] eqn:E.
  - destruct (ok_pending _ Hok _ _ E) as (it & -> & _). eauto.
  - apply lookup_lt_is_Some_2. rewrite (ok_grid _ Hok). exact Hlt.
  - apply lookup_lt_is_Some_2. rewrite (ok_grid _ Hok). exact Hlt.
Qed.

(** Writing and copying by cell number. *)
Lemma write_spec c i v :
  video_ok v -> 0 <= i < cells ->
  let v' := EnqueueChar c (i mod ws_col b) (i / ws_col b) v in
  video_ok v' /\ same_console v v' /\
  forall j, 0 <= j -> at_ v' j = if decide (j = i) then Some c else at_ v j.
Proof.
  intros Hok Hi v'. destruct (offset_coords i Hi) as (Ho & Hx & Hy).
  destruct (EnqueueChar_spec c _ _ v Hok Hx Hy) as (H1 & H2 & H3). split_and!; try apply H2; [exact H1|].
  intros j Hj. unfold at_. unfold v'. rewrite H3, Ho. repeat case_decide; trivial; lia.
Qed.

Lemma copy_spec i k v :
  video_ok v -> 0 <= i < cells -> 0 <= k < cells ->
  let v' := copy_cell b v i (k mod ws_col b) (k / ws_col b) in
  video_ok v' /\ same_console v v' /\
  forall j, 0 <= j -> at_ v' j = if decide (j = k) then at_ v i else at_ v j.
Proof.
  intros Hok Hi Hk v'. destruct (cell_some v i Hok Hi) as [c Hc]. unfold v', copy_cell.
  unfold at_ in Hc. rewrite Hc. destruct (write_spec c k v Hok Hk) as (H1 & H2 & H3).
  split; [exact H1|]. split; [exact H2|]. intros j Hj. rewrite H3 by exact Hj. unfold at_ at 2. now rewrite Hc.
Qed.

(** ** Loops over cells *)
Lemma seqZ_snoc (m : Z) (n : nat) : seqZ m (Z.of_nat (S n)) = seqZ m (Z.of_nat n) ++ [m + Z.of_nat n].
Proof. unfold seqZ. rewrite !Nat2Z.id, seq_S, fmap_app. cbn [fmap list_fmap]. f_equal. f_equal. lia. Qed.

(** Writing a run of cells. *)
Lemma fill_spec c (f : VideoTerminal -> Z -> VideoTerminal) first (n : nat) v :
  (forall v i, video_ok v -> first <= i < first + Z.of_nat n ->
     let v' := f v i in video_ok v' /\ same_console v v' /\
     forall j, 0 <= j -> at_ v' j = if decide (j = i) then Some c else at_ v j) ->
  video_ok v ->
  let r := fold_left f (seqZ first (Z.of_nat n)) v in
  video_ok r /\ same_console v r /\
  forall j, 0 <= j -> at_ r j = if decide (first <= j < first + Z.of_nat n) then Some c else at_ v j.
Proof.
  intros Hf Hok. revert Hf. induction n as [|n IH]; intros Hf r.
  { subst r. split_and!; try reflexivity; [exact Hok|]. intros j Hj. case_decide; [lia|reflexivity]. }
  subst r. rewrite seqZ_snoc, fold_left_app. cbn [fold_left].
  destruct IH as (H1 & H2 & H3); [intros v' i Hv' Hi; apply Hf; [exact Hv'|lia]|].
  destruct (Hf _ (first + Z.of_nat n) H1 ltac:(lia)) as (H4 & H5 & H6).
  split; [exact H4|]. split; [etransitivity; [exact H2|exact H5]|]. intros j Hj. rewrite H6, H3 by lia.
  repeat case_decide; trivial; lia.
Qed.

Lemma fill_row_spec c y v :
  video_ok v -> 0 <= y < ws_row b ->
  let r := fill_row b c y v in
  video_ok r /\ same_console v r /\
  forall j, 0 <= j -> at_ r j = if decide (y * ws_col b <= j < (y + 1) * ws_col b) then Some c else at_ v j.
Proof.
  intros Hok Hy r. unfold r, fill_row.
  assert (Hshift : seqZ (y * ws_col b) (ws_col b) = (λ i, y * ws_col b + i) <$> seqZ 0 (ws_col b)).
  { unfold seqZ. rewrite <- list_fmap_compose. apply list_fmap_ext. intros i x _. simpl. lia. }
  assert (Hfold : forall l w, (forall i, i ∈ l -> 0 <= i < ws_col b) ->
    fold_left (λ v i, EnqueueChar c i y v) l w =
    fold_left (λ v i, EnqueueChar c (i mod ws_col b) (i / ws_col b) v) ((λ i, y * ws_col b + i) <$> l) w).
  { induction l as [|i l IH]; intros w Hl; [reflexivity|]. cbn [fold_left fmap list_fmap].
    specialize (Hl i ltac:(set_solver)) as Hi. rewrite IH by set_solver.
    rewrite (Z.add_comm (y * ws_col b)), Z_mod_plus_full, Z.mod_small, Z.div_add, (Z.div_small i) by lia. reflexivity. }
  rewrite Hfold by (intros i Hi; apply elem_of_seqZ in Hi; lia). rewrite <- Hshift.
  pose proof (fill_spec c (λ v i, EnqueueChar c (i mod ws_col b) (i / ws_col b) v) (y * ws_col b)
    (Z.to_nat (ws_col b)) v) as Hfill. rewrite Z2Nat.id in Hfill by lia.
  destruct Hfill as (H1 & H2 & H3); [|exact Hok|].
  - intros w i Hw Hi. apply write_spec; [exact Hw|]. unfold cells. nia.
  - split; [exact H1|]. split; [exact H2|]. intros j Hj. rewrite H3 by exact Hj. repeat case_decide; trivial; lia.
Qed.

(** Shifting a run of cells down by one row, towards lower numbers. *)
Lemma shift_down_spec first (n : nat) v :
  video_ok v -> ws_col b <= first -> first + Z.of_nat n <= cells ->
  let r := fold_left (λ v i, copy_cell b v i ((i - ws_col b) mod ws_col b) ((i - ws_col b) / ws_col b))
             (seqZ first (Z.of_nat n)) v in
  video_ok r /\ same_console v r /\
  forall j, 0 <= j -> at_ r j =
    if decide (first - ws_col b <= j < first - ws_col b + Z.of_nat n) then at_ v (j + ws_col b) else at_ v j.
Proof.
  intros Hok Hf. induction n as [|n IH]; intros Hn r.
  { subst r. split_and!; try reflexivity; [exact Hok|]. intros j Hj. case_decide; [lia|reflexivity]. }
  subst r. rewrite seqZ_snoc, fold_left_app. cbn [fold_left].
  destruct IH as (H1 & H2 & H3); [lia|]. set (r0 := fold_left _ _ v) in *.
  destruct (copy_spec (first + Z.of_nat n) (first + Z.of_nat n - ws_col b) r0 H1 ltac:(lia) ltac:(lia)) as (H4 & H5 & H6).
  split; [exact H4|]. split; [etransitivity; [exact H2|exact H5]|]. intros j Hj. rewrite H6 by lia.
  case_decide as Hd.
  - rewrite H3 by lia. rewrite decide_False by lia. rewrite decide_True by lia. f_equal. lia.
  - rewrite H3 by lia. repeat case_decide; trivial; lia.
Qed.

(** Shifting a run of cells up by one row, from the end. *)
Lemma shift_up_spec first (n : nat) v :
  video_ok v -> 0 <= first -> first + Z.of_nat n + ws_col b <= cells ->
  let r := fold_left (λ v i, copy_cell b v i ((i + ws_col b) mod ws_col b) ((i + ws_col b) / ws_col b))
             (reverse (seqZ first (Z.of_nat n))) v in
  video_ok r /\ same_console v r /\
  forall j, 0 <= j -> at_ r j =
    if decide (first + ws_col b <= j < first + ws_col b + Z.of_nat n) then at_ v (j - ws_col b) else at_ v j.
Proof.
  intros Hok Hf. revert v Hok. induction n as [|n IH]; intros v Hok Hn r.
  { subst r. split_and!; try reflexivity; [exact Hok|]. intros j Hj. case_decide; [lia|reflexivity]. }
  subst r. rewrite seqZ_snoc, reverse_app. cbn [reverse rev_append app fold_left].
  destruct (copy_spec (first + Z.of_nat n) (first + Z.of_nat n + ws_col b) v Hok ltac:(lia) ltac:(lia)) as (H4 & H5 & H6).
  set (v1 := copy_cell b v _ _ _) in *.
  destruct (IH v1 H4 ltac:(lia)) as (H1 & H2 & H3). split; [exact H1|]. split; [etransitivity; [exact H5|exact H2]|].
  intros j Hj. rewrite H3 by lia. repeat case_decide; try lia.
  - rewrite H6 by lia. now rewrite decide_False by lia.
  - rewrite H6 by lia. rewrite decide_True by lia. f_equal. lia.
  - rewrite H6 by lia. now rewrite decide_False by lia.
Qed.

(** ** Scrolling and clearing *)
Definition margins_ok : Prop := 0 <= m_ScrollTopMargin b < m_ScrollBottomMargin b /\ m_ScrollBottomMargin b <= ws_row b.

Lemma blank_same v v' : same_console v v' -> blank v' = blank v.
Proof. intros (H1 & _). unfold blank. now rewrite H1. Qed.

Lemma ScrollDown_spec v :
  video_ok v -> margins_ok ->
  let r := video_ScrollDown b v in
  let top := m_ScrollTopMargin b in let bottom := m_ScrollBottomMargin b in
  video_ok r /\ same_console v r /\
  forall j, 0 <= j -> at_ r j =
    if decide (top * ws_col b <= j < (bottom - 1) * ws_col b) then at_ v (j + ws_col b)
    else if decide ((bottom - 1) * ws_col b <= j < bottom * ws_col b) then Some (blank v) else at_ v j.
Proof.
  intros Hok [Ht Hb] r top bottom. unfold r, video_ScrollDown. fold top bottom.
  pose proof (shift_down_spec ((top + 1) * ws_col b) (Z.to_nat (bottom * ws_col b - (top + 1) * ws_col b)) v Hok) as Hs.
  rewrite Z2Nat.id in Hs by (unfold top, bottom; nia).
  destruct Hs as (H1 & H2 & H3); [unfold top; nia|unfold cells, bottom; nia|].
  set (v1 := fold_left _ _ v) in *.
  destruct (fill_row_spec (blank v1) (bottom - 1) v1 H1) as (H4 & H5 & H6); [unfold bottom; lia|].
  split; [exact H4|]. split; [etransitivity; [exact H2|exact H5]|]. intros j Hj. rewrite H6, H3 by exact Hj.
  rewrite (blank_same v v1 H2). repeat case_decide; trivial; lia.
Qed.

Lemma ScrollUp_spec v :
  video_ok v -> margins_ok ->
  let r := video_ScrollUp b v in
  let top := m_ScrollTopMargin b in let bottom := m_ScrollBottomMargin b in
  video_ok r /\ same_console v r /\
  forall j, 0 <= j -> at_ r j =
    if decide ((top + 1) * ws_col b <= j < bottom * ws_col b) then at_ v (j - ws_col b)
    else if decide (top * ws_col b <= j < (top + 1) * ws_col b) then Some (blank v) else at_ v j.
Proof.
  intros Hok [Ht Hb] r top bottom. unfold r, video_ScrollUp. fold top bottom.
  pose proof (shift_up_spec (top * ws_col b) (Z.to_nat ((bottom - 1) * ws_col b - top * ws_col b)) v Hok) as Hs.
  rewrite Z2Nat.id in Hs by (unfold top, bottom; nia).
  destruct Hs as (H1 & H2 & H3); [unfold top; nia|unfold cells, bottom; nia|].
  set (v1 := fold_left _ _ v) in *.
  destruct (fill_row_spec (blank v1) top v1 H1) as (H4 & H5 & H6); [unfold top; lia|].
  split; [exact H4|]. split; [etransitivity; [exact H2|exact H5]|]. intros j Hj. rewrite H6, H3 by exact Hj.
  rewrite (blank_same v v1 H2). repeat case_decide; trivial; lia.
Qed.

(** ** Drawing *)
(** The screen shows the grid, except for the cursor drawn by the last flush. *)
Definition cursor_cell (x y : Z) : option nat := if VerifyBounds b x y then Some (offset x y) else None.
Definition drawn v : Prop :=
  forall i, (i < ncells)%nat -> shown v !! i =
    if decide (cursor_cell (m_OldCursorX v) (m_OldCursorY v) = Some i)
    then swap_colors <$> m_Grid v !! i else m_Grid v !! i.

Definition cursor_ok v : Prop :=
  0 <= CursorX (m_CurrentState v) /\ 0 <= CursorY (m_CurrentState v) /\ 0 <= m_OldCursorX v /\ 0 <= m_OldCursorY v.

Definition pending v (i : nat) : bool := match m_Map v !! i with Some (Some _) => true | _ => false end.

Lemma VerifyBounds_lt x y : 0 <= x -> 0 <= y -> VerifyBounds b x y = true -> (offset x y < ncells)%nat.
Proof. unfold VerifyBounds. rewrite andb_true_iff, !Z.ltb_lt. intros. apply offset_lt; lia. Qed.

(** The cells of [v] as lists of the right length. *)
Definition sized v : Prop :=
  length (m_Grid v) = ncells /\ length (m_Map v) = ncells /\ length (shown v) = ncells.

Definition in_bounds (it : QueueItem) : Prop := 0 <= X it < ws_col b /\ 0 <= Y it < ws_row b.

Lemma flush_item_spec v it :
  sized v -> in_bounds it ->
  let r := flush_item b v it in let i := offset (X it) (Y it) in
  sized r /\ m_Queue r = m_Queue v /\ m_CurrentState r = m_CurrentState v /\ m_SavedState r = m_SavedState v /\
  m_OldCursorX r = m_OldCursorX v /\ m_OldCursorY r = m_OldCursorY v /\
  (forall j, j <> i -> m_Map r !! j = m_Map v !! j /\ m_Grid r !! j = m_Grid v !! j /\ shown r !! j = shown v !! j) /\
  (if pending v i then m_Map r !! i = Some None /\ m_Grid r !! i = Some (item_Character it) /\
                       shown r !! i = Some (item_Character it)
   else r = v).
Proof.
  intros (Hg & Hm & Hs) [Hx Hy] r i. unfold r, flush_item. fold i. unfold pending.
  pose proof (offset_lt _ _ Hx Hy) as Hi. fold i in Hi.
  destruct (m_Map v !! i) as [[q|]|] eqn:E; [|split_and!; trivial; repeat split; auto..].
  unfold PlotChar. assert (Hvb : VerifyBounds b (X it) (Y it) = true).
  { unfold VerifyBounds. rewrite andb_true_iff, !Z.ltb_lt. lia. }
  rewrite Hvb. simpl. fold i. split; [|split_and!; trivial].
  - unfold sized. simpl. now rewrite !length_insert.
  - intros j Hj. now rewrite !list_lookup_insert_ne by congruence.
  - apply list_lookup_insert_eq. lia.
  - apply list_lookup_insert_eq. lia.
  - apply list_lookup_insert_eq. lia.
Qed.

Lemma flush_items_spec items v :
  sized v -> Forall in_bounds items -> NoDup ((λ it, offset (X it) (Y it)) <$> items) ->
  let r := fold_left (flush_item b) items v in
  sized r /\ m_Queue r = m_Queue v /\ m_CurrentState r = m_CurrentState v /\ m_SavedState r = m_SavedState v /\
  m_OldCursorX r = m_OldCursorX v /\ m_OldCursorY r = m_OldCursorY v /\
  (forall i, i ∉ (λ it, offset (X it) (Y it)) <$> items \/ pending v i = false ->
     m_Map r !! i = m_Map v !! i /\ m_Grid r !! i = m_Grid v !! i /\ shown r !! i = shown v !! i) /\
  (forall it, it ∈ items -> pending v (offset (X it) (Y it)) = true ->
     m_Map r !! offset (X it) (Y it) = Some None /\
     m_Grid r !! offset (X it) (Y it) = Some (item_Character it) /\
     shown r !! offset (X it) (Y it) = Some (item_Character it)).
Proof.
  intros Hs Hb. revert v Hs. induction Hb as [|it items Hit Hb IH]; intros v Hs Hnd r; subst r; cbn [fold_left].
  { split_and!; trivial; try apply Hs; set_solver. }
  cbn [fmap list_fmap] in Hnd. apply list.NoDup_cons in Hnd as [Hni Hnd].
  destruct (flush_item_spec v it Hs Hit) as (S1 & Q1 & C1 & V1 & X1 & Y1 & Ho & Hi).
  destruct (IH (flush_item b v it) S1 Hnd) as (S2 & Q2 & C2 & V2 & X2 & Y2 & Hr & Hd).
  set (r := fold_left _ items _) in *. set (i0 := offset (X it) (Y it)) in *.
  assert (Hpend : forall i, i <> i0 -> pending (flush_item b v it) i = pending v i).
  { intros i Hne. unfold pending. now destruct (Ho i Hne) as (-> & _). }
  split_and!; try congruence; try apply S2.
  - intros i Hi'. destruct (decide (i = i0)) as [->|Hne].
    + destruct Hi' as [Hi'|Hi']; [set_solver|]. rewrite Hi' in Hi. rewrite Hi in Hr. apply Hr. now right.
    + destruct (Ho i Hne) as (<- & <- & <-). apply Hr.
      destruct Hi' as [Hi'|Hi']; [left; set_solver|right; now rewrite Hpend].
  - intros it' Hin Hp. apply elem_of_cons in Hin as [->|Hin].
    + fold i0 in Hp |- *. rewrite Hp in Hi. destruct Hi as (Hm & Hg & Hsh).
      destruct (Hr i0) as (-> & -> & ->); [now left|]. auto.
    + assert (Hne : offset (X it') (Y it') <> i0).
      { intros E. apply Hni. rewrite <- E. apply list_elem_of_fmap. now exists it'. }
      apply Hd; [exact Hin|]. now rewrite Hpend.
Qed.
End Proofs.
