(* ===== verification/Console.v ===== *)
(** * The console: flush, and the display behind the terminal

    [Flush] makes the screen show the picture; [VideoTerminal] implements the display
    interface [TerminalBackend], and text printed on the terminal appears in the
    picture. *)

From Stdlib Require Import ZArith Lia Bool.
From stdpp Require Import base gmap list numbers.
From S2P Require Import Prelude Terminal TerminalProofs VideoTerminal VideoTerminalProofs.

Section Flush.
Variable b : Base.
Hypothesis Hcol : 0 < ws_col b.
Hypothesis Hrow : 0 < ws_row b.
Implicit Types (v : VideoTerminal).
Notation offset := (offset b).
Notation video_ok := (video_ok b).
Notation ncells := (ncells b).

Definition here v : option nat := cursor_cell b (CursorX (m_CurrentState v)) (CursorY (m_CurrentState v)).

(** After [DrawCursor]: the cell of the cursor is up to date and drawn inverted. *)
Lemma DrawCursor_spec v :
  video_ok v -> cursor_ok v ->
  let r := DrawCursor b v in
  sized b r /\ m_Queue r = m_Queue v /\ m_CurrentState r = m_CurrentState v /\ m_SavedState r = m_SavedState v /\
  m_OldCursorX r = m_OldCursorX v /\ m_OldCursorY r = m_OldCursorY v /\
  (forall i, here v <> Some i -> m_Map r !! i = m_Map v !! i /\ m_Grid r !! i = m_Grid v !! i /\ shown r !! i = shown v !! i) /\
  (forall i, here v = Some i -> pending r i = false /\ m_Grid r !! i = cell v i /\ shown r !! i = swap_colors <$> cell v i).
Proof.
  intros Hok (Hx & Hy & _) r. unfold r, DrawCursor, here, cursor_cell.
  assert (Hsz : sized b v) by (split_and!; apply Hok).
  destruct (VerifyBounds b _ _) eqn:Hvb; cbn [negb].
  2:{ split; [exact Hsz|]. split_and!; trivial; [intros i _; auto|intros i E; discriminate E]. }
  set (x := CursorX (m_CurrentState v)) in *. set (y := CursorY (m_CurrentState v)) in *.
  pose proof (VerifyBounds_lt b Hcol Hrow x y Hx Hy Hvb) as Hi. set (i := offset x y) in *.
  destruct (cell_some b v (Z.of_nat i) Hok) as [c Hc]; [unfold VideoTerminalProofs.ncells in Hi; lia|].
  unfold at_ in Hc. rewrite Nat2Z.id in Hc. rewrite Hc. unfold PlotChar. rewrite Hvb. cbn [negb]. fold i. simpl.
  destruct Hsz as (Hg & Hm & Hs). destruct (m_Map v !! i) as [[q|]|] eqn:E; simpl.
  - split; [unfold sized; simpl; now rewrite !length_insert|]. split_and!; trivial.
    + intros j Hj. now rewrite !list_lookup_insert_ne by congruence.
    + intros j [= <-]. rewrite Hc. unfold pending. simpl. rewrite !list_lookup_insert_eq by lia. auto.
  - split; [unfold sized; simpl; now rewrite !length_insert|]. split_and!; trivial.
    + intros j Hj. now rewrite !list_lookup_insert_ne by congruence.
    + intros j [= <-]. rewrite Hc. unfold pending. simpl. rewrite E, list_lookup_insert_eq by lia.
      unfold cell in Hc. rewrite E in Hc. auto.
  - apply lookup_ge_None in E. lia.
Qed.

(** The queue's items: inside the screen, one per cell. *)
Lemma queue_in_bounds v : video_ok v -> Forall (in_bounds b) (reverse (m_Queue v)).
Proof.
  intros Hok. rewrite reverse_Permutation. apply Forall_lookup. intros q it Hq.
  destruct (ok_queue _ _ Hok _ _ Hq) as (? & ? & _). now split.
Qed.

Lemma queue_cells_NoDup v : video_ok v -> NoDup ((λ it, offset (X it) (Y it)) <$> reverse (m_Queue v)).
Proof.
  intros Hok. rewrite reverse_Permutation. apply NoDup_alt. intros q1 q2 o H1 H2.
  rewrite list_lookup_fmap in H1, H2. destruct (m_Queue v !! q1) as [i1|] eqn:E1; [|discriminate].
  destruct (m_Queue v !! q2) as [i2|] eqn:E2; [|discriminate]. simpl in *.
  apply (ok_queue _ _ Hok) in E1 as (_ & _ & E1), E2 as (_ & _ & E2). congruence.
Qed.

(** Cursor, then queue: every cell of the grid is up to date, and drawn if it changed. *)
Lemma flush_queue_spec v :
  video_ok v -> cursor_ok v ->
  let r := flush_queue b (DrawCursor b v) in
  sized b r /\ m_Queue r = [] /\ m_CurrentState r = m_CurrentState v /\
  m_OldCursorX r = m_OldCursorX v /\ m_OldCursorY r = m_OldCursorY v /\
  forall i, (i < ncells)%nat -> m_Map r !! i = Some None /\ m_Grid r !! i = cell v i /\
    shown r !! i = if decide (here v = Some i) then swap_colors <$> cell v i
                   else if pending v i then cell v i else shown v !! i.
Proof.
  intros Hok Hcur r. destruct (DrawCursor_spec v Hok Hcur) as (S1 & Q1 & C1 & V1 & X1 & Y1 & Ho1 & Hc1).
  set (v1 := DrawCursor b v) in *.
  pose proof (queue_in_bounds v Hok) as Hib. pose proof (queue_cells_NoDup v Hok) as Hnd. rewrite <- Q1 in Hib, Hnd.
  set (v1' := with_cells v1 (m_Grid v1) (m_Map v1) [] (shown v1)).
  destruct (flush_items_spec b Hcol Hrow (reverse (m_Queue v1)) v1' S1 Hib Hnd) as (S2 & Q2 & C2 & _ & X2 & Y2 & Hr & Hd).
  unfold r, flush_queue. fold v1'. set (v2 := fold_left _ _ v1') in *.
  split; [exact S2|]. split; [exact Q2|]. split; [exact (eq_trans C2 C1)|].
  split; [exact (eq_trans X2 X1)|]. split; [exact (eq_trans Y2 Y1)|].
  intros i Hi. case_decide as Hh.
  - destruct (Hc1 i Hh) as (Hp & Hg & Hs). destruct (Hr i (or_intror Hp)) as (-> & -> & ->). simpl.
    unfold pending in Hp. destruct S1 as (_ & Hm & _).
    destruct (lookup_lt_is_Some_2 (m_Map v1) i) as [o Ho]; [lia|]. rewrite Ho in *. now destruct o.
  - destruct (Ho1 i Hh) as (Hm & Hg & Hs). destruct (pending v i) eqn:Hp; unfold pending in Hp.
    + destruct (m_Map v !! i) as [[q|]|] eqn:E; try discriminate.
      destruct (ok_pending _ _ Hok _ _ E) as (it & Hit & Hoff).
      destruct (Hd it) as (H1 & H2 & H3).
      * apply elem_of_reverse. rewrite Q1. now apply list_elem_of_lookup_2 in Hit.
      * rewrite Hoff. unfold pending. simpl. now rewrite Hm.
      * rewrite Hoff in *. unfold cell. now rewrite E, Hit.
    + destruct (Hr i) as (-> & -> & ->); [right; unfold pending; simpl; rewrite Hm; exact Hp|]. simpl.
      rewrite Hm, Hg, Hs. destruct (lookup_lt_is_Some_2 (m_Map v) i) as [o Ho]; [rewrite (ok_map _ _ Hok); lia|].
      unfold cell. rewrite Ho in *. now destruct o.
Qed.

(** The last part of [Flush]: the cell the cursor has left is drawn again. *)
Definition redraw_old v : VideoTerminal :=
  let s := m_CurrentState v in
  if negb (m_OldCursorX v =? CursorX s) || negb (m_OldCursorY v =? CursorY s) then
    if (m_OldCursorX v <? ws_col b) && (m_OldCursorY v <? ws_row b) then
      match m_Grid v !! offset (m_OldCursorX v) (m_OldCursorY v) with
      | Some c => PlotChar b c (m_OldCursorX v) (m_OldCursorY v) v
      | None => v
      end
    else v
  else v.

Lemma cursor_cell_inj x y x' y' i :
  0 <= x -> 0 <= y -> 0 <= x' -> 0 <= y' -> cursor_cell b x y = Some i -> cursor_cell b x' y' = Some i -> x = x' /\ y = y'.
Proof.
  unfold cursor_cell, VerifyBounds. intros Hx Hy Hx' Hy'.
  destruct (_ && _) eqn:E; [|discriminate]. destruct ((x' <? _) && _) eqn:E'; [|discriminate].
  rewrite andb_true_iff, !Z.ltb_lt in *. intros [= <-] [= Ho]. unfold VideoTerminal.offset in Ho.
  assert (y = y') by nia. split; [nia|assumption].
Qed.

Lemma redraw_old_spec v :
  sized b v -> cursor_ok v ->
  let r := redraw_old v in let old := cursor_cell b (m_OldCursorX v) (m_OldCursorY v) in
  m_Grid r = m_Grid v /\ m_Map r = m_Map v /\ m_Queue r = m_Queue v /\ length (shown r) = ncells /\
  m_CurrentState r = m_CurrentState v /\
  forall i, (i < ncells)%nat -> shown r !! i =
    if decide (here v <> Some i /\ old = Some i) then m_Grid v !! i else shown v !! i.
Proof.
  intros (Hg & Hm & Hs) (Hcx & Hcy & Hox & Hoy) r old. unfold r, redraw_old.
  destruct (decide (m_OldCursorX v = CursorX (m_CurrentState v) /\ m_OldCursorY v = CursorY (m_CurrentState v))) as [[Ex Ey]|Hne].
  { rewrite Ex, Ey, !Z.eqb_refl. cbn [negb orb]. split_and!; trivial. intros i Hi. rewrite decide_False; [reflexivity|].
    unfold old, here. rewrite Ex, Ey. tauto. }
  replace (negb _ || negb _) with true.
  2:{ destruct (Z.eqb_spec (m_OldCursorX v) (CursorX (m_CurrentState v))), (Z.eqb_spec (m_OldCursorY v) (CursorY (m_CurrentState v))); tauto. }
  fold (VerifyBounds b (m_OldCursorX v) (m_OldCursorY v)).
  destruct (VerifyBounds b (m_OldCursorX v) (m_OldCursorY v)) eqn:Hvo.
  2:{ split_and!; trivial. intros i Hi. rewrite decide_False; [reflexivity|]. unfold old, cursor_cell. rewrite Hvo. intros [_ E]. discriminate E. }
  pose proof (VerifyBounds_lt b Hcol Hrow _ _ Hox Hoy Hvo) as Hlt.
  destruct (lookup_lt_is_Some_2 (m_Grid v) (offset (m_OldCursorX v) (m_OldCursorY v))) as [c Hc]; [lia|].
  rewrite Hc. unfold PlotChar. rewrite Hvo. cbn [negb]. simpl. split_and!; trivial; [now rewrite length_insert|].
  intros i Hi. assert (Hold : old = Some (offset (m_OldCursorX v) (m_OldCursorY v))) by (unfold old, cursor_cell; now rewrite Hvo).
  rewrite Hold. destruct (decide (i = offset (m_OldCursorX v) (m_OldCursorY v))) as [->|Hd].
  - rewrite list_lookup_insert_eq by lia. rewrite decide_True; [now rewrite Hc|]. split; [|reflexivity].
    intros Hh. apply Hne. now apply (cursor_cell_inj _ _ _ _ _ Hox Hoy Hcx Hcy Hold).
  - rewrite list_lookup_insert_ne by congruence. rewrite decide_False by (intros [_ E]; congruence). reflexivity.
Qed.

Lemma Flush_spec v :
  video_ok v -> cursor_ok v -> drawn b v ->
  let r := video_Flush b v in
  m_Queue r = [] /\ (forall i, (i < ncells)%nat -> m_Map r !! i = Some None) /\
  (forall i, (i < ncells)%nat -> m_Grid r !! i = cell v i) /\
  m_CurrentState r = m_CurrentState v /\ sized b r /\ drawn b r /\
  m_OldCursorX r = CursorX (m_CurrentState v) /\ m_OldCursorY r = CursorY (m_CurrentState v).
Proof.
  intros Hok Hcur Hdr r. destruct (flush_queue_spec v Hok Hcur) as (S2 & Q2 & C2 & X2 & Y2 & Hcell).
  unfold r, video_Flush. set (v2 := flush_queue b (DrawCursor b v)) in *. fold (redraw_old v2).
  assert (Hcur2 : cursor_ok v2) by (unfold cursor_ok in *; now rewrite C2, X2, Y2).
  destruct (redraw_old_spec v2 S2 Hcur2) as (G3 & M3 & Q3 & L3 & C3 & Hs3). set (v3 := redraw_old v2) in *.
  cbn [m_Queue m_Map m_Grid m_CurrentState m_OldCursorX m_OldCursorY]. rewrite C2, Q3, M3, G3.
  destruct S2 as (Sg & Sm & Ss).
  split; [exact Q2|]. split; [intros i Hi; apply Hcell, Hi|]. split; [intros i Hi; apply Hcell, Hi|].
  split; [reflexivity|]. split; [split; [exact Sg|split; [exact Sm|exact L3]]|]. split; [|now split].
  - intros i Hi. simpl. rewrite ?G3. fold (here v). destruct (Hcell i Hi) as (_ & Hg & Hs). rewrite Hg, Hs3, Hs by exact Hi.
    assert (Hh2 : here v2 = here v) by (unfold here; now rewrite C2). rewrite Hh2, X2, Y2.
    destruct (decide (here v = Some i)) as [E|E]; [now rewrite decide_False by tauto|].
    destruct (decide (here v <> Some i /\ _)) as [|Hno]; [exact Hg|]. destruct (pending v i) eqn:Hp; [reflexivity|].
    rewrite (Hdr i Hi), decide_False by tauto. unfold cell. unfold pending in Hp.
    destruct (m_Map v !! i) as [[q|]|]; [discriminate|reflexivity..].
Qed.
End Flush.

(** ** The display interface *)
#[export] Program Instance video_backend : TerminalBackend VideoTerminal := {|
  RawPutChar b c v := video_RawPutChar b (u8 c) v;
  MoveCharacter b newX newY oldX oldY v := video_MoveCharacter b newX newY oldX oldY v;
  ScrollDown b v := video_ScrollDown b v;
  ScrollUp b v := video_ScrollUp b v;
  Flush b v := video_Flush b v;
  GetCursorPos b v := video_GetCursorPos b v;
  SetCursorPos b x y v := video_SetCursorPos b x y v;
  SaveState v := video_SaveState v;
  RestoreState v := video_RestoreState v;
  ClearScreen b color move v := video_Clear b move v;
  SetTextForeground color v := video_SetTextForeground color v;
  SetTextBackground color v := video_SetTextBackground color v;
  SetTextForegroundRgb rgb v := let '(r, g, bl) := rgb in video_SetTextForegroundRgb (Color_components r g bl 0) v;
  SetTextBackgroundRgb rgb v := let '(r, g, bl) := rgb in video_SetTextBackgroundRgb (Color_components r g bl 0) v;
  display_ok b v := 0 <= CursorX (m_CurrentState v) /\ 0 <= CursorY (m_CurrentState v)
|}.
Next Obligation.
  intros b x y v Hx Hy. unfold video_GetCursorPos, video_SetCursorPos. simpl.
  destruct (Z.leb_spec (ws_col b) x); [lia|]. destruct (Z.leb_spec (ws_row b) y); [lia|].
  destruct (Z.leb_spec (ws_col b) x); [lia|]. destruct (Z.leb_spec (ws_row b) y); [lia|]. reflexivity.
Qed.
Next Obligation.
  intros b v [Hx Hy] Hc Hr. unfold video_GetCursorPos. simpl.
  destruct (Z.leb_spec (ws_col b) (CursorX (m_CurrentState v)));
    destruct (Z.leb_spec (ws_row b) (CursorY (m_CurrentState v))); lia.
Qed.

(** ** Text *)
Section Text.
Variable b : Base.
Hypothesis Hcol : 0 < ws_col b < 2 ^ 16.
Hypothesis Hrow : 0 < ws_row b < 2 ^ 16.
Implicit Types (v : VideoTerminal).

Definition styled v (c : Z) : Character :=
  mkChar c (TextForeground (m_CurrentState v)) (TextBackground (m_CurrentState v)).

Lemma RawPutChar_spec c v :
  video_ok b v -> 0 <= CursorX (m_CurrentState v) < ws_col b -> 0 <= CursorY (m_CurrentState v) < ws_row b ->
  let x := CursorX (m_CurrentState v) in let y := CursorY (m_CurrentState v) in
  let r := video_RawPutChar b c v in
  video_ok b r /\ same_console (with_cursor v (x + 1) y) r /\
  forall j, cell r j = if decide (j = offset b x y) then Some (styled v c) else cell v j.
Proof.
  intros Hok Hx Hy x y r. unfold r, video_RawPutChar.
  destruct (Z.leb_spec (ws_col b) (CursorX (m_CurrentState v))); [lia|]. fold x y.
  assert (Hw : u64 (x + 1) = x + 1) by (apply wrap_small; split; unfold x; lia). rewrite Hw.
  assert (Hok' : video_ok b (with_cursor v (x + 1) y)) by (constructor; apply Hok).
  destruct (EnqueueChar_spec b (proj1 Hcol) (proj1 Hrow) (styled v c) x y _ Hok' Hx Hy) as (H1 & H2 & H3).
  split; [exact H1|]. split; [exact H2|]. intros j. rewrite H3. reflexivity.
Qed.

Lemma text_spec str v :
  video_ok b v -> 0 <= CursorX (m_CurrentState v) -> CursorX (m_CurrentState v) + Z.of_nat (length str) <= ws_col b ->
  0 <= CursorY (m_CurrentState v) < ws_row b ->
  let x := CursorX (m_CurrentState v) in let y := CursorY (m_CurrentState v) in
  let r := fold_left (λ v c, video_RawPutChar b (u8 c) v) str v in
  video_ok b r /\ same_console (with_cursor v (x + Z.of_nat (length str)) y) r /\
  (forall k c, str !! k = Some c -> cell r (offset b (x + Z.of_nat k) y) = Some (styled v (u8 c))) /\
  (forall j, (forall k, (k < length str)%nat -> j <> offset b (x + Z.of_nat k) y) -> cell r j = cell v j).
Proof.
  revert v. induction str as [|c str IH]; intros v Hok Hx Hlen Hy x y r; subst r; cbn [fold_left length] in *.
  { split; [exact Hok|]. rewrite Z.add_0_r. split; [destruct v as [? ? ? []]; repeat split|].
    split; [intros k c Hk; rewrite lookup_nil in Hk; discriminate|reflexivity]. }
  destruct (RawPutChar_spec (u8 c) v Hok ltac:(lia) Hy) as (H1 & H2 & H3). fold x y in H2, H3.
  set (v1 := video_RawPutChar b (u8 c) v) in *. destruct H2 as (C1 & Hrest).
  assert (Ex : CursorX (m_CurrentState v1) = x + 1) by now rewrite C1.
  assert (Ey : CursorY (m_CurrentState v1) = y) by now rewrite C1.
  assert (Est : forall d, styled v1 d = styled v d) by (intros d; unfold styled; now rewrite C1).
  destruct (IH v1 H1) as (H4 & H5 & H6 & H7); rewrite ?Ex, ?Ey; try lia. rewrite Ex, Ey in *.
  split; [exact H4|]. split.
  { destruct H5 as (C2 & R2). split; [|destruct Hrest as (?&?&?&?&?), R2 as (?&?&?&?&?); split_and!; simpl in *; congruence].
    rewrite C2. unfold with_cursor. simpl. rewrite C1. simpl. f_equal. lia. }
  split.
  - intros [|k] d Hk; simpl in Hk.
    + injection Hk as ->. rewrite H7.
      * rewrite H3, decide_True by (f_equal; lia). reflexivity.
      * intros k Hk. unfold offset. assert (0 <= y * ws_col b) by nia. lia.
    + specialize (H6 k d Hk). rewrite Est in H6. rewrite <- H6. do 2 f_equal. lia.
  - intros j Hj. rewrite H7.
    + rewrite H3, decide_False; [reflexivity|]. specialize (Hj 0%nat ltac:(lia)). now rewrite Z.add_0_r in Hj.
    + intros k Hk. specialize (Hj (S k) ltac:(lia)). replace (x + 1 + Z.of_nat k) with (x + Z.of_nat (S k)) by lia. exact Hj.
Qed.
End Text.
