(* ===== verification/ConsoleTheorems.v ===== *)
(** * The console: theorems

    What the terminal and its framebuffer display guarantee together. *)

From Stdlib Require Import ZArith Lia Bool.
From stdpp Require Import base gmap list numbers.
From S2P Require Import Prelude Terminal TerminalProofs VideoTerminal VideoTerminalProofs Console.

Implicit Types (v : VideoTerminal).

(** [EnqueueChar] replaces the character of one cell of the picture and of no other,
    keeps the queue and the map consistent, and the queue never holds more items than
    were reserved for it, so that pointers into it stay valid. *)
Theorem EnqueueChar_one_cell b c x y v :
  0 < ws_col b -> 0 < ws_row b -> video_ok b v -> 0 <= x < ws_col b -> 0 <= y < ws_row b ->
  let r := EnqueueChar b c x y v in
  video_ok b r /\ (length (m_Queue r) <= ncells b)%nat /\
  forall j, cell r j = if decide (j = offset b x y) then Some c else cell v j.
Proof.
  intros Hc Hr Hok Hx Hy r. destruct (EnqueueChar_spec b Hc Hr c x y v Hok Hx Hy) as (H1 & _ & H3).
  split; [exact H1|]. split; [now apply queue_bounded|exact H3].
Qed.

(** Scrolling moves the rows between the margins by one, fills the row that becomes
    free with blanks in the current colours, and touches nothing else, whatever
    updates are pending; scrolling down and up again restores all rows but one. *)
Theorem scrolling b v :
  0 < ws_col b -> 0 < ws_row b -> video_ok b v -> margins_ok b ->
  let top := m_ScrollTopMargin b in let bottom := m_ScrollBottomMargin b in let w := ws_col b in
  (forall j, 0 <= j -> at_ (video_ScrollDown b v) j =
     if decide (top * w <= j < (bottom - 1) * w) then at_ v (j + w)
     else if decide ((bottom - 1) * w <= j < bottom * w) then Some (blank v) else at_ v j) /\
  (forall j, 0 <= j -> at_ (video_ScrollUp b (video_ScrollDown b v)) j =
     if decide (top * w <= j < (top + 1) * w) then Some (blank v) else at_ v j).
Proof.
  intros Hc Hr Hok Hm. destruct (ScrollDown_spec b Hc Hr v Hok Hm) as (H1 & H2 & H3). cbv zeta in *.
  split; [exact H3|]. intros j Hj. destruct (ScrollUp_spec b Hc Hr _ H1 Hm) as (_ & _ & H4). cbv zeta in H4.
  rewrite H4 by exact Hj. rewrite (blank_same v _ H2). destruct Hm as [Ht Hb].
  destruct (decide ((m_ScrollTopMargin b + 1) * ws_col b <= j < m_ScrollBottomMargin b * ws_col b)).
  - rewrite H3 by nia. rewrite decide_True by nia. rewrite decide_False by lia. f_equal. lia.
  - case_decide; [reflexivity|]. rewrite H3 by lia. rewrite !decide_False by nia. reflexivity.
Qed.

(** C20: After [Flush] nothing is pending, the grid holds the picture, and the screen shows
    it, with the colours of the cell under the cursor swapped; the cell the cursor
    has left is shown normally again. *)
Theorem Flush_shows_picture b v :
  0 < ws_col b -> 0 < ws_row b -> video_ok b v -> cursor_ok v -> drawn b v ->
  let r := video_Flush b v in
  m_Queue r = [] /\
  forall i, (i < ncells b)%nat -> m_Map r !! i = Some None /\ m_Grid r !! i = cell v i /\
    shown r !! i = if decide (here b v = Some i) then swap_colors <$> cell v i else cell v i.
Proof.
  intros Hc Hr Hok Hcur Hd r. destruct (Flush_spec b Hc Hr v Hok Hcur Hd) as (Q & M & G & C & _ & D & Ox & Oy).
  split; [exact Q|]. intros i Hi. split; [now apply M|]. split; [now apply G|].
  unfold r. rewrite (D i Hi), (G i Hi), Ox, Oy. reflexivity.
Qed.

(** Text printed on a framebuffer terminal that fits the current row appears there, in
    the current colours, one cell per character, and every other cell keeps its
    character; the number of characters is returned and the screen is up to date. *)
Theorem PrintString_appears has_tty (t : Terminal VideoTerminal) str :
  let v := display t in let b := base t in
  let x := CursorX (m_CurrentState v) in let y := CursorY (m_CurrentState v) in
  m_Initialized t = true -> m_State t = eNormal -> Forall printable str ->
  0 < ws_col b < 2 ^ 16 -> 0 < ws_row b < 2 ^ 16 ->
  video_ok b v -> cursor_ok v -> drawn b v -> y < ws_row b -> x + Z.of_nat (length str) <= ws_col b ->
  exists t', PrintString has_tty t str = Some (Z.of_nat (length str), t') /\
    (forall k c, str !! k = Some c ->
       m_Grid (display t') !! offset b (x + Z.of_nat k) y = Some (styled v c)) /\
    (forall j, (j < ncells b)%nat -> (forall k, (k < length str)%nat -> j <> offset b (x + Z.of_nat k) y) ->
       m_Grid (display t') !! j = cell v j) /\
    drawn b (display t').
Proof.
  intros v b x y Hi Hs Hp Hc Hr Hok Hcur Hd Hy Hlen. pose proof Hcur as (Hx0 & Hy0 & Ho1 & Ho2).
  destruct (text_spec b Hc Hr str v Hok Hx0 Hlen (conj Hy0 Hy)) as (H1 & H2 & H3 & H4).
  set (v1 := fold_left _ str v) in *. destruct H2 as (C1 & _ & S1 & G1 & X1 & Y1).
  assert (Hcur1 : cursor_ok v1).
  { unfold cursor_ok. rewrite C1, X1, Y1. simpl. fold x y. split_and!; trivial. lia. }
  assert (Hd1 : drawn b v1).
  { intros i Hi'. rewrite S1, G1, X1, Y1. now apply Hd. }
  destruct (Flush_spec b (proj1 Hc) (proj1 Hr) v1 H1 Hcur1 Hd1) as (_ & _ & G2 & _ & _ & D2 & _).
  exists (with_display t (video_Flush b v1)). split; [|split; [|split]].
  - unfold PrintString. rewrite Hi. cbn [negb]. rewrite feed_text by trivial. reflexivity.
  - intros k c Hk. assert (Hcr : printable c) by (rewrite Forall_lookup in Hp; now apply (Hp k)).
    assert (Hlt : (k < length str)%nat) by now apply lookup_lt_Some in Hk.
    specialize (H3 k c Hk). unfold u8 in H3. rewrite wrap_small in H3 by (unfold printable in Hcr; split; lia).
    rewrite <- H3. cbn [display with_display]. apply G2. fold x y. apply offset_lt; lia.
  - intros j Hj Hne. cbn [display with_display]. rewrite G2 by exact Hj. now apply H4.
  - exact D2.
Qed.

(** When a line is full the row of the cursor is compared with the number of columns
    instead of rows: on a screen with more rows than columns, text that wraps below
    row [ws_col] is put back on row [ws_col - 1]. *)
Theorem wrap_clamped_by_columns b c v :
  0 < ws_col b -> ws_col b <= CursorX (m_CurrentState v) -> 0 <= CursorY (m_CurrentState v) ->
  ws_col b <= CursorY (m_CurrentState v) + 1 < m_ScrollBottomMargin b -> m_ScrollBottomMargin b <= ws_row b < 2 ^ 16 ->
  CursorY (m_CurrentState (video_RawPutChar b c v)) = ws_col b - 1.
Proof.
  intros Hc Hx Hy Hrow Hb. unfold video_RawPutChar. destruct (Z.leb_spec (ws_col b) (CursorX (m_CurrentState v))); [|lia].
  assert (Hw : u64 (CursorY (m_CurrentState v) + 1) = CursorY (m_CurrentState v) + 1) by (apply wrap_small; split; lia).
  rewrite Hw. simpl. destruct (Z.eqb_spec (CursorY (m_CurrentState v) + 1) (m_ScrollBottomMargin b)); [lia|]. simpl.
  destruct (Z.leb_spec (ws_col b) (CursorY (m_CurrentState v) + 1)); [|lia]. simpl.
  unfold EnqueueChar. destruct (_ || _); [reflexivity|]. destruct (_ !! _) as [[q|]|]; [reflexivity|..].
  - now case_bool_decide.
  - now case_bool_decide.
Qed.

(** ** Colours *)
Ltac shifts := unfold RED_BITS_SHIFT, GREEN_BITS_SHIFT, BLUE_BITS_SHIFT, ALPHA_BITS_SHIFT in *.

Lemma channel (m s x : Z) : m = Z.ones 8 .<< s -> 0 <= s -> u8 ((x .& m) .>> s) = wrap 8 (x .>> s).
Proof.
  intros -> Hs. unfold u8. apply Z.bits_inj'. intros i Hi.
  rewrite !testbit_wrap, !Z.shiftr_spec, Z.land_spec, Z.shiftl_spec, testbit_ones by lia.
  replace (i + s - s) with i by lia. destruct (i <? 8); [now rewrite !andb_true_r|now rewrite !andb_false_r].
Qed.

Lemma testbit_channel (x s i : Z) :
  0 <= s -> 0 <= i -> Z.testbit (wrap 8 (x .>> s) .<< s) i = Z.testbit x i && (s <=? i) && (i <? s + 8).
Proof.
  intros Hs Hi. rewrite Z.shiftl_spec by lia. destruct (Z.leb_spec s i).
  - rewrite testbit_wrap, Z.shiftr_spec by lia. replace (i - s + s) with i by lia. rewrite andb_true_r. f_equal.
    apply eq_true_iff_eq. rewrite !Z.ltb_lt. lia.
  - rewrite Z.testbit_neg_r by lia. now rewrite andb_false_r.
Qed.

Definition bytes (c : Color) : Prop :=
  in_u 8 (m_Red c) /\ in_u 8 (m_Green c) /\ in_u 8 (m_Blue c) /\ in_u 8 (m_Alpha c).

Lemma testbit_byte (x j : Z) : in_u 8 x -> j < 0 \/ 8 <= j -> Z.testbit x j = false.
Proof. intros Hx [Hj|Hj]; [now apply Z.testbit_neg_r|apply (testbit_above 8); trivial; lia]. Qed.

Lemma testbit_RGBA (c : Color) (i : Z) :
  bytes c -> 0 <= i -> Z.testbit (RGBA c) i =
    (if i <? 8 then Z.testbit (m_Blue c) i else if i <? 16 then Z.testbit (m_Green c) (i - 8)
     else if i <? 24 then Z.testbit (m_Red c) (i - 16) else if i <? 32 then Z.testbit (m_Alpha c) (i - 24) else false).
Proof.
  intros (Hr & Hg & Hb & Ha) Hi. unfold RGBA, RGB, u32. shifts.
  rewrite testbit_wrap, Z.lor_spec, testbit_wrap, !Z.lor_spec, !Z.shiftl_spec by lia. rewrite Z.sub_0_r.
  destruct (Z.ltb_spec i 8), (Z.ltb_spec i 16), (Z.ltb_spec i 24), (Z.ltb_spec i 32); try lia;
    rewrite ?(testbit_byte (m_Blue c)), ?(testbit_byte (m_Green c)), ?(testbit_byte (m_Red c)),
      ?(testbit_byte (m_Alpha c)) by (trivial; lia); autorewrite with bits; reflexivity.
Qed.

(** A colour survives packing into 32 bits and unpacking, in both directions. *)
Theorem color_roundtrip (c : Color) (rgba : Z) :
  bytes c -> in_u 32 rgba -> Color_rgba (RGBA c) = c /\ RGBA (Color_rgba rgba) = rgba.
Proof.
  intros Hb Hw. split.
  - unfold Color_rgba. rewrite !channel by (reflexivity || (shifts; lia)).
    pose proof (testbit_RGBA c) as Hbits. destruct Hb as (Hr & Hg & Hb & Ha).
    destruct c as [r g bl a]. cbn [m_Red m_Green m_Blue m_Alpha] in *. f_equal; (apply Z.bits_inj'; intros i Hi;
      rewrite testbit_wrap, Z.shiftr_spec, Hbits by (try split_and!; trivial; shifts; lia); shifts;
      destruct (Z.ltb_spec i 8) as [Hlt|Hge];
      [rewrite andb_true_r; repeat (match goal with |- context [?a <? ?b] => destruct (Z.ltb_spec a b); try lia end); f_equal; lia
      |rewrite andb_false_r; symmetry; apply (testbit_above 8); (trivial || lia)]).
  - apply Z.bits_inj'. intros i Hi. unfold RGBA, RGB, Color_rgba, u32. cbn [m_Red m_Green m_Blue m_Alpha].
    rewrite !channel by (reflexivity || (shifts; lia)). shifts.
    rewrite testbit_wrap, Z.lor_spec, testbit_wrap, !Z.lor_spec, !testbit_channel by lia.
    destruct (Z.ltb_spec i 32) as [Hlt|Hge].
    + destruct (Z.testbit rgba i); [|reflexivity].
      destruct (Z.leb_spec 16 i), (Z.ltb_spec i (16 + 8)), (Z.leb_spec 8 i), (Z.ltb_spec i (8 + 8)),
        (Z.leb_spec 0 i), (Z.ltb_spec i (0 + 8)), (Z.leb_spec 24 i), (Z.ltb_spec i (24 + 8)); try lia; reflexivity.
    + rewrite andb_false_r. symmetry. apply (testbit_above 32); (trivial || lia).
Qed.

(** ** Witnesses: a small screen *)
Definition screen (rows cols : Z) : Base := mkBase rows cols 0 rows.
Definition console0 (x y : Z) : ConsoleState := mkConsole x y DEFAULT_TEXT_FOREGROUND DEFAULT_TEXT_BACKGROUND.
Definition empty_video (n : nat) (x y : Z) : VideoTerminal :=
  let c := mkChar 0x20 DEFAULT_TEXT_FOREGROUND DEFAULT_TEXT_BACKGROUND in
  mkVideo (replicate n c) (replicate n None) [] (console0 x y) (console0 x y) 100 100 (replicate n c).
Definition terminal0 (rows cols x y : Z) : Terminal VideoTerminal :=
  mkTerminal true (screen rows cols) eNormal (replicate 16 0) 0 8 false false
    (empty_video (Z.to_nat (rows * cols)) x y) [].

Lemma empty_video_ok rows cols x y :
  video_ok (screen rows cols) (empty_video (Z.to_nat (rows * cols)) x y).
Proof.
  constructor; simpl; rewrite ?length_replicate; trivial.
  - intros i q E. apply lookup_replicate in E as [E _]. discriminate.
  - intros q it E. rewrite lookup_nil in E. discriminate.
Qed.

Lemma empty_video_drawn rows cols x y :
  0 < rows < 100 -> 0 < cols < 100 -> drawn (screen rows cols) (empty_video (Z.to_nat (rows * cols)) x y).
Proof.
  intros Hr Hc i Hi. rewrite decide_False; [reflexivity|]. unfold cursor_cell, VerifyBounds. simpl.
  destruct (Z.ltb_spec 100 cols); [lia|discriminate].
Qed.

Lemma EnqueueChar_one_cell_witness :
  cell (EnqueueChar (screen 2 4) (mkChar 0x41 DEFAULT_TEXT_FOREGROUND DEFAULT_TEXT_BACKGROUND) 1 1
    (empty_video 8 0 0)) 5 = Some (mkChar 0x41 DEFAULT_TEXT_FOREGROUND DEFAULT_TEXT_BACKGROUND).
Proof.
  destruct (EnqueueChar_one_cell (screen 2 4) (mkChar 0x41 DEFAULT_TEXT_FOREGROUND DEFAULT_TEXT_BACKGROUND) 1 1
    (empty_video 8 0 0)) as (_ & _ & H); try (simpl; lia); [apply (empty_video_ok 2 4)|].
  rewrite H. reflexivity.
Defined.

Lemma scrolling_witness :
  at_ (video_ScrollDown (screen 2 4) (empty_video 8 0 0)) 6 = Some (blank (empty_video 8 0 0)).
Proof.
  destruct (scrolling (screen 2 4) (empty_video 8 0 0)) as [H _]; try (simpl; lia).
  - apply (empty_video_ok 2 4).
  - split; simpl; lia.
  - rewrite H by lia. reflexivity.
Defined.

Lemma Flush_shows_picture_witness : m_Queue (video_Flush (screen 2 4) (empty_video 8 1 0)) = [].
Proof.
  apply (Flush_shows_picture (screen 2 4) (empty_video 8 1 0)); try (simpl; lia).
  - apply (empty_video_ok 2 4).
  - repeat split; simpl; lia.
  - apply (empty_video_drawn 2 4); lia.
Defined.

Lemma PrintString_appears_witness :
  exists t', PrintString false (terminal0 2 4 1 1) [0x48; 0x69] = Some (2, t') /\
    m_Grid (display t') !! 6%nat = Some (styled (empty_video 8 1 1) 0x69).
Proof.
  destruct (PrintString_appears false (terminal0 2 4 1 1) [0x48; 0x69]) as (t' & E & Hg & _).
  - reflexivity.
  - reflexivity.
  - apply Forall_forall. intros c Hc. unfold printable. destruct Hc as [<-|[<-|[]]]; lia.
  - simpl. lia.
  - simpl. lia.
  - apply (empty_video_ok 2 4).
  - repeat split; simpl; lia.
  - apply (empty_video_drawn 2 4); lia.
  - simpl. lia.
  - simpl. lia.
  - exists t'. split; [exact E|]. apply (Hg 1%nat). reflexivity.
Defined.

Lemma wrap_clamped_by_columns_witness :
  CursorY (m_CurrentState (video_RawPutChar (screen 6 2) 0x41 (empty_video 12 2 3))) = 1.
Proof. apply (wrap_clamped_by_columns (screen 6 2) 0x41 (empty_video 12 2 3)); simpl; lia. Defined.

Lemma color_roundtrip_witness :
  Color_rgba (RGBA (mkColor 1 2 3 4)) = mkColor 1 2 3 4 /\ RGBA (Color_rgba 0x04010203) = 0x04010203.
Proof. apply color_roundtrip; [repeat split; simpl; lia|split; lia]. Defined.

Lemma numeral_ascii (p : list Z) : p <> [] -> forallb IsDigit p = true -> numeral p.
Proof.
  intros Hne Hp. split; [exact Hne|]. apply Forall_forall. intros c Hc. rewrite forallb_forall in Hp.
  specialize (Hp c Hc). unfold IsDigit in Hp. rewrite andb_true_iff, !Z.leb_le in Hp. exact Hp.
Qed.

Lemma control_sequence_parsed_witness :
  exists u, params_are u [3; 12] /\
    feed false (terminal0 2 4 1 1) [0x1b; 0x5b; 0x33; 0x3b; 0x31; 0x32; 0x6d] =
      let '(t', normal) := CsiFinal false u 0x6d in
      Some (if normal then with_modes (with_state t' eNormal) false (m_CursorKeyMode t') else t').
Proof.
  destruct (control_sequence_parsed false (terminal0 2 4 1 1) [0x33] [[0x31; 0x32]] 0x6d) as (u & _ & Hp & E).
  - reflexivity.
  - reflexivity.
  - apply Forall_forall. intros p [<-|[<-|[]]]; (apply numeral_ascii; [discriminate|reflexivity]).
  - simpl. lia.
  - lia.
  - reflexivity.
  - lia.
  - exists u. split; [exact Hp|exact E].
Defined.

Lemma cursor_position_sequence_witness :
  exists t', feed false (terminal0 25 80 0 0) [0x1b; 0x5b; 0x35; 0x3b; 0x31; 0x30; 0x48] = Some t' /\ pos t' = (9, 4).
Proof.
  destruct (cursor_position_sequence false (terminal0 25 80 0 0) [0x35] [0x31; 0x30]) as (t' & E & Hp & _).
  - reflexivity.
  - reflexivity.
  - apply numeral_ascii; [discriminate|reflexivity].
  - apply numeral_ascii; [discriminate|reflexivity].
  - vm_compute. split; congruence.
  - vm_compute. split; congruence.
  - exists t'. split; [exact E|]. rewrite Hp. reflexivity.
Defined.

Lemma escape_parameters_overflow_witness :
  feed false (terminal0 2 4 0 0)
    ([0x1b; 0x5b] ++ join (replicate 16 [0x31]) ++ [0x3b; 0x31; 0x3b; 0x31]) = None.
Proof.
  apply escape_parameters_overflow; try reflexivity; try (unfold digit; lia).
  apply Forall_forall. intros p Hp. apply list_elem_of_In, elem_of_replicate in Hp as [-> _].
  apply numeral_ascii; [discriminate|reflexivity].
Defined.

Lemma CHA_default_last_column_witness : (pos (CHA (terminal0 2 4 1 1) 0)).1 = 3.
Proof.
  apply (CHA_default_last_column (terminal0 2 4 1 1)); [split; simpl; lia|vm_compute; split; congruence|reflexivity].
Defined.
