(* ===== verification/ZLib.v ===== *)
(** * Inflate

    [Library/ZLib.cpp]: canonical Huffman trees with a fast lookup table, and the
    decompressor built on them.  The bit stream is the Prism class behind
    [BitStream]; fresh output buffers have indeterminate contents. *)

From Stdlib Require Import ZArith Lia Bool.
From stdpp Require Import base gmap list numbers.
From S2P Require Import Prelude.

(** ** The bit stream ([Prism/Memory/BitStream.hpp]): least significant bit first *)
Fixpoint le_value (bs : list bool) : Z :=
  match bs with
  | [] => 0
  | b :: bs => Z.b2z b + 2 * le_value bs
  end.

Class BitStream (Str : Type) := {
  bits_of : Str -> list bool;
  PeekBits : nat -> Str -> Z;
  DropBits : nat -> Str -> Str;
  ReadBits : nat -> Str -> Z * Str;
  ReadU16 : Str -> Z * Str;
  ReadBytes : nat -> Str -> list Z * Str;
  AlignToByteBoundary : Str -> Str;
  IsEndOfStream : Str -> bool;
  PeekBits_spec (n : nat) (s : Str) :
    (n <= length (bits_of s))%nat -> PeekBits n s = le_value (take n (bits_of s));
  DropBits_spec (n : nat) (s : Str) :
    (n <= length (bits_of s))%nat -> bits_of (DropBits n s) = drop n (bits_of s);
  ReadBits_spec (n : nat) (s : Str) :
    (n <= length (bits_of s))%nat -> ReadBits n s = (PeekBits n s, DropBits n s)
}.

(** ** Results

    A function returns a value, reports failure ([return false] or a negative symbol),
    accesses memory outside an object, or the model's fuel ends. *)
Inductive Outcome (A : Type) :=
  | Ok (a : A)
  | Failed
  | OutOfBounds
  | OutOfFuel.
Arguments Ok {A} a.
Arguments Failed {A}.
Arguments OutOfBounds {A}.
Arguments OutOfFuel {A}.

Definition bind {A B} (m : Outcome A) (f : A -> Outcome B) : Outcome B :=
  match m with
  | Ok a => f a
  | Failed => Failed
  | OutOfBounds => OutOfBounds
  | OutOfFuel => OutOfFuel
  end.
Declare Scope outcome_scope.
Notation "'let!' x ':=' m 'in' k" := (bind m (λ x, k)) (at level 200, x pattern, right associativity) : outcome_scope.
#[local] Open Scope outcome_scope.

(** Array access. *)
Definition get (a : list Z) (i : Z) : Outcome Z :=
  if i <? 0 then OutOfBounds else match a !! Z.to_nat i with Some x => Ok x | None => OutOfBounds end.
Definition set (a : list Z) (i v : Z) : Outcome (list Z) :=
  if (i <? 0) || (Z.of_nat (length a) <=? i) then OutOfBounds else Ok (<[Z.to_nat i := v]> a).

(** ** Huffman trees *)
Definition ReverseBits (value : Z) (count : Z) : Z :=
  let r := ((value .& 0xaaaa) .>> 1) .| ((value .& 0x5555) .<< 1) in
  let r := ((r .& 0xcccc) .>> 2) .| ((r .& 0x3333) .<< 2) in
  let r := ((r .& 0xf0f0) .>> 4) .| ((r .& 0x0f0f) .<< 4) in
  let r := ((r .& 0xff00) .>> 8) .| ((r .& 0x00ff) .<< 8) in
  r .>> (16 - count).

Definition FAST_BITS : Z := 9.
Definition FAST_MASK : Z := (1 .<< FAST_BITS) - 1.
Definition MAX_SYMBOLS : Z := 288.

Record HuffmanTree := mkTree {
  FastLookupTable : list Z;
  FirstCodeOfLength : list Z;
  MaxCodeInclusive : list Z;
  FirstSymbolIndexOfLength : list Z;
  SymbolBitLengths : list Z;
  SymbolValues : list Z
}.

(** [++codeLengthCounts[bitLengths[i]]] for each symbol. *)
Fixpoint count_lengths (counts bitLengths : list Z) : Outcome (list Z) :=
  match bitLengths with
  | [] => Ok counts
  | l :: bitLengths =>
      let! c := get counts l in
      let! counts := set counts l (c + 1) in
      count_lengths counts bitLengths
  end.

(** The loop that assigns the first code of each length; [lengths] are the lengths
    still to do. *)
Record Assign := mkAssign {
  nextCodeForLength : list Z;
  a_FirstCode : list Z;
  a_FirstSymbol : list Z;
  a_MaxCode : list Z;
  huffmanCode : Z;
  totalSymbolsAssigned : Z
}.

Fixpoint assign_codes (counts : list Z) (lengths : list Z) (a : Assign) : Outcome Assign :=
  match lengths with
  | [] => Ok a
  | length :: lengths =>
      let! c := get counts length in
      let! next := set (nextCodeForLength a) length (huffmanCode a) in
      let! first := set (a_FirstCode a) length (u16 (huffmanCode a)) in
      let! sym := set (a_FirstSymbol a) length (u16 (totalSymbolsAssigned a)) in
      let code := huffmanCode a + c in
      if truthy c && (1 .<< length <=? u64 (code - 1)) then Failed
      else
        let! max := set (a_MaxCode a) length (code .<< (16 - length)) in
        assign_codes counts lengths
          (mkAssign next first sym max (code .<< 1) (totalSymbolsAssigned a + c))
  end.

(** [while (reversedBits < 512) { table[reversedBits] = value; reversedBits += 1 << length; }] *)
Fixpoint fill_fast (fuel : nat) (table : list Z) (reversedBits length value : Z) : list Z :=
  match fuel with
  | O => table
  | S fuel =>
      if reversedBits <? 1 .<< FAST_BITS
      then fill_fast fuel (<[Z.to_nat reversedBits := value]> table) (reversedBits + (1 .<< length)) length value
      else table
  end.

Record Table := mkTable { t_next : list Z; t_fast : list Z; t_lengths : list Z; t_values : list Z }.

(** The body of the last loop of [Build], for one symbol. *)
Definition assign_symbol (first firstSym : list Z) (symbol length : Z) (t : Table) : Outcome Table :=
  if length =? 0 then Ok t
  else
    let! code := get (t_next t) length in
    let! fc := get first length in
    let! fs := get firstSym length in
    let symbolIndex := code - fc + fs in
    let fastTableValue := u16 ((length .<< 9) .| symbol) in
    let! lengths := set (t_lengths t) symbolIndex (u8 length) in
    let! values := set (t_values t) symbolIndex (u16 symbol) in
    let fast :=
      if length <=? FAST_BITS
      then fill_fast 512 (t_fast t) (ReverseBits code length) length fastTableValue
      else t_fast t in
    let! next := set (t_next t) length (code + 1) in
    Ok (mkTable next fast lengths values).

Fixpoint assign_symbols (first firstSym : list Z) (symbol : Z) (bitLengths : list Z) (t : Table) : Outcome Table :=
  match bitLengths with
  | [] => Ok t
  | l :: bitLengths =>
      let! t := assign_symbol first firstSym symbol l t in
      assign_symbols first firstSym (symbol + 1) bitLengths t
  end.

Definition lengths_1_15 : list Z := [1; 2; 3; 4; 5; 6; 7; 8; 9; 10; 11; 12; 13; 14; 15].

Definition Build (tree : HuffmanTree) (bitLengths : list Z) : Outcome HuffmanTree :=
  let fast := replicate 512 0 in
  let! counts := count_lengths (replicate 17 0) bitLengths in
  let counts := <[0%nat := 0]> counts in
  if existsb (λ length, 1 .<< length <? default 0 (counts !! Z.to_nat length)) lengths_1_15 then Failed
  else
    let! a := assign_codes counts lengths_1_15
      (mkAssign (replicate 16 0) (FirstCodeOfLength tree) (FirstSymbolIndexOfLength tree)
         (MaxCodeInclusive tree) 0 0) in
    let! max := set (a_MaxCode a) 16 0x10000 in
    let! t := assign_symbols (a_FirstCode a) (a_FirstSymbol a) 0 bitLengths
      (mkTable (nextCodeForLength a) fast (SymbolBitLengths tree) (SymbolValues tree)) in
    Ok (mkTree (t_fast t) (a_FirstCode a) max (a_FirstSymbol a) (t_lengths t) (t_values t)).

(** A default-constructed tree. *)
Definition new_HuffmanTree : HuffmanTree :=
  mkTree (replicate 512 0) (replicate 16 0) (replicate 17 0) (replicate 16 0) (replicate 288 0) (replicate 288 0).

Section Stream.
Context {Str : Type} {BS : BitStream Str}.

(** [for (codeLength = 10;; ++codeLength) if (reversedBits < MaxCodeInclusive[codeLength]) break;] *)
Fixpoint find_length (fuel : nat) (max : list Z) (reversedBits codeLength : Z) : Outcome Z :=
  match fuel with
  | O => OutOfFuel
  | S fuel =>
      let! m := get max codeLength in
      if reversedBits <? m then Ok codeLength else find_length fuel max reversedBits (codeLength + 1)
  end.

Definition DecodeSlowPath (t : HuffmanTree) (stream : Str) : Outcome (Z * Str) :=
  let reversedBits := ReverseBits (PeekBits 16 stream) 16 in
  let! codeLength := find_length 7 (MaxCodeInclusive t) reversedBits (FAST_BITS + 1) in
  if 16 <=? codeLength then Failed
  else
    let! fc := get (FirstCodeOfLength t) codeLength in
    let! fs := get (FirstSymbolIndexOfLength t) codeLength in
    let symbolIndex := (reversedBits .>> (16 - codeLength)) - fc + fs in
    if MAX_SYMBOLS <=? symbolIndex then Failed
    else
      let! l := get (SymbolBitLengths t) symbolIndex in
      if negb (l =? codeLength) then Failed
      else
        let! v := get (SymbolValues t) symbolIndex in
        Ok (v, DropBits (Z.to_nat codeLength) stream).

Definition Decode (t : HuffmanTree) (stream : Str) : Outcome (Z * Str) :=
  let bits := PeekBits 16 stream in
  let! fastEntry := get (FastLookupTable t) (bits .& FAST_MASK) in
  if truthy fastEntry then
    let codeLength := fastEntry .>> 9 in
    Ok (fastEntry .& 511, DropBits (Z.to_nat codeLength) stream)
  else DecodeSlowPath t stream.

(** ** The decompressor *)
(** [m_OutputPointer] is kept as an offset into the buffer; so is [m_OutputEnd], which is where the buffer ends. *)
Record Decompressor := mkDecompressor {
  m_OutputBuffer : option (list Z);
  m_OutputSize : Z;
  m_OutputPointer : Z;
  m_LiteralLengthTree : HuffmanTree;
  m_DistanceTree : HuffmanTree
}.
Definition m_OutputEnd (d : Decompressor) : Z := Z.of_nat (length (default [] (m_OutputBuffer d))).

(** What [new u8[n]] finds in memory. *)
Variable fresh : nat -> list Z.

(** [while (newSize < wanted) newSize <<= 1;] *)
Fixpoint grow (fuel : nat) (newSize wanted : Z) : Outcome Z :=
  match fuel with
  | O => OutOfFuel
  | S fuel => if newSize <? wanted then grow fuel (u64 (newSize .<< 1)) wanted else Ok newSize
  end.

Definition EnsureCapacity (d : Decompressor) (count : Z) : Outcome Decompressor :=
  let currentOffset := match m_OutputBuffer d with Some _ => m_OutputPointer d | None => 0 end in
  let newSize := match m_OutputBuffer d with Some _ => m_OutputSize d | None => count end in
  let! newSize := grow 65 newSize (u64 (currentOffset + count)) in
  Ok (mkDecompressor (Some (fresh (Z.to_nat newSize))) newSize currentOffset (m_LiteralLengthTree d) (m_DistanceTree d)).

Definition store (d : Decompressor) (p v : Z) : Outcome Decompressor :=
  let! buf := set (default [] (m_OutputBuffer d)) p (u8 v) in
  Ok (mkDecompressor (Some buf) (m_OutputSize d) (m_OutputPointer d) (m_LiteralLengthTree d) (m_DistanceTree d)).
Definition load (d : Decompressor) (p : Z) : Outcome Z := get (default [] (m_OutputBuffer d)) p.
Definition with_pointer (d : Decompressor) (p : Z) : Decompressor :=
  mkDecompressor (m_OutputBuffer d) (m_OutputSize d) p (m_LiteralLengthTree d) (m_DistanceTree d).
Definition with_trees (d : Decompressor) (lit dist : HuffmanTree) : Decompressor :=
  mkDecompressor (m_OutputBuffer d) (m_OutputSize d) (m_OutputPointer d) lit dist.

(** [while (len--) *currentPointer++ = distance == 1 ? *src : *src++;] *)
Fixpoint copy_match (len : nat) (d : Decompressor) (currentPointer src distance : Z) : Outcome (Decompressor * Z) :=
  match len with
  | O => Ok (d, currentPointer)
  | S len =>
      let! v := load d src in
      let! d := store d currentPointer v in
      copy_match len d (currentPointer + 1) (if distance =? 1 then src else src + 1) distance
  end.

Definition lengthBase : list Z :=
  [3; 4; 5; 6; 7; 8; 9; 10; 11; 13; 15; 17; 19; 23; 27; 31; 35; 43; 51; 59; 67; 83; 99; 115; 131; 163; 195; 227; 258].
Definition lengthExtraBits : list Z :=
  [0; 0; 0; 0; 0; 0; 0; 0; 1; 1; 1; 1; 2; 2; 2; 2; 3; 3; 3; 3; 4; 4; 4; 4; 5; 5; 5; 5; 0].
Definition distBase : list Z :=
  [1; 2; 3; 4; 5; 7; 9; 13; 17; 25; 33; 49; 65; 97; 129; 193; 257; 385; 513; 769; 1025; 1537; 2049; 3073; 4097;
   6145; 8193; 12289; 16385; 24577].
Definition distExtraBits : list Z :=
  [0; 0; 0; 0; 1; 1; 2; 2; 3; 3; 4; 4; 5; 5; 6; 6; 7; 7; 8; 8; 9; 9; 10; 10; 11; 11; 12; 12; 13; 13].

(** A base value plus the extra bits read from the stream. *)
Definition read_extra (base extra : list Z) (symbol : Z) (stream : Str) : Outcome (Z * Str) :=
  let! v := get base symbol in
  let! e := get extra symbol in
  if truthy e then let '(x, stream) := ReadBits (Z.to_nat e) stream in Ok (v + x, stream)
  else Ok (v, stream).

Fixpoint DecodeBlock_loop (fuel : nat) (d : Decompressor) (stream : Str) (currentPointer : Z)
    : Outcome (Decompressor * Str) :=
  match fuel with
  | O => OutOfFuel
  | S fuel =>
      let! (symbol, stream) := Decode (m_LiteralLengthTree d) stream in
      if symbol <? 0 then Failed
      else if symbol <? 256 then
        let! (d, currentPointer) :=
          (if m_OutputEnd d <=? currentPointer then
             let! d := EnsureCapacity d 4096 in Ok (d, m_OutputPointer d)
           else Ok (d, currentPointer)) in
        let! d := store d currentPointer symbol in
        DecodeBlock_loop fuel d stream (currentPointer + 1)
      else if symbol =? 256 then Ok (with_pointer d currentPointer, stream)
      else if 286 <=? symbol then Failed
      else
        let! (len, stream) := read_extra lengthBase lengthExtraBits (symbol - 257) stream in
        let! (symbol, stream) := Decode (m_DistanceTree d) stream in
        if (symbol <? 0) || (30 <=? symbol) then Failed
        else
          let! (distance, stream) := read_extra distBase distExtraBits symbol stream in
          if currentPointer <? distance then Failed
          else
            let! (d, currentPointer) :=
              (if m_OutputEnd d <=? currentPointer + len then
                 let! d := EnsureCapacity d (len * 2) in Ok (d, m_OutputPointer d)
               else Ok (d, currentPointer)) in
            let! (d, currentPointer) :=
              copy_match (Z.to_nat len) d currentPointer (currentPointer - distance) distance in
            DecodeBlock_loop fuel d stream currentPointer
  end.

Definition DecodeBlock (fuel : nat) (d : Decompressor) (stream : Str) : Outcome (Decompressor * Str) :=
  DecodeBlock_loop fuel d stream (m_OutputPointer d).

Definition codeLengthOrder : list Z := [16; 17; 18; 0; 8; 7; 9; 6; 10; 5; 11; 4; 12; 3; 13; 2; 14; 1; 15].

Fixpoint read_code_lengths (order : list Z) (lengths : list Z) (stream : Str) : Outcome (list Z * Str) :=
  match order with
  | [] => Ok (lengths, stream)
  | o :: order =>
      let '(l, stream) := ReadBits 3 stream in
      let! lengths := set lengths o l in
      read_code_lengths order lengths stream
  end.

(** [Memory::Fill(allCodeLengths + i, value, repeat)]. *)
Fixpoint fill (a : list Z) (i : Z) (n : nat) (v : Z) : Outcome (list Z) :=
  match n with
  | O => Ok a
  | S n => let! a := set a i v in fill a (i + 1) n v
  end.

Fixpoint decode_lengths (fuel : nat) (tree : HuffmanTree) (all : list Z) (i totalCodes : Z) (stream : Str)
    : Outcome (list Z * Z * Str) :=
  match fuel with
  | O => OutOfFuel
  | S fuel =>
      if i <? totalCodes then
        let! (symbol, stream) := Decode tree stream in
        if (0 <=? symbol) && (symbol <=? 15) then
          let! all := set all i (u8 symbol) in
          decode_lengths fuel tree all (i + 1) totalCodes stream
        else
          let! (value, repeat, stream) :=
            (if symbol =? 16 then
               let! value := get all (i - 1) in
               let '(x, stream) := ReadBits 2 stream in Ok (value, x + 3, stream)
             else if symbol =? 17 then let '(x, stream) := ReadBits 3 stream in Ok (0, x + 3, stream)
             else if symbol =? 18 then let '(x, stream) := ReadBits 7 stream in Ok (0, x + 11, stream)
             else Failed) in
          let! all := fill all i (Z.to_nat repeat) value in
          decode_lengths fuel tree all (i + repeat) totalCodes stream
      else Ok (all, i, stream)
  end.

(** What the local variables hold before they are written. *)
Record Locals := mkLocals { local_allCodeLengths : list Z; local_codeLengthTree : HuffmanTree }.

Definition DecodeCanonicalCodes (stack : Locals) (d : Decompressor) (stream : Str) : Outcome (Decompressor * Str) :=
  let '(x, stream) := ReadBits 5 stream in
  let literalCodeCount := x + 257 in
  let '(x, stream) := ReadBits 5 stream in
  let distanceCodeCount := x + 1 in
  let '(x, stream) := ReadBits 4 stream in
  let codeLengthCodeCount := x + 4 in
  let totalCodes := literalCodeCount + distanceCodeCount in
  let! (codeLengths, stream) :=
    read_code_lengths (take (Z.to_nat codeLengthCodeCount) codeLengthOrder) (replicate 19 0) stream in
  let! codeLengthTree := Build (local_codeLengthTree stack) codeLengths in
  let! (all, i, stream) := decode_lengths 321 codeLengthTree (local_allCodeLengths stack) 0 totalCodes stream in
  if negb (i =? totalCodes) then Failed
  else
    let! lit := Build (m_LiteralLengthTree d) (take (Z.to_nat literalCodeCount) all) in
    let! dist := Build (m_DistanceTree d)
      (take (Z.to_nat distanceCodeCount) (drop (Z.to_nat literalCodeCount) all)) in
    Ok (with_trees d lit dist, stream).

Definition defaultLengths : list Z :=
  replicate 144 8 ++ replicate 112 9 ++ replicate 24 7 ++ replicate 8 8.
Definition defaultDistances : list Z := replicate 32 5.

Fixpoint store_all (d : Decompressor) (p : Z) (bytes : list Z) : Outcome Decompressor :=
  match bytes with
  | [] => Ok d
  | x :: bytes => let! d := store d p x in store_all d (p + 1) bytes
  end.

Definition ParseBlock (stack : Locals) (d : Decompressor) (blockType : Z) (stream : Str)
    : Outcome (Decompressor * Str) :=
  if blockType =? 0 then
    let stream := AlignToByteBoundary stream in
    let '(length, stream) := ReadU16 stream in
    let '(negatedLength, stream) := ReadU16 stream in
    if negb (Z.lxor length 0xffff =? negatedLength) then Failed
    else
      let! d := (if m_OutputEnd d <=? m_OutputPointer d + length then EnsureCapacity d (length * 2) else Ok d) in
      let '(bytes, stream) := ReadBytes (Z.to_nat length) stream in
      let! d := store_all d (m_OutputPointer d) bytes in
      Ok (with_pointer d (m_OutputPointer d + length), stream)
  else if blockType =? 1 then
    let! lit := Build (m_LiteralLengthTree d) defaultLengths in
    let! dist := Build (m_DistanceTree d) defaultDistances in
    Ok (with_trees d lit dist, stream)
  else if blockType =? 2 then DecodeCanonicalCodes stack d stream
  else Failed.

(** Blocks until the final one.  Left out is what follows the loop: the last four bytes of the input and the
    checksum of the output are read and compared, a mismatch is logged, and the stream is accepted either
    way, so neither the output nor the result depends on it. *)
Fixpoint DecompressStream (fuel : nat) (stack : Locals) (d : Decompressor) (stream : Str) : Outcome (Decompressor * Str) :=
  match fuel with
  | O => OutOfFuel
  | S fuel' =>
      let '(final, stream) := ReadBits 1 stream in
      let '(type, stream) := ReadBits 2 stream in
      let! (d, stream) := ParseBlock stack d type stream in
      let! (d, stream) := DecodeBlock fuel d stream in
      if truthy final then Ok (d, stream) else DecompressStream fuel' stack d stream
  end.

(** How [Header] reads its two bytes. *)
Variable header_method : Z -> Z.
Variable header_dictionary : Z -> bool.
Variable header_data : Z -> Z.

(** The buffer is freed when the stream is bad (the trees are left as they were: each block builds them anew). *)
Definition release (d : Decompressor) : Decompressor :=
  mkDecompressor None 0 (m_OutputPointer d) (m_LiteralLengthTree d) (m_DistanceTree d).

Definition Decompress (fuel : nat) (stack : Locals) (d : Decompressor) (inputSize initialSize : Z) (stream : Str)
    : Outcome (bool * Decompressor) :=
  let initialSize := if initialSize =? 0 then inputSize else initialSize in
  let! d := EnsureCapacity d initialSize in
  let '(header, stream) := ReadU16 stream in
  if negb (header_method header =? 8) then Ok (false, d)
  else if header_dictionary header then Ok (false, d)
  else if truthy (header_data header mod 31) then Ok (false, d)
  else if IsEndOfStream stream then Ok (false, d)
  else
    match DecompressStream fuel stack d stream with
    | Failed => Ok (false, release d)
    | Ok (d, _) => Ok (true, mkDecompressor (m_OutputBuffer d) (m_OutputPointer d) (m_OutputPointer d)
                               (m_LiteralLengthTree d) (m_DistanceTree d))
    | OutOfBounds => OutOfBounds
    | OutOfFuel => OutOfFuel
    end.
End Stream.
