(* ===== verification/Huffman.v ===== *)
(** * Canonical Huffman codes: specification and correctness of [Build] and [Decode]

    The code of a symbol is given by its length and its rank among the symbols of
    that length.  Seen as an interval of 16-bit prefixes the codes are disjoint;
    [Decode] finds the symbol whose interval holds the next bits, on the fast path
    and on the slow one. *)

From Stdlib Require Import ZArith Lia Bool.
From stdpp Require Import base gmap list numbers.
From S2P Require Import Prelude ZLib.

(** ** Reversing bits *)
Lemma testbit_swap (r m1 m2 k i : Z) :
  0 <= k -> 0 <= i ->
  Z.testbit (((r .& m1) .>> k) .| ((r .& m2) .<< k)) i =
    (Z.testbit r (i + k) && Z.testbit m1 (i + k)) || (Z.testbit r (i - k) && Z.testbit m2 (i - k)).
Proof. intros Hk Hi. rewrite Z.lor_spec, Z.shiftr_spec, Z.shiftl_spec, !Z.land_spec by lia. reflexivity. Qed.

(** Evaluate the constant parts of a bit test. *)
Ltac const_bits :=
  repeat match goal with
  | |- context [Z.testbit (Zpos ?p) ?k] =>
      let b := eval vm_compute in (Z.testbit (Zpos p) k) in change (Z.testbit (Zpos p) k) with b
  end; rewrite ?andb_true_r, ?andb_false_r, ?orb_false_r, ?orb_false_l.

Lemma ReverseBits_16 (v i : Z) :
  0 <= i -> Z.testbit (ReverseBits v 16) i = (i <? 16) && Z.testbit v (15 - i).
Proof.
  intros Hi. unfold ReverseBits. rewrite Z.shiftr_0_r.
  destruct (Z.ltb_spec i 16) as [Hlt|Hge].
  - assert (Hc : i = 0 \/ i = 1 \/ i = 2 \/ i = 3 \/ i = 4 \/ i = 5 \/ i = 6 \/ i = 7 \/ i = 8 \/ i = 9 \/
      i = 10 \/ i = 11 \/ i = 12 \/ i = 13 \/ i = 14 \/ i = 15) by lia.
    repeat (destruct Hc as [->|Hc]); try subst i; repeat (rewrite testbit_swap by lia; const_bits); reflexivity.
  - rewrite testbit_swap by lia. cbn [andb].
    rewrite (testbit_above 16 0xff00), (testbit_above 8 0x00ff) by (unfold in_u; lia).
    now rewrite !andb_false_r.
Qed.

Lemma ReverseBits_16_range (v : Z) : in_u 16 (ReverseBits v 16).
Proof.
  assert (Hn : 0 <= ReverseBits v 16).
  { unfold ReverseBits. rewrite Z.shiftr_0_r. apply Z.lor_nonneg.
    split; [apply Z.shiftr_nonneg|apply Z.shiftl_nonneg]; apply Z.land_nonneg; right; lia. }
  apply in_u_bits; [lia|exact Hn|]. intros i Hi. rewrite ReverseBits_16 by lia.
  destruct (Z.ltb_spec i 16); [lia|reflexivity].
Qed.

Lemma ReverseBits_shift (v l : Z) : ReverseBits v l = ReverseBits v 16 .>> (16 - l).
Proof. unfold ReverseBits. now rewrite Z.sub_diag, Z.shiftr_0_r. Qed.

Lemma ReverseBits_bit (c l i : Z) :
  1 <= l <= 16 -> in_u l c -> 0 <= i -> Z.testbit (ReverseBits c l) i = (i <? l) && Z.testbit c (l - 1 - i).
Proof.
  intros Hl Hc Hi. rewrite ReverseBits_shift, Z.shiftr_spec, ReverseBits_16 by lia.
  replace (15 - (i + (16 - l))) with (l - 1 - i) by lia. f_equal.
  apply eq_true_iff_eq. rewrite !Z.ltb_lt. lia.
Qed.

Lemma ReverseBits_range (c l : Z) : 1 <= l <= 16 -> in_u l c -> in_u l (ReverseBits c l).
Proof.
  intros Hl Hc. apply in_u_bits; [lia| |].
  - rewrite ReverseBits_shift. apply Z.shiftr_nonneg, ReverseBits_16_range.
  - intros i Hi. rewrite ReverseBits_bit by (trivial; lia). destruct (Z.ltb_spec i l); [lia|reflexivity].
Qed.

(** The first [l] bits of the stream are the code [c], most significant bit first. *)
Lemma prefix_iff (x c l : Z) :
  1 <= l <= 16 -> in_u l c ->
  wrap l x = ReverseBits c l <-> ReverseBits x 16 .>> (16 - l) = c.
Proof.
  intros Hl Hc. split; intros E.
  - apply Z.bits_inj'. intros i Hi. rewrite Z.shiftr_spec, ReverseBits_16 by lia.
    destruct (Z.ltb_spec (i + (16 - l)) 16) as [Hlt|Hge].
    + cbn [andb]. replace (15 - (i + (16 - l))) with (l - 1 - i) by lia.
      apply (f_equal (λ z, Z.testbit z (l - 1 - i))) in E.
      rewrite testbit_wrap, ReverseBits_bit in E by (trivial; lia).
      destruct (Z.ltb_spec (l - 1 - i) l); [|lia]. cbn [andb] in E. rewrite andb_true_r in E.
      rewrite E. f_equal. lia.
    + symmetry. apply (testbit_above l); trivial; lia.
  - apply Z.bits_inj'. intros i Hi. rewrite testbit_wrap, ReverseBits_bit by (trivial; lia).
    destruct (Z.ltb_spec i l) as [Hlt|Hge]; [|now rewrite andb_false_r]. rewrite andb_true_r. cbn [andb].
    rewrite <- E, Z.shiftr_spec, ReverseBits_16 by lia. destruct (Z.ltb_spec (l - 1 - i + (16 - l)) 16); [|lia].
    cbn [andb]. f_equal. lia.
Qed.

(** ** The canonical code *)
Definition count (l : Z) (ls : list Z) : Z := Z.of_nat (count_occ Z.eq_dec ls l).

Lemma count_cons l x ls : count l (x :: ls) = (if Z.eq_dec x l then 1 else 0) + count l ls.
Proof. unfold count. simpl. destruct (Z.eq_dec x l); lia. Qed.
Lemma count_app l ls ls' : count l (ls ++ ls') = count l ls + count l ls'.
Proof. unfold count. rewrite count_occ_app. lia. Qed.
Lemma count_nonneg l ls : 0 <= count l ls.
Proof. unfold count. lia. Qed.

Section Code.
Variable ls : list Z.

(** The first code of each length and the number of shorter symbols, by recursion. *)
Fixpoint first_code (l : nat) : Z :=
  match l with
  | O => 0
  | S O => 0
  | S l => 2 * (first_code l + count (Z.of_nat l) ls)
  end.
Fixpoint first_symbol (l : nat) : Z :=
  match l with
  | O => 0
  | S O => 0
  | S l => first_symbol l + count (Z.of_nat l) ls
  end.
Definition first (l : Z) : Z := first_code (Z.to_nat l).
Definition firstSym (l : Z) : Z := first_symbol (Z.to_nat l).

Lemma first_S l : 1 <= l -> first (l + 1) = 2 * (first l + count l ls).
Proof.
  intros Hl. unfold first. replace (Z.to_nat (l + 1)) with (S (Z.to_nat l)) by lia.
  destruct (Z.to_nat l) as [|n] eqn:E; [lia|]. cbn [first_code]. rewrite <- E, Z2Nat.id by lia. reflexivity.
Qed.
Lemma firstSym_S l : 1 <= l -> firstSym (l + 1) = firstSym l + count l ls.
Proof.
  intros Hl. unfold firstSym. replace (Z.to_nat (l + 1)) with (S (Z.to_nat l)) by lia.
  destruct (Z.to_nat l) as [|n] eqn:E; [lia|]. cbn [first_symbol]. rewrite <- E, Z2Nat.id by lia. reflexivity.
Qed.

(** The code and the index of a symbol of length [l]. *)
Definition rank (s : nat) (l : Z) : Z := count l (take s ls).
Definition code (s : nat) (l : Z) : Z := first l + rank s l.
Definition index (s : nat) (l : Z) : Z := firstSym l + rank s l.

Lemma rank_lt s l : ls !! s = Some l -> 0 <= rank s l < count l ls.
Proof.
  intros Hs. split; [apply count_nonneg|]. unfold rank. apply take_drop_middle in Hs as E.
  rewrite <- E at 2. rewrite count_app, count_cons. destruct (Z.eq_dec l l); [|tauto].
  pose proof (count_nonneg l (drop (S s) ls)). lia.
Qed.

Lemma rank_inj s s' l : ls !! s = Some l -> ls !! s' = Some l -> rank s l = rank s' l -> s = s'.
Proof.
  assert (Hlt : forall i j, (i < j)%nat -> ls !! i = Some l -> rank i l < rank j l).
  { intros i j Hij Hi. unfold rank. rewrite <- (take_drop i (take j ls)), take_take, Nat.min_l by lia.
    rewrite count_app. rewrite skipn_firstn_comm.
    destruct (drop i ls) as [|x r] eqn:Ed.
    - apply (f_equal (λ k, k !! 0%nat)) in Ed. rewrite lookup_drop, Nat.add_0_r, Hi in Ed. discriminate.
    - assert (x = l) as ->.
      { apply (f_equal (λ k, k !! 0%nat)) in Ed. rewrite lookup_drop, Nat.add_0_r, Hi in Ed. simpl in Ed. congruence. }
      destruct (j - i)%nat eqn:Ej; [lia|]. cbn [take]. rewrite count_cons. destruct (Z.eq_dec l l); [|tauto].
      pose proof (count_nonneg l (take n r)). lia. }
  intros Hs Hs' E. destruct (Nat.lt_trichotomy s s') as [H|[H|H]]; [|exact H|].
  - specialize (Hlt _ _ H Hs). lia.
  - specialize (Hlt _ _ H Hs'). lia.
Qed.

(** The condition [Build] checks: the codes of each length fit. *)
Definition fits : Prop := forall l, 1 <= l <= 15 -> first l + count l ls <= 2 ^ l.
Hypothesis Hfits : fits.

Lemma first_nonneg l : 1 <= l -> 0 <= first l.
Proof.
  intros Hl. replace l with (Z.of_nat (Z.to_nat (l - 1)) + 1) by lia. induction (Z.to_nat (l - 1)) as [|n IH]; [reflexivity|].
  replace (Z.of_nat (S n) + 1) with (Z.of_nat n + 1 + 1) by lia. rewrite first_S by lia.
  pose proof (count_nonneg (Z.of_nat n + 1) ls). lia.
Qed.

(** Codes as intervals of 16-bit prefixes: longer codes come after shorter ones. *)
Definition lower (l : Z) : Z := first l * 2 ^ (16 - l).
Definition upper (l : Z) : Z := (first l + count l ls) * 2 ^ (16 - l).

Lemma upper_lower_S l : 1 <= l < 15 -> upper l = lower (l + 1).
Proof.
  intros Hl. unfold upper, lower. rewrite first_S by lia. replace (16 - l) with (16 - (l + 1) + 1) by lia.
  rewrite Z.pow_add_r by lia. lia.
Qed.

Lemma upper_lower l l' : 1 <= l -> l < l' -> l' <= 15 -> upper l <= lower l'.
Proof.
  intros Hl Hlt Hl'. replace l' with (l + 1 + Z.of_nat (Z.to_nat (l' - l - 1))) by lia.
  assert (Hn : l + 1 + Z.of_nat (Z.to_nat (l' - l - 1)) <= 15) by lia. revert Hn.
  induction (Z.to_nat (l' - l - 1)) as [|n IH]; intros Hn.
  - replace (l + 1 + Z.of_nat 0) with (l + 1) by lia. rewrite upper_lower_S; lia.
  - specialize (IH ltac:(lia)). replace (l + 1 + Z.of_nat (S n)) with (l + 1 + Z.of_nat n + 1) by lia.
    rewrite <- upper_lower_S by lia.
    assert (lower (l + 1 + Z.of_nat n) <= upper (l + 1 + Z.of_nat n)); [|lia].
    unfold lower, upper. apply Z.mul_le_mono_nonneg_r; [lia|]. pose proof (count_nonneg (l + 1 + Z.of_nat n) ls). lia.
Qed.

Lemma code_range s l : ls !! s = Some l -> 1 <= l <= 15 -> first l <= code s l < first l + count l ls /\ in_u l (code s l).
Proof.
  intros Hs Hl. pose proof (rank_lt s l Hs). pose proof (first_nonneg l ltac:(lia)). pose proof (Hfits l Hl).
  unfold code, in_u. lia.
Qed.

(** The 16-bit prefix [r] starts with the code of [s]. *)
Definition has_prefix (r : Z) (s : nat) (l : Z) : Prop :=
  ls !! s = Some l /\ 1 <= l <= 15 /\ r .>> (16 - l) = code s l.

Lemma has_prefix_interval r s l :
  has_prefix r s l -> code s l * 2 ^ (16 - l) <= r < (code s l + 1) * 2 ^ (16 - l) /\ lower l <= r < upper l.
Proof.
  intros (Hs & Hl & Hr). rewrite Z.shiftr_div_pow2 in Hr by lia.
  assert (Hp : 0 < 2 ^ (16 - l)) by (apply Z.pow_pos_nonneg; lia).
  pose proof (Z.div_mod r (2 ^ (16 - l)) ltac:(lia)) as Hdm. pose proof (Z.mod_pos_bound r (2 ^ (16 - l)) Hp).
  destruct (code_range s l Hs Hl) as [Hc _]. rewrite Hr in Hdm. unfold lower, upper. nia.
Qed.

(** No two symbols have codes that start the same bits. *)
Lemma prefix_unique r s s' l l' : has_prefix r s l -> has_prefix r s' l' -> s = s' /\ l = l'.
Proof.
  intros H1 H2. pose proof (has_prefix_interval _ _ _ H1) as [_ I1]. pose proof (has_prefix_interval _ _ _ H2) as [_ I2].
  destruct H1 as (Hs & Hl & Hr), H2 as (Hs' & Hl' & Hr'). assert (l = l') as <-.
  { destruct (Z.lt_trichotomy l l') as [H|[H|H]]; [|exact H|].
    - pose proof (upper_lower l l' ltac:(lia) H ltac:(lia)). lia.
    - pose proof (upper_lower l' l ltac:(lia) H ltac:(lia)). lia. }
  split; [|reflexivity]. apply (rank_inj s s' l Hs Hs'). rewrite Hr in Hr'. unfold code in Hr'. lia.
Qed.
End Code.

(** ** Array access by integer index *)
Definition at_ (a : list Z) (i : Z) : Z := default 0 (a !! Z.to_nat i).

Lemma get_at a i : 0 <= i < Z.of_nat (length a) -> get a i = Ok (at_ a i).
Proof.
  intros Hi. unfold get, at_. destruct (Z.ltb_spec i 0); [lia|].
  destruct (lookup_lt_is_Some_2 a (Z.to_nat i) ltac:(lia)) as [x ->]. reflexivity.
Qed.
Lemma set_at a i v : 0 <= i < Z.of_nat (length a) -> set a i v = Ok (<[Z.to_nat i := v]> a).
Proof. intros Hi. unfold set. destruct (Z.ltb_spec i 0), (Z.leb_spec (Z.of_nat (length a)) i); simpl; trivial; lia. Qed.
Lemma at_insert a i j v :
  0 <= i < Z.of_nat (length a) -> 0 <= j -> at_ (<[Z.to_nat i := v]> a) j = if j =? i then v else at_ a j.
Proof.
  intros Hi Hj. unfold at_. destruct (Z.eqb_spec j i) as [->|Hne].
  - now rewrite list_lookup_insert_eq by lia.
  - now rewrite list_lookup_insert_ne by lia.
Qed.

(** ** Counting the lengths *)
Lemma count_lengths_spec ls : forall counts,
  Forall (λ l, 0 <= l <= 15) ls -> length counts = 17%nat ->
  exists counts', count_lengths counts ls = Ok counts' /\ length counts' = 17%nat /\
    forall l, 0 <= l -> at_ counts' l = at_ counts l + count l ls.
Proof.
  induction ls as [|x ls IH]; intros counts Hls Hlen.
  - exists counts. split_and!; trivial. intros l _. unfold count. simpl. lia.
  - apply Forall_cons_iff in Hls as [Hx Hls]. cbn [count_lengths].
    rewrite get_at by lia. cbn [bind]. rewrite set_at by lia. cbn [bind].
    destruct (IH (<[Z.to_nat x := at_ counts x + 1]> counts) Hls) as (c' & -> & Hl & Hc).
    { now rewrite length_insert. }
    exists c'. split_and!; trivial. intros l Hlp. rewrite Hc, at_insert, count_cons by lia.
    destruct (Z.eqb_spec l x) as [E|E], (Z.eq_dec x l); subst; lia || congruence.
Qed.

(** At most as many symbols have a length as there are symbols. *)
Lemma first_symbol_cons x ls n :
  first_symbol (x :: ls) n = (if (1 <=? x) && (x <? Z.of_nat n) then 1 else 0) + first_symbol ls n.
Proof.
  induction n as [|[|n] IH].
  - destruct (Z.leb_spec 1 x), (Z.ltb_spec x (Z.of_nat 0)); cbn [first_symbol andb]; lia.
  - destruct (Z.leb_spec 1 x), (Z.ltb_spec x (Z.of_nat 1)); cbn [first_symbol andb]; lia.
  - change (first_symbol (x :: ls) (S (S n))) with (first_symbol (x :: ls) (S n) + count (Z.of_nat (S n)) (x :: ls)).
    change (first_symbol ls (S (S n))) with (first_symbol ls (S n) + count (Z.of_nat (S n)) ls).
    rewrite IH, count_cons. destruct (Z.eq_dec x (Z.of_nat (S n))),
      (Z.leb_spec 1 x), (Z.ltb_spec x (Z.of_nat (S n))), (Z.ltb_spec x (Z.of_nat (S (S n)))); cbn [andb]; lia.
Qed.
Lemma first_symbol_le ls n : 0 <= first_symbol ls n <= Z.of_nat (length ls).
Proof.
  induction ls as [|x ls IH].
  - assert (first_symbol [] n = 0) as ->; [|simpl; lia]. induction n as [|[|n] IH]; trivial.
    change (first_symbol [] (S (S n))) with (first_symbol [] (S n) + 0). lia.
  - rewrite first_symbol_cons. cbn [length]. destruct ((1 <=? x) && (x <? Z.of_nat n)); lia.
Qed.
Lemma firstSym_le ls l : 0 <= firstSym ls l <= Z.of_nat (length ls).
Proof. apply first_symbol_le. Qed.

Section Tables.
Variable ls : list Z.
Hypothesis Hls : Forall (λ l, 0 <= l <= 15) ls.
Hypothesis Hlen : Z.of_nat (length ls) <= 288.

Lemma index_range s l : ls !! s = Some l -> 1 <= l -> 0 <= index ls s l < 288.
Proof.
  intros Hs Hl. pose proof (rank_lt ls s l Hs). pose proof (firstSym_le ls l). pose proof (firstSym_le ls (l + 1)) as Hn.
  rewrite firstSym_S in Hn by lia. unfold index. lia.
Qed.

Lemma firstSym_mono l l' : 1 <= l -> l < l' -> firstSym ls l + count l ls <= firstSym ls l'.
Proof.
  intros Hl Hlt. replace l' with (l + 1 + Z.of_nat (Z.to_nat (l' - l - 1))) by lia.
  induction (Z.to_nat (l' - l - 1)) as [|n IH].
  - replace (l + 1 + Z.of_nat 0) with (l + 1) by lia. rewrite firstSym_S; lia.
  - replace (l + 1 + Z.of_nat (S n)) with (l + 1 + Z.of_nat n + 1) by lia. rewrite firstSym_S by lia.
    pose proof (count_nonneg (l + 1 + Z.of_nat n) ls). lia.
Qed.

Lemma index_inj s s' l l' :
  ls !! s = Some l -> ls !! s' = Some l' -> 1 <= l -> 1 <= l' -> index ls s l = index ls s' l' -> s = s'.
Proof.
  intros Hs Hs' Hl Hl' E. pose proof (rank_lt ls s l Hs). pose proof (rank_lt ls s' l' Hs'). unfold index in E.
  destruct (Z.lt_trichotomy l l') as [H1|[<-|H1]].
  - pose proof (firstSym_mono l l' Hl H1). lia.
  - apply (rank_inj ls s s' l Hs Hs'). lia.
  - pose proof (firstSym_mono l' l Hl' H1). lia.
Qed.

(** ** Assigning the first codes *)
Record assigned (l : Z) (a : Assign) : Prop := {
  as_len : length (nextCodeForLength a) = 16%nat /\ length (a_FirstCode a) = 16%nat /\
           length (a_FirstSymbol a) = 16%nat /\ length (a_MaxCode a) = 17%nat;
  as_tables : forall k, 1 <= k < l -> at_ (nextCodeForLength a) k = first ls k /\ at_ (a_FirstCode a) k = first ls k /\
           at_ (a_FirstSymbol a) k = firstSym ls k /\ at_ (a_MaxCode a) k = upper ls k /\
           first ls k + count k ls <= 2 ^ k;
  as_code : huffmanCode a = first ls l;
  as_total : totalSymbolsAssigned a = firstSym ls l
}.

(** Codes shorter than [l] fit, so the first code of length [l] fits too. *)
Lemma first_fits l : 1 <= l -> (forall k, 1 <= k < l -> first ls k + count k ls <= 2 ^ k) -> 0 <= first ls l <= 2 ^ l.
Proof.
  intros Hl Hk. split; [now apply first_nonneg|]. destruct (decide (l = 1)) as [->|Hne]; [vm_compute; congruence|].
  specialize (Hk (l - 1) ltac:(lia)). replace l with (l - 1 + 1) by lia. rewrite first_S by lia.
  rewrite Z.pow_add_r by lia. lia.
Qed.

Lemma code_overflow l c : 1 <= l <= 15 -> 0 <= first ls l <= 2 ^ l -> c = count l ls ->
  truthy c && (1 .<< l <=? u64 (first ls l + c - 1)) = negb (first ls l + count l ls <=? 2 ^ l).
Proof.
  intros Hl Hf ->. pose proof (count_nonneg l ls). unfold truthy.
  assert (2 ^ l <= 2 ^ 15) by (apply Z.pow_le_mono_r; lia). change (2 ^ 15) with 32768 in *.
  assert (Z.of_nat (length ls) <= 288) by exact Hlen.
  assert (count l ls <= Z.of_nat (length ls)) by (unfold count; pose proof (count_occ_bound Z.eq_dec l ls); lia).
  rewrite Z.shiftl_1_l. destruct (Z.eqb_spec (count l ls) 0) as [E|E]; cbn [negb andb].
  - destruct (Z.leb_spec (first ls l + count l ls) (2 ^ l)); [reflexivity|lia].
  - unfold u64. rewrite wrap_small by (unfold in_u; lia).
    destruct (Z.leb_spec (2 ^ l) (first ls l + count l ls - 1)), (Z.leb_spec (first ls l + count l ls) (2 ^ l));
      trivial; lia.
Qed.

Lemma assign_codes_spec counts (n : nat) : forall l a,
  length counts = 17%nat -> (forall k, 1 <= k -> at_ counts k = count k ls) ->
  1 <= l -> l + Z.of_nat n = 16 -> assigned l a ->
  (exists a', assign_codes counts (seqZ l (Z.of_nat n)) a = Ok a' /\ assigned 16 a') \/
  (assign_codes counts (seqZ l (Z.of_nat n)) a = Failed /\ ~ fits ls).
Proof.
  induction n as [|n IH]; intros l a Hcl Hcounts Hl Hn Ha.
  { left. exists a. replace 16 with l by lia. split; trivial. }
  rewrite seqZ_cons by lia. replace (Z.pred (Z.of_nat (S n))) with (Z.of_nat n) by lia.
  destruct Ha as [(L1 & L2 & L3 & L4) Ht Hc Htot]. cbn [assign_codes].
  assert (Hf : 0 <= first ls l <= 2 ^ l) by (apply first_fits; [lia|intros k Hk; now apply Ht]).
  assert (2 ^ l <= 2 ^ 15) by (apply Z.pow_le_mono_r; lia). change (2 ^ 15) with 32768 in *.
  rewrite get_at by lia. cbn [bind]. rewrite Hcounts by lia. rewrite !set_at by lia. cbn [bind].
  rewrite Hc, Htot. rewrite code_overflow by (trivial; lia). pose proof (firstSym_le ls l).
  unfold u16. rewrite !wrap_small by (unfold in_u; lia).
  destruct (Z.leb_spec (first ls l + count l ls) (2 ^ l)) as [Hok|Hbad]; cbn [negb].
  - cbn [bind]. apply IH; trivial; try lia. split; cbn [nextCodeForLength a_FirstCode a_FirstSymbol a_MaxCode huffmanCode totalSymbolsAssigned].
    + now rewrite !length_insert.
    + intros k Hk. rewrite !at_insert by lia. destruct (Z.eqb_spec k l) as [->|Hne].
      * split_and!; trivial. unfold upper. now rewrite Z.shiftl_mul_pow2 by lia.
      * apply Ht. lia.
    + replace (Z.succ l) with (l + 1) by lia. rewrite first_S, Z.shiftl_mul_pow2 by lia. lia.
    + replace (Z.succ l) with (l + 1) by lia. now rewrite firstSym_S by lia.
  - right. split; trivial. intros Hfits. specialize (Hfits l ltac:(lia)). lia.
Qed.
End Tables.

(** ** Filling the fast table *)
Lemma fill_fast_length fuel : forall t r l v, length (fill_fast fuel t r l v) = length t.
Proof.
  induction fuel as [|fuel IH]; intros t r l v; [reflexivity|]. cbn [fill_fast].
  destruct (r <? 1 .<< FAST_BITS); [|reflexivity]. now rewrite IH, length_insert.
Qed.

Lemma fill_fast_spec fuel : forall t r l v i,
  length t = 512%nat -> 0 <= l -> 0 <= r -> 512 <= r + Z.of_nat fuel -> 0 <= i < 512 ->
  at_ (fill_fast fuel t r l v) i = if (r <=? i) && ((i - r) mod 2 ^ l =? 0) then v else at_ t i.
Proof.
  induction fuel as [|fuel IH]; intros t r l v i Ht Hl Hr Hf Hi; cbn [fill_fast].
  { destruct (Z.leb_spec r i); [lia|reflexivity]. }
  change (1 .<< FAST_BITS) with 512. rewrite Z.shiftl_1_l.
  assert (Hp : 0 < 2 ^ l) by (apply Z.pow_pos_nonneg; lia).
  destruct (Z.ltb_spec r 512) as [Hlt|Hge]; [|destruct (Z.leb_spec r i); [lia|reflexivity]].
  rewrite IH by (rewrite ?length_insert; lia). rewrite at_insert by lia.
  destruct (Z.eqb_spec i r) as [->|Hne].
  - rewrite Z.sub_diag, Z.mod_0_l by lia. destruct (Z.leb_spec (r + 2 ^ l) r), (Z.leb_spec r r); try lia. reflexivity.
  - replace ((i - (r + 2 ^ l)) mod 2 ^ l) with ((i - r) mod 2 ^ l).
    2: { replace (i - r) with (i - (r + 2 ^ l) + 1 * 2 ^ l) by lia. now rewrite Z.mod_add by lia. }
    destruct (Z.eqb_spec ((i - r) mod 2 ^ l) 0) as [E|E]; [|now rewrite !andb_false_r]. rewrite !andb_true_r.
    destruct (Z.leb_spec (r + 2 ^ l) i), (Z.leb_spec r i); trivial; try lia.
    rewrite Z.mod_small in E by lia. lia.
Qed.

Lemma fill_condition r l i : 0 <= l -> in_u l r -> 0 <= i -> (r <=? i) && ((i - r) mod 2 ^ l =? 0) = (wrap l i =? r).
Proof.
  intros Hl Hr Hi. unfold in_u, wrap in *. assert (Hp : 0 < 2 ^ l) by (apply Z.pow_pos_nonneg; lia).
  pose proof (Z.div_mod i (2 ^ l) ltac:(lia)) as Hdm. pose proof (Z.mod_pos_bound i (2 ^ l) Hp).
  pose proof (Z.div_pos i (2 ^ l) Hi Hp).
  destruct (Z.eqb_spec (i mod 2 ^ l) r) as [E|E].
  - rewrite <- E at 2. replace (i - i mod 2 ^ l) with (i / 2 ^ l * 2 ^ l) by lia.
    rewrite Z.mod_mul by lia. destruct (Z.leb_spec r i); [reflexivity|]. nia.
  - destruct (Z.leb_spec r i); [|reflexivity]. apply Z.eqb_neq. intros Hm. apply E.
    apply Z.mod_divide in Hm as [q Hq]; [|lia]. replace i with (r + q * 2 ^ l) by lia.
    rewrite Z.mod_add by lia. apply Z.mod_small. lia.
Qed.

(** ** Entering the symbols *)
Section Symbols.
Variable ls : list Z.
Hypothesis Hls : Forall (λ l, 0 <= l <= 15) ls.
Hypothesis Hlen : Z.of_nat (length ls) <= 288.
Hypothesis Hfits : fits ls.

(** The nine bits [x] start with the code of [s]. *)
Definition fast_match (x : Z) (s : nat) (l : Z) : Prop :=
  ls !! s = Some l /\ 1 <= l <= 9 /\ wrap l x = ReverseBits (code ls s l) l.

Lemma fast_match_prefix x s l : fast_match x s l -> has_prefix ls (ReverseBits x 16) s l.
Proof.
  intros (Hs & Hl & Hx). split_and!; trivial; try lia.
  apply prefix_iff; trivial; [lia|]. apply (code_range ls Hfits); trivial. lia.
Qed.

Record filled (i : nat) (t : Table) : Prop := {
  fi_len : length (t_next t) = 16%nat /\ length (t_fast t) = 512%nat /\
           length (t_lengths t) = 288%nat /\ length (t_values t) = 288%nat;
  fi_next : forall k, 1 <= k <= 15 -> at_ (t_next t) k = first ls k + count k (take i ls);
  fi_index : forall s l, (s < i)%nat -> ls !! s = Some l -> 1 <= l ->
    at_ (t_lengths t) (index ls s l) = l /\ at_ (t_values t) (index ls s l) = Z.of_nat s;
  fi_fast : forall x s l, 0 <= x < 512 -> (s < i)%nat -> fast_match x s l -> at_ (t_fast t) x = l * 512 + Z.of_nat s;
  fi_empty : forall x, 0 <= x < 512 -> at_ (t_fast t) x = 0 \/ exists s l, (s < i)%nat /\ fast_match x s l
}.

Lemma fast_value s l : 1 <= l <= 15 -> 0 <= s < 512 -> u16 ((l .<< 9) .| s) = l * 512 + s.
Proof.
  intros Hl Hs. assert (H0 : (l .<< 9) .& s = 0).
  { apply Z.bits_inj'. intros i Hi. rewrite Z.land_spec, Z.bits_0, Z.shiftl_spec by lia.
    destruct (Z.lt_ge_cases i 9).
    - now rewrite Z.testbit_neg_r by lia.
    - rewrite (testbit_above 9 s) by (unfold in_u; lia). apply andb_false_r. }
  pose proof (Z.add_lor_land (l .<< 9) s) as E. rewrite H0, Z.add_0_r in E. rewrite E.
  rewrite Z.shiftl_mul_pow2 by lia. change (2 ^ 9) with 512. apply wrap_small. unfold in_u. lia.
Qed.

Variable firstA symA : list Z.
Hypothesis HfirstA : length firstA = 16%nat /\ forall k, 1 <= k <= 15 -> at_ firstA k = first ls k.
Hypothesis HsymA : length symA = 16%nat /\ forall k, 1 <= k <= 15 -> at_ symA k = firstSym ls k.

Lemma take_S_count i l k : ls !! i = Some l -> count k (take (S i) ls) = (if Z.eq_dec l k then 1 else 0) + count k (take i ls).
Proof.
  intros Hi. rewrite (take_S_r _ _ _ Hi), count_app, count_cons. unfold count at 2. simpl. lia.
Qed.

(** A symbol of length 0 has no code: nothing changes. *)
Lemma filled_skip i t : ls !! i = Some 0 -> filled i t -> filled (S i) t.
Proof.
  intros Hi [H1 H2 H3 H4 H5]. split; trivial.
  - intros k Hk. rewrite (take_S_count i 0) by trivial. destruct (Z.eq_dec 0 k); [lia|]. rewrite H2 by lia. lia.
  - intros s l Hs Hl Hp. apply H3; trivial. destruct (decide (s = i)) as [->|]; [|lia].
    rewrite Hi in Hl. injection Hl as <-. lia.
  - intros x s l Hx Hs Hm. apply H4; trivial. destruct (decide (s = i)) as [->|]; [|lia].
    destruct Hm as (Hl & Hp & _). rewrite Hi in Hl. injection Hl as <-. lia.
  - intros x Hx. destruct (H5 x Hx) as [|(s & l & Hs & Hm)]; [now left|]. right. exists s, l. split; [lia|trivial].
Qed.

(** The fast table after one more symbol. *)
Lemma filled_fast i l t x :
  filled i t -> ls !! i = Some l -> 1 <= l <= 15 -> 0 <= x < 512 ->
  at_ (if l <=? FAST_BITS then fill_fast 512 (t_fast t) (ReverseBits (code ls i l) l) l (l * 512 + Z.of_nat i) else t_fast t) x =
  if decide (1 <= l <= 9 /\ wrap l x = ReverseBits (code ls i l) l) then l * 512 + Z.of_nat i else at_ (t_fast t) x.
Proof.
  intros [(_ & L2 & _) _ _ _ _] Hi Hl Hx. change FAST_BITS with 9. destruct (code_range ls Hfits i l Hi Hl) as [_ Hc].
  pose proof (ReverseBits_range (code ls i l) l ltac:(lia) Hc) as Hr.
  destruct (Z.leb_spec l 9).
  - rewrite fill_fast_spec, fill_condition by (trivial; unfold in_u in *; lia).
    destruct (Z.eqb_spec (wrap l x) (ReverseBits (code ls i l) l)); destruct (decide _); trivial; tauto || lia.
  - destruct (decide _); [lia|reflexivity].
Qed.

Lemma assign_symbol_spec i l t :
  ls !! i = Some l -> filled i t ->
  exists t', assign_symbol firstA symA (Z.of_nat i) l t = Ok t' /\ filled (S i) t'.
Proof.
  intros Hi Ht. assert (Hl : 0 <= l <= 15) by (eapply Forall_lookup_1 in Hi; [|exact Hls]; exact Hi).
  unfold assign_symbol. destruct (Z.eqb_spec l 0) as [->|Hnz].
  { exists t. split; trivial. now apply filled_skip. }
  assert (Hb : Z.of_nat i < 288) by (apply lookup_lt_Some in Hi; lia).
  pose proof (index_range ls Hlen i l Hi ltac:(lia)) as Hix.
  pose proof Ht as [(L1 & L2 & L3 & L4) Hn Hx Hf He].
  rewrite !get_at by lia. cbn [bind]. rewrite Hn, (proj2 HfirstA), (proj2 HsymA) by lia.
  change (first ls l + count l (take i ls)) with (code ls i l).
  replace (code ls i l - first ls l + firstSym ls l) with (index ls i l) by (unfold code, index; lia).
  rewrite fast_value by lia. unfold u8, u16. rewrite !(wrap_small _ l), (wrap_small _ (Z.of_nat i)) by (unfold in_u; lia).
  rewrite !set_at by lia. cbn [bind]. eexists. split; [reflexivity|].
  split; cbn [t_next t_fast t_lengths t_values].
  - rewrite !length_insert. destruct (l <=? FAST_BITS); rewrite ?fill_fast_length; auto.
  - intros k Hk. rewrite at_insert, (take_S_count i l) by (trivial; lia).
    destruct (Z.eqb_spec k l), (Z.eq_dec l k); subst; try congruence;
      [unfold code, rank; lia|rewrite Hn by lia; lia].
  - intros s l' Hs Hsl Hp. pose proof (index_range ls Hlen s l' Hsl Hp).
    rewrite !at_insert by lia. destruct (Z.eqb_spec (index ls s l') (index ls i l)) as [E|E].
    + apply index_inj in E as ->; trivial; try lia. split; [congruence|reflexivity].
    + apply Hx; trivial. destruct (decide (s = i)) as [->|]; [|lia]. congruence.
  - intros x s l' Hx' Hs Hm. rewrite (filled_fast i l t x) by (trivial; lia). destruct (decide _) as [[Hl9 Hw]|Hno].
    + assert (Hm' : fast_match x i l) by (split_and!; trivial; lia).
      destruct (prefix_unique ls Hfits _ s i l' l (fast_match_prefix _ _ _ Hm) (fast_match_prefix _ _ _ Hm')) as [-> ->].
      reflexivity.
    + apply Hf; trivial. destruct (decide (s = i)) as [->|]; [|lia]. exfalso. apply Hno.
      destruct Hm as (Hsl & Hp & Hw). rewrite Hi in Hsl. injection Hsl as <-. auto.
  - intros x Hx'. rewrite (filled_fast i l t x) by (trivial; lia). destruct (decide _) as [[Hl9 Hw]|Hno].
    + right. exists i, l. split; [lia|]. split_and!; trivial; lia.
    + destruct (He x Hx') as [|(s & l' & Hs & Hm)]; [now left|]. right. exists s, l'. split; [lia|trivial].
Qed.

Lemma assign_symbols_spec rest : forall i t,
  drop i ls = rest -> (i <= length ls)%nat -> filled i t ->
  exists t', assign_symbols firstA symA (Z.of_nat i) rest t = Ok t' /\ filled (length ls) t'.
Proof.
  induction rest as [|l rest IH]; intros i t Hd Hi Ht.
  - exists t. split; trivial. assert (i = length ls) as <-; [|exact Ht].
    apply (f_equal (@length Z)) in Hd. rewrite length_drop in Hd. simpl in Hd. lia.
  - assert (Hl : ls !! i = Some l).
    { apply (f_equal (λ k, k !! 0%nat)) in Hd. now rewrite lookup_drop, Nat.add_0_r in Hd. }
    cbn [assign_symbols]. destruct (assign_symbol_spec i l t Hl Ht) as (t' & -> & Ht'). cbn [bind].
    replace (Z.of_nat i + 1) with (Z.of_nat (S i)) by lia. apply IH; trivial.
    + apply drop_S in Hl. rewrite Hd in Hl. congruence.
    + apply lookup_lt_Some in Hl. lia.
Qed.
End Symbols.

(** ** What [Build] establishes *)
Record represents (ls : list Z) (t : HuffmanTree) : Prop := {
  re_fits : fits ls;
  re_len : length (FastLookupTable t) = 512%nat /\ length (FirstCodeOfLength t) = 16%nat /\
           length (MaxCodeInclusive t) = 17%nat /\ length (FirstSymbolIndexOfLength t) = 16%nat /\
           length (SymbolBitLengths t) = 288%nat /\ length (SymbolValues t) = 288%nat;
  re_first : forall k, 1 <= k <= 15 -> at_ (FirstCodeOfLength t) k = first ls k /\
           at_ (FirstSymbolIndexOfLength t) k = firstSym ls k /\ at_ (MaxCodeInclusive t) k = upper ls k;
  re_index : forall s l, ls !! s = Some l -> 1 <= l ->
    at_ (SymbolBitLengths t) (index ls s l) = l /\ at_ (SymbolValues t) (index ls s l) = Z.of_nat s;
  re_fast : forall x s l, 0 <= x < 512 -> fast_match ls x s l -> at_ (FastLookupTable t) x = l * 512 + Z.of_nat s;
  re_empty : forall x, 0 <= x < 512 -> at_ (FastLookupTable t) x = 0 \/ exists s l, fast_match ls x s l
}.

(** The arrays of a tree have their declared sizes. *)
Definition shaped (t : HuffmanTree) : Prop :=
  length (FastLookupTable t) = 512%nat /\ length (FirstCodeOfLength t) = 16%nat /\
  length (MaxCodeInclusive t) = 17%nat /\ length (FirstSymbolIndexOfLength t) = 16%nat /\
  length (SymbolBitLengths t) = 288%nat /\ length (SymbolValues t) = 288%nat.

(** Code lengths as a block may carry them: at most 288 symbols, each at most 15 bits. *)
Definition code_lengths (ls : list Z) : Prop :=
  Forall (λ l, 0 <= l <= 15) ls /\ Z.of_nat (length ls) <= 288.

Lemma new_tree_shaped : shaped new_HuffmanTree.
Proof. repeat split. Qed.
Lemma represents_shaped ls t : represents ls t -> shaped t.
Proof. intros [_ H _ _ _ _]. exact H. Qed.
#[export] Hint Resolve new_tree_shaped represents_shaped : kern.

Lemma at_replicate n i : at_ (replicate n 0) i = 0.
Proof.
  unfold at_. destruct (replicate n 0 !! Z.to_nat i) eqn:E; [|reflexivity].
  apply lookup_replicate in E as [-> _]. reflexivity.
Qed.

Lemma over_full ls counts :
  (forall k, 1 <= k -> at_ counts k = count k ls) -> fits ls ->
  existsb (λ length, 1 .<< length <? default 0 (counts !! Z.to_nat length)) lengths_1_15 = false.
Proof.
  intros Hc Hf. apply not_true_is_false. intros (k & Hk & Hlt)%existsb_exists.
  assert (1 <= k <= 15) by (unfold lengths_1_15 in Hk; simpl in Hk; lia).
  change (default 0 (counts !! Z.to_nat k)) with (at_ counts k) in Hlt.
  rewrite Hc, Z.shiftl_1_l, Z.ltb_lt in Hlt by lia. pose proof (Hf k ltac:(lia)).
  pose proof (first_nonneg ls k ltac:(lia)). lia.
Qed.

Lemma Build_spec tree ls :
  shaped tree -> code_lengths ls ->
  (exists t, Build tree ls = Ok t /\ represents ls t) \/ (Build tree ls = Failed /\ ~ fits ls).
Proof.
  intros (T1 & T2 & T3 & T4 & T5 & T6) [Hls Hlen]. unfold Build.
  destruct (count_lengths_spec ls (replicate 17 0) Hls eq_refl) as (c & -> & Hcl & Hc). cbn [bind].
  set (c0 := <[0%nat:=0]> c).
  assert (Hc0 : forall k, 1 <= k -> at_ c0 k = count k ls).
  { intros k Hk. subst c0. change 0%nat with (Z.to_nat 0). rewrite at_insert by lia.
    destruct (Z.eqb_spec k 0); [lia|]. rewrite Hc, at_replicate by lia. lia. }
  destruct (existsb _ lengths_1_15) eqn:Hex.
  { right. split; trivial. intros Hf. rewrite (over_full ls c0 Hc0 Hf) in Hex. discriminate. }
  change lengths_1_15 with (seqZ 1 (Z.of_nat 15)).
  match goal with |- context [assign_codes _ _ ?a] =>
    destruct (assign_codes_spec ls Hlen c0 15 1 a) as [(a' & -> & Ha)|[-> Hn]] end; trivial; try lia.
  { subst c0. now rewrite length_insert. }
  { split; [cbn; auto|intros k Hk; lia|reflexivity|reflexivity]. }
  2: { right. split; trivial. }
  cbn [bind]. destruct Ha as [(A1 & A2 & A3 & A4) Hta _ _].
  assert (Hf : fits ls) by (intros k Hk; apply Hta; lia).
  assert (HF : forall k, 1 <= k <= 15 -> at_ (a_FirstCode a') k = first ls k) by (intros k Hk; apply Hta; lia).
  assert (HS : forall k, 1 <= k <= 15 -> at_ (a_FirstSymbol a') k = firstSym ls k) by (intros k Hk; apply Hta; lia).
  rewrite set_at by lia. cbn [bind]. change (assign_symbols (a_FirstCode a') (a_FirstSymbol a') 0)
    with (assign_symbols (a_FirstCode a') (a_FirstSymbol a') (Z.of_nat 0)).
  match goal with |- context [assign_symbols _ _ _ _ ?t] =>
    destruct (assign_symbols_spec ls Hls Hlen Hf (a_FirstCode a') (a_FirstSymbol a')
      (conj A2 HF) (conj A3 HS) ls 0 t) as (t' & -> & Ht) end; trivial; try lia.
  - split; cbn [t_next t_fast t_lengths t_values]; trivial.
    + auto.
    + intros k Hk. rewrite (proj1 (Hta k ltac:(lia))). unfold count at 1. simpl. lia.
    + intros s l Hs. lia.
    + intros x s l _ Hs. lia.
    + intros x _. left. apply at_replicate.
  - left. cbn [bind]. eexists. split; [reflexivity|]. destruct Ht as [(B1 & B2 & B3 & B4) _ Hi Hfa He].
    split; cbn [FastLookupTable FirstCodeOfLength MaxCodeInclusive FirstSymbolIndexOfLength SymbolBitLengths SymbolValues]; trivial.
    + rewrite length_insert. split_and!; trivial.
    + intros k Hk. destruct (Hta k ltac:(lia)) as (_ & H1 & H2 & H3 & _). split_and!; trivial.
      rewrite at_insert by lia. destruct (Z.eqb_spec k 16); [lia|exact H3].
    + intros s l Hs. apply Hi; trivial. now apply lookup_lt_Some in Hs.
    + intros x s l Hx Hm. apply Hfa; trivial. destruct Hm as [Hs _]. now apply lookup_lt_Some in Hs.
    + intros x Hx. destruct (He x Hx) as [|(s & l & _ & Hm)]; [now left|right]. eauto.
Qed.
