(* ===== verification/Inflate.v ===== *)
(** * Inflate: decoding what an encoder wrote

    [Decode] on a tree made by [Build] inverts the canonical code, and [DecodeBlock]
    inverts the encoding of a list of literals and matches.  The bit stream is any
    implementation of the [BitStream] interface; [BoolStream] is one. *)

From Stdlib Require Import ZArith Lia Bool.
From stdpp Require Import base gmap list numbers.
From S2P Require Import Prelude ZLib Huffman.

(** ** Bits of a stream *)
Lemma le_value_bit bs i : 0 <= i -> Z.testbit (le_value bs) i = default false (bs !! Z.to_nat i).
Proof.
  revert i. induction bs as [|b bs IH]; intros i Hi; [now rewrite Z.bits_0|]. cbn [le_value].
  destruct (decide (i = 0)) as [->|Hne].
  - now rewrite Z.add_b2z_double_bit0.
  - replace i with (Z.succ (i - 1)) by lia. rewrite (Z.add_comm (Z.b2z b)), Z.testbit_succ_r by lia. rewrite IH by lia.
    replace (Z.to_nat (Z.succ (i - 1))) with (S (Z.to_nat (i - 1))) by lia. reflexivity.
Qed.

Lemma le_value_range bs : in_u (Z.of_nat (length bs)) (le_value bs).
Proof.
  induction bs as [|b bs IH]; [vm_compute; split; congruence|]. unfold in_u in *. cbn [le_value length].
  replace (Z.of_nat (S (length bs))) with (Z.of_nat (length bs) + 1) by lia. rewrite Z.pow_add_r by lia.
  destruct b; simpl Z.b2z; lia.
Qed.

(** A code is sent most significant bit first, a number least significant bit first. *)
Definition code_bits (l : nat) (c : Z) : list bool := (λ i, Z.testbit c (Z.of_nat (l - 1 - i)%nat)) <$> seq 0 l.
Definition le_bits (n : nat) (x : Z) : list bool := (λ i, Z.testbit x (Z.of_nat i)) <$> seq 0 n.

Lemma code_bits_length l c : length (code_bits l c) = l.
Proof. unfold code_bits. now rewrite length_fmap, length_seq. Qed.
Lemma le_bits_length n x : length (le_bits n x) = n.
Proof. unfold le_bits. now rewrite length_fmap, length_seq. Qed.
Lemma code_bits_lookup l c i : (i < l)%nat -> code_bits l c !! i = Some (Z.testbit c (Z.of_nat (l - 1 - i)%nat)).
Proof. intros Hi. unfold code_bits. rewrite list_lookup_fmap, lookup_seq_lt by lia. reflexivity. Qed.
Lemma le_bits_lookup n x i : (i < n)%nat -> le_bits n x !! i = Some (Z.testbit x (Z.of_nat i)).
Proof. intros Hi. unfold le_bits. rewrite list_lookup_fmap, lookup_seq_lt by lia. reflexivity. Qed.

Lemma le_value_le_bits n x : in_u (Z.of_nat n) x -> le_value (le_bits n x) = x.
Proof.
  intros Hx. apply Z.bits_inj'. intros i Hi. rewrite le_value_bit by lia.
  destruct (Nat.lt_ge_cases (Z.to_nat i) n).
  - rewrite le_bits_lookup by lia. simpl. f_equal. lia.
  - rewrite lookup_ge_None_2 by (rewrite le_bits_length; lia). symmetry. apply (testbit_above (Z.of_nat n)); trivial; lia.
Qed.

(** Bits that start with the code [c] have [c] as their prefix. *)
Lemma code_prefix l c bs :
  (1 <= l <= 16)%nat -> in_u (Z.of_nat l) c ->
  ReverseBits (le_value (take 16 (code_bits l c ++ bs))) 16 .>> (16 - Z.of_nat l) = c.
Proof.
  intros Hl Hc. apply prefix_iff; trivial; [lia|]. apply Z.bits_inj'. intros i Hi.
  rewrite testbit_wrap, ReverseBits_bit, le_value_bit by (trivial; lia).
  destruct (Z.ltb_spec i (Z.of_nat l)) as [Hlt|]; [|now rewrite andb_false_r]. rewrite andb_true_r. cbn [andb].
  rewrite lookup_take_lt, lookup_app_l, code_bits_lookup by (rewrite ?code_bits_length; lia).
  simpl. f_equal. lia.
Qed.

(** ** One symbol *)
Section Decode.
Context {Str : Type} {BS : BitStream Str}.

Lemma find_length_spec ls t r l fuel : forall k,
  represents ls t -> 10 <= k <= l -> l <= 15 -> upper ls (k - 1) <= r \/ k = 10 -> lower ls l <= r < upper ls l ->
  (Z.to_nat (l - k) < fuel)%nat -> find_length fuel (MaxCodeInclusive t) r k = Ok l.
Proof.
  induction fuel as [|fuel IH]; intros k Ht Hk Hl Hup Hr Hf; [lia|]. cbn [find_length].
  destruct (re_len _ _ Ht) as (_ & _ & Lm & _). rewrite get_at by lia. cbn [bind].
  destruct (re_first _ _ Ht k ltac:(lia)) as (_ & _ & ->).
  destruct (decide (k = l)) as [->|Hne].
  - destruct (Z.ltb_spec r (upper ls l)); [reflexivity|lia].
  - pose proof (upper_lower ls k l ltac:(lia) ltac:(lia) ltac:(lia)).
    destruct (Z.ltb_spec r (upper ls k)); [lia|]. apply IH; trivial; try lia.
    left. replace (k + 1 - 1) with k by lia. lia.
Qed.

Lemma fast_index x : x .& FAST_MASK = wrap 9 x.
Proof. change FAST_MASK with (Z.ones 9). now rewrite Z.land_ones by lia. Qed.

Lemma wrap_wrap l x : 0 <= l <= 9 -> wrap l (wrap 9 x) = wrap l x.
Proof.
  intros Hl. apply Z.bits_inj'. intros i Hi. rewrite !testbit_wrap by lia.
  destruct (Z.ltb_spec i l), (Z.ltb_spec i 9); rewrite ?andb_false_r, ?andb_true_r; trivial; lia.
Qed.

Lemma Decode_prefix ls t stream s l :
  code_lengths ls -> represents ls t -> has_prefix ls (ReverseBits (PeekBits 16 stream) 16) s l ->
  Decode t stream = Ok (Z.of_nat s, DropBits (Z.to_nat l) stream).
Proof.
  intros [Hls Hlen] Ht Hp. pose proof Hp as (Hs & Hl & Hr). set (x := PeekBits 16 stream) in *.
  pose proof (re_fits _ _ Ht) as Hfits. pose proof (re_len _ _ Ht) as (L1 & L2 & L3 & L4 & L5 & L6).
  pose proof (wrap_range 9 x ltac:(lia)) as Hx. unfold in_u in Hx.
  assert (Hsb : Z.of_nat s < 288) by (apply lookup_lt_Some in Hs; lia).
  destruct (code_range ls Hfits s l Hs Hl) as [_ Hc].
  assert (Hw : wrap l x = ReverseBits (code ls s l) l) by (apply prefix_iff; trivial; lia).
  unfold Decode. fold x. rewrite fast_index, get_at by lia. cbn [bind].
  destruct (Z.le_gt_cases l 9) as [H9|H9].
  - rewrite (re_fast _ _ Ht _ s l) by (try split_and!; trivial; rewrite ?wrap_wrap by lia; trivial; lia).
    unfold truthy. destruct (Z.eqb_spec (l * 512 + Z.of_nat s) 0); [lia|]. cbn [negb].
    f_equal. f_equal.
    + change 511 with (Z.ones 9). rewrite Z.land_ones by lia. change (2 ^ 9) with 512.
      rewrite Z.add_comm, Z.mod_add by lia. apply Z.mod_small. lia.
    + do 2 f_equal. rewrite Z.shiftr_div_pow2 by lia. change (2 ^ 9) with 512.
      rewrite Z.div_add_l by lia. rewrite Z.div_small by lia. lia.
  - destruct (re_empty _ _ Ht (wrap 9 x) ltac:(lia)) as [->|(s' & l' & Hm)].
    2: { assert (Hp' : has_prefix ls (ReverseBits x 16) s' l').
         { apply (fast_match_prefix ls Hfits). destruct Hm as (? & ? & Hm). split_and!; trivial; try lia.
           now rewrite wrap_wrap in Hm by lia. }
         destruct Hm as (_ & Hl9 & _). destruct (prefix_unique ls Hfits _ _ _ _ _ Hp Hp') as [_ ->]. lia. }
    cbn [truthy Z.eqb negb]. unfold DecodeSlowPath. fold x. change (FAST_BITS + 1) with 10.
    destruct (has_prefix_interval ls Hfits _ _ _ Hp) as [_ Hi].
    rewrite (find_length_spec ls t _ l) by (trivial; lia). cbn [bind].
    destruct (Z.leb_spec 16 l); [lia|]. rewrite !get_at by lia. cbn [bind].
    destruct (re_first _ _ Ht l ltac:(lia)) as (-> & -> & _). rewrite Hr.
    replace (code ls s l - first ls l + firstSym ls l) with (index ls s l) by (unfold code, index; lia).
    pose proof (index_range ls Hlen s l Hs ltac:(lia)) as Hix. change MAX_SYMBOLS with 288.
    destruct (Z.leb_spec 288 (index ls s l)); [lia|]. rewrite !get_at by lia. cbn [bind].
    destruct (re_index _ _ Ht s l Hs ltac:(lia)) as [-> ->]. now rewrite Z.eqb_refl.
Qed.
End Decode.

(** ** The encoder's side *)
(** The bits of a symbol, if it has a code. *)
Definition symbol_bits (ls : list Z) (s : Z) : option (list bool) :=
  match ls !! Z.to_nat s with
  | Some l => if (0 <=? s) && (1 <=? l) then Some (code_bits (Z.to_nat l) (code ls (Z.to_nat s) l)) else None
  | None => None
  end.

(** A literal byte, or a match: length symbol, its extra bits, distance symbol, its extra bits. *)
Inductive Token :=
  | Literal (b : Z)
  | Match (lsym lextra dsym dextra : Z).

Definition in_range (lo x hi : Z) : bool := (lo <=? x) && (x <? hi).

(** Extra bits that fit what the symbol announces. *)
Definition extra_bits (extra : list Z) (s x : Z) : option (list bool) :=
  if in_range 0 x (2 ^ at_ extra s) then Some (le_bits (Z.to_nat (at_ extra s)) x) else None.

Definition encode_token (lls dls : list Z) (t : Token) : option (list bool) :=
  match t with
  | Literal b => if in_range 0 b 256 then symbol_bits lls b else None
  | Match ls lx ds dx =>
      if in_range 257 ls 286 && in_range 0 ds 30 then
        lb ← symbol_bits lls ls;
        lxb ← extra_bits lengthExtraBits (ls - 257) lx;
        db ← symbol_bits dls ds;
        dxb ← extra_bits distExtraBits ds dx;
        Some (lb ++ lxb ++ db ++ dxb)
      else None
  end.

Fixpoint encode (lls dls : list Z) (ts : list Token) : option (list bool) :=
  match ts with
  | [] => Some []
  | t :: ts => b ← encode_token lls dls t; bs ← encode lls dls ts; Some (b ++ bs)
  end.

(** What a token adds to the output: a match repeats bytes already there, one at a time. *)
Fixpoint lz_copy (n : nat) (distance : Z) (out : list Z) : list Z :=
  match n with
  | O => out
  | S n => lz_copy n distance (out ++ [at_ out (Z.of_nat (length out) - distance)])
  end.

Definition expand_token (out : list Z) (t : Token) : option (list Z) :=
  match t with
  | Literal b => Some (out ++ [b])
  | Match ls lx ds dx =>
      let distance := at_ distBase ds + dx in
      if distance <=? Z.of_nat (length out)
      then Some (lz_copy (Z.to_nat (at_ lengthBase (ls - 257) + lx)) distance out)
      else None
  end.

Fixpoint expand (out : list Z) (ts : list Token) : option (list Z) :=
  match ts with
  | [] => Some out
  | t :: ts => out ← expand_token out t; expand out ts
  end.

Lemma lz_copy_length n d out : length (lz_copy n d out) = (n + length out)%nat.
Proof. revert out. induction n as [|n IH]; intros out; [reflexivity|]. cbn [lz_copy]. rewrite IH, length_app. simpl. lia. Qed.

Lemma expand_token_length out t out' : expand_token out t = Some out' -> (length out <= length out')%nat.
Proof.
  destruct t; cbn [expand_token]; [intros [= <-]; rewrite length_app; lia|].
  destruct (_ <=? _); [|discriminate]. intros [= <-]. rewrite lz_copy_length. lia.
Qed.
Lemma expand_length ts : forall out out', expand out ts = Some out' -> (length out <= length out')%nat.
Proof.
  induction ts as [|t ts IH]; intros out out'; cbn [expand]; [now intros [= <-]|].
  destruct (expand_token out t) as [o|] eqn:E; [|discriminate]. cbn. intros H%IH. apply expand_token_length in E. lia.
Qed.

Definition is_byte (x : Z) : Prop := in_u 8 x.
Lemma at_byte out i : Forall is_byte out -> is_byte (at_ out i).
Proof.
  intros Hb. unfold at_. destruct (out !! Z.to_nat i) eqn:E; simpl; [eapply Forall_lookup_1 in E; eauto|].
  vm_compute. split; congruence.
Qed.
Lemma lz_copy_bytes n d out : Forall is_byte out -> Forall is_byte (lz_copy n d out).
Proof.
  revert out. induction n as [|n IH]; intros out Hb; trivial. apply IH, Forall_app. split; trivial.
  constructor; [now apply at_byte|constructor].
Qed.

(** ** Decoding a block *)
Section Block.
Context {Str : Type} {BS : BitStream Str}.
Variable fresh : nat -> list Z.

Lemma drop_bits n stream b rest :
  bits_of stream = b ++ rest -> length b = n -> bits_of (DropBits n stream) = rest.
Proof.
  intros Hb Hn. rewrite DropBits_spec, Hb, drop_app_length' by (rewrite ?Hb, ?length_app; lia). reflexivity.
Qed.

Lemma Decode_symbol ls t stream s b rest :
  code_lengths ls -> represents ls t -> symbol_bits ls s = Some b ->
  bits_of stream = b ++ rest -> (16 <= length rest)%nat ->
  exists stream', Decode t stream = Ok (s, stream') /\ bits_of stream' = rest.
Proof.
  intros Hc Ht Hb Hs Hr. unfold symbol_bits in Hb. destruct (ls !! Z.to_nat s) as [l|] eqn:El; [|discriminate].
  destruct (Z.leb_spec 0 s), (Z.leb_spec 1 l); try discriminate. cbn [andb] in Hb. injection Hb as <-.
  assert (Hl : 0 <= l <= 15) by (destruct Hc as [Hc _]; eapply Forall_lookup_1 in El; [|exact Hc]; exact El).
  exists (DropBits (Z.to_nat l) stream). split; [|now apply (drop_bits _ _ _ _ Hs), code_bits_length].
  rewrite (Decode_prefix ls t stream (Z.to_nat s) l); trivial; [now rewrite Z2Nat.id|].
  split_and!; trivial; try lia. rewrite PeekBits_spec, Hs by (rewrite Hs, length_app; lia).
  replace (16 - l) with (16 - Z.of_nat (Z.to_nat l)) by lia. apply code_prefix; [lia|].
  rewrite Z2Nat.id by lia. apply (code_range ls (re_fits _ _ Ht)); trivial. lia.
Qed.

Lemma read_extra_spec base extra sym x stream b rest :
  extra_bits extra sym x = Some b -> bits_of stream = b ++ rest ->
  0 <= sym < Z.of_nat (length base) -> 0 <= sym < Z.of_nat (length extra) -> 0 <= at_ extra sym ->
  exists stream', read_extra base extra sym stream = Ok (at_ base sym + x, stream') /\ bits_of stream' = rest.
Proof.
  intros Hb Hs H1 H2 He. unfold extra_bits in Hb. unfold in_range in Hb.
  destruct (Z.leb_spec 0 x), (Z.ltb_spec x (2 ^ at_ extra sym)); try discriminate. cbn [andb] in Hb. injection Hb as <-.
  unfold read_extra. rewrite !get_at by lia. cbn [bind]. unfold truthy.
  destruct (Z.eqb_spec (at_ extra sym) 0) as [E|E]; cbn [negb].
  - rewrite E in *. change (2 ^ 0) with 1 in *. exists stream. replace x with 0 by lia. rewrite Z.add_0_r.
    split; [reflexivity|]. rewrite Hs. reflexivity.
  - assert (Hn : (Z.to_nat (at_ extra sym) <= length (bits_of stream))%nat) by (rewrite Hs, length_app, le_bits_length; lia).
    rewrite ReadBits_spec, PeekBits_spec, Hs by trivial.
    rewrite take_app_length' by now rewrite le_bits_length.
    rewrite le_value_le_bits by (unfold in_u; rewrite Z2Nat.id; lia).
    eexists. split; [reflexivity|]. now apply (drop_bits _ _ _ _ Hs), le_bits_length.
Qed.

(** The output so far: the bytes before the write position. *)
Definition written (d : Decompressor) (p : Z) (out : list Z) : Prop :=
  exists buf, m_OutputBuffer d = Some buf /\ (length out <= length buf)%nat /\
    take (length out) buf = out /\ p = Z.of_nat (length out) /\ Forall is_byte out.

(** Only the contents of the output buffer differ. *)
Definition same_shape (d d' : Decompressor) : Prop :=
  m_OutputPointer d' = m_OutputPointer d /\ m_LiteralLengthTree d' = m_LiteralLengthTree d /\
  m_DistanceTree d' = m_DistanceTree d /\ m_OutputEnd d' = m_OutputEnd d.
#[global] Instance same_shape_refl : Reflexive same_shape.
Proof. intros d. repeat split. Qed.
#[global] Instance same_shape_trans : Transitive same_shape.
Proof. intros a b c (A & B & C & D) (A' & B' & C' & D'). repeat split; congruence. Qed.

Lemma take_insert_S (buf out : list Z) v :
  take (length out) buf = out -> (length out < length buf)%nat ->
  take (S (length out)) (<[length out := v]> buf) = out ++ [v].
Proof.
  intros Ht Hl. erewrite take_S_r by now apply list_lookup_insert_eq.
  now rewrite take_insert_ge, Ht by lia.
Qed.

Lemma store_written d p out v :
  written d p out -> is_byte v -> p < m_OutputEnd d ->
  exists d', store d p v = Ok d' /\ written d' (p + 1) (out ++ [v]) /\ same_shape d d'.
Proof.
  intros (buf & Hb & Hlen & Ht & Hp & HB) Hv Hlt. unfold m_OutputEnd in Hlt. rewrite Hb in Hlt. cbn in Hlt.
  unfold store. rewrite Hb. cbn [from_option id]. unfold u8. rewrite wrap_small by exact Hv.
  rewrite set_at by lia. cbn [bind]. eexists. split; [reflexivity|]. split.
  - exists (<[Z.to_nat p:=v]> buf). cbn [m_OutputBuffer]. rewrite length_insert, length_app. cbn [length].
    assert (E : Z.to_nat p = length out) by lia. rewrite E. split_and!; trivial; try lia.
    + rewrite Nat.add_1_r. apply take_insert_S; trivial. lia.
    + apply Forall_app. split; trivial. now constructor.
  - unfold same_shape, m_OutputEnd. cbn. rewrite Hb. cbn. now rewrite length_insert.
Qed.

Lemma load_written d p out i : written d p out -> 0 <= i < p -> load d i = Ok (at_ out i).
Proof.
  intros (buf & Hb & Hlen & Ht & Hp & HB) Hi. unfold load. rewrite Hb. cbn. rewrite get_at by lia.
  f_equal. unfold at_. rewrite <- Ht at 1. now rewrite lookup_take_lt by lia.
Qed.

Lemma at_app_l (out ext : list Z) i : 0 <= i < Z.of_nat (length out) -> at_ (out ++ ext) i = at_ out i.
Proof. intros Hi. unfold at_. now rewrite lookup_app_l by lia. Qed.

(** The copy loop repeats earlier output, the single-byte run included. *)
Lemma copy_match_spec n : forall d p out src distance,
  written d p out -> p + Z.of_nat n < m_OutputEnd d -> 1 <= distance <= p ->
  0 <= src < p -> at_ out src = at_ out (p - distance) -> (distance <> 1 -> src = p - distance) ->
  exists d', copy_match n d p src distance = Ok (d', p + Z.of_nat n) /\
    written d' (p + Z.of_nat n) (lz_copy n distance out) /\ same_shape d d'.
Proof.
  induction n as [|n IH]; intros d p out src distance Hw Hsz Hd Hsrc Hat Hne.
  { exists d. rewrite Z.add_0_r. split_and!; trivial; reflexivity. }
  cbn [copy_match lz_copy]. rewrite (load_written d p out src) by trivial. cbn [bind].
  pose proof Hw as (buf & Hbuf & _ & _ & Hp & HB).
  destruct (store_written d p out (at_ out src) Hw (at_byte _ _ HB) ltac:(lia)) as (d1 & -> & Hw1 & Hs1). cbn [bind].
  rewrite <- Hp, <- Hat. pose proof Hs1 as (_ & _ & _ & Hsize).
  destruct (IH d1 (p + 1) (out ++ [at_ out src]) (if distance =? 1 then src else src + 1) distance) as (d2 & E & Hw2 & Hs2);
    trivial; try lia.
  - destruct (Z.eqb_spec distance 1) as [->|Hd1]; [|specialize (Hne Hd1)]; lia.
  - destruct (Z.eqb_spec distance 1) as [->|Hd1].
    + replace (p + 1 - 1) with p by lia. rewrite at_app_l by lia. unfold at_ at 2.
      replace (Z.to_nat p) with (length out) by lia. now rewrite list_lookup_middle by reflexivity.
    + replace (p + 1 - distance) with (src + 1) by (rewrite (Hne Hd1); lia). reflexivity.
  - intros Hd1. destruct (Z.eqb_spec distance 1); [lia|]. rewrite (Hne Hd1). lia.
  - exists d2. rewrite E. replace (p + Z.of_nat (S n)) with (p + 1 + Z.of_nat n) by lia. split_and!; trivial.
    etransitivity; eassumption.
Qed.

Lemma table_bounds (a : list Z) (lo i : Z) :
  forallb (λ x, lo <=? x) a = true -> 0 <= i < Z.of_nat (length a) -> lo <= at_ a i.
Proof.
  intros Ha Hi. unfold at_. destruct (lookup_lt_is_Some_2 a (Z.to_nat i) ltac:(lia)) as [x E]. rewrite E. cbn.
  rewrite forallb_forall in Ha. apply Z.leb_le, Ha. apply list_elem_of_In, list_elem_of_lookup. eauto.
Qed.

(** The trees of a decompressor hold the two codes of the block. *)
Record codes (lls dls : list Z) (d : Decompressor) : Prop := {
  co_lit_lengths : code_lengths lls;
  co_dist_lengths : code_lengths dls;
  co_lit : represents lls (m_LiteralLengthTree d);
  co_dist : represents dls (m_DistanceTree d)
}.
Lemma codes_same lls dls d d' : codes lls dls d -> same_shape d d' -> codes lls dls d'.
Proof. intros [] (_ & H1 & H2 & _). split; trivial; congruence. Qed.

Lemma in_range_spec lo x hi : in_range lo x hi = true -> lo <= x < hi.
Proof. unfold in_range. rewrite andb_true_iff, Z.leb_le, Z.ltb_lt. trivial. Qed.

(** One token of the stream is one turn of the loop. *)
Lemma literal_step lls dls d stream p out b bits rest fuel :
  codes lls dls d -> encode_token lls dls (Literal b) = Some bits ->
  bits_of stream = bits ++ rest -> (16 <= length rest)%nat ->
  written d p out -> p < m_OutputEnd d ->
  exists d' stream', DecodeBlock_loop fresh (S fuel) d stream p = DecodeBlock_loop fresh fuel d' stream' (p + 1) /\
    bits_of stream' = rest /\ written d' (p + 1) (out ++ [b]) /\ same_shape d d'.
Proof.
  intros [C1 C2 C3 C4] He Hs Hr Hw Hsz. cbn [encode_token] in He.
  destruct (in_range 0 b 256) eqn:Hb; [|discriminate]. apply in_range_spec in Hb.
  destruct (Decode_symbol lls _ stream b bits rest C1 C3 He Hs Hr) as (stream' & Hd & Hs').
  destruct (store_written d p out b Hw ltac:(unfold is_byte, in_u; lia) Hsz) as (d' & Hst & Hw' & Hsh).
  exists d', stream'. split_and!; trivial. cbn [DecodeBlock_loop]. rewrite Hd. cbn [bind].
  destruct (Z.ltb_spec b 0); [lia|]. destruct (Z.ltb_spec b 256); [|lia].
  destruct (Z.leb_spec (m_OutputEnd d) p); [lia|]. cbn [bind]. rewrite Hst. reflexivity.
Qed.

Lemma match_step lls dls d stream p out ls lx ds dx out' bits rest fuel :
  codes lls dls d -> encode_token lls dls (Match ls lx ds dx) = Some bits ->
  bits_of stream = bits ++ rest -> (16 <= length rest)%nat ->
  written d p out -> expand_token out (Match ls lx ds dx) = Some out' -> Z.of_nat (length out') < m_OutputEnd d ->
  exists d' stream', DecodeBlock_loop fresh (S fuel) d stream p = DecodeBlock_loop fresh fuel d' stream' (Z.of_nat (length out')) /\
    bits_of stream' = rest /\ written d' (Z.of_nat (length out')) out' /\ same_shape d d'.
Proof.
  intros [C1 C2 C3 C4] He Hs Hr Hw Hx Hsz. cbn [encode_token] in He.
  destruct (in_range 257 ls 286) eqn:Hls; [|discriminate]. destruct (in_range 0 ds 30) eqn:Hds; [|discriminate].
  apply in_range_spec in Hls, Hds. cbn [andb] in He.
  destruct (symbol_bits lls ls) as [b1|] eqn:E1; [|discriminate]. cbn in He.
  destruct (extra_bits lengthExtraBits (ls - 257) lx) as [b2|] eqn:E2; [|discriminate]. cbn in He.
  destruct (symbol_bits dls ds) as [b3|] eqn:E3; [|discriminate]. cbn in He.
  destruct (extra_bits distExtraBits ds dx) as [b4|] eqn:E4; [|discriminate]. cbn in He. injection He as <-.
  rewrite <- !app_assoc in Hs.
  destruct (Decode_symbol lls _ stream ls b1 _ C1 C3 E1 Hs) as (s1 & D1 & Hs1); [rewrite !length_app; lia|].
  assert (Hlx : 0 <= lx /\ 0 <= dx).
  { unfold extra_bits in E2, E4. destruct (in_range 0 lx _) eqn:R1; [|discriminate].
    destruct (in_range 0 dx _) eqn:R2; [|discriminate]. apply in_range_spec in R1, R2. lia. }
  destruct (read_extra_spec lengthBase lengthExtraBits (ls - 257) lx s1 b2 _ E2 Hs1) as (s2 & D2 & Hs2);
    [cbn; lia..|apply table_bounds; [reflexivity|cbn; lia]|].
  destruct (Decode_symbol dls _ s2 ds b3 _ C2 C4 E3 Hs2) as (s3 & D3 & Hs3); [rewrite !length_app; lia|].
  destruct (read_extra_spec distBase distExtraBits ds dx s3 b4 _ E4 Hs3) as (s4 & D4 & Hs4);
    [cbn; lia..|apply table_bounds; [reflexivity|cbn; lia]|].
  assert (B1 : 3 <= at_ lengthBase (ls - 257)) by (apply table_bounds; [reflexivity|cbn; lia]).
  assert (B2 : 1 <= at_ distBase ds) by (apply table_bounds; [reflexivity|cbn; lia]).
  cbn [expand_token] in Hx. set (len := at_ lengthBase (ls - 257) + lx) in *. set (dist := at_ distBase ds + dx) in *.
  destruct (Z.leb_spec dist (Z.of_nat (length out))) as [Hdist|]; [|discriminate]. injection Hx as <-.
  pose proof Hw as (buf & _ & _ & _ & Hp & _). rewrite lz_copy_length in Hsz.
  destruct (copy_match_spec (Z.to_nat len) d p out (p - dist) dist) as (d' & Hcp & Hw' & Hsh); trivial; try lia.
  rewrite lz_copy_length. replace (Z.of_nat (Z.to_nat len + length out)) with (p + Z.of_nat (Z.to_nat len)) by lia.
  exists d', s4. split_and!; trivial. cbn [DecodeBlock_loop]. rewrite D1. cbn [bind].
  destruct (Z.ltb_spec ls 0); [lia|]. destruct (Z.ltb_spec ls 256); [lia|]. destruct (Z.eqb_spec ls 256); [lia|].
  destruct (Z.leb_spec 286 ls); [lia|]. rewrite D2. cbn [bind]. rewrite D3. cbn [bind].
  destruct (Z.ltb_spec ds 0); [lia|]. destruct (Z.leb_spec 30 ds); [lia|]. cbn [orb]. rewrite D4. cbn [bind].
  fold len dist. destruct (Z.ltb_spec p dist); [lia|].
  destruct (Z.leb_spec (m_OutputEnd d) (p + len)); [lia|]. cbn [bind]. now rewrite Hcp.
Qed.

Lemma tokens_steps lls dls ts : forall d stream p out out' bits rest fuel,
  codes lls dls d -> encode lls dls ts = Some bits ->
  bits_of stream = bits ++ rest -> (16 <= length rest)%nat ->
  written d p out -> expand out ts = Some out' -> Z.of_nat (length out') < m_OutputEnd d ->
  exists d' stream', DecodeBlock_loop fresh (length ts + fuel) d stream p =
      DecodeBlock_loop fresh fuel d' stream' (Z.of_nat (length out')) /\
    bits_of stream' = rest /\ written d' (Z.of_nat (length out')) out' /\ same_shape d d'.
Proof.
  induction ts as [|t ts IH]; intros d stream p out out' bits rest fuel Hc He Hs Hr Hw Hx Hsz.
  { injection He as <-. injection Hx as <-. exists d, stream. pose proof Hw as (_ & _ & _ & _ & <- & _).
    split_and!; trivial; reflexivity. }
  cbn [encode expand] in He, Hx. destruct (encode_token lls dls t) as [b|] eqn:Eb; [|discriminate]. cbn in He.
  destruct (encode lls dls ts) as [bs|] eqn:Ebs; [|discriminate]. cbn in He. injection He as <-.
  destruct (expand_token out t) as [o|] eqn:Eo; [|discriminate]. cbn in Hx. rewrite <- app_assoc in Hs.
  assert (Hr' : (16 <= length (bs ++ rest))%nat) by (rewrite length_app; lia).
  pose proof (expand_length _ _ _ Hx) as Hlen.
  assert (Hstep : exists d1 s1, DecodeBlock_loop fresh (S (length ts + fuel)) d stream p =
      DecodeBlock_loop fresh (length ts + fuel) d1 s1 (Z.of_nat (length o)) /\
    bits_of s1 = bs ++ rest /\ written d1 (Z.of_nat (length o)) o /\ same_shape d d1).
  { destruct t as [b0|ls lx ds dx].
    - injection Eo as <-. pose proof Hw as (_ & _ & _ & _ & Hp & _). rewrite length_app in Hlen |- *. cbn [length] in Hlen |- *.
      replace (Z.of_nat (length out + 1)) with (p + 1) by lia.
      apply (literal_step lls dls d stream p out b0 b); trivial; lia.
    - apply (match_step lls dls d stream p out ls lx ds dx o b); trivial. lia. }
  destruct Hstep as (d1 & s1 & Heq & Hs1 & Hw1 & Hsh1).
  destruct (IH d1 s1 (Z.of_nat (length o)) o out' bs rest fuel) as (d' & s' & Heq' & Hs' & Hw' & Hsh'); trivial.
  - eapply codes_same; eassumption.
  - destruct Hsh1 as (_ & _ & _ & ->). lia.
  - exists d', s'. cbn [length Nat.add]. rewrite Heq, Heq'. split_and!; trivial. etransitivity; eassumption.
Qed.

Lemma end_of_block lls dls d stream p bits rest fuel :
  codes lls dls d -> symbol_bits lls 256 = Some bits -> bits_of stream = bits ++ rest -> (16 <= length rest)%nat ->
  exists stream', DecodeBlock_loop fresh (S fuel) d stream p = Ok (with_pointer d p, stream') /\ bits_of stream' = rest.
Proof.
  intros [C1 C2 C3 C4] He Hs Hr. destruct (Decode_symbol lls _ stream 256 bits rest C1 C3 He Hs Hr) as (s' & Hd & Hs').
  exists s'. split; trivial. cbn [DecodeBlock_loop]. rewrite Hd. reflexivity.
Qed.

(** The bits of a whole block: its tokens and the end-of-block symbol. *)
Definition encode_block (lls dls : list Z) (ts : list Token) : option (list bool) :=
  bs ← encode lls dls ts; e ← symbol_bits lls 256; Some (bs ++ e).

Lemma block_decodes lls dls ts d stream out out' bits rest fuel :
  codes lls dls d -> encode_block lls dls ts = Some bits ->
  bits_of stream = bits ++ rest -> (16 <= length rest)%nat ->
  written d (m_OutputPointer d) out -> expand out ts = Some out' -> Z.of_nat (length out') < m_OutputEnd d ->
  (length ts < fuel)%nat ->
  exists d' stream', DecodeBlock fresh fuel d stream = Ok (d', stream') /\ bits_of stream' = rest /\
    written d' (m_OutputPointer d') out' /\ codes lls dls d' /\ m_OutputEnd d' = m_OutputEnd d.
Proof.
  intros Hc He Hs Hr Hw Hx Hsz Hf. unfold encode_block in He.
  destruct (encode lls dls ts) as [b1|] eqn:E1; [|discriminate]. cbn in He.
  destruct (symbol_bits lls 256) as [b2|] eqn:E2; [|discriminate]. cbn in He. injection He as <-. rewrite <- app_assoc in Hs.
  destruct (tokens_steps lls dls ts d stream (m_OutputPointer d) out out' b1 (b2 ++ rest) (S (fuel - length ts - 1)) Hc E1 Hs)
    as (d1 & s1 & Heq & Hs1 & Hw1 & Hsh); trivial; [rewrite length_app; lia|].
  pose proof (codes_same _ _ _ _ Hc Hsh) as Hc1.
  destruct (end_of_block lls dls d1 s1 (Z.of_nat (length out')) b2 rest (fuel - length ts - 1) Hc1 E2 Hs1 Hr) as (s2 & Heq2 & Hs2).
  exists (with_pointer d1 (Z.of_nat (length out'))), s2. unfold DecodeBlock.
  replace fuel with (length ts + S (fuel - length ts - 1))%nat at 1 by lia. rewrite Heq, Heq2.
  split_and!; trivial; [destruct Hc1; split; trivial|]. destruct Hsh as (_ & _ & _ & <-). reflexivity.
Qed.
End Block.
