(* ===== verification/InflateTheorems.v ===== *)
(** * Inflate: what the decompressor guarantees

    [Build] accepts exactly the code lengths that make a prefix code, [Decode] inverts
    that code, and [DecompressStream] gives back the bytes whose tokens were encoded in
    fixed-Huffman blocks.  Two defects are stated as theorems too. *)

From Stdlib Require Import ZArith Lia Bool.
From stdpp Require Import base gmap list numbers.
From S2P Require Import Prelude ZLib Huffman Inflate.

(** ** A bit stream over a list of bits, with the number of bits already consumed *)
Record BoolStream := mkBools { consumed : nat; remaining : list bool }.

Definition bools_drop (n : nat) (s : BoolStream) : BoolStream :=
  mkBools (consumed s + n) (drop n (remaining s)).
Definition bools_read (n : nat) (s : BoolStream) : Z * BoolStream := (le_value (take n (remaining s)), bools_drop n s).
Fixpoint bools_bytes (n : nat) (s : BoolStream) : list Z * BoolStream :=
  match n with
  | O => ([], s)
  | S n => let '(x, s) := bools_read 8 s in let '(xs, s) := bools_bytes n s in (x :: xs, s)
  end.

#[export] Instance BoolStream_bits : BitStream BoolStream.
Proof.
  refine {|
    bits_of := remaining;
    PeekBits n s := le_value (take n (remaining s));
    DropBits := bools_drop;
    ReadBits := bools_read;
    ReadU16 := bools_read 16;
    ReadBytes := bools_bytes;
    AlignToByteBoundary s := bools_drop ((8 - consumed s mod 8) mod 8) s;
    IsEndOfStream s := match remaining s with [] => true | _ => false end
  |}; reflexivity.
Defined.

(** ** Trees *)
(** [HuffmanTree::Build] succeeds exactly when the code lengths describe a prefix code:
    for every length, the codes assigned to it fit in that many bits.  Otherwise it reports
    failure; it never indexes outside its tables. *)
Theorem Build_accepts_prefix_codes (tree : HuffmanTree) (ls : list Z) :
  shaped tree -> code_lengths ls ->
  (fits ls -> exists t, Build tree ls = Ok t /\ represents ls t) /\ (~ fits ls -> Build tree ls = Failed).
Proof.
  intros Ht Hls. destruct (Build_spec tree ls Ht Hls) as [(t & E & Hr)|[E Hn]]; split; intros H.
  - eauto.
  - destruct H. apply Hr.
  - contradiction.
  - exact E.
Qed.

Lemma check_lengths ls : forallb (λ l, (0 <=? l) && (l <=? 15)) ls && (Z.of_nat (length ls) <=? 288) = true -> code_lengths ls.
Proof.
  intros [H1 H2]%andb_true_iff. split; [|now apply Z.leb_le]. apply Forall_forall. intros x Hx.
  rewrite forallb_forall in H1. apply H1 in Hx. lia.
Qed.
Lemma check_fits ls :
  forallb (λ l, first ls l + count l ls <=? 2 ^ l) lengths_1_15 = true -> fits ls.
Proof.
  intros H l Hl. rewrite forallb_forall in H. apply Z.leb_le, H. unfold lengths_1_15. simpl. lia.
Qed.

Lemma Build_accepts_prefix_codes_witness :
  (exists t, Build new_HuffmanTree [2; 1; 3; 3] = Ok t /\ represents [2; 1; 3; 3] t).
Proof.
  apply (Build_accepts_prefix_codes new_HuffmanTree [2; 1; 3; 3]);
    [apply new_tree_shaped|apply check_lengths; reflexivity|apply check_fits; reflexivity].
Defined.

(** On a tree that [Build] made, [Decode] inverts the canonical code: when the stream starts
    with the code of a symbol, most significant bit first, [Decode] returns that symbol and
    consumes exactly its code, through the fast table or the slow path. *)
Theorem Build_Decode {Str : Type} {BS : BitStream Str} (tree t : HuffmanTree) (ls : list Z) (s : Z)
    (b rest : list bool) (stream : Str) :
  shaped tree -> code_lengths ls -> Build tree ls = Ok t -> symbol_bits ls s = Some b ->
  bits_of stream = b ++ rest -> (16 <= length rest)%nat ->
  exists stream', Decode t stream = Ok (s, stream') /\ bits_of stream' = rest.
Proof.
  intros Ht Hls HB Hs Hb Hr. destruct (Build_spec tree ls Ht Hls) as [(t' & E & Hre)|[E _]]; [|congruence].
  rewrite HB in E. injection E as <-. exact (Decode_symbol ls t stream s b rest Hls Hre Hs Hb Hr).
Qed.

(** A code with lengths 1 to 12: symbol 11 takes the slow path. *)
Definition long_code : list Z := [1; 2; 3; 4; 5; 6; 7; 8; 9; 10; 11; 12].
Definition long_tree : HuffmanTree :=
  match Build new_HuffmanTree long_code with Ok t => t | _ => new_HuffmanTree end.

Lemma Build_Decode_witness :
  exists stream', Decode long_tree (mkBools 0 (replicate 11 true ++ [false] ++ replicate 16 true)) = Ok (11, stream') /\
    bits_of stream' = replicate 16 true.
Proof.
  apply (Build_Decode new_HuffmanTree long_tree long_code 11 (replicate 11 true ++ [false]));
    [apply new_tree_shaped|apply check_lengths; reflexivity|vm_compute; reflexivity|vm_compute; reflexivity
    |reflexivity|simpl; lia].
Defined.

(** ** Whole streams of fixed-Huffman blocks *)
Lemma fixed_lengths : code_lengths defaultLengths /\ code_lengths defaultDistances.
Proof. split; apply check_lengths; vm_compute; reflexivity. Qed.
Lemma fixed_fits : fits defaultLengths /\ fits defaultDistances.
Proof. split; apply check_fits; vm_compute; reflexivity. Qed.

(** The blocks of a stream: a final flag, the type [01], the tokens. *)
Fixpoint encode_stream (blocks : list (list Token)) : option (list bool) :=
  match blocks with
  | [] => None
  | ts :: blocks =>
      b ← encode_block defaultLengths defaultDistances ts;
      match blocks with
      | [] => Some ([true; true; false] ++ b)
      | _ => bs ← encode_stream blocks; Some ([false; true; false] ++ b ++ bs)
      end
  end.

Section Streams.
Context {Str : Type} {BS : BitStream Str}.
Variable fresh : nat -> list Z.
Variable stack : Locals.

Lemma read_bits n stream b rest :
  bits_of stream = b ++ rest -> length b = n ->
  exists stream', ReadBits n stream = (le_value b, stream') /\ bits_of stream' = rest.
Proof.
  intros Hs Hn. rewrite ReadBits_spec, PeekBits_spec, Hs by (rewrite Hs, length_app; lia).
  rewrite take_app_length' by lia. eexists. split; [reflexivity|]. now apply (drop_bits _ _ _ _ Hs).
Qed.

(** Both trees of a decompressor have their declared sizes. *)
Definition trees_shaped (d : Decompressor) : Prop := shaped (m_LiteralLengthTree d) /\ shaped (m_DistanceTree d).

Lemma ParseBlock_fixed d stream :
  trees_shaped d ->
  exists lit dist, ParseBlock fresh stack d 1 stream = Ok (with_trees d lit dist, stream) /\
    codes defaultLengths defaultDistances (with_trees d lit dist).
Proof.
  intros [H1 H2]. destruct fixed_lengths as [L1 L2], fixed_fits as [F1 F2].
  destruct (Build_spec _ _ H1 L1) as [(t1 & E1 & R1)|[_ []]]; trivial.
  destruct (Build_spec _ _ H2 L2) as [(t2 & E2 & R2)|[_ []]]; trivial.
  exists t1, t2. unfold ParseBlock. cbn [Z.eqb Pos.eqb]. rewrite E1. cbn [bind]. rewrite E2. cbn [bind].
  split; trivial. split; trivial.
Qed.

Lemma block_roundtrip d stream ts flag bits rest out out' fuel :
  trees_shaped d -> encode_block defaultLengths defaultDistances ts = Some bits ->
  bits_of stream = [flag; true; false] ++ bits ++ rest -> (16 <= length rest)%nat ->
  written d (m_OutputPointer d) out -> expand out ts = Some out' -> Z.of_nat (length out') < m_OutputEnd d ->
  (length ts <= fuel)%nat ->
  exists d' stream', bits_of stream' = rest /\ written d' (m_OutputPointer d') out' /\
    m_OutputEnd d' = m_OutputEnd d /\ trees_shaped d' /\
    DecompressStream fresh (S fuel) stack d stream =
      (if flag then Ok (d', stream') else DecompressStream fresh fuel stack d' stream').
Proof.
  intros Hsh He Hs Hr Hw Hx Hsz Hf.
  destruct (read_bits 1 stream [flag] ([true; false] ++ bits ++ rest)) as (s1 & E1 & Hs1); trivial.
  destruct (read_bits 2 s1 [true; false] (bits ++ rest)) as (s2 & E2 & Hs2); trivial.
  destruct (ParseBlock_fixed d s2 Hsh) as (lit & dist & E3 & Hc).
  destruct (block_decodes fresh defaultLengths defaultDistances ts (with_trees d lit dist) s2 out out' bits rest (S fuel))
    as (d' & s3 & E4 & Hs3 & Hw' & Hc' & Hsz'); trivial; [lia|].
  exists d', s3. split_and!; trivial.
  - split; apply (represents_shaped _ _ (co_lit _ _ _ Hc')) || apply (represents_shaped _ _ (co_dist _ _ _ Hc')).
  - cbn [DecompressStream]. rewrite E1, E2. change (le_value [true; false]) with 1. rewrite E3. cbn [bind].
    rewrite E4. cbn [bind]. destruct flag; reflexivity.
Qed.

Lemma stream_inflates (blocks : list (list Token)) : forall (d : Decompressor) (stream : Str)
    (bits rest : list bool) (out out' : list Z) (fuel : nat),
  trees_shaped d -> encode_stream blocks = Some bits ->
  bits_of stream = bits ++ rest -> (16 <= length rest)%nat ->
  written d (m_OutputPointer d) out -> expand out (concat blocks) = Some out' ->
  Z.of_nat (length out') < m_OutputEnd d -> (length (concat blocks) + length blocks <= fuel)%nat ->
  exists d' stream', DecompressStream fresh fuel stack d stream = Ok (d', stream') /\
    bits_of stream' = rest /\ written d' (m_OutputPointer d') out'.
Proof.
  assert (Happ : forall ts ts' out, expand out (ts ++ ts') = (o ← expand out ts; expand o ts')).
  { induction ts as [|t ts IH]; intros ts' out; [reflexivity|]. cbn [app expand].
    destruct (expand_token out t); [apply IH|reflexivity]. }
  induction blocks as [|ts blocks IH]; intros d stream bits rest out out' fuel Hsh He Hs Hr Hw Hx Hsz Hf; [discriminate|].
  cbn [concat length] in Hx, Hf. rewrite length_app in Hf. rewrite Happ in Hx.
  destruct (expand out ts) as [o|] eqn:Eo; [|discriminate]. cbn in Hx. pose proof (expand_length _ _ _ Hx) as Hlen.
  cbn [encode_stream] in He. destruct (encode_block _ _ ts) as [b|] eqn:Eb; [|discriminate]. cbn [mbind option_bind] in He.
  destruct fuel as [|fuel]; [lia|]. destruct blocks as [|ts' blocks].
  - injection He as <-. injection Hx as <-.
    destruct (block_roundtrip d stream ts true b rest out o fuel) as (d' & s' & Hs' & Hw' & _ & _ & ->); trivial; try lia.
    eauto.
  - destruct (encode_stream (ts' :: blocks)) as [bs|] eqn:Ebs; [|discriminate]. cbn [mbind option_bind] in He. injection He as <-.
    destruct (block_roundtrip d stream ts false b (bs ++ rest) out o fuel) as (d' & s' & Hs' & Hw' & Hsz' & Hsh' & ->);
      trivial; try (rewrite ?length_app; lia).
    + rewrite Hs. cbn [app]. now rewrite <- app_assoc.
    + apply (IH d' s' bs rest o out' fuel); trivial; [lia|]. cbn [concat length] in Hf |- *. lia.
Qed.

(** C6: inflating what was deflated.  Take any tokens (literals and matches) split into any
    number of fixed-Huffman blocks, and let their encoding be followed by at least sixteen bits
    (the checksum).  [DecompressStream] then stops after the last block, having appended to the
    output exactly the bytes the tokens stand for, provided they fit in the output buffer. *)
Theorem DecompressStream_roundtrip (blocks : list (list Token)) : forall (d : Decompressor) (stream : Str)
    (bits rest : list bool) (out out' : list Z) (fuel : nat),
  trees_shaped d -> encode_stream blocks = Some bits ->
  bits_of stream = bits ++ rest -> (16 <= length rest)%nat ->
  written d (m_OutputPointer d) out -> expand out (concat blocks) = Some out' ->
  Z.of_nat (length out') < m_OutputEnd d -> (length (concat blocks) + length blocks <= fuel)%nat ->
  exists d' stream', DecompressStream fresh fuel stack d stream = Ok (d', stream') /\
    bits_of stream' = rest /\ written d' (m_OutputPointer d') out'.
Proof. exact (stream_inflates blocks). Qed.

(** A stream that starts with a header the decompressor accepts and goes on with [body]. *)
Definition zlib_stream (header_method : Z -> Z) (header_dictionary : Z -> bool) (header_data : Z -> Z) (stream : Str) (body : list bool) : Prop :=
  let '(header, stream) := ReadU16 stream in
  header_method header = 8 /\ header_dictionary header = false /\ header_data header mod 31 = 0 /\ IsEndOfStream stream = false /\ bits_of stream = body.

(** A new decompressor with room for one byte more than the output. *)
Lemma Decompress_inflates (fresh_length : forall n, length (fresh n) = n) hm hd hx blocks stream bits rest out fuel d size room :
  trees_shaped d -> m_OutputBuffer d = None -> zlib_stream hm hd hx stream (bits ++ rest) -> encode_stream blocks = Some bits -> (16 <= length rest)%nat ->
  expand [] (concat blocks) = Some out -> Z.of_nat (length out) < room < 2 ^ 64 -> (length (concat blocks) + length blocks <= fuel)%nat ->
  exists d' buf, Decompress fresh hm hd hx fuel stack d size room stream = Ok (true, d') /\ m_OutputBuffer d' = Some buf /\ take (Z.to_nat (m_OutputPointer d')) buf = out.
Proof.
  intros Hsh Hb Hz He Hr Hx Hroom Hf. unfold Decompress. rewrite (proj2 (Z.eqb_neq room 0)) by lia.
  unfold EnsureCapacity. rewrite Hb, Z.add_0_l. assert (Hg : grow 65 room (u64 room) = Ok room).
  { cbn [grow]. unfold u64. rewrite wrap_small, Z.ltb_irrefl by (unfold in_u; lia). reflexivity. }
  rewrite Hg. cbn [bind]. unfold zlib_stream in Hz. destruct (ReadU16 stream) as [header s1]. destruct Hz as (-> & -> & Hm & -> & Hs).
  rewrite Hm. cbn [Z.eqb Pos.eqb negb truthy].
  set (d0 := mkDecompressor _ _ _ _ _). destruct (stream_inflates blocks d0 s1 bits rest [] out fuel) as (d' & s' & -> & _ & Hw); trivial.
  - exists (fresh (Z.to_nat room)). split_and!; try reflexivity; [cbn; lia|constructor].
  - change (m_OutputEnd d0) with (Z.of_nat (length (fresh (Z.to_nat room)))). rewrite fresh_length. lia.
  - destruct Hw as (buf & Hbuf & _ & Ht & Hp & _). eexists _, buf. split_and!; [reflexivity|exact Hbuf|]. cbn [m_OutputPointer]. now rewrite Hp, Nat2Z.id.
Qed.
End Streams.

Definition no_locals : Locals := mkLocals [] new_HuffmanTree.

(** Two blocks: "ab", then a match of length 3 at distance 2. *)
Definition sample_blocks : list (list Token) := [[Literal 97; Literal 98]; [Match 257 0 1 0]].
Definition sample_bits : list bool := default [] (encode_stream sample_blocks).
Definition sample_decompressor : Decompressor :=
  mkDecompressor (Some (replicate 16 0)) 16 0 new_HuffmanTree new_HuffmanTree.

Lemma DecompressStream_roundtrip_witness :
  exists d' stream', DecompressStream (λ n, replicate n 0) 5 no_locals sample_decompressor (mkBools 0 (sample_bits ++ replicate 16 false)) = Ok (d', stream') /\
    bits_of stream' = replicate 16 false /\ written d' (m_OutputPointer d') [97; 98; 97; 98; 97].
Proof.
  apply (DecompressStream_roundtrip (λ n, replicate n 0) no_locals sample_blocks sample_decompressor _ sample_bits (replicate 16 false) []);
    try (vm_compute; reflexivity).
  - split; apply new_tree_shaped.
  - exists (replicate 16 0). split_and!; try reflexivity; [simpl; lia|constructor].
Defined.

(** ** Growing the output buffer *)
Lemma grow_spec fuel : forall s wanted,
  1 <= s -> s * 2 ^ Z.of_nat fuel < 2 ^ 64 -> wanted <= s * 2 ^ Z.of_nat fuel ->
  exists n, grow (S fuel) s wanted = Ok n /\ wanted <= n.
Proof.
  induction fuel as [|fuel IH]; intros s wanted Hs Hb Hw.
  - change (2 ^ Z.of_nat 0) with 1 in *. exists s. cbn [grow]. destruct (Z.ltb_spec s wanted); [lia|]. split; [reflexivity|lia].
  - change (grow (S (S fuel)) s wanted) with (if s <? wanted then grow (S fuel) (u64 (s .<< 1)) wanted else Ok s).
    destruct (Z.ltb_spec s wanted) as [Hlt|Hge]; [|eauto].
    replace (Z.of_nat (S fuel)) with (Z.of_nat fuel + 1) in * by lia. rewrite Z.pow_add_r in * by lia. change (2 ^ 1) with 2 in *.
    assert (1 <= 2 ^ Z.of_nat fuel) by (pose proof (Z.pow_pos_nonneg 2 (Z.of_nat fuel) ltac:(lia) ltac:(lia)); lia).
    rewrite Z.shiftl_mul_pow2 by lia. change (2 ^ 1) with 2. unfold u64.
    rewrite wrap_small by (unfold in_u; nia). apply IH; nia.
Qed.

(** A request of at most 2^31 bytes beyond a buffer of 1 to 2^31 bytes ends the doubling loop. *)
Lemma grow_enough s wanted : 1 <= s <= 2 ^ 31 -> wanted <= 2 ^ 32 -> exists n, grow 65 s wanted = Ok n /\ wanted <= n.
Proof.
  intros Hs Hw. destruct (Z.le_gt_cases wanted s) as [H|H].
  { exists s. change (grow 65 s wanted) with (if s <? wanted then grow 64 (u64 (s .<< 1)) wanted else Ok s).
    destruct (Z.ltb_spec s wanted); [lia|]. split; [reflexivity|lia]. }
  assert (Hm : forall a b n, grow a s wanted = Ok n -> grow (a + b) s wanted = Ok n).
  { clear. intros a b n. revert s. induction a as [|a IH]; intros s; [discriminate|]. cbn [Nat.add grow].
    destruct (s <? wanted); [apply IH|trivial]. }
  destruct (grow_spec 32 s wanted) as (n & E & Hn); [lia|change (Z.of_nat 32) with 32; lia|change (Z.of_nat 32) with 32; lia|].
  exists n. split; [|exact Hn]. change 65%nat with (33 + 32)%nat. apply Hm, E.
Qed.

#[local] Opaque grow.

Section Growing.
Context {Str : Type} {BS : BitStream Str}.
Variable fresh : nat -> list Z.
Hypothesis fresh_length : forall n, length (fresh n) = n.

(** When the output buffer is full in the middle of a block, growing it discards what was
    decoded: the next literal is written to a fresh buffer at the position the block started
    from, so everything before it is lost and the output pointer falls back. *)
Theorem growth_loses_output (lls dls : list Z) (d : Decompressor) (stream : Str) (b : Z) (bits rest : list bool) (fuel : nat) :
  codes lls dls d -> encode_block lls dls [Literal b] = Some bits ->
  bits_of stream = bits ++ rest -> (16 <= length rest)%nat ->
  m_OutputBuffer d <> None -> 0 <= m_OutputPointer d <= m_OutputEnd d -> 1 <= m_OutputSize d <= 2 ^ 31 ->
  m_OutputEnd d <= 2 ^ 31 ->
  exists n d' stream', DecodeBlock_loop fresh (S (S fuel)) d stream (m_OutputEnd d) = Ok (d', stream') /\
    m_OutputBuffer d' = Some (<[Z.to_nat (m_OutputPointer d) := b]> (fresh n)) /\
    m_OutputPointer d' = m_OutputPointer d + 1.
Proof.
  intros Hc He Hs Hr Hb0 Hp Hsz Hend. pose proof Hc as [C1 C2 C3 C4]. unfold encode_block in He. cbn [encode encode_token] in He.
  destruct (in_range 0 b 256) eqn:Hb; [|discriminate]. apply in_range_spec in Hb.
  destruct (symbol_bits lls b) as [b1|] eqn:E1; [|discriminate]. cbn in He.
  destruct (symbol_bits lls 256) as [b2|] eqn:E2; [|discriminate]. cbn in He. injection He as <-.
  rewrite app_nil_r, <- app_assoc in Hs.
  destruct (Decode_symbol lls _ stream b b1 _ C1 C3 E1 Hs) as (s1 & D1 & Hs1); [rewrite length_app; lia|].
  destruct (m_OutputBuffer d) as [buf|] eqn:Ebuf; [|congruence].
  destruct (grow_enough (m_OutputSize d) (u64 (m_OutputPointer d + 4096))) as (n & Hg & Hn); trivial.
  { unfold u64. rewrite wrap_small by (unfold in_u; lia). lia. }
  unfold u64 in Hn. rewrite wrap_small in Hn by (unfold in_u; lia).
  set (d1 := mkDecompressor (Some (<[Z.to_nat (m_OutputPointer d) := b]> (fresh (Z.to_nat n)))) n (m_OutputPointer d)
    (m_LiteralLengthTree d) (m_DistanceTree d)).
  assert (Hc1 : codes lls dls d1) by now destruct Hc.
  destruct (end_of_block fresh lls dls d1 s1 (m_OutputPointer d + 1) b2 rest fuel Hc1 E2 Hs1 Hr) as (s2 & D2 & _).
  exists (Z.to_nat n), (with_pointer d1 (m_OutputPointer d + 1)), s2. split; [|split; reflexivity].
  rewrite <- D2. remember (S fuel) as k. cbn [DecodeBlock_loop]. rewrite D1. cbn [bind].
  destruct (Z.ltb_spec b 0); [lia|]. destruct (Z.ltb_spec b 256); [|lia].
  destruct (Z.leb_spec (m_OutputEnd d) (m_OutputEnd d)); [|lia]. unfold EnsureCapacity. rewrite Ebuf, Hg. cbn [bind m_OutputPointer].
  unfold store. cbn [m_OutputBuffer m_OutputPointer m_LiteralLengthTree m_DistanceTree from_option id].
  rewrite set_at by (rewrite fresh_length; lia). cbn [bind]. unfold u8. rewrite wrap_small by (unfold in_u; lia). reflexivity.
Qed.
End Growing.

(** A full buffer of two bytes, then the literal [c] in the fixed code. *)
Definition full_decompressor : Decompressor :=
  match ParseBlock (Str := BoolStream) (λ n, replicate n 0) no_locals (mkDecompressor (Some [97; 98]) 2 0 new_HuffmanTree new_HuffmanTree) 1 (mkBools 0 []) with
  | Ok (d, _) => d
  | _ => sample_decompressor
  end.

#[local] Transparent grow.
Lemma growth_loses_output_witness :
  exists n d' stream', DecodeBlock_loop (λ n, replicate n 0) 2 full_decompressor
      (mkBools 0 (default [] (encode_block defaultLengths defaultDistances [Literal 99]) ++ replicate 16 false)) 2 = Ok (d', stream') /\
    m_OutputBuffer d' = Some (<[0%nat := 99]> (replicate n 0)) /\ m_OutputPointer d' = 1.
Proof.
  assert (Hc : codes defaultLengths defaultDistances full_decompressor).
  { destruct (ParseBlock_fixed (Str := BoolStream) (λ n, replicate n 0) no_locals
      (mkDecompressor (Some [97; 98]) 2 0 new_HuffmanTree new_HuffmanTree) (mkBools 0 [])) as (l & t & E & H);
      [split; apply new_tree_shaped|]. unfold full_decompressor. rewrite E. exact H. }
  destruct (growth_loses_output (λ n, replicate n 0) (λ n, length_replicate n 0) defaultLengths defaultDistances full_decompressor
    (mkBools 0 (default [] (encode_block defaultLengths defaultDistances [Literal 99]) ++ replicate 16 false))
    99 (default [] (encode_block defaultLengths defaultDistances [Literal 99])) (replicate 16 false) 0 Hc)
    as (n & d' & s' & H1 & H2 & H3).
  - vm_compute. reflexivity.
  - reflexivity.
  - simpl. lia.
  - vm_compute. congruence.
  - vm_compute. split; congruence.
  - vm_compute. split; congruence.
  - vm_compute. congruence.
  - exists n, d', s'. split_and!; trivial.
Defined.

(** ** Code lengths of a dynamic block *)
(** 288 literal codes, 32 distance codes; symbols 17 and 18 of the length code have one bit;
    then three times symbol 18 with repeat 138. *)
Definition overlong_lengths : list bool :=
  replicate 10 true ++ replicate 4 false ++
  [false; false; false] ++ [true; false; false] ++ [true; false; false] ++ [false; false; false] ++
  replicate 8 true ++ replicate 8 true ++ replicate 8 true ++ replicate 16 false.

(** Symbol 16 ("repeat the previous length") as the first code length. *)
Definition repeat_without_previous : list bool :=
  replicate 14 false ++
  [true; false; false] ++ [false; false; false] ++ [false; false; false] ++ [true; false; false] ++
  [true; false; false] ++ replicate 16 false.

(** [DecodeCanonicalCodes] trusts the repeat counts of the stream: a run that passes the total
    is written past the end of the 320-byte array [allCodeLengths] before the total is checked, and
    a "repeat previous" with no previous length reads before its start. *)
Theorem DecodeCanonicalCodes_out_of_bounds (d : Decompressor) :
  DecodeCanonicalCodes (mkLocals (replicate 320 0) new_HuffmanTree) d (mkBools 0 overlong_lengths) = OutOfBounds /\
  DecodeCanonicalCodes (mkLocals (replicate 320 0) new_HuffmanTree) d (mkBools 0 repeat_without_previous) = OutOfBounds.
Proof. split; vm_compute; reflexivity. Qed.
