(* ===== verification/Event.v ===== *)
(** * Events

    [Scheduler/Event.cpp]: a counter of pending triggers and a list of blocked
    threads.  [Await] is split where the thread blocks; a trigger returns the threads
    it unblocks.  The CPU's interrupt flag is part of the state, since both functions
    change it. *)

From Stdlib Require Import ZArith Lia Bool.
From stdpp Require Import base gmap list numbers.
From S2P Require Import Prelude.

Record EventListener := mkListener { Thread : nat; Which : nat }.
Record Event := mkEvent { Pending : Z; Listeners : list EventListener }.

(** [CheckPending]: the first event with a pending trigger, taken. *)
Fixpoint CheckPending (events : list Event) : option (nat * list Event) :=
  match events with
  | [] => None
  | e :: events =>
      if 0 <? Pending e then Some (O, mkEvent (Pending e - 1) (Listeners e) :: events)
      else match CheckPending events with
           | Some (i, events) => Some (S i, e :: events)
           | None => None
           end
  end.

(** [AttachListeners]: the thread listens to every event, under its position. *)
Definition AttachListeners (thread : nat) (events : list Event) : list Event :=
  imap (λ i e, mkEvent (Pending e) (Listeners e ++ [mkListener thread i])) events.

(** The loop of [DetachListeners] over one event: [Erase] returns the next position,
    which the increment of the loop then skips. *)
Fixpoint detach_loop (thread : nat) (ls : list EventListener) : list EventListener :=
  match ls with
  | [] => []
  | l :: rest =>
      if (Thread l =? thread)%nat then
        match rest with
        | [] => []
        | l' :: rest => l' :: detach_loop thread rest
        end
      else l :: detach_loop thread rest
  end.
Definition DetachListeners (thread : nat) (events : list Event) : list Event :=
  (λ e, mkEvent (Pending e) (detach_loop thread (Listeners e))) <$> events.

(** [Await] up to the point where it returns or blocks the calling thread. *)
Inductive Awaited :=
  | Returned (which : option nat) (interrupts : bool)
  | Blocked (interrupts : bool).

Definition Await (events : list Event) (thread : nat) (block interrupts : bool) : list Event * Awaited :=
  match CheckPending events with
  | Some (i, events) => (events, Returned (Some i) interrupts)
  | None =>
      if block then (AttachListeners thread events, Blocked true)
      else (events, Returned None interrupts)
  end.

(** What the thread does when it runs again. *)
Definition Await_resume (events : list Event) (thread : nat) : list Event := DetachListeners thread events.

(** [Trigger]: the event, the listeners whose threads are unblocked, and the interrupt flag. *)
Definition Trigger (e : Event) (drop interrupts : bool) : Event * list EventListener * bool :=
  match Listeners e with
  | [] => (if drop then e else mkEvent (Pending e + 1) [], [], false)
  | ls => (mkEvent (Pending e) [], ls, interrupts)
  end.

(** ** Lemmas *)
Definition await_one (e : Event) (thread : nat) (block interrupts : bool) : Event * Awaited :=
  match Await [e] thread block interrupts with
  | (e :: _, r) => (e, r)
  | ([], r) => (e, r)
  end.

Lemma await_pending e thread block interrupts :
  0 < Pending e ->
  await_one e thread block interrupts = (mkEvent (Pending e - 1) (Listeners e), Returned (Some O) interrupts).
Proof. intros H. unfold await_one, Await. cbn [CheckPending]. destruct (Z.ltb_spec 0 (Pending e)); [reflexivity|lia]. Qed.

Lemma CheckPending_spec events :
  match CheckPending events with
  | Some (i, events') => exists e, events !! i = Some e /\ 0 < Pending e /\
      (forall j e', (j < i)%nat -> events !! j = Some e' -> Pending e' <= 0) /\
      events' = <[i := mkEvent (Pending e - 1) (Listeners e)]> events
  | None => Forall (λ e, Pending e <= 0) events
  end.
Proof.
  induction events as [|e events IH]; cbn [CheckPending]; [constructor|].
  destruct (Z.ltb_spec 0 (Pending e)) as [H|H].
  - exists e. split_and!; trivial; intros; lia.
  - destruct (CheckPending events) as [[i ev']|].
    + destruct IH as (e0 & H1 & H2 & H3 & ->). exists e0. split_and!; trivial.
      intros [|j] e' Hj He'; [injection He' as <-; lia|]. apply (H3 j); trivial. lia.
    + now constructor.
Qed.

(** Triggers on an event nobody waits for are counted. *)
Fixpoint triggers (n : nat) (e : Event) : Event :=
  match n with
  | O => e
  | S n => triggers n (fst (fst (Trigger e false true)))
  end.
Lemma triggers_count n : forall p, triggers n (mkEvent p []) = mkEvent (p + Z.of_nat n) [].
Proof. induction n as [|n IH]; intros p; cbn -[Z.of_nat]; [f_equal; lia|]. rewrite IH. f_equal. lia. Qed.

Fixpoint awaits (n : nat) (thread : nat) (e : Event) : Event * bool :=
  match n with
  | O => (e, true)
  | S n =>
      match await_one e thread true true with
      | (e, Returned (Some _) _) => awaits n thread e
      | (e, _) => (e, false)
      end
  end.
Lemma awaits_count n thread : forall p, Z.of_nat n <= p -> awaits n thread (mkEvent p []) = (mkEvent (p - Z.of_nat n) [], true).
Proof.
  induction n as [|n IH]; intros p Hp; cbn [awaits]; [do 2 f_equal; lia|].
  rewrite await_pending by (simpl; lia). cbn [Pending Listeners]. rewrite IH by lia. do 2 f_equal. lia.
Qed.

(** ** Theorems *)
(** No trigger is lost: after [n] triggers of an idle event, exactly [n] calls of [Await] return
    at once and the next one blocks its thread, which the following trigger unblocks. *)
Theorem triggers_then_awaits (n : nat) (thread : nat) :
  let e := triggers n (mkEvent 0 []) in
  let (e', ok) := awaits n thread e in
  ok = true /\
  await_one e' thread true true = (mkEvent 0 [mkListener thread 0], Blocked true) /\
  Trigger (mkEvent 0 [mkListener thread 0]) false true = (mkEvent 0 [], [mkListener thread 0], true).
Proof.
  rewrite triggers_count. cbn zeta. rewrite awaits_count by lia.
  replace (0 + Z.of_nat n - Z.of_nat n) with 0 by lia. split_and!; reflexivity.
Qed.

(** [Trigger] disables interrupts and restores them only on the path with listeners: triggering
    an event nobody waits for leaves the CPU with interrupts disabled. *)
Theorem Trigger_leaves_interrupts_disabled (p : Z) (drop : bool) :
  snd (Trigger (mkEvent p []) drop true) = false /\
  (forall ls, ls <> [] -> snd (Trigger (mkEvent p ls) drop true) = true).
Proof. split; [reflexivity|]. intros [|l ls] H; [congruence|reflexivity]. Qed.
