(* ===== verification/TTY.v ===== *)
(** * Terminal line discipline

    [Drivers/TTY.cpp] and [Drivers/TTY.hpp]: input from the keyboard goes through
    [SendBuffer], which raises signals, edits the current line in canonical mode and
    echoes; [Read] and [Write] are the device's ends towards processes.

    A [char] is a signed byte; [EnqueueChar] and [Echo] convert it to 64 bits.  The
    terminal and the [CircularQueue] of raw input are interfaces. *)

From Stdlib Require Import ZArith Lia Bool.
From stdpp Require Import base gmap list numbers.
From S2P Require Import Prelude Event.


(** ** The terminal a TTY writes to *)
Record winsize := mkWinsize { ws_rows : Z; ws_cols : Z }.
Class Screen (T : Type) := {
  screen_PutChar : T -> Z -> T;
  screen_PrintString : T -> list Z -> T;
  screen_GetCursorKeyMode : T -> bool;
  screen_GetSize : T -> winsize
}.

(** ** [CircularQueue<u8, 4096>]

    [PopFront] removes an element; which end it takes is left open. *)
Definition QUEUE_SIZE : Z := 4096.
Class CircularQueue (Q : Type) := {
  contents : Q -> list Z;
  Push : Q -> Z -> Q;
  Pop : Q -> Z * Q;
  PopFront : Q -> Z * Q;
  queue_Clear : Q -> Q;
  Back : Q -> Z;
  queue_Size : Q -> Z;
  Push_spec (q : Q) (x : Z) : Z.of_nat (length (contents q)) < QUEUE_SIZE -> contents (Push q x) = contents q ++ [x];
  Pop_spec (q : Q) (x : Z) (r : list Z) : contents q = x :: r -> fst (Pop q) = x /\ contents (snd (Pop q)) = r;
  PopFront_spec (q : Q) : contents q <> [] -> S (length (contents (snd (PopFront q)))) = length (contents q);
  Clear_spec (q : Q) : contents (queue_Clear q) = [];
  Size_spec (q : Q) : queue_Size q = Z.of_nat (length (contents q))
}.
Definition queue_Empty {Q} {C : CircularQueue Q} (q : Q) : bool := queue_Size q =? 0.

(** ** [API/Posix/termios.h], [API/Posix/sys/ttydefaults.h] *)
Record termios2 := mkTermios {
  c_iflag : Z; c_oflag : Z; c_cflag : Z; c_lflag : Z; c_line : Z; c_cc : list Z; c_ispeed : Z; c_ospeed : Z
}.
Definition NCCS : nat := 32.
Definition VINTR : nat := 0.
Definition VQUIT : nat := 1.
Definition VERASE : nat := 2.
Definition VKILL : nat := 3.
Definition VEOF : nat := 4.
Definition VSUSP : nat := 10.
Definition VEOL : nat := 11.
Definition VWERASE : nat := 14.
Definition ISTRIP : Z := 0x40.
Definition INLCR : Z := 0x100.
Definition IGNCR : Z := 0x200.
Definition ICRNL : Z := 0x400.
Definition IXON : Z := 0x2000.
Definition OPOST : Z := 0x1.
Definition ONLCR : Z := 0x4.
Definition ONLRET : Z := 0x20.
Definition ISIG : Z := 0x1.
Definition ICANON : Z := 0x2.
Definition ECHO : Z := 0x10.
Definition ECHOE : Z := 0x20.
Definition ECHOK : Z := 0x40.
Definition ECHONL : Z := 0x100.
Definition ECHOCTL : Z := 512.
Definition ECHOKE : Z := 2048.
Definition IEXTEN : Z := 0x100000.

Definition CTRL (c : Z) : Z := c .& 31.
Definition TTYDEF_IFLAG : Z := ICRNL .| IXON.
Definition TTYDEF_OFLAG : Z := OPOST .| ONLCR.
Definition TTYDEF_LFLAG : Z := ISIG .| ICANON .| ECHO .| ECHOE .| ECHOK .| ECHOCTL .| ECHOKE .| IEXTEN.
Definition TTYDEF_CFLAG : Z := 0x17 .| 0x60 .| 0x200 .| 0x2000.
Definition TTYDEF_SPEED : Z := 38400.

(** The control characters in the order of their indices: VINTR VQUIT VERASE VKILL VEOF VTIME VMIN VSWTC
    VSTART VSTOP VSUSP VEOL VREPRINT VDISCARD VWERASE VLNEXT VEOL2. *)
Definition default_cc : list Z :=
  [CTRL 67; 28; 127; CTRL 85; CTRL 68; 0; 1; 0; CTRL 81; CTRL 83; CTRL 90; 0; CTRL 82; CTRL 79; CTRL 87; CTRL 86; 0]
  ++ replicate 15 0.

Definition default_termios : termios2 :=
  mkTermios TTYDEF_IFLAG TTYDEF_OFLAG TTYDEF_CFLAG TTYDEF_LFLAG 0 default_cc TTYDEF_SPEED TTYDEF_SPEED.

Definition SIGHUP : Z := 1.
Definition SIGINT : Z := 2.
Definition SIGQUIT : Z := 3.
Definition SIGCONT : Z := 18.
Definition SIGTSTP : Z := 20.

Inductive TtyState := eNormal | eEscapeSequence | eControlSequence | eDecPrivate.
#[global] Instance TtyState_eq_dec : EqDecision TtyState.
Proof. solve_decision. Defined.

Section TTY.
Context {T Q : Type} {Sc : Screen T} {CQ : CircularQueue Q}.

(** The members of the class, and what it does to the rest of the kernel: the group signals it
    sends, the threads it unblocks, the interrupt flag of the CPU. *)
Record TTY := mkTTY {
  m_Terminal : T;
  m_Termios : termios2;
  m_ControlSid : Z;
  m_Pgid : Z;
  m_RawBuffer : Q;
  m_LineQueue : list (list Z);
  m_OnAddLine : Event;
  m_RawEvent : Event;
  m_State : TtyState;
  signals : list (Z * Z);
  unblocked : list EventListener;
  interrupts : bool
}.

Definition new_TTY (terminal : T) (empty : Q) (ints : bool) : TTY :=
  mkTTY terminal default_termios (-1) 100 empty [] (mkEvent 0 []) (mkEvent 0 []) eNormal [] [] ints.

Definition with_terminal (t : TTY) (x : T) : TTY :=
  mkTTY x (m_Termios t) (m_ControlSid t) (m_Pgid t) (m_RawBuffer t) (m_LineQueue t) (m_OnAddLine t) (m_RawEvent t)
    (m_State t) (signals t) (unblocked t) (interrupts t).
Definition with_termios (t : TTY) (x : termios2) : TTY :=
  mkTTY (m_Terminal t) x (m_ControlSid t) (m_Pgid t) (m_RawBuffer t) (m_LineQueue t) (m_OnAddLine t) (m_RawEvent t)
    (m_State t) (signals t) (unblocked t) (interrupts t).
Definition with_owner (t : TTY) (sid pgid : Z) : TTY :=
  mkTTY (m_Terminal t) (m_Termios t) sid pgid (m_RawBuffer t) (m_LineQueue t) (m_OnAddLine t) (m_RawEvent t)
    (m_State t) (signals t) (unblocked t) (interrupts t).
Definition with_raw (t : TTY) (x : Q) : TTY :=
  mkTTY (m_Terminal t) (m_Termios t) (m_ControlSid t) (m_Pgid t) x (m_LineQueue t) (m_OnAddLine t) (m_RawEvent t)
    (m_State t) (signals t) (unblocked t) (interrupts t).
Definition with_lines (t : TTY) (x : list (list Z)) : TTY :=
  mkTTY (m_Terminal t) (m_Termios t) (m_ControlSid t) (m_Pgid t) (m_RawBuffer t) x (m_OnAddLine t) (m_RawEvent t)
    (m_State t) (signals t) (unblocked t) (interrupts t).
Definition with_events (t : TTY) (line raw : Event) : TTY :=
  mkTTY (m_Terminal t) (m_Termios t) (m_ControlSid t) (m_Pgid t) (m_RawBuffer t) (m_LineQueue t) line raw
    (m_State t) (signals t) (unblocked t) (interrupts t).
Definition with_mode (t : TTY) (x : TtyState) : TTY :=
  mkTTY (m_Terminal t) (m_Termios t) (m_ControlSid t) (m_Pgid t) (m_RawBuffer t) (m_LineQueue t) (m_OnAddLine t) (m_RawEvent t)
    x (signals t) (unblocked t) (interrupts t).
Definition with_kernel (t : TTY) (sg : list (Z * Z)) (ub : list EventListener) (i : bool) : TTY :=
  mkTTY (m_Terminal t) (m_Termios t) (m_ControlSid t) (m_Pgid t) (m_RawBuffer t) (m_LineQueue t) (m_OnAddLine t) (m_RawEvent t)
    (m_State t) sg ub i.

Definition cc (t : TTY) (i : nat) : Z := nth i (c_cc (m_Termios t)) 0.
Definition iflag (t : TTY) (f : Z) : bool := truthy (c_iflag (m_Termios t) .& f).
Definition oflag (t : TTY) (f : Z) : bool := truthy (c_oflag (m_Termios t) .& f).
Definition lflag (t : TTY) (f : Z) : bool := truthy (c_lflag (m_Termios t) .& f).
Definition IsCanonicalMode (t : TTY) : bool := lflag t ICANON.
Definition SignalsEnabled (t : TTY) : bool := lflag t ISIG.
Definition IsControl (c : Z) : bool := (c <? 32) || (c =? 127).

(** ** Events of the TTY *)
Definition trigger_line (t : TTY) : TTY :=
  let '(e, ls, i) := Trigger (m_OnAddLine t) false (interrupts t) in
  with_kernel (with_events t e (m_RawEvent t)) (signals t) (unblocked t ++ ls) i.
Definition trigger_raw (t : TTY) : TTY :=
  let '(e, ls, i) := Trigger (m_RawEvent t) false (interrupts t) in
  with_kernel (with_events t (m_OnAddLine t) e) (signals t) (unblocked t ++ ls) i.

(** ** Lines *)
(** [while (!m_RawBuffer.Empty()) line += m_RawBuffer.Pop();] *)
Fixpoint drain (fuel : nat) (q : Q) (line : list Z) : list Z * Q :=
  match fuel with
  | O => (line, q)
  | S fuel => if queue_Empty q then (line, q) else let (x, q) := Pop q in drain fuel q (line ++ [x])
  end.

Definition AddLine (t : TTY) : TTY :=
  let (line, q) := drain (Z.to_nat (queue_Size (m_RawBuffer t))) (m_RawBuffer t) [] in
  trigger_line (with_raw (with_lines t (m_LineQueue t ++ [line])) (queue_Clear q)).

Definition KillLine (t : TTY) : TTY := with_raw t (queue_Clear (m_RawBuffer t)).
Definition FlushInput (t : TTY) : TTY := with_raw t (queue_Clear (m_RawBuffer t)).
Definition EnqueueChar (t : TTY) (c : Z) : TTY := with_raw t (Push (m_RawBuffer t) (u8 (u64 c))).

Definition EchoRaw (t : TTY) (c : Z) : TTY := with_terminal t (screen_PutChar (m_Terminal t) (u64 c)).
Definition Echo (t : TTY) (c : Z) : TTY :=
  if negb (oflag t OPOST) then EchoRaw t c
  else
    let t := if (u64 c =? 10) && oflag t ONLCR then EchoRaw t 13 else t in
    if (u64 c =? 13) && oflag t ONLRET then t else EchoRaw t c.

Definition rub_out (t : TTY) : TTY := EchoRaw (EchoRaw (EchoRaw t 8) 32) 8.
Definition EraseChar (t : TTY) : TTY :=
  if queue_Empty (m_RawBuffer t) then t
  else
    let (c, q) := PopFront (m_RawBuffer t) in
    let t := with_raw t q in
    if lflag t (ECHO .| ECHOK) then (if IsControl (i8 c) then rub_out (rub_out t) else rub_out t) else t.

(** One of the two loops of [EraseWord]; every turn removes a character. *)
Fixpoint erase_while (fuel : nat) (p : Z -> bool) (t : TTY) : TTY :=
  match fuel with
  | O => t
  | S fuel =>
      if negb (queue_Empty (m_RawBuffer t)) && p (Back (m_RawBuffer t)) then erase_while fuel p (EraseChar t) else t
  end.
Definition EraseWord (t : TTY) : TTY :=
  let t := erase_while (Z.to_nat (queue_Size (m_RawBuffer t))) (λ c, negb (c =? 32)) t in
  erase_while (Z.to_nat (queue_Size (m_RawBuffer t))) (λ c, c =? 32) t.

(** ** Input *)
Definition SendSignal (t : TTY) (signal : Z) : TTY :=
  if m_Pgid t =? 0 then t else with_kernel t (signals t ++ [(m_Pgid t, signal)]) (unblocked t) (interrupts t).

(** Returns whether the character was consumed. *)
Definition OnCanonChar (t : TTY) (c : Z) : TTY * bool :=
  if decide (m_State t = eEscapeSequence) then (EchoRaw t c, true)
  else if c =? cc t VEOF then (AddLine t, true)
  else if (c =? cc t VKILL) && lflag t ECHOK then (KillLine t, true)
  else if ((c =? cc t VERASE) || (c =? 8)) && lflag t ECHOE then (EraseChar t, true)
  else if (c =? cc t VWERASE) && lflag t ECHOE then (EraseWord t, true)
  else if c =? 10 then
    let t := if lflag t ECHO || lflag t ECHONL then Echo t c else t in
    (AddLine (EnqueueChar t c), true)
  else if c =? cc t VEOL then (AddLine t, false)
  else (t, false).

(** The body of the loop of [SendBuffer]. *)
Definition send_char (t : TTY) (c : Z) : TTY :=
  let c := if iflag t ISTRIP then c .& 0x7f else c in
  if SignalsEnabled t && (c =? cc t VINTR) then SendSignal t SIGINT
  else if SignalsEnabled t && (c =? cc t VQUIT) then SendSignal t SIGQUIT
  else if SignalsEnabled t && (c =? cc t VSUSP) then SendSignal t SIGINT
  else if negb ((c =? 10) && iflag t INLCR) && (c =? 13) && iflag t IGNCR then t
  else
    let c := if (c =? 10) && iflag t INLCR then 13
             else if (c =? 13) && iflag t ICRNL then 10 else c in
    let '(t, consumed) := if IsCanonicalMode t then OnCanonChar t c else (t, false) in
    if consumed then t
    else
      let t := EnqueueChar t c in
      if lflag t ECHO then Echo t c else t.

Definition SendBuffer (t : TTY) (string : list Z) : TTY :=
  let t := match string with c :: _ => if c =? 27 then with_mode t eEscapeSequence else t | [] => t end in
  trigger_raw (with_mode (foldl send_char t string) eNormal).

Definition SetTermios (t : TTY) (x : termios2) : TTY := with_raw (with_termios t x) (queue_Clear (m_RawBuffer t)).

(** ** Reading and writing *)
(** A read returns bytes, or blocks its thread until the event is triggered; taking a line from an empty
    queue is undefined. *)
Inductive ReadResult :=
  | ReadDone (bytes : list Z)
  | ReadBlocks
  | ReadUndefined.

(** [while (count--)] of the non-canonical branch. *)
Fixpoint pop_many (count : nat) (q : Q) : list Z * Q :=
  match count with
  | O => ([], q)
  | S count => let (x, q) := Pop q in let (xs, q) := pop_many count q in (x :: xs, q)
  end.

(** The part after [Await]. *)
Definition Read_awake (t : TTY) (bytes : Z) : TTY * ReadResult :=
  if IsCanonicalMode t then
    match m_LineQueue t with
    | [] => (t, ReadUndefined)
    | line :: lines => (with_lines t lines, ReadDone (take (Z.to_nat (Z.min bytes (Z.of_nat (length line)))) line))
    end
  else
    let (xs, q) := pop_many (Z.to_nat (Z.min (queue_Size (m_RawBuffer t)) bytes)) (m_RawBuffer t) in
    (with_raw t q, ReadDone xs).

Definition Read (t : TTY) (thread : nat) (bytes : Z) : TTY * ReadResult :=
  if IsCanonicalMode t then
    match await_one (m_OnAddLine t) thread true (interrupts t) with
    | (e, Returned _ i) => Read_awake (with_kernel (with_events t e (m_RawEvent t)) (signals t) (unblocked t) i) bytes
    | (e, Blocked i) => (with_kernel (with_events t e (m_RawEvent t)) (signals t) (unblocked t) i, ReadBlocks)
    end
  else if queue_Size (m_RawBuffer t) <? bytes then
    match await_one (m_RawEvent t) thread true (interrupts t) with
    | (e, Returned _ i) => Read_awake (with_kernel (with_events t (m_OnAddLine t) e) (signals t) (unblocked t) i) bytes
    | (e, Blocked i) => (with_kernel (with_events t (m_OnAddLine t) e) (signals t) (unblocked t) i, ReadBlocks)
    end
  else Read_awake t bytes.

(** "[mlibc]: " *)
Definition MLIBC_LOG_SIGNATURE : list Z := [91; 109; 108; 105; 98; 99; 93; 58; 32].

(** Messages of the C library go to the kernel log; [snd] is what is logged. *)
Definition Write (t : TTY) (str : list Z) : TTY * option (list Z) :=
  if decide (take (length MLIBC_LOG_SIGNATURE) str = MLIBC_LOG_SIGNATURE)
  then (t, Some (drop (length MLIBC_LOG_SIGNATURE) str))
  else (with_terminal t (screen_PrintString (m_Terminal t) str), None).

(** ** Control requests *)
Inductive Request :=
  | TCGETS | TCSETS | TCSETSW | TCSETSF | TCGETS2 | TCSETS2 | TCSETSW2 | TCSETSF2
  | TCGETA | TCSETA | TCSETAW | TCSETAF | TIOCGLCKTRMIOS | TIOCSLCKTRMIOS
  | TIOCGWINSZ | TIOCSWINSZ | TIOCINQ | TIOCGETD | TIOCSETD
  | TIOCSCTTY | TIOCNOTTY | TIOCGPGRP | TIOCSPGRP | TIOCGSID
  | OtherRequest (code : Z).

Definition EFAULT : Z := 14.
Definition EINVAL : Z := 22.
Definition EPERM : Z := 1.
Definition ENOSYS : Z := 38.

(** The calling process as [IoCtl] sees it; [pr_TTY]: none, this one or another one. *)
Inductive ProcessTTY := NoTTY | ThisTTY | AnotherTTY.
#[global] Instance ProcessTTY_eq_dec : EqDecision ProcessTTY.
Proof. solve_decision. Defined.
Record Process := mkProcess {
  pr_Sid : Z; pr_Pid : Z; pr_TTY : ProcessTTY; pr_UserID : Z; pr_SessionID : Z; pr_IsSessionLeader : bool;
  pr_signals : list Z
}.
Definition set_tty (p : Process) (x : ProcessTTY) : Process :=
  mkProcess (pr_Sid p) (pr_Pid p) x (pr_UserID p) (pr_SessionID p) (pr_IsSessionLeader p) (pr_signals p).
Definition send (p : Process) (sig : Z) : Process :=
  mkProcess (pr_Sid p) (pr_Pid p) (pr_TTY p) (pr_UserID p) (pr_SessionID p) (pr_IsSessionLeader p) (pr_signals p ++ [sig]).

(** What [argp] points to, read as each type the requests use, and whether the process may access it. *)
Record UserArg := mkArg { arg_null : bool; arg_readable : bool; arg_writable : bool;
  arg_termios : termios2; arg_u32 : Z; arg_i32 : Z }.
Inductive UserWrite := NoWrite | WriteTermios (x : termios2) | WriteWinsize (x : winsize) | WriteInt (x : Z).

(** Result: 0 with a value stored through [argp], or -1 with an error number. *)
Inductive IoResult := IoOk (w : UserWrite) | IoErr (e : Z).

Definition IoCtl (t : TTY) (p : Process) (request : Request) (arg : UserArg) : TTY * Process * IoResult :=
  if arg_null arg then (t, p, IoErr EFAULT)
  else match request with
  | TCGETS | TCGETS2 => if arg_writable arg then (t, p, IoOk (WriteTermios (m_Termios t))) else (t, p, IoErr EFAULT)
  | TCSETS | TCSETSW => if arg_readable arg then (SetTermios t (arg_termios arg), p, IoOk NoWrite) else (t, p, IoErr EFAULT)
  | TCSETSF => if arg_readable arg then (FlushInput (SetTermios t (arg_termios arg)), p, IoOk NoWrite) else (t, p, IoErr EFAULT)
  | TCSETS2 | TCSETSW2 | TCSETSF2 =>
      if arg_readable arg then (with_termios t (arg_termios arg), p, IoOk NoWrite) else (t, p, IoErr EFAULT)
  | TCGETA | TCSETA | TCSETAW | TCSETAF | TIOCGLCKTRMIOS | TIOCSLCKTRMIOS | TIOCSWINSZ => (t, p, IoErr ENOSYS)
  | TIOCGWINSZ => (t, p, IoOk (WriteWinsize (screen_GetSize (m_Terminal t))))
  | TIOCINQ => (t, p, IoOk (WriteInt (u32 (queue_Size (m_RawBuffer t)))))
  | TIOCGETD => (t, p, IoOk (WriteInt (c_line (m_Termios t))))
  | TIOCSETD =>
      let x := m_Termios t in
      (with_termios t (mkTermios (c_iflag x) (c_oflag x) (c_cflag x) (c_lflag x) (u8 (arg_u32 arg)) (c_cc x) (c_ispeed x) (c_ospeed x)),
       p, IoOk NoWrite)
  | TIOCSCTTY =>
      if negb (pr_Sid p =? pr_Pid p) || negb (bool_decide (pr_TTY p = NoTTY)) then (t, p, IoErr EINVAL)
      else if truthy (m_ControlSid t) && negb (pr_UserID p =? 0) then (t, p, IoErr EPERM)
      else (with_owner t (pr_SessionID p) (m_Pgid t), set_tty p ThisTTY, IoOk NoWrite)
  | TIOCNOTTY =>
      if negb (bool_decide (pr_TTY p = ThisTTY)) || negb (m_ControlSid t =? pr_SessionID p) then (t, p, IoErr EINVAL)
      else
        let p := set_tty p NoTTY in
        (with_owner t (-1) (m_Pgid t), (if pr_IsSessionLeader p then send (send p SIGHUP) SIGCONT else p), IoOk NoWrite)
  | TIOCGPGRP => (t, p, IoOk (WriteInt (m_Pgid t)))
  | TIOCSPGRP => if arg_i32 arg <? 0 then (t, p, IoErr EINVAL) else (with_owner t (m_ControlSid t) (arg_i32 arg), p, IoOk NoWrite)
  | TIOCGSID => (t, p, IoOk (WriteInt (m_ControlSid t)))
  | OtherRequest _ => (t, p, IoErr EINVAL)
  end.
End TTY.
Arguments TTY T Q : clear implicits.
