(* ===== verification/TTYTheorems.v ===== *)
(** * Terminal line discipline: theorems

    Lines typed at a terminal with the default settings are echoed and read back in
    order, whether the reader comes before or after; and the places where the discipline
    departs from that. *)

From Stdlib Require Import ZArith Lia Bool.
From stdpp Require Import base gmap list numbers.
From S2P Require Import Prelude Event TTY.

(** ** A queue that is a list, and a screen that records what it is sent *)
#[export] Instance list_queue : CircularQueue (list Z).
Proof.
  refine {|
    contents q := q;
    Push q x := q ++ [x];
    Pop q := match q with x :: r => (x, r) | [] => (0, []) end;
    PopFront q := match q with x :: r => (x, r) | [] => (0, []) end;
    queue_Clear q := [];
    Back q := List.last q 0;
    queue_Size q := Z.of_nat (length q)
  |}; try reflexivity.
  - intros q x r ->. split; reflexivity.
  - intros [|x r] H; [congruence|reflexivity].
Defined.

#[export] Instance recording_screen : Screen (list Z) := {|
  screen_PutChar s c := s ++ [c];
  screen_PrintString s str := s ++ str;
  screen_GetCursorKeyMode _ := false;
  screen_GetSize _ := mkWinsize 25 80
|}.

Section Lines.
Context {T Q : Type} {Sc : Screen T} {CQ : CircularQueue Q}.
Implicit Types t : TTY T Q.

(** The default settings, outside an escape sequence, with nobody waiting for a line. *)
Record ready t : Prop := {
  rd_termios : m_Termios t = default_termios;
  rd_state : m_State t = eNormal
}.

(** A printable ASCII character. *)
Definition plain (c : Z) : Prop := 32 <= c < 127.

Lemma plain_byte c : plain c -> u64 c = c /\ u8 c = c.
Proof. intros H. unfold plain in H. unfold u64, u8. split; apply wrap_small; unfold in_u; lia. Qed.

(** The terminal, the raw buffer and the lines are all that typing changes. *)
Lemma flags t : m_Termios t = default_termios ->
  (forall f, iflag t f = truthy (TTYDEF_IFLAG .& f)) /\ (forall f, oflag t f = truthy (TTYDEF_OFLAG .& f)) /\
  (forall f, lflag t f = truthy (TTYDEF_LFLAG .& f)) /\ (forall i, cc t i = nth i default_cc 0).
Proof. intros H. unfold iflag, oflag, lflag, cc. now rewrite H. Qed.

Ltac use_flags H :=
  let F1 := fresh in let F2 := fresh in let F3 := fresh in let F4 := fresh in
  destruct (flags _ H) as (F1 & F2 & F3 & F4); rewrite ?F1, ?F2, ?F3, ?F4; clear F1 F2 F3 F4.

Lemma Echo_plain t c : m_Termios t = default_termios -> plain c -> Echo t c = with_terminal t (screen_PutChar (m_Terminal t) c).
Proof.
  intros H Hc. destruct (plain_byte c Hc) as [E _]. unfold Echo, EchoRaw. use_flags H. rewrite E. unfold plain in Hc.
  change (truthy (TTYDEF_OFLAG .& OPOST)) with true. cbn [negb].
  destruct (Z.eqb_spec c 10), (Z.eqb_spec c 13); try lia. reflexivity.
Qed.

Lemma Echo_newline t : m_Termios t = default_termios ->
  Echo t 10 = with_terminal t (screen_PutChar (screen_PutChar (m_Terminal t) 13) 10).
Proof. intros H. unfold Echo. use_flags H. reflexivity. Qed.

Lemma send_plain t c : ready t -> plain c ->
  send_char t c = with_terminal (with_raw t (Push (m_RawBuffer t) c)) (screen_PutChar (m_Terminal t) c).
Proof.
  intros [H Hs] Hc. unfold send_char, SignalsEnabled, IsCanonicalMode, OnCanonChar. use_flags H.
  cbn [nth default_cc app VINTR VQUIT VSUSP VEOF VKILL VERASE VWERASE VEOL].
  change (truthy (TTYDEF_IFLAG .& ISTRIP)) with false. change (truthy (TTYDEF_LFLAG .& ICANON)) with true.
  change (CTRL 67) with 3. change (CTRL 90) with 26. change (CTRL 68) with 4. change (CTRL 85) with 21. change (CTRL 87) with 23.
  unfold plain in Hc. cbn beta iota zeta.
  assert (Hk : forall k, k < 32 \/ k = 127 -> (c =? k) = false) by (intros k Hk; apply Z.eqb_neq; lia).
  rewrite !Hk by lia. rewrite ?andb_false_r. cbn [andb negb orb]. destruct (decide (m_State t = eEscapeSequence)) as [E|_]; [congruence|].
  cbn beta iota zeta. destruct (plain_byte c Hc) as [E8 E6]. unfold EnqueueChar. rewrite E8, E6.
  assert (H' : m_Termios (with_raw t (Push (m_RawBuffer t) c)) = default_termios) by exact H.
  unfold lflag. rewrite H'. change (truthy (c_lflag default_termios .& ECHO)) with true. cbn iota.
  rewrite Echo_plain by trivial. reflexivity.
Qed.

Lemma drain_spec (fuel : nat) : forall (q : Q) line,
  (length (contents q) <= fuel)%nat -> fst (drain fuel q line) = line ++ contents q.
Proof.
  induction fuel as [|fuel IH]; intros q line Hf; cbn [drain].
  - destruct (contents q); [|simpl in Hf; lia]. now rewrite app_nil_r.
  - unfold queue_Empty. rewrite Size_spec. destruct (contents q) as [|x r] eqn:E.
    + now rewrite app_nil_r.
    + cbn -[Z.of_nat]. destruct (Z.eqb_spec (Z.of_nat (S (length r))) 0); [lia|].
      destruct (Pop_spec q x r E) as [E1 E2]. destruct (Pop q) as [x' q']. cbn in E1, E2. subst x'.
      rewrite IH by (rewrite E2; simpl in Hf; lia). rewrite E2, <- app_assoc. reflexivity.
Qed.

(** The Enter key ends the line. *)
Lemma send_enter_canon t : ready t -> send_char t 13 = AddLine (EnqueueChar (Echo t 10) 10).
Proof.
  intros [H Hs]. unfold send_char, SignalsEnabled, IsCanonicalMode, OnCanonChar. use_flags H.
  rewrite decide_False by congruence. reflexivity.
Qed.

Lemma AddLine_spec t :
  exists q, contents q = [] /\
    AddLine t = trigger_line (with_raw (with_lines t (m_LineQueue t ++ [contents (m_RawBuffer t)])) q).
Proof.
  unfold AddLine. pose proof (drain_spec (Z.to_nat (queue_Size (m_RawBuffer t))) (m_RawBuffer t) []) as Hd.
  destruct (drain _ (m_RawBuffer t) []) as [line q]. cbn [fst app] in Hd. rewrite Hd by (rewrite Size_spec; lia).
  exists (queue_Clear q). split; [apply Clear_spec|reflexivity].
Qed.

Lemma send_enter t : ready t -> Z.of_nat (length (contents (m_RawBuffer t))) < QUEUE_SIZE ->
  exists q, contents q = [] /\ send_char t 13 =
    trigger_line (with_raw (with_lines (with_terminal t (screen_PutChar (screen_PutChar (m_Terminal t) 13) 10))
      (m_LineQueue t ++ [contents (m_RawBuffer t) ++ [10]])) q).
Proof.
  intros Hr Hq. rewrite send_enter_canon, Echo_newline by (trivial; apply Hr).
  destruct (AddLine_spec (EnqueueChar (with_terminal t (screen_PutChar (screen_PutChar (m_Terminal t) 13) 10)) 10)) as (q & E & ->).
  exists q. split; trivial. unfold EnqueueChar. change (u8 (u64 10)) with 10.
  cbn [m_RawBuffer m_LineQueue with_raw with_terminal]. now rewrite Push_spec by trivial.
Qed.

Lemma Echo_lines t c : m_LineQueue (Echo t c) = m_LineQueue t.
Proof.
  unfold Echo, EchoRaw. destruct (oflag t OPOST); [|reflexivity]. cbn [negb].
  destruct (_ && oflag t ONLCR), (_ && _); reflexivity.
Qed.

(** NUL is the end-of-line character of the default settings: it ends the line but is not consumed. *)
Lemma send_nul_lines t : ready t -> m_LineQueue (send_char t 0) = m_LineQueue t ++ [contents (m_RawBuffer t)].
Proof.
  intros [H Hs]. transitivity (m_LineQueue (AddLine t)).
  - unfold send_char, SignalsEnabled, IsCanonicalMode, OnCanonChar. use_flags H. rewrite decide_False by congruence.
    transitivity (m_LineQueue (let t := EnqueueChar (AddLine t) 0 in if lflag t ECHO then Echo t 0 else t)); [reflexivity|].
    cbn zeta. destruct (lflag (EnqueueChar (AddLine t) 0) ECHO); [exact (Echo_lines (EnqueueChar (AddLine t) 0) 0)|reflexivity].
  - destruct (AddLine_spec t) as (q & _ & ->). unfold trigger_line. destruct (Trigger _ _ _) as [[e ls] i]. reflexivity.
Qed.

(** ** Typing *)
(** Each key is one call of [SendBuffer]. *)
Definition type_keys (keys : list Z) t : TTY T Q := foldl (λ t c, SendBuffer t [c]) t keys.
Definition type_line (str : list Z) t : TTY T Q := SendBuffer (type_keys str t) [13].
Definition shown (screen : T) (chars : list Z) : T := foldl screen_PutChar screen chars.

Lemma trigger_raw_fields t :
  m_Terminal (trigger_raw t) = m_Terminal t /\ m_Termios (trigger_raw t) = m_Termios t /\
  m_RawBuffer (trigger_raw t) = m_RawBuffer t /\ m_LineQueue (trigger_raw t) = m_LineQueue t /\
  m_OnAddLine (trigger_raw t) = m_OnAddLine t /\ m_State (trigger_raw t) = m_State t /\
  (Listeners (m_RawEvent t) = [] -> unblocked (trigger_raw t) = unblocked t /\ Listeners (m_RawEvent (trigger_raw t)) = []).
Proof.
  unfold trigger_raw, Trigger. destruct (m_RawEvent t) as [p [|l ls]]; cbn; split_and!; trivial; [|discriminate].
  now rewrite app_nil_r.
Qed.

(** Nobody waits for raw input: the readers of a canonical terminal wait for lines. *)
Definition no_raw_readers t : Prop := Listeners (m_RawEvent t) = [].

Lemma key_plain t c :
  ready t -> no_raw_readers t -> plain c -> Z.of_nat (length (contents (m_RawBuffer t))) < QUEUE_SIZE ->
  let t' := SendBuffer t [c] in
  ready t' /\ no_raw_readers t' /\ m_Terminal t' = screen_PutChar (m_Terminal t) c /\
  contents (m_RawBuffer t') = contents (m_RawBuffer t) ++ [c] /\
  m_LineQueue t' = m_LineQueue t /\ m_OnAddLine t' = m_OnAddLine t /\ unblocked t' = unblocked t.
Proof.
  intros Hr Hn Hc Hq. cbn zeta. unfold SendBuffer. cbn [foldl].
  assert (Hne : (c =? 27) = false) by (apply Z.eqb_neq; unfold plain in Hc; lia). rewrite Hne.
  rewrite send_plain by trivial. destruct Hr as [Ht Hs].
  match goal with |- context [trigger_raw ?x] => destruct (trigger_raw_fields x) as (-> & E2 & -> & -> & -> & E6 & E7) end.
  destruct E7 as [-> E8]; [exact Hn|]. split_and!; trivial.
  - split; [rewrite E2; exact Ht|rewrite E6; reflexivity].
  - cbn [m_RawBuffer with_mode with_raw with_terminal]. now rewrite Push_spec.
Qed.

Lemma keys_plain str : forall t,
  ready t -> no_raw_readers t -> Forall plain str ->
  Z.of_nat (length (contents (m_RawBuffer t)) + length str) < QUEUE_SIZE ->
  let t' := type_keys str t in
  ready t' /\ no_raw_readers t' /\ m_Terminal t' = shown (m_Terminal t) str /\
  contents (m_RawBuffer t') = contents (m_RawBuffer t) ++ str /\
  m_LineQueue t' = m_LineQueue t /\ m_OnAddLine t' = m_OnAddLine t /\ unblocked t' = unblocked t.
Proof.
  induction str as [|c str IH]; intros t Hr Hn Hp Hq; cbn zeta.
  { split_and!; trivial. now rewrite app_nil_r. }
  apply Forall_cons_iff in Hp as [Hc Hp]. cbn [length] in Hq.
  destruct (key_plain t c Hr Hn Hc ltac:(lia)) as (H1 & H2 & H3 & H4 & H5 & H6 & H7).
  destruct (IH (SendBuffer t [c]) H1 H2 Hp) as (G1 & G2 & G3 & G4 & G5 & G6 & G7).
  { rewrite H4, length_app. cbn [length]. lia. }
  change (type_keys (c :: str) t) with (type_keys str (SendBuffer t [c])).
  split_and!; trivial; try congruence.
  - rewrite G3, H3. reflexivity.
  - rewrite G4, H4, <- app_assoc. reflexivity.
Qed.

Lemma line_typed str t :
  ready t -> no_raw_readers t -> Forall plain str -> contents (m_RawBuffer t) = [] -> Z.of_nat (length str) < QUEUE_SIZE ->
  let t' := type_line str t in
  let '(e, ls, _) := Trigger (m_OnAddLine t) false true in
  ready t' /\ no_raw_readers t' /\ m_Terminal t' = shown (m_Terminal t) (str ++ [13; 10]) /\
  contents (m_RawBuffer t') = [] /\ m_LineQueue t' = m_LineQueue t ++ [str ++ [10]] /\
  m_OnAddLine t' = e /\ unblocked t' = unblocked t ++ ls.
Proof.
  intros Hr Hn Hp Hq Hlen. cbn zeta. unfold type_line.
  destruct (keys_plain str t Hr Hn Hp) as (H1 & H2 & H3 & H4 & H5 & H6 & H7); [rewrite Hq; cbn; lia|].
  rewrite Hq in H4. cbn [app] in H4. 
  change (SendBuffer (type_keys str t) [13]) with (trigger_raw (with_mode (send_char (type_keys str t) 13) eNormal)).
  destruct (send_enter (type_keys str t) H1) as (q & Eq & ->); [rewrite H4; lia|].
  rewrite <- H6, <- H7. unfold trigger_line. cbn [m_OnAddLine with_raw with_lines with_terminal].
  change (interrupts (with_raw _ q)) with (interrupts (type_keys str t)).
  assert (Ei : forall i, fst (Trigger (m_OnAddLine (type_keys str t)) false i) = fst (Trigger (m_OnAddLine (type_keys str t)) false true)).
  { intros i. unfold Trigger. destruct (Listeners _); reflexivity. }
  specialize (Ei (interrupts (type_keys str t))).
  destruct (Trigger (m_OnAddLine (type_keys str t)) false (interrupts _)) as [[e0 ls0] i0].
  destruct (Trigger (m_OnAddLine (type_keys str t)) false true) as [[e ls] i]. cbn in Ei. injection Ei as -> ->.
  match goal with |- context [trigger_raw ?x] => destruct (trigger_raw_fields x) as (-> & E2 & -> & -> & -> & E6 & E7) end.
  destruct E7 as [-> E8]; [exact H2|]. destruct H1 as [H1 H1'].
  split_and!; trivial.
  - split; [exact (eq_trans E2 H1)|exact E6].
  - cbn. rewrite H3. unfold shown. now rewrite foldl_app.
  - cbn. now rewrite H4, H5.
Qed.

(** ** Lines in order *)
Definition type_lines (lines : list (list Z)) t : TTY T Q := foldl (λ t l, type_line l t) t lines.
Fixpoint reads (n : nat) (thread : nat) (bytes : Z) t : TTY T Q * list ReadResult :=
  match n with
  | O => (t, [])
  | S n =>
      let (t, r) := Read t thread bytes in
      let (t, rs) := reads n thread bytes t in
      (t, r :: rs)
  end.

Definition typed_line (l : list Z) : Prop := Forall plain l /\ Z.of_nat (length l) < QUEUE_SIZE.

Lemma lines_typed lines : forall t p,
  ready t -> no_raw_readers t -> contents (m_RawBuffer t) = [] -> m_OnAddLine t = mkEvent p [] -> Forall typed_line lines ->
  let t' := type_lines lines t in
  ready t' /\ m_LineQueue t' = m_LineQueue t ++ ((.++ [10]) <$> lines) /\
  m_OnAddLine t' = mkEvent (p + Z.of_nat (length lines)) [] /\
  m_Terminal t' = shown (m_Terminal t) (concat ((.++ [13; 10]) <$> lines)).
Proof.
  induction lines as [|l lines IH]; intros t p Hr Hn Hq He Hl; cbn zeta.
  { cbn. rewrite app_nil_r, Z.add_0_r. split_and!; trivial. }
  apply Forall_cons_iff in Hl as [[Hp Hlen] Hl].
  pose proof (line_typed l t Hr Hn Hp Hq Hlen) as H. cbn zeta in H. rewrite He in H. cbn in H.
  destruct H as (H1 & H2 & H3 & H4 & H5 & H6 & _).
  destruct (IH (type_line l t) (p + 1) H1 H2 H4 H6 Hl) as (G1 & G2 & G3 & G4).
  change (type_lines (l :: lines) t) with (type_lines lines (type_line l t)). split_and!; trivial.
  - rewrite G2, H5, <- app_assoc. reflexivity.
  - rewrite G3. f_equal. cbn [length]. lia.
  - rewrite G4, H3. unfold shown. symmetry. apply (foldl_app screen_PutChar (l ++ [13; 10])).
Qed.

Lemma canonical t : ready t -> IsCanonicalMode t = true.
Proof. intros [H _]. unfold IsCanonicalMode. use_flags H. reflexivity. Qed.

Lemma Read_line t thread bytes line lines p :
  ready t -> m_LineQueue t = line :: lines -> m_OnAddLine t = mkEvent p [] -> 0 < p ->
  exists t', Read t thread bytes = (t', ReadDone (take (Z.to_nat (Z.min bytes (Z.of_nat (length line)))) line)) /\
    ready t' /\ m_LineQueue t' = lines /\ m_OnAddLine t' = mkEvent (p - 1) [] /\ m_Terminal t' = m_Terminal t.
Proof.
  intros Hr Hl He Hp. unfold Read. rewrite canonical, He, await_pending by (trivial; simpl; lia).
  cbn [Pending Listeners]. unfold Read_awake.
  match goal with |- context [IsCanonicalMode ?x] => change (IsCanonicalMode x) with (IsCanonicalMode t) end.
  rewrite canonical by trivial. cbn [m_LineQueue with_kernel with_events]. rewrite Hl.
  eexists. split; [reflexivity|]. destruct Hr. split_and!; trivial. split; trivial.
Qed.

Lemma take_all_line bytes (line : list Z) : Z.of_nat (length line) <= bytes ->
  take (Z.to_nat (Z.min bytes (Z.of_nat (length line)))) line = line.
Proof. intros H. apply take_ge. lia. Qed.

Lemma reads_lines thread bytes lines : forall t p,
  ready t -> m_LineQueue t = lines -> m_OnAddLine t = mkEvent p [] -> p = Z.of_nat (length lines) ->
  Forall (λ l, Z.of_nat (length l) <= bytes) lines ->
  exists t', reads (length lines) thread bytes t = (t', ReadDone <$> lines) /\
    ready t' /\ m_LineQueue t' = [] /\ m_OnAddLine t' = mkEvent 0 [] /\ m_Terminal t' = m_Terminal t.
Proof.
  induction lines as [|l lines IH]; intros t p Hr Hl He Hp Hb; cbn [length reads].
  { exists t. rewrite Hp in He. split_and!; trivial. }
  apply Forall_cons_iff in Hb as [Hb Hbs].
  destruct (Read_line t thread bytes l lines p Hr Hl He) as (t1 & -> & H1 & H2 & H3 & H4); [rewrite Hp; cbn [length]; lia|].
  rewrite take_all_line by trivial.
  destruct (IH t1 (p - 1) H1 H2 H3) as (t2 & -> & G1 & G2 & G3 & G4); trivial; [rewrite Hp; cbn [length]; lia|].
  exists t2. split_and!; trivial. congruence.
Qed.

(** C28: lines typed at a terminal with the default settings are read back whole and in order, one per
    [read]; every character is echoed as it is typed, Enter as carriage return and line feed; when all
    lines are read the next reader blocks. *)
Theorem typed_lines_are_read (lines : list (list Z)) (t : TTY T Q) (thread : nat) (bytes : Z) :
  ready t -> no_raw_readers t -> contents (m_RawBuffer t) = [] -> m_LineQueue t = [] -> m_OnAddLine t = mkEvent 0 [] ->
  Forall (λ l, typed_line l /\ Z.of_nat (length l) < bytes) lines ->
  exists t', reads (length lines) thread bytes (type_lines lines t) = (t', (λ l, ReadDone (l ++ [10])) <$> lines) /\
    m_Terminal t' = shown (m_Terminal t) (concat ((.++ [13; 10]) <$> lines)) /\
    m_LineQueue t' = [] /\ snd (Read t' thread bytes) = ReadBlocks.
Proof.
  intros Hr Hn Hq Hl He Hlines.
  destruct (lines_typed lines t 0 Hr Hn Hq He) as (H1 & H2 & H3 & H4).
  { eapply Forall_impl; [|exact Hlines]. now intros l [H _]. }
  rewrite Hl in H2. cbn [app] in H2.
  destruct (reads_lines thread bytes ((.++ [10]) <$> lines) (type_lines lines t) (Z.of_nat (length lines)))
    as (t' & E & G1 & G2 & G3 & G4); trivial.
  { now rewrite length_fmap. }
  { apply Forall_fmap. eapply Forall_impl; [|exact Hlines]. intros l [_ H]. cbn. rewrite length_app. cbn. lia. }
  exists t'. rewrite length_fmap in E. rewrite E, <- list_fmap_compose. split_and!; trivial; [congruence|].
  unfold Read. rewrite canonical, G3 by trivial. reflexivity.
Qed.

(** A reader that comes first is blocked; the line typed next unblocks exactly its thread and is what
    it reads. *)
Theorem blocked_reader_gets_line (t : TTY T Q) (thread : nat) (bytes : Z) (str : list Z) :
  ready t -> no_raw_readers t -> contents (m_RawBuffer t) = [] -> m_LineQueue t = [] -> m_OnAddLine t = mkEvent 0 [] ->
  typed_line str -> Z.of_nat (length str) < bytes ->
  exists t1, Read t thread bytes = (t1, ReadBlocks) /\
    unblocked (type_line str t1) = unblocked t ++ [mkListener thread 0] /\
    snd (Read_awake (type_line str t1) bytes) = ReadDone (str ++ [10]).
Proof.
  intros Hr Hn Hq Hl He [Hp Hlen] Hb. unfold Read. rewrite canonical, He by trivial. cbn.
  eexists. split; [reflexivity|].
  match goal with |- context [type_line str ?x] => set (t1 := x) end.
  assert (Hr1 : ready t1) by (destruct Hr; split; trivial).
  pose proof (line_typed str t1 Hr1 Hn Hp Hq Hlen) as H. cbn zeta in H.
  change (m_OnAddLine t1) with (mkEvent 0 [mkListener thread 0]) in H. cbn in H.
  destruct H as (G1 & _ & _ & _ & G5 & _ & G7). change (unblocked t1) with (unblocked t) in G7.
  split; [exact G7|]. unfold Read_awake. rewrite canonical, G5 by trivial. change (m_LineQueue t1) with (m_LineQueue t).
  rewrite Hl. cbn [app snd]. rewrite take_all_line by (rewrite length_app; cbn; lia). reflexivity.
Qed.
End Lines.

Definition fresh_tty : TTY (list Z) (list Z) := new_TTY [] [] true.
Lemma fresh_ready : ready fresh_tty.
Proof. split; reflexivity. Qed.

(** "ls" and "cat x". *)
Lemma typed_lines_are_read_witness :
  exists t', reads 2 7 64 (type_lines [[108; 115]; [99; 97; 116; 32; 120]] fresh_tty) =
      (t', [ReadDone [108; 115; 10]; ReadDone [99; 97; 116; 32; 120; 10]]) /\
    m_Terminal t' = [108; 115; 13; 10; 99; 97; 116; 32; 120; 13; 10] /\
    m_LineQueue t' = [] /\ snd (Read t' 7 64) = ReadBlocks.
Proof.
  destruct (typed_lines_are_read [[108; 115]; [99; 97; 116; 32; 120]] fresh_tty 7 64) as (t' & H1 & H2 & H3 & H4);
    try reflexivity; [apply fresh_ready|repeat constructor; try (unfold plain; lia)|].
  exists t'. split_and!; [exact H1|exact H2|exact H3|exact H4].
Defined.

Lemma blocked_reader_gets_line_witness :
  exists t1, Read fresh_tty 7 64 = (t1, ReadBlocks) /\
    unblocked (type_line [108; 115] t1) = [mkListener 7 0] /\
    snd (Read_awake (type_line [108; 115] t1) 64) = ReadDone [108; 115; 10].
Proof.
  destruct (blocked_reader_gets_line fresh_tty 7 64 [108; 115]) as (t1 & H1 & H2 & H3); try reflexivity;
    [apply fresh_ready|split; [repeat constructor; unfold plain; lia|reflexivity]|].
  exists t1. split_and!; [exact H1|exact H2|exact H3].
Defined.

(** ** Departures *)
Section Departures.
Context {T Q : Type} {Sc : Screen T} {CQ : CircularQueue Q}.
Implicit Types t : TTY T Q.

(** The suspend character (Ctrl-Z) raises the interrupt signal: whatever the settings, as long as
    signals are enabled and it is not also the quit character, the group gets SIGINT and never SIGTSTP. *)
Theorem suspend_key_interrupts (t : TTY T Q) (c : Z) :
  lflag t ISIG = true -> iflag t ISTRIP = false -> c = cc t VSUSP -> c <> cc t VQUIT -> m_Pgid t <> 0 ->
  signals (send_char t c) = signals t ++ [(m_Pgid t, SIGINT)].
Proof.
  intros Hs Hi -> Hq Hp. unfold send_char, SignalsEnabled, SendSignal. rewrite Hs, Hi, Z.eqb_refl.
  apply Z.eqb_neq in Hq, Hp. rewrite Hq, Hp. cbn [andb]. destruct (cc t VSUSP =? cc t VINTR); reflexivity.
Qed.

(** A [read] shorter than the line takes the line from the queue and drops the rest of it: the next
    [read] starts with the following line. *)
Theorem short_read_drops_rest (t : TTY T Q) (thread : nat) (bytes : Z) (line : list Z) (lines : list (list Z)) :
  ready t -> m_LineQueue t = line :: lines -> m_OnAddLine t = mkEvent (Z.of_nat (S (length lines))) [] ->
  0 <= bytes < Z.of_nat (length line) ->
  exists t', Read t thread bytes = (t', ReadDone (take (Z.to_nat bytes) line)) /\
    m_LineQueue t' = lines /\ contents (m_RawBuffer t') = contents (m_RawBuffer t).
Proof.
  intros Hr Hl He Hb. unfold Read. rewrite canonical, He, await_pending by (trivial; simpl; lia).
  unfold Read_awake. match goal with |- context [IsCanonicalMode ?x] => change (IsCanonicalMode x) with (IsCanonicalMode t) end.
  rewrite canonical by trivial. cbn [m_LineQueue with_kernel with_events]. rewrite Hl.
  rewrite Z.min_l by lia. eexists. split; [reflexivity|]. split; reflexivity.
Qed.

(** With a wake-up pending, reading an empty raw buffer returns at once with nothing. *)
Lemma Read_raw_stale t thread p :
  IsCanonicalMode t = false -> contents (m_RawBuffer t) = [] -> m_RawEvent t = mkEvent (Zpos (Pos.of_succ_nat p)) [] ->
  exists t', Read t thread 1 = (t', ReadDone []).
Proof.
  intros Hc Hq He. unfold Read. rewrite Hc, Size_spec, Hq, He. change (Z.of_nat (length []) <? 1) with true. cbn iota.
  rewrite await_pending by (simpl; lia). unfold Read_awake.
  match goal with |- context [IsCanonicalMode ?x] => change (IsCanonicalMode x) with (IsCanonicalMode t) end.
  rewrite Hc, Size_spec. cbn [m_RawBuffer with_kernel with_events]. rewrite Hq. eexists. reflexivity.
Qed.

(** A terminal that is not in canonical mode counts one pending wake-up for each call of [SendBuffer], also
    for input that a [read] took without waiting.  The next [read] then does not block but returns no bytes,
    which its caller takes for the end of the input. *)
Theorem raw_read_spurious_end (t : TTY T Q) (thread : nat) (c : Z) :
  lflag t ICANON = false -> lflag t ISIG = false -> c_iflag (m_Termios t) = 0 ->
  m_State t = eNormal -> contents (m_RawBuffer t) = [] -> m_RawEvent t = mkEvent 0 [] -> plain c ->
  exists t1 t2, Read (SendBuffer t [c]) thread 1 = (t1, ReadDone [c]) /\ Read t1 thread 1 = (t2, ReadDone []).
Proof.
  intros Hc Hs Hi Hst Hq He Hp.
  assert (Hsend : exists s, send_char t c = with_terminal (with_raw t (Push (m_RawBuffer t) c)) s).
  { unfold send_char, SignalsEnabled, IsCanonicalMode, iflag. rewrite Hc, Hs, Hi, !Z.land_0_l. cbn [andb truthy Z.eqb negb].
    rewrite !andb_false_r. cbn beta iota. destruct (plain_byte c Hp) as [E1 E2]. unfold EnqueueChar. rewrite E1, E2.
    destruct (lflag _ ECHO); [|now exists (m_Terminal t)]. unfold Echo, EchoRaw.
    destruct (oflag _ OPOST), (_ && _), (_ && _); cbn [negb]; eexists; reflexivity. }
  destruct Hsend as [s Hsend]. unfold SendBuffer. cbn [foldl].
  replace (c =? 27) with false by (symmetry; apply Z.eqb_neq; unfold plain in Hp; lia).
  rewrite Hsend. unfold trigger_raw. cbn [m_RawEvent with_mode with_terminal with_raw]. rewrite He. cbn [Trigger Listeners Pending].
  set (t0 := with_kernel _ _ _ _).
  assert (Hc0 : IsCanonicalMode t0 = false) by exact Hc.
  assert (Hq0 : contents (m_RawBuffer t0) = [c]) by (cbn; rewrite Push_spec, Hq by (rewrite Hq; reflexivity); reflexivity).
  destruct (Pop_spec (m_RawBuffer t0) c [] Hq0) as [E1 E2].
  unfold Read at 1. rewrite Hc0, Size_spec, Hq0. cbn -[Z.of_nat Read]. change (Z.of_nat 1 <? 1) with false. cbn iota.
  unfold Read_awake. rewrite Hc0, Size_spec, Hq0. cbn -[Read t0]. change (Z.to_nat (Z.min (Z.of_nat 1) 1)) with 1%nat. cbn -[Read t0].
  destruct (Pop (m_RawBuffer t0)) as [x q]. cbn [fst snd] in E1, E2. subst x.
  destruct (Read_raw_stale (with_raw t0 q) thread 0 Hc0 E2 eq_refl) as [t2 H2]. eexists _, _. split; [reflexivity|exact H2].
Qed.
End Departures.

Lemma suspend_key_interrupts_witness : signals (send_char fresh_tty 26) = [(100, SIGINT)].
Proof. apply (suspend_key_interrupts fresh_tty 26); vm_compute; congruence. Defined.

Definition one_line_tty : TTY (list Z) (list Z) := type_line [108; 115] fresh_tty.
Lemma short_read_drops_rest_witness :
  exists t', Read one_line_tty 7 1 = (t', ReadDone [108]) /\ m_LineQueue t' = [] /\ contents (m_RawBuffer t') = [].
Proof.
  destruct (short_read_drops_rest one_line_tty 7 1 [108; 115; 10] []) as (t' & H1 & H2 & H3);
    [split; reflexivity|reflexivity|reflexivity|simpl; lia|].
  exists t'. split_and!; [exact H1|exact H2|exact H3].
Defined.

Definition raw_tty : TTY (list Z) (list Z) := SetTermios fresh_tty (mkTermios 0 0 0 0 0 default_cc 38400 38400).
Lemma raw_read_spurious_end_witness :
  exists t1 t2, Read (SendBuffer raw_tty [97]) 7 1 = (t1, ReadDone [97]) /\ Read t1 7 1 = (t2, ReadDone []).
Proof. apply (raw_read_spurious_end raw_tty 7 97); try reflexivity. unfold plain. lia. Defined.

(** A terminal that no session controls holds -1 as its session, which [TIOCSCTTY] takes for an owner:
    an unprivileged session leader without a terminal is refused with EPERM, and only a superuser can
    acquire it. *)
Theorem free_terminal_refused (t : TTY (list Z) (list Z)) (p : Process) (arg : UserArg) :
  m_ControlSid t = -1 -> pr_Sid p = pr_Pid p -> pr_TTY p = NoTTY -> arg_null arg = false ->
  (pr_UserID p <> 0 -> IoCtl t p TIOCSCTTY arg = (t, p, IoErr EPERM)) /\
  (pr_UserID p = 0 -> IoCtl t p TIOCSCTTY arg =
     (with_owner t (pr_SessionID p) (m_Pgid t), set_tty p ThisTTY, IoOk NoWrite)).
Proof.
  intros Hc Hs Ht Ha. unfold IoCtl. rewrite Ha, Hs, Z.eqb_refl, Ht, Hc, bool_decide_true by reflexivity. cbn [negb orb].
  split; intros Hu.
  - apply Z.eqb_neq in Hu. now rewrite Hu.
  - now rewrite Hu.
Qed.

Definition shell : Process := mkProcess 42 42 NoTTY 1000 42 true [].
Definition no_arg : UserArg := mkArg false true true default_termios 0 0.
Lemma free_terminal_refused_witness : IoCtl fresh_tty shell TIOCSCTTY no_arg = (fresh_tty, shell, IoErr EPERM).
Proof. apply (free_terminal_refused fresh_tty shell no_arg); try reflexivity. vm_compute. congruence. Defined.
