(* ===== verification/Keyboard.v ===== *)
(** * PS/2 keyboard

    [Drivers/HID/Ps2KeyboardDevice.cpp] and the tables of [Drivers/HID/PS2Scancodes.hpp]:
    bytes of scan code set 1 become characters, escape sequences and modifier changes,
    sent to the current TTY. *)

From Stdlib Require Import ZArith Lia Bool.
From stdpp Require Import base gmap list numbers.
From S2P Require Import Prelude Event TTY.

(** ** Tables *)
Definition s_Ps2ScanCodeSet1_Map : list Z :=
  [0; 27; 49; 50; 51; 52; 53; 54; 55; 56; 57; 48; 45; 61; 8; 9; 113; 119; 101; 114; 116; 121; 117; 105; 111; 112; 91;
   93; 13; 0; 97; 115; 100; 102; 103; 104; 106; 107; 108; 59; 39; 96; 0; 92; 122; 120; 99; 118; 98; 110; 109; 44; 46;
   47; 0; 42; 0; 32; 0; 0; 0; 0; 0; 0; 0; 0; 0; 0; 0; 0; 0; 55; 56; 57; 45; 52; 53; 54; 43; 49; 50; 51; 48; 46; 0; 0;
   0; 0; 0]
  ++ replicate 167 0.
Definition s_Ps2ScanCodeSet1_ShiftMap : list Z :=
  [0; 27; 33; 64; 35; 36; 37; 94; 38; 42; 40; 41; 95; 43; 8; 9; 81; 87; 69; 82; 84; 89; 85; 73; 79; 80; 123; 125; 13;
   0; 65; 83; 68; 70; 71; 72; 74; 75; 76; 58; 34; 126; 0; 124; 90; 88; 67; 86; 66; 78; 77; 60; 62; 63; 0; 42; 0; 32;
   0; 0; 0; 0; 0; 0; 0; 0; 0; 0; 0; 0; 0; 55; 56; 57; 45; 52; 53; 54; 43; 49; 50; 51; 48; 46; 0; 0; 0; 0; 0]
  ++ replicate 167 0.
Definition s_Ps2ScanCodeSet1_CapsLockMap : list Z :=
  [0; 27; 49; 50; 51; 52; 53; 54; 55; 56; 57; 48; 45; 61; 8; 9; 81; 87; 69; 82; 84; 89; 85; 73; 79; 80; 91; 93; 13;
   0; 65; 83; 68; 70; 71; 72; 74; 75; 76; 59; 39; 96; 0; 92; 90; 88; 67; 86; 66; 78; 77; 44; 46; 47; 0; 42; 0; 32; 0;
   0; 0; 0; 0; 0; 0; 0; 0; 0; 0; 0; 0; 55; 56; 57; 45; 52; 53; 54; 43; 49; 50; 51; 48; 46; 0; 0; 0; 0; 0]
  ++ replicate 167 0.
Definition s_Ps2ScanCodeSet1_ShiftCapsLockMap : list Z :=
  [0; 27; 33; 64; 35; 36; 37; 94; 38; 42; 40; 41; 95; 43; 8; 9; 113; 119; 101; 114; 116; 121; 117; 105; 111; 112;
   123; 125; 13; 0; 97; 115; 100; 102; 103; 104; 106; 107; 108; 58; 34; 126; 0; 124; 122; 120; 99; 118; 98; 110; 109;
   60; 62; 63; 0; 42; 0; 32; 0; 0; 0; 0; 0; 0; 0; 0; 0; 0; 0; 0; 0; 55; 56; 57; 45; 52; 53; 54; 43; 49; 50; 51; 48;
   46; 0; 0; 0; 0; 0]
  ++ replicate 167 0.

Module KeyCode.
Inductive KeyCode :=
  | eUnknown | eNone | eNum0 | eNum1 | eNum2 | eNum3 | eNum4 | eNum5 | eNum6 | eNum7 | eNum8 | eNum9 | eA
  | eB | eC | eD | eE | eF | eG | eH | eI | eJ | eK | eL | eM | eN | eO | eP | eQ | eR | eS | eT | eU | eV
  | eW | eX | eY | eZ | eTilde | eF1 | eF2 | eF3 | eF4 | eF5 | eF6 | eF7 | eF8 | eF9 | eF10 | eF11 | eF12
  | eF13 | eF14 | eF15 | eEscape | eBackspace | eTab | eCapsLock | eEnter | eReturn | eLShift | eRShift
  | eLCtrl | eRCtrl | eLAlt | eRAlt | eLSystem | eRSystem | eSpace | eHyphen | eEqual | eDecimal | eLBracket
  | eRBracket | eSemicolon | eApostrophe | eComma | ePeriod | eSlash | eBackslash | eUp | eDown | eLeft
  | eRight | eNumpad0 | eNumpad1 | eNumpad2 | eNumpad3 | eNumpad4 | eNumpad5 | eNumpad6 | eNumpad7 | eNumpad8
  | eNumpad9 | eSeparator | eAdd | eSubtract | eMultiply | eDivide | eInsert | eDelete | ePageUp | ePageDown
  | eHome | eEnd | eScrollLock | eNumLock | ePrintScreen | ePause | eMenu | eKeyCount.
End KeyCode.

Record Key := mkKey {
  key : KeyCode.KeyCode; CodePoint : Z; ShiftCodePoint : Z; CapsLockCodePoint : Z; ShiftCapsLockCodePoint : Z
}.

Definition PS2_Set1_Keys : list Key :=
  [mkKey KeyCode.eNone 0 0 0 0; mkKey KeyCode.eEscape 27 27 27 27; mkKey KeyCode.eNum1 49 33 49 33;
   mkKey KeyCode.eNum2 50 64 50 64; mkKey KeyCode.eNum3 51 35 51 35; mkKey KeyCode.eNum4 52 36 52 36;
   mkKey KeyCode.eNum5 53 37 53 37; mkKey KeyCode.eNum6 54 94 54 94; mkKey KeyCode.eNum7 55 38 55 38;
   mkKey KeyCode.eNum8 56 42 56 42; mkKey KeyCode.eNum9 57 40 57 40; mkKey KeyCode.eNum0 48 41 48 41;
   mkKey KeyCode.eHyphen 45 95 45 95; mkKey KeyCode.eEqual 61 43 61 43; mkKey KeyCode.eBackspace 8 8 8 8;
   mkKey KeyCode.eTab 9 9 9 9; mkKey KeyCode.eQ 113 81 81 113; mkKey KeyCode.eW 119 87 87 119;
   mkKey KeyCode.eE 101 69 69 101; mkKey KeyCode.eR 114 82 82 114; mkKey KeyCode.eT 116 84 84 116;
   mkKey KeyCode.eY 121 89 89 121; mkKey KeyCode.eU 117 85 85 117; mkKey KeyCode.eI 105 73 73 105;
   mkKey KeyCode.eO 111 79 79 111; mkKey KeyCode.eP 112 80 80 112; mkKey KeyCode.eLBracket 91 123 91 123;
   mkKey KeyCode.eRBracket 93 125 93 125; mkKey KeyCode.eEnter 13 13 13 13; mkKey KeyCode.eLCtrl 0 0 0 0;
   mkKey KeyCode.eA 97 65 65 97; mkKey KeyCode.eS 115 83 83 115; mkKey KeyCode.eD 100 68 68 100;
   mkKey KeyCode.eF 102 70 70 102; mkKey KeyCode.eG 103 71 71 103; mkKey KeyCode.eH 104 72 72 104;
   mkKey KeyCode.eJ 106 74 74 106; mkKey KeyCode.eK 107 75 75 107; mkKey KeyCode.eL 108 76 76 108;
   mkKey KeyCode.eSemicolon 59 58 59 58; mkKey KeyCode.eApostrophe 39 34 39 34; mkKey KeyCode.eTilde 96 126 96 126;
   mkKey KeyCode.eLShift 0 0 0 0; mkKey KeyCode.eBackslash 92 124 92 124; mkKey KeyCode.eZ 122 90 90 122;
   mkKey KeyCode.eX 120 88 88 120; mkKey KeyCode.eC 99 67 67 99; mkKey KeyCode.eV 118 86 86 118;
   mkKey KeyCode.eB 98 66 66 98; mkKey KeyCode.eN 110 78 78 110; mkKey KeyCode.eM 109 77 77 109;
   mkKey KeyCode.eComma 44 60 44 60; mkKey KeyCode.ePeriod 46 62 46 62; mkKey KeyCode.eSlash 47 63 47 63;
   mkKey KeyCode.eRShift 0 0 0 0; mkKey KeyCode.eMultiply 42 42 42 42; mkKey KeyCode.eLAlt 0 0 0 0;
   mkKey KeyCode.eSpace 32 32 32 32; mkKey KeyCode.eCapsLock 0 0 0 0; mkKey KeyCode.eF1 0 0 0 0;
   mkKey KeyCode.eF2 0 0 0 0; mkKey KeyCode.eF3 0 0 0 0; mkKey KeyCode.eF4 0 0 0 0; mkKey KeyCode.eF5 0 0 0 0;
   mkKey KeyCode.eF6 0 0 0 0; mkKey KeyCode.eF7 0 0 0 0; mkKey KeyCode.eF8 0 0 0 0; mkKey KeyCode.eF9 0 0 0 0;
   mkKey KeyCode.eF10 0 0 0 0; mkKey KeyCode.eNumLock 0 0 0 0; mkKey KeyCode.eScrollLock 0 0 0 0;
   mkKey KeyCode.eF11 0 0 0 0; mkKey KeyCode.eF12 0 0 0 0].
Definition SCANCODE_MAX : Z := Z.of_nat (length PS2_Set1_Keys).

(** ** Modifiers *)
Definition eControl : Z := 1.
Definition eAlt : Z := 2.
Definition eShift : Z := 4.
Definition eCapsLock : Z := 8.
Definition mod_and (a b : Z) : bool := truthy (a .& b).
Definition mod_set (m b : Z) (pressed : bool) : Z := if pressed then m .| b else m .& Z.lnot b.

Record Keyboard := mkKeyboard { m_Modifiers : Z; m_ExtraScanCode : bool; g_LogSyscalls : bool; reboots : nat }.
Definition with_modifiers (k : Keyboard) (m : Z) : Keyboard := mkKeyboard m (m_ExtraScanCode k) (g_LogSyscalls k) (reboots k).
Definition with_extra (k : Keyboard) (e : bool) : Keyboard := mkKeyboard (m_Modifiers k) e (g_LogSyscalls k) (reboots k).

(** [std::toupper] in the C locale. *)
Definition toupper (c : Z) : Z := if (97 <=? c) && (c <=? 122) then c - 32 else c.

(** The character of a key under the modifiers. *)
Definition key_char (m raw : Z) : Z :=
  match PS2_Set1_Keys !! Z.to_nat raw with
  | None => 0
  | Some k =>
      match mod_and m eCapsLock, mod_and m eShift with
      | false, false => i8 (CodePoint k)
      | false, true => i8 (ShiftCodePoint k)
      | true, false => i8 (CapsLockCodePoint k)
      | true, true => i8 (ShiftCapsLockCodePoint k)
      end
  end.

Section Handler.
(** The mode of the current TTY and the command line option. *)
Variable cursorKeyMode disableArrowKeys : bool.

Definition arrow (final : Z) : list Z :=
  if disableArrowKeys then [] else [27; if cursorKeyMode then 79 else 91; final].

(** The switch after the prefix 0xe0; [None]: no case applies.  The Delete key sends the first character of
    the literal ["\0177"], an octal escape of three digits followed by a digit. *)
Definition extended_key (k : Keyboard) (raw : Z) (pressed : bool) : option (Keyboard * list Z) :=
  if (raw =? 0x1d) || (raw =? 0x9d) then Some (with_modifiers k (mod_set (m_Modifiers k) eControl pressed), [])
  else if raw =? 0x1c then Some (k, [10])
  else if raw =? 0x35 then Some (k, [47])
  else if raw =? 0x48 then Some (k, arrow 65)
  else if raw =? 0x4b then Some (k, arrow 68)
  else if raw =? 0x50 then Some (k, arrow 66)
  else if raw =? 0x4d then Some (k, arrow 67)
  else if raw =? 0x47 then Some (k, [27; 91; 49; 126])
  else if raw =? 0x4f then Some (k, [27; 91; 52; 126])
  else if raw =? 0x49 then Some (k, [27; 91; 53; 126])
  else if raw =? 0x51 then Some (k, [27; 91; 54; 126])
  else if raw =? 0x53 then Some (k, [15])
  else None.

(** The second switch and what follows it. *)
Definition plain_key (k : Keyboard) (raw : Z) (pressed : bool) : Keyboard * list Z :=
  let m := m_Modifiers k in
  if raw =? 0x45 then (k, [])
  else if (raw =? 0x38) || (raw =? 0xb8) then (with_modifiers k (mod_set m eAlt pressed), [])
  else if (raw =? 0x2a) || (raw =? 0x36) || (raw =? 0xaa) || (raw =? 0xb6) then (with_modifiers k (mod_set m eShift pressed), [])
  else if (raw =? 0x1d) || (raw =? 0x9d) then (with_modifiers k (mod_set m eControl pressed), [])
  else if raw =? 0x3a then (with_modifiers k (mod_set m eCapsLock pressed), [])
  else if SCANCODE_MAX <=? raw then (k, [])
  else
    let c := key_char m raw in
    let c := if mod_and m eControl then i8 (toupper c - 0x40) else c in
    if negb pressed then (k, [])
    else
      let k :=
        if mod_and m eShift && mod_and m eAlt && (c =? 13) then mkKeyboard m (m_ExtraScanCode k) (g_LogSyscalls k) (S (reboots k))
        else if mod_and m eShift && mod_and m eAlt then mkKeyboard m (m_ExtraScanCode k) (negb (g_LogSyscalls k)) (reboots k)
        else k in
      (k, [c]).

(** The keyboard and the string it emits. *)
Definition HandleScanCodeSet1Key (k : Keyboard) (raw : Z) : Keyboard * list Z :=
  let pressed := negb (truthy (raw .& 0x80)) in
  if raw =? 0xe0 then (with_extra k true, [])
  else if m_ExtraScanCode k then
    let k := with_extra k false in
    match extended_key k raw pressed with
    | Some r => r
    | None => plain_key k raw pressed
    end
  else plain_key k raw pressed.
End Handler.

Definition new_Keyboard : Keyboard := mkKeyboard 0 false false 0.

Section Device.
Context {T Q : Type} {Sc : Screen T} {CQ : CircularQueue Q}.
Variable disableArrowKeys : bool.

(** [Emit] sends to the current TTY, if there is one. *)
Definition Emit (tty : option (TTY T Q)) (str : list Z) : option (TTY T Q) :=
  match str with
  | [] => tty
  | _ => (λ t, SendBuffer t str) <$> tty
  end.

(** [HandleScanCodeSet1Key] with what it emits passed on. *)
Definition Set1Byte (s : Keyboard * option (TTY T Q)) (byte : Z) : Keyboard * option (TTY T Q) :=
  let mode := match snd s with Some t => screen_GetCursorKeyMode (m_Terminal t) | None => false end in
  let (k, str) := HandleScanCodeSet1Key mode disableArrowKeys (fst s) byte in
  (k, Emit (snd s) str).

Inductive ScanCodeSet := eSet1 | eSet2 | eSet3.

(** Set 2 has an empty handler; set 3 fails an assertion. *)
Definition OnByteReceived (set : ScanCodeSet) (s : Keyboard * option (TTY T Q)) (byte : Z) : option (Keyboard * option (TTY T Q)) :=
  match set with
  | eSet1 => Some (Set1Byte s byte)
  | eSet2 => Some s
  | eSet3 => None
  end.
End Device.
