(* ===== verification/KeyboardTheorems.v ===== *)
(** * PS/2 keyboard: theorems

    The key table agrees with the four character maps on the main block; modifiers follow
    the keys held; words typed on the keyboard arrive as lines at the TTY; and the keys
    that do not do what they are meant to. *)

From Stdlib Require Import ZArith Lia Bool.
From stdpp Require Import base gmap list numbers.
From S2P Require Import Prelude Event TTY TTYTheorems Keyboard.

(** ** Tables *)
(** The map for a state of Caps Lock and Shift. *)
Definition map_for (caps shift : bool) : list Z :=
  match caps, shift with
  | false, false => s_Ps2ScanCodeSet1_Map
  | false, true => s_Ps2ScanCodeSet1_ShiftMap
  | true, false => s_Ps2ScanCodeSet1_CapsLockMap
  | true, true => s_Ps2ScanCodeSet1_ShiftCapsLockMap
  end.
Definition table_char (caps shift : bool) (k : Key) : Z :=
  match caps, shift with
  | false, false => CodePoint k
  | false, true => ShiftCodePoint k
  | true, false => CapsLockCodePoint k
  | true, true => ShiftCapsLockCodePoint k
  end.

Lemma tables_agree (caps shift : bool) :
  forallb (λ p, i8 (table_char caps shift (fst p)) =? snd p) (zip (take 0x47 PS2_Set1_Keys) (map_for caps shift)) = true.
Proof. destruct caps, shift; vm_compute; reflexivity. Qed.

Lemma key_char_table m raw k :
  PS2_Set1_Keys !! Z.to_nat raw = Some k -> key_char m raw = i8 (table_char (mod_and m eCapsLock) (mod_and m eShift) k).
Proof. intros H. unfold key_char. rewrite H. now destruct (mod_and m eCapsLock), (mod_and m eShift). Qed.

(** On the main block of the keyboard (scan codes below 0x47) the table of keys the driver uses gives the same
    characters as the character maps, under every combination of Caps Lock and Shift. *)
Theorem key_table_matches_maps (m raw : Z) :
  0 <= raw < 0x47 ->
  map_for (mod_and m eCapsLock) (mod_and m eShift) !! Z.to_nat raw = Some (key_char m raw).
Proof.
  intros Hr. set (caps := mod_and m eCapsLock). set (shift := mod_and m eShift).
  destruct (lookup_lt_is_Some_2 PS2_Set1_Keys (Z.to_nat raw)) as [k Hk]; [change (length PS2_Set1_Keys) with 73%nat; lia|].
  rewrite (key_char_table m raw k Hk). fold caps shift.
  destruct (lookup_lt_is_Some_2 (map_for caps shift) (Z.to_nat raw)) as [c Hc].
  { assert (length (map_for caps shift) = 256%nat) as -> by (destruct caps, shift; reflexivity). lia. }
  rewrite Hc. f_equal. pose proof (tables_agree caps shift) as Ha. rewrite forallb_forall in Ha.
  specialize (Ha (k, c)). symmetry. apply Z.eqb_eq, Ha. apply list_elem_of_In, list_elem_of_lookup. exists (Z.to_nat raw).
  apply lookup_zip_Some. split; [rewrite lookup_take_lt by lia; exact Hk|exact Hc].
Qed.

Lemma key_table_matches_maps_witness : s_Ps2ScanCodeSet1_ShiftMap !! 0x1e%nat = Some (key_char eShift 0x1e).
Proof. apply (key_table_matches_maps eShift 0x1e). lia. Defined.

(** ** Modifiers *)
Lemma mod_set_bit (m b i : Z) (pressed : bool) :
  0 <= b -> 0 <= i -> Z.testbit (mod_set m (1 .<< b) pressed) i = if i =? b then pressed else Z.testbit m i.
Proof.
  intros Hb Hi. unfold mod_set. destruct pressed.
  - rewrite Z.lor_spec, testbit_bit by lia. destruct (i =? b); [apply orb_true_r|apply orb_false_r].
  - rewrite Z.land_spec, Z.lnot_spec, testbit_bit by lia. destruct (i =? b); [apply andb_false_r|apply andb_true_r].
Qed.

(** What a byte does to the modifiers, whatever came before it. *)
Definition modifier_key (byte : Z) : option (Z * bool) :=
  if byte =? 0x1d then Some (0, true)
  else if byte =? 0x9d then Some (0, false)
  else if byte =? 0x38 then Some (1, true)
  else if byte =? 0xb8 then Some (1, false)
  else if (byte =? 0x2a) || (byte =? 0x36) then Some (2, true)
  else if (byte =? 0xaa) || (byte =? 0xb6) then Some (2, false)
  else if byte =? 0x3a then Some (3, true)
  else None.

Definition spec_modifiers (m : Z) (byte : Z) : Z :=
  match modifier_key byte with
  | Some (b, pressed) => mod_set m (1 .<< b) pressed
  | None => m
  end.

Ltac case_eqb :=
  match goal with
  | |- context [?x =? ?k] => is_var x; destruct (Z.eqb_spec x k); [subst x|]
  end.

Lemma plain_key_modifiers k byte :
  m_Modifiers (fst (plain_key k byte (negb (truthy (byte .& 0x80))))) = spec_modifiers (m_Modifiers k) byte.
Proof.
  unfold plain_key, spec_modifiers, modifier_key. repeat (case_eqb; [reflexivity|]). cbn [orb].
  destruct (SCANCODE_MAX <=? byte); [reflexivity|]. destruct (negb (negb _)); [reflexivity|].
  destruct (mod_and _ eShift), (mod_and _ eAlt); cbn [andb fst m_Modifiers]; try reflexivity.
  destruct (_ =? 13); reflexivity.
Qed.

Lemma handle_modifiers mode arrows k byte :
  m_Modifiers (fst (HandleScanCodeSet1Key mode arrows k byte)) = spec_modifiers (m_Modifiers k) byte.
Proof.
  unfold HandleScanCodeSet1Key. destruct (Z.eqb_spec byte 0xe0) as [->|_]; [reflexivity|].
  destruct (m_ExtraScanCode k); [|apply plain_key_modifiers].
  destruct (extended_key _ _ _ _ _) as [r|] eqn:E; [|apply (plain_key_modifiers (with_extra k false))].
  unfold extended_key in E. revert E. unfold spec_modifiers, modifier_key.
  repeat (case_eqb; [intros [= <-]; reflexivity|]). cbn [orb]. discriminate.
Qed.

Section Bytes.
Context {T Q : Type} {Sc : Screen T} {CQ : CircularQueue Q}.
Variable disableArrowKeys : bool.
Implicit Types s : Keyboard * option (TTY T Q).

Definition receive (bytes : list Z) s : Keyboard * option (TTY T Q) := foldl (Set1Byte disableArrowKeys) s bytes.

Lemma receive_app b1 b2 s : receive (b1 ++ b2) s = receive b2 (receive b1 s).
Proof. unfold receive. apply foldl_app. Qed.

Lemma Set1Byte_modifiers s byte :
  m_Modifiers (fst (Set1Byte disableArrowKeys s byte)) = spec_modifiers (m_Modifiers (fst s)) byte.
Proof.
  unfold Set1Byte. match goal with |- context [HandleScanCodeSet1Key ?a ?b ?c ?d] =>
    pose proof (handle_modifiers a b c d) as H; destruct (HandleScanCodeSet1Key a b c d) as [k str] end. exact H.
Qed.

Lemma receive_modifiers bytes : forall s,
  m_Modifiers (fst (receive bytes s)) = foldl spec_modifiers (m_Modifiers (fst s)) bytes.
Proof.
  induction bytes as [|b bytes IH]; intros s; [reflexivity|].
  change (receive (b :: bytes) s) with (receive bytes (Set1Byte disableArrowKeys s b)).
  now rewrite IH, Set1Byte_modifiers.
Qed.

(** The last press or release of modifier [b] in a sequence of bytes. *)
Definition held (b : Z) (bytes : list Z) (initially : bool) : bool :=
  foldl (λ h byte, match modifier_key byte with Some (b', pressed) => if b' =? b then pressed else h | None => h end)
    initially bytes.

(** After any bytes from the keyboard, prefixed or not, each of Control, Alt and Shift (and Caps Lock, which only
    has presses) is set exactly when the last byte about it was a press. *)
Theorem modifiers_follow_keys (bytes : list Z) (s : Keyboard * option (TTY T Q)) (b : Z) :
  0 <= b <= 3 ->
  Z.testbit (m_Modifiers (fst (receive bytes s))) b = held b bytes (Z.testbit (m_Modifiers (fst s)) b).
Proof.
  intros Hb. rewrite receive_modifiers. generalize (m_Modifiers (fst s)) as m.
  induction bytes as [|byte bytes IH]; intros m; [reflexivity|]. cbn [foldl]. rewrite IH. unfold held. cbn [foldl].
  f_equal. unfold spec_modifiers. destruct (modifier_key byte) as [[b' pressed]|] eqn:E; [|reflexivity].
  rewrite mod_set_bit, Z.eqb_sym by (unfold modifier_key in E; repeat (destruct (_ =? _) in E); cbn [orb] in E;
    first [lia|discriminate|injection E as <- <-; lia]). reflexivity.
Qed.

(** Caps Lock cannot be turned off: its key is a press with no matching release, so once it is set it stays set
    whatever the keyboard sends. *)
Theorem caps_lock_sticks (bytes : list Z) (s : Keyboard * option (TTY T Q)) :
  mod_and (m_Modifiers (fst s)) eCapsLock = true -> mod_and (m_Modifiers (fst (receive bytes s))) eCapsLock = true.
Proof.
  unfold mod_and. change eCapsLock with (1 .<< 3). rewrite !truthy_land_bit by lia. rewrite receive_modifiers.
  generalize (m_Modifiers (fst s)) as m. induction bytes as [|byte bytes IH]; intros m Hm; [exact Hm|]. cbn [foldl]. apply IH.
  unfold spec_modifiers, modifier_key. repeat (case_eqb; [cbn [orb]; rewrite mod_set_bit by lia; first [exact Hm|reflexivity]|]).
  exact Hm.
Qed.

(** ** From scan codes to lines *)
(** A key with a character, pressed without Control and without Alt. *)
Definition typing_key (m raw : Z) : Prop :=
  0 <= raw < SCANCODE_MAX /\ modifier_key raw = None /\ raw <> 0x45 /\ plain (key_char m raw).

Definition stroke (raw : Z) : list Z := [raw; raw + 0x80].

Lemma press_key k t raw :
  m_ExtraScanCode k = false -> mod_and (m_Modifiers k) eControl = false -> mod_and (m_Modifiers k) eAlt = false ->
  typing_key (m_Modifiers k) raw \/ raw = 0x1c ->
  receive (stroke raw) (k, Some t) = (k, Some (SendBuffer t [key_char (m_Modifiers k) raw])).
Proof.
  intros Hx Hc Ha Hk.
  assert (Hr : 0 <= raw < 73 /\ modifier_key raw = None /\ raw <> 0x45)
    by (destruct Hk as [(H1 & H2 & H3 & _)| ->]; [auto|split_and!; [lia|lia|reflexivity|lia]]).
  destruct Hr as (Hr & Hm & Hn).
  assert (Hp : forall m a, HandleScanCodeSet1Key m a k raw = (k, [key_char (m_Modifiers k) raw])).
  { intros m a. unfold HandleScanCodeSet1Key. rewrite Hx. destruct (Z.eqb_spec raw 0xe0); [lia|].
    unfold plain_key. rewrite Hc, Ha, !andb_false_r. revert Hm. unfold modifier_key.
    repeat (case_eqb; [cbn [orb]; first [lia|discriminate]|]). intros _. cbn [orb].
    change SCANCODE_MAX with 73. destruct (Z.leb_spec 73 raw); [lia|].
    assert (truthy (raw .& 0x80) = false) as ->; [|reflexivity].
    change 0x80 with (1 .<< 7). rewrite truthy_land_bit by lia. apply (testbit_above 7); unfold in_u; lia. }
  assert (Hrel : forall m a, HandleScanCodeSet1Key m a k (raw + 0x80) = (k, [])).
  { intros m a. unfold HandleScanCodeSet1Key. rewrite Hx. destruct (Z.eqb_spec (raw + 0x80) 0xe0); [lia|].
    unfold plain_key. change SCANCODE_MAX with 73. revert Hm. unfold modifier_key.
    repeat (case_eqb; [cbn [orb]; first [lia|discriminate]|]). intros _.
    repeat match goal with |- context [raw + 0x80 =? ?x] => destruct (Z.eqb_spec (raw + 0x80) x); [lia|] end. cbn [orb].
    destruct (Z.leb_spec 73 (raw + 0x80)); [reflexivity|lia]. }
  unfold receive, stroke. cbn [foldl]. unfold Set1Byte at 2. cbn [fst snd]. rewrite Hp. cbn [Emit fmap option_fmap option_map].
  unfold Set1Byte. cbn [fst snd]. rewrite Hrel. reflexivity.
Qed.

Lemma press_keys raws : forall k t,
  m_ExtraScanCode k = false -> mod_and (m_Modifiers k) eControl = false -> mod_and (m_Modifiers k) eAlt = false ->
  Forall (typing_key (m_Modifiers k)) raws ->
  receive (raws ≫= stroke) (k, Some t) = (k, Some (type_keys (key_char (m_Modifiers k) <$> raws) t)).
Proof.
  induction raws as [|raw raws IH]; intros k t Hx Hc Ha Hk; [reflexivity|]. apply Forall_cons_iff in Hk as [Hk Hks].
  change ((raw :: raws) ≫= stroke) with (stroke raw ++ (raws ≫= stroke)). rewrite receive_app, press_key by auto.
  now rewrite IH.
Qed.

(** C21: a word typed on the keyboard and ended with Enter arrives as a line: the TTY's queue grows by the characters of
    the keys under the current Shift and Caps Lock, with a line feed, they are shown on the terminal, and the
    keyboard is back in its state. *)
Theorem keystrokes_make_line (raws : list Z) (k : Keyboard) (t : TTY T Q) :
  m_ExtraScanCode k = false -> mod_and (m_Modifiers k) eControl = false -> mod_and (m_Modifiers k) eAlt = false ->
  Forall (typing_key (m_Modifiers k)) raws ->
  ready t -> no_raw_readers t -> contents (m_RawBuffer t) = [] -> Z.of_nat (length raws) < QUEUE_SIZE ->
  exists t', receive ((raws ≫= stroke) ++ stroke 0x1c) (k, Some t) = (k, Some t') /\
    m_LineQueue t' = m_LineQueue t ++ [(key_char (m_Modifiers k) <$> raws) ++ [10]] /\
    m_Terminal t' = shown (m_Terminal t) ((key_char (m_Modifiers k) <$> raws) ++ [13; 10]).
Proof.
  intros Hx Hc Ha Hk Hr Hn Hq Hlen. exists (type_line (key_char (m_Modifiers k) <$> raws) t).
  rewrite receive_app, press_keys, press_key by auto. split.
  { assert (Hcr : key_char (m_Modifiers k) 0x1c = 13).
    { unfold key_char. now destruct (mod_and _ eCapsLock), (mod_and _ eShift). }
    now rewrite Hcr. }
  pose proof (line_typed (key_char (m_Modifiers k) <$> raws) t Hr Hn) as H. cbn zeta in H.
  destruct (Trigger (m_OnAddLine t) false true) as [[e ls] i]. destruct H as (_ & _ & H3 & _ & H5 & _); trivial.
  - apply Forall_fmap. eapply Forall_impl; [|exact Hk]. now intros raw (_ & _ & _ & H).
  - now rewrite length_fmap.
  - auto.
Qed.

(** A key without a character sends NUL, which the default settings also give for the disabled end-of-line
    character: pressing F1 in the middle of a line submits what was typed so far. *)
Theorem function_key_submits_line (k : Keyboard) (t : TTY T Q) :
  m_ExtraScanCode k = false -> m_Modifiers k = 0 -> ready t ->
  exists t', receive [0x3b] (k, Some t) = (k, Some t') /\ m_LineQueue t' = m_LineQueue t ++ [contents (m_RawBuffer t)].
Proof.
  intros Hx Hm Hr.
  assert (Hh : forall m a, HandleScanCodeSet1Key m a k 0x3b = (k, [0])).
  { intros m a. unfold HandleScanCodeSet1Key, plain_key. rewrite Hx, Hm. reflexivity. }
  unfold receive. cbn [foldl]. unfold Set1Byte. cbn [fst snd]. rewrite Hh. cbn [Emit fmap option_fmap option_map].
  eexists. split; [reflexivity|].
  change (SendBuffer t [0]) with (trigger_raw (with_mode (send_char t 0) eNormal)).
  match goal with |- context [trigger_raw ?x] => destruct (trigger_raw_fields x) as (_ & _ & _ & -> & _) end.
  now apply send_nul_lines.
Qed.
End Bytes.

(** "ls" with Shift held, Enter. *)
Lemma keystrokes_make_line_witness :
  exists t', receive false [0x26; 0xa6; 0x1f; 0x9f; 0x1c; 0x9c] (mkKeyboard eShift false false 0, Some fresh_tty) =
      (mkKeyboard eShift false false 0, Some t') /\
    m_LineQueue t' = [[76; 83; 10]] /\ m_Terminal t' = [76; 83; 13; 10].
Proof.
  destruct (keystrokes_make_line false [0x26; 0x1f] (mkKeyboard eShift false false 0) fresh_tty) as (t' & H1 & H2 & H3);
    try reflexivity.
  - repeat constructor; vm_compute; congruence.
  - apply fresh_ready.
  - exists t'. split_and!; [exact H1|exact H2|exact H3].
Defined.

Lemma function_key_submits_line_witness :
  exists t', receive false [0x3b] (new_Keyboard, Some (SendBuffer fresh_tty [97])) = (new_Keyboard, Some t') /\
    m_LineQueue t' = [[97]].
Proof.
  destruct (function_key_submits_line false new_Keyboard (SendBuffer fresh_tty [97])) as (t' & H1 & H2);
    [reflexivity|reflexivity|split; reflexivity|].
  exists t'. split; [exact H1|exact H2].
Defined.

Lemma modifiers_follow_keys_witness :
  Z.testbit (m_Modifiers (fst (receive (T := list Z) (Q := list Z) false [0x2a; 0x1e; 0xaa] (new_Keyboard, None)))) 2 = false.
Proof. apply (modifiers_follow_keys (T := list Z) (Q := list Z) false [0x2a; 0x1e; 0xaa] (new_Keyboard, None) 2). lia. Defined.

(** Caps Lock pressed and released twice. *)
Lemma caps_lock_sticks_witness :
  mod_and (m_Modifiers (fst (receive (T := list Z) (Q := list Z) false [0xba; 0x3a; 0xba] (mkKeyboard eCapsLock false false 0, None)))) eCapsLock = true.
Proof.
  apply (caps_lock_sticks (T := list Z) (Q := list Z) false [0xba; 0x3a; 0xba] (mkKeyboard eCapsLock false false 0, None)).
  reflexivity.
Defined.
