(* ===== verification/Locking.v ===== *)
(** * Locks

    [Library/Locking]: mutexes, recursive mutexes and semaphores over events, as transition
    systems of interleaved threads.  A section under a [ScopedLock] is one step, except where
    another thread can see its middle: [Mutex::Unlock] holds its spinlock while it triggers the
    event, and [Event::Trigger] looks at the listeners before it takes the event's lock, which
    [Event::Await] holds from checking the counter to attaching the thread. *)

From Stdlib Require Import ZArith Lia Bool Relations.
From stdpp Require Import base gmap list numbers functions relations.
From S2P Require Import Prelude Event.

(** [Scheduler::Unblock] on each listener: only a blocked thread changes. *)
Definition is_listener (ls : list EventListener) (t : nat) : bool := existsb (λ l, (Thread l =? t)%nat) ls.

(** ** Mutex *)
Module Mutex.
Record Mutex := mkMutex {
  m_Lock : option nat;
  m_Locked : bool;
  m_Holder : option nat;
  m_LockEvent : Event;
  event_Lock : option nat
}.
Definition new_Mutex : Mutex := mkMutex None false None (mkEvent 0 []) None.

Definition with_lock (m : Mutex) (l : option nat) : Mutex := mkMutex l (m_Locked m) (m_Holder m) (m_LockEvent m) (event_Lock m).
Definition with_event (m : Mutex) (e : Event) (l : option nat) : Mutex := mkMutex (m_Lock m) (m_Locked m) (m_Holder m) e l.

Definition TryLock (t : nat) (m : Mutex) : bool * Mutex :=
  if m_Locked m then (false, m) else (true, mkMutex (m_Lock m) true (Some t) (m_LockEvent m) (event_Lock m)).

(** [Unlock] up to the trigger; [None]: its assertion fails. *)
Definition Unlock_clear (t : nat) (m : Mutex) : option Mutex :=
  if m_Locked m && bool_decide (m_Holder m = Some t)
  then Some (mkMutex (Some t) false None (m_LockEvent m) (event_Lock m)) else None.

(** Where a thread is: outside, at the first [TryLock], in the loop, in [Await] before the counter is checked, before
    it attaches, attached and not yet blocked, blocked, unblocked; holding the mutex; in [Unlock] before the listeners are looked at and
    after none were seen. *)
Inductive PC :=
  | Idle | FirstTry | Trying | AwaitCheck | AwaitAttach | Blocking | Sleeping | Woken | Holding | Unlocking | Counting.
#[global] Instance PC_eq_dec : EqDecision PC.
Proof. solve_decision. Defined.

Record State := mkState { mutex : Mutex; pc : nat -> PC }.

(** [Scheduler::Unblock] leaves a thread that is not blocked as it is. *)
Definition wake (ls : list EventListener) (pcs : nat -> PC) : nat -> PC :=
  λ t, if is_listener ls t && bool_decide (pcs t = Sleeping) then Woken else pcs t.

(** The assignment of [m_Holder] at the end of [Lock] repeats the one [TryLock] just made and is not a step of its own.
    One step of thread [t]; [None]: it cannot move.  [Idle] threads start to lock, [Holding] ones to unlock. *)
Definition step (t : nat) (s : State) : option State :=
  let m := mutex s in
  let goto p m := Some (mkState m (<[t := p]> (pc s))) in
  match pc s t with
  | Idle => goto FirstTry m
  | FirstTry =>
      if m_Lock m then None else
      match TryLock t m with (true, m) => goto Holding m | (false, m) => goto Trying m end
  | Trying =>
      if m_Lock m then None else
      match TryLock t m with (true, m) => goto Holding m | (false, m) => goto AwaitCheck m end
  | AwaitCheck =>
      if event_Lock m then None else
      match CheckPending [m_LockEvent m] with
      | Some (_, e :: _) => goto Trying (with_event m e None)
      | _ => goto AwaitAttach (with_event m (m_LockEvent m) (Some t))
      end
  | AwaitAttach =>
      match AttachListeners t [m_LockEvent m] with
      | e :: _ => goto Blocking (with_event m e None)
      | [] => None
      end
  | Blocking => goto Sleeping m
  | Sleeping => None
  | Woken =>
      if event_Lock m then None else
      match DetachListeners t [m_LockEvent m] with
      | e :: _ => goto Trying (with_event m e None)
      | [] => None
      end
  | Holding => if m_Lock m then None else m ← Unlock_clear t m; goto Unlocking m
  | Unlocking =>
      match Listeners (m_LockEvent m) with
      | [] => goto Counting m
      | ls =>
          if event_Lock m then None
          else let '(e, ls, _) := Trigger (m_LockEvent m) false true in
               Some (mkState (with_lock (with_event m e None) None) (<[t := Idle]> (wake ls (pc s))))
      end
  | Counting =>
      let e := m_LockEvent m in
      goto Idle (with_lock (with_event m (mkEvent (Pending e + 1) (Listeners e)) (event_Lock m)) None)
  end.

Definition initial : State := mkState new_Mutex (λ _, Idle).
Inductive reachable : State -> Prop :=
  | reach_init : reachable initial
  | reach_step (s s' : State) (t : nat) : reachable s -> step t s = Some s' -> reachable s'.

(** The mutex is locked by exactly the thread that holds it, and the spinlock by the one that unlocks it. *)
Record inv (s : State) : Prop := {
  inv_hold : forall t, pc s t = Holding <-> (m_Locked (mutex s) = true /\ m_Holder (mutex s) = Some t);
  inv_spin : forall t, pc s t = Unlocking \/ pc s t = Counting -> m_Lock (mutex s) = Some t
}.

Lemma initial_inv : inv initial.
Proof. split; intros t; simpl; [split; [discriminate|intros [H _]; discriminate]|intros [H|H]; discriminate]. Qed.

Lemma upd_ne (t u : nat) p (f : nat -> PC) : t <> u -> (<[t := p]> f) u = f u.
Proof. apply fn_lookup_insert_ne. Qed.

(** A step that keeps the owner, the flag and the spinlock, and moves [t] between outside places. *)
Definition outside (p : PC) : Prop := p <> Holding /\ p <> Unlocking /\ p <> Counting.
Lemma inv_move t s m p :
  inv s -> outside p -> outside (pc s t) ->
  m_Locked m = m_Locked (mutex s) -> m_Holder m = m_Holder (mutex s) -> m_Lock m = m_Lock (mutex s) ->
  inv (mkState m (<[t := p]> (pc s))).
Proof.
  intros [I1 I2] (P1 & P2 & P3) (Q1 & Q2 & Q3) E1 E2 E3. split; intros u; cbn [mutex pc]; rewrite ?E1, ?E2, ?E3.
  - destruct (decide (t = u)) as [<-|Hne].
    + rewrite fn_lookup_insert. split; [tauto|]. intros H. apply I1 in H. tauto.
    + rewrite upd_ne by trivial. apply I1.
  - destruct (decide (t = u)) as [<-|Hne].
    + rewrite fn_lookup_insert. intros [H|H]; tauto.
    + rewrite upd_ne by trivial. apply I2.
Qed.

Lemma inv_acquire t s p :
  inv s -> m_Locked (mutex s) = false -> pc s t = p -> outside p ->
  inv (mkState (mkMutex (m_Lock (mutex s)) true (Some t) (m_LockEvent (mutex s)) (event_Lock (mutex s))) (<[t := Holding]> (pc s))).
Proof.
  intros [I1 I2] Hl Hp (P1 & P2 & P3). split; intros u; cbn [mutex pc m_Locked m_Holder m_Lock].
  - destruct (decide (t = u)) as [<-|Hne].
    + rewrite fn_lookup_insert. tauto.
    + rewrite upd_ne by trivial. split; [intros H; apply I1 in H as [H _]; congruence|intros [_ H]; congruence].
  - destruct (decide (t = u)) as [<-|Hne].
    + rewrite fn_lookup_insert. intros [H|H]; discriminate.
    + rewrite upd_ne by trivial. apply I2.
Qed.

Lemma inv_tryLock t s p q m b :
  inv s -> pc s t = p -> outside p -> outside q -> TryLock t (mutex s) = (b, m) ->
  inv (mkState m (<[t := if b then Holding else q]> (pc s))).
Proof.
  intros Hi Hp Ho Hq. unfold TryLock. destruct (m_Locked (mutex s)) eqn:El; intros [= <- <-].
  - apply inv_move; trivial. now rewrite Hp.
  - eapply inv_acquire; eassumption.
Qed.

(** Waking threads moves blocked ones only. *)
Lemma wake_pc ls pcs u : wake ls pcs u = pcs u \/ (pcs u = Sleeping /\ wake ls pcs u = Woken).
Proof.
  unfold wake. destruct (is_listener ls u); [|now left]. cbn [andb]. case_bool_decide; [right; auto|now left].
Qed.

Lemma inv_finish t s m pcs :
  inv s -> (pc s t = Unlocking \/ pc s t = Counting) -> m_Locked m = m_Locked (mutex s) -> m_Holder m = m_Holder (mutex s) ->
  (forall u, pcs u = pc s u \/ (pc s u = Sleeping /\ pcs u = Woken)) ->
  inv (mkState m (<[t := Idle]> pcs)).
Proof.
  intros [I1 I2] Ht E1 E2 Hw. pose proof (I2 t Ht) as Hs. split; intros u; cbn [mutex pc]; rewrite ?E1, ?E2.
  - destruct (decide (t = u)) as [<-|Hne].
    + rewrite fn_lookup_insert. split; [discriminate|]. intros H. apply I1 in H. destruct Ht; congruence.
    + rewrite upd_ne by trivial. rewrite <- I1. destruct (Hw u) as [->|[H ->]]; [tauto|rewrite H; split; discriminate].
  - destruct (decide (t = u)) as [<-|Hne].
    + rewrite fn_lookup_insert. intros [H|H]; discriminate.
    + rewrite upd_ne by trivial. intros H. exfalso. assert (Hu : pc s u = Unlocking \/ pc s u = Counting).
      { destruct (Hw u) as [E|[_ E]]; rewrite E in H; [exact H|destruct H; discriminate]. }
      apply I2 in Hu. congruence.
Qed.

Ltac place := repeat split; discriminate.

Lemma step_inv t s s' : inv s -> step t s = Some s' -> inv s'.
Proof.
  intros Hi. unfold step. destruct (pc s t) eqn:Ep.
  - intros [= <-]. apply inv_move; trivial; rewrite ?Ep; place.
  - destruct (m_Lock (mutex s)); [discriminate|]. destruct (TryLock t (mutex s)) as [b m] eqn:E.
    intros H. apply (inv_tryLock t s FirstTry Trying m b Hi Ep) in E; [|place|place]. destruct b; injection H as <-; exact E.
  - destruct (m_Lock (mutex s)); [discriminate|]. destruct (TryLock t (mutex s)) as [b m] eqn:E.
    intros H. apply (inv_tryLock t s Trying AwaitCheck m b Hi Ep) in E; [|place|place]. destruct b; injection H as <-; exact E.
  - destruct (event_Lock (mutex s)); [discriminate|]. cbn [CheckPending].
    destruct (0 <? Pending (m_LockEvent (mutex s))); intros [= <-]; apply inv_move; trivial; rewrite ?Ep; place.
  - intros [= <-]. apply inv_move; trivial; rewrite ?Ep; place.
  - intros [= <-]. apply inv_move; trivial; rewrite ?Ep; place.
  - discriminate.
  - destruct (event_Lock (mutex s)); [discriminate|]. intros [= <-]. apply inv_move; trivial; rewrite ?Ep; place.
  - destruct (m_Lock (mutex s)) eqn:El; [discriminate|]. unfold Unlock_clear. pose proof (proj1 (inv_hold s Hi t) Ep) as [Hl Hh].
    rewrite Hl, bool_decide_true by trivial. intros [= <-]. destruct Hi as [I1 I2]. split; intros u; cbn [mutex pc m_Locked m_Holder m_Lock].
    + destruct (decide (t = u)) as [<-|Hne].
      * rewrite fn_lookup_insert. split; [discriminate|intros [H _]; discriminate].
      * rewrite upd_ne by trivial. split; [|intros [H _]; discriminate]. intros H. apply I1 in H as [_ H]. congruence.
    + destruct (decide (t = u)) as [<-|Hne]; [reflexivity|]. rewrite upd_ne by trivial. intros H. apply I2 in H. congruence.
  - destruct (Listeners (m_LockEvent (mutex s))) as [|l ls] eqn:Els.
    + intros [= <-]. destruct Hi as [I1 I2]. split; intros u; cbn [mutex pc].
      * destruct (decide (t = u)) as [<-|Hne]; [|rewrite upd_ne by trivial; apply I1].
        rewrite fn_lookup_insert. split; [discriminate|]. intros H. apply I1 in H. congruence.
      * destruct (decide (t = u)) as [<-|Hne]; [intros _; apply I2; auto|rewrite upd_ne by trivial; apply I2].
    + destruct (event_Lock (mutex s)); [discriminate|]. unfold Trigger. rewrite Els. intros [= <-].
      apply (inv_finish t s); trivial; [auto|]. intros u. apply wake_pc.
  - intros [= <-]. apply (inv_finish t s); trivial; [auto|]. intros u. now left.
Qed.

Lemma reachable_inv s : reachable s -> inv s.
Proof. induction 1; [apply initial_inv|eapply step_inv; eassumption]. Qed.

(** C11: mutual exclusion: in every state that any interleaving of any number of threads reaches, at most one thread
    holds the mutex. *)
Theorem mutual_exclusion (s : State) (t u : nat) :
  reachable s -> pc s t = Holding -> pc s u = Holding -> t = u.
Proof.
  intros Hr Ht Hu. apply reachable_inv in Hr as [I1 _]. apply I1 in Ht as [_ Ht], Hu as [_ Hu]. congruence.
Qed.

(** ** Schedules *)
Fixpoint run (schedule : list nat) (s : State) : option State :=
  match schedule with
  | [] => Some s
  | t :: schedule => s ← step t s; run schedule s
  end.
Lemma run_reachable schedule : forall s s', reachable s -> run schedule s = Some s' -> reachable s'.
Proof.
  induction schedule as [|t schedule IH]; intros s s' Hr; cbn [run]; [now intros [= <-]|].
  destruct (step t s) as [s1|] eqn:E; [|discriminate]. apply IH. eapply reach_step; eassumption.
Qed.

Definition after (schedule : list nat) : State := default initial (run schedule initial).
Lemma after_reachable schedule : is_Some (run schedule initial) -> reachable (after schedule).
Proof. intros [s E]. unfold after. rewrite E. eapply run_reachable; [apply reach_init|exact E]. Qed.

Lemma mutual_exclusion_witness : reachable (after [0; 1; 0; 1]%nat) /\ pc (after [0; 1; 0; 1]%nat) 0%nat = Holding /\ 0%nat = 0%nat.
Proof.
  assert (Hr : reachable (after [0; 1; 0; 1]%nat)) by (apply after_reachable; vm_compute; eauto).
  split; [exact Hr|]. split; [reflexivity|]. apply (mutual_exclusion (after [0; 1; 0; 1]%nat) 0 0 Hr); reflexivity.
Defined.

(** Thread 0 takes the mutex; thread 1 fails twice, checks the counter of the event and is about to attach; thread 0
    unlocks, sees no listener; thread 1 attaches and blocks; thread 0 counts its trigger. *)
Definition lost : State := after [0; 0; 1; 1; 1; 1; 0; 0; 1; 1; 0]%nat.

(** A wake-up can be lost: the unlocking thread looks for listeners without the event's lock, between the waiter's
    check of the counter and its registration.  The waiter then sleeps although the mutex is free, its release
    is counted and every other thread is outside; it can only be woken by a later unlock. *)
Theorem unlock_wakeup_lost :
  reachable lost /\ m_Locked (mutex lost) = false /\ pc lost 1 = Sleeping /\ (forall t, t <> 1%nat -> pc lost t = Idle) /\
  Pending (m_LockEvent (mutex lost)) = 1 /\ step 1 lost = None.
Proof.
  split; [apply after_reachable; vm_compute; eauto|]. split_and!; try reflexivity.
  intros [|[|t]] H; [reflexivity|congruence|reflexivity].
Qed.
End Mutex.

(** ** Recursive mutex *)
Module RecursiveMutex.
Record RecursiveMutex := mkRecursive { m_Locked : bool; m_Depth : Z; m_Owner : option nat; m_Event : Event }.
Definition new_RecursiveMutex : RecursiveMutex := mkRecursive false 0 None (mkEvent 0 []).

Definition TryLock (current : nat) (m : RecursiveMutex) : bool * RecursiveMutex :=
  if negb (m_Locked m) then (true, mkRecursive true 1 (Some current) (m_Event m))
  else if bool_decide (m_Owner m = Some current) then (true, mkRecursive true (u64 (m_Depth m + 1)) (m_Owner m) (m_Event m))
  else (false, m).

(** The threads unblocked, and the mutex; [None]: the assertion fails. *)
Definition Unlock (current : nat) (m : RecursiveMutex) : option (RecursiveMutex * list EventListener) :=
  if m_Locked m && bool_decide (m_Owner m = Some current) then
    let depth := u64 (m_Depth m - 1) in
    if depth =? 0 then let '(e, ls, _) := Trigger (m_Event m) false true in Some (mkRecursive false depth None e, ls)
    else Some (mkRecursive (m_Locked m) depth (m_Owner m) (m_Event m), [])
  else None.

Fixpoint lock_times (n : nat) (t : nat) (m : RecursiveMutex) : bool * RecursiveMutex :=
  match n with
  | O => (true, m)
  | S n => match TryLock t m with (true, m) => lock_times n t m | (false, m) => (false, m) end
  end.
Fixpoint unlock_times (n : nat) (t : nat) (m : RecursiveMutex) : option (RecursiveMutex * list EventListener) :=
  match n with
  | O => Some (m, [])
  | S n => match Unlock t m with
           | Some (m, ls) => match unlock_times n t m with Some (m, ls') => Some (m, ls ++ ls') | None => None end
           | None => None
           end
  end.

Lemma lock_more n t : forall d e, 1 <= d -> d + Z.of_nat n < 2 ^ 64 ->
  lock_times n t (mkRecursive true d (Some t) e) = (true, mkRecursive true (d + Z.of_nat n) (Some t) e).
Proof.
  induction n as [|n IH]; intros d e Hd Hn; [rewrite Z.add_0_r; reflexivity|]. cbn [lock_times TryLock m_Locked negb m_Owner].
  rewrite bool_decide_true by reflexivity. cbn [m_Depth m_Event]. unfold u64. rewrite wrap_small by (unfold in_u; lia).
  rewrite IH by lia. do 2 f_equal. lia.
Qed.

Lemma unlock_some n t : forall d e, Z.of_nat n < d -> d < 2 ^ 64 ->
  unlock_times n t (mkRecursive true d (Some t) e) = Some (mkRecursive true (d - Z.of_nat n) (Some t) e, []).
Proof.
  induction n as [|n IH]; intros d e Hn Hd; [rewrite Z.sub_0_r; reflexivity|]. cbn [unlock_times]. unfold Unlock. cbn [m_Locked m_Owner].
  rewrite bool_decide_true by reflexivity. cbn [andb m_Depth m_Event]. unfold u64. rewrite wrap_small by (unfold in_u; lia).
  destruct (Z.eqb_spec (d - 1) 0); [lia|]. rewrite IH by lia. cbn [app]. do 2 f_equal. f_equal. lia.
Qed.

(** A recursive mutex locked [n] times by a thread stays locked by it, and refuses every other thread, until it is
    unlocked [n] times; the last unlock frees it and unblocks all its waiters. *)
Theorem recursive_mutex_balanced (n k : nat) (t u : nat) (e : Event) :
  (k < n)%nat -> Z.of_nat n < 2 ^ 63 -> u <> t ->
  let m := snd (lock_times n t (mkRecursive false 0 None e)) in
  fst (lock_times n t (mkRecursive false 0 None e)) = true /\
  (exists m', unlock_times k t m = Some (m', []) /\ m_Owner m' = Some t /\ fst (TryLock u m') = false) /\
  exists m', unlock_times n t m = Some (m', Listeners e) /\ m_Locked m' = false /\ m_Owner m' = None.
Proof.
  intros Hk Hn Hu. destruct n as [|n]; [lia|]. cbn [lock_times TryLock m_Locked negb m_Event].
  rewrite lock_more by lia. cbn [fst snd]. split; [reflexivity|]. split.
  - rewrite unlock_some by lia. eexists. split; [reflexivity|]. split; [reflexivity|].
    unfold TryLock. cbn [m_Locked negb m_Owner]. rewrite bool_decide_false by congruence. reflexivity.
  - replace (S n) with (n + 1)%nat by lia.
    assert (Happ : forall a b m, unlock_times (a + b) t m =
      match unlock_times a t m with
      | Some (m, ls) => match unlock_times b t m with Some (m, ls') => Some (m, ls ++ ls') | None => None end
      | None => None
      end).
    { induction a as [|a IH]; intros b m; cbn [Nat.add unlock_times].
      - destruct (unlock_times b t m) as [[? ?]|]; reflexivity.
      - destruct (Unlock t m) as [[m1 l1]|]; [|reflexivity]. rewrite IH. destruct (unlock_times a t m1) as [[m2 l2]|]; [|reflexivity].
        destruct (unlock_times b t m2) as [[m3 l3]|]; [|reflexivity]. now rewrite app_assoc. }
    rewrite Happ, unlock_some by lia. cbn [unlock_times]. unfold Unlock. cbn [m_Locked m_Owner].
    rewrite bool_decide_true by reflexivity. cbn [andb m_Depth m_Event]. replace (1 + Z.of_nat n - Z.of_nat n - 1) with 0 by lia.
    change (u64 0 =? 0) with true. cbn iota. unfold Trigger.
    destruct (Listeners e) as [|l ls] eqn:El; eexists; (split; [cbn; rewrite ?app_nil_r; reflexivity|split; reflexivity]).
Qed.

Lemma recursive_mutex_balanced_witness :
  fst (lock_times 3 7 new_RecursiveMutex) = true.
Proof. apply (recursive_mutex_balanced 3 1 7 8 (mkEvent 0 [])); lia. Defined.
End RecursiveMutex.

(** ** Semaphore *)
Module Semaphore.
Record Semaphore := mkSemaphore { m_Count : Z; m_Event : Event }.

Definition TryWait (s : Semaphore) : bool * Semaphore :=
  if 0 <? m_Count s then (true, mkSemaphore (m_Count s - 1) (m_Event s)) else (false, s).

(** The semaphore and the listeners unblocked. *)
Definition Signal (s : Semaphore) : Semaphore * list EventListener :=
  match Listeners (m_Event s) with
  | [] => (mkSemaphore (u64 (m_Count s + 1)) (m_Event s), [])
  | _ => let '(e, ls, _) := Trigger (m_Event s) false true in (mkSemaphore (m_Count s) e, ls)
  end.

(** A thread in [Wait]: before [TryWait], before [Await], blocked, unblocked. *)
Inductive PC := Idle | Trying | Awaiting | Sleeping | Woken.
#[global] Instance PC_eq_dec : EqDecision PC.
Proof. solve_decision. Defined.

(** The state, with counts of the signals sent and of the waits that returned. *)
Record State := mkState { sem : Semaphore; pc : nat -> PC; signalled : nat; acquired : nat }.

(** [Scheduler::Unblock] leaves a thread that is not blocked as it is. *)
Definition wake (ls : list EventListener) (pcs : nat -> PC) : nat -> PC :=
  λ t, if is_listener ls t && bool_decide (pcs t = Sleeping) then Woken else pcs t.

Inductive Action := Run (t : nat) | Send.

Definition step (a : Action) (s : State) : option State :=
  match a with
  | Send => let (x, ls) := Signal (sem s) in Some (mkState x (wake ls (pc s)) (S (signalled s)) (acquired s))
  | Run t =>
      let goto p x n := Some (mkState x (<[t := p]> (pc s)) (signalled s) n) in
      match pc s t with
      | Idle => goto Trying (sem s) (acquired s)
      | Trying =>
          match TryWait (sem s) with
          | (true, x) => goto Idle x (S (acquired s))
          | (false, x) => goto Awaiting x (acquired s)
          end
      | Awaiting =>
          match await_one (m_Event (sem s)) t true true with
          | (e, Returned _ _) => goto Trying (mkSemaphore (m_Count (sem s)) e) (acquired s)
          | (e, Blocked _) => goto Sleeping (mkSemaphore (m_Count (sem s)) e) (acquired s)
          end
      | Sleeping => None
      | Woken =>
          match DetachListeners t [m_Event (sem s)] with
          | e :: _ => goto Trying (mkSemaphore (m_Count (sem s)) e) (acquired s)
          | [] => None
          end
      end
  end.

Fixpoint run (actions : list Action) (s : State) : option State :=
  match actions with
  | [] => Some s
  | a :: actions => s ← step a s; run actions s
  end.

Lemma run_app a1 a2 s : run (a1 ++ a2) s = (s ← run a1 s; run a2 s).
Proof. revert s. induction a1 as [|a a1 IH]; intros s; [reflexivity|]. cbn [app run]. destruct (step a s); [apply IH|reflexivity]. Qed.

Definition initial (count : Z) : State := mkState (mkSemaphore count (mkEvent 0 [])) (λ _, Idle) 0 0.

(** Waits never return more often than the initial count and the signals allow. *)
Definition bounded (count : Z) (s : State) : Prop :=
  0 <= m_Count (sem s) /\ m_Count (sem s) + Z.of_nat (acquired s) <= count + Z.of_nat (signalled s).

Lemma step_bounded count a s s' : bounded count s -> step a s = Some s' -> bounded count s'.
Proof.
  intros [H0 H1]. unfold step, bounded. destruct a as [t|].
  - destruct (pc s t).
    + intros [= <-]. cbn. lia.
    + unfold TryWait. destruct (Z.ltb_spec 0 (m_Count (sem s))); intros [= <-]; cbn -[Z.of_nat]; lia.
    + destruct (await_one _ _ _ _) as [e [w i|i]]; intros [= <-]; cbn; lia.
    + discriminate.
    + intros [= <-]. cbn. lia.
  - unfold Signal. destruct (Listeners (m_Event (sem s))) as [|l ls] eqn:E.
    + intros [= <-]. cbn -[Z.of_nat u64]. pose proof (wrap_range 64 (m_Count (sem s) + 1) ltac:(lia)) as [Hr _].
      assert (u64 (m_Count (sem s) + 1) <= m_Count (sem s) + 1) by (unfold u64, wrap; apply Z.mod_le; lia).
      unfold u64 in *. lia.
    + unfold Trigger. rewrite E. intros [= <-]. cbn -[Z.of_nat]. lia.
Qed.

Lemma run_bounded count actions : forall s s', bounded count s -> run actions s = Some s' -> bounded count s'.
Proof.
  induction actions as [|a actions IH]; intros s s' Hb; cbn [run]; [now intros [= <-]|].
  destruct (step a s) as [s1|] eqn:E; [|discriminate]. apply IH. eapply step_bounded; eassumption.
Qed.

(** Safety of the semaphore: along any interleaving, waits return at most as often as the initial count and the
    signals sent allow. *)
Theorem semaphore_bound (count : Z) (actions : list Action) (s : State) :
  0 <= count -> run actions (initial count) = Some s ->
  Z.of_nat (acquired s) <= count + Z.of_nat (signalled s) - m_Count (sem s).
Proof.
  intros Hc Hr. apply (run_bounded count) in Hr as [_ H]; [lia|]. unfold bounded. cbn. lia.
Qed.

Definition two_waits : State := default (initial 1) (run [Run 0; Run 0; Send; Run 1; Run 1] (initial 1)).
Lemma semaphore_bound_witness : Z.of_nat (acquired two_waits) <= 1 + Z.of_nat (signalled two_waits) - m_Count (sem two_waits).
Proof. apply (semaphore_bound 1 [Run 0; Run 0; Send; Run 1; Run 1] two_waits); [lia|reflexivity]. Defined.

(** ** Signals to a blocked waiter *)
(** A thread alone in [Wait] on an empty semaphore, blocked. *)
Record waiting (t : nat) (s : State) : Prop := {
  wt_pc : pc s t = Sleeping;
  wt_sem : sem s = mkSemaphore 0 (mkEvent 0 [mkListener t 0])
}.

(** A signal, and the waiter running until it blocks again. *)
Definition round (t : nat) : list Action := [Send; Run t; Run t; Run t].

Lemma round_waiting t s : waiting t s ->
  exists s', run (round t) s = Some s' /\ waiting t s' /\ signalled s' = S (signalled s) /\ acquired s' = acquired s.
Proof.
  intros [Hp Hs]. set (pcs := wake [mkListener t 0] (pc s)). set (n := S (signalled s)). set (k := acquired s).
  assert (Hw : pcs t = Woken).
  { subst pcs. unfold wake, is_listener. cbn. rewrite Nat.eqb_refl, bool_decide_true by trivial. reflexivity. }
  set (idle := mkSemaphore 0 (mkEvent 0 [])).
  assert (E1 : step Send s = Some (mkState idle pcs n k)) by (unfold step, Signal; rewrite Hs; reflexivity).
  assert (E2 : step (Run t) (mkState idle pcs n k) = Some (mkState idle (<[t := Trying]> pcs) n k))
    by (unfold step; cbn [pc]; rewrite Hw; reflexivity).
  assert (E3 : forall f, step (Run t) (mkState idle (<[t := Trying]> f) n k) = Some (mkState idle (<[t := Awaiting]> (<[t := Trying]> f)) n k))
    by (intros f; unfold step; cbn [pc]; rewrite fn_lookup_insert; reflexivity).
  assert (E4 : forall f, step (Run t) (mkState idle (<[t := Awaiting]> f) n k) =
      Some (mkState (mkSemaphore 0 (mkEvent 0 [mkListener t 0])) (<[t := Sleeping]> (<[t := Awaiting]> f)) n k))
    by (intros f; unfold step; cbn [pc]; rewrite fn_lookup_insert; reflexivity).
  unfold round. cbn [run]. rewrite E1. cbn [mbind option_bind]. rewrite E2. cbn [mbind option_bind]. rewrite E3.
  cbn [mbind option_bind]. rewrite E4. cbn [mbind option_bind].
  eexists. split; [reflexivity|]. split; [|split; reflexivity]. split; [apply fn_lookup_insert|reflexivity].
Qed.

(** A signal that finds a waiter is lost: it wakes the thread without raising the count, so the thread finds nothing
    to take and blocks again.  Whatever the number of signals, a blocked [Wait] never returns. *)
Theorem blocked_wait_never_returns (t n : nat) (s : State) :
  waiting t s ->
  exists s', run (Nat.iter n (λ r, round t ++ r) []) s = Some s' /\ waiting t s' /\
    signalled s' = (n + signalled s)%nat /\ acquired s' = acquired s.
Proof.
  revert s. induction n as [|n IH]; intros s Hw; [exists s; auto|]. cbn [Nat.iter nat_rect]. rewrite run_app.
  destruct (round_waiting t s Hw) as (s1 & -> & Hw1 & H1 & H2). cbn [mbind option_bind].
  destruct (IH s1 Hw1) as (s2 & E & Hw2 & H3 & H4). exists s2. split_and!; trivial; [lia|congruence].
Qed.

Definition blocked_waiter : State := default (initial 0) (run [Run 5; Run 5; Run 5] (initial 0)).
Lemma blocked_wait_never_returns_witness :
  exists s', run (Nat.iter 3 (λ r, round 5 ++ r) []) blocked_waiter = Some s' /\ waiting 5 s' /\
    signalled s' = 3%nat /\ acquired s' = 0%nat.
Proof. apply (blocked_wait_never_returns 5 3 blocked_waiter). split; reflexivity. Defined.
End Semaphore.
