(* ===== verification/Posix.v ===== *)
(** * File modes and error numbers

    [API/Posix/sys/stat.h] and the error numbers the components return. *)

From Stdlib Require Import ZArith Lia Bool.
From stdpp Require Import base list.
From S2P Require Import Prelude.

Definition S_IFIFO : Z := 0x1000.
Definition S_IFCHR : Z := 0x2000.
Definition S_IFDIR : Z := 0x4000.
Definition S_IFBLK : Z := 0x6000.
Definition S_IFREG : Z := 0x8000.
Definition S_IFLNK : Z := 0xa000.
Definition S_IFSOCK : Z := 0xc000.
Definition S_IFMT : Z := 0xf000.
Definition S_ISBLK (mode : Z) : bool := mode .& S_IFMT =? S_IFBLK.
Definition S_ISCHR (mode : Z) : bool := mode .& S_IFMT =? S_IFCHR.
Definition S_ISDIR (mode : Z) : bool := mode .& S_IFMT =? S_IFDIR.
Definition S_ISFIFO (mode : Z) : bool := mode .& S_IFMT =? S_IFIFO.
Definition S_ISREG (mode : Z) : bool := mode .& S_IFMT =? S_IFREG.
Definition S_ISLNK (mode : Z) : bool := mode .& S_IFMT =? S_IFLNK.
Definition S_ISSOCK (mode : Z) : bool := mode .& S_IFMT =? S_IFSOCK.

Definition EPERM : Z := 1.
Definition ENOENT : Z := 2.
Definition EINTR : Z := 4.
Definition EBADF : Z := 9.
Definition EAGAIN : Z := 11.
Definition ENOMEM : Z := 12.
Definition EACCES : Z := 13.
Definition EFAULT : Z := 14.
Definition EEXIST : Z := 17.
Definition ENODEV : Z := 19.
Definition ENOTDIR : Z := 20.
Definition EISDIR : Z := 21.
Definition EINVAL : Z := 22.
Definition EMFILE : Z := 24.
Definition ESPIPE : Z := 29.
Definition EPIPE : Z := 32.
Definition ENAMETOOLONG : Z := 36.
Definition ELOOP : Z := 40.
