(* ===== verification/Disk.v ===== *)
(** * Storage

    What the file systems use of a storage device, and the packed little-endian
    structures kept on it.  A device is an interface: its [Read] and [Write] are virtual
    functions of [INode]; a partition ([Drivers/Storage/StorageDevicePartition.hpp]) is a
    device over a device. *)

From Stdlib Require Import ZArith Lia Bool.
From stdpp Require Import base gmap list numbers.
From S2P Require Import Prelude.

(** A closed goal about numbers. *)
Ltac by_computation := vm_compute; repeat split; first [reflexivity|discriminate].

(** ** Little-endian numbers *)
Fixpoint le_word (bs : list Z) : Z :=
  match bs with
  | [] => 0
  | b :: bs => b + 256 * le_word bs
  end.
Fixpoint le_bytes (n : nat) (x : Z) : list Z :=
  match n with
  | O => []
  | S n => x mod 256 :: le_bytes n (x / 256)
  end.

Definition byte (x : Z) : Prop := 0 <= x < 256.

Definition bytesb (bs : list Z) : bool := forallb (fun x => (0 <=? x) && (x <? 256)) bs.
Lemma bytesb_spec bs : bytesb bs = true -> Forall byte bs.
Proof.
  induction bs as [|x bs IH]; cbn; intros H; constructor; apply andb_prop in H as [H1 H2]; [|auto].
  apply andb_prop in H1 as [?%Z.leb_le ?%Z.ltb_lt]. now split.
Qed.

Lemma le_bytes_length n x : length (le_bytes n x) = n.
Proof. revert x. induction n as [|n IH]; intros x; cbn; [reflexivity|now rewrite IH]. Qed.

Lemma le_bytes_byte n x : Forall byte (le_bytes n x).
Proof. revert x. induction n as [|n IH]; intros x; cbn [le_bytes]; constructor; [apply Z.mod_pos_bound; lia|apply IH]. Qed.

Lemma le_word_le_bytes n x : le_word (le_bytes n x) = x mod 256 ^ Z.of_nat n.
Proof.
  revert x. induction n as [|n IH]; intros x; [change (256 ^ Z.of_nat 0) with 1; now rewrite Z.mod_1_r|].
  cbn [le_bytes le_word]. rewrite IH. replace (Z.of_nat (S n)) with (Z.succ (Z.of_nat n)) by lia.
  rewrite Z.pow_succ_r, Z.rem_mul_r by lia. lia.
Qed.

Lemma le_word_range bs : Forall byte bs -> 0 <= le_word bs < 256 ^ Z.of_nat (length bs).
Proof.
  induction 1 as [|b bs Hb _ IH]; [cbn; lia|]. cbn [le_word length].
  replace (Z.of_nat (S (length bs))) with (Z.succ (Z.of_nat (length bs))) by lia.
  rewrite Z.pow_succ_r by lia. unfold byte in Hb. lia.
Qed.

(** ** Packed structures: bytes, with fields at an offset *)
Record Field := mkField { f_offset : nat; f_size : nat }.
Definition get_field (f : Field) (s : list Z) : Z := le_word (take (f_size f) (drop (f_offset f) s)).

Lemma get_field_nonneg f bs : Forall byte bs -> 0 <= get_field f bs.
Proof. intros H. unfold get_field. apply le_word_range. apply Forall_take, Forall_drop, H. Qed.

(** Replace the bytes from [n] on. *)
Definition splice (n : nat) (new old : list Z) : list Z := take n old ++ new ++ drop (n + length new) old.
Definition set_field (f : Field) (x : Z) (s : list Z) : list Z := splice (f_offset f) (le_bytes (f_size f) x) s.

Lemma splice_length n new old : (n + length new <= length old)%nat -> length (splice n new old) = length old.
Proof. intros H. unfold splice. rewrite !length_app, length_take, length_drop. lia. Qed.

Lemma splice_lookup n new old i : (n + length new <= length old)%nat ->
  splice n new old !! i = if decide (n <= i < n + length new)%nat then new !! (i - n)%nat else old !! i.
Proof.
  intros H. unfold splice. destruct (decide _) as [Hi|Hi].
  - rewrite lookup_app_r, length_take by (rewrite length_take; lia).
    rewrite lookup_app_l by lia. f_equal. lia.
  - destruct (Nat.lt_ge_cases i n).
    + rewrite lookup_app_l by (rewrite length_take; lia). now rewrite lookup_take_lt by lia.
    + rewrite lookup_app_r, length_take by (rewrite length_take; lia).
      rewrite lookup_app_r by lia. rewrite lookup_drop. f_equal. lia.
Qed.

Lemma splice_nil n old : splice n [] old = old.
Proof. unfold splice. cbn. rewrite Nat.add_0_r. apply take_drop. Qed.

(** Two adjacent pieces make one. *)
Lemma splice_splice n m a b old : m = (n + length a)%nat -> (m + length b <= length old)%nat ->
  splice m b (splice n a old) = splice n (a ++ b) old.
Proof.
  intros -> H. apply list_eq. intros i.
  rewrite !splice_lookup by (rewrite ?splice_length, ?length_app; lia). rewrite length_app.
  repeat destruct (decide _); try lia; trivial.
  - rewrite lookup_app_r by lia. f_equal. lia.
  - rewrite lookup_app_l by lia. f_equal.
Qed.
Lemma splice_splice_before n m a b old : m = (n + length a)%nat -> (m + length b <= length old)%nat ->
  splice n a (splice m b old) = splice n (a ++ b) old.
Proof.
  intros -> H. apply list_eq. intros i.
  rewrite !splice_lookup by (rewrite ?splice_length, ?length_app; lia). rewrite length_app.
  repeat destruct (decide _); try lia; trivial.
  - rewrite lookup_app_l by lia. f_equal.
  - rewrite lookup_app_r by lia. f_equal. lia.
Qed.

Definition field_in (f : Field) (size : nat) : Prop := (f_offset f + f_size f <= size)%nat.
Definition fields_apart (f g : Field) : Prop :=
  (f_offset f + f_size f <= f_offset g)%nat \/ (f_offset g + f_size g <= f_offset f)%nat.

Lemma set_field_length f x s : field_in f (length s) -> length (set_field f x s) = length s.
Proof. intros H. unfold set_field. apply splice_length. rewrite le_bytes_length. exact H. Qed.

Lemma take_drop_splice n m new old : (n + length new <= length old)%nat -> m = length new ->
  take m (drop n (splice n new old)) = new.
Proof.
  intros H ->. unfold splice. rewrite drop_app_length' by (rewrite length_take; lia). now rewrite take_app_length.
Qed.

Lemma get_set_field f x s : field_in f (length s) -> get_field f (set_field f x s) = x mod 256 ^ Z.of_nat (f_size f).
Proof.
  intros H. unfold get_field, set_field. rewrite take_drop_splice by (rewrite le_bytes_length; trivial).
  apply le_word_le_bytes.
Qed.

Lemma get_set_field_apart f g x s : field_in g (length s) -> fields_apart f g -> get_field f (set_field g x s) = get_field f s.
Proof.
  intros Hg Ha. unfold get_field. f_equal. apply list_eq. intros i.
  destruct (Nat.lt_ge_cases i (f_size f)) as [Hi|Hi].
  - rewrite !lookup_take_lt, !lookup_drop by trivial. unfold set_field.
    rewrite splice_lookup by (rewrite le_bytes_length; exact Hg). rewrite le_bytes_length.
    destruct (decide _); [|reflexivity]. destruct Ha; lia.
  - rewrite !lookup_ge_None_2; trivial; rewrite length_take; lia.
Qed.

Lemma splice_bytes n new old : Forall byte new -> Forall byte old -> Forall byte (splice n new old).
Proof. intros H1 H2. unfold splice. apply Forall_app_2; [now apply Forall_take|]. apply Forall_app_2; [trivial|now apply Forall_drop]. Qed.
Lemma set_field_bytes f x s : Forall byte s -> Forall byte (set_field f x s).
Proof. intros H. apply splice_bytes; [apply le_bytes_byte|trivial]. Qed.

(** Reading a range of a spliced list. *)
Definition slice (off n : nat) (s : list Z) : list Z := take n (drop off s).
Lemma slice_splice_outside off n m new old : (m + length new <= length old)%nat ->
  (off + n <= m \/ m + length new <= off)%nat -> slice off n (splice m new old) = slice off n old.
Proof.
  intros Hl Ha. unfold slice. apply list_eq. intros i. destruct (Nat.lt_ge_cases i n) as [Hi|Hi].
  - rewrite !lookup_take_lt, !lookup_drop, splice_lookup by trivial. destruct (decide _); [lia|reflexivity].
  - rewrite !lookup_ge_None_2; trivial; rewrite length_take; lia.
Qed.
Lemma slice_splice_inside off n k m new old : (m + length new <= length old)%nat -> off = (m + k)%nat -> (k + n <= length new)%nat ->
  slice off n (splice m new old) = slice k n new.
Proof.
  intros Hl -> Hn. unfold slice. apply list_eq. intros i. destruct (Nat.lt_ge_cases i n) as [Hi|Hi].
  - rewrite !lookup_take_lt, !lookup_drop, splice_lookup by trivial. destruct (decide _); [f_equal; lia|lia].
  - rewrite !lookup_ge_None_2; trivial; rewrite length_take; lia.
Qed.
Lemma slice_app_l off n a b : (off + n <= length a)%nat -> slice off n (a ++ b) = slice off n a.
Proof. intros H. unfold slice. rewrite drop_app_le, take_app_le; trivial; [rewrite length_drop; lia|lia]. Qed.
Lemma slice_app_r off n a b : (length a <= off)%nat -> slice off n (a ++ b) = slice (off - length a) n b.
Proof. intros H. unfold slice. now rewrite drop_app_ge. Qed.
Lemma get_field_slice f s : get_field f s = le_word (slice (f_offset f) (f_size f) s).
Proof. reflexivity. Qed.
Lemma slice_slice off n k m s : (k + m <= n)%nat -> slice k m (slice off n s) = slice (off + k) m s.
Proof. intros H. unfold slice. rewrite List.skipn_firstn_comm, take_take, drop_drop. f_equal. lia. Qed.

Lemma slice_prefix n k m a b : slice 0 n a = slice 0 n b -> (k + m <= n)%nat -> slice k m a = slice k m b.
Proof. intros E H. pose proof (slice_slice 0 n k m a H) as Ha. rewrite E, slice_slice in Ha by trivial. now symmetry. Qed.

Lemma nth_seqZ (s : list Z) : (fun i => nth (Z.to_nat i) s 0) <$> seqZ 0 (Z.of_nat (length s)) = s.
Proof.
  apply list_eq. intros i. rewrite list_lookup_fmap. destruct (Nat.lt_ge_cases i (length s)) as [Hi|Hi].
  - rewrite lookup_seqZ_lt by lia. cbn [fmap option_fmap option_map]. rewrite Z.add_0_l, Nat2Z.id. destruct (lookup_lt_is_Some_2 s i Hi) as [x Hx].
    rewrite Hx. f_equal. now apply nth_lookup_Some.
  - rewrite lookup_seqZ_ge, lookup_ge_None_2 by lia. reflexivity.
Qed.

(** ** Devices *)
Class Device (D : Type) := {
  device_byte : D -> Z -> Z;
  device_size : D -> Z;
  (** [None]: the read returns -1. *)
  device_Read : D -> Z -> nat -> option (list Z);
  device_Write : D -> Z -> list Z -> D;
  device_byte_range (d : D) (i : Z) : byte (device_byte d i);
  device_Read_spec (d : D) (off : Z) (n : nat) :
    0 <= off -> off + Z.of_nat n <= device_size d ->
    device_Read d off n = Some (device_byte d <$> seqZ off (Z.of_nat n));
  device_Write_size (d : D) (off : Z) (bs : list Z) : device_size (device_Write d off bs) = device_size d;
  device_Write_spec (d : D) (off : Z) (bs : list Z) (i : Z) :
    0 <= off -> off + Z.of_nat (length bs) <= device_size d -> Forall byte bs ->
    device_byte (device_Write d off bs) i =
      if decide (off <= i < off + Z.of_nat (length bs)) then nth (Z.to_nat (i - off)) bs 0 else device_byte d i
}.

Section Devices.
Context {D : Type} {Dev : Device D}.

(** The bytes of a range. *)
Definition extent (d : D) (off : Z) (n : nat) : list Z := device_byte d <$> seqZ off (Z.of_nat n).

Lemma extent_length d off n : length (extent d off n) = n.
Proof. unfold extent. rewrite length_fmap, length_seqZ. lia. Qed.
Lemma extent_bytes d off n : Forall byte (extent d off n).
Proof. unfold extent. apply Forall_fmap, Forall_forall. intros i _. apply device_byte_range. Qed.
Lemma extent_lookup d off n i : (i < n)%nat -> extent d off n !! i = Some (device_byte d (off + Z.of_nat i)).
Proof. intros Hi. unfold extent. rewrite list_lookup_fmap, lookup_seqZ_lt by lia. reflexivity. Qed.
Lemma extent_app d off n m : extent d off (n + m) = extent d off n ++ extent d (off + Z.of_nat n) m.
Proof.
  unfold extent. replace (Z.of_nat (n + m)) with (Z.of_nat n + Z.of_nat m) by lia.
  rewrite seqZ_app, fmap_app by lia. reflexivity.
Qed.
Lemma extent_take d off n m : (m <= n)%nat -> take m (extent d off n) = extent d off m.
Proof. intros H. replace n with (m + (n - m))%nat by lia. rewrite extent_app, take_app_length'; [reflexivity|]. now rewrite extent_length. Qed.
Lemma extent_drop d off n m : (m <= n)%nat -> drop m (extent d off n) = extent d (off + Z.of_nat m) (n - m).
Proof.
  intros H. replace n with (m + (n - m))%nat at 1 by lia. rewrite extent_app, drop_app_length'; [reflexivity|]. now rewrite extent_length.
Qed.

Lemma extent_eq d d' off n :
  (forall i, off <= i < off + Z.of_nat n -> device_byte d' i = device_byte d i) -> extent d' off n = extent d off n.
Proof. intros H. unfold extent. apply list_fmap_ext. intros i x Hx%lookup_seqZ. apply H. lia. Qed.

Lemma extent_write_same d off bs :
  0 <= off -> off + Z.of_nat (length bs) <= device_size d -> Forall byte bs ->
  extent (device_Write d off bs) off (length bs) = bs.
Proof.
  intros H0 H1 Hb. apply list_eq. intros i. destruct (Nat.lt_ge_cases i (length bs)) as [Hi|Hi].
  - rewrite extent_lookup by trivial. rewrite device_Write_spec by trivial. destruct (decide _); [|lia].
    replace (Z.to_nat (off + Z.of_nat i - off)) with i by lia. destruct (lookup_lt_is_Some_2 bs i Hi) as [x Hx]. rewrite Hx. f_equal. now apply nth_lookup_Some.
  - rewrite !lookup_ge_None_2; trivial. now rewrite extent_length.
Qed.

Lemma extent_write_apart d off bs off' n :
  0 <= off -> off + Z.of_nat (length bs) <= device_size d -> Forall byte bs ->
  off' + Z.of_nat n <= off \/ off + Z.of_nat (length bs) <= off' ->
  extent (device_Write d off bs) off' n = extent d off' n.
Proof.
  intros H0 H1 Hb Ha. apply extent_eq. intros i Hi. rewrite device_Write_spec by trivial. destruct (decide _); [lia|reflexivity].
Qed.

(** A write inside a range. *)
Lemma extent_write_inside d off bs off' n k :
  0 <= off -> off + Z.of_nat (length bs) <= device_size d -> Forall byte bs ->
  off = off' + Z.of_nat k -> (k + length bs <= n)%nat ->
  extent (device_Write d off bs) off' n = splice k bs (extent d off' n).
Proof.
  intros H0 H1 Hb -> Hk. apply list_eq. intros i. destruct (Nat.lt_ge_cases i n) as [Hi|Hi].
  - rewrite splice_lookup, !extent_lookup by (rewrite ?extent_length; trivial).
    rewrite device_Write_spec by trivial. destruct (decide (off' + Z.of_nat k <= _ < _)), (decide (k <= i < _)%nat); try lia; [|reflexivity].
    replace (Z.to_nat (off' + Z.of_nat i - (off' + Z.of_nat k))) with (i - k)%nat by lia.
    destruct (lookup_lt_is_Some_2 bs (i - k)%nat ltac:(lia)) as [x Hx]. rewrite Hx. f_equal. now apply nth_lookup_Some.
  - rewrite !lookup_ge_None_2; trivial; rewrite ?splice_length; rewrite ?extent_length; lia.
Qed.

(** Writing back what is there changes no byte. *)
Lemma write_back d off n i : 0 <= off -> off + Z.of_nat n <= device_size d ->
  device_byte (device_Write d off (extent d off n)) i = device_byte d i.
Proof.
  intros H0 H1. rewrite device_Write_spec by (rewrite ?extent_length; trivial; apply extent_bytes). rewrite extent_length.
  destruct (decide _); [|reflexivity].
  rewrite (nth_lookup_Some _ _ _ _ (extent_lookup d off n (Z.to_nat (i - off)) ltac:(lia))). f_equal. lia.
Qed.

(** A 32-bit number read into a variable that held [old]. *)
Definition read_u32 (d : D) (off old : Z) : Z :=
  match device_Read d off 4 with Some bs => le_word bs | None => old end.
Definition write_u32 (d : D) (off x : Z) : D := device_Write d off (le_bytes 4 x).

Definition in_device (d : D) (off n : Z) : Prop := 0 <= off /\ off + n <= device_size d.

Lemma read_u32_spec d off old : in_device d off 4 -> read_u32 d off old = le_word (extent d off 4).
Proof. intros [H0 H1]. unfold read_u32. now rewrite device_Read_spec by lia. Qed.
Lemma read_u32_range d off old : in_device d off 4 -> in_u 32 (read_u32 d off old).
Proof.
  intros H. rewrite read_u32_spec by trivial. pose proof (le_word_range _ (extent_bytes d off 4)) as Hr.
  rewrite extent_length in Hr. exact Hr.
Qed.
Lemma read_write_u32 d off x old : in_device d off 4 -> in_u 32 x -> read_u32 (write_u32 d off x) off old = x.
Proof.
  intros [H0 H1] Hx. rewrite read_u32_spec by (split; [|unfold write_u32; rewrite device_Write_size]; lia). unfold write_u32.
  pose proof (extent_write_same d off (le_bytes 4 x)) as He. rewrite le_bytes_length in He.
  rewrite He by (trivial; apply le_bytes_byte). rewrite le_word_le_bytes. apply Z.mod_small. exact Hx.
Qed.
Lemma read_write_u32_apart d off off' x old : in_device d off 4 -> in_device d off' 4 -> off' + 4 <= off \/ off + 4 <= off' ->
  read_u32 (write_u32 d off x) off' old = read_u32 d off' old.
Proof.
  intros [H0 H1] [H2 H3] Ha. rewrite !read_u32_spec by (split; unfold write_u32; rewrite ?device_Write_size; lia).
  f_equal. unfold write_u32. apply extent_write_apart; rewrite ?le_bytes_length; trivial; try apply le_bytes_byte; lia.
Qed.
End Devices.

(** ** A disk in memory *)
Record MemDisk := mkMemDisk { cells : gmap Z Z; mem_size : Z }.
Definition mem_byte (d : MemDisk) (i : Z) : Z := default 0 (cells d !! i) mod 256.
Fixpoint mem_write (c : gmap Z Z) (off : Z) (bs : list Z) : gmap Z Z :=
  match bs with
  | [] => c
  | b :: bs => mem_write (<[off := b]> c) (off + 1) bs
  end.

Lemma mem_write_lookup bs : forall c off i,
  mem_write c off bs !! i =
    if decide (off <= i < off + Z.of_nat (length bs)) then bs !! Z.to_nat (i - off) else c !! i.
Proof.
  induction bs as [|b bs IH]; intros c off i; cbn [mem_write length].
  - destruct (decide _); [lia|reflexivity].
  - rewrite IH. destruct (decide (off + 1 <= i < _)), (decide (off <= i < _)); try lia.
    + replace (Z.to_nat (i - off)) with (S (Z.to_nat (i - (off + 1)))) by lia. reflexivity.
    + assert (i = off) as -> by lia. rewrite lookup_insert_eq, Z.sub_diag. reflexivity.
    + now rewrite lookup_insert_ne by lia.
Qed.

#[export] Instance mem_device : Device MemDisk.
Proof.
  refine {|
    device_byte := mem_byte;
    device_size := mem_size;
    device_Read d off n :=
      if (0 <=? off) && (off + Z.of_nat n <=? mem_size d) then Some (mem_byte d <$> seqZ off (Z.of_nat n)) else None;
    device_Write d off bs := mkMemDisk (mem_write (cells d) off bs) (mem_size d)
  |}.
  - intros d i. unfold byte, mem_byte. apply Z.mod_pos_bound. lia.
  - intros d off n H0 H1. destruct (Z.leb_spec 0 off), (Z.leb_spec (off + Z.of_nat n) (mem_size d)); trivial; lia.
  - reflexivity.
  - intros d off bs i H0 H1 Hb. unfold mem_byte. cbn [cells]. rewrite mem_write_lookup. destruct (decide _) as [Hi|]; [|reflexivity].
    destruct (lookup_lt_is_Some_2 bs (Z.to_nat (i - off)) ltac:(lia)) as [x Hx]. rewrite Hx. cbn.
    rewrite (nth_lookup_Some _ _ _ _ Hx). apply Z.mod_small. exact (Forall_lookup_1 _ _ _ _ Hb Hx).
Defined.

(** The contents of a disk, piece by piece. *)
Fixpoint store (bs : list (Z * list Z)) : gmap Z Z :=
  match bs with
  | [] => ∅
  | (off, b) :: bs => mem_write (store bs) off b
  end.

(** A property of the numbers below a bound, by computation. *)
Lemma bounded (n : Z) (P : Z -> Prop) `{Hd : forall k, Decision (P k)} : bool_decide (Forall P (seqZ 0 n)) = true -> forall k, 0 <= k < n -> P k.
Proof. intros H%bool_decide_eq_true k Hk. rewrite list.Forall_forall in H. apply H, elem_of_seqZ. lia. Qed.

(** ** Partitions *)
Record Partition (D : Type) := mkPartition { m_Device : D; st_blksize : Z; m_FirstBlock : Z; m_LastBlock : Z }.
Arguments mkPartition {D}.
Arguments m_Device {D}.
Arguments st_blksize {D}.
Arguments m_FirstBlock {D}.
Arguments m_LastBlock {D}.

Section Partitions.
Context {D : Type} {Dev : Device D}.
Definition partition_start (p : Partition D) : Z := st_blksize p * m_FirstBlock p.
Definition partition_Read (p : Partition D) (offset : Z) (bytes : nat) : option (list Z) :=
  device_Read (m_Device p) (partition_start p + offset) bytes.
Definition partition_Write (p : Partition D) (offset : Z) (bytes : list Z) : Partition D :=
  mkPartition (device_Write (m_Device p) (partition_start p + offset) bytes) (st_blksize p) (m_FirstBlock p) (m_LastBlock p).
End Partitions.
