(* ===== verification/Fat32.v ===== *)
(** * FAT32

    [VFS/Fat32Fs]: mounting, cluster chains, reading a file through its chain, the free
    space information, and the scan of a directory.  Disk structures are byte lists with
    fields at their offsets ([Disk]); the device is the interface [Device]. *)

From Stdlib Require Import ZArith Lia Bool.
From stdpp Require Import base gmap list numbers.
From S2P Require Import Prelude Posix Disk.

Module Fat32.

(** ** [Fat32FsStructures.hpp] *)
Definition BytesPerSector := mkField 11 2.
Definition SectorsPerCluster := mkField 13 1.
Definition ReservedSectorCount := mkField 14 2.
Definition FatCount := mkField 16 1.
Definition SectorsPerFat := mkField 36 4.
Definition RootDirectoryCluster := mkField 44 4.
Definition FsInfoSector := mkField 48 2.
Definition BootSignature := mkField 66 1.
Definition IdentifierString (record : list Z) : list Z := take 8 (drop 82 record).
Definition sizeof_BootRecord : nat := 90.

Definition InfoSignature := mkField 0 4.
Definition Free := mkField 4 4.
Definition StartAt := mkField 8 4.
Definition InfoSignature2 := mkField 24 4.
Definition sizeof_FsInfo : nat := 28.

Definition entry_Name (e : list Z) : list Z := take 11 e.
Definition Attributes := mkField 11 1.
Definition ClusterHigh := mkField 20 2.
Definition ClusterLow := mkField 26 2.
Definition entry_Size := mkField 28 4.
Definition sizeof_DirectoryEntry : nat := 32.

Definition lfn_Order := mkField 0 1.
Definition lfn_Checksum := mkField 13 1.

Definition eVolumeID : Z := 0x08.
Definition eDirectory : Z := 0x10.
Definition eLongFileName : Z := 0x0f.
(** [operator&] of attributes yields a [bool]. *)
Definition has_attribute (attributes a : Z) : bool := truthy (attributes .& a).

Definition FAT32_IDENTIFIER_STRING : list Z := [0x46; 0x41; 0x54; 0x33; 0x32; 0x20; 0x20; 0x20].
Definition FAT32_FS_INFO_SIGNATURE : Z := 0x41615252.
Definition FAT32_FS_INFO_OFFSET : Z := 484.
Definition FAT32_REAL_FS_INFO_SIGNATURE : Z := 0x61417272.
Definition FAT32_REAL_FS_INFO_SIGNATURE2 : Z := 0xaa550000.
Definition FAT32_MAX_FILENAME_LFN : Z := 255.

(** A failed [Assert] stops the kernel. *)
Inductive outcome (A : Type) := Ret (a : A) | Panic.
Arguments Ret {A}.
Arguments Panic {A}.

Section Fat32.
Context {D : Type} {Dev : Device D}.

Record Fat32Fs := mkFat32Fs {
  m_Device : D;
  m_BootRecord : list Z;
  m_FsInfo : list Z;
  m_ClusterSize : Z;
  m_ClusterCount : Z;
  m_FatOffset : Z;
  m_DataOffset : Z
}.
Definition with_device (d : D) (fs : Fat32Fs) : Fat32Fs :=
  mkFat32Fs d (m_BootRecord fs) (m_FsInfo fs) (m_ClusterSize fs) (m_ClusterCount fs) (m_FatOffset fs) (m_DataOffset fs).
Definition with_info (i : list Z) (fs : Fat32Fs) : Fat32Fs :=
  mkFat32Fs (m_Device fs) (m_BootRecord fs) i (m_ClusterSize fs) (m_ClusterCount fs) (m_FatOffset fs) (m_DataOffset fs).

(** ** Cluster chains *)
Definition IsFinalCluster (cluster : Z) : bool := 0xffffff8 <=? cluster.

(** [cluster * 4] is a 32-bit product; a failed read leaves [cluster] as it was. *)
Definition GetNextCluster (fs : Fat32Fs) (cluster : Z) : Z :=
  read_u32 (m_Device fs) (m_FatOffset fs + u32 (cluster * 4)) cluster.

(** [while (!IsFinalCluster(cluster))]; [None] when the fuel runs out. *)
Fixpoint chain_size_loop (fuel : nat) (fs : Fat32Fs) (cluster count : Z) : option Z :=
  if IsFinalCluster cluster then Some count
  else match fuel with
       | O => None
       | S fuel => chain_size_loop fuel fs (GetNextCluster fs cluster) (u64 (count + 1))
       end.
Definition GetChainSize (fuel : nat) (fs : Fat32Fs) (cluster : Z) : option Z := chain_size_loop fuel fs cluster 0.

(** The cluster reached and the [end] flag. *)
Fixpoint SkipCluster (fs : Fat32Fs) (cluster : Z) (count : nat) : Z * bool :=
  match count with
  | O => (cluster, false)
  | S count =>
      let next := GetNextCluster fs cluster in
      if IsFinalCluster next then (cluster, true) else SkipCluster fs next count
  end.

Definition GetClusterOffset (fs : Fat32Fs) (cluster : Z) : Z :=
  u64 (m_DataOffset fs + m_ClusterSize fs * u32 (cluster - 2)).

(** Transfer [bytes] bytes between the buffer at [pos] and the disk; [None] for a status
    of -1. *)
Definition transfer (fs : Fat32Fs) (buf : list Z) (pos : nat) (diskOffset : Z) (bytes : nat) (write : bool)
  : option (Fat32Fs * list Z) :=
  if write then Some (with_device (device_Write (m_Device fs) diskOffset (take bytes (drop pos buf))) fs, buf)
  else bs ← device_Read (m_Device fs) diskOffset bytes; Some (fs, splice pos bs buf).

Definition ReadWriteCluster (fs : Fat32Fs) (buf : list Z) (pos : nat) (cluster offset : Z) (bytes : nat) (write : bool)
  : option (Fat32Fs * list Z) :=
  transfer fs buf pos (u64 (GetClusterOffset fs cluster + offset)) bytes write.

(** The file system, the buffer, the number of clusters transferred and the cluster the
    loop stopped at. *)
Fixpoint ReadWriteClusters (fs : Fat32Fs) (buf : list Z) (pos : nat) (cluster : Z) (count : nat) (write : bool)
  : outcome (option (Fat32Fs * list Z * Z * Z)) :=
  match count with
  | O => Ret (Some (fs, buf, 0, cluster))
  | S count =>
      if cluster =? 0 then Panic
      else if IsFinalCluster cluster then Ret (Some (fs, buf, 0, cluster))
      else if negb (cluster <? m_ClusterCount fs) then Panic
      else
        match transfer fs buf pos (GetClusterOffset fs cluster) (Z.to_nat (m_ClusterSize fs)) write with
        | None => Ret None
        | Some (fs, buf) =>
            match ReadWriteClusters fs buf (pos + Z.to_nat (m_ClusterSize fs)) (GetNextCluster fs cluster) count write with
            | Ret (Some (fs, buf, i, cluster)) => Ret (Some (fs, buf, i + 1, cluster))
            | r => r
            end
        end
  end.

(** The whole-cluster and tail part of [ReadBytes], from a cluster boundary on. *)
Definition read_from_boundary (fs : Fat32Fs) (cluster : Z) (out : list Z) (pos : nat) (bytes : Z) : outcome (bool * list Z) :=
  let clustersRemaining := bytes / m_ClusterSize fs in
  let tail out cluster :=
    let bytes := bytes - clustersRemaining * m_ClusterSize fs in
    if 0 <? bytes then
      match ReadWriteCluster fs out (pos + Z.to_nat (clustersRemaining * m_ClusterSize fs)) cluster 0 (Z.to_nat bytes) false with
      | None => Ret (false, out)
      | Some (_, out) => Ret (true, out)
      end
    else Ret (true, out)
  in
  if clustersRemaining =? 0 then tail out cluster
  else
    match ReadWriteClusters fs out pos cluster (Z.to_nat clustersRemaining) false with
    | Panic => Panic
    | Ret None => Ret (false, out)
    | Ret (Some (_, out, _, cluster)) => tail out cluster
    end.

(** [bool Fat32Fs::ReadBytes(u32 cluster, u8* out, off_t offset, usize bytes)]: the
    returned flag and the buffer. *)
Definition ReadBytes (fs : Fat32Fs) (cluster : Z) (out : list Z) (offset bytes : Z) : outcome (bool * list Z) :=
  let cluster := (SkipCluster fs cluster (Z.to_nat (offset / m_ClusterSize fs))).1 in
  let clusterOffset := offset mod m_ClusterSize fs in
  if 0 <? clusterOffset then
    let count := if m_ClusterSize fs <? bytes then m_ClusterSize fs - clusterOffset else bytes in
    match ReadWriteCluster fs out 0 cluster clusterOffset (Z.to_nat count) false with
    | None => Ret (false, out)
    | Some (_, out) => read_from_boundary fs (GetNextCluster fs cluster) out (Z.to_nat count) (bytes - count)
    end
  else read_from_boundary fs cluster out 0 bytes.

(** ** Files ([Fat32FsINode]) *)
Record Fat32FsINode := mkINode {
  node_name : list Z;
  node_mode : Z;
  m_Cluster : Z;
  m_Size : Z;
  m_BlockSize : Z;
  m_BlockCount : Z;
  m_DirectoryOffset : Z;
  m_Populated : bool
}.

(** The return value ([None]: -1 with [ENOENT]) and the buffer. *)
Definition INode_Read (fs : Fat32Fs) (node : Fat32FsINode) (buffer : list Z) (offset bytes : Z) : outcome (option Z * list Z) :=
  let endOffset := u64 (offset + bytes) in
  let bytes :=
    if m_Size node <? endOffset then
      (if m_Size node <=? u64 offset then 0 else m_Size node - offset)
    else bytes in
  if bytes =? 0 then Ret (Some 0, buffer)
  else
    match ReadBytes fs (m_Cluster node) buffer offset bytes with
    | Panic => Panic
    | Ret (true, buffer) => Ret (Some bytes, buffer)
    | Ret (false, buffer) => Ret (None, buffer)
    end.

(** ** Free space information *)
(** One FAT entry in the loop of [UpdateFsInfo]. *)
Definition count_entry (index value : Z) (info : list Z) : list Z :=
  let info := if (value =? 0) && (get_field StartAt info =? 0xffffffff) then set_field StartAt index info else info in
  set_field Free (get_field Free info + 1) info.

Fixpoint count_sector (index : Z) (entries : nat) (buf : list Z) (info : list Z) : list Z :=
  match entries with
  | O => info
  | S n => count_sector (index + 1) n (drop 4 buf) (count_entry index (le_word (take 4 buf)) info)
  end.

(** [for (sector = ...)]; a failed read trips the assertion. *)
Fixpoint count_sectors (fs : Fat32Fs) (sector : Z) (n : nat) (info : list Z) : outcome (list Z) :=
  match n with
  | O => Ret info
  | S n =>
      let bps := get_field BytesPerSector (m_BootRecord fs) in
      match device_Read (m_Device fs) (m_FatOffset fs + sector * bps) (Z.to_nat bps) with
      | None => Panic
      | Some buf => count_sectors fs (sector + 1) n (count_sector (sector * (bps / 4)) (Z.to_nat (bps / 4)) buf info)
      end
  end.

Definition info_offset (fs : Fat32Fs) : Z :=
  i32 (get_field BytesPerSector (m_BootRecord fs) * get_field FsInfoSector (m_BootRecord fs)) + FAT32_FS_INFO_OFFSET.

Definition UpdateFsInfo (fs : Fat32Fs) : outcome Fat32Fs :=
  let info := m_FsInfo fs in
  let counted :=
    if (get_field Free info =? 0xffffffff) || (get_field StartAt info =? 0xffffffff)
    then count_sectors fs 0 (Z.to_nat (get_field SectorsPerFat (m_BootRecord fs))) (set_field Free 0 info)
    else Ret info in
  match counted with
  | Panic => Panic
  | Ret info => let fs := with_info info fs in Ret (with_device (device_Write (m_Device fs) (info_offset fs) info) fs)
  end.

Record statfs := mkStatfs { f_type : Z; f_bsize : Z; f_blocks : Z; f_bfree : Z; f_bavail : Z; f_fsid : Z; f_namelen : Z }.
Definition Stats (m_DeviceID : Z) (fs : Fat32Fs) : statfs :=
  let freeClusterCount := get_field Free (m_FsInfo fs) in
  mkStatfs (get_field BootSignature (m_BootRecord fs)) (m_ClusterSize fs) (m_ClusterCount fs)
    freeClusterCount freeClusterCount m_DeviceID FAT32_MAX_FILENAME_LFN.
(** ** Nodes *)
(** [ToDoWarn(); return 0] *)
Definition AllocateClusters (count : Z) : Z := 0.
Definition AllocateCluster : Z := AllocateClusters 1.

(** The constructor: no cluster can be allocated, so a directory keeps cluster 0. *)
Definition Fat32FsINode_new (name : list Z) (mode : Z) : Fat32FsINode :=
  let cluster := if S_ISDIR mode then AllocateClusters 1 else 0 in
  mkINode name mode cluster 0 0 (if S_ISDIR mode then 1 else 0) (u64 (-1)) false.

Definition CreateNode (name : list Z) (mode : Z) : Z + Fat32FsINode :=
  if 255 <? Z.of_nat (length name) then inl ENAMETOOLONG
  else if negb (S_ISREG mode) && negb (S_ISDIR mode) then inl EPERM
  else inr (Fat32FsINode_new name mode).

(** ** Mounting *)
Inductive mounted :=
| Mounted (fs : Fat32Fs) (root : Fat32FsINode)
| MountNull (** [nullptr] *)
| MountError (e : Z)
| MountPanic
| MountSpins (** a chain longer than the fuel *).

Definition read_struct (d : D) (offset : Z) (size : nat) (old : list Z) : list Z :=
  match device_Read d offset size with Some bs => bs | None => old end.

(** The geometry computed from the boot record; [st_blocks] is the device's. *)
Definition geometry (source : D) (st_blocks : Z) (boot info : list Z) : Fat32Fs :=
  let dataSector := u32 (get_field ReservedSectorCount boot + get_field FatCount boot * get_field SectorsPerFat boot) in
  mkFat32Fs source boot info
    (get_field SectorsPerCluster boot * get_field BytesPerSector boot)
    (u64 (Z.quot (st_blocks - dataSector) (get_field SectorsPerCluster boot)))
    (i32 (get_field ReservedSectorCount boot * get_field BytesPerSector boot))
    (i64 (dataSector * get_field BytesPerSector boot)).

Definition mount_root (fuel : nat) (fs : Fat32Fs) : mounted :=
  match CreateNode [0x2f] (Z.lor 0x1a4 S_IFDIR) with
  | inl e => MountError e
  | inr root =>
      let first := get_field RootDirectoryCluster (m_BootRecord fs) in
      match GetChainSize fuel fs first with
      | None => MountSpins
      | Some n =>
          Mounted fs (mkINode (node_name root) (node_mode root) first (u64 (n * m_ClusterSize fs)) (m_ClusterSize fs) n
                        (m_DirectoryOffset root) (m_Populated root))
      end
  end.

(** [boot0] and [info0] are what the structures held before; dividing by a cluster of no
    sectors is a fault. *)
Definition Mount (fuel : nat) (source : option D) (st_blocks : Z) (boot0 info0 : list Z) : mounted :=
  match source with
  | None => MountNull
  | Some source =>
      let boot := read_struct source 0 sizeof_BootRecord boot0 in
      if negb (get_field BootSignature boot =? 0x29) then MountNull
      else if negb (bool_decide (IdentifierString boot = FAT32_IDENTIFIER_STRING)) then MountNull
      else
        let info_sector := i32 (get_field FsInfoSector boot * get_field BytesPerSector boot) in
        let info := read_struct source info_sector sizeof_FsInfo info0 in
        if negb (get_field InfoSignature info =? FAT32_FS_INFO_SIGNATURE) then MountNull
        else
          let info := read_struct source (info_sector + FAT32_FS_INFO_OFFSET) sizeof_FsInfo info in
          if negb (get_field InfoSignature info =? FAT32_REAL_FS_INFO_SIGNATURE)
             || negb (get_field InfoSignature2 info =? FAT32_REAL_FS_INFO_SIGNATURE2) then MountNull
          else if get_field SectorsPerCluster boot =? 0 then MountPanic
          else
            match UpdateFsInfo (geometry source st_blocks boot info) with
            | Panic => MountPanic
            | Ret fs => mount_root fuel fs
            end
  end.

(** ** Scanning a directory *)
Fixpoint trailing_spaces (rev_str : list Z) : Z :=
  match rev_str with
  | c :: str => if c =? 0x20 then 1 + trailing_spaces str else 0
  | [] => 0
  end.
Definition CountSpacePadding (str : list Z) (len : nat) : Z := trailing_spaces (rev (take len str)).

Definition lfn_sum (checksum c : Z) : Z := u8 (((checksum .& 1) .<< 7) + (checksum .>> 1) + c).
Definition GetLfnChecksum (shortName : list Z) : Z := foldl lfn_sum 0 (take 11 shortName).

(** The low bytes of the 13 characters, at 1, 14 and 28. *)
Definition lfn_unit (e : list Z) (offset i : nat) : Z := u8 (get_field (mkField (offset + 2 * i) 2) e).
Definition CopyLfnToString (e : list Z) : list Z :=
  (lfn_unit e 1 <$> seq 0 5) ++ (lfn_unit e 14 <$> seq 0 6) ++ (lfn_unit e 28 <$> seq 0 2).

Definition GetClusterForDirectoryEntry (e : list Z) : Z := get_field ClusterLow e .| (get_field ClusterHigh e .<< 16).

(** The C string at the start of a buffer. *)
Fixpoint c_string (buf : list Z) : list Z :=
  match buf with
  | [] => []
  | c :: buf => if c =? 0 then [] else c :: c_string buf
  end.

Inductive scan :=
| Populated (children : list Fat32FsINode)
| Rejected (** [return false] *)
| Fault (** an access outside a buffer, or a failed assertion *)
| Spins (** a chain longer than the fuel *).

(** [StringView::Copy(dest, count, pos)] of a view, as the bytes written; the name a
    [DirectoryEntry] made from the name buffer has; [DivRoundUp] of the library. *)
Context (view_Copy : list Z -> Z -> Z -> list Z).
Context (dentry_Name : list Z -> list Z).
Context (DivRoundUp : Z -> Z -> Z).

Definition short_name (e nameBuffer : list Z) : list Z :=
  let nameSize := 8 - CountSpacePadding e 8 in
  let extSize := 3 - CountSpacePadding (drop 8 e) 3 in
  let nameView := take (Z.to_nat nameSize) e in
  let nameBuffer := if nameSize =? 0 then nameBuffer else splice 0 (view_Copy nameView nameSize 0) nameBuffer in
  if extSize =? 0 then nameBuffer
  else
    let nameBuffer := splice (Z.to_nat nameSize) [0x2e] nameBuffer in
    splice (Z.to_nat nameSize + 1) (view_Copy nameView extSize 8) nameBuffer.

(** The node for the entry at index [i], named by the buffer. *)
Definition entry_node (fuel : nat) (fs : Fat32Fs) (i : nat) (e nameBuffer : list Z) : option (option Fat32FsINode) :=
  let dir := has_attribute (get_field Attributes e) eDirectory in
  let mode := Z.lor 0x1a4 (if dir then S_IFDIR else S_IFREG) in
  match CreateNode (dentry_Name nameBuffer) mode with
  | inl _ => Some None
  | inr node =>
      let cluster := u32 (GetClusterForDirectoryEntry e) in
      size ← (if S_ISDIR mode then n ← GetChainSize fuel fs cluster; Some (u64 (n * m_ClusterSize fs))
              else Some (get_field entry_Size e));
      Some (Some (mkINode (node_name node) mode cluster size (m_ClusterSize fs) (DivRoundUp size (m_ClusterSize fs))
                    (Z.of_nat (i * sizeof_DirectoryEntry)) false))
  end.

Definition dir_entry (directoryEntries : list Z) (i : nat) : list Z :=
  take sizeof_DirectoryEntry (drop (i * sizeof_DirectoryEntry) directoryEntries).

(** The loop of [Populate] from entry [i] on, [n] entries left; [lfn] is [isLfn] with the
    checksum. *)
Fixpoint scan_entries (fuel : nat) (fs : Fat32Fs) (directoryEntries : list Z) (n i : nat) (lfn : option Z)
    (nameBuffer : list Z) (children : list Fat32FsINode) : scan :=
  match n with
  | O => Populated children
  | S n =>
      let e := dir_entry directoryEntries i in
      let next lfn nameBuffer children := scan_entries fuel fs directoryEntries n (S i) lfn nameBuffer children in
      if nth 0 e 0 =? 0 then Populated children
      else if nth 0 e 0 =? 0xe5 then next lfn nameBuffer children
      else if has_attribute (get_field Attributes e) eLongFileName then
        let order := get_field lfn_Order e .& 0x1f in
        let copy checksum :=
          if (order =? 0) || (Z.of_nat (length nameBuffer) <? order * 13) then Fault
          else next (Some checksum) (splice (Z.to_nat ((order - 1) * 13)) (CopyLfnToString e) nameBuffer) children in
        match lfn with
        | None =>
            let target := (i + Z.to_nat order)%nat in
            if Z.of_nat (length directoryEntries) <? Z.of_nat (S target * sizeof_DirectoryEntry) then Fault
            else copy (GetLfnChecksum (dir_entry directoryEntries target))
        | Some checksum => if get_field lfn_Checksum e =? checksum then copy checksum else Rejected
        end
      else if has_attribute (get_field Attributes e) eVolumeID then next lfn nameBuffer children
      else
        let nameBuffer := if lfn then nameBuffer else short_name e nameBuffer in
        if bool_decide (c_string nameBuffer = [0x2e]) || bool_decide (c_string nameBuffer = [0x2e; 0x2e])
        then next None nameBuffer children
        else
          match entry_node fuel fs i e nameBuffer with
          | None => Spins
          | Some None => Rejected
          | Some (Some node) => next None nameBuffer (children ++ [node])
          end
  end.

(** [fresh] is the uninitialised directory buffer, [name0] the name buffer of 256 bytes. *)
Definition Populate (fuel : nat) (fs : Fat32Fs) (node : Fat32FsINode) (fresh name0 : list Z) : scan :=
  match ReadWriteClusters fs fresh 0 (m_Cluster node) (Z.to_nat (m_BlockCount node)) false with
  | Panic => Fault
  | Ret None => Rejected
  | Ret (Some (_, directoryEntries, _, _)) =>
      scan_entries fuel fs directoryEntries (Z.to_nat (m_Size node / 32)) 0 None name0 []
  end.
End Fat32.
Arguments Fat32Fs : clear implicits.
End Fat32.
