(* ===== verification/Fat32Proofs.v ===== *)
(** * FAT32: what the chain operations and reads return

    The abstract file is the concatenation of the clusters of its chain; the theorems
    relate the chain walk, the reads and the directory scan to it. *)

From Stdlib Require Import ZArith Lia Bool.
From stdpp Require Import base gmap list numbers.
From S2P Require Import Prelude Disk Fat32.

Import Fat32.

Section Chains.
Context {D : Type} {Dev : Device D}.
Implicit Types fs : Fat32Fs D.

(** ** Chains *)
Inductive chain fs : Z -> list Z -> Prop :=
| chain_end c : IsFinalCluster c = true -> chain fs c []
| chain_link c cs : IsFinalCluster c = false -> chain fs (GetNextCluster fs c) cs -> chain fs c (c :: cs).

(** Data clusters that lie on the device. *)
Definition data_cluster fs (c : Z) : Prop :=
  2 <= c < m_ClusterCount fs /\ in_u 32 c /\
  m_DataOffset fs + m_ClusterSize fs * (c - 1) <= device_size (m_Device fs).
Definition fs_ok fs : Prop :=
  0 < m_ClusterSize fs /\ 0 <= m_DataOffset fs /\ device_size (m_Device fs) <= 2 ^ 63.

(** The contents of a cluster, and of a chain. *)
Definition cluster_data fs (c : Z) : list Z :=
  extent (m_Device fs) (m_DataOffset fs + m_ClusterSize fs * (c - 2)) (Z.to_nat (m_ClusterSize fs)).
Definition file_data fs (cs : list Z) : list Z := concat (cluster_data fs <$> cs).

Lemma chain_functional fs c cs cs' : chain fs c cs -> chain fs c cs' -> cs = cs'.
Proof.
  intros H. revert cs'. induction H as [c Hf|c cs Hf _ IH]; intros cs' H'; inversion H'; subst; try congruence.
  f_equal. now apply IH.
Qed.

Lemma chain_size_loop_spec fs c cs : chain fs c cs -> forall fuel n,
  (length cs <= fuel)%nat -> 0 <= n -> n + Z.of_nat (length cs) < 2 ^ 64 ->
  chain_size_loop fuel fs c n = Some (n + Z.of_nat (length cs)).
Proof.
  induction 1 as [c Hf|c cs Hf _ IH]; intros fuel n Hfuel Hn Hlt; destruct fuel as [|fuel]; cbn [chain_size_loop length] in *;
    rewrite Hf; try lia; try (f_equal; lia).
  unfold u64. rewrite wrap_small by (unfold in_u; lia). rewrite IH by lia. f_equal. lia.
Qed.

Lemma SkipCluster_spec fs c cs : chain fs c cs -> forall k x,
  cs !! k = Some x -> (SkipCluster fs c k) = (x, false) /\ chain fs x (drop k cs).
Proof.
  induction 1 as [c Hf|c cs Hf Hc IH]; intros k x Hx; [discriminate|].
  destruct k as [|k]; cbn in *.
  - injection Hx as <-. split; [reflexivity|]. now constructor.
  - destruct (IsFinalCluster (GetNextCluster fs c)) eqn:E; [|now apply IH].
    inversion Hc; subst; [discriminate|congruence].
Qed.

Lemma cluster_data_length fs c : length (cluster_data fs c) = Z.to_nat (m_ClusterSize fs).
Proof. apply extent_length. Qed.

Lemma file_data_length fs cs : length (file_data fs cs) = (length cs * Z.to_nat (m_ClusterSize fs))%nat.
Proof.
  unfold file_data. induction cs as [|c cs IH]; cbn; [reflexivity|]. rewrite length_app, cluster_data_length. lia.
Qed.

Lemma file_data_drop fs cs k : drop (k * Z.to_nat (m_ClusterSize fs)) (file_data fs cs) = file_data fs (drop k cs).
Proof.
  revert cs. induction k as [|k IH]; intros cs; [reflexivity|]. destruct cs as [|c cs].
  - unfold file_data. cbn. now rewrite drop_nil.
  - change (file_data fs (c :: cs)) with (cluster_data fs c ++ file_data fs cs). cbn [Nat.mul drop].
    rewrite drop_app_add' by (symmetry; apply cluster_data_length). apply IH.
Qed.
Lemma file_data_take fs cs k : take (k * Z.to_nat (m_ClusterSize fs)) (file_data fs cs) = file_data fs (take k cs).
Proof.
  revert cs. induction k as [|k IH]; intros cs; [reflexivity|]. destruct cs as [|c cs].
  - unfold file_data. cbn. now rewrite take_nil.
  - change (file_data fs (c :: cs)) with (cluster_data fs c ++ file_data fs cs). cbn [Nat.mul take].
    rewrite take_app_add' by (symmetry; apply cluster_data_length). rewrite IH. reflexivity.
Qed.

(** ** Transfers *)
Lemma GetClusterOffset_spec fs c : fs_ok fs -> data_cluster fs c ->
  GetClusterOffset fs c = m_DataOffset fs + m_ClusterSize fs * (c - 2).
Proof.
  intros (H0 & H1 & H2) (H3 & H4 & H5). unfold GetClusterOffset, u64, u32.
  unfold in_u in *. rewrite (wrap_small 32) by (unfold in_u; lia). apply wrap_small. unfold in_u. nia.
Qed.

(** A read inside a cluster. *)
Lemma ReadWriteCluster_spec fs buf pos c offset n : fs_ok fs -> data_cluster fs c ->
  0 <= offset -> offset + Z.of_nat n <= m_ClusterSize fs ->
  ReadWriteCluster fs buf pos c offset n false =
    Some (fs, splice pos (take n (drop (Z.to_nat offset) (cluster_data fs c))) buf).
Proof.
  intros Hok Hc H0 Hn. pose proof Hok as (H1 & H2 & H3). pose proof Hc as (H4 & H5 & H6).
  unfold ReadWriteCluster, transfer. rewrite GetClusterOffset_spec by trivial. unfold u64.
  rewrite wrap_small by (unfold in_u; nia). rewrite device_Read_spec by nia. cbn [mbind option_bind].
  do 3 f_equal. unfold cluster_data. rewrite extent_drop, extent_take by lia. unfold extent. do 2 f_equal. lia.
Qed.

Lemma transfer_cluster fs buf pos c : fs_ok fs -> data_cluster fs c ->
  transfer fs buf pos (GetClusterOffset fs c) (Z.to_nat (m_ClusterSize fs)) false = Some (fs, splice pos (cluster_data fs c) buf).
Proof.
  intros Hok Hc. pose proof Hok as (H1 & _). pose proof (ReadWriteCluster_spec fs buf pos c 0 (Z.to_nat (m_ClusterSize fs)) Hok Hc) as H.
  unfold ReadWriteCluster in H. rewrite Z.add_0_r, GetClusterOffset_spec in * by trivial.
  destruct Hok as (_ & H2 & H3). destruct Hc as (H4 & H5 & H6). unfold u64 in H. rewrite wrap_small in H by (unfold in_u; nia).
  rewrite H by lia. rewrite drop_0, take_ge by (rewrite cluster_data_length; lia). reflexivity.
Qed.

(** Reading whole clusters: the bytes arrive in chain order, and the loop stops at the
    cluster that follows. *)
Lemma ReadWriteClusters_spec fs : fs_ok fs -> forall cs c, chain fs c cs -> Forall (data_cluster fs) cs ->
  forall count buf pos, (count <= length cs)%nat -> (pos + count * Z.to_nat (m_ClusterSize fs) <= length buf)%nat ->
  exists c', ReadWriteClusters fs buf pos c count false =
      Ret (Some (fs, splice pos (file_data fs (take count cs)) buf, Z.of_nat count, c'))
    /\ chain fs c' (drop count cs).
Proof.
  intros Hok cs c Hc. induction Hc as [c Hf|c cs Hf Hc IH]; intros Hd count buf pos Hcount Hbuf.
  - destruct count; [|cbn in Hcount; lia]. exists c. split; [|now constructor]. cbn. now rewrite splice_nil.
  - destruct count as [|count].
    { exists c. split; [|now constructor]. cbn. now rewrite splice_nil. }
    apply Forall_cons_iff in Hd as [Hdc Hd]. cbn [ReadWriteClusters].
    destruct (Z.eqb_spec c 0) as [->|_]; [destruct Hdc; lia|]. rewrite Hf.
    destruct (Z.ltb_spec c (m_ClusterCount fs)); [cbn [negb]|destruct Hdc; lia].
    destruct Hok as (Hsz & Hok'). assert (Hok : fs_ok fs) by (split; trivial).
    rewrite (transfer_cluster fs buf pos c Hok Hdc).
    destruct (IH Hd count (splice pos (cluster_data fs c) buf) (pos + Z.to_nat (m_ClusterSize fs))%nat) as (c' & -> & Hc').
    { cbn in Hcount; lia. }
    { rewrite splice_length; rewrite ?cluster_data_length; nia. }
    exists c'. split; [|exact Hc']. cbn [take fmap list_fmap].
    change (file_data fs (c :: take count cs)) with (cluster_data fs c ++ file_data fs (take count cs)).
    rewrite splice_splice by (rewrite ?cluster_data_length, ?file_data_length, ?length_take; nia).
    do 4 f_equal. lia.
Qed.

(** ** Reading a file *)
Lemma chain_head fs c x cs : chain fs c (x :: cs) -> c = x /\ chain fs (GetNextCluster fs x) cs.
Proof. inversion 1; subst; auto. Qed.

Lemma file_data_prefix fs cs q r x : cs !! q = Some x -> (r <= Z.to_nat (m_ClusterSize fs))%nat ->
  take (q * Z.to_nat (m_ClusterSize fs) + r) (file_data fs cs) = file_data fs (take q cs) ++ take r (cluster_data fs x).
Proof.
  intros Hx Hr. rewrite <- (take_drop (q * Z.to_nat (m_ClusterSize fs)) (file_data fs cs)) at 1.
  pose proof (lookup_lt_Some _ _ _ Hx) as Hq.
  rewrite take_app_add' by (rewrite length_take, file_data_length; nia). rewrite file_data_take, file_data_drop. f_equal.
  erewrite drop_S by exact Hx. change (file_data fs (x :: drop (S q) cs)) with (cluster_data fs x ++ file_data fs (drop (S q) cs)).
  rewrite take_app_le by (rewrite cluster_data_length; lia). reflexivity.
Qed.

Lemma tail_spec fs c c' cs q r out pos : fs_ok fs -> chain fs c cs -> Forall (data_cluster fs) cs ->
  chain fs c' (drop q cs) -> (q * Z.to_nat (m_ClusterSize fs) + r <= length cs * Z.to_nat (m_ClusterSize fs))%nat ->
  (0 < r <= Z.to_nat (m_ClusterSize fs))%nat -> (pos + q * Z.to_nat (m_ClusterSize fs) + r <= length out)%nat ->
  ReadWriteCluster fs (splice pos (file_data fs (take q cs)) out) (pos + q * Z.to_nat (m_ClusterSize fs)) c' 0 r false =
    Some (fs, splice pos (take (q * Z.to_nat (m_ClusterSize fs) + r) (file_data fs cs)) out).
Proof.
  intros Hok Hc Hd Hc' Hle Hr Hout. destruct (cs !! q) as [x|] eqn:Hx.
  2:{ apply lookup_ge_None_1 in Hx. nia. }
  pose proof (lookup_lt_Some _ _ _ Hx) as Hq. rewrite (drop_S _ _ _ Hx) in Hc'. apply chain_head in Hc' as [-> _].
  rewrite ReadWriteCluster_spec; [|trivial|exact (Forall_lookup_1 _ _ _ _ Hd Hx)|lia|lia].
  rewrite (file_data_prefix _ _ _ _ x) by (trivial; lia). rewrite drop_0, splice_splice; trivial.
  - rewrite file_data_length, length_take. f_equal. f_equal. lia.
  - rewrite length_take, cluster_data_length. lia.
Qed.

Lemma read_from_boundary_spec fs c cs out pos bytes : fs_ok fs -> chain fs c cs -> Forall (data_cluster fs) cs ->
  0 <= bytes <= Z.of_nat (length cs) * m_ClusterSize fs -> (pos + Z.to_nat bytes <= length out)%nat ->
  read_from_boundary fs c out pos bytes = Ret (true, splice pos (take (Z.to_nat bytes) (file_data fs cs)) out).
Proof.
  intros Hok Hc Hd Hb Hout. pose proof Hok as (Hsz & _). unfold read_from_boundary.
  pose proof (Z.div_mod bytes (m_ClusterSize fs) ltac:(lia)) as Hdm. pose proof (Z.mod_pos_bound bytes (m_ClusterSize fs) Hsz) as Hm.
  set (q := bytes / m_ClusterSize fs) in *. set (r := bytes mod m_ClusterSize fs) in *.
  assert (Hq : 0 <= q <= Z.of_nat (length cs)) by nia.
  replace (bytes - q * m_ClusterSize fs) with r by lia.
  assert (Hbytes : Z.to_nat bytes = (Z.to_nat q * Z.to_nat (m_ClusterSize fs) + Z.to_nat r)%nat) by nia.
  rewrite Hbytes in *. rewrite Z2Nat.inj_mul by lia.
  assert (Htail : forall c', chain fs c' (drop (Z.to_nat q) cs) -> forall out', out' = splice pos (file_data fs (take (Z.to_nat q) cs)) out ->
    (if 0 <? r then match ReadWriteCluster fs out' (pos + Z.to_nat q * Z.to_nat (m_ClusterSize fs)) c' 0 (Z.to_nat r) false with
       | None => Ret (false, out') | Some (_, out) => Ret (true, out) end else Ret (true, out')) =
    Ret (true, splice pos (take (Z.to_nat q * Z.to_nat (m_ClusterSize fs) + Z.to_nat r) (file_data fs cs)) out)).
  { intros c' Hc' out' ->. destruct (Z.ltb_spec 0 r).
    - rewrite (tail_spec _ c) by (trivial; nia). reflexivity.
    - replace (Z.to_nat r) with O by lia. now rewrite Nat.add_0_r, file_data_take. }
  destruct (Z.eqb_spec q 0) as [Hq0|Hq0].
  - apply Htail; rewrite Hq0; [exact Hc|]. symmetry. apply splice_nil.
  - destruct (ReadWriteClusters_spec fs Hok cs c Hc Hd (Z.to_nat q) out pos) as (c' & -> & Hc'); [lia|lia|]. now apply Htail.
Qed.

(** The reads the code handles: from a cluster boundary, longer than a cluster, or inside
    one cluster. *)
Definition handled fs (offset bytes : Z) : Prop :=
  offset mod m_ClusterSize fs = 0 \/ m_ClusterSize fs < bytes \/ offset mod m_ClusterSize fs + bytes <= m_ClusterSize fs.

(** The position of a byte in a chain. *)
Lemma chain_position fs c cs offset : fs_ok fs -> chain fs c cs -> 0 <= offset < Z.of_nat (length cs) * m_ClusterSize fs ->
  exists x rest, cs !! Z.to_nat (offset / m_ClusterSize fs) = Some x
    /\ SkipCluster fs c (Z.to_nat (offset / m_ClusterSize fs)) = (x, false)
    /\ chain fs x (x :: rest)
    /\ drop (Z.to_nat (offset / m_ClusterSize fs)) cs = x :: rest
    /\ drop (Z.to_nat offset) (file_data fs cs) =
         drop (Z.to_nat (offset mod m_ClusterSize fs)) (cluster_data fs x ++ file_data fs rest).
Proof.
  intros (Hsz & _) Hc Ho.
  pose proof (Z.div_mod offset (m_ClusterSize fs) ltac:(lia)) as Hdm. pose proof (Z.mod_pos_bound offset (m_ClusterSize fs) Hsz) as Hm.
  assert (0 <= offset / m_ClusterSize fs < Z.of_nat (length cs)) by nia.
  destruct (lookup_lt_is_Some_2 cs (Z.to_nat (offset / m_ClusterSize fs)) ltac:(lia)) as [x Hx].
  exists x, (drop (S (Z.to_nat (offset / m_ClusterSize fs))) cs).
  destruct (SkipCluster_spec fs c cs Hc _ _ Hx) as [Hs Hc']. rewrite (drop_S _ _ _ Hx) in *. split_and!; trivial.
  assert (Z.to_nat offset = Z.to_nat (offset / m_ClusterSize fs) * Z.to_nat (m_ClusterSize fs) + Z.to_nat (offset mod m_ClusterSize fs))%nat as -> by nia.
  rewrite <- drop_drop, file_data_drop, (drop_S _ _ _ Hx). reflexivity.
Qed.

Lemma ReadBytes_spec fs c cs out offset bytes : fs_ok fs -> chain fs c cs -> Forall (data_cluster fs) cs ->
  0 <= offset -> 0 < bytes -> offset + bytes <= Z.of_nat (length cs) * m_ClusterSize fs -> (Z.to_nat bytes <= length out)%nat ->
  handled fs offset bytes ->
  ReadBytes fs c out offset bytes = Ret (true, splice 0 (take (Z.to_nat bytes) (drop (Z.to_nat offset) (file_data fs cs))) out).
Proof.
  intros Hok Hc Hd Ho Hb Hle Hout Hh. pose proof Hok as (Hsz & _).
  destruct (chain_position fs c cs offset Hok Hc) as (x & rest & Hx & Hs & Hcx & Hdrop & Hfile); [lia|].
  pose proof (Forall_lookup_1 _ _ _ _ Hd Hx) as Hdx. apply (Forall_drop _ (Z.to_nat (offset / m_ClusterSize fs))) in Hd. rewrite Hdrop in Hd.
  assert (Hrest : Z.of_nat (length (x :: rest)) = Z.of_nat (length cs) - offset / m_ClusterSize fs).
  { rewrite <- Hdrop, length_drop. pose proof (lookup_lt_Some _ _ _ Hx). pose proof (Z.div_pos offset (m_ClusterSize fs)). lia. }
  pose proof (Z.div_mod offset (m_ClusterSize fs) ltac:(lia)) as Hdm. pose proof (Z.mod_pos_bound offset (m_ClusterSize fs) Hsz) as Hm.
  unfold handled in Hh. unfold ReadBytes. rewrite Hs, Hfile. cbn [fst]. set (m := offset mod m_ClusterSize fs) in *.
  destruct (Z.ltb_spec 0 m) as [Hm0|Hm0].
  2:{ rewrite (read_from_boundary_spec fs x (x :: rest)); trivial; [|nia]. now replace m with 0 by lia. }
  rewrite drop_app_le by (rewrite cluster_data_length; lia).
  destruct (Z.ltb_spec (m_ClusterSize fs) bytes) as [Hbig|Hsmall].
  - rewrite ReadWriteCluster_spec by (trivial; lia). apply chain_head in Hcx as [_ Hcr]. apply Forall_cons_iff in Hd as [_ Hd].
    cbn [length] in Hrest.
    rewrite (take_ge (drop (Z.to_nat m) _)) by (rewrite length_drop, cluster_data_length; lia).
    rewrite (read_from_boundary_spec fs _ rest); trivial; [|nia|rewrite splice_length; rewrite ?length_drop, ?cluster_data_length; lia].
    rewrite splice_splice by (rewrite ?length_take, ?length_drop, ?cluster_data_length; lia). do 3 f_equal.
    replace (Z.to_nat bytes) with (Z.to_nat (m_ClusterSize fs - m) + Z.to_nat (bytes - (m_ClusterSize fs - m)))%nat by lia.
    rewrite take_app_add' by (rewrite length_drop, cluster_data_length; lia). reflexivity.
  - rewrite ReadWriteCluster_spec by (trivial; lia). rewrite Z.sub_diag.
    apply chain_head in Hcx as [_ Hcr]. apply Forall_cons_iff in Hd as [_ Hd].
    rewrite (read_from_boundary_spec fs _ rest); trivial; [|cbn in Hrest; nia|].
    2:{ rewrite splice_length; rewrite ?length_take, ?length_drop, ?cluster_data_length; lia. }
    rewrite splice_nil, take_app_le by (rewrite length_drop, cluster_data_length; lia). reflexivity.
Qed.

(** A short read that crosses the end of its cluster goes on in the cluster that follows
    on the disk. *)
Lemma ReadBytes_straddle fs c cs out offset bytes x rest :
  fs_ok fs -> chain fs c cs -> Forall (data_cluster fs) cs -> 0 <= offset ->
  drop (Z.to_nat (offset / m_ClusterSize fs)) cs = x :: rest -> data_cluster fs (x + 1) ->
  bytes <= m_ClusterSize fs < offset mod m_ClusterSize fs + bytes -> (Z.to_nat bytes <= length out)%nat ->
  ReadBytes fs c out offset bytes =
    Ret (true, splice 0 (take (Z.to_nat bytes) (drop (Z.to_nat (offset mod m_ClusterSize fs))
                          (cluster_data fs x ++ cluster_data fs (x + 1)))) out).
Proof.
  intros Hok Hc Hd Ho Hdrop Hx1 Hb Hout. pose proof Hok as (Hsz & H1 & H2).
  pose proof (Z.mod_pos_bound offset (m_ClusterSize fs) Hsz) as Hm.
  assert (Hx : cs !! Z.to_nat (offset / m_ClusterSize fs) = Some x) by (rewrite <- (Nat.add_0_r (Z.to_nat _)), <- lookup_drop, Hdrop; reflexivity).
  destruct (SkipCluster_spec fs c cs Hc _ _ Hx) as [Hs _]. pose proof (Forall_lookup_1 _ _ _ _ Hd Hx) as Hdx.
  unfold ReadBytes. rewrite Hs. cbn [fst]. set (m := offset mod m_ClusterSize fs) in *.
  destruct (Z.ltb_spec 0 m); [|lia]. destruct (Z.ltb_spec (m_ClusterSize fs) bytes); [lia|].
  unfold ReadWriteCluster, transfer. rewrite GetClusterOffset_spec by trivial. destruct Hx1 as (H3 & H4 & H5). destruct Hdx as (H6 & _ & _).
  unfold u64. rewrite wrap_small by (unfold in_u; nia). rewrite device_Read_spec by nia. cbn [mbind option_bind].
  rewrite Z.sub_diag. unfold read_from_boundary. rewrite Z.div_0_l, Z.eqb_refl by lia. cbn [Z.mul Z.sub Z.ltb].
  do 3 f_equal. fold (extent (m_Device fs) (m_DataOffset fs + m_ClusterSize fs * (x - 2) + m) (Z.to_nat bytes)).
  unfold cluster_data. replace (m_DataOffset fs + m_ClusterSize fs * (x + 1 - 2)) with
    (m_DataOffset fs + m_ClusterSize fs * (x - 2) + Z.of_nat (Z.to_nat (m_ClusterSize fs))) by lia.
  rewrite <- extent_app, extent_drop, extent_take by lia. now rewrite Z2Nat.id by lia.
Qed.
End Chains.
