(* ===== verification/Fat32Theorems.v ===== *)
(** * FAT32: theorems

    Reading a file through its chain, the length of a chain, the free space count and the
    reassembly of long names, each with a concrete disk as witness. *)

From Stdlib Require Import ZArith Lia Bool.
From stdpp Require Import base gmap list numbers.
From S2P Require Import Prelude Posix Disk Fat32 Fat32Proofs.

Import Fat32.

Section Theorems.
Context {D : Type} {Dev : Device D}.
Implicit Types fs : Fat32Fs D.

(** What [read] of [n] bytes at [offset] may return of a file of [size] bytes. *)
Definition clamp (size offset n : Z) : Z := if size <? offset + n then Z.max 0 (size - offset) else n.

(** C12: a [read] of a FAT32 file whose chain is intact returns the bytes of the file at the
    offset, cut at the file's size: the clusters are visited in chain order and nothing
    beyond the requested bytes of the buffer is touched.  The reads covered are those that
    start at a cluster boundary, are longer than a cluster, or stay inside one cluster. *)
Theorem file_read fs node cs buffer offset bytes :
  fs_ok fs -> chain fs (m_Cluster node) cs -> Forall (data_cluster fs) cs ->
  m_Size node <= Z.of_nat (length cs) * m_ClusterSize fs -> 0 <= m_Size node ->
  0 <= offset < 2 ^ 63 -> 0 <= bytes < 2 ^ 63 -> bytes <= Z.of_nat (length buffer) ->
  handled fs offset (clamp (m_Size node) offset bytes) ->
  INode_Read fs node buffer offset bytes =
    Ret (Some (clamp (m_Size node) offset bytes),
         splice 0 (take (Z.to_nat bytes) (drop (Z.to_nat offset) (take (Z.to_nat (m_Size node)) (file_data fs cs)))) buffer).
Proof.
  intros Hok Hc Hd Hs Hs0 Ho Hb Hbuf Hh. unfold INode_Read. unfold u64. rewrite !wrap_small by (unfold in_u; lia).
  set (n := if m_Size node <? offset + bytes then if m_Size node <=? offset then 0 else m_Size node - offset else bytes).
  assert (Hn : n = clamp (m_Size node) offset bytes).
  { unfold n, clamp. destruct (Z.ltb_spec (m_Size node) (offset + bytes)), (Z.leb_spec (m_Size node) offset); lia. }
  assert (Hdata : take (Z.to_nat bytes) (drop (Z.to_nat offset) (take (Z.to_nat (m_Size node)) (file_data fs cs))) =
                  take (Z.to_nat n) (drop (Z.to_nat offset) (file_data fs cs))).
  { rewrite List.skipn_firstn_comm, Hn. unfold clamp. destruct (Z.ltb_spec (m_Size node) (offset + bytes)).
    - rewrite take_ge by (rewrite length_take; lia). f_equal. lia.
    - rewrite take_take. f_equal. lia. }
  rewrite Hdata. rewrite <- Hn in Hh |- *. unfold clamp in Hn. destruct (Z.eqb_spec n 0) as [->|Hn0]; [cbn; now rewrite splice_nil|].
  assert (0 < n <= bytes /\ offset + n <= m_Size node) by (destruct (Z.ltb_spec (m_Size node) (offset + bytes)); lia).
  rewrite (ReadBytes_spec fs _ cs) by (trivial; lia). reflexivity.
Qed.

(** A straddling read goes wrong.  A read of at most a cluster that starts inside one
    cluster and ends in the next takes its second part from the cluster that follows on
    the disk, whatever cluster the chain names next. *)
Theorem straddling_read fs node cs buffer offset bytes x rest :
  fs_ok fs -> chain fs (m_Cluster node) cs -> Forall (data_cluster fs) cs ->
  0 <= offset < 2 ^ 63 -> offset + bytes <= m_Size node -> m_Size node < 2 ^ 63 ->
  drop (Z.to_nat (offset / m_ClusterSize fs)) cs = x :: rest -> data_cluster fs (x + 1) ->
  bytes <= m_ClusterSize fs < offset mod m_ClusterSize fs + bytes -> bytes <= Z.of_nat (length buffer) ->
  INode_Read fs node buffer offset bytes =
    Ret (Some bytes,
         splice 0 (take (Z.to_nat bytes) (drop (Z.to_nat (offset mod m_ClusterSize fs))
                     (cluster_data fs x ++ cluster_data fs (x + 1)))) buffer).
Proof.
  intros Hok Hc Hd Ho Hs Hs2 Hx Hx1 Hb Hbuf. unfold INode_Read, u64.
  pose proof Hok as (Hsz & _). pose proof (Z.mod_pos_bound offset (m_ClusterSize fs) Hsz) as Hm.
  rewrite !wrap_small by (unfold in_u; lia). destruct (Z.ltb_spec (m_Size node) (offset + bytes)); [lia|].
  destruct (Z.eqb_spec bytes 0); [lia|]. rewrite (ReadBytes_straddle fs _ cs _ _ _ x rest) by (trivial; lia). reflexivity.
Qed.

(** ** The length of a chain *)
Lemma chain_size_cycle fs (cyc : Z -> Prop) :
  (forall c, cyc c -> IsFinalCluster c = false /\ cyc (GetNextCluster fs c)) ->
  forall fuel c n, cyc c -> chain_size_loop fuel fs c n = None.
Proof.
  intros Hcyc. induction fuel as [|fuel IH]; intros c n Hc; cbn [chain_size_loop]; destruct (Hcyc c Hc) as [-> Hn]; [reflexivity|now apply IH].
Qed.

(** C37: the loop of [GetChainSize] ends exactly on the chains that end: on a chain of [n]
    clusters it returns [n] after [n] steps, and on a cluster from which no end can be
    reached it runs for ever. *)
Theorem GetChainSize_terminates fs c :
  (forall cs fuel, chain fs c cs -> (length cs <= fuel)%nat -> Z.of_nat (length cs) < 2 ^ 64 ->
     GetChainSize fuel fs c = Some (Z.of_nat (length cs)))
  /\ (~ (exists cs, chain fs c cs) <-> forall fuel, GetChainSize fuel fs c = None).
Proof.
  assert (Hend : forall cs fuel, chain fs c cs -> (length cs <= fuel)%nat -> forall n, chain_size_loop fuel fs c n <> None).
  { intros cs fuel Hc. revert fuel. induction Hc as [c Hf|c cs Hf _ IH]; intros fuel Hl n; destruct fuel; cbn in *; rewrite Hf; try lia; try done.
    apply IH. lia. }
  split; [intros; unfold GetChainSize; rewrite (chain_size_loop_spec fs c cs) by (trivial; lia); reflexivity|].
  split; [|intros Hn [cs Hcs]; exact (Hend cs _ Hcs (le_n _) 0 (Hn _))]. intros Hnc fuel. unfold GetChainSize.
  apply (chain_size_cycle fs (fun c => ~ exists cs, chain fs c cs)); trivial. clear. intros c Hc.
  destruct (IsFinalCluster c) eqn:E; [destruct Hc; exists []; now constructor|]. split; trivial.
  intros [cs Hcs]. apply Hc. exists (c :: cs). now constructor.
Qed.

(** ** Counting free clusters *)
Lemma count_entry_free index value info : length info = sizeof_FsInfo ->
  length (count_entry index value info) = sizeof_FsInfo
  /\ get_field Free (count_entry index value info) = (get_field Free info + 1) mod 2 ^ 32.
Proof.
  intros Hl. unfold count_entry.
  assert (Hin : forall f, f = Free \/ f = StartAt -> forall s : list Z, length s = sizeof_FsInfo -> field_in f (length s)).
  { intros f [->| ->] s ->; now apply Nat.leb_le. }
  destruct (_ && _).
  - rewrite set_field_length, get_set_field by (apply Hin; [auto|]; rewrite set_field_length; auto).
    rewrite set_field_length, get_set_field_apart by (auto; left; now apply Nat.leb_le). auto.
  - rewrite set_field_length, get_set_field by auto. auto.
Qed.

Lemma count_sector_free n : forall index buf info, length info = sizeof_FsInfo ->
  length (count_sector index n buf info) = sizeof_FsInfo
  /\ get_field Free (count_sector index n buf info) mod 2 ^ 32 = (get_field Free info + Z.of_nat n) mod 2 ^ 32.
Proof.
  induction n as [|n IH]; intros index buf info Hl; cbn [count_sector]; [now rewrite Z.add_0_r|].
  destruct (count_entry_free index (le_word (take 4 buf)) info Hl) as [Hl' Hf].
  destruct (IH (index + 1) (drop 4 buf) _ Hl') as [Hl2 ->]. split; trivial.
  rewrite Hf, Zplus_mod_idemp_l. f_equal. lia.
Qed.

Lemma count_sectors_free fs n : let bps := get_field BytesPerSector (m_BootRecord fs) in
  forall sector info, length info = sizeof_FsInfo -> 0 <= sector -> 0 <= m_FatOffset fs -> 0 <= bps ->
  m_FatOffset fs + (sector + Z.of_nat n) * bps <= device_size (m_Device fs) ->
  exists info', count_sectors fs sector n info = Ret info' /\ length info' = sizeof_FsInfo
    /\ get_field Free info' mod 2 ^ 32 = (get_field Free info + Z.of_nat n * (bps / 4)) mod 2 ^ 32.
Proof.
  intros bps. induction n as [|n IH]; intros sector info Hl Hs Hf Hbps Hd; cbn [count_sectors].
  { exists info. split_and!; trivial. f_equal. lia. }
  fold bps. rewrite device_Read_spec by nia.
  match goal with |- context [count_sector ?a ?b ?c info] => destruct (count_sector_free b a c info Hl) as [Hl' Hfree] end.
  destruct (IH (sector + 1) _ Hl') as (info' & -> & Hl2 & Hf2); [lia|trivial|trivial|nia|].
  exists info'. split_and!; trivial. rewrite Hf2, <- Zplus_mod_idemp_l, Hfree, Zplus_mod_idemp_l. f_equal.
  pose proof (Z.div_pos bps 4). lia.
Qed.

(** The free space a FAT32 volume reports after it is counted does not depend on the
    FAT.  When the recorded count is unknown, [UpdateFsInfo] counts every entry of the
    table, free or in use, so [Stats] reports the whole table as free. *)
Theorem free_count_ignores_fat fs device :
  length (m_FsInfo fs) = sizeof_FsInfo -> get_field Free (m_FsInfo fs) = 0xffffffff ->
  0 <= m_FatOffset fs ->
  m_FatOffset fs + get_field SectorsPerFat (m_BootRecord fs) * get_field BytesPerSector (m_BootRecord fs) <= device_size (m_Device fs) ->
  0 <= get_field SectorsPerFat (m_BootRecord fs) -> 0 <= get_field BytesPerSector (m_BootRecord fs) ->
  exists fs', UpdateFsInfo fs = Ret fs' /\
    f_bfree (Stats device fs') mod 2 ^ 32 =
      get_field SectorsPerFat (m_BootRecord fs) * (get_field BytesPerSector (m_BootRecord fs) / 4) mod 2 ^ 32.
Proof.
  intros Hl Hfree Hfat Hd Hspf Hbps. unfold UpdateFsInfo. rewrite Hfree. cbn [Z.eqb Pos.eqb orb].
  assert (Hin : field_in Free (length (m_FsInfo fs))) by (rewrite Hl; now apply Nat.leb_le).
  destruct (count_sectors_free fs (Z.to_nat (get_field SectorsPerFat (m_BootRecord fs))) 0 (set_field Free 0 (m_FsInfo fs)))
    as (info & -> & _ & Hc); [now rewrite set_field_length|lia|trivial|trivial|nia|].
  eexists. split; [reflexivity|]. unfold Stats. cbn [f_bfree m_FsInfo with_device with_info].
  rewrite Hc, get_set_field by trivial. now rewrite Z2Nat.id by lia.
Qed.

(** The last two clusters of a volume cannot be read.  Data clusters are numbered from
    2, so a volume of [n] of them has clusters up to [n + 1]; the read of a whole cluster
    asserts that its number is below [n]. *)
Theorem last_clusters_panic fs buf c count :
  m_ClusterCount fs <= c -> 0 < c -> IsFinalCluster c = false -> (0 < count)%nat ->
  ReadWriteClusters fs buf 0 c count false = Panic.
Proof.
  intros Hc H0 Hf Hn. destruct count as [|count]; [lia|]. cbn [ReadWriteClusters].
  destruct (Z.eqb_spec c 0); [lia|]. rewrite Hf. destruct (Z.ltb_spec c (m_ClusterCount fs)); [lia|reflexivity].
Qed.
End Theorems.

(** ** Long file names *)

(** The entry that holds the [order]-th group of 13 characters. *)
Definition lfn_entry (order checksum : Z) (units : list Z) : list Z :=
  [order] ++ concat (le_bytes 2 <$> take 5 units) ++ [0x0f; 0; checksum] ++
  concat (le_bytes 2 <$> take 6 (drop 5 units)) ++ [0; 0] ++ concat (le_bytes 2 <$> drop 11 units).

(** A name is closed by a NUL and padded when it does not fill its last entry. *)
Definition lfn_units (name : list Z) (groups : nat) : list Z :=
  take (13 * groups) (name ++ 0 :: replicate (13 * groups) 0xffff).

Lemma lfn_units_length name groups : (length name <= 13 * groups)%nat -> length (lfn_units name groups) = (13 * groups)%nat.
Proof. intros H. unfold lfn_units. rewrite length_take, length_app. cbn [length]. rewrite length_replicate. lia. Qed.

Lemma u8_le_word2 x : u8 (le_word (le_bytes 2 x)) = u8 x.
Proof. rewrite le_word_le_bytes. unfold u8, wrap. symmetry. apply Znumtheory.Zmod_div_mod; [lia|lia|now exists 256]. Qed.

Lemma CopyLfnToString_entry order checksum units : length units = 13%nat ->
  CopyLfnToString (lfn_entry order checksum units) = u8 <$> units.
Proof.
  intros H. do 13 (destruct units as [|? units]; [discriminate|]). destruct units; [|discriminate].
  unfold CopyLfnToString, lfn_unit, get_field, lfn_entry.
  cbn [le_bytes concat app take drop fmap list_fmap seq f_offset f_size Nat.add Nat.mul].
  repeat match goal with |- context [[?a mod 256; ?a / 256 mod 256]] => change [a mod 256; a / 256 mod 256] with (le_bytes 2 a) end.
  now rewrite !u8_le_word2.
Qed.

Section LongNames.
Context {D : Type} {Dev : Device D}.
Context (view_Copy : list Z -> Z -> Z -> list Z) (dentry_Name : list Z -> list Z) (DivRoundUp : Z -> Z -> Z).
Context (fuel : nat) (fs : Fat32Fs D) (dir : list Z).
Notation scan_entries := (scan_entries view_Copy dentry_Name DivRoundUp fuel fs dir).

(** The entries of a long name from index [i] on, the last group first; [0x40] marks it. *)
Definition order_byte (groups order : nat) : Z := if (order =? groups)%nat then Z.lor 0x40 (Z.of_nat order) else Z.of_nat order.
Definition long_entries (i groups : nat) (checksum : Z) (units : list Z) : Prop :=
  forall j, (j < groups)%nat ->
    dir_entry dir (i + j) =
      lfn_entry (order_byte groups (groups - j)) checksum (take 13 (drop (13 * (groups - j - 1)) units)).

Lemma order_byte_ok groups order : (0 < order <= groups)%nat -> (groups <= 19)%nat ->
  order_byte groups order <> 0 /\ order_byte groups order <> 0xe5 /\ order_byte groups order .& 0x1f = Z.of_nat order
  /\ byte (order_byte groups order).
Proof.
  intros Ho Hg. unfold order_byte, byte. assert (Hcase : (order < 20)%nat) by lia.
  destruct order as [|order]; [lia|].
  do 19 (destruct order as [|order]; [destruct (_ =? _)%nat; repeat split; first [reflexivity|discriminate]|]). lia.
Qed.

(** One long-name entry. *)
Lemma scan_lfn_entry n i lfn buf children order checksum units k :
  dir_entry dir i = lfn_entry order checksum units -> length units = 13%nat ->
  order <> 0 -> order <> 0xe5 -> order .& 0x1f = Z.of_nat k -> (0 < k)%nat -> (k * 13 <= length buf)%nat -> byte checksum ->
  (lfn = Some checksum \/ lfn = None /\ (S (i + k) * sizeof_DirectoryEntry <= length dir)%nat
     /\ GetLfnChecksum (dir_entry dir (i + k)) = checksum) ->
  scan_entries (S n) i lfn buf children =
    scan_entries n (S i) (Some checksum) (splice ((k - 1) * 13) (u8 <$> units) buf) children.
Proof.
  intros He Hu H0 He5 Hk Hk0 Hbuf Hcs Hlfn. cbn [Fat32.scan_entries]. rewrite He.
  change (nth 0 (lfn_entry order checksum units) 0) with order.
  destruct (Z.eqb_spec order 0) as [|_]; [easy|]. destruct (Z.eqb_spec order 0xe5) as [|_]; [easy|].
  assert (Hfields : get_field Attributes (lfn_entry order checksum units) = 0x0f
    /\ get_field lfn_Order (lfn_entry order checksum units) = order
    /\ get_field lfn_Checksum (lfn_entry order checksum units) = checksum).
  { do 13 (destruct units as [|? units]; [discriminate|]). unfold get_field. cbn. lia. }
  destruct Hfields as (-> & -> & ->). change (has_attribute 0x0f eLongFileName) with true. cbv beta iota.
  rewrite Hk, CopyLfnToString_entry by trivial.
  replace (Z.to_nat ((Z.of_nat k - 1) * 13)) with ((k - 1) * 13)%nat by lia.
  destruct (Z.eqb_spec (Z.of_nat k) 0); [lia|]. destruct (Z.ltb_spec (Z.of_nat (length buf)) (Z.of_nat k * 13)); [lia|]. cbn [orb].
  destruct Hlfn as [-> | (-> & Hdir & Hsum)]; [now rewrite Z.eqb_refl|].
  rewrite Nat2Z.id, Hsum. destruct (Z.ltb_spec (Z.of_nat (length dir)) (Z.of_nat (S (i + k) * sizeof_DirectoryEntry))); [lia|reflexivity].
Qed.

(** All entries of a long name: the buffer starts with the characters. *)
Lemma scan_long_entries i groups checksum units : long_entries i groups checksum units ->
  length units = (13 * groups)%nat -> (groups <= 19)%nat -> byte checksum ->
  (S (i + groups) * sizeof_DirectoryEntry <= length dir)%nat -> GetLfnChecksum (dir_entry dir (i + groups)) = checksum ->
  forall n buf children, (13 * groups <= length buf)%nat -> forall k, (k <= groups)%nat ->
  scan_entries (k + n) (i + (groups - k)) (if (k =? groups)%nat then None else Some checksum)
      (splice (13 * k) (u8 <$> drop (13 * k) units) buf) children =
    scan_entries n (i + groups) (if (0 =? groups)%nat then None else Some checksum) (splice 0 (u8 <$> units) buf) children.
Proof.
  intros Hl Hu Hg Hcs Hdir Hsum n buf children Hbuf. induction k as [|k IH]; intros Hk; [now rewrite Nat.sub_0_r|].
  destruct (order_byte_ok groups (S k) ltac:(lia) Hg) as (Ho0 & Ho1 & Ho2 & _).
  assert (He : dir_entry dir (i + (groups - S k)) = lfn_entry (order_byte groups (S k)) checksum (take 13 (drop (13 * k) units))).
  { rewrite Hl by lia. replace (groups - (groups - S k))%nat with (S k) by lia. now replace (S k - 1)%nat with k by lia. }
  assert (Hd : u8 <$> drop (13 * k) units = (u8 <$> take 13 (drop (13 * k) units)) ++ (u8 <$> drop (13 * S k) units)).
  { replace (13 * S k)%nat with (13 * k + 13)%nat by lia. now rewrite <- fmap_app, <- drop_drop, take_drop. }
  change (S k + n)%nat with (S (k + n)).
  rewrite (scan_lfn_entry _ _ _ _ _ _ checksum _ (S k) He); trivial; try lia.
  - rewrite Nat.sub_succ, Nat.sub_0_r, splice_splice_before;
      [|rewrite length_fmap, length_take, length_drop; lia|rewrite length_fmap, length_drop; lia].
    rewrite <- Hd, Nat.mul_comm. replace (S (i + (groups - S k))) with (i + (groups - k))%nat by lia.
    rewrite <- IH by lia. destruct (Nat.eqb_spec k groups); [lia|reflexivity].
  - rewrite length_take, length_drop. lia.
  - rewrite splice_length; rewrite ?length_fmap, ?length_drop; lia.
  - replace (i + (groups - S k) + S k)%nat with (i + groups)%nat by lia. destruct (Nat.eqb_spec (S k) groups); auto.
Qed.

Lemma c_string_app_nul name l : Forall (fun c => byte c /\ c <> 0) name -> c_string (name ++ 0 :: l) = name.
Proof. induction 1 as [|c name [_ Hc] _ IH]; cbn; [reflexivity|]. destruct (Z.eqb_spec c 0); [easy|]. now rewrite IH. Qed.

(** The bytes of the characters of a name that does not fill its last entry. *)
Lemma c_string_name name groups buf : Forall (fun c => byte c /\ c <> 0) name -> (length name < 13 * groups <= length buf)%nat ->
  c_string (splice 0 (u8 <$> lfn_units name groups) buf) = name.
Proof.
  intros Hn Hl. unfold splice. cbn [take app]. unfold lfn_units. rewrite fmap_take, fmap_app.
  assert (u8 <$> name = name) as ->.
  { clear Hl. induction Hn as [|c name [Hc _] _ IH]; [reflexivity|]. cbn. rewrite IH. unfold u8. now rewrite wrap_small. }
  rewrite take_app_ge by lia. rewrite <- app_assoc.
  replace (13 * groups - length name)%nat with (S (13 * groups - length name - 1)) by lia. cbn [fmap list_fmap take app].
  change (take 0 buf ++ ?l) with l. now apply c_string_app_nul.
Qed.

(** The short entry that closes a long name: a regular file. *)
Definition file_entry (i : nat) : Prop :=
  let e := dir_entry dir i in
  nth 0 e 0 <> 0 /\ nth 0 e 0 <> 0xe5 /\ has_attribute (get_field Attributes e) eLongFileName = false
  /\ has_attribute (get_field Attributes e) eDirectory = false.

Definition file_node (i : nat) (name : list Z) : Fat32FsINode :=
  let e := dir_entry dir i in
  mkINode name (Z.lor 0x1a4 S_IFREG) (u32 (GetClusterForDirectoryEntry e)) (get_field entry_Size e) (m_ClusterSize fs)
    (DivRoundUp (get_field entry_Size e) (m_ClusterSize fs)) (Z.of_nat (i * sizeof_DirectoryEntry)) false.

Lemma volume_of_long a : has_attribute a eLongFileName = false -> has_attribute a eVolumeID = false.
Proof.
  unfold has_attribute, truthy. rewrite !negb_false_iff, !Z.eqb_eq. intros H.
  change eVolumeID with (eLongFileName .& eVolumeID). now rewrite Z.land_assoc, H.
Qed.

Lemma scan_file_entry n i checksum buf children : file_entry i ->
  c_string buf <> [0x2e] -> c_string buf <> [0x2e; 0x2e] -> (length (dentry_Name buf) <= 255)%nat ->
  scan_entries (S n) i (Some checksum) buf children =
    scan_entries n (S i) None buf (children ++ [file_node i (dentry_Name buf)]).
Proof.
  intros (H0 & He5 & Hl & Hd) Hdot Hdots Hlen. cbn [Fat32.scan_entries].
  destruct (Z.eqb_spec (nth 0 (dir_entry dir i) 0) 0) as [|_]; [easy|].
  destruct (Z.eqb_spec (nth 0 (dir_entry dir i) 0) 0xe5) as [|_]; [easy|].
  rewrite Hl, (volume_of_long _ Hl), !bool_decide_eq_false_2 by trivial. cbn [orb].
  unfold entry_node, CreateNode. rewrite Hd.
  destruct (Z.ltb_spec 255 (Z.of_nat (length (dentry_Name buf)))); [lia|].
  change (S_ISREG (Z.lor 0x1a4 S_IFREG)) with true. change (S_ISDIR (Z.lor 0x1a4 S_IFREG)) with false. reflexivity.
Qed.

(** A long file name is put back together.  A name of fewer than [13 * groups]
    characters, split over [groups] entries in the order the disk has them (the last group
    first) with the checksum of the short entry that follows, makes the scan of the
    directory add one file whose name is read from a buffer that holds exactly that name,
    with the cluster, size and place of the short entry. *)
Theorem long_name_reassembled i groups checksum name n buf children :
  long_entries i groups checksum (lfn_units name groups) -> (0 < groups <= 19)%nat -> byte checksum ->
  (S (i + groups) * sizeof_DirectoryEntry <= length dir)%nat -> GetLfnChecksum (dir_entry dir (i + groups)) = checksum ->
  file_entry (i + groups) -> length buf = 256%nat ->
  Forall (fun c => byte c /\ c <> 0) name -> (length name < 13 * groups)%nat -> name <> [0x2e] -> name <> [0x2e; 0x2e] ->
  (forall b, c_string b = name -> (length (dentry_Name b) <= 255)%nat) ->
  exists buf', c_string buf' = name /\ length buf' = 256%nat /\
    scan_entries (groups + S n) i None buf children =
      scan_entries n (S (i + groups)) None buf' (children ++ [file_node (i + groups) (dentry_Name buf')]).
Proof.
  intros Hl Hg Hcs Hdir Hsum Hfile Hbuf Hname Hlen Hdot Hdots Hd.
  assert (Hu : length (lfn_units name groups) = (13 * groups)%nat) by (apply lfn_units_length; lia).
  pose proof (c_string_name name groups buf Hname ltac:(lia)) as Hc.
  exists (splice 0 (u8 <$> lfn_units name groups) buf). split_and!; trivial.
  { rewrite splice_length; rewrite ?length_fmap, ?Hu; lia. }
  pose proof (scan_long_entries i groups checksum _ Hl Hu ltac:(lia) Hcs Hdir Hsum (S n) buf children ltac:(lia) groups (le_n _)) as H.
  rewrite Nat.sub_diag, Nat.add_0_r, Nat.eqb_refl, (drop_ge (lfn_units name groups)) in H by lia. rewrite splice_nil in H.
  rewrite H. destruct (Nat.eqb_spec 0 groups); [lia|]. apply scan_file_entry; rewrite ?Hc; auto.
Qed.
End LongNames.

(** ** A concrete volume *)
(** Clusters of 4 bytes; the file 2, 5, 3. *)
Definition example_disk : MemDisk :=
  mkMemDisk (store [(8, le_bytes 4 5); (20, le_bytes 4 3); (12, le_bytes 4 0xfffffff);
                    (64, [10; 11; 12; 13]); (68, [30; 31; 32; 33]); (76, [20; 21; 22; 23])]) 104.
Definition example_record : list Z := set_field BytesPerSector 16 (set_field SectorsPerFat 4 (replicate 90 0)).
Definition example_info : list Z := set_field Free 0xffffffff (replicate 28 0).
Definition example_fs : Fat32Fs MemDisk := mkFat32Fs example_disk example_record example_info 4 10 0 64.
Definition example_node : Fat32FsINode := mkINode [] 0 2 11 4 3 0 false.

Lemma example_chain : chain example_fs 2 [2; 5; 3].
Proof. repeat (apply chain_link; [reflexivity|]). now apply chain_end. Qed.
Lemma example_volume_ok : fs_ok example_fs.
Proof. split_and!; cbn; lia. Qed.
Lemma example_data : Forall (data_cluster example_fs) [2; 5; 3].
Proof. repeat (apply list.Forall_cons; split); try apply list.Forall_nil; by_computation. Qed.

Lemma file_read_witness :
  INode_Read example_fs example_node (replicate 12 0) 3 12 = Ret (Some 8, [13; 20; 21; 22; 23; 30; 31; 32; 0; 0; 0; 0]).
Proof.
  rewrite (file_read example_fs example_node [2; 5; 3] (replicate 12 0) 3 12 example_volume_ok example_chain example_data);
    [reflexivity|by_computation..|].
  right. left. by_computation.
Defined.

Lemma straddling_read_witness :
  INode_Read example_fs example_node (replicate 4 0) 6 3 = Ret (Some 3, [22; 23; 0; 0]).
Proof.
  rewrite (straddling_read example_fs example_node [2; 5; 3] (replicate 4 0) 6 3 5 [3] example_volume_ok example_chain example_data);
    [reflexivity|by_computation..].
Defined.

Lemma GetChainSize_terminates_witness :
  GetChainSize 3 example_fs 2 = Some 3 /\ forall fuel, GetChainSize fuel example_fs 8 = None.
Proof.
  split; [apply (proj1 (GetChainSize_terminates example_fs 2) [2; 5; 3] 3%nat example_chain); by_computation|].
  apply (proj2 (GetChainSize_terminates example_fs 8)). intros [cs H].
  assert (Hz : GetNextCluster example_fs 8 = 0) by reflexivity. assert (Hz' : GetNextCluster example_fs 0 = 0) by reflexivity.
  inversion H as [c Hc|c cs' _ H' ]; [discriminate|]. rewrite Hz in H'. remember 0 as z eqn:Ez in H'.
  clear -H' Ez Hz'. induction H' as [c Hc|c cs _ _ IH]; subst; [discriminate|]. now apply IH.
Defined.

Lemma free_count_ignores_fat_witness :
  exists fs', UpdateFsInfo example_fs = Ret fs' /\ f_bfree (Stats 0 fs') mod 2 ^ 32 = 4 * (16 / 4) mod 2 ^ 32.
Proof. destruct (free_count_ignores_fat example_fs 0) as (fs' & H); [by_computation..|]. exists fs'. exact H. Defined.

Lemma last_clusters_panic_witness : ReadWriteClusters example_fs (replicate 4 0) 0 11 1 false = Panic.
Proof. apply (last_clusters_panic example_fs (replicate 4 0) 11 1); first [lia|by_computation]. Defined.

(** A directory with the long name "a long name.txt", its short entry and a read-only file. *)
Definition example_name : list Z := [97; 32; 108; 111; 110; 103; 32; 110; 97; 109; 101; 46; 116; 120; 116].
Definition short_entry (name : list Z) (attributes cluster size : Z) : list Z :=
  name ++ set_field (mkField 0 1) attributes (set_field (mkField 15 2) cluster (set_field (mkField 17 4) size (replicate 21 0))).
Definition example_short : list Z := short_entry [65; 76; 79; 78; 71; 78; 126; 49; 84; 88; 84] 0x20 5 11.
Definition example_dir : list Z :=
  lfn_entry 0x42 (GetLfnChecksum example_short) (take 13 (drop 13 (lfn_units example_name 2))) ++
  lfn_entry 0x01 (GetLfnChecksum example_short) (take 13 (lfn_units example_name 2)) ++ example_short ++ replicate 32 0.
(** The bytes [Copy] takes from a view: none from a position past its end. *)
Definition view_Copy_ref (v : list Z) (count pos : Z) : list Z := take (Z.to_nat count) (drop (Z.to_nat pos) v).
Definition DivRoundUp_ref (x d : Z) : Z := (x + d - 1) / d.

Lemma c_string_length b : (length (c_string b) <= length b)%nat.
Proof. induction b as [|c b IH]; cbn; [lia|]. destruct (c =? 0); cbn; lia. Qed.

Lemma long_name_reassembled_witness :
  exists buf', c_string buf' = example_name /\
    scan_entries view_Copy_ref c_string DivRoundUp_ref 0 example_fs example_dir 4 0 None (replicate 256 0) [] =
      Populated [mkINode (c_string buf') 0x81a4 5 11 4 3 64 false].
Proof.
  destruct (long_name_reassembled view_Copy_ref c_string DivRoundUp_ref 0 example_fs example_dir 0 2 (GetLfnChecksum example_short)
    example_name 1 (replicate 256 0) []) as (buf' & Hn & _ & H).
  - intros j Hj. destruct j as [|[|j]]; [reflexivity|reflexivity|lia].
  - lia.
  - by_computation.
  - now apply Nat.leb_le.
  - reflexivity.
  - by_computation.
  - reflexivity.
  - repeat constructor; by_computation.
  - now apply Nat.leb_le.
  - discriminate.
  - discriminate.
  - intros b ->. now apply Nat.leb_le.
  - exists buf'. split; [exact Hn|exact H].
Defined.

(** A read-only file is taken for a piece of a long name, and does not appear. *)
Lemma read_only_file_skipped :
  scan_entries view_Copy_ref c_string DivRoundUp_ref 0 example_fs
    (short_entry [82; 69; 65; 68; 77; 69; 32; 32; 84; 88; 84] 0x21 5 11 ++ replicate 1024 0) 33 0 None (replicate 256 0) [] = Populated [].
Proof. reflexivity. Qed.

(** The name buffer is not cleared: after "LONGNAME", the file "A" is called "AONGNAME". *)
Lemma stale_short_name :
  exists first second, scan_entries view_Copy_ref c_string DivRoundUp_ref 0 example_fs
    (short_entry [76; 79; 78; 71; 78; 65; 77; 69; 32; 32; 32] 0x20 5 11 ++
     short_entry [65; 32; 32; 32; 32; 32; 32; 32; 32; 32; 32] 0x20 3 4 ++ replicate 32 0) 3 0 None (replicate 256 0) []
      = Populated [first; second]
    /\ node_name second = [65; 79; 78; 71; 78; 65; 77; 69].
Proof. eexists _, _. split; reflexivity. Qed.
