(* ===== verification/Ext2.v ===== *)
(** * ext2

    [VFS/Ext2Fs]: block group descriptors, inodes, the map from the blocks of a file to
    blocks of the disk, allocation in the bitmaps, reading and writing files.  The
    superblock, the descriptors and the inodes are byte lists with fields ([Disk]). *)

From Stdlib Require Import ZArith Lia Bool.
From stdpp Require Import base gmap list numbers.
From S2P Require Import Prelude Disk.

(** ** A bitmap over raw bytes ([Prism/Containers/Bitmap.hpp])

    [Raw()] is the storage that is read from and written to the disk; bit [i] lives in
    byte [i / 8]. *)
Class RawBitmap := {
  raw_Get : list Z -> Z -> bool;
  raw_Set : list Z -> Z -> bool -> list Z;
  raw_Set_length b i v : length (raw_Set b i v) = length b;
  raw_Set_bytes b i v : Forall byte b -> Forall byte (raw_Set b i v);
  raw_Get_Set b i v j : Forall byte b -> 0 <= i < 8 * Z.of_nat (length b) -> 0 <= j ->
    raw_Get (raw_Set b i v) j = if i =? j then v else raw_Get b j;
  raw_Get_full b i : 0 <= i -> b !! Z.to_nat (i / 8) = Some 0xff -> raw_Get b i = true
}.

Module Ext2.

(** ** [Ext2FsStructures.hpp] *)
Definition sb_BlockCount := mkField 4 4.
Definition sb_FreeBlockCount := mkField 12 4.
Definition sb_FreeINodeCount := mkField 16 4.
Definition sb_BlockSize := mkField 24 4.
Definition sb_BlocksPerGroup := mkField 32 4.
Definition sb_INodesPerGroup := mkField 40 4.
Definition sb_LastMountTime := mkField 44 4.
Definition sb_Signature := mkField 56 2.
Definition sb_VersionMajor := mkField 76 4.
Definition sb_FirstNonReservedINode := mkField 84 4.
Definition sb_INodeStructureSize := mkField 88 2.
Definition sizeof_SuperBlock : nat := 236.

Definition BlockUsageBitmapAddress := mkField 0 4.
Definition INodeUsageBitmapAddress := mkField 4 4.
Definition INodeTableAddress := mkField 8 4.
Definition FreeBlockCount := mkField 12 2.
Definition FreeINodeCount := mkField 14 2.
Definition DirectoryCount := mkField 16 2.
Definition sizeof_BlockGroupDescriptor : nat := 32.

Definition Permissions := mkField 0 2.
Definition UID := mkField 2 2.
Definition SizeLow := mkField 4 4.
Definition AccessTime := mkField 8 4.
Definition GID := mkField 24 2.
Definition HardLinkCount := mkField 26 2.
Definition SectorCount := mkField 28 4.
Definition Blocks (i : Z) : Field := mkField (40 + 4 * Z.to_nat i) 4.
Definition SizeHigh := mkField 108 4.
Definition sizeof_INodeMeta : nat := 128.

Definition GetSize (meta : list Z) : Z := get_field SizeLow meta .| (get_field SizeHigh meta .<< 32).
Definition SetSize (meta : list Z) (size : Z) : list Z := set_field SizeHigh (size .>> 32) (set_field SizeLow size meta).

Section Ext2.
Context {D : Type} {Dev : Device D} {Bits : RawBitmap}.

(** What an uninitialised structure on the stack holds. *)
Context (uninitialised : list Z).

Record Ext2Fs := mkExt2Fs {
  m_Device : D;
  st_blksize : Z;
  m_SuperBlock : list Z;
  m_BlockSize : Z;
  (** of the allocator *)
  m_BlockGroupCount : Z;
  m_BlocksPerGroup : Z
}.
Definition with_device (d : D) (fs : Ext2Fs) : Ext2Fs :=
  mkExt2Fs d (st_blksize fs) (m_SuperBlock fs) (m_BlockSize fs) (m_BlockGroupCount fs) (m_BlocksPerGroup fs).
Definition with_super (s : list Z) (fs : Ext2Fs) : Ext2Fs :=
  mkExt2Fs (m_Device fs) (st_blksize fs) s (m_BlockSize fs) (m_BlockGroupCount fs) (m_BlocksPerGroup fs).

Definition dev_write (fs : Ext2Fs) (off : Z) (bs : list Z) : Ext2Fs := with_device (device_Write (m_Device fs) off bs) fs.
Definition dev_read (fs : Ext2Fs) (off : Z) (n : nat) (old : list Z) : list Z :=
  match device_Read (m_Device fs) off n with Some bs => bs | None => old end.

(** ** Superblock, descriptors, inode table *)
Definition ReadSuperBlock (fs : Ext2Fs) : Ext2Fs := with_super (dev_read fs 1024 sizeof_SuperBlock (m_SuperBlock fs)) fs.
Definition FlushSuperBlock (fs : Ext2Fs) : Ext2Fs := dev_write fs 1024 (m_SuperBlock fs).

Definition descriptor_offset (fs : Ext2Fs) (index : Z) : Z :=
  (if 2048 <=? m_BlockSize fs then m_BlockSize fs else m_BlockSize fs * 2) + 32 * index.
Definition ReadBlockGroupDescriptor (fs : Ext2Fs) (old : list Z) (index : Z) : list Z :=
  dev_read fs (descriptor_offset fs index) sizeof_BlockGroupDescriptor old.
Definition WriteBlockGroupDescriptor (fs : Ext2Fs) (g : list Z) (index : Z) : Ext2Fs :=
  dev_write fs (descriptor_offset fs index) g.

(** Where inode [index] is stored. *)
Definition inode_offset (fs : Ext2Fs) (index : Z) : Z :=
  let tableIndex := u32 (index - 1) mod get_field sb_INodesPerGroup (m_SuperBlock fs) in
  let blockGroupIndex := u32 (index - 1) / get_field sb_INodesPerGroup (m_SuperBlock fs) in
  let blockGroup := ReadBlockGroupDescriptor fs uninitialised blockGroupIndex in
  get_field INodeTableAddress blockGroup * m_BlockSize fs + get_field sb_INodeStructureSize (m_SuperBlock fs) * tableIndex.
Definition ReadINodeEntry (fs : Ext2Fs) (old : list Z) (index : Z) : list Z :=
  dev_read fs (inode_offset fs index) sizeof_INodeMeta old.
Definition WriteINodeEntry (fs : Ext2Fs) (meta : list Z) (index : Z) : Ext2Fs := dev_write fs (inode_offset fs index) meta.

(** ** [Ext2FsAllocator] *)
Definition Allocator_Initialize (fs : Ext2Fs) : Ext2Fs :=
  mkExt2Fs (m_Device fs) (st_blksize fs) (m_SuperBlock fs) (m_BlockSize fs)
    (get_field sb_BlockCount (m_SuperBlock fs) / get_field sb_BlocksPerGroup (m_SuperBlock fs))
    (get_field sb_BlocksPerGroup (m_SuperBlock fs)).

Definition zeroed_descriptor : list Z := replicate sizeof_BlockGroupDescriptor 0.

(** [for (groupIndex = 1; ...)]; 0 when no group has a free block. *)
Fixpoint find_group (fs : Ext2Fs) (groups : list Z) : Z :=
  match groups with
  | [] => 0
  | g :: groups =>
      if 0 <? get_field FreeBlockCount (ReadBlockGroupDescriptor fs zeroed_descriptor g) then g else find_group fs groups
  end.
Definition LocateFreeGroup (fs : Ext2Fs) : Z := find_group fs (seqZ 1 (m_BlockGroupCount fs - 1)).

(** The first clear bit among [bits]. *)
Fixpoint first_clear (bitmap : list Z) (bits : list Z) : option Z :=
  match bits with
  | [] => None
  | i :: bits => if raw_Get bitmap i then first_clear bitmap bits else Some i
  end.

(** [Ext2FsAllocator::AllocateBlock]; a found block number 0 counts as none.  The buffer of the
    bitmap lives for the call only: its allocation and release are left out, as is the read back of
    what was just written, whose result is not used. *)
Definition Allocator_AllocateBlock (fs : Ext2Fs) : Ext2Fs * Z :=
  let blockGroupIndex := LocateFreeGroup fs in
  if blockGroupIndex =? 0 then (fs, 0)
  else
    let blockGroup := ReadBlockGroupDescriptor fs zeroed_descriptor blockGroupIndex in
    let address := get_field BlockUsageBitmapAddress blockGroup * m_BlockSize fs in
    let bitmap := dev_read fs address (Z.to_nat (m_BlockSize fs)) (replicate (Z.to_nat (m_BlockSize fs)) 0xff) in
    let found := first_clear bitmap (seqZ 0 (m_BlockSize fs * 8)) in
    let foundBlock := match found with Some b => blockGroupIndex * m_BlocksPerGroup fs + b | None => 0 end in
    if foundBlock =? 0 then (WriteBlockGroupDescriptor fs (set_field FreeBlockCount 0 blockGroup) blockGroupIndex, 0)
    else
      let fs := dev_write fs address (raw_Set bitmap (default 0 found) true) in
      let blockGroup := set_field FreeBlockCount (get_field FreeBlockCount blockGroup - 1) blockGroup in
      (WriteBlockGroupDescriptor fs blockGroup blockGroupIndex, foundBlock).

(** The scan of one byte of the inode bitmap: the last free inode seen, the bitmap, and
    whether the loop was left. *)
Fixpoint scan_bits (fs : Ext2Fs) (group : Z) (bits : list Z) (inode : Z) (bitmap : list Z) : Z * list Z :=
  match bits with
  | [] => (inode, bitmap)
  | i :: bits =>
      if raw_Get bitmap i then scan_bits fs group bits inode bitmap
      else
        let inode := group * get_field sb_INodesPerGroup (m_SuperBlock fs) + i + 1 in
        if (get_field sb_FirstNonReservedINode (m_SuperBlock fs) <? inode) && (11 <? inode)
        then (inode, raw_Set bitmap i true)
        else scan_bits fs group bits inode bitmap
  end.
Fixpoint scan_bytes (fs : Ext2Fs) (group : Z) (bytes : list Z) (bitmap : list Z) : Z * list Z :=
  match bytes with
  | [] => (0, bitmap)
  | k :: bytes =>
      if nth (Z.to_nat k) bitmap 0 =? 0xff then scan_bytes fs group bytes bitmap
      else
        let '(inode, bitmap) := scan_bits fs group (seqZ (k * 8) 8) 0 bitmap in
        if inode =? 0 then scan_bytes fs group bytes bitmap else (inode, bitmap)
  end.
Definition AllocateINodeInGroup (fs : Ext2Fs) (group : Z) (blockGroup : list Z) : Ext2Fs * Z :=
  let address := get_field INodeUsageBitmapAddress blockGroup * m_BlockSize fs in
  let bitmap := dev_read fs address (Z.to_nat (m_BlockSize fs)) uninitialised in
  let '(inode, bitmap) := scan_bytes fs group (seqZ 0 (m_BlockSize fs)) bitmap in
  if inode =? 0 then (fs, 0) else (dev_write fs address bitmap, inode).

Fixpoint allocate_inode (fs : Ext2Fs) (groups : list Z) : Ext2Fs * Z :=
  match groups with
  | [] => (fs, 0)
  | i :: groups =>
      let blockGroup := ReadBlockGroupDescriptor fs zeroed_descriptor i in
      if get_field FreeBlockCount blockGroup <=? 0 then allocate_inode fs groups
      else
        let '(fs, inode) := AllocateINodeInGroup fs i blockGroup in
        if inode =? 0 then allocate_inode fs groups
        else
          let blockGroup := set_field FreeINodeCount (get_field FreeINodeCount blockGroup - 1) blockGroup in
          let super := m_SuperBlock fs in
          let fs := with_super (set_field sb_FreeINodeCount (get_field sb_FreeINodeCount super - 1) super) fs in
          let fs := WriteBlockGroupDescriptor fs blockGroup i in
          (dev_write fs 1024 (m_SuperBlock fs), inode)
  end.
Definition AllocateINode (fs : Ext2Fs) : Ext2Fs * Z :=
  allocate_inode fs (seqZ 0 (get_field sb_BlockCount (m_SuperBlock fs))).

(** ** Allocation and release of the file system *)
Definition AllocateBlock (fs : Ext2Fs) (meta : list Z) (inode : Z) : Ext2Fs * list Z * Z :=
  let '(fs, allocatedBlock) := Allocator_AllocateBlock fs in
  if allocatedBlock =? 0 then (fs, meta, 0)
  else
    let meta := set_field SectorCount (get_field SectorCount meta + m_BlockSize fs / st_blksize fs) meta in
    let fs := WriteINodeEntry fs meta inode in
    let super := m_SuperBlock fs in
    let fs := with_super (set_field sb_FreeBlockCount (get_field sb_FreeBlockCount super - 1) super) fs in
    (FlushSuperBlock fs, meta, allocatedBlock).

Definition FreeBlock (fs : Ext2Fs) (block : Z) : Ext2Fs :=
  let bpg := get_field sb_BlocksPerGroup (m_SuperBlock fs) in
  let blockGroupIndex := block / bpg in
  let blockGroup := ReadBlockGroupDescriptor fs uninitialised blockGroupIndex in
  let address := get_field BlockUsageBitmapAddress blockGroup * m_BlockSize fs in
  let bitmap := dev_read fs address (Z.to_nat (m_BlockSize fs)) uninitialised in
  let fs := dev_write fs address (raw_Set bitmap (block mod bpg) false) in
  let blockGroup := set_field FreeBlockCount (get_field FreeBlockCount blockGroup + 1) blockGroup in
  let super := m_SuperBlock fs in
  let fs := with_super (set_field sb_FreeBlockCount (get_field sb_FreeBlockCount super + 1) super) fs in
  FlushSuperBlock (WriteBlockGroupDescriptor fs blockGroup blockGroupIndex).

Definition FreeINode (fs : Ext2Fs) (id : Z) : Ext2Fs :=
  let id := id - 1 in
  let ipg := get_field sb_INodesPerGroup (m_SuperBlock fs) in
  let blockGroupIndex := id / ipg in
  let blockGroup := ReadBlockGroupDescriptor fs uninitialised blockGroupIndex in
  let address := get_field INodeUsageBitmapAddress blockGroup * m_BlockSize fs in
  let bitmap := dev_read fs address (Z.to_nat (m_BlockSize fs)) uninitialised in
  let fs := dev_write fs address (raw_Set bitmap (id mod ipg) false) in
  let blockGroup := set_field FreeINodeCount (get_field FreeINodeCount blockGroup + 1) blockGroup in
  let super := m_SuperBlock fs in
  let fs := with_super (set_field sb_FreeINodeCount (get_field sb_FreeINodeCount super + 1) super) fs in
  FlushSuperBlock (WriteBlockGroupDescriptor fs blockGroup blockGroupIndex).
(** ** The blocks of a file *)
Definition blockLevel (fs : Ext2Fs) : Z := u32 (m_BlockSize fs / 4).
Definition block_of (meta : list Z) (i : Z) : Z := get_field (Blocks i) meta.

(** A pointer stored in an indirect block. *)
Definition pointer_offset (fs : Ext2Fs) (block index : Z) : Z := u64 (block * m_BlockSize fs + index * 4).
Definition read_pointer (fs : Ext2Fs) (off : Z) : Z := read_u32 (m_Device fs) off 0.
Definition write_pointer (fs : Ext2Fs) (off x : Z) : Ext2Fs := with_device (write_u32 (m_Device fs) off x) fs.

Definition GetINodeBlock (fs : Ext2Fs) (meta : list Z) (blockIndex : Z) : Z :=
  let level := blockLevel fs in
  if blockIndex <? 12 then block_of meta blockIndex
  else
    let blockIndex := blockIndex - 12 in
    if level <=? blockIndex then
      let blockIndex := blockIndex - level in
      let singleIndex := blockIndex / level in
      let indirectOffset := blockIndex mod level in
      if level <=? singleIndex then
        let blockIndex := u32 (blockIndex - u32 (level * level)) in
        let doubleIndirect := blockIndex / level in
        let indirectOffset := blockIndex mod level in
        let singleIndirectIndex := read_pointer fs (pointer_offset fs (block_of meta 14) doubleIndirect) in
        let indirectBlock := read_pointer fs (u64 (doubleIndirect * m_BlockSize fs + u32 (singleIndirectIndex * 4))) in
        read_pointer fs (pointer_offset fs indirectBlock indirectOffset)
      else
        let indirectBlock := read_pointer fs (pointer_offset fs (block_of meta 13) singleIndex) in
        read_pointer fs (pointer_offset fs indirectBlock indirectOffset)
    else read_pointer fs (pointer_offset fs (block_of meta 12) blockIndex).

(** [if (meta.Blocks[i] == 0) { meta.Blocks[i] = AllocateBlock(...); WriteINodeEntry(...); }]:
    [AllocateBlock] updates [meta] before the entry is assigned. *)
Definition ensure_block (fs : Ext2Fs) (meta : list Z) (inode i : Z) : Ext2Fs * list Z :=
  if block_of meta i =? 0 then
    let '(fs, meta, b) := AllocateBlock fs meta inode in
    let meta := set_field (Blocks i) b meta in
    (WriteINodeEntry fs meta inode, meta)
  else (fs, meta).

(** [if (pointer == 0) { pointer = AllocateBlock(...); Write(&pointer, off) }] *)
Definition ensure_pointer (fs : Ext2Fs) (meta : list Z) (inode off : Z) : Ext2Fs * list Z * Z :=
  let indirect := read_pointer fs off in
  if indirect =? 0 then
    let '(fs, meta, b) := AllocateBlock fs meta inode in
    (write_pointer fs off b, meta, u32 b)
  else (fs, meta, indirect).

(** The branch for blocks behind the triple indirect block, as it is written: the second
    pointer is looked up at [doubleIndirect * m_BlockSize], a fresh one is written as 0,
    and the last offset is a product. *)
Definition set_triple (fs : Ext2Fs) (meta : list Z) (inode iblock dblock : Z) : Ext2Fs * list Z :=
  let level := blockLevel fs in
  let doubleIndirect := iblock / level in
  let indirectOffset := iblock mod level in
  let '(fs, meta) := ensure_block fs meta inode 14 in
  let '(fs, meta, singleIndirectIndex) := ensure_pointer fs meta inode (pointer_offset fs (block_of meta 14) doubleIndirect) in
  let off := u64 (doubleIndirect * m_BlockSize fs + u32 (singleIndirectIndex * 4)) in
  let indirectBlock := read_pointer fs off in
  let '(fs, meta, indirectBlock) :=
    if indirectBlock =? 0 then
      let '(fs, meta, newBlock) := AllocateBlock fs meta inode in
      (write_pointer fs off 0, meta, u32 newBlock)
    else (fs, meta, indirectBlock) in
  (write_pointer fs (u64 (indirectBlock * m_BlockSize fs * indirectOffset * 4)) dblock, meta).

Definition SetINodeBlock (fs : Ext2Fs) (meta : list Z) (inode iblock dblock : Z) : Ext2Fs * list Z :=
  let level := blockLevel fs in
  if iblock <? 12 then (fs, set_field (Blocks iblock) dblock meta)
  else
    let iblock := iblock - 12 in
    if level <=? iblock then
      let iblock := iblock - level in
      let singleIndex := iblock / level in
      let indirectOffset := iblock mod level in
      if level <=? singleIndex then set_triple fs meta inode (u32 (iblock - u32 (level * level))) dblock
      else
        let '(fs, meta) := ensure_block fs meta inode 13 in
        let '(fs, meta, indirectBlock) := ensure_pointer fs meta inode (pointer_offset fs (block_of meta 13) singleIndex) in
        (write_pointer fs (pointer_offset fs indirectBlock indirectOffset) dblock, meta)
    else
      let '(fs, meta) := ensure_block fs meta inode 12 in
      (write_pointer fs (pointer_offset fs (block_of meta 12) iblock) dblock, meta).

Definition assign_block (inode : Z) (s : Ext2Fs * list Z) (i : Z) : Ext2Fs * list Z :=
  let '(fs, meta) := s in
  if truthy (GetINodeBlock fs meta (u32 i)) then (fs, meta)
  else
    let '(fs, meta, dblock) := AllocateBlock fs meta inode in
    SetINodeBlock fs meta inode (u32 i) (u32 dblock).
Definition AssignINodeBlocks (fs : Ext2Fs) (meta : list Z) (inode start blocks : Z) : Ext2Fs * list Z :=
  let '(fs, meta) := foldl (assign_block inode) (fs, meta) (seqZ start blocks) in
  (WriteINodeEntry fs meta inode, meta).

Definition GrowINode (fs : Ext2Fs) (meta : list Z) (inode start count : Z) : Ext2Fs * list Z :=
  let blockOffset := start / m_BlockSize fs in
  let blockCount := u64 (count + m_BlockSize fs - 1) / m_BlockSize fs in
  AssignINodeBlocks fs meta inode blockOffset blockCount.

(** ** Reading and writing a file *)
(** [for (head = 0; head < bytes;)]: the variable [offset] is overwritten in the loop.
    Every round transfers at least one byte, so [bytes] rounds are enough. *)
Fixpoint read_loop (fuel : nat) (fs : Ext2Fs) (meta : list Z) (out : list Z) (offset head bytes : Z) : list Z :=
  match fuel with
  | O => out
  | S fuel =>
      if head <? bytes then
        let blockIndex := u64 (offset + head) / m_BlockSize fs in
        let offset := u64 (offset + head) mod m_BlockSize fs in
        let size := Z.min (bytes - head) (m_BlockSize fs - offset) in
        let block := GetINodeBlock fs meta (u32 blockIndex) in
        let out :=
          match device_Read (m_Device fs) (u64 (block * m_BlockSize fs + offset)) (Z.to_nat size) with
          | Some bs => splice (Z.to_nat head) bs out
          | None => out
          end in
        read_loop fuel fs meta out offset (head + size) bytes
      else out
  end.
Definition ReadINode (fs : Ext2Fs) (meta : list Z) (out : list Z) (offset bytes : Z) : list Z * Z :=
  if GetSize meta <? offset then (out, 0)
  else
    let bytes := if GetSize meta <? u64 (offset + bytes) then GetSize meta - offset else bytes in
    (read_loop (Z.to_nat bytes) fs meta out offset 0 bytes, bytes).

Fixpoint write_loop (fuel : nat) (fs : Ext2Fs) (meta : list Z) (inp : list Z) (offset head count : Z) : Ext2Fs :=
  match fuel with
  | O => fs
  | S fuel =>
      if head <? count then
        let iblock := u64 (offset + head) / m_BlockSize fs in
        let subOffset := u64 (offset + head) mod m_BlockSize fs in
        let size := Z.min (count - head) (m_BlockSize fs - subOffset) in
        let dblock := GetINodeBlock fs meta (u32 iblock) in
        let fs := dev_write fs (u64 (dblock * m_BlockSize fs + subOffset)) (take (Z.to_nat size) (drop (Z.to_nat head) inp)) in
        write_loop fuel fs meta inp offset (head + size) count
      else fs
  end.
Definition WriteINode (fs : Ext2Fs) (meta : list Z) (inp : list Z) (inode offset count : Z) : Ext2Fs * list Z * Z :=
  let '(fs, meta) := GrowINode fs meta inode offset count in
  let '(fs, meta) :=
    if GetSize meta <? u64 (offset + count) then
      let meta := SetSize meta (u64 (offset + count)) in (WriteINodeEntry fs meta inode, meta)
    else (fs, meta) in
  (write_loop (Z.to_nat count) fs meta inp offset 0 count, meta, count).
End Ext2.
Arguments Ext2Fs : clear implicits.
End Ext2.
