(* ===== verification/Ext2Proofs.v ===== *)
(** * ext2: the block map, reading and writing

    The abstract file is a map from block numbers of the file to blocks of the disk; the
    lemmas relate the indirect blocks to it. *)

From Stdlib Require Import ZArith Lia Bool.
From stdpp Require Import base gmap list numbers.
From S2P Require Import Prelude Disk Ext2.

Import Ext2.

Section BlockMap.
Context {D : Type} {Dev : Device D} {Bits : RawBitmap} (uninit : list Z).
Implicit Types fs : Ext2Fs D.

Definition fs_ok fs : Prop :=
  m_BlockSize fs = 4 * blockLevel fs /\ 0 < blockLevel fs < 2 ^ 16 /\ device_size (m_Device fs) <= 2 ^ 63.
(** Block [b] lies on the device. *)
Definition block_in fs (b : Z) : Prop := 0 <= b < 2 ^ 32 /\ (b + 1) * m_BlockSize fs <= device_size (m_Device fs).

Lemma fs_ok_write fs off bs : fs_ok fs -> fs_ok (dev_write fs off bs).
Proof. unfold fs_ok, dev_write. cbn. now rewrite device_Write_size. Qed.
Lemma block_in_write fs off bs b : block_in (dev_write fs off bs) b <-> block_in fs b.
Proof. unfold block_in, dev_write. cbn. now rewrite device_Write_size. Qed.

(** ** Pointers in indirect blocks *)
Lemma pointer_offset_spec fs b i : fs_ok fs -> block_in fs b -> 0 <= i < blockLevel fs ->
  pointer_offset fs b i = b * m_BlockSize fs + i * 4 /\ in_device (m_Device fs) (b * m_BlockSize fs + i * 4) 4.
Proof.
  intros (HB & HL & HD) (Hb & Hd) Hi. unfold pointer_offset, u64. assert (0 <= b * m_BlockSize fs) by nia.
  rewrite wrap_small by (unfold in_u; nia). split; [reflexivity|]. unfold in_device. nia.
Qed.

Lemma pointers_apart fs b i b' i' : fs_ok fs -> 0 <= i < blockLevel fs -> 0 <= i' < blockLevel fs -> (b, i) <> (b', i') ->
  b' * m_BlockSize fs + i' * 4 + 4 <= b * m_BlockSize fs + i * 4 \/ b * m_BlockSize fs + i * 4 + 4 <= b' * m_BlockSize fs + i' * 4.
Proof.
  intros (HB & HL & _) Hi Hi' Hne. destruct (Z.lt_trichotomy b b') as [Hlt|[->|Hlt]]; [right; nia| |left; nia].
  assert (i <> i') by congruence. lia.
Qed.

Lemma write_pointer_same fs b i x : fs_ok fs -> block_in fs b -> 0 <= i < blockLevel fs -> in_u 32 x ->
  read_pointer (write_pointer fs (pointer_offset fs b i) x) (pointer_offset fs b i) = x.
Proof.
  intros Hok Hb Hi Hx. destruct (pointer_offset_spec fs b i Hok Hb Hi) as [-> Hd].
  unfold read_pointer, write_pointer. cbn. now apply read_write_u32.
Qed.
Lemma write_pointer_other fs b i x b' i' : fs_ok fs -> block_in fs b -> 0 <= i < blockLevel fs ->
  block_in fs b' -> 0 <= i' < blockLevel fs -> (b, i) <> (b', i') ->
  read_pointer (write_pointer fs (pointer_offset fs b i) x) (pointer_offset fs b' i') = read_pointer fs (pointer_offset fs b' i').
Proof.
  intros Hok Hb Hi Hb' Hi' Hne. destruct (pointer_offset_spec fs b i Hok Hb Hi) as [-> Hd].
  destruct (pointer_offset_spec fs b' i' Hok Hb' Hi') as [-> Hd'].
  unfold read_pointer, write_pointer. cbn. apply read_write_u32_apart; trivial. now apply (pointers_apart fs).
Qed.
Lemma write_pointer_offset fs off x b i : pointer_offset (write_pointer fs off x) b i = pointer_offset fs b i.
Proof. reflexivity. Qed.

(** ** The place of each block of a file *)
Inductive place :=
| Direct (i : Z)
| Single (i : Z)
| Double (s i : Z).
Definition place_of fs (n : Z) : place :=
  let L := blockLevel fs in
  if n <? 12 then Direct n
  else if L <=? n - 12 then Double ((n - 12 - L) / L) ((n - 12 - L) mod L) else Single (n - 12).

(** Below the range of the triple indirect block. *)
Definition mappable fs (n : Z) : Prop := 0 <= n < 12 + blockLevel fs + blockLevel fs * blockLevel fs.

Definition indirect fs (meta : list Z) (s : Z) : Z := read_pointer fs (pointer_offset fs (block_of meta 13) s).

Lemma place_range fs n : fs_ok fs -> mappable fs n ->
  match place_of fs n with
  | Direct i => n = i /\ 0 <= i < 12
  | Single i => n = 12 + i /\ 0 <= i < blockLevel fs
  | Double s i => n = 12 + blockLevel fs + blockLevel fs * s + i /\ 0 <= s < blockLevel fs /\ 0 <= i < blockLevel fs
  end.
Proof.
  intros (_ & HL & _) Hn. unfold mappable in Hn. unfold place_of. destruct (Z.ltb_spec n 12); [lia|].
  destruct (Z.leb_spec (blockLevel fs) (n - 12)); [|lia].
  pose proof (Z.div_mod (n - 12 - blockLevel fs) (blockLevel fs) ltac:(lia)).
  pose proof (Z.mod_pos_bound (n - 12 - blockLevel fs) (blockLevel fs) ltac:(lia)).
  split_and!; try lia; nia.
Qed.

Lemma place_inj fs n m : fs_ok fs -> mappable fs n -> mappable fs m -> place_of fs n = place_of fs m -> n = m.
Proof.
  intros Hok Hn Hm E. pose proof (place_range fs n Hok Hn) as H1. pose proof (place_range fs m Hok Hm) as H2.
  rewrite E in H1. destruct (place_of fs m); lia.
Qed.

Lemma GetINodeBlock_place fs meta n : fs_ok fs -> mappable fs n ->
  GetINodeBlock fs meta n =
    match place_of fs n with
    | Direct i => block_of meta i
    | Single i => read_pointer fs (pointer_offset fs (block_of meta 12) i)
    | Double s i => read_pointer fs (pointer_offset fs (indirect fs meta s) i)
    end.
Proof.
  intros Hok Hn. pose proof (place_range fs n Hok Hn) as Hr. unfold GetINodeBlock. unfold place_of in *.
  destruct (Z.ltb_spec n 12); [reflexivity|]. destruct (Z.leb_spec (blockLevel fs) (n - 12)); [|reflexivity].
  destruct (Z.leb_spec (blockLevel fs) ((n - 12 - blockLevel fs) / blockLevel fs)); [lia|reflexivity].
Qed.

(** The indirect blocks of a file are on the device and different from each other. *)
Record indirect_ok fs (meta : list Z) : Prop := {
  io_length : length meta = sizeof_INodeMeta;
  io_single : block_in fs (block_of meta 12) /\ block_of meta 12 <> 0;
  io_double : block_in fs (block_of meta 13) /\ block_of meta 13 <> 0;
  io_apart : block_of meta 12 <> block_of meta 13;
  io_indirect s : 0 <= s < blockLevel fs -> block_in fs (indirect fs meta s);
  io_indirect_apart s : 0 <= s < blockLevel fs -> indirect fs meta s <> 0 ->
    indirect fs meta s <> block_of meta 12 /\ indirect fs meta s <> block_of meta 13;
  io_indirect_inj s s' : 0 <= s < blockLevel fs -> 0 <= s' < blockLevel fs ->
    indirect fs meta s = indirect fs meta s' -> indirect fs meta s <> 0 -> s = s'
}.

(** The pointer of block [n] can be stored: its indirect block exists. *)
Definition present fs (meta : list Z) (n : Z) : Prop :=
  match place_of fs n with Double s _ => indirect fs meta s <> 0 | _ => True end.

Lemma block_field_apart i j : 0 <= i < 15 -> 0 <= j < 15 -> i <> j -> fields_apart (Blocks i) (Blocks j).
Proof. unfold fields_apart, Blocks. cbn. lia. Qed.
Lemma block_field_in (meta : list Z) i : length meta = sizeof_INodeMeta -> 0 <= i < 15 -> field_in (Blocks i) (length meta).
Proof. intros -> H. unfold field_in, Blocks, sizeof_INodeMeta. cbn. lia. Qed.
Lemma set_block_of (meta : list Z) i j x : length meta = sizeof_INodeMeta -> 0 <= i < 15 -> 0 <= j < 15 -> in_u 32 x ->
  block_of (set_field (Blocks i) x meta) j = if j =? i then x else block_of meta j.
Proof.
  intros Hl Hi Hj Hx. unfold block_of. destruct (Z.eqb_spec j i) as [->|Hne].
  - rewrite get_set_field by now apply block_field_in. apply Z.mod_small. exact Hx.
  - apply get_set_field_apart; [now apply block_field_in|now apply block_field_apart].
Qed.

(** What [SetINodeBlock] does when nothing has to be allocated. *)
Lemma SetINodeBlock_place fs meta inode n x : fs_ok fs -> indirect_ok fs meta -> mappable fs n -> present fs meta n ->
  SetINodeBlock uninit fs meta inode n x =
    match place_of fs n with
    | Direct i => (fs, set_field (Blocks i) x meta)
    | Single i => (write_pointer fs (pointer_offset fs (block_of meta 12) i) x, meta)
    | Double s i => (write_pointer fs (pointer_offset fs (indirect fs meta s) i) x, meta)
    end.
Proof.
  intros Hok Hi Hn Hp. pose proof (place_range fs n Hok Hn) as Hr. unfold SetINodeBlock. unfold present, place_of in *.
  destruct (io_single _ _ Hi) as [_ H12]. destruct (io_double _ _ Hi) as [_ H13].
  destruct (Z.ltb_spec n 12); [reflexivity|]. unfold ensure_block.
  destruct (Z.eqb_spec (block_of meta 12) 0); [easy|]. destruct (Z.eqb_spec (block_of meta 13) 0); [easy|].
  destruct (Z.leb_spec (blockLevel fs) (n - 12)); [|reflexivity].
  destruct (Z.leb_spec (blockLevel fs) ((n - 12 - blockLevel fs) / blockLevel fs)); [lia|].
  unfold ensure_pointer. fold (indirect fs meta ((n - 12 - blockLevel fs) / blockLevel fs)).
  destruct (Z.eqb_spec (indirect fs meta ((n - 12 - blockLevel fs) / blockLevel fs)) 0); [easy|reflexivity].
Qed.

Lemma place_of_write fs off x n : place_of (write_pointer fs off x) n = place_of fs n.
Proof. reflexivity. Qed.
Lemma fs_ok_pointer fs off x : fs_ok fs -> fs_ok (write_pointer fs off x).
Proof. unfold fs_ok, write_pointer, write_u32. cbn. now rewrite device_Write_size. Qed.

(** A pointer outside the double indirect block leaves the indirect blocks alone. *)
Lemma indirect_write fs meta b i x s : fs_ok fs -> indirect_ok fs meta -> block_in fs b -> 0 <= i < blockLevel fs ->
  b <> block_of meta 13 -> 0 <= s < blockLevel fs ->
  indirect (write_pointer fs (pointer_offset fs b i) x) meta s = indirect fs meta s.
Proof.
  intros Hok Hi Hb Hir Hne Hs. unfold indirect. rewrite write_pointer_offset.
  apply write_pointer_other; trivial; [apply (io_double _ _ Hi)|congruence].
Qed.

(** A pointer stored in indirect block [b] changes the entry of that block only. *)
Lemma GetINodeBlock_write fs meta b i x m : fs_ok fs -> indirect_ok fs meta -> block_in fs b -> 0 <= i < blockLevel fs ->
  b <> block_of meta 13 -> in_u 32 x -> mappable fs m ->
  GetINodeBlock (write_pointer fs (pointer_offset fs b i) x) meta m =
    if match place_of fs m with
       | Direct _ => false
       | Single j => (block_of meta 12 =? b) && (j =? i)
       | Double s j => (indirect fs meta s =? b) && (j =? i)
       end then x else GetINodeBlock fs meta m.
Proof.
  intros Hok Hi Hb Hir Hne Hx Hm. pose proof (place_range fs m Hok Hm) as Hr.
  rewrite !GetINodeBlock_place by (trivial; now apply fs_ok_pointer). rewrite place_of_write.
  assert (Hcase : forall b' j, block_in fs b' -> 0 <= j < blockLevel fs ->
    read_pointer (write_pointer fs (pointer_offset fs b i) x) (pointer_offset fs b' j) =
      if (b' =? b) && (j =? i) then x else read_pointer fs (pointer_offset fs b' j)).
  { intros b' j Hb' Hj. destruct (Z.eqb_spec b' b) as [->|]; [destruct (Z.eqb_spec j i) as [->|]|]; cbn [andb].
    - now apply write_pointer_same.
    - apply write_pointer_other; trivial; congruence.
    - apply write_pointer_other; trivial; congruence. }
  destruct (place_of fs m) as [j|j|s j]; [reflexivity| |].
  - rewrite write_pointer_offset. apply Hcase; [apply (io_single _ _ Hi)|lia].
  - rewrite indirect_write, write_pointer_offset by (trivial; lia). apply Hcase; [apply (io_indirect _ _ Hi); lia|lia].
Qed.

Lemma SetINodeBlock_map fs meta inode n x m : fs_ok fs -> indirect_ok fs meta -> mappable fs n -> present fs meta n ->
  in_u 32 x -> mappable fs m ->
  let '(fs', meta') := SetINodeBlock uninit fs meta inode n x in
  GetINodeBlock fs' meta' m = if m =? n then x else GetINodeBlock fs meta m.
Proof.
  intros Hok Hi Hn Hp Hx Hm. rewrite SetINodeBlock_place by trivial. unfold present in Hp.
  pose proof (place_range fs n Hok Hn) as Hrn. pose proof (place_range fs m Hok Hm) as Hrm.
  destruct (io_single _ _ Hi) as [Hb12 H12]. destruct (place_of fs n) as [i|i|s i] eqn:En.
  - rewrite !GetINodeBlock_place by trivial. unfold indirect. destruct (place_of fs m) as [j|j|s j];
      rewrite ?set_block_of by (trivial; try apply Hi; lia).
    + replace (m =? n) with (j =? i) by (f_equal; lia). reflexivity.
    + destruct (Z.eqb_spec m n); [nia|]. destruct (Z.eqb_spec 12 i); [lia|reflexivity].
    + destruct (Z.eqb_spec m n); [nia|]. destruct (Z.eqb_spec 13 i); [lia|reflexivity].
  - rewrite GetINodeBlock_write by (trivial; try lia; apply Hi). destruct (place_of fs m) as [j|j|s j].
    + destruct (Z.eqb_spec m n); [nia|reflexivity].
    + rewrite Z.eqb_refl. cbn [andb]. now replace (m =? n) with (j =? i) by (destruct (Z.eqb_spec j i), (Z.eqb_spec m n); trivial; lia).
    + destruct (Z.eqb_spec m n); [nia|]. destruct (Z.eqb_spec (indirect fs meta s) (block_of meta 12)) as [E|]; [|reflexivity].
      assert (Hs : 0 <= s < blockLevel fs) by lia. destruct (io_indirect_apart _ _ Hi s Hs); [congruence|easy].
  - destruct (io_indirect_apart _ _ Hi s ltac:(lia) Hp) as [Ha12 Ha13].
    rewrite GetINodeBlock_write by (trivial; try lia; apply (io_indirect _ _ Hi); lia). destruct (place_of fs m) as [j|j|s' j] eqn:Em.
    + destruct (Z.eqb_spec m n); [nia|reflexivity].
    + destruct (Z.eqb_spec (block_of meta 12) (indirect fs meta s)); [congruence|]. destruct (Z.eqb_spec m n); [nia|reflexivity].
    + destruct (Z.eqb_spec (indirect fs meta s') (indirect fs meta s)) as [E|Hne]; cbn [andb].
      * assert (s' = s) as -> by (apply (io_indirect_inj _ _ Hi); congruence || lia).
        now replace (m =? n) with (j =? i) by (destruct (Z.eqb_spec j i), (Z.eqb_spec m n); trivial; nia).
      * destruct (Z.eqb_spec m n) as [->|]; [congruence|reflexivity].
Qed.

(** ** Sequences of assignments *)
Lemma block_in_pointer fs off x b : block_in (write_pointer fs off x) b <-> block_in fs b.
Proof. unfold block_in, write_pointer, write_u32. cbn. now rewrite device_Write_size. Qed.

(** The indirect blocks stay the same ones. *)
Record same_indirect fs (meta : list Z) fs' (meta' : list Z) : Prop := {
  si_length : length meta' = length meta;
  si_level : blockLevel fs' = blockLevel fs;
  si_in b : block_in fs' b <-> block_in fs b;
  si_single : block_of meta' 12 = block_of meta 12;
  si_double : block_of meta' 13 = block_of meta 13;
  si_indirect s : 0 <= s < blockLevel fs -> indirect fs' meta' s = indirect fs meta s
}.
Lemma same_indirect_ok fs meta fs' meta' : same_indirect fs meta fs' meta' -> indirect_ok fs meta -> indirect_ok fs' meta'.
Proof.
  intros [S1 S2 S3 S4 S5 S6] [I1 I2 I3 I4 I5 I6 I7]. split; rewrite ?S2, ?S4, ?S5, ?S3; trivial; [congruence|..].
  - intros s Hs. rewrite S3, S6 by trivial. now apply I5.
  - intros s Hs. rewrite S6 by trivial. now apply I6.
  - intros s s' Hs Hs'. rewrite !S6 by trivial. now apply I7.
Qed.
Lemma present_kept fs meta fs' meta' n : fs_ok fs -> mappable fs n -> same_indirect fs meta fs' meta' -> present fs meta n -> present fs' meta' n.
Proof.
  intros Hok Hn [S1 S2 S3 S4 S5 S6]. pose proof (place_range fs n Hok Hn) as Hr. unfold present. replace (place_of fs' n) with (place_of fs n) by (unfold place_of; now rewrite S2).
  destruct (place_of fs n) as [i|i|s i]; trivial. rewrite S6 by lia. trivial.
Qed.

Lemma SetINodeBlock_keeps fs meta inode n x : fs_ok fs -> indirect_ok fs meta -> mappable fs n -> present fs meta n -> in_u 32 x ->
  let '(fs', meta') := SetINodeBlock uninit fs meta inode n x in fs_ok fs' /\ same_indirect fs meta fs' meta'.
Proof.
  intros Hok Hi Hn Hp Hx. rewrite SetINodeBlock_place by trivial. unfold present in Hp. pose proof (place_range fs n Hok Hn) as Hr.
  assert (Hptr : forall b i, block_in fs b -> 0 <= i < blockLevel fs -> b <> block_of meta 13 ->
    fs_ok (write_pointer fs (pointer_offset fs b i) x) /\ same_indirect fs meta (write_pointer fs (pointer_offset fs b i) x) meta).
  { intros b i Hb Hir Hne. split; [now apply fs_ok_pointer|]. split; trivial; [intros b'; apply block_in_pointer|]. intros s Hs. now apply indirect_write. }
  destruct (place_of fs n) as [i|i|s i].
  - split; [exact Hok|]. assert (Hb : forall j, 12 <= j < 15 -> block_of (set_field (Blocks i) x meta) j = block_of meta j).
    { intros j Hj. rewrite set_block_of by (trivial; try apply Hi; lia). destruct (Z.eqb_spec j i); [lia|reflexivity]. }
    split; trivial; [apply set_field_length, block_field_in; [apply Hi|lia]|apply Hb; lia|apply Hb; lia|]. intros s Hs. unfold indirect. now rewrite Hb by lia.
  - apply Hptr; [apply Hi|lia|apply Hi].
  - apply Hptr; [apply (io_indirect _ _ Hi); lia|lia|]. apply (io_indirect_apart _ _ Hi s); [lia|exact Hp].
Qed.

(** Assignments of disk blocks to blocks of a file, one after the other, and the finite map they
    describe: the last assignment to a block counts. *)
Definition assign_all (inode : Z) : Ext2Fs D * list Z -> list (Z * Z) -> Ext2Fs D * list Z :=
  foldl (fun '(fs, meta) '(n, x) => SetINodeBlock uninit fs meta inode n x).
Definition last_assigned (l : list (Z * Z)) : gmap Z Z := foldl (fun m '(n, x) => <[n := x]> m) ∅ l.
Definition assignable fs (meta : list Z) (a : Z * Z) : Prop := mappable fs (a.1) /\ present fs meta (a.1) /\ in_u 32 (a.2).

Lemma assign_all_map fs meta inode l : fs_ok fs -> indirect_ok fs meta -> Forall (assignable fs meta) l ->
  let '(fs', meta') := assign_all inode (fs, meta) l in
  fs_ok fs' /\ same_indirect fs meta fs' meta' /\ forall m, mappable fs m -> GetINodeBlock fs' meta' m = default (GetINodeBlock fs meta m) (last_assigned l !! m).
Proof.
  intros Hok Hi. induction l as [|[n x] l IH] using rev_ind; intros Hl; [cbn; split_and!; trivial; now split|].
  apply Forall_app in Hl as [Hl ((Hn & Hp & Hx) & _)%list.Forall_cons]. cbn [fst snd] in *. specialize (IH Hl).
  unfold assign_all, last_assigned in *. rewrite !foldl_app. cbn [foldl]. destruct (foldl _ (fs, meta) l) as [fs1 meta1]. destruct IH as (Hok1 & Hs1 & Hm1).
  assert (Hmap : forall m, mappable fs1 m <-> mappable fs m) by (intros m; unfold mappable; now rewrite (si_level _ _ _ _ Hs1)).
  pose proof (same_indirect_ok _ _ _ _ Hs1 Hi) as Hi1. pose proof (present_kept _ _ _ _ n Hok Hn Hs1 Hp) as Hp1. apply Hmap in Hn.
  pose proof (SetINodeBlock_keeps fs1 meta1 inode n x Hok1 Hi1 Hn Hp1 Hx) as Hk. pose proof (fun m => SetINodeBlock_map fs1 meta1 inode n x m Hok1 Hi1 Hn Hp1 Hx) as Hm.
  destruct (SetINodeBlock uninit fs1 meta1 inode n x) as [fs2 meta2]. destruct Hk as [Hok2 Hs2]. split_and!; trivial.
  - destruct Hs1 as [A1 A2 A3 A4 A5 A6], Hs2 as [B1 B2 B3 B4 B5 B6]. split; try congruence; [intros b; now rewrite B3|]. intros s Hs. rewrite B6 by now rewrite A2. now apply A6.
  - intros m Hm'. rewrite Hm by now apply Hmap. destruct (Z.eqb_spec m n) as [->|Hne]; [now rewrite lookup_insert_eq|]. rewrite lookup_insert_ne by congruence. now apply Hm1.
Qed.
End BlockMap.
