(* ===== verification/Ext2Files.v ===== *)
(** * ext2: the contents of files

    A file is the sequence of its bytes, found through the block map; [ReadINode] and
    [WriteINode] are related to it. *)

From Stdlib Require Import ZArith Lia Bool.
From stdpp Require Import base gmap list numbers.
From S2P Require Import Prelude Disk Ext2 Ext2Proofs.

Import Ext2.

Section Files.
Context {D : Type} {Dev : Device D} {Bits : RawBitmap} (uninit : list Z).
Implicit Types fs : Ext2Fs D.

(** Byte [i] of a file, and a range of bytes. *)
Definition byte_at fs (meta : list Z) (i : Z) : Z :=
  device_byte (m_Device fs) (GetINodeBlock fs meta (i / m_BlockSize fs) * m_BlockSize fs + i mod m_BlockSize fs).
Definition file_extent fs (meta : list Z) (off n : Z) : list Z := byte_at fs meta <$> seqZ off n.

Lemma file_extent_length fs meta off n : length (file_extent fs meta off n) = Z.to_nat n.
Proof. unfold file_extent. now rewrite length_fmap, length_seqZ. Qed.
Lemma file_extent_app fs meta off n m : 0 <= n -> 0 <= m ->
  file_extent fs meta off (n + m) = file_extent fs meta off n ++ file_extent fs meta (off + n) m.
Proof. intros Hn Hm. unfold file_extent. now rewrite seqZ_app, fmap_app by trivial. Qed.

Lemma block_size_pos fs : fs_ok fs -> 0 < m_BlockSize fs.
Proof. intros (-> & H & _). lia. Qed.

(** Inside one block the bytes are consecutive on the device. *)
Lemma file_extent_block fs meta off n : fs_ok fs -> 0 <= n -> off mod m_BlockSize fs + n <= m_BlockSize fs ->
  file_extent fs meta off n =
    extent (m_Device fs) (GetINodeBlock fs meta (off / m_BlockSize fs) * m_BlockSize fs + off mod m_BlockSize fs) (Z.to_nat n).
Proof.
  intros Hok Hn Hfit. pose proof (block_size_pos fs Hok) as HB. unfold file_extent, extent.
  rewrite Z2Nat.id by trivial. apply list_eq. intros k. rewrite !list_lookup_fmap.
  destruct (Nat.lt_ge_cases k (Z.to_nat n)) as [Hk|Hk].
  - rewrite !lookup_seqZ_lt by lia. cbn. f_equal. unfold byte_at.
    pose proof (Z.div_mod off (m_BlockSize fs) ltac:(lia)) as Hd. pose proof (Z.mod_pos_bound off (m_BlockSize fs) HB) as Hm.
    replace ((off + Z.of_nat k) / m_BlockSize fs) with (off / m_BlockSize fs)
      by (apply (Z.div_unique _ _ _ (off mod m_BlockSize fs + Z.of_nat k)); lia).
    replace ((off + Z.of_nat k) mod m_BlockSize fs) with (off mod m_BlockSize fs + Z.of_nat k)
      by (apply (Z.mod_unique _ _ (off / m_BlockSize fs)); lia).
    f_equal. lia.
  - now rewrite !lookup_seqZ_ge by lia.
Qed.

(** ** Reading *)
Definition blocks_in fs (meta : list Z) (n : Z) : Prop := forall k, 0 <= k < n -> block_in fs (GetINodeBlock fs meta k).

(** One round of the loop. *)
Lemma read_round fuel fs meta out offset head bytes : fs_ok fs -> 0 <= offset -> 0 <= head < bytes -> offset + bytes < 2 ^ 63 ->
  (offset + head) / m_BlockSize fs < 2 ^ 32 -> block_in fs (GetINodeBlock fs meta ((offset + head) / m_BlockSize fs)) ->
  let o := (offset + head) mod m_BlockSize fs in
  let size := Z.min (bytes - head) (m_BlockSize fs - o) in
  read_loop (S fuel) fs meta out offset head bytes =
    read_loop fuel fs meta (splice (Z.to_nat head) (file_extent fs meta (offset + head) size) out) o (head + size) bytes.
Proof.
  intros Hok Ho Hh Hb Hidx Hin o size. pose proof (block_size_pos fs Hok) as HB.
  pose proof (Z.mod_pos_bound (offset + head) (m_BlockSize fs) HB) as Hm.
  pose proof (Z.div_pos (offset + head) (m_BlockSize fs) ltac:(lia) HB) as Hd.
  cbn [read_loop]. destruct (Z.ltb_spec head bytes); [|lia]. unfold u64, u32.
  rewrite (wrap_small 64 (offset + head)) by (unfold in_u; lia). rewrite (wrap_small 32) by (unfold in_u; lia). fold o size.
  destruct Hin as [Hblk Hdev]. destruct Hok as (HBL & HL & HD).
  rewrite wrap_small by (unfold in_u; nia). rewrite device_Read_spec by nia.
  fold (extent (m_Device fs) (GetINodeBlock fs meta ((offset + head) / m_BlockSize fs) * m_BlockSize fs + o) (Z.to_nat size)).
  rewrite <- file_extent_block by (repeat split; trivial; lia). reflexivity.
Qed.

Lemma read_loop_done fuel fs meta out offset bytes : read_loop fuel fs meta out offset bytes bytes = out.
Proof. destruct fuel; cbn; [reflexivity|]. now rewrite Z.ltb_irrefl. Qed.

(** From the start of the file the loop visits the blocks in order. *)
Lemma read_loop_start fs meta bytes : fs_ok fs -> 0 <= bytes < 2 ^ 63 -> bytes <= 2 ^ 32 * m_BlockSize fs ->
  blocks_in fs meta ((bytes + m_BlockSize fs - 1) / m_BlockSize fs) ->
  forall fuel head out, bytes - head <= Z.of_nat fuel -> 0 <= head <= bytes -> bytes <= Z.of_nat (length out) ->
  head mod m_BlockSize fs = 0 ->
  read_loop fuel fs meta (splice 0 (file_extent fs meta 0 head) out) 0 head bytes = splice 0 (file_extent fs meta 0 bytes) out.
Proof.
  intros Hok Hb Hidx Hin. pose proof (block_size_pos fs Hok) as HB.
  induction fuel as [|fuel IH]; intros head out Hfuel Hh Hout Hm; [cbn; now replace head with bytes by lia|].
  destruct (Z.eq_dec head bytes) as [->|Hne]; [apply read_loop_done|].
  assert (Hdiv : head = m_BlockSize fs * (head / m_BlockSize fs)) by (rewrite (Z.div_mod head (m_BlockSize fs)) at 1; lia).
  assert (Hlt : 0 <= head / m_BlockSize fs < (bytes + m_BlockSize fs - 1) / m_BlockSize fs).
  { split; [apply Z.div_pos; lia|].
    assert (head / m_BlockSize fs + 1 <= (bytes + m_BlockSize fs - 1) / m_BlockSize fs); [|lia]. apply Z.div_le_lower_bound; nia. }
  rewrite read_round; trivial; try lia; [|apply Z.div_lt_upper_bound; lia|now apply Hin].
  rewrite Z.add_0_l, Hm, Z.sub_0_r. set (size := Z.min (bytes - head) (m_BlockSize fs)).
  rewrite splice_splice by (rewrite ?file_extent_length; lia). rewrite <- (Z.add_0_l head) at 2. rewrite <- (file_extent_app fs meta 0 head size) by lia.
  destruct (Z.eq_dec (head + size) bytes) as [->|Hmore]; [apply read_loop_done|].
  apply IH; trivial; try lia. replace size with (m_BlockSize fs) by lia.
  now rewrite Z.add_mod, Hm, Z.mod_same, Z.mod_0_l by lia.
Qed.

(** The number of bytes [ReadINode] returns. *)
Definition available (meta : list Z) (offset bytes : Z) : Z :=
  if GetSize meta <? offset then 0 else Z.min bytes (GetSize meta - offset).

Lemma ReadINode_spec fs meta out offset bytes : fs_ok fs -> 0 <= offset -> 0 <= bytes -> 0 <= GetSize meta -> offset + bytes < 2 ^ 63 ->
  let n := available meta offset bytes in
  n <= Z.of_nat (length out) -> offset + n <= 2 ^ 32 * m_BlockSize fs ->
  blocks_in fs meta ((offset + n + m_BlockSize fs - 1) / m_BlockSize fs) ->
  offset = 0 \/ offset mod m_BlockSize fs + n <= m_BlockSize fs ->
  ReadINode fs meta out offset bytes = (splice 0 (file_extent fs meta offset n) out, n).
Proof.
  intros Hok Ho Hb Hs Hlt n Hout Hidx Hin Hcase. unfold ReadINode. unfold n, available in *.
  destruct (Z.ltb_spec (GetSize meta) offset); [cbn; now rewrite splice_nil|].
  unfold u64. rewrite wrap_small by (unfold in_u; lia).
  replace (if GetSize meta <? offset + bytes then GetSize meta - offset else bytes) with (Z.min bytes (GetSize meta - offset))
    by (destruct (Z.ltb_spec (GetSize meta) (offset + bytes)); lia).
  clear n. set (n := Z.min bytes (GetSize meta - offset)) in *. assert (0 <= n) by lia. pose proof (block_size_pos fs Hok) as HB. f_equal.
  destruct Hcase as [->|Hfit].
  - rewrite <- (read_loop_start fs meta n Hok) with (fuel := Z.to_nat n) (head := 0); trivial; try lia.
  - destruct (Z.to_nat n) as [|fuel] eqn:En; [cbn; replace n with 0 by lia; cbn; now rewrite splice_nil|].
    assert (Hblk : 0 <= offset / m_BlockSize fs < (offset + n + m_BlockSize fs - 1) / m_BlockSize fs).
    { split; [apply Z.div_pos; lia|]. pose proof (Z.div_mod offset (m_BlockSize fs) ltac:(lia)).
      pose proof (Z.mod_pos_bound offset (m_BlockSize fs) HB).
      assert (offset / m_BlockSize fs + 1 <= (offset + n + m_BlockSize fs - 1) / m_BlockSize fs); [|lia]. apply Z.div_le_lower_bound; nia. }
    rewrite read_round; trivial; rewrite ?Z.add_0_r; try lia; [|apply Z.div_lt_upper_bound; lia|now apply Hin].
    replace (Z.min (n - 0) (m_BlockSize fs - offset mod m_BlockSize fs)) with n by lia. apply read_loop_done.
Qed.

(** A read of two whole blocks from block [k] on returns block [k] and then block 1. *)
Lemma ReadINode_two_blocks fs meta out k : fs_ok fs -> 0 <= k < 2 ^ 31 ->
  (k + 2) * m_BlockSize fs <= GetSize meta -> GetSize meta < 2 ^ 63 -> 2 * m_BlockSize fs <= Z.of_nat (length out) ->
  block_in fs (GetINodeBlock fs meta k) -> block_in fs (GetINodeBlock fs meta 1) ->
  ReadINode fs meta out (k * m_BlockSize fs) (2 * m_BlockSize fs) =
    (splice 0 (file_extent fs meta (k * m_BlockSize fs) (m_BlockSize fs) ++ file_extent fs meta (m_BlockSize fs) (m_BlockSize fs)) out,
     2 * m_BlockSize fs).
Proof.
  intros Hok Hk Hs Hs2 Hout Hin Hin1. pose proof (block_size_pos fs Hok) as HB. unfold ReadINode.
  destruct (Z.ltb_spec (GetSize meta) (k * m_BlockSize fs)); [lia|]. unfold u64. rewrite wrap_small by (unfold in_u; nia).
  destruct (Z.ltb_spec (GetSize meta) (k * m_BlockSize fs + 2 * m_BlockSize fs)); [lia|]. f_equal.
  replace (Z.to_nat (2 * m_BlockSize fs)) with (S (S (Z.to_nat (2 * m_BlockSize fs - 2)))) by lia.
  assert (Hdiv : (k * m_BlockSize fs + 0) / m_BlockSize fs = k) by (rewrite Z.add_0_r; apply Z.div_mul; lia).
  assert (Hmod : (k * m_BlockSize fs + 0) mod m_BlockSize fs = 0) by (rewrite Z.add_0_r; apply Z.mod_mul; lia).
  rewrite read_round; trivial; rewrite ?Hdiv; try lia; trivial. rewrite Hmod, Z.add_0_r.
  replace (Z.min (2 * m_BlockSize fs - 0) (m_BlockSize fs - 0)) with (m_BlockSize fs) by lia.
  assert (Hdiv1 : (0 + (0 + m_BlockSize fs)) / m_BlockSize fs = 1) by (rewrite !Z.add_0_l; apply Z.div_same; lia).
  assert (Hmod1 : (0 + (0 + m_BlockSize fs)) mod m_BlockSize fs = 0) by (rewrite !Z.add_0_l; apply Z.mod_same; lia).
  rewrite read_round; trivial; rewrite ?Hdiv1; try lia; trivial. rewrite Hmod1, !Z.add_0_l.
  replace (Z.min (2 * m_BlockSize fs - m_BlockSize fs) (m_BlockSize fs - 0)) with (m_BlockSize fs) by lia.
  replace (m_BlockSize fs + m_BlockSize fs) with (2 * m_BlockSize fs) by lia. rewrite read_loop_done.
  apply splice_splice; rewrite !file_extent_length; lia.
Qed.

(** ** Writing *)

(** The range of [len] bytes at [off] does not touch block [b]. *)
Definition apart fs (off len b : Z) : Prop := off + len <= b * m_BlockSize fs \/ (b + 1) * m_BlockSize fs <= off.
(** The indirect blocks of a file. *)
Definition map_block fs (meta : list Z) (b : Z) : Prop :=
  b = block_of meta 12 \/ b = block_of meta 13 \/ exists s, 0 <= s < blockLevel fs /\ b = indirect fs meta s.

(** The first [n] blocks of a file are assigned, all different and none of them an
    indirect block. *)
Record file_ok fs (meta : list Z) (n : Z) : Prop := {
  fo_range : 0 <= n <= 12 + blockLevel fs + blockLevel fs * blockLevel fs;
  fo_map b : map_block fs meta b -> block_in fs b;
  fo_blocks : blocks_in fs meta n;
  fo_assigned k : 0 <= k < n -> GetINodeBlock fs meta k <> 0;
  fo_data k : 0 <= k < n -> ~ map_block fs meta (GetINodeBlock fs meta k);
  fo_inj k k' : 0 <= k < n -> 0 <= k' < n -> GetINodeBlock fs meta k = GetINodeBlock fs meta k' -> k = k'
}.

(** A write on the device. *)
Definition write_ok fs (off : Z) (bs : list Z) : Prop := in_device (m_Device fs) off (Z.of_nat (length bs)) /\ Forall byte bs.

Lemma read_pointer_apart fs off bs b i : fs_ok fs -> write_ok fs off bs -> block_in fs b -> 0 <= i < blockLevel fs ->
  apart fs off (Z.of_nat (length bs)) b ->
  read_pointer (dev_write fs off bs) (pointer_offset fs b i) = read_pointer fs (pointer_offset fs b i).
Proof.
  intros Hok [[H0 H1] Hb] Hin Hi Ha. destruct (pointer_offset_spec fs b i Hok Hin Hi) as [-> [H2 H3]].
  unfold read_pointer, dev_write. cbn. rewrite !read_u32_spec by (split; rewrite ?device_Write_size; lia). f_equal.
  destruct Hok as (HB & HL & _). apply extent_write_apart; trivial. unfold apart in Ha. nia.
Qed.

Section Quiet.
Context fs (meta : list Z) (off : Z) (bs : list Z).
Context (Hok : fs_ok fs) (Hw : write_ok fs off bs).
Context (Hmap : forall b, map_block fs meta b -> block_in fs b).
Context (Hquiet : forall b, map_block fs meta b -> apart fs off (Z.of_nat (length bs)) b).

(** A write that does not touch the indirect blocks leaves the block map as it is. *)
Lemma indirect_quiet s : 0 <= s < blockLevel fs -> indirect (dev_write fs off bs) meta s = indirect fs meta s.
Proof.
  intros Hs. unfold indirect. change (pointer_offset (dev_write fs off bs)) with (pointer_offset fs).
  assert (H13 : map_block fs meta (block_of meta 13)) by (right; now left). apply read_pointer_apart; auto.
Qed.

Lemma GetINodeBlock_quiet m : mappable fs m -> GetINodeBlock (dev_write fs off bs) meta m = GetINodeBlock fs meta m.
Proof.
  intros Hm. pose proof (place_range fs m Hok Hm) as Hr. rewrite !GetINodeBlock_place by (trivial; now apply fs_ok_write).
  change (place_of (dev_write fs off bs) m) with (place_of fs m).
  change (pointer_offset (dev_write fs off bs)) with (pointer_offset fs).
  destruct (place_of fs m) as [j|j|s j]; [reflexivity| |].
  - assert (map_block fs meta (block_of meta 12)) by now left. apply read_pointer_apart; auto; lia.
  - assert (Hs : 0 <= s < blockLevel fs) by lia. assert (map_block fs meta (indirect fs meta s)) by (right; right; eauto).
    rewrite indirect_quiet by trivial. apply read_pointer_apart; auto; lia.
Qed.

Lemma map_block_quiet b : map_block (dev_write fs off bs) meta b <-> map_block fs meta b.
Proof.
  unfold map_block. change (blockLevel (dev_write fs off bs)) with (blockLevel fs).
  split; (intros [H|[H|(s & Hs & H)]]; [now left|right; now left|right; right; exists s; split; trivial]).
  - now rewrite <- indirect_quiet.
  - now rewrite indirect_quiet.
Qed.

Lemma file_ok_quiet n : file_ok fs meta n -> file_ok (dev_write fs off bs) meta n.
Proof.
  intros Hf. assert (Hg : forall k, 0 <= k < n -> GetINodeBlock (dev_write fs off bs) meta k = GetINodeBlock fs meta k).
  { intros k Hk. apply GetINodeBlock_quiet. pose proof (fo_range _ _ _ Hf). unfold mappable. lia. }
  split.
  - apply Hf.
  - intros b Hb%map_block_quiet. now apply block_in_write, Hmap.
  - intros k Hk. rewrite Hg by trivial. apply block_in_write. now apply (fo_blocks _ _ _ Hf).
  - intros k Hk. rewrite Hg by trivial. now apply (fo_assigned _ _ _ Hf).
  - intros k Hk Hb%map_block_quiet. rewrite Hg in Hb by trivial. now apply (fo_data _ _ _ Hf k).
  - intros k k' Hk Hk' E. rewrite !Hg in E by trivial. now apply (fo_inj _ _ _ Hf).
Qed.
End Quiet.

Lemma write_ok_write fs off bs off' bs' : write_ok fs off' bs' -> write_ok (dev_write fs off bs) off' bs'.
Proof. unfold write_ok, in_device, dev_write. cbn. now rewrite device_Write_size. Qed.

(** Byte [i] after a write that leaves the block map as it is. *)
Lemma byte_at_write fs meta off bs n i : fs_ok fs -> write_ok fs off bs -> file_ok fs meta n ->
  (forall b, map_block fs meta b -> apart fs off (Z.of_nat (length bs)) b) -> 0 <= i < n * m_BlockSize fs ->
  byte_at (dev_write fs off bs) meta i =
    let p := GetINodeBlock fs meta (i / m_BlockSize fs) * m_BlockSize fs + i mod m_BlockSize fs in
    if decide (off <= p < off + Z.of_nat (length bs)) then nth (Z.to_nat (p - off)) bs 0 else byte_at fs meta i.
Proof.
  intros Hok Hw Hf Hq Hi. pose proof (block_size_pos fs Hok) as HB. unfold byte_at.
  change (m_BlockSize (dev_write fs off bs)) with (m_BlockSize fs).
  rewrite GetINodeBlock_quiet; trivial; [|apply (fo_map _ _ _ Hf)|].
  - destruct Hw as [[H0 H1] Hb]. unfold dev_write. cbn [m_Device with_device]. now rewrite device_Write_spec by trivial.
  - assert (0 <= i / m_BlockSize fs < n) by (split; [apply Z.div_pos|apply Z.div_lt_upper_bound]; lia).
    pose proof (fo_range _ _ _ Hf). unfold mappable. lia.
Qed.

(** Where byte [q] of the file is stored. *)
Definition position fs (meta : list Z) (q : Z) : Z :=
  GetINodeBlock fs meta (q / m_BlockSize fs) * m_BlockSize fs + q mod m_BlockSize fs.

Lemma position_in fs meta n q (bs : list Z) : fs_ok fs -> file_ok fs meta n -> 0 <= q < n * m_BlockSize fs ->
  q mod m_BlockSize fs + Z.of_nat (length bs) <= m_BlockSize fs -> Forall byte bs ->
  write_ok fs (position fs meta q) bs /\ 0 <= q / m_BlockSize fs < n
  /\ forall b, map_block fs meta b -> apart fs (position fs meta q) (Z.of_nat (length bs)) b.
Proof.
  intros Hok Hf Hq Hfit Hbs. pose proof (block_size_pos fs Hok) as HB. pose proof (Z.mod_pos_bound q (m_BlockSize fs) HB) as Hm.
  assert (Hk : 0 <= q / m_BlockSize fs < n) by (split; [apply Z.div_pos|apply Z.div_lt_upper_bound]; lia).
  destruct (fo_blocks _ _ _ Hf _ Hk) as [Hb Hd]. unfold position, write_ok, in_device, apart. split_and!; trivial; try lia; try nia.
  intros b Hmb. assert (b <> GetINodeBlock fs meta (q / m_BlockSize fs)) by (intros ->; exact (fo_data _ _ _ Hf _ Hk Hmb)).
  destruct (Z.lt_ge_cases b (GetINodeBlock fs meta (q / m_BlockSize fs))); [right|left]; nia.
Qed.

(** Storing bytes inside one block of the file. *)
Lemma write_block fs meta n q (bs : list Z) : fs_ok fs -> file_ok fs meta n -> 0 <= q < n * m_BlockSize fs ->
  q mod m_BlockSize fs + Z.of_nat (length bs) <= m_BlockSize fs -> Forall byte bs ->
  file_ok (dev_write fs (position fs meta q) bs) meta n /\
  forall i, 0 <= i < n * m_BlockSize fs ->
    byte_at (dev_write fs (position fs meta q) bs) meta i =
      if decide (q <= i < q + Z.of_nat (length bs)) then nth (Z.to_nat (i - q)) bs 0 else byte_at fs meta i.
Proof.
  intros Hok Hf Hq Hfit Hbs. pose proof (block_size_pos fs Hok) as HB. destruct (position_in fs meta n q bs) as (Hw & Hk & Ha); trivial.
  split; [now apply file_ok_quiet; trivial; apply Hf|]. intros i Hi. rewrite (byte_at_write fs meta _ bs n) by trivial.
  cbv zeta. fold (position fs meta i).
  assert (Hki : 0 <= i / m_BlockSize fs < n) by (split; [apply Z.div_pos|apply Z.div_lt_upper_bound]; lia).
  pose proof (Z.mod_pos_bound q (m_BlockSize fs) HB). pose proof (Z.mod_pos_bound i (m_BlockSize fs) HB).
  pose proof (Z.div_mod q (m_BlockSize fs) ltac:(lia)) as Hdq. pose proof (Z.div_mod i (m_BlockSize fs) ltac:(lia)) as Hdi.
  destruct (Z.eq_dec (i / m_BlockSize fs) (q / m_BlockSize fs)) as [E|Hne].
  - unfold position. rewrite E in *. repeat destruct (decide _); try lia; trivial. f_equal. lia.
  - assert (Hb : GetINodeBlock fs meta (i / m_BlockSize fs) <> GetINodeBlock fs meta (q / m_BlockSize fs)).
    { intros Hb. apply Hne. now apply (fo_inj _ _ _ Hf). }
    unfold position. repeat destruct (decide _); trivial; exfalso.
    + destruct (Z.lt_ge_cases (GetINodeBlock fs meta (i / m_BlockSize fs)) (GetINodeBlock fs meta (q / m_BlockSize fs))); nia.
    + destruct (Z.lt_ge_cases (GetINodeBlock fs meta (i / m_BlockSize fs)) (GetINodeBlock fs meta (q / m_BlockSize fs))); nia.
    + destruct (Z.lt_ge_cases (i / m_BlockSize fs) (q / m_BlockSize fs)); nia.
Qed.

Lemma write_loop_spec meta n inp offset count : Forall byte inp -> 0 <= offset -> offset + count < 2 ^ 63 ->
  0 <= count <= Z.of_nat (length inp) ->
  forall fuel fs head, fs_ok fs -> file_ok fs meta n -> offset + count <= n * m_BlockSize fs -> n <= 2 ^ 32 ->
  count - head <= Z.of_nat fuel -> 0 <= head <= count ->
  file_ok (write_loop fuel fs meta inp offset head count) meta n /\
  forall i, 0 <= i < n * m_BlockSize fs ->
    byte_at (write_loop fuel fs meta inp offset head count) meta i =
      if decide (offset + head <= i < offset + count) then nth (Z.to_nat (i - offset)) inp 0 else byte_at fs meta i.
Proof.
  intros Hb Ho Hlt Hc. induction fuel as [|fuel IH]; intros fs head Hok Hf Hn Hn2 Hfuel Hh; cbn [write_loop].
  { split; trivial. intros i Hi. destruct (decide _); [lia|reflexivity]. }
  destruct (Z.ltb_spec head count) as [Hlth|]; [|split; trivial; intros i Hi; destruct (decide _); [lia|reflexivity]].
  pose proof (block_size_pos fs Hok) as HB. pose proof (Z.mod_pos_bound (offset + head) (m_BlockSize fs) HB) as Hm.
  set (q := offset + head) in *. unfold u64. rewrite (wrap_small 64 q) by (unfold in_u; lia).
  set (size := Z.min (count - head) (m_BlockSize fs - q mod m_BlockSize fs)).
  set (bs := take (Z.to_nat size) (drop (Z.to_nat head) inp)).
  assert (Hlen : Z.of_nat (length bs) = size) by (unfold bs; rewrite length_take, length_drop; lia).
  assert (Hbs : Forall byte bs) by (unfold bs; now apply Forall_take, Forall_drop).
  assert (Hq : 0 <= q < n * m_BlockSize fs) by lia.
  destruct (position_in fs meta n q bs) as ([Hd _] & Hk & _); trivial; [lia|].
  unfold u32. rewrite (wrap_small 32) by (unfold in_u; lia). fold (position fs meta q).
  rewrite wrap_small. 2:{ destruct Hd as [Hd0 Hd1]. destruct Hok as (_ & _ & HD). unfold in_u. lia. }
  destruct (write_block fs meta n q bs) as [Hf' Hbyte]; trivial; [lia|].
  destruct (IH (dev_write fs (position fs meta q) bs) (head + size)) as [Hf2 Hb2]; trivial; try lia; [now apply fs_ok_write|].
  split; [exact Hf2|]. intros i Hi. rewrite Hb2 by trivial. rewrite Hbyte by trivial. rewrite Hlen.
  repeat destruct (decide _); trivial; try lia.
  destruct (lookup_lt_is_Some_2 bs (Z.to_nat (i - q)) ltac:(lia)) as [x Hx]. rewrite (nth_lookup_Some _ _ _ _ Hx).
  unfold bs in Hx. rewrite lookup_take_lt, lookup_drop in Hx by lia. symmetry. apply nth_lookup_Some. rewrite <- Hx. f_equal. lia.
Qed.

(** What the loop leaves alone: the block map, and every range apart from the blocks of the file. *)
Lemma write_loop_device fuel : forall fs meta inp offset head count, device_size (m_Device (write_loop fuel fs meta inp offset head count)) = device_size (m_Device fs)
  /\ m_SuperBlock (write_loop fuel fs meta inp offset head count) = m_SuperBlock fs.
Proof.
  induction fuel as [|fuel IH]; intros; cbn [write_loop]; [easy|]. destruct (_ <? _); [|easy]. edestruct IH as [-> ->].
  split; [apply device_Write_size|reflexivity].
Qed.
Lemma write_loop_frame meta n inp offset count : Forall byte inp -> 0 <= offset -> offset + count < 2 ^ 63 -> 0 <= count <= Z.of_nat (length inp) ->
  forall fuel fs head, fs_ok fs -> file_ok fs meta n -> offset + count <= n * m_BlockSize fs -> n <= 2 ^ 32 -> 0 <= head <= count ->
  let fs' := write_loop fuel fs meta inp offset head count in
  (forall m, mappable fs m -> GetINodeBlock fs' meta m = GetINodeBlock fs meta m) /\ (forall b, map_block fs' meta b <-> map_block fs meta b)
  /\ forall p len, (forall k, 0 <= k < n -> apart fs p (Z.of_nat len) (GetINodeBlock fs meta k)) -> extent (m_Device fs') p len = extent (m_Device fs) p len.
Proof.
  intros Hb Ho Hlt Hc. induction fuel as [|fuel IH]; intros fs head Hok Hf Hn Hn2 Hh; cbn [write_loop]; [easy|].
  destruct (Z.ltb_spec head count) as [Hlth|]; [|easy].
  pose proof (block_size_pos fs Hok) as HB. pose proof (Z.mod_pos_bound (offset + head) (m_BlockSize fs) HB) as Hm.
  set (q := offset + head) in *. unfold u64. rewrite (wrap_small 64 q) by (unfold in_u; lia).
  set (size := Z.min (count - head) (m_BlockSize fs - q mod m_BlockSize fs)). set (bs := take (Z.to_nat size) (drop (Z.to_nat head) inp)).
  assert (Hlen : Z.of_nat (length bs) = size) by (unfold bs; rewrite length_take, length_drop; lia).
  assert (Hbs : Forall byte bs) by (unfold bs; now apply Forall_take, Forall_drop). assert (Hq : 0 <= q < n * m_BlockSize fs) by lia.
  destruct (position_in fs meta n q bs) as ([[Hd0 Hd1] _] & Hk & Hap); trivial; [lia|].
  unfold u32. rewrite (wrap_small 32) by (unfold in_u; lia). fold (position fs meta q).
  rewrite wrap_small. 2:{ destruct Hok as (_ & _ & HD). unfold in_u. lia. }
  destruct (write_block fs meta n q bs) as [Hf' _]; trivial; [lia|]. assert (Hw : write_ok fs (position fs meta q) bs) by (split; [split|]; trivial).
  destruct (IH (dev_write fs (position fs meta q) bs) (head + size)) as (Hg & Hmb & He); trivial; try lia; [now apply fs_ok_write|]. pose proof (fo_map _ _ _ Hf) as Hmap.
  split_and!.
  - intros m Hmm. rewrite Hg by trivial. now apply GetINodeBlock_quiet.
  - intros b. rewrite Hmb. now apply map_block_quiet.
  - intros p len Ha. pose proof (fo_range _ _ _ Hf) as Hrange. rewrite He.
    + unfold dev_write. cbn [m_Device with_device]. apply extent_write_apart; trivial. rewrite Hlen. specialize (Ha _ Hk). unfold apart in Ha. unfold position. nia.
    + intros k Hk'. rewrite GetINodeBlock_quiet; trivial; [|unfold mappable; lia]. now apply Ha.
Qed.

(** ** The whole write *)

(** Inodes with the same block pointers describe the same file. *)
Definition same_blocks (meta meta' : list Z) : Prop := forall i, i < 15 -> block_of meta' i = block_of meta i.

Lemma GetINodeBlock_same fs meta meta' k : fs_ok fs -> same_blocks meta meta' -> mappable fs k ->
  GetINodeBlock fs meta' k = GetINodeBlock fs meta k.
Proof.
  intros Hok Hs Hk. pose proof (place_range fs k Hok Hk) as Hr. rewrite !GetINodeBlock_place by trivial.
  destruct (place_of fs k); unfold indirect; rewrite Hs by lia; reflexivity.
Qed.

Lemma map_block_same fs meta meta' b : same_blocks meta meta' -> map_block fs meta' b <-> map_block fs meta b.
Proof. intros Hs. unfold map_block, indirect. rewrite !Hs by lia. reflexivity. Qed.

Lemma file_ok_same fs meta meta' n : fs_ok fs -> same_blocks meta meta' -> file_ok fs meta n ->
  file_ok fs meta' n /\ forall i, 0 <= i < n * m_BlockSize fs -> byte_at fs meta' i = byte_at fs meta i.
Proof.
  intros Hok Hs Hf. pose proof (fo_range _ _ _ Hf) as Hr. pose proof (block_size_pos fs Hok) as HB.
  assert (Hg : forall k, 0 <= k < n -> GetINodeBlock fs meta' k = GetINodeBlock fs meta k).
  { intros k Hk. apply GetINodeBlock_same; trivial. unfold mappable. lia. }
  split.
  - split; trivial.
    + intros b Hb. apply (fo_map _ _ _ Hf). now apply (map_block_same fs meta meta').
    + intros k Hk. rewrite Hg by trivial. now apply (fo_blocks _ _ _ Hf).
    + intros k Hk. rewrite Hg by trivial. now apply (fo_assigned _ _ _ Hf).
    + intros k Hk Hb. rewrite Hg in Hb by trivial. apply (fo_data _ _ _ Hf k Hk). now apply (map_block_same fs meta meta').
    + intros k k' Hk Hk' E. rewrite !Hg in E by trivial. now apply (fo_inj _ _ _ Hf).
  - intros i Hi. unfold byte_at. rewrite Hg; trivial. split; [apply Z.div_pos|apply Z.div_lt_upper_bound]; lia.
Qed.

Lemma SetSize_same meta x : length meta = sizeof_INodeMeta -> same_blocks meta (SetSize meta x).
Proof.
  intros Hl i Hi. unfold SetSize, block_of.
  rewrite !get_set_field_apart; trivial; unfold fields_apart, field_in, Blocks; rewrite ?set_field_length;
    unfold field_in; rewrite ?Hl; unfold sizeof_INodeMeta; cbn; lia.
Qed.

Lemma GetSize_SetSize meta x : length meta = sizeof_INodeMeta -> in_u 64 x -> GetSize (SetSize meta x) = x.
Proof.
  intros Hl [Hx0 Hx1]. unfold GetSize, SetSize.
  rewrite get_set_field_apart, !get_set_field by (unfold fields_apart, field_in; rewrite ?set_field_length; unfold field_in; rewrite ?Hl; unfold sizeof_INodeMeta; cbn; lia).
  cbn [f_size SizeLow SizeHigh]. change (256 ^ Z.of_nat 4) with (2 ^ 32).
  rewrite (Z.mod_small (x .>> 32)) by (rewrite Z.shiftr_div_pow2 by lia; split; [apply Z.div_pos|apply Z.div_lt_upper_bound]; lia).
  rewrite <- Z.land_ones by lia. bitwise i. rewrite testbit_ones, Z.shiftl_spec by lia.
  destruct (Z.ltb_spec i 32); cbn.
  - rewrite (Z.testbit_neg_r _ (i - 32)) by lia. now rewrite andb_true_r, orb_false_r.
  - rewrite Z.shiftr_spec, andb_false_r by lia. cbn. f_equal. lia.
Qed.

Lemma write_loop_size fuel : forall fs meta inp offset head count,
  m_BlockSize (write_loop fuel fs meta inp offset head count) = m_BlockSize fs.
Proof. induction fuel as [|fuel IH]; intros; cbn [write_loop]; [reflexivity|]. destruct (_ <? _); [now rewrite IH|reflexivity]. Qed.

Lemma write_loop_ok fuel : forall fs meta inp offset head count, fs_ok fs -> fs_ok (write_loop fuel fs meta inp offset head count).
Proof. induction fuel as [|fuel IH]; intros; cbn [write_loop]; trivial. destruct (_ <? _); trivial. now apply IH, fs_ok_write. Qed.

(** The inode's own entry lies on the device, apart from the descriptor it is found by and
    from the blocks of the file. *)
Definition group_of fs (inode : Z) : Z := u32 (inode - 1) / get_field sb_INodesPerGroup (m_SuperBlock fs).
Record entry_ok fs (meta : list Z) (inode n : Z) : Prop := {
  eo_in : in_device (m_Device fs) (inode_offset uninit fs inode) 128;
  eo_descriptor : in_device (m_Device fs) (descriptor_offset fs (group_of fs inode)) 32;
  eo_apart : inode_offset uninit fs inode + 128 <= descriptor_offset fs (group_of fs inode)
             \/ descriptor_offset fs (group_of fs inode) + 32 <= inode_offset uninit fs inode;
  eo_map b : map_block fs meta b -> apart fs (inode_offset uninit fs inode) 128 b;
  eo_data k : 0 <= k < n -> apart fs (inode_offset uninit fs inode) 128 (GetINodeBlock fs meta k)
}.

Lemma inode_offset_write fs meta inode n bs : entry_ok fs meta inode n -> write_ok fs (inode_offset uninit fs inode) bs -> length bs = 128%nat ->
  inode_offset uninit (dev_write fs (inode_offset uninit fs inode) bs) inode = inode_offset uninit fs inode.
Proof.
  intros He Hw Hl. set (off := inode_offset uninit fs inode) in *. unfold inode_offset at 1.
  change (m_SuperBlock (dev_write fs off bs)) with (m_SuperBlock fs). fold (group_of fs inode).
  assert (ReadBlockGroupDescriptor (dev_write fs off bs) uninit (group_of fs inode) = ReadBlockGroupDescriptor fs uninit (group_of fs inode)) as ->; [|reflexivity].
  unfold ReadBlockGroupDescriptor, dev_read. change (descriptor_offset (dev_write fs off bs)) with (descriptor_offset fs).
  destruct (eo_descriptor _ _ _ _ He) as [H0 H1]. pose proof (eo_apart _ _ _ _ He) as Ha. destruct Hw as [[H2 H3] Hb].
  unfold dev_write. cbn [m_Device with_device]. rewrite !device_Read_spec by (rewrite ?device_Write_size; trivial).
  apply (extent_write_apart (m_Device fs) off bs _ sizeof_BlockGroupDescriptor); trivial. rewrite Hl. fold off in Ha.
  unfold sizeof_BlockGroupDescriptor. lia.
Qed.

(** Writing the entry changes neither the file nor the place of the entry. *)
Lemma WriteINodeEntry_quiet fs meta inode n new : fs_ok fs -> file_ok fs meta n -> entry_ok fs meta inode n ->
  length new = sizeof_INodeMeta -> Forall byte new ->
  let fs' := WriteINodeEntry uninit fs new inode in
  file_ok fs' meta n /\ entry_ok fs' meta inode n /\ (forall m, mappable fs m -> GetINodeBlock fs' meta m = GetINodeBlock fs meta m)
  /\ forall i, 0 <= i < n * m_BlockSize fs -> byte_at fs' meta i = byte_at fs meta i.
Proof.
  intros Hok Hf He Hl Hb. cbv zeta. unfold WriteINodeEntry. pose proof (eo_in _ _ _ _ He) as Hin.
  assert (Hw : write_ok fs (inode_offset uninit fs inode) new) by (split; [rewrite Hl|]; trivial).
  assert (Hq : forall b, map_block fs meta b -> apart fs (inode_offset uninit fs inode) (Z.of_nat (length new)) b).
  { intros b Hmb. rewrite Hl. now apply He. }
  pose proof (inode_offset_write fs meta inode n new He Hw Hl) as Hoff. pose proof (fo_range _ _ _ Hf) as Hr.
  pose proof (block_size_pos fs Hok) as HB.
  split_and!.
  - now apply file_ok_quiet; trivial; apply Hf.
  - destruct He as [H1 H2 H3 H4 H5]. split; rewrite ?Hoff; unfold in_device; cbn [m_Device dev_write with_device]; rewrite ?device_Write_size; trivial.
    + intros b Hmb%map_block_quiet; trivial; [now apply H4|apply Hf].
    + intros k Hk. rewrite GetINodeBlock_quiet; trivial; [now apply H5|apply Hf|unfold mappable; lia].
  - intros m Hm. apply GetINodeBlock_quiet; trivial. apply Hf.
  - intros i Hi. rewrite (byte_at_write fs meta _ new n) by trivial. cbv zeta.
    assert (Hk : 0 <= i / m_BlockSize fs < n) by (split; [apply Z.div_pos|apply Z.div_lt_upper_bound]; lia).
    pose proof (eo_data _ _ _ _ He _ Hk) as Ha. unfold apart in Ha. pose proof (Z.mod_pos_bound i (m_BlockSize fs) HB).
    rewrite Hl. change (Z.of_nat sizeof_INodeMeta) with 128. destruct (decide _); [nia|reflexivity].
Qed.

Lemma assign_blocks_noop fs meta inode (ks : list Z) n : n <= 2 ^ 32 -> file_ok fs meta n -> Forall (fun k => 0 <= k < n) ks ->
  foldl (assign_block uninit inode) (fs, meta) ks = (fs, meta).
Proof.
  intros Hn Hf. induction 1 as [|k ks Hk _ IH]; cbn [foldl]; [reflexivity|].
  unfold assign_block at 2. unfold u32. rewrite wrap_small by (unfold in_u; lia). unfold truthy.
  destruct (Z.eqb_spec (GetINodeBlock fs meta k) 0) as [E|]; [now destruct (fo_assigned _ _ _ Hf k Hk)|]. exact IH.
Qed.

Lemma GrowINode_noop fs meta inode n start count : fs_ok fs -> n <= 2 ^ 32 -> file_ok fs meta n ->
  0 <= start -> 0 <= count < 2 ^ 63 -> start / m_BlockSize fs + (count + m_BlockSize fs - 1) / m_BlockSize fs <= n ->
  GrowINode uninit fs meta inode start count = (WriteINodeEntry uninit fs meta inode, meta).
Proof.
  intros Hok Hn Hf Hs Hc Hle. pose proof (block_size_pos fs Hok) as HB. unfold GrowINode, AssignINodeBlocks.
  assert (m_BlockSize fs < 2 ^ 63) by (destruct Hok as (-> & ? & _); lia).
  unfold u64. rewrite wrap_small by (unfold in_u; lia). rewrite (assign_blocks_noop _ _ _ _ n); trivial.
  apply list.Forall_forall. intros k Hk%elem_of_seqZ. pose proof (Z.div_pos start (m_BlockSize fs) Hs HB). lia.
Qed.

(** A write up to the loop: the entry is written, with the new size; the file is the same. *)
Lemma WriteINode_prepare fs meta inp inode n offset count : fs_ok fs -> n <= 2 ^ 32 -> file_ok fs meta n -> entry_ok fs meta inode n ->
  length meta = sizeof_INodeMeta -> Forall byte meta -> 0 <= GetSize meta ->
  0 <= offset -> 0 <= count -> offset / m_BlockSize fs + (count + m_BlockSize fs - 1) / m_BlockSize fs <= n -> offset + count < 2 ^ 63 ->
  exists fs' meta', WriteINode uninit fs meta inp inode offset count = (write_loop (Z.to_nat count) fs' meta' inp offset 0 count, meta', count)
    /\ GetSize meta' = Z.max (GetSize meta) (offset + count) /\ same_blocks meta meta' /\ fs_ok fs' /\ file_ok fs' meta' n
    /\ m_BlockSize fs' = m_BlockSize fs /\ device_size (m_Device fs') = device_size (m_Device fs)
    /\ (forall m, mappable fs m -> GetINodeBlock fs' meta' m = GetINodeBlock fs meta m)
    /\ forall i, 0 <= i < n * m_BlockSize fs -> byte_at fs' meta' i = byte_at fs meta i.
Proof.
  intros Hok Hn Hf He Hl Hmb Hs Ho Hc Hle Hlt. unfold WriteINode. rewrite (GrowINode_noop fs meta inode n) by (trivial; lia).
  destruct (WriteINodeEntry_quiet fs meta inode n meta) as (Hf1 & He1 & Hm1 & Hb1); trivial.
  assert (Hok1 : fs_ok (WriteINodeEntry uninit fs meta inode)) by now apply fs_ok_write.
  assert (Hd1 : device_size (m_Device (WriteINodeEntry uninit fs meta inode)) = device_size (m_Device fs)) by apply device_Write_size.
  set (fs1 := WriteINodeEntry uninit fs meta inode) in *. unfold u64. rewrite wrap_small by (unfold in_u; lia).
  destruct (Z.ltb_spec (GetSize meta) (offset + count)) as [Hgrow|Hkeep].
  2:{ exists fs1, meta. split_and!; trivial; [lia|now intros ? ?]. }
  set (meta' := SetSize meta (offset + count)). pose proof (SetSize_same meta (offset + count) Hl) as Hsame. fold meta' in Hsame.
  assert (Hl' : length meta' = sizeof_INodeMeta).
  { unfold meta', SetSize. rewrite !set_field_length; trivial; unfold field_in; rewrite ?set_field_length; unfold field_in; rewrite Hl; unfold sizeof_INodeMeta; cbn; lia. }
  destruct (WriteINodeEntry_quiet fs1 meta inode n meta') as (Hf2 & _ & Hm2 & Hb2); trivial; [now apply set_field_bytes, set_field_bytes|].
  assert (Hok2 : fs_ok (WriteINodeEntry uninit fs1 meta' inode)) by now apply fs_ok_write.
  assert (Hd2 : device_size (m_Device (WriteINodeEntry uninit fs1 meta' inode)) = device_size (m_Device fs1)) by apply device_Write_size.
  set (fs2 := WriteINodeEntry uninit fs1 meta' inode) in *.
  destruct (file_ok_same fs2 meta meta' n Hok2 Hsame Hf2) as [Hf2' Hb2'].
  exists fs2, meta'. split_and!; trivial; try congruence.
  - unfold meta'. rewrite GetSize_SetSize by (trivial; unfold in_u; lia). lia.
  - intros m Hm. rewrite (GetINodeBlock_same fs2 meta meta'), Hm2, Hm1 by trivial. reflexivity.
  - intros i Hi. rewrite Hb2', Hb2, Hb1 by trivial. reflexivity.
Qed.

Lemma blocks_below fs start count n : 0 < m_BlockSize fs -> 0 <= start -> 0 <= count -> start + count <= n * m_BlockSize fs ->
  start / m_BlockSize fs + (count + m_BlockSize fs - 1) / m_BlockSize fs <= n.
Proof.
  intros HB Hs Hc Hle. pose proof (Z.mul_div_le start (m_BlockSize fs) HB). pose proof (Z.mul_div_le (count + m_BlockSize fs - 1) (m_BlockSize fs) HB).
  nia.
Qed.

Lemma WriteINode_spec fs meta inp inode n offset count : fs_ok fs -> n <= 2 ^ 32 -> file_ok fs meta n -> entry_ok fs meta inode n ->
  length meta = sizeof_INodeMeta -> Forall byte meta -> Forall byte inp -> 0 <= GetSize meta ->
  0 <= offset -> 0 <= count <= Z.of_nat (length inp) -> offset + count <= n * m_BlockSize fs -> offset + count < 2 ^ 63 ->
  exists fs' meta', WriteINode uninit fs meta inp inode offset count = (fs', meta', count)
    /\ GetSize meta' = Z.max (GetSize meta) (offset + count) /\ same_blocks meta meta' /\ file_ok fs' meta' n
    /\ m_BlockSize fs' = m_BlockSize fs /\ fs_ok fs'
    /\ forall i, 0 <= i < n * m_BlockSize fs ->
         byte_at fs' meta' i = if decide (offset <= i < offset + count) then nth (Z.to_nat (i - offset)) inp 0 else byte_at fs meta i.
Proof.
  intros Hok Hn Hf He Hl Hmb Hib Hs Ho Hc Hle Hlt. pose proof (block_size_pos fs Hok) as HB.
  destruct (WriteINode_prepare fs meta inp inode n offset count) as (fs1 & meta1 & -> & Hsz & Hsame & Hok1 & Hf1 & HB1 & _ & _ & Hb1); trivial; try lia.
  { apply blocks_below; lia. }
  destruct (write_loop_spec meta1 n inp offset count Hib Ho Hlt Hc (Z.to_nat count) fs1 0) as [Hf3 Hb3]; trivial; try lia.
  eexists _, _. split; [reflexivity|]. split_and!; trivial; [now rewrite write_loop_size|now apply write_loop_ok|].
  intros i Hi. rewrite Hb3, Z.add_0_r, Hb1 by (rewrite ?HB1; trivial). reflexivity.
Qed.

(** One round of the write loop that stays inside the assigned blocks. *)
Lemma write_round fuel fs meta n inp offset head count : fs_ok fs -> file_ok fs meta n -> n <= 2 ^ 32 -> Forall byte inp ->
  0 <= offset -> 0 <= head < count -> offset + count < 2 ^ 63 -> count <= Z.of_nat (length inp) -> offset + head < n * m_BlockSize fs ->
  let q := offset + head in
  let size := Z.min (count - head) (m_BlockSize fs - q mod m_BlockSize fs) in
  let bs := take (Z.to_nat size) (drop (Z.to_nat head) inp) in
  write_loop (S fuel) fs meta inp offset head count = write_loop fuel (dev_write fs (position fs meta q) bs) meta inp offset (head + size) count
  /\ write_ok fs (position fs meta q) bs /\ Z.of_nat (length bs) = size
  /\ q mod m_BlockSize fs + size <= m_BlockSize fs
  /\ forall b, map_block fs meta b -> apart fs (position fs meta q) (Z.of_nat (length bs)) b.
Proof.
  intros Hok Hf Hn Hib Ho Hh Hlt Hl Hq q size bs. pose proof (block_size_pos fs Hok) as HB.
  pose proof (Z.mod_pos_bound q (m_BlockSize fs) HB) as Hm.
  assert (Hbl : Z.of_nat (length bs) = size) by (unfold bs; rewrite length_take, length_drop; lia).
  destruct (position_in fs meta n q bs) as (Hw & Hk & Ha); trivial; [lia|lia|unfold bs; now apply Forall_take, Forall_drop|].
  split_and!; trivial; [|lia]. cbn [write_loop]. destruct (Z.ltb_spec head count); [|lia]. fold q. unfold u64, u32.
  rewrite (wrap_small 64 q) by (unfold in_u; lia). rewrite (wrap_small 32) by (unfold in_u; lia). fold size bs (position fs meta q).
  rewrite wrap_small; [reflexivity|]. destruct Hw as [[Hd0 Hd1] _]. destruct Hok as (_ & _ & HD). unfold in_u. lia.
Qed.

(** The loop of a write that crosses into an unassigned block: the second part goes to
    block 0 of the disk. *)
Lemma write_loop_straddle fs meta inp offset count : let k := offset / m_BlockSize fs in
  fs_ok fs -> k + 1 < 2 ^ 32 -> file_ok fs meta (k + 1) -> mappable fs (k + 1) -> Forall byte inp -> 0 <= offset -> offset + count < 2 ^ 63 ->
  count <= Z.of_nat (length inp) -> count <= m_BlockSize fs < offset mod m_BlockSize fs + count -> GetINodeBlock fs meta (k + 1) = 0 ->
  let first := Z.to_nat (m_BlockSize fs - offset mod m_BlockSize fs) in
  extent (m_Device (write_loop (Z.to_nat count) fs meta inp offset 0 count)) 0 (Z.to_nat count - first) = drop first (take (Z.to_nat count) inp).
Proof.
  intros k Hok Hk Hf Hmap Hib Ho Hlt Hcl Hc Hz. cbv zeta. pose proof (block_size_pos fs Hok) as HB.
  pose proof (Z.div_mod offset (m_BlockSize fs) ltac:(lia)) as Hd. pose proof (Z.mod_pos_bound offset (m_BlockSize fs) HB) as Hm.
  pose proof (Z.div_pos offset (m_BlockSize fs) Ho HB) as Hk0. fold k in Hd, Hk0.
  replace (Z.to_nat count) with (S (S (Z.to_nat (count - 2)))) at 1 by lia.
  destruct (write_round (S (Z.to_nat (count - 2))) fs meta (k + 1) inp offset 0 count) as (-> & Hw & Hbl & _ & Ha); trivial; try lia.
  rewrite Z.add_0_r in *. set (first := m_BlockSize fs - offset mod m_BlockSize fs) in *.
  replace (Z.min (count - 0) first) with first in * by lia. set (fs2 := dev_write _ _ _).
  assert (Hz2 : GetINodeBlock fs2 meta (k + 1) = 0) by (unfold fs2; rewrite GetINodeBlock_quiet; trivial; apply Hf).
  rewrite Z.add_0_l. cbn [write_loop]. destruct (Z.ltb_spec first count); [|lia]. change (m_BlockSize fs2) with (m_BlockSize fs).
  unfold u64, u32. rewrite (wrap_small 64 (offset + first)) by (unfold in_u; lia).
  replace ((offset + first) / m_BlockSize fs) with (k + 1) by (apply (Z.div_unique _ _ _ 0); lia).
  replace ((offset + first) mod m_BlockSize fs) with 0 by (apply (Z.mod_unique _ _ (k + 1)); lia).
  rewrite (wrap_small 32) by (unfold in_u; lia). rewrite Hz2, Z.mul_0_l, Z.add_0_l. change (wrap 64 0) with 0.
  replace (Z.min (count - first) (m_BlockSize fs - 0)) with (count - first) by lia.
  replace (first + (count - first)) with count by lia. set (bs2 := take (Z.to_nat (count - first)) (drop (Z.to_nat first) inp)).
  assert (Hbl2 : length bs2 = (Z.to_nat count - Z.to_nat first)%nat) by (unfold bs2; rewrite length_take, length_drop; lia).
  transitivity (extent (device_Write (m_Device fs2) 0 bs2) 0 (length bs2)).
  - rewrite Hbl2. destruct (Z.to_nat (count - 2)); cbn [write_loop]; rewrite ?Z.ltb_irrefl; reflexivity.
  - rewrite extent_write_same; [|lia| |unfold bs2; now apply Forall_take, Forall_drop].
    + unfold bs2. rewrite List.skipn_firstn_comm. f_equal. lia.
    + unfold fs2, dev_write. cbn [m_Device with_device]. rewrite device_Write_size.
      destruct (fo_blocks _ _ _ Hf k ltac:(lia)) as [Hb0 Hb1]. pose proof (fo_assigned _ _ _ Hf k ltac:(lia)). nia.
Qed.

(** Only as many blocks are assigned as the length fills. *)
Lemma WriteINode_straddle fs meta inp inode offset count : let k := offset / m_BlockSize fs in
  fs_ok fs -> k + 1 < 2 ^ 32 -> file_ok fs meta (k + 1) -> entry_ok fs meta inode (k + 1) -> mappable fs (k + 1) ->
  length meta = sizeof_INodeMeta -> Forall byte meta -> Forall byte inp -> 0 <= GetSize meta -> 0 <= offset -> offset + count < 2 ^ 63 ->
  count <= Z.of_nat (length inp) -> count <= m_BlockSize fs < offset mod m_BlockSize fs + count -> GetINodeBlock fs meta (k + 1) = 0 ->
  exists fs' meta', WriteINode uninit fs meta inp inode offset count = (fs', meta', count)
    /\ let first := Z.to_nat (m_BlockSize fs - offset mod m_BlockSize fs) in
       extent (m_Device fs') 0 (Z.to_nat count - first) = drop first (take (Z.to_nat count) inp).
Proof.
  intros k Hok Hk Hf He Hmap Hl Hmb Hib Hs Ho Hlt Hcl Hc Hz. pose proof (block_size_pos fs Hok) as HB.
  pose proof (Z.mod_pos_bound offset (m_BlockSize fs) HB) as Hm.
  destruct (WriteINode_prepare fs meta inp inode (k + 1) offset count) as (fs1 & meta1 & -> & _ & Hsame & Hok1 & Hf1 & HB1 & HD1 & Hm1 & _); trivial; try lia.
  { fold k. replace ((count + m_BlockSize fs - 1) / m_BlockSize fs) with 1 by (apply (Z.div_unique _ _ _ (count - 1)); lia). lia. }
  eexists _, _. split; [reflexivity|]. pose proof (write_loop_straddle fs1 meta1 inp offset count) as H. cbv zeta in H |- *.
  rewrite HB1 in H. apply H; trivial; [unfold mappable, blockLevel in *; now rewrite HB1|]. fold k. now rewrite Hm1.
Qed.
End Files.
