(* ===== verification/Ext2Alloc.v ===== *)
(** * ext2: allocation in the block bitmaps

    The abstract state is the set of blocks in use; allocation and release change it at
    one block. *)

From Stdlib Require Import ZArith Lia Bool.
From stdpp Require Import base gmap list numbers.
From S2P Require Import Prelude Disk Ext2 Ext2Proofs.

Import Ext2.

Section Alloc.
Context {D : Type} {Dev : Device D} {Bits : RawBitmap} (uninit : list Z).
Implicit Types fs : Ext2Fs D.

(** The descriptor of a group, its block bitmap, and whether a block is in use. *)
Definition descriptor fs (g : Z) : list Z := extent (m_Device fs) (descriptor_offset fs g) sizeof_BlockGroupDescriptor.
Definition bitmap_block fs (g : Z) : Z := get_field BlockUsageBitmapAddress (descriptor fs g).
Definition bitmap fs (g : Z) : list Z := extent (m_Device fs) (bitmap_block fs g * m_BlockSize fs) (Z.to_nat (m_BlockSize fs)).
Definition used fs (b : Z) : bool := raw_Get (bitmap fs (b / m_BlocksPerGroup fs)) (b mod m_BlocksPerGroup fs).

(** [n] groups of as many blocks as a bitmap block has bits; descriptors and bitmaps on the
    device, the bitmaps different blocks outside the table of descriptors. *)
Record groups_ok fs (n : Z) : Prop := {
  go_fs : fs_ok fs;
  go_blocks : m_BlocksPerGroup fs = 8 * m_BlockSize fs;
  go_table : in_device (m_Device fs) (descriptor_offset fs 0) (32 * n);
  go_bitmap g : 0 <= g < n -> block_in fs (bitmap_block fs g);
  go_apart g : 0 <= g < n -> (bitmap_block fs g + 1) * m_BlockSize fs <= descriptor_offset fs 0
                             \/ descriptor_offset fs n <= bitmap_block fs g * m_BlockSize fs;
  go_inj g g' : 0 <= g < n -> 0 <= g' < n -> bitmap_block fs g = bitmap_block fs g' -> g = g'
}.

Lemma descriptor_offset_spec fs g : descriptor_offset fs g = descriptor_offset fs 0 + 32 * g.
Proof. unfold descriptor_offset. lia. Qed.

Lemma descriptor_offset_with d fs g : descriptor_offset (with_device d fs) g = descriptor_offset fs g.
Proof. reflexivity. Qed.

Lemma descriptor_in fs n g : groups_ok fs n -> 0 <= g < n -> in_device (m_Device fs) (descriptor_offset fs g) 32.
Proof. intros H Hg. pose proof (go_table _ _ H) as [H0 H1]. rewrite descriptor_offset_spec. unfold in_device. lia. Qed.
Lemma ReadBlockGroupDescriptor_spec fs n g old : groups_ok fs n -> 0 <= g < n -> ReadBlockGroupDescriptor fs old g = descriptor fs g.
Proof.
  intros H Hg. destruct (descriptor_in fs n g H Hg) as [H0 H1]. unfold ReadBlockGroupDescriptor, dev_read.
  now rewrite device_Read_spec.
Qed.
Lemma bitmap_in fs n g : groups_ok fs n -> 0 <= g < n -> in_device (m_Device fs) (bitmap_block fs g * m_BlockSize fs) (m_BlockSize fs).
Proof.
  intros H Hg. destruct (go_bitmap _ _ H g Hg) as [H0 H1]. destruct (go_fs _ _ H) as (HB & HL & _). unfold in_device. nia.
Qed.
Lemma read_bitmap fs n g old : groups_ok fs n -> 0 <= g < n ->
  dev_read fs (bitmap_block fs g * m_BlockSize fs) (Z.to_nat (m_BlockSize fs)) old = bitmap fs g.
Proof.
  intros H Hg. destruct (bitmap_in fs n g H Hg) as [H0 H1]. destruct (go_fs _ _ H) as (HB & HL & _). unfold dev_read.
  rewrite device_Read_spec by lia. reflexivity.
Qed.
Lemma bitmap_length fs g : length (bitmap fs g) = Z.to_nat (m_BlockSize fs).
Proof. apply extent_length. Qed.

Definition update_group fs (g : Z) (bits desc : list Z) : Ext2Fs D :=
  WriteBlockGroupDescriptor (dev_write fs (bitmap_block fs g * m_BlockSize fs) bits) desc g.

Section Update.
Context fs (n g : Z) (bits desc : list Z).
Context (Hg : groups_ok fs n) (Hgn : 0 <= g < n).
Context (Hbits : length bits = Z.to_nat (m_BlockSize fs)) (Hbb : Forall byte bits).
Context (Hdesc : length desc = sizeof_BlockGroupDescriptor) (Hdb : Forall byte desc).
Context (Haddr : get_field BlockUsageBitmapAddress desc = bitmap_block fs g).

Lemma update_descriptor g' : 0 <= g' < n -> descriptor (update_group fs g bits desc) g' = if g' =? g then desc else descriptor fs g'.
Proof.
  intros Hg'. destruct (bitmap_in fs n g Hg Hgn) as [Hb0 Hb1]. destruct (descriptor_in fs n g Hg Hgn) as [Hd0 Hd1].
  destruct (descriptor_in fs n g' Hg Hg') as [Hd0' Hd1']. pose proof (go_apart _ _ Hg g Hgn) as Ha.
  destruct (go_fs _ _ Hg) as (HB & HL & _). pose proof (descriptor_offset_spec fs n) as En.
  unfold descriptor, update_group, WriteBlockGroupDescriptor, dev_write. cbn [m_Device with_device].
  rewrite !descriptor_offset_with, (descriptor_offset_spec fs g), (descriptor_offset_spec fs g') in *.
  destruct (Z.eqb_spec g' g) as [->|Hne].
  - rewrite <- Hdesc. apply extent_write_same; rewrite ?device_Write_size, ?Hdesc; trivial.
  - rewrite extent_write_apart; rewrite ?device_Write_size, ?Hdesc; trivial; unfold sizeof_BlockGroupDescriptor; [|lia].
    apply extent_write_apart; trivial; rewrite ?Hbits; lia.
Qed.

Lemma update_bitmap_block g' : 0 <= g' < n -> bitmap_block (update_group fs g bits desc) g' = bitmap_block fs g'.
Proof. intros Hg'. unfold bitmap_block. rewrite update_descriptor by trivial. destruct (Z.eqb_spec g' g) as [->|]; trivial. Qed.

Lemma update_bitmap g' : 0 <= g' < n -> bitmap (update_group fs g bits desc) g' = if g' =? g then bits else bitmap fs g'.
Proof.
  intros Hg'. unfold bitmap. rewrite update_bitmap_block by trivial. change (m_BlockSize (update_group fs g bits desc)) with (m_BlockSize fs).
  destruct (bitmap_in fs n g Hg Hgn) as [Hb0 Hb1]. destruct (bitmap_in fs n g' Hg Hg') as [Hb0' Hb1']. destruct (descriptor_in fs n g Hg Hgn) as [Hd0 Hd1].
  pose proof (go_apart _ _ Hg g' Hg') as Ha. destruct (go_fs _ _ Hg) as (HB & HL & _).
  pose proof (descriptor_offset_spec fs n) as En. rewrite (descriptor_offset_spec fs g) in *.
  unfold update_group, WriteBlockGroupDescriptor, dev_write. cbn [m_Device with_device].
  rewrite !descriptor_offset_with, (descriptor_offset_spec fs g).
  rewrite extent_write_apart; rewrite ?device_Write_size, ?Hdesc; trivial; unfold sizeof_BlockGroupDescriptor; [|lia].
  destruct (Z.eqb_spec g' g) as [->|Hne].
  - rewrite <- Hbits. apply extent_write_same; trivial. rewrite Hbits. lia.
  - assert (bitmap_block fs g <> bitmap_block fs g') by (intros E; apply Hne; now apply (go_inj _ _ Hg)).
    apply extent_write_apart; trivial; rewrite ?Hbits; [lia|].
    destruct (Z.lt_ge_cases (bitmap_block fs g) (bitmap_block fs g')); nia.
Qed.

Lemma update_used b : 0 <= b < n * m_BlocksPerGroup fs ->
  used (update_group fs g bits desc) b = if b / m_BlocksPerGroup fs =? g then raw_Get bits (b mod m_BlocksPerGroup fs) else used fs b.
Proof.
  intros Hb. unfold used. change (m_BlocksPerGroup (update_group fs g bits desc)) with (m_BlocksPerGroup fs).
  destruct (go_fs _ _ Hg) as (HB & HL & _). pose proof (go_blocks _ _ Hg).
  rewrite update_bitmap by (split; [apply Z.div_pos|apply Z.div_lt_upper_bound]; lia). now destruct (_ =? g).
Qed.
End Update.

(** ** File systems with the same bytes *)
Record same_bytes fs fs' : Prop := {
  sb_bytes i : device_byte (m_Device fs') i = device_byte (m_Device fs) i;
  sb_size : device_size (m_Device fs') = device_size (m_Device fs);
  sb_block : m_BlockSize fs' = m_BlockSize fs;
  sb_blocks : m_BlocksPerGroup fs' = m_BlocksPerGroup fs
}.
Lemma same_extent fs fs' off n : same_bytes fs fs' -> extent (m_Device fs') off n = extent (m_Device fs) off n.
Proof. intros H. apply extent_eq. intros i _. apply H. Qed.
Lemma same_offset fs fs' g : same_bytes fs fs' -> descriptor_offset fs' g = descriptor_offset fs g.
Proof. intros H. unfold descriptor_offset. now rewrite (sb_block _ _ H). Qed.
Lemma same_bitmap_block fs fs' g : same_bytes fs fs' -> bitmap_block fs' g = bitmap_block fs g.
Proof. intros H. unfold bitmap_block, descriptor. now rewrite (same_offset fs fs'), (same_extent fs fs'). Qed.
Lemma same_bitmap fs fs' g : same_bytes fs fs' -> bitmap fs' g = bitmap fs g.
Proof. intros H. unfold bitmap. now rewrite (same_bitmap_block fs fs'), (same_extent fs fs'), (sb_block _ _ H). Qed.
Lemma same_used fs fs' b : same_bytes fs fs' -> used fs' b = used fs b.
Proof. intros H. unfold used. now rewrite (same_bitmap fs fs'), (sb_blocks _ _ H). Qed.
Lemma same_groups_ok fs fs' n : same_bytes fs fs' -> groups_ok fs n -> groups_ok fs' n.
Proof.
  intros H [H1 H2 H3 H4 H5 H6]. pose proof (sb_block _ _ H) as HB. pose proof (sb_size _ _ H) as HS. split.
  - unfold fs_ok, blockLevel in *. now rewrite HB, HS.
  - now rewrite (sb_blocks _ _ H), HB.
  - unfold in_device in *. now rewrite (same_offset fs fs'), HS.
  - intros g Hg. unfold block_in in *. rewrite (same_bitmap_block fs fs'), HB, HS by trivial. now apply H4.
  - intros g Hg. rewrite (same_bitmap_block fs fs'), !(same_offset fs fs'), HB by trivial. now apply H5.
  - intros g g' Hg Hg'. rewrite !(same_bitmap_block fs fs') by trivial. now apply H6.
Qed.

(** Writing the descriptor alone is the update with the bitmap left as it is. *)
Lemma write_descriptor_same fs n g desc : groups_ok fs n -> 0 <= g < n -> length desc = sizeof_BlockGroupDescriptor -> Forall byte desc ->
  same_bytes (update_group fs g (bitmap fs g) desc) (WriteBlockGroupDescriptor fs desc g).
Proof.
  intros Hg Hgn Hl Hb. destruct (bitmap_in fs n g Hg Hgn) as [H0 H1]. destruct (descriptor_in fs n g Hg Hgn) as [H2 H3].
  destruct (go_fs _ _ Hg) as (HB & HL & _). unfold update_group, WriteBlockGroupDescriptor, dev_write.
  split; cbn [m_Device with_device m_BlockSize m_BlocksPerGroup]; rewrite ?device_Write_size; trivial. intros i.
  rewrite descriptor_offset_with.
  rewrite !device_Write_spec; rewrite ?device_Write_size, ?Hl, ?bitmap_length; trivial; try lia; [|apply extent_bytes].
  destruct (decide _); [reflexivity|].
  pose proof (write_back (m_Device fs) (bitmap_block fs g * m_BlockSize fs) (Z.to_nat (m_BlockSize fs)) i H0 ltac:(lia)) as Hw.
  fold (bitmap fs g) in Hw. rewrite device_Write_spec, bitmap_length in Hw; rewrite ?bitmap_length; trivial; [easy|lia|apply extent_bytes].
Qed.

(** ** Allocation *)
(** The free blocks the descriptor of a group records; the first group beyond group 0 that has any. *)
Definition free_blocks fs (g : Z) : Z := get_field FreeBlockCount (descriptor fs g).
Definition first_group fs (n g : Z) : Prop := 1 <= g < n /\ 0 < free_blocks fs g /\ forall g', 1 <= g' < g -> free_blocks fs g' = 0.

Lemma same_free fs fs' g : same_bytes fs fs' -> free_blocks fs' g = free_blocks fs g.
Proof. intros H. unfold free_blocks, descriptor. now rewrite (same_offset fs fs'), (same_extent fs fs'). Qed.
Lemma free_blocks_range fs g : 0 <= free_blocks fs g < 2 ^ 16.
Proof.
  unfold free_blocks, get_field. pose proof (le_word_range (take 2 (drop 12 (descriptor fs g))) ltac:(apply Forall_take, Forall_drop, extent_bytes)) as H.
  rewrite length_take, length_drop in H. unfold descriptor in H. rewrite extent_length in H. exact H.
Qed.
Lemma find_group_first fs n from k : groups_ok fs n -> 1 <= from -> from + Z.of_nat k <= n -> (forall g, 1 <= g < from -> free_blocks fs g = 0) ->
  let g := find_group fs (seqZ from (Z.of_nat k)) in
  (g = 0 /\ forall g', 1 <= g' < from + Z.of_nat k -> free_blocks fs g' = 0) \/ (first_group fs n g).
Proof.
  intros Hg. revert from. induction k as [|k IH]; intros from Hf Hn Hz; [left; split; [reflexivity|]; intros g' Hg'; apply Hz; lia|].
  rewrite seqZ_cons by lia. cbn [find_group]. rewrite (ReadBlockGroupDescriptor_spec fs n) by (trivial; lia). fold (free_blocks fs from).
  destruct (Z.ltb_spec 0 (free_blocks fs from)) as [Hpos|Hle]; [right; split; [lia|auto]|].
  replace (Z.pred (Z.of_nat (S k))) with (Z.of_nat k) by lia. replace (from + Z.of_nat (S k)) with (Z.succ from + Z.of_nat k) by lia. apply IH; [lia..|].
  intros g Hg'. destruct (Z.eq_dec g from) as [->|]; [|apply Hz; lia]. pose proof (free_blocks_range fs from). lia.
Qed.

Lemma first_clear_spec bits from k :
  match first_clear bits (seqZ from (Z.of_nat k)) with
  | Some i => from <= i < from + Z.of_nat k /\ raw_Get bits i = false /\ forall j, from <= j < i -> raw_Get bits j = true
  | None => forall i, from <= i < from + Z.of_nat k -> raw_Get bits i = true
  end.
Proof.
  revert from. induction k as [|k IH]; intros from; [intros i; lia|]. rewrite seqZ_cons by lia. replace (Z.pred (Z.of_nat (S k))) with (Z.of_nat k) by lia. cbn [first_clear].
  destruct (raw_Get bits from) eqn:E; [|split_and!; trivial; lia].
  assert (Hstep : forall m j, (forall j, Z.succ from <= j < m -> raw_Get bits j = true) -> from <= j < m -> raw_Get bits j = true).
  { intros m j Hm Hj. destruct (Z.eq_dec j from) as [->|]; [exact E|]. apply Hm. lia. }
  specialize (IH (Z.succ from)). destruct (first_clear bits _) as [i|].
  - destruct IH as (Hi & Hc & Hb). split_and!; trivial; [lia|lia|]. intros j. now apply Hstep.
  - intros j Hj. apply (Hstep (Z.succ from + Z.of_nat k)); trivial. lia.
Qed.

Lemma count_field_ok fs g x : let desc := set_field FreeBlockCount x (descriptor fs g) in
  length desc = sizeof_BlockGroupDescriptor /\ Forall byte desc /\ get_field BlockUsageBitmapAddress desc = bitmap_block fs g.
Proof.
  intros desc. assert (Hin : field_in FreeBlockCount (length (descriptor fs g))) by (unfold descriptor; rewrite extent_length; now apply Nat.leb_le).
  split_and!.
  - unfold desc. rewrite set_field_length by trivial. apply extent_length.
  - apply set_field_bytes, extent_bytes.
  - unfold desc. rewrite get_set_field_apart; trivial. left. now apply Nat.leb_le.
Qed.

Lemma update_groups_ok fs n g bits desc : groups_ok fs n -> 0 <= g < n -> length bits = Z.to_nat (m_BlockSize fs) -> Forall byte bits ->
  length desc = sizeof_BlockGroupDescriptor -> Forall byte desc -> get_field BlockUsageBitmapAddress desc = bitmap_block fs g ->
  groups_ok (update_group fs g bits desc) n.
Proof.
  intros Hg Hgn H1 H2 H3 H4 H5. split.
  - unfold update_group, WriteBlockGroupDescriptor. apply fs_ok_write, fs_ok_write, Hg.
  - apply Hg.
  - destruct (go_table _ _ Hg). unfold in_device, update_group, WriteBlockGroupDescriptor, dev_write. cbn. now rewrite !device_Write_size.
  - intros g' Hg'. rewrite (update_bitmap_block fs n) by trivial. unfold update_group, WriteBlockGroupDescriptor. apply block_in_write, block_in_write. now apply Hg.
  - intros g' Hg'. rewrite (update_bitmap_block fs n) by trivial. now apply (go_apart _ _ Hg).
  - intros g' g'' Hg' Hg'' E. rewrite !(update_bitmap_block fs n) in E by trivial. now apply (go_inj _ _ Hg).
Qed.

(** Setting one bit of the bitmap of a group. *)
Lemma update_bit_used fs n g i v x b : groups_ok fs n -> 0 <= g < n -> 0 <= i < m_BlocksPerGroup fs -> 0 <= b < n * m_BlocksPerGroup fs ->
  used (update_group fs g (raw_Set (bitmap fs g) i v) (set_field FreeBlockCount x (descriptor fs g))) b =
    if b =? g * m_BlocksPerGroup fs + i then v else used fs b.
Proof.
  intros Hg Hgn Hi Hb. destruct (count_field_ok fs g x) as (H1 & H2 & H3). pose proof (go_blocks _ _ Hg) as Hbpg. destruct (go_fs _ _ Hg) as (HB & HL & _).
  assert (Hbl : length (raw_Set (bitmap fs g) i v) = Z.to_nat (m_BlockSize fs)) by (rewrite raw_Set_length; apply bitmap_length).
  assert (Hbb : Forall byte (raw_Set (bitmap fs g) i v)) by apply raw_Set_bytes, extent_bytes.
  rewrite (update_used fs n) by trivial.
  pose proof (Z.div_mod b (m_BlocksPerGroup fs) ltac:(lia)) as Hd. pose proof (Z.mod_pos_bound b (m_BlocksPerGroup fs) ltac:(lia)) as Hm.
  destruct (Z.eqb_spec (b / m_BlocksPerGroup fs) g) as [<-|Hne].
  - rewrite raw_Get_Set; [|apply extent_bytes|rewrite bitmap_length; lia|lia].
    destruct (Z.eqb_spec i (b mod m_BlocksPerGroup fs)), (Z.eqb_spec b (b / m_BlocksPerGroup fs * m_BlocksPerGroup fs + i)); trivial; lia.
  - destruct (Z.eqb_spec b (g * m_BlocksPerGroup fs + i)) as [E|]; [|reflexivity]. destruct Hne.
    symmetry. apply (Z.div_unique _ _ _ i); lia.
Qed.

(** The three ways [Ext2FsAllocator::AllocateBlock] goes: no group records a free block; the first
    that does has a full bitmap, and its count is set to 0; or its first free block is taken. *)
Lemma Allocator_AllocateBlock_cases fs fs' b : let n := m_BlockGroupCount fs in groups_ok fs n -> 1 <= n -> Allocator_AllocateBlock fs = (fs', b) ->
  (b = 0 /\ fs' = fs /\ forall g, 1 <= g < n -> free_blocks fs g = 0)
  \/ (b = 0 /\ exists g, first_group fs n g /\ (forall i, 0 <= i < m_BlocksPerGroup fs -> raw_Get (bitmap fs g) i = true)
      /\ fs' = WriteBlockGroupDescriptor fs (set_field FreeBlockCount 0 (descriptor fs g)) g)
  \/ (exists g i, first_group fs n g /\ 0 <= i < m_BlocksPerGroup fs /\ raw_Get (bitmap fs g) i = false /\ (forall j, 0 <= j < i -> raw_Get (bitmap fs g) j = true)
      /\ b = g * m_BlocksPerGroup fs + i /\ fs' = update_group fs g (raw_Set (bitmap fs g) i true) (set_field FreeBlockCount (free_blocks fs g - 1) (descriptor fs g))).
Proof.
  intros n Hg Hn. unfold Allocator_AllocateBlock. pose proof (find_group_first fs n 1 (Z.to_nat (n - 1)) Hg ltac:(lia) ltac:(lia) ltac:(lia)) as Hfind.
  cbn zeta in Hfind. rewrite !Z2Nat.id in Hfind by lia. change (find_group fs (seqZ 1 (n - 1))) with (LocateFreeGroup fs) in Hfind. pose proof (go_blocks _ _ Hg) as Hbpg. destruct (go_fs _ _ Hg) as (HB & HL & _).
  destruct Hfind as [[-> Hz]|Hfirst]; [cbn [Z.eqb]; intros [= <- <-]; left; split_and!; trivial; intros g Hgr; apply Hz; lia|].
  set (g := LocateFreeGroup fs) in *. destruct (proj1 Hfirst) as [Hg1 Hgn]. destruct (Z.eqb_spec g 0); [lia|].
  rewrite (ReadBlockGroupDescriptor_spec fs n) by (trivial; lia). fold (bitmap_block fs g). rewrite (read_bitmap fs n) by (trivial; lia).
  pose proof (first_clear_spec (bitmap fs g) 0 (Z.to_nat (m_BlockSize fs * 8))) as Hfc. rewrite Z2Nat.id in Hfc by lia.
  destruct (first_clear (bitmap fs g) (seqZ 0 (m_BlockSize fs * 8))) as [i|].
  - destruct Hfc as (Hi & Hclear & Hbelow). destruct (Z.eqb_spec (g * m_BlocksPerGroup fs + i) 0); [nia|].
    cbn [default from_option]. intros [= <- <-]. right. right. exists g, i. split_and!; trivial; lia.
  - rewrite Z.eqb_refl. intros [= <- <-]. right. left. split; [reflexivity|]. exists g. split_and!; trivial; try lia. intros i Hi. apply Hfc. lia.
Qed.

Lemma count_set fs g x : get_field FreeBlockCount (set_field FreeBlockCount x (descriptor fs g)) = x mod 2 ^ 16.
Proof. rewrite get_set_field; [reflexivity|]. unfold descriptor. rewrite extent_length. now apply Nat.leb_le. Qed.

(** ** The superblock *)
Record super_ok fs (n : Z) : Prop := {
  so_in : in_device (m_Device fs) 1024 236;
  so_length : length (m_SuperBlock fs) = sizeof_SuperBlock;
  so_bytes : Forall byte (m_SuperBlock fs);
  so_blocks : get_field sb_BlocksPerGroup (m_SuperBlock fs) = m_BlocksPerGroup fs;
  so_table : 1260 <= descriptor_offset fs 0;
  so_bitmaps g : 0 <= g < n -> (bitmap_block fs g + 1) * m_BlockSize fs <= 1024 \/ 1260 <= bitmap_block fs g * m_BlockSize fs
}.

(** A range outside the descriptors and the bitmaps. *)
Definition outside fs (n off len : Z) : Prop :=
  (off + len <= descriptor_offset fs 0 \/ descriptor_offset fs n <= off)
  /\ forall g, 0 <= g < n -> (bitmap_block fs g + 1) * m_BlockSize fs <= off \/ off + len <= bitmap_block fs g * m_BlockSize fs.

(** A write there leaves the descriptors, the bitmaps and the blocks in use alone. *)
Section Outside.
Context fs (n off : Z) (bs : list Z).
Context (Hg : groups_ok fs n) (Hin : in_device (m_Device fs) off (Z.of_nat (length bs))) (Hb : Forall byte bs) (Hout : outside fs n off (Z.of_nat (length bs))).
Lemma outside_descriptor g : 0 <= g < n -> descriptor (dev_write fs off bs) g = descriptor fs g.
Proof.
  intros Hgr. destruct Hin, Hout as [Ht _]. unfold descriptor, dev_write. rewrite descriptor_offset_with. cbn [m_Device with_device]. apply extent_write_apart; trivial.
  rewrite (descriptor_offset_spec fs n) in Ht. rewrite (descriptor_offset_spec fs g). unfold sizeof_BlockGroupDescriptor. lia.
Qed.
Lemma outside_bitmap_block g : 0 <= g < n -> bitmap_block (dev_write fs off bs) g = bitmap_block fs g.
Proof. intros Hgr. unfold bitmap_block. now rewrite outside_descriptor. Qed.
Lemma outside_bitmap g : 0 <= g < n -> bitmap (dev_write fs off bs) g = bitmap fs g.
Proof.
  intros Hgr. unfold bitmap. rewrite outside_bitmap_block by exact Hgr. destruct Hin, (go_fs _ _ Hg) as (HB & HL & _).
  unfold dev_write. cbn [m_Device with_device m_BlockSize]. apply extent_write_apart; trivial. destruct Hout as [_ Hbm]. specialize (Hbm g Hgr). lia.
Qed.
Lemma used_outside b : 0 <= b < n * m_BlocksPerGroup fs -> used (dev_write fs off bs) b = used fs b.
Proof.
  intros Hr. destruct (go_fs _ _ Hg) as (HB & HL & _). pose proof (go_blocks _ _ Hg).
  unfold used. change (m_BlocksPerGroup (dev_write fs off bs)) with (m_BlocksPerGroup fs). now rewrite outside_bitmap by (split; [apply Z.div_pos|apply Z.div_lt_upper_bound]; lia).
Qed.
Lemma outside_groups_ok : groups_ok (dev_write fs off bs) n.
Proof.
  split.
  - apply fs_ok_write, Hg.
  - apply Hg.
  - destruct (go_table _ _ Hg). unfold in_device, dev_write. cbn. now rewrite device_Write_size.
  - intros g Hgr. rewrite outside_bitmap_block by exact Hgr. now apply block_in_write, Hg.
  - intros g Hgr. rewrite outside_bitmap_block by exact Hgr. now apply (go_apart _ _ Hg).
  - intros g g' Hgr Hgr'. rewrite !outside_bitmap_block by trivial. now apply (go_inj _ _ Hg).
Qed.
End Outside.

Lemma FreeBlock_spec fs n b : groups_ok fs n -> super_ok fs n -> 0 <= b < n * m_BlocksPerGroup fs ->
  forall b', 0 <= b' < n * m_BlocksPerGroup fs -> used (FreeBlock uninit fs b) b' = if b' =? b then false else used fs b'.
Proof.
  intros Hg Hs Hb b' Hb'. pose proof (go_blocks _ _ Hg). destruct (go_fs _ _ Hg) as (HB & HL & _).
  assert (Hgr : 0 <= b / m_BlocksPerGroup fs < n) by (split; [apply Z.div_pos|apply Z.div_lt_upper_bound]; lia).
  pose proof (Z.div_mod b (m_BlocksPerGroup fs) ltac:(lia)) as Hd. pose proof (Z.mod_pos_bound b (m_BlocksPerGroup fs) ltac:(lia)) as Hm.
  unfold FreeBlock. rewrite (so_blocks _ _ Hs). set (g := b / m_BlocksPerGroup fs) in *.
  rewrite (ReadBlockGroupDescriptor_spec fs n) by trivial. fold (bitmap_block fs g). rewrite (read_bitmap fs n) by trivial.
  set (desc := set_field FreeBlockCount _ _). set (bits := raw_Set _ _ _).
  destruct (count_field_ok fs g (get_field FreeBlockCount (descriptor fs g) + 1)) as (H1 & H2 & H3). fold desc in H1, H2, H3.
  assert (Hbl : length bits = Z.to_nat (m_BlockSize fs)) by (unfold bits; rewrite raw_Set_length; apply bitmap_length).
  assert (Hbb : Forall byte bits) by apply raw_Set_bytes, extent_bytes.
  unfold FlushSuperBlock. set (sb := set_field sb_FreeBlockCount _ _).
  change (used (dev_write (with_super sb (update_group fs g bits desc)) 1024 sb) b' = if b' =? b then false else used fs b').
  assert (Hg' : groups_ok (with_super sb (update_group fs g bits desc)) n).
  { pose proof (update_groups_ok fs n g bits desc Hg Hgr Hbl Hbb H1 H2 H3) as Hu. now apply (same_groups_ok (update_group fs g bits desc)). }
  assert (Hsl : length sb = sizeof_SuperBlock).
  { unfold sb. rewrite set_field_length; [apply Hs|]. cbn [m_SuperBlock dev_write with_device]. unfold field_in. rewrite (so_length _ _ Hs). now apply Nat.leb_le. }
  destruct (so_in _ _ Hs) as [Hi0 Hi1].
  rewrite (used_outside _ n); trivial; rewrite ?Hsl; unfold sizeof_SuperBlock.
  - transitivity (used (update_group fs g bits desc) b'); [reflexivity|].
    unfold bits, desc. rewrite (update_bit_used fs n) by (trivial; lia). now replace (g * m_BlocksPerGroup fs + b mod m_BlocksPerGroup fs) with b by lia.
  - unfold in_device. cbn [m_Device with_super update_group WriteBlockGroupDescriptor dev_write with_device]. rewrite !device_Write_size. lia.
  - apply set_field_bytes, Hs.
  - split; [left; exact (so_table _ _ Hs)|]. intros g' Hg''. change (bitmap_block (with_super sb ?f)) with (bitmap_block f). rewrite (update_bitmap_block fs n) by trivial.
    exact (so_bitmaps _ _ Hs g' Hg'').
Qed.

(** ** [Ext2Fs::AllocateBlock] *)
(** The entry of an inode lies in the table of one of the [n] groups, outside the superblock, the
    descriptors and the bitmaps. *)
Record entry_apart fs (n inode : Z) : Prop := {
  ea_group : 0 <= u32 (inode - 1) / get_field sb_INodesPerGroup (m_SuperBlock fs) < n;
  ea_in : in_device (m_Device fs) (inode_offset uninit fs inode) 128;
  ea_outside : outside fs n (inode_offset uninit fs inode) 128;
  ea_super : inode_offset uninit fs inode + 128 <= 1024 \/ 1260 <= inode_offset uninit fs inode
}.
(** The blocks in use and the counts of the groups are the same in two file systems. *)
Record same_groups (n : Z) fs fs' : Prop := {
  sg_ok : groups_ok fs' n;
  sg_blocks : m_BlocksPerGroup fs' = m_BlocksPerGroup fs;
  sg_used b : 0 <= b < n * m_BlocksPerGroup fs -> used fs' b = used fs b;
  sg_free g : 0 <= g < n -> free_blocks fs' g = free_blocks fs g
}.
Lemma same_groups_trans n fs fs1 fs2 : same_groups n fs fs1 -> same_groups n fs1 fs2 -> same_groups n fs fs2.
Proof.
  intros [A1 A2 A3 A4] [B1 B2 B3 B4]. split; trivial; [congruence|..].
  - intros b Hb. rewrite B3 by now rewrite A2. now apply A3.
  - intros g Hg. rewrite B4 by trivial. now apply A4.
Qed.
Lemma same_groups_write fs n off bs : groups_ok fs n -> in_device (m_Device fs) off (Z.of_nat (length bs)) -> Forall byte bs ->
  outside fs n off (Z.of_nat (length bs)) -> same_groups n fs (dev_write fs off bs).
Proof.
  intros Hg Hin Hb Hout. split; trivial.
  - now apply outside_groups_ok.
  - intros b. now apply used_outside.
  - intros g Hgr. unfold free_blocks. now rewrite (outside_descriptor fs n).
Qed.
Lemma same_groups_super fs n sb : groups_ok fs n -> same_groups n fs (with_super sb fs).
Proof. intros Hg. split; trivial. apply (same_groups_ok fs); trivial. now split. Qed.
Lemma outside_write fs n off bs off' len : groups_ok fs n -> in_device (m_Device fs) off (Z.of_nat (length bs)) -> Forall byte bs ->
  outside fs n off (Z.of_nat (length bs)) -> outside fs n off' len -> outside (dev_write fs off bs) n off' len.
Proof. intros Hg Hin Hb Hout [H1 H2]. split; [exact H1|]. intros g Hgr. rewrite (outside_bitmap_block fs n) by trivial. now apply H2. Qed.

(** What is recorded after a block was taken: the inode's entry and the superblock. *)
Lemma account_block fs n off meta sb : groups_ok fs n -> in_device (m_Device fs) off 128 -> outside fs n off 128 -> in_device (m_Device fs) 1024 236 -> outside fs n 1024 236 ->
  off + 128 <= 1024 \/ 1260 <= off -> length meta = sizeof_INodeMeta -> Forall byte meta -> length sb = sizeof_SuperBlock -> Forall byte sb ->
  let fs' := FlushSuperBlock (with_super sb (dev_write fs off meta)) in
  same_groups n fs fs' /\ m_SuperBlock fs' = sb /\ extent (m_Device fs') 1024 sizeof_SuperBlock = sb /\ extent (m_Device fs') off sizeof_INodeMeta = meta.
Proof.
  intros Hg Hin Hout Hin1 Hout1 Hap Hml Hmb Hsl Hsb fs'.
  assert (Hin' : in_device (m_Device fs) off (Z.of_nat (length meta))) by (rewrite Hml; exact Hin). assert (Hout' : outside fs n off (Z.of_nat (length meta))) by (rewrite Hml; exact Hout).
  pose proof (same_groups_write fs n off meta Hg Hin' Hmb Hout') as S1. pose proof (same_groups_super _ n sb (sg_ok _ _ _ S1)) as S2.
  set (fs2 := with_super sb (dev_write fs off meta)) in *.
  assert (Hsz : device_size (m_Device fs2) = device_size (m_Device fs)) by apply device_Write_size.
  assert (Hin2 : in_device (m_Device fs2) 1024 (Z.of_nat (length sb))) by (unfold in_device; rewrite Hsz, Hsl; exact Hin1).
  assert (Hout2 : outside fs2 n 1024 (Z.of_nat (length sb))) by (rewrite Hsl; exact (outside_write fs n off meta 1024 236 Hg Hin' Hmb Hout' Hout1)).
  pose proof (same_groups_write fs2 n 1024 sb (sg_ok _ _ _ S2) Hin2 Hsb Hout2) as S3. split_and!.
  - exact (same_groups_trans _ _ _ _ (same_groups_trans _ _ _ _ S1 S2) S3).
  - reflexivity.
  - rewrite <- Hsl. apply extent_write_same; [lia|apply Hin2|exact Hsb].
  - unfold fs', FlushSuperBlock, dev_write. cbn [m_Device with_device]. change (m_SuperBlock fs2) with sb.
    rewrite extent_write_apart; [|lia|apply Hin2|exact Hsb|rewrite Hsl; exact Hap]. rewrite <- Hml. apply extent_write_same; [apply Hin'..|exact Hmb].
Qed.

(** The update of one group leaves the place of the inodes as it is. *)
Lemma update_inode_offset fs n g bits x inode : groups_ok fs n -> 0 <= g < n -> length bits = Z.to_nat (m_BlockSize fs) -> Forall byte bits ->
  0 <= u32 (inode - 1) / get_field sb_INodesPerGroup (m_SuperBlock fs) < n ->
  inode_offset uninit (update_group fs g bits (set_field FreeBlockCount x (descriptor fs g))) inode = inode_offset uninit fs inode.
Proof.
  intros Hg Hgn Hl Hb Hgi. destruct (count_field_ok fs g x) as (H1 & H2 & H3). pose proof (update_groups_ok fs n g bits _ Hg Hgn Hl Hb H1 H2 H3) as Hg'.
  unfold inode_offset. change (m_SuperBlock (update_group fs g bits ?d)) with (m_SuperBlock fs). change (m_BlockSize (update_group fs g bits ?d)) with (m_BlockSize fs).
  rewrite !(ReadBlockGroupDescriptor_spec _ n) by trivial. rewrite (update_descriptor fs n) by trivial. destruct (Z.eqb_spec (u32 (inode - 1) / get_field sb_INodesPerGroup (m_SuperBlock fs)) g) as [->|]; [|reflexivity].
  rewrite get_set_field_apart; [reflexivity|unfold descriptor; rewrite extent_length; now apply Nat.leb_le|left; now apply Nat.leb_le].
Qed.
Lemma outside_update fs n g bits x off len : groups_ok fs n -> 0 <= g < n -> length bits = Z.to_nat (m_BlockSize fs) -> Forall byte bits -> outside fs n off len ->
  outside (update_group fs g bits (set_field FreeBlockCount x (descriptor fs g))) n off len.
Proof.
  intros Hg Hgn Hl Hb [O1 O2]. destruct (count_field_ok fs g x) as (H1 & H2 & H3). split; [exact O1|]. intros g' Hgr. rewrite (update_bitmap_block fs n) by trivial. now apply O2.
Qed.

(** What [AllocateBlock] leaves when it took block [b]. *)
Record block_taken fs (meta : list Z) (inode b : Z) fs' (meta' : list Z) : Prop := {
  bt_group : first_group fs (m_BlockGroupCount fs) (b / m_BlocksPerGroup fs);
  bt_free : used fs b = false;
  bt_first b' : b / m_BlocksPerGroup fs * m_BlocksPerGroup fs <= b' < b -> used fs b' = true;
  bt_used b' : 0 <= b' < m_BlockGroupCount fs * m_BlocksPerGroup fs -> used fs' b' = (b' =? b) || used fs b';
  bt_counts g : 0 <= g < m_BlockGroupCount fs -> free_blocks fs' g = if g =? b / m_BlocksPerGroup fs then free_blocks fs g - 1 else free_blocks fs g;
  bt_super : get_field sb_FreeBlockCount (m_SuperBlock fs') = u32 (get_field sb_FreeBlockCount (m_SuperBlock fs) - 1);
  bt_flushed : extent (m_Device fs') 1024 sizeof_SuperBlock = m_SuperBlock fs';
  bt_sectors : get_field SectorCount meta' = u32 (get_field SectorCount meta + m_BlockSize fs / st_blksize fs);
  bt_entry : extent (m_Device fs') (inode_offset uninit fs inode) sizeof_INodeMeta = meta'
}.

Lemma AllocateBlock_taken fs meta inode g i : let n := m_BlockGroupCount fs in let b := g * m_BlocksPerGroup fs + i in
  groups_ok fs n -> super_ok fs n -> entry_apart fs n inode -> length meta = sizeof_INodeMeta -> Forall byte meta ->
  first_group fs n g -> 0 <= i < m_BlocksPerGroup fs -> raw_Get (bitmap fs g) i = false -> (forall j, 0 <= j < i -> raw_Get (bitmap fs g) j = true) ->
  Allocator_AllocateBlock fs = (update_group fs g (raw_Set (bitmap fs g) i true) (set_field FreeBlockCount (free_blocks fs g - 1) (descriptor fs g)), b) ->
  exists fs' meta', AllocateBlock uninit fs meta inode = (fs', meta', b) /\ groups_ok fs' n /\ block_taken fs meta inode b fs' meta'.
Proof.
  intros n b Hg Hs He Hml Hmb Hfirst Hi Hclear Hbelow Ea. destruct (proj1 Hfirst) as [Hg1 Hgn]. pose proof (go_blocks _ _ Hg) as Hbpg. destruct (go_fs _ _ Hg) as (HB & HL & _).
  set (bits := raw_Set (bitmap fs g) i true) in *. assert (Hbl : length bits = Z.to_nat (m_BlockSize fs)) by (unfold bits; rewrite raw_Set_length; apply bitmap_length).
  assert (Hbb : Forall byte bits) by apply raw_Set_bytes, extent_bytes. set (x := free_blocks fs g - 1) in *. destruct (count_field_ok fs g x) as (H1 & H2 & H3).
  pose proof (update_groups_ok fs n g bits _ Hg ltac:(lia) Hbl Hbb H1 H2 H3) as Hg1'. unfold AllocateBlock. rewrite Ea. set (fs1 := update_group fs g bits _) in *.
  destruct (Z.eqb_spec b 0); [unfold b in *; nia|]. change (m_BlockSize fs1) with (m_BlockSize fs). change (st_blksize fs1) with (st_blksize fs).
  set (meta1 := set_field SectorCount _ meta). unfold WriteINodeEntry. assert (Hoff : inode_offset uninit fs1 inode = inode_offset uninit fs inode) by (apply (update_inode_offset fs n); trivial; [lia|apply He]).
  rewrite Hoff. change (m_SuperBlock (dev_write fs1 _ meta1)) with (m_SuperBlock fs). set (sb := set_field sb_FreeBlockCount _ _).
  assert (Hsz : device_size (m_Device fs1) = device_size (m_Device fs)) by (unfold fs1, update_group, WriteBlockGroupDescriptor, dev_write; cbn; now rewrite !device_Write_size).
  assert (Hfm : field_in SectorCount (length meta)) by (rewrite Hml; now apply Nat.leb_le). assert (Hfs : field_in sb_FreeBlockCount (length (m_SuperBlock fs))) by (unfold field_in; rewrite (so_length _ _ Hs); now apply Nat.leb_le).
  destruct (account_block fs1 n (inode_offset uninit fs inode) meta1 sb) as (S & Esb & Eflush & Eentry).
  { exact Hg1'. } { unfold in_device. rewrite Hsz. apply He. } { apply outside_update; trivial; [lia|apply He]. }
  { unfold in_device. rewrite Hsz. apply Hs. } { apply outside_update; trivial; [lia|]. split; [left; exact (so_table _ _ Hs)|exact (so_bitmaps _ _ Hs)]. }
  { apply He. } { unfold meta1. now rewrite set_field_length. } { now apply set_field_bytes. } { unfold sb. rewrite set_field_length by trivial. apply Hs. } { apply set_field_bytes, Hs. }
  eexists _, _. split; [reflexivity|]. split; [apply S|].
  assert (Hb : b / m_BlocksPerGroup fs = g) by (unfold b; rewrite Z.div_add_l, Z.div_small by lia; lia).
  assert (Hin : forall j, 0 <= j < m_BlocksPerGroup fs -> used fs (g * m_BlocksPerGroup fs + j) = raw_Get (bitmap fs g) j).
  { intros j Hj. unfold used. now rewrite Z.div_add_l, Z.div_small, Z.add_0_r, (Z.add_comm (g * _)), Z.mod_add, Z.mod_small by lia. }
  split; rewrite ?Hb; trivial.
  - unfold b. now rewrite Hin.
  - intros b' Hb'. replace b' with (g * m_BlocksPerGroup fs + (b' - g * m_BlocksPerGroup fs)) by lia. unfold b in Hb'. rewrite Hin by lia. apply Hbelow. lia.
  - intros b' Hb'. rewrite (sg_used _ _ _ S) by exact Hb'. transitivity (if b' =? b then true else used fs b'); [|now destruct (_ =? _)]. apply (update_bit_used fs n); trivial; lia.
  - intros g' Hg'. rewrite (sg_free _ _ _ S) by exact Hg'. unfold free_blocks, fs1. rewrite (update_descriptor fs n) by (trivial; lia).
    destruct (Z.eqb_spec g' g) as [->|]; [|reflexivity]. rewrite count_set. pose proof (free_blocks_range fs g). destruct Hfirst as (_ & Hpos & _). unfold x. rewrite Z.mod_small by lia. reflexivity.
  - rewrite Esb. unfold sb. now rewrite get_set_field.
  - unfold meta1. now rewrite get_set_field.
Qed.

Lemma AllocateBlock_spec fs meta inode fs' meta' b : let n := m_BlockGroupCount fs in
  groups_ok fs n -> 1 <= n -> super_ok fs n -> entry_apart fs n inode -> length meta = sizeof_INodeMeta -> Forall byte meta ->
  AllocateBlock uninit fs meta inode = (fs', meta', b) ->
  groups_ok fs' n /\
  (b = 0 /\ meta' = meta /\ m_SuperBlock fs' = m_SuperBlock fs
     /\ (forall b', 0 <= b' < n * m_BlocksPerGroup fs -> used fs' b' = used fs b')
     /\ ((fs' = fs /\ forall g, 1 <= g < n -> free_blocks fs g = 0)
         \/ exists g, first_group fs n g /\ (forall i, 0 <= i < m_BlocksPerGroup fs -> used fs (g * m_BlocksPerGroup fs + i) = true) /\ free_blocks fs' g = 0)
   \/ m_BlocksPerGroup fs <= b < n * m_BlocksPerGroup fs /\ block_taken fs meta inode b fs' meta').
Proof.
  intros n Hg Hn Hs He Hml Hmb HA. pose proof (go_blocks _ _ Hg) as Hbpg. destruct (go_fs _ _ Hg) as (HB & HL & _).
  destruct (Allocator_AllocateBlock fs) as [fs1 b1] eqn:Ea. destruct (Allocator_AllocateBlock_cases fs fs1 b1 Hg Hn Ea) as [(-> & -> & Hz)|[(-> & g & Hfirst & Hfull & ->)|(g & i & Hfirst & Hi & Hclear & Hbelow & -> & ->)]].
  - unfold AllocateBlock in HA. rewrite Ea in HA. injection HA as <- <- <-. split; [exact Hg|]. left. split_and!; trivial. now left.
  - unfold AllocateBlock in HA. rewrite Ea in HA. injection HA as <- <- <-. destruct (proj1 Hfirst) as [Hg1 Hgn].
    destruct (count_field_ok fs g 0) as (H1 & H2 & H3). pose proof (write_descriptor_same fs _ g _ Hg ltac:(lia) H1 H2) as Hsame.
    assert (Hbb : Forall byte (bitmap fs g)) by apply extent_bytes. pose proof (bitmap_length fs g) as Hbl.
    split; [apply (same_groups_ok _ _ _ Hsame), update_groups_ok; trivial; lia|]. left. split_and!; trivial.
    + intros b' Hb'. rewrite (same_used _ _ b' Hsame), (update_used fs n) by (trivial; lia). unfold used. now destruct (Z.eqb_spec (b' / m_BlocksPerGroup fs) g) as [->|].
    + right. exists g. split_and!; trivial.
      * intros i Hi. unfold used. rewrite Z.div_add_l, Z.div_small, Z.add_0_r, (Z.add_comm (g * _)), Z.mod_add, Z.mod_small by lia. now apply Hfull.
      * rewrite (same_free _ _ g Hsame). unfold free_blocks. rewrite (update_descriptor fs n) by (trivial; lia). rewrite Z.eqb_refl. apply count_set.
  - destruct (AllocateBlock_taken fs meta inode g i) as (fs2 & meta2 & HA' & Hg' & Ht); trivial. rewrite HA in HA'. injection HA' as -> -> ->. split; [exact Hg'|]. right. destruct (proj1 Hfirst). split; [nia|exact Ht].
Qed.
End Alloc.

(** ** Bitmaps as the bytes of their bits *)
Definition set_bit (x i : Z) (v : bool) : Z := if v then Z.setbit x i else Z.clearbit x i.
Lemma set_bit_byte x i v : byte x -> 0 <= i < 8 -> byte (set_bit x i v).
Proof.
  intros Hx Hi. change (in_u 8 (set_bit x i v)). assert (Hx' : in_u 8 x) by exact Hx. unfold set_bit. apply in_u_bits; [lia| |].
  - destruct v; [unfold Z.setbit; apply Z.lor_nonneg|unfold Z.clearbit; apply Z.ldiff_nonneg; left]; destruct Hx; [|lia].
    split; [lia|]. apply Z.shiftl_nonneg. lia.
  - intros j Hj. destruct v; [rewrite Z.setbit_neq by lia|rewrite Z.clearbit_neq by lia]; now apply (testbit_above 8).
Qed.
#[export] Program Instance raw_bitmap_ref : RawBitmap := {|
  raw_Get b i := Z.testbit (nth (Z.to_nat (i / 8)) b 0) (i mod 8);
  raw_Set b i v := alter (fun x => set_bit x (i mod 8) v) (Z.to_nat (i / 8)) b
|}.
Next Obligation. intros b i v. apply length_alter. Qed.
Next Obligation.
  intros b i v Hb. apply list.Forall_alter; trivial. intros x _ Hx. apply set_bit_byte; trivial. apply Z.mod_pos_bound. lia.
Qed.
Next Obligation.
  intros b i v j Hb Hi Hj. cbn beta. pose proof (Z.mod_pos_bound i 8). pose proof (Z.mod_pos_bound j 8).
  pose proof (Z.div_mod i 8). pose proof (Z.div_mod j 8). pose proof (Z.div_pos j 8).
  destruct (lookup_lt_is_Some_2 b (Z.to_nat (i / 8))) as [x Hx]; [lia|].
  destruct (Z.eq_dec (i / 8) (j / 8)) as [E|Hne].
  - rewrite <- E. rewrite (nth_lookup_Some _ _ _ _ Hx), (nth_lookup_Some _ _ _ (set_bit x (i mod 8) v)) by now rewrite list_lookup_alter_eq, Hx.
    unfold set_bit. destruct (Z.eqb_spec i j) as [<-|].
    + destruct v; [apply Z.setbit_eq; lia|apply Z.clearbit_eq].
    + destruct v; [apply Z.setbit_neq; lia|apply Z.clearbit_neq; lia].
  - destruct (Z.eqb_spec i j) as [->|]; [easy|]. f_equal. rewrite !nth_lookup. now rewrite list_lookup_alter_ne by lia.
Qed.
Next Obligation.
  intros b i Hi Hx. cbn beta. rewrite (nth_lookup_Some _ _ _ _ Hx). pose proof (Z.mod_pos_bound i 8).
  change 0xff with (Z.ones 8). rewrite testbit_ones by lia. apply Z.ltb_lt. lia.
Qed.
