(* ===== verification/Ext2Dir.v ===== *)
(** * ext2: directories

    Directory entries in the blocks of a directory file: adding an entry in the slack of
    another ([Ext2FsINode::AddDirectoryEntry]), listing ([Ext2Fs::Populate]), the creation
    of nodes and mounting. *)

From Stdlib Require Import ZArith Lia Bool.
From stdpp Require Import base gmap list numbers.
From S2P Require Import Prelude Posix Disk Ext2.

Import Ext2.

Module Ext2Dir.

(** ** [Ext2FsDirectoryEntry] at an offset of a buffer *)
Definition at_ (off : Z) (f : Field) : Field := mkField (Z.to_nat off + f_offset f) (f_size f).
Definition INodeIndex := mkField 0 4.
Definition Size := mkField 4 2.
Definition NameSize := mkField 6 1.
Definition Type_ := mkField 7 1.
Definition sizeof_DirectoryEntry : Z := 8.
Definition eUnknown : Z := 0.
Definition eRegular : Z := 1.
Definition eDirectory : Z := 2.
Definition eCharacterDevice : Z := 3.
Definition eBlockDevice : Z := 4.
Definition eFifo : Z := 5.
Definition eSocket : Z := 6.
Definition eSymlink : Z := 7.
Definition name_bytes (buf : list Z) (off n : Z) : list Z := take (Z.to_nat n) (drop (Z.to_nat (off + 8)) buf).

Definition Ext2Mode2DirectoryEntryType (mode : Z) : Z :=
  if S_ISREG mode then eRegular
  else if S_ISDIR mode then eDirectory
  else if S_ISCHR mode then eCharacterDevice
  else if S_ISBLK mode then eBlockDevice
  else if S_ISFIFO mode then eFifo
  else if S_ISSOCK mode then eSocket
  else if S_ISLNK mode then eSymlink
  else eUnknown.
Definition Ext2Mode2INodeType (mode : Z) : Z :=
  if S_ISREG mode then 0x8000
  else if S_ISDIR mode then 0x4000
  else if S_ISCHR mode then 0x2000
  else if S_ISBLK mode then 0x6000
  else if S_ISFIFO mode then 0x1000
  else if S_ISSOCK mode then 0xc000
  else 0xa000.
(** The mode [Populate] gives a node, from the permissions of its inode and the type of
    its entry. *)
Definition entry_mode (permissions type : Z) : Z :=
  let mode := permissions .& 0xfff in
  if type =? eRegular then mode .| S_IFREG
  else if type =? eDirectory then mode .| S_IFDIR
  else if type =? eCharacterDevice then mode .| S_IFCHR
  else if type =? eBlockDevice then mode .| S_IFBLK
  else if type =? eFifo then mode .| S_IFIFO
  else if type =? eSocket then mode .| S_IFSOCK
  else if type =? eSymlink then mode .| S_IFLNK
  else mode.

(** [(x + 3) & ~3] *)
Definition align4 (x : Z) : Z := Z.land (x + 3) (Z.lnot 3).

(** A new entry: its inode, its type and its name. *)
Record dirent := mkDirent { d_inode : Z; d_type : Z; d_name : list Z }.

(** The entry stored in the slack of the entry at [offset]; [Fill] clears as many bytes as
    the stale size field says. *)
Definition store_entry (buf : list Z) (offset contracted avail : Z) (e : dirent) : list Z :=
  let buf := set_field (at_ offset Size) contracted buf in
  let o := offset + contracted in
  let buf := splice (Z.to_nat o) (replicate (Z.to_nat (get_field (at_ o Size) buf)) 0) buf in
  let buf := set_field (at_ o INodeIndex) (d_inode e) buf in
  let buf := set_field (at_ o Size) avail buf in
  let buf := set_field (at_ o NameSize) (Z.of_nat (length (d_name e))) buf in
  let buf := set_field (at_ o Type_) (d_type e) buf in
  splice (Z.to_nat (o + 8)) (d_name e) buf.

(** The search for an entry with enough slack: the buffer with the new entry, or the
    offset where the search ended.  An entry of size 0 keeps the loop in place. *)
Inductive search := Stored (buf : list Z) | NoRoom (offset : Z) | Stuck.
Fixpoint insert_loop (fuel : nat) (buf : list Z) (size offset required : Z) (e : dirent) : search :=
  if offset <? size then
    match fuel with
    | O => Stuck
    | S fuel =>
        let contracted := align4 (8 + get_field (at_ offset NameSize) buf) in
        let avail := u64 (get_field (at_ offset Size) buf - contracted) in
        if required <=? avail then Stored (store_entry buf offset contracted avail e)
        else insert_loop fuel buf size (offset + get_field (at_ offset Size) buf) required e
    end
  else NoRoom offset.

Section Directories.
Context {D : Type} {Dev : Device D} {Bits : RawBitmap}.
(** Uninitialised memory: on the stack, and of a heap buffer of one block. *)
Context (uninitialised heap : list Z).
Context (DivRoundUp : Z -> Z -> Z).

(** A buffer of zeroed pages large enough for [size] bytes. *)
Definition CallocatePages (size : Z) : list Z := replicate (Z.to_nat (DivRoundUp size 4096 * 4096)) 0.

(** [Ext2FsINode::AddDirectoryEntry] on the directory [id]; the inode it keeps is returned.
    Without room the new inode is grown, the entry is stored behind the end of the buffer
    and the bytes read are written back.  [None]: the search does not end. *)
Definition AddDirectoryEntry (fuel : nat) (fs : Ext2Fs D) (m_Meta : list Z) (id : Z) (dentry : dirent) : option (Ext2Fs D * list Z) :=
  let m_Meta := ReadINodeEntry uninitialised fs m_Meta id in
  let size := GetSize m_Meta in
  let buffer := (ReadINode fs m_Meta (CallocatePages size) 0 size).1 in
  let required := align4 (8 + Z.of_nat (length (d_name dentry))) in
  match insert_loop fuel buffer size 0 required dentry with
  | Stuck => None
  | Stored buffer =>
      let '(fs, m_Meta, _) := WriteINode uninitialised fs m_Meta buffer id 0 size in Some (fs, m_Meta)
  | NoRoom offset =>
      let newEntry := ReadINodeEntry uninitialised fs uninitialised (d_inode dentry) in
      let '(fs, newEntry) := GrowINode uninitialised fs newEntry (d_inode dentry) 0 (size + m_BlockSize fs) in
      let fs := WriteINodeEntry uninitialised fs newEntry (d_inode dentry) in
      let buffer := (ReadINode fs m_Meta (CallocatePages size) 0 size).1 in
      let '(fs, m_Meta, _) := WriteINode uninitialised fs m_Meta buffer id 0 size in Some (fs, m_Meta)
  end.

(** The nodes of the file system. *)
Record Ext2FsINode := mkExt2FsINode {
  n_name : list Z; n_id : Z; n_mode : Z; n_uid : Z; n_gid : Z; n_size : Z; n_links : Z; n_blocks : Z; n_meta : list Z
}.

(** [Ext2FsINode::Initialize]: the inode of a fresh node. *)
Definition Initialize_meta (mode type : Z) : list Z :=
  set_field HardLinkCount 1 (set_field Permissions ((mode .& 0xfff) .| type) (replicate sizeof_INodeMeta 0)).

(** The first block of a fresh directory. *)
Definition dot_entries (fs : Ext2Fs D) (inodeIndex parent : Z) : list Z :=
  let buffer := take (Z.to_nat (m_BlockSize fs)) heap in
  let buffer := set_field (at_ 0 INodeIndex) inodeIndex buffer in
  let buffer := set_field (at_ 0 Size) 12 buffer in
  let buffer := set_field (at_ 0 NameSize) 1 buffer in
  let buffer := set_field (at_ 0 Type_) eSymlink buffer in
  let buffer := splice 8 [0x2e] buffer in
  let buffer := set_field (at_ 12 INodeIndex) parent buffer in
  let buffer := set_field (at_ 12 Size) (m_BlockSize fs - 12) buffer in
  let buffer := set_field (at_ 12 NameSize) 2 buffer in
  let buffer := set_field (at_ 12 Type_) eSymlink buffer in
  splice 20 [0x2e; 0x2e] buffer.

Definition init_directory (fs : Ext2Fs D) (meta parentMeta : list Z) (inodeIndex parent : Z) : Ext2Fs D * list Z :=
  let '(fs, meta, _) := WriteINode uninitialised fs meta (dot_entries fs inodeIndex parent) inodeIndex 0 (m_BlockSize fs) in
  let bgdIndex := (inodeIndex - 1) / get_field sb_INodesPerGroup (m_SuperBlock fs) in
  let blockGroup := ReadBlockGroupDescriptor fs zeroed_descriptor bgdIndex in
  let fs := WriteBlockGroupDescriptor fs (set_field DirectoryCount (get_field DirectoryCount blockGroup + 1) blockGroup) bgdIndex in
  let fs := WriteINodeEntry uninitialised fs (set_field HardLinkCount (get_field HardLinkCount parentMeta + 1) parentMeta) parent in
  (WriteINodeEntry uninitialised fs meta inodeIndex, meta).

(** [Ext2Fs::CreateNode] in the directory [parent]; the name is copied out of the zeroed
    entry into the name of the caller, so the entry that is added has an empty name.  The
    inner option is [nullptr]. *)
Definition CreateNode (fuel : nat) (fs : Ext2Fs D) (parent : Z) (parent_meta name : list Z) (mode : Z)
  : option (Ext2Fs D * option Ext2FsINode) :=
  let '(fs, inodeIndex) := AllocateINode uninitialised fs in
  if inodeIndex =? 0 then Some (fs, None)
  else
    let meta := Initialize_meta mode (Ext2Mode2INodeType mode) in
    let '(fs, meta) := AssignINodeBlocks uninitialised fs meta inodeIndex 0 1 in
    let fs := WriteINodeEntry uninitialised fs meta inodeIndex in
    let parentMeta := ReadINodeEntry uninitialised fs (replicate sizeof_INodeMeta 0) parent in
    let '(fs, meta) := if S_ISDIR mode then init_directory fs meta parentMeta inodeIndex parent else (fs, meta) in
    let dentry := mkDirent inodeIndex (Ext2Mode2DirectoryEntryType mode) [] in
    match AddDirectoryEntry fuel fs parent_meta parent dentry with
    | None => None
    | Some (fs, _) => Some (fs, Some (mkExt2FsINode name inodeIndex mode 0 0 0 1 0 meta))
    end.

(** The loop of [Ext2Fs::Populate] over the bytes of the directory; [None] when it does
    not end. *)
Fixpoint populate_loop (fuel : nat) (fs : Ext2Fs D) (buffer : list Z) (size i : Z) (children : list Ext2FsINode) : option (list Ext2FsINode) :=
  if i <? size then
    match fuel with
    | O => None
    | S fuel =>
        let name := name_bytes buffer i (get_field (at_ i NameSize) buffer) in
        let inode := get_field (at_ i INodeIndex) buffer in
        let next children := populate_loop fuel fs buffer size (i + get_field (at_ i Size) buffer) children in
        if inode =? 0 then next children
        else if bool_decide (name = [0x2e]) || bool_decide (name = [0x2e; 0x2e]) then next children
        else
          let meta := ReadINodeEntry uninitialised fs uninitialised inode in
          let mode := entry_mode (get_field Permissions meta) (get_field (at_ i Type_) buffer) in
          next (children ++ [mkExt2FsINode name inode mode (get_field UID meta) (get_field GID meta) (GetSize meta)
                               (get_field HardLinkCount meta) (GetSize meta / m_BlockSize fs) meta])
    end
  else Some children.
Definition Populate (fuel : nat) (fs : Ext2Fs D) (id : Z) : option (list Ext2FsINode) :=
  let parentMeta := ReadINodeEntry uninitialised fs uninitialised id in
  let size := GetSize parentMeta in
  let buffer := (ReadINode fs parentMeta (take (Z.to_nat size) heap) 0 size).1 in
  populate_loop fuel fs buffer size 0 [].

(** ** Lookup *)
(** [m_Children[name] = node] *)
Fixpoint InsertChild (node : Ext2FsINode) (children : list (list Z * Ext2FsINode)) : list (list Z * Ext2FsINode) :=
  match children with
  | [] => [(n_name node, node)]
  | (name, old) :: children => if bool_decide (name = n_name node) then (name, node) :: children else (name, old) :: InsertChild node children
  end.

(** The node made from the entry at [i]. *)
Definition child_node (fs : Ext2Fs D) (buffer : list Z) (i : Z) : Ext2FsINode :=
  let inode := get_field (at_ i INodeIndex) buffer in
  let meta := ReadINodeEntry uninitialised fs uninitialised inode in
  mkExt2FsINode (name_bytes buffer i (get_field (at_ i NameSize) buffer)) inode
    (entry_mode (get_field Permissions meta) (get_field (at_ i Type_) buffer)) (get_field UID meta) (get_field GID meta) (GetSize meta)
    (get_field HardLinkCount meta) (GetSize meta / m_BlockSize fs) meta.

(** The loop of [TraverseDirectories]: the offset reached, [m_DirectoryOffset], the children
    and the state of the iterator.  [i < m_DirectoryOffset] goes on to the next [i] at the
    same offset; no name is equal to both dot names, so none is left out. *)
Section Traverse.
Context {A : Type} (iterator : A -> list Z -> Z -> Z -> Z -> A * bool).
Fixpoint traverse_loop (fuel : nat) (fs : Ext2Fs D) (buffer : list Z) (size bufferOffset i m_DirectoryOffset : Z)
    (children : list (list Z * Ext2FsINode)) (a : A) : option (Z * Z * list (list Z * Ext2FsINode) * A) :=
  if bufferOffset <? size then
    match fuel with
    | O => None
    | S fuel =>
        if i <? m_DirectoryOffset then traverse_loop fuel fs buffer size bufferOffset (i + 1) m_DirectoryOffset children a
        else
          let next := bufferOffset + get_field (at_ bufferOffset Size) buffer in
          if get_field (at_ bufferOffset INodeIndex) buffer =? 0
          then traverse_loop fuel fs buffer size next (i + 1) m_DirectoryOffset children a
          else
            let node := child_node fs buffer bufferOffset in
            let children := InsertChild node children in
            let '(a, go) := iterator a (n_name node) m_DirectoryOffset (n_id node) (Z.shiftr (n_mode node .& S_IFMT) 12) in
            if go then traverse_loop fuel fs buffer size next (i + 1) (m_DirectoryOffset + 1) children a
            else Some (next, m_DirectoryOffset + 1, children, a)
    end
  else Some (bufferOffset, m_DirectoryOffset, children, a).

Definition TraverseDirectories (fuel : nat) (fs : Ext2Fs D) (m_Meta : list Z) (id m_DirectoryOffset : Z)
    (children : list (list Z * Ext2FsINode)) (a : A) : option (list Z * Z * list (list Z * Ext2FsINode) * A) :=
  let m_Meta := ReadINodeEntry uninitialised fs m_Meta id in
  let size := GetSize m_Meta in
  let buffer := (ReadINode fs m_Meta (take (Z.to_nat size) heap) 0 size).1 in
  '(bufferOffset, m_DirectoryOffset, children, a) ← traverse_loop fuel fs buffer size 0 0 m_DirectoryOffset children a;
  Some (m_Meta, (if bufferOffset =? size then 0 else m_DirectoryOffset), children, a).
End Traverse.

(** The children are walked in the order of the map and compared with their own names. *)
Definition find_child (children : list (list Z * Ext2FsINode)) : option Ext2FsINode :=
  snd <$> find (fun c => bool_decide (c.1 = n_name c.2)) children.

(** [Ext2FsINode::Lookup]: the node bound, or an error; [order] is the order of the map. *)
Definition Lookup (order : list (list Z * Ext2FsINode) -> list (list Z * Ext2FsINode)) (fuel : nat) (fs : Ext2Fs D) (m_Meta : list Z)
    (id m_DirectoryOffset : Z) (children : list (list Z * Ext2FsINode)) (name : list Z)
  : option (list Z * Z * list (list Z * Ext2FsINode) * (Z + Ext2FsINode)) :=
  '(m_Meta, m_DirectoryOffset, children, _) ←
    TraverseDirectories (fun (_ : unit) n _ _ _ => (tt, negb (bool_decide (n = name)))) fuel fs m_Meta id m_DirectoryOffset children tt;
  Some (m_Meta, m_DirectoryOffset, children,
        match find_child (order children) with Some node => inr node | None => inl ENOENT end).

(** [Ext2FsINode::Read] after the inode has been read again; [now] is the time stamp. *)
Definition INode_Read (fs : Ext2Fs D) (m_Meta : list Z) (id m_Size now : Z) (buffer : list Z) (offset bytes : Z) : Ext2Fs D * list Z * list Z * Z :=
  let m_Meta := ReadINodeEntry uninitialised fs m_Meta id in
  let bytes := if m_Size <? u64 (offset + bytes) then u64 (bytes - (u64 (offset + bytes) - m_Size)) else bytes in
  let m_Meta := set_field AccessTime now m_Meta in
  let fs := WriteINodeEntry uninitialised fs m_Meta id in
  let '(buffer, n) := ReadINode fs m_Meta buffer offset bytes in
  (fs, m_Meta, buffer, n).

(** ** Mounting *)
Inductive mounted := Mounted (fs : Ext2Fs D) (root : Ext2FsINode) | MountNull | MountError (e : Z).
Definition Mount (source : option D) (blksize : Z) (super0 : list Z) (now : Z) : mounted :=
  match source with
  | None => MountError ENODEV
  | Some d =>
      let fs := ReadSuperBlock (mkExt2Fs d blksize super0 0 0 0) in
      let super := m_SuperBlock fs in
      if negb (get_field sb_Signature super =? 0xef53) then MountNull
      else if get_field sb_VersionMajor super <? 1 then MountNull
      else
        let fs := mkExt2Fs d blksize (set_field sb_LastMountTime now super) (i32 (Z.shiftl 1024 (get_field sb_BlockSize super))) 0 0 in
        let fs := Allocator_Initialize (FlushSuperBlock fs) in
        let meta := ReadINodeEntry uninitialised fs uninitialised 2 in
        Mounted fs (mkExt2FsINode [0x2f] 2 (Z.lor 0x1a4 S_IFDIR) 0 0 (GetSize meta) (get_field HardLinkCount meta)
                      (GetSize meta / m_BlockSize fs) meta)
  end.
End Directories.
End Ext2Dir.
