(* ===== verification/Ext2DirProofs.v ===== *)
(** * ext2: directories keep their entries

    A directory is a chain of entries that fills the file; adding an entry inserts it after
    the entry whose slack it takes and leaves the others as they are. *)

From Stdlib Require Import ZArith Lia Bool.
From stdpp Require Import base gmap list numbers.
From S2P Require Import Prelude Posix Disk Ext2 Ext2Proofs Ext2Files Ext2Alloc Ext2Dir.

Import Ext2 Ext2Dir.

Lemma align4_spec x : x <= align4 x < x + 4 /\ align4 x mod 4 = 0.
Proof.
  unfold align4. rewrite <- Z.ldiff_land. change 3 with (Z.ones 2) at 2 4 6. rewrite !Z.ldiff_ones_r by lia.
  rewrite !Z.shiftr_div_pow2, !Z.shiftl_mul_pow2 by lia. change (2 ^ 2) with 4.
  pose proof (Z.div_mod (x + 3) 4). pose proof (Z.mod_pos_bound (x + 3) 4). split; [lia|]. apply Z.mod_mul. lia.
Qed.

(** The entry at an offset, and the bytes behind its name. *)
Definition entry_at (buf : list Z) (off : Z) : dirent :=
  mkDirent (get_field (at_ off INodeIndex) buf) (get_field (at_ off Type_) buf) (name_bytes buf off (get_field (at_ off NameSize) buf)).
Definition entry_contracted (buf : list Z) (off : Z) : Z := align4 (8 + get_field (at_ off NameSize) buf).
Definition slack_zero (buf : list Z) (off : Z) : Prop :=
  let c := entry_contracted buf off in
  slice (Z.to_nat (off + c)) (Z.to_nat (get_field (at_ off Size) buf - c)) buf =
    replicate (Z.to_nat (get_field (at_ off Size) buf - c)) 0.

(** The entries from [off] on. *)
Inductive entries (buf : list Z) (size : Z) : Z -> list dirent -> Prop :=
| entries_end : entries buf size size []
| entries_next off es : 0 <= off -> entry_contracted buf off <= get_field (at_ off Size) buf ->
    off + get_field (at_ off Size) buf <= size -> slack_zero buf off ->
    entries buf size (off + get_field (at_ off Size) buf) es -> entries buf size off (entry_at buf off :: es).

Lemma byte_field_range f buf : Forall byte buf -> 0 <= get_field f buf < 256 ^ Z.of_nat (f_size f).
Proof.
  intros Hb. unfold get_field. pose proof (le_word_range (take (f_size f) (drop (f_offset f) buf)) (Forall_take _ _ _ (Forall_drop _ _ _ Hb))) as H.
  rewrite length_take in H. split; [lia|]. eapply Z.lt_le_trans; [apply H|]. apply Z.pow_le_mono_r; lia.
Qed.
Lemma contracted_ge buf off : Forall byte buf -> 8 + get_field (at_ off NameSize) buf <= entry_contracted buf off
  /\ entry_contracted buf off < 8 + 256 + 4 /\ 8 <= entry_contracted buf off.
Proof.
  intros Hb. unfold entry_contracted. pose proof (byte_field_range (at_ off NameSize) buf Hb) as H.
  change (256 ^ Z.of_nat (f_size (at_ off NameSize))) with 256 in H.
  pose proof (align4_spec (8 + get_field (at_ off NameSize) buf)). lia.
Qed.

(** Two buffers agree on a range of bytes. *)
Definition agree (buf buf' : list Z) (off n : Z) : Prop :=
  forall o m, off <= Z.of_nat o -> Z.of_nat o + Z.of_nat m <= off + n -> slice o m buf' = slice o m buf.

Lemma agree_field buf buf' off n f : agree buf buf' off n -> off <= Z.of_nat (f_offset f) -> Z.of_nat (f_offset f + f_size f) <= off + n ->
  get_field f buf' = get_field f buf.
Proof. intros H H1 H2. rewrite !get_field_slice. rewrite H by lia. reflexivity. Qed.

(** An entry whose bytes are kept. *)
Lemma agree_entry buf buf' off : Forall byte buf -> 0 <= off -> entry_contracted buf off <= get_field (at_ off Size) buf ->
  agree buf buf' off (get_field (at_ off Size) buf) ->
  get_field (at_ off Size) buf' = get_field (at_ off Size) buf /\ entry_contracted buf' off = entry_contracted buf off /\ entry_at buf' off = entry_at buf off.
Proof.
  intros Hb H0 Hc Ha. destruct (contracted_ge buf off Hb) as (Hg1 & Hg2 & Hg3).
  assert (Hfield : forall f, Z.of_nat (f_offset f + f_size f) <= 8 -> get_field (at_ off f) buf' = get_field (at_ off f) buf).
  { intros f Hf. apply (agree_field _ _ _ _ _ Ha); unfold at_; cbn [f_offset f_size]; fold (at_ off Size); lia. }
  pose proof (Hfield INodeIndex ltac:(cbn; lia)) as E1. pose proof (Hfield Size ltac:(cbn; lia)) as E2.
  pose proof (Hfield NameSize ltac:(cbn; lia)) as E3. pose proof (Hfield Type_ ltac:(cbn; lia)) as E4.
  pose proof (byte_field_range (at_ off NameSize) buf Hb) as Hn.
  split; [exact E2|]. unfold entry_contracted, entry_at, name_bytes. rewrite E1, E3, E4. split; [reflexivity|]. f_equal. apply Ha; unfold entry_contracted in *; lia.
Qed.
(** Entries before the place of a change are kept when their bytes are. *)
Lemma entries_prefix buf buf' size off es' : Forall byte buf -> 0 <= off -> slack_zero buf off ->
  entry_contracted buf off <= get_field (at_ off Size) buf -> off + get_field (at_ off Size) buf <= size ->
  agree buf buf' off (get_field (at_ off Size) buf) -> entries buf' size (off + get_field (at_ off Size) buf) es' ->
  entries buf' size off (entry_at buf off :: es').
Proof.
  intros Hb H0 Hz Hc Hs Ha He. destruct (contracted_ge buf off Hb) as (Hg1 & Hg2 & Hg3). destruct (agree_entry buf buf' off Hb H0 Hc Ha) as (E2 & E3 & E).
  rewrite <- E. apply entries_next; unfold slack_zero in *; rewrite ?E2, ?E3; trivial.
  cbv zeta in Hz |- *. rewrite <- Hz. apply Ha; lia.
Qed.

(** The entries of a range that is left alone. *)
Lemma entries_agree buf buf' size off es : Forall byte buf -> entries buf size off es -> agree buf buf' off (size - off) -> entries buf' size off es.
Proof.
  intros Hb H. induction H as [|off es H0 Hc Hs Hz _ IH]; intros Ha; [constructor|].
  destruct (contracted_ge buf off Hb) as (_ & _ & H8). apply entries_prefix; trivial.
  - intros o m H1 H2. apply Ha; lia.
  - apply IH. intros o m H1 H2. apply Ha; lia.
Qed.

(** ** Storing one entry *)
Definition header (e : dirent) (avail : Z) : list Z :=
  le_bytes 4 (d_inode e) ++ le_bytes 2 avail ++ le_bytes 1 (Z.of_nat (length (d_name e))) ++ le_bytes 1 (d_type e) ++ d_name e.
Definition dirent_ok (e : dirent) : Prop :=
  in_u 32 (d_inode e) /\ in_u 8 (d_type e) /\ (length (d_name e) < 256)%nat /\ Forall byte (d_name e).

Lemma header_length e avail : length (header e avail) = (8 + length (d_name e))%nat.
Proof. unfold header. rewrite !length_app, !le_bytes_length. lia. Qed.
Lemma header_bytes e avail : Forall byte (d_name e) -> Forall byte (header e avail).
Proof. intros H. unfold header. repeat (apply Forall_app_2; [apply le_bytes_byte|]). exact H. Qed.

Lemma le_word_zeros n : le_word (replicate n 0) = 0.
Proof. induction n as [|n IH]; cbn [replicate le_word]; [reflexivity|]. rewrite IH. reflexivity. Qed.
Lemma slice_replicate k m n (x : Z) : (k + m <= n)%nat -> slice k m (replicate n x) = replicate m x.
Proof. intros H. unfold slice. rewrite drop_replicate, take_replicate. f_equal. lia. Qed.

Section Store.
Context (buf : list Z) (size off : Z) (e : dirent).
Notation S_ := (get_field (at_ off Size) buf).
Notation c := (entry_contracted buf off).
Context (Hb : Forall byte buf) (Hoff : 0 <= off) (Hc : c <= S_) (Hs : off + S_ <= size) (Hlen : size <= Z.of_nat (length buf)).
Context (Hz : slack_zero buf off) (He : dirent_ok e) (Hroom : align4 (8 + Z.of_nat (length (d_name e))) <= S_ - c).
Notation buf1 := (set_field (at_ off Size) c buf).
Notation o := (off + c).
Notation buf' := (store_entry buf off c (S_ - c) e).

Lemma store_bounds : 8 + Z.of_nat (length (d_name e)) <= S_ - c /\ 8 <= c /\ S_ < 65536.
Proof.
  destruct (contracted_ge buf off Hb) as (_ & _ & H8). pose proof (align4_spec (8 + Z.of_nat (length (d_name e)))).
  pose proof (byte_field_range (at_ off Size) buf Hb) as Hr. change (256 ^ Z.of_nat (f_size (at_ off Size))) with 65536 in Hr. lia.
Qed.
Lemma size_field_in : field_in (at_ off Size) (length buf).
Proof. pose proof store_bounds. unfold field_in, at_. cbn. lia. Qed.
Lemma buf1_length : length buf1 = length buf.
Proof. apply set_field_length, size_field_in. Qed.

(** Outside the size field the first step changes nothing. *)
Lemma buf1_slice p n : (p + n <= Z.to_nat off + 4 \/ Z.to_nat off + 6 <= p)%nat -> slice p n buf1 = slice p n buf.
Proof.
  intros H. unfold set_field. apply slice_splice_outside; rewrite le_bytes_length; unfold at_; cbn; [|lia].
  pose proof size_field_in as Hf. unfold field_in, at_ in Hf. cbn in Hf. lia.
Qed.

Lemma slack_slice k m : 0 <= Z.of_nat k -> (k + m <= Z.to_nat (S_ - c))%nat -> slice (Z.to_nat o + k) m buf = replicate m 0.
Proof. intros _ H. rewrite <- (slice_slice _ (Z.to_nat (S_ - c))) by trivial. unfold slack_zero in Hz. cbv zeta in Hz. rewrite Hz. now apply slice_replicate. Qed.

Lemma store_entry_eq : buf' = splice (Z.to_nat o) (header e (S_ - c)) buf1.
Proof.
  destruct store_bounds as (Hr & H8 & _). unfold store_entry.
  assert (Hstale : get_field (at_ o Size) buf1 = 0).
  { rewrite get_field_slice. unfold at_. cbn [f_offset f_size Size]. rewrite buf1_slice, slack_slice by lia. reflexivity. }
  rewrite Hstale. cbn [Z.to_nat replicate]. rewrite splice_nil. pose proof buf1_length as Hl1. revert Hl1. generalize buf1. intros b1 Hl1.
  unfold set_field, header. cbn [at_ f_offset f_size INodeIndex Size NameSize Type_]. rewrite Nat.add_0_r.
  rewrite (splice_splice (Z.to_nat o) (Z.to_nat o + 4)) by (rewrite ?length_app, ?le_bytes_length; lia).
  rewrite (splice_splice (Z.to_nat o) (Z.to_nat o + 6)) by (rewrite ?length_app, ?le_bytes_length; lia).
  rewrite (splice_splice (Z.to_nat o) (Z.to_nat o + 7)) by (rewrite ?length_app, ?le_bytes_length; lia).
  rewrite (splice_splice (Z.to_nat o) (Z.to_nat (o + 8))) by (rewrite ?length_app, ?le_bytes_length; lia).
  now rewrite <- !app_assoc.
Qed.

Lemma store_fits : (Z.to_nat o + length (header e (S_ - c)) <= length buf1)%nat.
Proof. destruct store_bounds as (Hr & H8 & _). rewrite header_length, buf1_length. lia. Qed.
Lemma store_length : length buf' = length buf.
Proof. rewrite store_entry_eq, splice_length by apply store_fits. apply buf1_length. Qed.
Lemma store_bytes : Forall byte buf'.
Proof. rewrite store_entry_eq. apply splice_bytes; [apply header_bytes, He|now apply set_field_bytes]. Qed.

(** Away from the size field and the new entry nothing changes. *)
Lemma store_outside p n : (p + n <= Z.to_nat off + 4 \/ Z.to_nat off + 6 <= p /\ p + n <= Z.to_nat o \/ Z.to_nat o + 8 + length (d_name e) <= p)%nat ->
  slice p n buf' = slice p n buf.
Proof.
  intros H. destruct store_bounds as (Hr & H8 & _). rewrite store_entry_eq, slice_splice_outside; [|apply store_fits|rewrite header_length; lia].
  apply buf1_slice. lia.
Qed.
Lemma store_inside k n : (k + n <= 8 + length (d_name e))%nat -> slice (Z.to_nat o + k) n buf' = slice k n (header e (S_ - c)).
Proof. intros H. rewrite store_entry_eq. apply slice_splice_inside; [apply store_fits|reflexivity|now rewrite header_length]. Qed.

(** The fields of the new entry. *)
Lemma store_field f x : Z.of_nat (f_offset f + f_size f) <= 8 -> slice (f_offset f) (f_size f) (header e (S_ - c)) = le_bytes (f_size f) x ->
  0 <= x < 256 ^ Z.of_nat (f_size f) -> get_field (at_ o f) buf' = x.
Proof.
  intros Hf Hh Hx. rewrite get_field_slice. cbn [at_ f_offset f_size]. rewrite store_inside by lia. rewrite Hh, le_word_le_bytes. now apply Z.mod_small.
Qed.
Lemma store_new_fields :
  get_field (at_ o INodeIndex) buf' = d_inode e /\ get_field (at_ o Size) buf' = S_ - c
  /\ get_field (at_ o NameSize) buf' = Z.of_nat (length (d_name e)) /\ get_field (at_ o Type_) buf' = d_type e.
Proof.
  destruct store_bounds as (Hr & H8 & H65). destruct He as (Hi & Ht & Hn & _). unfold in_u in *.
  split_and!; (apply store_field; [cbn; lia|reflexivity|]).
  - change (256 ^ Z.of_nat (f_size INodeIndex)) with (2 ^ 32). lia.
  - change (256 ^ Z.of_nat (f_size Size)) with 65536. lia.
  - change (256 ^ Z.of_nat (f_size NameSize)) with 256. lia.
  - change (256 ^ Z.of_nat (f_size Type_)) with (2 ^ 8). lia.
Qed.
Lemma store_new_entry : entry_at buf' o = e.
Proof.
  destruct store_new_fields as (E1 & _ & E3 & E4). destruct store_bounds as (Hr & H8 & _). unfold entry_at, name_bytes. rewrite E1, E3, E4, Nat2Z.id.
  assert (take (length (d_name e)) (drop (Z.to_nat (o + 8)) buf') = d_name e) as ->; [|generalize e; now intros []].
  replace (Z.to_nat (o + 8)) with (Z.to_nat o + 8)%nat by lia. fold (slice (Z.to_nat o + 8) (length (d_name e)) buf').
  rewrite store_inside by lia. unfold header, slice. cbn [le_bytes app drop]. apply take_ge. lia.
Qed.

(** The entry that gave its slack. *)
Lemma store_old_fields f : Z.of_nat (f_offset f + f_size f) <= 8 -> (f_offset f + f_size f <= 4 \/ 6 <= f_offset f)%nat ->
  get_field (at_ off f) buf' = get_field (at_ off f) buf.
Proof.
  intros Hf Ha. destruct store_bounds as (Hr & H8 & _). rewrite !get_field_slice. cbn [at_ f_offset f_size]. rewrite store_outside by lia. reflexivity.
Qed.
Lemma store_old_size : get_field (at_ off Size) buf' = c.
Proof.
  destruct store_bounds as (Hr & H8 & H65). rewrite get_field_slice, store_entry_eq. cbn [at_ f_offset f_size Size].
  rewrite slice_splice_outside; [|apply store_fits|rewrite header_length; lia].
  change (get_field (at_ off Size) buf1 = c). rewrite get_set_field by apply size_field_in.
  apply Z.mod_small. change (256 ^ Z.of_nat (f_size (at_ off Size))) with 65536. lia.
Qed.
Lemma store_old_entry : entry_at buf' off = entry_at buf off /\ entry_contracted buf' off = c.
Proof.
  destruct (contracted_ge buf off Hb) as (Hg & _). destruct store_bounds as (Hr & H8 & _).
  pose proof (byte_field_range (at_ off NameSize) buf Hb) as Hn.
  unfold entry_at, entry_contracted, name_bytes. rewrite !store_old_fields by (cbn; lia). split; [|reflexivity]. f_equal.
  change (slice (Z.to_nat (off + 8)) (Z.to_nat (get_field (at_ off NameSize) buf)) buf' =
    slice (Z.to_nat (off + 8)) (Z.to_nat (get_field (at_ off NameSize) buf)) buf). apply store_outside. lia.
Qed.

(** The new entry comes right after it. *)
Lemma store_entries es : entries buf size (off + S_) es -> entries buf' size off (entry_at buf off :: e :: es).
Proof.
  intros Hes. destruct store_bounds as (Hr & H8 & H65). destruct store_new_fields as (E1 & E2 & E3 & E4). destruct store_old_entry as [Eo Ec].
  assert (Hnew : entries buf' size o (entry_at buf' o :: es)).
  { assert (Ecn : entry_contracted buf' o = align4 (8 + Z.of_nat (length (d_name e)))) by (unfold entry_contracted at 1; now rewrite E3).
    apply entries_next; unfold slack_zero; rewrite ?Ecn, ?E2; trivial; try lia.
    - cbv zeta. set (req := align4 (8 + Z.of_nat (length (d_name e)))) in *.
      pose proof (align4_spec (8 + Z.of_nat (length (d_name e)))). replace (Z.to_nat (o + req)) with (Z.to_nat o + Z.to_nat req)%nat by lia.
      rewrite store_outside by lia. rewrite slack_slice by lia. reflexivity.
    - replace (o + (S_ - c)) with (off + S_) by lia. apply (entries_agree buf); trivial.
      intros p n H1 H2. apply store_outside. lia. }
  rewrite store_new_entry in Hnew. rewrite <- Eo. apply entries_next; rewrite ?store_old_size, ?Ec; trivial; [lia|lia|].
  unfold slack_zero. rewrite store_old_size, Ec, Z.sub_diag. reflexivity.
Qed.
End Store.

(** ** The search *)
Lemma entries_le buf size off es : Forall byte buf -> entries buf size off es -> off <= size.
Proof. intros Hb. induction 1 as [|off es H0 Hc Hs Hz _ IH]; [lia|]. destruct (contracted_ge buf off Hb) as (_ & _ & H8). lia. Qed.


(** [es] are the entries from [off] up to and including the first with [required] bytes of slack. *)
Definition slack (buf : list Z) (off : Z) : Z := get_field (at_ off Size) buf - entry_contracted buf off.
Inductive first_room (buf : list Z) (required : Z) : Z -> list dirent -> Prop :=
| room_here off : required <= slack buf off -> first_room buf required off [entry_at buf off]
| room_later off es : slack buf off < required -> first_room buf required (off + get_field (at_ off Size) buf) es ->
    first_room buf required off (entry_at buf off :: es).

Lemma first_room_agree buf buf' size required off es1 es2 : Forall byte buf -> entries buf size off (es1 ++ es2) -> first_room buf required off es1 ->
  agree buf buf' off (size - off) -> first_room buf' required off es1.
Proof.
  intros Hb He H. revert He. induction H as [off Hroom|off es Hroom _ IH]; intros He Ha; inversion He as [|? ? H0 Hc Hs Hz Hes]; subst;
    destruct (contracted_ge buf off Hb) as (_ & _ & H8); destruct (agree_entry buf buf' off Hb H0 Hc) as (E2 & E3 & E); try (intros o m Hlo Hhi; apply Ha; lia); rewrite <- E.
  - apply room_here. unfold slack in *. now rewrite E2, E3.
  - apply room_later; [unfold slack in *; now rewrite E2, E3|]. rewrite E2. apply IH; trivial. intros o m Hlo Hhi. apply Ha; lia.
Qed.

(** In a directory whose entries chain up to its size, with zeroed slack, the search finds the first
    entry with room, and the new entry is inserted right after it. *)
Lemma insert_keeps_spec buf size off es1 es2 e : let required := align4 (8 + Z.of_nat (length (d_name e))) in
  Forall byte buf -> entries buf size off (es1 ++ es2) -> first_room buf required off es1 -> size <= Z.of_nat (length buf) -> dirent_ok e -> 0 <= off ->
  forall fuel, (length es1 <= fuel)%nat ->
  exists buf', insert_loop fuel buf size off required e = Stored buf' /\ Forall byte buf' /\ length buf' = length buf
    /\ slice 0 (Z.to_nat off) buf' = slice 0 (Z.to_nat off) buf /\ entries buf' size off (es1 ++ e :: es2).
Proof.
  intros required Hb H Hfirst Hlen He. revert H. induction Hfirst as [off Hroom|off es Hroom _ IH]; intros H Ho fuel Hfuel; inversion H as [|? ? H0 Hc Hs Hz Hes]; subst;
    destruct (contracted_ge buf off Hb) as (_ & _ & H8); cbn [length] in Hfuel; (destruct fuel as [|fuel]; [lia|]); cbn [insert_loop];
    (destruct (Z.ltb_spec off size); [|lia]); fold (entry_contracted buf off);
    pose proof (byte_field_range (at_ off Size) buf Hb) as Hr; change (256 ^ Z.of_nat (f_size (at_ off Size))) with 65536 in Hr;
    unfold u64; rewrite wrap_small by (unfold in_u; lia); fold (slack buf off);
    destruct (Z.leb_spec required (slack buf off)); try lia; fold (slack buf off) in *.
  - eexists. split; [reflexivity|]. unfold slack in *. split_and!; [apply (store_bytes buf size)|apply (store_length buf size)|apply (store_outside buf size); trivial; lia|now apply store_entries]; trivial.
  - destruct (IH Hes ltac:(lia) fuel ltac:(lia)) as (buf' & -> & Hb' & Hl' & Hpre & Hen). exists buf'. split_and!; trivial.
    + apply (slice_prefix _ _ _ _ _ Hpre). lia.
    + cbn [app]. apply entries_prefix; trivial. intros o m Hlo Hhi. apply (slice_prefix _ _ _ _ _ Hpre). lia.
Qed.

(** ** Listing *)
Section Listing.
Context {D : Type} {Dev : Device D} (uninit : list Z) (fs : Ext2Fs D).

(** Deleted entries and the two dot entries are not shown. *)
Definition visible (e : dirent) : bool :=
  negb (d_inode e =? 0) && negb (bool_decide (d_name e = [0x2e]) || bool_decide (d_name e = [0x2e; 0x2e])).
Definition entry_node (e : dirent) : Ext2FsINode :=
  let meta := ReadINodeEntry uninit fs uninit (d_inode e) in
  mkExt2FsINode (d_name e) (d_inode e) (entry_mode (get_field Permissions meta) (d_type e)) (get_field UID meta) (get_field GID meta)
    (GetSize meta) (get_field HardLinkCount meta) (GetSize meta / m_BlockSize fs) meta.

Lemma populate_loop_spec buf size off es : Forall byte buf -> entries buf size off es -> forall fuel children, (length es <= fuel)%nat ->
  populate_loop uninit fuel fs buf size off children = Some (children ++ (entry_node <$> filter (fun e => visible e = true) es)).
Proof.
  intros Hb. induction 1 as [|off es H0 Hc Hs Hz _ IH]; intros fuel children Hfuel.
  { destruct fuel; cbn [populate_loop]; rewrite Z.ltb_irrefl; cbn; now rewrite app_nil_r. }
  destruct (contracted_ge buf off Hb) as (_ & _ & H8). cbn [length] in Hfuel. destruct fuel as [|fuel]; [lia|].
  cbn [populate_loop]. destruct (Z.ltb_spec off size); [|lia]. rewrite filter_cons.
  change (get_field (at_ off INodeIndex) buf) with (d_inode (entry_at buf off)).
  change (name_bytes buf off (get_field (at_ off NameSize) buf)) with (d_name (entry_at buf off)).
  change (get_field (at_ off Type_) buf) with (d_type (entry_at buf off)).
  destruct (decide _) as [Hv|Hv].
  - unfold visible in Hv. apply andb_prop in Hv as [->%negb_true_iff ->%negb_true_iff]. rewrite IH by lia. now rewrite <- app_assoc.
  - destruct (d_inode (entry_at buf off) =? 0) eqn:E1; [apply IH; lia|]. destruct (_ || _) eqn:E2; [apply IH; lia|].
    destruct Hv. unfold visible. now rewrite E1, E2.
Qed.

End Listing.

(** ** A directory on the disk *)
Section Directory.
Context {D : Type} {Dev : Device D} {Bits : RawBitmap} (uninit : list Z).
Implicit Types fs : Ext2Fs D.

(** The entry of an inode on the disk, and the contents of a file. *)
Definition on_disk fs (id : Z) : list Z := extent (m_Device fs) (inode_offset uninit fs id) sizeof_INodeMeta.
Definition contents fs (id : Z) : list Z := file_extent fs (on_disk fs id) 0 (GetSize (on_disk fs id)).
(** The first [n] blocks of directory [id] are in place and hold the entries [es], with zeroed slack;
    they are apart from its inode and from the descriptor its inode is found by. *)
Record directory_ok fs (id n : Z) (es : list dirent) : Prop := {
  dk_fs : fs_ok fs;
  dk_count : n <= 2 ^ 32;
  dk_file : file_ok fs (on_disk fs id) n;
  dk_entry : entry_ok uninit fs (on_disk fs id) id n;
  dk_descriptor k : 0 <= k < n -> apart fs (descriptor_offset fs (group_of fs id)) 32 (GetINodeBlock fs (on_disk fs id) k);
  dk_size : GetSize (on_disk fs id) <= n * m_BlockSize fs < 2 ^ 62;
  dk_entries : entries (contents fs id) (GetSize (on_disk fs id)) 0 es
}.
Definition nodes fs (es : list dirent) : list Ext2FsINode := entry_node uninit fs <$> filter (fun e => visible e = true) es.

Lemma on_disk_length fs id : length (on_disk fs id) = sizeof_INodeMeta.
Proof. apply extent_length. Qed.
Lemma on_disk_bytes fs id : Forall byte (on_disk fs id).
Proof. apply extent_bytes. Qed.
Lemma contents_bytes fs id : Forall byte (contents fs id).
Proof. unfold contents, file_extent. apply list.Forall_fmap, list.Forall_true. intros x. apply device_byte_range. Qed.

Lemma GetSize_nonneg meta : Forall byte meta -> 0 <= GetSize meta.
Proof.
  intros Hb. unfold GetSize. apply Z.lor_nonneg. pose proof (byte_field_range SizeLow meta Hb). pose proof (byte_field_range SizeHigh meta Hb).
  split; [lia|]. apply Z.shiftl_nonneg. lia.
Qed.
Lemma read_entry fs id n es old : directory_ok fs id n es -> ReadINodeEntry uninit fs old id = on_disk fs id.
Proof. intros Hd. destruct (eo_in _ _ _ _ _ (dk_entry _ _ _ _ Hd)). unfold ReadINodeEntry, dev_read. now rewrite device_Read_spec. Qed.
Lemma contents_length fs id : Z.of_nat (length (contents fs id)) = GetSize (on_disk fs id).
Proof. unfold contents. rewrite file_extent_length. pose proof (GetSize_nonneg _ (on_disk_bytes fs id)). lia. Qed.
Lemma read_contents fs id n es out : directory_ok fs id n es -> GetSize (on_disk fs id) <= Z.of_nat (length out) ->
  ReadINode fs (on_disk fs id) out 0 (GetSize (on_disk fs id)) = (splice 0 (contents fs id) out, GetSize (on_disk fs id)).
Proof.
  intros [K1 K2 K3 K4 K5 [K6 K6'] K7] Hl. pose proof (GetSize_nonneg _ (on_disk_bytes fs id)) as H0. pose proof (block_size_pos fs K1) as HB.
  assert (Ha : available (on_disk fs id) 0 (GetSize (on_disk fs id)) = GetSize (on_disk fs id)) by (unfold available; destruct (Z.ltb_spec (GetSize (on_disk fs id)) 0); lia).
  rewrite ReadINode_spec; rewrite ?Ha; trivial; try lia; [nia|]. intros k Hk. apply (fo_blocks _ _ _ K3).
  pose proof (Z.mul_div_le (0 + GetSize (on_disk fs id) + m_BlockSize fs - 1) (m_BlockSize fs) HB). nia.
Qed.

Lemma inode_offset_same fs fs' id : m_SuperBlock fs' = m_SuperBlock fs -> m_BlockSize fs' = m_BlockSize fs -> device_size (m_Device fs') = device_size (m_Device fs) ->
  in_device (m_Device fs) (descriptor_offset fs (group_of fs id)) 32 ->
  extent (m_Device fs') (descriptor_offset fs (group_of fs id)) 32 = extent (m_Device fs) (descriptor_offset fs (group_of fs id)) 32 ->
  inode_offset uninit fs' id = inode_offset uninit fs id.
Proof.
  intros Hs HB Hd [H0 H1] He. unfold inode_offset. rewrite Hs, HB. fold (group_of fs id). unfold ReadBlockGroupDescriptor, dev_read.
  replace (descriptor_offset fs' (group_of fs id)) with (descriptor_offset fs (group_of fs id)) by (unfold descriptor_offset; now rewrite HB).
  rewrite !device_Read_spec by (rewrite ?Hd; trivial). change (device_byte ?d <$> seqZ ?o (Z.of_nat sizeof_BlockGroupDescriptor)) with (extent d o 32). now rewrite He.
Qed.

Lemma extent_written fs meta size buf : 0 <= size <= Z.of_nat (length buf) -> (forall i, 0 <= i < size -> byte_at fs meta i = nth (Z.to_nat i) buf 0) ->
  file_extent fs meta 0 size = take (Z.to_nat size) buf.
Proof.
  intros Hs Hb. apply list_eq. intros i. unfold file_extent. rewrite list_lookup_fmap. destruct (Nat.lt_ge_cases i (Z.to_nat size)) as [Hi|Hi].
  - rewrite lookup_seqZ_lt, lookup_take_lt by lia. cbn [fmap option_fmap option_map]. rewrite Hb by lia.
    destruct (lookup_lt_is_Some_2 buf i ltac:(lia)) as [x Hx]. rewrite Hx. f_equal. apply nth_lookup_Some. rewrite <- Hx. f_equal. lia.
  - rewrite lookup_seqZ_ge, lookup_take_ge by lia. reflexivity.
Qed.
(** Writing the whole contents back. *)
Lemma rewrite_directory fs id n es buf : directory_ok fs id n es -> GetSize (on_disk fs id) <= Z.of_nat (length buf) -> Forall byte buf ->
  exists fs', WriteINode uninit fs (on_disk fs id) buf id 0 (GetSize (on_disk fs id)) = (fs', on_disk fs id, GetSize (on_disk fs id))
  /\ on_disk fs' id = on_disk fs id /\ contents fs' id = take (Z.to_nat (GetSize (on_disk fs id))) buf
  /\ forall es', entries (take (Z.to_nat (GetSize (on_disk fs id))) buf) (GetSize (on_disk fs id)) 0 es' -> directory_ok fs' id n es'.
Proof.
  intros [K1 K2 K3 K4 K5 [K6 K6'] K7] Hl Hb. pose proof (GetSize_nonneg _ (on_disk_bytes fs id)) as H0. pose proof (block_size_pos fs K1) as HB.
  pose proof (on_disk_length fs id) as Hml. pose proof (on_disk_bytes fs id) as Hmb. set (meta := on_disk fs id) in *. set (size := GetSize meta) in *.
  unfold WriteINode. rewrite (GrowINode_noop uninit fs meta id n) by (trivial; try lia; apply blocks_below; lia).
  unfold u64. rewrite wrap_small by (unfold in_u; lia). fold size. rewrite Z.add_0_l, Z.ltb_irrefl. eexists. split; [reflexivity|].
  destruct (WriteINodeEntry_quiet uninit fs meta id n meta K1 K3 K4 Hml Hmb) as (Hf1 & He1 & Hg1 & Hb1). cbv zeta in *.
  assert (Hw : write_ok fs (inode_offset uninit fs id) meta) by (split; [rewrite Hml; apply K4|trivial]).
  pose proof (inode_offset_write uninit fs meta id n meta K4 Hw Hml) as Hoff. destruct Hw as [[W0 W1] _].
  assert (Hex1 : extent (m_Device (WriteINodeEntry uninit fs meta id)) (inode_offset uninit fs id) sizeof_INodeMeta = meta) by (rewrite <- Hml; apply extent_write_same; trivial).
  assert (Hok1 : fs_ok (WriteINodeEntry uninit fs meta id)) by now apply fs_ok_write.
  assert (Hd1 : device_size (m_Device (WriteINodeEntry uninit fs meta id)) = device_size (m_Device fs)) by apply device_Write_size.
  change (inode_offset uninit (WriteINodeEntry uninit fs meta id) id = inode_offset uninit fs id) in Hoff.
  pose proof (eq_refl : m_BlockSize (WriteINodeEntry uninit fs meta id) = m_BlockSize fs) as HBs. pose proof (fo_range _ _ _ K3) as Hr.
  assert (Hds : forall g, descriptor_offset (WriteINodeEntry uninit fs meta id) g = descriptor_offset fs g) by reflexivity. assert (Hgr : group_of (WriteINodeEntry uninit fs meta id) id = group_of fs id) by reflexivity.
  assert (Hlv : blockLevel (WriteINodeEntry uninit fs meta id) = blockLevel fs) by reflexivity. set (fs1 := WriteINodeEntry uninit fs meta id) in *. clearbody fs1.
  destruct (write_loop_frame meta n buf 0 size Hb ltac:(lia) ltac:(lia) ltac:(lia) (Z.to_nat size) fs1 0 Hok1 Hf1 ltac:(rewrite HBs; lia) K2 ltac:(lia)) as (Hg2 & Hm2 & Hx2).
  destruct (write_loop_spec meta n buf 0 size Hb ltac:(lia) ltac:(lia) ltac:(lia) (Z.to_nat size) fs1 0 Hok1 Hf1 ltac:(rewrite HBs; lia) K2 ltac:(lia) ltac:(lia)) as [Hf2 Hb2].
  destruct (write_loop_device (Z.to_nat size) fs1 meta buf 0 0 size) as [Hd2 Hs2]. pose proof (write_loop_size (Z.to_nat size) fs1 meta buf 0 0 size) as HBs2.
  pose proof (write_loop_ok (Z.to_nat size) fs1 meta buf 0 0 size Hok1) as Hok2. set (fs2 := write_loop (Z.to_nat size) fs1 meta buf 0 0 size) in *. clearbody fs2.
  assert (Hmap : forall k, 0 <= k < n -> mappable fs1 k) by (intros k Hk; unfold mappable; rewrite Hlv; lia).
  assert (Hap : forall off len, (forall k, 0 <= k < n -> apart fs off len (GetINodeBlock fs meta k)) -> forall k, 0 <= k < n -> apart fs1 off len (GetINodeBlock fs1 meta k)).
  { intros off len Ha k Hk. unfold apart. rewrite HBs, Hg1 by (specialize (Hmap k Hk); unfold mappable in *; now rewrite Hlv in Hmap). now apply Ha. }
  pose proof (Hx2 _ 32%nat (Hap _ _ K5)) as Hxd. pose proof (Hx2 _ sizeof_INodeMeta (Hap _ 128 (eo_data _ _ _ _ _ K4))) as Hxe.
  assert (Hoff2 : inode_offset uninit fs2 id = inode_offset uninit fs id).
  { rewrite <- Hoff. apply inode_offset_same; trivial; rewrite Hds, Hgr; trivial. unfold in_device. rewrite Hd1. apply K4. }
  assert (Hon2 : on_disk fs2 id = meta) by (unfold on_disk; rewrite Hoff2, Hxe; exact Hex1).
  assert (Hc2 : contents fs2 id = take (Z.to_nat size) buf).
  { unfold contents. rewrite Hon2. fold size. apply extent_written; [lia|]. intros i Hi. rewrite Hb2 by (rewrite HBs; lia). destruct (decide _); [|lia]. do 2 f_equal. lia. }
  split; [exact Hon2|]. split; [exact Hc2|]. intros es' He'. split; rewrite ?Hon2; fold size; trivial.
  - destruct He1 as [E1 E2 E3 E4 E5]. assert (Hgo : group_of fs2 id = group_of fs1 id) by (unfold group_of; now rewrite Hs2).
    assert (Hdo : forall g, descriptor_offset fs2 g = descriptor_offset fs1 g) by (intros g; unfold descriptor_offset; now rewrite HBs2). rewrite Hoff in *.
    split; unfold in_device, apart in *; rewrite ?Hoff2, ?Hgo, ?Hdo, ?Hd2, ?HBs2; trivial.
    + intros b Hbm. apply E4. now apply Hm2.
    + intros k Hk. rewrite Hg2 by now apply Hmap. now apply E5.
  - intros k Hk. unfold apart. replace (group_of fs2 id) with (group_of fs id) by (rewrite <- Hgr; unfold group_of; now rewrite Hs2).
    replace (descriptor_offset fs2 (group_of fs id)) with (descriptor_offset fs (group_of fs id)) by (rewrite <- Hds; unfold descriptor_offset; now rewrite HBs2).
    rewrite HBs2, Hg2 by now apply Hmap. exact (Hap _ _ K5 k Hk).
  - rewrite HBs2, HBs. lia.
  - now rewrite Hc2.
Qed.

Lemma Populate_on_disk fs id n es heap fuel : directory_ok fs id n es -> GetSize (on_disk fs id) <= Z.of_nat (length heap) -> (length es <= fuel)%nat ->
  Populate uninit heap fuel fs id = Some (nodes fs es).
Proof.
  intros Hd Hh Hf. pose proof (GetSize_nonneg _ (on_disk_bytes fs id)) as H0. pose proof (contents_length fs id) as Hc.
  unfold Populate. rewrite (read_entry fs id n es) by trivial. rewrite (read_contents fs id n es) by (trivial; rewrite length_take; lia). cbn [fst].
  replace (splice 0 (contents fs id) (take (Z.to_nat (GetSize (on_disk fs id))) heap)) with (contents fs id).
  - rewrite (populate_loop_spec uninit fs _ _ _ es); [reflexivity|apply contents_bytes|apply Hd|trivial].
  - unfold splice. cbn [take app]. rewrite drop_ge, app_nil_r; [reflexivity|rewrite length_take; lia].
Qed.

Variable DivRoundUp : Z -> Z -> Z.

(** C34: an entry added to a directory is listed.  Let the blocks of directory [id] be in place, apart
    from its inode and the descriptor it is found by, and hold the entries [es1 ++ es2] with zeroed
    slack, the last of [es1] being the first with room for the new entry.  Then [AddDirectoryEntry]
    leaves a directory of the same kind with the entries [es1 ++ e :: es2], the new one right after
    the one that had room; and [Populate], which listed the visible ones of [es1 ++ es2] before,
    lists those of [es1 ++ e :: es2], in this order, each with what its inode says. *)
Theorem added_entry_listed fs id n es1 es2 e m0 fuel : let size := GetSize (on_disk fs id) in
  directory_ok fs id n (es1 ++ es2) -> first_room (contents fs id) (align4 (8 + Z.of_nat (length (d_name e)))) 0 es1 -> dirent_ok e ->
  size <= DivRoundUp size 4096 * 4096 -> (length (es1 ++ es2) <= fuel)%nat ->
  exists fs', AddDirectoryEntry uninit DivRoundUp fuel fs m0 id e = Some (fs', on_disk fs id)
  /\ on_disk fs' id = on_disk fs id /\ directory_ok fs' id n (es1 ++ e :: es2)
  /\ forall heap, size <= Z.of_nat (length heap) ->
     Populate uninit heap fuel fs id = Some (nodes fs (es1 ++ es2)) /\ Populate uninit heap (S fuel) fs' id = Some (nodes fs' (es1 ++ e :: es2)).
Proof.
  intros size Hd Hroom He Hdiv Hf. pose proof (GetSize_nonneg _ (on_disk_bytes fs id)) as H0. fold size in H0. pose proof (contents_length fs id) as Hc. fold size in Hc.
  pose proof (contents_bytes fs id) as Hcb. unfold AddDirectoryEntry. rewrite (read_entry fs id n (es1 ++ es2)) by trivial. fold size.
  assert (Hcl : size <= Z.of_nat (length (CallocatePages DivRoundUp size))) by (unfold CallocatePages; rewrite length_replicate; lia).
  unfold size at 1. rewrite (read_contents fs id n (es1 ++ es2)) by trivial. fold size. cbn [fst]. set (buf := splice 0 (contents fs id) (CallocatePages DivRoundUp size)).
  assert (Hbl : length buf = length (CallocatePages DivRoundUp size)) by (apply splice_length; lia).
  assert (Hag : agree (contents fs id) buf 0 (size - 0)) by (intros o m H1 H2; apply (slice_splice_inside _ _ o); lia).
  assert (Hbb : Forall byte buf) by (apply splice_bytes; [trivial|]; apply list.Forall_replicate; unfold byte; lia).
  destruct (insert_keeps_spec buf size 0 es1 es2 e) with (fuel := fuel) as (buf' & Hins & Hb' & Hl' & _ & Hen); trivial; try lia.
  { apply (entries_agree (contents fs id)); trivial. apply Hd. } { apply (first_room_agree (contents fs id) _ size _ _ es1 es2); trivial. apply Hd. } { rewrite length_app in Hf. lia. }
  rewrite Hins. destruct (rewrite_directory fs id n (es1 ++ es2) buf' Hd ltac:(fold size; lia) Hb') as (fs' & Hw & Hon & _ & Hdir). fold size in Hw, Hdir. rewrite Hw.
  exists fs'. split; [reflexivity|]. split; [exact Hon|]. assert (Hd' : directory_ok fs' id n (es1 ++ e :: es2)).
  { apply Hdir. apply (entries_agree buf'); trivial. intros o m H1 H2. unfold slice. rewrite List.skipn_firstn_comm, take_take. f_equal. lia. }
  split; [exact Hd'|]. intros heap Hh. split; [now apply (Populate_on_disk fs id n)|]. apply (Populate_on_disk fs' id n); trivial; [now rewrite Hon|].
  rewrite length_app in *. cbn [length]. lia.
Qed.
End Directory.

(** ** Lookup *)
Section Lookup.
Context {D : Type} {Dev : Device D} (uninit heap : list Z) (fs : Ext2Fs D).

(** Every child is filed under its own name. *)
Definition filed (children : list (list Z * Ext2FsINode)) : Prop := Forall (fun c => c.1 = n_name c.2) children.

Lemma InsertChild_filed node children : filed children -> filed (InsertChild node children).
Proof.
  unfold filed. induction 1 as [|[name old] children Hc Ht IH]; cbn; [constructor; [reflexivity|constructor]|].
  destruct (bool_decide_reflect (name = n_name node)); constructor; cbn; auto.
Qed.
Lemma find_child_filed children : filed children -> find_child children = snd <$> head children.
Proof. intros [|[name n] l Hc _]; [reflexivity|]. unfold find_child. cbn in *. now rewrite bool_decide_eq_true_2. Qed.

Lemma traverse_filed {A} (it : A -> list Z -> Z -> Z -> Z -> A * bool) fuel : forall buf size off i m children a r,
  filed children -> traverse_loop uninit it fuel fs buf size off i m children a = Some r -> filed r.1.2.
Proof.
  induction fuel as [|fuel IH]; intros buf size off i m children a r Hc; cbn [traverse_loop]; destruct (off <? size); try discriminate.
  all: try (intros [= <-]; exact Hc).
  destruct (i <? m); [now apply IH|]. destruct (get_field _ buf =? 0); [now apply IH|].
  destruct (it _ _ _ _ _) as [a' []]; [apply IH; now apply InsertChild_filed|]. intros [= <-]. now apply InsertChild_filed.
Qed.

(** A lookup in an ext2 directory ignores the name.  After the traversal the children are
    compared with their own names instead of the name looked up, so whatever name is asked
    for, the first child in the order of the map is bound; only a directory without children
    gives an error. *)
Theorem lookup_ignores_name order fuel meta id offset children name meta' offset' children' r :
  (forall l, order l ≡ₚ l) -> filed children ->
  Lookup uninit heap order fuel fs meta id offset children name = Some (meta', offset', children', r) ->
  r = match head (order children') with Some c => inr c.2 | None => inl ENOENT end.
Proof.
  intros Ho Hc. unfold Lookup, TraverseDirectories. cbv zeta.
  destruct (traverse_loop _ _ _ _ _ _ _ _ _ _ _) as [[[[off m] cs] a]|] eqn:E; cbn [mbind option_bind]; [|discriminate].
  intros [= <- <- <- <-]. apply traverse_filed in E; trivial. cbn in E.
  rewrite find_child_filed; [now destruct (head (order cs))|]. unfold filed in *. now rewrite Ho.
Qed.
End Lookup.

(** A block with the dot entries and room for one more. *)
Definition example_dir_block : list Z :=
  let buf := set_field (at_ 0 INodeIndex) 2 (set_field (at_ 0 Size) 12 (set_field (at_ 0 NameSize) 1 (replicate 64 0))) in
  let buf := splice 8 [0x2e] buf in
  let buf := set_field (at_ 12 INodeIndex) 2 (set_field (at_ 12 Size) 52 (set_field (at_ 12 NameSize) 2 buf)) in
  splice 20 [0x2e; 0x2e] buf.
Definition example_entry : dirent := mkDirent 13 eRegular [97; 98; 99; 100; 101].

Lemma example_dir_entries : entries example_dir_block 64 0 [mkDirent 2 0 [0x2e]; mkDirent 2 0 [0x2e; 0x2e]].
Proof.
  apply (entries_next example_dir_block 64 0); [lia|now apply Z.leb_le..|reflexivity|].
  apply (entries_next example_dir_block 64 12); [lia|now apply Z.leb_le..|reflexivity|]. apply entries_end.
Qed.

(** A directory with the dot entries only, on a disk: looking up "x" gives ".". *)
Definition example_lookup_disk : MemDisk :=
  mkMemDisk (store [(2048, set_field INodeTableAddress 4 (replicate 32 0));
                    (4096 + 128, SetSize (set_field (Blocks 0) 6 (replicate 128 0)) 64);
                    (6144, example_dir_block)]) 8192.
Definition example_lookup_fs : Ext2Fs MemDisk :=
  mkExt2Fs example_lookup_disk 512 (set_field sb_INodesPerGroup 8 (set_field sb_INodeStructureSize 128 (replicate 236 0))) 1024 1 8192.

#[local] Instance block_in_dec' (fs : Ext2Fs MemDisk) b : Decision (block_in fs b).
Proof. unfold block_in. apply _. Defined.
#[local] Instance apart_dec' (fs : Ext2Fs MemDisk) off len b : Decision (apart fs off len b).
Proof. unfold apart. apply _. Defined.
Definition example_dir_meta : list Z := on_disk [] example_lookup_fs 2.
Lemma example_dir_map b : map_block example_lookup_fs example_dir_meta b -> b = 0.
Proof.
  intros [->|[->|(s & Hs & ->)]]; [vm_compute; reflexivity|vm_compute; reflexivity|]. revert s Hs.
  apply (bounded 256 (fun s => indirect example_lookup_fs example_dir_meta s = 0)). vm_compute. reflexivity.
Qed.
Lemma example_dir_data k : 0 <= k < 1 -> GetINodeBlock example_lookup_fs example_dir_meta k = 6.
Proof. intros Hk. replace k with 0 by lia. vm_compute. reflexivity. Qed.
Lemma example_directory_ok : directory_ok [] example_lookup_fs 2 1 [mkDirent 2 0 [0x2e]; mkDirent 2 0 [0x2e; 0x2e]].
Proof.
  fold example_dir_meta. split; fold example_dir_meta; [by_computation|lia| | | |by_computation|].
  - split; [by_computation|intros b ->%example_dir_map; by_computation| | | |].
    + intros k Hk. rewrite example_dir_data by exact Hk. by_computation.
    + intros k Hk. rewrite example_dir_data by exact Hk. lia.
    + intros k Hk. rewrite example_dir_data by exact Hk. intros E%example_dir_map. lia.
    + intros k k' Hk Hk' _. lia.
  - split; [by_computation|by_computation|right; by_computation|intros b ->%example_dir_map; right; by_computation|].
    intros k Hk. rewrite example_dir_data by exact Hk. left. by_computation.
  - intros k Hk. rewrite example_dir_data by exact Hk. left. by_computation.
  - assert (E : contents [] example_lookup_fs 2 = example_dir_block) by (vm_compute; reflexivity). rewrite E. exact example_dir_entries.
Qed.
Lemma example_dir_room : first_room (contents [] example_lookup_fs 2) (align4 (8 + 5)) 0 [mkDirent 2 0 [0x2e]; mkDirent 2 0 [0x2e; 0x2e]].
Proof.
  assert (E : contents [] example_lookup_fs 2 = example_dir_block) by (vm_compute; reflexivity). rewrite E.
  apply (room_later example_dir_block _ 0); [now apply Z.ltb_lt|]. apply (room_here example_dir_block _ 12). now apply Z.leb_le.
Qed.
Lemma added_entry_listed_witness : exists fs', AddDirectoryEntry [] (fun x d => (x + d - 1) / d) 2 example_lookup_fs [] 2 example_entry = Some (fs', example_dir_meta)
  /\ Populate [] (replicate 64 0) 2 example_lookup_fs 2 = Some [] /\ Populate [] (replicate 64 0) 3 fs' 2 = Some [entry_node [] fs' example_entry].
Proof.
  destruct (added_entry_listed [] (fun x d => (x + d - 1) / d) example_lookup_fs 2 1 [mkDirent 2 0 [0x2e]; mkDirent 2 0 [0x2e; 0x2e]] [] example_entry [] 2) as (fs' & HA & _ & _ & HP).
  - exact example_directory_ok.
  - exact example_dir_room.
  - split_and!; [by_computation|by_computation|now apply Nat.ltb_lt|now apply bytesb_spec].
  - by_computation.
  - cbn. lia.
  - exists fs'. split; [exact HA|]. apply HP. by_computation.
Defined.

Lemma lookup_ignores_name_witness :
  exists meta' offset' children' node,
    Lookup [] (replicate 64 0) id 5 example_lookup_fs [] 2 0 [] [120] = Some (meta', offset', children', inr node)
    /\ n_name node = [0x2e] /\ inr node = match head (id children') with Some c => inr c.2 | None => inl ENOENT end.
Proof.
  destruct (Lookup [] (replicate 64 0) id 5 example_lookup_fs [] 2 0 [] [120]) as [[[[meta' offset'] children'] r]|] eqn:E;
    [|exfalso; vm_compute in E; discriminate E].
  pose proof (lookup_ignores_name [] (replicate 64 0) example_lookup_fs id 5 [] 2 0 [] [120] meta' offset' children' r (fun l => Permutation_refl l) ltac:(constructor) E) as H.
  vm_compute in E. injection E as <- <- <- <-. eexists _, _, _, _. split; [reflexivity|]. split; [reflexivity|]. exact H.
Defined.
