(* ===== verification/Ext2Theorems.v ===== *)
(** * ext2: theorems

    The block map, files and the allocator, with a concrete disk as witness. *)

From Stdlib Require Import ZArith Lia Bool.
From stdpp Require Import base gmap list numbers.
From S2P Require Import Prelude Disk Ext2 Ext2Proofs Ext2Files Ext2Alloc.

Import Ext2.

Section Theorems.
Context {D : Type} {Dev : Device D} {Bits : RawBitmap} (uninit : list Z).
Implicit Types fs : Ext2Fs D.

(** C7: the map from the blocks of a file to disk blocks is a map.  Where the indirect blocks
    are already in place (each on the device, all different; a fresh one would be used without
    being cleared), after any sequence of [SetINodeBlock]s at block numbers below the triple indirect
    range, [GetINodeBlock] returns at every such number the disk block last assigned to it, and what
    it returned before where none was assigned; and the indirect blocks are the same ones. *)
Theorem set_block_map fs meta inode l : fs_ok fs -> indirect_ok fs meta -> Forall (assignable fs meta) l ->
  let '(fs', meta') := assign_all uninit inode (fs, meta) l in
  indirect_ok fs' meta' /\ forall m, mappable fs m -> GetINodeBlock fs' meta' m = default (GetINodeBlock fs meta m) (last_assigned l !! m).
Proof.
  intros Hok Hi Hl. pose proof (assign_all_map uninit fs meta inode l Hok Hi Hl) as H. destruct (assign_all uninit inode (fs, meta) l) as [fs' meta'].
  destruct H as (_ & Hs & Hm). split; [exact (same_indirect_ok _ _ _ _ Hs Hi)|exact Hm].
Qed.

(** A write to a file stores exactly the written bytes.  With the blocks of the file in
    place, [WriteINode] returns the number of bytes, the size grows to the end of the write
    if it has to, the bytes of the range are the ones written and every other byte of the
    file is as before. *)
Theorem file_write fs meta inp inode n offset count : fs_ok fs -> n <= 2 ^ 32 -> file_ok fs meta n -> entry_ok uninit fs meta inode n ->
  length meta = sizeof_INodeMeta -> Forall byte meta -> Forall byte inp -> 0 <= GetSize meta ->
  0 <= offset -> 0 <= count <= Z.of_nat (length inp) -> offset + count <= n * m_BlockSize fs -> offset + count < 2 ^ 63 ->
  exists fs' meta', WriteINode uninit fs meta inp inode offset count = (fs', meta', count)
    /\ GetSize meta' = Z.max (GetSize meta) (offset + count)
    /\ forall i, 0 <= i < n * m_BlockSize fs ->
         byte_at fs' meta' i = if decide (offset <= i < offset + count) then nth (Z.to_nat (i - offset)) inp 0 else byte_at fs meta i.
Proof.
  intros. destruct (WriteINode_spec uninit fs meta inp inode n offset count) as (fs' & meta' & Hw & Hs & _ & _ & _ & _ & Hb); trivial.
  exists fs', meta'. auto.
Qed.

(** Byte [i] of a file over which [inp] was written at [offset]. *)
Definition overlaid fs (meta inp : list Z) (offset i : Z) : Z :=
  if decide (offset <= i < offset + Z.of_nat (length inp)) then nth (Z.to_nat (i - offset)) inp 0 else byte_at fs meta i.

(** C8: what was written to a file is read back.  Let the first [n] blocks of the file be in place and
    [inp] be written anywhere inside them.  Then [WriteINode] accepts it whole, the size grows to the
    end of the write if it has to, and any later [ReadINode] inside these blocks that starts at the
    beginning of the file, or that stays inside one block, returns the bytes up to the size: those
    of [inp] where it was written, the earlier ones elsewhere.  (Reads across blocks from elsewhere
    go wrong: [two_block_read].) *)
Theorem write_then_read fs meta inp inode n offset : fs_ok fs -> n <= 2 ^ 32 -> file_ok fs meta n -> entry_ok uninit fs meta inode n ->
  length meta = sizeof_INodeMeta -> Forall byte meta -> Forall byte inp -> 0 <= GetSize meta -> 0 <= offset ->
  let count := Z.of_nat (length inp) in
  offset + count <= n * m_BlockSize fs -> offset + count < 2 ^ 63 ->
  exists fs' meta', WriteINode uninit fs meta inp inode offset count = (fs', meta', count) /\ GetSize meta' = Z.max (GetSize meta) (offset + count)
    /\ forall out start bytes, let got := available meta' start bytes in
       0 <= start -> 0 <= bytes -> start + bytes < 2 ^ 63 -> got <= Z.of_nat (length out) -> start + got <= n * m_BlockSize fs ->
       start = 0 \/ start mod m_BlockSize fs + got <= m_BlockSize fs ->
       ReadINode fs' meta' out start bytes = (splice 0 (overlaid fs meta inp offset <$> seqZ start got) out, got).
Proof.
  intros Hok Hn Hf He Hl Hmb Hib Hs Ho count Hc Hlt.
  destruct (WriteINode_spec uninit fs meta inp inode n offset count) as (fs' & meta' & Hw & Hsz & _ & Hf' & HB & Hok' & Hb); trivial; try lia.
  exists fs', meta'. split_and!; trivial. intros out start bytes got Hst Hby Hend Hout Hin Hcase. pose proof (block_size_pos fs Hok) as HBp.
  rewrite ReadINode_spec; rewrite ?HB; trivial; try lia; fold got.
  - f_equal. f_equal. unfold file_extent. apply list_fmap_ext. intros i x Hx%lookup_seqZ. apply Hb. lia.
  - nia.
  - intros k Hk. apply (fo_blocks _ _ _ Hf'). pose proof (Z.mul_div_le (start + got + m_BlockSize fs - 1) (m_BlockSize fs) HBp). nia.
Qed.

(** A read of two blocks goes wrong.  Because the loop of [ReadINode] overwrites the
    offset it started from, reading two whole blocks from block [k] on returns block [k]
    followed by block 1, whatever [k] is. *)
Theorem two_block_read fs meta out k : fs_ok fs -> 0 <= k < 2 ^ 31 ->
  (k + 2) * m_BlockSize fs <= GetSize meta -> GetSize meta < 2 ^ 63 -> 2 * m_BlockSize fs <= Z.of_nat (length out) ->
  block_in fs (GetINodeBlock fs meta k) -> block_in fs (GetINodeBlock fs meta 1) ->
  ReadINode fs meta out (k * m_BlockSize fs) (2 * m_BlockSize fs) =
    (splice 0 (file_extent fs meta (k * m_BlockSize fs) (m_BlockSize fs) ++ file_extent fs meta (1 * m_BlockSize fs) (m_BlockSize fs)) out,
     2 * m_BlockSize fs).
Proof. intros. rewrite Z.mul_1_l. now apply ReadINode_two_blocks. Qed.

(** C24: [Ext2Fs::AllocateBlock] hands out a free block, marks exactly it and counts it.  On a disk
    whose superblock, descriptors, bitmaps and inode entry lie apart, it either returns the first
    free block of the first group beyond group 0 that records any: that block is in use afterwards
    and every other is as before, the count of its group goes down by one and no other count changes,
    the count of the superblock goes down by one, in memory and on the disk, and the sectors of the
    block are added to the inode, in memory and on the disk.  Or it returns 0, no block changes its
    state, inode and superblock are as before, and either no group beyond group 0 records a free
    block, or the first that does has none, and its count is now 0. *)
Theorem allocate_block fs meta inode fs' meta' b : let n := m_BlockGroupCount fs in
  groups_ok fs n -> 1 <= n -> super_ok fs n -> entry_apart uninit fs n inode -> length meta = sizeof_INodeMeta -> Forall byte meta ->
  AllocateBlock uninit fs meta inode = (fs', meta', b) ->
  groups_ok fs' n /\
  (b = 0 /\ meta' = meta /\ m_SuperBlock fs' = m_SuperBlock fs
     /\ (forall b', 0 <= b' < n * m_BlocksPerGroup fs -> used fs' b' = used fs b')
     /\ ((fs' = fs /\ forall g, 1 <= g < n -> free_blocks fs g = 0)
         \/ exists g, first_group fs n g /\ (forall i, 0 <= i < m_BlocksPerGroup fs -> used fs (g * m_BlocksPerGroup fs + i) = true) /\ free_blocks fs' g = 0)
   \/ m_BlocksPerGroup fs <= b < n * m_BlocksPerGroup fs /\ block_taken uninit fs meta inode b fs' meta').
Proof. apply AllocateBlock_spec. Qed.

(** A write across the end of a block can land in block 0.  [GrowINode] assigns as many
    blocks as the length of the write fills, wherever it starts; when the write crosses into
    a block that is not assigned, its second part overwrites the start of the disk. *)
Theorem straddling_write fs meta inp inode offset count : let k := offset / m_BlockSize fs in
  fs_ok fs -> k + 1 < 2 ^ 32 -> file_ok fs meta (k + 1) -> entry_ok uninit fs meta inode (k + 1) -> mappable fs (k + 1) ->
  length meta = sizeof_INodeMeta -> Forall byte meta -> Forall byte inp -> 0 <= GetSize meta -> 0 <= offset -> offset + count < 2 ^ 63 ->
  count <= Z.of_nat (length inp) -> count <= m_BlockSize fs < offset mod m_BlockSize fs + count -> GetINodeBlock fs meta (k + 1) = 0 ->
  exists fs' meta', WriteINode uninit fs meta inp inode offset count = (fs', meta', count)
    /\ let first := Z.to_nat (m_BlockSize fs - offset mod m_BlockSize fs) in
       extent (m_Device fs') 0 (Z.to_nat count - first) = drop first (take (Z.to_nat count) inp).
Proof. apply WriteINode_straddle. Qed.

(** A block behind a missing indirect block is looked up in block 0: the boot block and, with
    blocks of 2 KiB or more, the superblock stand for its pointers. *)
Lemma missing_indirect_reads_block_0 fs meta i : fs_ok fs -> block_in fs 0 -> 0 <= i < blockLevel fs -> block_of meta 12 = 0 ->
  GetINodeBlock fs meta (12 + i) = le_word (extent (m_Device fs) (i * 4) 4).
Proof.
  intros Hok Hb Hi H0. rewrite GetINodeBlock_place; [|trivial|unfold mappable; nia]. unfold place_of.
  destruct (Z.ltb_spec (12 + i) 12); [lia|]. replace (12 + i - 12) with i by lia.
  destruct (Z.leb_spec (blockLevel fs) i); [lia|]. rewrite H0. destruct (pointer_offset_spec fs 0 i Hok Hb Hi) as [-> Hd].
  unfold read_pointer. now rewrite read_u32_spec.
Qed.
End Theorems.

(** ** A concrete disk

    Blocks of 64 bytes, two groups; the file of inode 2 has the blocks 24, 25 and 26 and the
    indirect blocks 30, 31 and 32. *)
Definition example_meta : list Z :=
  SetSize (set_field (Blocks 0) 24 (set_field (Blocks 1) 25 (set_field (Blocks 2) 26 (set_field (Blocks 12) 30 (set_field (Blocks 13) 31
    (replicate 128 0)))))) 192.
Definition example_descriptor (bitmap free : Z) : list Z :=
  set_field BlockUsageBitmapAddress bitmap (set_field INodeTableAddress 8 (set_field FreeBlockCount free (replicate 32 0))).
Definition example_disk : MemDisk :=
  mkMemDisk (store [(128, example_descriptor 4 7); (160, example_descriptor 5 9); (320, [0xff; 0x07]); (640, example_meta);
                    (1536, replicate 64 1); (1600, replicate 64 2); (1664, replicate 64 3); (1984, le_bytes 4 32)]) 4096.
Definition example_super : list Z :=
  set_field sb_BlocksPerGroup 512 (set_field sb_INodesPerGroup 8 (set_field sb_INodeStructureSize 128 (replicate 236 0))).
Definition example_fs : Ext2Fs MemDisk := mkExt2Fs example_disk 16 example_super 64 2 512.

#[local] Instance block_in_dec (fs : Ext2Fs MemDisk) b : Decision (block_in fs b).
Proof. unfold block_in. apply _. Defined.
#[local] Instance apart_dec (fs : Ext2Fs MemDisk) off len b : Decision (apart fs off len b).
Proof. unfold apart. apply _. Defined.

Lemma example_ok : fs_ok example_fs.
Proof. by_computation. Qed.
Lemma example_map_block b : map_block example_fs example_meta b -> b ∈ [30; 31; 32; 0].
Proof.
  intros [->|[->|(s & Hs & ->)]]; [set_solver|set_solver|]. revert s Hs.
  apply (bounded 16 (fun s => indirect example_fs example_meta s ∈ [30; 31; 32; 0])). vm_compute. reflexivity.
Qed.
Ltac check_decision := apply (bool_decide_eq_true_1 _); vm_compute; reflexivity.

Lemma example_file_ok : file_ok example_fs example_meta 3.
Proof.
  split.
  - by_computation.
  - intros b Hb%example_map_block. revert b Hb. apply list.Forall_forall. check_decision.
  - unfold blocks_in. apply (bounded 3 (fun k => block_in example_fs (GetINodeBlock example_fs example_meta k))). vm_compute. reflexivity.
  - apply (bounded 3 (fun k => GetINodeBlock example_fs example_meta k <> 0)). vm_compute. reflexivity.
  - intros k Hk Hb%example_map_block. revert Hb. revert k Hk.
    apply (bounded 3 (fun k => ~ GetINodeBlock example_fs example_meta k ∈ [30; 31; 32; 0])). vm_compute. reflexivity.
  - intros k k' Hk Hk' E.
    assert (H : forall k, 0 <= k < 3 -> GetINodeBlock example_fs example_meta k = 24 + k).
    { apply (bounded 3 (fun k => GetINodeBlock example_fs example_meta k = 24 + k)). vm_compute. reflexivity. }
    rewrite !H in E by trivial. lia.
Qed.
Lemma example_entry_ok : entry_ok [] example_fs example_meta 2 3.
Proof.
  split.
  - by_computation.
  - by_computation.
  - right. by_computation.
  - intros b Hb%example_map_block. revert b Hb. apply list.Forall_forall. check_decision.
  - apply (bounded 3 (fun k => apart example_fs (inode_offset [] example_fs 2) 128 (GetINodeBlock example_fs example_meta k))).
    vm_compute. reflexivity.
Qed.
Lemma example_meta_bytes : Forall byte example_meta.
Proof. now apply bytesb_spec. Qed.

Lemma file_write_witness :
  exists fs' meta', WriteINode [] example_fs example_meta (replicate 70 7) 2 50 70 = (fs', meta', 70) /\ GetSize meta' = 192
    /\ byte_at fs' meta' 49 = 1 /\ byte_at fs' meta' 119 = 7.
Proof.
  destruct (file_write [] example_fs example_meta (replicate 70 7) 2 3 50 70 example_ok) as (fs' & meta' & Hw & Hs & Hb);
    [lia|exact example_file_ok|exact example_entry_ok|reflexivity|exact example_meta_bytes|now apply bytesb_spec|by_computation..|].
  exists fs', meta'. split; [exact Hw|]. split; [exact Hs|]. split; rewrite Hb by by_computation; reflexivity.
Defined.

Lemma write_then_read_witness :
  exists fs' meta', WriteINode [] example_fs example_meta (replicate 100 9) 2 50 100 = (fs', meta', 100)
    /\ ReadINode fs' meta' (replicate 200 0) 0 160 = (replicate 50 1 ++ replicate 100 9 ++ replicate 10 3 ++ replicate 40 0, 160)
    /\ ReadINode fs' meta' (replicate 4 0) 148 4 = ([9; 9; 3; 3], 4).
Proof.
  destruct (write_then_read [] example_fs example_meta (replicate 100 9) 2 3 50 example_ok) as (fs' & meta' & Hw & Hs & Hr);
    [lia|exact example_file_ok|exact example_entry_ok|reflexivity|exact example_meta_bytes|now apply bytesb_spec|by_computation..|].
  assert (Ha : forall start bytes, available meta' start bytes = if 192 <? start then 0 else Z.min bytes (192 - start)).
  { intros start bytes. unfold available. now replace (GetSize meta') with 192 by (rewrite Hs; reflexivity). }
  exists fs', meta'. split; [exact Hw|]. split; rewrite Hr; rewrite ?Ha; first [by_computation | left; reflexivity | right; by_computation].
Defined.

Lemma two_block_read_witness :
  ReadINode example_fs (SetSize example_meta 256) (replicate 128 0) (2 * 64) (2 * 64) = (replicate 64 3 ++ replicate 64 2, 128).
Proof.
  assert (H := two_block_read example_fs (SetSize example_meta 256) (replicate 128 0) 2 example_ok).
  change (m_BlockSize example_fs) with 64 in H. rewrite H by by_computation. vm_compute. reflexivity.
Defined.

Lemma straddling_write_witness :
  exists fs' meta', WriteINode [] example_fs example_meta (replicate 40 5) 2 168 40 = (fs', meta', 40)
    /\ extent (m_Device fs') 0 16 = replicate 16 5.
Proof.
  destruct (straddling_write [] example_fs example_meta (replicate 40 5) 2 168 40 example_ok) as (fs' & meta' & Hw & Hb);
    [by_computation|exact example_file_ok|exact example_entry_ok|by_computation|reflexivity|exact example_meta_bytes|now apply bytesb_spec|by_computation..|].
  exists fs', meta'. split; [exact Hw|exact Hb].
Defined.

Lemma example_indirect s : 0 <= s < 16 -> indirect example_fs example_meta s = if s =? 0 then 32 else 0.
Proof. revert s. apply (bounded 16 (fun s => indirect example_fs example_meta s = if s =? 0 then 32 else 0)). vm_compute. reflexivity. Qed.
Lemma example_indirect_ok : indirect_ok example_fs example_meta.
Proof.
  split; [reflexivity|by_computation|by_computation|discriminate| | |].
  - apply (bounded 16 (fun s => block_in example_fs (indirect example_fs example_meta s))). vm_compute. reflexivity.
  - intros s Hs. rewrite example_indirect by exact Hs. destruct (s =? 0); [|easy]. intros _. split; discriminate.
  - intros s s' Hs Hs' E Hn. rewrite !example_indirect in * by trivial. destruct (Z.eqb_spec s 0), (Z.eqb_spec s' 0); lia.
Qed.

Lemma set_block_map_witness :
  let '(fs', meta') := assign_all [] 2 (example_fs, example_meta) [(30, 50); (3, 51); (13, 52); (30, 53)] in
  GetINodeBlock fs' meta' 30 = 53 /\ GetINodeBlock fs' meta' 3 = 51 /\ GetINodeBlock fs' meta' 13 = 52 /\ GetINodeBlock fs' meta' 29 = 0 /\ GetINodeBlock fs' meta' 1 = 25.
Proof.
  pose proof (set_block_map [] example_fs example_meta 2 [(30, 50); (3, 51); (13, 52); (30, 53)] example_ok example_indirect_ok) as H.
  destruct (assign_all [] 2 (example_fs, example_meta) [(30, 50); (3, 51); (13, 52); (30, 53)]) as [fs' meta'].
  destruct H as [_ H]; [repeat apply list.Forall_cons_2; [by_computation..|apply list.Forall_nil_2]|]. rewrite !H by by_computation. by_computation.
Defined.

(** A disk of 1 KiB blocks with two groups: superblock in block 1, descriptors in block 2, bitmaps in
    the blocks 3 and 4, inodes from block 5 on; of group 1 the first 11 blocks are in use. *)
Definition counted_descriptor (bitmap free : Z) : list Z :=
  set_field BlockUsageBitmapAddress bitmap (set_field INodeTableAddress 5 (set_field FreeBlockCount free (replicate 32 0))).
Definition counted_super : list Z :=
  set_field sb_FreeBlockCount 8188 (set_field sb_BlocksPerGroup 8192 (set_field sb_INodesPerGroup 8 (set_field sb_INodeStructureSize 128 (replicate 236 0)))).
Definition counted_fs : Ext2Fs MemDisk :=
  mkExt2Fs (mkMemDisk (store [(1024, counted_super); (2048, counted_descriptor 3 7); (2080, counted_descriptor 4 8181); (4096, [0xff; 0x07])]) 16384) 512 counted_super 1024 2 8192.
Definition counted_meta : list Z := set_field SectorCount 6 (replicate 128 0).

Lemma counted_bitmap_block g : 0 <= g < 2 -> bitmap_block counted_fs g = 3 + g.
Proof. revert g. apply (bounded 2 (fun g => bitmap_block counted_fs g = 3 + g)). vm_compute. reflexivity. Qed.
Lemma counted_groups_ok : groups_ok counted_fs 2.
Proof.
  split; [by_computation|reflexivity|by_computation| | |].
  - intros g Hg. rewrite counted_bitmap_block by exact Hg. unfold block_in. cbn. lia.
  - intros g Hg. rewrite counted_bitmap_block by exact Hg. right. change (descriptor_offset counted_fs 2) with 2112. cbn. lia.
  - intros g g' Hg Hg' E. rewrite !counted_bitmap_block in E by trivial. lia.
Qed.
Lemma counted_super_ok : super_ok counted_fs 2.
Proof.
  split; [by_computation|reflexivity|now apply bytesb_spec|by_computation|by_computation|].
  intros g Hg. rewrite counted_bitmap_block by exact Hg. right. cbn. lia.
Qed.
Lemma counted_entry : entry_apart [] counted_fs 2 2.
Proof.
  assert (E : inode_offset [] counted_fs 2 = 5248) by (vm_compute; reflexivity). split; rewrite ?E; [by_computation|by_computation| |lia]. split; [right; by_computation|].
  intros g Hg. rewrite counted_bitmap_block by exact Hg. left. cbn. lia.
Qed.

Lemma allocate_block_witness : exists fs' meta', AllocateBlock [] counted_fs counted_meta 2 = (fs', meta', 8203)
  /\ used counted_fs 8203 = false /\ used fs' 8203 = true /\ free_blocks fs' 1 = 8180 /\ free_blocks fs' 0 = 7
  /\ get_field sb_FreeBlockCount (m_SuperBlock fs') = 8187 /\ get_field SectorCount meta' = 8.
Proof.
  assert (E2 : snd (AllocateBlock [] counted_fs counted_meta 2) = 8203) by (vm_compute; reflexivity).
  destruct (AllocateBlock [] counted_fs counted_meta 2) as [[fs' meta'] b] eqn:E. cbn [snd] in E2. subst b. exists fs', meta'. split; [reflexivity|].
  destruct (allocate_block [] counted_fs counted_meta 2 fs' meta' 8203 counted_groups_ok ltac:(discriminate) counted_super_ok counted_entry eq_refl ltac:(now apply bytesb_spec) E)
    as [_ [[H _]|(_ & T)]]; [discriminate H|].
  split; [exact (bt_free _ _ _ _ _ _ _ T)|]. split; [rewrite (bt_used _ _ _ _ _ _ _ T) by by_computation; reflexivity|].
  split_and!; [rewrite (bt_counts _ _ _ _ _ _ _ T) by by_computation; vm_compute; reflexivity..|rewrite (bt_super _ _ _ _ _ _ _ T); vm_compute; reflexivity|rewrite (bt_sectors _ _ _ _ _ _ _ T); vm_compute; reflexivity].
Defined.
