(* ===== verification/Partitions.v ===== *)
(** * Partition tables

    [Drivers/Storage/PartitionTable.cpp]: the master boot record, extended boot records and
    GUID partition tables of a storage device. *)

From Stdlib Require Import ZArith Lia Bool.
From stdpp Require Import base gmap list numbers.
From S2P Require Import Prelude Disk.

Module PartitionTable.

(** ** [MasterBootRecord.hpp] and [GPT.hpp] *)
Definition sizeof_MasterBootRecord : nat := 512.
Definition Status (i : nat) := mkField (446 + 16 * i) 1.
Definition Type_ (i : nat) := mkField (450 + 16 * i) 1.
Definition FirstSector (i : nat) := mkField (454 + 16 * i) 4.
Definition SectorCount (i : nat) := mkField (458 + 16 * i) 4.
Definition MBR_SYSTEMID_EBR : Z := 0x05.

Definition sizeof_PartitionHeader : nat := 512.
Definition HeaderSignature := mkField 0 8.
Definition HeaderSize := mkField 12 4.
Definition PartitionArrayLBA := mkField 72 8.
Definition PartitionCount := mkField 80 4.
Definition EntrySize := mkField 84 4.
Definition HEADER_LENGTH : Z := 92.
Definition HEADER_SIGNATURE : Z := 0x5452415020494645.

Definition sizeof_Entry : nat := 128.
Definition UniqueGUID_0 := mkField 16 4.
Definition UniqueGUID_8 := mkField 24 4.
Definition StartLBA := mkField 32 8.
Definition EndLBA := mkField 40 8.
Definition Attributes := mkField 48 8.
Definition eDontMount : Z := 0x2.
Definition eLegacy : Z := 0x4.

(** [PartitionTable::Entry]; the attributes of an MBR entry are left uninitialised. *)
Record Entry := mkEntry { FirstBlock : Z; LastBlock : Z; PartType : Z; PartAttributes : option Z }.

(** [None]: out of fuel. *)
Section PartitionTable.
Context {D : Type} {Dev : Device D}.

Definition read_record (d : D) (offset : Z) (old : list Z) : list Z :=
  match device_Read d offset sizeof_MasterBootRecord with Some bs => bs | None => old end.

(** ** GUID partition table *)
Definition skipped (entry : list Z) : bool :=
  ((get_field UniqueGUID_0 entry =? 0) && (get_field UniqueGUID_8 entry =? 0))
  || truthy (get_field Attributes entry .& (eDontMount .| eLegacy)).
Definition gpt_entry (entry : list Z) : Entry :=
  mkEntry (get_field StartLBA entry) (get_field EndLBA entry) 0 (Some (get_field Attributes entry)).

(** [for (offset = 0; offset < partitionArraySize; offset += sizeof(GPT::Entry))] *)
Fixpoint gpt_loop (n : nat) (partitionArray : list Z) : list Entry :=
  match n with
  | O => []
  | S n =>
      let entry := take sizeof_Entry partitionArray in
      let rest := gpt_loop n (drop sizeof_Entry partitionArray) in
      if skipped entry then rest else gpt_entry entry :: rest
  end.

(** The entries found, or [None] for [return false].  A wrong checksum is only logged. *)
Definition ParseGPT (m_Device : D) (mbr : list Z) : option (list Entry) :=
  if negb (get_field (Status 0) mbr =? 0) || negb (get_field (Type_ 0) mbr =? 0xee) || negb (get_field (FirstSector 0) mbr =? 1) then None
  else
    header ← device_Read m_Device 512 sizeof_PartitionHeader;
    if negb (get_field HeaderSignature header =? HEADER_SIGNATURE) then None
    else if get_field HeaderSize header <? HEADER_LENGTH then None
    else
      let partitionArraySize := u32 (get_field PartitionCount header * get_field EntrySize header) in
      partitionArray ← device_Read m_Device (u64 (get_field PartitionArrayLBA header * 512)) (Z.to_nat partitionArraySize);
      Some (gpt_loop (Z.to_nat ((partitionArraySize + 127) / 128)) partitionArray).

(** ** Master boot record *)
(** The recursion of [ParseEBR] on the record read at [offset]; [fresh] is an uninitialised
    record. *)
Fixpoint ParseEBR (fuel : nat) (m_Device : D) (fresh ebr : list Z) (offset : Z) (m_Entries : list Entry) : option (list Entry * bool) :=
  let firstBlock := u64 (get_field (FirstSector 0) ebr + offset) in
  let lastBlock := u64 (firstBlock + get_field (SectorCount 0) ebr - 1) in
  let m_Entries := m_Entries ++ [mkEntry firstBlock lastBlock (get_field (Type_ 0) ebr) None] in
  if get_field (Type_ 1) ebr =? MBR_SYSTEMID_EBR then Some (m_Entries, false)
  else
    match fuel with
    | O => None
    | S fuel =>
        let offset := u64 (offset + get_field (FirstSector 1) ebr) in
        let nextEbr := read_record m_Device (u64 (offset * 512)) fresh in
        r ← ParseEBR fuel m_Device fresh nextEbr offset m_Entries;
        Some (r.1, true)
    end.

(** One primary entry. *)
Definition primary (fuel : nat) (m_Device : D) (fresh mbr : list Z) (i : nat) (m_Entries : list Entry) : option (list Entry) :=
  let first := get_field (FirstSector i) mbr in
  if first =? 0 then Some m_Entries
  else if get_field (Type_ i) mbr =? MBR_SYSTEMID_EBR then
    let ebr := read_record m_Device (u32 (first * 512)) fresh in
    r ← ParseEBR fuel m_Device fresh ebr first m_Entries; Some r.1
  else Some (m_Entries ++ [mkEntry first (u64 (first + get_field (SectorCount i) mbr - 1)) (get_field (Type_ i) mbr) None]).

Fixpoint mbr_loop (fuel : nat) (m_Device : D) (fresh mbr : list Z) (indices : list nat) (m_Entries : list Entry) : option (list Entry) :=
  match indices with
  | [] => Some m_Entries
  | i :: indices => m_Entries ← primary fuel m_Device fresh mbr i m_Entries; mbr_loop fuel m_Device fresh mbr indices m_Entries
  end.
(** [ParseMBR] returns false in every case. *)
Definition ParseMBR (fuel : nat) (m_Device : D) (fresh mbr : list Z) : option (list Entry * bool) :=
  es ← mbr_loop fuel m_Device fresh mbr [0; 1; 2; 3]%nat []; Some (es, false).

Definition Load (fuel : nat) (device : D) (fresh : list Z) : option (list Entry * bool) :=
  let m_Mbr := read_record device 0 fresh in
  match ParseGPT device m_Mbr with
  | Some es => Some (es, true)
  | None => ParseMBR fuel device fresh m_Mbr
  end.
End PartitionTable.
End PartitionTable.
Import PartitionTable.

(** ** Theorems *)
Section Theorems.
Context {D : Type} {Dev : Device D}.
Implicit Types d : D.

(** Partitions to be described by a table. *)
Record gpart := mkGpart { g_guid : Z; g_start : Z; g_end : Z; g_attributes : Z }.
Definition gpart_ok (p : gpart) : Prop := 0 < g_guid p < 2 ^ 32 /\ in_u 64 (g_start p) /\ in_u 64 (g_end p) /\ in_u 64 (g_attributes p).
Definition encode_gpart (p : gpart) : list Z :=
  replicate 16 0 ++ le_bytes 4 (g_guid p) ++ replicate 12 0 ++ le_bytes 8 (g_start p) ++ le_bytes 8 (g_end p) ++ le_bytes 8 (g_attributes p) ++ replicate 72 0.
Definition mounted (p : gpart) : bool := negb (truthy (g_attributes p .& 6)).

Lemma encode_gpart_length p : length (encode_gpart p) = sizeof_Entry.
Proof. reflexivity. Qed.
Lemma encode_gpart_fields p : gpart_ok p ->
  get_field UniqueGUID_0 (encode_gpart p) = g_guid p /\ get_field StartLBA (encode_gpart p) = g_start p
  /\ get_field EndLBA (encode_gpart p) = g_end p /\ get_field Attributes (encode_gpart p) = g_attributes p.
Proof.
  intros (H1 & H2 & H3 & H4). split_and!; rewrite get_field_slice.
  - change (slice (f_offset UniqueGUID_0) (f_size UniqueGUID_0) (encode_gpart p)) with (le_bytes 4 (g_guid p)).
    rewrite le_word_le_bytes. apply Z.mod_small. change (256 ^ Z.of_nat 4) with (2 ^ 32). lia.
  - change (slice (f_offset StartLBA) (f_size StartLBA) (encode_gpart p)) with (le_bytes 8 (g_start p)).
    rewrite le_word_le_bytes. now apply Z.mod_small.
  - change (slice (f_offset EndLBA) (f_size EndLBA) (encode_gpart p)) with (le_bytes 8 (g_end p)).
    rewrite le_word_le_bytes. now apply Z.mod_small.
  - change (slice (f_offset Attributes) (f_size Attributes) (encode_gpart p)) with (le_bytes 8 (g_attributes p)).
    rewrite le_word_le_bytes. now apply Z.mod_small.
Qed.

Lemma gpt_loop_encode ps : Forall gpart_ok ps ->
  gpt_loop (length ps) (concat (encode_gpart <$> ps)) =
    (fun p => mkEntry (g_start p) (g_end p) 0 (Some (g_attributes p))) <$> filter (fun p => mounted p = true) ps.
Proof.
  induction 1 as [|p ps Hp _ IH]; [reflexivity|]. cbn [length gpt_loop fmap list_fmap concat].
  rewrite take_app_length', drop_app_length' by reflexivity. rewrite IH.
  destruct (encode_gpart_fields p Hp) as (E1 & E2 & E3 & E4). unfold skipped, gpt_entry. rewrite E1, E2, E3, E4.
  destruct Hp as (Hg & _). destruct (Z.eqb_spec (g_guid p) 0); [lia|]. cbn [andb orb]. rewrite filter_cons. unfold mounted at 1.
  change (eDontMount .| eLegacy) with 6.
  destruct (truthy (g_attributes p .& 6)) eqn:E; cbn [negb]; destruct (decide _) as [Hm|Hm]; trivial; unfold mounted in Hm; rewrite E in Hm; easy.
Qed.

(** A GUID partition table is read as it was written.  On a disk with a protective master
    boot record and a table of [n] entries of 128 bytes, [Load] finds exactly the partitions
    of the table that are to be mounted, in order, with their block numbers and attributes. *)
Theorem gpt_roundtrip d fresh mbr header ps fuel :
  device_Read d 0 512 = Some mbr -> get_field (Status 0) mbr = 0 -> get_field (Type_ 0) mbr = 0xee -> get_field (FirstSector 0) mbr = 1 ->
  device_Read d 512 512 = Some header -> get_field HeaderSignature header = HEADER_SIGNATURE -> HEADER_LENGTH <= get_field HeaderSize header ->
  get_field PartitionCount header = Z.of_nat (length ps) -> get_field EntrySize header = 128 -> Z.of_nat (length ps) * 128 < 2 ^ 32 ->
  device_Read d (u64 (get_field PartitionArrayLBA header * 512)) (length ps * 128) = Some (concat (encode_gpart <$> ps)) -> Forall gpart_ok ps ->
  Load fuel d fresh = Some ((fun p => mkEntry (g_start p) (g_end p) 0 (Some (g_attributes p))) <$> filter (fun p => mounted p = true) ps, true).
Proof.
  intros Hm E1 E2 E3 Hh E4 E5 E6 E7 Hlt Ha Hps. unfold Load, read_record, sizeof_MasterBootRecord. rewrite Hm.
  unfold ParseGPT, sizeof_PartitionHeader. rewrite E1, E2, E3. cbn [Z.eqb Pos.eqb negb orb]. rewrite Hh. cbn [mbind option_bind].
  rewrite E4, Z.eqb_refl. cbn [negb]. destruct (Z.ltb_spec (get_field HeaderSize header) HEADER_LENGTH); [lia|].
  rewrite E6, E7. unfold u32. rewrite wrap_small by (unfold in_u; lia).
  replace (Z.to_nat (Z.of_nat (length ps) * 128)) with (length ps * 128)%nat by lia. rewrite Ha. cbn [mbind option_bind].
  replace (Z.to_nat ((Z.of_nat (length ps) * 128 + 127) / 128)) with (length ps).
  2:{ replace ((Z.of_nat (length ps) * 128 + 127) / 128) with (Z.of_nat (length ps)); [lia|]. apply (Z.div_unique _ _ _ 127); lia. }
  now rewrite gpt_loop_encode.
Qed.

(** ** Extended partitions *)
Lemma ParseEBR_loops d fresh ebr offset : get_field (Type_ 1) ebr <> MBR_SYSTEMID_EBR -> get_field (FirstSector 1) ebr = 0 ->
  in_u 64 offset -> read_record d (u64 (offset * 512)) fresh = ebr -> forall fuel es, ParseEBR fuel d fresh ebr offset es = None.
Proof.
  intros Ht Hf Ho Hr. induction fuel as [|fuel IH]; intros es; cbn [ParseEBR]; (destruct (Z.eqb_spec (get_field (Type_ 1) ebr) MBR_SYSTEMID_EBR); [easy|]); [reflexivity|].
  assert (Hw : u64 offset = offset) by now apply wrap_small. rewrite Hf, Z.add_0_r, Hw, Hr, IH. reflexivity.
Qed.

(** An extended partition stops the kernel.  When the first primary entry is an extended
    partition whose boot record describes one logical partition and no further record, the
    parser reads that record again and again: [Load] never returns. *)
Theorem extended_partition_never_loads d fresh mbr ebr : device_Read d 0 512 = Some mbr ->
  get_field (Type_ 0) mbr = MBR_SYSTEMID_EBR -> 0 < get_field (FirstSector 0) mbr -> get_field (FirstSector 0) mbr * 512 < 2 ^ 32 ->
  device_Read d (get_field (FirstSector 0) mbr * 512) 512 = Some ebr -> get_field (Type_ 1) ebr = 0 -> get_field (FirstSector 1) ebr = 0 ->
  forall fuel, Load fuel d fresh = None.
Proof.
  intros Hm Ht Hf Hlt He Et Ef fuel. unfold Load, read_record at 1 2, sizeof_MasterBootRecord. rewrite Hm.
  unfold ParseGPT. rewrite Ht. cbn [MBR_SYSTEMID_EBR Z.eqb Pos.eqb negb]. rewrite orb_true_r. cbn [orb].
  assert (Hp : primary fuel d fresh mbr 0 [] = None); [|unfold ParseMBR; cbn [mbr_loop]; now rewrite Hp].
  unfold primary. rewrite Ht, Z.eqb_refl. set (f := get_field (FirstSector 0) mbr) in *. destruct (Z.eqb_spec f 0); [lia|].
  assert (Hr : read_record d (u32 (f * 512)) fresh = ebr).
  { unfold read_record, sizeof_MasterBootRecord, u32. rewrite wrap_small by (unfold in_u; lia). now rewrite He. }
  rewrite Hr, (ParseEBR_loops d fresh ebr f); trivial; [now rewrite Et|unfold in_u; lia|].
  unfold read_record, sizeof_MasterBootRecord, u64. rewrite wrap_small by (unfold in_u; lia). now rewrite He.
Qed.

(** ** Primary partitions *)
Definition primary_entry (mbr : list Z) (i : nat) : option Entry :=
  if get_field (FirstSector i) mbr =? 0 then None
  else Some (mkEntry (get_field (FirstSector i) mbr) (u64 (get_field (FirstSector i) mbr + get_field (SectorCount i) mbr - 1)) (get_field (Type_ i) mbr) None).

Lemma mbr_loop_primaries d fresh mbr fuel idx es : Forall (fun i => get_field (Type_ i) mbr <> MBR_SYSTEMID_EBR) idx ->
  mbr_loop fuel d fresh mbr idx es = Some (es ++ omap (primary_entry mbr) idx).
Proof.
  intros H. revert es. induction H as [|i idx Hi _ IH]; intros es; cbn [mbr_loop omap list_omap]; [now rewrite app_nil_r|].
  unfold primary, primary_entry at 1. destruct (get_field (FirstSector i) mbr =? 0) eqn:E; cbn [mbind option_bind]; [apply IH|].
  destruct (Z.eqb_spec (get_field (Type_ i) mbr) MBR_SYSTEMID_EBR); [easy|]. cbn [mbind option_bind]. rewrite IH, <- app_assoc. reflexivity.
Qed.

(** The primary partitions of a master boot record are found, yet the load fails.  Without
    extended partitions and without a GUID table, [Load] collects the used entries of the
    record with their first and last block, and returns false all the same. *)
Theorem mbr_primaries d fresh mbr fuel : device_Read d 0 512 = Some mbr -> ParseGPT d mbr = None ->
  Forall (fun i => get_field (Type_ i) mbr <> MBR_SYSTEMID_EBR) [0; 1; 2; 3]%nat ->
  Load fuel d fresh = Some (omap (primary_entry mbr) [0; 1; 2; 3]%nat, false).
Proof.
  intros Hm Hg H. unfold Load, read_record, sizeof_MasterBootRecord. rewrite Hm, Hg. unfold ParseMBR. now rewrite mbr_loop_primaries.
Qed.
End Theorems.

(** ** Concrete disks *)
Definition example_mbr (type first count : Z) : list Z :=
  set_field (Type_ 0) type (set_field (FirstSector 0) first (set_field (SectorCount 0) count (replicate 512 0))).
Definition example_parts : list gpart := [mkGpart 1 64 127 0; mkGpart 2 128 255 4; mkGpart 3 256 511 1].
Definition example_header : list Z :=
  set_field HeaderSignature HEADER_SIGNATURE (set_field HeaderSize 92 (set_field PartitionArrayLBA 2 (set_field PartitionCount 3
    (set_field EntrySize 128 (replicate 512 0))))).
Definition gpt_disk : MemDisk :=
  mkMemDisk (store [(0, example_mbr 0xee 1 1000); (512, example_header); (1024, concat (encode_gpart <$> example_parts))]) 8192.
Definition ebr_disk : MemDisk := mkMemDisk (store [(0, example_mbr 5 4 100); (2048, example_mbr 0x83 1 20)]) 8192.
Definition mbr_disk : MemDisk := mkMemDisk (store [(0, example_mbr 0x83 8 100)]) 8192.

Lemma gpt_roundtrip_witness : Load 0 gpt_disk [] = Some ([mkEntry 64 127 0 (Some 0); mkEntry 256 511 0 (Some 1)], true).
Proof.
  assert (Hm : device_Read gpt_disk 0 512 = Some (example_mbr 0xee 1 1000)) by (vm_compute; reflexivity).
  assert (Hh : device_Read gpt_disk 512 512 = Some example_header) by (vm_compute; reflexivity).
  assert (Ha : device_Read gpt_disk (u64 (get_field PartitionArrayLBA example_header * 512)) (length example_parts * 128)
    = Some (concat (encode_gpart <$> example_parts))) by (vm_compute; reflexivity).
  assert (Hps : Forall gpart_ok example_parts) by (repeat (apply list.Forall_cons; split); [by_computation..|apply list.Forall_nil; trivial]).
  rewrite (gpt_roundtrip gpt_disk [] _ example_header example_parts 0 Hm); [vm_compute; reflexivity|by_computation..|exact Ha|exact Hps].
Defined.

Lemma extended_partition_never_loads_witness : Load 1000 ebr_disk [] = None.
Proof.
  assert (Hm : device_Read ebr_disk 0 512 = Some (example_mbr 5 4 100)) by (vm_compute; reflexivity).
  assert (He : device_Read ebr_disk (get_field (FirstSector 0) (example_mbr 5 4 100) * 512) 512 = Some (example_mbr 0x83 1 20)) by (vm_compute; reflexivity).
  apply (extended_partition_never_loads ebr_disk [] _ (example_mbr 0x83 1 20) Hm); [by_computation|by_computation|by_computation|exact He|by_computation..].
Defined.

Lemma mbr_primaries_witness : Load 0 mbr_disk [] = Some ([mkEntry 8 107 0x83 None], false).
Proof.
  assert (Hm : device_Read mbr_disk 0 512 = Some (example_mbr 0x83 8 100)) by (vm_compute; reflexivity).
  rewrite (mbr_primaries mbr_disk [] _ 0 Hm); [vm_compute; reflexivity|vm_compute; reflexivity|repeat constructor; vm_compute; discriminate].
Defined.
