(* ===== verification/SynthFs.v ===== *)
(** * In-memory file systems

    [VFS/SynthFsINode.cpp] with the node allocation of [VFS/TmpFs]: nodes with a growable
    buffer, directories as maps from names to nodes, links, removal.  The nodes live in a
    store indexed by inode numbers; a node that has been freed is gone from the store.  Time
    stamps are not modelled. *)

From Stdlib Require Import ZArith Lia Bool.
From stdpp Require Import base gmap list numbers strings.
From S2P Require Import Prelude Posix Disk.

(** ** [Prism/Memory/Buffer.hpp] *)
Class Buffer (B : Type) := {
  buf_empty : B;
  buf_Size : B -> Z;
  buf_get : B -> Z -> Z;
  buf_Resize : B -> Z -> B;
  buf_Write : B -> Z -> list Z -> B;
  buf_Read : B -> Z -> Z -> list Z;
  buf_empty_Size : buf_Size buf_empty = 0;
  buf_Size_pos b : 0 <= buf_Size b;
  buf_Resize_Size b n : 0 <= n -> buf_Size (buf_Resize b n) = n;
  buf_Resize_get b n i : 0 <= i < buf_Size b -> i < n -> buf_get (buf_Resize b n) i = buf_get b i;
  buf_Write_Size b off bs : 0 <= off -> off + Z.of_nat (length bs) <= buf_Size b -> buf_Size (buf_Write b off bs) = buf_Size b;
  buf_Write_get b off bs i : 0 <= off -> 0 <= i -> off + Z.of_nat (length bs) <= buf_Size b ->
    buf_get (buf_Write b off bs) i = if decide (off <= i < off + Z.of_nat (length bs)) then nth (Z.to_nat (i - off)) bs 0 else buf_get b i;
  buf_Read_spec b off n : 0 <= off -> 0 <= n -> off + n <= buf_Size b -> buf_Read b off n = buf_get b <$> seqZ off n
}.

#[export] Program Instance buffer_ref : Buffer (list Z) := {|
  buf_empty := [];
  buf_Size b := Z.of_nat (length b);
  buf_get b i := nth (Z.to_nat i) b 0;
  buf_Resize b n := take (Z.to_nat n) b ++ replicate (Z.to_nat n - length b) 0;
  buf_Write b off bs := splice (Z.to_nat off) bs b;
  buf_Read b off n := take (Z.to_nat n) (drop (Z.to_nat off) b)
|}.
Next Obligation. reflexivity. Qed.
Next Obligation. intros b. cbn. lia. Qed.
Next Obligation. intros b n Hn. cbn. rewrite length_app, length_take, length_replicate. lia. Qed.
Next Obligation.
  intros b n i Hi Hn. cbn in *. rewrite !nth_lookup, lookup_app_l by (rewrite length_take; lia). now rewrite lookup_take_lt by lia.
Qed.
Next Obligation. intros b off bs H0 H1. cbn in *. rewrite splice_length; lia. Qed.
Next Obligation.
  intros b off bs i H0 Hi H1. cbn in *. rewrite !nth_lookup, splice_lookup by lia.
  destruct (decide (off <= i < _)), (decide (Z.to_nat off <= Z.to_nat i < _)%nat); try lia; trivial. do 2 f_equal. lia.
Qed.
Next Obligation.
  intros b off n H0 Hn H1. cbn in *. apply list_eq. intros k. rewrite list_lookup_fmap.
  destruct (Nat.lt_ge_cases k (Z.to_nat n)) as [Hk|Hk].
  - rewrite lookup_take_lt, lookup_drop, lookup_seqZ_lt by lia. cbn [fmap option_fmap option_map].
    destruct (lookup_lt_is_Some_2 b (Z.to_nat off + k)%nat) as [x Hx]; [lia|]. rewrite Hx. f_equal. symmetry. apply nth_lookup_Some.
    rewrite <- Hx. f_equal. lia.
  - rewrite lookup_seqZ_ge by lia. apply lookup_ge_None_2. rewrite length_take. lia.
Qed.

Module SynthFs.
Section SynthFs.
Context {B : Type} {Buf : Buffer B} (DivRoundUp : Z -> Z -> Z).

Definition PAGE_SIZE : Z := 4096.
Definition DIRECTORY_ENTRY_SIZE : Z := 20.
Definition GetDefaultSize : Z := 0x1000.
Definition S_ISGID : Z := 0x400.
Definition ENOSPC : Z := 28.
Definition ENOTEMPTY : Z := 39.

(** A node: its metadata, its buffer, its children and the target of a link. *)
Record Node := mkNode {
  m_Mode : Z; m_Size : Z; m_LinkCount : Z; m_BlockCount : Z; m_UID : Z; m_GID : Z; m_DeviceID : Z;
  m_Buffer : B; m_Children : gmap string Z; m_Target : string
}.
Definition with_size (x : Z) (n : Node) : Node :=
  mkNode (m_Mode n) x (m_LinkCount n) (m_BlockCount n) (m_UID n) (m_GID n) (m_DeviceID n) (m_Buffer n) (m_Children n) (m_Target n).
Definition with_links (x : Z) (n : Node) : Node :=
  mkNode (m_Mode n) (m_Size n) x (m_BlockCount n) (m_UID n) (m_GID n) (m_DeviceID n) (m_Buffer n) (m_Children n) (m_Target n).
Definition with_buffer (b : B) (n : Node) : Node :=
  mkNode (m_Mode n) (m_Size n) (m_LinkCount n) (m_BlockCount n) (m_UID n) (m_GID n) (m_DeviceID n) b (m_Children n) (m_Target n).
Definition with_children (c : gmap string Z) (n : Node) : Node :=
  mkNode (m_Mode n) (m_Size n) (m_LinkCount n) (m_BlockCount n) (m_UID n) (m_GID n) (m_DeviceID n) (m_Buffer n) c (m_Target n).
Definition with_target (t : string) (n : Node) : Node :=
  mkNode (m_Mode n) (m_Size n) (m_LinkCount n) (m_BlockCount n) (m_UID n) (m_GID n) (m_DeviceID n) (m_Buffer n) (m_Children n) t.
Definition IsDirectory (n : Node) : bool := S_ISDIR (m_Mode n).

(** The file system: its nodes, the next inode number and the free ones. *)
Record Fs := mkFs { nodes : gmap Z Node; m_NextINodeIndex : Z; m_MaxINodeCount : Z; m_FreeINodeCount : Z }.
Definition with_nodes (ns : gmap Z Node) (fs : Fs) : Fs := mkFs ns (m_NextINodeIndex fs) (m_MaxINodeCount fs) (m_FreeINodeCount fs).
Definition update (i : Z) (f : Node -> Node) (fs : Fs) : Fs := with_nodes (alter f i (nodes fs)) fs.

(** The constructor; [IsDirectory() ?: 40] is 1 for a directory and 40 otherwise. *)
Definition SynthFsINode (mode uid gid : Z) : Node :=
  let dir := S_ISDIR mode in
  mkNode mode (if dir then 1 else DIRECTORY_ENTRY_SIZE * 2) (1 + (if dir then 1 else 0)) 0 uid gid 0 buf_empty ∅ "".

(** [TmpFs::AllocateNode] and [TmpFs::FreeINode] *)
Definition AllocateNode (fs : Fs) (mode uid gid : Z) : Fs * (Z + Z) :=
  if m_MaxINodeCount fs <=? m_NextINodeIndex fs then (fs, inl ENOSPC)
  else if m_FreeINodeCount fs =? 0 then (fs, inl ENOSPC)
  else
    let id := m_NextINodeIndex fs in
    (mkFs (<[id := SynthFsINode mode uid gid]> (nodes fs)) (id + 1) (m_MaxINodeCount fs) (m_FreeINodeCount fs - 1), inr id).
Definition FreeINode (fs : Fs) (id : Z) : Fs :=
  mkFs (delete id (nodes fs)) (m_NextINodeIndex fs) (m_MaxINodeCount fs) (m_FreeINodeCount fs + 1).

Definition InsertChild (dir : Z) (name : string) (id : Z) (fs : Fs) : Fs :=
  update dir (fun n => with_children (<[name := id]> (m_Children n)) n) fs.

Definition Lookup (fs : Fs) (dir : Z) (name : string) : Z + Z :=
  match nodes fs !! dir ≫= fun n => m_Children n !! name with Some id => inr id | None => inl ENOENT end.

(** The node that becomes the child: the default buffer of a regular file, the device
    number, and what it inherits from a set-group-id directory. *)
Definition init_child (parent : Node) (mode dev : Z) (n : Node) : Node :=
  let n := if S_ISREG mode then with_buffer (buf_Resize (m_Buffer n) GetDefaultSize) (with_size GetDefaultSize n) else n in
  let gid := truthy (m_Mode parent .& S_ISGID) in
  mkNode (if gid && IsDirectory n then m_Mode n .| S_ISGID else m_Mode n) (m_Size n) (m_LinkCount n) (m_BlockCount n) (m_UID n)
    (if gid then m_GID parent else m_GID n) dev (m_Buffer n) (m_Children n) (m_Target n).

Definition CreateNode (fs : Fs) (dir : Z) (name : string) (mode dev uid gid : Z) : Fs * (Z + Z) :=
  match nodes fs !! dir with
  | None => (fs, inl EFAULT)
  | Some parent =>
      match m_Children parent !! name with
      | Some _ => (fs, inl EEXIST)
      | None =>
          match AllocateNode fs mode uid gid with
          | (fs, inl e) => (fs, inl e)
          | (fs, inr id) =>
              let fs := update id (init_child parent mode dev) fs in
              let fs := update dir (fun n => with_size (m_Size n + DIRECTORY_ENTRY_SIZE) n) fs in
              (InsertChild dir name id fs, inr id)
          end
      end
  end.
Definition CreateFile (fs : Fs) (dir : Z) (name : string) (mode uid gid : Z) : Fs * (Z + Z) :=
  CreateNode fs dir name (Z.ldiff mode S_IFMT .| S_IFREG) 0 uid gid.
Definition CreateDirectory (fs : Fs) (dir : Z) (name : string) (mode uid gid : Z) : Fs * (Z + Z) :=
  match CreateNode fs dir name (Z.ldiff mode S_IFMT .| S_IFDIR) 0 uid gid with
  | (fs, inr id) => (update dir (fun n => with_links (m_LinkCount n + 1) n) fs, inr id)
  | r => r
  end.
Definition Symlink (fs : Fs) (dir : Z) (name target : string) (uid gid : Z) : Fs * (Z + Z) :=
  match CreateNode fs dir name (0x1ff .| S_IFLNK) 0 uid gid with
  | (fs, inr id) => (update id (with_target target) fs, inr id)
  | r => r
  end.

(** [Link]: the new name is bound in the directory cache only. *)
Definition Link (fs : Fs) (dir id : Z) : Fs * (Z + Z) :=
  match nodes fs !! id with
  | None => (fs, inl EFAULT)
  | Some n =>
      if IsDirectory n then (fs, inl EPERM)
      else
        let fs := update dir (fun n => with_size (m_Size n + DIRECTORY_ENTRY_SIZE) n) fs in
        (update id (fun n => with_links (m_LinkCount n + 1) n) fs, inr id)
  end.

(** [Unlink] of the entry [name] whose inode is [id]. *)
Definition Unlink (fs : Fs) (dir : Z) (name : string) (id : Z) : Fs :=
  match nodes fs !! dir ≫= fun n => m_Children n !! name with
  | None => fs
  | Some _ =>
      let fs := update dir (fun n => with_size (m_Size n - DIRECTORY_ENTRY_SIZE) n) fs in
      let fs := update id (fun n => with_links (m_LinkCount n - 1) n) fs in
      match nodes fs !! id with
      | None => fs
      | Some n =>
          if m_LinkCount n =? (if IsDirectory n then 1 else 0) then
            FreeINode (update dir (fun n => with_children (delete name (m_Children n)) n) fs) id
          else fs
      end
  end.
Definition RmDir (fs : Fs) (dir : Z) (name : string) (id : Z) : Fs * option Z :=
  match nodes fs !! id with
  | None => (fs, Some EFAULT)
  | Some n =>
      if bool_decide (m_Children n = ∅) then
        (Unlink (update dir (fun n => with_links (m_LinkCount n - 1) n) fs) dir name id, None)
      else (fs, Some ENOTEMPTY)
  end.
(** [Rename] inserts the node under its new name; the old name is not removed. *)
Definition Rename (fs : Fs) (id newParent : Z) (newName : string) : Fs := InsertChild newParent newName id fs.

(** ** Contents *)
Definition ResizeBuffer (newSize : Z) (n : Node) : Node :=
  let b := buf_Resize (m_Buffer n) newSize in
  mkNode (m_Mode n) (buf_Size b) (m_LinkCount n) (DivRoundUp newSize 512) (m_UID n) (m_GID n) (m_DeviceID n) b (m_Children n) (m_Target n).

(** [Min(bytes, m_Buffer.Size() - offset)] is computed without sign. *)
Definition Read (n : Node) (offset bytes : Z) : list Z * Z :=
  let bytes := Z.min bytes (u64 (buf_Size (m_Buffer n) - offset)) in
  (buf_Read (m_Buffer n) offset bytes, bytes).

(** [while (offset + bytes > newCapacity) newCapacity *= 2;] *)
Fixpoint grow (fuel : nat) (wanted newCapacity : Z) : option Z :=
  if newCapacity <? wanted then
    match fuel with O => None | S fuel => grow fuel wanted (u64 (newCapacity * 2)) end
  else Some newCapacity.
Definition Write (fuel : nat) (n : Node) (bs : list Z) (offset : Z) : option (Node * Z) :=
  let bytes := Z.of_nat (length bs) in
  let newCapacity := if buf_Size (m_Buffer n) =? 0 then PAGE_SIZE else buf_Size (m_Buffer n) in
  newCapacity ← grow fuel (u64 (offset + bytes)) newCapacity;
  let n := ResizeBuffer newCapacity n in
  Some (with_buffer (buf_Write (m_Buffer n) offset bs) n, bytes).
Definition Truncate (n : Node) (size : Z) : Node :=
  if size =? buf_Size (m_Buffer n) then n else ResizeBuffer size n.
End SynthFs.
Arguments Node : clear implicits.
Arguments Fs : clear implicits.
End SynthFs.
