(* ===== verification/SynthFsTheorems.v ===== *)
(** * In-memory file systems: theorems

    Contents of a file across writes and reads; the store of nodes stays well formed under
    every sequence of operations except renaming. *)

From Stdlib Require Import ZArith Lia Bool.
From stdpp Require Import base gmap list numbers strings.
From S2P Require Import Prelude Posix Disk SynthFs.

Import SynthFs.

Section Contents.
Context {B : Type} {Buf : Buffer B} (DivRoundUp : Z -> Z -> Z).
Implicit Types n : Node B.

(** The doubling loop ends. *)
Lemma doubling_spec fuel : forall wanted c, 0 < c < 2 ^ 63 -> wanted <= 2 ^ 62 -> wanted <= c * 2 ^ Z.of_nat fuel ->
  exists c', grow fuel wanted c = Some c' /\ c <= c' < 2 ^ 63 /\ wanted <= c' /\ (c' = c \/ c' < 2 * wanted).
Proof.
  induction fuel as [|fuel IH]; intros wanted c Hc Hw Hf; cbn [grow]; destruct (Z.ltb_spec c wanted) as [Hlt|Hge];
    try (exists c; split_and!; trivial; lia).
  unfold u64. rewrite wrap_small by (unfold in_u; lia).
  destruct (IH wanted (c * 2)) as (c' & -> & H1 & H2 & H3); [lia|trivial| |].
  { replace (Z.of_nat (S fuel)) with (Z.succ (Z.of_nat fuel)) in Hf by lia. rewrite Z.pow_succ_r in Hf by lia. lia. }
  exists c'. split_and!; trivial; lia.
Qed.

Lemma Write_spec n bs offset : 0 <= offset -> offset + Z.of_nat (length bs) <= 2 ^ 62 -> buf_Size (m_Buffer n) < 2 ^ 63 ->
  exists n' c, Write DivRoundUp 63 n bs offset = Some (n', Z.of_nat (length bs))
    /\ (m_Size n' = c /\ m_Mode n' = m_Mode n /\ c <= Z.max (Z.max PAGE_SIZE (buf_Size (m_Buffer n))) (2 * (offset + Z.of_nat (length bs))))
    /\ buf_Size (m_Buffer n') = c /\ buf_Size (m_Buffer n) <= c < 2 ^ 63 /\ offset + Z.of_nat (length bs) <= c
    /\ forall i, 0 <= i -> i < buf_Size (m_Buffer n) \/ offset <= i < offset + Z.of_nat (length bs) ->
         buf_get (m_Buffer n') i = if decide (offset <= i < offset + Z.of_nat (length bs)) then nth (Z.to_nat (i - offset)) bs 0 else buf_get (m_Buffer n) i.
Proof.
  intros Ho Hw Hs. unfold Write. pose proof (buf_Size_pos (m_Buffer n)) as Hp.
  unfold u64. rewrite wrap_small by (unfold in_u; lia).
  destruct (doubling_spec 63 (offset + Z.of_nat (length bs)) (if buf_Size (m_Buffer n) =? 0 then PAGE_SIZE else buf_Size (m_Buffer n)))
    as (c & -> & Hc & Hcw & Hb).
  { unfold PAGE_SIZE. destruct (Z.eqb_spec (buf_Size (m_Buffer n)) 0); lia. }
  { lia. }
  { unfold PAGE_SIZE. change (Z.of_nat 63) with 63. destruct (Z.eqb_spec (buf_Size (m_Buffer n)) 0); lia. }
  cbn [mbind option_bind]. eexists _, c. split; [reflexivity|]. cbn [m_Size m_Buffer with_buffer ResizeBuffer].
  assert (Hsz : buf_Size (m_Buffer n) <= c) by (destruct (Z.eqb_spec (buf_Size (m_Buffer n)) 0); lia).
  assert (Hr : buf_Size (buf_Resize (m_Buffer n) c) = c) by (apply buf_Resize_Size; lia).
  split_and!; trivial; try lia; [destruct (Z.eqb_spec (buf_Size (m_Buffer n)) 0); lia|rewrite buf_Write_Size; rewrite ?Hr; trivial; lia|].
  intros i Hi Hcase. rewrite buf_Write_get by (rewrite ?Hr; lia). destruct (decide _); [reflexivity|]. apply buf_Resize_get; lia.
Qed.

(** What is written to an in-memory file is read back, and the rest of the file is as it
    was.  The write terminates for any offset, growing the buffer by doubling. *)
Theorem memory_file_roundtrip n bs offset : 0 <= offset -> offset + Z.of_nat (length bs) <= 2 ^ 62 -> buf_Size (m_Buffer n) < 2 ^ 63 ->
  exists n', Write DivRoundUp 63 n bs offset = Some (n', Z.of_nat (length bs))
    /\ Read n' offset (Z.of_nat (length bs)) = (bs, Z.of_nat (length bs))
    /\ forall off len, 0 <= off -> 0 <= len -> off + len <= buf_Size (m_Buffer n) -> off + len <= offset \/ offset + Z.of_nat (length bs) <= off ->
         Read n' off len = Read n off len.
Proof.
  intros Ho Hw Hs. destruct (Write_spec n bs offset Ho Hw Hs) as (n' & c & Hn' & _ & Hc & Hlo & Hhi & Hget).
  exists n'. split; [exact Hn'|]. unfold Read, u64. pose proof (buf_Size_pos (m_Buffer n)) as Hp.
  split.
  - rewrite Hc, wrap_small by (unfold in_u; lia). rewrite Z.min_l by lia. f_equal. rewrite buf_Read_spec by lia.
    transitivity ((fun i => nth (Z.to_nat i) bs 0) <$> seqZ 0 (Z.of_nat (length bs))); [|apply nth_seqZ].
    apply list_eq. intros k. rewrite !list_lookup_fmap. destruct (Nat.lt_ge_cases k (length bs)).
    + rewrite !lookup_seqZ_lt by lia. cbn [fmap option_fmap option_map]. rewrite Hget by lia. destruct (decide _); [|lia]. do 2 f_equal. lia.
    + rewrite !lookup_seqZ_ge by lia. reflexivity.
  - intros off len H0 H1 H2 Ha. rewrite Hc, !wrap_small by (unfold in_u; lia). rewrite !Z.min_l by lia. f_equal.
    rewrite !buf_Read_spec by lia. apply list_fmap_ext. intros k i Hi%lookup_seqZ. rewrite Hget by lia. destruct (decide _); [lia|reflexivity].
Qed.
End Contents.

(** ** The store of nodes *)
Section Store.
Context {B : Type} {Buf : Buffer B} (DivRoundUp : Z -> Z -> Z).
Implicit Types fs : Fs B.

(** Node [dir] has the entry [name] for node [id]. *)
Definition entry fs (dir : Z) (name : string) (id : Z) : Prop :=
  exists n, nodes fs !! dir = Some n /\ m_Children n !! name = Some id.

(** Every entry refers to a live node, no node has two entries, and the numbers from the
    next one on are unused. *)
Record wf fs : Prop := {
  wf_live dir name id : entry fs dir name id -> is_Some (nodes fs !! id);
  wf_unique dir name dir' name' id : entry fs dir name id -> entry fs dir' name' id -> dir = dir' /\ name = name';
  wf_fresh id : is_Some (nodes fs !! id) -> id < m_NextINodeIndex fs
}.

(** Changes of a node that keep its children. *)
Definition keeps_children (f : Node B -> Node B) : Prop := forall n, m_Children (f n) = m_Children n.

Lemma entry_update fs i f dir name id : keeps_children f -> entry (update i f fs) dir name id <-> entry fs dir name id.
Proof.
  intros Hf. unfold entry, update. cbn [nodes with_nodes]. split; intros (n & Hn & Hc).
  - destruct (decide (i = dir)) as [->|Hne].
    + rewrite lookup_alter_eq in Hn. destruct (nodes fs !! dir) as [m|]; [|discriminate]. injection Hn as <-. exists m. now rewrite <- (Hf m).
    + rewrite lookup_alter_ne in Hn by trivial. eauto.
  - destruct (decide (i = dir)) as [->|Hne].
    + exists (f n). rewrite lookup_alter_eq, Hn, Hf. auto.
    + exists n. rewrite lookup_alter_ne by trivial. auto.
Qed.
Lemma live_update fs i f id : is_Some (nodes (update i f fs) !! id) <-> is_Some (nodes fs !! id).
Proof. unfold update. cbn. apply lookup_alter_is_Some. Qed.

Lemma wf_update fs i f : keeps_children f -> wf fs -> wf (update i f fs).
Proof.
  intros Hf [H1 H2 H3]. split.
  - intros dir name id He%entry_update; trivial. apply live_update. eauto.
  - intros dir name dir' name' id He%entry_update He'%entry_update; trivial. eauto.
  - intros id Hi%live_update. now apply H3.
Qed.

Lemma entry_insert fs dir name id d m i : is_Some (nodes fs !! dir) ->
  entry (InsertChild dir name id fs) d m i <-> (if decide (d = dir /\ m = name) then i = id else entry fs d m i).
Proof.
  intros [n Hn]. unfold entry, InsertChild, update. cbn [nodes with_nodes]. destruct (decide (d = dir)) as [->|Hd].
  - rewrite lookup_alter_eq, Hn. cbn. destruct (decide (m = name)) as [->|Hm].
    + destruct (decide _) as [_|[]]; [|auto]. split.
      * intros (? & [= <-] & Hc). cbn in Hc. rewrite lookup_insert_eq in Hc. congruence.
      * intros ->. eexists. split; [reflexivity|]. cbn. apply lookup_insert_eq.
    + destruct (decide _) as [[]|_]; [easy|]. split.
      * intros (? & [= <-] & Hc). cbn in Hc. rewrite lookup_insert_ne in Hc by congruence. eauto.
      * intros (? & [= <-] & Hc). eexists. split; [reflexivity|]. cbn. now rewrite lookup_insert_ne by congruence.
  - destruct (decide _) as [[]|_]; [easy|]. now rewrite lookup_alter_ne by congruence.
Qed.

(** A fresh node, its entry in a directory. *)
Lemma wf_insert_fresh fs dir name id : wf fs -> is_Some (nodes fs !! dir) -> is_Some (nodes fs !! id) ->
  (forall d m, ~ entry fs d m id) -> (forall i, ~ entry fs dir name i) -> wf (InsertChild dir name id fs).
Proof.
  intros [H1 H2 H3] Hdir Hid Hno Hfree. split.
  - intros d m i He%entry_insert; trivial. apply live_update. destruct (decide _); [now subst|eauto].
  - intros d m d' m' i He%entry_insert He'%entry_insert; trivial.
    destruct (decide _) as [[-> ->]|]; destruct (decide _) as [[-> ->]|]; subst; auto; try (exfalso; eapply Hno; eassumption). now apply (H2 _ _ _ _ i).
  - intros i Hi%live_update. now apply H3.
Qed.

Lemma wf_allocate fs mode uid gid fs' id : wf fs -> AllocateNode fs mode uid gid = (fs', inr id) ->
  wf fs' /\ nodes fs !! id = None /\ is_Some (nodes fs' !! id) /\ (forall d m i, entry fs' d m i <-> entry fs d m i)
  /\ (forall i, is_Some (nodes fs !! i) -> is_Some (nodes fs' !! i)) /\ forall d m, ~ entry fs' d m id.
Proof.
  intros [H1 H2 H3]. unfold AllocateNode. destruct (_ <=? _); [discriminate|]. destruct (_ =? 0); [discriminate|]. intros [= <- <-].
  set (k := m_NextINodeIndex fs). assert (Hk : nodes fs !! k = None).
  { destruct (nodes fs !! k) eqn:E; [|reflexivity]. assert (k < k); [|lia]. apply H3. eauto. }
  assert (He : forall d m i, entry (mkFs (<[k := SynthFsINode mode uid gid]> (nodes fs)) (k + 1) (m_MaxINodeCount fs) (m_FreeINodeCount fs - 1)) d m i
    <-> entry fs d m i).
  { intros d m i. unfold entry. cbn [nodes]. destruct (decide (d = k)) as [->|Hd].
    - rewrite lookup_insert_eq, Hk. split; [intros (? & [= <-] & Hc); discriminate Hc|intros (? & [=] & _)].
    - now rewrite lookup_insert_ne by congruence. }
  assert (Hno : forall d m, ~ entry fs d m k) by (intros d m Hc; apply H1 in Hc; rewrite Hk in Hc; destruct Hc; discriminate).
  split_and!; trivial.
  - split; cbn [nodes m_NextINodeIndex].
    + intros d m i Hc%He. rewrite lookup_insert_is_Some'. right. eauto.
    + intros d m d' m' i Hc%He Hc'%He. eauto.
    + intros i Hi. rewrite lookup_insert_is_Some' in Hi. destruct Hi as [->|Hi]; [lia|]. apply H3 in Hi. lia.
  - cbn [nodes]. rewrite lookup_insert_eq. eauto.
  - intros i Hi. cbn [nodes]. rewrite lookup_insert_is_Some'. auto.
  - intros d m Hc%He. now apply (Hno d m).
Qed.

Lemma wf_create fs dir name mode dev uid gid fs' r : wf fs -> CreateNode fs dir name mode dev uid gid = (fs', r) ->
  wf fs' /\ match r with
            | inr id => nodes fs !! id = None /\ forall d m i, entry fs' d m i <-> if decide (d = dir /\ m = name) then i = id else entry fs d m i
            | inl _ => fs' = fs
            end.
Proof.
  intros Hwf. unfold CreateNode. destruct (nodes fs !! dir) as [parent|] eqn:Hdir; [|intros [= <- <-]; auto].
  destruct (m_Children parent !! name) as [c|] eqn:Hc; [intros [= <- <-]; auto|].
  destruct (AllocateNode fs mode uid gid) as [fs1 [e|id]] eqn:Ha.
  { intros [= <- <-]. unfold AllocateNode in Ha. destruct (_ <=? _); [now injection Ha as <- <-|]. destruct (_ =? 0); [now injection Ha as <- <-|discriminate]. }
  intros [= <- <-]. destruct (wf_allocate _ _ _ _ _ _ Hwf Ha) as (Hwf1 & Hnone & Hlive & He1 & Hkeep & Hno).
  assert (Hk1 : keeps_children (init_child parent mode dev)) by (intros n; unfold init_child; now destruct (S_ISREG mode)).
  assert (Hk2 : keeps_children (fun n : Node B => with_size (m_Size n + DIRECTORY_ENTRY_SIZE) n)) by now intros n.
  set (fs2 := update _ _ (update _ _ fs1)).
  assert (He2 : forall d m i, entry fs2 d m i <-> entry fs d m i) by (intros; unfold fs2; rewrite !entry_update by trivial; apply He1).
  assert (Hl2 : forall i, is_Some (nodes fs1 !! i) -> is_Some (nodes fs2 !! i)) by (intros; unfold fs2; now rewrite !live_update).
  assert (Hd2 : is_Some (nodes fs2 !! dir)) by (apply Hl2, Hkeep; rewrite Hdir; eauto).
  split; [|split; trivial].
  - apply wf_insert_fresh; [unfold fs2; now apply wf_update, wf_update|trivial|now apply Hl2| |].
    + intros d m Hx%He2. apply (Hno d m). now apply He1.
    + intros i (n & Hn & Hx)%He2. congruence.
  - intros d m i. rewrite entry_insert by trivial. destruct (decide _); [reflexivity|apply He2].
Qed.

(** Unlinking the entry of a node. *)
Lemma wf_unlink fs dir name id : wf fs -> entry fs dir name id -> wf (Unlink fs dir name id).
Proof.
  intros Hwf (n & Hn & Hc). unfold Unlink. rewrite Hn. cbn [mbind option_bind]. rewrite Hc.
  set (fs2 := update id _ (update dir _ fs)).
  assert (Hwf2 : wf fs2) by (unfold fs2; apply wf_update; [now intros ?|]; apply wf_update; [now intros ?|exact Hwf]).
  assert (He2 : forall d m i, entry fs2 d m i <-> entry fs d m i).
  { intros. unfold fs2. rewrite entry_update by now intros ?. apply entry_update. now intros ?. }
  destruct (nodes fs2 !! id) as [node|] eqn:Hid; [|exact Hwf2]. destruct (_ =? _); [|exact Hwf2].
  assert (He3 : forall d m i, entry (FreeINode (update dir (fun n => with_children (delete name (m_Children n)) n) fs2) id) d m i ->
    entry fs d m i /\ ~ (d = dir /\ m = name) /\ d <> id).
  { intros d m i (x & Hx & Hm). unfold FreeINode, update in Hx. cbn [nodes with_nodes] in Hx.
    apply lookup_delete_Some in Hx as [Hne Hx]. destruct (decide (d = dir)) as [->|Hd].
    - rewrite lookup_alter_eq in Hx. destruct (nodes fs2 !! dir) as [y|] eqn:Hy; [|discriminate]. injection Hx as <-.
      cbn in Hm. apply lookup_delete_Some in Hm as [Hm1 Hm2]. split_and!; [apply He2; exists y; auto|intros [_ ->]; congruence|congruence].
    - rewrite lookup_alter_ne in Hx by congruence. split_and!; [apply He2; exists x; auto|intros [-> _]; congruence|congruence]. }
  split.
  - intros d m i Hx%He3. destruct Hx as (Hx & Hne & _). unfold FreeINode. cbn [nodes].
    rewrite lookup_delete_is_Some. split; [|apply live_update; apply (wf_live _ Hwf2 d m); now apply He2].
    intros <-. apply Hne. apply (wf_unique _ Hwf d m dir name id Hx). now exists n.
  - intros d m d' m' i Hx%He3 Hx'%He3. apply (wf_unique _ Hwf d m d' m' i); [apply Hx|apply Hx'].
  - intros i Hi. unfold FreeINode in Hi. cbn [nodes] in Hi. rewrite lookup_delete_is_Some in Hi. destruct Hi as [_ Hi].
    apply live_update in Hi. exact (wf_fresh _ Hwf2 i Hi).
Qed.

(** The operations, renaming excepted; an entry is removed with the node it stands for. *)
Inductive step fs : Fs B -> Prop :=
| step_create dir name mode dev uid gid : step fs (CreateNode fs dir name mode dev uid gid).1
| step_mkdir dir name mode uid gid : step fs (CreateDirectory fs dir name mode uid gid).1
| step_symlink dir name target uid gid : step fs (Symlink fs dir name target uid gid).1
| step_link dir id : step fs (Link fs dir id).1
| step_unlink dir name id : entry fs dir name id -> step fs (Unlink fs dir name id)
| step_rmdir dir name id : entry fs dir name id -> step fs (RmDir fs dir name id).1
| step_write id n n' fuel bs off k : nodes fs !! id = Some n -> Write DivRoundUp fuel n bs off = Some (n', k) -> step fs (with_nodes (<[id := n']> (nodes fs)) fs)
| step_truncate id size : step fs (update id (fun n => Truncate DivRoundUp n size) fs).

(** [TmpFs::Mount]: the root is node 2. *)
Definition mount (max : Z) : Fs B := mkFs {[2 := SynthFsINode (0x1a4 .| S_IFDIR) 0 0]} 3 max (max - 1).

Lemma wf_mount max : wf (mount max).
Proof.
  assert (H : forall d m i, ~ entry (mount max) d m i).
  { intros d m i (n & Hn & Hc). unfold mount in Hn. cbn [nodes] in Hn. apply lookup_singleton_Some in Hn as [_ <-]. discriminate Hc. }
  split; [intros d m i He; now destruct (H d m i)|intros d m d' m' i He; now destruct (H d m i)|].
  intros i [n Hn]. unfold mount in Hn. cbn [nodes] in Hn. apply lookup_singleton_Some in Hn as [<- _]. cbn. lia.
Qed.

Lemma Write_children n n' fuel bs off k : Write DivRoundUp fuel n bs off = Some (n', k) -> m_Children n' = m_Children n.
Proof. unfold Write. destruct (grow _ _ _) as [c|]; cbn; [|discriminate]. intros [= <- _]. reflexivity. Qed.

Lemma wf_step fs fs' : wf fs -> step fs fs' -> wf fs'.
Proof.
  intros Hwf Hs.
  assert (Hcreate : forall dir name mode dev uid gid, wf (CreateNode fs dir name mode dev uid gid).1).
  { intros. destruct (CreateNode fs dir name mode dev uid gid) as [fs1 r] eqn:E. now apply wf_create in E as [H _]. }
  destruct Hs.
  - apply Hcreate.
  - unfold CreateDirectory. specialize (Hcreate dir name (Z.ldiff mode S_IFMT .| S_IFDIR) 0 uid gid).
    destruct (CreateNode _ _ _ _ _ _ _) as [fs1 [e|id]]; [exact Hcreate|]. now apply wf_update.
  - unfold Symlink. specialize (Hcreate dir name (0x1ff .| S_IFLNK) 0 uid gid).
    destruct (CreateNode _ _ _ _ _ _ _) as [fs1 [e|id]]; [exact Hcreate|]. now apply wf_update.
  - unfold Link. destruct (nodes fs !! id) as [n|]; [|exact Hwf]. destruct (IsDirectory n); [exact Hwf|]. now apply wf_update, wf_update.
  - now apply wf_unlink.
  - unfold RmDir. destruct (nodes fs !! id) as [n|]; [|exact Hwf]. destruct (bool_decide _); [|exact Hwf].
    apply wf_unlink; [now apply wf_update|]. now apply entry_update.
  - replace (with_nodes (<[id := n']> (nodes fs)) fs) with (update id (fun m => with_children (m_Children m) n') fs).
    2:{ unfold update. f_equal. apply map_eq. intros j. destruct (decide (j = id)) as [->|Hj].
        - rewrite lookup_alter_eq, lookup_insert_eq, H. cbn. f_equal. rewrite <- (Write_children _ _ _ _ _ _ H0). now destruct n'.
        - now rewrite lookup_alter_ne, lookup_insert_ne by congruence. }
    now apply wf_update.
  - apply wf_update; trivial. intros n. unfold Truncate. now destruct (_ =? _).
Qed.

(** C22: the store of an in-memory file system stays well formed.  Whatever nodes are created,
    linked, written, truncated, unlinked and removed after the mount, every directory entry
    refers to a live node and no node has two entries: no operation leaves a dangling
    pointer behind. *)
Theorem store_well_formed max fs : rtc step (mount max) fs -> wf fs.
Proof.
  intros H. pose proof (wf_mount max) as Hwf. induction H as [fs|fs fs1 fs2 Hs _ IH]; [exact Hwf|]. apply IH. now apply (wf_step fs).
Qed.

(** Renaming breaks it.  A renamed file keeps its old entry; unlinking the old name frees
    the node, and the new name refers to a freed node. *)
Theorem rename_then_unlink_dangles fs d1 n1 d2 n2 id node : entry fs d1 n1 id -> is_Some (nodes fs !! d2) -> d1 <> id -> d2 <> id ->
  (d1, n1) <> (d2, n2) -> nodes fs !! id = Some node -> IsDirectory node = false -> m_LinkCount node = 1 ->
  let fs' := Unlink (Rename fs id d2 n2) d1 n1 id in entry fs' d2 n2 id /\ nodes fs' !! id = None.
Proof.
  intros He [p2 Hd2] H1 H2 Hne Hid Hdir Hl. cbv zeta. unfold Rename.
  assert (He' : forall i, entry (InsertChild d2 n2 id fs) d1 n1 i <-> entry fs d1 n1 i).
  { intros i. rewrite entry_insert by (rewrite Hd2; eauto). destruct (decide _) as [[-> ->]|]; [easy|reflexivity]. }
  assert (Hn2 : entry (InsertChild d2 n2 id fs) d2 n2 id) by (apply entry_insert; [rewrite Hd2; eauto|]; now rewrite decide_True).
  assert (Hid' : nodes (InsertChild d2 n2 id fs) !! id = Some node) by (unfold InsertChild, update; cbn; now rewrite lookup_alter_ne by congruence).
  set (fs1 := InsertChild d2 n2 id fs) in *. apply He' in He. destruct He as (x & Hx & Hcx). unfold Unlink. rewrite Hx. cbn [mbind option_bind]. rewrite Hcx.
  set (fs2 := update id _ (update d1 _ fs1)).
  assert (Hid2 : nodes fs2 !! id = Some (with_links 0 node)).
  { unfold fs2, update. cbn [nodes with_nodes]. rewrite lookup_alter_eq, lookup_alter_ne, Hid' by congruence. cbn. now rewrite Hl. }
  assert (He2 : entry fs2 d2 n2 id) by (unfold fs2; rewrite entry_update by (now intros ?); now apply entry_update).
  rewrite Hid2. cbn [m_LinkCount with_links]. change (IsDirectory (with_links 0 node)) with (IsDirectory node). rewrite Hdir. cbn [Z.eqb].
  split; [|unfold FreeINode; cbn [nodes]; apply lookup_delete_eq].
  destruct He2 as (y & Hy & Hcy). unfold entry, FreeINode, update. cbn [nodes with_nodes]. rewrite lookup_delete_ne by congruence.
  destruct (decide (d1 = d2)) as [->|Hd].
  - rewrite lookup_alter_eq, Hy. cbn. eexists. split; [reflexivity|]. cbn. rewrite lookup_delete_ne; [exact Hcy|congruence].
  - rewrite lookup_alter_ne by congruence. eauto.
Qed.
End Store.

(** ** A concrete file system *)
Definition small_fs : Fs (list Z) := (CreateFile (mount 10) 2 "a" 0x1a4 0 0).1.

Lemma small_entry : entry small_fs 2 "a" 3.
Proof. eexists. split; vm_compute; reflexivity. Qed.

Lemma memory_file_roundtrip_witness :
  exists n', Write (fun x d => (x + d - 1) / d) 63 (SynthFsINode (B := list Z) 0x81a4 0 0) [1; 2; 3] 5000 = Some (n', 3)
    /\ Read n' 5000 3 = ([1; 2; 3], 3) /\ m_Size n' = 8192.
Proof.
  destruct (memory_file_roundtrip (fun x d => (x + d - 1) / d) (SynthFsINode (B := list Z) 0x81a4 0 0) [1; 2; 3] 5000) as (n' & Hw & Hr & _);
    [lia|cbn; lia|cbn; lia|].
  exists n'. split; [exact Hw|]. split; [exact Hr|].
  apply (f_equal (fun r => match r with Some (m, _) => m_Size m | None => 0 end)) in Hw. symmetry in Hw. cbn [m_Size] in Hw.
  etransitivity; [exact Hw|]. vm_compute. reflexivity.
Defined.

Lemma store_well_formed_witness : wf small_fs.
Proof.
  apply (store_well_formed (fun x d => (x + d - 1) / d) 10). apply rtc_once. apply step_create.
Defined.

Lemma rename_then_unlink_dangles_witness :
  let fs' := Unlink (Rename small_fs 3 2 "b") 2 "a" 3 in entry fs' 2 "b" 3 /\ nodes fs' !! 3 = None.
Proof.
  apply (rename_then_unlink_dangles small_fs 2 "a" 2 "b" 3 (init_child (SynthFsINode 0x41a4 0 0) 0x81a4 0 (SynthFsINode 0x81a4 0 0)) small_entry);
    [eexists; vm_compute; reflexivity|discriminate|discriminate|congruence|vm_compute; reflexivity|reflexivity|reflexivity].
Defined.
