(* ===== verification/FileDescriptors.v ===== *)
(** * File descriptors and pipes

    [VFS/FileDescriptorTable.cpp], [VFS/FileDescriptor.cpp], [VFS/File.cpp], [VFS/Fifo.cpp] and
    the descriptor operations of [Scheduler/Process.cpp].  The inode behind a descriptor is
    an interface, which the nodes of the in-memory file systems implement. *)

From Stdlib Require Import ZArith Lia Bool.
From stdpp Require Import base gmap list numbers strings.
From S2P Require Import Prelude Prism Posix Disk Event.

Module Descriptors.

(** ** The table of a process *)
Section Table.
Context {R : Type}.
Record FileDescriptorTable := mkTable { m_Table : gmap Z R; m_NextIndex : Z }.

Definition Insert (t : FileDescriptorTable) (fd : R) (desired : Z) : FileDescriptorTable * Z :=
  let fdNum := if (0 <=? desired) && negb (bool_decide (is_Some (m_Table t !! desired))) then desired else m_NextIndex t in
  (mkTable (<[fdNum := fd]> (m_Table t)) (i32 (m_NextIndex t + 1)), fdNum).
Definition IsValid (t : FileDescriptorTable) (fd : Z) : bool := bool_decide (is_Some (m_Table t !! fd)).
Definition GetFd (t : FileDescriptorTable) (fd : Z) : option R := m_Table t !! fd.
(** [None]: [EBADF]. *)
Definition Erase (t : FileDescriptorTable) (fdNum : Z) : option FileDescriptorTable :=
  match GetFd t fdNum with
  | None => None
  | Some _ => Some (mkTable (delete fdNum (m_Table t)) (m_NextIndex t))
  end.
Definition OpenStdioStreams (t : FileDescriptorTable) (tty_read tty_write : R) : FileDescriptorTable :=
  let t := (Insert t tty_read 0).1 in
  let t := (Insert t tty_write 1).1 in
  (Insert t tty_write 2).1.
Definition Clear (t : FileDescriptorTable) : FileDescriptorTable := mkTable ∅ 3.

(** [while (newFdNum < 0 || m_FdTable.IsValid(newFdNum)) ++newFdNum;] *)
Fixpoint free_number (fuel : nat) (t : FileDescriptorTable) (fd : Z) : option Z :=
  if (fd <? 0) || IsValid t fd then match fuel with O => None | S fuel => free_number fuel t (fd + 1) end
  else Some fd.
Definition DupFd (fuel : nat) (t : FileDescriptorTable) (oldFdNum newFdNum : Z) : option (FileDescriptorTable * (Z + Z)) :=
  if oldFdNum =? newFdNum then Some (t, inl EINVAL)
  else
    match GetFd t oldFdNum with
    | None => Some (t, inl EBADF)
    | Some oldFd =>
        newFdNum ← free_number fuel t newFdNum;
        let t := if IsValid t newFdNum then default t (Erase t newFdNum) else t in
        let '(t, n) := Insert t oldFd newFdNum in
        Some (t, if n <? 0 then inl EBADF else inr n)
    end.
Definition CloseFd (t : FileDescriptorTable) (fd : Z) : FileDescriptorTable * Z :=
  match Erase t fd with None => (t, -1) | Some t => (t, 0) end.
End Table.
Arguments FileDescriptorTable : clear implicits.

(** ** Descriptors *)
(** What a descriptor uses of an inode: the value returned and the bytes copied.  A write
    that does not return is [None]. *)
Class INodeOps (N : Type) := {
  inode_IsDirectory : N -> bool;
  inode_Size : N -> Z;
  inode_Read : N -> Z -> Z -> Z * list Z;
  inode_Write : N -> Z -> list Z -> option (N * Z);
  inode_Truncate : N -> Z -> N * (Z + Z)
}.

(** What the file systems promise: a file is a string of bytes, read and written at offsets
    inside it. *)
Class INodeLaws (N : Type) {Ops : INodeOps N} := {
  inode_file : N -> Prop;
  inode_contents : N -> list Z;
  inode_file_spec n : inode_file n -> inode_IsDirectory n = false;
  inode_length_spec n : inode_file n -> Z.of_nat (length (inode_contents n)) < 2 ^ 62;
  inode_Read_spec n off count : inode_file n -> 0 <= off <= Z.of_nat (length (inode_contents n)) -> 0 <= count ->
    let bytes := Z.min count (Z.of_nat (length (inode_contents n)) - off) in
    inode_Read n off count = (bytes, slice (Z.to_nat off) (Z.to_nat bytes) (inode_contents n));
  inode_Write_spec n off bs : inode_file n -> 0 <= off -> off + Z.of_nat (length bs) < 2 ^ 61 ->
    exists n', inode_Write n off bs = Some (n', Z.of_nat (length bs)) /\ inode_file n' /\
    off + Z.of_nat (length bs) <= Z.of_nat (length (inode_contents n')) /\
    slice (Z.to_nat off) (length bs) (inode_contents n') = bs
}.

Definition eRead : Z := 1.
Definition eWrite : Z := 2.
Definition SEEK_SET : Z := 0.
Definition SEEK_CUR : Z := 1.
Definition SEEK_END : Z := 2.
Definition EOVERFLOW : Z := 75.
Definition off_max : Z := 2 ^ 63 - 1.

Section Descriptor.
Context {N : Type} {Ops : INodeOps N}.

Record FileDescriptor := mkFd { m_File : option N; m_AccessMode : Z; m_Offset : Z; m_Flags : Z }.
Definition with_offset (o : Z) (d : FileDescriptor) : FileDescriptor := mkFd (m_File d) (m_AccessMode d) o (m_Flags d).
Definition with_file (f : option N) (d : FileDescriptor) : FileDescriptor := mkFd f (m_AccessMode d) (m_Offset d) (m_Flags d).
Definition CanRead (d : FileDescriptor) : bool := truthy (m_AccessMode d .& eRead).
Definition CanWrite (d : FileDescriptor) : bool := truthy (m_AccessMode d .& eWrite).

(** [File]: its type predicates are virtual functions that return false. *)
Definition File_IsDirectory (n : N) : bool := false.
Definition File_IsRegular (n : N) : bool := false.
Definition File_IsSocket (n : N) : bool := false.
Definition File_IsFifo (n : N) : bool := false.
Definition File_Size (n : N) : Z := inode_Size n.
Definition File_Read (n : N) (count offset : Z) : Z + (Z * list Z) :=
  if inode_IsDirectory n then inl EISDIR else inr (inode_Read n offset count).
Definition File_Write (n : N) (bs : list Z) (offset : Z) : option (Z + (N * Z)) :=
  if inode_IsDirectory n then Some (inl EISDIR) else inr <$> inode_Write n offset bs.

(** The descriptor, the value returned (or an error), and the bytes that reach the buffer. *)
Definition Read (d : FileDescriptor) (count offset : Z) : FileDescriptor * (Z + Z) * list Z :=
  if negb (CanRead d) then (d, inl EBADF, [])
  else
    match m_File d with
    | None => (d, inl ENOENT, [])
    | Some n =>
        if File_IsDirectory n then (d, inl EISDIR, [])
        else
          let offset := if offset <? 0 then i64 (m_Offset d) else offset in
          let '(bytesRead, bs) := match File_Read n count offset with inr r => r | inl _ => (0, []) end in
          (with_offset (u64 (offset + bytesRead)) d, inr bytesRead, bs)
    end.
Definition Write (d : FileDescriptor) (bs : list Z) (offset : Z) : option (FileDescriptor * (Z + Z)) :=
  if negb (CanWrite d) then Some (d, inl EBADF)
  else
    match m_File d with
    | None => Some (d, inl ENOENT)
    | Some n =>
        let offset := if offset <? 0 then i64 (m_Offset d) else offset in
        r ← File_Write n bs offset;
        let '(n, bytesWritten) := match r with inr r => r | inl _ => (n, 0) end in
        Some (with_offset (u64 (offset + bytesWritten)) (with_file (Some n) d), inr bytesWritten)
    end.

(** [None]: a virtual call through a null [m_File].  [IsPipe] is false. *)
Definition Seek (d : FileDescriptor) (whence offset : Z) : option (FileDescriptor * (Z + Z)) :=
  n ← m_File d;
  Some (if File_IsSocket n || File_IsFifo n then (d, inl ESPIPE)
        else if whence =? SEEK_SET then
          if offset <? 0 then (d, inl EINVAL) else (with_offset offset d, inr offset)
        else if whence =? SEEK_CUR then
          let newOffset := i64 (m_Offset d + offset) in
          if off_max <=? newOffset then (d, inl EOVERFLOW)
          else if newOffset <? 0 then (d, inl EINVAL)
          else (with_offset (u64 (m_Offset d + offset)) d, inr (i64 (m_Offset d + offset)))
        else if whence =? SEEK_END then
          if off_max <? u64 (m_Offset d + File_Size n) then (d, inl EOVERFLOW)
          else (with_offset (u64 (File_Size n + offset)) d, inr (i64 (File_Size n + offset)))
        else (d, inl EINVAL)).
Definition Truncate (d : FileDescriptor) (size : Z) : option (FileDescriptor * (Z + Z)) :=
  n ← m_File d;
  if File_IsDirectory n then Some (d, inl EISDIR)
  else if negb (CanWrite d) || negb (File_IsRegular n) then Some (d, inl EBADF)
  else let '(n, r) := inode_Truncate n size in Some (with_file (Some n) d, r).
End Descriptor.
Arguments FileDescriptor : clear implicits.

(** ** Directory listings *)
Definition sizeof_dirent : Z := 1048.
Definition DIRENT_LENGTH : Z := sizeof_dirent - 1024.
Definition alignof_dirent : Z := 8.
Definition IF2DT (mode : Z) : Z := (mode .& S_IFMT) .>> 12.
Record dirent := mkDirent { d_ino : Z; d_off : Z; d_reclen : Z; d_type : Z; d_name : string }.

Section Listing.
Context {PM : PrismMath}.

Record DirectoryEntries := mkEntries { Entries : list dirent; ShouldRegenerate : bool }.
Definition Push (name : string) (ino type : Z) (es : DirectoryEntries) : DirectoryEntries :=
  let reclen := AlignUp (DIRENT_LENGTH + Z.of_nat (String.length name) + 1) alignof_dirent in
  mkEntries (Entries es ++ [mkDirent ino reclen (u16 reclen) type name]) (ShouldRegenerate es).
(** The record copied, if any. *)
Definition CopyAndPop (es : DirectoryEntries) (capacity : Z) : DirectoryEntries * option dirent :=
  match Entries es with
  | [] => (es, None)
  | e :: rest => if capacity <? d_reclen e then (es, None) else (mkEntries rest (ShouldRegenerate es), Some e)
  end.

(** The directory: the inode number and mode of itself and of its parent, and its children in
    the order of the hash table; a child without an inode is a negative entry.  The iterator is
    a position in that order. *)
Record Directory := mkDir { dir_self : Z * Z; dir_parent : Z * Z; dir_children : list (string * option (Z * Z)) }.
Record Listing := mkListing { l_entries : DirectoryEntries; l_iterator : nat; l_offset : Z }.

Fixpoint generate_loop (fuel : nat) (dir : Directory) (l : Listing) : option Listing :=
  match fuel with
  | O => None
  | S fuel =>
      match dir_children dir !! l_iterator l with
      | None => Some l
      | Some (_, None) => generate_loop fuel dir (mkListing (l_entries l) (l_iterator l) (u64 (l_offset l + 1)))
      | Some (name, Some inode) =>
          let '(name, inode, it) :=
            if l_offset l =? 0 then ("."%string, dir_self dir, l_iterator l)
            else if l_offset l =? 1 then (".."%string, dir_parent dir, l_iterator l)
            else (name, inode, S (l_iterator l)) in
          generate_loop fuel dir
            (mkListing (Push name inode.1 (IF2DT inode.2) (l_entries l)) it (u64 (l_offset l + 1)))
      end
  end.
Definition GenerateDirEntries (fuel : nat) (dir : Directory) (l : Listing) : option Listing :=
  let es := mkEntries [] (ShouldRegenerate (l_entries l)) in
  generate_loop fuel dir
    (if (l_iterator l =? length (dir_children dir))%nat then mkListing es 0 0 else mkListing es (l_iterator l) (l_offset l)).

(** [while (offset < length)]: the entries left, [bytes] and the records copied; each pass
    removes an entry, so that the entries bound the passes. *)
Fixpoint copy_loop (fuel : nat) (es : DirectoryEntries) (length bytes offset : Z) (out : list dirent) : DirectoryEntries * Z * list dirent :=
  match fuel with
  | O => (es, bytes, out)
  | S fuel =>
      if offset <? length then
        match CopyAndPop es (length - offset) with
        | (es, None) => (es, offset, out)
        | (es, Some e) => copy_loop fuel es length offset (offset + d_reclen e) (out ++ [e])
        end
      else (es, bytes, out)
  end.
Definition records_size (es : list dirent) : Z := foldr (fun e n => d_reclen e + n) 0 es.

(** The new state, the value returned and the records written to the user's buffer. *)
Definition GetDirEntries (fuel : nat) (dir : Directory) (l : Listing) (maxSize : Z) : option (Listing * (Z + Z) * list dirent) :=
  l ← (if bool_decide (Entries (l_entries l) = []) then GenerateDirEntries fuel dir l else Some l);
  match Entries (l_entries l) with
  | [] => Some (l, inr 0, [])
  | front :: _ =>
      let length := u64 (Z.min maxSize (records_size (Entries (l_entries l))) - sizeof_dirent) in
      if maxSize <? d_reclen front then Some (l, inl EINVAL, [])
      else
        let end_ := ShouldRegenerate (l_entries l) in
        let '(es, bytes, out) :=
          copy_loop (S (List.length (Entries (l_entries l)))) (mkEntries (Entries (l_entries l)) false) length 0 0 [] in
        let es := if bool_decide (Entries es = []) then mkEntries [] true else es in
        Some (mkListing es (l_iterator l) (l_offset l), inr (if end_ then 0 else bytes), out)
  end.
End Listing.

(** ** Pipes *)
(** [Prism/Containers/RingBuffer.hpp]: a bounded queue of bytes. *)
Class RingBuffer (Q : Type) := {
  rb_contents : Q -> list Z;
  rb_Capacity : Q -> Z;
  rb_Reserve : Z -> Q;
  rb_Read : Q -> Z -> Q * list Z;
  rb_Write : Q -> list Z -> Q * Z;
  rb_Reserve_spec n : 0 <= n -> rb_contents (rb_Reserve n) = [] /\ rb_Capacity (rb_Reserve n) = n;
  rb_Read_spec q n : 0 <= n <= Z.of_nat (length (rb_contents q)) ->
    (rb_Read q n).2 = take (Z.to_nat n) (rb_contents q) /\
    rb_contents (rb_Read q n).1 = drop (Z.to_nat n) (rb_contents q) /\ rb_Capacity (rb_Read q n).1 = rb_Capacity q;
  rb_Write_spec q bs : Z.of_nat (length (rb_contents q)) + Z.of_nat (length bs) <= rb_Capacity q ->
    (rb_Write q bs).2 = Z.of_nat (length bs) /\
    rb_contents (rb_Write q bs).1 = rb_contents q ++ bs /\ rb_Capacity (rb_Write q bs).1 = rb_Capacity q
}.

#[export] Program Instance ring_ref : RingBuffer (Z * list Z) := {|
  rb_contents := snd;
  rb_Capacity := fst;
  rb_Reserve n := (n, []);
  rb_Read q n := ((q.1, drop (Z.to_nat n) q.2), take (Z.to_nat n) q.2);
  rb_Write q bs := ((q.1, q.2 ++ bs), Z.of_nat (length bs))
|}.
Solve All Obligations with naive_solver.

Section Fifo.
Context {Q : Type} {RB : RingBuffer Q}.

Definition FIFO_SIZE : Z := 16 * 4096.
Record Fifo := mkFifo { m_ReaderCount : Z; m_WriterCount : Z; m_Event : Event; m_Buffer : Q; m_NonBlocking : bool }.
Definition Used (f : Fifo) : Z := Z.of_nat (length (rb_contents (m_Buffer f))).
Definition Capacity (f : Fifo) : Z := rb_Capacity (m_Buffer f).
Definition with_event (e : Event) (f : Fifo) : Fifo := mkFifo (m_ReaderCount f) (m_WriterCount f) e (m_Buffer f) (m_NonBlocking f).
Definition with_queue (q : Q) (f : Fifo) : Fifo := mkFifo (m_ReaderCount f) (m_WriterCount f) (m_Event f) q (m_NonBlocking f).
Definition new_Fifo : Fifo := mkFifo 0 0 (mkEvent 0 []) (rb_Reserve FIFO_SIZE) false.

(** The counters and the trigger of [Open]; the descriptor it constructs has no directory entry. *)
Definition Open_count (read : bool) (f : Fifo) : Fifo :=
  with_event (Trigger (m_Event f) false true).1.1
    (mkFifo (m_ReaderCount f + (if read then 1 else 0)) (m_WriterCount f + (if read then 0 else 1)) (m_Event f) (m_Buffer f) (m_NonBlocking f)).

(** A call returns a value with the bytes it moved and the threads it unblocks, or blocks its
    thread; an unblocked thread calls again. *)
Inductive PipeResult :=
  | Done (value : Z) (bytes : list Z) (woken : list EventListener)
  | Waits.

(** A pending trigger lets [Await] return at once: the loop runs at most once more than there
    are pending triggers. *)
Fixpoint Fifo_Read_loop (fuel : nat) (thread : nat) (f : Fifo) (count : Z) : Fifo * PipeResult :=
  if Used f =? 0 then
    if (m_WriterCount f =? 0) || m_NonBlocking f then (f, Done 0 [] [])
    else
      match await_one (m_Event f) thread true true with
      | (e, Blocked _) => (with_event e f, Waits)
      | (e, Returned _ _) => match fuel with O => (with_event e f, Waits) | S fuel => Fifo_Read_loop fuel thread (with_event e f) count end
      end
  else
    let count := Z.min count (Used f) in
    let '(q, bs) := rb_Read (m_Buffer f) count in
    let '(e, woken, _) := Trigger (m_Event f) false true in
    (with_event e (with_queue q f), Done (Z.of_nat (length bs)) bs woken).
Definition Fifo_Read (thread : nat) (f : Fifo) (count : Z) : Fifo * PipeResult :=
  Fifo_Read_loop (S (Z.to_nat (Pending (m_Event f)))) thread f count.

Fixpoint Fifo_Write_loop (fuel : nat) (thread : nat) (f : Fifo) (bs : list Z) : Fifo * PipeResult :=
  if Used f =? Capacity f then
    match await_one (m_Event f) thread true true with
    | (e, Blocked _) => (with_event e f, Waits)
    | (e, Returned _ _) => match fuel with O => (with_event e f, Waits) | S fuel => Fifo_Write_loop fuel thread (with_event e f) bs end
    end
  else
    let count := if Capacity f <? Used f + Z.of_nat (length bs) then Capacity f - Used f else Z.of_nat (length bs) in
    let '(q, n) := rb_Write (m_Buffer f) (take (Z.to_nat count) bs) in
    let '(e, woken, _) := Trigger (m_Event f) false true in
    (with_event e (with_queue q f), Done n (take (Z.to_nat count) bs) woken).
Definition Fifo_Write (thread : nat) (f : Fifo) (bs : list Z) : Fifo * PipeResult :=
  if m_ReaderCount f =? 0 then (f, Done (-1) [] [])
  else Fifo_Write_loop (S (Z.to_nat (Pending (m_Event f)))) thread f bs.
End Fifo.
Arguments Fifo : clear implicits.
End Descriptors.
