(* ===== verification/FileDescriptorTheorems.v ===== *)
(** * File descriptors and pipes: theorems

    Open numbers stay valid, sequences of reads and writes over any file system that keeps
    the promises of [INodeLaws], directory listings, and the stream of a pipe. *)

From Stdlib Require Import ZArith Lia Bool.
From stdpp Require Import base gmap list numbers strings.
From S2P Require Import Prelude Prism Posix Disk Event SynthFs SynthFsTheorems FileDescriptors.

Import Descriptors.

(** ** The table *)
Section Table.
Context {R : Type}.
Implicit Types t : FileDescriptorTable R.

Inductive TableOp := Open (fd : R) | Close (fd : Z).
Definition table_step t (op : TableOp) : FileDescriptorTable R :=
  match op with Open r => (Insert t r (-1)).1 | Close n => (CloseFd t n).1 end.
Definition table_run (ops : list TableOp) t : FileDescriptorTable R := foldl table_step t ops.

(** Every number in use is below the next one. *)
Definition below_next t : Prop := forall n, is_Some (m_Table t !! n) -> 0 <= n < m_NextIndex t.

Lemma Insert_next t r : 0 <= m_NextIndex t < 2 ^ 31 - 1 -> 
  Insert t r (-1) = (mkTable (<[m_NextIndex t := r]> (m_Table t)) (m_NextIndex t + 1), m_NextIndex t).
Proof.
  intros H. unfold Insert. cbn. do 2 f_equal. unfold i32, swrap. change (2 ^ 32) with 4294967296. change (2 ^ (32 - 1)) with 2147483648.
  rewrite Z.mod_small by lia. destruct (Z.ltb_spec (m_NextIndex t + 1) 2147483648); lia.
Qed.

Lemma table_step_below t op : 0 <= m_NextIndex t < 2 ^ 31 - 1 -> below_next t ->
  below_next (table_step t op) /\ m_NextIndex t <= m_NextIndex (table_step t op) <= m_NextIndex t + 1.
Proof.
  intros Hn Hb. destruct op as [r|n]; cbn [table_step].
  - rewrite Insert_next by trivial. cbn. split; [|lia]. intros m. cbn. rewrite lookup_insert_is_Some. intros [<-|[_ Hm%Hb]]; lia.
  - unfold CloseFd, Erase, GetFd. destruct (m_Table t !! n); cbn; [|split; [trivial|lia]]. split; [|lia].
    intros m. cbn. rewrite lookup_delete_is_Some. intros [_ Hm%Hb]. lia.
Qed.

Lemma table_step_keeps t op n r : 0 <= m_NextIndex t < 2 ^ 31 - 1 -> below_next t -> m_Table t !! n = Some r -> op <> Close n ->
  m_Table (table_step t op) !! n = Some r.
Proof.
  intros Ht Hb Hn Hop. pose proof (Hb n (mk_is_Some _ _ Hn)). destruct op as [r'|m]; cbn [table_step].
  - rewrite Insert_next by trivial. cbn. now rewrite lookup_insert_ne by lia.
  - unfold CloseFd, Erase, GetFd. destruct (m_Table t !! m); cbn; trivial. rewrite lookup_delete_ne by congruence. exact Hn.
Qed.

Lemma table_run_keeps ops : forall t n r, 0 <= m_NextIndex t -> m_NextIndex t + Z.of_nat (length ops) < 2 ^ 31 -> below_next t ->
  m_Table t !! n = Some r -> ~ In (Close n) ops -> m_Table (table_run ops t) !! n = Some r.
Proof.
  induction ops as [|op ops IH]; intros t n r H0 H1 Hb Hn Hin; cbn [table_run foldl]; trivial. cbn [length In] in *.
  destruct (table_step_below t op) as [Hb' Hx]; [lia|trivial|]. apply IH; trivial; [lia|lia| |tauto]. apply table_step_keeps; trivial; [lia|]. intros ->. tauto.
Qed.

(** C35: a number returned by an open refers to the file it was opened with until it is closed,
    whatever else is opened and closed in between, and no open file had that number before. *)
Theorem opened_until_closed t r ops : 0 <= m_NextIndex t -> m_NextIndex t + Z.of_nat (length ops) < 2 ^ 31 - 1 -> below_next t ->
  let '(t', n) := Insert t r (-1) in
  GetFd t n = None /\ (~ In (Close n) ops -> GetFd (table_run ops t') n = Some r).
Proof.
  intros H0 H1 Hb. rewrite Insert_next by lia. split.
  - unfold GetFd. destruct (m_Table t !! m_NextIndex t) eqn:E; trivial. specialize (Hb (m_NextIndex t) (mk_is_Some _ _ E)). lia.
  - intros Hin. apply table_run_keeps; cbn [m_NextIndex m_Table]; trivial; try lia; [|apply lookup_insert_eq].
    intros m. cbn. rewrite lookup_insert_is_Some. intros [<-|[_ Hm%Hb]]; lia.
Qed.

(** Duplicating a descriptor onto the number after the next one makes the following open
    return that same number and drop the duplicate. *)
Theorem dup_then_open_overwrites t old r new fuel : 0 <= m_NextIndex t < 2 ^ 31 - 2 -> GetFd t old = Some r ->
  GetFd t (m_NextIndex t + 1) = None ->
  old <> m_NextIndex t + 1 ->
  exists t', DupFd fuel t old (m_NextIndex t + 1) = Some (t', inr (m_NextIndex t + 1)) /\
  GetFd t' (m_NextIndex t + 1) = Some r /\
  (Insert t' new (-1)).2 = m_NextIndex t + 1 /\ GetFd (Insert t' new (-1)).1 (m_NextIndex t + 1) = Some new.
Proof.
  intros H0 Ho Hf Hne. unfold DupFd. destruct (Z.eqb_spec old (m_NextIndex t + 1)) as [->|_]; [easy|]. rewrite Ho.
  assert (Hv : IsValid t (m_NextIndex t + 1) = false).
  { unfold IsValid. apply bool_decide_eq_false_2. unfold GetFd in Hf. rewrite Hf. now intros [? [=]]. }
  assert (Hfree : free_number fuel t (m_NextIndex t + 1) = Some (m_NextIndex t + 1)).
  { destruct fuel; cbn [free_number]; rewrite Hv; destruct (Z.ltb_spec (m_NextIndex t + 1) 0); try lia; reflexivity. }
  rewrite Hfree. cbn [mbind option_bind]. rewrite Hv.
  set (t' := mkTable (<[m_NextIndex t + 1 := r]> (m_Table t)) (m_NextIndex t + 1)).
  assert (Hi : Insert t r (m_NextIndex t + 1) = (t', m_NextIndex t + 1)).
  { unfold IsValid in Hv. unfold Insert. rewrite Hv. destruct (Z.leb_spec 0 (m_NextIndex t + 1)); [|lia]. cbn [andb negb]. unfold t'. do 2 f_equal.
    pose proof (f_equal (fun p => m_NextIndex p.1) (Insert_next t r ltac:(lia))) as E. exact E. }
  rewrite Hi. exists t'. destruct (Z.ltb_spec (m_NextIndex t + 1) 0); [lia|]. split_and!; trivial.
  - apply lookup_insert_eq.
  - rewrite Insert_next by (cbn; lia). cbn. apply lookup_insert_eq.
Qed.
End Table.
Arguments TableOp : clear implicits.

Example ex_table : FileDescriptorTable nat := OpenStdioStreams (Clear (mkTable ∅ 0)) 0%nat 1%nat.
Lemma ex_table_below : below_next ex_table.
Proof.
  intros n [x Hx]. assert (H : n ∈ dom (m_Table ex_table)) by (apply elem_of_dom; eauto). change (m_NextIndex ex_table) with 6.
  assert (Hd : dom (m_Table ex_table) ⊆ ({[0; 1; 2]} : gset Z)) by (unfold ex_table, OpenStdioStreams, Insert, Clear; cbn; set_solver).
  apply Hd in H. rewrite !elem_of_union, !elem_of_singleton in H. lia.
Qed.
(** The table of a new process: the streams 0 to 2; the next number is 6. *)
Lemma opened_until_closed_witness : GetFd (table_run [Open 8%nat; Close 7; Close 0] (Insert ex_table 7%nat (-1)).1) 6 = Some 7%nat.
Proof.
  pose proof (opened_until_closed ex_table 7%nat [Open 8%nat; Close 7; Close 0] ltac:(by_computation) ltac:(by_computation) ex_table_below) as H.
  cbn zeta in H. destruct (Insert ex_table 7%nat (-1)) as [t n] eqn:E. assert (n = 6) as -> by (vm_compute in E; now injection E).
  apply H. cbn. intuition congruence.
Defined.
Lemma dup_then_open_overwrites_witness : exists t', DupFd 1 ex_table 1 7 = Some (t', inr 7) /\ GetFd (Insert t' 9%nat (-1)).1 7 = Some 9%nat.
Proof.
  destruct (dup_then_open_overwrites ex_table 1 1%nat 9%nat 1) as (t' & H1 & _ & _ & H2); [by_computation|by_computation|by_computation|by_computation|].
  exists t'. split; [exact H1|exact H2].
Defined.

(** ** Reads and writes *)
Section Descriptor.
Context {N : Type} {Ops : INodeOps N} {Laws : INodeLaws N}.
Implicit Types (d : FileDescriptor N) (n : N).


(** A descriptor open on a file, its position inside the file. *)
Record on_file d n : Prop := {
  on_File : m_File d = Some n; on_file_file : inode_file n;
  on_offset : 0 <= m_Offset d <= Z.of_nat (length (inode_contents n))
}.

Lemma Read_spec d n count : on_file d n -> CanRead d = true -> 0 <= count ->
  let bytes := Z.min count (Z.of_nat (length (inode_contents n)) - m_Offset d) in
  Read d count (-1) = (with_offset (m_Offset d + bytes) d, inr bytes, slice (Z.to_nat (m_Offset d)) (Z.to_nat bytes) (inode_contents n))
  /\ on_file (with_offset (m_Offset d + bytes) d) n.
Proof.
  intros [Hf Hn Ho] Hr Hc bytes. pose proof (inode_length_spec n Hn) as Hl. split.
  - unfold Read. rewrite Hr, Hf. cbn [negb]. unfold File_IsDirectory, File_Read. cbn [Z.ltb Z.compare].
    rewrite (inode_file_spec n Hn), i64_small by lia. rewrite (inode_Read_spec n) by (trivial; lia).
    fold bytes. do 3 f_equal. unfold u64. rewrite wrap_small; [reflexivity|]. unfold in_u. lia.
  - split; cbn [m_File m_Offset with_offset]; trivial. lia.
Qed.

(** Reads one after the other. *)
Fixpoint reads (counts : list Z) d : FileDescriptor N * list Z :=
  match counts with
  | [] => (d, [])
  | c :: counts => let '(d, _, bs) := Read d c (-1) in let '(d, rest) := reads counts d in (d, bs ++ rest)
  end.

Lemma slice_app off a b (s : list Z) : slice off a s ++ slice (off + a) b s = slice off (a + b) s.
Proof. unfold slice. rewrite <- drop_drop. apply take_take_drop. Qed.

(** C23: a sequence of reads delivers the file in order from the descriptor's position: no byte
    is skipped or repeated, whatever the sizes of the reads, and at the end of the file reads
    deliver nothing. *)
Theorem sequential_reads counts : forall d n, on_file d n -> CanRead d = true -> Forall (Z.le 0) counts ->
  let total := Z.min (foldr Z.add 0 counts) (Z.of_nat (length (inode_contents n)) - m_Offset d) in
  reads counts d = (with_offset (m_Offset d + total) d, slice (Z.to_nat (m_Offset d)) (Z.to_nat total) (inode_contents n)).
Proof.
  induction counts as [|c counts IH]; intros d n Hd Hr Hc total.
  - pose proof (on_offset d n Hd). assert (total = 0) as -> by (unfold total; cbn; lia). rewrite Z.add_0_r. now destruct d.
  - apply Forall_cons in Hc as [Hc Hcs]. destruct (Read_spec d n c Hd Hr Hc) as [E Hd']. cbn [reads]. rewrite E.
    rewrite (IH _ n Hd' Hr Hcs). cbn [m_Offset with_offset m_File m_AccessMode m_Flags].
    pose proof (on_offset d n Hd) as Ho. assert (Hs : 0 <= foldr Z.add 0 counts) by (clear -Hcs; induction Hcs; cbn; lia).
    set (L := Z.of_nat (length (inode_contents n))) in *. cbn [foldr] in total. f_equal.
    + unfold with_offset. cbn [m_File m_AccessMode m_Offset m_Flags]. f_equal. unfold total. lia.
    + replace (Z.to_nat (m_Offset d + Z.min c (L - m_Offset d))) with (Z.to_nat (m_Offset d) + Z.to_nat (Z.min c (L - m_Offset d)))%nat by lia.
      rewrite slice_app. f_equal. unfold total. lia.
Qed.

(** What a descriptor writes is what it reads back after seeking to where it started, on
    every file system that keeps its promises. *)
Theorem write_seek_read d n bs off : on_file d n -> CanRead d = true -> CanWrite d = true ->
  m_Offset d = off -> off + Z.of_nat (length bs) < 2 ^ 61 ->
  exists d1 d2 d3, Write d bs (-1) = Some (d1, inr (Z.of_nat (length bs))) /\
  Seek d1 SEEK_SET off = Some (d2, inr off) /\
  Read d2 (Z.of_nat (length bs)) (-1) = (d3, inr (Z.of_nat (length bs)), bs).
Proof.
  intros [Hf Hn Ho] Hr Hw <- Hb. pose proof (inode_length_spec n Hn) as Hl.
  destruct (inode_Write_spec n (m_Offset d) bs Hn ltac:(lia) Hb) as (n' & Hwr & Hn' & Hlen & Hsl).
  set (d1 := with_offset (u64 (m_Offset d + Z.of_nat (length bs))) (with_file (Some n') d)).
  assert (H2 : on_file (with_offset (m_Offset d) d1) n') by (split; cbn; trivial; lia).
  destruct (Read_spec _ n' (Z.of_nat (length bs)) H2 Hr ltac:(lia)) as [E _]. cbn [m_Offset with_offset] in E.
  rewrite Z.min_l in E by lia. rewrite Nat2Z.id, Hsl in E.
  exists d1, (with_offset (m_Offset d) d1), (with_offset (m_Offset d + Z.of_nat (length bs)) d1). split_and!.
  - unfold Write. rewrite Hw, Hf. cbn [negb Z.ltb Z.compare]. rewrite i64_small by lia. unfold File_Write. rewrite (inode_file_spec n Hn), Hwr. reflexivity.
  - unfold Seek. cbn [m_File d1 with_offset with_file mbind option_bind]. cbn. destruct (Z.ltb_spec (m_Offset d) 0); [lia|reflexivity].
  - exact E.
Qed.

(** An inode whose read fails with -1 moves the descriptor back by one byte. *)
Lemma failed_read_moves_back d n count : m_File d = Some n -> CanRead d = true -> inode_IsDirectory n = false ->
  0 < m_Offset d < 2 ^ 63 -> inode_Read n (m_Offset d) count = (-1, []) ->
  Read d count (-1) = (with_offset (m_Offset d - 1) d, inr (-1), []).
Proof.
  intros Hf Hr Hd Ho Hi. unfold Read. rewrite Hr, Hf. cbn [negb]. unfold File_IsDirectory, File_Read. cbn [Z.ltb Z.compare].
  rewrite Hd, i64_small by lia. rewrite Hi. do 3 f_equal. unfold u64. rewrite wrap_small by (unfold in_u; lia). lia.
Qed.

(** Truncation through a descriptor is always refused: no [File] says it is regular. *)
Lemma Truncate_refused d n size : m_File d = Some n -> Truncate d size = Some (d, inl EBADF).
Proof. intros Hf. unfold Truncate. rewrite Hf. cbn. now rewrite orb_true_r. Qed.
End Descriptor.

(** ** The in-memory file systems keep the promises *)
Section SynthFsFiles.
Context {B : Type} {Buf : Buffer B} (DivRoundUp : Z -> Z -> Z).

#[export] Instance synth_ops : INodeOps (SynthFs.Node B) := {|
  inode_IsDirectory n := SynthFs.IsDirectory n;
  inode_Size n := SynthFs.m_Size n;
  inode_Read n off count := let '(bs, k) := SynthFs.Read n off count in (k, bs);
  inode_Write n off bs := SynthFs.Write DivRoundUp 63 n bs off;
  inode_Truncate n size := (SynthFs.Truncate DivRoundUp n size, inr 0)
|}.

Definition synth_contents (n : SynthFs.Node B) : list Z := buf_get (SynthFs.m_Buffer n) <$> seqZ 0 (buf_Size (SynthFs.m_Buffer n)).
Lemma synth_contents_length n : Z.of_nat (length (synth_contents n)) = buf_Size (SynthFs.m_Buffer n).
Proof. unfold synth_contents. rewrite length_fmap, length_seqZ. pose proof (buf_Size_pos (SynthFs.m_Buffer n)). lia. Qed.
Lemma synth_contents_slice n off len : 0 <= off -> 0 <= len -> off + len <= buf_Size (SynthFs.m_Buffer n) ->
  slice (Z.to_nat off) (Z.to_nat len) (synth_contents n) = buf_get (SynthFs.m_Buffer n) <$> seqZ off len.
Proof.
  intros H0 H1 H2. unfold slice, synth_contents. rewrite <- fmap_drop, <- fmap_take. f_equal. apply list_eq. intros k.
  destruct (Nat.lt_ge_cases k (Z.to_nat len)).
  - rewrite lookup_take_lt, lookup_drop, !lookup_seqZ_lt by lia. f_equal. lia.
  - rewrite lookup_take_ge, lookup_seqZ_ge by lia. reflexivity.
Qed.

#[export] Program Instance synth_laws : INodeLaws (SynthFs.Node B) := {|
  inode_file n := SynthFs.IsDirectory n = false /\ buf_Size (SynthFs.m_Buffer n) < 2 ^ 62;
  inode_contents := synth_contents
|}.
Next Obligation. now intros n [H _]. Qed.
Next Obligation. intros n [_ H]. now rewrite synth_contents_length. Qed.
Next Obligation.
  intros n off count [_ Hs] Ho Hc bytes. unfold bytes. rewrite synth_contents_length in *. cbn [inode_Read synth_ops]. unfold SynthFs.Read, u64.
  rewrite wrap_small by (unfold in_u; lia). f_equal. rewrite synth_contents_slice, buf_Read_spec by lia. reflexivity.
Qed.
Next Obligation.
  intros n off bs [Hd Hs] Ho Hb.
  destruct (Write_spec DivRoundUp n bs off) as (n' & c & Hw & (Hsz & Hm & Hmax) & Hc & Hlo & Hhi & Hget); [trivial|lia|lia|].
  exists n'. cbn [inode_Write synth_ops]. unfold SynthFs.PAGE_SIZE in Hmax. rewrite synth_contents_length, Hc. split_and!; trivial; try lia.
  - unfold SynthFs.IsDirectory in *. now rewrite Hm.
  - transitivity (slice (Z.to_nat off) (Z.to_nat (Z.of_nat (length bs))) (synth_contents n')); [now rewrite Nat2Z.id|].
    rewrite synth_contents_slice by lia. transitivity ((fun i => nth (Z.to_nat i) bs 0) <$> seqZ 0 (Z.of_nat (length bs))); [|apply nth_seqZ].
    apply list_eq. intros k. rewrite !list_lookup_fmap. destruct (Nat.lt_ge_cases k (length bs)).
    + rewrite !lookup_seqZ_lt by lia. cbn [fmap option_fmap option_map]. rewrite Hget by lia. destruct (decide _); [|lia]. do 2 f_equal. lia.
    + rewrite !lookup_seqZ_ge by lia. reflexivity.
Qed.
End SynthFsFiles.

(** A new file of the in-memory file system, opened for reading and writing. *)
Example ex_div (a b : Z) : Z := (a + b - 1) / b.
Example ex_node : SynthFs.Node (list Z) :=
  SynthFs.mkNode (S_IFREG .| 0x1a4) 5 1 1 0 0 0 [104; 101; 108; 108; 111] ∅ "".
Example ex_ops : INodeOps (SynthFs.Node (list Z)) := synth_ops ex_div.
Example ex_laws : @INodeLaws _ ex_ops := synth_laws ex_div.
Example ex_fd : FileDescriptor (SynthFs.Node (list Z)) := mkFd (Some ex_node) 3 1 0.
Lemma ex_on_file : @on_file _ ex_ops ex_laws ex_fd ex_node.
Proof. split; [reflexivity|by_computation|by_computation]. Qed.
Lemma sequential_reads_witness : (@reads _ ex_ops [2; 1; 7; 4] ex_fd).2 = [101; 108; 108; 111].
Proof. rewrite (@sequential_reads _ ex_ops ex_laws [2; 1; 7; 4] ex_fd ex_node ex_on_file eq_refl); [reflexivity|]. repeat constructor; lia. Defined.
Lemma write_seek_read_witness : exists d1 d2 d3, @Write _ ex_ops ex_fd [1; 2; 3; 4; 5; 6] (-1) = Some (d1, inr 6) /\
  @Seek _ ex_ops d1 SEEK_SET 1 = Some (d2, inr 1) /\ @Read _ ex_ops d2 6 (-1) = (d3, inr 6, [1; 2; 3; 4; 5; 6]).
Proof. apply (@write_seek_read _ ex_ops ex_laws ex_fd ex_node [1; 2; 3; 4; 5; 6] 1 ex_on_file); [reflexivity|reflexivity|reflexivity|cbn; lia]. Defined.

(** ** Directory listings *)
Section Listing.
Context {PM : PrismMath}.

Definition reclen (name : string) : Z := AlignUp (DIRENT_LENGTH + Z.of_nat (String.length name) + 1) alignof_dirent.
Definition record (name : string) (inode : Z * Z) : dirent := mkDirent inode.1 (reclen name) (u16 (reclen name)) (IF2DT inode.2) name.
(** A directory all of whose children have an inode, listed with its own two names. *)
Definition full (children : list (string * (Z * Z))) self parent : Directory := mkDir self parent ((fun c => (c.1, Some c.2)) <$> children).
Definition records children self parent : list dirent :=
  record "." self :: record ".." parent :: ((fun c => record c.1 c.2) <$> children).

Lemma generate_children children self parent k : forall fuel es b off, k = length (drop (length children - k) children) -> (k <= length children)%nat ->
  off = Z.of_nat (length children - k) + 2 -> (k < fuel)%nat -> Z.of_nat (length children) + 2 < 2 ^ 64 ->
  generate_loop fuel (full children self parent) (mkListing (mkEntries es b) (length children - k) off)
  = Some (mkListing (mkEntries (es ++ ((fun c => record c.1 c.2) <$> drop (length children - k) children)) b) (length children) (Z.of_nat (length children) + 2)).
Proof.
  induction k as [|k IH]; intros fuel es b off Hk Hle Hoff Hf Hn; (destruct fuel as [|fuel]; [lia|]); cbn [generate_loop l_iterator dir_children full].
  - rewrite Nat.sub_0_r, drop_all, lookup_ge_None_2 by (rewrite length_fmap; lia). rewrite app_nil_r. do 2 f_equal. lia.
  - destruct (lookup_lt_is_Some_2 children (length children - S k)) as [[name i] Hi]; [lia|].
    rewrite list_lookup_fmap, Hi. cbn [fmap option_fmap option_map fst snd l_offset l_entries l_iterator].
    destruct (Z.eqb_spec off 0); [lia|]. destruct (Z.eqb_spec off 1); [lia|].
    replace (S (length children - S k)) with (length children - k)%nat by lia.
    unfold Push. cbn [Entries ShouldRegenerate]. rewrite (IH fuel).
    + do 3 f_equal. rewrite <- app_assoc. f_equal. cbn [app]. rewrite (drop_S children (name, i) (length children - S k) Hi).
      cbn [fmap list_fmap]. f_equal. do 2 f_equal. lia.
    + rewrite length_drop. lia.
    + lia.
    + unfold u64. rewrite wrap_small; unfold in_u; lia.
    + lia.
    + trivial.
Qed.

(** The whole listing is generated, at first and again once the iterator is at the end. *)
Lemma GenerateDirEntries_full children self parent l fuel : children <> [] ->
  (l_iterator l = 0%nat /\ l_offset l = 0) \/ l_iterator l = length children ->
  (length children + 2 < fuel)%nat -> Z.of_nat (length children) + 2 < 2 ^ 64 ->
  GenerateDirEntries fuel (full children self parent) l
  = Some (mkListing (mkEntries (records children self parent) (ShouldRegenerate (l_entries l))) (length children) (Z.of_nat (length children) + 2)).
Proof.
  intros Hne Hl Hf Hn. unfold GenerateDirEntries. cbn [dir_children full]. rewrite length_fmap.
  assert (Hstart : (if (l_iterator l =? length children)%nat then mkListing (mkEntries [] (ShouldRegenerate (l_entries l))) 0 0
    else mkListing (mkEntries [] (ShouldRegenerate (l_entries l))) (l_iterator l) (l_offset l)) = mkListing (mkEntries [] (ShouldRegenerate (l_entries l))) 0 0).
  { destruct (Nat.eqb_spec (l_iterator l) (length children)); [reflexivity|]. destruct Hl as [[-> ->]|Hl]; [reflexivity|lia]. }
  rewrite Hstart. destruct fuel as [|[|fuel]]; [lia|lia|]. destruct children as [|[name i] children']; [easy|]. set (children := (name, i) :: children') in *.
  cbn [generate_loop l_iterator dir_children full]. change (((fun c => (c.1, Some c.2)) <$> children) !! 0%nat) with (Some (name, Some i)).
  cbn [l_offset l_entries Z.eqb]. change (u64 (0 + 1)) with 1. cbn [l_iterator Z.eqb Pos.eqb]. 
  change (((fun c => (c.1, Some c.2)) <$> children) !! 0%nat) with (Some (name, Some i)). cbn [l_offset l_entries].
  change (u64 (1 + 1)) with 2. unfold Push. cbn [Entries ShouldRegenerate app dir_self dir_parent].
  pose proof (generate_children children self parent (length children) fuel
    [record "." self; record ".." parent] (ShouldRegenerate (l_entries l)) 2) as G.
  rewrite Nat.sub_diag in G. apply G; trivial. lia.
Qed.

Lemma records_size_pos es : Forall (fun e => 0 <= d_reclen e) es -> 0 <= records_size es.
Proof. induction 1; unfold records_size in *; cbn [foldr]; lia. Qed.
Lemma copy_loop_all es : forall fuel b length bytes offset out, (List.length es < fuel)%nat -> offset + records_size es < length ->
  Forall (fun e => 0 <= d_reclen e) es ->
  copy_loop fuel (mkEntries es b) length bytes offset out = (mkEntries [] b, offset + records_size es, out ++ es).
Proof.
  induction es as [|e es IH]; intros fuel b length bytes offset out Hf Hl Hr; (destruct fuel as [|fuel]; [cbn in Hf; lia|]); cbn [copy_loop records_size foldr] in *.
  - destruct (Z.ltb_spec offset length); [|lia]. cbn. now rewrite app_nil_r, Z.add_0_r.
  - apply Forall_cons in Hr as [He Hr]. pose proof (records_size_pos es Hr) as Hs. fold (records_size es) in *.
    destruct (Z.ltb_spec offset length); [|lia]. unfold CopyAndPop. cbn [Entries]. destruct (Z.ltb_spec (length - offset) (d_reclen e)); [lia|].
    cbn [ShouldRegenerate]. rewrite IH by (trivial; cbn in *; lia). rewrite <- app_assoc. do 2 f_equal. lia.
Qed.

Lemma record_reclen name i : 0 <= d_reclen (record name i).
Proof. cbn. unfold u16, wrap. apply Z.mod_pos_bound. lia. Qed.
Lemma records_reclen children self parent : Forall (fun e => 0 <= d_reclen e) (records children self parent).
Proof. repeat constructor; try apply record_reclen. apply Forall_fmap, Forall_true. intros. apply record_reclen. Qed.

(** A directory whose records take less than 1048 bytes is listed whole by the first call:
    every entry once, with [.] and [..] first, and the number of bytes returned; the second
    call returns 0.  The records are written whole whatever the size of the user's buffer,
    beyond its end if it is smaller. *)
Theorem directory_listing children self parent fuel maxSize maxSize' :
  let dir := full children self parent in
  let size := records_size (records children self parent) in
  children <> [] -> size < sizeof_dirent -> (length children + 2 < fuel)%nat -> Z.of_nat (length children) + 2 < 2 ^ 64 ->
  d_reclen (record "." self) <= maxSize < 2 ^ 64 -> d_reclen (record "." self) <= maxSize' < 2 ^ 64 ->
  exists l1 l2 out, GetDirEntries fuel dir (mkListing (mkEntries [] false) 0 0) maxSize = Some (l1, inr size, records children self parent)
    /\ GetDirEntries fuel dir l1 maxSize' = Some (l2, inr 0, out).
Proof.
  intros dir size Hne Hs Hf Hn Hm Hm'. unfold sizeof_dirent in Hs. pose proof (records_reclen children self parent) as Hr.
  pose proof (record_reclen "." self) as H0.
  assert (Hsize : 0 <= size) by (now apply records_size_pos).
  assert (Hlen : forall m, d_reclen (record "." self) <= m < 2 ^ 64 -> size < u64 (Z.min m size - sizeof_dirent)).
  { intros m Hmm. unfold sizeof_dirent, u64, wrap. rewrite <- (Z.mod_add _ 1) by lia. rewrite Z.mod_small; lia. }
  assert (G : forall b it off m, d_reclen (record "." self) <= m < 2 ^ 64 -> (it = 0%nat /\ off = 0) \/ it = length children ->
    GetDirEntries fuel dir (mkListing (mkEntries [] b) it off) m
    = Some (mkListing (mkEntries [] true) (length children) (Z.of_nat (length children) + 2), inr (if b then 0 else size), records children self parent)).
  { intros b it off m Hmm Hit. unfold GetDirEntries. cbn [l_entries Entries]. rewrite bool_decide_eq_true_2 by reflexivity.
    unfold dir. rewrite GenerateDirEntries_full by trivial. cbn [mbind option_bind l_entries Entries ShouldRegenerate records l_iterator l_offset].
    change (record "." self :: record ".." parent :: ((fun c => record c.1 c.2) <$> children)) with (records children self parent).
    fold size. destruct (Z.ltb_spec m (d_reclen (record "." self))); [lia|].
    rewrite (copy_loop_all (records children self parent)); [|lia| |exact Hr].
    - cbn [Entries]. rewrite bool_decide_eq_true_2 by reflexivity. reflexivity.
    - apply (Hlen m Hmm). }
  eexists _, _, _. rewrite G by (trivial; now left). split; [reflexivity|]. rewrite G by (trivial; now right). reflexivity.
Qed.

(** When the records, or the user's buffer, take from 1048 up to less than 1048 bytes and
    one record, the call returns 0, the end of the directory, and lists nothing. *)
Theorem directory_of_1048_bytes_lists_nothing children self parent fuel maxSize :
  let n := Z.min maxSize (records_size (records children self parent)) in
  children <> [] -> (length children + 2 < fuel)%nat -> Z.of_nat (length children) + 2 < 2 ^ 64 ->
  sizeof_dirent <= n < sizeof_dirent + d_reclen (record "." self) -> d_reclen (record "." self) <= maxSize -> n < 2 ^ 64 ->
  exists l, GetDirEntries fuel (full children self parent) (mkListing (mkEntries [] false) 0 0) maxSize = Some (l, inr 0, []).
Proof.
  intros n Hne Hf Hn Hs Hm H64. unfold GetDirEntries. cbn [l_entries Entries]. rewrite bool_decide_eq_true_2 by reflexivity.
  rewrite GenerateDirEntries_full by (trivial; now left). cbn [mbind option_bind l_entries Entries ShouldRegenerate l_iterator l_offset].
  unfold records at 1. cbn iota. destruct (Z.ltb_spec maxSize (d_reclen (record "." self))); [lia|]. fold n.
  assert (u64 (n - sizeof_dirent) = n - sizeof_dirent) as ->.
  { unfold u64, sizeof_dirent in *. rewrite wrap_small; unfold in_u; lia. }
  unfold records at 2. cbn [copy_loop]. rewrite !Z.sub_0_r.
  destruct (Z.ltb_spec 0 (n - sizeof_dirent)).
  - unfold CopyAndPop. cbn [Entries]. destruct (Z.ltb_spec (n - sizeof_dirent) (d_reclen (record "." self))); [|lia]. eauto.
  - eauto.
Qed.

(** A child without an inode is never passed: the listing does not end. *)
Lemma negative_entry_hangs dir name fuel : forall l, dir_children dir !! l_iterator l = Some (name, None) -> generate_loop fuel dir l = None.
Proof. induction fuel as [|fuel IH]; intros l Hl; [reflexivity|]. cbn [generate_loop]. rewrite Hl. now apply IH. Qed.
End Listing.

Example ex_children : list (string * (Z * Z)) := [("bin", (3, S_IFDIR)); ("README", (4, S_IFREG))]%string.
Lemma directory_listing_witness : let dir := full ex_children (2, S_IFDIR) (1, S_IFDIR) in
  let rs := records ex_children (2, S_IFDIR) (1, S_IFDIR) in
  records_size rs = 128 /\ exists l1 l2 out,
  GetDirEntries 10 dir (mkListing (mkEntries [] false) 0 0) 64 = Some (l1, inr (records_size rs), rs) /\ GetDirEntries 10 dir l1 64 = Some (l2, inr 0, out).
Proof.
  split; [reflexivity|].
  exact (directory_listing ex_children (2, S_IFDIR) (1, S_IFDIR) 10 64 64 ltac:(discriminate) ltac:(by_computation) ltac:(cbn; lia) ltac:(cbn; lia) ltac:(by_computation) ltac:(by_computation)).
Defined.
(** Thirty-one names of four letters. *)
Example ex_names : list (string * (Z * Z)) := (fun i => ("file"%string, (i, S_IFREG))) <$> seqZ 10 31.
Lemma directory_of_1048_bytes_lists_nothing_witness : exists l,
  GetDirEntries 40 (full ex_names (2, S_IFDIR) (1, S_IFDIR)) (mkListing (mkEntries [] false) 0 0) 65536 = Some (l, inr 0, []).
Proof.
  exact (directory_of_1048_bytes_lists_nothing ex_names (2, S_IFDIR) (1, S_IFDIR) 40 65536 ltac:(discriminate)
    ltac:(apply Nat.ltb_lt; vm_compute; reflexivity) ltac:(by_computation) ltac:(by_computation) ltac:(by_computation) ltac:(by_computation)).
Defined.

(** ** Pipes *)
Section Pipe.
Context {Q : Type} {RB : RingBuffer Q}.
Implicit Types f : Fifo Q.

(** What a call leaves of the queue. *)
Definition queue f : list Z := rb_contents (m_Buffer f).

Lemma Fifo_Read_queue fuel thread : forall f count f' r, 0 <= count -> Fifo_Read_loop fuel thread f count = (f', r) ->
  Capacity f' = Capacity f /\ match r with Done _ bs _ => bs ++ queue f' = queue f | Waits => queue f' = queue f end.
Proof.
  induction fuel as [|fuel IH]; intros f count f' r Hc; cbn [Fifo_Read_loop].
  all: destruct (Used f =? 0);
    [destruct (_ || _)%bool; [intros [= <- <-]; auto|destruct (await_one _ _ _ _) as [e [i b|b]]; first [exact (IH (with_event e f) count f' r Hc)|intros [= <- <-]; auto]]|].
  all: assert (Hm : 0 <= Z.min count (Used f) <= Z.of_nat (length (rb_contents (m_Buffer f)))) by (unfold Used; lia);
    destruct (rb_Read_spec (m_Buffer f) (Z.min count (Used f)) Hm) as (H1 & H2 & H3);
    destruct (rb_Read _ _) as [q bs]; destruct (Trigger _ _ _) as [[e woken] b]; intros [= <- <-]; cbn in *; split; trivial;
    unfold queue; cbn; rewrite H1, H2; apply take_drop.
Qed.

Lemma Fifo_Write_queue fuel thread : forall f bs f' r, Used f <= Capacity f -> Fifo_Write_loop fuel thread f bs = (f', r) ->
  Capacity f' = Capacity f /\ Used f' <= Capacity f' /\
  match r with Done n sent _ => queue f' = queue f ++ sent /\ n = Z.of_nat (length sent) /\ sent `prefix_of` bs | Waits => queue f' = queue f end.
Proof.
  induction fuel as [|fuel IH]; intros f bs f' r Hu; cbn [Fifo_Write_loop].
  all: destruct (Z.eqb_spec (Used f) (Capacity f)) as [Ef|Ef];
    [destruct (await_one _ _ _ _) as [e [i b|b]]; first [exact (IH (with_event e f) bs f' r Hu)|intros [= <- <-]; auto]|].
  all: set (count := if Capacity f <? Used f + Z.of_nat (length bs) then _ else _);
    assert (Hcount : 0 <= count <= Z.of_nat (length bs) /\ Used f + count <= Capacity f) by
      (unfold count; destruct (Z.ltb_spec (Capacity f) (Used f + Z.of_nat (length bs))); lia);
    assert (Hl : Z.of_nat (length (take (Z.to_nat count) bs)) = count) by (rewrite length_take; lia);
    pose proof (rb_Write_spec (m_Buffer f) (take (Z.to_nat count) bs)) as (H1 & H2 & H3); [unfold Capacity, Used in *; lia|];
    destruct (rb_Write _ _) as [q n]; destruct (Trigger _ _ _) as [[e woken] b]; intros [= <- <-]; cbn [fst snd] in *;
    unfold Capacity, Used, queue in *; cbn in *; rewrite H2, H3, length_app; split_and!; trivial; [lia|exists (drop (Z.to_nat count) bs); symmetry; apply take_drop].
Qed.

(** A run of the pipe: calls of any threads, in any order; a call that blocks is made again
    later, as another call.  The bytes received and the bytes accepted are collected. *)
Inductive PipeOp := PRead (thread : nat) (count : Z) | PWrite (thread : nat) (bytes : list Z).
Record PipeRun := mkRun { pipe : Fifo Q; received : list Z; accepted : list Z }.
Definition pipe_step (s : PipeRun) (op : PipeOp) : PipeRun :=
  match op with
  | PRead thread count =>
      match Fifo_Read thread (pipe s) count with
      | (f, Done _ bs _) => mkRun f (received s ++ bs) (accepted s)
      | (f, Waits) => mkRun f (received s) (accepted s)
      end
  | PWrite thread bytes =>
      match Fifo_Write thread (pipe s) bytes with
      | (f, Done _ sent _) => mkRun f (received s) (accepted s ++ sent)
      | (f, Waits) => mkRun f (received s) (accepted s)
      end
  end.
Definition op_ok (op : PipeOp) : Prop := match op with PRead _ count => 0 <= count | PWrite _ _ => True end.
Definition pipe_inv (s : PipeRun) : Prop := received s ++ queue (pipe s) = accepted s /\ Used (pipe s) <= Capacity (pipe s) /\ Capacity (pipe s) = FIFO_SIZE.

Lemma pipe_step_inv s op : op_ok op -> pipe_inv s -> pipe_inv (pipe_step s op).
Proof.
  intros Hop (H1 & H2 & H3). destruct op as [thread count|thread bytes]; cbn [pipe_step].
  - unfold Fifo_Read. destruct (Fifo_Read_loop _ _ _ _) as [f r] eqn:E. apply Fifo_Read_queue in E as [Hc Hq]; [|exact Hop].
    assert (Hu : Used f <= Capacity f).
    { rewrite Hc. unfold Used, queue in *. destruct r as [v bs w|]; [|now rewrite Hq]. rewrite <- Hq, length_app in H2. lia. }
    destruct r; split_and!; cbn; trivial; try congruence. now rewrite <- app_assoc, Hq.
  - unfold Fifo_Write. destruct (_ =? 0).
    + split_and!; cbn; trivial. now rewrite app_nil_r.
    + destruct (Fifo_Write_loop _ _ _ _) as [f r] eqn:E. apply Fifo_Write_queue in E as (Hc & Hu & Hq); [|exact H2].
      destruct r; split_and!; cbn; trivial; try congruence. destruct Hq as (-> & _ & _). now rewrite app_assoc, H1.
Qed.

(** C27: along any interleaving of reads and writes by any threads, what the readers of a pipe
    have received is a prefix of what its writers had accepted, in order, and the rest is in
    the buffer, which holds at most 64 KiB. *)
Theorem pipe_stream readers writers ops : Forall op_ok ops ->
  let s := foldl pipe_step (mkRun (mkFifo readers writers (mkEvent 0 []) (rb_Reserve FIFO_SIZE) false) [] []) ops in
  received s ++ queue (pipe s) = accepted s /\ Z.of_nat (length (queue (pipe s))) <= FIFO_SIZE.
Proof.
  intros Hops s. cut (pipe_inv s). { intros (H1 & H2 & H3). split; [exact H1|]. unfold Used in H2. rewrite H3 in H2. exact H2. }
  unfold s. destruct (rb_Reserve_spec FIFO_SIZE) as [Hr1 Hr2]; [unfold FIFO_SIZE; lia|].
  assert (Hi : pipe_inv (mkRun (mkFifo readers writers (mkEvent 0 []) (rb_Reserve FIFO_SIZE) false) [] [])).
  { unfold pipe_inv, queue, Used, Capacity. cbn [received accepted pipe m_Buffer]. rewrite Hr1, Hr2. split_and!; cbn; trivial; unfold FIFO_SIZE; lia. }
  revert Hi. generalize (mkRun (mkFifo readers writers (mkEvent 0 []) (rb_Reserve FIFO_SIZE) false) [] []). clear Hr1 Hr2 s.
  induction Hops as [|op ops Hop _ IH]; intros s Hs; cbn [foldl]; [exact Hs|]. apply IH. now apply pipe_step_inv.
Qed.

(** A reader of an empty pipe that has writers blocks; the next write unblocks exactly its
    thread, which then reads what was written. *)
Theorem pipe_reader_woken f thread writer count bs : queue f = [] -> m_Event f = mkEvent 0 [] -> m_NonBlocking f = false ->
  0 < m_WriterCount f -> 0 < m_ReaderCount f -> bs <> [] -> Z.of_nat (length bs) <= Capacity f -> Z.of_nat (length bs) <= count ->
  exists f1 f2 f3 v, Fifo_Read thread f count = (f1, Waits) /\
  Fifo_Write writer f1 bs = (f2, Done (Z.of_nat (length bs)) bs [mkListener thread 0]) /\
  Fifo_Read thread f2 count = (f3, Done v bs []) /\ queue f3 = [].
Proof.
  intros Hq He Hnb Hw Hr Hbs Hcap Hcount. assert (Hl : 0 < Z.of_nat (length bs)) by (destruct bs; [easy|cbn [length]; lia]).
  assert (Hu : Used f = 0) by (unfold Used; unfold queue in Hq; now rewrite Hq).
  set (f1 := with_event (mkEvent 0 [mkListener thread 0]) f).
  assert (R1 : Fifo_Read thread f count = (f1, Waits)).
  { unfold Fifo_Read. rewrite He. cbn [Pending Z.to_nat Fifo_Read_loop]. rewrite Hu. destruct (Z.eqb_spec (m_WriterCount f) 0); [lia|].
    rewrite Hnb, He. reflexivity. }
  pose proof (rb_Write_spec (m_Buffer f) bs) as (W1 & W2 & W3); [unfold Capacity, Used in *; lia|].
  set (f2 := with_event (mkEvent 0 []) (with_queue (rb_Write (m_Buffer f) bs).1 f1)).
  assert (R2 : Fifo_Write writer f1 bs = (f2, Done (Z.of_nat (length bs)) bs [mkListener thread 0])).
  { unfold Fifo_Write. cbn [m_ReaderCount f1 with_event]. destruct (Z.eqb_spec (m_ReaderCount f) 0); [lia|].
    change (Pending (m_Event f1)) with 0. cbn [Fifo_Write_loop]. change (Used f1) with (Used f). change (Capacity f1) with (Capacity f). rewrite Hu.
    destruct (Z.eqb_spec 0 (Capacity f)); [lia|]. rewrite Z.add_0_l. destruct (Z.ltb_spec (Capacity f) (Z.of_nat (length bs))); [lia|].
    rewrite Nat2Z.id, take_ge by lia. change (m_Buffer f1) with (m_Buffer f). rewrite (surjective_pairing (rb_Write (m_Buffer f) bs)), W1. reflexivity. }
  assert (Hq2 : rb_contents (m_Buffer f2) = bs) by (cbn; rewrite W2; unfold queue in Hq; now rewrite Hq).
  pose proof (rb_Read_spec (m_Buffer f2) (Z.of_nat (length bs))) as (P1 & P2 & P3); [rewrite Hq2; lia|]. rewrite Hq2, Nat2Z.id in *.
  rewrite take_ge in P1 by lia. rewrite drop_ge in P2 by lia.
  exists f1, f2, (with_event (mkEvent 1 []) (with_queue (rb_Read (m_Buffer f2) (Z.of_nat (length bs))).1 f2)), (Z.of_nat (length bs)). split_and!; trivial.
  unfold Fifo_Read. change (Pending (m_Event f2)) with 0. cbn [Fifo_Read_loop Z.to_nat]. unfold Used. rewrite Hq2.
  destruct (Z.eqb_spec (Z.of_nat (length bs)) 0); [lia|]. rewrite Z.min_r by lia. rewrite (surjective_pairing (rb_Read (m_Buffer f2) (Z.of_nat (length bs)))), P1. reflexivity.
Qed.
End Pipe.

Lemma pipe_stream_witness : let s := foldl pipe_step (mkRun (mkFifo 1 1 (mkEvent 0 []) (rb_Reserve FIFO_SIZE) false) [] [])
    [PRead 1 4; PWrite 2 [1; 2; 3]; PRead 1 2; PWrite 2 [4; 5]; PRead 1 1] in
  received s = [1; 2; 3] /\ received s ++ queue (pipe s) = accepted s.
Proof.
  split; [vm_compute; reflexivity|].
  apply (pipe_stream 1 1 [PRead 1 4; PWrite 2 [1; 2; 3]; PRead 1 2; PWrite 2 [4; 5]; PRead 1 1]). repeat constructor; cbn; lia.
Defined.
Lemma pipe_reader_woken_witness : exists f1 f2 f3 v,
  Fifo_Read 1 (mkFifo 1 1 (mkEvent 0 []) (rb_Reserve FIFO_SIZE) false) 4 = (f1, Waits) /\
  Fifo_Write 2 f1 [1; 2; 3] = (f2, Done 3 [1; 2; 3] [mkListener 1 0]) /\ Fifo_Read 1 f2 4 = (f3, Done v [1; 2; 3] []) /\ queue f3 = [].
Proof. apply (pipe_reader_woken (mkFifo 1 1 (mkEvent 0 []) (rb_Reserve FIFO_SIZE) false) 1 2 4 [1; 2; 3]); try reflexivity; try discriminate; by_computation. Defined.
