(* ===== verification/Effects.v ===== *)
(** * Effects

    Kernel functions that change shared state as functions of that state.  A call returns a value
    in a new state; or it never returns to its caller although the machine goes on (the processor
    waits for the next interrupt); or it panics (a failed assertion, a dereference of a null or
    freed object); or it runs for ever.  The components that need it take this monad with a state
    of their own. *)

From Stdlib Require Import ZArith.
From stdpp Require Import base.
From S2P Require Import Prelude.

Inductive outcome (St A : Type) := Ret (s : St) (a : A) | Halted (s : St) | Panic | Diverges.
Arguments Ret {St A} s a.
Arguments Halted {St A} s.
Arguments Panic {St A}.
Arguments Diverges {St A}.

Definition M (St A : Type) : Type := St -> outcome St A.
#[global] Instance M_ret St : MRet (M St) := fun A a s => Ret s a.
#[global] Instance M_bind St : MBind (M St) := fun A B k m s =>
  match m s with Ret s a => k a s | Halted s => Halted s | Panic => Panic | Diverges => Diverges end.

Section Operations.
Context {St : Type}.
Definition panic {A} : M St A := fun _ => Panic.
Definition diverges {A} : M St A := fun _ => Diverges.
(** The caller is abandoned. *)
Definition halt {A} : M St A := fun s => Halted s.
Definition get : M St St := fun s => Ret s s.
Definition gets {A} (f : St -> A) : M St A := fun s => Ret s (f s).
Definition update (f : St -> St) : M St unit := fun s => Ret (f s) tt.
(** A pointer that is dereferenced. *)
Definition deref {A} (o : option A) : M St A := match o with Some a => mret a | None => panic end.
Definition Assert (b : bool) : M St unit := if b then mret tt else panic.
(** [TryOrRet]: an error is returned to the caller. *)
Definition try_ {A B} (m : M St (Z + A)) (k : A -> M St (Z + B)) : M St (Z + B) :=
  r ← m; match r with inl e => mret (inl e) | inr a => k a end.
Fixpoint each {A} (f : A -> M St unit) (l : list A) : M St unit :=
  match l with [] => mret tt | a :: l => _ ← f a; each f l end.

Lemma bind_ret {A B} (m : M St A) (k : A -> M St B) s s' a : m s = Ret s' a -> (m ≫= k) s = k a s'.
Proof. intros H. unfold mbind, M_bind. now rewrite H. Qed.
Lemma bind_halted {A B} (m : M St A) (k : A -> M St B) s s' : m s = Halted s' -> (m ≫= k) s = Halted s'.
Proof. intros H. unfold mbind, M_bind. now rewrite H. Qed.
Lemma bind_panic {A B} (m : M St A) (k : A -> M St B) s : m s = Panic -> (m ≫= k) s = Panic.
Proof. intros H. unfold mbind, M_bind. now rewrite H. Qed.
Lemma bind_diverges {A B} (m : M St A) (k : A -> M St B) s : m s = Diverges -> (m ≫= k) s = Diverges.
Proof. intros H. unfold mbind, M_bind. now rewrite H. Qed.
Lemma bind_assoc {A B C} (m : M St A) (k : A -> M St B) (h : B -> M St C) s : ((m ≫= k) ≫= h) s = (m ≫= (fun a => k a ≫= h)) s.
Proof. unfold mbind, M_bind. now destruct (m s). Qed.
Lemma get_ret {B} (k : St -> M St B) s : (get ≫= k) s = k s s.
Proof. reflexivity. Qed.
Lemma gets_ret {A B} (f : St -> A) (k : A -> M St B) s : (gets f ≫= k) s = k (f s) s.
Proof. reflexivity. Qed.
Lemma update_ret {B} f (k : unit -> M St B) s : (update f ≫= k) s = k tt (f s).
Proof. reflexivity. Qed.
Lemma mret_ret {A B} (a : A) (k : A -> M St B) s : (mret a ≫= k) s = k a s.
Proof. reflexivity. Qed.
Lemma deref_ret {A B} (a : A) (k : A -> M St B) s : (deref (Some a) ≫= k) s = k a s.
Proof. reflexivity. Qed.
Lemma assert_ret {B} b (k : unit -> M St B) s : b = true -> (Assert b ≫= k) s = k tt s.
Proof. now intros ->. Qed.
Lemma assert_panic {B} b (k : unit -> M St B) s : b = false -> (Assert b ≫= k) s = Panic.
Proof. now intros ->. Qed.
Lemma try_ret {A B} (m : M St (Z + A)) (k : A -> M St (Z + B)) s s' a : m s = Ret s' (inr a) -> try_ m k s = k a s'.
Proof. intros H. unfold try_. now rewrite (bind_ret _ _ _ _ _ H). Qed.
End Operations.
