(* ===== verification/VFS.v ===== *)
(** * The virtual file system

    [VFS/DirectoryEntry.cpp], [VFS/PathResolver.cpp], [VFS/MountPoint.cpp] and [VFS/VFS.cpp]: the
    cache of directory entries, mounts, the resolution of paths with symbolic links, opening and
    creating files.  Entries are numbered objects in a store; the file systems below are an
    interface.  Reference counts are not modelled: an entry that has been made stays. *)

From Stdlib Require Import ZArith Lia Bool Ascii.
From stdpp Require Import base gmap list numbers strings.
From S2P Require Import Prelude Effects Posix.

(** ** Interfaces *)
(** [Prism/Utility/Path.hpp] *)
Class PathOps := {
  Absolute : string -> bool;
  Split : string -> list string;
  ParentPath : string -> string;
  BaseName : string -> string
}.

(** The inodes [I] of the mounted file systems, with their state [S]: [INode]'s virtual
    functions, and [Filesystem::Mount], which gives the inode of the root. *)
Class FsOps (S I : Type) := {
  inode_Mode : S -> I -> Z;
  inode_ReadLink : S -> I -> Z + string;
  inode_Lookup : S -> I -> string -> Z + I;
  inode_Traverse : S -> I -> list string;
  inode_CreateFile : S -> I -> string -> Z -> S * (Z + I);
  inode_CreateDirectory : S -> I -> string -> Z -> S * (Z + I);
  inode_Symlink : S -> I -> string -> string -> S * (Z + I);
  inode_CreateNode : S -> I -> string -> Z -> Z -> S * (Z + I);
  inode_Link : S -> I -> I -> S * (Z + I);
  filesystem_Mount : S -> string -> string -> S * (Z + option I)
}.

Module VFS.

(** ** Constants *)
Definition eDirectory : Z := 2.
Definition eRegular : Z := 4.
Definition eSpecial : Z := 5.
Definition eSymlink : Z := 6.
Definition eEntryTypeMask : Z := 7.
Definition eMountPoint : Z := 32.

Definition lookup_eRegular : Z := 1.
Definition lookup_eParent : Z := 2.
Definition lookup_eFollowLinks : Z := 4.
Definition lookup_eNegativeEntry : Z := 8.
Definition lookup_eMountPoint : Z := 16.

Definition SYMLOOP_MAX : nat := 40.
Definition EBUSY : Z := 16.
Definition ENOSYS : Z := 38.
Definition ENOLINK : Z := 67.
Definition no_error : Z := 0.

Definition O_WRONLY : Z := 0x1.
Definition O_RDWR : Z := 0x2.
Definition O_CREAT : Z := 0x100.
Definition O_EXCL : Z := 0x200.
Definition O_DIRECTORY : Z := 0x10000.
Definition O_NOFOLLOW : Z := 0x20000.
Definition O_CLOEXEC : Z := 0x80000.
Definition O_PATH : Z := 0x200000.
Definition O_TMPFILE : Z := 0x400000.
Definition O_ACCMODE : Z := O_PATH .| 3.

(** ** State *)
Section VFS.
Context {Paths : PathOps} {S I : Type} {FS : FsOps S I}.

Record DirectoryEntry := mkEntry {
  m_Name : string; m_Flags : Z; m_INode : option I; m_Populated : bool; m_DirOffset : Z;
  m_Parent : option Z; m_MountGate : option Z; m_Children : gmap string Z
}.
Definition new_entry (parent : option Z) (name : string) : DirectoryEntry := mkEntry name 0 None false 0 parent None ∅.
Definition with_parent (p : option Z) (d : DirectoryEntry) : DirectoryEntry :=
  mkEntry (m_Name d) (m_Flags d) (m_INode d) (m_Populated d) (m_DirOffset d) p (m_MountGate d) (m_Children d).
Definition with_children (c : gmap string Z) (d : DirectoryEntry) : DirectoryEntry :=
  mkEntry (m_Name d) (m_Flags d) (m_INode d) (m_Populated d) (m_DirOffset d) (m_Parent d) (m_MountGate d) c.
Definition with_populated (d : DirectoryEntry) : DirectoryEntry :=
  mkEntry (m_Name d) (m_Flags d) (m_INode d) true (m_DirOffset d) (m_Parent d) (m_MountGate d) (m_Children d).

(** The entries, the number of the next one, the root, the host entries of the mount points
    in order, the names of the registered drivers, the file systems and [errno]. *)
Record State := mkState {
  entries : gmap Z DirectoryEntry; next_entry : Z; s_RootDirectoryEntry : option Z;
  s_MountPoints : list Z; s_FilesystemDrivers : list string; filesystems : S; errno : Z
}.

Notation M := (M State).
Definition put_entries (es : gmap Z DirectoryEntry) : M unit := fun v =>
  Ret (mkState es (next_entry v) (s_RootDirectoryEntry v) (s_MountPoints v) (s_FilesystemDrivers v) (filesystems v) (errno v)) tt.
Definition put_filesystems (s : S) : M unit := fun v =>
  Ret (mkState (entries v) (next_entry v) (s_RootDirectoryEntry v) (s_MountPoints v) (s_FilesystemDrivers v) s (errno v)) tt.
Definition set_errno (e : Z) : M unit := fun v =>
  Ret (mkState (entries v) (next_entry v) (s_RootDirectoryEntry v) (s_MountPoints v) (s_FilesystemDrivers v) (filesystems v) e) tt.
Definition fs_op {A} (f : S -> S * A) : M A := v ← get; let '(s, a) := f (filesystems v) in _ ← put_filesystems s; mret a.

Definition entry_of (e : Z) : M DirectoryEntry := v ← get; match entries v !! e with Some d => mret d | None => panic end.
Definition modify (e : Z) (f : DirectoryEntry -> DirectoryEntry) : M unit := d ← entry_of e; v ← get; put_entries (<[e := f d]> (entries v)).
Definition allocate (d : DirectoryEntry) : M Z := fun v =>
  Ret (mkState (<[next_entry v := d]> (entries v)) (next_entry v + 1) (s_RootDirectoryEntry v) (s_MountPoints v) (s_FilesystemDrivers v) (filesystems v) (errno v))
    (next_entry v).

(** ** Directory entries *)
Definition has_flag (f : Z) (d : DirectoryEntry) : bool := truthy (m_Flags d .& f).
Definition IsMountPoint (d : DirectoryEntry) : bool := has_flag eMountPoint d.
Definition IsDirectory (d : DirectoryEntry) : bool := has_flag eDirectory d.
Definition IsRegular (d : DirectoryEntry) : bool := has_flag eRegular d.
Definition IsSpecial (d : DirectoryEntry) : bool := has_flag eSpecial d.
Definition inode_mode_of (d : DirectoryEntry) : M Z := i ← deref (m_INode d); v ← get; mret (inode_Mode (filesystems v) i).
Definition IsSymlink (d : DirectoryEntry) : M bool := mode ← inode_mode_of d; mret (S_ISLNK mode).

Definition SetParent (e : Z) (p : option Z) : M unit := modify e (with_parent p).
Definition SetMountGate (e : Z) (gate : Z) : M unit :=
  modify e (fun d =>
    let flags := if truthy (m_Flags d .& eEntryTypeMask) then m_Flags d else m_Flags d .| eDirectory in
    mkEntry (m_Name d) (flags .| eMountPoint) (m_INode d) (m_Populated d) (m_DirOffset d) (m_Parent d) (Some gate) (m_Children d)).
(** The flags [Bind] adds for the mode of the inode. *)
Definition type_flags (mode : Z) : Z :=
  (if S_ISDIR mode then eDirectory else 0) .| (if S_ISREG mode then eRegular else 0) .| (if S_ISLNK mode then eSymlink else 0)
  .| (if S_ISCHR mode || S_ISSOCK mode || S_ISFIFO mode then eSpecial else 0).
Definition Bind (e : Z) (inode : I) : M unit :=
  v ← get;
  modify e (fun d =>
    mkEntry (m_Name d) (m_Flags d .| type_flags (inode_Mode (filesystems v) inode)) (Some inode) (m_Populated d) (m_DirOffset d)
      (m_Parent d) (m_MountGate d) (m_Children d)).
Definition InsertChild (e child : Z) : M unit := c ← entry_of child; modify e (fun d => with_children (<[m_Name c := child]> (m_Children d)) d).
Definition RemoveChild (e child : Z) : M unit := c ← entry_of child; modify e (fun d => with_children (delete (m_Name c) (m_Children d)) d).

(** [while (current && current->m_MountGate)]: a chain longer than the number of entries is a
    cycle. *)
Fixpoint follow_gates (fuel : nat) (e : Z) : M Z :=
  d ← entry_of e;
  match m_MountGate d with
  | None => mret e
  | Some g => match fuel with O => diverges | Datatypes.S fuel => follow_gates fuel g end
  end.
Definition FollowMounts (e : Z) : M Z := v ← get; follow_gates (size (entries v)) e.
Definition RootDirectoryEntry : M Z := v ← get; r ← deref (s_RootDirectoryEntry v); FollowMounts r.

(** [MountPoint::Lookup]: the host of the first mount point whose host is the entry. *)
Definition MountPoint_Lookup (v : State) (e : Z) : option Z := List.find (fun host => host =? e) (s_MountPoints v).
Definition GetEffectiveParent (e : Z) : M (option Z) :=
  root ← RootDirectoryEntry;
  rootEntry ← FollowMounts root;
  d ← entry_of e;
  v ← get;
  if (e =? rootEntry) || (e =? root) then mret (Some e)
  else match MountPoint_Lookup v e with
       | Some host => h ← entry_of host; mret (m_Parent h)
       | None => mret (m_Parent d)
       end.

(** [Lookup] asks the inode for a name that is not cached and caches the answer. *)
Definition Lookup (e : Z) (name : string) : M (option Z) :=
  d ← entry_of e;
  match m_Children d !! name with
  | Some c => mret (Some c)
  | None =>
      match m_INode d with
      | None => mret None
      | Some i =>
          v ← get;
          match inode_Lookup (filesystems v) i name with
          | inl _ => mret None
          | inr j =>
              c ← allocate (new_entry None name);
              _ ← Bind c j;
              _ ← SetParent c (Some e);
              _ ← InsertChild e c;
              mret (Some c)
          end
      end
  end.

Fixpoint lookup_all (e : Z) (names : list string) : M unit :=
  match names with [] => mret tt | n :: names => _ ← Lookup e n; lookup_all e names end.
Definition PopulateDirectoryEntries (e : Z) : M (Z + unit) :=
  d ← entry_of e;
  if m_Populated d then mret (inr tt)
  else
    match m_INode d with
    | None => mret (inl ENOENT)
    | Some i => v ← get; _ ← lookup_all e (inode_Traverse (filesystems v) i); _ ← modify e with_populated; mret (inr tt)
    end.

(** ** The path resolver *)
Inductive PathSegmentType := seg_eRegular | seg_eDotDot | seg_eDot.
Inductive ResolutionState := eUninitialized | eInitialized | eFinished | eLast | eTerminated.
Record Segment := mkSegment { seg_Name : string; seg_IsLast : bool; seg_Type : PathSegmentType }.
Record Resolver := mkResolver {
  r_State : ResolutionState; r_Path : string; r_Flags : Z; r_Segment : Segment;
  r_Parent : option Z; r_Entry : option Z; r_BaseName : string
}.
Definition r_state (st : ResolutionState) (r : Resolver) : Resolver := mkResolver st (r_Path r) (r_Flags r) (r_Segment r) (r_Parent r) (r_Entry r) (r_BaseName r).
Definition r_flags (f : Z) (r : Resolver) : Resolver := mkResolver (r_State r) (r_Path r) f (r_Segment r) (r_Parent r) (r_Entry r) (r_BaseName r).
Definition r_segment (s : Segment) (r : Resolver) : Resolver := mkResolver (r_State r) (r_Path r) (r_Flags r) s (r_Parent r) (r_Entry r) (r_BaseName r).
Definition r_parent (p : option Z) (r : Resolver) : Resolver := mkResolver (r_State r) (r_Path r) (r_Flags r) (r_Segment r) p (r_Entry r) (r_BaseName r).
Definition r_entry (e : option Z) (r : Resolver) : Resolver := mkResolver (r_State r) (r_Path r) (r_Flags r) (r_Segment r) (r_Parent r) e (r_BaseName r).
Definition r_base (b : string) (r : Resolver) : Resolver := mkResolver (r_State r) (r_Path r) (r_Flags r) (r_Segment r) (r_Parent r) (r_Entry r) b.
Definition flag_set (r : Resolver) (f : Z) : bool := truthy (r_Flags r .& f).
(** [segment.IsLast && m_Flags & PathLookupFlags::eMountPoint] *)
Definition stop_at_mount (r : Resolver) : bool := seg_IsLast (r_Segment r) && flag_set r lookup_eMountPoint.

Definition Terminate {A} (code : Z) (r : Resolver) : M (Resolver * (Z + A)) :=
  _ ← set_errno code; mret (r_entry None (r_state eTerminated r), inl code).

Definition uninitialized : Resolver := mkResolver eUninitialized "/" lookup_eRegular (mkSegment "" false seg_eRegular) None None "".
(** [PathResolver(root, path)]; the result of [Initialize] is dropped. *)
Definition Initialize (root : option Z) (path : string) : M Resolver :=
  if bool_decide (path = ""%string) then r ← Terminate (A := unit) EINVAL uninitialized; mret r.1
  else
    rootEntry ← RootDirectoryEntry;
    let parent := if Absolute path then Some rootEntry else root in
    let r := mkResolver eUninitialized path lookup_eRegular (mkSegment "" false seg_eRegular) parent parent "/" in
    p ← (if bool_decide (parent = Some rootEntry) then mret parent
         else match parent with Some p => g ← FollowMounts p; mret (Some g) | None => mret None end);
    mret (r_state eInitialized (r_parent p r)).

Definition GetNextSegment (name : string) (rest : list string) : Segment :=
  mkSegment name (bool_decide (rest = []))
    (if bool_decide (name = "."%string) then seg_eDot else if bool_decide (name = ".."%string) then seg_eDotDot else seg_eRegular).

(** [if (entry && entry->IsMountPoint() && !(...)) entry = entry->FollowMounts()] *)
Definition enter_mount (r : Resolver) : M Resolver :=
  match r_Entry r with
  | None => mret r
  | Some e => d ← entry_of e; if IsMountPoint d && negb (stop_at_mount r) then g ← FollowMounts e; mret (r_entry (Some g) r) else mret r
  end.

(** [remaining] segments follow the current one. *)
Definition FollowDots (remaining : nat) (r : Resolver) : M Resolver :=
  r ← (match seg_Type (r_Segment r) with
       | seg_eDotDot => e ← deref (r_Entry r); p ← GetEffectiveParent e; mret (r_entry p r)
       | _ => mret r
       end);
  if seg_IsLast (r_Segment r) then
    e ← deref (r_Entry r);
    p ← GetEffectiveParent e;
    e ← (if flag_set r lookup_eMountPoint then mret e else FollowMounts e);
    d ← entry_of e;
    mret (r_base (m_Name d) (r_entry (Some e) (r_parent p (r_state eFinished r))))
  else if (remaining =? 1)%nat then mret (r_state eLast r)
  else mret r.

(** [ResolvePath] of the links on the way: the parent, the entry and the base name. *)
Definition PathResolution : Type := option Z * option Z * string.
Section Links.
Context (ResolvePath : option Z -> string -> bool -> M PathResolution).

(** [m_SymlinkDepth] is never changed from 0. *)
Definition FollowSymlink (r : Resolver) : M (Z + option Z) :=
  e ← deref (r_Entry r); d ← entry_of e; i ← deref (m_INode d); v ← get;
  match inode_ReadLink (filesystems v) i with
  | inl err => mret (inl err)
  | inr target =>
      if bool_decide (target = ""%string) then mret (inr (r_Entry r))
      else
        res ← ResolvePath (m_Parent d) target false;
        match res.1.2 with None => mret (inl ENOLINK) | Some next => mret (inr (Some next)) end
  end.
Fixpoint FollowSymlinks (fuel : nat) (r : Resolver) : M (Z + Resolver) :=
  e ← deref (r_Entry r); d ← entry_of e; link ← IsSymlink d;
  if (link : bool) then
    match fuel with
    | O => diverges
    | Datatypes.S fuel => try_ (FollowSymlink r) (fun next => FollowSymlinks fuel (r_entry next r))
    end
  else mret (inr r).

Definition trailing_slash (path : string) : bool :=
  match String.get (String.length path - 1) path with Some c => (c =? "/")%char | None => false end.
Definition Step (fuel : nat) (r : Resolver) : M (Resolver * (Z + unit)) :=
  e ← deref (r_Entry r);
  let name := seg_Name (r_Segment r) in
  c ← Lookup e name;
  let r := r_base name (r_entry c (r_parent (Some e) r)) in
  match c with
  | None => Terminate ENOENT r
  | Some c =>
      d ← entry_of c;
      if seg_IsLast (r_Segment r) then
        if trailing_slash (r_Path r) && negb (IsDirectory d) then Terminate ENOENT r
        else mret (r_state eFinished r, inr tt)
      else
        r ← enter_mount r;
        c ← deref (r_Entry r);
        d ← entry_of c;
        link ← IsSymlink d;
        followed ← (if (link : bool) then FollowSymlinks fuel r else mret (inr r));
        match followed with
        | inl _ => Terminate ENOLINK r
        | inr r =>
            c ← deref (r_Entry r);
            d ← entry_of c;
            if IsDirectory d then mret (r, inr tt) else Terminate ENOTDIR r
        end
  end.

(** The check of [eNegativeEntry]: the name must not exist. *)
Definition negative_check (r : Resolver) : M (Z + unit) :=
  if flag_set r lookup_eNegativeEntry then
    e ← deref (r_Entry r); c ← Lookup e (BaseName (r_Path r));
    mret (match c with Some _ => inl EEXIST | None => inr tt end)
  else mret (inr tt).

(** What follows the loop. *)
Definition resolved (r : Resolver) : M (Resolver * (Z + unit)) :=
  neg ← (match r_Entry r with Some _ => negative_check r | None => mret (inr tt) end);
  match neg with
  | inl e => mret (r, inl e)
  | inr _ => r ← enter_mount r; mret (r, inr tt)
  end.
Fixpoint resolve_loop (fuel : nat) (tokens : list string) (r : Resolver) : M (Resolver * (Z + unit)) :=
  match tokens with
  | [] =>
      match r_State r with
      | eTerminated =>
          v ← get; _ ← (if errno v =? no_error then set_errno ENOENT else mret tt); v ← get; mret (r_entry None r, inl (errno v))
      | _ => resolved r
      end
  | name :: rest =>
      let r := r_state eTerminated (r_segment (GetNextSegment name rest) r) in
      r ← (if stop_at_mount r then mret r else match r_Entry r with Some e => g ← FollowMounts e; mret (r_entry (Some g) r) | None => mret r end);
      match seg_Type (r_Segment r) with
      | seg_eRegular =>
          s ← Step fuel r;
          match s with
          | (r, inl e) => mret (r, inl e)
          | (r, inr _) => match r_State r with eFinished => resolved r | _ => resolve_loop fuel rest r end
          end
      | _ =>
          r ← FollowDots (length rest) r;
          match r_State r with eFinished => resolved r | _ => resolve_loop fuel rest r end
      end
  end.
Definition Resolve (fuel : nat) (flags : Z) (r : Resolver) : M (Resolver * (Z + unit)) :=
  match r_State r with
  | eInitialized =>
      let r := r_flags flags r in
      if bool_decide (r_Path r = "/"%string) then
        neg ← negative_check r;
        mret (r_state eFinished r, neg)
      else
        resolve_loop fuel (Split (if flag_set r lookup_eParent then ParentPath (r_Path r) else r_Path r)) r
  | _ => panic
  end.

(** [DirectoryEntry::FollowSymlinks], [cnt] counted down from [SYMLOOP_MAX - 1]. *)
Fixpoint entry_FollowSymlinks (cnt : nat) (e : Z) : M (option Z) :=
  d ← entry_of e; i ← deref (m_INode d); v ← get;
  match inode_ReadLink (filesystems v) i with
  | inl _ => mret (Some e)
  | inr target =>
      link ← (if bool_decide (target = ""%string) then mret false else IsSymlink d);
      if (link : bool) then
        match cnt with
        | O => _ ← set_errno ELOOP; mret None
        | Datatypes.S cnt =>
            res ← ResolvePath (m_Parent d) target true;
            match res.1.2 with
            | None => _ ← set_errno ENOENT; mret None
            | Some next => entry_FollowSymlinks cnt next
            end
        end
      else mret (Some e)
  end.
End Links.

(** [VFS::ResolvePath]; the fuel bounds the depth of links in links and each chain of links. *)
Fixpoint ResolvePath (fuel : nat) (parent : option Z) (path : string) (followLinks : bool) : M PathResolution :=
  match fuel with
  | O => diverges
  | Datatypes.S fuel =>
      parent ← (if bool_decide (parent = None) || Absolute path then root ← RootDirectoryEntry; mret (Some root) else mret parent);
      r ← Initialize parent path;
      res ← Resolve (ResolvePath fuel) fuel (lookup_eRegular .| (if followLinks then lookup_eFollowLinks else 0)) r;
      let r := res.1 in
      entry ← (match r_Entry r with
               | Some e => if followLinks then entry_FollowSymlinks (ResolvePath fuel) (SYMLOOP_MAX - 1) e else mret (Some e)
               | None => mret None
               end);
      mret (r_Parent r, entry, r_BaseName r)
  end.
(** A resolver on its own, [resolver.Resolve(flags)]. *)
Definition resolve (fuel : nat) (root : option Z) (path : string) (flags : Z) : M (Z + option Z) :=
  r ← Initialize root path;
  res ← Resolve (ResolvePath fuel) fuel flags r;
  mret (match res.2 with inl e => inl e | inr _ => inr (r_Entry res.1) end).
Definition ResolveParent (fuel : nat) (parent : option Z) (path : string) : M (Z + Z) :=
  root ← RootDirectoryEntry;
  try_ (resolve fuel (Some root) path lookup_eParent) (fun directory =>
    directory ← deref directory; d ← entry_of directory;
    g ← (if IsMountPoint d then FollowMounts directory else mret directory);
    mret (inr g)).

(** ** Creating entries *)
Definition create_inode (i : I) (name : string) (mode dev : Z) (target : string) : M (Z + I) :=
  if mode .& S_IFMT =? S_IFREG then fs_op (fun s => inode_CreateFile s i name mode)
  else if mode .& S_IFMT =? S_IFDIR then fs_op (fun s => inode_CreateDirectory s i name mode)
  else if mode .& S_IFMT =? S_IFLNK then fs_op (fun s => inode_Symlink s i name target)
  else fs_op (fun s => inode_CreateNode s i name mode dev).
Definition CreateNode (directory : Z) (name : string) (mode dev : Z) (target : string) : M (Z + Z) :=
  d ← entry_of directory;
  if negb (IsDirectory d) then mret (inl ENOTDIR)
  else
    existing ← Lookup directory name;
    match existing with
    | Some _ => mret (inl EEXIST)
    | None =>
        entry ← allocate (new_entry None name);
        match m_INode d with
        | None => mret (inl ENODEV)
        | Some i =>
            try_ (create_inode i name mode dev target) (fun j =>
              _ ← Bind entry j;
              _ ← InsertChild directory entry;
              _ ← SetParent entry (Some directory);
              mret (inr entry))
        end
    end.
Definition CreateNode_path (fuel : nat) (path : string) (mode dev : Z) : M (Z + Z) :=
  root ← RootDirectoryEntry;
  try_ (ResolveParent fuel (Some root) path) (fun directory => CreateNode directory (BaseName path) mode dev "").
Definition CreateFile (directory : Z) (name : string) (mode : Z) : M (Z + Z) := CreateNode directory name (Z.ldiff mode S_IFMT .| S_IFREG) 0 "".
Definition CreateDirectory (directory : Z) (name : string) (mode : Z) : M (Z + Z) := CreateNode directory name (Z.ldiff mode S_IFMT .| S_IFDIR) 0 "".
Definition Symlink (directory : Z) (name targetPath : string) : M (Z + Z) := CreateNode directory name (0x1ff .| S_IFLNK) 0 targetPath.
Definition in_parent (fuel : nat) (path : string) (k : Z -> string -> M (Z + Z)) : M (Z + Z) :=
  root ← RootDirectoryEntry; try_ (ResolveParent fuel (Some root) path) (fun directory => k directory (BaseName path)).
Definition CreateFile_path (fuel : nat) (path : string) (mode : Z) : M (Z + Z) := in_parent fuel path (fun d n => CreateFile d n mode).
Definition CreateDirectory_path (fuel : nat) (path : string) (mode : Z) : M (Z + Z) := in_parent fuel path (fun d n => CreateDirectory d n mode).
Definition Symlink_path (fuel : nat) (path targetPath : string) : M (Z + Z) := in_parent fuel path (fun d n => Symlink d n targetPath).

(** [Link]: the check that the new name is free looks up the old name. *)
Definition Link (oldParent : Z) (oldName : string) (newParent : Z) (newName : string) : M (Z + Z) :=
  oldEntry ← Lookup oldParent oldName;
  match oldEntry with
  | None => mret (inl ENOENT)
  | Some oldEntry =>
      o ← entry_of oldEntry;
      if IsDirectory o then mret (inl EPERM)
      else
        existing ← Lookup newParent oldName;
        match existing with
        | Some _ => mret (inl EEXIST)
        | None =>
            newEntry ← allocate (new_entry None newName);
            p ← entry_of newParent; pi ← deref (m_INode p); oi ← deref (m_INode o);
            try_ (fs_op (fun s => inode_Link s pi oi)) (fun j =>
              _ ← Bind newEntry j;
              _ ← InsertChild newParent newEntry;
              _ ← SetParent newEntry (Some newParent);
              mret (inr newEntry))
        end
  end.

(** ** Mounting *)
Definition FindFilesystemDriver (v : State) (name : string) : Z + string :=
  if bool_decide (name ∈ s_FilesystemDrivers v) then inr name else inl ENODEV.
Definition RegisterFilesystem (name : string) (linked : bool) : M (Z + unit) := fun v =>
  if linked then Ret v (inl EBUSY)
  else
    match FindFilesystemDriver v name with
    | inr _ => Ret v (inl EEXIST)
    | inl _ =>
        Ret (mkState (entries v) (next_entry v) (s_RootDirectoryEntry v) (s_MountPoints v) (s_FilesystemDrivers v ++ [name]) (filesystems v) (errno v)) (inr tt)
    end.
Definition Attach (host : Z) : M unit := fun v =>
  Ret (mkState (entries v) (next_entry v) (s_RootDirectoryEntry v) (s_MountPoints v ++ [host]) (s_FilesystemDrivers v) (filesystems v) (errno v)) tt.

Definition Mount (fuel : nat) (parent : option Z) (sourcePath target fsName : string) : M (Z + Z) :=
  v ← get;
  match FindFilesystemDriver v fsName with
  | inl e => mret (inl e)
  | inr _ =>
      if bool_decide (target = ""%string) then mret (inl EINVAL)
      else
        try_ (resolve fuel parent target (lookup_eRegular .| lookup_eMountPoint)) (fun targetEntry =>
          root ← RootDirectoryEntry;
          targetEntry ← deref targetEntry;
          d ← entry_of targetEntry;
          v ← get;
          if negb (targetEntry =? root) && negb (IsDirectory d) then mret (inl ENOTDIR)
          else if IsMountPoint d || bool_decide (is_Some (MountPoint_Lookup v targetEntry)) then mret (inl EBUSY)
          else
            try_ (fs_op (fun s => filesystem_Mount s fsName sourcePath)) (fun fsRoot =>
              match fsRoot with
              | None => mret (inl ENODEV)
              | Some i =>
                  g ← allocate (new_entry None "/");
                  _ ← Bind g i;
                  _ ← SetParent g (Some targetEntry);
                  _ ← SetMountGate targetEntry g;
                  _ ← Attach targetEntry;
                  mret (inr targetEntry)
              end))
  end.
Definition MountRoot (fuel : nat) (filesystemName : string) : M (Z + Z) :=
  v ← get;
  match s_RootDirectoryEntry v with
  | Some _ => mret (inl EEXIST)
  | None =>
      root ← allocate (new_entry None "/");
      _ ← (fun v => Ret (mkState (entries v) (next_entry v) (Some root) (s_MountPoints v) (s_FilesystemDrivers v) (filesystems v) (errno v)) tt);
      Mount fuel None "" "/" filesystemName
  end.

(** ** Opening *)
Definition permission_bits : Z := 0xfff.
(** [umask] is that of the current process; permissions are always granted. *)
Definition OpenDirectoryEntry (fuel : nat) (umask : Z) (parent : option Z) (path : string) (flags mode : Z) : M (Z + Z) :=
  let acc := flags .& O_ACCMODE in
  let mode := Z.ldiff mode permission_bits in
  if truthy (flags .& O_TMPFILE) then
    mret (inl (if negb (truthy (flags .& O_DIRECTORY)) then EINVAL
               else if negb (acc =? O_WRONLY) && negb (acc =? O_RDWR) then EINVAL else ENOSYS))
  else if truthy (flags .& O_PATH) && truthy (Z.ldiff flags (O_DIRECTORY .| O_NOFOLLOW .| O_PATH .| O_CLOEXEC)) then mret (inl EINVAL)
  else
    try_ (resolve fuel parent path lookup_eParent) (fun directory =>
      res ← ResolvePath fuel parent path (negb (truthy (flags .& O_NOFOLLOW)));
      v ← get;
      try_
        (match res.1.2 with
         | None =>
             if negb (errno v =? ENOENT) || negb (truthy (flags .& O_CREAT)) then mret (inl ENOENT)
             else directory ← deref directory; CreateFile directory (BaseName path) (Z.ldiff mode umask)
         | Some dentry => mret (if truthy (flags .& O_EXCL) then inl EEXIST else inr dentry)
         end)
        (fun dentry =>
           dentry ← FollowMounts dentry;
           dentry ← entry_FollowSymlinks (ResolvePath fuel) (SYMLOOP_MAX - 1) dentry;
           dentry ← deref dentry;
           d ← entry_of dentry;
           link ← IsSymlink d;
           mret (if (link : bool) then inl ELOOP
                 else if truthy (flags .& O_DIRECTORY) && negb (IsDirectory d) then inl ENOTDIR
                 else if IsDirectory d && (truthy (acc .& O_WRONLY) || truthy (acc .& O_RDWR)) then inl EISDIR
                 else inr dentry))).
(** The entry opened and the access mode of its descriptor. *)
Definition Open (fuel : nat) (umask : Z) (parent : option Z) (path : string) (flags mode : Z) : M (Z + Z * Z) :=
  try_ (OpenDirectoryEntry fuel umask parent path flags mode) (fun dentry =>
    let acc := flags .& O_ACCMODE in
    mret (if acc =? 0 then inr (dentry, 1) else if acc =? O_WRONLY then inr (dentry, 2) else if acc =? O_RDWR then inr (dentry, 3) else inl EINVAL)).

(** ** The path of an entry *)
Fixpoint path_loop (fuel : nat) (root : Z) (current : option Z) (built : string) : M string :=
  match current with
  | None => mret built
  | Some e =>
      if e =? root then mret built
      else
        match fuel with
        | O => diverges
        | Datatypes.S fuel =>
            d ← entry_of e;
            p ← GetEffectiveParent e;
            path_loop fuel root p (if bool_decide (m_Name d = "/"%string) then built else ("/" +:+ m_Name d +:+ built)%string)
        end
  end.
Definition Path (fuel : nat) (e : Z) : M string :=
  root ← RootDirectoryEntry;
  built ← path_loop fuel root (Some e) "";
  mret (if bool_decide (built = ""%string) then "/"%string else built).
End VFS.
Arguments State : clear implicits.
Arguments DirectoryEntry : clear implicits.
Arguments M : clear implicits.
End VFS.
