(* ===== verification/VFSProofs.v ===== *)
(** * The virtual file system: the directory cache

    The cache of directory entries agrees with the file systems below and with what is mounted on
    them; looking up a name keeps that, and resolving a path through the cache is walking the inodes
    of the tree the mounts make of the file systems. *)

From Stdlib Require Import ZArith Lia Bool.
From stdpp Require Import base gmap list numbers strings.
From S2P Require Import Prelude Effects Posix VFS.

Import VFS.

Section Cache.
Context {Paths : PathOps} {S I : Type} {FS : FsOps S I}.
Notation State := (State S I).
Implicit Types (v : State) (e : Z) (d : DirectoryEntry I) (i j : I).

Lemma entry_ret {B} e d (k : DirectoryEntry I -> M State B) v : entries v !! e = Some d -> (entry_of e ≫= k) v = k d v.
Proof. intros H. apply bind_ret. unfold entry_of. rewrite get_ret. now rewrite H. Qed.

(** ** What the cache says *)
(** A cached child agrees with the file system. *)
Definition child_ok v root e i (name : string) (c : Z) : Prop := c <> root /\
  exists dc j, entries v !! c = Some dc /\ m_Name dc = name /\ m_Parent dc = Some e /\ m_INode dc = Some j /\ inode_Lookup (filesystems v) i name = inr j.
(** An entry that nothing is mounted on has the type of its inode; one that a file system is mounted on
    says so and leads to the entry of the root of that file system. *)
Definition gate_ok v root e d i : Prop :=
  match m_MountGate d with
  | None => m_Flags d = type_flags (inode_Mode (filesystems v) i)
  | Some g => IsMountPoint d = true /\ g <> root /\
      exists dg k, entries v !! g = Some dg /\ m_MountGate dg = None /\ m_Parent dg = Some e /\ m_INode dg = Some k
  end.
Definition entry_ok v root e d : Prop := e < next_entry v /\
  forall i, m_INode d = Some i -> gate_ok v root e d i /\ forall name c, m_Children d !! name = Some c -> child_ok v root e i name c.
(** The root of the tree is the one the file system root leads to. *)
Record cache v (root : Z) (ri : I) : Prop := {
  cache_entry e d : entries v !! e = Some d -> entry_ok v root e d;
  cache_root : exists d, entries v !! root = Some d /\ m_INode d = Some ri /\ m_MountGate d = None;
  cache_host : RootDirectoryEntry v = Ret v root
}.
(** Where an entry leads: through the mount on it. *)
Definition landing (e : Z) d : Z := default e (m_MountGate d).

(** ** Positions *)
(** A place in the tree: the names from there up to the root, with their inodes. *)
Definition Position : Type := list (string * I).
Definition here (ri : I) (pos : Position) : I := match pos with (_, i) :: _ => i | [] => ri end.
(** The entry at a place. *)
Inductive at_path v (root : Z) (ri : I) : Z -> Position -> Prop :=
  | at_root : at_path v root ri root []
  | at_child p dp pos name c dc d i : at_path v root ri p pos -> entries v !! p = Some dp -> m_Children dp !! name = Some c -> entries v !! c = Some dc ->
      entries v !! landing c dc = Some d -> m_INode d = Some i -> at_path v root ri (landing c dc) ((name, i) :: pos).

(** The same as functions of the cache: the entry cached under names, and the inode of the file
    system mounted there. *)
Fixpoint entry_at v (root : Z) (names : list string) : option Z :=
  match names with
  | [] => Some root
  | name :: up =>
      c ← (p ← entry_at v root up; dp ← entries v !! p; m_Children dp !! name);
      dc ← entries v !! c; Some (landing c dc)
  end.
Definition child_at v (root : Z) (names : list string) : option Z :=
  match names with [] => None | name :: up => p ← entry_at v root up; dp ← entries v !! p; m_Children dp !! name end.
Definition mounted v (root : Z) (names : list string) : option I :=
  c ← child_at v root names; dc ← entries v !! c; g ← m_MountGate dc; dg ← entries v !! g; m_INode dg.

Lemma entry_at_cons v root name up : entry_at v root (name :: up) = (c ← child_at v root (name :: up); dc ← entries v !! c; Some (landing c dc)).
Proof. reflexivity. Qed.
Lemma at_path_entry_at v root ri e pos : at_path v root ri e pos -> entry_at v root pos.*1 = Some e.
Proof. induction 1 as [|p dp pos name c dc d i _ IH Hp Hch Hc]; [reflexivity|]. cbn. rewrite IH. cbn. rewrite Hp. cbn. rewrite Hch. cbn. now rewrite Hc. Qed.
(** One entry at each place. *)
Lemma at_path_unique v root ri e e' pos : at_path v root ri e pos -> at_path v root ri e' pos -> e = e'.
Proof. intros H1%at_path_entry_at H2%at_path_entry_at. congruence. Qed.

(** An entry that is reached is bound, and nothing is mounted on it. *)
Lemma landing_plain v root ri c dc j : cache v root ri -> entries v !! c = Some dc -> m_INode dc = Some j ->
  exists d k, entries v !! landing c dc = Some d /\ m_INode d = Some k /\ m_MountGate d = None.
Proof.
  intros Hc Hcc Hj. destruct (cache_entry _ _ _ Hc c dc Hcc) as [_ Hok]. destruct (Hok j Hj) as [Hg _]. unfold gate_ok in Hg. unfold landing.
  destruct (m_MountGate dc) as [g|] eqn:Eg; cbn [default]; [|eauto]. destruct Hg as (_ & _ & dg & k & H1 & H2 & _ & H4). eauto.
Qed.
Lemma at_path_plain v root ri e pos : cache v root ri -> at_path v root ri e pos ->
  exists d, entries v !! e = Some d /\ m_INode d = Some (here ri pos) /\ m_MountGate d = None.
Proof.
  intros Hc Hat. destruct Hat as [|p dp pos name c dc d i Hat Hp Hch Hcc Hd Hi]; [exact (cache_root _ _ _ Hc)|]. exists d. cbn [here].
  split_and!; trivial. assert (Hpi : exists k, m_INode dp = Some k).
  { destruct Hat as [|p0 dp0 pos0 n0 c0 dc0 d0 i0 _ _ _ _ Hd0 Hi0]; [destruct (cache_root _ _ _ Hc) as (dr & Hr & Hri & _); exists ri|exists i0]; congruence. }
  destruct Hpi as [k Hk]. destruct (cache_entry _ _ _ Hc p dp Hp) as [_ Hok]. destruct (Hok k Hk) as [_ Hco]. destruct (Hco name c Hch) as (_ & dc' & j & Hdc & _ & _ & Hj & _).
  assert (dc' = dc) as -> by congruence. destruct (landing_plain v root ri c dc j Hc Hcc Hj) as (d' & k' & Hd' & _ & Hg). congruence.
Qed.
(** The child of an entry in the tree. *)
Lemma child_known v root ri e pos d name c : cache v root ri -> at_path v root ri e pos -> entries v !! e = Some d -> m_Children d !! name = Some c ->
  child_ok v root e (here ri pos) name c.
Proof.
  intros Hc Hat He Hch. destruct (at_path_plain v root ri e pos Hc Hat) as (d' & Hd' & Hi & _). assert (d' = d) as -> by congruence.
  destruct (cache_entry _ _ _ Hc e d He) as [_ Hok]. now apply (Hok _ Hi).
Qed.
Lemma entry_at_path v root ri names : cache v root ri -> forall e, entry_at v root names = Some e -> exists pos, pos.*1 = names /\ at_path v root ri e pos.
Proof.
  intros Hc. induction names as [|name up IH]; intros e; [intros [= <-]; exists []; split; [reflexivity|constructor]|].
  cbn [entry_at]. destruct (entry_at v root up) as [p|]; [|discriminate]. destruct (IH p eq_refl) as (pos & <- & Hat). cbn.
  destruct (at_path_plain v root ri p pos Hc Hat) as (dp & Hp & _ & _). rewrite Hp. cbn. destruct (m_Children dp !! name) as [c|] eqn:Hch; [|discriminate]. cbn.
  destruct (child_known v root ri p pos dp name c Hc Hat Hp Hch) as (_ & dc & j & Hcc & _ & _ & Hj & _). rewrite Hcc. cbn. intros [= <-].
  destruct (landing_plain v root ri c dc j Hc Hcc Hj) as (d & k & Hd & Hk & _). exists ((name, k) :: pos). split; [reflexivity|]. now apply (at_child _ _ _ p dp pos name c dc d).
Qed.
(** What is at the place of a child. *)
Lemma child_position v root ri e pos d name c dc j : cache v root ri -> at_path v root ri e pos -> entries v !! e = Some d -> m_Children d !! name = Some c ->
  entries v !! c = Some dc -> m_INode dc = Some j -> at_path v root ri (landing c dc) ((name, default j (mounted v root (name :: pos.*1))) :: pos).
Proof.
  intros Hc Hat He Hch Hcc Hj. destruct (landing_plain v root ri c dc j Hc Hcc Hj) as (dx & k & Hx & Hk & _).
  apply (at_child _ _ _ e d pos name c dc dx); trivial. rewrite Hk. f_equal. unfold mounted. cbn. rewrite (at_path_entry_at _ _ _ _ _ Hat). cbn. rewrite He. cbn. rewrite Hch. cbn.
  rewrite Hcc. cbn. unfold landing in Hx. destruct (m_MountGate dc) as [g|]; cbn in *; [now rewrite Hx; cbn; rewrite Hk|congruence].
Qed.

(** ** Later states *)
(** Entries stay and keep all but their children, which they only gain. *)
Definition entry_le d d' : Prop :=
  m_INode d' = m_INode d /\ m_Parent d' = m_Parent d /\ m_MountGate d' = m_MountGate d /\ m_Name d' = m_Name d /\ m_Flags d' = m_Flags d /\ m_Children d ⊆ m_Children d'.
Definition entries_le v v' : Prop := forall e d, entries v !! e = Some d -> exists d', entries v' !! e = Some d' /\ entry_le d d'.
(** Resolving a path changes no file system and mounts nothing; it binds entries to inodes that
    lookups give. *)
Record later (root : Z) v v' : Prop := {
  later_fs : filesystems v' = filesystems v;
  later_entries : entries_le v v';
  later_mounted names : mounted v' root names = mounted v root names;
  later_inodes (P : I -> Prop) : (forall i name j, P i -> inode_Lookup (filesystems v) i name = inr j -> P j) ->
    (forall e d i, entries v !! e = Some d -> m_INode d = Some i -> P i) -> forall e d i, entries v' !! e = Some d -> m_INode d = Some i -> P i
}.
Lemma entry_le_refl d : entry_le d d.
Proof. unfold entry_le. split_and!; reflexivity. Qed.
Lemma later_refl root v : later root v v.
Proof. split; trivial. intros e d H. exists d. split; [exact H|apply entry_le_refl]. Qed.
Lemma later_trans root v1 v2 v3 : later root v1 v2 -> later root v2 v3 -> later root v1 v3.
Proof.
  intros [F1 H1 M1 N1] [F2 H2 M2 N2]. split; [congruence| |intros names; now rewrite M2, M1|].
  - intros e d He. destruct (H1 e d He) as (d' & He' & A1 & A2 & A3 & A4 & A5 & A6). destruct (H2 e d' He') as (d'' & He'' & B1 & B2 & B3 & B4 & B5 & B6).
    exists d''. split; [exact He''|]. unfold entry_le. split_and!; try congruence. now transitivity (m_Children d').
  - intros P Hcl HP. apply (N2 P); [now rewrite F1|]. now apply (N1 P).
Qed.
Lemma at_path_le v v' root ri e pos : entries_le v v' -> at_path v root ri e pos -> at_path v' root ri e pos.
Proof.
  intros H. induction 1 as [|p dp pos name c dc d i _ IH Hp Hch Hc Hd Hi]; [constructor|].
  destruct (H p dp Hp) as (dp' & Hp' & _ & _ & _ & _ & _ & Ech), (H c dc Hc) as (dc' & Hc' & _ & _ & Eg & _), (H _ d Hd) as (d' & Hd' & Ei & _).
  assert (El : landing c dc = landing c dc') by (unfold landing; now rewrite Eg). rewrite El in Hd' |- *.
  apply (at_child _ _ _ p dp' pos name c dc' d'); trivial; [|congruence]. now apply (lookup_weaken _ _ _ _ Hch).
Qed.

(** ** Mounts *)
Lemma FollowMounts_landing v root ri e d i : cache v root ri -> entries v !! e = Some d -> m_INode d = Some i -> FollowMounts e v = Ret v (landing e d).
Proof.
  intros Hc He Hi. destruct (landing_plain v root ri e d i Hc He Hi) as (dx & k & Hx & _ & Gx). unfold FollowMounts. rewrite get_ret. unfold landing in *.
  destruct (size (entries v)) as [|n] eqn:En; [apply map_size_empty_inv in En; rewrite En, lookup_empty in He; discriminate|]. cbn [follow_gates]. rewrite (entry_ret e d) by trivial.
  destruct (m_MountGate d) as [g|]; cbn [default] in *; [|reflexivity]. destruct n; cbn [follow_gates]; rewrite (entry_ret g dx) by trivial; rewrite Gx; reflexivity.
Qed.
Lemma FollowMounts_plain v root ri e d i : cache v root ri -> entries v !! e = Some d -> m_INode d = Some i -> m_MountGate d = None -> FollowMounts e v = Ret v e.
Proof. intros Hc He Hi Hg. rewrite (FollowMounts_landing v root ri e d i) by trivial. unfold landing. now rewrite Hg. Qed.
(** The mount point found is the one the entry is the host of, so its host adds nothing. *)
Lemma effective_parent v root rootEntry e d : RootDirectoryEntry v = Ret v root -> FollowMounts root v = Ret v rootEntry -> entries v !! e = Some d ->
  GetEffectiveParent e v = Ret v (if (e =? rootEntry) || (e =? root) then Some e else m_Parent d).
Proof.
  intros Hr Hf He. unfold GetEffectiveParent. rewrite (bind_ret _ _ _ _ _ Hr), (bind_ret _ _ _ _ _ Hf), (entry_ret e d), get_ret by trivial.
  destruct (_ || _); [reflexivity|]. destruct (MountPoint_Lookup v e) as [h|] eqn:E; [|reflexivity].
  apply List.find_some in E as [_ ->%Z.eqb_eq]. now rewrite (entry_ret e d) by trivial.
Qed.
Lemma GetEffectiveParent_spec v root ri e d : cache v root ri -> entries v !! e = Some d -> GetEffectiveParent e v = Ret v (if e =? root then Some e else m_Parent d).
Proof.
  intros Hc He. destruct (cache_root _ _ _ Hc) as (rd & Hd & Hi & Hg).
  rewrite (effective_parent v root root e d (cache_host _ _ _ Hc) (FollowMounts_plain v root ri root rd ri Hc Hd Hi Hg) He). now destruct (e =? root).
Qed.
Lemma GetEffectiveParent_child v root ri e d p : cache v root ri -> entries v !! e = Some d -> e <> root -> m_Parent d = Some p ->
  GetEffectiveParent e v = Ret v (Some p).
Proof. intros Hc He Hne Hp. rewrite (GetEffectiveParent_spec v root ri e d) by trivial. now rewrite (proj2 (Z.eqb_neq e root) Hne), Hp. Qed.

(** ** A new entry *)
(** An entry for the inode [j] under a name that was not cached. *)
Definition fresh_entry (name : string) e (s' : S) j : DirectoryEntry I := mkEntry name (0 .| type_flags (inode_Mode s' j)) (Some j) false 0 (Some e) None ∅.
Record fresh_child v e d (name : string) (s' : S) j v' : Prop := {
  fresh_entries x : entries v' !! x = if decide (x = next_entry v) then Some (fresh_entry name e s' j)
    else if decide (x = e) then Some (with_children (<[name := next_entry v]> (m_Children d)) d) else entries v !! x;
  fresh_next : next_entry v' = next_entry v + 1;
  fresh_root : s_RootDirectoryEntry v' = s_RootDirectoryEntry v;
  fresh_fs : filesystems v' = s'
}.
Lemma follow_gates_le v v' : entries_le v v' -> forall fuel fuel' e r, (fuel <= fuel')%nat -> follow_gates fuel e v = Ret v r -> follow_gates fuel' e v' = Ret v' r.
Proof.
  intros H. induction fuel as [|fuel IH]; intros fuel' e r Hle; destruct fuel' as [|fuel']; try lia; cbn [follow_gates];
    (destruct (entries v !! e) as [d|] eqn:He; [|unfold entry_of, mbind, M_bind; cbn; rewrite He; discriminate]); rewrite (entry_ret e d) by trivial;
    destruct (H e d He) as (d' & He' & _ & _ & Eg & _); rewrite (entry_ret e d') by trivial; rewrite Eg; destruct (m_MountGate d) as [g|]; try discriminate.
  all: try (intros [= <-]; reflexivity). apply IH. lia.
Qed.
Lemma entries_le_size v v' : entries_le v v' -> (size (entries v) <= size (entries v'))%nat.
Proof.
  intros H. rewrite <- !(size_dom (D := gset Z)). apply subseteq_size. intros e [d He]%elem_of_dom.
  destruct (H e d He) as (d' & He' & _). apply elem_of_dom. eauto.
Qed.
Lemma RootDirectoryEntry_same v v' root : entries_le v v' -> s_RootDirectoryEntry v' = s_RootDirectoryEntry v ->
  RootDirectoryEntry v = Ret v root -> RootDirectoryEntry v' = Ret v' root.
Proof.
  intros Hle Hr. pose proof (entries_le_size v v' Hle). unfold RootDirectoryEntry. rewrite !get_ret, Hr. destruct (s_RootDirectoryEntry v) as [h|]; [|discriminate].
  rewrite !deref_ret. unfold FollowMounts. rewrite !get_ret. now apply follow_gates_le.
Qed.


Section Fresh.
Context v (root : Z) (ri : I) e d (name : string) (s' : S) j v'.
Hypothesis Hc : cache v root ri.
Hypothesis He : entries v !! e = Some d.
Hypothesis Hno : m_Children d !! name = None.
Hypothesis Hfresh : fresh_child v e d name s' j v'.

Lemma known_below x dx : entries v !! x = Some dx -> x < next_entry v.
Proof. intros H. now apply (cache_entry _ _ _ Hc x dx). Qed.
Lemma fresh_itself : entries v' !! next_entry v = Some (fresh_entry name e s' j).
Proof. rewrite (fresh_entries _ _ _ _ _ _ _ Hfresh). now destruct (decide _). Qed.
Lemma fresh_parent : entries v' !! e = Some (with_children (<[name := next_entry v]> (m_Children d)) d).
Proof. pose proof (known_below e d He). rewrite (fresh_entries _ _ _ _ _ _ _ Hfresh). destruct (decide _); [lia|]. now destruct (decide _). Qed.
Lemma fresh_other x dx : entries v !! x = Some dx -> x <> e -> entries v' !! x = Some dx.
Proof. intros H Hne. pose proof (known_below x dx H). rewrite (fresh_entries _ _ _ _ _ _ _ Hfresh). destruct (decide _); [lia|]. now destruct (decide _). Qed.
Lemma fresh_le : entries_le v v'.
Proof.
  intros x dx H. destruct (decide (x = e)) as [->|Hne]; [|exists dx; split; [now apply fresh_other|apply entry_le_refl]].
  assert (dx = d) as -> by congruence. eexists. split; [exact fresh_parent|]. unfold entry_le. split_and!; try reflexivity. cbn. now apply insert_subseteq.
Qed.
(** Every entry of the new state. *)
Lemma fresh_cases x dx : entries v' !! x = Some dx -> x = next_entry v /\ dx = fresh_entry name e s' j \/
  x <> next_entry v /\ exists dx0, entries v !! x = Some dx0 /\ entry_le dx0 dx /\ forall n c, m_Children dx !! n = Some c -> x = e /\ n = name /\ c = next_entry v \/ m_Children dx0 !! n = Some c.
Proof.
  rewrite (fresh_entries _ _ _ _ _ _ _ Hfresh). destruct (decide (x = next_entry v)) as [->|Hn]; [intros [= <-]; now left|]. intros H. right. split; [exact Hn|].
  destruct (decide (x = e)) as [->|Hne]; [|exists dx; split_and!; [exact H|apply entry_le_refl|auto]]. injection H as <-. exists d. split_and!; [exact He| |].
  - unfold entry_le. split_and!; try reflexivity. cbn. now apply insert_subseteq.
  - cbn. intros n c Hch. destruct (decide (n = name)) as [->|Hnn]; [rewrite lookup_insert_eq in Hch; injection Hch as <-; now left|right; now rewrite lookup_insert_ne in Hch by congruence].
Qed.

(** Nothing else in the tree moves. *)
Lemma fresh_child_at name' up : entry_at v' root up = entry_at v root up \/ entry_at v' root up = Some (next_entry v) /\ entry_at v root up = None ->
  child_at v' root (name' :: up) = child_at v root (name' :: up) \/ child_at v' root (name' :: up) = Some (next_entry v) /\ child_at v root (name' :: up) = None.
Proof.
  cbn [child_at]. intros [->|[-> ->]]; cbn.
  - destruct (entry_at v root up) as [p|] eqn:Ep; [|now left]. destruct (entry_at_path v root ri up Hc p Ep) as (pos & _ & Hat).
    destruct (at_path_plain v root ri p pos Hc Hat) as (dp & Hp & _ & _). cbn. rewrite Hp. cbn. destruct (decide (p = e)) as [->|Hne].
    + rewrite fresh_parent. cbn. assert (dp = d) as -> by congruence. destruct (decide (name' = name)) as [->|Hn]; [rewrite lookup_insert_eq; now right|rewrite lookup_insert_ne by congruence; now left].
    + rewrite (fresh_other p dp Hp Hne). now left.
  - rewrite fresh_itself. cbn. rewrite lookup_empty. now left.
Qed.
Lemma fresh_entry_at names : entry_at v' root names = entry_at v root names \/ entry_at v' root names = Some (next_entry v) /\ entry_at v root names = None.
Proof.
  induction names as [|n up IH]; [now left|]. rewrite !entry_at_cons. destruct (fresh_child_at n up IH) as [->|[-> ->]]; cbn [mbind option_bind].
  - destruct (child_at v root (n :: up)) as [c|] eqn:Ec; [|now left]. cbn in Ec |- *. destruct (entry_at v root up) as [p|] eqn:Ep; [|discriminate].
    destruct (entry_at_path v root ri up Hc p Ep) as (pos & _ & Hat). destruct (at_path_plain v root ri p pos Hc Hat) as (dp & Hp & _ & _). cbn in Ec. rewrite Hp in Ec. cbn in Ec.
    destruct (child_known v root ri p pos dp n c Hc Hat Hp Ec) as (_ & dc & k & Hdc & _). destruct (fresh_le c dc Hdc) as (dc' & Hdc' & _ & _ & Eg & _). rewrite Hdc, Hdc'. cbn. unfold landing. rewrite Eg. now left.
  - rewrite fresh_itself. now right.
Qed.
Lemma fresh_mounted names : mounted v' root names = mounted v root names.
Proof.
  unfold mounted. destruct names as [|n up]; [reflexivity|]. destruct (fresh_child_at n up (fresh_entry_at up)) as [->|[-> ->]]; cbn [mbind option_bind]; [|now rewrite fresh_itself].
  destruct (child_at v root (n :: up)) as [c|] eqn:Ec; [|reflexivity]. cbn in Ec |- *. destruct (entry_at v root up) as [p|] eqn:Ep; [|discriminate].
  destruct (entry_at_path v root ri up Hc p Ep) as (pos & _ & Hat). destruct (at_path_plain v root ri p pos Hc Hat) as (dp & Hp & _ & _). cbn in Ec. rewrite Hp in Ec. cbn in Ec.
  destruct (child_known v root ri p pos dp n c Hc Hat Hp Ec) as (_ & dc & k & Hdc & _ & _ & Hk & _). destruct (fresh_le c dc Hdc) as (dc' & Hdc' & _ & _ & Eg & _). rewrite Hdc, Hdc'. cbn. rewrite Eg.
  destruct (m_MountGate dc) as [g|] eqn:Hg; [|reflexivity]. cbn. destruct (cache_entry _ _ _ Hc c dc Hdc) as [_ Hok]. destruct (Hok k Hk) as [Hgate _]. unfold gate_ok in Hgate. rewrite Hg in Hgate.
  destruct Hgate as (_ & _ & dg & m & Hdg & _). destruct (fresh_le g dg Hdg) as (dg' & Hdg' & Ei & _). rewrite Hdg, Hdg'. cbn. congruence.
Qed.

(** The cache stays right if the file systems still have what it holds. *)
Lemma fresh_cache i : m_INode d = Some i -> inode_Lookup s' i name = inr j ->
  (forall x dx k, entries v !! x = Some dx -> m_INode dx = Some k -> inode_Mode s' k = inode_Mode (filesystems v) k /\
    forall n k', inode_Lookup (filesystems v) k n = inr k' -> inode_Lookup s' k n = inr k') -> cache v' root ri.
Proof.
  intros Hi Hj Hkeep. destruct (cache_root _ _ _ Hc) as (rd & Hrd & Hri & Hrg). pose proof (known_below _ _ Hrd) as Hroot. pose proof (known_below _ _ He) as Hec. split.
  - intros x dx Hx. unfold entry_ok. rewrite (fresh_next _ _ _ _ _ _ _ Hfresh). destruct (fresh_cases x dx Hx) as [[-> ->]|(Hn & dx0 & Hx0 & (E1 & E2 & E3 & E4 & E5 & _) & Hch)].
    + split; [lia|]. intros k [= <-]. unfold gate_ok. cbn. rewrite (fresh_fs _ _ _ _ _ _ _ Hfresh). split; [reflexivity|]. intros n c H. now rewrite lookup_empty in H.
    + destruct (cache_entry _ _ _ Hc x dx0 Hx0) as [Hlt Hok]. split; [lia|]. intros k Hk. rewrite E1 in Hk. destruct (Hok k Hk) as [Hg Hco]. destruct (Hkeep x dx0 k Hx0 Hk) as [Hmode Hlook]. split.
      * unfold gate_ok, IsMountPoint, has_flag in *. rewrite E3, E5, (fresh_fs _ _ _ _ _ _ _ Hfresh), Hmode. destruct (m_MountGate dx0) as [g|]; [|exact Hg].
        destruct Hg as (G1 & G2 & dg & m & G3 & G4 & G5 & G6). split_and!; trivial. destruct (fresh_le g dg G3) as (dg' & Hdg' & F1 & F2 & F3 & _). exists dg', m. split_and!; congruence.
      * intros n c H. unfold child_ok. rewrite (fresh_fs _ _ _ _ _ _ _ Hfresh). destruct (Hch n c H) as [(-> & -> & ->)|H0].
        -- split; [lia|]. exists (fresh_entry name e s' j), j. split_and!; trivial; [exact fresh_itself|]. assert (dx0 = d) as -> by congruence. congruence.
        -- destruct (Hco n c H0) as (C1 & dc & jc & C2 & C3 & C4 & C5 & C6). split; [exact C1|]. destruct (fresh_le c dc C2) as (dc' & Hdc' & F1 & F2 & _ & F4 & _). exists dc', jc. split_and!; try congruence. now apply Hlook.
  - destruct (fresh_le root rd Hrd) as (rd' & Hrd' & E1 & _ & E3 & _). exists rd'. split_and!; congruence.
  - apply (RootDirectoryEntry_same v); [exact fresh_le|apply Hfresh|apply Hc].
Qed.
End Fresh.

(** ** Looking up a name *)
Definition insert_child_state v e d (name : string) (j : I) : State :=
  let c := next_entry v in
  let dc := mkEntry name (0 .| type_flags (inode_Mode (filesystems v) j)) (Some j) false 0 (Some e) None ∅ in
  mkState (<[e := with_children (<[name := c]> (m_Children d)) d]> (<[c := dc]> (<[c := mkEntry name (0 .| type_flags (inode_Mode (filesystems v) j)) (Some j) false 0 None None ∅]>
    (<[c := new_entry None name]> (entries v))))) (c + 1) (s_RootDirectoryEntry v) (s_MountPoints v) (s_FilesystemDrivers v) (filesystems v) (errno v).

Lemma Lookup_miss v e d i name j : entries v !! e = Some d -> e < next_entry v -> m_INode d = Some i -> m_Children d !! name = None ->
  inode_Lookup (filesystems v) i name = inr j -> Lookup e name v = Ret (insert_child_state v e d name j) (Some (next_entry v)).
Proof.
  intros He Hlt Hi Hch Hj. unfold Lookup. rewrite (entry_ret e d) by trivial. rewrite Hch, Hi, get_ret, Hj.
  set (c := next_entry v). set (v1 := mkState (<[c := new_entry None name]> (entries v)) (c + 1) (s_RootDirectoryEntry v) (s_MountPoints v) (s_FilesystemDrivers v) (filesystems v) (errno v)).
  rewrite (bind_ret (allocate (new_entry None name)) _ v v1 c) by reflexivity.
  assert (H1 : entries v1 !! c = Some (new_entry None name)) by apply lookup_insert_eq.
  unfold Bind at 1. unfold modify, SetParent, InsertChild, modify.
  set (d1 := mkEntry name (0 .| type_flags (inode_Mode (filesystems v) j)) (Some j) false 0 None None ∅).
  set (v2 := mkState (<[c := d1]> (entries v1)) (c + 1) (s_RootDirectoryEntry v) (s_MountPoints v) (s_FilesystemDrivers v) (filesystems v) (errno v)).
  rewrite (bind_ret _ _ v1 v2 tt); [|rewrite get_ret, (entry_ret c (new_entry None name)) by trivial; reflexivity].
  assert (H2 : entries v2 !! c = Some d1) by apply lookup_insert_eq.
  set (d2 := mkEntry name (0 .| type_flags (inode_Mode (filesystems v) j)) (Some j) false 0 (Some e) None ∅).
  set (v3 := mkState (<[c := d2]> (entries v2)) (c + 1) (s_RootDirectoryEntry v) (s_MountPoints v) (s_FilesystemDrivers v) (filesystems v) (errno v)).
  rewrite (bind_ret _ _ v2 v3 tt); [|rewrite (entry_ret c d1) by trivial; reflexivity].
  assert (H3 : entries v3 !! c = Some d2) by apply lookup_insert_eq.
  assert (H4 : entries v3 !! e = Some d) by (cbn; rewrite !lookup_insert_ne by (unfold c; lia); exact He).
  rewrite (bind_ret _ _ v3 (insert_child_state v e d name j) tt); [reflexivity|].
  rewrite (entry_ret c d2) by trivial. rewrite (entry_ret e d) by trivial. rewrite get_ret. unfold put_entries, insert_child_state. cbn. reflexivity.
Qed.


Lemma insert_child_fresh v e d name j : e < next_entry v -> fresh_child v e d name (filesystems v) j (insert_child_state v e d name j).
Proof.
  intros Hlt. split; [|reflexivity..]. intros x. cbn. destruct (decide (x = next_entry v)) as [->|Hc]; [rewrite lookup_insert_ne by lia; apply lookup_insert_eq|].
  destruct (decide (x = e)) as [->|Hne]; [apply lookup_insert_eq|]. now rewrite !lookup_insert_ne by congruence.
Qed.
(** Looking up a name in a directory of the tree finds the entry of the inode the file system
    has under that name, and nothing else; the cache stays right. *)
Lemma Lookup_spec v root ri e d i name : cache v root ri -> entries v !! e = Some d -> m_INode d = Some i ->
  match inode_Lookup (filesystems v) i name with
  | inl _ => Lookup e name v = Ret v None
  | inr j => exists v' c d' dc, Lookup e name v = Ret v' (Some c) /\ cache v' root ri /\ later root v v' /\
      entries v' !! e = Some d' /\ m_Children d' !! name = Some c /\ entries v' !! c = Some dc /\ m_INode dc = Some j
  end.
Proof.
  intros Hc He Hi. destruct (cache_entry _ _ _ Hc e d He) as [Hlt Hok]. destruct (Hok i Hi) as [_ Hch].
  destruct (m_Children d !! name) as [c|] eqn:Em.
  - destruct (Hch name c Em) as (_ & dc & j & Hdc & _ & _ & Hj & ->). exists v, c, d, dc. split_and!; trivial; [|apply later_refl].
    unfold Lookup. rewrite (entry_ret e d) by trivial. now rewrite Em.
  - destruct (inode_Lookup (filesystems v) i name) as [err|j] eqn:El; [unfold Lookup; rewrite (entry_ret e d) by trivial; now rewrite Em, Hi, get_ret, El|].
    pose proof (insert_child_fresh v e d name j Hlt) as Hf. pose proof (fresh_cache v root ri e d name (filesystems v) j _ Hc He Em Hf i Hi El ltac:(auto)) as Hc'.
    eexists _, _, _, _. split; [exact (Lookup_miss v e d i name j He Hlt Hi Em El)|]. split_and!; [exact Hc'| |exact (fresh_parent v root ri e d name _ j _ Hc He Hf)|cbn; apply lookup_insert_eq|exact (fresh_itself v e d name _ j _ Hf)|reflexivity].
    split; [reflexivity|exact (fresh_le v root ri e d name _ j _ Hc He Em Hf)|exact (fresh_mounted v root ri e d name _ j _ Hc He Em Hf)|].
    intros P Hcl HP x dx k Hx Hk. destruct (fresh_cases v e d name _ j _ He Em Hf x dx Hx) as [[-> ->]|(_ & dx0 & Hx0 & (E1 & _) & _)].
    + injection Hk as <-. apply (Hcl i name); [now apply (HP e d)|exact El].
    + apply (HP x dx0); congruence.
Qed.

(** ** Walking the inodes *)
(** One name from an inode: what the file system has under it, or what is mounted there. *)
Definition walk_step (s : S) (mt : list string -> option I) i (names : list string) (name : string) : option I :=
  match inode_Lookup s i name with inl _ => None | inr j => Some (default j (mt (name :: names))) end.
(** [..]: to where the path came from; it stays at the root and, as the code has it, at the root of every
    mounted file system. *)
Definition parent_position (mt : list string -> option I) (pos : Position) : Position :=
  match pos with [] => [] | _ :: up => match mt pos.*1 with Some _ => pos | None => up end end.
(** The reference: a path is followed along the inodes and through the mounts [mt]; inner components must
    be directories. *)
Fixpoint walk (s : S) (mt : list string -> option I) (ri : I) (tokens : list string) (pos : Position) : option Position :=
  match tokens with
  | [] => Some pos
  | name :: rest =>
      if bool_decide (name = "."%string) then walk s mt ri rest pos
      else if bool_decide (name = ".."%string) then walk s mt ri rest (parent_position mt pos)
      else
        match walk_step s mt (here ri pos) pos.*1 name with
        | Some j => if bool_decide (rest = []) || S_ISDIR (inode_Mode s j) then walk s mt ri rest ((name, j) :: pos) else None
        | None => None
        end
  end.
Lemma walk_ext s mt mt' ri tokens : (forall names, mt' names = mt names) -> forall pos, walk s mt' ri tokens pos = walk s mt ri tokens pos.
Proof.
  intros Hm. induction tokens as [|name rest IH]; intros pos; [reflexivity|]. cbn [walk]. unfold walk_step. rewrite !Hm, !IH.
  assert (Hp : parent_position mt' pos = parent_position mt pos) by (destruct pos; cbn [parent_position]; now rewrite ?Hm). rewrite Hp.
  repeat case_match; trivial; congruence.
Qed.

Definition no_links (s : S) : Prop := forall i, S_ISLNK (inode_Mode s i) = false.
Lemma IsDirectory_mode mode : S_ISLNK mode = false -> truthy (type_flags mode .& eDirectory) = S_ISDIR mode.
Proof.
  unfold type_flags. intros ->. destruct (S_ISDIR mode), (S_ISREG mode), (S_ISCHR mode || S_ISSOCK mode || S_ISFIFO mode); reflexivity.
Qed.
Lemma plain_not_mount mode : truthy (type_flags mode .& eMountPoint) = false.
Proof. unfold type_flags. destruct (S_ISDIR mode), (S_ISREG mode), (S_ISLNK mode), (S_ISCHR mode || S_ISSOCK mode || S_ISFIFO mode); reflexivity. Qed.

Lemma plain_flags v root ri e d i : cache v root ri -> entries v !! e = Some d -> m_INode d = Some i -> m_MountGate d = None ->
  m_Flags d = type_flags (inode_Mode (filesystems v) i) /\ IsMountPoint d = false.
Proof.
  intros Hc He Hi Hg. destruct (cache_entry _ _ _ Hc e d He) as [_ Hok]. destruct (Hok i Hi) as [Hf _]. unfold gate_ok in Hf. rewrite Hg in Hf.
  split; [exact Hf|]. unfold IsMountPoint, has_flag. rewrite Hf. apply plain_not_mount.
Qed.
Lemma IsSymlink_plain v d i : m_INode d = Some i -> no_links (filesystems v) -> IsSymlink d v = Ret v false.
Proof. intros Hi Hl. unfold IsSymlink, inode_mode_of. rewrite Hi. unfold mbind, M_bind. cbn. now rewrite Hl. Qed.
Lemma IsDirectory_plain v root ri e d i : cache v root ri -> entries v !! e = Some d -> m_INode d = Some i -> m_MountGate d = None -> no_links (filesystems v) ->
  IsDirectory d = S_ISDIR (inode_Mode (filesystems v) i).
Proof. intros Hc He Hi Hg Hl. destruct (plain_flags v root ri e d i Hc He Hi Hg) as [Hf _]. unfold IsDirectory, has_flag. rewrite Hf. apply IsDirectory_mode, Hl. Qed.

(** A resolver with the flags of an ordinary lookup of a path without a trailing slash. *)
Definition ordinary (r : Resolver) : Prop :=
  flag_set r lookup_eMountPoint = false /\ flag_set r lookup_eNegativeEntry = false /\ trailing_slash (r_Path r) = false.
Lemma ordinary_no_stop r : ordinary r -> stop_at_mount r = false.
Proof. intros (H & _). unfold stop_at_mount. rewrite H. apply andb_false_r. Qed.

(** Mounts are entered where there are any. *)
Lemma enter_mount_landing v root ri r e d i : cache v root ri -> entries v !! e = Some d -> m_INode d = Some i -> ordinary r ->
  r_Entry r = Some e -> enter_mount r v = Ret v (r_entry (Some (landing e d)) r).
Proof.
  intros Hc He Hi Ho Hr. unfold enter_mount. rewrite Hr, (entry_ret e d) by trivial. rewrite (ordinary_no_stop r Ho). cbn [negb]. rewrite andb_true_r.
  pose proof (FollowMounts_landing v root ri e d i Hc He Hi) as HF. destruct (cache_entry _ _ _ Hc e d He) as [_ Hok]. destruct (Hok i Hi) as [Hg _]. unfold gate_ok in Hg.
  destruct (m_MountGate d) as [g|] eqn:Eg.
  - destruct Hg as [-> _]. now rewrite (bind_ret _ _ _ _ _ HF).
  - destruct (plain_flags v root ri e d i Hc He Hi Eg) as [_ ->]. unfold landing. rewrite Eg. cbn [default]. rewrite <- Hr. now destruct r.
Qed.

Lemma cache_set_errno v root ri code : cache v root ri ->
  let v' := mkState (entries v) (next_entry v) (s_RootDirectoryEntry v) (s_MountPoints v) (s_FilesystemDrivers v) (filesystems v) code in
  cache v' root ri /\ later root v v'.
Proof.
  intros Hc v'. assert (Hle : entries_le v v') by (intros e d H; exists d; split; [exact H|apply entry_le_refl]).
  assert (He : forall names, entry_at v' root names = entry_at v root names) by (induction names as [|n up IH]; [reflexivity|]; cbn [entry_at]; now rewrite IH).
  split; split; trivial.
  - intros e d H. exact (cache_entry _ _ _ Hc e d H).
  - exact (cache_root _ _ _ Hc).
  - apply (RootDirectoryEntry_same v); trivial. apply (cache_host _ _ _ Hc).
  - intros names. unfold mounted. destruct names as [|n up]; [reflexivity|]. cbn [child_at]. now rewrite He.
Qed.

(** ** Resolution is walking *)
Section Resolution.
Context (rp : option Z -> string -> bool -> M State PathResolution) (fuel : nat) (root : Z) (ri : I).
Notation cache v := (cache v root ri).
Notation at_path v := (at_path v root ri).
Notation later := (later root).
Implicit Types r : Resolver.

(** An entry at a place, or the one the file system there is mounted on. *)
Definition leads v e (pos : Position) : Prop := exists d i, entries v !! e = Some d /\ m_INode d = Some i /\ at_path v (landing e d) pos.
Lemma at_path_leads v e pos : cache v -> at_path v e pos -> leads v e pos.
Proof. intros Hc Hat. destruct (at_path_plain v root ri e pos Hc Hat) as (d & He & Hi & Hg). exists d, (here ri pos). unfold landing. now rewrite Hg. Qed.
Lemma leads_FollowMounts v e pos : cache v -> leads v e pos -> exists x, FollowMounts e v = Ret v x /\ at_path v x pos.
Proof. intros Hc (d & i & He & Hi & Hat). exists (landing e d). split; [now apply (FollowMounts_landing v root ri e d i)|exact Hat]. Qed.

Definition found v (pos : Position) (out : outcome State (Resolver * (Z + unit))) : Prop :=
  exists v' r' e', out = Ret v' (r', inr tt) /\ r_Entry r' = Some e' /\ at_path v' e' pos /\ cache v' /\ later v v'.
Definition missing v (out : outcome State (Resolver * (Z + unit))) : Prop :=
  exists v' r' err, out = Ret v' (r', inl err) /\ r_Entry r' = None /\ errno v' = err /\ (err = ENOENT \/ err = ENOTDIR) /\ cache v' /\ later v v'.
Definition stepped v r (pos : Position) (out : outcome State (Resolver * (Z + unit))) : Prop :=
  exists v' r' e', out = Ret v' (r', inr tt) /\ r_Entry r' = Some e' /\ leads v' e' pos /\ cache v' /\ later v v' /\ ordinary r' /\
    r_State r' = if seg_IsLast (r_Segment r) then eFinished else r_State r.

Lemma found_later v1 v2 pos out : later v1 v2 -> found v2 pos out -> found v1 pos out.
Proof. intros H (v' & r' & e' & H1 & H2 & H3 & H4 & H5). exists v', r', e'. split_and!; trivial. now apply (later_trans _ v1 v2). Qed.
Lemma missing_later v1 v2 out : later v1 v2 -> missing v2 out -> missing v1 out.
Proof. intros H (v' & r' & err & H1 & H2 & H3 & H4 & H5 & H6). exists v', r', err. split_and!; trivial. now apply (later_trans _ v1 v2). Qed.

Lemma Terminate_missing v r code : cache v -> code = ENOENT \/ code = ENOTDIR -> missing v (Terminate code r v).
Proof.
  intros Hc Hcode. destruct (cache_set_errno v root ri code Hc) as [Hc' Hle]. unfold Terminate, set_errno, mbind, M_bind. cbn.
  eexists _, _, code. split; [reflexivity|]. split_and!; trivial.
Qed.
(** The end of the resolution. *)
Lemma resolved_found v r e pos : cache v -> ordinary r -> r_Entry r = Some e -> leads v e pos -> found v pos (resolved r v).
Proof.
  intros Hc Ho Hr (d & i & He & Hi & Hat). unfold resolved. rewrite Hr. unfold negative_check. destruct (Ho) as (_ & -> & _). rewrite mret_ret.
  rewrite (bind_ret _ _ _ _ _ (enter_mount_landing v root ri r e d i Hc He Hi Ho Hr)). eexists v, _, _. split; [reflexivity|]. split_and!; [reflexivity|exact Hat|exact Hc|apply later_refl].
Qed.

(** One regular component. *)
Lemma Step_spec v r e pos : cache v -> no_links (filesystems v) -> ordinary r -> r_Entry r = Some e -> at_path v e pos ->
  match walk_step (filesystems v) (mounted v root) (here ri pos) pos.*1 (seg_Name (r_Segment r)) with
  | None => missing v (Step rp fuel r v)
  | Some j =>
      if seg_IsLast (r_Segment r) || S_ISDIR (inode_Mode (filesystems v) j) then stepped v r ((seg_Name (r_Segment r), j) :: pos) (Step rp fuel r v)
      else missing v (Step rp fuel r v)
  end.
Proof.
  intros Hc Hl Ho Hr Hat. destruct (at_path_plain v root ri e pos Hc Hat) as (d & He & Hi & Hg).
  set (name := seg_Name (r_Segment r)). pose proof (Lookup_spec v root ri e d (here ri pos) name Hc He Hi) as HL. unfold Step. rewrite Hr, deref_ret. fold name. unfold walk_step.
  destruct (inode_Lookup (filesystems v) (here ri pos) name) as [err|j]; [rewrite (bind_ret _ _ _ _ _ HL); apply Terminate_missing; auto|].
  destruct HL as (v1 & c & d1 & dc & HL & Hc1 & Hle & Hd1 & Hch & Hdc & Hj). rewrite (bind_ret _ _ _ _ _ HL). cbn [r_Segment r_base r_entry r_parent r_Path].
  pose proof (child_position v1 root ri e pos d1 name c dc j Hc1 (at_path_le _ _ _ _ _ _ (later_entries _ _ _ Hle) Hat) Hd1 Hch Hdc Hj) as Hat1. rewrite (later_mounted _ _ _ Hle) in Hat1.
  set (k := default j (mounted v root (name :: pos.*1))) in *. set (r1 := r_base name (r_entry (Some c) (r_parent (Some e) r))). assert (Ho1 : ordinary r1) by exact Ho.
  rewrite (entry_ret c dc) by trivial. assert (Hl1 : no_links (filesystems v1)) by (rewrite (later_fs _ _ _ Hle); exact Hl).
  destruct (seg_IsLast (r_Segment r)) eqn:Elast; cbn [orb].
  - destruct Ho as (Hq1 & Hq2 & Hq3). rewrite Hq3. cbn [andb]. eexists v1, _, c. split; [reflexivity|]. split; [reflexivity|]. split; [now exists dc, j|]. split; [exact Hc1|]. split; [exact Hle|]. split; [now split_and!|]. now rewrite Elast.
  - rewrite (bind_ret _ _ _ _ _ (enter_mount_landing v1 root ri r1 c dc j Hc1 Hdc Hj Ho1 eq_refl)). set (x := landing c dc) in *. change (r_Entry (r_entry (Some x) r1)) with (Some x).
    destruct (at_path_plain v1 root ri x _ Hc1 Hat1) as (dx & Hx & Hk & Gx). cbn [here] in Hk.
    rewrite deref_ret, (entry_ret x dx) by trivial. rewrite (bind_ret _ _ _ _ _ (IsSymlink_plain v1 dx k Hk Hl1)), mret_ret. change (r_Entry (r_entry (Some x) r1)) with (Some x).
    rewrite deref_ret, (entry_ret x dx) by trivial. rewrite (IsDirectory_plain v1 root ri x dx k) by trivial. rewrite (later_fs _ _ _ Hle).
    destruct (S_ISDIR (inode_Mode (filesystems v) k)).
    + eexists v1, _, x. split; [reflexivity|]. split; [reflexivity|]. split; [now apply at_path_leads|]. split; [exact Hc1|]. split; [exact Hle|]. split; [exact Ho|]. now rewrite Elast.
    + apply (missing_later v v1); [exact Hle|]. apply Terminate_missing; auto.
Qed.

(** [.] and [..]. *)
Definition dotted (mt : list string -> option I) (pos : Position) (t : PathSegmentType) : Position :=
  match t with seg_eDotDot => parent_position mt pos | _ => pos end.
Lemma parent_spec v e pos : cache v -> at_path v e pos ->
  exists e', GetEffectiveParent e v = Ret v (Some e') /\ leads v e' (parent_position (mounted v root) pos).
Proof.
  intros Hc Hat. destruct (at_path_plain v root ri e pos Hc Hat) as (d & He & Hi & Hg). pose proof (GetEffectiveParent_spec v root ri e d Hc He) as HG.
  pose proof Hat as Hat0. destruct Hat as [|p dp up name c dc dx i Hat Hp Hch Hcc Hx Hxi].
  - rewrite Z.eqb_refl in HG. exists root. split; [exact HG|]. now apply at_path_leads.
  - destruct (child_known v root ri p up dp name c Hc Hat Hp Hch) as (Hne & dc' & j & Hdc & _ & Hpar & Hj & _). assert (dc' = dc) as -> by congruence.
    destruct (cache_entry _ _ _ Hc c dc Hcc) as [_ Hok]. destruct (Hok j Hj) as [Hgate _]. unfold gate_ok in Hgate.
    assert (Hm : mounted v root (name :: up.*1) = (g ← m_MountGate dc; dg ← entries v !! g; m_INode dg)).
    { unfold mounted. cbn. rewrite (at_path_entry_at _ _ _ _ _ Hat). cbn. rewrite Hp. cbn. rewrite Hch. cbn. now rewrite Hcc. }
    cbn [parent_position fmap list_fmap fst]. fold (up.*1). rewrite Hm. unfold landing in He, HG. destruct (m_MountGate dc) as [g|] eqn:Eg; cbn in He, HG |- *.
    + destruct Hgate as (_ & Hgr & dg & k & Hdg & _ & Hdp & Hdk). assert (d = dg) as -> by congruence. rewrite (proj2 (Z.eqb_neq g root) Hgr), Hdp in HG. exists c. split; [unfold landing; now rewrite Eg|].
      rewrite Hdg. cbn. rewrite Hdk. exists dc, j. split_and!; trivial.
    + assert (d = dc) as -> by congruence. rewrite (proj2 (Z.eqb_neq c root) Hne), Hpar in HG. exists p. split; [unfold landing; now rewrite Eg|]. now apply at_path_leads.
Qed.
Lemma FollowDots_spec v r e pos remaining : cache v -> ordinary r -> r_Entry r = Some e -> at_path v e pos ->
  exists r' e', FollowDots remaining r v = Ret v r' /\ r_Entry r' = Some e' /\ leads v e' (dotted (mounted v root) pos (seg_Type (r_Segment r))) /\ ordinary r' /\
  (if seg_IsLast (r_Segment r) then r_State r' = eFinished else r_State r' = r_State r \/ r_State r' = eLast).
Proof.
  intros Hc Ho Hr Hat. assert (HD : exists e', (match seg_Type (r_Segment r) with seg_eDotDot => e ← deref (r_Entry r); p ← GetEffectiveParent e; mret (r_entry p r) | _ => mret r end) v
    = Ret v (r_entry (Some e') r) /\ leads v e' (dotted (mounted v root) pos (seg_Type (r_Segment r)))).
  { assert (Hid : r = r_entry (Some e) r) by (destruct r; cbn in *; now subst). pose proof (at_path_leads v e pos Hc Hat) as Hle.
    destruct (seg_Type (r_Segment r)); cbn [dotted]; [exists e; split; trivial; now rewrite <- Hid| |exists e; split; trivial; now rewrite <- Hid].
    destruct (parent_spec v e pos Hc Hat) as (e' & HG & Hl). exists e'. rewrite Hr, deref_ret, (bind_ret _ _ _ _ _ HG). now split. }
  destruct HD as (e' & HD & Hlead). unfold FollowDots. rewrite (bind_ret _ _ _ _ _ HD). change (r_Segment (r_entry (Some e') r)) with (r_Segment r). destruct (seg_IsLast (r_Segment r)).
  - change (r_Entry (r_entry (Some e') r)) with (Some e'). rewrite deref_ret. destruct (leads_FollowMounts v e' _ Hc Hlead) as (x & HF & Hx). destruct (at_path_plain v root ri x _ Hc Hx) as (dx & Hdx & _ & _).
    destruct Hlead as (d' & i' & He' & _). rewrite (bind_ret _ _ _ _ _ (GetEffectiveParent_spec v root ri e' d' Hc He')).
    change (flag_set (r_entry (Some e') r) lookup_eMountPoint) with (flag_set r lookup_eMountPoint). destruct Ho as (Ho1 & Ho2). rewrite Ho1.
    rewrite (bind_ret _ _ _ _ _ HF), (entry_ret x dx) by trivial. eexists _, x. split; [reflexivity|]. split_and!; try reflexivity; [now apply at_path_leads|now split].
  - destruct (remaining =? 1)%nat; eexists _, e'; (split; [reflexivity|]); (split; [reflexivity|]); (split; [exact Hlead|]); (split; [exact Ho|]); auto.
Qed.

Lemma resolve_loop_spec tokens : forall v r e pos, cache v -> no_links (filesystems v) -> ordinary r -> r_Entry r = Some e -> leads v e pos -> tokens <> [] \/ r_State r <> eTerminated ->
  match walk (filesystems v) (mounted v root) ri tokens pos with
  | Some pos' => found v pos' (resolve_loop rp fuel tokens r v)
  | None => missing v (resolve_loop rp fuel tokens r v)
  end.
Proof.
  induction tokens as [|name rest IH]; intros v r e pos Hc Hl Ho Hr Hlead Hne.
  { cbn [walk resolve_loop]. destruct Hne as [[]|Hne]; [reflexivity|]. pose proof (resolved_found v r e pos Hc Ho Hr Hlead). now destruct (r_State r). }
  cbn [resolve_loop]. set (r0 := r_state eTerminated (r_segment (GetNextSegment name rest) r)). assert (Ho0 : ordinary r0) by exact Ho. rewrite (ordinary_no_stop r0 Ho0).
  change (r_Entry r0) with (r_Entry r). rewrite Hr. destruct (leads_FollowMounts v e pos Hc Hlead) as (x & HF & Hat).
  rewrite (bind_ret _ _ v v (r_entry (Some x) r0)) by (rewrite (bind_ret _ _ _ _ _ HF); reflexivity).
  set (r1 := r_entry (Some x) r0). change (seg_Type (r_Segment r1)) with (seg_Type (GetNextSegment name rest)). cbn [walk].
  assert (Hdots : match walk (filesystems v) (mounted v root) ri rest (dotted (mounted v root) pos (seg_Type (GetNextSegment name rest))) with
    | Some pos' => found v pos' ((r ← FollowDots (length rest) r1; match r_State r with eFinished => resolved r | _ => resolve_loop rp fuel rest r end) v)
    | None => missing v ((r ← FollowDots (length rest) r1; match r_State r with eFinished => resolved r | _ => resolve_loop rp fuel rest r end) v)
    end).
  { destruct (FollowDots_spec v r1 x pos (length rest) Hc Ho0 eq_refl Hat) as (r2 & e2 & HD & Hr2 & Hl2 & Ho2 & Hst).
    rewrite (bind_ret _ _ _ _ _ HD). change (seg_IsLast (r_Segment r1)) with (bool_decide (rest = [])) in Hst. change (r_Segment r1) with (GetNextSegment name rest) in Hl2.
    destruct (bool_decide_reflect (rest = [])) as [->|Hrest]; [rewrite Hst; now apply (resolved_found v r2 e2)|].
    assert (Hcase : (match r_State r2 with eFinished => resolved r2 | _ => resolve_loop rp fuel rest r2 end) = resolve_loop rp fuel rest r2) by (destruct Hst as [Hst|Hst]; rewrite Hst; reflexivity).
    rewrite Hcase. apply (IH v r2 e2); trivial. now left. }
  assert (ET : seg_Type (GetNextSegment name rest)
    = if bool_decide (name = "."%string) then seg_eDot else if bool_decide (name = ".."%string) then seg_eDotDot else seg_eRegular) by reflexivity.
  rewrite ET in Hdots |- *. destruct (bool_decide (name = "."%string)); [exact Hdots|]. destruct (bool_decide (name = ".."%string)); [exact Hdots|]. clear Hdots.
  pose proof (Step_spec v r1 x pos Hc Hl Ho0 eq_refl Hat) as HS. unfold stepped in HS.
  change (seg_Name (r_Segment r1)) with name in HS. change (seg_IsLast (r_Segment r1)) with (bool_decide (rest = [])) in HS. change (r_State r1) with eTerminated in HS.
  destruct (walk_step _ _ _ _ _) as [j|].
  2: { destruct HS as (v' & r' & err' & HS & Hrest). rewrite (bind_ret _ _ _ _ _ HS). now exists v', r', err'. }
  destruct (bool_decide (rest = []) || S_ISDIR (inode_Mode (filesystems v) j)).
  2: { destruct HS as (v' & r' & err' & HS & Hrest). rewrite (bind_ret _ _ _ _ _ HS). now exists v', r', err'. }
  destruct HS as (v' & r' & e' & HS & Hr' & Hlead' & Hc' & Hle & Ho' & Hst'). rewrite (bind_ret _ _ _ _ _ HS). rewrite Hst'.
  assert (Hl' : no_links (filesystems v')) by (rewrite (later_fs _ _ _ Hle); exact Hl). destruct (bool_decide_reflect (rest = [])) as [->|Hrest].
  - apply (found_later v v' _ _ Hle). now apply (resolved_found v' r' e').
  - specialize (IH v' r' e' _ Hc' Hl' Ho' Hr' Hlead' (or_introl Hrest)). rewrite (later_fs _ _ _ Hle), (walk_ext _ _ _ _ _ (later_mounted _ _ _ Hle)) in IH.
    destruct (walk _ _ _ _ _); [now apply (found_later v v')|now apply (missing_later v v')].
Qed.
End Resolution.
End Cache.
