(* ===== verification/VFSTheorems.v ===== *)
(** * The virtual file system: theorems

    Paths resolve to the inodes they name, also below the file systems mounted in the tree; a file created
    at a path is what the path resolves to; and three defects: [..] does not leave a mounted file system,
    a link to itself is followed for ever, an empty path panics. *)

From Stdlib Require Import ZArith Lia Bool Ascii.
From stdpp Require Import base gmap list numbers strings.
From S2P Require Import Prelude Effects Posix Disk SynthFs SynthFsTheorems VFS VFSProofs.

Import VFS.

Section Theorems.
Context {Paths : PathOps} {S I : Type} {FS : FsOps S I}.
Notation State := (State S I).
Implicit Types (v : State) (e : Z) (d : DirectoryEntry I) (i j : I).

(** ** Resolving a path *)
Lemma ordinary_flags r (follow : bool) : trailing_slash (r_Path r) = false ->
  let r' := r_flags (lookup_eRegular .| (if follow then lookup_eFollowLinks else 0)) r in ordinary r' /\ flag_set r' lookup_eParent = false.
Proof. intros H. destruct follow; (split; [split_and!; try reflexivity; exact H|reflexivity]). Qed.

(** The resolver starts at the root or at the directory given. *)
Definition starts v root ri (parent : option Z) (path : string) (pos : Position) : Prop :=
  if bool_decide (parent = None) || Absolute path then pos = [] else exists e, parent = Some e /\ at_path v root ri e pos.
Definition new_resolver (path : string) (e : Z) : Resolver := mkResolver eInitialized path lookup_eRegular (mkSegment "" false seg_eRegular) (Some e) (Some e) "/".
Lemma Initialize_at v root ri e pos path : cache v root ri -> at_path v root ri e pos -> path <> ""%string -> (Absolute path = true -> e = root) ->
  Initialize (Some e) path v = Ret v (new_resolver path e).
Proof.
  intros Hc Hat Hp Ha. unfold Initialize. rewrite bool_decide_eq_false_2 by trivial. rewrite (bind_ret _ _ _ _ _ (cache_host _ _ _ Hc)).
  assert (Epar : (if Absolute path then Some root else Some e) = Some e) by (destruct (Absolute path); [now rewrite Ha|reflexivity]). rewrite Epar.
  destruct (at_path_plain v root ri e pos Hc Hat) as (d & He & Hi & Hg). rewrite (bind_ret _ _ v v (Some e)); [reflexivity|]. destruct (bool_decide_reflect (Some e = Some root)); [reflexivity|].
  rewrite (bind_ret _ _ _ _ _ (FollowMounts_plain v root ri e d _ Hc He Hi Hg)). reflexivity.
Qed.
Lemma slash_trails path : trailing_slash path = false -> path <> "/"%string.
Proof. intros H ->. discriminate. Qed.
(** A resolution of the whole path or of its parent, from an entry of the tree. *)
Lemma Resolve_spec rp v root ri e pos path flags fuel : cache v root ri -> no_links (filesystems v) -> at_path v root ri e pos -> ordinary (r_flags flags (new_resolver path e)) ->
  let tokens := Split (if flag_set (r_flags flags (new_resolver path e)) lookup_eParent then ParentPath path else path) in
  match walk (filesystems v) (mounted v root) ri tokens pos with
  | Some pos' => found root ri v pos' (Resolve rp fuel flags (new_resolver path e) v)
  | None => missing root ri v (Resolve rp fuel flags (new_resolver path e) v)
  end.
Proof.
  intros Hc Hl Hat Ho tokens. unfold Resolve. change (r_State (new_resolver path e)) with eInitialized. cbn iota zeta. change (r_Path (r_flags flags (new_resolver path e))) with path.
  rewrite bool_decide_eq_false_2 by (apply slash_trails, Ho). fold tokens.
  apply (resolve_loop_spec rp fuel root ri tokens v _ e pos); trivial; [now apply at_path_leads|now right].
Qed.

Lemma FollowSymlinks_plain rp v root ri e pos cnt : cache v root ri -> at_path v root ri e pos -> no_links (filesystems v) -> entry_FollowSymlinks rp cnt e v = Ret v (Some e).
Proof.
  intros Hc Hat Hl. destruct (at_path_plain v root ri e pos Hc Hat) as (d & He & Hi & _). pose proof (IsSymlink_plain v d _ Hi Hl) as Hs.
  destruct cnt; cbn [entry_FollowSymlinks]; rewrite (entry_ret e d), Hi, deref_ret, get_ret by trivial;
    (destruct (inode_ReadLink (filesystems v) (here ri pos)) as [err|target]; [reflexivity|]);
    (rewrite (bind_ret _ _ v v false); [reflexivity|]); destruct (bool_decide (target = ""%string)); [reflexivity|exact Hs|reflexivity|exact Hs].
Qed.

Lemma ResolvePath_spec v root ri parent pos path follow fuel : cache v root ri -> no_links (filesystems v) -> starts v root ri parent path pos ->
  path <> ""%string -> trailing_slash path = false ->
  match walk (filesystems v) (mounted v root) ri (Split path) pos with
  | Some pos' => exists v' p e base, ResolvePath (1 + fuel) parent path follow v = Ret v' (p, Some e, base)
      /\ at_path v' root ri e pos' /\ cache v' root ri /\ later root v v'
  | None => exists v' p base, ResolvePath (1 + fuel) parent path follow v = Ret v' (p, None, base)
      /\ (errno v' = ENOENT \/ errno v' = ENOTDIR) /\ cache v' root ri /\ later root v v'
  end.
Proof.
  intros Hc Hl Hst Hp Htr. assert (Hstart : exists e, (if bool_decide (parent = None) || Absolute path then root ← RootDirectoryEntry; mret (Some root) else mret parent) v = Ret v (Some e)
    /\ at_path v root ri e pos /\ (Absolute path = true -> e = root)).
  { unfold starts in Hst. destruct (bool_decide_reflect (parent = None)) as [->|Hn]; cbn [orb] in *; [|destruct (Absolute path)].
    1-2: subst pos; exists root; rewrite (bind_ret _ _ _ _ _ (cache_host _ _ _ Hc)); split_and!; trivial; constructor.
    destruct Hst as (e & -> & Hat). exists e. now split_and!. }
  destruct Hstart as (e & Hs & Hat & Ha). cbn [Nat.add ResolvePath]. rewrite (bind_ret _ _ _ _ _ Hs), (bind_ret _ _ _ _ _ (Initialize_at v root ri e pos path Hc Hat Hp Ha)).
  set (flags := lookup_eRegular .| (if follow then lookup_eFollowLinks else 0)).
  destruct (ordinary_flags (new_resolver path e) follow Htr) as [Hord Hpar]. fold flags in Hord, Hpar.
  pose proof (Resolve_spec (ResolvePath fuel) v root ri e pos path flags fuel Hc Hl Hat Hord) as HS. cbn zeta in HS. rewrite Hpar in HS.
  destruct (walk _ _ _ _ _) as [pos'|].
  - destruct HS as (v' & r' & e' & HS & Hr' & Hat2 & Hc' & Hle). rewrite (bind_ret _ _ _ _ _ HS). cbn zeta. cbn [fst]. rewrite Hr'.
    assert (Hl' : no_links (filesystems v')) by (rewrite (later_fs _ _ _ Hle); exact Hl).
    rewrite (bind_ret _ _ v' v' (Some e')); [|destruct follow; [now apply (FollowSymlinks_plain _ v' root ri e' pos')|reflexivity]].
    eexists v', _, e', _. split; [reflexivity|]. now split_and!.
  - destruct HS as (v' & r' & err & HS & Hr' & Herr & Hcode & Hc' & Hle). rewrite (bind_ret _ _ _ _ _ HS). cbn zeta. cbn [fst]. rewrite Hr', mret_ret.
    eexists v', _, _. split; [reflexivity|]. split_and!; trivial. now rewrite Herr.
Qed.

(** C9: in a tree without symbolic links, with at most one file system mounted on each directory, resolving
    a path without a trailing slash through the cache of directory entries gives the entry of the inode
    reached by walking the path in the file systems and through their mounts, whatever was
    cached before, with [.] and [..], from the root or from any entry of the tree; a path that leads nowhere
    gives no entry and sets [errno].  The cache stays right and nothing is mounted by it.  In the walk [..]
    stays at the root of every mounted file system, which is the defect [dotdot_stays_in_mount]
    below. *)
Theorem ResolvePath_walks v root ri parent pos path follow fuel : cache v root ri -> no_links (filesystems v) -> starts v root ri parent path pos ->
  path <> ""%string -> trailing_slash path = false ->
  match walk (filesystems v) (mounted v root) ri (Split path) pos with
  | Some pos' => exists v' p e base, ResolvePath (1 + fuel) parent path follow v = Ret v' (p, Some e, base)
      /\ at_path v' root ri e pos' /\ cache v' root ri /\ filesystems v' = filesystems v /\ forall names, mounted v' root names = mounted v root names
  | None => exists v' p base, ResolvePath (1 + fuel) parent path follow v = Ret v' (p, None, base)
      /\ (errno v' = ENOENT \/ errno v' = ENOTDIR) /\ cache v' root ri /\ filesystems v' = filesystems v /\ forall names, mounted v' root names = mounted v root names
  end.
Proof.
  intros Hc Hl Hst Hp Htr. pose proof (ResolvePath_spec v root ri parent pos path follow fuel Hc Hl Hst Hp Htr) as H. destruct (walk _ _ _ _ _).
  - destruct H as (v' & p0 & e & base & H1 & H2 & H3 & [H4 _ H5 _]). eauto 10.
  - destruct H as (v' & p0 & base & H1 & H2 & H3 & [H4 _ H5 _]). eauto 10.
Qed.

(** ** Defects *)
(** The parent of the root of a mounted file system is resolved to that root itself, since
    it is the host entry of the mount, which leads back into it: [..] never leaves a mount. *)
Theorem dotdot_stays_in_mount v root h g dh dg fuel : RootDirectoryEntry v = Ret v root -> FollowMounts root v = Ret v root ->
  entries v !! h = Some dh -> entries v !! g = Some dg -> m_MountGate dh = Some g -> m_MountGate dg = None -> m_Parent dg = Some h ->
  g <> root -> h <> root -> Absolute ".." = false -> Split ".." = [".."%string] ->
  resolve fuel (Some g) ".." lookup_eRegular v = Ret v (inr (Some g)).
Proof.
  intros Hroot Hfr Hh Hg Gh Gg Pg Ng Nh HA HS.
  assert (Fg : FollowMounts g v = Ret v g).
  { unfold FollowMounts. rewrite get_ret. destruct (size (entries v)); cbn [follow_gates]; rewrite (entry_ret g dg) by trivial; rewrite Gg; reflexivity. }
  assert (Fh : FollowMounts h v = Ret v g).
  { unfold FollowMounts. rewrite get_ret. destruct (size (entries v)) as [|n] eqn:En.
    - apply map_size_empty_inv in En. rewrite En in Hh. now rewrite lookup_empty in Hh.
    - cbn [follow_gates]. rewrite (entry_ret h dh) by trivial. rewrite Gh. destruct n; cbn [follow_gates]; rewrite (entry_ret g dg) by trivial; rewrite Gg; reflexivity. }
  assert (Pe : forall e d, entries v !! e = Some d -> e <> root -> GetEffectiveParent e v = Ret v (m_Parent d)).
  { intros e d He Hne. rewrite (effective_parent v root root e d) by trivial. now rewrite (proj2 (Z.eqb_neq e root) Hne). }
  unfold resolve.
  assert (Nroot : Some g <> Some root) by congruence.
  set (r0 := r_state eInitialized (mkResolver eUninitialized ".." lookup_eRegular (mkSegment "" false seg_eRegular) (Some g) (Some g) "/")).
  rewrite (bind_ret _ _ v v r0).
  2: { unfold Initialize. rewrite bool_decide_eq_false_2 by discriminate. rewrite (bind_ret _ _ _ _ _ Hroot), HA.
       rewrite bool_decide_eq_false_2 by trivial. rewrite (bind_ret _ _ v v (Some g)); [reflexivity|]. rewrite (bind_ret _ _ _ _ _ Fg). reflexivity. }
  set (r1 := r_flags lookup_eRegular r0).
  set (r2 := r_entry (Some g) (r_state eTerminated (r_segment (GetNextSegment ".." []) r1))).
  set (r3 := r_base (m_Name dg) (r_entry (Some g) (r_parent (m_Parent dh) (r_state eFinished (r_entry (Some h) r2))))).
  rewrite (bind_ret _ _ v v (r3, inr tt)); [reflexivity|]. unfold Resolve. change (r_State r0) with eInitialized. cbn iota zeta.
  change (r_Path (r_flags lookup_eRegular r0)) with ".."%string. rewrite bool_decide_eq_false_2 by discriminate. fold r1.
  change (flag_set r1 lookup_eParent) with false. cbn iota. rewrite HS. cbn [resolve_loop].
  rewrite (bind_ret _ _ v v r2).
  2: { change (stop_at_mount _) with false. change (r_Entry (r_state eTerminated (r_segment (GetNextSegment ".." []) r1))) with (Some g). cbn iota. rewrite (bind_ret _ _ _ _ _ Fg). reflexivity. }
  change (seg_Type (r_Segment r2)) with seg_eDotDot. cbn iota. rewrite (bind_ret _ _ v v r3).
  2: { unfold FollowDots. change (seg_Type (r_Segment r2)) with seg_eDotDot. cbn iota. rewrite (bind_ret _ _ v v (r_entry (Some h) r2)).
       2: { change (r_Entry r2) with (Some g). rewrite deref_ret, (bind_ret _ _ _ _ _ (Pe g dg Hg Ng)), Pg. reflexivity. }
       change (seg_IsLast (r_Segment (r_entry (Some h) r2))) with true. cbn iota. change (r_Entry (r_entry (Some h) r2)) with (Some h).
       rewrite deref_ret, (bind_ret _ _ _ _ _ (Pe h dh Hh Nh)). change (flag_set (r_entry (Some h) r2) lookup_eMountPoint) with false. cbn iota.
       rewrite (bind_ret _ _ _ _ _ Fh), (entry_ret g dg) by trivial. reflexivity. }
  change (r_State r3) with eFinished. cbn iota. unfold resolved. change (r_Entry r3) with (Some g). unfold negative_check.
  change (flag_set r3 lookup_eNegativeEntry) with false. cbn iota. rewrite mret_ret. unfold enter_mount. change (r_Entry r3) with (Some g).
  rewrite (bind_ret _ _ v v r3); [reflexivity|]. rewrite (entry_ret g dg) by trivial. change (stop_at_mount r3) with false. rewrite andb_true_r.
  destruct (IsMountPoint dg); [|reflexivity]. rewrite (bind_ret _ _ _ _ _ Fg). reflexivity.
Qed.

(** An entry with a name of its own, found in the cache. *)
Lemma cached_step rp fuel v r e d c dc : entries v !! e = Some d -> m_Children d !! seg_Name (r_Segment r) = Some c -> entries v !! c = Some dc ->
  r_Entry r = Some e -> seg_IsLast (r_Segment r) = true -> trailing_slash (r_Path r) = false ->
  Step rp fuel r v = Ret v (r_state eFinished (r_base (seg_Name (r_Segment r)) (r_entry (Some c) (r_parent (Some e) r))), inr tt).
Proof.
  intros He Hch Hc Hr Hlast Htr. unfold Step. rewrite Hr, deref_ret. rewrite (bind_ret _ _ v v (Some c)).
  - rewrite (entry_ret c dc) by trivial. cbn [r_Segment r_base r_entry r_parent r_Path]. rewrite Hlast, Htr. reflexivity.
  - unfold Lookup. rewrite (entry_ret e d) by trivial. now rewrite Hch.
Qed.

(** A symbolic link whose target is its own name is never resolved: the limit on the number
    of links is not reached, since every resolution starts to count again. *)
Theorem symlink_to_itself_never_resolves v root ri e d c dc i name : cache v root ri -> entries v !! e = Some d -> m_MountGate d = None ->
  m_Children d !! name = Some c -> entries v !! c = Some dc -> m_INode dc = Some i -> m_Parent dc = Some e -> m_MountGate dc = None ->
  S_ISLNK (inode_Mode (filesystems v) i) = true -> inode_ReadLink (filesystems v) i = inr name ->
  Absolute name = false -> Split name = [name] -> name <> ""%string -> name <> "/"%string -> name <> "."%string -> name <> ".."%string -> trailing_slash name = false ->
  forall fuel, ResolvePath fuel (Some e) name true v = Diverges.
Proof.
  intros Hc He Ge Hch Hcc Hi Hp Gc Hlnk Htarget HA HS N1 N2 N3 N4 Htr fuel.
  assert (Fe : FollowMounts e v = Ret v e).
  { unfold FollowMounts. rewrite get_ret. destruct (size (entries v)); cbn [follow_gates]; rewrite (entry_ret e d) by trivial; rewrite Ge; reflexivity. }
  destruct (plain_flags v root ri c dc i Hc Hcc Hi Gc) as [_ Mc].
  induction fuel as [|fuel IH]; [reflexivity|]. cbn [ResolvePath]. rewrite bool_decide_eq_false_2 by discriminate. rewrite HA. cbn [orb]. rewrite mret_ret.
  set (r0 := r_state eInitialized (mkResolver eUninitialized name lookup_eRegular (mkSegment "" false seg_eRegular) (Some e) (Some e) "/")).
  rewrite (bind_ret _ _ v v r0).
  2: { unfold Initialize. rewrite bool_decide_eq_false_2 by trivial. rewrite (bind_ret _ _ _ _ _ (cache_host _ _ _ Hc)), HA.
       rewrite (bind_ret _ _ v v (Some e)); [reflexivity|]. destruct (bool_decide _); [reflexivity|]. rewrite (bind_ret _ _ _ _ _ Fe). reflexivity. }
  set (flags := lookup_eRegular .| lookup_eFollowLinks). set (seg := mkSegment name true seg_eRegular).
  set (r1 := r_entry (Some e) (r_state eTerminated (r_segment seg (r_flags flags r0)))).
  set (r2 := r_state eFinished (r_base name (r_entry (Some c) (r_parent (Some e) r1)))).
  rewrite (bind_ret _ _ v v (r2, inr tt)).
  2: { unfold Resolve. change (r_State r0) with eInitialized. cbn iota zeta. fold flags. change (r_Path (r_flags flags r0)) with name.
       rewrite bool_decide_eq_false_2 by trivial. change (flag_set (r_flags flags r0) lookup_eParent) with false. cbn iota. rewrite HS. cbn [resolve_loop].
       assert (Eseg : GetNextSegment name [] = seg) by (unfold GetNextSegment, seg; rewrite (bool_decide_eq_false_2 (name = "."%string)), (bool_decide_eq_false_2 (name = ".."%string)) by trivial; reflexivity).
       rewrite Eseg. rewrite (bind_ret _ _ v v r1).
       2: { change (stop_at_mount _) with false. change (r_Entry (r_state eTerminated (r_segment seg (r_flags flags r0)))) with (Some e). cbn iota. rewrite (bind_ret _ _ _ _ _ Fe). reflexivity. }
       change (seg_Type (r_Segment r1)) with seg_eRegular. cbn iota. rewrite (bind_ret _ _ v v (r2, inr tt)); [|now apply (cached_step _ _ v r1 e d c dc)].
       change (r_State r2) with eFinished. cbn iota. unfold resolved. change (r_Entry r2) with (Some c). unfold negative_check.
       change (flag_set r2 lookup_eNegativeEntry) with false. cbn iota. rewrite mret_ret. unfold enter_mount. change (r_Entry r2) with (Some c).
       rewrite (bind_ret _ _ v v r2); [reflexivity|]. rewrite (entry_ret c dc) by trivial. now rewrite Mc. }
  cbn zeta. cbn [fst]. change (r_Entry r2) with (Some c). apply bind_diverges. change (SYMLOOP_MAX - 1)%nat with 39%nat. cbn [entry_FollowSymlinks].
  rewrite (entry_ret c dc) by trivial. rewrite Hi, deref_ret, get_ret, Htarget.
  rewrite (bind_ret _ _ v v true).
  2: { rewrite bool_decide_eq_false_2 by trivial. unfold IsSymlink, inode_mode_of. rewrite Hi. unfold mbind, M_bind. cbn. now rewrite Hlnk. }
  cbn iota. apply bind_diverges. rewrite Hp. exact IH.
Qed.

(** Opening an empty path fails an assertion of the resolver. *)
Lemma open_empty_path_panics v fuel umask parent flags mode : truthy (flags .& O_TMPFILE) = false -> truthy (flags .& O_PATH) = false ->
  Open fuel umask parent "" flags mode v = Panic.
Proof. intros H1 H2. unfold Open, OpenDirectoryEntry, try_. rewrite H1, H2. reflexivity. Qed.

(** The directory given to [ResolveParent] is not used: a relative path starts at the root. *)
Lemma ResolveParent_from_root v fuel parent path : ResolveParent fuel parent path v = ResolveParent fuel None path v.
Proof. reflexivity. Qed.
End Theorems.

(** ** Creating a file *)
(** What a file system promises: what it looks up exists; when a file is created a fresh inode is under the
    new name, other names and inodes stay. *)
Class FsLaws (S I : Type) {FS : FsOps S I} := {
  fs_ok : S -> Prop;
  inode_live : S -> I -> Prop;
  lookup_live s i name j : fs_ok s -> inode_live s i -> inode_Lookup s i name = inr j -> inode_live s j;
  create_file_spec s i name mode s' j : fs_ok s -> inode_live s i -> inode_CreateFile s i name mode = (s', inr j) ->
    fs_ok s' /\ ~ inode_live s j /\ inode_live s' j /\ S_ISREG (inode_Mode s' j) = true /\ inode_Lookup s' i name = inr j /\
    (forall k, inode_live s k -> inode_live s' k) /\ (forall k, k = j \/ inode_Mode s' k = inode_Mode s k) /\
    (forall k n, k <> i \/ n <> name -> inode_live s k -> inode_Lookup s' k n = inode_Lookup s k n)
}.

Lemma regular_type mode : (Z.ldiff mode S_IFMT .| S_IFREG) .& S_IFMT = S_IFREG.
Proof.
  apply Z.bits_inj'. intros n Hn. rewrite Z.land_spec, Z.lor_spec, Z.ldiff_spec. destruct (Z.testbit S_IFMT n) eqn:E; cbn [negb]; rewrite ?andb_false_r, ?andb_true_r; cbn [orb]; trivial.
  symmetry. apply not_true_is_false. intros H. assert (Hs : S_IFREG .& S_IFMT = S_IFREG) by reflexivity. rewrite <- Hs, Z.land_spec, E, andb_false_r in H. discriminate.
Qed.

Section Creation.
Context {Paths : PathOps} {S I : Type} {FS : FsOps S I} {Laws : FsLaws S I}.
Notation State := (State S I).
Implicit Types (v : State) (e : Z) (d : DirectoryEntry I) (i j : I).

(** *** Walks *)
(** A walk that succeeds goes on in a file system that still has what it looked up. *)
Lemma walk_keep (s s' : S) mt ri (P : I -> Prop) tokens : P ri -> (forall names k, mt names = Some k -> P k) -> (forall i name j, P i -> inode_Lookup s i name = inr j -> P j) ->
  (forall i, P i -> inode_Mode s' i = inode_Mode s i) -> (forall i name j, P i -> inode_Lookup s i name = inr j -> inode_Lookup s' i name = inr j) ->
  forall pos pos', Forall (fun x => P x.2) pos -> walk s mt ri tokens pos = Some pos' -> walk s' mt ri tokens pos = Some pos'.
Proof.
  intros Hri Hmt Hcl Hmode Hkeep. induction tokens as [|name rest IH]; intros pos pos' Hpos; [trivial|]. cbn [walk].
  destruct (bool_decide (name = "."%string)); [now apply IH|]. destruct (bool_decide (name = ".."%string)).
  { apply IH. unfold parent_position. destruct Hpos as [|x up Hx Hup]; [constructor|]. destruct (mt _); [now constructor|exact Hup]. }
  assert (Hhere : P (here ri pos)) by (destruct Hpos as [|[n i] up Hx _]; [exact Hri|exact Hx]). unfold walk_step.
  destruct (inode_Lookup s (here ri pos) name) as [err|j] eqn:E; [discriminate|]. rewrite (Hkeep _ _ _ Hhere E). set (k := default j (mt (name :: pos.*1))).
  assert (Hk : P k) by (unfold k; destruct (mt (name :: pos.*1)) as [m|] eqn:Em; cbn; [now apply (Hmt _ _ Em)|now apply (Hcl _ _ _ Hhere E)]).
  rewrite (Hmode k Hk). destruct (_ || _); [|discriminate]. apply IH. now constructor.
Qed.
Lemma walk_snoc (s : S) mt ri name tokens : forall pos pos', walk s mt ri tokens pos = Some pos' -> S_ISDIR (inode_Mode s (here ri pos')) = true ->
  walk s mt ri (tokens ++ [name]) pos = walk s mt ri [name] pos'.
Proof.
  induction tokens as [|n rest IH]; intros pos pos'; [intros [= <-]; reflexivity|]. cbn [walk app]. intros H Hdir.
  destruct (bool_decide (n = "."%string)); [now apply IH|]. destruct (bool_decide (n = ".."%string)); [now apply IH|]. destruct (walk_step _ _ _ _ _) as [j|]; [|discriminate].
  rewrite (bool_decide_eq_false_2 (rest ++ [name] = [])) by (destruct rest; discriminate). cbn [orb]. destruct (bool_decide_reflect (rest = [])) as [->|Hrest]; cbn [orb] in H.
  - injection H as <-. cbn [here] in Hdir. rewrite Hdir. reflexivity.
  - destruct (S_ISDIR (inode_Mode s j)); [|discriminate]. now apply IH.
Qed.

(** *** The new entry *)
(** The inodes in the cache are live. *)
Definition live_cache v : Prop := fs_ok (filesystems v) /\ forall e d i, entries v !! e = Some d -> m_INode d = Some i -> inode_live (filesystems v) i.
Lemma later_live root v v' : later root v v' -> live_cache v -> live_cache v'.
Proof.
  intros [Hf _ _ Hin] [Hok Hl]. split; [now rewrite Hf|]. rewrite Hf. apply (Hin (inode_live (filesystems v))); [|exact Hl]. intros i name j Hi. now apply lookup_live.
Qed.
Lemma mounted_live v root names k : live_cache v -> mounted v root names = Some k -> inode_live (filesystems v) k.
Proof.
  intros [_ Hl]. unfold mounted. destruct (child_at v root names) as [c|]; [|discriminate]. cbn. destruct (entries v !! c) as [dc|]; [|discriminate]. cbn.
  destruct (m_MountGate dc) as [g|]; [|discriminate]. cbn. destruct (entries v !! g) as [dg|] eqn:Eg; [|discriminate]. cbn. now apply (Hl g dg).
Qed.

Definition created_state v e d name (s' : S) j : State :=
  let c := next_entry v in
  let flags := 0 .| type_flags (inode_Mode s' j) in
  mkState (<[c := mkEntry name flags (Some j) false 0 (Some e) None ∅]> (<[e := with_children (<[name := c]> (m_Children d)) d]>
    (<[c := mkEntry name flags (Some j) false 0 None None ∅]> (<[c := new_entry None name]> (entries v))))) (c + 1)
    (s_RootDirectoryEntry v) (s_MountPoints v) (s_FilesystemDrivers v) s' (errno v).

Lemma created_lookup v e d name s' j e' : e < next_entry v -> entries (created_state v e d name s' j) !! e' =
  if decide (e' = next_entry v) then Some (fresh_entry name e s' j)
  else if decide (e' = e) then Some (with_children (<[name := next_entry v]> (m_Children d)) d) else entries v !! e'.
Proof.
  intros Hlt. cbn. destruct (decide (e' = next_entry v)) as [->|Hc]; [apply lookup_insert_eq|]. rewrite lookup_insert_ne by congruence.
  destruct (decide (e' = e)) as [->|He]; [apply lookup_insert_eq|]. now rewrite !lookup_insert_ne by congruence.
Qed.
Lemma created_fresh v e d name s' j : e < next_entry v -> fresh_child v e d name s' j (created_state v e d name s' j).
Proof. intros Hlt. split; [intros x; now apply created_lookup|reflexivity..]. Qed.

Section Created.
Context v (root : Z) (ri : I) e d i (name : string) (mode : Z) (s' : S) j (err : Z).
Let m := Z.ldiff mode S_IFMT .| S_IFREG.
Hypothesis Hc : cache v root ri.
Hypothesis Hl : live_cache v.
Hypothesis He : entries v !! e = Some d.
Hypothesis Hi : m_INode d = Some i.
Hypothesis Hno : inode_Lookup (filesystems v) i name = inl err.
Hypothesis Hcr : inode_CreateFile (filesystems v) i name m = (s', inr j).
Notation c := (next_entry v).
Notation v' := (created_state v e d name s' j).

Lemma not_cached : m_Children d !! name = None.
Proof.
  destruct (cache_entry _ _ _ Hc e d He) as [_ Hok]. destruct (Hok i Hi) as [_ Hch]. destruct (m_Children d !! name) as [c|] eqn:E; [|reflexivity].
  destruct (Hch name c E) as (_ & dc & k & _ & _ & _ & _ & Hk). congruence.
Qed.
Lemma below : e < c.
Proof. now apply (cache_entry _ _ _ Hc e d). Qed.
Lemma live_parent : inode_live (filesystems v) i.
Proof. now apply (proj2 Hl e d). Qed.
(** What was looked up before is still there. *)
Lemma created_keeps k n k' : inode_live (filesystems v) k -> inode_Lookup (filesystems v) k n = inr k' -> inode_Lookup s' k n = inr k'.
Proof.
  intros Hk Hlook. destruct (create_file_spec _ _ _ _ _ _ (proj1 Hl) live_parent Hcr) as (_ & _ & _ & _ & _ & _ & _ & Hother). rewrite Hother; trivial.
  destruct (decide (n = name)) as [->|]; [left|now right]. intros ->. congruence.
Qed.
Lemma created_mode k : inode_live (filesystems v) k -> inode_Mode s' k = inode_Mode (filesystems v) k.
Proof. intros Hk. destruct (create_file_spec _ _ _ _ _ _ (proj1 Hl) live_parent Hcr) as (_ & Hj & _ & _ & _ & _ & Hm & _). destruct (Hm k) as [->|E]; [contradiction|exact E]. Qed.
Lemma created_no_links : no_links (filesystems v) -> no_links s'.
Proof.
  intros Hn k. destruct (create_file_spec _ _ _ _ _ _ (proj1 Hl) live_parent Hcr) as (_ & _ & _ & Hreg & _ & _ & Hm & _).
  destruct (Hm k) as [->|E]; [|now rewrite E]. unfold S_ISREG, S_ISLNK in *. apply Z.eqb_eq in Hreg. now rewrite Hreg.
Qed.

(** The cache of the new state. *)
Lemma created_cache : cache v' root ri /\ live_cache v'.
Proof.
  destruct (create_file_spec _ _ _ _ _ _ (proj1 Hl) live_parent Hcr) as (Hfs & _ & Hjl & _ & Hj & Hlive & _). pose proof (created_fresh v e d name s' j below) as Hf. split.
  - apply (fresh_cache v root ri e d name s' j v' Hc He not_cached Hf i Hi Hj). intros x dx k Hx Hk. pose proof (proj2 Hl x dx k Hx Hk) as Hkl. split; [now apply created_mode|]. intros n k'. now apply created_keeps.
  - split; [exact Hfs|]. intros x dx k Hx Hk. destruct (fresh_cases v e d name s' j v' He not_cached Hf x dx Hx) as [[-> ->]|(_ & dx0 & Hx0 & (E & _) & _)].
    + injection Hk as <-. exact Hjl.
    + apply Hlive, (proj2 Hl x dx0); congruence.
Qed.
Lemma CreateFile_creates : IsDirectory d = true -> CreateFile e name mode v = Ret v' (inr c).
Proof.
  intros Hdir. pose proof (Lookup_spec v root ri e d i name Hc He Hi) as HL. rewrite Hno in HL. pose proof below as Hlt.
  assert (Hreg : m .& S_IFMT =? S_IFREG = true) by (unfold m; rewrite regular_type; reflexivity).
  unfold CreateFile, CreateNode. fold m. rewrite (entry_ret e d), Hdir by trivial. cbn [negb]. rewrite (bind_ret _ _ _ _ _ HL).
  set (v1 := mkState (<[c := new_entry None name]> (entries v)) (c + 1) (s_RootDirectoryEntry v) (s_MountPoints v) (s_FilesystemDrivers v) (filesystems v) (errno v)).
  rewrite (bind_ret (allocate (new_entry None name)) _ v v1 c) by reflexivity. rewrite Hi.
  set (v2 := mkState (<[c := new_entry None name]> (entries v)) (c + 1) (s_RootDirectoryEntry v) (s_MountPoints v) (s_FilesystemDrivers v) s' (errno v)).
  rewrite (try_ret _ _ v1 v2 j); [|unfold create_inode; rewrite Hreg; unfold fs_op; rewrite get_ret; change (filesystems v1) with (filesystems v); rewrite Hcr; reflexivity].
  assert (H2 : entries v2 !! c = Some (new_entry None name)) by apply lookup_insert_eq.
  set (d1 := mkEntry name (0 .| type_flags (inode_Mode s' j)) (Some j) false 0 None None ∅).
  set (v3 := mkState (<[c := d1]> (entries v2)) (c + 1) (s_RootDirectoryEntry v) (s_MountPoints v) (s_FilesystemDrivers v) s' (errno v)).
  rewrite (bind_ret _ _ v2 v3 tt); [|unfold Bind, modify; rewrite get_ret, (entry_ret c (new_entry None name)) by trivial; reflexivity].
  assert (H3 : entries v3 !! c = Some d1) by apply lookup_insert_eq.
  assert (H3e : entries v3 !! e = Some d) by (cbn; rewrite !lookup_insert_ne by lia; exact He).
  set (v4 := mkState (<[e := with_children (<[name := c]> (m_Children d)) d]> (entries v3)) (c + 1) (s_RootDirectoryEntry v) (s_MountPoints v) (s_FilesystemDrivers v) s' (errno v)).
  rewrite (bind_ret _ _ v3 v4 tt); [|unfold InsertChild, modify; rewrite (entry_ret c d1), (entry_ret e d) by trivial; reflexivity].
  assert (H4 : entries v4 !! c = Some d1) by (cbn; rewrite lookup_insert_ne by lia; exact H3).
  rewrite (bind_ret _ _ v4 v' tt); [reflexivity|]. unfold SetParent, modify. rewrite (entry_ret c d1) by trivial. reflexivity.
Qed.
End Created.

(** The directory a path is created in. *)
Lemma ResolveParent_spec v root ri parent path pos fuel : cache v root ri -> no_links (filesystems v) -> path <> ""%string -> trailing_slash path = false ->
  walk (filesystems v) (mounted v root) ri (Split (ParentPath path)) [] = Some pos ->
  exists v' e, ResolveParent fuel parent path v = Ret v' (inr e) /\ at_path v' root ri e pos /\ cache v' root ri /\ later root v v'.
Proof.
  intros Hc Hl Hp Htr Hw. unfold ResolveParent. rewrite (bind_ret _ _ _ _ _ (cache_host _ _ _ Hc)).
  pose proof (Resolve_spec (ResolvePath fuel) v root ri root [] path lookup_eParent fuel Hc Hl (at_root _ _ _) ltac:(split_and!; [reflexivity|reflexivity|exact Htr])) as HS.
  cbn zeta in HS. change (flag_set _ lookup_eParent) with true in HS. cbn iota in HS. rewrite Hw in HS. destruct HS as (v' & r' & e & HS & Hr & Hat & Hc' & Hle).
  exists v', e. split_and!; trivial. rewrite (try_ret _ _ v v' (Some e)).
  - destruct (at_path_plain v' root ri e pos Hc' Hat) as (d & He & Hi & Hg). destruct (plain_flags v' root ri e d _ Hc' He Hi Hg) as [_ Hm]. rewrite deref_ret, (entry_ret e d) by trivial. now rewrite Hm.
  - unfold resolve. rewrite (bind_ret _ _ _ _ _ (Initialize_at v root ri root [] path Hc (at_root _ _ _) Hp ltac:(trivial))), (bind_ret _ _ _ _ _ HS). cbn [fst snd]. now rewrite Hr.
Qed.

(** C31: in a tree without symbolic links, let the parent of a path lead to a directory, through any mounts, in
    which the file system has nothing under the last name of the path and can create a file.  Then
    creating a file at the path gives an entry of a regular file, bound to the inode that the
    file system made; resolving the path afterwards, with or without following links, gives that very
    entry; and the cache stays right.  Paths start at the root. *)
Theorem created_file_found v root ri path mode pos err s' j fuel :
  let name := BaseName path in
  cache v root ri -> live_cache v -> no_links (filesystems v) -> path <> ""%string -> trailing_slash path = false ->
  Split path = Split (ParentPath path) ++ [name] -> name <> "."%string -> name <> ".."%string ->
  walk (filesystems v) (mounted v root) ri (Split (ParentPath path)) [] = Some pos -> S_ISDIR (inode_Mode (filesystems v) (here ri pos)) = true ->
  inode_Lookup (filesystems v) (here ri pos) name = inl err ->
  inode_CreateFile (filesystems v) (here ri pos) name (Z.ldiff mode S_IFMT .| S_IFREG) = (s', inr j) ->
  exists v' c dc, CreateFile_path fuel path mode v = Ret v' (inr c) /\ cache v' root ri /\ live_cache v' /\ filesystems v' = s' /\
    entries v' !! c = Some dc /\ m_INode dc = Some j /\ IsRegular dc = true /\
    forall follow, exists v'' p base, ResolvePath (1 + fuel) None path follow v' = Ret v'' (p, Some c, base) /\ at_path v'' root ri c ((name, j) :: pos) /\ cache v'' root ri.
Proof.
  intros name Hc Hl Hn Hp Htr Hsplit Hd1 Hd2 Hw Hdir Hno Hcr.
  destruct (ResolveParent_spec v root ri (Some root) path pos fuel Hc Hn Hp Htr Hw) as (v1 & e & HR & Hat & Hc1 & Hle). pose proof (later_live root v v1 Hle Hl) as Hl1.
  destruct (at_path_plain v1 root ri e pos Hc1 Hat) as (d & He & Hi & Hg). pose proof (later_fs _ _ _ Hle) as Hfs. assert (Hn1 : no_links (filesystems v1)) by now rewrite Hfs.
  pose proof (IsDirectory_plain v1 root ri e d _ Hc1 He Hi Hg Hn1) as Hisdir. rewrite <- Hfs in Hdir, Hno, Hcr. rewrite Hdir in Hisdir.
  pose proof (not_cached v1 root ri e d _ name err Hc1 He Hi Hno) as Hnone. pose proof (below v1 root ri e d Hc1 He) as Hlt.
  pose proof (CreateFile_creates v1 root ri e d _ name mode s' j err Hc1 He Hi Hno Hcr Hisdir) as HC. destruct (created_cache v1 root ri e d _ name mode s' j err Hc1 Hl1 He Hi Hno Hcr) as [Hc2 Hl2].
  pose proof (created_fresh v1 e d name s' j Hlt) as Hf. set (v2 := created_state v1 e d name s' j) in *. set (c := next_entry v1) in *.
  pose proof (fresh_itself v1 e d name s' j v2 Hf) as Hdc. pose proof (fresh_mounted v1 root ri e d name s' j v2 Hc1 He Hnone Hf) as Hm2.
  exists v2, c, (fresh_entry name e s' j). split_and!; trivial.
  - unfold CreateFile_path, in_parent. rewrite (bind_ret _ _ _ _ _ (cache_host _ _ _ Hc)). now rewrite (try_ret _ _ v v1 e HR).
  - destruct (create_file_spec _ _ _ _ _ _ (proj1 Hl1) (proj2 Hl1 e d _ He Hi) Hcr) as (_ & _ & _ & Hr & _).
    unfold IsRegular, has_flag, fresh_entry, type_flags. cbn [m_Flags]. rewrite Hr. unfold S_ISREG in Hr. apply Z.eqb_eq in Hr. unfold S_ISDIR, S_ISLNK, S_ISCHR, S_ISSOCK, S_ISFIFO. rewrite Hr. reflexivity.
  - intros follow. assert (Hat2 : at_path v2 root ri c ((name, j) :: pos)).
    { pose proof (at_path_le v1 v2 root ri e pos (fresh_le v1 root ri e d name s' j v2 Hc1 He Hnone Hf) Hat) as Hp2.
      exact (at_child v2 root ri e _ pos name c (fresh_entry name e s' j) (fresh_entry name e s' j) j Hp2 (fresh_parent v1 root ri e d name s' j v2 Hc1 He Hf) (lookup_insert_eq _ _ _) Hdc Hdc eq_refl). }
    assert (Hmn : mounted v1 root (name :: pos.*1) = None).
    { unfold mounted. cbn. rewrite (at_path_entry_at _ _ _ _ _ Hat). cbn. rewrite He. cbn. now rewrite Hnone. }
    assert (Hwalk : walk s' (mounted v2 root) ri (Split path) [] = Some ((name, j) :: pos)).
    { rewrite (walk_ext s' _ _ ri (Split path) Hm2). rewrite Hsplit. rewrite (walk_snoc s' _ ri name (Split (ParentPath path)) [] pos).
      - cbn [walk]. rewrite !bool_decide_eq_false_2 by trivial. unfold walk_step. destruct (create_file_spec _ _ _ _ _ _ (proj1 Hl1) (proj2 Hl1 e d _ He Hi) Hcr) as (_ & _ & _ & _ & -> & _). rewrite Hmn. reflexivity.
      - rewrite <- (walk_ext (filesystems v) _ _ ri _ (later_mounted _ _ _ Hle)), <- Hfs in Hw. destruct (cache_root _ _ _ Hc1) as (dr & Hr & Hri & _).
        apply (walk_keep (filesystems v1) s' _ ri (inode_live (filesystems v1))); trivial.
        + exact (proj2 Hl1 root dr ri Hr Hri).
        + intros names k. now apply mounted_live.
        + intros k n k' Hk. apply lookup_live; [apply Hl1|exact Hk].
        + intros k Hk. now apply (created_mode v1 e d (here ri pos) name mode s' j).
        + intros k n k' Hk. now apply (created_keeps v1 e d (here ri pos) name mode s' j err).
      - rewrite (created_mode v1 e d (here ri pos) name mode s' j Hl1 He Hi Hcr); [exact Hdir|]. now apply (proj2 Hl1 e d). }
    pose proof (ResolvePath_spec v2 root ri None [] path follow fuel Hc2 (created_no_links v1 e d _ name mode s' j Hl1 He Hi Hcr Hn1) eq_refl Hp Htr) as HF.
    change (filesystems v2) with s' in HF. rewrite Hwalk in HF. destruct HF as (v3 & p & x & base & HF & Hx & Hc3 & Hle3).
    pose proof (at_path_unique v3 root ri x c _ Hx (at_path_le _ _ _ _ _ _ (later_entries _ _ _ Hle3) Hat2)) as ->. exists v3, p, base. now split_and!.
Qed.
End Creation.

(** ** The in-memory file system *)
Section Tmpfs.
Context {B : Type} {Buf : Buffer B}.
Notation Fs := (SynthFs.Fs B).

Definition tmpfs_mode (s : Fs) (i : Z) : Z := match SynthFs.nodes s !! i with Some n => SynthFs.m_Mode n | None => 0 end.
#[export] Instance tmpfs_ops : FsOps Fs Z := {|
  inode_Mode := tmpfs_mode;
  inode_ReadLink s i := match SynthFs.nodes s !! i with Some n => inr (SynthFs.m_Target n) | None => inl EFAULT end;
  inode_Lookup := SynthFs.Lookup;
  inode_Traverse s i := match SynthFs.nodes s !! i with Some n => (map_to_list (SynthFs.m_Children n)).*1 | None => [] end;
  inode_CreateFile s i name mode := SynthFs.CreateFile s i name mode 0 0;
  inode_CreateDirectory s i name mode := SynthFs.CreateDirectory s i name mode 0 0;
  inode_Symlink s i name target := SynthFs.Symlink s i name target 0 0;
  inode_CreateNode s i name mode dev := SynthFs.CreateNode s i name mode dev 0 0;
  inode_Link s i j := SynthFs.Link s i j;
  filesystem_Mount s _ _ := match SynthFs.AllocateNode s (0x1a4 .| S_IFDIR) 0 0 with (s, inl e) => (s, inl e) | (s, inr i) => (s, inr (Some i)) end
|}.

Lemma tmpfs_Lookup (s : Fs) i name : match SynthFs.Lookup s i name with inr j => entry s i name j | inl e => e = ENOENT /\ forall j, ~ entry s i name j end.
Proof.
  unfold SynthFs.Lookup, entry. destruct (SynthFs.nodes s !! i) as [n|]; cbn.
  - destruct (SynthFs.m_Children n !! name) as [j|] eqn:E; [eauto|]. split; trivial. intros j (n' & [= <-] & H). congruence.
  - split; trivial. now intros j (n' & [=] & _).
Qed.
Lemma tmpfs_Lookup_entry (s : Fs) i name j : SynthFs.Lookup s i name = inr j <-> entry s i name j.
Proof.
  pose proof (tmpfs_Lookup s i name) as H. split; [intros E; now rewrite E in H|]. intros He. destruct (SynthFs.Lookup s i name) as [e|j'].
  - now destruct (proj2 H j).
  - destruct He as (n & Hn & Hc), H as (n' & Hn' & Hc'). congruence.
Qed.

(** The modes after the creation of a node. *)
Lemma tmpfs_create_modes (s : Fs) dir name mode dev uid gid s' j : SynthFs.CreateNode s dir name mode dev uid gid = (s', inr j) -> SynthFs.nodes s !! j = None ->
  S_ISREG mode = true -> tmpfs_mode s' j = mode /\ is_Some (SynthFs.nodes s' !! j) /\
  forall k, (is_Some (SynthFs.nodes s !! k) -> is_Some (SynthFs.nodes s' !! k)) /\ (k = j \/ tmpfs_mode s' k = tmpfs_mode s k).
Proof.
  unfold SynthFs.CreateNode. destruct (SynthFs.nodes s !! dir) as [p|] eqn:Hdir; [|discriminate]. destruct (SynthFs.m_Children p !! name); [discriminate|].
  unfold SynthFs.AllocateNode. destruct (_ <=? _); [discriminate|]. destruct (_ =? 0); [discriminate|]. cbn zeta iota. intros [= <- <-] Hj Hreg.
  set (id := SynthFs.m_NextINodeIndex s) in *. assert (Hne : id <> dir) by congruence.
  assert (Hmode : SynthFs.m_Mode (SynthFs.init_child p mode dev (SynthFs.SynthFsINode mode uid gid)) = mode).
  { unfold SynthFs.init_child. rewrite Hreg. unfold SynthFs.IsDirectory. cbn. unfold S_ISREG in Hreg. apply Z.eqb_eq in Hreg. unfold S_ISDIR. rewrite Hreg. cbn. now rewrite andb_false_r. }
  unfold tmpfs_mode, SynthFs.InsertChild, SynthFs.update. cbn [SynthFs.nodes SynthFs.with_nodes].
  split_and!.
  - rewrite !lookup_alter_ne by congruence. rewrite lookup_alter_eq, lookup_insert_eq. exact Hmode.
  - rewrite !lookup_alter_ne by congruence. rewrite lookup_alter_eq, lookup_insert_eq. cbn. eauto.
  - intros k. destruct (decide (k = id)) as [->|Hk]; [split; [intros [n Hn]; congruence|now left]|]. destruct (decide (k = dir)) as [->|Hkd].
    + rewrite !lookup_alter_eq, lookup_alter_ne, lookup_insert_ne by congruence. rewrite Hdir. cbn. split; eauto.
    + rewrite !lookup_alter_ne, lookup_insert_ne by congruence. split; [trivial|now right].
Qed.

#[export] Program Instance tmpfs_laws : FsLaws Fs Z := {| fs_ok := wf; inode_live s i := is_Some (SynthFs.nodes s !! i) |}.
Next Obligation.
  intros s i name j Hok _ He%tmpfs_Lookup_entry. exact (wf_live _ Hok _ _ _ He).
Qed.
Next Obligation.
  intros s i name mode s' j Hok Hi Hcr. cbn [inode_CreateFile tmpfs_ops] in Hcr. unfold SynthFs.CreateFile in Hcr.
  destruct (wf_create _ _ _ _ _ _ _ _ _ Hok Hcr) as (Hok' & Hnone & Hent).
  assert (Hreg : S_ISREG (Z.ldiff mode S_IFMT .| S_IFREG) = true) by (unfold S_ISREG; now rewrite regular_type).
  destruct (tmpfs_create_modes _ _ _ _ _ _ _ _ _ Hcr Hnone Hreg) as (Hm & Hl & Hk). cbn [inode_Mode inode_Lookup tmpfs_ops]. split_and!; trivial.
  - rewrite Hnone. now intros [? [=]].
  - now rewrite Hm.
  - apply tmpfs_Lookup_entry, Hent. now rewrite decide_True.
  - intros k. apply Hk.
  - intros k. apply Hk.
  - intros k n Hne Hkl. pose proof (tmpfs_Lookup s k n) as H1. pose proof (tmpfs_Lookup s' k n) as H2.
    assert (Hiff : forall x, entry s' k n x <-> entry s k n x) by (intros x; rewrite Hent, decide_False by (intros [-> ->]; tauto); reflexivity).
    destruct (SynthFs.Lookup s' k n) as [e'|x'] eqn:E'.
    + destruct (SynthFs.Lookup s k n) as [e|x]; [now destruct H1 as [-> _], H2 as [-> _]|]. now apply Hiff, H2 in H1.
    + symmetry. now apply tmpfs_Lookup_entry, Hiff.
Qed.
End Tmpfs.

(** ** Paths *)
Fixpoint segments (p : string) : list string :=
  match p with
  | ""%string => [""%string]
  | String c p => if (c =? "/")%char then ""%string :: segments p else match segments p with s :: r => String c s :: r | [] => [String c ""] end
  end.
#[export] Instance paths_ref : PathOps := {|
  Absolute p := match p with String c _ => (c =? "/")%char | ""%string => false end;
  Split p := filter (fun s => s <> ""%string) (segments p);
  ParentPath p := String.concat "/" (removelast (segments p));
  BaseName p := List.last (segments p) ""%string
|}.

(** ** Witnesses *)
(** A tree with /bin, /etc and /etc/passwd, mounted at the root; nothing is cached. *)
Definition tmp0 : SynthFs.Fs (list Z) := mount 100.
Definition tmp1 : SynthFs.Fs (list Z) :=
  let s := (SynthFs.CreateDirectory tmp0 2 "bin" 0x1ed 0 0).1 in
  let s := (SynthFs.CreateDirectory s 2 "etc" 0x1ed 0 0).1 in
  (SynthFs.CreateNode s 4 "passwd" (0x1a4 .| S_IFCHR) 0 0 0).1.
Definition boot (s : SynthFs.Fs (list Z)) : State (SynthFs.Fs (list Z)) Z :=
  mkState {[0 := mkEntry "/" 0x22 None false 0 None (Some 1) ∅; 1 := mkEntry "/" eDirectory (Some 2) false 0 (Some 0) None ∅]} 2 (Some 0) [0] ["tmpfs"%string] s 0.

Lemma boot_cache s : tmpfs_mode s 2 = 0x1a4 .| S_IFDIR -> cache (boot s) 1 2.
Proof.
  intros Hm. split.
  - intros e d. cbn. rewrite lookup_insert_Some. intros [[<- <-]|[_ [<- <-]%lookup_singleton_Some]].
    + split; [cbn; lia|discriminate].
    + split; [cbn; lia|]. intros i [= <-]. split; [unfold gate_ok; cbn; now rewrite Hm|]. intros n c H. cbn in H. now rewrite lookup_empty in H.
  - eexists. now split_and!.
  - reflexivity.
Qed.
Definition no_linksb (s : SynthFs.Fs (list Z)) : bool := bool_decide (map_Forall (fun _ n => S_ISLNK (SynthFs.m_Mode n) = false) (SynthFs.nodes s)).
Lemma no_linksb_spec s : no_linksb s = true -> no_links s.
Proof.
  intros H%bool_decide_eq_true i. cbn. unfold tmpfs_mode. destruct (SynthFs.nodes s !! i) as [n|] eqn:E; [exact (H i n E)|reflexivity].
Qed.

(** A second file system mounted on /mnt: entry 2 is the host, entry 3 the mounted root with /mnt/sub and
    /mnt/sub/data. *)
Definition tmp_before : SynthFs.Fs (list Z) := (SynthFs.CreateDirectory tmp1 2 "mnt" 0x1ed 0 0).1.
Definition tmp_mounted : SynthFs.Fs (list Z) := (SynthFs.AllocateNode tmp_before (0x1a4 .| S_IFDIR) 0 0).1.
Definition tmp_mnt : SynthFs.Fs (list Z) :=
  (SynthFs.CreateNode (SynthFs.CreateDirectory tmp_mounted 7 "sub" 0x1ed 0 0).1 8 "data" (0x1a4 .| S_IFCHR) 0 0 0).1.
Definition mnt (s : SynthFs.Fs (list Z)) : State (SynthFs.Fs (list Z)) Z :=
  mkState {[0 := mkEntry "/" 0x22 None false 0 None (Some 1) ∅; 1 := mkEntry "/" eDirectory (Some 2) false 0 (Some 0) None {["mnt"%string := 2]};
            2 := mkEntry "mnt" 0x22 (Some 6) false 0 (Some 1) (Some 3) ∅; 3 := mkEntry "/" eDirectory (Some 7) false 0 (Some 2) None ∅]} 4 (Some 0) [0; 2] ["tmpfs"%string] s 0.
(** This is the state that mounting leaves. *)
Lemma mnt_is_mounted : Mount 1 None "" "/mnt" "tmpfs" (boot tmp_before) = Ret (mnt tmp_mounted) (inr 2).
Proof. vm_compute. reflexivity. Qed.
Lemma mnt_cache s : tmpfs_mode s 2 = 0x1a4 .| S_IFDIR -> tmpfs_mode s 7 = 0x1a4 .| S_IFDIR -> SynthFs.Lookup s 2 "mnt" = inr 6 -> cache (mnt s) 1 2.
Proof.
  intros H2 H7 Hm. split.
  - intros e d. cbn. rewrite !lookup_insert_Some. intros [[<- <-]|[_ [[<- <-]|[_ [[<- <-]|[_ [<- <-]%lookup_singleton_Some]]]]]].
    + split; [cbn; lia|discriminate].
    + split; [cbn; lia|]. intros i [= <-]. split; [unfold gate_ok; cbn; now rewrite H2|]. intros n c H. cbn in H. apply lookup_singleton_Some in H as [<- <-].
      split; [discriminate|]. eexists _, 6. split; [reflexivity|]. now split_and!.
    + split; [cbn; lia|]. intros i [= <-]. split; [|intros n c H; cbn in H; now rewrite lookup_empty in H]. cbn. split_and!; [reflexivity|discriminate|]. eexists _, 7. split; [reflexivity|]. now split_and!.
    + split; [cbn; lia|]. intros i [= <-]. split; [unfold gate_ok; cbn; now rewrite H7|]. intros n c H. cbn in H. now rewrite lookup_empty in H.
  - eexists. now split_and!.
  - reflexivity.
Qed.
Lemma tmp_mnt_cache : cache (mnt tmp_mnt) 1 2.
Proof. apply mnt_cache; vm_compute; reflexivity. Qed.

(** A path into the mounted file system. *)
Lemma ResolvePath_walks_witness : exists v' p e base, ResolvePath (1 + 0) (Some 1) "/bin/../mnt/sub/./data" true (mnt tmp_mnt) = Ret v' (p, Some e, base)
  /\ at_path v' 1 2 e [("data"%string, 9); ("sub"%string, 8); ("mnt"%string, 7)] /\ cache v' 1 2.
Proof.
  pose proof (ResolvePath_walks (mnt tmp_mnt) 1 2 (Some 1) [] "/bin/../mnt/sub/./data" true 0 tmp_mnt_cache
    (no_linksb_spec tmp_mnt ltac:(vm_compute; reflexivity)) eq_refl ltac:(discriminate) ltac:(reflexivity)) as H.
  assert (E : walk (filesystems (mnt tmp_mnt)) (mounted (mnt tmp_mnt) 1) 2 (Split "/bin/../mnt/sub/./data") [] = Some [("data"%string, 9); ("sub"%string, 8); ("mnt"%string, 7)]) by (vm_compute; reflexivity).
  rewrite E in H. destruct H as (v' & p & e & base & H1 & H2 & H3 & _). exists v', p, e, base. now split_and!.
Defined.

Lemma wf_created (s : SynthFs.Fs (list Z)) dir name mode dev : wf s -> wf (SynthFs.CreateNode s dir name mode dev 0 0).1.
Proof. intros H. destruct (SynthFs.CreateNode s dir name mode dev 0 0) as [s' r] eqn:E. exact (proj1 (wf_create _ _ _ _ _ _ _ _ _ H E)). Qed.
Lemma wf_created_directory (s : SynthFs.Fs (list Z)) dir name mode : wf s -> wf (SynthFs.CreateDirectory s dir name mode 0 0).1.
Proof.
  intros H. unfold SynthFs.CreateDirectory. destruct (SynthFs.CreateNode _ _ _ _ _ _ _) as [s' r] eqn:E. destruct (wf_create _ _ _ _ _ _ _ _ _ H E) as [H' _].
  destruct r; cbn; [exact H'|]. apply wf_update; [|exact H']. now intros n.
Qed.
Lemma tmp_mnt_wf : wf tmp_mnt.
Proof.
  assert (Hb : wf tmp_before) by (unfold tmp_before, tmp1; cbv zeta; repeat first [apply wf_created_directory|apply wf_created]; exact (wf_mount 100)).
  assert (Hm : wf tmp_mounted).
  { unfold tmp_mounted. destruct (SynthFs.AllocateNode tmp_before (0x1a4 .| S_IFDIR) 0 0) as [s' [err|id]] eqn:E; [vm_compute in E; discriminate|]. now apply (wf_allocate _ _ _ _ _ _ Hb E). }
  unfold tmp_mnt. now apply wf_created, wf_created_directory.
Qed.
(** A file created in the mounted file system. *)
Lemma created_file_found_witness : exists v' c dc, CreateFile_path 0 "/mnt/sub/motd" 0x1a4 (mnt tmp_mnt) = Ret v' (inr c) /\ entries v' !! c = Some dc /\ m_INode dc = Some 10 /\
  exists v'' p base, ResolvePath (1 + 0) None "/mnt/sub/motd" true v' = Ret v'' (p, Some c, base).
Proof.
  destruct (created_file_found (mnt tmp_mnt) 1 2 "/mnt/sub/motd" 0x1a4 [("sub"%string, 8); ("mnt"%string, 7)] ENOENT
    (SynthFs.CreateFile tmp_mnt 8 "motd" (Z.ldiff 0x1a4 S_IFMT .| S_IFREG) 0 0).1 10 0) as (v' & c & dc & H1 & _ & _ & _ & H2 & H3 & _ & H4).
  - exact tmp_mnt_cache.
  - split; [exact tmp_mnt_wf|]. intros e d i. cbn. rewrite !lookup_insert_Some.
    intros [[<- <-]|[_ [[<- <-]|[_ [[<- <-]|[_ [<- <-]%lookup_singleton_Some]]]]]]; [discriminate|intros [= <-]; vm_compute; eauto..].
  - exact (no_linksb_spec tmp_mnt ltac:(vm_compute; reflexivity)).
  - discriminate.
  - reflexivity.
  - vm_compute. reflexivity.
  - discriminate.
  - discriminate.
  - vm_compute. reflexivity.
  - vm_compute. reflexivity.
  - vm_compute. reflexivity.
  - vm_compute. reflexivity.
  - destruct (H4 true) as (v'' & p & base & H5 & _). exists v', c, dc. split_and!; trivial. now exists v'', p, base.
Defined.

Lemma dotdot_stays_in_mount_witness : resolve 0 (Some 3) ".." lookup_eRegular (mnt tmp_mnt) = Ret (mnt tmp_mnt) (inr (Some 3)).
Proof.
  apply (dotdot_stays_in_mount (mnt tmp_mnt) 1 2 3 (mkEntry "mnt" 0x22 (Some 6) false 0 (Some 1) (Some 3) ∅) (mkEntry "/" eDirectory (Some 7) false 0 (Some 2) None ∅));
    try reflexivity; discriminate.
Defined.

(** /loop is a link to [loop]. *)
Definition tmp_loop : SynthFs.Fs (list Z) := (SynthFs.Symlink tmp0 2 "loop" "loop" 0 0).1.
Definition looping : State (SynthFs.Fs (list Z)) Z :=
  mkState {[0 := mkEntry "/" 0x22 None false 0 None (Some 1) ∅; 1 := mkEntry "/" eDirectory (Some 2) false 0 (Some 0) None {["loop"%string := 2]};
            2 := mkEntry "loop" eSymlink (Some 3) false 0 (Some 1) None ∅]} 3 (Some 0) [0] ["tmpfs"%string] tmp_loop 0.
Lemma looping_cache : cache looping 1 2.
Proof.
  split.
  - intros e d. cbn. rewrite !lookup_insert_Some. intros [[<- <-]|[_ [[<- <-]|[_ [<- <-]%lookup_singleton_Some]]]].
    + split; [cbn; lia|discriminate].
    + split; [cbn; lia|]. intros i [= <-]. split; [reflexivity|]. intros n c H. cbn in H. apply lookup_singleton_Some in H as [<- <-].
      split; [discriminate|]. eexists _, 3. split; [reflexivity|]. split_and!; reflexivity.
    + split; [cbn; lia|]. intros i [= <-]. split; [reflexivity|]. intros n c H. cbn in H. now rewrite lookup_empty in H.
  - eexists. now split_and!.
  - reflexivity.
Qed.
Lemma symlink_to_itself_never_resolves_witness : ResolvePath 100 (Some 1) "loop" true looping = Diverges.
Proof.
  apply (symlink_to_itself_never_resolves looping 1 2 1 (mkEntry "/" eDirectory (Some 2) false 0 (Some 0) None {["loop"%string := 2]}) 2
    (mkEntry "loop" eSymlink (Some 3) false 0 (Some 1) None ∅) 3 "loop" looping_cache); try reflexivity; discriminate.
Defined.
