(* ===== verification/Scheduler.v ===== *)
(** * Threads, processes and the scheduler

    [Scheduler/Scheduler.cpp], [Scheduler/Thread.cpp] and the parts of [Scheduler/Process.cpp] the
    scheduler runs into: processes end inside it, when a signal is delivered.  Processes and
    threads are numbered objects; deleting a process removes its object, and a later use of it
    panics.  One processor is modelled, with its queues.

    An interrupt of the scheduler's timer gives [Tick] the registers of the interrupted thread and
    resumes the machine with those it returns.  A function that ends in [Yield(false)] never
    returns: the processor goes on as the idle thread. *)

From Stdlib Require Import ZArith Lia Bool.
From stdpp Require Import base gmap list numbers strings.
From S2P Require Import Prelude Effects Prism Posix AddressSpace Event FileDescriptors.

Import Descriptors.

(** ** Interfaces *)
Inductive QueueType := QUEUE_TYPE_EXECUTION | QUEUE_TYPE_WAIT | QUEUE_TYPE_READY | QUEUE_TYPE_BLOCKED.
#[global] Instance QueueType_eq_dec : EqDecision QueueType.
Proof. solve_decision. Defined.

(** [Prism/Containers/IntrusiveList.hpp]: the queues are lists linked through a hook in each
    thread, so a thread is on one of them at most, and can be unlinked without naming it. *)
Class ThreadLists (L : Type) := {
  lists_empty : L;
  PushBack : QueueType -> nat -> L -> L;
  PopFrontElement : QueueType -> L -> L * option nat;
  IsEmpty : L -> QueueType -> bool;
  IsLinked : L -> nat -> bool;
  Unlink : nat -> L -> L;
  contents : L -> QueueType -> list nat;
  contents_empty (q : QueueType) : contents lists_empty q = [];
  PushBack_contents (q q' : QueueType) (t : nat) (l : L) : IsLinked l t = false ->
    contents (PushBack q t l) q' = if decide (q' = q) then contents l q ++ [t] else contents l q';
  PopFront_contents (q : QueueType) (t : nat) (ts : list nat) (l : L) : contents l q = t :: ts ->
    (PopFrontElement q l).2 = Some t /\
    forall q', contents (PopFrontElement q l).1 q' = if decide (q' = q) then ts else contents l q';
  IsEmpty_contents (l : L) (q : QueueType) : IsEmpty l q = true <-> contents l q = [];
  IsLinked_contents (l : L) (t : nat) : IsLinked l t = true <-> exists q, t ∈ contents l q;
  Unlink_contents (t : nat) (l : L) (q : QueueType) : IsLinked l t = true -> contents (Unlink t l) q = filter (.≠ t) (contents l q)
}.

(** Memory below the scheduler: page maps, physical pages and copying between them
    ([Memory/PMM.cpp], [Memory/PageMap.cpp]).  Page maps are named by their address. *)
Class MachineOps (H : Type) := {
  machine_new_PageMap : H -> H * option Z;
  machine_delete_PageMap : Z -> H -> H;
  machine_LoadPageMap : Z -> H -> H;
  machine_AllocatePages : Z -> H -> H * Z;
  machine_CallocatePages : Z -> H -> H * Z;
  machine_Copy : Z -> Z -> Z -> H -> H;
  machine_MapRange : Z -> Z -> Z -> Z -> H -> H * bool;
  kernel_PageMap : Z
}.

Module Scheduler.
(** ** Data *)
Inductive ThreadState := eReady | eIdle | eKilled | eRunning | eDequeued | eEnqueued | eBlocked | eExited.
#[global] Instance ThreadState_eq_dec : EqDecision ThreadState.
Proof. solve_decision. Defined.
Inductive ProcessState := proc_eIdle | proc_eRunning | proc_eDead.
#[global] Instance ProcessState_eq_dec : EqDecision ProcessState.
Proof. solve_decision. Defined.

Record Credentials := mkCredentials {
  UserID : Z; GroupID : Z; EffectiveUserID : Z; EffectiveGroupID : Z; FilesystemUserID : Z; FilesystemGroupID : Z;
  SetUserID : Z; SetGroupID : Z; SessionID : Z; ProcessGroupID : Z
}.
Definition s_Root : Credentials := mkCredentials 0 0 0 0 0 0 0 0 0 0.

Record CPUContext := mkContext {
  ds : Z; es : Z; rax : Z; rbx : Z; rcx : Z; rdx : Z; rsi : Z; rdi : Z; rbp : Z; r8 : Z; r9 : Z; r10 : Z; r11 : Z; r12 : Z;
  r13 : Z; r14 : Z; r15 : Z; interruptVector : Z; errorCode : Z; rip : Z; cs : Z; rflags : Z; rsp : Z; ss : Z
}.
(** What [CPU::SaveThread] saves and [CPU::LoadThread] loads: the interrupt frame, the segment
    bases and the floating point state. *)
Record Registers := mkRegisters { Context : CPUContext; m_GsBase : Z; m_FsBase : Z; FpuStorage : Z }.

Record Thread := mkThread {
  m_Tid : Z; t_State : ThreadState; t_Parent : nat; m_IsUser : bool; m_IsEnqueued : bool; m_SignalMask : Z;
  m_PendingSignals : Z; m_Which : nat; YieldAwaitLock : bool; t_Saved : Registers; SavedContext : CPUContext;
  m_Stacks : list Region
}.
Definition with_state (x : ThreadState) (r : Thread) : Thread :=
  mkThread (m_Tid r) x (t_Parent r) (m_IsUser r) (m_IsEnqueued r) (m_SignalMask r) (m_PendingSignals r) (m_Which r) (YieldAwaitLock r) (t_Saved r) (SavedContext r) (m_Stacks r).
Definition with_tparent (x : nat) (r : Thread) : Thread :=
  mkThread (m_Tid r) (t_State r) x (m_IsUser r) (m_IsEnqueued r) (m_SignalMask r) (m_PendingSignals r) (m_Which r) (YieldAwaitLock r) (t_Saved r) (SavedContext r) (m_Stacks r).
Definition with_user (x : bool) (r : Thread) : Thread :=
  mkThread (m_Tid r) (t_State r) (t_Parent r) x (m_IsEnqueued r) (m_SignalMask r) (m_PendingSignals r) (m_Which r) (YieldAwaitLock r) (t_Saved r) (SavedContext r) (m_Stacks r).
Definition with_enqueued (x : bool) (r : Thread) : Thread :=
  mkThread (m_Tid r) (t_State r) (t_Parent r) (m_IsUser r) x (m_SignalMask r) (m_PendingSignals r) (m_Which r) (YieldAwaitLock r) (t_Saved r) (SavedContext r) (m_Stacks r).
Definition with_mask (x : Z) (r : Thread) : Thread :=
  mkThread (m_Tid r) (t_State r) (t_Parent r) (m_IsUser r) (m_IsEnqueued r) x (m_PendingSignals r) (m_Which r) (YieldAwaitLock r) (t_Saved r) (SavedContext r) (m_Stacks r).
Definition with_pending (x : Z) (r : Thread) : Thread :=
  mkThread (m_Tid r) (t_State r) (t_Parent r) (m_IsUser r) (m_IsEnqueued r) (m_SignalMask r) x (m_Which r) (YieldAwaitLock r) (t_Saved r) (SavedContext r) (m_Stacks r).
Definition with_which (x : nat) (r : Thread) : Thread :=
  mkThread (m_Tid r) (t_State r) (t_Parent r) (m_IsUser r) (m_IsEnqueued r) (m_SignalMask r) (m_PendingSignals r) x (YieldAwaitLock r) (t_Saved r) (SavedContext r) (m_Stacks r).
Definition with_lock (x : bool) (r : Thread) : Thread :=
  mkThread (m_Tid r) (t_State r) (t_Parent r) (m_IsUser r) (m_IsEnqueued r) (m_SignalMask r) (m_PendingSignals r) (m_Which r) x (t_Saved r) (SavedContext r) (m_Stacks r).
Definition with_saved (x : Registers) (r : Thread) : Thread :=
  mkThread (m_Tid r) (t_State r) (t_Parent r) (m_IsUser r) (m_IsEnqueued r) (m_SignalMask r) (m_PendingSignals r) (m_Which r) (YieldAwaitLock r) x (SavedContext r) (m_Stacks r).
Definition with_stacks (x : list Region) (r : Thread) : Thread :=
  mkThread (m_Tid r) (t_State r) (t_Parent r) (m_IsUser r) (m_IsEnqueued r) (m_SignalMask r) (m_PendingSignals r) (m_Which r) (YieldAwaitLock r) (t_Saved r) (SavedContext r) x.

Definition IsDead (t : Thread) : bool := bool_decide (t_State t = eExited) || bool_decide (t_State t = eKilled).
Definition IsBlocked (t : Thread) : bool := bool_decide (t_State t = eBlocked).
Definition ShouldIgnoreSignal (t : Thread) (signal : Z) : bool := truthy (m_SignalMask t .& signal).

(** [wait.h] *)
Definition W_EXITCODE (ret sig : Z) : Z := i32 (Z.shiftl ret 8) .| sig.

Section Scheduler.
Context {L D T H : Type} {TL : ThreadLists L} {RB : RedBlackTree T Region} {MO : MachineOps H}.

Record Process := mkProcess {
  p_Parent : option nat; m_Pid : Z; m_Name : string; p_State : ProcessState; m_Credentials : Credentials;
  m_Status : option Z; m_Exited : bool; m_MainThread : option nat; m_NextTid : Z; m_Children : list nat;
  m_Zombies : list nat; m_Threads : list nat; m_CWD : Z; m_Umask : Z; m_FdTable : FileDescriptorTable D;
  m_AddressSpace : AddressSpace T; p_PageMap : option Z; m_UserStackTop : Z; p_Event : Event
}.
Definition with_parent (x : option nat) (r : Process) : Process :=
  mkProcess x (m_Pid r) (m_Name r) (p_State r) (m_Credentials r) (m_Status r) (m_Exited r) (m_MainThread r) (m_NextTid r) (m_Children r) (m_Zombies r) (m_Threads r) (m_CWD r) (m_Umask r) (m_FdTable r) (m_AddressSpace r) (p_PageMap r) (m_UserStackTop r) (p_Event r).
Definition with_pstate (x : ProcessState) (r : Process) : Process :=
  mkProcess (p_Parent r) (m_Pid r) (m_Name r) x (m_Credentials r) (m_Status r) (m_Exited r) (m_MainThread r) (m_NextTid r) (m_Children r) (m_Zombies r) (m_Threads r) (m_CWD r) (m_Umask r) (m_FdTable r) (m_AddressSpace r) (p_PageMap r) (m_UserStackTop r) (p_Event r).
Definition with_credentials (x : Credentials) (r : Process) : Process :=
  mkProcess (p_Parent r) (m_Pid r) (m_Name r) (p_State r) x (m_Status r) (m_Exited r) (m_MainThread r) (m_NextTid r) (m_Children r) (m_Zombies r) (m_Threads r) (m_CWD r) (m_Umask r) (m_FdTable r) (m_AddressSpace r) (p_PageMap r) (m_UserStackTop r) (p_Event r).
Definition with_status (x : option Z) (r : Process) : Process :=
  mkProcess (p_Parent r) (m_Pid r) (m_Name r) (p_State r) (m_Credentials r) x (m_Exited r) (m_MainThread r) (m_NextTid r) (m_Children r) (m_Zombies r) (m_Threads r) (m_CWD r) (m_Umask r) (m_FdTable r) (m_AddressSpace r) (p_PageMap r) (m_UserStackTop r) (p_Event r).
Definition with_exited (x : bool) (r : Process) : Process :=
  mkProcess (p_Parent r) (m_Pid r) (m_Name r) (p_State r) (m_Credentials r) (m_Status r) x (m_MainThread r) (m_NextTid r) (m_Children r) (m_Zombies r) (m_Threads r) (m_CWD r) (m_Umask r) (m_FdTable r) (m_AddressSpace r) (p_PageMap r) (m_UserStackTop r) (p_Event r).
Definition with_main (x : option nat) (r : Process) : Process :=
  mkProcess (p_Parent r) (m_Pid r) (m_Name r) (p_State r) (m_Credentials r) (m_Status r) (m_Exited r) x (m_NextTid r) (m_Children r) (m_Zombies r) (m_Threads r) (m_CWD r) (m_Umask r) (m_FdTable r) (m_AddressSpace r) (p_PageMap r) (m_UserStackTop r) (p_Event r).
Definition with_next_tid (x : Z) (r : Process) : Process :=
  mkProcess (p_Parent r) (m_Pid r) (m_Name r) (p_State r) (m_Credentials r) (m_Status r) (m_Exited r) (m_MainThread r) x (m_Children r) (m_Zombies r) (m_Threads r) (m_CWD r) (m_Umask r) (m_FdTable r) (m_AddressSpace r) (p_PageMap r) (m_UserStackTop r) (p_Event r).
Definition with_children (x : list nat) (r : Process) : Process :=
  mkProcess (p_Parent r) (m_Pid r) (m_Name r) (p_State r) (m_Credentials r) (m_Status r) (m_Exited r) (m_MainThread r) (m_NextTid r) x (m_Zombies r) (m_Threads r) (m_CWD r) (m_Umask r) (m_FdTable r) (m_AddressSpace r) (p_PageMap r) (m_UserStackTop r) (p_Event r).
Definition with_zombies (x : list nat) (r : Process) : Process :=
  mkProcess (p_Parent r) (m_Pid r) (m_Name r) (p_State r) (m_Credentials r) (m_Status r) (m_Exited r) (m_MainThread r) (m_NextTid r) (m_Children r) x (m_Threads r) (m_CWD r) (m_Umask r) (m_FdTable r) (m_AddressSpace r) (p_PageMap r) (m_UserStackTop r) (p_Event r).
Definition with_threads (x : list nat) (r : Process) : Process :=
  mkProcess (p_Parent r) (m_Pid r) (m_Name r) (p_State r) (m_Credentials r) (m_Status r) (m_Exited r) (m_MainThread r) (m_NextTid r) (m_Children r) (m_Zombies r) x (m_CWD r) (m_Umask r) (m_FdTable r) (m_AddressSpace r) (p_PageMap r) (m_UserStackTop r) (p_Event r).
Definition with_cwd (x : Z) (r : Process) : Process :=
  mkProcess (p_Parent r) (m_Pid r) (m_Name r) (p_State r) (m_Credentials r) (m_Status r) (m_Exited r) (m_MainThread r) (m_NextTid r) (m_Children r) (m_Zombies r) (m_Threads r) x (m_Umask r) (m_FdTable r) (m_AddressSpace r) (p_PageMap r) (m_UserStackTop r) (p_Event r).
Definition with_umask (x : Z) (r : Process) : Process :=
  mkProcess (p_Parent r) (m_Pid r) (m_Name r) (p_State r) (m_Credentials r) (m_Status r) (m_Exited r) (m_MainThread r) (m_NextTid r) (m_Children r) (m_Zombies r) (m_Threads r) (m_CWD r) x (m_FdTable r) (m_AddressSpace r) (p_PageMap r) (m_UserStackTop r) (p_Event r).
Definition with_fds (x : FileDescriptorTable D) (r : Process) : Process :=
  mkProcess (p_Parent r) (m_Pid r) (m_Name r) (p_State r) (m_Credentials r) (m_Status r) (m_Exited r) (m_MainThread r) (m_NextTid r) (m_Children r) (m_Zombies r) (m_Threads r) (m_CWD r) (m_Umask r) x (m_AddressSpace r) (p_PageMap r) (m_UserStackTop r) (p_Event r).
Definition with_space (x : AddressSpace T) (r : Process) : Process :=
  mkProcess (p_Parent r) (m_Pid r) (m_Name r) (p_State r) (m_Credentials r) (m_Status r) (m_Exited r) (m_MainThread r) (m_NextTid r) (m_Children r) (m_Zombies r) (m_Threads r) (m_CWD r) (m_Umask r) (m_FdTable r) x (p_PageMap r) (m_UserStackTop r) (p_Event r).
Definition with_pagemap (x : option Z) (r : Process) : Process :=
  mkProcess (p_Parent r) (m_Pid r) (m_Name r) (p_State r) (m_Credentials r) (m_Status r) (m_Exited r) (m_MainThread r) (m_NextTid r) (m_Children r) (m_Zombies r) (m_Threads r) (m_CWD r) (m_Umask r) (m_FdTable r) (m_AddressSpace r) x (m_UserStackTop r) (p_Event r).
Definition with_stack_top (x : Z) (r : Process) : Process :=
  mkProcess (p_Parent r) (m_Pid r) (m_Name r) (p_State r) (m_Credentials r) (m_Status r) (m_Exited r) (m_MainThread r) (m_NextTid r) (m_Children r) (m_Zombies r) (m_Threads r) (m_CWD r) (m_Umask r) (m_FdTable r) (m_AddressSpace r) (p_PageMap r) x (p_Event r).
Definition with_event (x : Event) (r : Process) : Process :=
  mkProcess (p_Parent r) (m_Pid r) (m_Name r) (p_State r) (m_Credentials r) (m_Status r) (m_Exited r) (m_MainThread r) (m_NextTid r) (m_Children r) (m_Zombies r) (m_Threads r) (m_CWD r) (m_Umask r) (m_FdTable r) (m_AddressSpace r) (p_PageMap r) (m_UserStackTop r) x.
Definition process_IsDead (p : Process) : bool := bool_decide (p_State p = proc_eDead).
Definition PGid (p : Process) : Z := ProcessGroupID (m_Credentials p).
Definition Sid (p : Process) : Z := SessionID (m_Credentials p).

(** The objects, the table of processes by number, the kernel process, the processes [ProcFs]
    shows once it is mounted, the queues of the processor, the thread its GS register points to,
    its idle thread, and memory. *)
Record State := mkState {
  processes : gmap nat Process; threads : gmap nat Thread; next_object : nat; s_Processes : gmap Z nat;
  s_KernelProcess : nat; s_ProcFs : option (gset Z); s_SchedulerEnabled : bool; PreemptionEnabled : bool; queues
  : L; current : option nat; Idle : nat; machine : H
}.
Definition set_processes (x : gmap nat Process) (r : State) : State :=
  mkState x (threads r) (next_object r) (s_Processes r) (s_KernelProcess r) (s_ProcFs r) (s_SchedulerEnabled r) (PreemptionEnabled r) (queues r) (current r) (Idle r) (machine r).
Definition set_threads (x : gmap nat Thread) (r : State) : State :=
  mkState (processes r) x (next_object r) (s_Processes r) (s_KernelProcess r) (s_ProcFs r) (s_SchedulerEnabled r) (PreemptionEnabled r) (queues r) (current r) (Idle r) (machine r).
Definition set_next (x : nat) (r : State) : State :=
  mkState (processes r) (threads r) x (s_Processes r) (s_KernelProcess r) (s_ProcFs r) (s_SchedulerEnabled r) (PreemptionEnabled r) (queues r) (current r) (Idle r) (machine r).
Definition set_table (x : gmap Z nat) (r : State) : State :=
  mkState (processes r) (threads r) (next_object r) x (s_KernelProcess r) (s_ProcFs r) (s_SchedulerEnabled r) (PreemptionEnabled r) (queues r) (current r) (Idle r) (machine r).
Definition set_procfs (x : option (gset Z)) (r : State) : State :=
  mkState (processes r) (threads r) (next_object r) (s_Processes r) (s_KernelProcess r) x (s_SchedulerEnabled r) (PreemptionEnabled r) (queues r) (current r) (Idle r) (machine r).
Definition set_preemption (x : bool) (r : State) : State :=
  mkState (processes r) (threads r) (next_object r) (s_Processes r) (s_KernelProcess r) (s_ProcFs r) (s_SchedulerEnabled r) x (queues r) (current r) (Idle r) (machine r).
Definition set_queues (x : L) (r : State) : State :=
  mkState (processes r) (threads r) (next_object r) (s_Processes r) (s_KernelProcess r) (s_ProcFs r) (s_SchedulerEnabled r) (PreemptionEnabled r) x (current r) (Idle r) (machine r).
Definition set_current (x : option nat) (r : State) : State :=
  mkState (processes r) (threads r) (next_object r) (s_Processes r) (s_KernelProcess r) (s_ProcFs r) (s_SchedulerEnabled r) (PreemptionEnabled r) (queues r) x (Idle r) (machine r).
Definition set_machine (x : H) (r : State) : State :=
  mkState (processes r) (threads r) (next_object r) (s_Processes r) (s_KernelProcess r) (s_ProcFs r) (s_SchedulerEnabled r) (PreemptionEnabled r) (queues r) (current r) (Idle r) x.
Notation M := (M State).

Definition thread_of (t : nat) : M Thread := v ← get; deref (threads v !! t).
Definition process_of (p : nat) : M Process := v ← get; deref (processes v !! p).
Definition modify_thread (t : nat) (f : Thread -> Thread) : M unit :=
  th ← thread_of t; update (fun v => set_threads (<[t := f th]> (threads v)) v).
Definition modify_process (p : nat) (f : Process -> Process) : M unit :=
  pr ← process_of p; update (fun v => set_processes (<[p := f pr]> (processes v)) v).
Definition delete_process (p : nat) : M unit := _ ← process_of p; update (fun v => set_processes (delete p (processes v)) v).
Definition SetState (t : nat) (s : ThreadState) : M unit := modify_thread t (with_state s).
Definition push (q : QueueType) (t : nat) : M unit := update (fun v => set_queues (PushBack q t (queues v)) v).

(** ** The process table *)
Definition ValidatePid (v : State) (pid : Z) : bool := bool_decide (is_Some (s_Processes v !! pid)).
Definition GetProcess (v : State) (pid : Z) : option nat := s_Processes v !! pid.
Definition RemoveProcess (pid : Z) : M unit :=
  _ ← update (fun v => set_table (delete pid (s_Processes v)) v);
  v ← get;
  fs ← deref (s_ProcFs v);
  update (set_procfs (Some (fs ∖ {[pid]}))).

(** ** Queues *)
Definition EnqueueThread (t : nat) : M unit :=
  v ← get;
  _ ← Assert (negb (IsLinked (queues v) t));
  th ← thread_of t;
  if m_IsEnqueued th then mret tt
  else
    _ ← modify_thread t (with_enqueued true);
    _ ← SetState t eReady;
    push QUEUE_TYPE_EXECUTION t.
Definition EnqueueNotReady (t : nat) : M unit :=
  v ← get;
  _ ← Assert (negb (IsLinked (queues v) t));
  _ ← modify_thread t (with_enqueued true);
  th ← thread_of t;
  _ ← (if decide (t_State th = eRunning) then SetState t eReady else mret tt);
  push QUEUE_TYPE_EXECUTION t.
Definition DequeueThread (t : nat) : M unit :=
  v ← get;
  _ ← Assert (IsLinked (queues v) t);
  th ← thread_of t;
  if negb (m_IsEnqueued th) then mret tt
  else
    _ ← modify_thread t (with_enqueued false);
    _ ← SetState t eDequeued;
    update (fun v => set_queues (Unlink t (queues v)) v).
Definition GetNextThread : M (option nat) :=
  v ← get;
  if IsEmpty (queues v) QUEUE_TYPE_EXECUTION then mret None
  else
    let '(l, thread) := PopFrontElement QUEUE_TYPE_EXECUTION (queues v) in
    _ ← update (set_queues l);
    match thread with
    | None => mret None
    | Some t =>
        _ ← modify_thread t (with_enqueued false);
        _ ← Assert (negb (IsLinked l t));
        mret (Some t)
    end.

Definition Unblock (t : nat) : M unit :=
  th ← thread_of t;
  if negb (IsBlocked th) then mret tt
  else
    _ ← SetState t eReady;
    if m_IsEnqueued th then mret tt
    else
      v ← get;
      _ ← (if IsLinked (queues v) t then update (fun v => set_queues (Unlink t (queues v)) v) else mret tt);
      EnqueueThread t.

(** [Yield(false)]: the processor goes on as its idle thread. *)
Definition Yield_idle {A} : M A := _ ← update (fun v => set_current (Some (Idle v)) v); halt.

(** [Event::Trigger] of the event of a process. *)
Definition wake (l : EventListener) : M unit := _ ← modify_thread (Event.Thread l) (with_which (Event.Which l)); Unblock (Event.Thread l).
Definition Trigger_process (p : nat) : M unit :=
  pr ← process_of p;
  let '(e, listeners, _) := Event.Trigger (p_Event pr) false false in
  _ ← each wake listeners;
  modify_process p (with_event e).

(** ** The end of a process *)
Definition adopt (subreaper : option nat) (child : nat) : M unit :=
  _ ← modify_process child (with_parent subreaper);
  s ← deref subreaper;
  modify_process s (fun pr => with_children (m_Children pr ++ [child]) pr).
Definition bequeath (parent : option nat) (zombie : nat) : M unit :=
  _ ← modify_process zombie (with_parent parent);
  s ← deref parent;
  modify_process s (fun pr => with_zombies (m_Zombies pr ++ [zombie]) pr).
Definition end_thread (p : nat) (t : nat) : M unit := _ ← SetState t eExited; modify_process p (with_main (Some t)).

(** [delete] of a null pointer does nothing. *)
Definition delete_PageMap (pm : option Z) (h : H) : H := match pm with None => h | Some pm => machine_delete_PageMap pm h end.
Definition Exit {A} (p : nat) (code : Z) : M A :=
  v ← get;
  _ ← Assert (negb (p =? s_KernelProcess v)%nat);
  _ ← modify_process p (fun pr => with_fds (Clear (m_FdTable pr)) pr);
  currentThread ← deref (current v);
  _ ← modify_thread currentThread (with_tparent (s_KernelProcess v));
  let subreaper := GetProcess v 1 in
  pr ← process_of p;
  _ ← (if 1 <? m_Pid pr then each (adopt subreaper) (m_Children pr) else mret tt);
  _ ← each (bequeath (p_Parent pr)) (m_Zombies pr);
  _ ← modify_process p (with_zombies []);
  _ ← update (fun v => set_machine (delete_PageMap (p_PageMap pr) (machine v)) v);
  _ ← modify_process p (fun pr => with_exited true (with_status (Some (W_EXITCODE code 0)) pr));
  _ ← each (end_thread p) (m_Threads pr);
  _ ← modify_process p (with_threads []);
  _ ← SetState currentThread eExited;
  _ ← modify_process p (with_pstate proc_eDead);
  _ ← RemoveProcess (m_Pid pr);
  _ ← update (fun v => set_machine (machine_LoadPageMap kernel_PageMap (machine v)) v);
  _ ← Trigger_process p;
  Yield_idle.

(** ** Signals *)
(** [1 << signal] on [int], widened; a larger shift is undefined. *)
Definition SendSignal (t : nat) (signal : Z) : M unit :=
  th ← thread_of t;
  if ShouldIgnoreSignal th signal then mret tt
  else if 32 <=? signal then panic
  else modify_thread t (fun th => with_pending (m_PendingSignals th .| u64 (i32 (Z.shiftl 1 signal))) th).

(** The cases of [DispatchSignal]. *)
Inductive action := Terminate | Ignore | DumpCore | Continue | Stop | NotReached.
Definition action_of (signal : Z) : action :=
  match signal with
  | 1 | 2 | 9 | 13 | 14 | 10 | 12 | 26 | 16 | 29 | 27 | 15 => Terminate
  | 17 | 23 | 28 => Ignore
  | 3 | 4 | 5 | 6 | 7 | 8 | 11 | 24 | 25 => DumpCore
  | 18 => Continue
  | 19 | 20 | 21 | 22 => Stop
  | _ => NotReached
  end.
Definition DispatchSignal (t : nat) (signal : Z) : M unit :=
  _ ← Assert (signal <? 32);
  _ ← modify_thread t (fun th => with_pending (Z.ldiff (m_PendingSignals th) (Z.shiftl 1 signal)) th);
  match action_of signal with
  | Terminate =>
      th ← thread_of t;
      pr ← process_of (t_Parent th);
      if m_Pid pr =? PGid pr then mret tt else Exit (t_Parent th) 0
  | NotReached => panic
  | _ => mret tt
  end.
(** The first pending signal that is not masked. *)
Definition first_pending (pendingSignals : Z) : option Z := List.find (fun signal => Z.testbit pendingSignals signal) (seqZ 0 32).
Definition DispatchAnyPendingSignal (t : nat) : M unit :=
  th ← thread_of t;
  match first_pending (u32 (Z.ldiff (m_PendingSignals th) (m_SignalMask th))) with
  | Some signal => DispatchSignal t signal
  | None => mret tt
  end.

Definition Process_SendSignal (p : nat) (signal : Z) : M unit :=
  pr ← process_of p; t ← deref (m_MainThread pr); SendSignal t (signal mod 256).
Definition SendGroupSignal (pgid signal : Z) : M unit :=
  v ← get;
  each (fun p => pr ← process_of p; if PGid pr =? pgid then Process_SendSignal p signal else mret tt) (map_to_list (s_Processes v)).*2.

(** ** Switching threads *)
(** The loop of [PickReadyThread].  A pass over the queue decides it: what is left of it afterwards
    is neither ready nor blocked and is put back for ever. *)
Fixpoint pick_loop (fuel : nat) (newThread : option nat) : M (option nat) :=
  match newThread with
  | None => mret None
  | Some t =>
      th ← thread_of t;
      if decide (t_State th = eReady) then mret (Some t)
      else
        match fuel with
        | O => diverges
        | S fuel =>
            dead ← (if IsDead th then pr ← process_of (t_Parent th); mret (process_IsDead pr) else mret false);
            if (dead : bool) then _ ← delete_process (t_Parent th); pick_loop fuel (Some t)
            else if IsBlocked th then
              _ ← push QUEUE_TYPE_BLOCKED t; next ← GetNextThread; pick_loop fuel next
            else
              _ ← EnqueueNotReady t; next ← GetNextThread; pick_loop fuel next
        end
  end.
Definition PickReadyThread : M nat :=
  v ← get;
  newThread ← GetNextThread;
  newThread ← pick_loop (S (length (contents (queues v) QUEUE_TYPE_EXECUTION))) newThread;
  match newThread with
  | None => v ← get; mret (default (Idle v) (current v))
  | Some t => _ ← DispatchAnyPendingSignal t; mret t
  end.

Definition SaveThread (t : nat) (regs : Registers) : M unit := modify_thread t (with_saved regs).
Definition LoadThread (t : nat) : M Registers :=
  th ← thread_of t;
  pr ← process_of (t_Parent th);
  pm ← deref (p_PageMap pr);
  _ ← update (fun v => set_current (Some t) (set_machine (machine_LoadPageMap pm (machine v)) v));
  mret (t_Saved th).

(** The new thread is loaded and a dead process is deleted. *)
Definition switch_to (currentThread : option nat) (newThread : nat) : M Registers :=
  regs ← LoadThread newThread;
  _ ← (match currentThread with
       | None => mret tt
       | Some c =>
           th ← thread_of c;
           if IsDead th then
             pr ← process_of (t_Parent th);
             v ← get;
             if process_IsDead pr && negb (c =? Idle v)%nat then delete_process (t_Parent th) else mret tt
           else mret tt
       end);
  mret regs.
Definition SwitchContext (newThread : nat) (regs : Registers) : M Registers :=
  v ← get;
  match current v with
  | None => switch_to None newThread
  | Some c =>
      _ ← modify_thread c (with_lock false);
      th ← thread_of c;
      if IsDead th then switch_to (Some c) newThread
      else if (c =? newThread)%nat then _ ← modify_thread c (with_lock true); mret regs
      else
        _ ← (if (c =? Idle v)%nat then mret tt else EnqueueNotReady c);
        _ ← SaveThread c regs;
        switch_to (Some c) newThread
  end.

Definition IsPreemptionEnabled (v : State) : bool := s_SchedulerEnabled v && PreemptionEnabled v.
Definition EnablePreemption : M unit := update (fun v => if s_SchedulerEnabled v then set_preemption true v else v).
Definition DisablePreemption : M unit := update (fun v => if s_SchedulerEnabled v then set_preemption false v else v).
(** Without preemption the null thread is dereferenced for its quantum. *)
Definition Tick (regs : Registers) : M Registers :=
  v ← get;
  if negb (IsPreemptionEnabled v) then panic
  else
    newThread ← PickReadyThread;
    regs ← SwitchContext newThread regs;
    v ← get;
    _ ← (if (newThread =? Idle v)%nat then mret tt else SetState newThread eRunning);
    th ← thread_of newThread;
    _ ← process_of (t_Parent th);
    mret regs.

(** [Yield(true)], up to the interrupt it sends to itself and that interrupt.  The thread returns
    from [Yield] when it runs again and can take its lock. *)
Definition Yield_save (regs : Registers) : M Registers :=
  v ← get;
  t ← deref (current v);
  th ← thread_of t;
  _ ← Assert (negb (YieldAwaitLock th));
  _ ← modify_thread t (with_lock true);
  Tick regs.
Definition yield_returns (v : State) (t : nat) : bool :=
  bool_decide (current v = Some t) && match threads v !! t with Some th => negb (YieldAwaitLock th) | None => false end.

(** The registers are those of the calling thread, and of the thread that runs next. *)
Definition Block (t : nat) (regs : Registers) : M Registers :=
  th ← thread_of t;
  if IsBlocked th then mret regs
  else
    _ ← SetState t eBlocked;
    v ← get;
    if bool_decide (current v = Some t) then Yield_save regs else mret regs.
(** [sched_yield] does not save the caller. *)
Definition SchedYield : M (Z + Z) := Yield_idle.
End Scheduler.
End Scheduler.
