(* ===== verification/SchedulerProofs.v ===== *)
(** * The scheduler: the queues

    The invariant of the queues, and what picking a thread, switching to it, blocking and
    unblocking do to them. *)

From Stdlib Require Import ZArith Lia Bool.
From stdpp Require Import base gmap list numbers strings.
From S2P Require Import Prelude Effects Prism Posix AddressSpace Event FileDescriptors Scheduler.

Import Scheduler.

(** ** Filters *)
Lemma filter_none {A} (P : A -> Prop) `{forall x, Decision (P x)} (l : list A) : (forall x, x ∈ l -> ~ P x) -> filter P l = [].
Proof. intros Hl. induction l as [|x l IH]; [reflexivity|]. rewrite filter_cons_False by (apply Hl; set_solver). apply IH. set_solver. Qed.
Lemma filter_all {A} (P : A -> Prop) `{forall x, Decision (P x)} (l : list A) : (forall x, x ∈ l -> P x) -> filter P l = l.
Proof. intros Hl. induction l as [|x l IH]; [reflexivity|]. rewrite filter_cons_True by (apply Hl; set_solver). f_equal. apply IH. set_solver. Qed.
Lemma filter_same {A} (P Q : A -> Prop) `{forall x, Decision (P x)} `{forall x, Decision (Q x)} (l : list A) : (forall x, x ∈ l -> P x <-> Q x) -> filter P l = filter Q l.
Proof.
  intros Hl. induction l as [|x l IH]; [reflexivity|]. rewrite !filter_cons, IH by set_solver. pose proof (Hl x (list_elem_of_here _ _)).
  destruct (decide (P x)), (decide (Q x)); tauto.
Qed.

Section Scheduler.
Context {L D T H : Type} {TL : ThreadLists L} {RB : RedBlackTree T Region} {MO : MachineOps H}.
Notation State := (@State L D T H).
Implicit Types (v : State) (t c : nat) (th : Thread).

(** ** Reading and changing objects *)
Lemma thread_ret {B} t th (k : Thread -> M State B) v : threads v !! t = Some th -> (thread_of t ≫= k) v = k th v.
Proof. intros E. unfold thread_of. now rewrite bind_assoc, get_ret, E. Qed.
Lemma process_ret {B} p pr (k : Process -> M State B) v : processes v !! p = Some pr -> (process_of p ≫= k) v = k pr v.
Proof. intros E. unfold process_of. now rewrite bind_assoc, get_ret, E. Qed.
Lemma modify_thread_ret {B} t th f (k : unit -> M State B) v : threads v !! t = Some th ->
  (modify_thread t f ≫= k) v = k tt (set_threads (<[t := f th]> (threads v)) v).
Proof. intros E. unfold modify_thread. now rewrite bind_assoc, (thread_ret t th). Qed.
Lemma modify_thread_run t th f v : threads v !! t = Some th -> modify_thread t f v = Ret (set_threads (<[t := f th]> (threads v)) v) tt.
Proof. intros E. unfold modify_thread. now rewrite (thread_ret t th). Qed.
Lemma modify_process_ret {B} p pr f (k : unit -> M State B) v : processes v !! p = Some pr ->
  (modify_process p f ≫= k) v = k tt (set_processes (<[p := f pr]> (processes v)) v).
Proof. intros E. unfold modify_process. now rewrite bind_assoc, (process_ret p pr). Qed.
Lemma push_ret {B} q t (k : unit -> M State B) v : (push q t ≫= k) v = k tt (set_queues (PushBack q t (queues v)) v).
Proof. reflexivity. Qed.

(** ** Queues *)
Definition exec v : list nat := contents (queues v) QUEUE_TYPE_EXECUTION.
Definition waiting v : list nat := contents (queues v) QUEUE_TYPE_BLOCKED.
Definition unlinked (l : L) t : Prop := forall q, t ∉ contents l q.

Lemma IsLinked_false l t : unlinked l t -> IsLinked l t = false.
Proof. intros Hu. apply not_true_is_false. intros [q Hq]%IsLinked_contents. now apply (Hu q). Qed.

(** A thread is on one queue at most, and on it once. *)
Record queues_ok (l : L) : Prop := {
  queues_nodup q : NoDup (contents l q);
  queues_disjoint q q' t : t ∈ contents l q -> t ∈ contents l q' -> q = q';
  queues_unused q : q <> QUEUE_TYPE_EXECUTION -> q <> QUEUE_TYPE_BLOCKED -> contents l q = []
}.
Lemma push_ok q t l : queues_ok l -> unlinked l t -> q = QUEUE_TYPE_EXECUTION \/ q = QUEUE_TYPE_BLOCKED -> queues_ok (PushBack q t l).
Proof.
  intros [Hn Hd Hu] Ht Hq. assert (E := PushBack_contents q) . split.
  - intros q'. rewrite E by now apply IsLinked_false. destruct (decide (q' = q)); [|apply Hn].
    apply NoDup_app. split_and!; [apply Hn| |apply NoDup_singleton]. intros x Hx ->%list_elem_of_singleton. now apply (Ht q).
  - intros q1 q2 x. rewrite !E by now apply IsLinked_false.
    destruct (decide (q1 = q)) as [->|], (decide (q2 = q)) as [->|]; try easy; rewrite ?elem_of_app, ?list_elem_of_singleton.
    + intros [Hx| ->] Hx2; [eauto|]. now apply Ht in Hx2.
    + intros Hx1 [Hx| ->]; [eauto|]. now apply Ht in Hx1.
    + eauto.
  - intros q' H1 H2. rewrite E by now apply IsLinked_false. destruct (decide (q' = q)) as [->|]; [|auto]. now destruct Hq.
Qed.
Lemma pop_ok t ts l : queues_ok l -> contents l QUEUE_TYPE_EXECUTION = t :: ts ->
  queues_ok (PopFrontElement QUEUE_TYPE_EXECUTION l).1 /\ unlinked (PopFrontElement QUEUE_TYPE_EXECUTION l).1 t.
Proof.
  intros [Hn Hd Hu] E. destruct (PopFront_contents _ _ _ _ E) as [_ Hc]. split; [split|].
  - intros q. rewrite Hc. destruct (decide _) as [->|]; [|apply Hn]. specialize (Hn QUEUE_TYPE_EXECUTION). rewrite E in Hn. now apply list.NoDup_cons in Hn as [].
  - intros q1 q2 x. rewrite !Hc. intros H1 H2.
    assert (forall q, x ∈ (if decide (q = QUEUE_TYPE_EXECUTION) then ts else contents l q) -> x ∈ contents l q).
    { intros q Hq. destruct (decide (q = QUEUE_TYPE_EXECUTION)) as [->|]; [|easy]. rewrite E. now apply list_elem_of_further. }
    eauto.
  - intros q H1 H2. rewrite Hc. destruct (decide _); [easy|auto].
  - intros q. rewrite Hc. specialize (Hn QUEUE_TYPE_EXECUTION). rewrite E in Hn. apply list.NoDup_cons in Hn as [Hn _].
    destruct (decide _) as [->|Hq]; [easy|]. intros Hx. apply Hq. apply (Hd q _ t); [easy|]. rewrite E. set_solver.
Qed.
Lemma unlink_ok t l : queues_ok l -> IsLinked l t = true -> queues_ok (Unlink t l) /\ unlinked (Unlink t l) t.
Proof.
  intros [Hn Hd Hu] Hl. split; [split|].
  - intros q. rewrite Unlink_contents by trivial. apply NoDup_filter, Hn.
  - intros q1 q2 x. rewrite !Unlink_contents by trivial. rewrite !list_elem_of_filter. intros [_ H1] [_ H2]. eauto.
  - intros q H1 H2. rewrite Unlink_contents, Hu by trivial. reflexivity.
  - intros q. rewrite Unlink_contents by trivial. rewrite list_elem_of_filter. now intros [? _].
Qed.

(** ** The invariant *)
Definition runnable th : Prop := t_State th = eReady \/ t_State th = eBlocked.
Definition quiet th : Prop := first_pending (u32 (Z.ldiff (m_PendingSignals th) (m_SignalMask th))) = None.
Definition housed v th : Prop := exists pr, processes v !! t_Parent th = Some pr /\ is_Some (p_PageMap pr).

Record scheduler_ok v : Prop := {
  ok_enabled : IsPreemptionEnabled v = true;
  ok_queues : queues_ok (queues v);
  ok_exec t : t ∈ exec v -> exists th, threads v !! t = Some th /\ runnable th;
  ok_waiting t : t ∈ waiting v -> exists th, threads v !! t = Some th /\ t_State th = eBlocked;
  ok_enqueued t th : threads v !! t = Some th -> m_IsEnqueued th = true <-> t ∈ exec v;
  ok_idle : unlinked (queues v) (Idle v) /\ exists th, threads v !! Idle v = Some th /\ t_State th = eReady;
  ok_current : exists c th, current v = Some c /\ threads v !! c = Some th /\ unlinked (queues v) c
    /\ (c <> Idle v -> t_State th = eRunning \/ t_State th = eBlocked);
  ok_threads t th : threads v !! t = Some th -> housed v th /\ quiet th
}.
(** The threads that can run, in the order in which they will. *)
Definition state_is (s : ThreadState) v t : bool := match threads v !! t with Some th => bool_decide (t_State th = s) | None => false end.
Definition ready v : list nat := filter (fun t => state_is eReady v t = true) (exec v).

(** ** Picking a thread *)
(** What picking leaves alone. *)
Definition frame v v' : Prop := processes v' = processes v /\ current v' = current v /\ Idle v' = Idle v
  /\ IsPreemptionEnabled v' = IsPreemptionEnabled v /\ machine v' = machine v /\ s_KernelProcess v' = s_KernelProcess v.
Lemma frame_trans v1 v2 v3 : frame v1 v2 -> frame v2 v3 -> frame v1 v3.
Proof. unfold frame. intuition congruence. Qed.

(** The state after a thread has been taken from the front of the queue. *)
Definition popped v t th : State :=
  set_threads (<[t := with_enqueued false th]> (threads v)) (set_queues (PopFrontElement QUEUE_TYPE_EXECUTION (queues v)).1 v).
Lemma GetNextThread_nil v : exec v = [] -> GetNextThread v = Ret v None.
Proof. intros E. unfold GetNextThread. rewrite get_ret. now rewrite (proj2 (IsEmpty_contents _ _) E). Qed.
Lemma GetNextThread_cons v t ts th : queues_ok (queues v) -> exec v = t :: ts -> threads v !! t = Some th ->
  GetNextThread v = Ret (popped v t th) (Some t).
Proof.
  intros Hq E Hth. unfold GetNextThread. rewrite get_ret.
  destruct (IsEmpty (queues v) QUEUE_TYPE_EXECUTION) eqn:Ee; [apply IsEmpty_contents in Ee; unfold exec in E; congruence|].
  destruct (PopFront_contents _ _ _ _ E) as [Hp Hc]. destruct (pop_ok t ts _ Hq E) as [_ Hu].
  unfold popped. destruct (PopFrontElement QUEUE_TYPE_EXECUTION (queues v)) as [l o] eqn:EP. cbn [fst snd] in *. subst o.
  rewrite update_ret, (modify_thread_ret t th) by exact Hth. now rewrite assert_ret by now rewrite IsLinked_false.
Qed.
Lemma popped_queues v t ts th : queues_ok (queues v) -> exec v = t :: ts ->
  queues_ok (queues (popped v t th)) /\ unlinked (queues (popped v t th)) t /\ exec (popped v t th) = ts /\ waiting (popped v t th) = waiting v.
Proof.
  intros Hq E. destruct (pop_ok t ts _ Hq E) as [Hq' Hu]. destruct (PopFront_contents _ _ _ _ E) as [_ Hc].
  split_and!; trivial; unfold exec, waiting; cbn [queues popped set_threads set_queues]; now rewrite Hc.
Qed.

(** The loop takes blocked threads off the queue until it finds a ready one. *)
Definition unqueued v (x : nat) (taken : list nat) : option Thread :=
  (fun th => if decide (x ∈ taken) then with_enqueued false th else th) <$> threads v !! x.
Record picks v (bs rest : list nat) v' : Prop := {
  picks_are_blocked t : t ∈ bs -> state_is eBlocked v t = true;
  picks_ready t : head rest = Some t -> state_is eReady v t = true;
  picks_exec : exec v' = tail rest;
  picks_waiting : waiting v' = waiting v ++ bs;
  picks_queues : queues_ok (queues v');
  picks_threads x : threads v' !! x = unqueued v x (bs ++ option_list (head rest));
  picks_frame : frame v v'
}.
Lemma unlinked_split l t : queues_ok l -> unlinked l t <-> t ∉ contents l QUEUE_TYPE_EXECUTION /\ t ∉ contents l QUEUE_TYPE_BLOCKED.
Proof.
  intros Hq. split; [intros Hu; split; apply Hu|]. intros [H1 H2] q.
  destruct (decide (q = QUEUE_TYPE_EXECUTION)) as [->|]; [easy|]. destruct (decide (q = QUEUE_TYPE_BLOCKED)) as [->|]; [easy|].
  rewrite (queues_unused _ Hq) by trivial. apply not_elem_of_nil.
Qed.
Lemma with_enqueued_id b th : m_IsEnqueued th = b -> with_enqueued b th = th.
Proof. destruct th. cbn. now intros <-. Qed.
Lemma state_is_iff s v t : state_is s v t = true <-> exists th, threads v !! t = Some th /\ t_State th = s.
Proof.
  unfold state_is. destruct (threads v !! t) as [th|]; [|split; [easy|now intros (? & ? & _)]].
  rewrite bool_decide_eq_true. split; [eauto|]. now intros (? & [= <-] & ?).
Qed.
Lemma state_is_popped s v t th x : threads v !! t = Some th -> state_is s (popped v t th) x = state_is s v x.
Proof.
  intros E. unfold state_is. cbn [threads popped set_threads set_queues]. destruct (decide (x = t)) as [->|].
  - now rewrite lookup_insert_eq, E.
  - now rewrite lookup_insert_ne by congruence.
Qed.

(** The blocked thread in front is moved to the other queue. *)
Definition parked v t : State := set_queues (PushBack QUEUE_TYPE_BLOCKED t (queues v)) v.
Lemma parked_queues v t : queues_ok (queues v) -> unlinked (queues v) t ->
  queues_ok (queues (parked v t)) /\ exec (parked v t) = exec v /\ waiting (parked v t) = waiting v ++ [t].
Proof.
  intros Hq Hu. split_and!; [apply push_ok; auto| |]; unfold exec, waiting, parked; cbn [queues set_queues];
    rewrite PushBack_contents by (now apply IsLinked_false); now destruct (decide _).
Qed.

Lemma unqueued_parked v t th x thx y bs rest : threads v !! t = Some th -> m_IsEnqueued th = false -> threads v !! x = Some thx ->
  x ∈ bs ++ option_list (head rest) ->
  unqueued (popped (parked v t) x thx) y (bs ++ option_list (head rest)) = unqueued v y ((t :: bs) ++ option_list (head rest)).
Proof.
  intros Ht Hf Hx Hin. unfold unqueued. cbn [threads popped set_threads parked set_queues].
  destruct (decide (y = x)) as [->|Hy].
  - rewrite lookup_insert_eq, Hx. cbn [fmap option_fmap option_map]. rewrite !decide_True by (cbn; set_solver). now destruct thx.
  - rewrite lookup_insert_ne by congruence. destruct (decide (y = t)) as [->|Hyt].
    + rewrite Ht. cbn [fmap option_fmap option_map]. rewrite (with_enqueued_id false th) by trivial. now destruct (decide _), (decide _).
    + destruct (threads v !! y); [|reflexivity]. cbn [fmap option_fmap option_map]. destruct (decide (y ∈ bs ++ _)), (decide (y ∈ (t :: bs) ++ _)); try reflexivity; set_solver.
Qed.

Lemma pick_loop_spec l : forall v t th fuel, queues_ok (queues v) -> exec v = l -> unlinked (queues v) t ->
  threads v !! t = Some th -> m_IsEnqueued th = false -> runnable th -> (forall x, x ∈ l -> exists thx, threads v !! x = Some thx /\ runnable thx) ->
  (length l < fuel)%nat ->
  exists bs rest v', t :: l = bs ++ rest /\ pick_loop fuel (Some t) v = Ret v' (head rest) /\ picks v bs rest v'.
Proof.
  induction l as [|x l IH]; intros v t th [|fuel] Hq He Hu Ht Hf Hr Hl Hlt; try (cbn in Hlt; lia); cbn [pick_loop]; rewrite (thread_ret t th) by trivial.
  all: destruct Hr as [Hr|Hr]; [rewrite decide_True by trivial|rewrite decide_False by congruence].
  1, 3: exists [], (t :: exec v), v; rewrite He; split_and!; [reflexivity|reflexivity|]; split; cbn [head tail app option_list]; trivial;
    [set_solver|intros ? [= <-]; apply state_is_iff; eauto|now rewrite app_nil_r| |now unfold frame];
    intros y; unfold unqueued; destruct (decide (y = t)) as [->|]; [rewrite Ht; cbn; rewrite decide_True by set_solver; now rewrite with_enqueued_id|];
    destruct (threads v !! y); [|reflexivity]; cbn; now rewrite decide_False by set_solver.
  all: unfold IsDead, IsBlocked; rewrite !Hr; rewrite bool_decide_eq_true_2 by trivial; rewrite !bool_decide_eq_false_2 by congruence; cbn [orb]; rewrite mret_ret; cbn iota; rewrite push_ret;
    fold (parked v t); destruct (parked_queues v t Hq Hu) as (Hq' & He' & Hw').
  - rewrite (bind_ret _ _ _ _ _ (GetNextThread_nil (parked v t) (eq_trans He' He))). exists [t], [], (parked v t). split_and!; [reflexivity|now destruct fuel|].
    split; cbn [head tail app option_list]; trivial; [intros y ->%list_elem_of_singleton; apply state_is_iff; eauto|discriminate|now rewrite He'| |now unfold frame].
    intros y. unfold unqueued. cbn [threads parked set_queues]. destruct (decide (y = t)) as [->|]; [rewrite Ht; cbn; rewrite decide_True by set_solver; now rewrite with_enqueued_id|].
    destruct (threads v !! y); [|reflexivity]. cbn. now rewrite decide_False by set_solver.
  - destruct (Hl x) as (thx & Hx & Hrx); [set_solver|]. rewrite He in He'.
    rewrite (bind_ret _ _ _ _ _ (GetNextThread_cons (parked v t) x l thx Hq' He' Hx)).
    destruct (popped_queues (parked v t) x l thx Hq' He') as (Hq2 & Hu2 & He2 & Hw2).
    destruct (IH (popped (parked v t) x thx) x (with_enqueued false thx) fuel) as (bs & rest & v' & Hs & Hrun & HP); trivial.
    { cbn. apply lookup_insert_eq. }
    { intros y Hy. destruct (Hl y) as (thy & Hy1 & Hy2); [set_solver|]. exists thy. split; [|trivial]. cbn [threads popped set_threads parked set_queues].
      rewrite lookup_insert_ne; [exact Hy1|]. intros ->. apply (Hu2 QUEUE_TYPE_EXECUTION). unfold exec in He2. now rewrite He2. }
    { cbn in Hlt. lia. }
    assert (Hin : x ∈ bs ++ option_list (head rest)) by (destruct bs; [cbn in Hs; subst rest; set_solver|injection Hs as <- _; set_solver]).
    exists (t :: bs), rest, v'. split_and!; [cbn; now rewrite Hs|exact Hrun|]. destruct HP as [P1 P2 P3 P4 P5 P6 P7].
    assert (Hst : forall s y, state_is s (popped (parked v t) x thx) y = state_is s v y) by (intros; now rewrite state_is_popped).
    split; trivial.
    + intros y [->|Hy]%elem_of_cons; [apply state_is_iff; eauto|]. rewrite <- Hst. auto.
    + intros y Hy. rewrite <- Hst. auto.
    + rewrite P4, Hw2, Hw', <- app_assoc. reflexivity.
    + intros y. rewrite P6. now apply (unqueued_parked v t th).
Qed.
Lemma picks_nil v : queues_ok (queues v) -> exec v = [] -> picks v [] [] v.
Proof.
  intros Hq He. split; [set_solver|discriminate|exact He|now rewrite app_nil_r|exact Hq| |now unfold frame].
  intros x. unfold unqueued. destruct (threads v !! x); [|reflexivity]. cbn. now rewrite decide_False by set_solver.
Qed.
Lemma picks_popped v t ts th bs rest v' : queues_ok (queues v) -> exec v = t :: ts -> threads v !! t = Some th -> t :: ts = bs ++ rest ->
  picks (popped v t th) bs rest v' -> picks v bs rest v'.
Proof.
  intros Hq He Ht Hs [P1 P2 P3 P4 P5 P6 P7]. destruct (popped_queues v t ts th Hq He) as (_ & _ & _ & Hw).
  assert (Hst : forall s y, state_is s (popped v t th) y = state_is s v y) by (intros; now rewrite state_is_popped).
  assert (Hin : t ∈ bs ++ option_list (head rest)) by (destruct bs; [cbn in Hs; subst rest; set_solver|injection Hs as <- _; set_solver]).
  split; trivial.
  - intros y Hy. rewrite <- Hst. auto.
  - intros y Hy. rewrite <- Hst. auto.
  - now rewrite P4, Hw.
  - intros y. rewrite P6. unfold unqueued. cbn [threads popped set_threads set_queues]. destruct (decide (y = t)) as [->|].
    + rewrite lookup_insert_eq, Ht. cbn [fmap option_fmap option_map]. rewrite !decide_True by exact Hin. now destruct th.
    + now rewrite lookup_insert_ne by congruence.
Qed.
Lemma dispatch_quiet v t th : threads v !! t = Some th -> quiet th -> DispatchAnyPendingSignal t v = Ret v tt.
Proof. intros Ht Hq. unfold DispatchAnyPendingSignal. rewrite (thread_ret t th) by trivial. now rewrite Hq. Qed.

(** What picking needs of the queues. *)
Definition pickable v : Prop := queues_ok (queues v) /\ forall t, t ∈ exec v -> exists th, threads v !! t = Some th /\ runnable th /\ quiet th.
Lemma ok_pickable v : scheduler_ok v -> pickable v.
Proof.
  intros Hok. split; [apply Hok|]. intros t Ht. destruct (ok_exec _ Hok t Ht) as (th & H1 & H2). exists th. split_and!; trivial. apply (ok_threads _ Hok t th H1).
Qed.
Lemma PickReadyThread_spec v c : pickable v -> current v = Some c ->
  exists bs rest v', exec v = bs ++ rest /\ picks v bs rest v' /\ PickReadyThread v = Ret v' (default c (head rest)).
Proof.
  intros [Hq Hex] Hc. unfold PickReadyThread. rewrite get_ret. fold (exec v). destruct (exec v) as [|t ts] eqn:He.
  - rewrite (bind_ret _ _ _ _ _ (GetNextThread_nil v He)). exists [], [], v. split_and!; [reflexivity|now apply picks_nil|].
    cbn [pick_loop]. rewrite mret_ret. cbn. unfold mbind, M_bind, get, mret, M_ret. now rewrite Hc.
  - destruct (Hex t) as (th & Ht & Hr & Hqt); [set_solver|].
    rewrite (bind_ret _ _ _ _ _ (GetNextThread_cons v t ts th Hq He Ht)). destruct (popped_queues v t ts th Hq He) as (Hq' & Hu' & He' & Hw').
    destruct (pick_loop_spec ts (popped v t th) t (with_enqueued false th) (S (length (t :: ts)))) as (bs & rest & v' & Hs & Hrun & HP); trivial.
    { cbn. apply lookup_insert_eq. }
    { intros x Hx. destruct (Hex x) as (thx & Hx1 & Hx2 & _); [set_solver|]. exists thx. split; [|trivial]. cbn.
      rewrite lookup_insert_ne; [exact Hx1|]. intros ->. apply (Hu' QUEUE_TYPE_EXECUTION). unfold exec in He'. now rewrite He'. }
    { cbn. lia. }
    rewrite (bind_ret _ _ _ _ _ Hrun). exists bs, rest, v'. split_and!; [exact Hs|now apply (picks_popped v t ts th)|].
    destruct (head rest) as [y|] eqn:Ey.
    + pose proof (picks_popped _ _ _ _ _ _ _ Hq He Ht Hs HP) as HP2. destruct (proj1 (state_is_iff _ _ _) (picks_ready _ _ _ _ HP2 y Ey)) as (thy & Hy & _).
      rewrite (bind_ret _ _ v' v' tt); [reflexivity|]. apply (dispatch_quiet _ y (with_enqueued false thy)).
      * rewrite (picks_threads _ _ _ _ HP2), Ey. unfold unqueued. rewrite Hy. cbn. now rewrite decide_True by set_solver.
      * destruct (Hex y) as (thy' & Hy' & _ & Hqy); [rewrite Hs; destruct rest; [discriminate|injection Ey as ->]; set_solver|]. rewrite Hy in Hy'. injection Hy' as <-. exact Hqy.
    + rewrite get_ret. destruct (picks_frame _ _ _ _ HP) as (_ & Hcur & _). rewrite Hcur. cbn [current popped set_threads set_queues]. now rewrite Hc.
Qed.

(** ** Switching *)
Definition requeued th : Thread := with_state (if decide (t_State th = eRunning) then eReady else t_State th) (with_enqueued true th).
Lemma EnqueueNotReady_run v c th : unlinked (queues v) c -> threads v !! c = Some th ->
  EnqueueNotReady c v = Ret (set_queues (PushBack QUEUE_TYPE_EXECUTION c (queues v)) (set_threads (<[c := requeued th]> (threads v)) v)) tt.
Proof.
  intros Hu Hth. unfold EnqueueNotReady. rewrite get_ret, assert_ret by now rewrite IsLinked_false. rewrite (modify_thread_ret c th) by trivial.
  rewrite (thread_ret c (with_enqueued true th)) by apply lookup_insert_eq. unfold requeued. cbn [t_State with_enqueued].
  destruct (decide (t_State th = eRunning)) as [E|E].
  - unfold SetState. rewrite (modify_thread_ret c (with_enqueued true th)) by apply lookup_insert_eq. cbn [threads set_threads]. now rewrite insert_insert_eq.
  - rewrite mret_ret. now destruct th.
Qed.

(** The interrupted thread after the switch, and the queues. *)
Definition left_thread v c regs th : Thread :=
  with_saved regs (if (c =? Idle v)%nat then with_lock false th else requeued (with_lock false th)).
Definition left_queues v c : L := if (c =? Idle v)%nat then queues v else PushBack QUEUE_TYPE_EXECUTION c (queues v).
Definition switched v c thc t tht regs pm : State :=
  set_threads (<[t := with_state eRunning tht]> (<[c := left_thread v c regs thc]> (threads v)))
    (set_current (Some t) (set_machine (machine_LoadPageMap pm (machine v)) (set_queues (left_queues v c) v))).

Lemma left_not_dead v c regs th : IsDead th = false -> IsDead (left_thread v c regs th) = false.
Proof. unfold left_thread, requeued, IsDead. destruct (c =? Idle v)%nat; cbn; [easy|]. destruct (decide _); [reflexivity|easy]. Qed.

Lemma switch_to_run v c thc t tht pr pm : threads v !! c = Some thc -> IsDead thc = false -> threads v !! t = Some tht ->
  processes v !! t_Parent tht = Some pr -> p_PageMap pr = Some pm ->
  switch_to (Some c) t v = Ret (set_current (Some t) (set_machine (machine_LoadPageMap pm (machine v)) v)) (t_Saved tht).
Proof.
  intros Hc Hd Ht Hp Hpm. unfold switch_to. rewrite (bind_ret _ _ v (set_current (Some t) (set_machine (machine_LoadPageMap pm (machine v)) v)) (t_Saved tht)).
  - rewrite (bind_ret _ _ _ (set_current (Some t) (set_machine (machine_LoadPageMap pm (machine v)) v)) tt); [reflexivity|].
    rewrite (thread_ret c thc) by trivial. now rewrite Hd.
  - unfold LoadThread. now rewrite (thread_ret t tht), (process_ret _ pr), Hpm, deref_ret, update_ret by trivial.
Qed.

Lemma SwitchContext_run v c thc t tht regs pr pm : current v = Some c -> c <> t -> threads v !! c = Some thc -> IsDead thc = false ->
  unlinked (queues v) c -> threads v !! t = Some tht -> processes v !! t_Parent tht = Some pr -> p_PageMap pr = Some pm ->
  SwitchContext t regs v = Ret (set_current (Some t) (set_machine (machine_LoadPageMap pm (machine v)) (set_queues (left_queues v c)
    (set_threads (<[c := left_thread v c regs thc]> (threads v)) v)))) (t_Saved tht).
Proof.
  intros Hcur Hne Hc Hd Hu Ht Hp Hpm. unfold SwitchContext. rewrite get_ret, Hcur. rewrite (modify_thread_ret c thc) by trivial.
  rewrite (thread_ret c (with_lock false thc)) by apply lookup_insert_eq. change (IsDead (with_lock false thc)) with (IsDead thc). rewrite Hd.
  rewrite (proj2 (Nat.eqb_neq c t) Hne).
  set (v1 := set_threads (<[c := with_lock false thc]> (threads v)) v).
  set (v2 := set_queues (left_queues v c) (set_threads (<[c := left_thread v c regs thc]> (threads v)) v)).
  assert (Hstore : (_ ← (if (c =? Idle v)%nat then mret tt else EnqueueNotReady c); _ ← SaveThread c regs; switch_to (Some c) t) v1 = switch_to (Some c) t v2).
  { unfold v2, left_queues, left_thread. destruct (c =? Idle v)%nat.
    - rewrite mret_ret. unfold SaveThread. rewrite (modify_thread_ret c (with_lock false thc)) by apply lookup_insert_eq. cbn [threads v1 set_threads]. now rewrite insert_insert_eq.
    - rewrite (bind_ret _ _ _ _ _ (EnqueueNotReady_run v1 c (with_lock false thc) Hu (lookup_insert_eq _ _ _))).
      unfold SaveThread. rewrite (modify_thread_ret c (requeued (with_lock false thc))) by apply lookup_insert_eq. cbn [threads v1 set_threads set_queues].
      now rewrite !insert_insert_eq. }
  rewrite Hstore. rewrite (switch_to_run v2 c (left_thread v c regs thc) t tht pr pm); trivial.
  - apply lookup_insert_eq.
  - now apply left_not_dead.
  - unfold v2. cbn. now rewrite lookup_insert_ne by congruence.
Qed.
(** ** A tick that finds a ready thread *)
Definition core th th' : Prop := t_Parent th' = t_Parent th /\ m_PendingSignals th' = m_PendingSignals th /\ m_SignalMask th' = m_SignalMask th.
Lemma ok_core v v' : (forall t th, threads v !! t = Some th -> housed v th /\ quiet th) -> processes v' = processes v ->
  (forall x th', threads v' !! x = Some th' -> exists th, threads v !! x = Some th /\ core th th') ->
  forall t th, threads v' !! t = Some th -> housed v' th /\ quiet th.
Proof.
  intros Hok Hp Hc t th' Ht. destruct (Hc _ _ Ht) as (th & Hth & E1 & E2 & E3). destruct (Hok _ _ Hth) as [H1 H2].
  unfold housed, quiet. now rewrite Hp, E1, E2, E3.
Qed.

Section Tick.
Context (v v1 : State) (c : nat) (thc : Thread) (bs rest : list nat) (regs : Registers).
Hypothesis (Hok : scheduler_ok v) (Hcur : current v = Some c) (Hc : threads v !! c = Some thc) (Hcu : unlinked (queues v) c)
  (Hcs : c <> Idle v -> t_State thc = eRunning \/ t_State thc = eBlocked) (Hs : exec v = bs ++ rest) (HP : picks v bs rest v1).

Lemma tick_nodup : NoDup (bs ++ rest).
Proof. rewrite <- Hs. apply (queues_nodup _ (ok_queues _ Hok)). Qed.
Lemma tick_current_fresh : c ∉ bs ++ rest /\ c ∉ waiting v.
Proof. rewrite <- Hs. split; apply Hcu. Qed.
Lemma tick_idle_fresh : Idle v ∉ bs ++ rest /\ Idle v ∉ waiting v.
Proof. rewrite <- Hs. destruct (ok_idle _ Hok) as [Hu _]. split; apply Hu. Qed.
Lemma tick_waiting_fresh x : x ∈ waiting v -> x ∉ bs ++ rest.
Proof. rewrite <- Hs. intros H1 H2. now pose proof (queues_disjoint _ (ok_queues _ Hok) _ _ _ H1 H2). Qed.
Lemma tick_current_alive : IsDead thc = false.
Proof.
  unfold IsDead. destruct (decide (c = Idle v)) as [E|E].
  - destruct (ok_idle _ Hok) as (_ & th & Hi & Hst). rewrite <- E, Hc in Hi. injection Hi as <-. now rewrite Hst.
  - destruct (Hcs E) as [-> | ->]; reflexivity.
Qed.
Lemma tick_current_queued : m_IsEnqueued thc = false.
Proof. apply not_true_is_false. intros E. apply (ok_enqueued _ Hok c thc Hc) in E. now apply (Hcu QUEUE_TYPE_EXECUTION). Qed.
Lemma tick_picked_current : threads v1 !! c = Some thc.
Proof.
  rewrite (picks_threads _ _ _ _ HP). unfold unqueued. rewrite Hc. cbn [fmap option_fmap option_map]. destruct (decide _); [|reflexivity].
  now rewrite with_enqueued_id by apply tick_current_queued.
Qed.
Lemma tick_current_unlinked : unlinked (queues v1) c.
Proof.
  destruct tick_current_fresh as [H1 H2]. apply unlinked_split; [apply HP|]. change (c ∉ exec v1 /\ c ∉ waiting v1). rewrite (picks_exec _ _ _ _ HP), (picks_waiting _ _ _ _ HP).
  destruct rest; set_solver.
Qed.

Section Ready.
Context (t : nat) (ts : list nat) (tht : Thread) (pr : @Process D T) (pm : Z).
Hypothesis (Hrest : rest = t :: ts) (Ht : threads v !! t = Some tht) (Hpr : processes v !! t_Parent tht = Some pr) (Hpm : p_PageMap pr = Some pm).
Notation v' := (switched v1 c thc t (with_enqueued false tht) regs pm).

Lemma tick_ready_ne : t <> c /\ t <> Idle v /\ t ∉ bs /\ t ∉ ts /\ t ∉ waiting v.
Proof.
  pose proof tick_nodup as Hn. pose proof tick_current_fresh as [H1 _]. pose proof tick_idle_fresh as [H2 _].
  assert (H3 : t ∈ waiting v -> t ∉ bs ++ rest) by apply tick_waiting_fresh.
  rewrite Hrest in *. apply NoDup_app in Hn as (_ & Hn1 & Hn2). apply list.NoDup_cons in Hn2 as [Hn2 _]. split_and!; set_solver.
Qed.
Lemma tick_ready_picked : threads v1 !! t = Some (with_enqueued false tht).
Proof.
  rewrite (picks_threads _ _ _ _ HP), Hrest. unfold unqueued. rewrite Ht. cbn [fmap option_fmap option_map head option_list].
  now rewrite decide_True by set_solver.
Qed.
Lemma Tick_ready_run : PickReadyThread v = Ret v1 t -> Tick regs v = Ret v' (t_Saved tht).
Proof.
  intros Hpick. destruct tick_ready_ne as (N1 & N2 & N3 & N4 & N5). destruct (picks_frame _ _ _ _ HP) as (F1 & F2 & F3 & F4 & F5 & F6).
  unfold Tick. rewrite get_ret, (ok_enabled _ Hok). cbn [negb]. rewrite (bind_ret _ _ _ _ _ Hpick).
  assert (HSC := SwitchContext_run v1 c thc t (with_enqueued false tht) regs pr pm (eq_trans F2 Hcur) (not_eq_sym N1) tick_picked_current tick_current_alive
    tick_current_unlinked tick_ready_picked). cbn [t_Parent with_enqueued] in HSC. rewrite F1 in HSC. specialize (HSC Hpr Hpm).
  rewrite (bind_ret _ _ _ _ _ HSC). rewrite get_ret. cbn [Idle set_current set_machine set_queues set_threads]. rewrite F3, (proj2 (Nat.eqb_neq _ _) N2).
  unfold SetState. rewrite (modify_thread_ret t (with_enqueued false tht)) by (cbn; rewrite lookup_insert_ne by congruence; apply tick_ready_picked).
  rewrite (thread_ret t (with_state eRunning (with_enqueued false tht))) by apply lookup_insert_eq.
  rewrite (process_ret _ pr); [reflexivity|]. cbn. now rewrite F1.
Qed.

Lemma tick_ready_threads x : threads v' !! x =
  if decide (x = t) then Some (with_state eRunning (with_enqueued false tht))
  else if decide (x = c) then Some (left_thread v1 c regs thc) else unqueued v x bs.
Proof.
  cbn [threads switched set_threads]. destruct (decide (x = t)) as [->|]; [apply lookup_insert_eq|]. rewrite lookup_insert_ne by congruence.
  destruct (decide (x = c)) as [->|]; [apply lookup_insert_eq|]. rewrite lookup_insert_ne by congruence. rewrite (picks_threads _ _ _ _ HP), Hrest.
  unfold unqueued. destruct (threads v !! x); [|reflexivity]. cbn [fmap option_fmap option_map head option_list].
  change (option_list (Some t)) with [t]. destruct (decide (x ∈ bs ++ [t])), (decide (x ∈ bs)); try reflexivity; exfalso; rewrite elem_of_app, list_elem_of_singleton in *; tauto.
Qed.
Lemma tick_ready_exec : exec v' = ts ++ (if (c =? Idle v)%nat then [] else [c]) /\ waiting v' = waiting v ++ bs /\ queues_ok (queues v').
Proof.
  destruct (picks_frame _ _ _ _ HP) as (_ & _ & F3 & _). pose proof (picks_exec _ _ _ _ HP) as E1. pose proof (picks_waiting _ _ _ _ HP) as E2. pose proof (picks_queues _ _ _ _ HP) as E3.
  unfold exec, waiting in *. cbn [queues switched set_threads set_current set_machine set_queues]. unfold left_queues. rewrite F3. rewrite Hrest in E1. cbn in E1.
  destruct (c =? Idle v)%nat; [rewrite E1, E2, app_nil_r; now split_and!|].
  rewrite !PushBack_contents by apply IsLinked_false, tick_current_unlinked. cbn. rewrite E1, E2. split_and!; trivial. apply push_ok; auto using tick_current_unlinked.
Qed.
Lemma tick_unqueued x th' : unqueued v x bs = Some th' -> exists th, threads v !! x = Some th /\ core th th' /\ t_State th' = t_State th
  /\ (m_IsEnqueued th' = if decide (x ∈ bs) then false else m_IsEnqueued th) /\ t_Saved th' = t_Saved th.
Proof.
  unfold unqueued. destruct (threads v !! x) as [th|]; [|discriminate]. cbn [fmap option_fmap option_map]. intros [= <-].
  exists th. unfold core. destruct (decide _); cbn; now split_and!.
Qed.
Lemma tick_ready_core x th' : threads v' !! x = Some th' -> exists th, threads v !! x = Some th /\ core th th'.
Proof.
  rewrite tick_ready_threads. destruct (decide (x = t)) as [->|]; [intros [= <-]; now exists tht|]. destruct (decide (x = c)) as [->|].
  - intros [= <-]. exists thc. split; [trivial|]. unfold left_thread, requeued. now destruct (c =? Idle v1)%nat.
  - intros Hx. apply tick_unqueued in Hx as (th & H1 & H2 & _). eauto.
Qed.
Lemma tick_left_state : c <> Idle v -> runnable (left_thread v1 c regs thc) /\ m_IsEnqueued (left_thread v1 c regs thc) = true.
Proof.
  intros N. destruct (picks_frame _ _ _ _ HP) as (_ & _ & F3 & _). unfold left_thread, requeued, runnable. rewrite F3, (proj2 (Nat.eqb_neq _ _) N). cbn.
  destruct (Hcs N) as [-> | ->]; cbn; auto.
Qed.
Lemma tick_kept x th : x <> t -> x <> c -> threads v !! x = Some th -> exists th', threads v' !! x = Some th' /\ t_State th' = t_State th
  /\ (m_IsEnqueued th' = if decide (x ∈ bs) then false else m_IsEnqueued th).
Proof.
  intros N1 N2 Hx. rewrite tick_ready_threads, !decide_False by trivial. unfold unqueued. rewrite Hx. cbn [fmap option_fmap option_map].
  eexists. split; [reflexivity|]. now destruct (decide _).
Qed.
Lemma tick_ready_enqueued x th' : threads v' !! x = Some th' -> m_IsEnqueued th' = true <-> x ∈ exec v'.
Proof.
  destruct tick_ready_ne as (N1 & N2 & N3 & N4 & N5). destruct tick_ready_exec as (E1 & _ & _). destruct tick_current_fresh as [C1 _]. rewrite E1, tick_ready_threads.
  destruct (decide (x = t)) as [->|Nt]; [|destruct (decide (x = c)) as [->|Nc]].
  - intros [= <-]. cbn. split; [easy|]. rewrite elem_of_app. destruct (c =? Idle v)%nat; set_solver.
  - intros [= <-]. destruct (Nat.eqb_spec c (Idle v)) as [E|E].
    + unfold left_thread. destruct (picks_frame _ _ _ _ HP) as (_ & _ & F3 & _). rewrite F3, (proj2 (Nat.eqb_eq _ _) E). cbn. rewrite tick_current_queued, Hrest in *. set_solver.
    + rewrite (proj2 (tick_left_state E)). set_solver.
  - intros Hx. apply tick_unqueued in Hx as (th & Hth & _ & _ & -> & _). pose proof (ok_enqueued _ Hok x th Hth) as He. rewrite Hs, Hrest in He.
    pose proof tick_nodup as Hn. rewrite Hrest in Hn. apply NoDup_app in Hn as (_ & Hn & _).
    destruct (decide (x ∈ bs)) as [Hb|Hb]; [|rewrite He]; destruct (c =? Idle v)%nat; set_solver.
Qed.
Lemma tick_ready_exec_ok x : x ∈ exec v' -> exists th, threads v' !! x = Some th /\ runnable th.
Proof.
  destruct tick_ready_ne as (N1 & N2 & N3 & N4 & N5). destruct tick_ready_exec as (-> & _ & _). destruct tick_current_fresh as [C1 _]. rewrite Hrest in C1. intros [Hx|Hx]%elem_of_app.
  - destruct (ok_exec _ Hok x) as (th & Hth & Hr); [rewrite Hs, Hrest; set_solver|].
    destruct (tick_kept x th) as (th' & H1 & H2 & _); trivial; [set_solver|set_solver|]. exists th'. split; [trivial|]. unfold runnable. now rewrite H2.
  - destruct (Nat.eqb_spec c (Idle v)) as [E|E]; [set_solver|]. apply list_elem_of_singleton in Hx as ->. rewrite tick_ready_threads, decide_False, decide_True by congruence.
    eexists. split; [reflexivity|]. now apply tick_left_state.
Qed.
Lemma tick_ready_waiting_ok x : x ∈ waiting v' -> exists th, threads v' !! x = Some th /\ t_State th = eBlocked.
Proof.
  destruct tick_ready_ne as (N1 & N2 & N3 & N4 & N5). destruct tick_ready_exec as (_ & -> & _). destruct tick_current_fresh as [C1 C2]. rewrite Hrest in C1. intros Hx.
  assert (Hth : exists th, threads v !! x = Some th /\ t_State th = eBlocked).
  { apply elem_of_app in Hx as [Hx|Hx]; [now apply (ok_waiting _ Hok)|]. apply state_is_iff. now apply (picks_are_blocked _ _ _ _ HP). }
  destruct Hth as (th & Hth & Hst). destruct (tick_kept x th) as (th' & H1 & H2 & _); trivial; [set_solver|set_solver|]. exists th'. now rewrite H2.
Qed.
Lemma tick_ready_unlinked x : x ∉ exec v' -> x ∉ waiting v' -> unlinked (queues v') x.
Proof. intros H1 H2. apply unlinked_split; [apply tick_ready_exec|]. now split. Qed.
Lemma tick_ready_ok : scheduler_ok v'.
Proof.
  destruct tick_ready_ne as (N1 & N2 & N3 & N4 & N5). destruct tick_ready_exec as (E1 & E2 & E3). destruct (picks_frame _ _ _ _ HP) as (F1 & F2 & F3 & F4 & F5 & F6).
  assert (FI : Idle v' = Idle v) by exact F3. split.
  - now rewrite <- (ok_enabled _ Hok), <- F4.
  - exact E3.
  - exact tick_ready_exec_ok.
  - exact tick_ready_waiting_ok.
  - exact tick_ready_enqueued.
  - rewrite FI. destruct tick_idle_fresh as [I1 I2]. rewrite Hrest in I1. destruct (ok_idle _ Hok) as (_ & th & Hth & Hst). split.
    + apply tick_ready_unlinked; [rewrite E1|rewrite E2]; [destruct (Nat.eqb_spec c (Idle v))|]; set_solver.
    + destruct (decide (Idle v = c)) as [Hi|Hi].
      * exists (left_thread v1 c regs thc). rewrite tick_ready_threads, decide_False, decide_True by congruence. split; [reflexivity|].
        unfold left_thread. rewrite F3, (proj2 (Nat.eqb_eq _ _) (eq_sym Hi)). cbn. congruence.
      * destruct (tick_kept (Idle v) th) as (th' & H1 & H2 & _); trivial; [congruence|]. exists th'. now rewrite H2.
  - exists t, (with_state eRunning (with_enqueued false tht)). rewrite tick_ready_threads, decide_True by trivial. split_and!; trivial; [|auto].
    apply tick_ready_unlinked; [rewrite E1|rewrite E2]; [destruct (c =? Idle v)%nat|]; set_solver.
  - apply (ok_core v v'); [exact (ok_threads _ Hok)|exact F1|exact tick_ready_core].
Qed.
Lemma tick_ready_order : ready v = t :: filter (fun x => state_is eReady v x = true) ts
  /\ ready v' = filter (fun x => state_is eReady v x = true) ts ++ (if (c =? Idle v)%nat || IsBlocked thc then [] else [c]).
Proof.
  destruct tick_ready_ne as (N1 & N2 & N3 & N4 & N5). destruct tick_ready_exec as (E1 & _ & _). destruct (picks_frame _ _ _ _ HP) as (_ & _ & F3 & _).
  destruct tick_current_fresh as [C1 _]. rewrite Hrest in C1. split.
  - unfold ready. rewrite Hs, Hrest, filter_app, filter_cons_True by (apply (picks_ready _ _ _ _ HP); now rewrite Hrest).
    rewrite filter_none; [reflexivity|]. intros x Hx Hr.
    apply (picks_are_blocked _ _ _ _ HP) in Hx. apply state_is_iff in Hx as (? & X1 & X2), Hr as (? & X3 & X4). congruence.
  - unfold ready at 1. rewrite E1, filter_app. f_equal.
    + apply filter_same. intros x Hx. rewrite !state_is_iff. destruct (ok_exec _ Hok x) as (th & Hth & _); [rewrite Hs, Hrest; set_solver|].
      destruct (tick_kept x th) as (th' & H1 & H2 & _); trivial; [set_solver|set_solver|]. rewrite H1, Hth. split; intros (? & [= <-] & ?); eexists; (split; [reflexivity|congruence]).
    + destruct (Nat.eqb_spec c (Idle v)) as [E|E]; [reflexivity|]. cbn [orb]. assert (Hl : threads v' !! c = Some (left_thread v1 c regs thc))
        by (rewrite tick_ready_threads, decide_False, decide_True by congruence; reflexivity).
      unfold IsBlocked. destruct (Hcs E) as [Hst|Hst]; [rewrite bool_decide_eq_false_2 by congruence|rewrite bool_decide_eq_true_2 by trivial].
      * rewrite filter_cons_True; [reflexivity|]. apply state_is_iff. eexists. split; [exact Hl|]. unfold left_thread, requeued. rewrite F3, (proj2 (Nat.eqb_neq _ _) E). cbn. now rewrite Hst.
      * rewrite filter_cons_False; [reflexivity|]. rewrite state_is_iff. intros (? & Hl' & Hst'). rewrite Hl in Hl'. injection Hl' as <-.
        unfold left_thread, requeued in Hst'. rewrite F3, (proj2 (Nat.eqb_neq _ _) E) in Hst'. cbn in Hst'. now rewrite Hst in Hst'.
Qed.
End Ready.
(** Without a ready thread the interrupted one goes on, holding its lock, and is marked running
    whether or not it is blocked. *)
Definition stayed : State := set_threads (<[c := if (c =? Idle v)%nat then with_lock true thc else with_state eRunning (with_lock true thc)]> (threads v1)) v1.
Section None.
Hypothesis (Hrest : rest = []) (Hpick : PickReadyThread v = Ret v1 c).

Lemma Tick_none_run : Tick regs v = Ret stayed regs.
Proof.
  destruct (picks_frame _ _ _ _ HP) as (F1 & F2 & F3 & F4 & F5 & F6). unfold stayed, Tick. rewrite get_ret, (ok_enabled _ Hok). cbn [negb]. rewrite (bind_ret _ _ _ _ _ Hpick).
  set (v2 := set_threads (<[c := with_lock true thc]> (threads v1)) v1). rewrite (bind_ret _ _ _ v2 regs).
  - rewrite get_ret. change (Idle v2) with (Idle v1). rewrite F3. destruct (ok_threads _ Hok c thc Hc) as ((pr & Hpr & _) & _).
    assert (Hv2 : threads v2 !! c = Some (with_lock true thc)) by apply lookup_insert_eq. destruct (c =? Idle v)%nat.
    + rewrite mret_ret. rewrite (thread_ret _ _ _ _ Hv2), (process_ret _ pr); [reflexivity|]. cbn. now rewrite F1.
    + unfold SetState. rewrite (modify_thread_ret _ _ _ _ _ Hv2). rewrite (thread_ret c (with_state eRunning (with_lock true thc))) by apply lookup_insert_eq.
      rewrite (process_ret _ pr); [|cbn; now rewrite F1]. unfold v2. cbn [threads set_threads]. now rewrite insert_insert_eq.
  - unfold SwitchContext. rewrite get_ret. rewrite F2, Hcur. rewrite (modify_thread_ret c thc) by apply tick_picked_current.
    rewrite (thread_ret c (with_lock false thc)) by apply lookup_insert_eq. change (IsDead (with_lock false thc)) with (IsDead thc). rewrite tick_current_alive, Nat.eqb_refl.
    rewrite (modify_thread_ret c (with_lock false thc)) by apply lookup_insert_eq. cbn [threads set_threads]. now rewrite insert_insert_eq.
Qed.
Lemma tick_none_threads x : threads stayed !! x =
  if decide (x = c) then Some (if (c =? Idle v)%nat then with_lock true thc else with_state eRunning (with_lock true thc)) else unqueued v x bs.
Proof.
  unfold stayed. cbn [threads set_threads]. destruct (decide (x = c)) as [->|]; [apply lookup_insert_eq|]. rewrite lookup_insert_ne by congruence.
  rewrite (picks_threads _ _ _ _ HP), Hrest. cbn [head]. change (option_list None) with (@nil nat). now rewrite app_nil_r.
Qed.
Lemma tick_none_queues : exec stayed = [] /\ waiting stayed = waiting v ++ bs.
Proof. split; [exact (eq_trans (picks_exec _ _ _ _ HP) (f_equal tail Hrest))|exact (picks_waiting _ _ _ _ HP)]. Qed.
Lemma tick_none_kept x th : x <> c -> threads v !! x = Some th -> exists th', threads stayed !! x = Some th' /\ core th th' /\ t_State th' = t_State th
  /\ (m_IsEnqueued th' = if decide (x ∈ bs) then false else m_IsEnqueued th).
Proof.
  intros N Hx. rewrite tick_none_threads, decide_False by trivial. unfold unqueued. rewrite Hx. cbn [fmap option_fmap option_map].
  eexists. split; [reflexivity|]. unfold core. now destruct (decide _).
Qed.
Lemma tick_none_ok : scheduler_ok stayed.
Proof.
  destruct tick_none_queues as [E1 E2]. destruct (picks_frame _ _ _ _ HP) as (F1 & F2 & F3 & F4 & F5 & F6). assert (FI : Idle stayed = Idle v) by exact F3.
  destruct tick_current_fresh as [C1 C2]. destruct tick_idle_fresh as [I1 I2]. rewrite Hrest, app_nil_r in C1, I1. pose proof (picks_queues _ _ _ _ HP) as Hq.
  assert (Hun : forall x, x ∉ bs -> x ∉ waiting v -> unlinked (queues stayed) x).
  { intros x H1 H2. apply unlinked_split; [exact Hq|]. fold (exec stayed) (waiting stayed). rewrite E1, E2. set_solver. }
  split.
  - now rewrite <- (ok_enabled _ Hok), <- F4.
  - exact Hq.
  - rewrite E1. set_solver.
  - intros x. rewrite E2. intros Hx.
    assert (Hth : exists th, threads v !! x = Some th /\ t_State th = eBlocked).
    { apply elem_of_app in Hx as [Hx|Hx]; [now apply (ok_waiting _ Hok)|]. apply state_is_iff. now apply (picks_are_blocked _ _ _ _ HP). }
    destruct Hth as (th & Hth & Hst). destruct (tick_none_kept x th) as (th' & H1 & _ & H2 & _); trivial; [set_solver|]. exists th'. now rewrite H2.
  - intros x th'. rewrite E1. split; [|set_solver]. intros He. exfalso. revert He. rewrite tick_none_threads in *. destruct (decide (x = c)) as [->|].
    + injection H0 as <-. destruct (c =? Idle v)%nat; cbn; now rewrite tick_current_queued.
    + intros He. apply tick_unqueued in H0 as (th & Hth & _ & _ & Hq' & _). rewrite He in Hq'. destruct (decide (x ∈ bs)) as [|Hb]; [discriminate|]. symmetry in Hq'.
      apply (ok_enqueued _ Hok x th Hth) in Hq'. rewrite Hs, Hrest, app_nil_r in Hq'. easy.
  - rewrite FI. split; [now apply Hun|]. destruct (ok_idle _ Hok) as (_ & th & Hth & Hst). destruct (decide (Idle v = c)) as [Hi|Hi].
    + eexists. rewrite tick_none_threads, decide_True by trivial. split; [reflexivity|]. rewrite (proj2 (Nat.eqb_eq _ _) (eq_sym Hi)). cbn. congruence.
    + destruct (tick_none_kept (Idle v) th) as (th' & H1 & _ & H2 & _); trivial. exists th'. now rewrite H2.
  - exists c. eexists. rewrite tick_none_threads, decide_True by trivial. split_and!; [exact (eq_trans F2 Hcur)|reflexivity|now apply Hun|]. rewrite FI. intros N.
    rewrite (proj2 (Nat.eqb_neq _ _) N). auto.
  - apply (ok_core v); [exact (ok_threads _ Hok)|exact F1|]. intros x th'. rewrite tick_none_threads. destruct (decide (x = c)) as [->|].
    + intros [= <-]. exists thc. split; [trivial|]. now destruct (c =? Idle v)%nat.
    + intros Hx. apply tick_unqueued in Hx as (th & H1 & H2 & _). eauto.
Qed.
Lemma tick_none_order : ready v = [] /\ ready stayed = [].
Proof.
  destruct tick_none_queues as [E1 _]. unfold ready. rewrite E1. split; [|reflexivity]. rewrite Hs, Hrest, app_nil_r. apply filter_none. intros x Hx Hr.
  apply (picks_are_blocked _ _ _ _ HP) in Hx. apply state_is_iff in Hx as (? & X1 & X2), Hr as (? & X3 & X4). congruence.
Qed.
End None.
End Tick.

(** ** Waking, starting and blocking threads *)
(** A thread off the queues may be changed as long as it is not the running one. *)
Lemma ok_detached v t th th' l : scheduler_ok v -> threads v !! t = Some th -> current v <> Some t -> t <> Idle v ->
  queues_ok l -> unlinked l t -> (forall q, contents l q = filter (.≠ t) (contents (queues v) q)) -> core th th' -> m_IsEnqueued th' = false ->
  scheduler_ok (set_queues l (set_threads (<[t := th']> (threads v)) v)).
Proof.
  intros Hok Ht Hcur Hidle Hq Hu Hl Hcore He.
  assert (Hexec : forall x, x ∈ contents l QUEUE_TYPE_EXECUTION <-> x ≠ t /\ x ∈ exec v) by (intros x; now rewrite Hl, list_elem_of_filter).
  assert (Hwait : forall x, x ∈ contents l QUEUE_TYPE_BLOCKED <-> x ≠ t /\ x ∈ waiting v) by (intros x; now rewrite Hl, list_elem_of_filter).
  assert (Hlinks : forall x, unlinked (queues v) x -> unlinked l x) by (intros x Hx q; rewrite Hl, list_elem_of_filter; intros [_ ?]; now apply (Hx q)).
  split; try apply Hok; unfold exec, waiting; cbn [queues threads set_queues set_threads current Idle processes].
  - exact Hq.
  - intros x [Hx Hx']%Hexec. rewrite lookup_insert_ne by congruence. now apply (ok_exec _ Hok).
  - intros x [Hx Hx']%Hwait. rewrite lookup_insert_ne by congruence. now apply (ok_waiting _ Hok).
  - intros x thx. destruct (decide (x = t)) as [->|].
    + rewrite lookup_insert_eq. intros [= <-]. rewrite He, Hexec. split; [easy|now intros []].
    + rewrite lookup_insert_ne by congruence. intros Hx. rewrite Hexec, (ok_enqueued _ Hok x thx Hx). tauto.
  - destruct (ok_idle _ Hok) as (H1 & thi & H2 & H3). split; [auto|]. exists thi. now rewrite lookup_insert_ne by congruence.
  - destruct (ok_current _ Hok) as (c & thc & H1 & H2 & H3 & H4). exists c, thc. rewrite lookup_insert_ne by congruence. auto.
  - refine (ok_core v (set_queues l (set_threads (<[t := th']> (threads v)) v)) (ok_threads _ Hok) eq_refl _). intros x thx. cbn [threads set_queues set_threads]. destruct (decide (x = t)) as [->|].
    + rewrite lookup_insert_eq. intros [= <-]. eauto.
    + rewrite lookup_insert_ne by congruence. intros. exists thx. now split.
Qed.

Definition appended v t th : State :=
  set_queues (PushBack QUEUE_TYPE_EXECUTION t (queues v)) (set_threads (<[t := with_state eReady (with_enqueued true th)]> (threads v)) v).
Lemma appended_exec v t th : unlinked (queues v) t -> exec (appended v t th) = exec v ++ [t] /\ waiting (appended v t th) = waiting v.
Proof. intros Hu. unfold exec, waiting. cbn [queues appended set_queues]. now rewrite !PushBack_contents by now apply IsLinked_false. Qed.
Lemma appended_ok v t th : scheduler_ok v -> threads v !! t = Some th -> current v <> Some t -> t <> Idle v -> unlinked (queues v) t -> scheduler_ok (appended v t th).
Proof.
  intros Hok Ht Hcur Hidle Hu. destruct (appended_exec v t th Hu) as [E1 E2].
  assert (Hlinks : forall x, x <> t -> unlinked (queues v) x -> unlinked (PushBack QUEUE_TYPE_EXECUTION t (queues v)) x).
  { intros x Hx Hxu q. rewrite PushBack_contents by now apply IsLinked_false. destruct (decide _) as [->|]; [|apply Hxu]. rewrite elem_of_app, list_elem_of_singleton. intros [?|?]; [now apply (Hxu QUEUE_TYPE_EXECUTION)|easy]. }
  split; try apply Hok.
  - apply push_ok; auto. apply Hok.
  - rewrite E1. intros x [Hx| ->%list_elem_of_singleton]%elem_of_app; cbn [threads appended set_queues set_threads].
    + rewrite lookup_insert_ne; [now apply (ok_exec _ Hok)|]. intros ->. now apply (Hu QUEUE_TYPE_EXECUTION).
    + rewrite lookup_insert_eq. eexists. split; [reflexivity|now left].
  - rewrite E2. intros x Hx. cbn [threads appended set_queues set_threads]. rewrite lookup_insert_ne; [now apply (ok_waiting _ Hok)|]. intros ->. now apply (Hu QUEUE_TYPE_BLOCKED).
  - intros x thx. rewrite E1, elem_of_app, list_elem_of_singleton. cbn [threads appended set_queues set_threads]. destruct (decide (x = t)) as [->|].
    + rewrite lookup_insert_eq. intros [= <-]. tauto.
    + rewrite lookup_insert_ne by congruence. intros Hx. rewrite (ok_enqueued _ Hok x thx Hx). tauto.
  - destruct (ok_idle _ Hok) as (H1 & thi & H2 & H3). cbn [threads appended set_queues set_threads Idle queues]. split; [auto|]. exists thi. now rewrite lookup_insert_ne by congruence.
  - destruct (ok_current _ Hok) as (c & thc & H1 & H2 & H3 & H4). cbn [threads appended set_queues set_threads current Idle queues]. exists c, thc. rewrite lookup_insert_ne by congruence. split_and!; trivial. apply Hlinks; [congruence|trivial].
  - apply (ok_core v); [exact (ok_threads _ Hok)|reflexivity|]. intros x thx. cbn [threads appended set_queues set_threads]. destruct (decide (x = t)) as [->|].
    + rewrite lookup_insert_eq. intros [= <-]. now exists th.
    + rewrite lookup_insert_ne by congruence. intros. exists thx. now split.
Qed.
Lemma EnqueueThread_run v t th : threads v !! t = Some th -> unlinked (queues v) t -> m_IsEnqueued th = false -> EnqueueThread t v = Ret (appended v t th) tt.
Proof.
  intros Ht Hu He. unfold EnqueueThread. rewrite get_ret, assert_ret by now rewrite IsLinked_false. rewrite (thread_ret t th), He by trivial.
  rewrite (modify_thread_ret t th) by trivial. unfold SetState. rewrite (modify_thread_ret t (with_enqueued true th)) by apply lookup_insert_eq.
  cbn [threads set_threads]. now rewrite insert_insert_eq.
Qed.
Lemma unlinked_not_enqueued v t th : scheduler_ok v -> threads v !! t = Some th -> unlinked (queues v) t -> m_IsEnqueued th = false.
Proof. intros Hok Ht Hu. apply not_true_is_false. intros E. apply (ok_enqueued _ Hok t th Ht) in E. now apply (Hu QUEUE_TYPE_EXECUTION). Qed.

(** [Unblock] makes a blocked thread ready, on the queue. *)
Definition woken v t th : State := set_threads (<[t := with_state eReady th]> (threads v)) v.
Definition requeue v t th : State :=
  appended (if IsLinked (queues v) t then set_queues (Unlink t (queues v)) (woken v t th) else woken v t th) t (with_state eReady th).
Lemma Unblock_running v t th : threads v !! t = Some th -> t_State th <> eBlocked -> Unblock t v = Ret v tt.
Proof. intros Ht Hs. unfold Unblock. rewrite (thread_ret t th) by trivial. unfold IsBlocked. now rewrite bool_decide_eq_false_2. Qed.
Lemma Unblock_run v t th : scheduler_ok v -> threads v !! t = Some th -> t_State th = eBlocked ->
  Unblock t v = Ret (if m_IsEnqueued th then woken v t th else requeue v t th) tt.
Proof.
  intros Hok Ht Hs. unfold Unblock. rewrite (thread_ret t th) by trivial. unfold IsBlocked. rewrite bool_decide_eq_true_2 by trivial. cbn [negb].
  unfold SetState. rewrite (modify_thread_ret t th) by trivial. fold (woken v t th). destruct (m_IsEnqueued th) eqn:He; [reflexivity|]. rewrite get_ret. change (queues (woken v t th)) with (queues v).
  unfold requeue. destruct (IsLinked (queues v) t) eqn:El.
  - rewrite update_ret. destruct (unlink_ok t (queues v) (ok_queues _ Hok) El) as [_ Hu].
    apply (EnqueueThread_run (set_queues (Unlink t (queues v)) (woken v t th)) t (with_state eReady th)); [apply lookup_insert_eq|exact Hu|exact He].
  - rewrite mret_ret. apply (EnqueueThread_run (woken v t th) t (with_state eReady th)); [apply lookup_insert_eq| |exact He].
    intros q Hq. apply not_true_iff_false in El. apply El, IsLinked_contents. now exists q.
Qed.
Lemma blocked_not_idle v t th : scheduler_ok v -> threads v !! t = Some th -> t_State th = eBlocked -> t <> Idle v.
Proof. intros Hok Ht Hs ->. destruct (ok_idle _ Hok) as (_ & thi & H2 & H3). congruence. Qed.
Lemma Unblock_spec v t th : scheduler_ok v -> threads v !! t = Some th -> t_State th = eBlocked -> current v <> Some t ->
  exists v', Unblock t v = Ret v' tt /\ scheduler_ok v' /\ t ∈ ready v' /\ current v' = current v
  /\ (forall x thx, threads v !! x = Some thx -> exists thx', threads v' !! x = Some thx' /\ t_Saved thx' = t_Saved thx).
Proof.
  intros Hok Ht Hs Hcur. pose proof (blocked_not_idle v t th Hok Ht Hs) as Hidle. rewrite (Unblock_run v t th Hok Ht Hs).
  assert (Hin : forall v', state_is eReady v' t = true -> t ∈ exec v' -> t ∈ ready v') by (intros v' H1 H2; now apply list_elem_of_filter).
  destruct (m_IsEnqueued th) eqn:He.
  - apply (ok_enqueued _ Hok t th Ht) in He as Hex. exists (woken v t th). assert (Hw : t ∉ waiting v) by (intros Hw; now pose proof (queues_disjoint _ (ok_queues _ Hok) _ _ _ Hex Hw)).
    split_and!; trivial.
    + split; try apply Hok; cbn [threads woken set_threads].
      * intros x Hx. destruct (decide (x = t)) as [->|]; [rewrite lookup_insert_eq; eexists; split; [reflexivity|now left]|]. rewrite lookup_insert_ne by congruence. now apply (ok_exec _ Hok).
      * intros x Hx. rewrite lookup_insert_ne by (intros ->; exact (Hw Hx)). now apply (ok_waiting _ Hok).
      * intros x thx. destruct (decide (x = t)) as [->|]; [rewrite lookup_insert_eq; intros [= <-]; exact (ok_enqueued _ Hok t th Ht)|]. rewrite lookup_insert_ne by congruence. apply (ok_enqueued _ Hok).
      * destruct (ok_idle _ Hok) as (H1 & thi & H2 & H3). split; [easy|]. exists thi. rewrite lookup_insert_ne; [easy|]. cbn. congruence.
      * destruct (ok_current _ Hok) as (c & thc & H1 & H2 & H3 & H4). exists c, thc. rewrite lookup_insert_ne by congruence. auto.
      * refine (ok_core v (woken v t th) (ok_threads _ Hok) eq_refl _). intros x thx. cbn [threads woken set_threads]. destruct (decide (x = t)) as [->|]; [rewrite lookup_insert_eq; intros [= <-]; now exists th|].
        rewrite lookup_insert_ne by congruence. intros. exists thx. now split.
    + apply Hin; [|exact Hex]. apply state_is_iff. eexists. split; [apply lookup_insert_eq|reflexivity].
    + intros x thx Hx. cbn [threads woken set_threads]. destruct (decide (x = t)) as [->|]; [rewrite lookup_insert_eq, Ht in *; injection Hx as <-; eauto|]. rewrite lookup_insert_ne by congruence. eauto.
  - set (v0 := if IsLinked (queues v) t then set_queues (Unlink t (queues v)) (woken v t th) else woken v t th).
    assert (Hlist : exists l, v0 = set_queues l (woken v t th) /\ queues_ok l /\ unlinked l t /\ forall q, contents l q = filter (.≠ t) (contents (queues v) q)).
    { unfold v0. destruct (IsLinked (queues v) t) eqn:El.
      - exists (Unlink t (queues v)). destruct (unlink_ok t _ (ok_queues _ Hok) El). split_and!; trivial. intros q. now apply Unlink_contents.
      - exists (queues v). assert (Hu : unlinked (queues v) t) by (intros q Hq; apply not_true_iff_false in El; apply El, IsLinked_contents; now exists q).
        split_and!; trivial; [apply Hok|]. intros q. symmetry. apply filter_all. intros x Hx ->. now apply (Hu q). }
    destruct Hlist as (l & E0 & Hq & Hu & Hl). assert (Hok0 : scheduler_ok v0) by (rewrite E0; apply (ok_detached v t th); trivial; now destruct th).
    assert (Ht0 : threads v0 !! t = Some (with_state eReady th)) by (rewrite E0; apply lookup_insert_eq).
    assert (Hu0 : unlinked (queues v0) t) by now rewrite E0. destruct (appended_exec v0 t (with_state eReady th) Hu0) as [E1 _].
    exists (requeue v t th). unfold requeue. fold v0. split_and!; trivial.
    + apply appended_ok; trivial; rewrite E0; trivial.
    + apply Hin; [apply state_is_iff; eexists; split; [apply lookup_insert_eq|reflexivity]|]. rewrite E1. set_solver.
    + now rewrite E0.
    + intros x thx Hx. cbn [threads appended set_queues set_threads]. rewrite E0. cbn [threads set_queues woken set_threads].
      destruct (decide (x = t)) as [->|]; [rewrite lookup_insert_eq, Ht in *; injection Hx as <-; eauto|]. rewrite !lookup_insert_ne by congruence. eauto.
Qed.
End Scheduler.
