(* ===== verification/SchedulerTheorems.v ===== *)
(** * The scheduler: theorems

    The queues stay consistent, ticks run the ready threads in turn and resume each with the
    registers it was interrupted with; and what goes wrong when a thread blocks alone, yields, is
    woken too early or is sent a signal. *)

From Stdlib Require Import ZArith Lia Bool.
From stdpp Require Import base gmap list numbers strings.
From S2P Require Import Prelude Effects Prism Posix AddressSpace Event FileDescriptors Scheduler SchedulerProofs.

Import Scheduler.

Section Scheduler.
Context {L D T H : Type} {TL : ThreadLists L} {RB : RedBlackTree T Region} {MO : MachineOps H}.
Notation State := (@State L D T H).
Notation Process := (@Process D T).
Implicit Types (v : State) (t c : nat) (th : Thread).

(** ** Round robin *)
(** The abstract scheduler: the thread that runs and those that wait for their turn.  A running
    thread that can go on, and is not the idle thread, goes to the end. *)
Definition round_robin (goes_on : bool) (s : nat * list nat) : nat * list nat :=
  match s with
  | (c, []) => (c, [])
  | (c, t :: ts) => (t, ts ++ if goes_on then [c] else [])
  end.
Definition schedule v : option (nat * list nat) := (fun c => (c, ready v)) <$> current v.
Definition goes_on v c : bool := negb ((c =? Idle v)%nat || state_is eBlocked v c).

(** A tick, in one statement: the switch of the abstract scheduler and what is saved and loaded. *)
Lemma Tick_spec v c regs : scheduler_ok v -> current v = Some c ->
  exists v' regs', Tick regs v = Ret v' regs' /\ scheduler_ok v'
  /\ schedule v' = Some (round_robin (goes_on v c) (c, ready v))
  /\ Idle v' = Idle v
  /\ (forall x th, threads v !! x = Some th -> exists th', threads v' !! x = Some th' /\
        (current v' = Some c \/ x <> c -> t_Saved th' = t_Saved th) /\ (current v' <> Some c -> x = c -> t_Saved th' = regs))
  /\ (current v' = Some c -> regs' = regs) /\ (forall t th, current v' = Some t -> t <> c -> threads v !! t = Some th -> regs' = t_Saved th)
  /\ (forall x, x ∈ exec v' -> x ∈ exec v \/ x = c /\ c <> Idle v).
Proof.
  intros Hok Hcur. destruct (ok_current _ Hok) as (c' & thc & Hc' & Hc & Hcu & Hcs). rewrite Hcur in Hc'. injection Hc' as <-.
  destruct (PickReadyThread_spec v c (ok_pickable v Hok) Hcur) as (bs & rest & v1 & Hs & HP & Hpick).
  destruct (picks_frame _ _ _ _ HP) as (F1 & F2 & F3 & F4 & F5 & F6). destruct rest as [|t ts]; cbn [head default] in Hpick.
  - destruct (tick_none_order v v1 c thc bs [] Hs HP eq_refl) as [R1 R2]. destruct (tick_none_queues v v1 c thc bs [] HP eq_refl) as [Q1 _].
    exists (stayed v v1 c thc), regs. split_and!.
    + now apply (Tick_none_run v v1 c thc bs []).
    + now apply (tick_none_ok v v1 c thc bs []).
    + unfold schedule. change (current (stayed v v1 c thc)) with (current v1). rewrite F2, Hcur, R1. cbn [fmap option_fmap option_map]. now rewrite R2.
    + exact F3.
    + intros x th Hx. destruct (decide (x = c)) as [->|Hne].
      * rewrite Hc in Hx. injection Hx as <-. eexists. rewrite (tick_none_threads v v1 c thc bs [] HP eq_refl), decide_True by trivial.
        split; [reflexivity|]. split; [now destruct (c =? Idle v)%nat|]. intros E. change (current (stayed v v1 c thc)) with (current v1) in E. congruence.
      * rewrite (tick_none_threads v v1 c thc bs [] HP eq_refl), decide_False by trivial. unfold unqueued. rewrite Hx. cbn [fmap option_fmap option_map].
        eexists. split; [reflexivity|]. split; [now destruct (decide _)|easy].
    + easy.
    + intros t th E. change (current (stayed v v1 c thc)) with (current v1) in E. congruence.
    + rewrite Q1. set_solver.
  - assert (Ht' : exists th, threads v !! t = Some th) by (destruct (ok_exec _ Hok t) as (th & ? & _); [rewrite Hs; set_solver|eauto]).
    destruct Ht' as [tht Ht]. destruct (ok_threads _ Hok t tht Ht) as ((pr & Hpr & [pm Hpm]) & _).
    pose proof (tick_ready_ne v v1 c thc bs (t :: ts) Hok Hcur Hc Hcu Hcs Hs HP t ts tht pr pm eq_refl Ht Hpr Hpm) as (N1 & _).
    destruct (tick_ready_order v v1 c thc bs (t :: ts) regs Hok Hcur Hc Hcu Hcs Hs HP t ts tht pr pm eq_refl Ht Hpr Hpm) as [R1 R2].
    destruct (tick_ready_exec v v1 c thc bs (t :: ts) regs Hok Hcur Hc Hcu Hcs Hs HP t ts tht pm eq_refl) as (E1 & _ & _).
    exists (switched v1 c thc t (with_enqueued false tht) regs pm), (t_Saved tht). split_and!.
    + exact (Tick_ready_run v v1 c thc bs (t :: ts) regs Hok Hcur Hc Hcu Hcs Hs HP t ts tht pr pm eq_refl Ht Hpr Hpm Hpick).
    + exact (tick_ready_ok v v1 c thc bs (t :: ts) regs Hok Hcur Hc Hcu Hcs Hs HP t ts tht pr pm eq_refl Ht Hpr Hpm).
    + unfold schedule. change (current (switched _ _ _ _ _ _ _)) with (Some t). cbn [fmap option_fmap option_map]. rewrite R1, R2. cbn [round_robin].
      unfold goes_on, state_is. rewrite Hc. unfold IsBlocked. now destruct (_ || _).
    + exact F3.
    + intros x th Hx. rewrite (tick_ready_threads v v1 c thc bs (t :: ts) regs HP t ts tht pm eq_refl). change (current (switched _ _ _ _ _ _ _)) with (Some t).
      destruct (decide (x = t)) as [->|]; [rewrite Hx in Ht; injection Ht as <-; eexists; split; [reflexivity|]; split; [easy|congruence]|].
      destruct (decide (x = c)) as [->|].
      * eexists. split; [reflexivity|]. split; [intros [[= E]|E]; congruence|]. intros _ _. unfold left_thread. now destruct (c =? Idle v1)%nat.
      * unfold unqueued. rewrite Hx. cbn [fmap option_fmap option_map]. eexists. split; [reflexivity|]. split; [now destruct (decide _)|congruence].
    + intros [= E]. congruence.
    + intros t' th [= <-] _ Hx. congruence.
    + intros x. rewrite E1, elem_of_app. intros [Hx|Hx]; [left; rewrite Hs; set_solver|]. destruct (Nat.eqb_spec c (Idle v)); set_solver.
Qed.

(** C4: The scheduler is round robin: a tick stops the running thread and starts the first of the
    ready threads, in the order in which they became ready; the stopped thread goes to the end,
    unless it is blocked or the idle thread; without a ready thread nothing changes.  It never
    fails, and the queues stay consistent. *)
Theorem Tick_round_robin v c regs : scheduler_ok v -> current v = Some c ->
  exists v' regs', Tick regs v = Ret v' regs' /\ scheduler_ok v' /\ schedule v' = Some (round_robin (goes_on v c) (c, ready v)).
Proof. intros Hok Hc. destruct (Tick_spec v c regs Hok Hc) as (v' & r' & H1 & H2 & H3 & _). eauto. Qed.

(** ** Fairness *)
Fixpoint ticks (rs : list Registers) : M State unit :=
  match rs with
  | [] => mret tt
  | regs :: rs => _ ← Tick regs; ticks rs
  end.
Lemma ok_has_current v : scheduler_ok v -> exists c, current v = Some c.
Proof. intros Hok. destruct (ok_current _ Hok) as (c & _ & Hc & _). eauto. Qed.
Lemma ticks_ok rs : forall v, scheduler_ok v -> exists v', ticks rs v = Ret v' tt /\ scheduler_ok v'.
Proof.
  induction rs as [|regs rs IH]; intros v Hok; [now exists v|]. destruct (ok_has_current v Hok) as [c Hc].
  destruct (Tick_spec v c regs Hok Hc) as (v1 & r1 & H1 & H2 & _). cbn [ticks]. rewrite (bind_ret _ _ _ _ _ H1). now apply IH.
Qed.
(** A ready thread with [k] threads before it runs after [k + 1] ticks. *)
Lemma ready_thread_runs (k : nat) : forall v t rs, scheduler_ok v -> ready v !! k = Some t -> length rs = S k ->
  exists v', ticks rs v = Ret v' tt /\ current v' = Some t.
Proof.
  induction k as [|k IH]; intros v t [|regs rs] Hok Hk Hlen; try discriminate; destruct (ok_has_current v Hok) as [c Hc];
    destruct (Tick_spec v c regs Hok Hc) as (v1 & r1 & H1 & H2 & H3 & _); cbn [ticks]; rewrite (bind_ret _ _ _ _ _ H1);
    unfold schedule in H3; destruct (current v1) as [c1|] eqn:E1; try discriminate; destruct (ready v) as [|t0 ts] eqn:Er; try discriminate; injection H3 as <- Hr.
  - injection Hk as <-. destruct rs; [|discriminate]. now exists v1.
  - apply (IH v1); trivial; [|now injection Hlen]. rewrite Hr. apply lookup_app_l_Some. exact Hk.
Qed.

(** C29: A blocked thread that is unblocked runs again, at the latest after as many ticks as there
    are ready threads then. *)
Theorem unblocked_thread_runs v t th : scheduler_ok v -> threads v !! t = Some th -> t_State th = eBlocked -> current v <> Some t ->
  exists v1 k, Unblock t v = Ret v1 tt /\ (k < length (ready v1))%nat /\
  forall rs, length rs = S k -> exists v2, ticks rs v1 = Ret v2 tt /\ current v2 = Some t.
Proof.
  intros Hok Ht Hs Hcur. destruct (Unblock_spec v t th Hok Ht Hs Hcur) as (v1 & H1 & H2 & H3 & _). apply list_elem_of_lookup_1 in H3 as [k Hk].
  exists v1, k. split_and!; [trivial|now apply lookup_lt_Some in Hk|]. intros rs Hlen. now apply (ready_thread_runs k).
Qed.

(** ** Blocking *)
(** The running thread may change between running and blocked, and take its lock. *)
Definition current_set v c th : State := set_threads (<[c := th]> (threads v)) v.
Lemma current_set_ok v c th th' : scheduler_ok v -> current v = Some c -> c <> Idle v -> threads v !! c = Some th -> core th th' ->
  m_IsEnqueued th' = m_IsEnqueued th -> t_State th' = eRunning \/ t_State th' = eBlocked -> scheduler_ok (current_set v c th').
Proof.
  intros Hok Hcur Hidle Hc Hcore He Hs. destruct (ok_current _ Hok) as (c' & thc & H1 & H2 & H3 & H4). rewrite Hcur in H1. injection H1 as <-.
  split; try apply Hok; cbn [threads current_set set_threads].
  - intros x Hx. rewrite lookup_insert_ne by (intros ->; exact (H3 _ Hx)). exact (ok_exec _ Hok x Hx).
  - intros x Hx. rewrite lookup_insert_ne by (intros ->; exact (H3 _ Hx)). exact (ok_waiting _ Hok x Hx).
  - intros x thx. destruct (decide (x = c)) as [->|]; [rewrite lookup_insert_eq; intros [= <-]; rewrite He; exact (ok_enqueued _ Hok c th Hc)|].
    rewrite lookup_insert_ne by congruence. exact (ok_enqueued _ Hok x thx).
  - destruct (ok_idle _ Hok) as (I1 & thi & I2 & I3). split; [easy|]. exists thi. rewrite lookup_insert_ne; [exact (conj I2 I3)|exact Hidle].
  - exists c, th'. rewrite lookup_insert_eq. split_and!; [exact Hcur|reflexivity|exact H3|now intros _].
  - refine (ok_core v (current_set v c th') (ok_threads _ Hok) eq_refl _). intros x thx. cbn [threads current_set set_threads].
    destruct (decide (x = c)) as [->|]; [rewrite lookup_insert_eq; intros [= <-]; eauto|]. rewrite lookup_insert_ne by congruence. intros. exists thx. now split.
Qed.
Definition blocking th : Thread := with_lock true (with_state eBlocked th).
Lemma Block_run v c th regs : current v = Some c -> threads v !! c = Some th -> t_State th <> eBlocked -> YieldAwaitLock th = false ->
  Block c regs v = Tick regs (current_set v c (blocking th)).
Proof.
  intros Hcur Hc Hs Hl. unfold Block. rewrite (thread_ret c th) by trivial. unfold IsBlocked. rewrite bool_decide_eq_false_2 by trivial.
  unfold SetState. rewrite (modify_thread_ret c th) by trivial. rewrite get_ret. cbn [current set_threads]. rewrite bool_decide_eq_true_2 by trivial.
  unfold Yield_save. rewrite get_ret. cbn [current set_threads]. rewrite Hcur, deref_ret. rewrite (thread_ret c (with_state eBlocked th)) by apply lookup_insert_eq.
  cbn [YieldAwaitLock with_state]. rewrite Hl, assert_ret by trivial. rewrite (modify_thread_ret c (with_state eBlocked th)) by apply lookup_insert_eq.
  cbn [threads set_threads]. rewrite insert_insert_eq. reflexivity.
Qed.
Lemma blocking_ok v c th : scheduler_ok v -> current v = Some c -> c <> Idle v -> threads v !! c = Some th -> scheduler_ok (current_set v c (blocking th)).
Proof. intros. apply (current_set_ok v c th); trivial; [now destruct th|now right]. Qed.
Lemma current_set_ready v c th : scheduler_ok v -> current v = Some c -> ready (current_set v c th) = ready v.
Proof.
  intros Hok Hcur. destruct (ok_current _ Hok) as (c' & thc & H1 & H2 & H3 & _). rewrite Hcur in H1. injection H1 as <-. apply filter_same.
  intros x Hx. unfold state_is. cbn [threads current_set set_threads]. rewrite lookup_insert_ne; [reflexivity|]. intros ->. exact (H3 _ Hx).
Qed.

(** A thread that spins on its lock while nothing else is ready. *)
Definition alone v c : Prop := scheduler_ok v /\ current v = Some c /\ c <> Idle v /\ exec v = [] /\
  exists th, threads v !! c = Some th /\ t_State th = eRunning /\ YieldAwaitLock th = true.
Lemma lone_tick v c regs : scheduler_ok v -> current v = Some c -> c <> Idle v -> ready v = [] -> exists v', Tick regs v = Ret v' regs /\ alone v' c.
Proof.
  intros Hok Hcur Hidle Hr. destruct (ok_current _ Hok) as (c' & thc & Hc' & Hc & Hcu & Hcs). rewrite Hcur in Hc'. injection Hc' as <-.
  destruct (PickReadyThread_spec v c (ok_pickable v Hok) Hcur) as (bs & rest & v1 & Hs & HP & Hpick). destruct rest as [|t ts]; cbn [head default] in Hpick.
  - exists (stayed v v1 c thc). split; [exact (Tick_none_run v v1 c thc bs [] regs Hok Hcur Hc Hcu Hcs HP Hpick)|]. destruct (picks_frame _ _ _ _ HP) as (_ & F2 & F3 & _).
    split_and!; [exact (tick_none_ok v v1 c thc bs [] Hok Hcur Hc Hcu Hcs Hs HP eq_refl Hpick)|exact (eq_trans F2 Hcur)|now change (Idle (stayed v v1 c thc)) with (Idle v1); rewrite F3| |].
    + now destruct (tick_none_queues v v1 c thc bs [] HP eq_refl).
    + eexists. rewrite (tick_none_threads v v1 c thc bs [] HP eq_refl), decide_True, (proj2 (Nat.eqb_neq _ _) Hidle) by trivial. split; [reflexivity|now split].
  - exfalso. assert (Ht : t ∈ ready v); [|rewrite Hr in Ht; set_solver]. unfold ready. rewrite list_elem_of_filter, Hs. split; [now apply (picks_ready _ _ _ _ HP)|set_solver].
Qed.
Lemma alone_ready v c : alone v c -> ready v = [].
Proof. intros (_ & _ & _ & He & _). unfold ready. now rewrite He. Qed.

(** Timer ticks and wake-ups of a thread. *)
Inductive event := Timer (regs : Registers) | Wake.
Fixpoint events (c : nat) (es : list event) : M State unit :=
  match es with
  | [] => mret tt
  | Timer regs :: es => _ ← Tick regs; events c es
  | Wake :: es => _ ← Unblock c; events c es
  end.
(** A thread that blocks while no other is ready is not stopped: it stays the running one and
    spins on a lock that is never free while it runs, whatever ticks and wake-ups for it follow;
    it does not return even after the event it waits for. *)
Theorem lone_thread_never_wakes v c th regs es : scheduler_ok v -> current v = Some c -> c <> Idle v -> ready v = [] ->
  threads v !! c = Some th -> t_State th = eRunning -> YieldAwaitLock th = false ->
  exists v1, Block c regs v = Ret v1 regs /\ exists v2, events c es v1 = Ret v2 tt /\ current v2 = Some c /\ yield_returns v2 c = false.
Proof.
  intros Hok Hcur Hidle Hr Hc Hs Hl. rewrite (Block_run v c th regs) by (trivial; congruence).
  destruct (lone_tick (current_set v c (blocking th)) c regs) as (v1 & H1 & Ha); trivial; [now apply blocking_ok|now rewrite current_set_ready|].
  exists v1. split; [exact H1|]. clear - Ha. revert v1 Ha. induction es as [|[r|] es IH]; intros v1 Ha.
  - exists v1. split; [reflexivity|]. destruct Ha as (_ & Hcur & _ & _ & th & Hc & _ & Hl). split; [trivial|]. unfold yield_returns. rewrite Hc, Hl. apply andb_false_r.
  - destruct (lone_tick v1 c r) as (v2 & H2 & Ha2); [apply Ha|apply Ha|apply Ha|now apply (alone_ready v1 c)|]. cbn [events]. rewrite (bind_ret _ _ _ _ _ H2). now apply IH.
  - destruct Ha as (A1 & A2 & A3 & A4 & th & Hc & Hs & Hl). cbn [events]. rewrite (bind_ret _ _ v1 v1 tt) by (apply (Unblock_running v1 c th); congruence). apply IH. split_and!; trivial. now exists th.
Qed.
(** Blocking a thread whose lock an earlier tick has left taken. *)
Lemma Block_locked_panics v c th regs : current v = Some c -> threads v !! c = Some th -> t_State th <> eBlocked -> YieldAwaitLock th = true -> Block c regs v = Panic.
Proof.
  intros Hcur Hc Hs Hl. unfold Block. rewrite (thread_ret c th) by trivial. unfold IsBlocked. rewrite bool_decide_eq_false_2 by trivial.
  unfold SetState. rewrite (modify_thread_ret c th) by trivial. rewrite get_ret. cbn [current set_threads]. rewrite bool_decide_eq_true_2 by trivial.
  unfold Yield_save. rewrite get_ret. cbn [current set_threads]. rewrite Hcur, deref_ret. rewrite (thread_ret c (with_state eBlocked th)) by apply lookup_insert_eq.
  apply assert_panic. cbn. now rewrite Hl.
Qed.
(** A timer tick that finds no other thread ready leaves the running thread with its lock
    taken; when that thread blocks next, the kernel panics. *)
Theorem block_after_lone_tick_panics v c regs regs' : scheduler_ok v -> current v = Some c -> c <> Idle v -> ready v = [] ->
  exists v1, Tick regs v = Ret v1 regs /\ Block c regs' v1 = Panic.
Proof.
  intros Hok Hcur Hidle Hr. destruct (lone_tick v c regs) as (v1 & H1 & _ & A2 & _ & _ & th & Hc & Hs & Hl); trivial. exists v1. split; [exact H1|].
  apply (Block_locked_panics v1 c th); trivial. congruence.
Qed.

(** ** Histories *)
(** What happens on the processor: timer ticks, the running thread blocks, a thread is woken or
    started.  Each runs to its end: interrupts that wake a thread between its blocking and the switch
    are excluded ([wake_before_switch_panics]). *)
Inductive op := OTick (regs : Registers) | OBlock (regs : Registers) | OUnblock (t : nat) | OEnqueue (t : nat).
Definition run_op (o : op) : M State unit :=
  match o with
  | OTick regs => _ ← Tick regs; mret tt
  | OBlock regs => v ← get; c ← deref (current v); _ ← Block c regs; mret tt
  | OUnblock t => Unblock t
  | OEnqueue t => EnqueueThread t
  end.
(** The idle thread does not block; threads that are woken or started exist, a running thread that
    is woken is not blocked, a thread that is started is new to the queues. *)
Definition legal v (o : op) : Prop :=
  match o with
  | OTick _ => True
  | OBlock _ => current v <> Some (Idle v)
  | OUnblock t => exists th, threads v !! t = Some th /\ (current v = Some t -> t_State th <> eBlocked)
  | OEnqueue t => is_Some (threads v !! t) /\ current v <> Some t /\ t <> Idle v /\ unlinked (queues v) t
  end.
Definition keeps_saved v v' : Prop := forall x th, threads v !! x = Some th -> current v <> Some x ->
  exists th', threads v' !! x = Some th' /\ t_Saved th' = t_Saved th.
(** The running thread still has the lock taken by a tick that did not switch. *)
Definition lock_taken v : Prop := exists c th, current v = Some c /\ threads v !! c = Some th /\ t_State th <> eBlocked /\ YieldAwaitLock th = true.
Lemma op_ok v o : scheduler_ok v -> legal v o -> (exists v', run_op o v = Ret v' tt /\ scheduler_ok v' /\ keeps_saved v v')
  \/ (run_op o v = Panic /\ lock_taken v /\ exists regs, o = OBlock regs).
Proof.
  intros Hok Hl. destruct o as [regs|regs|t|t]; cbn [run_op legal] in *.
  - left. destruct (ok_has_current v Hok) as [c Hc]. destruct (Tick_spec v c regs Hok Hc) as (v' & r' & H1 & H2 & _ & _ & H3 & _).
    exists v'. rewrite (bind_ret _ _ _ _ _ H1). split_and!; trivial. intros x th Hx Hne. destruct (H3 x th Hx) as (th' & E1 & E2 & _). exists th'. split; [trivial|]. apply E2. right. congruence.
  - destruct (ok_current _ Hok) as (c & th & Hc & Hth & _). assert (Hi : c <> Idle v) by congruence. rewrite get_ret, Hc, deref_ret. destruct (decide (t_State th = eBlocked)) as [Hs|Hs].
    + left. exists v. split_and!; trivial; [|intros x thx; eauto]. rewrite (bind_ret _ _ v v regs); [reflexivity|]. unfold Block. rewrite (thread_ret c th) by trivial. unfold IsBlocked. now rewrite bool_decide_eq_true_2.
    + destruct (YieldAwaitLock th) eqn:Hlock.
      { right. split; [|split; [exists c, th; auto|eauto]]. apply bind_panic. now apply (Block_locked_panics v c th). }
      left. assert (Hok1 := blocking_ok v c th Hok Hc Hi Hth). destruct (Tick_spec _ c regs Hok1 Hc) as (v' & r' & H1 & H2 & _ & _ & H3 & _).
      exists v'. rewrite (bind_ret _ _ v v' r') by now rewrite (Block_run v c th). split_and!; trivial. intros x thx Hx Hne. assert (Hxc : x <> c) by congruence.
      destruct (H3 x thx) as (th' & E1 & E2 & _); [cbn; now rewrite lookup_insert_ne by congruence|]. exists th'. split; [trivial|]. apply E2. now right.
  - left. destruct Hl as (th & Ht & Hcur). destruct (decide (t_State th = eBlocked)) as [Hs|Hs].
    + destruct (Unblock_spec v t th Hok Ht Hs) as (v' & H1 & H2 & _ & _ & H3); [intros Hc; now apply Hcur|]. exists v'. split_and!; trivial. intros x thx Hx _. exact (H3 x thx Hx).
    + exists v. split_and!; trivial; [now apply (Unblock_running v t th)|intros x thx; eauto].
  - left. destruct Hl as ([th Ht] & Hcur & Hi & Hu). exists (appended v t th). split_and!; [apply EnqueueThread_run; trivial; now apply (unlinked_not_enqueued v t)|now apply appended_ok|].
    intros x thx Hx _. cbn [threads appended set_queues set_threads]. destruct (decide (x = t)) as [->|]; [rewrite lookup_insert_eq, Ht in *; injection Hx as <-; eauto|]. rewrite lookup_insert_ne by congruence. eauto.
Qed.
Fixpoint run_ops (os : list op) : M State unit := match os with [] => mret tt | o :: os => _ ← run_op o; run_ops os end.
Fixpoint legal_history v (os : list op) : Prop :=
  match os with [] => True | o :: os => legal v o /\ forall v', run_op o v = Ret v' tt -> legal_history v' os end.
(** C10: Along any history of ticks, blocking, waking and starting of threads, each run to its end,
    in which the idle thread does not block, only existing threads are woken (a running one only
    when it is not blocked) and only threads new to the queues are started: the queues stay consistent
    (no thread is on two queues or twice on one, the flag of each thread says whether it is on the run
    queue, the running and the idle thread are on none, the queue of blocked threads holds only
    blocked ones) and nothing loops; the only panic is that of a thread which blocks while it still
    has the lock taken by a tick that found no other thread to run. *)
Theorem scheduler_histories os : forall v, scheduler_ok v -> legal_history v os ->
  (exists v', run_ops os v = Ret v' tt /\ scheduler_ok v')
  \/ (run_ops os v = Panic /\ exists os1 regs os2 v1, os = os1 ++ OBlock regs :: os2 /\ run_ops os1 v = Ret v1 tt /\ scheduler_ok v1 /\ lock_taken v1).
Proof.
  induction os as [|o os IH]; intros v Hok Hl; [left; now exists v|]. destruct Hl as [H1 H2]. cbn [run_ops]. destruct (op_ok v o Hok H1) as [(v1 & E1 & Hok1 & _)|(E1 & Hlock & regs & ->)].
  - rewrite (bind_ret _ _ _ _ _ E1). destruct (IH v1 Hok1 (H2 v1 E1)) as [?|(HP & os1 & regs & os2 & v2 & -> & Hr & Hok2 & Hlock)]; [now left|].
    right. split; [exact HP|]. exists (o :: os1), regs, os2, v2. split_and!; trivial. cbn [run_ops]. now rewrite (bind_ret _ _ _ _ _ E1).
  - right. split; [now apply bind_panic|]. exists [], regs, os, v. now split_and!.
Qed.

(** Steps while a thread is not running. *)
Inductive away (c : nat) : State -> State -> Prop :=
  | away_refl v : away c v v
  | away_step v o v1 v2 : legal v o -> run_op o v = Ret v1 tt -> current v1 <> Some c -> away c v1 v2 -> away c v v2.
(** C13: A thread that is stopped by a tick is resumed with the registers, segment bases and
    floating point state it was stopped with, whatever happens in between. *)
Theorem registers_restored v c regs v1 r1 v2 regs2 v3 r3 : scheduler_ok v -> current v = Some c ->
  Tick regs v = Ret v1 r1 -> current v1 <> Some c -> away c v1 v2 -> Tick regs2 v2 = Ret v3 r3 -> current v3 = Some c -> r3 = regs.
Proof.
  intros Hok Hc H1 Hne Haway H3 Hc3. destruct (ok_current _ Hok) as (c' & thc & Hc' & Hth & _). rewrite Hc in Hc'. injection Hc' as <-.
  destruct (Tick_spec v c regs Hok Hc) as (v1' & r1' & E1 & Hok1 & _ & _ & S1 & _). rewrite H1 in E1. injection E1 as <- <-.
  destruct (S1 c thc Hth) as (th1 & Hth1 & _ & Hsaved). specialize (Hsaved Hne eq_refl). clear S1 H1 Hth thc Hok Hc.
  revert th1 Hth1 Hsaved Hne Hok1. induction Haway as [va|va o vb vc Hl Hrun Hnb _ IH]; intros th1 Hth1 Hsaved Hne Hok1.
  - destruct (ok_has_current _ Hok1) as [c2 Hc2]. destruct (Tick_spec _ c2 regs2 Hok1 Hc2) as (v3' & r3' & E3 & _ & _ & _ & _ & _ & S3 & _). rewrite H3 in E3. injection E3 as <- <-.
    rewrite (S3 c th1 Hc3); [exact Hsaved|congruence|exact Hth1].
  - destruct (op_ok va o Hok1 Hl) as [(vb' & E & Hokb & Hk)|(E & _)]; rewrite Hrun in E; [|discriminate]. injection E as <-. destruct (Hk c th1 Hth1 Hne) as (th2 & Hth2 & Hs2).
    apply (IH H3 th2); trivial. now rewrite Hs2.
Qed.

(** ** Yielding *)
Lemma idle_current_ok v : scheduler_ok v -> scheduler_ok (set_current (Some (Idle v)) v).
Proof.
  intros Hok. split; try apply Hok. destruct (ok_idle _ Hok) as (H1 & th & H2 & H3). exists (Idle v), th. split_and!; trivial. now intros ?.
Qed.
(** [sched_yield] never returns: the calling thread is on no queue afterwards, and no number of
    ticks runs it again. *)
Theorem sched_yield_never_returns v c rs : scheduler_ok v -> current v = Some c -> c <> Idle v ->
  exists v1, SchedYield v = Halted v1 /\ exists v2, ticks rs v1 = Ret v2 tt /\ current v2 <> Some c.
Proof.
  intros Hok Hc Hi. exists (set_current (Some (Idle v)) v). split; [reflexivity|]. destruct (ok_current _ Hok) as (c' & th & Hc' & _ & Hu & _). rewrite Hc in Hc'. injection Hc' as <-.
  assert (Hlost : c ∉ exec (set_current (Some (Idle v)) v)) by apply Hu. assert (Hne : current (set_current (Some (Idle v)) v) <> Some c) by (cbn; congruence).
  apply idle_current_ok in Hok. revert Hok Hlost Hne. generalize (set_current (Some (Idle v)) v) as w. clear. induction rs as [|regs rs IH]; intros w Hok Hlost Hne; [now exists w|].
  destruct (ok_has_current w Hok) as [d Hd]. destruct (Tick_spec w d regs Hok Hd) as (w1 & r1 & H1 & H2 & H3 & _ & _ & _ & _ & H4). cbn [ticks]. rewrite (bind_ret _ _ _ _ _ H1).
  apply IH; trivial.
  - intros Hin. destruct (H4 c Hin) as [?|[-> _]]; [easy|congruence].
  - unfold schedule in H3. destruct (current w1) as [e|] eqn:E; [|discriminate]. injection H3 as H3. destruct (ready w) as [|t ts] eqn:Er; cbn in H3; [injection H3 as -> _; congruence|].
    injection H3 as -> _. intros [= ->]. apply Hlost. assert (Hin : c ∈ ready w) by (rewrite Er; set_solver). now apply list_elem_of_filter in Hin.
Qed.

(** ** A wake-up that comes too early *)
(** Picking among the old queue and the thread put behind it finds a thread of the old queue. *)
Lemma picks_before v c bs rest v' q t : picks v bs rest v' -> q ++ [c] = bs ++ rest -> t ∈ q -> state_is eReady v t = true -> state_is eReady v c = true -> c ∉ q ->
  exists y ys, rest = y :: ys /\ y <> c /\ c ∈ ys.
Proof.
  intros HP Hs Ht Htr Hcr Hcq. assert (Hb : forall x, state_is eReady v x = true -> x ∉ bs).
  { intros x Hx Hin. apply (picks_are_blocked _ _ _ _ HP) in Hin. apply state_is_iff in Hx as (? & X1 & X2), Hin as (? & X3 & X4). congruence. }
  assert (Hc : c ∈ rest) by (assert (Hin : c ∈ bs ++ rest) by (rewrite <- Hs; set_solver); apply elem_of_app in Hin as [Hin|]; [now apply (Hb c Hcr) in Hin|trivial]).
  assert (Ht' : t ∈ rest) by (assert (Hin : t ∈ bs ++ rest) by (rewrite <- Hs; set_solver); apply elem_of_app in Hin as [Hin|]; [now apply (Hb t Htr) in Hin|trivial]).
  destruct rest as [|y ys]; [set_solver|]. exists y, ys. split; [reflexivity|]. assert (Hyc : y <> c).
  { intros ->. destruct ys as [|z ys _] using rev_ind; [set_solver|]. rewrite app_comm_cons, app_assoc in Hs. apply app_inj_tail in Hs as [-> ->]. set_solver. }
  set_solver.
Qed.
(** A thread that is woken between being marked blocked and being switched away from is put on
    the run queue while it runs; if another thread is ready, the switch panics, since the running
    thread is already on a queue. *)
Theorem wake_before_switch_panics v c th regs : scheduler_ok v -> current v = Some c -> c <> Idle v -> threads v !! c = Some th -> YieldAwaitLock th = false ->
  ready v <> [] -> exists v1 v2, SetState c eBlocked v = Ret v1 tt /\ Unblock c v1 = Ret v2 tt /\ Yield_save regs v2 = Panic.
Proof.
  intros Hok Hcur Hi Hc Hl Hr. destruct (ok_current _ Hok) as (c' & thc & Hc' & Hc2 & Hu & _). rewrite Hcur in Hc'. injection Hc' as <-. rewrite Hc in Hc2. injection Hc2 as <-.
  set (th1 := with_state eBlocked th). set (v1 := current_set v c th1). assert (Hok1 : scheduler_ok v1) by (apply (current_set_ok v c th); trivial; [now destruct th|now right]).
  assert (Ht1 : threads v1 !! c = Some th1) by apply lookup_insert_eq. assert (He : m_IsEnqueued th = false) by now apply (unlinked_not_enqueued v c).
  exists v1, (requeue v1 c th1). split; [|split].
  - unfold SetState. now rewrite (modify_thread_run c th).
  - rewrite (Unblock_run v1 c th1 Hok1 Ht1 eq_refl). change (m_IsEnqueued th1) with (m_IsEnqueued th). now rewrite He.
  - unfold requeue. rewrite IsLinked_false by exact Hu. set (th2 := with_state eReady (with_enqueued true (with_state eReady th1))).
    set (v2 := appended (woken v1 c th1) c (with_state eReady th1)). assert (Ht2 : threads v2 !! c = Some th2) by apply lookup_insert_eq.
    unfold Yield_save. rewrite get_ret. change (current v2) with (current v). rewrite Hcur, deref_ret, (thread_ret c th2), assert_ret by (trivial; change (YieldAwaitLock th2) with (YieldAwaitLock th); now rewrite Hl).
    rewrite (modify_thread_ret c th2) by trivial. set (v3 := set_threads (<[c := with_lock true th2]> (threads v2)) v2).
    assert (Ht3 : threads v3 !! c = Some (with_lock true th2)) by apply lookup_insert_eq.
    assert (Hx3 : forall x, x <> c -> threads v3 !! x = threads v !! x) by (intros x Hx; cbn; now rewrite !lookup_insert_ne by congruence).
    assert (E3 : exec v3 = exec v ++ [c]) by exact (proj1 (appended_exec (woken v1 c th1) c (with_state eReady th1) Hu)).
    assert (Hc_exec : c ∉ exec v) by apply Hu.
    assert (Hpk : pickable v3).
    { split; [apply push_ok; [apply Hok|exact Hu|now left]|]. rewrite E3. intros x [Hx| ->%list_elem_of_singleton]%elem_of_app.
      - rewrite Hx3 by (intros ->; easy). now apply (ok_pickable v Hok).
      - exists (with_lock true th2). split_and!; [trivial|now left|]. exact (proj2 (ok_threads _ Hok c th Hc)). }
    destruct (ready v) as [|t ts] eqn:Er; [easy|]. assert (Ht : t ∈ ready v) by (rewrite Er; set_solver). apply list_elem_of_filter in Ht as [Htr Hte].
    destruct (PickReadyThread_spec v3 c Hpk Hcur) as (bs & rest & v4 & Hs & HP & Hpick). rewrite E3 in Hs.
    destruct (picks_before v3 c bs rest v4 (exec v) t HP Hs Hte) as (y & ys & -> & Hy & Hys); trivial.
    { unfold state_is in *. rewrite Hx3; [exact Htr|]. intros ->. easy. }
    { apply state_is_iff. eauto. }
    unfold Tick. rewrite get_ret. change (IsPreemptionEnabled v3) with (IsPreemptionEnabled v). rewrite (ok_enabled _ Hok). cbn [negb]. rewrite (bind_ret _ _ _ _ _ Hpick).
    change (default c (head (y :: ys))) with y. apply bind_panic. unfold SwitchContext. rewrite get_ret. destruct (picks_frame _ _ _ _ HP) as (_ & F2 & F3 & _). rewrite F2. change (current v3) with (current v). rewrite Hcur.
    assert (Ht4 : exists th4, threads v4 !! c = Some th4 /\ IsDead th4 = false).
    { rewrite (picks_threads _ _ _ _ HP). unfold unqueued. rewrite Ht3. cbn [fmap option_fmap option_map]. eexists. split; [reflexivity|]. now destruct (decide _). }
    destruct Ht4 as (th4 & Ht4 & Hd4). rewrite (modify_thread_ret c th4) by trivial. rewrite (thread_ret c (with_lock false th4)) by apply lookup_insert_eq.
    change (IsDead (with_lock false th4)) with (IsDead th4). rewrite Hd4, (proj2 (Nat.eqb_neq c y)) by congruence. rewrite F3. change (Idle v3) with (Idle v). rewrite (proj2 (Nat.eqb_neq c (Idle v)) Hi).
    apply bind_panic. unfold EnqueueNotReady. rewrite get_ret. apply assert_panic. cbn [queues set_threads]. rewrite (proj2 (IsLinked_contents _ _)); [reflexivity|].
    exists QUEUE_TYPE_EXECUTION. fold (exec v4). now rewrite (picks_exec _ _ _ _ HP).
Qed.

(** ** Signals *)
Lemma alter_known {K A} `{Countable K} (f : A -> A) (i : K) (m : gmap K A) x : m !! i = Some x -> <[i := f x]> m = alter f i m.
Proof.
  intros E. apply map_eq. intros j. destruct (decide (j = i)) as [->|]; [now rewrite lookup_insert_eq, lookup_alter_eq, E|].
  now rewrite lookup_insert_ne, lookup_alter_ne by congruence.
Qed.
Lemma modify_thread_alter {B} t f (k : unit -> M State B) v : is_Some (threads v !! t) ->
  (modify_thread t f ≫= k) v = k tt (set_threads (alter f t (threads v)) v).
Proof. intros [th E]. rewrite (modify_thread_ret t th) by trivial. now rewrite (alter_known f t _ th). Qed.
Lemma modify_process_alter {B} p f (k : unit -> M State B) v : is_Some (processes v !! p) ->
  (modify_process p f ≫= k) v = k tt (set_processes (alter f p (processes v)) v).
Proof. intros [pr E]. rewrite (modify_process_ret p pr) by trivial. now rewrite (alter_known f p _ pr). Qed.
Lemma alter_is_Some {K A} `{Countable K} (f : A -> A) (i j : K) (m : gmap K A) : is_Some (m !! j) -> is_Some (alter f i m !! j).
Proof. intros [x E]. destruct (decide (i = j)) as [->|]; [rewrite lookup_alter_eq, E; eauto|rewrite lookup_alter_ne by trivial; eauto]. Qed.

(** The end of a process with one thread and no children, up to the event it triggers. *)
Definition ended_process (code : Z) (t : nat) (pr : Process) : Process :=
  with_pstate proc_eDead (with_threads [] (with_main (Some t) (with_exited true (with_status (Some (W_EXITCODE code 0)) (with_zombies [] (with_fds (Descriptors.Clear (m_FdTable pr)) pr)))))).
Definition ended v (p : nat) (pr : Process) (c t : nat) (fs : gset Z) (code : Z) : State :=
  mkState (alter (ended_process code t) p (processes v))
    (alter (with_state eExited) c (alter (with_state eExited) t (alter (with_tparent (s_KernelProcess v)) c (threads v))))
    (next_object v) (delete (m_Pid pr) (s_Processes v)) (s_KernelProcess v) (Some (fs ∖ {[m_Pid pr]})) (s_SchedulerEnabled v) (PreemptionEnabled v) (queues v) (current v) (Idle v)
    (machine_LoadPageMap kernel_PageMap (delete_PageMap (p_PageMap pr) (machine v))).
Lemma Exit_run {A} v p pr c t fs code : p <> s_KernelProcess v -> processes v !! p = Some pr -> current v = Some c ->
  is_Some (threads v !! c) -> is_Some (threads v !! t) -> m_Children pr = [] -> m_Zombies pr = [] -> m_Threads pr = [t] -> s_ProcFs v = Some fs ->
  Exit (A := A) p code v = (_ ← Trigger_process p; Yield_idle) (ended v p pr c t fs code).
Proof.
  intros Hk Hp Hcur Hc Ht Hch Hz Hts Hfs. unfold Exit. rewrite get_ret, assert_ret by (now rewrite (proj2 (Nat.eqb_neq _ _) Hk)).
  set (pr1 := with_fds (Descriptors.Clear (m_FdTable pr)) pr). rewrite (modify_process_ret p pr) by trivial. rewrite Hcur, deref_ret. rewrite modify_thread_alter by exact Hc.
  rewrite (process_ret p pr1) by apply lookup_insert_eq. change (m_Children pr1) with (m_Children pr). rewrite Hch. cbn [each]. rewrite (bind_ret _ _ _ _ tt) by now destruct (1 <? m_Pid pr1).
  change (m_Zombies pr1) with (m_Zombies pr). rewrite Hz. cbn [each]. rewrite mret_ret. rewrite (modify_process_ret p pr1) by apply lookup_insert_eq. rewrite update_ret.
  change (p_PageMap pr1) with (p_PageMap pr). change (m_Threads pr1) with (m_Threads pr). rewrite Hts. change (m_Pid pr1) with (m_Pid pr).
  cbn [processes threads set_threads set_processes set_machine machine]. rewrite insert_insert_eq.
  rewrite (modify_process_ret p (with_zombies [] pr1)) by apply lookup_insert_eq. cbn [processes threads set_threads set_processes set_machine machine each]. rewrite insert_insert_eq.
  unfold end_thread. rewrite !bind_assoc. unfold SetState. rewrite modify_thread_alter by now apply alter_is_Some. cbn [threads set_threads set_processes set_machine].
  erewrite modify_process_ret by apply lookup_insert_eq. cbn [processes set_threads set_processes set_machine]. rewrite insert_insert_eq, mret_ret.
  erewrite modify_process_ret by apply lookup_insert_eq. cbn [processes set_threads set_processes set_machine]. rewrite insert_insert_eq.
  rewrite modify_thread_alter by now apply alter_is_Some, alter_is_Some. cbn [threads set_threads set_processes set_machine].
  erewrite modify_process_ret by apply lookup_insert_eq. cbn [processes set_threads set_processes set_machine]. rewrite insert_insert_eq.
  unfold RemoveProcess. rewrite !bind_assoc, update_ret, !bind_assoc, get_ret. cbn [s_ProcFs set_table set_threads set_processes set_machine]. rewrite Hfs, bind_assoc, deref_ret, update_ret, update_ret.
  unfold ended. rewrite <- (alter_known _ p _ pr Hp). reflexivity.
Qed.

Lemma Trigger_quiet v p pr : processes v !! p = Some pr -> Listeners (p_Event pr) = [] ->
  Trigger_process p v = Ret (set_processes (<[p := with_event (mkEvent (Pending (p_Event pr) + 1) []) pr]> (processes v)) v) tt.
Proof.
  intros Hp Hl. unfold Trigger_process. rewrite (process_ret p pr) by trivial. unfold Event.Trigger. rewrite Hl. cbn [each]. rewrite mret_ret.
  unfold modify_process. now rewrite (process_ret p pr).
Qed.
Lemma Exit_halts {A} v p pr c t fs code : p <> s_KernelProcess v -> processes v !! p = Some pr -> current v = Some c ->
  is_Some (threads v !! c) -> is_Some (threads v !! t) -> m_Children pr = [] -> m_Zombies pr = [] -> m_Threads pr = [t] -> s_ProcFs v = Some fs ->
  Listeners (p_Event pr) = [] ->
  exists v', Exit (A := A) p code v = Halted v' /\ threads v' = threads (ended v p pr c t fs code) /\ current v' = Some (Idle v) /\ queues v' = queues v
    /\ s_Processes v' = delete (m_Pid pr) (s_Processes v)
    /\ processes v' !! p = Some (with_event (mkEvent (Pending (p_Event pr) + 1) []) (ended_process code t pr)) /\ (forall q, q <> p -> processes v' !! q = processes v !! q).
Proof.
  intros Hk Hp Hcur Hc Ht Hch Hz Hts Hfs Hl. rewrite (Exit_run v p pr c t fs code) by trivial.
  assert (Hp' : processes (ended v p pr c t fs code) !! p = Some (ended_process code t pr)) by (cbn; now rewrite lookup_alter_eq, Hp).
  rewrite (bind_ret _ _ _ _ _ (Trigger_quiet _ p (ended_process code t pr) Hp' Hl)). eexists. split; [reflexivity|]. cbn. split_and!; trivial; [now rewrite lookup_insert_eq|].
  intros q Hq. now rewrite lookup_insert_ne, lookup_alter_ne by congruence.
Qed.

(** A signal that terminates a process is delivered when one of its threads is about to be
    switched to; the process ends as if the interrupted thread had called for it: that thread, of
    any other process, is marked as exited, given to the kernel process, and the processor goes on
    as the idle thread. *)
Theorem signal_ends_interrupted_thread v c thc t tht ts pr signal fs regs : IsPreemptionEnabled v = true -> queues_ok (queues v) -> exec v = t :: ts ->
  threads v !! t = Some tht -> t_State tht = eReady -> processes v !! t_Parent tht = Some pr -> current v = Some c -> c <> t -> threads v !! c = Some thc ->
  first_pending (u32 (Z.ldiff (m_PendingSignals tht) (m_SignalMask tht))) = Some signal -> 0 <= signal < 32 -> action_of signal = Terminate -> m_Pid pr <> PGid pr ->
  t_Parent tht <> s_KernelProcess v -> m_Children pr = [] -> m_Zombies pr = [] -> m_Threads pr = [t] -> s_ProcFs v = Some fs -> Listeners (p_Event pr) = [] ->
  exists v', Tick regs v = Halted v' /\ current v' = Some (Idle v)
    /\ threads v' !! c = Some (with_state eExited (with_tparent (s_KernelProcess v) thc)) /\ state_is eExited v' t = true.
Proof.
  intros Hen Hq He Ht Hst Hp Hcur Hct Hc Hpend Hrange Hact Hpid Hk Hch Hz Hts Hfs Hl. unfold Tick. rewrite get_ret, Hen. cbn [negb].
  set (v1 := popped v t tht). set (tht1 := with_enqueued false tht). assert (Ht1 : threads v1 !! t = Some tht1) by apply lookup_insert_eq.
  set (tht2 := with_pending (Z.ldiff (m_PendingSignals tht) (Z.shiftl 1 signal)) tht1). set (v2 := set_threads (<[t := tht2]> (threads v1)) v1).
  assert (Ht2 : threads v2 !! t = Some tht2) by apply lookup_insert_eq. assert (Hc2 : threads v2 !! c = Some thc) by (cbn; now rewrite !lookup_insert_ne by congruence).
  destruct (Exit_halts (A := unit) v2 (t_Parent tht) pr c t fs 0) as (v' & HE & Hth & Hcur' & _); trivial.
  assert (Hpick : PickReadyThread v = Halted v').
  { unfold PickReadyThread. rewrite get_ret. rewrite (bind_ret _ _ _ _ _ (GetNextThread_cons v t ts tht Hq He Ht)). fold v1. fold (exec v). rewrite He. cbn [length pick_loop].
    rewrite (bind_ret _ _ v1 v1 (Some t)) by (rewrite (thread_ret t tht1) by trivial; now rewrite decide_True). apply bind_halted. unfold DispatchAnyPendingSignal. rewrite (thread_ret t tht1) by trivial.
    change (m_PendingSignals tht1) with (m_PendingSignals tht). change (m_SignalMask tht1) with (m_SignalMask tht). rewrite Hpend. unfold DispatchSignal. rewrite assert_ret by (apply Z.ltb_lt; lia).
    rewrite (modify_thread_ret t tht1) by trivial. rewrite Hact. change (with_pending _ tht1) with tht2. fold v2. rewrite (thread_ret t tht2), (process_ret _ pr) by trivial.
    rewrite (proj2 (Z.eqb_neq _ _) Hpid). exact HE. }
  exists v'. split; [now apply bind_halted|]. split; [exact Hcur'|]. rewrite Hth. change (threads (ended v2 (t_Parent tht) pr c t fs 0)) with
    (alter (with_state eExited) c (alter (with_state eExited) t (alter (with_tparent (s_KernelProcess v)) c (threads v2)))). split.
  - now rewrite lookup_alter_eq, lookup_alter_ne, lookup_alter_eq, Hc2 by congruence.
  - apply state_is_iff. rewrite Hth. exists (with_state eExited tht2). split; [|reflexivity]. cbn [threads ended]. rewrite lookup_alter_ne by congruence. rewrite lookup_alter_eq.
    rewrite lookup_alter_ne by congruence. now rewrite Ht2.
Qed.
End Scheduler.

(** ** Examples *)
(** The queues as functions to lists, and memory that is not looked at. *)
Definition ref_links (l : QueueType -> list nat) (t : nat) : bool :=
  existsb (fun q => bool_decide (t ∈ l q)) [QUEUE_TYPE_EXECUTION; QUEUE_TYPE_WAIT; QUEUE_TYPE_READY; QUEUE_TYPE_BLOCKED].
#[export] Program Instance lists_ref : ThreadLists (QueueType -> list nat) := {|
  lists_empty _ := [];
  PushBack q t l q' := if decide (q' = q) then l q ++ [t] else l q';
  PopFrontElement q l := match l q with [] => (l, None) | t :: ts => (fun q' => if decide (q' = q) then ts else l q', Some t) end;
  IsEmpty l q := bool_decide (l q = []);
  IsLinked := ref_links;
  Unlink t l q := filter (.≠ t) (l q);
  contents l q := l q
|}.
Next Obligation. reflexivity. Qed.
Next Obligation. reflexivity. Qed.
Next Obligation. intros q t ts l E. simpl in *. now rewrite E. Qed.
Next Obligation. intros l q. apply bool_decide_eq_true. Qed.
Next Obligation.
  intros l t. unfold ref_links. rewrite existsb_exists. split; [intros (q & _ & Hq%bool_decide_eq_true); now exists q|].
  intros [q Hq]. exists q. split; [destruct q; simpl; tauto|now apply bool_decide_eq_true].
Qed.
Next Obligation. reflexivity. Qed.
#[export] Instance machine_ref : MachineOps unit := {|
  machine_new_PageMap h := (h, Some 0); machine_delete_PageMap _ h := h; machine_LoadPageMap _ h := h; machine_AllocatePages _ h := (h, 4096); machine_CallocatePages _ h := (h, 4096);
  machine_Copy _ _ _ h := h; machine_MapRange _ _ _ _ h := (h, true); kernel_PageMap := 0
|}.

Definition example_context (n : Z) : CPUContext := mkContext 0 0 0 0 0 0 0 0 0 0 0 0 0 0 0 0 0 0 0 n 0 0 0 0.
Definition example_registers (n : Z) : Registers := mkRegisters (example_context n) 0 0 0.
Definition example_thread (tid : Z) (st : ThreadState) (parent : nat) (enqueued : bool) (pending : Z) : Thread :=
  mkThread tid st parent true enqueued 0 pending 0 false (example_registers tid) (example_context 0) [].
Definition example_process (parent : option nat) (pid : Z) (creds : Credentials) (ts : list nat) : @Process unit unit :=
  mkProcess parent pid "" proc_eRunning creds None false (head ts) pid [] [] ts 0 0 (Descriptors.mkTable ∅ 3) (mkSpace tt (mkRange 0 0)) (Some 1) 0 (mkEvent 0 []).
(** The kernel (object 0) and two processes (10 and 20) of group 10; the idle thread 0, the running
    thread 1, the ready threads [ready] and the blocked thread 3. *)
Definition example_state (queue : list nat) (pending : Z) : @State (QueueType -> list nat) unit unit unit :=
  mkState {[ 0%nat := example_process None 0 s_Root [0%nat];
             10%nat := example_process (Some 0%nat) 10 (mkCredentials 0 0 0 0 0 0 0 0 10 10) [1%nat];
             20%nat := example_process (Some 10%nat) 20 (mkCredentials 0 0 0 0 0 0 0 0 10 10) [2%nat] ]}
    {[ 0%nat := example_thread 0 eReady 0 false 0; 1%nat := example_thread 10 eRunning 10 false 0;
       2%nat := example_thread 20 (if queue is [] then eBlocked else eReady) 20 (if queue is [] then false else true) pending; 3%nat := example_thread 30 eBlocked 10 false 0 ]}
    100 {[ 0 := 0%nat; 10 := 10%nat; 20 := 20%nat ]} 0 (Some {[ 0; 10; 20 ]}) true true
    (fun q => match q with QUEUE_TYPE_EXECUTION => queue | QUEUE_TYPE_BLOCKED => if queue is [] then [2%nat; 3%nat] else [3%nat] | _ => [] end) (Some 1%nat) 0 tt.

Ltac cases_of_map H := repeat (apply lookup_insert_Some in H as [[<- <-]|[_ H]]); try (apply lookup_singleton_Some in H as [<- <-]).
Lemma example_scheduler_ok queue : queue = [] \/ queue = [2%nat] -> scheduler_ok (example_state queue 0).
Proof.
  intros Hq. split.
  - reflexivity.
  - split; [intros []|intros [] []|intros []]; destruct Hq as [-> | ->]; cbn; try easy; try (intros t; set_solver); repeat constructor; set_solver.
  - intros t. destruct Hq as [-> | ->]; unfold exec; cbn; [set_solver|]. intros ->%list_elem_of_singleton. eexists. split; [reflexivity|now left].
  - intros t. destruct Hq as [-> | ->]; unfold waiting; cbn; intros Ht; repeat (apply elem_of_cons in Ht as [->|Ht]); try (now eexists; split; [reflexivity|]); set_solver.
  - intros t th Ht. cbn in Ht. unfold exec. cbn. destruct Hq as [-> | ->]; cases_of_map Ht; cbn; set_solver.
  - split; [|now eexists]. intros q. destruct Hq as [-> | ->], q; cbn; set_solver.
  - exists 1%nat, (example_thread 10 eRunning 10 false 0). split_and!; [reflexivity|reflexivity| |now left]. intros q. destruct Hq as [-> | ->], q; cbn; set_solver.
  - intros t th Ht. destruct Hq as [-> | ->]; cbn in Ht; cases_of_map Ht; (split; [now eexists|reflexivity]).
Qed.
Notation example_ready := (example_state [2%nat] 0).
Notation example_alone := (example_state [] 0).
Lemma example_ready_ok : scheduler_ok example_ready.
Proof. apply example_scheduler_ok. now right. Qed.
Lemma example_alone_ok : scheduler_ok example_alone.
Proof. apply example_scheduler_ok. now left. Qed.

(** Thread 2 runs after the tick, and thread 1 waits for its turn. *)
Lemma Tick_round_robin_witness : exists v' regs', Tick (example_registers 7) example_ready = Ret v' regs' /\ scheduler_ok v' /\ schedule v' = Some (2%nat, [1%nat]).
Proof. exact (Tick_round_robin example_ready 1 (example_registers 7) example_ready_ok eq_refl). Defined.
Lemma unblocked_thread_runs_witness : exists v1 k, Unblock 3 example_ready = Ret v1 tt /\ (k < length (ready v1))%nat /\
  forall rs, length rs = S k -> exists v2, ticks rs v1 = Ret v2 tt /\ current v2 = Some 3%nat.
Proof. exact (unblocked_thread_runs example_ready 3 (example_thread 30 eBlocked 10 false 0) example_ready_ok eq_refl eq_refl ltac:(discriminate)). Defined.
Lemma lone_thread_never_wakes_witness : exists v1, Block 1 (example_registers 7) example_alone = Ret v1 (example_registers 7) /\
  exists v2, events 1 [Timer (example_registers 7); Wake; Timer (example_registers 8)] v1 = Ret v2 tt /\ current v2 = Some 1%nat /\ yield_returns v2 1 = false.
Proof.
  exact (lone_thread_never_wakes example_alone 1 (example_thread 10 eRunning 10 false 0) (example_registers 7) [Timer (example_registers 7); Wake; Timer (example_registers 8)]
    example_alone_ok eq_refl ltac:(discriminate) eq_refl eq_refl eq_refl eq_refl).
Defined.
Lemma block_after_lone_tick_panics_witness : exists v1, Tick (example_registers 7) example_alone = Ret v1 (example_registers 7) /\ Block 1 (example_registers 8) v1 = Panic.
Proof. exact (block_after_lone_tick_panics example_alone 1 (example_registers 7) (example_registers 8) example_alone_ok eq_refl ltac:(discriminate) eq_refl). Defined.
Lemma sched_yield_never_returns_witness : exists v1, SchedYield example_ready = Halted v1 /\
  exists v2, ticks [example_registers 1; example_registers 2; example_registers 3] v1 = Ret v2 tt /\ current v2 <> Some 1%nat.
Proof. exact (sched_yield_never_returns example_ready 1 [example_registers 1; example_registers 2; example_registers 3] example_ready_ok eq_refl ltac:(discriminate)). Defined.
Lemma wake_before_switch_panics_witness : exists v1 v2, SetState 1 eBlocked example_ready = Ret v1 tt /\ Unblock 1 v1 = Ret v2 tt /\ Yield_save (example_registers 7) v2 = Panic.
Proof.
  exact (wake_before_switch_panics example_ready 1 (example_thread 10 eRunning 10 false 0) (example_registers 7) example_ready_ok eq_refl ltac:(discriminate) eq_refl eq_refl ltac:(vm_compute; discriminate)).
Defined.
(** Process 20 is sent SIGINT while process 10 runs. *)
Lemma signal_ends_interrupted_thread_witness : exists v', Tick (example_registers 7) (example_state [2%nat] 4) = Halted v' /\ current v' = Some 0%nat
  /\ threads v' !! 1%nat = Some (with_state eExited (with_tparent 0 (example_thread 10 eRunning 10 false 0))) /\ state_is eExited v' 2 = true.
Proof.
  exact (signal_ends_interrupted_thread (example_state [2%nat] 4) 1 (example_thread 10 eRunning 10 false 0) 2 (example_thread 20 eReady 20 true 4) []
    (example_process (Some 10%nat) 20 (mkCredentials 0 0 0 0 0 0 0 0 10 10) [2%nat]) 2 {[ 0; 10; 20 ]} (example_registers 7)
    eq_refl (ok_queues _ example_ready_ok) eq_refl eq_refl eq_refl eq_refl eq_refl ltac:(discriminate) eq_refl eq_refl ltac:(lia) eq_refl ltac:(discriminate) ltac:(discriminate)
    eq_refl eq_refl eq_refl eq_refl eq_refl).
Defined.
(** A tick, the other thread blocks, and the first is resumed. *)
Lemma scheduler_histories_witness : exists v', run_ops [OTick (example_registers 7); OBlock (example_registers 9); OUnblock 3; OTick (example_registers 8)] example_ready = Ret v' tt /\ scheduler_ok v'.
Proof.
  destruct (scheduler_histories [OTick (example_registers 7); OBlock (example_registers 9); OUnblock 3; OTick (example_registers 8)] example_ready example_ready_ok) as [H|[H _]].
  - split; [exact I|]. intros v1 H1. injection H1 as <-. split; [vm_compute; discriminate|].
    intros v2 H2. vm_compute in H2. injection H2 as <-. split; [eexists; split; [vm_compute; reflexivity|vm_compute; discriminate]|].
    intros v3 H3. vm_compute in H3. injection H3 as <-. split; [exact I|]. now intros v4 _.
  - exact H.
  - vm_compute in H. discriminate H.
Defined.
Definition example_stopped : @State (QueueType -> list nat) unit unit unit :=
  match Tick (example_registers 7) example_ready with Ret v _ => v | _ => example_ready end.
Lemma registers_restored_witness :
  match Tick (example_registers 8) example_stopped with Ret _ r => r = example_registers 7 | _ => False end.
Proof.
  destruct (Tick (example_registers 7) example_ready) as [v1 r1| | |] eqn:E1; try (vm_compute in E1; discriminate).
  assert (Ev : example_stopped = v1) by (unfold example_stopped; now rewrite E1). rewrite Ev.
  destruct (Tick (example_registers 8) v1) as [v3 r3| | |] eqn:E3; [|rewrite <- Ev in E3; vm_compute in E3; discriminate..].
  refine (registers_restored example_ready 1 (example_registers 7) v1 r1 v1 (example_registers 8) v3 r3 example_ready_ok eq_refl E1 _ (away_refl _ _) E3 _).
  - rewrite <- Ev. vm_compute. discriminate.
  - rewrite <- Ev in E3. revert E3. vm_compute. now intros [= <- _].
Defined.
