(* ===== verification/Process.v ===== *)
(** * Processes

    [Scheduler/Process.cpp], the forking of threads of [Scheduler/Thread.cpp] and the system calls
    of [API/Process.cpp]: numbers, credentials, process groups and sessions, forking, waiting for
    children, signal masks.  The scheduler's state is the one of [Scheduler.v].

    A thread that waits for a child and blocks is described in two parts, before and after. *)

From Stdlib Require Import ZArith Lia Bool Ascii.
From stdpp Require Import base gmap list numbers strings.
From S2P Require Import Prelude Effects Prism Posix AddressSpace Event FileDescriptors Scheduler.

Import Descriptors Scheduler.

Module Processes.
Definition ESRCH : Z := 3.
Definition ECHILD : Z := 10.
Definition ENOSYS : Z := 38.
Definition WNOHANG : Z := 0x1.
Definition WUNTRACED : Z := 0x2.
Definition WCONTINUED : Z := 0x8.
Definition PROT_READ : Z := 0x1.
Definition PROT_WRITE : Z := 0x2.
Definition PROT_EXEC : Z := 0x4.
Definition SIG_BLOCK : Z := 0.
Definition SIG_UNBLOCK : Z := 1.
Definition SIG_SETMASK : Z := 2.
Definition WEXITSTATUS (x : Z) : Z := Z.shiftr (x .& 0xff00) 8.
Definition WIFSTOPPED (x : Z) : bool := (x .& 0xff) =? 0x7f.
Definition WIFCONTINUED (x : Z) : bool := x =? 0xffff.
Definition pid_max : Z := 2 ^ 31 - 1.
Definition KERNEL_STACK_SIZE : Z := 0x10000.
Definition USER_STACK_TOP : Z := 0x70000000000.

(** ** Splitting a command line *)
(** [findSlash]: the next blank, or the end. *)
Fixpoint findSlash (str : list ascii) (current : nat) (rest : list ascii) : option nat :=
  match rest with
  | [] => None
  | c :: rest => if decide (c = " "%char) then Some current else findSlash str (S current) rest
  end.
Definition Substr (str : list ascii) (start length : nat) : list ascii := take length (drop start str).
Fixpoint split_loop (fuel : nat) (str : list ascii) (start : nat) (segments : list (list ascii)) : list (list ascii) * nat :=
  match fuel with
  | O => (segments, start)
  | S fuel =>
      match findSlash str start (drop start str) with
      | None => (segments, start)
      | Some end_ => split_loop fuel str (S end_) (if decide (start = end_) then segments else segments ++ [Substr str start (end_ - start)])
      end
  end.
Definition SplitArguments (str : list ascii) : list (list ascii) :=
  match str with
  | [] => [[]]
  | c :: _ =>
      let '(segments, start) := split_loop (length str) str (if decide (c = " "%char) then 1 else 0) [] in
      if (start <? length str)%nat then segments ++ [Substr str start (length str - start)] else segments
  end.

Section Processes.
Context {L D T H : Type} {TL : ThreadLists L} {RB : RedBlackTree T Region} {PM : PrismMath} {HH : HigherHalf} {MO : MachineOps H}.
(** The descriptors of [/dev/tty], the root directory, the size of the floating point area, and
    the address of a thread object. *)
Context (tty_read tty_write : D) (root_directory : Z) (fpu_pages : Z) (thread_address : nat -> Z).
Notation State := (@State L D T H).
Notation Process := (@Process D T).
Notation M := (M State).

Definition machine_op {A} (f : H -> H * A) : M A :=
  v ← get; let '(h, a) := f (machine v) in _ ← update (set_machine h); mret a.
Definition allocate_object : M nat := v ← get; _ ← update (set_next (S (next_object v))); mret (next_object v).

(** ** Numbers and new processes *)
Fixpoint allocate_pid (fuel : nat) (v : State) (i : Z) : Z :=
  if i <? pid_max then
    if ValidatePid v i then match fuel with O => -1 | S fuel => allocate_pid fuel v (i + 1) end
    else i
  else -1.
(** One more number than there are processes has to be tried at most. *)
Definition AllocatePid (v : State) : Z := allocate_pid (size (s_Processes v)) v 1.

Definition new_Process (v : State) (parent : option nat) (name : string) (creds : Credentials) (space : AddressSpace T) : Process :=
  let pid := AllocatePid v in
  mkProcess parent pid name proc_eRunning creds None false None pid [] [] [] root_directory 0 (OpenStdioStreams (mkTable ∅ 3) tty_read tty_write) space None USER_STACK_TOP (mkEvent 0 []).
Definition CreateProcess (parent : option nat) (name : string) (creds : Credentials) (space : AddressSpace T) : M nat :=
  n ← allocate_object;
  v ← get;
  let proc := new_Process v parent name creds space in
  _ ← update (fun v => set_processes (<[n := proc]> (processes v)) v);
  _ ← update (fun v => set_table (<[m_Pid proc := n]> (s_Processes v)) v);
  mret n.

(** [CPU::PrepareThread] for a kernel thread. *)
Definition PrepareThread (t : nat) (pc arg : Z) : M Registers :=
  kernelStack ← machine_op (machine_AllocatePages (KERNEL_STACK_SIZE / 4096));
  _ ← machine_op (machine_AllocatePages (KERNEL_STACK_SIZE / 4096));
  _ ← machine_op (machine_CallocatePages fpu_pages);
  mret (mkRegisters (mkContext 0x10 0x10 0 0 0 0 0 arg 0 0 0 0 0 0 0 0 0 0 0 pc 0x08 0x202 (ToHigherHalf (u64 (kernelStack + KERNEL_STACK_SIZE))) 0x10) (thread_address t) 0 0).
Definition CreateThread (p : nat) (rip : Z) (isUser : bool) : M nat :=
  pr ← process_of p;
  t ← allocate_object;
  _ ← modify_process p (with_next_tid (i32 (m_NextTid pr + 1)));
  regs ← PrepareThread t rip 0;
  _ ← update (fun v => set_threads (<[t := mkThread (m_NextTid pr) eDequeued p isUser false 0 0 0 false regs (Context regs) []]> (threads v)) v);
  _ ← modify_process p (fun pr => if bool_decide (m_Threads pr = []) then with_main (Some t) pr else pr);
  _ ← modify_process p (fun pr => with_threads (m_Threads pr ++ [t]) pr);
  mret t.

(** ** Credentials *)
Definition SetSid (p : nat) : M Z :=
  pr ← process_of p;
  let c := m_Credentials pr in
  _ ← modify_process p (with_credentials (mkCredentials (UserID c) (GroupID c) (EffectiveUserID c) (EffectiveGroupID c) (FilesystemUserID c) (FilesystemGroupID c) (SetUserID c) (SetGroupID c) (m_Pid pr) (m_Pid pr)));
  mret (m_Pid pr).
Definition SetPGid (p : nat) (pgid : Z) : M unit :=
  modify_process p (fun pr => let c := m_Credentials pr in
    with_credentials (mkCredentials (UserID c) (GroupID c) (EffectiveUserID c) (EffectiveGroupID c) (FilesystemUserID c) (FilesystemGroupID c) (SetUserID c) (SetGroupID c) (SessionID c) pgid) pr).
Definition set_ids (p : nat) (ruid euid suid : option Z) (rgid egid sgid : option Z) : M unit :=
  modify_process p (fun pr => let c := m_Credentials pr in
    with_credentials (mkCredentials (default (UserID c) ruid) (default (GroupID c) rgid) (default (EffectiveUserID c) euid) (default (EffectiveGroupID c) egid)
      (FilesystemUserID c) (FilesystemGroupID c) (default (SetUserID c) suid) (default (SetGroupID c) sgid) (SessionID c) (ProcessGroupID c)) pr).
Definition SetUID (p : nat) (uid : Z) : M unit := set_ids p None (Some uid) None None None None.
Definition SetGID (p : nat) (gid : Z) : M unit := set_ids p None None None None (Some gid) None.
Definition SetReUID (p : nat) (ruid euid : Z) : M (Z + Z) := _ ← set_ids p (Some ruid) (Some euid) None None None None; mret (inr 0).
Definition SetReGID (p : nat) (rgid egid : Z) : M (Z + Z) := _ ← set_ids p None None None (Some rgid) (Some egid) None; mret (inr 0).
Definition SetResUID (p : nat) (ruid euid suid : Z) : M (Z + Z) := _ ← set_ids p (Some ruid) (Some euid) (Some suid) None None None; mret (inr 0).
Definition SetResGID (p : nat) (rgid egid sgid : Z) : M (Z + Z) := _ ← set_ids p None None None (Some rgid) (Some egid) (Some sgid); mret (inr 0).
Definition Umask (p : nat) (mask : Z) : M Z := pr ← process_of p; _ ← modify_process p (with_umask mask); mret (m_Umask pr).

(** [ValidateAddress]: the loop over the regions. *)
Fixpoint validate_loop (regions : list Region) (address accessMode size : Z) : bool :=
  match regions with
  | [] => false
  | region :: regions =>
      let contains a := range_Contains (m_VirtualRange region) a in
      if contains address then true
      else if negb (contains address) || negb (contains (u64 (address + size))) then validate_loop regions address accessMode size
      else if truthy (accessMode .& PROT_READ) && negb (IsReadable region) then false
      else if truthy (accessMode .& PROT_WRITE) && negb (IsWriteable region) then false
      else if truthy (accessMode .& PROT_EXEC) && negb (IsExecutable region) then false
      else true
  end.
Definition ValidateAddress (pr : Process) (address accessMode size : Z) : bool := validate_loop (regions (m_AddressSpace pr)) address accessMode size.

(** ** Forking *)
(** One region of the parent in the child: pages of its own with the same bytes. *)
Definition fork_region (n : nat) (pm : Z) (range : Region) : M unit :=
  physicalSpace ← machine_op (machine_CallocatePages (AlignUp (Size range) 4096 / 4096));
  _ ← Assert (negb (physicalSpace =? 0));
  _ ← update (fun v => set_machine (machine_Copy physicalSpace (m_PhysicalBase range) (Size range) (machine v)) v);
  _ ← machine_op (machine_MapRange pm (VirtualBase range) physicalSpace (Size range));
  modify_process n (fun pr => with_space (AddressSpace.Insert (m_AddressSpace pr) (VirtualBase range)
    (mkRegion (mkRange (VirtualBase range) (Size range)) physicalSpace (m_Access range) 0)) pr).
(** The stacks of the thread are copied a second time; the region of the copy has its physical
    address for a virtual one. *)
Definition fork_stack (newThread : nat) (pm : Z) (stack : Region) : M unit :=
  newStackPhys ← machine_op (machine_CallocatePages (AlignUp (Size stack) 4096 / 4096));
  _ ← update (fun v => set_machine (machine_Copy newStackPhys (m_PhysicalBase stack) (Size stack) (machine v)) v);
  _ ← machine_op (machine_MapRange pm (VirtualBase stack) newStackPhys (Size stack));
  modify_thread newThread (fun th => with_stacks (m_Stacks th ++ [new_Region newStackPhys newStackPhys (Size stack)]) th).
(** [newThread->Context = SavedContext] with [rax] and [rdx] cleared. *)
Definition child_context (c : CPUContext) : CPUContext :=
  mkContext (ds c) (es c) 0 (rbx c) (rcx c) 0 (rsi c) (rdi c) (rbp c) (r8 c) (r9 c) (r10 c) (r11 c) (r12 c) (r13 c) (r14 c) (r15 c)
    (interruptVector c) (errorCode c) (rip c) (cs c) (rflags c) (rsp c) (ss c).
Definition Thread_Fork (t process : nat) : M nat :=
  th ← thread_of t;
  newThread ← CreateThread process (rip (Context (t_Saved th))) (m_IsUser th);
  _ ← machine_op (machine_CallocatePages (KERNEL_STACK_SIZE / 4096));
  _ ← machine_op (machine_CallocatePages (KERNEL_STACK_SIZE / 4096));
  pr ← process_of process;
  pm ← deref (p_PageMap pr);
  _ ← each (fork_stack newThread pm) (m_Stacks th);
  _ ← machine_op (machine_CallocatePages fpu_pages);
  _ ← modify_thread newThread (fun nth =>
        with_state eDequeued (with_user (m_IsUser th) (with_saved
          (mkRegisters (child_context (SavedContext th)) (m_GsBase (t_Saved th)) (m_FsBase (t_Saved th)) (FpuStorage (t_Saved th))) (with_tparent process nth))));
  mret newThread.

Definition fork_descriptor (n : nat) (entry : Z * D) : M unit := modify_process n (fun pr => with_fds (Insert (m_FdTable pr) entry.2 entry.1).1 pr).
Definition Fork (p : nat) : M (Z + nat) :=
  v ← get;
  currentThread ← deref (current v);
  th ← thread_of currentThread;
  _ ← Assert (t_Parent th =? p)%nat;
  pr ← process_of p;
  newProcess ← CreateProcess (Some p) (m_Name pr) (m_Credentials pr) (AddressSpace.Clear (m_AddressSpace pr));
  pageMap ← machine_op machine_new_PageMap;
  match pageMap with
  | None => mret (inl ENOMEM)
  | Some pm =>
      _ ← modify_process newProcess (fun np => with_umask (m_Umask pr) (with_cwd (m_CWD pr) (with_pagemap (Some pm) np)));
      _ ← modify_process p (fun pr => with_children (m_Children pr ++ [newProcess]) pr);
      _ ← each (fork_region newProcess pm) (regions (m_AddressSpace pr));
      _ ← modify_process newProcess (with_next_tid (m_NextTid pr));
      _ ← each (fork_descriptor newProcess) (map_to_list (m_Table (m_FdTable pr)));
      thread ← Thread_Fork currentThread newProcess;
      _ ← modify_thread thread (with_enqueued false);
      _ ← modify_process newProcess (with_stack_top (m_UserStackTop pr));
      _ ← EnqueueThread thread;
      mret (inr newProcess)
  end.

(** ** Waiting for children *)
(** The children a wait is for: the first that fits, or all. *)
Definition first_child (v : State) (children : list nat) (fits : Process -> bool) : option nat :=
  List.find (fun c => match processes v !! c with Some pr => fits pr | None => false end) children.
Definition wait_for (v : State) (this : Process) (pid : Z) : Z + list nat :=
  let one o := match o with None => inl ECHILD | Some c => inr [c] end in
  if bool_decide (m_Children this = []) then inl ECHILD
  else if pid <? -1 then one (first_child v (m_Children this) (fun pr => PGid pr =? - pid))
  else if pid =? -1 then inr (m_Children this)
  else if pid =? 0 then one (first_child v (m_Children this) (fun pr => PGid pr =? PGid this))
  else one (first_child v (m_Children this) (fun pr => m_Pid pr =? pid)).

(** Returned with an error or a number and a status; blocked on the events of some children; or
    once more from the start. *)
Inductive waited := Waited (r : Z + Z * Z) | Waits (procs : list nat) | WaitAgain.
Definition wait_result (which : nat) (flags : Z) : M waited :=
  pr ← process_of which;
  let status := default 0 (m_Status pr) in
  if negb (truthy (flags .& WUNTRACED)) && WIFSTOPPED status then mret WaitAgain
  else if negb (truthy (flags .& WCONTINUED)) && WIFCONTINUED status then mret WaitAgain
  else mret (Waited (inr (m_Pid pr, W_EXITCODE status 0))).
Definition write_events (procs : list nat) (es : list Event) : M unit := each (fun pe => modify_process pe.1 (with_event pe.2)) (zip procs es).
Definition wait_once (p : nat) (pid flags : Z) : M waited :=
  this ← process_of p;
  v ← get;
  match wait_for v this pid with
  | inl e => mret (Waited (inl e))
  | inr procs =>
      currentThread ← deref (current v);
      let es := omap (fun c => p_Event <$> processes v !! c) procs in
      let '(es, r) := Event.Await es currentThread (negb (truthy (flags .& WNOHANG))) true in
      _ ← write_events procs es;
      match r with
      | Returned None _ => mret (Waited (inl EINTR))
      | Returned (Some i) _ => which ← deref (procs !! i); wait_result which flags
      | Blocked _ => mret (Waits procs)
      end
  end.
(** What the thread does when it runs again. *)
Definition wait_resume (p : nat) (procs : list nat) (flags : Z) : M waited :=
  v ← get;
  currentThread ← deref (current v);
  let es := omap (fun c => p_Event <$> processes v !! c) procs in
  _ ← write_events procs (Event.Await_resume es currentThread);
  th ← thread_of currentThread;
  which ← deref (procs !! m_Which th);
  wait_result which flags.
(** Each round takes a pending trigger. *)
Fixpoint WaitPid (fuel : nat) (p : nat) (pid flags : Z) : M waited :=
  r ← wait_once p pid flags;
  match r with
  | WaitAgain => match fuel with O => diverges | S fuel => WaitPid fuel p pid flags end
  | _ => mret r
  end.

(** ** System calls *)
Definition Current : M nat := v ← get; t ← deref (current v); th ← thread_of t; mret (t_Parent th).
Definition IsChild (this : Process) (p : nat) : bool := existsb (Nat.eqb p) (m_Children this).
Definition sys_SetPGid (pid pgid : Z) : M (Z + Z) :=
  cur ← Current;
  v ← get;
  match (if truthy pid then GetProcess v pid else Some cur) with
  | None => mret (inl ESRCH)
  | Some process =>
      this ← process_of cur;
      if negb (process =? cur)%nat && negb (IsChild this process) then mret (inl EPERM)
      else if truthy pgid then
        if pgid <? 0 then mret (inl EINVAL)
        else
          match GetProcess v pgid with
          | None => mret (inl EPERM)
          | Some groupLeader =>
              pr ← process_of process;
              leader ← process_of groupLeader;
              if negb (Sid pr =? Sid leader) then mret (inl EPERM) else _ ← SetPGid process pgid; mret (inr 0)
          end
      else pr ← process_of process; _ ← SetPGid process (m_Pid pr); mret (inr 0)
  end.
Definition sys_SetSid : M (Z + Z) :=
  cur ← Current;
  pr ← process_of cur;
  if m_Pid pr =? PGid pr then mret (inl EPERM) else sid ← SetSid cur; mret (inr sid).
Definition sys_GetPGid (pid : Z) : M (Z + Z) :=
  cur ← Current;
  this ← process_of cur;
  if pid =? 0 then mret (inr (PGid this))
  else
    v ← get;
    match GetProcess v pid with
    | None => mret (inl EPERM)
    | Some process =>
        if negb (process =? cur)%nat && negb (IsChild this process) then mret (inl EPERM) else pr ← process_of process; mret (inr (PGid pr))
    end.
Definition sys_GetSid (pid : Z) : M (Z + Z) :=
  cur ← Current;
  this ← process_of cur;
  if pid =? 0 then mret (inr (Sid this))
  else
    v ← get;
    match GetProcess v pid with
    | None => mret (inl ESRCH)
    | Some process => pr ← process_of process; if negb (Sid this =? Sid pr) then mret (inl EPERM) else mret (inr (Sid pr))
    end.
Definition sys_GetPPid : M (Z + Z) :=
  cur ← Current;
  this ← process_of cur;
  match p_Parent this with None => mret (inr 0) | Some p => pr ← process_of p; mret (inr (m_Pid pr)) end.
Definition sys_Kill (pid signal : Z) : M (Z + Z) := mret (inl ENOSYS).
Definition sys_Exit (exitcode : Z) : M (Z + Z) := cur ← Current; Exit cur (i32 exitcode).
Definition sys_Fork : M (Z + Z) := cur ← Current; try_ (Fork cur) (fun newProcess => pr ← process_of newProcess; mret (inr (m_Pid pr))).
Definition sys_Wait4 (fuel : nat) (pid flags : Z) : M waited := cur ← Current; WaitPid fuel cur pid flags.
(** The old mask is returned to the caller with the result; the addresses of the sets are checked
    against the regions of the process. *)
Definition sys_SigProcMask (how : Z) (newSet : option (Z * Z)) (oldSet : option Z) : M (Z + option Z) :=
  cur ← Current;
  process ← process_of cur;
  v ← get;
  t ← deref (current v);
  thread ← thread_of t;
  let currentMask := m_SignalMask thread in
  if match oldSet with Some a => negb (ValidateAddress process a PROT_WRITE 8) | None => false end then mret (inl EFAULT)
  else
    let old := match oldSet with Some _ => Some currentMask | None => None end in
    match newSet with
    | None => mret (inr old)
    | Some (a, set) =>
        if negb (ValidateAddress process a PROT_READ 8) then mret (inl EFAULT)
        else if how =? SIG_BLOCK then _ ← modify_thread t (with_mask (Z.ldiff currentMask set)); mret (inr old)
        else if how =? SIG_UNBLOCK then _ ← modify_thread t (with_mask (currentMask .| set)); mret (inr old)
        else if how =? SIG_SETMASK then _ ← modify_thread t (with_mask set); mret (inr old)
        else mret (inl EINVAL)
    end.
End Processes.
End Processes.
