(* ===== verification/ProcessTheorems.v ===== *)
(** * Processes: theorems

    Process numbers, command lines, process groups; forking, ending and waiting; and defects of
    waiting, signal masks and address checks. *)

From Stdlib Require Import ZArith Lia Bool Ascii.
From stdpp Require Import base gmap list numbers strings.
From S2P Require Import Prelude Effects Prism Posix AddressSpace Event FileDescriptors Scheduler SchedulerProofs SchedulerTheorems Process.

Import Descriptors Scheduler Processes.

(** ** Command lines *)
(** The words of a line, with the letters read so far of the current one. *)
Definition emit (word : list ascii) : list (list ascii) := match word with [] => [] | _ => [word] end.
Fixpoint words (word : list ascii) (str : list ascii) : list (list ascii) :=
  match str with
  | [] => emit word
  | c :: str => if decide (c = " "%char) then emit word ++ words [] str else words (word ++ [c]) str
  end.
Lemma words_letters pre : forall word str, " "%char ∉ pre -> words word (pre ++ str) = words (word ++ pre) str.
Proof.
  induction pre as [|c pre IH]; intros word str Hb; cbn; [now rewrite app_nil_r|].
  rewrite decide_False by set_solver. rewrite IH by set_solver. now rewrite <- app_assoc.
Qed.
(** The next blank splits what follows. *)
Lemma findSlash_spec str rest : forall current, match findSlash str current rest with
  | Some i => exists pre post, rest = pre ++ " "%char :: post /\ " "%char ∉ pre /\ i = (current + length pre)%nat
  | None => " "%char ∉ rest
  end.
Proof.
  induction rest as [|c rest IH]; intros current; cbn; [set_solver|]. destruct (decide (c = " "%char)) as [->|Hc].
  - exists [], rest. split_and!; [reflexivity|set_solver|cbn; lia].
  - specialize (IH (S current)). destruct (findSlash str (S current) rest); [|set_solver].
    destruct IH as (pre & post & -> & Hpre & ->). exists (c :: pre), post. split_and!; [reflexivity|set_solver|cbn; lia].
Qed.
Definition last_segment (str : list ascii) (r : list (list ascii) * nat) : list (list ascii) :=
  if (r.2 <? length str)%nat then r.1 ++ [Substr str r.2 (length str - r.2)] else r.1.
Lemma split_loop_words str fuel : forall start segments, (start <= length str)%nat -> (length (drop start str) <= fuel)%nat ->
  last_segment str (split_loop fuel str start segments) = segments ++ words [] (drop start str).
Proof.
  induction fuel as [|fuel IH]; intros start segments Hst Hf; rewrite length_drop in Hf; cbn [split_loop].
  - unfold last_segment. cbn [fst snd]. rewrite (proj2 (Nat.ltb_ge _ _)) by lia. rewrite drop_ge by lia. now rewrite app_nil_r.
  - pose proof (findSlash_spec str (drop start str) start) as Hs. destruct (findSlash str start (drop start str)) as [i|].
    + destruct Hs as (pre & post & E & Hpre & ->). assert (Hlen := f_equal length E). rewrite length_app, length_drop in Hlen. cbn in Hlen.
      assert (Epost : drop (S (start + length pre)) str = post).
      { replace (S (start + length pre)) with (start + (length pre + 1))%nat by lia. rewrite <- drop_drop, E.
        rewrite <- drop_drop, drop_app_length. reflexivity. }
      rewrite IH by (rewrite ?length_drop; lia). rewrite Epost, E. rewrite words_letters by trivial. cbn [words app]. destruct (decide (" "%char = " "%char)); [|easy].
      destruct (decide (start = (start + length pre)%nat)) as [Hz|Hz]; (destruct pre as [|c pre]; [|]); cbn [length] in Hz; try lia; [reflexivity|]. cbn [emit]. rewrite <- app_assoc. do 2 f_equal.
      unfold Substr. rewrite E. replace (start + length (c :: pre) - start)%nat with (length (c :: pre)) by lia. now rewrite take_app_length.
    + unfold last_segment. cbn [fst snd]. rewrite <- (app_nil_r (drop start str)). rewrite words_letters by trivial. cbn [words app]. unfold Substr.
      destruct (Nat.ltb_spec start (length str)) as [Hl|Hl].
      * rewrite take_ge by (rewrite length_drop; lia). f_equal. destruct (drop start str) eqn:E; [|reflexivity]. apply (f_equal length) in E. rewrite length_drop in E. cbn in E. lia.
      * rewrite drop_ge by lia. now rewrite app_nil_r.
Qed.
(** A command line is split into its words: the longest parts without blanks, in order; the
    empty line is one empty argument. *)
Theorem SplitArguments_words str : SplitArguments str = match str with [] => [[]] | _ => words [] str end.
Proof.
  destruct str as [|c str]; [reflexivity|]. unfold SplitArguments.
  destruct (split_loop _ _ _ _) as [segments start] eqn:E. change (last_segment (c :: str) (segments, start) = words [] (c :: str)). rewrite <- E.
  destruct (decide (c = " "%char)) as [->|Hc].
  - rewrite split_loop_words by (rewrite ?length_drop; cbn [length]; lia). cbn [drop app words]. now rewrite decide_True.
  - now rewrite split_loop_words by (rewrite ?length_drop; cbn [length]; lia).
Qed.

Section Processes.
Context {L D T H : Type} {TL : ThreadLists L} {RB : RedBlackTree T Region} {PM : PrismMath} {HH : HigherHalf} {MO : MachineOps H}.
Context (tty_read tty_write : D) (root_directory : Z) (fpu_pages : Z) (thread_address : nat -> Z).
Notation State := (@State L D T H).
Notation Process := (@Process D T).
Implicit Types (v : State) (p : nat) (pr : Process).

(** ** Numbers *)
Lemma allocate_pid_spec v fuel : forall i, (exists j, i <= j <= i + Z.of_nat fuel /\ j < pid_max /\ ValidatePid v j = false) ->
  let p := allocate_pid fuel v i in i <= p < pid_max /\ ValidatePid v p = false /\ forall q, i <= q < p -> ValidatePid v q = true.
Proof.
  induction fuel as [|fuel IH]; intros i (j & Hj & Hmax & Hfree); cbn [allocate_pid]; rewrite (proj2 (Z.ltb_lt i pid_max)) by lia; destruct (ValidatePid v i) eqn:Ei.
  - replace j with i in Hfree by lia. congruence.
  - cbn. split_and!; [lia|lia|trivial|intros; lia].
  - destruct (IH (i + 1)) as (H1 & H2 & H3); [exists j; split_and!; trivial; [|lia]; destruct (decide (j = i)) as [->|]; [congruence|lia]|].
    cbn zeta. split_and!; [lia|lia|trivial|]. intros q Hq. destruct (decide (q = i)) as [->|]; [trivial|]. apply H3. lia.
  - cbn. split_and!; [lia|lia|trivial|intros; lia].
Qed.
(** Among one more number than there are processes, one is free. *)
Lemma free_pid v : exists j, 1 <= j <= 1 + Z.of_nat (size (s_Processes v)) /\ ValidatePid v j = false.
Proof.
  set (n := size (s_Processes v)). set (candidates := list_to_set (seqZ 1 (Z.of_nat (S n))) : gset Z).
  destruct (decide (set_Exists (fun j => ValidatePid v j = false) candidates)) as [(j & Hj & Hfree)|Hno].
  - exists j. split; [|trivial]. apply elem_of_list_to_set, elem_of_seqZ in Hj. lia.
  - exfalso. assert (Hsub : candidates ⊆ dom (s_Processes v)).
    { intros j Hj. apply elem_of_dom. destruct (ValidatePid v j) eqn:E; [now apply bool_decide_eq_true in E|]. exfalso. apply Hno. now exists j. }
    apply subseteq_size in Hsub. rewrite size_dom in Hsub. unfold candidates in Hsub. rewrite size_list_to_set in Hsub by apply NoDup_seqZ. rewrite length_seqZ in Hsub. lia.
Qed.
(** A new process gets the least positive number that no process has. *)
Theorem AllocatePid_least v : Z.of_nat (size (s_Processes v)) + 1 < pid_max ->
  1 <= AllocatePid v < pid_max /\ ValidatePid v (AllocatePid v) = false /\ forall q, 1 <= q < AllocatePid v -> ValidatePid v q = true.
Proof. intros Hs. destruct (free_pid v) as (j & Hj & Hfree). apply (allocate_pid_spec v). exists j. split_and!; trivial; lia. Qed.

(** ** Ending and waiting *)
(** The status is shifted once when the process ends and again when it is reported, so the exit
    code is where no macro looks for it. *)
Lemma i32_shift x : exists k, i32 (Z.shiftl x 8) = 256 * x + 2 ^ 32 * k.
Proof.
  unfold i32, swrap. rewrite Z.shiftl_mul_pow2 by lia. change (2 ^ 8) with 256. cbv zeta.
  pose proof (Z.div_mod (x * 256) (2 ^ 32) ltac:(lia)). destruct (_ <? _); [exists (- (x * 256 / 2 ^ 32))|exists (- (x * 256 / 2 ^ 32) - 1)]; lia.
Qed.
Lemma reported_status code : WEXITSTATUS (W_EXITCODE (W_EXITCODE code 0) 0) = 0.
Proof.
  unfold WEXITSTATUS, W_EXITCODE. rewrite !Z.lor_0_r. destruct (i32_shift code) as [k Hk]. rewrite Hk. destruct (i32_shift (256 * code + 2 ^ 32 * k)) as [k2 ->].
  replace (256 * (256 * code + 2 ^ 32 * k) + 2 ^ 32 * k2) with (Z.shiftl (code + 2 ^ 24 * k + 2 ^ 16 * k2) 16) by (rewrite Z.shiftl_mul_pow2 by lia; lia).
  replace (Z.land _ 0xff00) with 0; [reflexivity|]. symmetry. apply Z.bits_inj'. intros n Hn. rewrite Z.land_spec, Z.bits_0, Z.shiftl_spec by lia.
  destruct (Z.ltb_spec n 16); [rewrite Z.testbit_neg_r by lia; reflexivity|]. rewrite (Z.bits_above_log2 0xff00 n); [apply andb_false_r|lia|cbn; lia].
Qed.

Lemma find_same {A} (f g : A -> bool) (l : list A) : (forall x, x ∈ l -> f x = g x) -> List.find f l = List.find g l.
Proof. intros Hfg. induction l as [|x l IH]; [reflexivity|]. cbn. rewrite (Hfg x) by set_solver. now rewrite IH by set_solver. Qed.

(** A wait for one child by its number. *)
Lemma wait_for_pid v this pid q : 0 < pid -> first_child v (m_Children this) (fun pr => m_Pid pr =? pid) = Some q -> wait_for v this pid = inr [q].
Proof.
  intros Hpid Hf. unfold wait_for. rewrite bool_decide_eq_false_2 by (intros E; rewrite E in Hf; discriminate).
  rewrite (proj2 (Z.ltb_ge _ _)), (proj2 (Z.eqb_neq _ _)), (proj2 (Z.eqb_neq _ _)) by lia. now rewrite Hf.
Qed.
Lemma wait_once_pid v p this pid q prq c : processes v !! p = Some this -> 0 < pid -> first_child v (m_Children this) (fun pr => m_Pid pr =? pid) = Some q ->
  processes v !! q = Some prq -> current v = Some c ->
  wait_once p pid 0 v = (let '(e, r) := Event.await_one (p_Event prq) c true true in
    _ ← modify_process q (with_event e);
    match r with Returned None _ => mret (Waited (inl EINTR)) | Returned (Some i) _ => which ← deref ([q] !! i); wait_result which 0 | Blocked _ => mret (Waits [q]) end) v.
Proof.
  intros Hp Hpid Hf Hq Hc. unfold wait_once. rewrite (process_ret p this), get_ret by trivial. rewrite (wait_for_pid v this pid q) by trivial. rewrite Hc, deref_ret.
  cbn [omap list_omap]. rewrite Hq. cbn [fmap option_fmap option_map]. unfold Event.await_one. change (negb (truthy (0 .& WNOHANG))) with true.
  unfold Event.Await. cbn [CheckPending]. destruct (0 <? Pending (p_Event prq)); unfold write_events; cbn [zip zip_with each fst snd AttachListeners imap]; rewrite bind_assoc; cbv beta zeta;
    unfold modify_process; rewrite !bind_assoc, !(process_ret q prq) by trivial; reflexivity.
Qed.

(** C36: A parent that waits for a child that has ended gets its number, and a status from which the
    exit code 0 is read whatever it was; the child stays among its children, so that waiting for
    it again blocks instead of failing. *)
Theorem exit_then_wait v q prq c t fs code p this pid parent : q <> s_KernelProcess v -> processes v !! q = Some prq -> current v = Some c ->
  is_Some (threads v !! c) -> is_Some (threads v !! t) -> m_Children prq = [] -> m_Zombies prq = [] -> m_Threads prq = [t] -> s_ProcFs v = Some fs -> p_Event prq = mkEvent 0 [] ->
  p <> q -> processes v !! p = Some this -> 0 < pid -> first_child v (m_Children this) (fun pr => m_Pid pr =? pid) = Some q -> m_Pid prq = pid -> WIFSTOPPED (W_EXITCODE code 0) = false -> WIFCONTINUED (W_EXITCODE code 0) = false ->
  exists v1, Exit (A := unit) q code v = Halted v1 /\
  exists v2 status, WaitPid 0 p pid 0 (set_current (Some parent) v1) = Ret v2 (Waited (inr (pid, status))) /\ WEXITSTATUS status = 0 /\
  exists v3, WaitPid 0 p pid 0 v2 = Ret v3 (Waits [q]).
Proof.
  intros Hk Hq Hc Hct Htt Hch Hz Hts Hfs Hev Hpq Hp Hpid Hf Hqpid Hstop Hcont.
  destruct (Exit_halts (A := unit) v q prq c t fs code) as (v1 & HE & _ & _ & _ & _ & Hq1 & Hother); trivial; [now rewrite Hev|]. rewrite Hev in Hq1.
  exists v1. split; [exact HE|]. set (w := set_current (Some parent) v1). set (ended := ended_process code t prq) in *.
  assert (Hpw : processes w !! p = Some this) by (cbn; now rewrite Hother). set (prq1 := with_event (mkEvent (Pending (mkEvent 0 []) + 1) []) ended) in *.
  assert (Hfirst : forall x e, processes x !! q = Some (with_event e ended) -> (forall r, r <> q -> processes x !! r = processes v !! r) -> first_child (H := H) (L := L) x (m_Children this) (fun pr => m_Pid pr =? pid) = Some q).
  { intros x e H1 H2. rewrite <- Hf. unfold first_child. apply find_same. intros r _. destruct (decide (r = q)) as [->|]; [now rewrite H1, Hq|now rewrite H2]. }
  assert (Hround : wait_once p pid 0 w = Ret (set_processes (<[q := with_event (mkEvent 0 []) prq1]> (processes w)) w) (Waited (inr (pid, W_EXITCODE (W_EXITCODE code 0) 0)))).
  { rewrite (wait_once_pid w p this pid q prq1 parent); trivial; [|now apply (Hfirst w (mkEvent (Pending (mkEvent 0 []) + 1) []))]. rewrite Event.await_pending by reflexivity. change (mkEvent (Pending (p_Event prq1) - 1) (Listeners (p_Event prq1))) with (mkEvent 0 []).
    rewrite (modify_process_ret q prq1) by exact Hq1. change ([q] !! 0%nat) with (Some q). rewrite deref_ret. unfold wait_result. rewrite (process_ret q (with_event (mkEvent 0 []) prq1)) by apply lookup_insert_eq.
    change (default 0 (m_Status (with_event (mkEvent 0 []) prq1))) with (W_EXITCODE code 0). rewrite Hstop, Hcont, !andb_false_r. change (m_Pid (with_event (mkEvent 0 []) prq1)) with (m_Pid prq). now rewrite Hqpid. }
  set (w2 := set_processes (<[q := with_event (mkEvent 0 []) prq1]> (processes w)) w) in *. exists w2, (W_EXITCODE (W_EXITCODE code 0) 0). split_and!.
  - cbn [WaitPid]. now rewrite (bind_ret _ _ _ _ _ Hround).
  - apply reported_status.
  - eexists. cbn [WaitPid]. rewrite (bind_ret _ _ w2 (set_processes (<[q := with_event (mkEvent 0 [mkListener parent 0]) prq1]> (processes w2)) w2) (Waits [q])); [reflexivity|].
    rewrite (wait_once_pid w2 p this pid q (with_event (mkEvent 0 []) prq1) parent); trivial.
    + change (Event.await_one (p_Event (with_event (mkEvent 0 []) prq1)) parent true true) with (mkEvent 0 [mkListener parent 0], Blocked true). cbv iota beta zeta. now rewrite (modify_process_ret q (with_event (mkEvent 0 []) prq1)) by apply lookup_insert_eq.
    + cbn. now rewrite lookup_insert_ne.
    + apply (Hfirst w2 (mkEvent 0 [])); [apply lookup_insert_eq|]. intros r Hr. cbn. rewrite lookup_insert_ne by congruence. now apply Hother.
    + apply lookup_insert_eq.
Qed.

(** ** Forking *)
(** What a program sees of its regions. *)
Definition seen (r : Region) : Z * Z * Z := (VirtualBase r, Size r, m_Access r).
(** The tree is keyed by the bases of the regions. *)
Definition keyed (a : AddressSpace T) : Prop := forall k r, (k, r) ∈ tree_elements (m_RegionTree a) -> k = VirtualBase r.
Definition bases (a : AddressSpace T) : list Z := (tree_elements (m_RegionTree a)).*1.
Lemma keyed_bases a : keyed a -> bases a = VirtualBase <$> regions a.
Proof.
  unfold keyed, bases, regions. generalize (tree_elements (m_RegionTree a)) as l. intros l Hl. induction l as [|[k r] l IH]; [reflexivity|].
  cbn. rewrite (Hl k r) by set_solver. f_equal. apply IH. intros k' r' Hin. apply Hl. set_solver.
Qed.
Lemma bases_nodup a : NoDup (bases a).
Proof.
  pose proof (tree_sorted (m_RegionTree a)) as Hs. unfold bases. induction Hs as [|x l Hs IH Hall]; constructor; trivial. rewrite Forall_forall in Hall.
  intros Hin. specialize (Hall x Hin). lia.
Qed.
Lemma insert_region a r : keyed a -> VirtualBase r ∉ bases a ->
  keyed (AddressSpace.Insert a (VirtualBase r) r) /\ regions (AddressSpace.Insert a (VirtualBase r) r) ≡ₚ r :: regions a /\ bases (AddressSpace.Insert a (VirtualBase r) r) ≡ₚ VirtualBase r :: bases a.
Proof.
  intros Hk Hn. pose proof (tree_insert_elements (VirtualBase r) r (m_RegionTree a) Hn) as Hp. unfold keyed, regions, bases. cbn [m_RegionTree AddressSpace.Insert]. split_and!.
  - intros k x Hin. rewrite Hp in Hin. apply elem_of_cons in Hin as [[= -> ->]|Hin]; [reflexivity|]. now apply Hk.
  - now rewrite Hp.
  - now rewrite Hp.
Qed.

Section Fork.
Context (v : State) (p n : nat) (base : gmap nat Process) (table : gmap Z nat).
(** The frames for the copies of [rs] are there when they are asked for, one region after the
    other. *)
Fixpoint frames_last (pm : Z) (rs : list Region) (h : H) : Prop :=
  match rs with
  | [] => True
  | r :: rs => let h1 := (machine_CallocatePages (AlignUp (Size r) 4096 / 4096) h).1 in
      let phys := (machine_CallocatePages (AlignUp (Size r) 4096 / 4096) h).2 in
      phys <> 0 /\ frames_last pm rs (machine_MapRange pm (VirtualBase r) phys (Size r) (machine_Copy phys (m_PhysicalBase r) (Size r) h1)).1
  end.
(** The state while a child is made: its record, the threads, the next object and memory. *)
Definition stage (np : Process) (ths : gmap nat Thread) (next : nat) (h : H) : State :=
  mkState (<[n := np]> base) ths next table (s_KernelProcess v) (s_ProcFs v) (s_SchedulerEnabled v) (PreemptionEnabled v) (queues v) (current v) (Idle v) h.
Lemma stage_op {A B} (f : H -> H * A) (k : A -> M State B) np ths next h :
  (machine_op f ≫= k) (stage np ths next h) = k (f h).2 (stage np ths next (f h).1).
Proof. unfold machine_op. rewrite bind_assoc, get_ret. cbn [machine stage]. destruct (f h) as [h' a]. reflexivity. Qed.
Lemma stage_process {B} f (k : unit -> M State B) np ths next h : (modify_process n f ≫= k) (stage np ths next h) = k tt (stage (f np) ths next h).
Proof. rewrite (modify_process_ret n np) by apply lookup_insert_eq. unfold stage. cbn [processes set_processes]. now rewrite insert_insert_eq. Qed.
Lemma stage_process_run f np ths next h : modify_process n f (stage np ths next h) = Ret (stage (f np) ths next h) tt.
Proof. unfold modify_process. rewrite (process_ret n np) by apply lookup_insert_eq. unfold update, stage. cbn [processes set_processes]. now rewrite insert_insert_eq. Qed.

Lemma fork_region_run pm r rs np ths next h : frames_last pm (r :: rs) h -> keyed (m_AddressSpace np) -> VirtualBase r ∉ bases (m_AddressSpace np) ->
  exists h' a, fork_region n pm r (stage np ths next h) = Ret (stage (with_space a np) ths next h') tt /\ frames_last pm rs h'
  /\ keyed a /\ seen <$> regions a ≡ₚ seen r :: (seen <$> regions (m_AddressSpace np)) /\ bases a ≡ₚ VirtualBase r :: bases (m_AddressSpace np).
Proof.
  intros [Hphys Hlast] Hk Hn. unfold fork_region. rewrite stage_op. rewrite assert_ret by (apply negb_true_iff, Z.eqb_neq, Hphys). rewrite update_ret.
  set (h1 := (machine_CallocatePages _ h).1). set (phys := (machine_CallocatePages _ h).2). change (set_machine _ (stage np ths next h1)) with (stage np ths next (machine_Copy phys (m_PhysicalBase r) (Size r) h1)).
  rewrite stage_op, stage_process_run. set (r' := mkRegion (mkRange (VirtualBase r) (Size r)) phys (m_Access r) 0).
  destruct (insert_region (m_AddressSpace np) r' Hk Hn) as (K & R & B). eexists _, (AddressSpace.Insert (m_AddressSpace np) (VirtualBase r) r').
  split_and!; [reflexivity|exact Hlast|exact K| |exact B]. change (VirtualBase r) with (VirtualBase r') at 1. rewrite R. reflexivity.
Qed.
Lemma fork_regions pm rs : forall np ths next h, frames_last pm rs h -> keyed (m_AddressSpace np) -> NoDup (VirtualBase <$> rs) -> (forall x, x ∈ VirtualBase <$> rs -> x ∉ bases (m_AddressSpace np)) ->
  exists h' a, each (fork_region n pm) rs (stage np ths next h) = Ret (stage (with_space a np) ths next h') tt
  /\ seen <$> regions a ≡ₚ (seen <$> rs) ++ (seen <$> regions (m_AddressSpace np)).
Proof.
  induction rs as [|r rs IH]; intros np ths next h Hlast Hk Hnd Hout.
  - exists h, (m_AddressSpace np). split; [|reflexivity]. cbn [each]. now destruct np.
  - cbn [fmap list_fmap] in Hnd, Hout. apply list.NoDup_cons in Hnd as [Hr Hnd]. destruct (fork_region_run pm r rs np ths next h Hlast Hk) as (h1 & a1 & H1 & L1 & K1 & S1 & B1); [apply Hout; set_solver|].
    cbn [each]. rewrite (bind_ret _ _ _ _ _ H1). destruct (IH (with_space a1 np) ths next h1) as (h2 & a2 & H2 & S2); trivial.
    + intros x Hx. change (m_AddressSpace (with_space a1 np)) with a1. rewrite B1. apply not_elem_of_cons. split; [intros ->; easy|apply Hout; set_solver].
    + exists h2, a2. split; [exact H2|]. rewrite S2. change (m_AddressSpace (with_space a1 np)) with a1. rewrite S1. cbn [fmap list_fmap]. symmetry. apply Permutation_middle.
Qed.
(** The descriptors of the parent, put behind those the child was made with. *)
Definition inherit (fds : FileDescriptorTable D) (l : list (Z * D)) : FileDescriptorTable D := foldl (fun t e => (Insert t e.2 e.1).1) fds l.
Lemma fork_descriptors l : forall np ths next h, each (fork_descriptor n) l (stage np ths next h) = Ret (stage (with_fds (inherit (m_FdTable np) l) np) ths next h) tt.
Proof.
  induction l as [|[i fd] l IH]; intros np ths next h; [now destruct np|]. cbn [each].
  rewrite (bind_ret _ _ _ (stage (with_fds (Insert (m_FdTable np) fd i).1 np) ths next h) tt) by exact (stage_process_run _ np ths next h). now rewrite IH.
Qed.
Lemma fork_stack_run t pm r nth np ths next h : exists h' ss, fork_stack t pm r (stage np (<[t := nth]> ths) next h) = Ret (stage np (<[t := with_stacks ss nth]> ths) next h') tt.
Proof.
  unfold fork_stack. rewrite stage_op, update_ret. set (h1 := (machine_CallocatePages _ h).1). set (phys := (machine_CallocatePages _ h).2).
  change (set_machine _ (stage np (<[t := nth]> ths) next h1)) with (stage np (<[t := nth]> ths) next (machine_Copy phys (m_PhysicalBase r) (Size r) h1)). rewrite stage_op.
  rewrite (modify_thread_run t nth) by apply lookup_insert_eq. unfold stage at 1. cbn [threads set_threads]. rewrite insert_insert_eq. eexists _, _. reflexivity.
Qed.
Lemma fork_stacks t pm l : forall nth np ths next h, exists h' ss, each (fork_stack t pm) l (stage np (<[t := nth]> ths) next h) = Ret (stage np (<[t := with_stacks ss nth]> ths) next h') tt.
Proof.
  induction l as [|r l IH]; intros nth np ths next h; [exists h, (m_Stacks nth); now destruct nth|]. cbn [each].
  destruct (fork_stack_run t pm r nth np ths next h) as (h1 & ss & H1). rewrite (bind_ret _ _ _ _ _ H1). exact (IH (with_stacks ss nth) np ths next h1).
Qed.
Notation CreateThread := (CreateThread fpu_pages thread_address).
Notation Thread_Fork := (Thread_Fork fpu_pages thread_address).
Notation Fork := (Fork tty_read tty_write root_directory fpu_pages thread_address).
Definition with_thread t np : Process := with_threads [t] (with_main (Some t) (with_next_tid (i32 (m_NextTid np + 1)) np)).
Lemma CreateThread_run rip isUser np ths next h : m_Threads np = [] ->
  exists h' nth, CreateThread n rip isUser (stage np ths next h) = Ret (stage (with_thread next np) (<[next := nth]> ths) (S next) h') next
  /\ m_IsEnqueued nth = false /\ m_PendingSignals nth = 0 /\ m_SignalMask nth = 0.
Proof.
  intros Hts. unfold Processes.CreateThread. rewrite (process_ret n np) by apply lookup_insert_eq. unfold allocate_object. rewrite bind_assoc, get_ret, bind_assoc, update_ret, mret_ret.
  change (set_next _ (stage np ths next h)) with (stage np ths (S next) h). change (next_object (stage np ths next h)) with next. rewrite stage_process.
  unfold PrepareThread. rewrite bind_assoc, stage_op, bind_assoc, stage_op, bind_assoc, stage_op, mret_ret, update_ret.
  set (h3 := (machine_CallocatePages _ _).1). set (regs := mkRegisters _ _ _ _). set (nth := mkThread _ _ _ _ _ _ _ _ _ _ _ _).
  change (set_threads _ (stage _ ths (S next) h3)) with (stage (with_next_tid (i32 (m_NextTid np + 1)) np) (<[next := nth]> ths) (S next) h3).
  rewrite stage_process, stage_process. change (m_Threads (with_next_tid (i32 (m_NextTid np + 1)) np)) with (m_Threads np). rewrite Hts, bool_decide_eq_true_2 by trivial.
  change (m_Threads (with_main (Some next) (with_next_tid (i32 (m_NextTid np + 1)) np))) with (m_Threads np). rewrite Hts. exists h3, nth. now split_and!.
Qed.
Lemma Thread_Fork_run c th pm np ths next h : ths !! c = Some th -> c <> next -> m_Threads np = [] -> p_PageMap np = Some pm ->
  exists h' nth, Thread_Fork c n (stage np ths next h) = Ret (stage (with_thread next np) (<[next := nth]> ths) (S next) h') next
  /\ m_IsEnqueued nth = false /\ t_Parent nth = n /\ m_IsUser nth = m_IsUser th /\ m_PendingSignals nth = 0 /\ m_SignalMask nth = 0
  /\ t_Saved nth = mkRegisters (child_context (SavedContext th)) (m_GsBase (t_Saved th)) (m_FsBase (t_Saved th)) (FpuStorage (t_Saved th)).
Proof.
  intros Hc Hne Hts Hpm. unfold Processes.Thread_Fork. rewrite (thread_ret c th) by exact Hc. destruct (CreateThread_run (rip (Context (t_Saved th))) (m_IsUser th) np ths next h Hts) as (h1 & nth & H1 & E1 & E2 & E3).
  rewrite (bind_ret _ _ _ _ _ H1). rewrite !stage_op. rewrite (process_ret n (with_thread next np)) by apply lookup_insert_eq. change (p_PageMap (with_thread next np)) with (p_PageMap np). rewrite Hpm, deref_ret.
  set (h2 := (machine_CallocatePages _ _).1). destruct (fork_stacks next pm (m_Stacks th) nth (with_thread next np) ths (S next) h2) as (h3 & ss & H3). rewrite (bind_ret _ _ _ _ _ H3), stage_op.
  rewrite (modify_thread_ret next (with_stacks ss nth)) by apply lookup_insert_eq. unfold stage at 1. cbn [threads set_threads]. rewrite insert_insert_eq.
  eexists _, _. split; [reflexivity|]. now split_and!.
Qed.
End Fork.

Notation Fork := (Fork tty_read tty_write root_directory fpu_pages thread_address).
Notation CreateProcess := (CreateProcess tty_read tty_write root_directory).
Notation new_Process := (new_Process tty_read tty_write root_directory).
(** The number of the next object is not used yet. *)
Definition fresh_objects v : Prop := forall i, (next_object v <= i)%nat -> processes v !! i = None /\ threads v !! i = None /\ unlinked (queues v) i.
Lemma allocate_pid_table v (w : State) fuel : s_Processes v = s_Processes w -> forall i, allocate_pid fuel v i = allocate_pid fuel w i.
Proof.
  intros E. induction fuel as [|fuel IH]; intros i; cbn [allocate_pid]; unfold ValidatePid; rewrite E; [reflexivity|]. now rewrite IH.
Qed.
Lemma CreateProcess_run {B} v parent name creds space (k : nat -> M State B) :
  (CreateProcess parent name creds space ≫= k) v
  = k (next_object v) (stage v (next_object v) (processes v) (<[AllocatePid v := next_object v]> (s_Processes v)) (new_Process v parent name creds space) (threads v) (S (next_object v)) (machine v)).
Proof.
  unfold Processes.CreateProcess, allocate_object.
  rewrite bind_assoc, bind_assoc, get_ret, bind_assoc, update_ret, mret_ret, bind_assoc, get_ret, bind_assoc, update_ret, bind_assoc, update_ret, mret_ret.
  set (v1 := set_next (S (next_object v)) v). assert (E : new_Process v1 parent name creds space = new_Process v parent name creds space)
    by (unfold Processes.new_Process, AllocatePid; now rewrite (allocate_pid_table v1 v)).
  rewrite E. reflexivity.
Qed.
(** The child's record before it has a thread, and after. *)
Definition child_of v p pr pm a : Process :=
  let np := with_umask (m_Umask pr) (with_cwd (m_CWD pr) (with_pagemap (Some pm) (new_Process v (Some p) (m_Name pr) (m_Credentials pr) (AddressSpace.Clear (m_AddressSpace pr))))) in
  with_fds (inherit (m_FdTable np) (map_to_list (m_Table (m_FdTable pr)))) (with_next_tid (m_NextTid pr) (with_space a np)).

(** A page map can be made, and there are frames for the regions of the parent. *)
Definition enough_memory v pr : Prop := exists pm, (machine_new_PageMap (machine v)).2 = Some pm /\ frames_last pm (regions (m_AddressSpace pr)) (machine_new_PageMap (machine v)).1.
Lemma Fork_run v p pr c th : fresh_objects v -> current v = Some c -> threads v !! c = Some th -> t_Parent th = p -> processes v !! p = Some pr -> keyed (m_AddressSpace pr) ->
  enough_memory v pr ->
  let n := next_object v in let t := S n in
  exists pm a h nth, Fork p v = Ret (appended (stage v n (<[p := with_children (m_Children pr ++ [n]) pr]> (processes v)) (<[AllocatePid v := n]> (s_Processes v))
      (with_stack_top (m_UserStackTop pr) (with_thread t (child_of v p pr pm a))) (<[t := nth]> (threads v)) (S t) h) t nth) (inr n)
  /\ seen <$> regions a ≡ₚ seen <$> regions (m_AddressSpace pr) /\ t_Parent nth = n /\ m_IsUser nth = m_IsUser th
  /\ t_Saved nth = mkRegisters (child_context (SavedContext th)) (m_GsBase (t_Saved th)) (m_FsBase (t_Saved th)) (FpuStorage (t_Saved th)).
Proof.
  intros Hfresh Hcur Hc Htp Hp Hk (pm & Epm & Hlast) n t. destruct (Hfresh n ltac:(unfold n; lia)) as (Hn & _ & _). destruct (Hfresh t ltac:(unfold t, n; lia)) as (_ & Htn & Htu).
  assert (Hpn : p <> n) by congruence. assert (Hct : c <> t) by congruence. unfold Processes.Fork. rewrite get_ret, Hcur, deref_ret, (thread_ret c th), assert_ret, (process_ret p pr) by (trivial; now apply Nat.eqb_eq).
  rewrite CreateProcess_run. fold n. set (np0 := new_Process _ _ _ _ _). set (table := <[AllocatePid v := n]> (s_Processes v)). rewrite (stage_op v n (processes v) table).
  rewrite Epm. rewrite (stage_process v n (processes v) table). set (np1 := with_umask _ _).
  rewrite (modify_process_ret p pr) by (cbn; now rewrite lookup_insert_ne by congruence). set (base := <[p := with_children (m_Children pr ++ [n]) pr]> (processes v)).
  replace (set_processes _ (stage v n (processes v) table np1 (threads v) (S n) (machine_new_PageMap (machine v)).1)) with (stage v n base table np1 (threads v) (S n) (machine_new_PageMap (machine v)).1)
    by (unfold stage, base; cbn [processes set_processes]; now rewrite insert_insert_ne by congruence).
  assert (Hbases : bases (m_AddressSpace np1) = []) by (unfold bases; cbn; now rewrite tree_empty_elements).
  destruct (fork_regions v n base table pm (regions (m_AddressSpace pr)) np1 (threads v) (S n) (machine_new_PageMap (machine v)).1 Hlast) as (h1 & a & H1 & S1).
  { unfold keyed. cbn. rewrite tree_empty_elements. set_solver. }
  { rewrite <- keyed_bases by trivial. apply bases_nodup. }
  { rewrite Hbases. set_solver. }
  rewrite (bind_ret _ _ _ _ _ H1). rewrite (stage_process v n base table). rewrite (bind_ret _ _ _ _ _ (fork_descriptors v n base table _ _ _ _ _)).
  set (np2 := with_fds _ _). assert (E2 : np2 = child_of v p pr pm a) by reflexivity.
  destruct (Thread_Fork_run v n base table c th pm np2 (threads v) t h1 Hc Hct eq_refl eq_refl) as (h2 & nth & H2 & E3 & E4 & E5 & E6 & E7 & E8).
  change (S n) with t. rewrite (bind_ret _ _ _ _ _ H2). rewrite (modify_thread_ret t nth) by apply lookup_insert_eq. rewrite (with_enqueued_id false nth) by trivial.
  unfold stage at 1. cbn [threads set_threads]. rewrite insert_insert_eq. fold (stage v n base table (with_thread t np2) (<[t := nth]> (threads v)) (S t) h2).
  change (set_threads _ _) with (stage v n base table (with_thread t np2) (<[t := nth]> (threads v)) (S t) h2). rewrite (stage_process v n base table).
  rewrite (bind_ret _ _ _ _ _ (EnqueueThread_run (stage v n base table _ (<[t := nth]> (threads v)) (S t) h2) t nth (lookup_insert_eq _ _ _) Htu E3)).
  exists pm, a, h2, nth. rewrite <- E2. split; [reflexivity|]. split_and!; trivial. rewrite S1. unfold regions at 2. cbn. rewrite tree_empty_elements. cbn. now rewrite app_nil_r.
Qed.

(** The least number from 1 on that no process has. *)
Lemma AllocatePid_free v : Z.of_nat (size (s_Processes v)) + 1 < pid_max ->
  1 <= AllocatePid v < pid_max /\ s_Processes v !! AllocatePid v = None /\ forall q, 1 <= q < AllocatePid v -> is_Some (s_Processes v !! q).
Proof.
  intros Hs. destruct (free_pid v) as (j & Hj & Hfree). destruct (allocate_pid_spec v (size (s_Processes v)) 1) as (H1 & H2 & H3); [exists j; split_and!; trivial; lia|].
  split; [exact H1|]. unfold ValidatePid in *. split; [exact (proj2 (eq_None_not_Some _) (bool_decide_eq_false_1 _ H2))|]. intros q Hq. apply (bool_decide_eq_true_1 _ (H3 q Hq)).
Qed.
(** C14: As long as there are numbers, a page map and the frames for the parent's regions, a fork makes
    a child process with the least number from 1 on that no process has, the parent's credentials,
    directory, mask and regions, and one thread, which is the last of the ready threads and will
    run with the registers the parent entered the kernel with, except that the call returns 0; the
    parent goes on, with one more child. *)
Theorem fork_child v p pr c th : fresh_objects v -> current v = Some c -> threads v !! c = Some th -> t_Parent th = p -> processes v !! p = Some pr -> keyed (m_AddressSpace pr) ->
  enough_memory v pr -> Z.of_nat (size (s_Processes v)) + 1 < pid_max ->
  exists v' n t np nth, Fork p v = Ret v' (inr n) /\ current v' = Some c
  /\ s_Processes v' = <[m_Pid np := n]> (s_Processes v) /\ processes v' !! n = Some np /\ processes v' !! p = Some (with_children (m_Children pr ++ [n]) pr)
  /\ (1 <= m_Pid np < pid_max /\ s_Processes v !! m_Pid np = None /\ forall q, 1 <= q < m_Pid np -> is_Some (s_Processes v !! q)) /\ p_Parent np = Some p /\ m_Credentials np = m_Credentials pr /\ m_CWD np = m_CWD pr /\ m_Umask np = m_Umask pr
  /\ seen <$> regions (m_AddressSpace np) ≡ₚ seen <$> regions (m_AddressSpace pr)
  /\ m_Threads np = [t] /\ threads v' !! t = Some nth /\ t_Parent nth = n /\ t_State nth = eReady /\ exec v' = exec v ++ [t]
  /\ (let c := Context (t_Saved nth) in let c0 := SavedContext th in
      rax c = 0 /\ rdx c = 0 /\ rip c = rip c0 /\ rsp c = rsp c0 /\ rflags c = rflags c0 /\ cs c = cs c0 /\ ss c = ss c0
      /\ (forall r, r ∈ [rbx; rcx; rsi; rdi; rbp; r8; r9; r10; r11; r12; r13; r14; r15] -> r c = r c0))
  /\ m_FsBase (t_Saved nth) = m_FsBase (t_Saved th) /\ FpuStorage (t_Saved nth) = FpuStorage (t_Saved th).
Proof.
  intros Hfresh Hcur Hc Htp Hp Hk Hmem Hnum. destruct (Fork_run v p pr c th Hfresh Hcur Hc Htp Hp Hk Hmem) as (pm & a & h & nth & HF & Hseen & H1 & H2 & H3).
  set (n := next_object v) in *. destruct (Hfresh n ltac:(unfold n; lia)) as (Hn & _ & _). destruct (Hfresh (S n) ltac:(unfold n; lia)) as (_ & _ & Htu).
  eexists _, n, (S n), (with_stack_top (m_UserStackTop pr) (with_thread (S n) (child_of v p pr pm a))), _. split; [exact HF|]. cbn [current appended set_queues set_threads stage s_Processes processes threads]. split; [exact Hcur|]. split; [reflexivity|].
  split; [apply lookup_insert_eq|]. split; [rewrite lookup_insert_ne by congruence; apply lookup_insert_eq|].
  split; [exact (AllocatePid_free v Hnum)|]. do 4 (split; [reflexivity|]). split; [exact Hseen|]. split; [reflexivity|]. split; [apply lookup_insert_eq|]. split; [exact H1|]. split; [reflexivity|]. split; [|change (t_Saved (with_state eReady (with_enqueued true nth))) with (t_Saved nth); rewrite H3; cbv zeta; repeat split; try reflexivity; intros r Hr; repeat (apply elem_of_cons in Hr as [->|Hr]; [reflexivity|]); now apply elem_of_nil in Hr].
  exact (proj1 (appended_exec (stage v n _ _ _ _ _ _) (S n) nth Htu)).
Qed.

Lemma inherit_keeps l : forall (fds : FileDescriptorTable D) i fd, m_Table fds !! i = Some fd -> 0 <= i < m_NextIndex fds -> m_NextIndex fds + Z.of_nat (length l) < 2 ^ 31 ->
  m_Table (inherit fds l) !! i = Some fd.
Proof.
  induction l as [|[j e] l IH]; intros fds i fd Hi Hr Hn; [exact Hi|]. cbn [inherit foldl length] in *. apply IH; unfold Insert; cbn [m_Table m_NextIndex fst snd].
  - rewrite lookup_insert_ne; [exact Hi|]. destruct (_ && _) eqn:E; [|lia]. intros ->. apply andb_true_iff in E as [_ E]. rewrite bool_decide_eq_true_2 in E by eauto. discriminate.
  - unfold i32, swrap. rewrite Z.mod_small by lia. rewrite (proj2 (Z.ltb_lt _ _)) by lia. lia.
  - unfold i32, swrap. rewrite Z.mod_small by lia. rewrite (proj2 (Z.ltb_lt _ _)) by lia. lia.
Qed.
Lemma stdio_streams : let fds := OpenStdioStreams (mkTable ∅ 3) tty_read tty_write in
  m_Table fds !! 0 = Some tty_read /\ m_Table fds !! 1 = Some tty_write /\ m_Table fds !! 2 = Some tty_write /\ m_NextIndex fds = 6.
Proof. now split_and!. Qed.
(** A forked child does not inherit its parent's standard input and outputs: descriptors 0, 1
    and 2 are newly opened on the terminal, whatever the parent has redirected them to. *)
Theorem fork_replaces_stdio v p pr c th : fresh_objects v -> current v = Some c -> threads v !! c = Some th -> t_Parent th = p -> processes v !! p = Some pr -> keyed (m_AddressSpace pr) ->
  enough_memory v pr -> Z.of_nat (size (m_Table (m_FdTable pr))) < 2 ^ 30 ->
  exists v' n np, Fork p v = Ret v' (inr n) /\ processes v' !! n = Some np
  /\ GetFd (m_FdTable np) 0 = Some tty_read /\ GetFd (m_FdTable np) 1 = Some tty_write /\ GetFd (m_FdTable np) 2 = Some tty_write.
Proof.
  intros Hfresh Hcur Hc Htp Hp Hk Hmem Hsize. destruct (Fork_run v p pr c th Hfresh Hcur Hc Htp Hp Hk Hmem) as (pm & a & h & nth & HF & _).
  eexists _, _, _. split; [exact HF|]. split; [apply lookup_insert_eq|].
  assert (Hl : 6 + Z.of_nat (length (map_to_list (m_Table (m_FdTable pr)))) < 2 ^ 31) by (rewrite length_map_to_list; lia).
  destruct stdio_streams as (H0 & H1 & H2 & H3). set (fds := OpenStdioStreams (mkTable ∅ 3) tty_read tty_write) in *. set (l := map_to_list _) in *.
  assert (Hkeep : forall i fd, m_Table fds !! i = Some fd -> 0 <= i < 6 -> m_Table (inherit fds l) !! i = Some fd) by (intros i fd Hi Hr; apply inherit_keeps; rewrite ?H3; trivial).
  split; [exact (Hkeep 0 _ H0 ltac:(lia))|]. split; [exact (Hkeep 1 _ H1 ltac:(lia))|exact (Hkeep 2 _ H2 ltac:(lia))].
Qed.

(** ** Defects of the checks *)
(** The check of a user address accepts every address inside a region: neither the size nor the
    access asked for is looked at. *)
Theorem ValidateAddress_ignores_access (pr : Process) address mode size :
  ValidateAddress pr address mode size = existsb (fun r => range_Contains (m_VirtualRange r) address) (regions (m_AddressSpace pr)).
Proof.
  unfold ValidateAddress. induction (regions (m_AddressSpace pr)) as [|r rs IH]; [reflexivity|]. cbn [validate_loop existsb]. destruct (range_Contains (m_VirtualRange r) address); [reflexivity|exact IH].
Qed.
(** Blocking signals removes them from the mask of blocked signals and unblocking adds them. *)
Lemma sigprocmask_inverted v c th p pr a set : current v = Some c -> threads v !! c = Some th -> t_Parent th = p -> processes v !! p = Some pr -> ValidateAddress pr a PROT_READ 8 = true ->
  exists v1 v2, sys_SigProcMask SIG_BLOCK (Some (a, set)) None v = Ret v1 (inr None) /\ threads v1 !! c = Some (with_mask (Z.ldiff (m_SignalMask th) set) th)
  /\ sys_SigProcMask SIG_UNBLOCK (Some (a, set)) None v = Ret v2 (inr None) /\ threads v2 !! c = Some (with_mask (m_SignalMask th .| set) th).
Proof.
  intros Hc Hth Htp Hp Ha.
  assert (Hrun : forall how, sys_SigProcMask how (Some (a, set)) None v
    = (if how =? SIG_BLOCK then _ ← modify_thread c (with_mask (Z.ldiff (m_SignalMask th) set)); mret (inr None)
       else if how =? SIG_UNBLOCK then _ ← modify_thread c (with_mask (m_SignalMask th .| set)); mret (inr None)
       else if how =? SIG_SETMASK then _ ← modify_thread c (with_mask set); mret (inr None) else mret (inl EINVAL)) v).
  { intros how. unfold sys_SigProcMask, Current. rewrite bind_assoc, get_ret, Hc, bind_assoc, deref_ret, bind_assoc, (thread_ret c th), mret_ret, Htp, (process_ret p pr), get_ret, Hc, deref_ret, (thread_ret c th) by trivial.
    now rewrite Ha. }
  rewrite !Hrun. cbn [Z.eqb SIG_BLOCK SIG_UNBLOCK Pos.eqb]. eexists _, _.
  rewrite !(modify_thread_ret c th) by trivial. split; [reflexivity|]. split; [apply lookup_insert_eq|]. split; [reflexivity|apply lookup_insert_eq].
Qed.
(** A wait that must not block reports that it was interrupted. *)
Lemma nonblocking_wait_interrupted v p this pid q prq c : processes v !! p = Some this -> 0 < pid -> first_child v (m_Children this) (fun pr => m_Pid pr =? pid) = Some q ->
  processes v !! q = Some prq -> current v = Some c -> Pending (p_Event prq) <= 0 -> exists v', WaitPid 0 p pid WNOHANG v = Ret v' (Waited (inl EINTR)).
Proof.
  intros Hp Hpid Hf Hq Hc Hpend. eexists. cbn [WaitPid]. unfold wait_once. rewrite bind_assoc, (process_ret p this), bind_assoc, get_ret by trivial. rewrite (wait_for_pid v this pid q) by trivial. rewrite Hc, bind_assoc, deref_ret.
  cbn [omap list_omap]. rewrite Hq. cbn [fmap option_fmap option_map]. unfold Event.Await. cbn [CheckPending]. rewrite (proj2 (Z.ltb_ge 0 _)) by trivial. change (negb (truthy (WNOHANG .& WNOHANG))) with false.
  unfold write_events. cbn [zip zip_with each fst snd]. unfold modify_process. rewrite !bind_assoc, (process_ret q prq) by trivial. reflexivity.
Qed.

(** ** Process groups *)
Lemma process_inv {B} p (k : Process -> M State B) v v' b : (process_of p ≫= k) v = Ret v' b -> exists pr, processes v !! p = Some pr /\ k pr v = Ret v' b.
Proof. unfold process_of. rewrite bind_assoc, get_ret. destruct (processes v !! p) as [pr|]; [eauto|discriminate]. Qed.
(** A process that is moved to the group of another number joins a group of its own session:
    the call succeeds only for the calling process and its children, and only if the process with
    that number has the same session; the session does not change. *)
Theorem setpgid_same_session v v' pid pgid c th : current v = Some c -> threads v !! c = Some th -> pgid <> 0 -> sys_SetPGid pid pgid v = Ret v' (inr 0) ->
  exists this target prt leader prl, processes v !! t_Parent th = Some this /\ (target = t_Parent th \/ target ∈ m_Children this)
  /\ processes v !! target = Some prt /\ GetProcess v pgid = Some leader /\ processes v !! leader = Some prl /\ Sid prt = Sid prl
  /\ exists prt', processes v' !! target = Some prt' /\ PGid prt' = pgid /\ Sid prt' = Sid prt /\ (forall q, q <> target -> processes v' !! q = processes v !! q).
Proof.
  intros Hc Hth Hpg. unfold sys_SetPGid, Current. rewrite bind_assoc, get_ret, Hc, bind_assoc, deref_ret, bind_assoc, (thread_ret c th), mret_ret, get_ret by trivial.
  destruct (if truthy pid then GetProcess v pid else Some (t_Parent th)) as [target|]; [|discriminate]. intros (this & Hthis & Hrun)%process_inv.
  destruct (negb (target =? t_Parent th)%nat && negb (IsChild this target)) eqn:Eperm; [discriminate|]. unfold truthy in Hrun. rewrite (proj2 (Z.eqb_neq pgid 0) Hpg) in Hrun. cbn [negb] in Hrun.
  destruct (pgid <? 0); [discriminate|]. destruct (GetProcess v pgid) as [leader|] eqn:El; [|discriminate]. apply process_inv in Hrun as (prt & Hprt & Hrun). apply process_inv in Hrun as (prl & Hprl & Hrun).
  destruct (Z.eqb_spec (Sid prt) (Sid prl)) as [Hs|]; [|discriminate]. cbn [negb] in Hrun. unfold SetPGid in Hrun. rewrite (modify_process_ret target prt) in Hrun by trivial. injection Hrun as <-.
  exists this, target, prt, leader, prl. split_and!; trivial.
  - apply andb_false_iff in Eperm as [E|E]; apply negb_false_iff in E; [left; now apply Nat.eqb_eq|]. right. unfold IsChild in E. apply existsb_exists in E as (x & Hx & ->%Nat.eqb_eq). now apply list_elem_of_In.
  - eexists. split; [apply lookup_insert_eq|]. split; [reflexivity|]. split; [reflexivity|]. intros q Hq. cbn. now rewrite lookup_insert_ne.
Qed.
End Processes.

(** ** Examples *)
Lemma example_table_size : Z.of_nat (size (s_Processes example_ready)) + 1 < pid_max.
Proof. vm_compute. reflexivity. Qed.
Lemma AllocatePid_least_witness : 1 <= AllocatePid example_ready < pid_max /\ ValidatePid example_ready (AllocatePid example_ready) = false
  /\ forall q, 1 <= q < AllocatePid example_ready -> ValidatePid example_ready q = true.
Proof. exact (AllocatePid_least example_ready example_table_size). Defined.

(** Process 10 and its child 20, whose thread runs. *)
Definition example_family (running : nat) : @State (QueueType -> list nat) bool {l : list (Z * Region) | assoc_sorted l} unit :=
  let proc parent pid ts children := mkProcess parent pid "" proc_eRunning (mkCredentials 0 0 0 0 0 0 0 0 10 10) None false (head ts) pid children [] ts 0 0 (mkTable {[ 0 := false ]} 3)
    (AddressSpace.Insert (mkSpace tree_empty (mkRange 0 0)) 0x1000 (new_Region 0x8000 0x1000 0x1000)) (Some 1) 0 (mkEvent 0 []) in
  mkState {[ 0%nat := proc None 0 [0%nat] [10%nat]; 10%nat := proc (Some 0%nat) 10 [1%nat] [20%nat]; 20%nat := proc (Some 10%nat) 20 [2%nat] [] ]}
    {[ 0%nat := example_thread 0 eReady 0 false 0; 1%nat := example_thread 10 eRunning 10 false 0; 2%nat := example_thread 20 eRunning 20 false 0 ]}
    100 {[ 0 := 0%nat; 10 := 10%nat; 20 := 20%nat ]} 0 (Some {[ 0; 10; 20 ]}) true true (fun _ => []) (Some running) 0 tt.

Notation example_child := (example_family 2).
Lemma exit_then_wait_witness : exists v1, Exit (A := unit) 20 7 example_child = Halted v1 /\
  exists v2 status, WaitPid 0 10 20 0 (set_current (Some 1%nat) v1) = Ret v2 (Waited (inr (20, status))) /\ WEXITSTATUS status = 0 /\
  exists v3, WaitPid 0 10 20 0 v2 = Ret v3 (Waits [20%nat]).
Proof.
  refine (exit_then_wait example_child 20 _ 2 2 {[ 0; 10; 20 ]} 7 10 _ 20 1 ltac:(discriminate) eq_refl eq_refl ltac:(now eexists) ltac:(now eexists) eq_refl eq_refl eq_refl eq_refl eq_refl
    ltac:(discriminate) eq_refl ltac:(lia) _ eq_refl eq_refl eq_refl). vm_compute. reflexivity.
Defined.
Notation example_parent := (example_family 1).
Lemma example_fresh : fresh_objects example_parent.
Proof.
  intros i Hi. cbn [next_object example_family] in Hi. unfold example_family. cbn [processes threads queues]. split_and!.
  - rewrite !lookup_insert_ne by lia. apply lookup_singleton_ne. lia.
  - rewrite !lookup_insert_ne by lia. apply lookup_singleton_ne. lia.
  - intros q. cbn. apply not_elem_of_nil.
Qed.
Lemma example_keyed pr : processes example_parent !! 10%nat = Some pr -> keyed (m_AddressSpace pr).
Proof. intros [= <-] k r Hin. vm_compute in Hin. apply list_elem_of_singleton in Hin as [= -> ->]. reflexivity. Qed.
Lemma example_memory pr : processes example_parent !! 10%nat = Some pr -> enough_memory example_parent pr.
Proof. intros [= <-]. exists 0. split; [reflexivity|]. vm_compute. repeat split; discriminate. Qed.
Section Examples.
#[local] Instance direct_map : HigherHalf := {| ToHigherHalf x := x + 0xffff800000000000; FromHigherHalf x := x - 0xffff800000000000 |}.
Definition example_fork := Fork true true 0 1 Z.of_nat 10 example_parent.
End Examples.
(** The child gets the number 1, the least that is free. *)
Lemma fork_child_witness : exists v' n np, example_fork = Ret v' (inr n) /\ processes v' !! n = Some np /\ m_Pid np = 1.
Proof.
  destruct (fork_child true true 0 1 Z.of_nat (HH := direct_map) example_parent 10 _ 1 _ example_fresh eq_refl eq_refl eq_refl eq_refl (example_keyed _ eq_refl) (example_memory _ eq_refl) ltac:(vm_compute; reflexivity))
    as (v' & n & t & np & nth & H1 & _ & _ & H2 & _ & (H3 & H4 & H5) & _).
  exists v', n, np. split_and!; [exact H1|exact H2|]. destruct (Z.eq_dec (m_Pid np) 1) as [|Hne]; [trivial|]. destruct (H5 1 ltac:(lia)) as [x Hx]. vm_compute in Hx. discriminate.
Defined.
(** The parent's input is another file. *)
Lemma fork_replaces_stdio_witness : exists v' n np, example_fork = Ret v' (inr n) /\ processes v' !! n = Some np
  /\ GetFd (m_FdTable np) 0 = Some true /\ GetFd (m_FdTable np) 1 = Some true /\ GetFd (m_FdTable np) 2 = Some true.
Proof.
  exact (fork_replaces_stdio true true 0 1 Z.of_nat (HH := direct_map) example_parent 10 _ 1 _ example_fresh eq_refl eq_refl eq_refl eq_refl (example_keyed _ eq_refl) (example_memory _ eq_refl) ltac:(vm_compute; reflexivity)).
Defined.
(** The parent moves its child to a group of its session. *)
Lemma setpgid_same_session_witness : exists v', sys_SetPGid 20 10 example_parent = Ret v' (inr 0) /\
  exists this target prt leader prl, processes example_parent !! 10%nat = Some this /\ (target = 10%nat \/ target ∈ m_Children this)
  /\ processes example_parent !! target = Some prt /\ GetProcess example_parent 10 = Some leader /\ processes example_parent !! leader = Some prl /\ Sid prt = Sid prl
  /\ exists prt', processes v' !! target = Some prt' /\ PGid prt' = 10 /\ Sid prt' = Sid prt /\ (forall q, q <> target -> processes v' !! q = processes example_parent !! q).
Proof.
  destruct (sys_SetPGid 20 10 example_parent) as [v' r| | |] eqn:E; try (vm_compute in E; discriminate). exists v'.
  assert (Hr : r = inr 0) by (revert E; vm_compute; now intros [= _ <-]). subst r. split; [reflexivity|].
  exact (setpgid_same_session example_parent v' 20 10 1 (example_thread 10 eRunning 10 false 0) eq_refl eq_refl ltac:(discriminate) E).
Defined.
