(* ===== verification/ELF.v ===== *)
(** * ELF images

    [Library/ELF.cpp]: an executable held in a buffer, the tables found in it (section headers,
    symbols, strings, the global offset table), the path of its interpreter, the auxiliary values for
    the new program, and the relocation of a loaded module in place.

    Pointers into the buffer are offsets from its start.  The code computes them from numbers in the
    file without a bound check; an access that leaves the buffer is a [Panic] here. *)

From Stdlib Require Import ZArith Lia Bool.
From stdpp Require Import base gmap list numbers.
From S2P Require Import Prelude Posix Disk Effects.

Definition EIO : Z := 5.
Definition ENOEXEC : Z := 8.

(** ** The packed structures of [Library/ELF_Definitions.hpp] *)
Definition Header_size : nat := 64.
Definition Header_Magic := mkField 0 4.
Definition Header_Bitness := mkField 4 1.
Definition Header_Endianness := mkField 5 1.
Definition Header_HeaderVersion := mkField 6 1.
Definition Header_Abi := mkField 7 1.
Definition Header_Type := mkField 16 2.
Definition Header_InstructionSet := mkField 18 2.
Definition Header_ElfVersion := mkField 20 4.
Definition Header_EntryPoint := mkField 24 8.
Definition Header_ProgramHeaderTableOffset := mkField 32 8.
Definition Header_SectionHeaderTableOffset := mkField 40 8.
Definition Header_ProgramEntrySize := mkField 54 2.
Definition Header_ProgramEntryCount := mkField 56 2.
Definition Header_SectionEntrySize := mkField 58 2.
Definition Header_SectionEntryCount := mkField 60 2.

Definition Program_size : nat := 56.
Definition Program_Type := mkField 0 4.
Definition Program_Attributes := mkField 4 4.
Definition Program_Offset := mkField 8 8.
Definition Program_VirtualAddress := mkField 16 8.
Definition Program_SegmentSizeInFile := mkField 32 8.
Definition Program_SegmentSizeInMemory := mkField 40 8.

Definition Section_size : nat := 64.
Definition Section_Name := mkField 0 4.
Definition Section_Type := mkField 4 4.
Definition Section_Offset := mkField 24 8.
Definition Section_Size := mkField 32 8.
Definition Section_Link := mkField 40 4.
Definition Section_Info := mkField 44 4.
Definition Section_EntrySize := mkField 56 8.

Definition Symbol_size : nat := 24.
Definition Symbol_Name := mkField 0 4.
Definition Symbol_SectionIndex := mkField 6 2.
Definition Symbol_Value := mkField 8 8.

Definition Reloc_size : nat := 24.
Definition Reloc_Offset := mkField 0 8.
Definition Reloc_Info := mkField 8 8.
Definition Reloc_Addend := mkField 16 8.

Definition e64Bit : Z := 2.
Definition eLittle : Z := 1.
Definition CURRENT_ELF_HEADER_VERSION : Z := 1.
Definition eSystemV : Z := 0.
Definition eAMDx86_64 : Z := 0x3e.
Definition eArm64 : Z := 0xb7.
(** [HeaderType] *)
Definition eLoad : Z := 1.
Definition eInterp : Z := 3.
Definition eProgramHeader : Z := 6.
(** [SectionType] *)
Definition eSymbolTable : Z := 2.
Definition eStringTable : Z := 3.
Definition eRelA : Z := 4.
Definition SHN_UNDEF : Z := 0.
(** [RelocationType] *)
Definition e64 : Z := 1.
Definition ePC32 : Z := 2.
Definition eRelative : Z := 8.

(** ["\177ELF"], [".got"] and ["_GLOBAL_OFFSET_TABLE_"] *)
Definition MAGIC : list Z := [127; 69; 76; 70].
Definition got_name : list Z := [46; 103; 111; 116].
Definition GLOBAL_OFFSET_TABLE : list Z :=
  [95; 71; 76; 79; 66; 65; 76; 95; 79; 70; 70; 83; 69; 84; 95; 84; 65; 66; 76; 69; 95].

Record AuxiliaryVector := mkAux {
  EntryPoint : Z;
  ProgramHeaderAddress : Z;
  ProgramHeaderEntrySize : Z;
  AuxProgramHeaderCount : Z
}.

(** ** The image *)
Record Image := mkImage {
  m_Image : list Z;
  (** The address of the buffer. *)
  Raw : Z;
  m_LoadBase : Z;
  m_Header : list Z;
  m_AuxiliaryVector : AuxiliaryVector;
  m_SymbolSection : option Z;
  m_StringSection : option Z;
  m_GotSection : option Z;
  m_StringTable : option Z;
  m_Symbols : gmap (list Z) Z;
  m_InterpreterPath : list Z
}.
Definition with_image (bs : list Z) (s : Image) : Image :=
  mkImage bs (Raw s) (m_LoadBase s) (m_Header s) (m_AuxiliaryVector s) (m_SymbolSection s) (m_StringSection s) (m_GotSection s) (m_StringTable s) (m_Symbols s) (m_InterpreterPath s).
Definition with_header (h : list Z) (s : Image) : Image :=
  mkImage (m_Image s) (Raw s) (m_LoadBase s) h (m_AuxiliaryVector s) (m_SymbolSection s) (m_StringSection s) (m_GotSection s) (m_StringTable s) (m_Symbols s) (m_InterpreterPath s).
Definition with_load_base (b : Z) (s : Image) : Image :=
  mkImage (m_Image s) (Raw s) b (m_Header s) (m_AuxiliaryVector s) (m_SymbolSection s) (m_StringSection s) (m_GotSection s) (m_StringTable s) (m_Symbols s) (m_InterpreterPath s).
Definition with_aux (a : AuxiliaryVector) (s : Image) : Image :=
  mkImage (m_Image s) (Raw s) (m_LoadBase s) (m_Header s) a (m_SymbolSection s) (m_StringSection s) (m_GotSection s) (m_StringTable s) (m_Symbols s) (m_InterpreterPath s).
Definition with_symbol_section (o : Z) (s : Image) : Image :=
  mkImage (m_Image s) (Raw s) (m_LoadBase s) (m_Header s) (m_AuxiliaryVector s) (Some o) (m_StringSection s) (m_GotSection s) (m_StringTable s) (m_Symbols s) (m_InterpreterPath s).
Definition with_string_section (o table : Z) (s : Image) : Image :=
  mkImage (m_Image s) (Raw s) (m_LoadBase s) (m_Header s) (m_AuxiliaryVector s) (m_SymbolSection s) (Some o) (m_GotSection s) (Some table) (m_Symbols s) (m_InterpreterPath s).
Definition with_got (o : Z) (s : Image) : Image :=
  mkImage (m_Image s) (Raw s) (m_LoadBase s) (m_Header s) (m_AuxiliaryVector s) (m_SymbolSection s) (m_StringSection s) (Some o) (m_StringTable s) (m_Symbols s) (m_InterpreterPath s).
Definition with_symbols (m : gmap (list Z) Z) (s : Image) : Image :=
  mkImage (m_Image s) (Raw s) (m_LoadBase s) (m_Header s) (m_AuxiliaryVector s) (m_SymbolSection s) (m_StringSection s) (m_GotSection s) (m_StringTable s) m (m_InterpreterPath s).
Definition with_interpreter (p : list Z) (s : Image) : Image :=
  mkImage (m_Image s) (Raw s) (m_LoadBase s) (m_Header s) (m_AuxiliaryVector s) (m_SymbolSection s) (m_StringSection s) (m_GotSection s) (m_StringTable s) (m_Symbols s) p.

(** A new image; [aux] is the indeterminate auxiliary vector, [header] the indeterminate header. *)
Definition new_Image (raw : Z) (header : list Z) (aux : AuxiliaryVector) : Image :=
  mkImage [] raw 0 header aux None None None None ∅ [].

Notation ImageM := (M Image).

(** Read [n] bytes at an offset. *)
Definition read_at (off : Z) (n : nat) : ImageM (list Z) :=
  s ← get;
  let off := u64 off in
  if off + Z.of_nat n <=? Z.of_nat (length (m_Image s)) then mret (slice (Z.to_nat off) n (m_Image s)) else panic.
Definition write_at (off : Z) (bs : list Z) : ImageM unit :=
  s ← get;
  let off := u64 off in
  if off + Z.of_nat (length bs) <=? Z.of_nat (length (m_Image s))
  then update (with_image (splice (Z.to_nat off) bs (m_Image s))) else panic.

(** The characters before the terminating zero, which is looked for without a bound. *)
Fixpoint until_zero (bs : list Z) : option (list Z) :=
  match bs with
  | [] => None
  | b :: bs => if b =? 0 then Some [] else cons b <$> until_zero bs
  end.
Definition c_string (off : Z) : ImageM (list Z) :=
  s ← get; deref (until_zero (drop (Z.to_nat (u64 off)) (m_Image s))).

Definition header (f : Field) : ImageM Z := gets (fun s => get_field f (m_Header s)).
Definition ProgramHeader_at (s : Image) (index : Z) : Z :=
  u64 (get_field Header_ProgramHeaderTableOffset (m_Header s) + index * get_field Header_ProgramEntrySize (m_Header s)).
Definition SectionHeader_at (s : Image) (index : Z) : Z :=
  u64 (get_field Header_SectionHeaderTableOffset (m_Header s) + index * get_field Header_SectionEntrySize (m_Header s)).
Definition ProgramHeader (index : Z) : ImageM (list Z) := s ← get; read_at (ProgramHeader_at s index) Program_size.
Definition SectionHeader (index : Z) : ImageM (list Z) := s ← get; read_at (SectionHeader_at s index) Section_size.

Definition LookupString (index : Z) : ImageM (list Z) :=
  s ← get;
  match m_StringTable s with
  | None => mret []
  | Some table =>
      at_ ← deref (m_StringSection s);
      shdr ← read_at at_ Section_size;
      if get_field Section_Size shdr <=? index then mret [] else c_string (table + index)
  end.

(** ** Parsing *)
Definition parse_section (i : Z) : ImageM unit :=
  s ← get;
  let at_ := SectionHeader_at s i in
  shdr ← read_at at_ Section_size;
  let type := get_field Section_Type shdr in
  _ ← (if type =? eSymbolTable then update (with_symbol_section at_)
       else if type =? eStringTable then update (with_string_section at_ (get_field Section_Offset shdr))
       else mret tt);
  sectionName ← LookupString (get_field Section_Name shdr);
  if negb (bool_decide (sectionName = [])) && bool_decide (take 4 sectionName = got_name) then update (with_got at_)
  else mret tt.

Definition ParseSectionHeaders : ImageM unit :=
  n ← header Header_SectionEntryCount; each parse_section (seqZ 0 n).

Definition load_symbol (base i : Z) : ImageM unit :=
  sym ← read_at (base + i * Z.of_nat Symbol_size) Symbol_size;
  name ← LookupString (get_field Symbol_Name sym);
  if (get_field Symbol_SectionIndex sym =? SHN_UNDEF) || bool_decide (name = []) then mret tt
  else update (fun s => with_symbols (<[name := get_field Symbol_Value sym]> (m_Symbols s)) s).

(** The number of symbols is a quotient by the entry size of the file, which may be zero; the
    entries are indexed by [sizeof(Symbol)]. *)
Definition LoadSymbols : ImageM bool :=
  s ← get;
  at_ ← deref (m_SymbolSection s);
  symbols ← read_at at_ Section_size;
  if get_field Section_Size symbols =? 0 then mret false else
  at_ ← deref (m_StringSection s);
  strings ← read_at at_ Section_size;
  if get_field Section_Size strings =? 0 then mret false else
  _ ← Assert (negb (get_field Section_EntrySize symbols =? 0));
  _ ← each (load_symbol (get_field Section_Offset symbols))
        (seqZ 0 (get_field Section_Size symbols / get_field Section_EntrySize symbols));
  mret true.

(** One program header of [Parse]. *)
Definition parse_program_header (i : Z) : ImageM unit :=
  current ← ProgramHeader i;
  let type := get_field Program_Type current in
  if type =? eProgramHeader then
    update (fun s => let a := m_AuxiliaryVector s in
      with_aux (mkAux (EntryPoint a) (u64 (get_field Program_VirtualAddress current + m_LoadBase s)) (ProgramHeaderEntrySize a) (AuxProgramHeaderCount a)) s)
  else if type =? eInterp then
    path ← read_at (get_field Program_Offset current) (Z.to_nat (get_field Program_SegmentSizeInFile current));
    update (with_interpreter path)
  else mret tt.

Definition header_checks : list (Field * list Z) :=
  [(Header_Magic, [le_word MAGIC]); (Header_Bitness, [e64Bit]); (Header_Endianness, [eLittle]);
   (Header_HeaderVersion, [CURRENT_ELF_HEADER_VERSION]); (Header_Abi, [eSystemV]);
   (Header_InstructionSet, [eAMDx86_64; eArm64]); (Header_ElfVersion, [CURRENT_ELF_HEADER_VERSION])].
Definition header_accepted (h : list Z) : bool :=
  forallb (fun '(f, vs) => existsb (Z.eqb (get_field f h)) vs) header_checks.

Definition Parse : ImageM (Z + unit) :=
  h ← read_at 0 Header_size;
  _ ← update (with_header h);
  if negb (header_accepted h) then mret (inl ENOEXEC) else
  _ ← ParseSectionHeaders;
  s ← get;
  _ ← (match m_SymbolSection s, m_StringSection s with
       | Some _, Some _ => _ ← LoadSymbols; mret tt
       | _, _ => mret tt
       end);
  _ ← each parse_program_header (seqZ 0 (get_field Header_ProgramEntryCount h));
  _ ← update (fun s => with_aux (mkAux (u64 (get_field Header_EntryPoint h + m_LoadBase s)) (ProgramHeaderAddress (m_AuxiliaryVector s))
                (get_field Header_ProgramEntrySize h) (get_field Header_ProgramEntryCount h)) s);
  mret (inr tt).

(** ** Loading *)

(** The buffer is 100 bytes longer than the file; [slack] is what these hold. *)
Definition LoadFromMemory (data slack : list Z) : ImageM (Z + unit) :=
  _ ← update (with_image (data ++ slack)); Parse.

(** [size] is the file's [st_size], [read] what [INode::Read] delivers of it (-1 on an error). *)
Definition Load_inode (size : Z) (read : option (list Z)) (slack : list Z) (loadBase : Z) : ImageM (Z + unit) :=
  _ ← update (with_load_base loadBase);
  match read with
  | Some bs =>
      if Z.of_nat (length bs) =? size then
        _ ← update (with_image (bs ++ slack));
        r ← Parse;
        mret (match r with inl _ => inl ENOEXEC | inr _ => inr tt end)
      else mret (inl EIO)
  | None => mret (inl EIO)
  end.
(** [Load(FileDescriptor*, ..)]: no descriptor, then no inode. *)
Definition Load (file : option (option (Z * option (list Z)))) (slack : list Z) (loadBase : Z) : ImageM (Z + unit) :=
  match file with
  | None => mret (inl EBADF)
  | Some None => mret (inl ENOENT)
  | Some (Some (size, read)) => Load_inode size read slack loadBase
  end.

(** ** Enumeration: [visit] answers whether to go on *)
Fixpoint visit_each {A} (elem : Z -> ImageM A) (visit : A -> ImageM bool) (indices : list Z) : ImageM unit :=
  match indices with
  | [] => mret tt
  | i :: indices => a ← elem i; continue ← visit a; if continue : bool then visit_each elem visit indices else mret tt
  end.
Definition ForEachProgramHeader (enumerator : list Z -> ImageM bool) : ImageM unit :=
  n ← header Header_ProgramEntryCount; visit_each ProgramHeader enumerator (seqZ 0 n).
Definition ForEachSectionHeader (enumerator : list Z -> ImageM bool) : ImageM unit :=
  n ← header Header_SectionEntryCount; visit_each SectionHeader enumerator (seqZ 0 n).
Definition symbol_entry (base i : Z) : ImageM (list Z * list Z) :=
  sym ← read_at (base + i * Z.of_nat Symbol_size) Symbol_size;
  name ← LookupString (get_field Symbol_Name sym);
  mret (sym, name).
Definition ForEachSymbolEntry (enumerator : list Z * list Z -> ImageM bool) : ImageM unit :=
  s ← get;
  at_ ← deref (m_SymbolSection s);
  symbols ← read_at at_ Section_size;
  if get_field Section_Size symbols =? 0 then mret tt else
  at_ ← deref (m_StringSection s);
  strings ← read_at at_ Section_size;
  if get_field Section_Size strings =? 0 then mret tt else
  _ ← Assert (negb (get_field Section_EntrySize symbols =? 0));
  visit_each (symbol_entry (get_field Section_Offset symbols)) enumerator
    (seqZ 0 (get_field Section_Size symbols / get_field Section_EntrySize symbols)).

Definition LookupSymbol (name : list Z) : ImageM Z := gets (fun s => default 0 (m_Symbols s !! name)).

(** ** Relocation *)
Fixpoint each_or {A} (f : A -> ImageM (Z + unit)) (l : list A) : ImageM (Z + unit) :=
  match l with [] => mret (inr tt) | a :: l => try_ (f a) (fun _ => each_or f l) end.

Section Relocation.
(** The address a name has in the kernel, zero for none. *)
Variable lookup : list Z -> Z.

(** The tables of a relocation section. *)
Record RelocTables := mkTables { targetBase : Z; symbols : Z; symCount : Z; strtab : Z; relocs : Z }.

(** The address of the symbol a relocation names. *)
Definition symbol_address (t : RelocTables) (sym : list Z) : ImageM (Z + Z) :=
  s ← get;
  let index := get_field Symbol_SectionIndex sym in
  if negb (index =? SHN_UNDEF) then
    if get_field Header_SectionEntryCount (m_Header s) <=? index then mret (inl ENOEXEC)
    else defSection ← SectionHeader index;
         mret (inr (u64 (Raw s + get_field Section_Offset defSection + get_field Symbol_Value sym)))
  else
    symName ← c_string (strtab t + get_field Symbol_Name sym);
    let symAddr := lookup symName in
    if (symAddr =? 0) && bool_decide (symName = GLOBAL_OFFSET_TABLE) then
      match m_GotSection s with
      | Some got => gotSection ← read_at got Section_size; mret (inr (u64 (m_LoadBase s + get_field Section_Offset gotSection)))
      | None => mret (inr symAddr)
      end
    else mret (inr symAddr).

(** What is stored where: the bytes of the place [P], by the type of the relocation. *)
Definition patch_of (raw patch type symAddr addend : Z) : option (list Z) :=
  if type =? e64 then Some (le_bytes 8 (u64 (symAddr + addend)))
  else if type =? ePC32 then Some (le_bytes 4 (u64 (symAddr + addend - u64 (raw + patch))))
  else if type =? eRelative then Some (le_bytes 8 (u64 (raw + addend)))
  else None.

(** A relocation read from the tables: the place and its new bytes. *)
Definition decode_reloc (t : RelocTables) (r : Z) : ImageM (Z + Z * list Z) :=
  reloc ← read_at (relocs t + r * Z.of_nat Reloc_size) Reloc_size;
  s ← get;
  let info := get_field Reloc_Info reloc in
  let type := info .& 0xffffffff in
  let symIndex := info .>> 32 in
  let patch := u64 (targetBase t + get_field Reloc_Offset reloc) in
  if symCount t <=? symIndex then mret (inl ENOEXEC) else
  sym ← read_at (symbols t + symIndex * Z.of_nat Symbol_size) Symbol_size;
  try_ (symbol_address t sym) (fun symAddr =>
    match patch_of (Raw s) patch type symAddr (get_field Reloc_Addend reloc) with
    | Some bs => mret (inr (patch, bs))
    | None => mret (inl ENOEXEC)
    end).
Definition relocate_one (t : RelocTables) (r : Z) : ImageM (Z + unit) :=
  try_ (decode_reloc t r) (fun '(patch, bs) => _ ← write_at patch bs; mret (inr tt)).

(** The tables of section [i], when it is a table of relocations with addends. *)
Definition reloc_tables (i : Z) : ImageM (Z + option (RelocTables * Z)) :=
  n ← header Header_SectionEntryCount;
  relocSection ← SectionHeader i;
  if negb (get_field Section_Type relocSection =? eRelA) then mret (inr None) else
  let targetIndex := get_field Section_Info relocSection in
  if n <=? targetIndex then mret (inl ENOEXEC) else
  targetSection ← SectionHeader targetIndex;
  symtabSection ← SectionHeader (get_field Section_Link relocSection);
  strtabSection ← SectionHeader (get_field Section_Link symtabSection);
  mret (inr (Some (mkTables (get_field Section_Offset targetSection) (get_field Section_Offset symtabSection)
                     (get_field Section_Size symtabSection / Z.of_nat Symbol_size) (get_field Section_Offset strtabSection)
                     (get_field Section_Offset relocSection),
                   get_field Section_Size relocSection / Z.of_nat Reloc_size))).
Definition relocate_section (i : Z) : ImageM (Z + unit) :=
  try_ (reloc_tables i) (fun found =>
    match found with
    | None => mret (inr tt)
    | Some (t, relocCount) => each_or (relocate_one t) (seqZ 0 relocCount)
    end).
Definition ApplyRelocations : ImageM (Z + unit) :=
  n ← header Header_SectionEntryCount; each_or relocate_section (seqZ 0 n).
End Relocation.
