(* ===== verification/ELFTheorems.v ===== *)
(** * ELF images: theorems

    Relocation in place against a reference that decodes every relocation from the unchanged image;
    what a parsed image reports; symbol lookup. *)

From Stdlib Require Import ZArith Lia Bool.
From stdpp Require Import base gmap list numbers.
From S2P Require Import Prelude Posix Disk Effects ELF.

(** ** Reference: relocations as values of the unchanged image *)
Definition bytes_of (s : Image) (off : Z) (n : nat) : list Z := slice (Z.to_nat off) n (m_Image s).
Definition section_count (s : Image) : Z := get_field Header_SectionEntryCount (m_Header s).
Definition section_table (s : Image) : Z := get_field Header_SectionHeaderTableOffset (m_Header s).
Definition section (s : Image) (i : Z) : list Z := bytes_of s (section_table s + i * 64) Section_size.

(** The string at an offset of a string table. *)
Definition string_in (s : Image) (table name : list Z) : option (list Z) :=
  let off := get_field Section_Offset table + get_field Symbol_Name name in
  until_zero (slice (Z.to_nat off) (Z.to_nat (get_field Section_Size table - get_field Symbol_Name name)) (m_Image s)).

(** [S]: where a symbol is. *)
Definition symbol_value (lookup : list Z -> Z) (s : Image) (strings sym : list Z) : option Z :=
  let index := get_field Symbol_SectionIndex sym in
  if index =? SHN_UNDEF then
    name ← string_in s strings sym;
    let v := lookup name in
    Some (if (v =? 0) && bool_decide (name = GLOBAL_OFFSET_TABLE) then
            match m_GotSection s with
            | Some got => u64 (m_LoadBase s + get_field Section_Offset (bytes_of s got Section_size))
            | None => v
            end
          else v)
  else if index <? section_count s
    then Some (u64 (Raw s + get_field Section_Offset (section s index) + get_field Symbol_Value sym))
  else None.

(** Entry [r] of the relocation section [rela]: [S + A], [S + A - P] or [B + A] at the place [P]. *)
Definition relocation (lookup : list Z -> Z) (s : Image) (rela : list Z) (r : Z) : option (Z * list Z) :=
  let symtab := section s (get_field Section_Link rela) in
  let strings := section s (get_field Section_Link symtab) in
  let entry := bytes_of s (get_field Section_Offset rela + r * 24) Reloc_size in
  let index := get_field Reloc_Info entry .>> 32 in
  let place := get_field Section_Offset (section s (get_field Section_Info rela)) + get_field Reloc_Offset entry in
  if index <? get_field Section_Size symtab / 24 then
    v ← symbol_value lookup s strings (bytes_of s (get_field Section_Offset symtab + index * 24) Symbol_size);
    bs ← patch_of (Raw s) place (get_field Reloc_Info entry .& 0xffffffff) v (get_field Reloc_Addend entry);
    Some (place, bs)
  else None.

Definition section_relocations (lookup : list Z -> Z) (s : Image) (i : Z) : option (list (Z * list Z)) :=
  if get_field Section_Type (section s i) =? eRelA
  then mapM (relocation lookup s (section s i)) (seqZ 0 (get_field Section_Size (section s i) / 24)) else Some [].
(** All of them, in the order of the file; [None] when one cannot be resolved. *)
Definition relocations (lookup : list Z -> Z) (s : Image) : option (list (Z * list Z)) :=
  mjoin <$> mapM (section_relocations lookup s) (seqZ 0 (section_count s)).

Definition apply_patches (ps : list (Z * list Z)) (bs : list Z) : list Z :=
  fold_left (fun bs '(place, new) => splice (Z.to_nat place) new bs) ps bs.

(** ** Images whose tables are sound *)
Definition reloc_ranges (s : Image) (i : Z) : list (Z * Z) :=
  let rela := section s i in
  if get_field Section_Type rela =? eRelA then
    let symtab := section s (get_field Section_Link rela) in
    let strings := section s (get_field Section_Link symtab) in
    (fun t => (get_field Section_Offset t, get_field Section_Size t)) <$> [rela; symtab; strings]
  else [].
(** What relocation reads. *)
Definition table_ranges (s : Image) : list (Z * Z) :=
  (section_table s, section_count s * 64) :: mjoin (reloc_ranges s <$> seqZ 0 (section_count s)).
Definition links_ok (s : Image) (i : Z) : bool :=
  let rela := section s i in
  let n := section_count s in
  negb (get_field Section_Type rela =? eRelA) ||
  ((get_field Section_Info rela <? n) && (get_field Section_Link rela <? n) &&
   (get_field Section_Link (section s (get_field Section_Link rela)) <? n)).
Definition tables_ok (s : Image) : bool :=
  bytesb (m_Image s) && bytesb (m_Header s) && (Z.of_nat (length (m_Image s)) <? 2 ^ 63) &&
  (get_field Header_SectionEntrySize (m_Header s) =? 64) &&
  forallb (fun '(off, n) => off + n <=? Z.of_nat (length (m_Image s))) (table_ranges s) &&
  forallb (links_ok s) (seqZ 0 (section_count s)) &&
  match m_GotSection s with
  | Some got => (section_table s <=? got) && (got + 64 <=? section_table s + section_count s * 64)
  | None => true
  end.

Definition ranges_apart (a b : Z * Z) : bool := (a.1 + a.2 <=? b.1) || (b.1 + b.2 <=? a.1).
Definition extent_of (p : Z * list Z) : Z * Z := (p.1, Z.of_nat (length p.2)).
(** The places lie in the image and outside the tables. *)
Definition places_ok (s : Image) (ps : list (Z * list Z)) : bool :=
  forallb (fun p => (0 <=? p.1) && (p.1 + Z.of_nat (length p.2) <=? Z.of_nat (length (m_Image s))) &&
                    forallb (ranges_apart (extent_of p)) (table_ranges s)) ps.

(** ** Reading the tables while the image changes *)
Lemma until_zero_take k bs str : until_zero (take k bs) = Some str -> until_zero bs = Some str.
Proof.
  revert k str. induction bs as [|b bs IH]; intros [|k] str; cbn; try discriminate.
  destruct (b =? 0); [trivial|]. intros (t & Ht & ->)%fmap_Some. now rewrite (IH _ _ Ht).
Qed.

Section Relocate.
Variables (lookup : list Z -> Z) (s : Image).
Hypothesis Hok : tables_ok s = true.
Notation len := (Z.of_nat (length (m_Image s))).

Definition agree (bs : list Z) : Prop :=
  length bs = length (m_Image s) /\
  forall r, r ∈ table_ranges s -> forall o, 0 <= o -> r.1 <= o < r.1 + r.2 -> bs !! Z.to_nat o = m_Image s !! Z.to_nat o.

Lemma tables_facts : Forall byte (m_Image s) /\ Forall byte (m_Header s) /\ len < 2 ^ 63
  /\ get_field Header_SectionEntrySize (m_Header s) = 64
  /\ (forall r, r ∈ table_ranges s -> r.1 + r.2 <= len)
  /\ (forall i, 0 <= i < section_count s -> links_ok s i = true)
  /\ (forall got, m_GotSection s = Some got -> section_table s <= got /\ got + 64 <= section_table s + section_count s * 64).
Proof.
  pose proof Hok as H. unfold tables_ok in H. rewrite !andb_true_iff in H.
  destruct H as ((((((H1 & H2) & H3%Z.ltb_lt) & H4%Z.eqb_eq) & H5) & H6) & H7).
  rewrite forallb_forall in H5, H6. split_and!; trivial; try now apply bytesb_spec.
  - intros [off n] Hr%list_elem_of_In. apply H5 in Hr. now apply Z.leb_le in Hr.
  - intros i Hi. apply H6, list_elem_of_In, elem_of_seqZ. lia.
  - intros got Hg. rewrite Hg, andb_true_iff in H7. destruct H7 as [?%Z.leb_le ?%Z.leb_le]. lia.
Qed.
Lemma field_nonneg f off n : 0 <= get_field f (bytes_of s off n).
Proof. apply get_field_nonneg. unfold bytes_of, slice. apply Forall_take, Forall_drop, tables_facts. Qed.
Lemma section_field_nonneg f i : 0 <= get_field f (section s i).
Proof. apply field_nonneg. Qed.
Lemma header_nonneg f : 0 <= get_field f (m_Header s).
Proof. apply get_field_nonneg, tables_facts. Qed.

Lemma agree_slice bs r off n : agree bs -> r ∈ table_ranges s -> 0 <= r.1 <= off -> off + Z.of_nat n <= r.1 + r.2 ->
  slice (Z.to_nat off) n bs = bytes_of s off n.
Proof.
  intros [_ Ha] Hr Ho Hn. unfold bytes_of, slice. apply list_eq. intros i. destruct (Nat.lt_ge_cases i n) as [Hi|Hi].
  - rewrite !lookup_take_lt, !lookup_drop by trivial. replace (Z.to_nat off + i)%nat with (Z.to_nat (off + Z.of_nat i)) by lia.
    apply (Ha r Hr); lia.
  - rewrite !lookup_ge_None_2; trivial; rewrite length_take; lia.
Qed.
Lemma read_table bs r off n : agree bs -> r ∈ table_ranges s -> 0 <= r.1 <= off -> off + Z.of_nat n <= r.1 + r.2 ->
  read_at off n (with_image bs s) = Ret (with_image bs s) (bytes_of s off n).
Proof.
  intros Ha Hr Ho Hn. destruct tables_facts as (_ & _ & Hl & _ & Hin & _). pose proof (Hin r Hr) as Hb.
  unfold read_at. rewrite get_ret. cbn [m_Image with_image]. unfold u64. rewrite wrap_small by (split; lia).
  rewrite (proj1 Ha). rewrite (proj2 (Z.leb_le _ _)) by lia. now rewrite (agree_slice bs r off n Ha Hr Ho Hn).
Qed.

Lemma header_range : (section_table s, section_count s * 64) ∈ table_ranges s.
Proof. unfold table_ranges. left. Qed.
Lemma SectionHeader_run bs i : agree bs -> 0 <= i < section_count s ->
  SectionHeader i (with_image bs s) = Ret (with_image bs s) (section s i).
Proof.
  intros Ha Hi. unfold SectionHeader. rewrite get_ret. unfold SectionHeader_at. cbn [m_Header with_image].
  destruct tables_facts as (_ & _ & Hl & -> & Hin & _). pose proof (Hin _ header_range) as Hb. cbn [fst snd] in Hb.
  pose proof (header_nonneg Header_SectionHeaderTableOffset) as H0. fold (section_table s) in *.
  unfold u64 at 1. rewrite wrap_small by (split; lia).
  apply (read_table _ _ _ _ Ha header_range); cbn [fst snd]; change (Z.of_nat Section_size) with 64; lia.
Qed.

(** The tables of a relocation section. *)
Definition tables_at (i : Z) : RelocTables :=
  let rela := section s i in
  let symtab := section s (get_field Section_Link rela) in
  mkTables (get_field Section_Offset (section s (get_field Section_Info rela))) (get_field Section_Offset symtab)
    (get_field Section_Size symtab / 24) (get_field Section_Offset (section s (get_field Section_Link symtab))) (get_field Section_Offset rela).

Lemma links i : 0 <= i < section_count s -> get_field Section_Type (section s i) = eRelA ->
  let rela := section s i in let symtab := section s (get_field Section_Link rela) in
  0 <= get_field Section_Info rela < section_count s /\ 0 <= get_field Section_Link rela < section_count s
  /\ 0 <= get_field Section_Link symtab < section_count s.
Proof.
  intros Hi Ht. destruct tables_facts as (_ & _ & _ & _ & _ & Hl & _). specialize (Hl i Hi). unfold links_ok in Hl.
  rewrite Ht in Hl. cbn [negb orb Z.eqb eRelA Pos.eqb] in Hl. rewrite !andb_true_iff, !Z.ltb_lt in Hl.
  cbv zeta. repeat split; try apply section_field_nonneg; apply Hl.
Qed.

Lemma reloc_tables_run bs i : agree bs -> 0 <= i < section_count s ->
  reloc_tables i (with_image bs s) = Ret (with_image bs s)
    (inr (if get_field Section_Type (section s i) =? eRelA then Some (tables_at i, get_field Section_Size (section s i) / 24) else None)).
Proof.
  intros Ha Hi. unfold reloc_tables, header. rewrite gets_ret.
  rewrite (bind_ret _ _ _ _ _ (SectionHeader_run bs i Ha Hi)).
  destruct (Z.eqb_spec (get_field Section_Type (section s i)) eRelA) as [Ht|Ht]; cbn [negb]; [|reflexivity].
  destruct (links i Hi Ht) as (H1 & H2 & H3). change (get_field _ (m_Header (with_image bs s))) with (section_count s).
  rewrite (proj2 (Z.leb_gt _ _)) by lia.
  rewrite (bind_ret _ _ _ _ _ (SectionHeader_run bs _ Ha H1)), (bind_ret _ _ _ _ _ (SectionHeader_run bs _ Ha H2)).
  now rewrite (bind_ret _ _ _ _ _ (SectionHeader_run bs _ Ha H3)).
Qed.
Lemma rela_range i t : 0 <= i < section_count s -> get_field Section_Type (section s i) = eRelA ->
  (let rela := section s i in let symtab := section s (get_field Section_Link rela) in
   t = rela \/ t = symtab \/ t = section s (get_field Section_Link symtab)) ->
  (get_field Section_Offset t, get_field Section_Size t) ∈ table_ranges s.
Proof.
  intros Hi Ht Hin. unfold table_ranges. right. apply list_elem_of_join. exists (reloc_ranges s i). split.
  - unfold reloc_ranges. rewrite Ht. cbn [Z.eqb eRelA Pos.eqb].
    apply (list_elem_of_fmap_2 (fun t => (get_field Section_Offset t, get_field Section_Size t))). set_solver.
  - apply list_elem_of_fmap_2, elem_of_seqZ. lia.
Qed.

Lemma c_string_run bs table sym str : agree bs -> (get_field Section_Offset table, get_field Section_Size table) ∈ table_ranges s ->
  0 <= get_field Section_Offset table -> 0 <= get_field Symbol_Name sym -> string_in s table sym = Some str ->
  c_string (get_field Section_Offset table + get_field Symbol_Name sym) (with_image bs s) = Ret (with_image bs s) str.
Proof.
  intros Ha Hr H0 H1 Hs. unfold string_in in Hs. destruct tables_facts as (_ & _ & Hl & _ & Hin & _). pose proof (Hin _ Hr) as Hb. cbn [fst snd] in Hb.
  destruct (Z.le_gt_cases (get_field Section_Size table) (get_field Symbol_Name sym)) as [Hge|Hlt].
  { replace (Z.to_nat (get_field Section_Size table - _)) with 0%nat in Hs by lia. discriminate. }
  unfold c_string. rewrite get_ret. cbn [m_Image with_image]. unfold u64. rewrite wrap_small by (split; lia).
  change (slice ?o ?n (m_Image s)) with (bytes_of s (get_field Section_Offset table + get_field Symbol_Name sym) n) in Hs.
  rewrite <- (agree_slice bs _ _ _ Ha Hr) in Hs by (cbn [fst snd]; lia). now rewrite (until_zero_take _ _ _ Hs).
Qed.

Lemma symbol_address_run bs i sym v : agree bs -> 0 <= i < section_count s -> get_field Section_Type (section s i) = eRelA ->
  Forall byte sym ->
  symbol_value lookup s (section s (get_field Section_Link (section s (get_field Section_Link (section s i))))) sym = Some v ->
  symbol_address lookup (tables_at i) sym (with_image bs s) = Ret (with_image bs s) (inr v).
Proof.
  intros Ha Hi Ht Hsym Hv. unfold symbol_value in Hv. unfold symbol_address. rewrite get_ret.
  change (get_field _ (m_Header (with_image bs s))) with (section_count s).
  destruct (Z.eqb_spec (get_field Symbol_SectionIndex sym) SHN_UNDEF) as [E|E]; cbn [negb].
  - apply bind_Some in Hv as (str & Hstr & [= <-]).
    rewrite (bind_ret _ _ _ _ _ (c_string_run bs _ sym str Ha (rela_range i _ Hi Ht (or_intror (or_intror eq_refl))) (section_field_nonneg _ _) (get_field_nonneg _ _ Hsym) Hstr)).
    destruct ((lookup str =? 0) && _); [|reflexivity]. cbn [m_GotSection with_image]. destruct (m_GotSection s) as [got|] eqn:Eg; [|reflexivity].
    destruct tables_facts as (_ & _ & _ & _ & _ & _ & Hg). specialize (Hg got Eg). pose proof (header_nonneg Header_SectionHeaderTableOffset) as H0. fold (section_table s) in H0.
    rewrite (bind_ret _ _ _ _ _ (read_table bs _ got Section_size Ha header_range ltac:(cbn [fst]; lia) ltac:(cbn [fst snd]; change (Z.of_nat Section_size) with 64; lia))).
    reflexivity.
  - destruct (Z.ltb_spec (get_field Symbol_SectionIndex sym) (section_count s)) as [Hlt|]; [|discriminate]. injection Hv as <-.
    rewrite (proj2 (Z.leb_gt _ _)) by lia.
    rewrite (bind_ret _ _ _ _ _ (SectionHeader_run bs _ Ha (conj (get_field_nonneg _ _ Hsym) Hlt))). reflexivity.
Qed.

(** Entry [k] of a table of 24-byte entries lies in it. *)
Lemma entry_in size k : 0 <= k < size / 24 -> k * 24 + 24 <= size.
Proof. intros Hk. pose proof (Z.mul_div_le size 24 ltac:(lia)). lia. Qed.

Lemma decode_reloc_run bs i r place new : agree bs -> 0 <= i < section_count s -> get_field Section_Type (section s i) = eRelA ->
  0 <= r < get_field Section_Size (section s i) / 24 -> relocation lookup s (section s i) r = Some (place, new) ->
  place + Z.of_nat (length new) <= len ->
  0 <= place /\ decode_reloc lookup (tables_at i) r (with_image bs s) = Ret (with_image bs s) (inr (place, new)).
Proof.
  intros Ha Hi Ht Hr Hrel Hplace. unfold relocation in Hrel.
  set (rela := section s i) in *. set (symtab := section s (get_field Section_Link rela)) in *.
  set (entry := bytes_of s (get_field Section_Offset rela + r * 24) Reloc_size) in *.
  set (index := get_field Reloc_Info entry .>> 32) in *.
  destruct (Z.ltb_spec index (get_field Section_Size symtab / 24)) as [Hidx|]; [|discriminate].
  apply bind_Some in Hrel as (v & Hv & (new' & Hp & [= <- <-])%bind_Some).
  assert (Hi0 : 0 <= index) by (unfold index; apply Z.shiftr_nonneg, field_nonneg).
  pose proof (entry_in _ _ Hr). pose proof (entry_in _ _ (conj Hi0 Hidx)).
  pose proof (section_field_nonneg Section_Offset i) as Ho. fold rela in Ho.
  pose proof (section_field_nonneg Section_Offset (get_field Section_Link rela)) as Ho'. fold symtab in Ho'.
  pose proof (section_field_nonneg Section_Offset (get_field Section_Info rela)) as Hpl.
  pose proof (field_nonneg Reloc_Offset (get_field Section_Offset rela + r * 24) Reloc_size) as Hpl'. fold entry in Hpl'.
  split; [lia|]. unfold decode_reloc.
  rewrite (bind_ret _ _ _ _ _ (read_table bs _ (get_field Section_Offset rela + r * 24) Reloc_size Ha (rela_range i rela Hi Ht (or_introl eq_refl)) ltac:(cbn [fst]; lia) ltac:(cbn [fst snd]; change (Z.of_nat Reloc_size) with 24; lia))).
  rewrite get_ret. fold entry index. change (symCount (tables_at i)) with (get_field Section_Size symtab / 24). rewrite (proj2 (Z.leb_gt _ _)) by lia.
  rewrite (bind_ret _ _ _ _ _ (read_table bs _ (get_field Section_Offset symtab + index * 24) Symbol_size Ha (rela_range i symtab Hi Ht (or_intror (or_introl eq_refl))) ltac:(cbn [fst]; lia) ltac:(cbn [fst snd]; change (Z.of_nat Symbol_size) with 24; lia))).
  erewrite try_ret by (apply symbol_address_run; [exact Ha|exact Hi|exact Ht|unfold bytes_of, slice; apply Forall_take, Forall_drop, tables_facts|exact Hv]).
  cbn [Raw with_image]. change (targetBase (tables_at i)) with (get_field Section_Offset (section s (get_field Section_Info rela))).
  destruct tables_facts as (_ & _ & Hl & _). unfold u64. rewrite wrap_small by (split; lia). now rewrite Hp.
Qed.
Lemma write_place bs place new : agree bs -> 0 <= place -> place + Z.of_nat (length new) <= len ->
  write_at place new (with_image bs s) = Ret (with_image (splice (Z.to_nat place) new bs) s) tt.
Proof.
  intros Ha H0 H1. destruct tables_facts as (_ & _ & Hl & _). unfold write_at. rewrite get_ret. cbn [m_Image with_image].
  unfold u64. rewrite wrap_small by (split; lia). rewrite (proj1 Ha), (proj2 (Z.leb_le _ _)) by lia. reflexivity.
Qed.
Lemma relocate_one_run bs i r place new : agree bs -> 0 <= i < section_count s -> get_field Section_Type (section s i) = eRelA ->
  0 <= r < get_field Section_Size (section s i) / 24 -> relocation lookup s (section s i) r = Some (place, new) ->
  place + Z.of_nat (length new) <= len ->
  relocate_one lookup (tables_at i) r (with_image bs s) = Ret (with_image (splice (Z.to_nat place) new bs) s) (inr tt).
Proof.
  intros Ha Hi Ht Hr Hrel Hplace. destruct (decode_reloc_run _ _ _ _ _ Ha Hi Ht Hr Hrel Hplace) as [H0 Hd].
  unfold relocate_one. rewrite (try_ret _ _ _ _ _ Hd). cbn beta iota. now rewrite (bind_ret _ _ _ _ _ (write_place _ _ _ Ha H0 Hplace)).
Qed.

Lemma agree_splice bs place new : agree bs -> 0 <= place -> place + Z.of_nat (length new) <= len ->
  forallb (ranges_apart (place, Z.of_nat (length new))) (table_ranges s) = true -> agree (splice (Z.to_nat place) new bs).
Proof.
  intros [Hlen Ha] H0 H1 Hap. rewrite forallb_forall in Hap. split; [rewrite splice_length; [exact Hlen|lia]|].
  intros r Hr o Hpos Ho. rewrite splice_lookup by lia. specialize (Hap r (proj1 (list_elem_of_In _ _) Hr)). unfold ranges_apart in Hap. cbn [fst snd] in Hap.
  rewrite orb_true_iff, !Z.leb_le in Hap. rewrite <- (Ha r Hr o Hpos Ho). destruct (decide _) as [Hd|]; [lia|reflexivity].
Qed.
Lemma places_cons p ps : places_ok s (p :: ps) = true ->
  0 <= p.1 /\ p.1 + Z.of_nat (length p.2) <= len /\ forallb (ranges_apart (extent_of p)) (table_ranges s) = true /\ places_ok s ps = true.
Proof. unfold places_ok. cbn [forallb]. rewrite !andb_true_iff, !Z.leb_le. tauto. Qed.
Lemma places_app ps qs : places_ok s (ps ++ qs) = true -> places_ok s ps = true /\ places_ok s qs = true.
Proof. unfold places_ok. rewrite forallb_app. apply andb_prop. Qed.

(** The relocations of one section. *)
Lemma relocate_entries i rs : forall ps bs, agree bs -> 0 <= i < section_count s -> get_field Section_Type (section s i) = eRelA ->
  Forall (fun r => 0 <= r < get_field Section_Size (section s i) / 24) rs ->
  mapM (relocation lookup s (section s i)) rs = Some ps -> places_ok s ps = true ->
  agree (apply_patches ps bs) /\ each_or (relocate_one lookup (tables_at i)) rs (with_image bs s) = Ret (with_image (apply_patches ps bs) s) (inr tt).
Proof.
  induction rs as [|r rs IH]; intros ps bs Ha Hi Ht Hrs Hm Hp.
  { injection Hm as <-. now split. }
  inversion Hrs as [|? ? Hr Hrs']; subst. cbn [mapM] in Hm.
  apply bind_Some in Hm as ([place new] & Hrel & (ps' & Hm & [= <-])%bind_Some).
  apply places_cons in Hp as (H0 & Hin & Hap & Hp). cbn [fst snd] in H0, Hin.
  pose proof (agree_splice bs place new Ha H0 Hin Hap) as Ha'.
  cbn [each_or]. rewrite (try_ret _ _ _ _ _ (relocate_one_run _ _ _ _ _ Ha Hi Ht Hr Hrel Hin)).
  now apply (IH ps' (splice (Z.to_nat place) new bs)).
Qed.

Lemma relocate_section_run i ps bs : agree bs -> 0 <= i < section_count s -> section_relocations lookup s i = Some ps -> places_ok s ps = true ->
  agree (apply_patches ps bs) /\ relocate_section lookup i (with_image bs s) = Ret (with_image (apply_patches ps bs) s) (inr tt).
Proof.
  intros Ha Hi Hm Hp. unfold section_relocations in Hm. unfold relocate_section. rewrite (try_ret _ _ _ _ _ (reloc_tables_run bs i Ha Hi)).
  destruct (Z.eqb_spec (get_field Section_Type (section s i)) eRelA) as [Ht|Ht]; [|injection Hm as <-; now split].
  apply relocate_entries; trivial. apply Forall_forall. intros r Hr%list_elem_of_In%elem_of_seqZ. lia.
Qed.
Lemma relocate_sections idxs : forall pss bs, agree bs -> Forall (fun i => 0 <= i < section_count s) idxs ->
  mapM (section_relocations lookup s) idxs = Some pss -> places_ok s (mjoin pss) = true ->
  each_or (relocate_section lookup) idxs (with_image bs s) = Ret (with_image (apply_patches (mjoin pss) bs) s) (inr tt).
Proof.
  induction idxs as [|i idxs IH]; intros pss bs Ha His Hm Hp.
  { injection Hm as <-. reflexivity. }
  inversion His as [|? ? Hi His']; subst. cbn [mapM] in Hm. apply bind_Some in Hm as (ps & Hps & (pss' & Hm & [= <-])%bind_Some).
  cbn [mjoin list_join] in *. apply places_app in Hp as [Hp1 Hp2]. destruct (relocate_section_run i ps bs Ha Hi Hps Hp1) as [Ha' Hr].
  unfold apply_patches. rewrite fold_left_app. fold (apply_patches ps bs). cbn [each_or]. rewrite (try_ret _ _ _ _ _ Hr). now apply IH.
Qed.
End Relocate.

Lemma with_image_same s : with_image (m_Image s) s = s.
Proof. now destruct s. Qed.
Lemma agree_self s : agree s (m_Image s).
Proof. now split. Qed.

Definition in_place (ps : list (Z * list Z)) (o : nat) : bool :=
  existsb (fun p => (p.1 <=? Z.of_nat o) && (Z.of_nat o <? p.1 + Z.of_nat (length p.2))) ps.
Definition places_inside (n : nat) (ps : list (Z * list Z)) : Prop := Forall (fun p => 0 <= p.1 /\ p.1 + Z.of_nat (length p.2) <= Z.of_nat n) ps.
Lemma patches_outside ps : forall bs, places_inside (length bs) ps ->
  length (apply_patches ps bs) = length bs /\ forall o, in_place ps o = false -> apply_patches ps bs !! o = bs !! o.
Proof.
  induction ps as [|[p new] ps IH]; intros bs Hb; [now split|]. inversion Hb as [|? ? [H0 H1] Hb']; subst. cbn [fst snd] in *.
  unfold apply_patches. cbn [fold_left]. fold (apply_patches ps (splice (Z.to_nat p) new bs)).
  assert (Hl : length (splice (Z.to_nat p) new bs) = length bs) by (apply splice_length; lia).
  rewrite <- Hl in Hb'. destruct (IH _ Hb') as [HL HO]. split; [congruence|]. intros o Ho. cbn [in_place existsb fst snd] in Ho.
  apply orb_false_iff in Ho as [Ho1 Ho2]. rewrite (HO o Ho2), splice_lookup by lia. destruct (decide _) as [Hd|]; [|reflexivity].
  exfalso. rewrite (proj2 (Z.leb_le _ _)), (proj2 (Z.ltb_lt _ _)) in Ho1 by lia. discriminate.
Qed.

(** A place holds the last bytes written to it. *)
Lemma patches_hold ps : forall bs place new, (place, new) ∈ ps -> places_inside (length bs) ps ->
  (forall p q, p ∈ ps -> q ∈ ps -> p = q \/ ranges_apart (extent_of p) (extent_of q) = true) ->
  slice (Z.to_nat place) (length new) (apply_patches ps bs) = new.
Proof.
  induction ps as [|[p1 n1] ps IH] using rev_ind; intros bs place new Hin Hb Hap; [now apply elem_of_nil in Hin|].
  apply Forall_app in Hb as Hb2. destruct Hb2 as [Hb' Hb2]. apply list.Forall_cons in Hb2 as [[H0 H1] _]. destruct (patches_outside ps bs Hb') as [Hlen _]. cbn [fst snd] in *.
  unfold apply_patches. rewrite fold_left_app. cbn [fold_left]. fold (apply_patches ps bs).
  destruct (Hap (place, new) (p1, n1) Hin ltac:(set_solver)) as [[= -> ->]|Ha].
  - apply take_drop_splice; [rewrite Hlen; lia|reflexivity].
  - unfold ranges_apart, extent_of in Ha. cbn [fst snd] in Ha. rewrite orb_true_iff, !Z.leb_le in Ha.
    destruct (decide (new = [])) as [->|Hne]; [reflexivity|].
    destruct (proj1 (list.Forall_forall _ _) Hb _ Hin) as [? ?]. cbn [fst snd] in *.
    rewrite slice_splice_outside by (rewrite ?Hlen; lia). apply IH; [|trivial|intros; apply Hap; set_solver].
    apply elem_of_app in Hin as [|[[= -> ->]|[]%elem_of_nil]%elem_of_cons]; [trivial|].
    destruct Hne. apply nil_length_inv. lia.
Qed.
Definition patches_apart (ps : list (Z * list Z)) : bool :=
  forallb (fun p => forallb (fun q => bool_decide (p = q) || ranges_apart (extent_of p) (extent_of q)) ps) ps.
Lemma places_in_image s ps : places_ok s ps = true -> places_inside (length (m_Image s)) ps.
Proof. induction ps as [|p ps IH]; [constructor|]. intros (H0 & H1 & _ & H)%places_cons. constructor; [now split|now apply IH]. Qed.

(** ** Theorems *)

(** C16: Relocating a module in place is right although the loop rewrites the buffer it reads its tables
    from: when the places to patch lie in the image, apart from the tables and from each other, every
    place ends up with the value the unchanged image defines for it ([S + A], [S + A - P] or [B + A]),
    and no other byte changes. *)
Theorem ApplyRelocations_patches lookup s ps : tables_ok s = true -> relocations lookup s = Some ps ->
  places_ok s ps = true -> patches_apart ps = true ->
  exists bs, ApplyRelocations lookup s = Ret (with_image bs s) (inr tt) /\ length bs = length (m_Image s)
  /\ (forall place new, (place, new) ∈ ps -> slice (Z.to_nat place) (length new) bs = new)
  /\ (forall o, in_place ps o = false -> bs !! o = m_Image s !! o).
Proof.
  intros Hok (pss & Hm & ->)%fmap_Some Hp Hap. exists (apply_patches (mjoin pss) (m_Image s)).
  pose proof (places_in_image _ _ Hp) as Hin. destruct (patches_outside _ _ Hin) as [HL HO]. split_and!; [|exact HL| |exact HO].
  - unfold ApplyRelocations, header. rewrite gets_ret. rewrite <- (with_image_same s) at 2.
    apply relocate_sections; trivial; [apply agree_self|]. apply Forall_forall. intros i Hi%list_elem_of_In%elem_of_seqZ. unfold section_count. lia.
  - intros place new Hpn. apply patches_hold; trivial. unfold patches_apart in Hap. rewrite forallb_forall in Hap.
    intros p q Hp' Hq'. apply list_elem_of_In in Hp', Hq'. specialize (Hap p Hp'). rewrite forallb_forall in Hap. specialize (Hap q Hq').
    apply orb_true_iff in Hap as [?%bool_decide_eq_true|]; tauto.
Qed.

(** A module with one section of code, two symbols (one of the module, one of the kernel) and two
    relocations. *)
Definition fields (fs : list (Field * Z)) (bs : list Z) : list Z := fold_left (fun bs '(f, x) => set_field f x bs) fs bs.
Definition example_section (name type offset size link info : Z) : list Z :=
  fields [(Section_Name, name); (Section_Type, type); (Section_Offset, offset); (Section_Size, size); (Section_Link, link); (Section_Info, info)] (replicate 64 0).
Definition example_symbol (name index value : Z) : list Z :=
  fields [(Symbol_Name, name); (Symbol_SectionIndex, index); (Symbol_Value, value)] (replicate 24 0).
Definition example_reloc (offset sym type addend : Z) : list Z :=
  fields [(Reloc_Offset, offset); (Reloc_Info, sym * 2 ^ 32 + type); (Reloc_Addend, addend)] (replicate 24 0).
Definition example_header : list Z :=
  fields [(Header_Magic, le_word MAGIC); (Header_Bitness, e64Bit); (Header_Endianness, eLittle); (Header_HeaderVersion, 1);
          (Header_InstructionSet, eAMDx86_64); (Header_ElfVersion, 1); (Header_SectionHeaderTableOffset, 64);
          (Header_SectionEntrySize, 64); (Header_SectionEntryCount, 5)] (replicate 64 0).
Definition example_file : list Z :=
  example_header
  ++ example_section 0 0 0 0 0 0 ++ example_section 0 1 384 16 0 0 ++ example_section 0 eSymbolTable 400 48 3 0
  ++ example_section 0 eStringTable 448 7 0 0 ++ example_section 0 eRelA 455 48 2 1
  ++ replicate 16 144
  ++ example_symbol 0 1 4 ++ example_symbol 1 0 0
  ++ [0; 107; 112; 117; 116; 115; 0]
  ++ example_reloc 0 0 e64 2 ++ example_reloc 8 1 ePC32 (2 ^ 64 - 4).
Definition example_module : Image := mkImage example_file 0xffff800000100000 0 example_header (mkAux 0 0 0 0) None None None None ∅ [].
Definition kernel_symbol (name : list Z) : Z := if bool_decide (name = [107; 112; 117; 116; 115]) then 0xffff800000090000 else 0.

Lemma ApplyRelocations_patches_witness : exists bs,
  ApplyRelocations kernel_symbol example_module = Ret (with_image bs example_module) (inr tt)
  /\ le_word (slice 384 8 bs) = 0xffff800000100000 + 384 + 4 + 2
  /\ i32 (le_word (slice 392 4 bs)) = 0xffff800000090000 - 4 - (0xffff800000100000 + 392).
Proof.
  destruct (ApplyRelocations_patches kernel_symbol example_module
    [(384, le_bytes 8 0xffff800000100186); (392, le_bytes 4 0xfff8fe74)]
    ltac:(vm_compute; reflexivity) ltac:(vm_compute; reflexivity) ltac:(vm_compute; reflexivity) ltac:(vm_compute; reflexivity))
    as (bs & H & _ & Hp & _).
  exists bs. split; [exact H|].
  pose proof (Hp 384 (le_bytes 8 0xffff800000100186) ltac:(left)) as H1. pose proof (Hp 392 (le_bytes 4 0xfff8fe74) ltac:(right; left)) as H2.
  change (slice 384 8 bs = le_bytes 8 0xffff800000100186) in H1. change (slice 392 4 bs = le_bytes 4 0xfff8fe74) in H2.
  rewrite H1, H2. now split.
Defined.

(** ** Departures *)

(** The example with the section names in a string table of their own behind the symbols' one, as
    linkers write it. *)
Definition names_file : list Z :=
  set_field Header_SectionEntryCount 6 example_header
  ++ example_section 0 0 0 0 0 0 ++ example_section 1 1 448 16 0 0 ++ set_field Section_EntrySize 24 (example_section 7 eSymbolTable 464 48 3 0)
  ++ example_section 15 eStringTable 512 7 0 0 ++ example_section 23 eRelA 519 0 2 1 ++ example_section 30 eStringTable 519 9 0 0
  ++ replicate 16 144
  ++ example_symbol 0 1 4 ++ example_symbol 1 1 8
  ++ [0; 107; 112; 117; 116; 115; 0]
  ++ [0; 46; 116; 101; 120; 116; 0; 0; 0].
Definition names_image : outcome Image (Z + unit) := LoadFromMemory names_file (replicate 100 0) (new_Image 0x1000 [] (mkAux 0 0 0 0)).

(** Names of symbols are looked up in the last string table of the file instead of the one the
    symbol table refers to: the symbol [kputs] is entered under a section's name and not found under
    its own. *)
Theorem symbols_named_by_last_table : exists s, names_image = Ret s (inr tt)
  /\ LookupSymbol [107; 112; 117; 116; 115] s = Ret s 0 /\ LookupSymbol [46; 116; 101; 120; 116] s = Ret s 8.
Proof. eexists. split_and!; [vm_compute; reflexivity|reflexivity|reflexivity]. Qed.

(** The path of the interpreter keeps the zero that ends it in the file. *)
Theorem interpreter_path_keeps_terminator s i h path : ProgramHeader i s = Ret s h -> get_field Program_Type h = eInterp ->
  read_at (get_field Program_Offset h) (Z.to_nat (get_field Program_SegmentSizeInFile h)) s = Ret s (path ++ [0]) ->
  parse_program_header i s = Ret (with_interpreter (path ++ [0]) s) tt.
Proof. intros Hp Ht Hr. unfold parse_program_header. rewrite (bind_ret _ _ _ _ _ Hp), Ht. cbn [Z.eqb eInterp eProgramHeader Pos.eqb]. now rewrite (bind_ret _ _ _ _ _ Hr). Qed.
