(* ===== verification/ExecutableProgram.v ===== *)
(** * Starting a program

    [Library/ExecutableProgram.cpp] and the thread constructor that uses it ([Scheduler/Thread.cpp]):
    the segments of an executable are copied into fresh frames and mapped, its interpreter is loaded
    beside it, a stack is mapped and the arguments, environment and auxiliary values are laid out on
    it.

    The machine state joins the page tables ([PageTables]), the frame allocator ([BitmapAllocator]),
    the regions of the process ([AddressSpace]) and the contents of physical memory, which the kernel
    reaches through its direct map: [ram] is indexed by direct-map addresses. *)

From Stdlib Require Import ZArith Lia Bool.
From stdpp Require Import base gmap list numbers.
From S2P Require Import Prelude Prism PageTables PageTableProofs PageMap BitmapAllocator AddressSpace Posix Disk Effects ELF.

Definition Access_eUser : Z := 0x08.
Definition eReadWriteExecute : Z := Access_eRead .| Access_eWrite .| Access_eExecute.
Definition user_attributes : Z := attr_or eRWXU eWriteBack.
Definition USER_STACK_SIZE : Z := 0x200000.
Definition INTERPRETER_BASE : Z := 0x41000000.

(** ** The initial stack *)

(** The memory the kernel writes the stack through, and the stack pointer in it. *)
Definition Stack : Type := gmap Z Z * Z.
Definition store_word (mem : gmap Z Z) (a w : Z) : gmap Z Z := mem_write mem a (le_bytes 8 w).
(** A string without its terminating zero, below the pointer. *)
Definition push_string (st : Stack) (str : list Z) : Stack :=
  let stack := u64 (st.2 - Z.of_nat (length str) - 1) in (mem_write st.1 stack str, stack).
(** [*(--stack) = w] *)
Definition push_word (st : Stack) (w : Z) : Stack := let stack := u64 (st.2 - 8) in (store_word st.1 stack w, stack).
(** [stack -= 2; stack[0] = type, stack[1] = value] *)
Definition push_aux (st : Stack) (type value : Z) : Stack :=
  let stack := u64 (st.2 - 16) in (store_word (store_word st.1 stack type) (u64 (stack + 8)) value, stack).
(** The addresses of the strings, which lie below [stackPointer] in turn. *)
Fixpoint store_pointers (mem : gmap Z Z) (a stackPointer : Z) (strs : list (list Z)) : gmap Z Z * Z :=
  match strs with
  | [] => (mem, stackPointer)
  | str :: strs =>
      let stackPointer := u64 (stackPointer - (Z.of_nat (length str) + 1)) in
      store_pointers (store_word mem a stackPointer) (u64 (a + 8)) stackPointer strs
  end.
(** [stack -= strs.Size()], then the addresses *)
Definition push_pointers (st : Stack) (stackPointer : Z) (strs : list (list Z)) : Stack * Z :=
  let stack := u64 (st.2 - 8 * Z.of_nat (length strs)) in
  let '(mem, stackPointer) := store_pointers st.1 stack stackPointer strs in ((mem, stack), stackPointer).

(** [AuxiliaryValueType] *)
Definition AT_ProgramHeader : Z := 3.
Definition AT_ProgramHeaderEntrySize : Z := 4.
Definition AT_ProgramHeaderCount : Z := 5.
Definition AT_Entry : Z := 9.

(** The end of the auxiliary values, these values, the environment and the arguments, with their
    number on top. *)
Definition push_vectors (aux : AuxiliaryVector) (programHeaderCount : Z) (st : Stack) (stackTopVirt : Z) (argv envp : list (list Z)) : Stack :=
  let st := push_word st 0 in
  let st := push_word st 0 in
  let st := push_aux st AT_Entry (EntryPoint aux) in
  let st := push_aux st AT_ProgramHeader (ProgramHeaderAddress aux) in
  let st := push_aux st AT_ProgramHeaderEntrySize (ProgramHeaderEntrySize aux) in
  let st := push_aux st AT_ProgramHeaderCount programHeaderCount in
  let st := push_word st 0 in
  let '(st, stackPointer) := push_pointers st stackTopVirt envp in
  let st := push_word st 0 in
  let '(st, stackPointer) := push_pointers st stackPointer argv in
  push_word st (Z.of_nat (length argv)).

Definition PrepareStack {PM : PrismMath} (aux : AuxiliaryVector) (programHeaderCount : Z) (mem : gmap Z Z)
    (stackTopWritable stackTopVirt : Z) (argv envp : list (list Z)) : gmap Z Z * Z :=
  let st := fold_left push_string envp (mem, stackTopWritable) in
  let st := fold_left push_string argv st in
  let stack := AlignDown st.2 16 in
  let stack := if Z.odd (Z.of_nat (length argv) + Z.of_nat (length envp) + 1) then u64 (stack - 8) else stack in
  let st := push_vectors aux programHeaderCount (st.1, stack) stackTopVirt argv envp in
  (st.1, u64 (stackTopVirt - (stackTopWritable - st.2))).

(** ** Segments *)
Section Loading.
Context {HH : HigherHalf} {H : Type} {TH : TableHeap H} {B : Type} {BM : Bitmap B} {PM : PrismMath}
  {T : Type} {RB : RedBlackTree T Region}.
Variables (pagingMode : PagingMode) (s_1GibPages : bool) (topLevel : Z).

Record Machine := mkMachine { pageMap : Memory (H:=H); pmm : PMM.State B; ram : gmap Z Z; addressSpace : AddressSpace T }.
Definition with_page_map (m : Memory (H:=H)) (st : Machine) : Machine := mkMachine m (pmm st) (ram st) (addressSpace st).
Definition with_pmm (p : PMM.State B) (st : Machine) : Machine := mkMachine (pageMap st) p (ram st) (addressSpace st).
Definition with_ram (r : gmap Z Z) (st : Machine) : Machine := mkMachine (pageMap st) (pmm st) r (addressSpace st).
Definition with_space (a : AddressSpace T) (st : Machine) : Machine := mkMachine (pageMap st) (pmm st) (ram st) a.
Notation MachineM := (M Machine).

(** [PMM::CallocatePages] *)
Definition CallocatePages (count : Z) : MachineM Z :=
  st ← get;
  let '(pages, p) := PMM.AllocatePages (pmm st) count in
  _ ← update (with_pmm p);
  if pages =? 0 then mret 0 else
  _ ← update (fun st => with_ram (mem_write (ram st) (ToHigherHalf pages) (replicate (Z.to_nat (4096 * count)) 0)) st);
  mret pages.

Definition map_range (virt phys size : Z) : MachineM bool :=
  st ← get;
  let '(ok, m) := MapRange pagingMode s_1GibPages topLevel (pageMap st) virt phys size user_attributes in
  _ ← update (with_page_map m); mret ok.

Definition insert_region (phys virt size : Z) : MachineM unit :=
  update (fun st => with_space (Insert (addressSpace st) virt
    (mkRegion (mkRange virt size) phys (eReadWriteExecute .| Access_eUser) 0)) st).

(** Bytes of the image, outside of which the copy may not read. *)
Definition image_bytes (img : Image) (off n : Z) : option (list Z) :=
  if u64 off + n <=? Z.of_nat (length (m_Image img)) then Some (slice (Z.to_nat (u64 off)) (Z.to_nat n) (m_Image img)) else None.

(** One program header. *)
Definition load_segment (img : Image) (loadBase : Z) (header : list Z) : MachineM unit :=
  if get_field Program_Type header =? eLoad then
    let vaddr := get_field Program_VirtualAddress header in
    let misalign := vaddr .& (4096 - 1) in
    let pageCount := DivRoundUp (u64 (get_field Program_SegmentSizeInMemory header + misalign)) 4096 in
    phys ← CallocatePages pageCount;
    _ ← Assert (negb (phys =? 0));
    let virt := u64 (vaddr + loadBase) in
    let size := u64 (pageCount * 4096) in
    ok ← map_range virt phys size;
    _ ← Assert ok;
    _ ← insert_region phys virt size;
    bs ← deref (image_bytes img (get_field Program_Offset header) (get_field Program_SegmentSizeInFile header));
    update (fun st => with_ram (mem_write (ram st) (ToHigherHalf (u64 (phys + misalign))) bs) st)
  else mret tt.

(** A computation on an image of its own. *)
Definition on_image {A} (m : ImageM A) (img : Image) : MachineM (Image * A) := fun st =>
  match m img with Ret img a => Ret st (img, a) | Halted _ => Halted st | Panic => Panic | Diverges => Diverges end.

Definition load_header (img : Image) (loadBase i : Z) : MachineM unit :=
  r ← on_image (ProgramHeader i) img; load_segment img loadBase (snd r).

(** [find] is the file system: whether a path has an entry, an inode, and what reading it gives;
    [fresh] the image object made for it, with its buffer. *)
Section Program.
Variable find : list Z -> option (option (Z * option (list Z))).
Variable fresh : list Z -> Image * list Z.

Definition LoadImage (path : list Z) (loadBase : Z) : MachineM (Z + Image) :=
  match find path with
  | None => mret (inl ENOENT)
  | Some None => mret (inl ENOENT)
  | Some file =>
      let '(img, slack) := fresh path in
      '(img, r) ← on_image (Load (Some file) slack loadBase) img;
      match r with
      | inl _ => mret (inl ENOEXEC)
      | inr _ =>
          _ ← each (load_header img loadBase) (seqZ 0 (get_field Header_ProgramEntryCount (m_Header img)));
          mret (inr img)
      end
  end.

(** The image, its interpreter, and where execution starts. *)
Definition Load_program (path : list Z) (loadBase : Z) : MachineM (Z + Image * option Image * Z) :=
  try_ (LoadImage path loadBase) (fun image =>
    if bool_decide (m_InterpreterPath image = []) then mret (inr (image, None, EntryPoint (m_AuxiliaryVector image)))
    else try_ (LoadImage (m_InterpreterPath image) INTERPRETER_BASE) (fun interpreter =>
      mret (inr (image, Some interpreter, EntryPoint (m_AuxiliaryVector interpreter))))).
End Program.

(** ** The stack of the first thread *)

(** Its top as the kernel writes it, its top in the process, and the next stack's top. *)
Definition mapUserStack (userStackTop : Z) : MachineM (Z * Z * Z) :=
  stackPhys ← CallocatePages (USER_STACK_SIZE / 4096);
  let stackVirt := u64 (userStackTop - USER_STACK_SIZE) in
  ok ← map_range stackVirt stackPhys USER_STACK_SIZE;
  _ ← Assert ok;
  _ ← insert_region stackPhys stackVirt USER_STACK_SIZE;
  mret (u64 (ToHigherHalf stackPhys + USER_STACK_SIZE), u64 (stackVirt + USER_STACK_SIZE), u64 (stackVirt - 4096)).

(** The initial stack pointer of the thread. *)
Definition new_user_thread (aux : AuxiliaryVector) (programHeaderCount userStackTop : Z) (argv envp : list (list Z)) : MachineM (Z * Z) :=
  '(stackTopWritable, stackTopVirt, next) ← mapUserStack userStackTop;
  st ← get;
  let '(mem, sp) := PrepareStack aux programHeaderCount (ram st) stackTopWritable stackTopVirt argv envp in
  _ ← update (with_ram mem);
  mret (sp, next).
End Loading.
Arguments Machine : clear implicits.
Arguments mkMachine {H B T}.
