(* ===== verification/ProgramTheorems.v ===== *)
(** * Starting a program: theorems

    The initial stack read back as the new program reads it, and the memory a loaded program finds. *)

From Stdlib Require Import ZArith Lia Bool.
From stdpp Require Import base gmap list numbers.
From S2P Require Import Prelude Prism PageTables PageTableProofs PageMap BitmapAllocator BitmapAllocatorProofs AddressSpace Posix Disk Effects ELF ExecutableProgram.

(** ** Memory as bytes, words and strings *)
Definition byte_at (mem : gmap Z Z) (a : Z) : Z := default 0 (mem !! a).
Definition word_at (read : Z -> Z) (a : Z) : Z := le_word (read <$> seqZ a 8).
Definition words_at (read : Z -> Z) (a : Z) (ws : list Z) : Prop := forall i w, ws !! i = Some w -> word_at read (a + 8 * Z.of_nat i) = w.
(** A zero-terminated string. *)
Definition string_at (read : Z -> Z) (a : Z) (str : list Z) : Prop :=
  (forall i c, str !! i = Some c -> read (a + Z.of_nat i) = c) /\ read (a + Z.of_nat (length str)) = 0.

Lemma ram_byte_write mem a bs x : byte_at (mem_write mem a bs) x =
  if decide (a <= x < a + Z.of_nat (length bs)) then default 0 (bs !! Z.to_nat (x - a)) else byte_at mem x.
Proof. unfold byte_at. rewrite mem_write_lookup. now destruct (decide _). Qed.

Lemma word_at_ext f g a : (forall x, a <= x < a + 8 -> f x = g x) -> word_at f a = word_at g a.
Proof. intros H. unfold word_at. f_equal. apply list_fmap_ext. intros i x [-> Hx]%lookup_seqZ. apply H. lia. Qed.
Lemma words_at_ext f g a ws : (forall x, a <= x < a + 8 * Z.of_nat (length ws) -> f x = g x) -> words_at f a ws -> words_at g a ws.
Proof.
  intros H Hw i w Hi. pose proof (lookup_lt_Some _ _ _ Hi). rewrite <- (Hw i w Hi). apply word_at_ext. intros x Hx. symmetry. apply H. lia.
Qed.
Lemma string_at_ext f g a str : (forall x, a <= x <= a + Z.of_nat (length str) -> f x = g x) -> string_at f a str -> string_at g a str.
Proof.
  intros H [Hs Hz]. split; [|rewrite <- H; [exact Hz|lia]].
  intros i c Hi. pose proof (lookup_lt_Some _ _ _ Hi). rewrite <- H by lia. now apply Hs.
Qed.
Lemma words_at_shift f d a ws : words_at f a ws -> words_at (fun v => f (v - d)) (a + d) ws.
Proof.
  intros H i w Hi. rewrite <- (H i w Hi). unfold word_at. f_equal. apply list_eq. intros k. rewrite !list_lookup_fmap.
  destruct (Nat.lt_ge_cases k 8).
  - rewrite !lookup_seqZ_lt by lia. cbn. f_equal. f_equal. lia.
  - rewrite !lookup_seqZ_ge by lia. reflexivity.
Qed.
Lemma string_at_shift f d a str : string_at f a str -> string_at (fun v => f (v - d)) (a + d) str.
Proof. intros [Hs Hz]. split; [intros i c Hi; rewrite <- (Hs i c Hi); f_equal; lia|rewrite <- Hz; f_equal; lia]. Qed.
Lemma words_at_cons f a w ws : word_at f a = w -> words_at f (a + 8) ws -> words_at f a (w :: ws).
Proof.
  intros H0 H [|i] x Hi; cbn in Hi; [injection Hi as <-; now rewrite Z.add_0_r|]. rewrite <- (H i x Hi). f_equal. lia.
Qed.
Lemma words_at_app f a ws ws' : words_at f a ws -> words_at f (a + 8 * Z.of_nat (length ws)) ws' -> words_at f a (ws ++ ws').
Proof.
  intros H H' i w Hi. apply lookup_app_Some in Hi as [Hi|[Hge Hi]]; [now apply H|]. rewrite <- (H' _ _ Hi). f_equal. lia.
Qed.

Lemma word_at_store mem a w : in_u 64 w -> word_at (byte_at (store_word mem a w)) a = w.
Proof.
  intros Hw. unfold word_at. rewrite <- (Z.mod_small w (2 ^ 64)) at 2 by exact Hw. change (2 ^ 64) with (256 ^ Z.of_nat 8). rewrite <- le_word_le_bytes. f_equal.
  apply list_eq. intros i. destruct (Nat.lt_ge_cases i 8) as [Hi|Hi].
  - rewrite list_lookup_fmap, lookup_seqZ_lt by lia. cbn [fmap option_fmap option_map]. unfold store_word. rewrite ram_byte_write, le_bytes_length.
    destruct (decide _); [|lia]. replace (Z.to_nat (a + Z.of_nat i - a)) with i by lia.
    destruct (lookup_lt_is_Some_2 (le_bytes 8 w) i ltac:(now rewrite le_bytes_length)) as [x ->]. reflexivity.
  - rewrite !lookup_ge_None_2; [reflexivity|now rewrite le_bytes_length|rewrite length_fmap, length_seqZ; lia].
Qed.
Lemma byte_at_store_other mem a w x : ~ a <= x < a + 8 -> byte_at (store_word mem a w) x = byte_at mem x.
Proof. intros H. unfold store_word. rewrite ram_byte_write, le_bytes_length. destruct (decide _); [lia|reflexivity]. Qed.

(** ** The steps of [PrepareStack] *)

(** Where strings put below [p] start, and the end of the last. *)
Fixpoint addresses (p : Z) (strs : list (list Z)) : list Z :=
  match strs with [] => [] | str :: strs => let p := p - (Z.of_nat (length str) + 1) in p :: addresses p strs end.
Fixpoint bottom (p : Z) (strs : list (list Z)) : Z :=
  match strs with [] => p | str :: strs => bottom (p - (Z.of_nat (length str) + 1)) strs end.
Definition text (str : list Z) : Prop := Forall byte str.

Lemma bottom_le strs : forall p, bottom p strs <= p.
Proof. induction strs as [|s strs IH]; intros p; cbn [bottom]; [lia|]. specialize (IH (p - (Z.of_nat (length s) + 1))). lia. Qed.
Lemma bottom_shift strs : forall p d, bottom (p + d) strs = bottom p strs + d.
Proof. induction strs as [|s strs IH]; intros p d; cbn [bottom]; [reflexivity|]. rewrite <- IH. f_equal. lia. Qed.
Lemma addresses_shift strs : forall p d, addresses (p + d) strs = (fun a => a + d) <$> addresses p strs.
Proof.
  induction strs as [|s strs IH]; intros p d; cbn [addresses]; [reflexivity|]. rewrite fmap_cons, <- IH. f_equal; [lia|]. f_equal. lia.
Qed.
Lemma addresses_length strs : forall p, length (addresses p strs) = length strs.
Proof. induction strs as [|s strs IH]; intros p; cbn; [reflexivity|now rewrite IH]. Qed.
Lemma addresses_range strs : forall p a, a ∈ addresses p strs -> bottom p strs <= a < p.
Proof.
  induction strs as [|s strs IH]; intros p a Ha; cbn in *; [now apply elem_of_nil in Ha|].
  apply elem_of_cons in Ha as [->|Ha]; [pose proof (bottom_le strs (p - (Z.of_nat (length s) + 1))); lia|]. apply IH in Ha. lia.
Qed.

(** The strings, in memory that was zero below [p]. *)
Lemma push_strings strs : forall mem p, 0 <= bottom p strs -> p < 2 ^ 64 ->
  (forall x, bottom p strs <= x < p -> byte_at mem x = 0) ->
  exists mem', fold_left push_string strs (mem, p) = (mem', bottom p strs)
  /\ (forall x, ~ bottom p strs <= x < p -> byte_at mem' x = byte_at mem x)
  /\ Forall2 (string_at (byte_at mem')) (addresses p strs) strs.
Proof.
  induction strs as [|s strs IH]; intros mem p H0 H1 Hz.
  { exists mem. cbn. split_and!; [reflexivity|reflexivity|constructor]. }
  cbn [fold_left bottom addresses] in *. set (q := p - (Z.of_nat (length s) + 1)) in *.
  pose proof (bottom_le strs q) as Hb. unfold push_string at 2. cbn [fst snd].
  replace (p - Z.of_nat (length s) - 1) with q by (unfold q; lia). unfold u64. rewrite wrap_small by (split; unfold q; lia).
  destruct (IH (mem_write mem q s) q H0 ltac:(unfold q; lia)) as (mem' & HF & Hk & Hs).
  { intros x Hx. rewrite ram_byte_write. destruct (decide _); [lia|]. apply Hz. unfold q in *. lia. }
  exists mem'. split; [exact HF|]. split.
  - intros x Hx. rewrite Hk, ram_byte_write by (unfold q in *; lia). destruct (decide _); [unfold q in *; lia|reflexivity].
  - constructor; [|exact Hs]. split.
    + intros i c Hi. pose proof (lookup_lt_Some _ _ _ Hi). rewrite Hk, ram_byte_write by lia. destruct (decide _); [|lia].
      replace (Z.to_nat (q + Z.of_nat i - q)) with i by lia. now rewrite Hi.
    + rewrite Hk, ram_byte_write by lia. destruct (decide _); [lia|]. apply Hz. unfold q in *. lia.
Qed.

(** The addresses of strings, which start below [sp]. *)
Lemma store_pointers_run strs : forall mem a sp, 0 <= a -> a + 8 * Z.of_nat (length strs) < 2 ^ 64 -> 0 <= bottom sp strs -> sp < 2 ^ 64 ->
  exists mem', store_pointers mem a sp strs = (mem', bottom sp strs)
  /\ (forall x, ~ a <= x < a + 8 * Z.of_nat (length strs) -> byte_at mem' x = byte_at mem x)
  /\ words_at (byte_at mem') a (addresses sp strs).
Proof.
  induction strs as [|s strs IH]; intros mem a sp Ha Ha' H0 H1.
  { exists mem. cbn. split_and!; [reflexivity|reflexivity|]. intros i w Hi. now rewrite lookup_nil in Hi. }
  cbn [store_pointers bottom addresses length] in *. set (q := sp - (Z.of_nat (length s) + 1)) in *.
  pose proof (bottom_le strs q) as Hb. unfold u64. rewrite (wrap_small 64 q) by (split; unfold q; lia). rewrite (wrap_small 64 (a + 8)) by (split; lia).
  destruct (IH (store_word mem a q) (a + 8) q ltac:(lia) ltac:(lia) H0 ltac:(unfold q; lia)) as (mem' & HF & Hk & Hw).
  exists mem'. split; [exact HF|]. split.
  - intros x Hx. rewrite Hk, byte_at_store_other by lia. reflexivity.
  - apply words_at_cons; [|exact Hw]. rewrite (word_at_ext _ (byte_at (store_word mem a q))) by (intros x Hx; apply Hk; lia).
    apply word_at_store. split; unfold q in *; lia.
Qed.

(** The words pushed so far below [base], everything else as in [mem0]. *)
Record frame (mem0 : gmap Z Z) (base : Z) (st : Stack) (ws : list Z) : Prop := {
  frame_sp : st.2 = base - 8 * Z.of_nat (length ws);
  frame_words : words_at (byte_at st.1) st.2 ws;
  frame_rest x : ~ st.2 <= x < base -> byte_at st.1 x = byte_at mem0 x
}.
(** A write below the words. *)
Lemma frame_below mem0 base mem sp ws mem' new : frame mem0 base (mem, sp) ws ->
  (forall x, ~ sp - 8 * Z.of_nat (length new) <= x < sp -> byte_at mem' x = byte_at mem x) ->
  words_at (byte_at mem') (sp - 8 * Z.of_nat (length new)) new ->
  frame mem0 base (mem', sp - 8 * Z.of_nat (length new)) (new ++ ws).
Proof.
  intros [Hs Hw Hr] Hk Hn. cbn [fst snd] in *. split; cbn [fst snd].
  - rewrite length_app. lia.
  - apply words_at_app; [exact Hn|]. replace (sp - _ + _) with sp by lia. apply (words_at_ext (byte_at mem)); [|exact Hw].
    intros x Hx. symmetry. apply Hk. lia.
  - intros x Hx. rewrite Hk, Hr by lia. reflexivity.
Qed.
Lemma push_word_frame mem0 base st ws w : frame mem0 base st ws -> 8 <= st.2 -> base < 2 ^ 64 -> in_u 64 w -> frame mem0 base (push_word st w) (w :: ws).
Proof.
  intros Hf H8 Hb Hw. destruct st as [mem sp]. cbn [fst snd] in *. pose proof (frame_sp _ _ _ _ Hf) as Hsp. cbn [snd] in Hsp.
  unfold push_word. cbn [fst snd]. unfold u64. rewrite wrap_small by (split; lia).
  replace (sp - 8) with (sp - 8 * Z.of_nat (length [w])) by (cbn [length]; lia). apply (frame_below mem0 base mem sp ws _ [w] Hf).
  - intros x Hx. apply byte_at_store_other. cbn [length] in Hx |- *. lia.
  - apply words_at_cons; [now apply word_at_store|]. intros i x Hi. now rewrite lookup_nil in Hi.
Qed.
Lemma push_aux_frame mem0 base st ws t w : frame mem0 base st ws -> 16 <= st.2 -> base < 2 ^ 64 -> in_u 64 t -> in_u 64 w ->
  frame mem0 base (push_aux st t w) (t :: w :: ws).
Proof.
  intros Hf H8 Hb Ht Hw. destruct st as [mem sp]. cbn [fst snd] in *. pose proof (frame_sp _ _ _ _ Hf) as Hsp. cbn [snd] in Hsp.
  unfold push_aux. cbn [fst snd]. unfold u64. rewrite (wrap_small 64 (sp - 16)) by (split; lia). rewrite wrap_small by (split; lia).
  replace (sp - 16) with (sp - 8 * Z.of_nat (length [t; w])) by (cbn [length]; lia). apply (frame_below mem0 base mem sp ws _ [t; w] Hf); cbn [length].
  - intros x Hx. rewrite !byte_at_store_other by lia. reflexivity.
  - apply words_at_cons; [|apply words_at_cons; [now apply word_at_store|intros i x Hi; now rewrite lookup_nil in Hi]].
    rewrite (word_at_ext _ (byte_at (store_word mem (sp - 8 * Z.of_nat 2) t))) by (intros x Hx; apply byte_at_store_other; lia). now apply word_at_store.
Qed.
Lemma push_pointers_frame mem0 base st ws p strs : frame mem0 base st ws -> 8 * Z.of_nat (length strs) <= st.2 -> base < 2 ^ 64 ->
  0 <= bottom p strs -> p < 2 ^ 64 ->
  exists st', push_pointers st p strs = (st', bottom p strs) /\ frame mem0 base st' (addresses p strs ++ ws).
Proof.
  intros Hf H8 Hb H0 H1. destruct st as [mem sp]. cbn [fst snd] in *. pose proof (frame_sp _ _ _ _ Hf) as Hsp. cbn [snd] in Hsp.
  unfold push_pointers. cbn [fst snd]. unfold u64. rewrite wrap_small by (split; lia).
  destruct (store_pointers_run strs mem (sp - 8 * Z.of_nat (length strs)) p ltac:(lia) ltac:(lia) H0 H1) as (mem' & -> & Hk & Hw).
  eexists. split; [reflexivity|]. rewrite <- (addresses_length strs p). apply (frame_below mem0 base mem sp ws _ _ Hf); rewrite addresses_length; [|exact Hw].
  intros x Hx. apply Hk. lia.
Qed.

(** The words from the initial stack pointer up. *)
Definition initial_words (aux : AuxiliaryVector) (count : Z) (pa pe : list Z) : list Z :=
  Z.of_nat (length pa) :: pa ++ 0 :: pe ++ 0 ::
  [AT_ProgramHeaderCount; count; AT_ProgramHeaderEntrySize; ProgramHeaderEntrySize aux; AT_ProgramHeader; ProgramHeaderAddress aux; AT_Entry; EntryPoint aux; 0; 0].
Definition aux_ok (aux : AuxiliaryVector) (count : Z) : Prop :=
  in_u 64 (EntryPoint aux) /\ in_u 64 (ProgramHeaderAddress aux) /\ in_u 64 (ProgramHeaderEntrySize aux) /\ in_u 64 count.
(** The room the strings and words take. *)
Definition stack_bytes (argv envp : list (list Z)) : Z := - bottom 0 (envp ++ argv) + 8 * Z.of_nat (length argv + length envp) + 136.

Lemma bottom_app a b : forall p, bottom p (a ++ b) = bottom (bottom p a) b.
Proof. induction a as [|s a IH]; intros p; cbn; [reflexivity|apply IH]. Qed.
Lemma bottom_count strs : forall p, bottom p strs + Z.of_nat (length strs) <= p.
Proof. induction strs as [|s strs IH]; intros p; cbn [bottom length]; [lia|]. specialize (IH (p - (Z.of_nat (length s) + 1))). lia. Qed.

Ltac frame_room F := rewrite (frame_sp _ _ _ _ F); repeat (cbn [length]; rewrite ?length_app, ?addresses_length); lia.
Lemma push_vectors_frame aux count mem base V argv envp : aux_ok aux count -> 8 * Z.of_nat (length argv + length envp + 13) <= base < 2 ^ 64 ->
  0 <= bottom (bottom V envp) argv -> V < 2 ^ 64 ->
  frame mem base (push_vectors aux count (mem, base) V argv envp) (initial_words aux count (addresses (bottom V envp) argv) (addresses V envp)).
Proof.
  intros (A1 & A2 & A3 & A4) [HL Hb] HV HV'. pose proof (bottom_le envp V). pose proof (bottom_le argv (bottom V envp)).
  assert (F0 : frame mem base (mem, base) []) by (split; cbn; [lia|intros i w Hi; now rewrite lookup_nil in Hi|reflexivity]).
  assert (H64 : in_u 64 0) by (split; lia).
  pose proof (push_word_frame _ _ _ _ 0 F0 ltac:(frame_room F0) Hb H64) as F1. clear F0.
  pose proof (push_word_frame _ _ _ _ 0 F1 ltac:(frame_room F1) Hb H64) as F2. clear F1.
  pose proof (push_aux_frame _ _ _ _ AT_Entry _ F2 ltac:(frame_room F2) Hb ltac:(now split) A1) as F3. clear F2.
  pose proof (push_aux_frame _ _ _ _ AT_ProgramHeader _ F3 ltac:(frame_room F3) Hb ltac:(now split) A2) as F4. clear F3.
  pose proof (push_aux_frame _ _ _ _ AT_ProgramHeaderEntrySize _ F4 ltac:(frame_room F4) Hb ltac:(now split) A3) as F5. clear F4.
  pose proof (push_aux_frame _ _ _ _ AT_ProgramHeaderCount _ F5 ltac:(frame_room F5) Hb ltac:(now split) A4) as F6. clear F5.
  pose proof (push_word_frame _ _ _ _ 0 F6 ltac:(frame_room F6) Hb H64) as F7. clear F6. unfold push_vectors.
  destruct (push_pointers_frame _ _ _ _ V envp F7 ltac:(frame_room F7) Hb ltac:(lia) ltac:(lia)) as (st8 & -> & F8). clear F7.
  pose proof (push_word_frame _ _ _ _ 0 F8 ltac:(frame_room F8) Hb H64) as F9. clear F8.
  destruct (push_pointers_frame _ _ _ _ (bottom V envp) argv F9 ltac:(frame_room F9) Hb ltac:(lia) ltac:(lia)) as (st10 & -> & F10). clear F9.
  pose proof (push_word_frame _ _ _ _ (Z.of_nat (length argv)) F10 ltac:(frame_room F10) Hb ltac:(split; lia)) as F11.
  unfold initial_words. now rewrite addresses_length.
Qed.

(** Sixteen-byte alignment of the final stack pointer: the padding word fills up an odd number. *)
Lemma stack_base {PM : PrismMath} q n : 0 <= n -> 24 <= q < 2 ^ 64 ->
  let base := if Z.odd (n + 1) then u64 (AlignDown q 16 - 8) else AlignDown q 16 in
  q - 24 < base <= q /\ (base - 8 * (n + 13)) mod 16 = 0.
Proof.
  intros Hn Hq base. pose proof (AlignDown_le q 16 ltac:(lia) ltac:(lia)) as Hal. destruct (AlignDown_divide q 16 ltac:(lia) ltac:(lia)) as [d Hd].
  unfold base. destruct (Z.odd (n + 1)) eqn:Eo.
  - apply Z.odd_spec in Eo as [k Hk]. unfold u64. rewrite wrap_small by (split; lia). split; [lia|].
    replace (AlignDown q 16 - 8 - 8 * (n + 13)) with ((d - k - 7) * 16) by lia. apply Z.mod_mul. lia.
  - rewrite <- Z.negb_even in Eo. apply negb_false_iff, Z.even_spec in Eo as [k Hk]. split; [lia|].
    replace (AlignDown q 16 - 8 * (n + 13)) with ((d - k - 6) * 16) by lia. apply Z.mod_mul. lia.
Qed.

Lemma strings_keep mem mem' strs p : (forall x, bottom p strs <= x -> byte_at mem' x = byte_at mem x) ->
  Forall2 (string_at (byte_at mem)) (addresses p strs) strs -> Forall2 (string_at (byte_at mem')) (addresses p strs) strs.
Proof.
  intros Hk HF. rewrite !Forall2_lookup in *. intros i. specialize (HF i). inversion HF as [a str Ha|]; constructor.
  apply (string_at_ext (byte_at mem)); [|trivial]. intros x Hx. symmetry. apply Hk.
  pose proof (addresses_range strs p a ltac:(now apply list_elem_of_lookup_2 with i)). lia.
Qed.

Section Stack.
Context {PM : PrismMath}.
Variables (aux : AuxiliaryVector) (count : Z) (mem : gmap Z Z) (W V : Z) (argv envp : list (list Z)).
Hypothesis Haux : aux_ok aux count.
Hypothesis HW : stack_bytes argv envp <= W < 2 ^ 64.
Hypothesis HV : stack_bytes argv envp <= V < 2 ^ 64.
Hypothesis Hzero : forall x, W - stack_bytes argv envp <= x < W -> byte_at mem x = 0.

Lemma PrepareStack_layout : exists mem' sp, PrepareStack aux count mem W V argv envp = (mem', u64 (V - (W - sp)))
  /\ W - stack_bytes argv envp <= sp <= W /\ sp mod 16 = 0
  /\ words_at (byte_at mem') sp (initial_words aux count (addresses (bottom V envp) argv) (addresses V envp))
  /\ Forall2 (string_at (byte_at mem')) (addresses (bottom W envp) argv) argv
  /\ Forall2 (string_at (byte_at mem')) (addresses W envp) envp
  /\ (forall x, ~ W - stack_bytes argv envp <= x < W -> byte_at mem' x = byte_at mem x).
Proof.
  set (q := bottom (bottom W envp) argv). set (n := Z.of_nat (length argv + length envp)).
  pose proof (bottom_shift (envp ++ argv) 0 W) as Hq. rewrite bottom_app, Z.add_0_l in Hq. fold q in Hq.
  pose proof (bottom_shift (envp ++ argv) 0 V) as HqV. rewrite bottom_app, Z.add_0_l in HqV.
  unfold stack_bytes in *. fold n in HW, HV, Hzero |- *. set (S := - bottom 0 (envp ++ argv)) in *.
  pose proof (bottom_le (envp ++ argv) 0). pose proof (bottom_le envp W). pose proof (bottom_le argv (bottom W envp)) as HbW. fold q in HbW.
  destruct (push_strings envp mem W ltac:(lia) ltac:(lia)) as (mem1 & E1 & K1 & S1); [intros x Hx; apply Hzero; lia|].
  destruct (push_strings argv mem1 (bottom W envp) ltac:(lia) ltac:(lia)) as (mem2 & E2 & K2 & S2).
  { intros x Hx. rewrite K1 by lia. apply Hzero. fold q in Hx. lia. }
  unfold PrepareStack. rewrite E1, E2. cbn [fst snd]. fold q in E2, K2 |- *.
  replace (Z.of_nat (length argv) + Z.of_nat (length envp) + 1) with (n + 1) by (unfold n; lia).
  destruct (stack_base q n ltac:(lia) ltac:(lia)) as [Hbase Hmod]. set (base := if Z.odd _ then _ else _) in *.
  destruct (push_vectors_frame aux count mem2 base V argv envp Haux ltac:(unfold n in *; lia) ltac:(lia) ltac:(lia)) as [Hsp Hw Hr].
  set (st := push_vectors _ _ _ _ _ _) in *. clearbody st.
  assert (Hsp' : st.2 = base - 8 * (n + 13)) by (rewrite Hsp; unfold initial_words; repeat (cbn [length]; rewrite ?length_app, ?addresses_length); unfold n; lia).
  exists st.1, st.2. split_and!; [reflexivity|lia|lia|now rewrite Hsp'|exact Hw| | |].
  - apply (strings_keep mem2); [|exact S2]. fold q. intros x Hx. apply Hr. lia.
  - apply (strings_keep mem1); [|exact S1]. intros x Hx. rewrite Hr, K2 by lia. reflexivity.
  - intros x Hx. rewrite Hr, K2, K1 by lia. reflexivity.
Qed.
End Stack.

(** ** Theorems *)

(** C15: The stack [PrepareStack] builds in zeroed memory is the initial stack of the System V ABI: from
    the stack pointer up, the program finds the number of arguments, a pointer to each argument as a
    zero-terminated string, a null, a pointer to each environment string, a null, and the auxiliary
    values; the stack pointer is a multiple of 16.  The program reads at virtual addresses what the
    kernel wrote through its own mapping. *)
Theorem PrepareStack_readable {PM : PrismMath} aux count mem W V argv envp :
  aux_ok aux count -> stack_bytes argv envp <= W < 2 ^ 64 -> stack_bytes argv envp <= V < 2 ^ 64 -> (16 | V - W) ->
  (forall x, W - stack_bytes argv envp <= x < W -> byte_at mem x = 0) ->
  exists mem' sp pa pe, PrepareStack aux count mem W V argv envp = (mem', sp) /\ sp mod 16 = 0
  /\ (let read := fun v => byte_at mem' (v - (V - W)) in
      words_at read sp (initial_words aux count pa pe) /\ Forall2 (string_at read) pa argv /\ Forall2 (string_at read) pe envp).
Proof.
  intros Haux HW HV [d Hd] Hz. destruct (PrepareStack_layout aux count mem W V argv envp Haux HW HV Hz) as (mem' & sp & HP & Hsp & Hm & Hw & Ha & He & _).
  exists mem', (sp + (V - W)), (addresses (bottom V envp) argv), (addresses V envp). cbv zeta. split_and!.
  - rewrite HP. f_equal. unfold u64. rewrite wrap_small by (split; lia). lia.
  - rewrite Hd, Z_mod_plus_full. exact Hm.
  - now apply words_at_shift.
  - replace (bottom V envp) with (bottom W envp + (V - W)) by (rewrite <- bottom_shift; f_equal; lia). rewrite addresses_shift.
    apply Forall2_fmap_l. eapply Forall2_impl; [intros a str; apply string_at_shift|exact Ha].
  - replace (addresses V envp) with (addresses (W + (V - W)) envp) by (f_equal; lia). rewrite addresses_shift. apply Forall2_fmap_l. eapply Forall2_impl; [intros a str; apply string_at_shift|exact He].
Qed.

(** [sh -c], with one variable. *)
Definition example_argv : list (list Z) := [[115; 104]; [45; 99]].
Definition example_envp : list (list Z) := [[65; 61; 49]].
Lemma PrepareStack_readable_witness : exists mem' sp pa pe,
  PrepareStack (mkAux 0x401000 0x400040 56 9) 9 ∅ 0xffff800000200000 0x70000000000 example_argv example_envp = (mem', sp) /\ sp mod 16 = 0
  /\ word_at (fun v => byte_at mem' (v - (0x70000000000 - 0xffff800000200000))) sp = 2
  /\ Forall2 (string_at (fun v => byte_at mem' (v - (0x70000000000 - 0xffff800000200000)))) pa example_argv
  /\ Forall2 (string_at (fun v => byte_at mem' (v - (0x70000000000 - 0xffff800000200000)))) pe example_envp.
Proof.
  destruct (PrepareStack_readable (mkAux 0x401000 0x400040 56 9) 9 ∅ 0xffff800000200000 0x70000000000 example_argv example_envp) as (mem' & sp & pa & pe & H1 & H2 & Hw & Ha & He).
  - now repeat split.
  - vm_compute. split; [discriminate|reflexivity].
  - vm_compute. split; [discriminate|reflexivity].
  - exists ((0x70000000000 - 0xffff800000200000) / 16). reflexivity.
  - intros x _. reflexivity.
  - exists mem', sp, pa, pe. split_and!; trivial. pose proof (Hw 0%nat _ eq_refl) as H0. cbn [Z.of_nat Z.mul] in H0. rewrite Z.add_0_r in H0.
    apply Forall2_length in Ha. rewrite Ha in H0. exact H0.
Defined.
