(* ===== verification/LoaderTheorems.v ===== *)
(** * The memory of a loaded program: theorems

    Frames, page tables and physical memory together: what a program finds at the addresses of its
    segments once [LoadImage] has returned. *)

From Stdlib Require Import ZArith Lia Bool.
From stdpp Require Import base gmap list numbers.
From S2P Require Import Prelude Prism PageTables PageTableProofs PageMap PageMapTheorems BitmapAllocator BitmapAllocatorProofs PhysicalMemory AddressSpace AddressSpaceProofs Posix Disk Effects ELF ExecutableProgram ProgramTheorems.

Lemma strides_length size step : 0 < step -> 0 <= size -> length (strides size step) = Z.to_nat ((size + step - 1) / step).
Proof. intros. unfold strides. now rewrite length_fmap, length_seqZ. Qed.

(** ** Segments *)
Section Segments.
Context {PM : PrismMath}.
Variables (img : Image) (base : Z).
Definition seg_load (h : list Z) : bool := get_field Program_Type h =? eLoad.
Definition seg_offset (h : list Z) : Z := get_field Program_Offset h.
Definition seg_filesz (h : list Z) : Z := get_field Program_SegmentSizeInFile h.
Definition seg_memsz (h : list Z) : Z := get_field Program_SegmentSizeInMemory h.
Definition seg_misalign (h : list Z) : Z := get_field Program_VirtualAddress h mod 4096.
Definition seg_pages (h : list Z) : Z := DivRoundUp (seg_memsz h + seg_misalign h) 4096.
(** Its first page. *)
Definition seg_page (h : list Z) : Z := get_field Program_VirtualAddress h + base - seg_misalign h.
Definition seg_end (h : list Z) : Z := seg_page h + seg_pages h * 4096.
(** The bytes of its pages. *)
Definition seg_content (h : list Z) (off : Z) : Z :=
  if decide (seg_misalign h <= off < seg_misalign h + seg_filesz h) then nth (Z.to_nat (seg_offset h + off - seg_misalign h)) (m_Image img) 0 else 0.

(** A sound segment: not empty, in the file, in the user half. *)
Definition seg_ok (h : list Z) : bool :=
  bytesb h && (negb (seg_load h) ||
   ((0 <? seg_memsz h) && (seg_filesz h <=? seg_memsz h) && (seg_offset h + seg_filesz h <=? Z.of_nat (length (m_Image img))) && (seg_end h <=? 2 ^ 47))).
Definition seg_apart (g h : list Z) : bool := negb (seg_load g) || negb (seg_load h) || (seg_end g <=? seg_page h) || (seg_end h <=? seg_page g).
(** Sound segments on pages of their own. *)
Fixpoint segments_ok (hs : list (list Z)) : bool :=
  match hs with [] => true | h :: hs => seg_ok h && forallb (seg_apart h) hs && segments_ok hs end.
Definition segment_pages (hs : list (list Z)) : nat := foldr (fun h n => (if seg_load h then Z.to_nat (seg_pages h) else 0) + n)%nat 0%nat hs.
End Segments.
(** The allocator has a run of frames for each segment. *)
Fixpoint frames_for {B} {BM : Bitmap B} {PM : PrismMath} (hs : list (list Z)) (p : PMM.State B) : bool :=
  match hs with
  | [] => true
  | h :: hs => if seg_load h then let '(phys, p) := PMM.AllocatePages p (seg_pages h) in negb (phys =? 0) && frames_for hs p else frames_for hs p
  end.

Section Loader.
Context {HH : HigherHalf} {H : Type} {TH : TableHeap H} {B : Type} {BM : Bitmap B} {PM : PrismMath}
  {T : Type} {RB : RedBlackTree T Region}.
Variables (pm : PagingMode) (gib : bool) (top hhdm : Z).
(** The direct map is linear. *)
Hypothesis direct_map_linear : forall p, 0 <= p < 2 ^ 46 -> ToHigherHalf p = p + hhdm.
Notation Machine := (Machine H B T).
Implicit Types st : Machine.
Notation CallocatePages := (CallocatePages (H:=H) (T:=T)).
Notation map_range := (map_range (B:=B) (T:=T) pm gib top).

Definition alloc st : BitmapAllocator B := PMM.s_BitmapAllocator (pmm st).
Definition used st (j : Z) : bool := GetIndex (m_PageBitmap (alloc st)) j.
Definition sees st (v : Z) : option (Z * nat) := view pm top (pageMap st) v.
(** The byte the processor reads at an address. *)
Definition user_byte st (v : Z) : option Z :=
  match sees st v with
  | Some (pte, s) => Some (byte_at (ram st) (ToHigherHalf (Address pte + v mod 2 ^ page_bits s)))
  | None => None
  end.

(** A machine that can load: page tables and allocator are sound, [n] more tables can be made, and
    the user half has no large pages. *)
Record ready (n : nat) st : Prop := {
  r_map : exists L, page_map pm top (pageMap st) L;
  r_init : PMM.s_Initialized (pmm st) = true;
  r_inv : inv (alloc st);
  r_page : m_PageSize (alloc st) = 4096;
  r_phys : page_count (alloc st) * 4096 <= 2 ^ 46;
  r_heap : can_alloc n (heap (pageMap st));
  r_small v : 0 <= v < 2 ^ 47 -> covered_at 1 (sees st v)
}.

Lemma user_level : level user_attributes = 1%nat /\ GetPageSize user_attributes = 4096.
Proof. now split. Qed.
Lemma user_native : native_size gib user_attributes.
Proof. unfold native_size. rewrite (proj2 user_level). discriminate. Qed.

(** Pages of the user half. *)
Lemma same_user_page v1 v2 : 0 <= v1 < 2 ^ 48 -> 0 <= v2 < 2 ^ 48 -> same_page pm 1 v1 v2 <-> v1 / 4096 = v2 / 4096.
Proof.
  intros H1 H2. rewrite same_page_div by (destruct pm; simpl; lia). change (2 ^ page_bits 1) with 4096.
  assert (Hs : forall v, 0 <= v < 2 ^ 48 -> wrap (page_bits (S (depth pm)) - page_bits 1) (v / 4096) = v / 4096).
  { intros v Hv. apply wrap_small. split; [apply Z.div_pos; lia|]. apply Z.div_lt_upper_bound; [lia|].
    apply Z.lt_le_trans with (2 ^ 48); [lia|]. destruct pm; vm_compute; discriminate. }
  now rewrite !Hs.
Qed.

(** A block of frames: held, mapped from the page [v] on, with these contents. *)
Record block st (v p np : Z) (content : Z -> Z) : Prop := {
  b_frames : 0 < p /\ p + np <= page_count (alloc st);
  b_used j : p <= j < p + np -> used st j = true;
  b_view off : 0 <= off < np * 4096 -> sees st (v + off) = Some (leaf (p * 4096 + off / 4096 * 4096) user_attributes, 1%nat);
  b_ram off : 0 <= off < np * 4096 -> byte_at (ram st) (p * 4096 + off + hhdm) = content off
}.

Lemma block_byte n st v p np content off : ready n st -> (4096 | v) -> block st v p np content -> 0 <= off < np * 4096 ->
  user_byte st (v + off) = Some (content off).
Proof.
  intros Hr [k ->] Hb Hoff. unfold user_byte. rewrite (b_view _ _ _ _ _ Hb off Hoff). change (2 ^ page_bits 1) with 4096.
  pose proof (b_frames _ _ _ _ _ Hb) as [H0 H1]. pose proof (r_phys _ _ Hr) as H2.
  pose proof (Z.div_mod off 4096 ltac:(lia)) as Hd. pose proof (Z.mod_pos_bound off 4096 ltac:(lia)).
  assert (0 <= off / 4096) by (apply Z.div_pos; lia).
  replace (p * 4096 + off / 4096 * 4096) with ((p + off / 4096) * 4096) by lia.
  rewrite Address_leaf by (trivial; apply mask_aligned; lia).
  rewrite (Z.add_comm (k * 4096)), Z_mod_plus_full. rewrite direct_map_linear by lia.
  rewrite <- (b_ram _ _ _ _ _ Hb off Hoff). do 2 f_equal. lia.
Qed.

(** ** Frames *)

(** What a call that hands out the frames [p .. p + np), zeroed, leaves alone. *)
Record framed st st' (p np : Z) : Prop := {
  f_map : pageMap st' = pageMap st;
  f_count : page_count (alloc st') = page_count (alloc st);
  f_frames : 0 < p /\ p + np <= page_count (alloc st);
  f_used j : 0 <= j < page_count (alloc st) -> used st' j = if decide (p <= j < p + np) then true else used st j;
  f_free j : p <= j < p + np -> used st j = false;
  f_zero off : 0 <= off < np * 4096 -> byte_at (ram st') (p * 4096 + off + hhdm) = 0;
  f_ram x : ~ p * 4096 + hhdm <= x < (p + np) * 4096 + hhdm -> byte_at (ram st') x = byte_at (ram st) x
}.

Lemma CallocatePages_run n st np : ready n st -> 0 < np -> (PMM.AllocatePages (pmm st) np).1 <> 0 ->
  exists st' p, CallocatePages np st = Ret st' (p * 4096) /\ framed st st' p np /\ ready n st'
  /\ pmm st' = (PMM.AllocatePages (pmm st) np).2.
Proof.
  intros Hr Hnp Hne. unfold ExecutableProgram.CallocatePages. rewrite get_ret.
  destruct (PMM.AllocatePages (pmm st) np) as [phys p'] eqn:Ea. cbn [fst snd] in *. rewrite update_ret. cbn [with_pmm].
  destruct (Z.eqb_spec phys 0); [contradiction|].
  unfold PMM.AllocatePages in Ea. rewrite (r_init _ _ Hr) in Ea. cbn [negb] in Ea.
  fold (alloc st) in Ea. destruct (AllocatePages (alloc st) np) as [q a] eqn:Eb. injection Ea as -> <-.
  destruct (AllocatePages_spec _ _ _ _ (r_inv _ _ Hr) Hnp Eb) as [Hinv [(-> & _)|(p & Hphys & Hp & Hrun & Hset & _)]]; [contradiction|].
  destruct Hset as (_ & Hpe & Hg & Ht & Hz & _). assert (Hc : page_count a = page_count (alloc st)) by (unfold page_count; now rewrite Ht, Hz). rewrite (r_page _ _ Hr) in *.
  pose proof (r_phys _ _ Hr) as Hph. rewrite update_ret.
  eexists _, p. split; [unfold mret, M_ret; subst phys; reflexivity|]. split; [|split; [|reflexivity]].
  - split; cbn [pageMap with_ram with_pmm ram]; unfold alloc, used; cbn [pmm with_ram with_pmm PMM.s_BitmapAllocator]; trivial; try lia.
    + now split.
    + intros off Hoff. subst phys. rewrite direct_map_linear, ram_byte_write by lia. rewrite length_replicate. destruct (decide _); [|lia].
      rewrite lookup_replicate_2 by lia. reflexivity.
    + intros x Hx. subst phys. rewrite direct_map_linear, ram_byte_write by lia. rewrite length_replicate. destruct (decide _); [lia|reflexivity].
  - destruct Hr as [H1 H2 H3 H4 H5 H6 H7]. split; cbn [pageMap with_ram with_pmm]; unfold alloc; cbn [pmm with_ram with_pmm PMM.s_BitmapAllocator PMM.s_Initialized]; trivial.
    rewrite Hc. exact H5.
Qed.

(** Blocks already there stay. *)
Lemma block_framed st st' p np v q nq content : framed st st' p np -> block st v q nq content -> block st' v q nq content.
Proof.
  intros Hf Hb. pose proof (b_frames _ _ _ _ _ Hb) as [Hq Hqe].
  assert (Hap : forall j, q <= j < q + nq -> ~ p <= j < p + np).
  { intros j Hj Hj'. pose proof (b_used _ _ _ _ _ Hb j Hj). rewrite (f_free _ _ _ _ Hf j Hj') in *. discriminate. }
  split.
  - rewrite (f_count _ _ _ _ Hf). now split.
  - intros j Hj. rewrite (f_used _ _ _ _ Hf) by lia. case_decide; [reflexivity|]. now apply (b_used _ _ _ _ _ Hb).
  - intros off Hoff. unfold sees. rewrite (f_map _ _ _ _ Hf). now apply (b_view _ _ _ _ _ Hb).
  - intros off Hoff. rewrite (f_ram _ _ _ _ Hf); [now apply (b_ram _ _ _ _ _ Hb)|].
    specialize (Hap (q + off / 4096)). pose proof (Z.div_mod off 4096 ltac:(lia)). pose proof (Z.mod_pos_bound off 4096 ltac:(lia)).
    assert (0 <= off / 4096 < nq) by (split; [apply Z.div_pos; lia|apply Z.div_lt_upper_bound; lia]). lia.
Qed.

(** ** Mapping *)
Lemma page_found virt size w i : 0 <= virt -> virt + size <= 2 ^ 64 -> size <= 2 ^ page_bits (S (depth pm)) ->
  i ∈ strides size 4096 -> same_page pm 1 (virt + i) w ->
  exists x, list_find (λ i, same_page pm 1 (u64 (virt + i)) w) (strides size 4096) = Some (x, i).
Proof.
  intros Hv Hv2 Hsz Hi Hs. destruct (range_offsets pm virt size user_attributes Hv Hv2 Hsz) as [Hoff Hdist].
  rewrite (proj1 user_level), (proj2 user_level) in *. destruct (Hoff i Hi) as (Eu & _ & _).
  assert (Hs' : same_page pm 1 (u64 (virt + i)) w) by now rewrite Eu.
  destruct (list_find_elem_of (λ i, same_page pm 1 (u64 (virt + i)) w) _ _ Hi Hs') as [[x j] Hf]. exists x. rewrite Hf. do 2 f_equal.
  apply list_find_Some in Hf as (Hj & Hsj & _). apply list_elem_of_lookup_2 in Hj. apply Hdist; trivial. intros k Hk. now rewrite Hsj, Hs'.
Qed.

Lemma strides_pages np i : 0 <= np -> i ∈ strides (np * 4096) 4096 <-> exists k, 0 <= k < np /\ i = k * 4096.
Proof.
  intros Hnp. rewrite elem_of_strides by lia. split; intros (k & ? & ?); exists k; lia.
Qed.
Lemma strides_count np : 0 <= np -> length (strides (np * 4096) 4096) = Z.to_nat np.
Proof.
  intros Hnp. rewrite strides_length by lia. f_equal. replace (np * 4096 + 4096 - 1) with (4095 + np * 4096) by lia. rewrite Z.div_add by lia. reflexivity.
Qed.

(** A machine whose page map alone has changed. *)
Record remapped st st' (v p np : Z) : Prop := {
  m_ram : ram st' = ram st;
  m_pmm : pmm st' = pmm st;
  m_in off : 0 <= off < np * 4096 -> sees st' (v + off) = Some (leaf (p * 4096 + off / 4096 * 4096) user_attributes, 1%nat);
  m_out w : 0 <= w < 2 ^ 47 -> ~ v <= w < v + np * 4096 -> sees st' w = sees st w
}.

Lemma map_range_run n st v mis p np : ready ((depth pm - 1) * Z.to_nat np + n) st -> (4096 | v) -> 0 <= mis < 4096 ->
  0 <= v -> 0 < np -> v + np * 4096 <= 2 ^ 47 -> 0 < p -> p + np <= page_count (alloc st) ->
  exists st', map_range (v + mis) (p * 4096) (np * 4096) st = Ret st' true /\ ready n st' /\ remapped st st' v p np.
Proof.
  intros Hr [k Hk] Hmis Hv Hnp Hv2 Hp Hpe. destruct (r_map _ _ Hr) as [L HL]. pose proof (r_phys _ _ Hr) as Hph.
  assert (Hsz : np * 4096 <= 2 ^ page_bits (S (depth pm))) by (apply Z.le_trans with (2 ^ 47); [lia|destruct pm; vm_compute; discriminate]).
  assert (Hcov : forall i, i ∈ strides (np * 4096) 4096 -> covered_at 1 (sees st (v + mis + i))).
  { intros i (j & Hj & ->)%strides_pages; [|lia]. apply (r_small _ _ Hr). lia. }
  destruct (MapRange_total pm gib top (pageMap st) L (v + mis) (p * 4096) (np * 4096) user_attributes n HL user_native) as (m' & Hm & Hh).
  { intros i Hi. rewrite (proj2 user_level) in Hi. pose proof Hi as (j & Hj & ->)%strides_pages; [|lia]. unfold u64. rewrite wrap_small by (split; lia). now apply Hcov. }
  { rewrite (proj1 user_level), (proj2 user_level), strides_count by lia. apply (r_heap _ _ Hr). }
  destruct (MapRange_view_pages pm gib top (pageMap st) L (v + mis) (p * 4096) (np * 4096) user_attributes m' HL user_native ltac:(lia) ltac:(lia) Hsz) with (2 := Hm) as (L' & HL' & _ & Hview).
  { intros i Hi. now apply Hcov. }
  rewrite (proj1 user_level), (proj2 user_level) in Hview.
  exists (with_page_map m' st). unfold ExecutableProgram.map_range. rewrite get_ret, Hm, update_ret. split; [reflexivity|].
  assert (Hrem : remapped st (with_page_map m' st) v p np).
  { split; [reflexivity|reflexivity| |].
    - intros off Hoff. unfold sees. cbn [pageMap with_page_map]. rewrite Hview.
      pose proof (Z.div_mod off 4096 ltac:(lia)). pose proof (Z.mod_pos_bound off 4096 ltac:(lia)).
      assert (0 <= off / 4096 < np) by (split; [apply Z.div_pos; lia|apply Z.div_lt_upper_bound; lia]).
      destruct (page_found (v + mis) (np * 4096) (v + off) (off / 4096 * 4096)) as [x ->]; [lia|lia|exact Hsz|apply strides_pages; [lia|eauto]| |].
      + apply same_user_page; [lia..|]. subst v. rewrite <- Z.add_assoc, (Z.add_comm mis), Z.add_assoc, <- Z.mul_add_distr_r, !(Z.add_comm (_ * 4096)), !Z.div_add, (Z.div_small mis) by lia. lia.
      + unfold u64. rewrite wrap_small by (split; lia). reflexivity.
    - intros w Hw Hout. unfold sees. cbn [pageMap with_page_map]. rewrite Hview.
      rewrite (proj2 (list_find_None _ _)); [reflexivity|]. apply Forall_forall. intros i Hi%list_elem_of_In. apply strides_pages in Hi as (j & Hj & ->); [|lia].
      unfold u64. rewrite wrap_small by (split; lia). rewrite same_user_page by lia. subst v. intros E. apply Hout.
      rewrite <- Z.add_assoc, (Z.add_comm mis), Z.add_assoc, <- Z.mul_add_distr_r, (Z.add_comm (_ * 4096)), Z.div_add, (Z.div_small mis) in E by lia.
      pose proof (Z.div_mod w 4096 ltac:(lia)). pose proof (Z.mod_pos_bound w 4096 ltac:(lia)). lia. }
  split; [|exact Hrem]. destruct Hr as [H1 H2 H3 H4 H5 H6 H7]. split; cbn [pageMap with_page_map]; trivial; [eauto|].
  intros w Hw. destruct (decide (v <= w < v + np * 4096)).
  - replace w with (v + (w - v)) by lia. rewrite (m_in _ _ _ _ _ Hrem) by lia. simpl. lia.
  - rewrite (m_out _ _ _ _ _ Hrem) by trivial. now apply H7.
Qed.

Lemma block_remapped st st' v p np u q nq content : remapped st st' v p np -> 0 <= u -> u + nq * 4096 <= 2 ^ 47 ->
  (forall off, 0 <= off < nq * 4096 -> ~ v <= u + off < v + np * 4096) -> block st u q nq content -> block st' u q nq content.
Proof.
  intros Hm Hu Hu2 Hap Hb. destruct Hb as [H1 H2 H3 H4]. unfold used, alloc in *. split; unfold used, alloc; rewrite ?(m_pmm _ _ _ _ _ Hm), ?(m_ram _ _ _ _ _ Hm); trivial.
  intros off Hoff. rewrite (m_out _ _ _ _ _ Hm); [now apply H3|lia|now apply Hap].
Qed.

(** ** One segment *)
Notation load_segment := (load_segment (T:=T) pm gib top).
Variables (img : Image) (base : Z).
Hypothesis base_page : (4096 | base).
Hypothesis base_pos : 0 <= base.
Hypothesis image_small : Z.of_nat (length (m_Image img)) < 2 ^ 63.

Lemma seg_facts h : seg_ok img base h = true -> seg_load h = true ->
  Forall byte h /\ 0 < seg_memsz h /\ 0 <= seg_filesz h <= seg_memsz h /\ 0 <= seg_offset h /\ seg_offset h + seg_filesz h <= Z.of_nat (length (m_Image img))
  /\ 0 <= seg_misalign h < 4096 /\ 0 <= seg_page base h /\ (4096 | seg_page base h) /\ seg_end base h <= 2 ^ 47
  /\ seg_memsz h + seg_misalign h <= seg_pages h * 4096 /\ 0 < seg_pages h.
Proof.
  unfold seg_ok. intros Hok Hl. rewrite Hl in Hok. cbn [negb orb] in Hok. rewrite !andb_true_iff, !Z.leb_le, Z.ltb_lt in Hok.
  destruct Hok as (Hb%bytesb_spec & ((H1 & H2) & H3) & H4). pose proof (get_field_nonneg Program_VirtualAddress h Hb) as Hva.
  assert (Hm : 0 <= seg_misalign h < 4096) by (apply Z.mod_pos_bound; lia).
  pose proof (DivRoundUp_spec (seg_memsz h + seg_misalign h) 4096 ltac:(lia) ltac:(lia)) as Hd. fold (seg_pages h) in Hd.
  destruct base_page as [k Hk]. unfold seg_page, seg_misalign in *. pose proof (Z.div_mod (get_field Program_VirtualAddress h) 4096 ltac:(lia)) as Hdm.
  assert (0 <= get_field Program_VirtualAddress h / 4096) by (apply Z.div_pos; lia).
  split_and!; trivial; try lia; try apply (get_field_nonneg _ _ Hb). exists (get_field Program_VirtualAddress h / 4096 + k). lia.
Qed.

(** A page of another segment. *)
Definition elsewhere (h : list Z) (u nq : Z) : Prop := 0 <= u /\ u + nq * 4096 <= 2 ^ 47 /\ (seg_end base h <= u \/ u + nq * 4096 <= seg_page base h).

Lemma image_bytes_run off n : 0 <= off -> 0 <= n -> off + n <= Z.of_nat (length (m_Image img)) ->
  image_bytes img off n = Some (slice (Z.to_nat off) (Z.to_nat n) (m_Image img)).
Proof. intros H0 H1 H2. unfold image_bytes, u64. rewrite wrap_small by (split; lia). now rewrite (proj2 (Z.leb_le _ _)) by lia. Qed.

(** The copy into a block of frames that held zeros. *)
Lemma block_copied st h p : block st (seg_page base h) p (seg_pages h) (fun _ => 0) -> seg_ok img base h = true -> seg_load h = true ->
  block (with_ram (mem_write (ram st) (p * 4096 + seg_misalign h + hhdm) (slice (Z.to_nat (seg_offset h)) (Z.to_nat (seg_filesz h)) (m_Image img))) st)
    (seg_page base h) p (seg_pages h) (seg_content img h).
Proof.
  intros [H1 H2 H3 H4] Hok Hl. destruct (seg_facts h Hok Hl) as (_ & Hm & Hf & Ho & Hof & Hmis & _ & _ & _ & Hp & _).
  split; trivial. intros off Hoff. cbn [ram with_ram]. rewrite ram_byte_write. unfold slice. rewrite length_take, length_drop.
  unfold seg_content. destruct (decide (_ <= off < _)) as [Hd|Hd], (decide (_ <= p * 4096 + off + hhdm < _)) as [Hd'|Hd']; try lia; [|now apply H4].
  rewrite lookup_take_lt, lookup_drop by lia. replace (Z.to_nat (seg_offset h) + Z.to_nat (p * 4096 + off + hhdm - (p * 4096 + seg_misalign h + hhdm)))%nat with (Z.to_nat (seg_offset h + off - seg_misalign h)) by lia.
  destruct (lookup_lt_is_Some_2 (m_Image img) (Z.to_nat (seg_offset h + off - seg_misalign h)) ltac:(lia)) as [x Hx]. rewrite Hx. symmetry. now apply nth_lookup_Some.
Qed.
Lemma block_other_copy st u q nq c p np a bs : block st u q nq c -> (forall j, q <= j < q + nq -> ~ p <= j < p + np) ->
  p * 4096 + hhdm <= a -> a + Z.of_nat (length bs) <= (p + np) * 4096 + hhdm -> block (with_ram (mem_write (ram st) a bs) st) u q nq c.
Proof.
  intros [H1 H2 H3 H4] Hap Ha Hb. split; trivial. intros off Hoff. cbn [ram with_ram]. rewrite ram_byte_write. destruct (decide _); [|now apply H4].
  specialize (Hap (q + off / 4096)). pose proof (Z.div_mod off 4096 ltac:(lia)). pose proof (Z.mod_pos_bound off 4096 ltac:(lia)).
  assert (0 <= off / 4096 < nq) by (split; [apply Z.div_pos; lia|apply Z.div_lt_upper_bound; lia]). lia.
Qed.

(** A segment is loaded into a block of its own; other blocks and the rest of the user half stay. *)
Lemma load_segment_run n st h : ready ((depth pm - 1) * Z.to_nat (seg_pages h) + n) st -> seg_ok img base h = true -> seg_load h = true ->
  (PMM.AllocatePages (pmm st) (seg_pages h)).1 <> 0 ->
  exists st' p, load_segment img base h st = Ret st' tt /\ ready n st' /\ block st' (seg_page base h) p (seg_pages h) (seg_content img h)
  /\ pmm st' = (PMM.AllocatePages (pmm st) (seg_pages h)).2
  /\ (forall u q nq c, elsewhere h u nq -> block st u q nq c -> block st' u q nq c)
  /\ (forall w, 0 <= w < 2 ^ 47 -> ~ seg_page base h <= w < seg_end base h -> sees st' w = sees st w).
Proof.
  intros Hr Hok Hl Hne. pose proof (seg_facts h Hok Hl) as (Hb & Hm & Hf & Ho & Hof & Hmis & Hpg & Hal & Hend & Hcov & Hnp).
  destruct (CallocatePages_run _ st _ Hr Hnp Hne) as (st1 & p & Hc & Hfr & Hr1 & Hp1).
  pose proof (f_frames _ _ _ _ Hfr) as [Hp Hpe]. pose proof (r_phys _ _ Hr) as Hph.
  destruct (map_range_run n st1 (seg_page base h) (seg_misalign h) p (seg_pages h) Hr1 Hal Hmis Hpg Hnp Hend Hp ltac:(rewrite (f_count _ _ _ _ Hfr); exact Hpe)) as (st2 & Hmr & Hr2 & Hrem).
  unfold ExecutableProgram.load_segment. unfold seg_load in Hl. rewrite Hl.
  replace (get_field Program_VirtualAddress h .& (4096 - 1)) with (seg_misalign h) by (change (4096 - 1) with (Z.ones 12); rewrite Z.land_ones by lia; reflexivity).
  change (get_field Program_SegmentSizeInMemory h) with (seg_memsz h). unfold seg_end in Hend. cbv zeta.
  replace (u64 (seg_memsz h + seg_misalign h)) with (seg_memsz h + seg_misalign h) by (unfold u64; rewrite wrap_small by (split; lia); reflexivity). fold (seg_pages h).
  rewrite (bind_ret _ _ _ _ _ Hc). rewrite assert_ret by (apply negb_true_iff, Z.eqb_neq; lia).
  replace (u64 (get_field Program_VirtualAddress h + base)) with (seg_page base h + seg_misalign h) by (unfold seg_page, u64 in *; rewrite wrap_small by (split; lia); lia).
  replace (u64 (seg_pages h * 4096)) with (seg_pages h * 4096) by (unfold u64; rewrite wrap_small by (split; lia); reflexivity).
  rewrite (bind_ret _ _ _ _ _ Hmr). cbn [Assert]. rewrite mret_ret. unfold insert_region. rewrite update_ret.
  change (get_field Program_Offset h) with (seg_offset h). change (get_field Program_SegmentSizeInFile h) with (seg_filesz h).
  rewrite image_bytes_run by lia. rewrite deref_ret. unfold update. replace (u64 (p * 4096 + seg_misalign h)) with (p * 4096 + seg_misalign h) by (unfold u64; rewrite wrap_small by (split; lia); reflexivity).
  rewrite direct_map_linear by lia.
  set (st3 := with_space _ st2).
  assert (P3 : pmm st3 = pmm st1) by exact (m_pmm _ _ _ _ _ Hrem).
  assert (B3 : block st3 (seg_page base h) p (seg_pages h) (fun _ => 0)).
  { split; unfold used, alloc; rewrite ?P3; fold (alloc st1).
    - rewrite (f_count _ _ _ _ Hfr). now split.
    - intros j Hj. change (GetIndex (m_PageBitmap (alloc st1)) j) with (used st1 j). rewrite (f_used _ _ _ _ Hfr) by lia. now rewrite decide_True.
    - exact (m_in _ _ _ _ _ Hrem).
    - intros off Hoff. change (ram st3) with (ram st2). rewrite (m_ram _ _ _ _ _ Hrem). now apply (f_zero _ _ _ _ Hfr). }
  eexists _, p. split; [reflexivity|]. split; [|split; [|split; [|split]]].
  - destruct Hr2 as [R1 R2 R3 R4 R5 R6 R7]. now split.
  - now apply block_copied.
  - transitivity (pmm st1); [exact P3|exact Hp1].
  - intros u q nq c (Hu & Hu2 & Hap) Hbl.
    apply (block_other_copy st3 u q nq c p (seg_pages h)); [| |lia|unfold slice; rewrite length_take, length_drop; lia].
    + pose proof (block_framed _ _ _ _ _ _ _ _ Hfr Hbl) as Hb1.
      destruct (block_remapped st1 st2 _ _ _ u q nq c Hrem Hu Hu2 ltac:(unfold seg_end in Hap; lia) Hb1) as [X1 X2 X3 X4]. now split.
    + intros j Hj Hj'. pose proof (b_used _ _ _ _ _ Hbl j Hj) as X. rewrite (f_free _ _ _ _ Hfr j Hj') in X. discriminate.
  - intros w Hw Hout. transitivity (sees st2 w); [reflexivity|]. rewrite (m_out _ _ _ _ _ Hrem) by (trivial; unfold seg_end in Hout; lia).
    unfold sees. now rewrite (f_map _ _ _ _ Hfr).
Qed.

Lemma segments_cons h hs : segments_ok img base (h :: hs) = true ->
  seg_ok img base h = true /\ (forall g, g ∈ hs -> seg_apart base h g = true) /\ segments_ok img base hs = true.
Proof.
  cbn [segments_ok]. rewrite !andb_true_iff, forallb_forall. intros ((H1 & H2) & H3). split_and!; trivial. intros g Hg. apply H2, list_elem_of_In, Hg.
Qed.
Definition loaded st (h : list Z) : Prop := seg_load h = true -> exists p, block st (seg_page base h) p (seg_pages h) (seg_content img h).
Definition outside (hs : list (list Z)) (w : Z) : Prop := forall h, h ∈ hs -> seg_load h = true -> ~ seg_page base h <= w < seg_end base h.

Lemma segment_elsewhere g h : seg_ok img base g = true -> seg_ok img base h = true -> seg_load g = true -> seg_load h = true ->
  seg_apart base g h = true -> elsewhere h (seg_page base g) (seg_pages g).
Proof.
  intros Hg Hh Lg Lh Ha. destruct (seg_facts g Hg Lg) as (_ & _ & _ & _ & _ & _ & Hpg & _ & Hend & _). unfold seg_apart in Ha. rewrite Lg, Lh in Ha.
  cbn [negb orb] in Ha. rewrite orb_true_iff, !Z.leb_le in Ha. unfold elsewhere, seg_end in *. lia.
Qed.

Lemma load_segments hs : forall st n done, ready ((depth pm - 1) * segment_pages hs + n) st -> segments_ok img base hs = true ->
  frames_for hs (pmm st) = true -> Forall (fun g => seg_ok img base g = true) done ->
  (forall g h, g ∈ done -> h ∈ hs -> seg_apart base g h = true) -> Forall (loaded st) done ->
  exists st', each (load_segment img base) hs st = Ret st' tt /\ ready n st' /\ Forall (loaded st') (done ++ hs)
  /\ (forall w, 0 <= w < 2 ^ 47 -> outside hs w -> sees st' w = sees st w).
Proof.
  induction hs as [|h hs IH]; intros st n done Hr Hok Hf Hd Hap Hl.
  { exists st. rewrite app_nil_r. cbn [segment_pages foldr] in Hr. rewrite Nat.mul_0_r in Hr. split_and!; trivial. }
  apply segments_cons in Hok as (Hh & Hhs & Hok). cbn [segment_pages foldr frames_for each] in *. fold (segment_pages hs) in Hr.
  assert (Hd' : Forall (fun g => seg_ok img base g = true) (done ++ [h])) by (apply Forall_app; split; trivial; now constructor).
  assert (Hap' : forall g h', g ∈ done ++ [h] -> h' ∈ hs -> seg_apart base g h' = true).
  { intros g h' [Hg| ->%list_elem_of_singleton]%elem_of_app Hh'; [apply Hap; [trivial|now right]|now apply Hhs]. }
  destruct (seg_load h) eqn:El.
  - destruct (PMM.AllocatePages (pmm st) (seg_pages h)) as [phys p'] eqn:Ea. apply andb_true_iff in Hf as [Hne%negb_true_iff%Z.eqb_neq Hf].
    rewrite Nat.mul_add_distr_l, <- Nat.add_assoc in Hr. destruct (load_segment_run _ st h Hr Hh El) as (st1 & p & Hs & Hr1 & Hb & Hp & Hkeep & Hout); [now rewrite Ea|].
    rewrite Ea in Hp. cbn [snd] in Hp. subst p'. rewrite (bind_ret _ _ _ _ _ Hs).
    destruct (IH st1 n (done ++ [h]) Hr1 Hok Hf Hd' Hap') as (st' & HF & Hr' & Hl' & Hout').
    { apply Forall_app. split; [|constructor; [|constructor]; intros _; eauto]. apply Forall_forall. intros g Hg%list_elem_of_In Lg.
      rewrite Forall_forall in Hl, Hd. destruct (Hl g (proj1 (list_elem_of_In _ _) Hg) Lg) as (q & Hq). exists q. apply Hkeep; [|exact Hq].
      apply segment_elsewhere; trivial; [apply Hd, list_elem_of_In, Hg|apply Hap; [exact Hg|left]]. }
    exists st'. split_and!; trivial; [now rewrite <- app_assoc in Hl'|]. intros w Hw Ho. rewrite Hout', Hout; trivial; [apply Ho; [left|exact El]|intros g Hg; apply Ho; now right].
  - assert (Hs : load_segment img base h st = Ret st tt) by (unfold ExecutableProgram.load_segment; unfold seg_load in El; now rewrite El).
    rewrite (bind_ret _ _ _ _ _ Hs). cbn [Nat.add] in Hr. destruct (IH st n (done ++ [h]) Hr Hok Hf Hd' Hap') as (st' & HF & Hr' & Hl' & Hout').
    { apply Forall_app. split; [exact Hl|constructor; [|constructor]]. unfold loaded. now rewrite El. }
    exists st'. split_and!; trivial; [now rewrite <- app_assoc in Hl'|]. intros w Hw Ho. apply Hout'; trivial. intros g Hg. apply Ho. now right.
Qed.
End Loader.

(** The program headers of an image, when its table lies in the buffer. *)
Definition program_headers (img : Image) : option (list (list Z)) :=
  mapM (fun i => let off := ProgramHeader_at img i in
    if off + 56 <=? Z.of_nat (length (m_Image img)) then Some (slice (Z.to_nat off) Program_size (m_Image img)) else None)
    (seqZ 0 (get_field Header_ProgramEntryCount (m_Header img))).

Section Theorem_.
Context {HH : HigherHalf} {H : Type} {TH : TableHeap H} {B : Type} {BM : Bitmap B} {PM : PrismMath}
  {T : Type} {RB : RedBlackTree T Region}.
Variables (pm : PagingMode) (gib : bool) (top hhdm : Z).

Lemma load_headers (st : Machine H B T) img base is_ hs :
  mapM (fun i => let off := ProgramHeader_at img i in
    if off + 56 <=? Z.of_nat (length (m_Image img)) then Some (slice (Z.to_nat off) Program_size (m_Image img)) else None) is_ = Some hs ->
  each (load_header pm gib top img base) is_ st = each (load_segment pm gib top img base) hs st.
Proof.
  revert st hs. induction is_ as [|i is_ IH]; intros st hs Hm; cbn [mapM] in Hm; [now injection Hm as <-|].
  apply bind_Some in Hm as (h & Hh & (hs' & Hm & [= <-])%bind_Some). destruct (Z.leb_spec (ProgramHeader_at img i + 56) (Z.of_nat (length (m_Image img)))) as [Hle|]; [|discriminate].
  injection Hh as <-. cbn [each].
  assert (Hp : on_image (B:=B) (T:=T) (H:=H) (ProgramHeader i) img st = Ret st (img, slice (Z.to_nat (ProgramHeader_at img i)) Program_size (m_Image img))).
  { unfold on_image, ProgramHeader. rewrite get_ret. unfold read_at. rewrite get_ret.
    assert (E : u64 (ProgramHeader_at img i) = ProgramHeader_at img i) by (unfold ProgramHeader_at, u64, wrap; now rewrite Z.mod_mod by lia).
    rewrite E. change (Z.of_nat Program_size) with 56. now rewrite (proj2 (Z.leb_le _ _)) by lia. }
  assert (Hl : load_header pm gib top img base i st = load_segment pm gib top img base (slice (Z.to_nat (ProgramHeader_at img i)) Program_size (m_Image img)) st)
    by (unfold load_header; now rewrite (bind_ret _ _ _ _ _ Hp)).
  unfold mbind, M_bind. rewrite Hl. destruct (load_segment _ _ _ _ _ _ st); trivial. now apply IH.
Qed.

(** C2: A loaded program finds its segments: when the segments of the executable lie on pages of their
    own and frames and page tables can be had, [LoadImage] returns the image, and every address of a
    segment reads, through the page tables, the byte of the file, or zero beyond the bytes of the
    file; the rest of the user half is translated as before. *)
Theorem LoadImage_contents (st : Machine H B T) find fresh path base size bs img0 slack img hs :
  (forall p, 0 <= p < 2 ^ 46 -> ToHigherHalf p = p + hhdm) -> ready pm top ((depth pm - 1) * segment_pages hs) st ->
  find path = Some (Some (size, Some bs)) -> fresh path = (img0, slack) ->
  Load (Some (Some (size, Some bs))) slack base img0 = Ret img (inr tt) -> Z.of_nat (length (m_Image img)) < 2 ^ 63 ->
  program_headers img = Some hs -> (4096 | base) -> 0 <= base -> segments_ok img base hs = true -> frames_for hs (pmm st) = true ->
  exists st', LoadImage pm gib top find fresh path base st = Ret st' (inr img)
  /\ (forall h k, h ∈ hs -> get_field Program_Type h = eLoad -> 0 <= k < seg_memsz h ->
      user_byte pm top st' (get_field Program_VirtualAddress h + base + k) =
        Some (if k <? seg_filesz h then nth (Z.to_nat (seg_offset h + k)) (m_Image img) 0 else 0))
  /\ (forall w, 0 <= w < 2 ^ 47 -> outside base hs w -> sees pm top st' w = sees pm top st w).
Proof.
  intros HH1 Hr Hfind Hfresh HL Hsm Hhs Hba Hb0 Hok Hfr.
  destruct (load_segments pm gib top hhdm HH1 img base Hba Hb0 Hsm hs st 0 [] ltac:(now rewrite Nat.add_0_r) Hok Hfr ltac:(constructor) ltac:(intros ? ? []%elem_of_nil) ltac:(constructor)) as (st' & HE & Hr' & Hl & Ho).
  exists st'. split_and!; [| |exact Ho].
  - unfold LoadImage. rewrite Hfind, Hfresh. rewrite (bind_ret _ _ st st (img, inr tt)) by (unfold on_image; now rewrite HL).
    rewrite (bind_ret _ _ st st' tt); [reflexivity|].
    rewrite (load_headers st img base _ hs Hhs). exact HE.
  - intros h k Hh Ht Hk. assert (Hlo : seg_load h = true) by (unfold seg_load; now rewrite Ht).
    destruct (proj1 (Forall_forall _ _) Hl h (proj1 (list_elem_of_In _ _) Hh) Hlo) as (p & Hb).
    assert (Hsok : seg_ok img base h = true).
    { clear -Hok Hh. revert Hok. induction hs as [|g hs IH]; [now apply elem_of_nil in Hh|]. cbn [segments_ok]. rewrite !andb_true_iff. intros ((H1 & _) & H3).
      apply elem_of_cons in Hh as [->|Hh]; [exact H1|now apply IH]. }
    destruct (seg_facts img base Hba Hb0 h Hsok Hlo) as (_ & _ & Hf & _ & _ & Hm & _ & Hal & _ & Hcov & _).
    replace (get_field Program_VirtualAddress h + base + k) with (seg_page base h + (seg_misalign h + k)) by (unfold seg_page; lia).
    rewrite (block_byte pm top hhdm HH1 _ _ _ _ _ _ _ Hr' Hal Hb) by lia. f_equal. unfold seg_content.
    destruct (Z.ltb_spec k (seg_filesz h)), (decide _); try lia. f_equal. lia.
Qed.
End Theorem_.

(** ** Witness: a program of one segment, across a page boundary *)
Definition put (fs : list (Field * Z)) (bs : list Z) : list Z := fold_left (fun bs '(f, x) => set_field f x bs) fs bs.
Definition program_file : list Z :=
  put [(Header_Magic, le_word MAGIC); (Header_Bitness, e64Bit); (Header_Endianness, eLittle); (Header_HeaderVersion, 1);
       (Header_InstructionSet, eAMDx86_64); (Header_ElfVersion, 1); (Header_EntryPoint, 0x400ff0); (Header_ProgramHeaderTableOffset, 64);
       (Header_ProgramEntrySize, 56); (Header_ProgramEntryCount, 1)] (replicate 64 0)
  ++ put [(Program_Type, eLoad); (Program_Offset, 120); (Program_VirtualAddress, 0x400ff0); (Program_SegmentSizeInFile, 20); (Program_SegmentSizeInMemory, 64)] (replicate 56 0)
  ++ seqZ 1 20.
Definition blank_image : Image := new_Image 0xffff800000300000 [] (mkAux 0 0 0 0).
Definition program_image : Image :=
  match Load (Some (Some (140, Some program_file))) (replicate 100 0) 0 blank_image with Ret img _ => img | _ => blank_image end.
Definition example_machine : Machine BumpHeap (list bool) {l : list (Z * Region) | assoc_sorted l} :=
  mkMachine (boot_memory 8) (PMM.mkPMM true zones_ex booted) ∅ space0.
Definition example_find (path : list Z) : option (option (Z * option (list Z))) := Some (Some (140, Some program_file)).
Definition example_fresh (path : list Z) : Image * list Z := (blank_image, replicate 100 0).

Lemma example_ready : ready eLevel4 boot_top 6 example_machine.
Proof.
  split; cbn [pageMap example_machine].
  - exists boot_levels. apply boot_page_map.
  - reflexivity.
  - exact booted_inv.
  - reflexivity.
  - vm_compute. discriminate.
  - vm_compute. now repeat split.
  - intros v _. change (covered_at 1 (view eLevel4 boot_top (boot_memory 8) v)). now rewrite boot_view.
Qed.

Lemma LoadImage_contents_witness : exists st', LoadImage eLevel4 true boot_top example_find example_fresh [] 0 example_machine = Ret st' (inr program_image)
  /\ user_byte eLevel4 boot_top st' 0x400ff0 = Some 1 /\ user_byte eLevel4 boot_top st' 0x401003 = Some 20 /\ user_byte eLevel4 boot_top st' 0x401004 = Some 0.
Proof.
  destruct (LoadImage_contents eLevel4 true boot_top direct_map example_machine example_find example_fresh [] 0 140 program_file blank_image (replicate 100 0) program_image
    [slice 64 56 program_file]) as (st' & HL & Hb & _).
  - intros p Hp. cbn [ToHigherHalf higher_half_ref]. unfold u64. rewrite wrap_small; [reflexivity|]. unfold direct_map. split; lia.
  - change (ready eLevel4 boot_top 6 example_machine). apply example_ready.
  - reflexivity.
  - reflexivity.
  - vm_compute. reflexivity.
  - vm_compute. reflexivity.
  - vm_compute. reflexivity.
  - now exists 0.
  - lia.
  - vm_compute. reflexivity.
  - vm_compute. reflexivity.
  - exists st'. split; [exact HL|].
    pose proof (Hb (slice 64 56 program_file) 0 ltac:(left) eq_refl ltac:(vm_compute; split; [discriminate|reflexivity])) as H0.
    pose proof (Hb (slice 64 56 program_file) 19 ltac:(left) eq_refl ltac:(vm_compute; split; [discriminate|reflexivity])) as H1.
    pose proof (Hb (slice 64 56 program_file) 20 ltac:(left) eq_refl ltac:(vm_compute; split; [discriminate|reflexivity])) as H2.
    split_and!; [exact H0|exact H1|exact H2].
Defined.

(** ** Departures *)
Definition segment_header (offset vaddr filesz memsz : Z) : list Z :=
  put [(Program_Type, eLoad); (Program_Offset, offset); (Program_VirtualAddress, vaddr); (Program_SegmentSizeInFile, filesz); (Program_SegmentSizeInMemory, memsz)] (replicate 56 0).
Definition raw_image (bs : list Z) : Image := mkImage bs 0xffff800000300000 0 [] (mkAux 0 0 0 0) None None None None ∅ [].
Definition after {A} (o : outcome (Machine BumpHeap (list bool) {l : list (Z * Region) | assoc_sorted l}) A) : option (Machine BumpHeap (list bool) {l : list (Z * Region) | assoc_sorted l}) :=
  match o with Ret st _ => Some st | _ => None end.

(** Two segments that share a page: the frame of the second replaces the first one's in the page
    tables, and the program reads zeros where the first segment was. *)
Theorem shared_page_loses_segment :
  let img := raw_image (replicate 16 7 ++ replicate 16 9) in
  let first := segment_header 0 0x400000 16 16 in
  let second := segment_header 16 0x400100 16 16 in
  let load hs := (fun st => user_byte eLevel4 boot_top st 0x400000) <$> after (each (load_segment eLevel4 true boot_top img 0) hs example_machine) in
  load [first] = Some (Some 7) /\ load [first; second] = Some (Some 0).
Proof. vm_compute. split; reflexivity. Qed.

(** The size of a segment in the file is not compared with its size in memory: a larger one is copied
    over the frames behind the ones allocated for it. *)
Theorem oversized_segment_overflows :
  let img := raw_image (replicate 4100 7) in
  let st := after (load_segment eLevel4 true boot_top img 0 (segment_header 0 0x400000 4100 16) example_machine) in
  (fun st => (used st 1, used st 2, byte_at (ram st) (ToHigherHalf 0x2000))) <$> st = Some (true, false, 7).
Proof. vm_compute. reflexivity. Qed.
