(* ===== verification/Time.v ===== *)
(** * Time

    [Time/Time.cpp] and [API/Time.cpp]: the clocks the timer interrupt advances, and the timers that
    let threads sleep.  A timer holds an event ([Event]); the interrupt lowers the remaining time of
    every armed timer and triggers the events of those that have run out.

    [Timestep] is a type of the Prism library.  It is a number of nanoseconds here; its accessors
    [Seconds] and [Nanoseconds] are parameters, since the kernel uses the second both as the whole
    duration (timers) and as the part below a second (clocks). *)

From Stdlib Require Import ZArith Lia Bool Sorting.Sorted.
From stdpp Require Import base gmap list numbers.
From S2P Require Import Prelude Event Posix Effects.

Definition ENOSYS : Z := 38.

Record Timer := mkTimer { Fired : bool; When : Z; TimerEvent : Event }.
Record timespec := mkTimespec { tv_sec : Z; tv_nsec : Z }.
(** [timespec::operator-=] *)
Definition timespec_sub (a b : timespec) : timespec :=
  let rest sec nsec := if sec <? tv_sec b then mkTimespec 0 0 else mkTimespec (sec - tv_sec b) nsec in
  if tv_nsec a <? tv_nsec b then
    if tv_sec a =? 0 then mkTimespec 0 0 else rest (tv_sec a - 1) (999999999 - (tv_nsec b - tv_nsec a))
  else rest (tv_sec a) (tv_nsec a - tv_nsec b).

Record TimeState := mkTime {
  s_BootTime : Z;
  s_RealTime : Z;
  s_Monotonic : Z;
  (** Armed timers, by the address of the timer. *)
  s_ArmedTimers : list nat;
  s_TimersLock : bool;
  timers : gmap nat Timer;
  next_timer : nat
}.
Definition with_clocks (real mono : Z) (v : TimeState) : TimeState :=
  mkTime (s_BootTime v) real mono (s_ArmedTimers v) (s_TimersLock v) (timers v) (next_timer v).
Definition with_armed (l : list nat) (v : TimeState) : TimeState :=
  mkTime (s_BootTime v) (s_RealTime v) (s_Monotonic v) l (s_TimersLock v) (timers v) (next_timer v).
Definition with_timers (m : gmap nat Timer) (v : TimeState) : TimeState :=
  mkTime (s_BootTime v) (s_RealTime v) (s_Monotonic v) (s_ArmedTimers v) (s_TimersLock v) m (next_timer v).
Notation TimeM := (M TimeState).

Section Time.
Variables Seconds Nanoseconds : Z -> Z.

(** ** Timers *)
Definition Arm (t : nat) : TimeM unit := update (fun v => with_armed (s_ArmedTimers v ++ [t]) v).
(** The first occurrence is erased. *)
Fixpoint erase_first (t : nat) (l : list nat) : list nat :=
  match l with [] => [] | u :: l => if (u =? t)%nat then l else u :: erase_first t l end.
Definition Disarm (t : nat) : TimeM unit := update (fun v => with_armed (erase_first t (s_ArmedTimers v)) v).

(** [new Timer(when)] arms the timer. *)
Definition new_Timer (when : Z) : TimeM nat :=
  v ← get;
  let t := next_timer v in
  _ ← update (fun v => mkTime (s_BootTime v) (s_RealTime v) (s_Monotonic v) (s_ArmedTimers v) (s_TimersLock v)
                         (<[t := mkTimer false when (mkEvent 0 [])]> (timers v)) (S t));
  _ ← Arm t;
  mret t.
Definition delete_Timer (t : nat) : TimeM unit := update (fun v => with_timers (delete t (timers v)) v).

(** A timer when [ns] have passed, and the listeners its event wakes. *)
Definition tick_timer (ns : Z) (timer : Timer) : Timer * list EventListener :=
  if Fired timer then (timer, []) else
  let when := if Nanoseconds (When timer) <=? ns then 0 else When timer - ns in
  if when =? 0 then
    let '(e, woken, _) := Trigger (TimerEvent timer) false true in (mkTimer true when e, woken)
  else (mkTimer false when (TimerEvent timer), []).
Fixpoint tick_timers (ns : Z) (l : list nat) : TimeM (list EventListener) :=
  match l with
  | [] => mret []
  | t :: l =>
      v ← get;
      timer ← deref (timers v !! t);
      let '(timer, woken) := tick_timer ns timer in
      _ ← update (fun v => with_timers (<[t := timer]> (timers v)) v);
      rest ← tick_timers ns l;
      mret (woken ++ rest)
  end.

(** [Tick]: [clock] is the high resolution clock of the processor, if it has one, with its answer.
    The threads to wake are returned. *)
Definition Tick (clock : option (option Z)) (ns : Z) : TimeM (list EventListener) :=
  v ← get;
  ns ← (match clock with
        | Some (Some now) => _ ← update (with_clocks now (s_Monotonic v)); mret (u64 (now - s_RealTime v))
        | Some None => mret ns
        | None => _ ← update (with_clocks (u64 (s_RealTime v + ns)) (u64 (s_Monotonic v + ns))); mret ns
        end);
  if s_TimersLock v then mret [] else tick_timers ns (s_ArmedTimers v).

(** ** Sleeping *)

(** The duration a timespec asks for. *)
Definition sleep_ns (duration : timespec) : Z :=
  let ns := u64 (tv_sec duration * 1000000000) in if ns =? 0 then u64 (tv_nsec duration) else ns.

(** [Sleep] up to the point where the thread waits. *)
Definition Sleep_start (thread : nat) (duration : timespec) : TimeM (nat * Awaited) :=
  t ← new_Timer (sleep_ns duration);
  v ← get;
  timer ← deref (timers v !! t);
  let '(e, r) := await_one (TimerEvent timer) thread true true in
  _ ← update (with_timers (<[t := mkTimer (Fired timer) (When timer) e]> (timers v)));
  mret (t, r).
(** What follows: the thread runs again in [Await] (or did not wait there), and [which] is what
    [Await] returns. *)
Definition Sleep_finish (thread t : nat) (which : option nat) : TimeM ((Z + unit) * option timespec) :=
  v ← get;
  timer ← deref (timers v !! t);
  _ ← update (with_timers (<[t := mkTimer (Fired timer) (When timer) (default (TimerEvent timer) (head (Await_resume [TimerEvent timer] thread)))]> (timers v)));
  match which with
  | None => _ ← Disarm t; mret (inl EINTR, Some (mkTimespec (Seconds (When timer)) (Nanoseconds (When timer))))
  | Some _ => _ ← Disarm t; _ ← delete_Timer t; mret (inr tt, None)
  end.

(** ** Clocks *)
Definition Initialize (bootEpoch now : Z) : TimeM unit :=
  update (fun v => mkTime (u64 (bootEpoch * 1000000000)) (u64 (now * 1000000000)) (u64 (now * 1000000000)) (s_ArmedTimers v) (s_TimersLock v) (timers v) (next_timer v)).
Definition GetReal (v : TimeState) : timespec := mkTimespec (Seconds (s_RealTime v)) (Nanoseconds (s_RealTime v)).
Definition GetMonotonic (v : TimeState) : timespec := mkTimespec (Seconds (s_Monotonic v)) (Nanoseconds (s_Monotonic v)).
Definition GetTimeSinceBoot (v : TimeState) : Z := u64 (s_RealTime v - s_BootTime v).

(** [API/Posix/time.h] *)
Definition CLOCK_REALTIME : Z := 0.
Definition CLOCK_MONOTONIC : Z := 1.
Definition CLOCK_PROCESS_CPUTIME_ID : Z := 2.
Definition CLOCK_THREAD_CPUTIME_ID : Z := 3.
Definition CLOCK_MONOTONIC_RAW : Z := 4.
Definition CLOCK_REALTIME_COARSE : Z := 5.
Definition CLOCK_MONOTONIC_COARSE : Z := 6.
Definition CLOCK_BOOTTIME : Z := 7.
(** [writable]: the caller may write the result. *)
Definition ClockGetTime (clockID : Z) (writable : bool) (v : TimeState) : Z + timespec :=
  let answer ts := if writable then inr ts else inl EFAULT in
  if (clockID =? CLOCK_REALTIME) || (clockID =? CLOCK_REALTIME_COARSE) then answer (GetReal v)
  else if (clockID =? CLOCK_MONOTONIC) || (clockID =? CLOCK_MONOTONIC_RAW) || (clockID =? CLOCK_MONOTONIC_COARSE) || (clockID =? CLOCK_BOOTTIME)
  then answer (GetMonotonic v)
  else if (clockID =? CLOCK_PROCESS_CPUTIME_ID) || (clockID =? CLOCK_THREAD_CPUTIME_ID) then answer (mkTimespec 0 0)
  else inl ENOSYS.
End Time.

(** * Time: theorems

    A sleeping thread wakes at the tick that completes its time, once; what the clocks do. *)

(** Armed timers exist, each is armed once. *)
Record timers_ok (v : TimeState) : Prop := {
  armed_once : NoDup (s_ArmedTimers v);
  armed_live t : t ∈ s_ArmedTimers v -> is_Some (timers v !! t);
  timers_old t : is_Some (timers v !! t) -> (t < next_timer v)%nat
}.

Section Ticks.
Variable Nanoseconds : Z -> Z.
(** A duration in nanoseconds. *)
Hypothesis Nanoseconds_whole : forall x, Nanoseconds x = x.
Notation tick_timer := (tick_timer Nanoseconds).
Notation tick_timers := (tick_timers Nanoseconds).
Notation Tick := (Tick Nanoseconds).

(** All armed timers of the list advance. *)
Lemma tick_timers_run ns l : forall v, NoDup l -> (forall t, t ∈ l -> is_Some (timers v !! t)) ->
  exists v', tick_timers ns l v = Ret v' (l ≫= fun t => match timers v !! t with Some x => (tick_timer ns x).2 | None => [] end)
  /\ (forall t, timers v' !! t = if decide (t ∈ l) then fst ∘ tick_timer ns <$> timers v !! t else timers v !! t)
  /\ s_ArmedTimers v' = s_ArmedTimers v /\ s_TimersLock v' = s_TimersLock v /\ next_timer v' = next_timer v
  /\ s_RealTime v' = s_RealTime v /\ s_Monotonic v' = s_Monotonic v.
Proof.
  induction l as [|t l IH]; intros v Hnd Hl.
  { exists v. split; [reflexivity|]. now split_and!. }
  apply list.NoDup_cons in Hnd as [Ht Hnd]. destruct (Hl t ltac:(left)) as [x Hx].
  cbn [Time.tick_timers]. rewrite get_ret, Hx, deref_ret. destruct (tick_timer ns x) as [x' woken] eqn:Ex. rewrite update_ret.
  destruct (IH (with_timers (<[t := x']> (timers v)) v) Hnd) as (v' & HE & Hm & H1 & H2 & H3 & H4 & H5).
  { intros u Hu. cbn [timers with_timers]. destruct (decide (u = t)) as [->|Hne]; [rewrite lookup_insert_eq; eauto|]. rewrite lookup_insert_ne by congruence. apply Hl. now right. }
  exists v'. split_and!; trivial.
  - rewrite (bind_ret _ _ _ _ _ HE). unfold mret, M_ret. cbn [timers with_timers] in *. f_equal. change ((t :: l) ≫= ?f) with (f t ++ (l ≫= f)). cbv beta. rewrite Hx, Ex. f_equal.
    apply Forall_bind_ext, Forall_forall. intros u Hu%list_elem_of_In. rewrite lookup_insert_ne by (intros ->; contradiction). reflexivity.
  - intros u. rewrite Hm. cbn [timers with_timers]. destruct (decide (u ∈ l)) as [Hu|Hu].
    + rewrite decide_True by (now right). rewrite lookup_insert_ne by (intros ->; contradiction). reflexivity.
    + destruct (decide (u = t)) as [->|Hne].
      * rewrite decide_True by left. rewrite lookup_insert_eq, Hx. cbn [fmap option_fmap option_map compose]. now rewrite Ex.
      * rewrite decide_False by (intros [|]%elem_of_cons; contradiction). now rewrite lookup_insert_ne by congruence.
Qed.

(** The real-time clock after a tick and the time the tick counts: what the high resolution clock
    says has passed, or the period of the timer where there is none or it does not answer. *)
Definition tick_time (real : Z) (c : option (option Z) * Z) : Z * Z :=
  match c with
  | (Some (Some now), _) => (now, u64 (now - real))
  | (Some None, ns) => (real, ns)
  | (None, ns) => (u64 (real + ns), ns)
  end.
(** The time a sequence of ticks counts. *)
Fixpoint counted (real : Z) (cs : list (option (option Z) * Z)) : Z :=
  match cs with [] => 0 | c :: cs => (tick_time real c).2 + counted (tick_time real c).1 cs end.
Lemma counted_nonneg real cs : Forall (fun c => 0 <= c.2) cs -> 0 <= counted real cs.
Proof.
  intros H. revert real. induction H as [|[clock ns] cs Hc _ IH]; intros real; [reflexivity|]. cbn [counted]. specialize (IH (tick_time real (clock, ns)).1). cbn in Hc.
  destruct clock as [[now|]|]; cbn in *; try lia. unfold u64, wrap. pose proof (Z.mod_pos_bound (now - real) (2 ^ 64)). lia.
Qed.
(** With a clock that does not go back, the time between its readings. *)
Lemma counted_clock real nows ns : Sorted Z.le (real :: nows) -> 0 <= real -> Forall (fun now => now < 2 ^ 64) nows ->
  counted real ((fun now => (Some (Some now), ns)) <$> nows) = List.last nows real - real.
Proof.
  intros Hs Hr Hf. revert real Hs Hr. induction Hf as [|now nows Hn _ IH]; intros real Hs Hr; [cbn; lia|]. apply Sorted_inv in Hs as [Hs Hh]. apply HdRel_inv in Hh.
  cbn [fmap list_fmap counted tick_time fst snd]. rewrite IH by (trivial; lia). unfold u64. rewrite wrap_small by (split; lia).
  replace (List.last (now :: nows) real) with (List.last nows now); [lia|]. clear. revert now real. induction nows as [|x nows IH]; intros now real; [reflexivity|]. cbn [List.last] in *. destruct nows; [reflexivity|apply IH].
Qed.

Lemma Tick_run c v : timers_ok v -> s_TimersLock v = false ->
  let n := (tick_time (s_RealTime v) c).2 in
  exists v', Tick c.1 c.2 v = Ret v' (s_ArmedTimers v ≫= fun t => match timers v !! t with Some x => (tick_timer n x).2 | None => [] end)
  /\ (forall t, timers v' !! t = if decide (t ∈ s_ArmedTimers v) then fst ∘ tick_timer n <$> timers v !! t else timers v !! t)
  /\ s_ArmedTimers v' = s_ArmedTimers v /\ s_TimersLock v' = false /\ timers_ok v' /\ s_RealTime v' = (tick_time (s_RealTime v) c).1.
Proof.
  intros [H1 H2 H3] Hlock n.
  assert (Hrun : exists v0, Tick c.1 c.2 v = tick_timers n (s_ArmedTimers v) v0 /\ timers v0 = timers v /\ s_ArmedTimers v0 = s_ArmedTimers v /\ s_TimersLock v0 = false /\ next_timer v0 = next_timer v
    /\ s_RealTime v0 = (tick_time (s_RealTime v) c).1).
  { unfold Time.Tick. rewrite get_ret, Hlock. destruct c as [[[now|]|] ns]; cbn [fst snd tick_time] in *; rewrite ?bind_assoc, ?update_ret, mret_ret; eexists; (split; [reflexivity|]); now split_and!. }
  destruct Hrun as (v0 & -> & Et & Ea & El & En & Er). rewrite <- Et, <- Ea in *. destruct (tick_timers_run n (s_ArmedTimers v0) v0 H1 H2) as (v' & HE & Hm & Ha & Hl & Hn & Hreal & _).
  exists v'. split_and!; [exact HE|exact Hm|exact Ha|now rewrite Hl| |congruence].
  assert (Hsome : forall t, is_Some (timers v' !! t) <-> is_Some (timers v0 !! t)).
  { intros t. rewrite Hm. destruct (decide _); [|reflexivity]. rewrite fmap_is_Some. reflexivity. }
  split; [now rewrite Ha|intros t; rewrite Ha, Hsome; apply H2|]. intros t Ht%Hsome. rewrite Hn, En. now apply H3.
Qed.

Fixpoint ticks (cs : list (option (option Z) * Z)) : TimeM (list EventListener) :=
  match cs with [] => mret [] | c :: cs => w ← Tick c.1 c.2; rest ← ticks cs; mret (w ++ rest) end.

(** The thread listens to no other timer than [t]. *)
Definition only_at (th t : nat) (v : TimeState) : Prop :=
  forall u x l, u <> t -> timers v !! u = Some x -> l ∈ Listeners (TimerEvent x) -> Thread l <> th.
Lemma tick_timer_listeners n x l : l ∈ Listeners (TimerEvent (tick_timer n x).1) \/ l ∈ (tick_timer n x).2 -> l ∈ Listeners (TimerEvent x).
Proof.
  unfold Time.tick_timer. destruct (Fired x); [intros [|[]%elem_of_nil]; trivial|]. destruct (_ =? 0); [|intros [|[]%elem_of_nil]; trivial].
  unfold Trigger. destruct (Listeners (TimerEvent x)) as [|l' ls] eqn:E; cbn; intros [Hl|Hl]; trivial; now apply elem_of_nil in Hl.
Qed.

(** A waiting timer, [d] before its end. *)
Definition waiting (th t : nat) (d : Z) (v : TimeState) : Prop :=
  timers_ok v /\ s_TimersLock v = false /\ t ∈ s_ArmedTimers v /\ only_at th t v
  /\ timers v !! t = Some (mkTimer false d (mkEvent 0 [mkListener th 0])).

Lemma only_at_Tick n th t v v' : only_at th t v ->
  (forall u, timers v' !! u = if decide (u ∈ s_ArmedTimers v) then fst ∘ tick_timer n <$> timers v !! u else timers v !! u) -> only_at th t v'.
Proof.
  intros Ho Hm u x l Hu Hx Hl. rewrite Hm in Hx. destruct (decide _); [|now apply (Ho u x l)].
  apply fmap_Some in Hx as (y & Hy & ->). apply (Ho u y l); trivial. apply (tick_timer_listeners n). now left.
Qed.
Lemma woken_elsewhere n th t v l : only_at th t v ->
  (forall x, timers v !! t = Some x -> (tick_timer n x).2 = []) ->
  l ∈ (s_ArmedTimers v ≫= fun t => match timers v !! t with Some x => (tick_timer n x).2 | None => [] end) -> Thread l <> th.
Proof.
  intros Ho Ht (u & Hl & Hu)%list_elem_of_bind. destruct (timers v !! u) as [x|] eqn:Ex; [|now apply elem_of_nil in Hl].
  destruct (decide (u = t)) as [->|Hne]; [rewrite (Ht x Ex) in Hl; now apply elem_of_nil in Hl|].
  apply (Ho u x l Hne Ex), (tick_timer_listeners n). now right.
Qed.

(** Ticks that do not complete the time do not wake the thread. *)
Lemma ticks_waiting th t cs : forall d v, waiting th t d v -> Forall (fun c => 0 <= c.2) cs -> counted (s_RealTime v) cs < d ->
  exists v' w, ticks cs v = Ret v' w /\ waiting th t (d - counted (s_RealTime v) cs) v' /\ (forall c, counted (s_RealTime v) (cs ++ [c]) = counted (s_RealTime v) cs + (tick_time (s_RealTime v') c).2)
  /\ (forall l, l ∈ w -> Thread l <> th).
Proof.
  induction cs as [|c cs IH]; intros d v Hw Hn Hs.
  { exists v, []. cbn. rewrite Z.sub_0_r. split_and!; trivial; [intros c; lia|]. intros l []%elem_of_nil. }
  apply list.Forall_cons in Hn as [Hn0 Hns]. cbn [counted] in Hs. set (n := (tick_time (s_RealTime v) c).2) in *. pose proof (counted_nonneg (tick_time (s_RealTime v) c).1 cs Hns) as Hpos.
  destruct Hw as (Hok & Hlock & Ht & Ho & Hx). destruct (Tick_run c v Hok Hlock) as (v1 & HT & Hm & Ha & Hl1 & Hok1 & Hr1). fold n in HT, Hm.
  assert (Hstep : tick_timer n (mkTimer false d (mkEvent 0 [mkListener th 0])) = (mkTimer false (d - n) (mkEvent 0 [mkListener th 0]), [])).
  { unfold Time.tick_timer. cbn [Fired When TimerEvent]. rewrite Nanoseconds_whole. destruct (Z.leb_spec d n); [lia|]. destruct (Z.eqb_spec (d - n) 0); [lia|reflexivity]. }
  destruct (IH (d - n) v1) as (v' & w & HE & Hw' & Hc' & Hw2); [|trivial|rewrite Hr1; lia|].
  { split_and!; trivial; [now rewrite Ha|now apply (only_at_Tick n th t v)|]. rewrite Hm, decide_True, Hx by trivial. cbn [fmap option_fmap option_map compose]. now rewrite Hstep. }
  rewrite Hr1 in Hw', Hc'. eexists v', _. cbn [ticks]. rewrite (bind_ret _ _ _ _ _ HT), (bind_ret _ _ _ _ _ HE). split; [reflexivity|]. cbn [app counted]. fold n.
  split; [now replace (d - (n + counted (tick_time (s_RealTime v) c).1 cs)) with (d - n - counted (tick_time (s_RealTime v) c).1 cs) by lia|]. split; [intros c'; rewrite Hc'; lia|].
  intros l [Hl|Hl]%elem_of_app; [|now apply Hw2]. apply (woken_elsewhere n th t v l Ho); [|exact Hl]. intros x Hx'. rewrite Hx in Hx'. injection Hx' as <-. now rewrite Hstep.
Qed.
(** The tick that does wakes it. *)
Lemma Tick_wakes th t d c v : waiting th t d v -> d <= (tick_time (s_RealTime v) c).2 ->
  exists v' w, Tick c.1 c.2 v = Ret v' w /\ mkListener th 0 ∈ w /\ timers v' !! t = Some (mkTimer true 0 (mkEvent 0 [])) /\ s_ArmedTimers v' = s_ArmedTimers v /\ timers_ok v'.
Proof.
  intros (Hok & Hlock & Ht & Ho & Hx) Hd. destruct (Tick_run c v Hok Hlock) as (v1 & HT & Hm & Ha & Hl1 & Hok1 & _). set (n := (tick_time (s_RealTime v) c).2) in *.
  assert (Hstep : tick_timer n (mkTimer false d (mkEvent 0 [mkListener th 0])) = (mkTimer true 0 (mkEvent 0 []), [mkListener th 0])).
  { unfold Time.tick_timer. cbn [Fired When TimerEvent]. rewrite Nanoseconds_whole. destruct (Z.leb_spec d n); [reflexivity|lia]. }
  eexists v1, _. split; [exact HT|]. split_and!; trivial.
  - apply list_elem_of_bind. exists t. rewrite Hx, Hstep. split; [left|exact Ht].
  - rewrite Hm, decide_True, Hx by trivial. cbn [fmap option_fmap option_map compose]. now rewrite Hstep.
Qed.
End Ticks.

Lemma erase_first_absent t l : NoDup l -> t ∉ erase_first t l.
Proof.
  induction l as [|u l IH]; intros Hnd; [apply not_elem_of_nil|]. apply list.NoDup_cons in Hnd as [Hu Hnd]. cbn [erase_first].
  destruct (Nat.eqb_spec u t) as [->|Hne]; [exact Hu|]. intros [->|Hin]%elem_of_cons; [contradiction|now apply IH].
Qed.

Section Sleep.
Variables Seconds Nanoseconds : Z -> Z.

Lemma Sleep_start_run th d v : timers_ok v -> s_TimersLock v = false -> (forall u x l, timers v !! u = Some x -> l ∈ Listeners (TimerEvent x) -> Thread l <> th) ->
  exists v', Sleep_start th d v = Ret v' (next_timer v, Blocked true) /\ waiting th (next_timer v) (sleep_ns d) v' /\ s_RealTime v' = s_RealTime v.
Proof.
  intros [H1 H2 H3] Hlock Hfree. set (t := next_timer v).
  assert (Hnew : timers v !! t = None) by (destruct (timers v !! t) as [x|] eqn:E; [|reflexivity]; pose proof (H3 t ltac:(eauto)); unfold t in *; lia).
  unfold Sleep_start, new_Timer, Arm. rewrite !bind_assoc, get_ret, !bind_assoc, update_ret, !bind_assoc, update_ret, mret_ret, get_ret.
  cbn [timers with_armed]. fold t. rewrite lookup_insert_eq, deref_ret. cbn [TimerEvent await_one Await CheckPending Pending Listeners Z.ltb Z.compare AttachListeners imap app Fired When].
  rewrite update_ret. eexists. split; [reflexivity|]. cbn [with_timers timers with_armed s_ArmedTimers s_BootTime s_RealTime s_Monotonic s_TimersLock next_timer].
  rewrite insert_insert_eq. split; [|reflexivity]. split_and!; cbn [timers s_ArmedTimers s_TimersLock next_timer with_timers with_armed]; trivial.
  - split; cbn [timers s_ArmedTimers next_timer with_timers with_armed].
    + apply list.NoDup_app. split_and!; trivial; [|apply NoDup_singleton]. intros u Hu ->%list_elem_of_singleton. destruct (H2 t Hu) as [x Hx]. congruence.
    + intros u [Hu| ->%list_elem_of_singleton]%elem_of_app; [|rewrite lookup_insert_eq; eauto]. destruct (decide (u = t)) as [->|Hne]; [rewrite lookup_insert_eq; eauto|]. rewrite lookup_insert_ne by congruence. now apply H2.
    + intros u Hu. destruct (decide (u = t)) as [->|Hne]; [lia|]. rewrite lookup_insert_ne in Hu by congruence. apply H3 in Hu. unfold t. lia.
  - set_solver.
  - intros u x l Hu Hx Hl. cbn [timers with_timers] in Hx. rewrite lookup_insert_ne in Hx by congruence. now apply (Hfree u x).
  - apply lookup_insert_eq.
Qed.
End Sleep.

(** ** Theorems *)

(** The time a request is counted as: its seconds, or its nanoseconds when it has no seconds; a
    fraction of a second beside whole seconds is dropped ([sleep_drops_fraction]). *)
Lemma sleep_ns_time d : 0 <= tv_sec d < 2 ^ 33 -> 0 <= tv_nsec d < 1000000000 -> sleep_ns d = if decide (tv_sec d = 0) then tv_nsec d else tv_sec d * 1000000000.
Proof.
  intros Hs Hn. unfold sleep_ns, u64. rewrite wrap_small by (split; lia). destruct (decide (tv_sec d = 0)) as [->|Hne]; [cbn [Z.mul Z.eqb]; apply wrap_small; split; lia|].
  destruct (Z.eqb_spec (tv_sec d * 1000000000) 0); [lia|reflexivity].
Qed.

(** C19: With the lock of the timers free, a thread that sleeps wakes at the tick that
    completes the time, and not before: the ticks before that leave it waiting and wake only other
    threads, this one wakes it, and the call then returns success with its timer gone.  The ticks
    count the time of the high resolution clock where it answers and the period of the timer
    otherwise; the time is the seconds asked for, or the nanoseconds when no second is (a fraction
    beside whole seconds is dropped). *)
Theorem sleep_wakes Seconds Nanoseconds th d cs c v : (forall x, Nanoseconds x = x) -> 0 <= tv_sec d < 2 ^ 33 -> 0 <= tv_nsec d < 1000000000 ->
  timers_ok v -> s_TimersLock v = false -> (forall u x l, timers v !! u = Some x -> l ∈ Listeners (TimerEvent x) -> Thread l <> th) ->
  Forall (fun c => 0 <= c.2) cs ->
  counted (s_RealTime v) cs < (if decide (tv_sec d = 0) then tv_nsec d else tv_sec d * 1000000000) <= counted (s_RealTime v) (cs ++ [c]) ->
  exists t v1 v2 w v3 w3 v4, Sleep_start th d v = Ret v1 (t, Blocked true)
  /\ ticks Nanoseconds cs v1 = Ret v2 w /\ (forall l, l ∈ w -> Thread l <> th)
  /\ Tick Nanoseconds c.1 c.2 v2 = Ret v3 w3 /\ mkListener th 0 ∈ w3
  /\ Sleep_finish Seconds Nanoseconds th t (Some 0%nat) v3 = Ret v4 (inr tt, None) /\ timers v4 !! t = None /\ t ∉ s_ArmedTimers v4.
Proof.
  intros HN Hsec Hnsec Hok Hlock Hfree Hcs [Hs1 Hs2]. rewrite <- sleep_ns_time in Hs1, Hs2 by trivial. destruct (Sleep_start_run th d v Hok Hlock Hfree) as (v1 & HS & Hw1 & Hr1). rewrite <- Hr1 in Hs1, Hs2.
  destruct (ticks_waiting Nanoseconds HN th (next_timer v) cs _ v1 Hw1 Hcs Hs1) as (v2 & w & HT & Hw2 & Hc & Hno). rewrite Hc in Hs2.
  destruct (Tick_wakes Nanoseconds HN th (next_timer v) _ c v2 Hw2 ltac:(lia)) as (v3 & w3 & HT3 & Hin & Hx & Ha & Hok3).
  eexists (next_timer v), v1, v2, w, v3, w3, _. split_and!; trivial.
  - unfold Sleep_finish. rewrite get_ret, Hx, deref_ret, update_ret. unfold Disarm, delete_Timer. rewrite !update_ret. reflexivity.
  - cbn [timers with_timers with_armed]. apply lookup_delete_eq.
  - cbn [s_ArmedTimers with_timers with_armed timers]. apply erase_first_absent, (armed_once _ Hok3).
Qed.

(** The monotonic clock is not advanced on a processor with a high resolution clock, whose time only
    goes to the real-time clock. *)
Theorem monotonic_stands_still Nanoseconds now ns v : timers_ok v -> exists v' w, Tick Nanoseconds (Some now) ns v = Ret v' w /\ s_Monotonic v' = s_Monotonic v.
Proof.
  intros [H1 H2 H3]. assert (Hrun : forall v0 n, timers v0 = timers v -> s_ArmedTimers v0 = s_ArmedTimers v -> exists v' w, (if s_TimersLock v then mret [] else tick_timers Nanoseconds n (s_ArmedTimers v)) v0 = Ret v' w /\ s_Monotonic v' = s_Monotonic v0).
  { intros v0 n E1 E2. destruct (s_TimersLock v); [eexists _, _; split; reflexivity|].
    destruct (tick_timers_run Nanoseconds n (s_ArmedTimers v) v0 H1 ltac:(rewrite E1; exact H2)) as (v' & HE & _ & _ & _ & _ & _ & Hmono). eauto. }
  unfold Tick. rewrite get_ret. destruct now as [now|]; [|rewrite mret_ret; exact (Hrun v ns eq_refl eq_refl)].
  rewrite bind_assoc, update_ret, mret_ret. exact (Hrun (with_clocks now (s_Monotonic v) v) _ eq_refl eq_refl).
Qed.

(** Part of a second is ignored when whole seconds are asked for. *)
Theorem sleep_drops_fraction sec nsec : 0 < sec < 2 ^ 32 -> sleep_ns (mkTimespec sec nsec) = sec * 1000000000.
Proof.
  intros H. unfold sleep_ns. cbn [tv_sec]. unfold u64. rewrite wrap_small by (split; lia). destruct (Z.eqb_spec (sec * 1000000000) 0); [lia|reflexivity].
Qed.

(** The two uses of [Timestep::Nanoseconds] exclude each other: if it is the whole duration, the
    real-time clock reports more than a second of nanoseconds; if it is the part below a second, a
    timer of a second and a bit is over after the bit. *)
Theorem Nanoseconds_used_two_ways Seconds Nanoseconds :
  (Nanoseconds 1000000001 = 1000000001 -> tv_nsec (GetReal Seconds Nanoseconds (mkTime 0 1000000001 0 [] false ∅ 0)) = 1000000001) /\
  (Nanoseconds 1000000001 = 1 -> Fired (tick_timer Nanoseconds 1 (mkTimer false 1000000001 (mkEvent 0 []))).1 = true).
Proof. split; intros H; cbn; [exact H|]. unfold tick_timer. cbn [Fired When]. now rewrite H. Qed.

(** A borrow in [timespec::operator-=] loses a nanosecond. *)
Theorem timespec_sub_off_by_one a b : 0 < tv_sec a -> tv_nsec a < tv_nsec b -> tv_sec b < tv_sec a ->
  let c := timespec_sub a b in tv_sec c * 1000000000 + tv_nsec c = (tv_sec a * 1000000000 + tv_nsec a) - (tv_sec b * 1000000000 + tv_nsec b) - 1.
Proof.
  intros H1 H2 H3. unfold timespec_sub. destruct (Z.ltb_spec (tv_nsec a) (tv_nsec b)); [|lia]. destruct (Z.eqb_spec (tv_sec a) 0); [lia|].
  destruct (Z.ltb_spec (tv_sec a - 1) (tv_sec b)); [lia|]. cbn. lia.
Qed.

(** ** Witnesses *)
Definition sleepers : TimeState :=
  mkTime 0 0 0 [4%nat] false {[4%nat := mkTimer false 25 (mkEvent 0 [mkListener 8 0])]} 5.
Lemma sleepers_ok : timers_ok sleepers.
Proof.
  split; cbn [sleepers s_ArmedTimers timers next_timer].
  - apply NoDup_singleton.
  - intros t ->%list_elem_of_singleton. rewrite lookup_singleton_eq. eauto.
  - intros t Ht%lookup_singleton_is_Some. lia.
Qed.
(** One tick without a clock, two readings of one. *)
Lemma sleep_wakes_witness : exists v1 v2 w v3 w3, Sleep_start 7 (mkTimespec 0 30) sleepers = Ret v1 (5%nat, Blocked true)
  /\ ticks id [(None, 10); (Some (Some 22), 10)] v1 = Ret v2 w /\ Tick id (Some (Some 31)) 10 v2 = Ret v3 w3 /\ mkListener 7 0 ∈ w3.
Proof.
  destruct (sleep_wakes (fun _ => 0) id 7 (mkTimespec 0 30) [(None, 10); (Some (Some 22), 10)] (Some (Some 31), 10) sleepers ltac:(reflexivity) ltac:(cbn; lia) ltac:(cbn; lia) sleepers_ok eq_refl) as (t & v1 & v2 & w & v3 & w3 & v4 & H1 & H2 & _ & H3 & H4 & _).
  - intros u x l Hx Hl. cbn [timers sleepers] in Hx. apply lookup_singleton_Some in Hx as [_ <-]. apply list_elem_of_singleton in Hl as ->. discriminate.
  - repeat constructor; cbn; lia.
  - vm_compute. split; [reflexivity|discriminate].
  - assert (t = 5%nat) as -> by (pose proof H1 as E; vm_compute in E; congruence). exists v1, v2, w, v3, w3. split_and!; trivial.
Defined.
