(* ===== verification/Devices.v ===== *)
(** * Devices

    [Drivers/Core/Device.hpp], [Drivers/Core/Device.cpp] and [Drivers/Core/DeviceManager.cpp]: device
    numbers, the allocation of major numbers, and the registry of devices, which makes a node under
    [/dev] for a device that registers once the file system is there. *)

From Stdlib Require Import ZArith Lia Bool.
From stdpp Require Import base gmap list numbers strings.
From S2P Require Import Prelude Prism Posix SynthFs Effects VFS.

(** ** Device numbers *)
Definition MakeDevice (major minor : Z) : Z :=
  let dev := u64 ((major .& 0x00000fff) .<< 8) in
  let dev := dev .| u64 ((major .& 0xfffff000) .<< 32) in
  let dev := dev .| u64 (minor .& 0x000000ff) in
  dev .| u64 ((minor .& 0xffffff00) .<< 12).
Definition GetDeviceMajor (dev : Z) : Z :=
  let major := u32 ((dev .& 0x00000000000fff00) .>> 8) in
  u32 (major .| ((dev .& 0xfffff00000000000) .>> 32)).
Definition GetDeviceMinor (dev : Z) : Z :=
  let minor := u32 (dev .& 0x00000000000000ff) in
  u32 (minor .| ((dev .& 0x00000ffffff00000) .>> 12)).

(** ** Major numbers *)
Section Majors.
Context {B : Type} {BM : Bitmap B}.
Record Majors := mkMajors { s_LeastMajor : option Z; s_AllocatedMajors : B }.
Definition Device_Initialize (m : Majors) : Majors := mkMajors (s_LeastMajor m) (Allocate 4096 (s_AllocatedMajors m)).
(** The loop runs to the end: the last free number is kept. *)
Definition FindFreeMajor_between (b : B) (start end_ : Z) : option Z :=
  fold_left (fun allocated i => if negb (GetIndex b i) then Some i else allocated) (seqZ start (end_ - start)) None.
Definition FindFreeMajor (b : B) (hint : Z) : option Z :=
  match FindFreeMajor_between b hint (bitmap_size b) with
  | Some major => Some major
  | None => FindFreeMajor_between b 0 hint
  end.
Definition AllocateMajor (hint : Z) (m : Majors) : option Z * Majors :=
  match FindFreeMajor (s_AllocatedMajors m) hint with
  | None => (None, m)
  | Some allocated =>
      let least := if bool_decide (Some allocated = s_LeastMajor m) then FindFreeMajor (s_AllocatedMajors m) 0 else s_LeastMajor m in
      (Some allocated, mkMajors least (SetIndex allocated true (s_AllocatedMajors m)))
  end.
End Majors.
Arguments Majors : clear implicits.

(** ** The registry *)
Record Device := mkDevice { dev_ID : Z; dev_Name : string }.
(** [node_Devices] is [DevTmpFs::s_Devices]. *)
Record Registry := mkRegistry { s_Devices : list Device; s_CharDevices : list Device; s_BlockDevices : list Device; node_Devices : gmap Z Device }.

Definition LookupDevice (id : Z) (r : Registry) : option Device := List.find (fun d => dev_ID d =? id) (s_Devices r).
Definition LookupCharDevice (id : Z) (r : Registry) : option Device := List.find (fun d => dev_ID d =? id) (s_CharDevices r).
Definition RegisterBlockDevice (d : Device) (r : Registry) : Registry := mkRegistry (s_Devices r) (s_CharDevices r) (s_BlockDevices r ++ [d]) (node_Devices r).
Definition DevicesHead (r : Registry) : option Device := head (s_Devices r).
Definition DevicesTail (r : Registry) : option Device := last (s_Devices r).
Definition CharDevicesHead (r : Registry) : option Device := head (s_CharDevices r).
Definition CharDevicesTail (r : Registry) : option Device := last (s_CharDevices r).
(** [CharacterDevice::Head] and [CharacterDevice::Tail] *)
Definition CharacterDevice_Head (r : Registry) : option Device := CharDevicesHead r.
Definition CharacterDevice_Tail (r : Registry) : option Device := CharDevicesHead r.
(** The devices an iterator is called with, until it answers false. *)
Fixpoint visited (iterator : Device -> bool) (l : list Device) : list Device :=
  match l with [] => [] | d :: l => d :: (if iterator d then visited iterator l else []) end.
Definition IterateDevices (iterator : Device -> bool) (r : Registry) : list Device := visited iterator (s_Devices r).
Definition IterateCharDevices (iterator : Device -> bool) (r : Registry) : list Device := visited iterator (s_CharDevices r).

(** [DevTmpFs::RegisterDevice] and [DevTmpFs::Lookup] *)
Definition DevTmpFs_RegisterDevice (d : Device) (devices : gmap Z Device) : gmap Z Device * bool :=
  match devices !! dev_ID d with Some _ => (devices, false) | None => (<[dev_ID d := d]> devices, true) end.
Definition DevTmpFs_Lookup (id : Z) (devices : gmap Z Device) : option Device := devices !! id.

Definition ENXIO : Z := 6.

Section Register.
Context {Paths : PathOps} {S I : Type} {FS : FsOps S I}.
Variable fuel : nat.
Notation State := (VFS.State S I).

(** Run a file system operation beside the registry. *)
Definition in_vfs {A} (m : M State A) : M (State * Registry) A := fun '(v, r) =>
  match m v with Ret v a => Ret (v, r) a | Halted v => Halted (v, r) | Panic => Panic | Diverges => Diverges end.

(** [initialized]: [VFS::IsInitialized()]. *)
Definition RegisterCharDevice (initialized : bool) (cdev : Device) : M (State * Registry) (Z + unit) :=
  st ← get;
  if LookupDevice (dev_ID cdev) (snd st) then mret (inl EEXIST) else
  _ ← update (fun '(v, r) => (v, mkRegistry (s_Devices r ++ [cdev]) (s_CharDevices r ++ [cdev]) (s_BlockDevices r) (DevTmpFs_RegisterDevice cdev (node_Devices r)).1));
  if negb initialized then mret (inr tt) else
  r ← in_vfs (VFS.CreateNode_path fuel (String.append "/dev/" (dev_Name cdev)) (S_IFCHR .| 0x1b6) (dev_ID cdev));
  match r with
  | inl _ =>
      _ ← update (fun '(v, r) => (v, mkRegistry (removelast (s_Devices r)) (removelast (s_CharDevices r)) (s_BlockDevices r) (node_Devices r)));
      mret (inl ENXIO)
  | inr _ => mret (inr tt)
  end.
(** [CharacterDevice::RegisterBaseMemoryDevices]: stops at the first failure. *)
Fixpoint RegisterBaseMemoryDevices (initialized : bool) (devices : list Device) : M (State * Registry) (Z + unit) :=
  match devices with
  | [] => mret (inr tt)
  | d :: devices => try_ (RegisterCharDevice initialized d) (fun _ => RegisterBaseMemoryDevices initialized devices)
  end.
End Register.

(** ** Theorems *)

(** Device numbers keep the major and minor number they were made of. *)
Theorem MakeDevice_roundtrip major minor : in_u 32 major -> in_u 32 minor ->
  GetDeviceMajor (MakeDevice major minor) = major /\ GetDeviceMinor (MakeDevice major minor) = minor.
Proof.
  intros Hma Hmi. unfold GetDeviceMajor, GetDeviceMinor, MakeDevice, u32, u64. cbv zeta.
  change 0xfff with (window 0 12). change 0xfffff000 with (window 12 20). change 0xff with (window 0 8). change 0xffffff00 with (window 8 24).
  change 0xfff00 with (window 8 12). change 0xfffff00000000000 with (window 44 20). change 0xffffff00000 with (window 20 24).
  split; fields i.
  - destruct (Z.lt_ge_cases i 12); [|destruct (Z.lt_ge_cases i 32)]; positions; beyond 32 major; trivial; f_equal; lia.
  - destruct (Z.lt_ge_cases i 8); [|destruct (Z.lt_ge_cases i 32)]; positions; beyond 32 minor; trivial; f_equal; lia.
Qed.
Lemma MakeDevice_roundtrip_witness : GetDeviceMajor (MakeDevice 0x12345 0xabcdef) = 0x12345 /\ GetDeviceMinor (MakeDevice 0x12345 0xabcdef) = 0xabcdef.
Proof. apply MakeDevice_roundtrip; split; lia. Defined.

Section Allocation.
Context {B : Type} {BM : Bitmap B}.

Lemma find_free_last (b : B) l acc : match fold_left (fun a i => if negb (GetIndex b i) then Some i else a) l acc with
  | Some j => (j ∈ l /\ GetIndex b j = false) \/ (acc = Some j /\ Forall (fun i => GetIndex b i = true) l)
  | None => acc = None /\ Forall (fun i => GetIndex b i = true) l
  end.
Proof.
  revert acc. induction l as [|i l IH]; intros acc; cbn [fold_left]; [destruct acc; auto|].
  destruct (GetIndex b i) eqn:E; cbn [negb].
  - specialize (IH acc). destruct (fold_left _ l acc) as [j|]; [destruct IH as [[Hj Hf]|[-> Hl]]|destruct IH as [-> Hl]].
    + left. split; [now right|exact Hf].
    + right. split; [reflexivity|now constructor].
    + split; [reflexivity|now constructor].
  - specialize (IH (Some i)). destruct (fold_left _ l (Some i)) as [j|]; [destruct IH as [[Hj Hf]|[[= ->] Hl]]|destruct IH as [[=] _]]; left.
    + split; [now right|exact Hf].
    + split; [left|exact E].
Qed.

(** Major numbers are handed out at most once: a call returns a free number and marks it, leaving
    the others as they were, and fails only when every number is taken. *)
Theorem AllocateMajor_fresh hint (m : Majors B) : 0 <= hint <= bitmap_size (s_AllocatedMajors m) ->
  match AllocateMajor hint m with
  | (Some n, m') => 0 <= n < bitmap_size (s_AllocatedMajors m) /\ GetIndex (s_AllocatedMajors m) n = false
      /\ (forall j, 0 <= j < bitmap_size (s_AllocatedMajors m) -> GetIndex (s_AllocatedMajors m') j = bool_decide (j = n) || GetIndex (s_AllocatedMajors m) j)
  | (None, m') => m' = m /\ forall j, 0 <= j < bitmap_size (s_AllocatedMajors m) -> GetIndex (s_AllocatedMajors m) j = true
  end.
Proof.
  intros Hh. unfold AllocateMajor, FindFreeMajor, FindFreeMajor_between. set (b := s_AllocatedMajors m) in *.
  pose proof (find_free_last b (seqZ hint (bitmap_size b - hint)) None) as H1. pose proof (find_free_last b (seqZ 0 (hint - 0)) None) as H2.
  assert (Hset : forall n, 0 <= n < bitmap_size b -> forall j, 0 <= j < bitmap_size b -> GetIndex (SetIndex n true b) j = bool_decide (j = n) || GetIndex b j).
  { intros n Hn j Hj. destruct (decide (j = n)) as [->|Hne]; [rewrite bool_decide_true by trivial; now apply SetIndex_get_eq|].
    rewrite bool_decide_false by trivial. apply SetIndex_get_ne; trivial. congruence. }
  destruct (fold_left _ (seqZ hint _) _) as [n|].
  - destruct H1 as [[Hn%elem_of_seqZ Hf]|[[=] _]]. cbn [s_AllocatedMajors]. split_and!; [lia|lia|exact Hf|]. apply Hset. lia.
  - destruct H1 as [_ H1]. destruct (fold_left _ (seqZ 0 _) _) as [n|].
    + destruct H2 as [[Hn%elem_of_seqZ Hf]|[[=] _]]. cbn [s_AllocatedMajors]. split_and!; [lia|lia|exact Hf|]. apply Hset. lia.
    + destruct H2 as [_ H2]. split; [reflexivity|]. intros j Hj. rewrite Forall_forall in H1, H2.
      destruct (Z.lt_ge_cases j hint); [apply H2|apply H1]; apply elem_of_seqZ; lia.
Qed.
End Allocation.

(** A device whose node cannot be made is taken out of the lists again, but not out of the map of
    the device file system, where its caller, which frees it, leaves a dangling pointer. *)
Theorem RegisterCharDevice_undone {Paths : PathOps} {S I : Type} {FS : FsOps S I} fuel cdev v r v' e :
  LookupDevice (dev_ID cdev) r = None -> node_Devices r !! dev_ID cdev = None ->
  VFS.CreateNode_path (S := S) (I := I) fuel (String.append "/dev/" (dev_Name cdev)) (S_IFCHR .| 0x1b6) (dev_ID cdev) v = Ret v' (inl e) ->
  exists r', RegisterCharDevice fuel true cdev (v, r) = Ret (v', r') (inl ENXIO)
    /\ s_Devices r' = s_Devices r /\ s_CharDevices r' = s_CharDevices r /\ DevTmpFs_Lookup (dev_ID cdev) (node_Devices r') = Some cdev.
Proof.
  intros Hl Hn Hc. unfold RegisterCharDevice. rewrite get_ret. cbn [snd]. rewrite Hl, update_ret. cbn [negb].
  unfold in_vfs. unfold mbind at 1, M_bind at 1. rewrite Hc. rewrite update_ret. cbn [s_Devices s_CharDevices s_BlockDevices node_Devices].
  eexists. split; [reflexivity|]. cbn [s_Devices s_CharDevices node_Devices]. rewrite !removelast_last. split_and!; trivial.
  unfold DevTmpFs_Lookup, DevTmpFs_RegisterDevice. rewrite Hn. cbn [fst]. apply lookup_insert_eq.
Qed.

(** Numbers are given out from the top: the first is not the least but the last of the range. *)
Theorem AllocateMajor_takes_last : (AllocateMajor 0 (mkMajors (Some 0) (replicate 8 false))).1 = Some 7.
Proof. reflexivity. Qed.
(** [CharacterDevice::Tail] is the head of the list. *)
Theorem CharacterDevice_Tail_is_head r : CharacterDevice_Tail r = CharacterDevice_Head r.
Proof. reflexivity. Qed.

Lemma AllocateMajor_fresh_witness : exists m', AllocateMajor 2 (mkMajors (Some 0) [false; true; true; true]) = (Some 0, m') /\ GetIndex (s_AllocatedMajors m') 0 = true.
Proof.
  pose proof (AllocateMajor_fresh 2 (mkMajors (Some 0) [false; true; true; true]) ltac:(vm_compute; split; discriminate)) as H.
  eexists. split; [reflexivity|]. destruct H as (_ & _ & H). now rewrite (H 0 ltac:(vm_compute; split; [discriminate|reflexivity])).
Defined.

(** * The device file system

    [VFS/DevTmpFs/DevTmpFs.cpp], [VFS/DevTmpFs/DevTmpFsINode.cpp] and the memory devices of
    [Drivers/NullDevice.hpp], [Drivers/ZeroDevice.hpp] and [Drivers/FullDevice.hpp].  The nodes are
    those of [SynthFs] with a device beside them; reading and writing a node with a device goes to
    the device. *)

(** ** What a device answers *)

(** [Device::Read] into a kernel buffer: the bytes it fills in and its result; [Device::Read] into a
    buffer of a process; the two of [Device::Write]; [Device::IoCtl]. *)
Class DeviceOps (D : Type) := {
  device_ID : D -> Z;
  device_Name : D -> string;
  device_Read : D -> Z -> Z -> list Z * (Z + Z);
  device_ReadUser : D -> Z -> list Z * (Z + Z);
  device_Write : D -> list Z -> Z -> Z + Z;
  device_WriteUser : D -> Z -> Z + Z;
  device_IoCtl : D -> Z -> Z -> Z
}.

Definition EOF : Z := -1.
Definition ENOTTY : Z := 25.
Inductive MemoryDevice := NullDevice | ZeroDevice | FullDevice.
Definition NullDevice_Read (offset bytes : Z) : list Z * (Z + Z) := ([], inr EOF).
Definition NullDevice_ReadUser (count : Z) : list Z * (Z + Z) := ([], inr EOF).
Definition NullDevice_Write (bs : list Z) (offset : Z) : Z + Z := inr (Z.of_nat (length bs)).
Definition NullDevice_WriteUser (count : Z) : Z + Z := inr count.
Definition ZeroDevice_Read (offset bytes : Z) : list Z * (Z + Z) := (replicate (Z.to_nat bytes) 0, inr bytes).
Definition ZeroDevice_ReadUser (count : Z) : list Z * (Z + Z) := (replicate (Z.to_nat count) 0, inr EOF).
Definition ZeroDevice_Write (bs : list Z) (offset : Z) : Z + Z := inr (Z.of_nat (length bs)).
Definition ZeroDevice_WriteUser (count : Z) : Z + Z := inr count.
Definition FullDevice_Read (offset bytes : Z) : list Z * (Z + Z) := (replicate (Z.to_nat bytes) 0, inr bytes).
Definition FullDevice_ReadUser (count : Z) : list Z * (Z + Z) := (replicate (Z.to_nat count) 0, inr count).
(** [errno] is set too. *)
Definition FullDevice_Write (bs : list Z) (offset : Z) : Z + Z := inr (-1).
Definition FullDevice_WriteUser (count : Z) : Z + Z := inl SynthFs.ENOSPC.
#[export] Instance memory_devices : DeviceOps MemoryDevice := {|
  device_ID d := match d with NullDevice => MakeDevice 1 0 | ZeroDevice => MakeDevice 1 5 | FullDevice => MakeDevice 1 7 end;
  device_Name d := match d with NullDevice => "null" | ZeroDevice => "zero" | FullDevice => "full" end;
  device_Read d := match d with NullDevice => NullDevice_Read | ZeroDevice => ZeroDevice_Read | FullDevice => FullDevice_Read end;
  device_ReadUser d := match d with NullDevice => NullDevice_ReadUser | ZeroDevice => ZeroDevice_ReadUser | FullDevice => FullDevice_ReadUser end;
  device_Write d := match d with NullDevice => NullDevice_Write | ZeroDevice => ZeroDevice_Write | FullDevice => FullDevice_Write end;
  device_WriteUser d := match d with NullDevice => NullDevice_WriteUser | ZeroDevice => ZeroDevice_WriteUser | FullDevice => FullDevice_WriteUser end;
  device_IoCtl _ _ _ := 0
|}.
Definition base_devices : list Device := (fun d => mkDevice (device_ID d) (device_Name d)) <$> [NullDevice; ZeroDevice; FullDevice].

(** ** The nodes *)
Module DevTmpFs.
Section DevTmpFs.
Context {B : Type} {Buf : Buffer B} {PM : PrismMath} {D : Type} {DO : DeviceOps D}.

(** [m_Device] of the nodes, and [s_Devices]. *)
Record DevFs := mkDevFs { fs : SynthFs.Fs B; m_Device : gmap Z D; s_Devices : gmap Z D }.

Definition RegisterDevice (d : D) (f : DevFs) : DevFs * bool :=
  match s_Devices f !! device_ID d with
  | Some _ => (f, false)
  | None => (mkDevFs (fs f) (m_Device f) (<[device_ID d := d]> (s_Devices f)), true)
  end.
Definition Lookup (id : Z) (f : DevFs) : option D := s_Devices f !! id.

(** [DevTmpFs::Mount]: half of the frames as inodes; the root is inode 2. *)
Definition Mount (totalMemory : Z) (f : DevFs) : DevFs * (Z + Z) :=
  let max := totalMemory / SynthFs.PAGE_SIZE / 2 in
  match SynthFs.AllocateNode (SynthFs.mkFs (SynthFs.nodes (fs f)) (SynthFs.m_NextINodeIndex (fs f)) max max) (0x1a4 .| S_IFDIR) 0 0 with
  | (s, inl e) => (mkDevFs s (m_Device f) (s_Devices f), inl e)
  | (s, inr i) => (mkDevFs s (m_Device f) (s_Devices f), inr i)
  end.

(** [DevTmpFsINode::CreateNode]: the base class is given device number 0. *)
Definition CreateNode (f : DevFs) (dir : Z) (name : string) (mode dev uid gid : Z) : DevFs * (Z + Z) :=
  match SynthFs.CreateNode (fs f) dir name mode 0 uid gid with
  | (s, inl e) => (mkDevFs s (m_Device f) (s_Devices f), inl e)
  | (s, inr i) =>
      let device := if S_ISCHR mode || S_ISBLK mode then match s_Devices f !! dev with Some d => <[i := d]> (m_Device f) | None => m_Device f end else m_Device f in
      (mkDevFs s device (s_Devices f), inr i)
  end.

(** The buffers are not null. *)
Definition Read (f : DevFs) (i offset bytes : Z) : option (list Z * Z) :=
  match m_Device f !! i with
  | Some d => Some (match device_Read d offset bytes with (bs, inr r) => (bs, r) | (bs, inl _) => (bs, -1) end)
  | None => (fun n => SynthFs.Read n offset bytes) <$> SynthFs.nodes (fs f) !! i
  end.
Definition Write (fuel : nat) (f : DevFs) (i : Z) (bs : list Z) (offset : Z) : option (DevFs * Z) :=
  match m_Device f !! i with
  | Some d => Some (f, match device_Write d bs offset with inr r => r | inl _ => -1 end)
  | None =>
      n ← SynthFs.nodes (fs f) !! i; '(n, r) ← SynthFs.Write DivRoundUp fuel n bs offset;
      Some (mkDevFs (SynthFs.with_nodes (<[i := n]> (SynthFs.nodes (fs f))) (fs f)) (m_Device f) (s_Devices f), r)
  end.
Definition IoCtl (f : DevFs) (i request arg : Z) : Z + Z :=
  match m_Device f !! i with Some d => inr (device_IoCtl d request arg) | None => inl ENOTTY end.

(** ** Theorems *)

(** The node of a registered device: reads and writes reach the device at any offset and leave the
    file system as it is; the other nodes keep what they have. *)
Theorem device_node_works f dir name mode dev uid gid f' i d : S_ISCHR mode = true -> Lookup dev f = Some d ->
  CreateNode f dir name mode dev uid gid = (f', inr i) ->
  (forall offset bytes, Read f' i offset bytes = Some (match device_Read d offset bytes with (bs, inr r) => (bs, r) | (bs, inl _) => (bs, -1) end)) /\
  (forall fuel bs offset, Write fuel f' i bs offset = Some (f', match device_Write d bs offset with inr r => r | inl _ => -1 end)) /\
  (forall request arg, IoCtl f' i request arg = inr (device_IoCtl d request arg)) /\
  (forall j, j <> i -> m_Device f' !! j = m_Device f !! j).
Proof.
  unfold CreateNode, Lookup. intros Hm Hd. destruct (SynthFs.CreateNode _ _ _ _ _ _ _) as [s [e|j]]; [discriminate|].
  rewrite Hm, Hd. cbn [orb]. intros [= <- <-]. unfold Read, Write, IoCtl. cbn [m_Device]. rewrite lookup_insert_eq.
  split_and!; trivial. intros k Hk. now rewrite lookup_insert_ne by congruence.
Qed.

(** The number of the device is not kept in the node: [stat] reports none, and opening the node
    looks device 0 up. *)
Theorem device_number_lost f dir name mode dev uid gid f' i : SynthFs.nodes (fs f) !! i = None ->
  CreateNode f dir name mode dev uid gid = (f', inr i) -> exists n, SynthFs.nodes (fs f') !! i = Some n /\ SynthFs.m_DeviceID n = 0.
Proof.
  unfold CreateNode, SynthFs.CreateNode. destruct (SynthFs.nodes (fs f) !! dir) as [p|] eqn:Hdir; [|discriminate].
  destruct (SynthFs.m_Children p !! name); [discriminate|]. unfold SynthFs.AllocateNode. destruct (_ <=? _); [discriminate|]. destruct (_ =? 0); [discriminate|].
  cbn zeta iota. intros Hi [= <- <-]. assert (SynthFs.m_NextINodeIndex (fs f) <> dir) by congruence.
  unfold SynthFs.InsertChild, SynthFs.update. cbn [SynthFs.nodes SynthFs.with_nodes fs].
  rewrite !lookup_alter_ne by congruence. rewrite lookup_alter_eq, lookup_insert_eq. eexists. split; reflexivity.
Qed.
End DevTmpFs.
End DevTmpFs.

(** Reading [/dev/null] fails instead of reporting the end of the file, and reading [/dev/zero] into
    a buffer of a process fills it and fails. *)
Theorem null_reads_fail offset bytes count : device_Read NullDevice offset bytes = ([], inr (-1))
  /\ device_ReadUser NullDevice count = ([], inr (-1)) /\ device_ReadUser ZeroDevice count = (replicate (Z.to_nat count) 0, inr (-1)).
Proof. repeat split; reflexivity. Qed.

(** /dev/zero in a mounted device file system. *)
Definition dev0 : DevTmpFs.DevFs (B := list Z) (D := MemoryDevice) := (DevTmpFs.Mount 0x100000 (DevTmpFs.RegisterDevice ZeroDevice (DevTmpFs.mkDevFs (SynthFs.mkFs ∅ 2 0 0) ∅ ∅)).1).1.
Lemma device_node_works_witness : exists f' i, DevTmpFs.CreateNode dev0 2 "zero" (S_IFCHR .| 0x1b6) (MakeDevice 1 5) 0 0 = (f', inr i) /\ DevTmpFs.Read f' i 0 3 = Some ([0; 0; 0], 3).
Proof.
  eexists _, _. split; [reflexivity|].
  refine (proj1 (DevTmpFs.device_node_works dev0 2 "zero" (S_IFCHR .| 0x1b6) (MakeDevice 1 5) 0 0 _ _ ZeroDevice eq_refl _ eq_refl) 0 3). vm_compute. reflexivity.
Defined.
