(* ===== verification/Initrd.v ===== *)
(** * The initial ramdisk

    [VFS/Initrd/Ustar.cpp] and [VFS/Initrd/Initrd.cpp]: the boot module with a tar archive is
    unpacked into the root file system.  The archive is the bytes of the module; a read behind them
    is a [Panic].  [StringUtils::ToNumber] is a function of the Prism library. *)

From Stdlib Require Import ZArith Lia Bool Ascii.
From stdpp Require Import base gmap list numbers strings.
From S2P Require Import Prelude Prism Posix Disk SynthFs SynthFsTheorems Effects VFS VFSTheorems Devices.

Import VFS.

(** [Prism/String/StringUtils.hpp]: the number a string of digits denotes. *)
Class StringUtils := {
  ToNumber : list Z -> Z -> Z;
  ToNumber_octal (ds : list Z) : ds <> [] -> Forall (fun d => 0 <= d < 8) ds ->
    ToNumber ((fun d => 48 + d) <$> ds) 8 = fold_left (fun n d => 8 * n + d) ds 0
}.
(** [INode::Write] of the mounted file systems: how many bytes were written. *)
Class FileWriter (S I : Type) := { inode_Write : S -> I -> list Z -> Z -> S * Z }.

(** ** The file header *)
Definition FileName_off : nat := 0.
Definition Mode_off : nat := 100.
Definition FileSize_off : nat := 124.
Definition Type_off : nat := 156.
Definition LinkName_off : nat := 157.
Definition Signature_off : nat := 257.
Definition DeviceMajor_off : nat := 329.
Definition DeviceMinor_off : nat := 337.
Definition FileHeader_size : nat := 500.

(** ["ustar"] *)
Definition MAGIC : list Z := [117; 115; 116; 97; 114].
Definition MAGIC_LENGTH : nat := 6.
Definition FILE_TYPE_NORMAL : Z := 0.
Definition FILE_TYPE_NORMAL_ : Z := 48.
Definition FILE_TYPE_HARD_LINK : Z := 49.
Definition FILE_TYPE_SYMLINK : Z := 50.
Definition FILE_TYPE_CHARACTER_DEVICE : Z := 51.
Definition FILE_TYPE_BLOCK_DEVICE : Z := 52.
Definition FILE_TYPE_DIRECTORY : Z := 53.
Definition FILE_TYPE_FIFO : Z := 54.

Fixpoint string_of (bs : list Z) : string :=
  match bs with [] => "" | b :: bs => String (ascii_of_N (Z.to_N b)) (string_of bs) end.

Section Ustar.
Context {PM : PrismMath} {SU : StringUtils} {Paths : PathOps} {S I : Type} {FS : FsOps S I} {FW : FileWriter S I}.
Notation State := (State S I).
(** Nesting of symbolic links in path resolution. *)
Variable fuel : nat.
Variable archive : list Z.

Definition bytes_at (off : Z) (n : nat) : M State (list Z) :=
  if off + Z.of_nat n <=? Z.of_nat (length archive) then mret (slice (Z.to_nat off) n archive) else panic.
(** A character array taken as a string: up to the first zero, wherever that is. *)
Fixpoint to_zero (bs : list Z) : option (list Z) :=
  match bs with [] => None | b :: bs => if b =? 0 then Some [] else cons b <$> to_zero bs end.
Definition chars_at (off : Z) : M State (list Z) := deref (to_zero (drop (Z.to_nat off) archive)).

Definition has_magic (current : Z) : M State bool :=
  sig ← bytes_at (current + Z.of_nat Signature_off) (MAGIC_LENGTH - 1); mret (bool_decide (sig = MAGIC)).
Definition Validate : M State bool := has_magic 0.

Definition getNextFile (current fileSize : Z) : Z := u64 (current + u64 (512 + AlignUp fileSize 512)).

(** [VFS::Link(oldPath, newPath)] *)
Definition Link_path (oldPath newPath : string) : M State (Z + Z) :=
  root ← RootDirectoryEntry;
  try_ (ResolveParent fuel (Some root) oldPath) (fun oldParent =>
    root ← RootDirectoryEntry;
    try_ (ResolveParent fuel (Some root) newPath) (fun newParent => Link oldParent (BaseName oldPath) newParent (BaseName newPath))).

(** Results that are only logged. *)
Definition logged {A} (m : M State (Z + A)) : M State (Z + unit) := _ ← m; mret (inr tt).

Definition INode_Write (entry : Z) (bs : list Z) (offset : Z) : M State Z :=
  d ← entry_of entry; i ← deref (m_INode d); fs_op (fun s => inode_Write s i bs offset).

(** One entry of the archive; [current] is its header. *)
Definition unpack (current : Z) (name link : list Z) (mode size type : Z) : M State (Z + unit) :=
  let filename := string_of name in
  let linkName := string_of link in
  if (type =? FILE_TYPE_NORMAL) || (type =? FILE_TYPE_NORMAL_) then
    try_ (CreateFile_path fuel filename (mode .| S_IFREG)) (fun dentry =>
      bs ← bytes_at (current + 512) (Z.to_nat size); _ ← INode_Write dentry bs 0; mret (inr tt))
  else if type =? FILE_TYPE_HARD_LINK then logged (Link_path filename linkName)
  else if type =? FILE_TYPE_SYMLINK then logged (Symlink_path fuel filename linkName)
  else if (type =? FILE_TYPE_CHARACTER_DEVICE) || (type =? FILE_TYPE_BLOCK_DEVICE) then
    major ← chars_at (current + Z.of_nat DeviceMajor_off);
    minor ← chars_at (current + Z.of_nat DeviceMinor_off);
    let mode := mode .| (if type =? FILE_TYPE_CHARACTER_DEVICE then S_IFCHR else S_IFBLK) in
    logged (CreateNode_path fuel filename mode (MakeDevice (u32 (ToNumber major 8)) (u32 (ToNumber minor 8))))
  else if type =? FILE_TYPE_DIRECTORY then
    try_ (CreateDirectory_path fuel filename (mode .| S_IFDIR)) (fun _ => mret (inr tt))
  else if type =? FILE_TYPE_FIFO then panic
  else mret (inr tt).

(** The loop; every turn moves on by at least 512 bytes, so [length archive / 512 + 1] turns are
    enough. *)
Fixpoint load_loop (turns : nat) (current : Z) : M State (Z + unit) :=
  match turns with
  | O => diverges
  | Datatypes.S turns =>
      ok ← has_magic current;
      if negb (ok : bool) then mret (inr tt) else
      name ← chars_at (current + Z.of_nat FileName_off);
      link ← chars_at (current + Z.of_nat LinkName_off);
      mode ← chars_at (current + Z.of_nat Mode_off);
      size ← chars_at (current + Z.of_nat FileSize_off);
      let mode := u32 (ToNumber mode 8) in
      let size := u64 (ToNumber size 8) in
      if bool_decide (name = [46; 47]) then load_loop turns (getNextFile current size) else
      type ← bytes_at (current + Z.of_nat Type_off) 1;
      try_ (unpack current name link mode size (le_word type)) (fun _ => load_loop turns (getNextFile current size))
  end.
Definition Load : M State (Z + unit) := load_loop (length archive / 512 + 1) 0.

(** [Initrd::Initialize]: [found] is whether the boot module is there and not empty. *)
Definition Initialize (found : bool) : M State bool :=
  if negb found then mret false else
  ok ← Validate;
  if negb (ok : bool) then mret false else
  r ← Load;
  match r with inl _ => panic | inr _ => mret true end.
End Ustar.

(** ** Archives *)

(** An entry as [tar] writes it. *)
Record Entry := mkEntry { e_name : list Z; e_link : list Z; e_mode : list Z; e_size : list Z; e_type : Z; e_major : list Z; e_minor : list Z; e_data : list Z }.
Definition octal (ds : list Z) : Z := fold_left (fun n d => 8 * n + d) ds 0.
Definition digits (ds : list Z) : list Z := (fun d => 48 + d) <$> ds.
(** A field of [n] characters, filled up with zeros. *)
Definition field (n : nat) (bs : list Z) : list Z := bs ++ replicate (n - length bs) 0.
Definition header_fields (e : Entry) : list (list Z) :=
  [field 100 (e_name e); field 8 (digits (e_mode e)); replicate 8 0; replicate 8 0; field 12 (digits (e_size e)); replicate 12 0; replicate 8 0;
   [e_type e]; field 100 (e_link e); field 8 MAGIC; replicate 32 0; replicate 32 0;
   field 8 (digits (e_major e)); field 8 (digits (e_minor e)); replicate 155 0; replicate 12 0].
Definition encode_header (e : Entry) : list Z := concat (header_fields e).
Definition padding (n : nat) : nat := Z.to_nat ((- Z.of_nat n) mod 512).
Definition encode (e : Entry) : list Z := encode_header e ++ e_data e ++ replicate (padding (length (e_data e))) 0.
(** The archive ends with a block of zeros. *)
Definition encode_archive (es : list Entry) : list Z := concat (encode <$> es) ++ replicate 512 0.

(** A field fits with a terminating zero. *)
Definition text_fits (n : nat) (bs : list Z) : Prop := Forall (fun b => 0 < b < 256) bs /\ (length bs < n)%nat.
Definition number_fits (n : nat) (ds : list Z) : Prop := Forall (fun d => 0 <= d < 8) ds /\ ds <> [] /\ (length ds < n)%nat.
Record entry_ok (e : Entry) : Prop := {
  ok_name : text_fits 100 (e_name e);
  ok_link : text_fits 100 (e_link e);
  ok_mode : number_fits 8 (e_mode e);
  ok_size : number_fits 12 (e_size e);
  ok_major : number_fits 8 (e_major e);
  ok_minor : number_fits 8 (e_minor e);
  ok_data : octal (e_size e) = Z.of_nat (length (e_data e))
}.

(** * The initial ramdisk: theorems

    Unpacking an archive does for every entry, in their order, what the entry says; hard links are
    never made. *)

Import VFS.

(** ** The fields of a header *)
Lemma length_field n bs : (length bs <= n)%nat -> length (field n bs) = n.
Proof. intros H. unfold field. rewrite length_app, length_replicate. lia. Qed.
Lemma drop_field {A} k n (f rest : list A) : length f = n -> (n <= k)%nat -> drop k (f ++ rest) = drop (k - n) rest.
Proof. intros <- H. now rewrite drop_app_ge. Qed.

Lemma to_zero_field n bs rest : text_fits n bs -> to_zero (field n bs ++ rest) = Some bs.
Proof.
  intros [Hp Hn]. unfold field. rewrite <- (assoc app). assert (E : exists m, (n - length bs = S m)%nat) by (exists (n - length bs - 1)%nat; lia).
  destruct E as [m ->]. clear Hn. induction Hp as [|b bs Hb _ IH]; [reflexivity|]. cbn [app to_zero]. destruct (Z.eqb_spec b 0); [lia|]. now rewrite IH.
Qed.
Lemma digits_text n ds : number_fits n ds -> text_fits n (digits ds).
Proof.
  intros (Hd & _ & Hn). split; [|unfold digits; now rewrite length_fmap]. unfold digits. apply Forall_fmap.
  apply (Forall_impl _ _ _ Hd). intros d Hd'. cbn. lia.
Qed.
Lemma text_length n bs : text_fits n bs -> (length bs <= n)%nat.
Proof. intros [_ H]. lia. Qed.

Lemma octal_bound ds : Forall (fun d => 0 <= d < 8) ds -> forall n, 0 <= n -> 0 <= fold_left (fun n d => 8 * n + d) ds n < (n + 1) * 8 ^ Z.of_nat (length ds).
Proof.
  induction 1 as [|d ds Hd _ IH]; intros n Hn; cbn [fold_left length].
  - rewrite Z.mul_1_r. lia.
  - specialize (IH (8 * n + d) ltac:(lia)). rewrite Nat2Z.inj_succ, Z.pow_succ_r by lia. pose proof (Z.pow_pos_nonneg 8 (Z.of_nat (length ds)) ltac:(lia) ltac:(lia)). nia.
Qed.
Lemma octal_fits n ds : number_fits n ds -> 0 <= octal ds < 8 ^ (Z.of_nat n - 1).
Proof.
  intros (Hd & _ & Hn). pose proof (octal_bound ds Hd 0 ltac:(lia)) as H. unfold octal. rewrite Z.mul_1_l in H.
  pose proof (Z.pow_le_mono_r 8 (Z.of_nat (length ds)) (Z.of_nat n - 1) ltac:(lia) ltac:(lia)). lia.
Qed.

Definition field_sizes : list nat := [100; 8; 8; 8; 12; 12; 8; 1; 100; 8; 32; 32; 8; 8; 155; 12]%nat.
Lemma header_sizes e : entry_ok e -> length <$> header_fields e = field_sizes.
Proof.
  intros [Hn Hl Hm Hs Ha Hi _]. unfold header_fields. cbn [fmap list_fmap]. rewrite !length_replicate.
  rewrite (length_field 100 (e_name e)), (length_field 100 (e_link e)), (length_field 8 (digits (e_mode e))), (length_field 12 (digits (e_size e))),
    (length_field 8 (digits (e_major e))), (length_field 8 (digits (e_minor e))), (length_field 8 MAGIC)
    by (first [eapply text_length, digits_text; eassumption|eapply text_length; eassumption|cbn; lia]). reflexivity.
Qed.
Lemma drop_fields i : forall (fs : list (list Z)) rest, drop (sum_list (take i (length <$> fs))) (concat fs ++ rest) = concat (drop i fs) ++ rest.
Proof.
  induction i as [|i IH]; intros [|f fs] rest; try reflexivity. cbn [fmap list_fmap take sum_list drop concat]. change (sum_list_with id) with sum_list.
  rewrite <- (assoc app). rewrite drop_app_ge by (unfold id; cbn; lia). rewrite <- (IH fs rest). f_equal. unfold id. cbn. lia.
Qed.
(** The field that starts at a given byte of a header. *)
Lemma header_drop e i rest : entry_ok e -> drop (sum_list (take i field_sizes)) (encode_header e ++ rest) = concat (drop i (header_fields e)) ++ rest.
Proof. intros H. rewrite <- (header_sizes e H). apply drop_fields. Qed.
Lemma length_header e : entry_ok e -> length (encode_header e) = 512%nat.
Proof.
  intros H. pose proof (header_drop e 16 [] H) as E. apply (f_equal length) in E. rewrite length_drop, length_app in E.
  unfold encode_header in *. rewrite length_concat. change (map length (header_fields e)) with (length <$> header_fields e). now rewrite (header_sizes e H).
Qed.

Definition text_field (e : Entry) (off : nat) (bs : list Z) : Prop := forall rest, to_zero (drop off (encode_header e ++ rest)) = Some bs.
Lemma text_field_at e i n bs : entry_ok e -> header_fields e !! i = Some (field n bs) -> text_fits n bs -> text_field e (sum_list (take i field_sizes)) bs.
Proof.
  intros He Hi Hb rest. rewrite header_drop by trivial. rewrite (drop_S _ _ _ Hi). cbn [concat]. rewrite <- (assoc app). now apply to_zero_field.
Qed.
Lemma header_text e : entry_ok e ->
  text_field e FileName_off (e_name e) /\ text_field e LinkName_off (e_link e) /\ text_field e Mode_off (digits (e_mode e)) /\
  text_field e FileSize_off (digits (e_size e)) /\ text_field e DeviceMajor_off (digits (e_major e)) /\ text_field e DeviceMinor_off (digits (e_minor e)).
Proof.
  intros He. destruct He as [Hn Hl Hm Hs Ha Hi Hd] eqn:E. clear E. split_and!.
  - apply (text_field_at e 0 100); trivial.
  - apply (text_field_at e 8 100); trivial.
  - apply (text_field_at e 1 8); auto using digits_text.
  - apply (text_field_at e 4 12); auto using digits_text.
  - apply (text_field_at e 12 8); auto using digits_text.
  - apply (text_field_at e 13 8); auto using digits_text.
Qed.
Lemma header_signature e rest : entry_ok e -> slice Signature_off 5 (encode_header e ++ rest) = MAGIC.
Proof. intros He. unfold slice. now rewrite (header_drop e 9 rest He : drop Signature_off _ = _). Qed.
Lemma header_type e rest : entry_ok e -> slice Type_off 1 (encode_header e ++ rest) = [e_type e].
Proof. intros He. unfold slice. now rewrite (header_drop e 7 rest He : drop Type_off _ = _). Qed.

(** ** Members *)
(** What is archived, and the entry [tar] writes for it: the type flag, numbers as octal digits with
    leading zeros, and the contents of a regular file. *)
Inductive Kind :=
  | DirectoryKind
  | RegularFile (contents : list Z)
  | SymbolicLink (target : list Z)
  | CharacterDevice (major minor : Z)
  | BlockDevice (major minor : Z).
Record Member := mkMember { m_path : list Z; m_mode : Z; m_kind : Kind }.
Fixpoint octal_digits (n : nat) (x : Z) : list Z := match n with O => [] | S n => octal_digits n (x / 8) ++ [x mod 8] end.
Definition tar (m : Member) : Entry :=
  let entry type link size major minor data := Initrd.mkEntry (m_path m) link (octal_digits 7 (m_mode m)) (octal_digits 11 size) type (octal_digits 7 major) (octal_digits 7 minor) data in
  match m_kind m with
  | DirectoryKind => entry FILE_TYPE_DIRECTORY [] 0 0 0 []
  | RegularFile contents => entry FILE_TYPE_NORMAL_ [] (Z.of_nat (length contents)) 0 0 contents
  | SymbolicLink target => entry FILE_TYPE_SYMLINK target 0 0 0 []
  | CharacterDevice major minor => entry FILE_TYPE_CHARACTER_DEVICE [] 0 major minor []
  | BlockDevice major minor => entry FILE_TYPE_BLOCK_DEVICE [] 0 major minor []
  end.
(** Names and numbers fit in their fields. *)
Definition member_ok (m : Member) : Prop := text_fits 100 (m_path m) /\ 0 <= m_mode m < 8 ^ 7 /\
  text_fits 100 (match m_kind m with SymbolicLink target => target | _ => [] end) /\
  match m_kind m with
  | RegularFile contents => Z.of_nat (length contents) < 8 ^ 11
  | CharacterDevice major minor | BlockDevice major minor => 0 <= major < 8 ^ 7 /\ 0 <= minor < 8 ^ 7
  | _ => True
  end.

Lemma octal_digits_length n x : length (octal_digits n x) = n.
Proof. revert x. induction n as [|n IH]; intros x; [reflexivity|]. cbn [octal_digits]. rewrite length_app, IH. cbn. lia. Qed.
Lemma octal_digits_fit n x : (0 < n)%nat -> number_fits (S n) (octal_digits n x).
Proof.
  intros Hn. split_and!; [|intros E; apply (f_equal length) in E; rewrite octal_digits_length in E; cbn in E; lia|rewrite octal_digits_length; lia].
  clear Hn. revert x. induction n as [|n IH]; intros x; [constructor|]. cbn [octal_digits]. apply Forall_app. split; [apply IH|]. repeat constructor; apply Z.mod_pos_bound; lia.
Qed.
Lemma octal_of_digits n x : 0 <= x < 8 ^ Z.of_nat n -> octal (octal_digits n x) = x.
Proof.
  revert x. induction n as [|n IH]; intros x Hx; [cbn in *; unfold octal; cbn; lia|]. cbn [octal_digits]. unfold octal in *. rewrite fold_left_app. cbn [fold_left]. rewrite Nat2Z.inj_succ, Z.pow_succ_r in Hx by lia. rewrite IH.
  - rewrite (Z.div_mod x 8) at 3 by lia. lia.
  - split; [apply Z.div_pos; lia|apply Z.div_lt_upper_bound; lia].
Qed.
Lemma tar_ok m : member_ok m -> entry_ok (tar m).
Proof.
  intros (Hp & Hm & Ht & Hk). unfold tar. destruct (m_kind m) as [|contents|target|major minor|major minor]; (split; [exact Hp|exact Ht|apply octal_digits_fit; lia..|]); cbn [e_size e_data];
    rewrite octal_of_digits; trivial; cbn in *; lia.
Qed.

(** ** Unpacking an archive *)
Section Unpacking.
Context {PM : PrismMath} {SU : StringUtils} {Paths : PathOps} {S I : Type} {FS : FsOps S I} {FW : FileWriter S I}.
Notation State := (State S I).
Variable fuel : nat.
Implicit Types (s : State) (e : Entry) (es : list Entry).

(** What the loop does for an entry, on the fields of the entry. *)
Definition install (e : Entry) : M State (Z + unit) :=
  let path := string_of (e_name e) in
  let mode := octal (e_mode e) in
  if bool_decide (e_name e = [46; 47]) then mret (inr tt)
  else if (e_type e =? FILE_TYPE_NORMAL) || (e_type e =? FILE_TYPE_NORMAL_) then
    try_ (CreateFile_path fuel path (mode .| S_IFREG)) (fun dentry => _ ← INode_Write dentry (e_data e) 0; mret (inr tt))
  else if e_type e =? FILE_TYPE_HARD_LINK then logged (Link_path fuel path (string_of (e_link e)))
  else if e_type e =? FILE_TYPE_SYMLINK then logged (Symlink_path fuel path (string_of (e_link e)))
  else if e_type e =? FILE_TYPE_CHARACTER_DEVICE then logged (CreateNode_path fuel path (mode .| S_IFCHR) (MakeDevice (octal (e_major e)) (octal (e_minor e))))
  else if e_type e =? FILE_TYPE_BLOCK_DEVICE then logged (CreateNode_path fuel path (mode .| S_IFBLK) (MakeDevice (octal (e_major e)) (octal (e_minor e))))
  else if e_type e =? FILE_TYPE_DIRECTORY then try_ (CreateDirectory_path fuel path (mode .| S_IFDIR)) (fun _ => mret (inr tt))
  else if e_type e =? FILE_TYPE_FIFO then panic
  else mret (inr tt).
(** One entry after the other, up to the first that fails. *)
Fixpoint install_all (es : list Entry) : M State (Z + unit) :=
  match es with [] => mret (inr tt) | e :: es => try_ (install e) (fun _ => install_all es) end.

Lemma try_ext {A B} (m m' : M State (Z + A)) (k k' : A -> M State (Z + B)) s : m s = m' s -> (forall a s', k a s' = k' a s') -> try_ m k s = try_ m' k' s.
Proof. intros Hm Hk. unfold try_, mbind, M_bind. rewrite Hm. destruct (m' s) as [s' [e|a]|s'| |]; trivial. Qed.
Lemma ToNumber_digits n ds : number_fits n ds -> ToNumber (digits ds) 8 = octal ds.
Proof. intros (Hd & Hne & _). now apply ToNumber_octal. Qed.
Lemma octal_u32 ds : number_fits 8 ds -> u32 (octal ds) = octal ds.
Proof. intros H. pose proof (octal_fits 8 ds H) as B. unfold u32, wrap. rewrite Z.mod_small; [trivial|]. cbn in B. lia. Qed.
Lemma octal_u64 ds : number_fits 12 ds -> u64 (octal ds) = octal ds.
Proof. intros H. pose proof (octal_fits 12 ds H) as B. unfold u64, wrap. rewrite Z.mod_small; [trivial|]. cbn in B. lia. Qed.

Lemma chars_at_text archive pre e rest off bs s : archive = pre ++ encode_header e ++ rest -> text_field e off bs ->
  chars_at archive (Z.of_nat (length pre) + Z.of_nat off) s = Ret s bs.
Proof.
  intros -> H. unfold chars_at. rewrite <- Nat2Z.inj_add, Nat2Z.id, drop_app_ge by lia.
  rewrite (Nat.add_comm (length pre)), Nat.add_sub, H. reflexivity.
Qed.
Lemma bytes_at_slice archive pre post off n s : archive = pre ++ post -> (off + n <= length post)%nat ->
  bytes_at archive (Z.of_nat (length pre) + Z.of_nat off) n s = Ret s (slice off n post).
Proof.
  intros -> H. unfold bytes_at. rewrite <- Nat2Z.inj_add, Nat2Z.id, length_app. destruct (Z.leb_spec (Z.of_nat (length pre + off) + Z.of_nat n) (Z.of_nat (length pre + length post))) as [L|L]; [|lia].
  rewrite slice_app_r by lia. now rewrite (Nat.add_comm (length pre)), Nat.add_sub.
Qed.

Lemma unpack_entry archive pre e rest s : entry_ok e -> archive = pre ++ encode_header e ++ e_data e ++ rest -> e_name e <> [46; 47] ->
  unpack fuel archive (Z.of_nat (length pre)) (e_name e) (e_link e) (octal (e_mode e)) (octal (e_size e)) (e_type e) s = install e s.
Proof.
  intros He Ha Hn. destruct (header_text e He) as (_ & _ & _ & _ & Hma & Hmi). unfold unpack, install. rewrite bool_decide_eq_false_2 by trivial.
  destruct ((_ =? FILE_TYPE_NORMAL) || _).
  { apply try_ext; [trivial|]. intros d s'. rewrite (ok_data _ He), Nat2Z.id. change 512 with (Z.of_nat 512).
    rewrite (bind_ret _ _ s' s' (e_data e)); [trivial|]. rewrite (bytes_at_slice _ pre (encode_header e ++ e_data e ++ rest)), slice_app_r; rewrite ?length_app, ?length_header by trivial; trivial; try lia.
    unfold slice. cbn [Nat.sub]. now rewrite drop_0, take_app_length. }
  destruct (_ =? FILE_TYPE_HARD_LINK); [trivial|]. destruct (_ =? FILE_TYPE_SYMLINK); [trivial|].
  destruct (_ =? FILE_TYPE_CHARACTER_DEVICE); [|destruct (_ =? FILE_TYPE_BLOCK_DEVICE); [|trivial]]; cbn [orb];
    rewrite (bind_ret _ _ s s _ (chars_at_text _ pre e _ _ _ s Ha Hma)), (bind_ret _ _ s s _ (chars_at_text _ pre e _ _ _ s Ha Hmi));
    now rewrite (ToNumber_digits 8), (ToNumber_digits 8), !octal_u32 by apply He.
Qed.

Lemma padded e : entry_ok e -> AlignUp (octal (e_size e)) 512 = Z.of_nat (length (e_data e) + padding (length (e_data e))).
Proof.
  intros He. rewrite (ok_data _ He). unfold padding. set (n := Z.of_nat (length (e_data e))).
  pose proof (AlignUp_ge n 512 ltac:(lia) ltac:(lia)) as B. destruct (AlignUp_divide n 512 ltac:(lia) ltac:(lia)) as [q E].
  rewrite E in *. assert (Em : (- n) mod 512 = q * 512 - n).
  { replace (- n) with ((q * 512 - n) + (- q) * 512) by lia. rewrite Z.mod_add by lia. apply Z.mod_small. lia. }
  rewrite Nat2Z.inj_add, Em, Z2Nat.id by lia. lia.
Qed.
Lemma length_encode e : entry_ok e -> Z.of_nat (length (encode e)) = 512 + AlignUp (octal (e_size e)) 512.
Proof. intros He. unfold encode. rewrite (padded e He), !length_app, length_header, length_replicate by trivial. lia. Qed.
Lemma encode_at_least e : entry_ok e -> (512 <= length (encode e))%nat.
Proof. intros He. unfold encode. rewrite length_app, length_header by trivial. lia. Qed.
Lemma encoded_entries es : Forall entry_ok es -> (512 * length es + 512 <= length (encode_archive es))%nat.
Proof.
  unfold encode_archive. rewrite length_app, length_replicate. induction 1 as [|e es He _ IH]; [cbn; lia|].
  cbn [fmap list_fmap concat length]. rewrite length_app. pose proof (encode_at_least e He). lia.
Qed.

Lemma magic_at archive pre post s : archive = pre ++ post -> (262 <= length post)%nat ->
  has_magic archive (Z.of_nat (length pre)) s = Ret s (bool_decide (slice Signature_off 5 post = MAGIC)).
Proof. intros Ha Hl. unfold has_magic. rewrite (bind_ret _ _ s s _ (bytes_at_slice archive pre post Signature_off 5 s Ha ltac:(cbn; lia))). reflexivity. Qed.

Lemma load_loop_spec archive es : Forall entry_ok es -> Z.of_nat (length archive) < 2 ^ 64 -> forall turns pre s, archive = pre ++ encode_archive es -> (length es < turns)%nat ->
  load_loop fuel archive turns (Z.of_nat (length pre)) s = install_all es s.
Proof.
  intros Hes Hfit. induction Hes as [|e es He Hes IH]; intros turns pre s Ha Ht; (destruct turns as [|turns]; [cbn in Ht; lia|]); cbn [load_loop].
  { rewrite (bind_ret _ _ s s _ (magic_at archive pre _ s Ha ltac:(cbn; lia))). reflexivity. }
  assert (Ea : archive = pre ++ encode_header e ++ e_data e ++ replicate (padding (length (e_data e))) 0 ++ encode_archive es).
  { rewrite Ha. unfold encode_archive. cbn [fmap list_fmap concat]. unfold encode at 1. now rewrite <- !(assoc app). }
  assert (Hnext : forall s', load_loop fuel archive turns (getNextFile (Z.of_nat (length pre)) (octal (e_size e))) s' = install_all es s').
  { intros s'. rewrite <- (IH turns (pre ++ encode e) s'); [|unfold encode; now rewrite Ea, <- !(assoc app)|cbn in Ht; lia].
    f_equal. rewrite Ha in Hfit. revert Hfit. unfold encode_archive at 1. cbn [fmap list_fmap concat]. rewrite !length_app.
    unfold getNextFile, u64, wrap. rewrite <- (length_encode e He). intros Hfit. rewrite !Z.mod_small; rewrite ?Z.mod_small; lia. }
  destruct (header_text e He) as (Hn & Hl & Hm & Hs & _ & _).
  rewrite (bind_ret _ _ s s _ (magic_at archive pre _ s Ea ltac:(rewrite length_app, length_header by trivial; lia))), header_signature, bool_decide_eq_true_2 by trivial. cbn [negb].
  rewrite (bind_ret _ _ s s _ (chars_at_text _ pre e _ _ _ s Ea Hn)), (bind_ret _ _ s s _ (chars_at_text _ pre e _ _ _ s Ea Hl)),
    (bind_ret _ _ s s _ (chars_at_text _ pre e _ _ _ s Ea Hm)), (bind_ret _ _ s s _ (chars_at_text _ pre e _ _ _ s Ea Hs)).
  rewrite (ToNumber_digits 8 (e_mode e)), (ToNumber_digits 12 (e_size e)), octal_u32, octal_u64 by apply He. cbn [install_all].
  destruct (bool_decide_reflect (e_name e = [46; 47])) as [En|En].
  { rewrite (try_ret _ _ s s tt); [apply Hnext|]. unfold install. now rewrite bool_decide_eq_true_2. }
  rewrite (bind_ret _ _ s s [e_type e]).
  2:{ rewrite (bytes_at_slice _ pre _ _ _ s Ea) by (rewrite length_app, length_header by trivial; cbn; lia). now rewrite header_type. }
  cbn [le_word]. rewrite Z.add_0_r. apply try_ext; [|intros []; apply Hnext].
  exact (unpack_entry archive pre e _ s He Ea En).
Qed.

Lemma Load_entries es s : Forall entry_ok es -> Z.of_nat (length (encode_archive es)) < 2 ^ 64 -> Load fuel (encode_archive es) s = install_all es s.
Proof.
  intros Hes Hfit. unfold Load. apply (load_loop_spec (encode_archive es) es Hes Hfit _ [] s); [reflexivity|].
  pose proof (encoded_entries es Hes). pose proof (Nat.Div0.div_le_mono (512 * length es) (length (encode_archive es)) 512 ltac:(lia)) as H1.
  rewrite (Nat.mul_comm 512), Nat.div_mul in H1 by lia. lia.
Qed.

(** What a member of an archive asks for: the member for the directory that was archived, [./],
    nothing; a directory or a regular file that cannot be made ends the loading with the error, a
    link or a node that cannot be made is only logged. *)
Definition make (m : Member) : M State (Z + unit) :=
  let path := string_of (m_path m) in
  if bool_decide (m_path m = [46; 47]) then mret (inr tt)
  else match m_kind m with
  | DirectoryKind => try_ (CreateDirectory_path fuel path (m_mode m .| S_IFDIR)) (fun _ => mret (inr tt))
  | RegularFile contents => try_ (CreateFile_path fuel path (m_mode m .| S_IFREG)) (fun dentry => _ ← INode_Write dentry contents 0; mret (inr tt))
  | SymbolicLink target => logged (Symlink_path fuel path (string_of target))
  | CharacterDevice major minor => logged (CreateNode_path fuel path (m_mode m .| S_IFCHR) (MakeDevice major minor))
  | BlockDevice major minor => logged (CreateNode_path fuel path (m_mode m .| S_IFBLK) (MakeDevice major minor))
  end.
Fixpoint make_all (ms : list Member) : M State (Z + unit) :=
  match ms with [] => mret (inr tt) | m :: ms => try_ (make m) (fun _ => make_all ms) end.

Lemma install_member m s : member_ok m -> install (tar m) s = make m s.
Proof.
  intros (_ & Hm & _ & Hk). unfold install, make. assert (e_name (tar m) = m_path m /\ e_mode (tar m) = octal_digits 7 (m_mode m)) as [-> ->] by (unfold tar; now destruct (m_kind m)). rewrite octal_of_digits by exact Hm.
  destruct (bool_decide _); [reflexivity|]. unfold tar. destruct (m_kind m) as [|contents|target|major minor|major minor]; cbn [e_type e_link e_major e_minor e_data]; try reflexivity;
    destruct Hk as [H1 H2]; rewrite !octal_of_digits by trivial; reflexivity.
Qed.

(** C18: loading the archive that [tar] writes for a list of members (directories, regular files,
    symbolic links, character and block devices; hard links are not made, [hard_link_not_made])
    makes each of them, one after the other: files with their modes and contents, directories, links
    and nodes with their modes, targets and numbers; it ends at the first file or directory that
    cannot be made, with its error, and otherwise at the end of the archive, within the turns the
    loop is given. *)
Theorem Load_installs ms s : Forall member_ok ms -> Z.of_nat (length (encode_archive (tar <$> ms))) < 2 ^ 64 ->
  Load fuel (encode_archive (tar <$> ms)) s = make_all ms s.
Proof.
  intros Hms Hfit. rewrite Load_entries by (trivial; apply Forall_fmap; exact (Forall_impl _ _ _ Hms tar_ok)). clear Hfit. revert s.
  induction Hms as [|m ms Hm _ IH]; intros s; [reflexivity|]. cbn [fmap list_fmap install_all make_all]. apply try_ext; [now apply install_member|]. intros _ s'. apply IH.
Qed.

(** A hard link of an archive is passed to [VFS::Link] with its own name as the existing file: it
    is not found, nothing is linked, and loading goes on. *)
Theorem hard_link_not_made e s s1 s2 s3 p q : e_type e = FILE_TYPE_HARD_LINK -> e_name e <> [46; 47] ->
  (root ← RootDirectoryEntry; ResolveParent fuel (Some root) (string_of (e_name e))) s = Ret s1 (inr p) ->
  (root ← RootDirectoryEntry; ResolveParent fuel (Some root) (string_of (e_link e))) s1 = Ret s2 (inr q) ->
  Lookup p (BaseName (string_of (e_name e))) s2 = Ret s3 None ->
  Link_path fuel (string_of (e_name e)) (string_of (e_link e)) s = Ret s3 (inl ENOENT) /\ install e s = Ret s3 (inr tt).
Proof.
  intros Ht Hn H1 H2 H3. assert (E : Link_path fuel (string_of (e_name e)) (string_of (e_link e)) s = Ret s3 (inl ENOENT)).
  { unfold Link_path. revert H1 H2. unfold try_, mbind, M_bind. destruct (RootDirectoryEntry s) as [s0 r| | |]; try discriminate. intros ->.
    destruct (RootDirectoryEntry s1) as [s0' r'| | |]; try discriminate. intros ->. unfold Link, mbind, M_bind. now rewrite H3. }
  split; [exact E|]. unfold install. rewrite bool_decide_eq_false_2, Ht by trivial. cbn -[Link_path]. unfold logged. now rewrite (bind_ret _ _ _ _ _ E).
Qed.
End Unpacking.

(** ** Witnesses *)
#[export] Program Instance string_utils_ref : StringUtils := {| ToNumber cs base := fold_left (fun n c => base * n + (c - 48)) cs 0 |}.
Next Obligation.
  intros ds _ _. generalize 0. induction ds as [|d ds IH]; intros n; [reflexivity|]. cbn [fmap list_fmap fold_left]. rewrite <- IH. f_equal. lia.
Qed.
(** Writing a file of the in-memory file system; 63 doublings reach any size. *)
#[export] Instance tmpfs_writer : FileWriter (SynthFs.Fs (list Z)) Z := {|
  inode_Write s i bs offset :=
    match SynthFs.nodes s !! i with
    | Some n => match SynthFs.Write DivRoundUp 63 n bs offset with Some (n, r) => (SynthFs.with_nodes (<[i := n]> (SynthFs.nodes s)) s, r) | None => (s, -1) end
    | None => (s, -1)
    end
|}.
Fixpoint chars (str : string) : list Z := match str with EmptyString => [] | String c str => Z.of_N (N_of_ascii c) :: chars str end.
(** /etc, /etc/motd with "hi", and a hard link /etc/issue to it. *)
Definition ramdisk : list Entry :=
  [Initrd.mkEntry (chars "./") [] [0; 7; 5; 5] [0] FILE_TYPE_DIRECTORY [0] [0] [];
   Initrd.mkEntry (chars "/etc") [] [0; 7; 5; 5] [0] FILE_TYPE_DIRECTORY [0] [0] [];
   Initrd.mkEntry (chars "/etc/motd") [] [0; 6; 4; 4] [2] FILE_TYPE_NORMAL_ [0] [0] (chars "hi");
   Initrd.mkEntry (chars "/etc/issue") (chars "/etc/motd") [0; 6; 4; 4] [0] FILE_TYPE_HARD_LINK [0] [0] []].
Lemma ramdisk_ok : Forall entry_ok ramdisk.
Proof.
  unfold ramdisk. repeat (apply list.Forall_cons; split); [..|apply list.Forall_nil_2];
    (constructor; [..|reflexivity]; unfold text_fits, number_fits; cbn; repeat split; try lia; try discriminate;
     repeat (apply List.Forall_cons; [lia|]); apply List.Forall_nil).
Qed.
Definition loaded : State (SynthFs.Fs (list Z)) Z := match Load 3 (encode_archive ramdisk) (boot tmp0) with Ret v _ => v | _ => boot tmp0 end.
(** The contents of the file the path leads to. *)
Definition contents (path : string) (v : State (SynthFs.Fs (list Z)) Z) : option (list Z) :=
  match ResolvePath 3 None path true v with
  | Ret v (_, Some e, _) => d ← VFS.entries v !! e; i ← m_INode d; n ← SynthFs.nodes (filesystems v) !! i; Some (take 2 (SynthFs.m_Buffer n))
  | _ => None
  end.
(** The same without the link, with a symbolic link and a terminal. *)
Definition members : list Member :=
  [mkMember (chars "./") 0x1ed DirectoryKind; mkMember (chars "/etc") 0x1ed DirectoryKind; mkMember (chars "/etc/motd") 0x1a4 (RegularFile (chars "hi"));
   mkMember (chars "/etc/issue") 0x1ff (SymbolicLink (chars "motd")); mkMember (chars "/tty") 0x1b6 (CharacterDevice 5 0)].
Lemma members_ok : Forall member_ok members.
Proof.
  unfold members. repeat (apply list.Forall_cons; split); [..|apply list.Forall_nil_2];
    (unfold member_ok, text_fits; cbn; repeat split; try lia; try discriminate; repeat (apply List.Forall_cons; [lia|]); apply List.Forall_nil).
Qed.
Definition unpacked : State (SynthFs.Fs (list Z)) Z := match Load 3 (encode_archive (tar <$> members)) (boot tmp0) with Ret v _ => v | _ => boot tmp0 end.
Lemma Load_installs_witness : Load 3 (encode_archive (tar <$> members)) (boot tmp0) = make_all 3 members (boot tmp0) /\ contents "/etc/motd" unpacked = Some (chars "hi").
Proof. split; [apply (Load_installs 3 members (boot tmp0)); [exact members_ok|vm_compute; reflexivity]|vm_compute; reflexivity]. Defined.
(** With the hard link the linked name does not exist after loading. *)
Lemma ramdisk_link_missing : contents "/etc/motd" loaded = Some (chars "hi") /\ contents "/etc/issue" loaded = None.
Proof. split; vm_compute; reflexivity. Qed.
