(* ===== verification/PCI.v ===== *)
(** * PCI

    [Drivers/PCI] and [Arch/x86_64/Drivers/PCI.cpp]: the two ways to reach the configuration space,
    the detection of functions and buses, the base address registers, capabilities and interrupts
    of a device, host controllers and the matching of drivers. *)

From Stdlib Require Import ZArith Lia Bool.
From stdpp Require Import base gmap list numbers.
From S2P Require Import Prelude Effects Posix.

Record DeviceAddress := mkAddress { Domain : Z; BusNumber : Z; Slot : Z; Function_ : Z }.
#[export] Instance DeviceAddress_eq : EqDecision DeviceAddress.
Proof. solve_decision. Defined.

(** [RegisterOffset] *)
Definition eVendorID : Z := 0x00.
Definition eDeviceID : Z := 0x02.
Definition eCommand : Z := 0x04.
Definition eStatus : Z := 0x06.
Definition eSubClassID : Z := 0x0a.
Definition eClassID : Z := 0x0b.
Definition eHeaderType : Z := 0x0e.
Definition eBar0 : Z := 0x10.
Definition eSecondaryBus : Z := 0x19.
Definition eSubordinateBus : Z := 0x20.
Definition eSubsystemVendorID : Z := 0x2c.
Definition eSubsystemID : Z := 0x2e.
Definition eCapabilitiesPointer : Z := 0x34.
Definition eInterruptPin : Z := 0x3d.
Definition PCI_INVALID : Z := 0xffff.

(** [AccessMechanism] *)
Class AccessMechanism (St : Type) := {
  am_Read : DeviceAddress -> Z -> Z -> M St Z;
  am_Write : DeviceAddress -> Z -> Z -> Z -> M St unit
}.

(** ** Access through ports *)
Module Legacy.
Definition CONFIG_ADDRESS : Z := 0x0cf8.
Definition CONFIG_DATA : Z := 0x0cfc.
(** The two ports: the address that was written last, and the double words behind it. *)
Record Ports := mkPorts { latch : Z; dwords : Z -> Z }.
Definition Out (port value : Z) : M Ports unit := fun s =>
  if port =? CONFIG_ADDRESS then Ret (mkPorts value (dwords s)) tt
  else if port =? CONFIG_DATA then Ret (mkPorts (latch s) (fun a => if a =? latch s then value else dwords s a)) tt
  else Ret s tt.
Definition In (port : Z) : M Ports Z := fun s => Ret s (if port =? CONFIG_DATA then u32 (dwords s (latch s)) else latch s).

Definition config_address (dev : DeviceAddress) (offset : Z) : Z :=
  u32 ((1 .<< 31) .| Z.ldiff offset 3 .| (Function_ dev .<< 8) .| (Slot dev .<< 11) .| (BusNumber dev .<< 16)).
Definition Read (dev : DeviceAddress) (offset accessSize : Z) : M Ports Z :=
  _ ← Out CONFIG_ADDRESS (config_address dev offset);
  data ← In CONFIG_DATA;
  let data := data .>> ((offset .& 3) .<< 3) in
  mret (if accessSize =? 1 then data .& 0xff else if accessSize =? 2 then data .& 0xffff else if accessSize =? 4 then data else 0).
(** The new value goes to the port of the address. *)
Definition Write (dev : DeviceAddress) (offset value accessSize : Z) : M Ports unit :=
  _ ← Out CONFIG_ADDRESS (config_address dev offset);
  oldVal ← In CONFIG_DATA;
  let mask := if accessSize =? 1 then 0xff else if accessSize =? 2 then 0xffff else if accessSize =? 4 then 0xffffffff else 0 in
  let bitOffset := (offset .& 3) .<< 3 in
  let value := u32 ((value .& mask) .<< bitOffset) in
  let oldVal := Z.ldiff oldVal (u32 (mask .<< bitOffset)) .| value in
  _ ← Out CONFIG_ADDRESS (config_address dev offset);
  Out CONFIG_ADDRESS oldVal.
End Legacy.
#[export] Instance legacy_access : AccessMechanism Legacy.Ports := {| am_Read := Legacy.Read; am_Write := Legacy.Write |}.

(** ** Access through memory *)
Module ECAM.
(** The mapped functions, and the memory the configuration space is mapped to, byte by byte. *)
Record Ecam := mkEcam { m_Base : Z; m_BusStart : Z; m_Mappings : gset Z; memory : Z -> Z }.
Definition physical (dev : DeviceAddress) (e : Ecam) : Z :=
  u64 (m_Base e + ((BusNumber dev - m_BusStart e) .<< 20)) .| (Slot dev .<< 15) .| (Function_ dev .<< 12).
(** Functions are mapped where they are. *)
Definition GetAddress (dev : DeviceAddress) (offset : Z) : M Ecam Z := fun e =>
  let phys := physical dev e in
  Ret (mkEcam (m_Base e) (m_BusStart e) ({[phys]} ∪ m_Mappings e) (memory e)) (u64 (phys + offset)).
Definition bytes_of (e : Ecam) (addr : Z) (n : nat) : Z := foldr (fun i acc => memory e (addr + Z.of_nat i) .| (acc .<< 8)) 0 (seq 0 n).
Definition store (e : Ecam) (addr value : Z) (n : nat) : Ecam :=
  mkEcam (m_Base e) (m_BusStart e) (m_Mappings e)
    (fun a => if (addr <=? a) && (a <? addr + Z.of_nat n) then (value .>> (8 * (a - addr))) .& 0xff else memory e a).
Definition Read (dev : DeviceAddress) (offset accessSize : Z) : M Ecam Z :=
  addr ← GetAddress dev offset;
  if bool_decide (accessSize = 1 \/ accessSize = 2 \/ accessSize = 4) then gets (fun e => bytes_of e addr (Z.to_nat accessSize)) else panic.
Definition Write (dev : DeviceAddress) (offset value accessSize : Z) : M Ecam unit :=
  addr ← GetAddress dev offset;
  if bool_decide (accessSize = 1 \/ accessSize = 2 \/ accessSize = 4) then update (fun e => store e addr value (Z.to_nat accessSize)) else panic.
End ECAM.
#[export] Instance ecam_access : AccessMechanism ECAM.Ecam := {| am_Read := ECAM.Read; am_Write := ECAM.Write |}.

Section PCI.
Context {St : Type} {AM : AccessMechanism St}.

Fixpoint foldM {A B} (f : B -> A -> M St B) (b : B) (l : list A) : M St B :=
  match l with [] => mret b | a :: l => b ← f b a; foldM f b l end.

(** ** Buses *)
Inductive Bus := mkBus (m_Domain m_Bus : Z) (m_AvailableFunctions : list DeviceAddress) (m_ChildBridges : list Bus).
Definition m_Domain (b : Bus) : Z := match b with mkBus d _ _ _ => d end.
Definition m_Bus (b : Bus) : Z := match b with mkBus _ n _ _ => n end.
Definition m_AvailableFunctions (b : Bus) : list DeviceAddress := match b with mkBus _ _ f _ => f end.
Definition m_ChildBridges (b : Bus) : list Bus := match b with mkBus _ _ _ c => c end.
Definition Bus_Address (b : Bus) : DeviceAddress := mkAddress (m_Domain b) (m_Bus b) 0 0.
Definition add_function (a : DeviceAddress) (b : Bus) : Bus := mkBus (m_Domain b) (m_Bus b) (m_AvailableFunctions b ++ [a]) (m_ChildBridges b).
Definition add_bridge (c b : Bus) : Bus := mkBus (m_Domain b) (m_Bus b) (m_AvailableFunctions b) (m_ChildBridges b ++ [c]).

Section Detection.
(** [Bus::DetectDevices] of a bus behind a bridge, and the domain of the host controller. *)
Variable detect : Bus -> M St Bus.
Variable domain : Z.

(** [for (u8 bus = secondaryBus; bus <= subordinateBus; ++bus)]: below 255 the loop ends within 256
    turns.  The probe of the bus is addressed [{0, 0, bus}]: bus 0, slot [bus].  The constructor
    detects the devices of the new bus, and they are detected once more. *)
Fixpoint child_buses (turns : nat) (bus subordinateBus : Z) (b : Bus) : M St Bus :=
  if subordinateBus <? bus then mret b else
  match turns with
  | O => diverges
  | S turns =>
      vendor ← am_Read (mkAddress 0 0 bus 0) eVendorID 2;
      if vendor =? PCI_INVALID then child_buses turns (u8 (bus + 1)) subordinateBus b else
      bridge ← detect (mkBus (u16 domain) bus [] []);
      bridge ← detect bridge;
      child_buses turns (u8 (bus + 1)) subordinateBus (add_bridge bridge b)
  end.
Definition EnumerateFunction (address : DeviceAddress) (b : Bus) : M St Bus :=
  _ ← am_Read address eClassID 1;
  _ ← am_Read address eSubClassID 1;
  vendorID ← am_Read address eVendorID 2;
  if vendorID =? PCI_INVALID then mret b else
  _ ← am_Read address eDeviceID 2;
  header ← am_Read address eHeaderType 1;
  let headerType := header .& 0x7f in
  b ← (if headerType =? 0 then mret (add_function address b)
       else if headerType =? 1 then
         secondaryBus ← am_Read address eSecondaryBus 1;
         subordinateBus ← am_Read address eSubordinateBus 1;
         child_buses 256 secondaryBus subordinateBus b
       else mret b);
  command ← am_Read address eCommand 2;
  _ ← am_Write address eCommand (command .| 0x400) 2;
  mret b.
Definition detect_function (slot : Z) (b : Bus) (function : Z) : M St Bus :=
  let address := mkAddress (m_Domain b) (m_Bus b) slot function in
  vendor ← am_Read address eVendorID 2;
  if negb (vendor =? PCI_INVALID) then EnumerateFunction address b else mret b.
Definition detect_slot (b : Bus) (slot : Z) : M St Bus :=
  let address := mkAddress (m_Domain b) (m_Bus b) slot 0 in
  vendorID ← am_Read address eVendorID 2;
  if vendorID =? PCI_INVALID then mret b else
  headerType ← am_Read address eHeaderType 1;
  b ← EnumerateFunction address b;
  if headerType .& 0x80 =? 0 then mret b else foldM (detect_function slot) b (seqZ 1 7).
End Detection.

(** [depth]: nesting of bridges. *)
Fixpoint DetectDevices (depth : nat) (domain : Z) (b : Bus) : M St Bus :=
  match depth with
  | O => diverges
  | S depth => foldM (detect_slot (DetectDevices depth domain) domain) b (seqZ 0 32)
  end.
Definition new_Bus (depth : nat) (domain number : Z) : M St Bus := DetectDevices depth domain (mkBus (u16 domain) number [] []).

(** [Bus::Enumerate]: the calls of the enumerator, until it answers true. *)
Fixpoint enumerate {S} (enumerator : DeviceAddress -> M S bool) (l : list DeviceAddress) : M S bool :=
  match l with
  | [] => mret false
  | a :: l => stop ← enumerator a; if (stop : bool) then mret true else enumerate enumerator l
  end.
Definition Enumerate {S} (enumerator : DeviceAddress -> M S bool) (b : Bus) : M S bool :=
  enumerate enumerator (m_AvailableFunctions b ++ (Bus_Address <$> m_ChildBridges b)).

(** ** Devices *)
Record Bar := mkBar { Base : Z; Address : Z; Size : Z; IsMMIO : bool; DisableCache : bool; Is64Bit : bool }.
Record DeviceID := mkID { VendorID : Z; ID_ : Z; SubsystemID : Z; SubsystemVendorID : Z; Class_ : Z; Subclass : Z }.
Definition ANY_ID : Z := -1.
Record Capability := mkCapability { cap_ID : Z; cap_Offset : Z }.
Definition eMSI : Z := 0x05.
Definition eMSIx : Z := 0x11.
Definition ePowerManagement : Z := 0x01.
Record MsixState := mkMsix { m_MsixOffset : Z; m_MsixMessages : Z; m_MsixTableBar : Z; m_MsixTableOffset : Z; m_MsixPendingBar : Z; m_MsixPendingOffset : Z }.
Record Device := mkDevice { m_Address : DeviceAddress; m_ID : DeviceID; m_Capabilities : list Capability; m_MsiOffset : option Z; m_Msix : option MsixState }.

(** [Device::ReadCapabilities] *)
Fixpoint capabilities_loop (address : DeviceAddress) (ttl : nat) (offset : Z) : M St (list Capability) :=
  match ttl with
  | O => mret []
  | S ttl =>
      if offset <? 0x40 then mret [] else
      header ← am_Read address offset 2;
      rest ← capabilities_loop address ttl ((header .>> 8) .& 0xfc);
      mret (mkCapability (header .& 0xff) offset :: rest)
  end.
Definition ReadCapabilities (address : DeviceAddress) : M St (list Capability) :=
  offset ← am_Read address eCapabilitiesPointer 1; capabilities_loop address 48 offset.

(** One capability in the constructor. *)
Definition note_capability (d : Device) (c : Capability) : M St Device :=
  if cap_ID c =? eMSI then mret (mkDevice (m_Address d) (m_ID d) (m_Capabilities d) (Some (u8 (cap_Offset c))) (m_Msix d))
  else if cap_ID c =? eMSIx then
    control ← am_Read (m_Address d) (cap_Offset c + 0x02) 2;
    table ← am_Read (m_Address d) (cap_Offset c + 0x04) 4;
    pending ← am_Read (m_Address d) (cap_Offset c + 0x08) 4;
    mret (mkDevice (m_Address d) (m_ID d) (m_Capabilities d) (m_MsiOffset d)
      (Some (mkMsix (u8 (cap_Offset c)) (control .& 0x7ff) (table .& 7) (u32 ((table .>> 3) .<< 3)) (pending .& 7) (u32 ((pending .>> 3) .<< 3)))))
  else mret d.
Definition new_Device (address : DeviceAddress) : M St Device :=
  vendor ← am_Read address eVendorID 2;
  id ← am_Read address eDeviceID 2;
  subsystem ← am_Read address eSubsystemID 2;
  subsystemVendor ← am_Read address eSubsystemVendorID 2;
  class ← am_Read address eClassID 1;
  subclass ← am_Read address eSubClassID 1;
  status ← am_Read address eStatus 2;
  let d := mkDevice address (mkID vendor id subsystem subsystemVendor class subclass) [] None None in
  if status .& 0x10 =? 0 then mret d else
  capabilities ← ReadCapabilities address;
  foldM note_capability (mkDevice address (m_ID d) capabilities None None) capabilities.

Definition FindCapability (id : Z) (d : Device) : option Capability := List.find (fun c => cap_ID c =? id) (m_Capabilities d).

(** [Device::SendCommand] *)
Definition eEnableIOSpace : Z := 0x1.
Definition eEnableMMIO : Z := 0x2.
Definition eEnableBusMaster : Z := 0x4.
Definition eInterruptDisable : Z := 0x400.
Definition SendCommand (address : DeviceAddress) (cmd : Z) (flag : bool) : M St unit :=
  command ← am_Read address eCommand 2;
  am_Write address eCommand (if flag then command .| cmd else Z.ldiff command cmd) 2.
Definition EnableIOSpace (a : DeviceAddress) : M St unit := SendCommand a eEnableIOSpace true.
Definition DisableIOSpace (a : DeviceAddress) : M St unit := SendCommand a eEnableIOSpace false.
Definition EnableMemorySpace (a : DeviceAddress) : M St unit := SendCommand a eEnableMMIO true.
Definition DisableMemorySpace (a : DeviceAddress) : M St unit := SendCommand a eEnableMMIO false.
Definition EnableBusMastering (a : DeviceAddress) : M St unit := _ ← EnableIOSpace a; SendCommand a eEnableBusMaster true.
Definition DisableBusMastering (a : DeviceAddress) : M St unit := SendCommand a eEnableBusMaster false.
Definition EnableInterrupts (a : DeviceAddress) : M St unit := SendCommand a eInterruptDisable false.
Definition DisableInterrupts (a : DeviceAddress) : M St unit := SendCommand a eInterruptDisable true.

(** States D0 to D3 as 0 to 3; the current state is always D0. *)
Definition EIO : Z := 5.
Definition ENOSYS : Z := 38.
Definition SetPowerState (state : Z) (d : Device) : M St (Z + unit) :=
  let state := if 3 <=? state then 3 else state in
  if 0 <? state then mret (inl EINVAL)
  else if state =? 0 then mret (inr tt)
  else
    match FindCapability ePowerManagement d with
    | None => mret (inl EIO)
    | Some c =>
        if (state =? 1) || (state =? 2) then _ ← am_Read (m_Address d) (cap_Offset c) 2; mret (if state =? 1 then inl EIO else inl ENOSYS)
        else mret (inl ENOSYS)
    end.

Definition id_matches (id own : DeviceID) : bool :=
  let ok (f : DeviceID -> Z) := (f id =? ANY_ID) || (f id =? f own) in
  ok VendorID && ok ID_ && ok SubsystemID && ok SubsystemVendorID && ok Class_ && ok Subclass.
Definition MatchID (idTable : list DeviceID) (d : Device) : option DeviceID := List.find (fun id => id_matches id (m_ID d)) idTable.

(** [Device::GetBar].  In [bar & ~0b1111] the register is not used: the structure converts to false. *)
Definition GetBar (address : DeviceAddress) (index : Z) : M St Bar :=
  let bar := mkBar 0 0 0 false false false in
  if 5 <? index then mret bar else
  let offset := 0x10 + index * 4 in
  baseLow ← am_Read address offset 4;
  _ ← am_Write address offset 0xffffffff 4;
  sizeLow ← am_Read address offset 4;
  _ ← am_Write address offset baseLow 4;
  if baseLow .& 1 =? 1 then
    let base := Z.ldiff baseLow 3 in
    mret (mkBar base base (u32 (Z.lnot (Z.ldiff sizeLow 3) + 1) .& 0xffff) false false false)
  else
    let type := (baseLow .>> 1) .& 3 in
    if type =? 2 then
      let offsetH := offset + 4 in
      barH ← am_Read address offsetH 4;
      _ ← am_Write address offsetH 0xffffffff 4;
      sizeHigh ← am_Read address offsetH 4;
      _ ← am_Write address offsetH barH 4;
      let addr := u64 (barH .<< 32) .| Z.ldiff 0 15 in
      mret (mkBar 0 addr (u32 (Z.lnot (Z.ldiff sizeLow 15) + 1)) true false true)
    else
      let addr := if type =? 0 then Z.ldiff baseLow 15 else 0 in
      mret (mkBar 0 addr (u32 (Z.lnot (Z.ldiff sizeLow 15) + 1)) true false false).

(** [Device::MsiSet]: the address and the data are written as 16 bits; [garbage] are the fields of
    the two structures that are not set. *)
Definition MsiSet (garbage : Z) (cpuid vector : Z) (d : Device) : M St bool :=
  match m_MsiOffset d with
  | None => mret false
  | Some off =>
      control ← am_Read (m_Address d) (off + 0x02) 2;
      _ ← Assert ((1 .<< ((control .>> 1) .& 7)) <? 32);
      let address := Z.ldiff garbage (window 12 20) .| ((cpuid .& 0xff) .<< 12) .| (0xfee .<< 20) in
      let data := Z.ldiff garbage (window 0 11) .| (vector .& 0xff) in
      _ ← am_Write (m_Address d) (off + 0x04) (address .& 0xffff) 2;
      _ ← am_Write (m_Address d) (off + (if Z.testbit control 7 then 0x0c else 0x08)) (data .& 0xffff) 2;
      _ ← am_Write (m_Address d) (off + 0x02) (Z.ldiff control (window 4 3) .| 1) 2;
      mret true
  end.

(** ** Host controllers *)
Record IrqRoute := mkRoute { Gsi : Z; RouteDevice : Z; RouteFunction : Z; Pin : Z; EdgeTriggered : bool; ActiveHigh : bool }.
Definition FindIrqRoute (routes : list IrqRoute) (device pin : Z) : option IrqRoute :=
  List.find (fun r => (RouteDevice r =? device) && (Pin r =? pin)) routes.

(** [HostController::Initialize] with its access mechanism chosen; the root buses. *)
Fixpoint root_functions (depth : nat) (domain : Z) (functions : list Z) : M St (list Bus) :=
  match functions with
  | [] => mret []
  | f :: functions =>
      vendor ← am_Read (mkAddress domain 0 f 0) eVendorID 2;
      if negb (vendor =? PCI_INVALID) then mret [] else
      b ← new_Bus depth domain f;
      rest ← root_functions depth domain functions;
      mret (b :: rest)
  end.
Definition HostController_Initialize (depth : nat) (domain : Z) : M St (list Bus) :=
  header ← am_Read (mkAddress domain 0 0 0) eHeaderType 1;
  if header .& 0x80 =? 0 then b ← new_Bus depth domain 0; mret [b] else root_functions depth domain (seqZ 0 8).

Fixpoint EnumerateRootBus {S} (enumerator : DeviceAddress -> M S bool) (buses : list Bus) : M S bool :=
  match buses with
  | [] => mret false
  | b :: buses => stop ← Enumerate enumerator b; if (stop : bool) then mret true else EnumerateRootBus enumerator buses
  end.

(** [PCI::RegisterDriver]: the address and the entry of the table the driver is probed with. *)
Definition match_device (ids : list DeviceID) (a : DeviceAddress) : M (St * option (DeviceAddress * DeviceID)) bool := fun '(s, found) =>
  match new_Device a s with
  | Ret s d => match MatchID ids d with Some id => Ret (s, Some (a, id)) true | None => Ret (s, found) false end
  | Halted s => Halted (s, found)
  | Panic => Panic
  | Diverges => Diverges
  end.
Definition RegisterDriver (ids : list DeviceID) (buses : list Bus) : M (St * option (DeviceAddress * DeviceID)) bool := EnumerateRootBus (match_device ids) buses.
End PCI.
