(* ===== verification/PCITheorems.v ===== *)
(** * PCI: theorems

    Detection finds the functions of a bus; base address registers and capabilities are read as the
    hardware has them; and defects: devices behind bridges, hosts with several functions, 64-bit
    base addresses, writes through the ports, message signalled interrupts. *)

From Stdlib Require Import ZArith Lia Bool.
From stdpp Require Import base gmap list numbers strings.
From S2P Require Import Prelude Prism Posix Disk Effects VFS Initrd PCI.

(** * PCI: the configuration space as an abstract object

    What the two access mechanisms promise to their clients ([ConfigLaws]), that both keep it, and
    rules to run programs that use them. *)

(** A register that is aligned to its size. *)
Definition inside (r n : Z) : Prop := 0 <= r /\ r + n <= 256 /\ (n = 1 \/ n = 2 \/ n = 4) /\ r mod n = 0.

(** The value of a register, and that accesses change only what they write. *)
Class ConfigLaws (St : Type) {AM : AccessMechanism St} := {
  good : St -> Prop;
  valid : DeviceAddress -> Prop;
  view : St -> DeviceAddress -> Z -> Z -> Z;
  read_law a r n s : good s -> valid a -> inside r n -> exists s', am_Read a r n s = Ret s' (view s a r n) /\ good s'
    /\ forall a' r' n', valid a' -> inside r' n' -> view s' a' r' n' = view s a' r' n';
  write_law a r v n s : good s -> valid a -> inside r n -> exists s', am_Write a r v n s = Ret s' tt /\ good s'
    /\ forall a' r' n', valid a' -> inside r' n' -> a' <> a \/ r' + n' <= r \/ r + n <= r' -> view s' a' r' n' = view s a' r' n'
}.

(** ** Running programs *)
Section Wp.
Context {St : Type}.
Definition wp {A} (m : M St A) (s : St) (Q : St -> A -> Prop) : Prop := exists s' a, m s = Ret s' a /\ Q s' a.
Lemma wp_ret {A} (a : A) s (Q : St -> A -> Prop) : Q s a -> wp (mret a) s Q.
Proof. intros H. now exists s, a. Qed.
Lemma wp_bind {A B} (m : M St A) (k : A -> M St B) s (Q : St -> B -> Prop) : wp m s (fun s' a => wp (k a) s' Q) -> wp (m ≫= k) s Q.
Proof. intros (s' & a & E & s2 & b & E2 & H). exists s2, b. split; [|exact H]. now rewrite (bind_ret _ _ _ _ _ E). Qed.
Lemma wp_mono {A} (m : M St A) s (P Q : St -> A -> Prop) : wp m s P -> (forall s' a, P s' a -> Q s' a) -> wp m s Q.
Proof. intros (s' & a & E & H) HPQ. exists s', a. auto. Qed.
End Wp.

Section Rules.
Context {St : Type} {AM : AccessMechanism St} {CL : ConfigLaws St}.

(** Nothing has changed but the command registers. *)
Definition same (s s' : St) : Prop := forall a r n, valid a -> inside r n -> r + n <= eCommand \/ eCommand + 2 <= r -> view s' a r n = view s a r n.
#[export] Instance same_equiv : Equivalence same.
Proof.
  split; [now intros s|intros s s' H a r n Ha Hr Hc; symmetry; now apply H|].
  intros s1 s2 s3 H1 H2 a r n Ha Hr Hc. rewrite (H2 a r n), (H1 a r n); trivial.
Qed.

(** Reading, from a state in which nothing but command registers differs from [s0]. *)
Lemma wp_read s0 a r n s (Q : St -> Z -> Prop) : good s -> same s0 s -> valid a -> inside r n ->
  (forall s' v, good s' -> same s0 s' -> (r + n <= eCommand \/ eCommand + 2 <= r -> v = view s0 a r n) -> Q s' v) -> wp (am_Read a r n) s Q.
Proof.
  intros Hg Hs Ha Hr HQ. destruct (read_law a r n s Hg Ha Hr) as (s' & E & Hg' & Hv). exists s', (view s a r n). split; [exact E|].
  apply HQ; [exact Hg'| |intros Hc; now apply Hs]. rewrite Hs. intros a' r' n' Ha' Hr' _. now apply Hv.
Qed.
Lemma wp_write_command s0 a v s (Q : St -> unit -> Prop) : good s -> same s0 s -> valid a -> (forall s', good s' -> same s0 s' -> Q s' tt) -> wp (am_Write a eCommand v 2) s Q.
Proof.
  intros Hg Hs Ha HQ. destruct (write_law a eCommand v 2 s Hg Ha) as (s' & E & Hg' & Hv); [repeat split; auto; unfold eCommand; lia|].
  exists s', tt. split; [exact E|]. apply HQ; trivial. rewrite Hs. intros a' r' n' Ha' Hr' Hc. apply Hv; trivial. lia.
Qed.
End Rules.

(** Addresses of registers that are known numbers. *)
Ltac register := match goal with |- inside ?r ?n => unfold r; repeat split; auto; try lia; reflexivity end.
(** Run past a read of a known register. *)
Ltac read_reg s0 := let s := fresh "s" in let Hv := fresh "Hv" in
  apply wp_bind, (wp_read s0); [trivial|trivial|solve [auto]|register|]; intros s ? ? ? Hv;
  try (rewrite Hv by (unfold eVendorID, eDeviceID, eClassID, eSubClassID, eHeaderType, eCommand; lia)); clear Hv.

(** ** The mechanism of the ports *)
#[export] Program Instance legacy_laws : ConfigLaws Legacy.Ports := {|
  good s := True;
  valid a := True;
  view s a r n := (u32 (Legacy.dwords s (Legacy.config_address a r)) .>> ((r .& 3) .<< 3)) .& Z.ones (8 * n)
|}.
Next Obligation.
  cbn. intros a r n s _ _ (Hr & Hr' & Hn & _). exists (Legacy.mkPorts (Legacy.config_address a r) (Legacy.dwords s)). split; [|split; [trivial|reflexivity]].
  unfold Legacy.Read. set (k := ((r .& 3) .<< 3)).
  assert (Hk : 0 <= k) by (unfold k; rewrite Z.shiftl_nonneg; apply Z.land_nonneg; lia).
  unfold mbind, M_bind, Legacy.Out, Legacy.In. cbn [Legacy.latch Legacy.dwords Z.eqb Legacy.CONFIG_ADDRESS Legacy.CONFIG_DATA Pos.eqb]. unfold mret, M_ret. f_equal.
  destruct Hn as [->|[->| ->]]; cbn [Z.eqb Pos.eqb]; try reflexivity.
  change (8 * 4) with 32. rewrite Z.land_ones by lia. symmetry. apply Z.mod_small.
  set (x := Legacy.dwords s _). pose proof (Z.mod_pos_bound x (2 ^ 32) ltac:(lia)) as B. fold (u32 x) in B. change (x mod 2 ^ 32) with (u32 x) in B.
  rewrite Z.shiftr_div_pow2 by lia. split; [apply Z.div_pos; [lia|apply Z.pow_pos_nonneg; lia]|].
  apply (Z.le_lt_trans _ (u32 x)); [|lia]. apply Z.div_le_upper_bound; [apply Z.pow_pos_nonneg; lia|]. pose proof (Z.pow_pos_nonneg 2 k ltac:(lia) Hk). nia.
Qed.
Next Obligation.
  cbn. intros a r v n s _ _ _. eexists. split; [|split; [trivial|]].
  - unfold Legacy.Write, mbind, M_bind, Legacy.Out, Legacy.In. cbn [Z.eqb Legacy.CONFIG_ADDRESS Legacy.CONFIG_DATA Pos.eqb]. reflexivity.
  - intros. reflexivity.
Qed.

(** ** The mechanism of the mapped memory *)
Section Ecam.
Variables d base start : Z.
Hypothesis Hbase : 0 <= base /\ base mod 2 ^ 20 = 0 /\ base + 2 ^ 28 <= 2 ^ 64.
Hypothesis Hstart : 0 <= start.

Definition ecam_valid (a : DeviceAddress) : Prop := Domain a = d /\ start <= BusNumber a < 256 /\ 0 <= Slot a < 32 /\ 0 <= Function_ a < 8.
Definition ecam_good (e : ECAM.Ecam) : Prop := ECAM.m_Base e = base /\ ECAM.m_BusStart e = start.
Definition ecam_address (a : DeviceAddress) : Z := base + (BusNumber a - start) * 2 ^ 20 + Slot a * 2 ^ 15 + Function_ a * 2 ^ 12.

(** Every function has 4096 bytes of its own. *)
Lemma ecam_physical e a : ecam_good e -> ecam_valid a -> ECAM.physical a e = ecam_address a.
Proof.
  intros [Eb Es] (_ & Hb & Hs & Hf). unfold ECAM.physical, ecam_address. rewrite Eb, Es, !Z.shiftl_mul_pow2 by lia. destruct Hbase as (H0 & Hm & Hl).
  set (x := base + (BusNumber a - start) * 2 ^ 20). assert (Hx : u64 x = x). { unfold u64, wrap. apply Z.mod_small. subst x. lia. }
  assert (Hx0 : x mod 2 ^ 20 = 0) by (subst x; rewrite Z.mod_add by lia; exact Hm).
  rewrite Hx, (lor_add x _ 20), (lor_add (x + Slot a * 2 ^ 15) _ 15); try lia.
  - apply Z.mod_divide in Hx0; [|lia]. destruct Hx0 as [q ->]. apply Z.mod_divide; [lia|]. exists (q * 2 ^ 5 + Slot a). lia.
Qed.
Lemma ecam_apart a a' r n r' n' : ecam_valid a -> ecam_valid a' -> inside r n -> inside r' n' -> a' <> a \/ r' + n' <= r \/ r + n <= r' ->
  ecam_address a' + r' + n' <= ecam_address a + r \/ ecam_address a + r + n <= ecam_address a' + r'.
Proof.
  destruct a as [d1 b1 s1 f1], a' as [d2 b2 s2 f2]. unfold ecam_valid, inside, ecam_address. cbn [Domain BusNumber Slot Function_].
  intros (-> & Hb & Hs & Hf) (-> & Hb' & Hs' & Hf') Hr Hr' [Hne|H]; [|].
  - assert (b1 <> b2 \/ s1 <> s2 \/ f1 <> f2) by (destruct (Z.eq_dec b1 b2), (Z.eq_dec s1 s2), (Z.eq_dec f1 f2); subst; intuition congruence). lia.
  - destruct (Z.eq_dec b1 b2), (Z.eq_dec s1 s2), (Z.eq_dec f1 f2); subst; lia.
Qed.

Lemma bytes_of_ext e e' addr n : (forall i, (i < n)%nat -> ECAM.memory e' (addr + Z.of_nat i) = ECAM.memory e (addr + Z.of_nat i)) -> ECAM.bytes_of e' addr n = ECAM.bytes_of e addr n.
Proof.
  unfold ECAM.bytes_of. intros H. assert (G : forall l, Forall (fun i => (i < n)%nat) l ->
    foldr (fun i acc => ECAM.memory e' (addr + Z.of_nat i) .| (acc .<< 8)) 0 l = foldr (fun i acc => ECAM.memory e (addr + Z.of_nat i) .| (acc .<< 8)) 0 l).
  { induction 1 as [|i l Hi _ IH]; [reflexivity|]. cbn [foldr]. now rewrite IH, H. }
  apply G, list.Forall_forall. intros i Hi. apply elem_of_seq in Hi. lia.
Qed.
Lemma ecam_GetAddress a r e : ecam_good e -> ecam_valid a -> 0 <= r <= 256 -> exists e', ECAM.GetAddress a r e = Ret e' (ecam_address a + r) /\ ecam_good e' /\ ECAM.memory e' = ECAM.memory e.
Proof.
  intros Hg Ha Hr. exists (ECAM.mkEcam (ECAM.m_Base e) (ECAM.m_BusStart e) ({[ecam_address a]} ∪ ECAM.m_Mappings e) (ECAM.memory e)).
  split; [|split; [exact Hg|reflexivity]]. unfold ECAM.GetAddress. rewrite ecam_physical by trivial. f_equal.
  unfold u64, wrap. apply Z.mod_small. destruct Ha as (_ & Hb & Hs & Hf). unfold ecam_address. lia.
Qed.

#[export] Program Instance ecam_laws : ConfigLaws ECAM.Ecam := {|
  good := ecam_good;
  valid := ecam_valid;
  view e a r n := ECAM.bytes_of e (ecam_address a + r) (Z.to_nat n)
|}.
Next Obligation.
  intros a r n e Hg Ha Hr. destruct (ecam_GetAddress a r e Hg Ha) as (e' & E & Hg' & Em); [destruct Hr; lia|]. exists e'. cbn. unfold ECAM.Read. rewrite (bind_ret _ _ _ _ _ E).
  rewrite bool_decide_eq_true_2 by (destruct Hr as (_ & _ & H & _); lia). unfold gets. split_and!; trivial.
  - f_equal. apply bytes_of_ext. intros i _. now rewrite Em.
  - intros. apply bytes_of_ext. intros i _. now rewrite Em.
Qed.
Next Obligation.
  intros a r v n e Hg Ha Hr. destruct (ecam_GetAddress a r e Hg Ha) as (e' & E & Hg' & Em); [destruct Hr; lia|].
  exists (ECAM.store e' (ecam_address a + r) v (Z.to_nat n)). cbn. unfold ECAM.Write. rewrite (bind_ret _ _ _ _ _ E).
  rewrite bool_decide_eq_true_2 by (destruct Hr as (_ & _ & H & _); lia). split_and!; trivial.
  intros a' r' n' Ha' Hr' Hd. apply bytes_of_ext. intros i Hi. cbn [ECAM.store ECAM.memory]. rewrite Em.
  destruct (ecam_apart a a' r n r' n' Ha Ha' Hr Hr' Hd); destruct Hr as (_ & _ & Hn & _), Hr' as (_ & _ & Hn' & _);
    (destruct (Z.leb_spec (ecam_address a + r) (ecam_address a' + r' + Z.of_nat i)); [|reflexivity]; destruct (Z.ltb_spec (ecam_address a' + r' + Z.of_nat i) (ecam_address a + r + Z.of_nat (Z.to_nat n))); [lia|reflexivity]).
Qed.
End Ecam.

(** ** PCI: theorems *)
Section Detection.
Context {St : Type} {AM : AccessMechanism St} {CL : ConfigLaws St}.
Implicit Types (s : St) (a : DeviceAddress) (b : Bus).

Definition present s a : bool := negb (view s a eVendorID 2 =? PCI_INVALID).
Definition header s a : Z := view s a eHeaderType 1.
(** The functions of a slot that answer. *)
Definition slot_functions s (d n slot : Z) : list DeviceAddress :=
  let at_ f := mkAddress d n slot f in
  if present s (at_ 0) then at_ 0 :: (if header s (at_ 0) .& 0x80 =? 0 then [] else List.filter (present s) (at_ <$> seqZ 1 7)) else [].
Definition bus_functions s (d n : Z) : list DeviceAddress := seqZ 0 32 ≫= slot_functions s d n.

Lemma same_present s s' a : same s s' -> valid a -> present s' a = present s a.
Proof. intros H Ha. unfold present. rewrite (H a eVendorID 2); trivial; [register|unfold eVendorID, eCommand; lia]. Qed.
Lemma same_header s s' a : same s s' -> valid a -> header s' a = header s a.
Proof. intros H Ha. unfold header. rewrite (H a eHeaderType 1); trivial; [register|unfold eHeaderType, eCommand; lia]. Qed.

Variable detect : Bus -> M St Bus.
Variables domain d n : Z.
(** Addresses of the bus; none of its functions is a bridge. *)
Hypothesis valid_functions : forall slot f, 0 <= slot < 32 -> 0 <= f < 8 -> valid (mkAddress d n slot f).
Definition no_bridges s : Prop := forall slot f, 0 <= slot < 32 -> 0 <= f < 8 -> present s (mkAddress d n slot f) = true -> header s (mkAddress d n slot f) .& 0x7f = 0.
Lemma no_bridges_same s s' : same s s' -> no_bridges s -> no_bridges s'.
Proof. intros H Hn slot f Hs Hf Hp. rewrite (same_header s) by auto. rewrite (same_present s) in Hp by auto. auto. Qed.
Definition with_functions (l : list DeviceAddress) : Bus := mkBus d n l [].

Lemma EnumerateFunction_device s0 s a l : good s -> same s0 s -> valid a -> present s0 a = true -> header s0 a .& 0x7f = 0 ->
  wp (EnumerateFunction detect domain a (with_functions l)) s (fun s' b => good s' /\ same s0 s' /\ b = with_functions (l ++ [a])).
Proof.
  intros Hg Hs Ha Hp Hh. unfold EnumerateFunction. do 3 read_reg s0. unfold present in Hp. apply negb_true_iff in Hp. rewrite Hp.
  do 2 read_reg s0. unfold header in Hh. rewrite Hh. apply wp_bind, wp_ret. read_reg s0.
  apply wp_bind, (wp_write_command s0); trivial. intros sn Hgn Hsn. apply wp_ret. auto.
Qed.
Lemma detect_function_spec s0 s slot f l : good s -> same s0 s -> no_bridges s0 -> 0 <= slot < 32 -> 0 <= f < 8 ->
  wp (detect_function detect domain slot (with_functions l) f) s (fun s' b => good s' /\ same s0 s' /\
    b = with_functions (l ++ if present s0 (mkAddress d n slot f) then [mkAddress d n slot f] else [])).
Proof.
  intros Hg Hs Hn Hslot Hf. unfold detect_function. cbn [m_Domain m_Bus with_functions]. read_reg s0. fold (present s0 (mkAddress d n slot f)).
  destruct (present s0 (mkAddress d n slot f)) eqn:Hp.
  - apply EnumerateFunction_device; auto.
  - apply wp_ret. now rewrite app_nil_r.
Qed.
Lemma detect_functions_spec s0 slot fs : no_bridges s0 -> 0 <= slot < 32 -> Forall (fun f => 0 <= f < 8) fs -> forall s l, good s -> same s0 s ->
  wp (foldM (detect_function detect domain slot) (with_functions l) fs) s (fun s' b => good s' /\ same s0 s' /\
    b = with_functions (l ++ List.filter (present s0) (mkAddress d n slot <$> fs))).
Proof.
  intros Hn Hslot. induction 1 as [|f fs Hf _ IH]; intros s l Hg Hs; cbn [foldM].
  - apply wp_ret. cbn. now rewrite app_nil_r.
  - apply wp_bind. eapply wp_mono; [now apply (detect_function_spec s0)|]. cbn beta. intros s' b (Hg' & Hs' & ->).
    eapply wp_mono; [now apply IH|]. cbn beta. intros sn b (Hgn & Hsn & ->). split_and!; trivial. rewrite <- (assoc app). do 2 f_equal.
    cbn [fmap list_fmap List.filter]. now destruct (present s0 (mkAddress d n slot f)).
Qed.
Lemma detect_slot_spec s0 s slot l : good s -> same s0 s -> no_bridges s0 -> 0 <= slot < 32 ->
  wp (detect_slot detect domain (with_functions l) slot) s (fun s' b => good s' /\ same s0 s' /\ b = with_functions (l ++ slot_functions s0 d n slot)).
Proof.
  intros Hg Hs Hn Hslot. assert (Ha : valid (mkAddress d n slot 0)) by (apply valid_functions; lia). unfold detect_slot, slot_functions. cbn [m_Domain m_Bus with_functions].
  read_reg s0. destruct (present s0 (mkAddress d n slot 0)) eqn:Hp; pose proof Hp as Hp'; unfold present in Hp'; [apply negb_true_iff in Hp'|apply negb_false_iff in Hp']; rewrite Hp'.
  2:{ apply wp_ret. now rewrite app_nil_r. }
  read_reg s0. fold (header s0 (mkAddress d n slot 0)). apply wp_bind. eapply wp_mono; [apply (EnumerateFunction_device s0); trivial; apply Hn; trivial; lia|].
  cbn beta. intros s' b (Hg' & Hs' & ->). destruct (_ =? 0).
  - now apply wp_ret.
  - eapply wp_mono; [apply (detect_functions_spec s0); trivial; apply Forall_seqZ; lia|]. cbn beta. intros sn b (Hgn & Hsn & ->). split_and!; trivial. now rewrite <- (assoc app).
Qed.
Lemma detect_slots_spec s0 slots : no_bridges s0 -> Forall (fun slot => 0 <= slot < 32) slots -> forall s l, good s -> same s0 s ->
  wp (foldM (detect_slot detect domain) (with_functions l) slots) s (fun s' b => good s' /\ same s0 s' /\ b = with_functions (l ++ (slots ≫= slot_functions s0 d n))).
Proof.
  intros Hn. induction 1 as [|slot slots Hslot _ IH]; intros s l Hg Hs; cbn [foldM].
  - apply wp_ret. cbn. now rewrite app_nil_r.
  - apply wp_bind. eapply wp_mono; [now apply (detect_slot_spec s0)|]. cbn beta. intros s' b (Hg' & Hs' & ->).
    eapply wp_mono; [now apply IH|]. cbn beta. intros sn b (Hgn & Hsn & ->). split_and!; trivial. rewrite <- (assoc app). reflexivity.
Qed.
End Detection.

(** On a bus without bridges detection finds exactly the functions that answer, function 0 of a
    slot and, if its header says so, the others, in their order, and changes nothing of the
    configuration space but command registers. *)
Theorem DetectDevices_complete {St : Type} {AM : AccessMechanism St} {CL : ConfigLaws St} (s : St) domain d n depth :
  (forall slot f, 0 <= slot < 32 -> 0 <= f < 8 -> valid (mkAddress d n slot f)) -> good s -> no_bridges d n s ->
  exists s', DetectDevices (1 + depth) domain (mkBus d n [] []) s = Ret s' (mkBus d n (bus_functions s d n) []) /\ same s s'.
Proof.
  intros Hv Hg Hn. destruct (detect_slots_spec (DetectDevices depth domain) domain d n Hv s (seqZ 0 32) Hn ltac:(apply Forall_seqZ; lia) s [] Hg ltac:(reflexivity))
    as (s' & b & E & _ & Hs & ->). exists s'. split; [exact E|exact Hs].
Qed.

(** ** Base address registers *)
Section Bars.
Context {St : Type} {AM : AccessMechanism St} {CL : ConfigLaws St}.
Implicit Types (s : St) (a : DeviceAddress).

(** A register of the hardware that keeps the bits of an address above [k] and has fixed low bits. *)
Definition bar_register a (r k flags : Z) : Prop := forall s v, good s -> exists s', am_Write a r v 4 s = Ret s' tt /\ good s' /\ view s' a r 4 = Z.ldiff v (Z.ones k) .| flags.

Lemma ldiff_ones x k : 0 <= k -> Z.ldiff x (Z.ones k) = x - x mod 2 ^ k.
Proof.
  intros Hk. rewrite Z.ldiff_ones_r, Z.shiftl_mul_pow2, Z.shiftr_div_pow2 by trivial. pose proof (Z.div_mod x (2 ^ k) ltac:(apply Z.pow_nonzero; lia)). lia.
Qed.
Lemma aligned_weaken x k : 4 <= k -> x mod 2 ^ k = 0 -> x mod 2 ^ 4 = 0.
Proof.
  intros Hk Hx. apply Z.mod_divide in Hx; [|lia]. apply Z.mod_divide; [lia|]. etransitivity; [|exact Hx].
  exists (2 ^ (k - 4)). rewrite <- Z.pow_add_r by lia. f_equal. lia.
Qed.
Lemma ldiff_flags x k flags : 4 <= k -> x mod 2 ^ k = 0 -> 0 <= flags < 16 -> Z.ldiff (x .| flags) 15 = x.
Proof.
  intros Hk Hx Hf. pose proof (aligned_weaken x k Hk Hx) as H16.
  rewrite (lor_add x flags 4) by lia. change 15 with (Z.ones 4). rewrite ldiff_ones by lia. rewrite <- Z.add_mod_idemp_l, H16, Z.add_0_l, (Z.mod_small flags) by lia. lia.
Qed.
Lemma sized k : 0 <= k <= 32 -> u32 (Z.lnot (Z.ldiff 0xffffffff (Z.ones k)) + 1) = 2 ^ k mod 2 ^ 32.
Proof.
  intros Hk. rewrite ldiff_ones by lia. change 0xffffffff with (2 ^ 32 - 1). assert (E : (2 ^ 32 - 1) mod 2 ^ k = 2 ^ k - 1).
  { pose proof (Z.pow_pos_nonneg 2 k ltac:(lia) ltac:(lia)). replace (2 ^ 32 - 1) with ((2 ^ k - 1) + (2 ^ (32 - k) - 1) * 2 ^ k).
    - rewrite Z.mod_add by lia. apply Z.mod_small. lia.
    - rewrite Z.mul_sub_distr_r, <- Z.pow_add_r by lia. replace (32 - k + k) with 32 by lia. lia. }
  rewrite E. unfold u32, wrap, Z.lnot. replace (Z.pred (- (2 ^ 32 - 1 - (2 ^ k - 1))) + 1) with (2 ^ k + (-1) * 2 ^ 32) by lia. now rewrite Z.mod_add by lia.
Qed.
Lemma bar_inside i : 0 <= i <= 5 -> inside (0x10 + i * 4) 4.
Proof. intros Hi. repeat split; auto; try lia. rewrite Z.mod_add by lia. reflexivity. Qed.

(** [GetBar] of a 32-bit memory register gives the address it holds and the size of the region
    behind it, and leaves the register as it was. *)
Theorem GetBar_memory s a i k flags base : good s -> valid a -> 0 <= i <= 5 -> bar_register a (0x10 + i * 4) k flags -> 4 <= k < 32 -> flags = 0 \/ flags = 8 ->
  0 <= base < 2 ^ 32 -> base mod 2 ^ k = 0 -> view s a (0x10 + i * 4) 4 = base .| flags ->
  exists s', GetBar a i s = Ret s' (mkBar 0 base (2 ^ k) true false false) /\ good s' /\ view s' a (0x10 + i * 4) 4 = base .| flags.
Proof.
  intros Hg Ha Hi Hbar Hk Hf Hb Hal Hv. set (r := 0x10 + i * 4) in *. unfold GetBar. fold r. destruct (Z.ltb_spec 5 i) as [|_]; [lia|].
  destruct (read_law a r 4 s Hg Ha (bar_inside i Hi)) as (s1 & E1 & Hg1 & H1). rewrite (bind_ret _ _ _ _ _ E1), Hv.
  destruct (Hbar s1 0xffffffff Hg1) as (s2 & E2 & Hg2 & H2). rewrite (bind_ret _ _ _ _ _ E2).
  destruct (read_law a r 4 s2 Hg2 Ha (bar_inside i Hi)) as (s3 & E3 & Hg3 & H3). rewrite (bind_ret _ _ _ _ _ E3), H2.
  destruct (Hbar s3 (base .| flags) Hg3) as (s4 & E4 & Hg4 & H4). rewrite (bind_ret _ _ _ _ _ E4).
  assert (Hlow : forall j, 0 <= j < 4 -> Z.testbit base j = false).
  { intros j Hj. apply Z.mod_divide in Hal; [|lia]. destruct Hal as [q ->]. apply Z.mul_pow2_bits_low. lia. }
  assert (Eio : (base .| flags) .& 1 =? 1 = false).
  { replace ((base .| flags) .& 1) with 0; [reflexivity|]. symmetry. apply Z.bits_inj'. intros j Hj. rewrite Z.bits_0, Z.land_spec, Z.lor_spec.
    destruct (Z.eq_dec j 0) as [->|]; [rewrite Hlow by lia; destruct Hf as [-> | ->]; reflexivity|]. rewrite (bit_outside 1 1 j), andb_false_r; trivial; unfold in_u; lia. }
  assert (Ety : ((base .| flags) .>> 1) .& 3 = 0).
  { apply Z.bits_inj'. intros j Hj. rewrite Z.bits_0, Z.land_spec, Z.shiftr_spec, Z.lor_spec by trivial.
    destruct (Z.lt_ge_cases j 2) as [Hj2|Hj2]; [|rewrite (bit_outside 2 3 j), andb_false_r; trivial; unfold in_u; lia].
    rewrite Hlow by lia. assert (j = 0 \/ j = 1) as [-> | ->] by lia; destruct Hf as [-> | ->]; reflexivity. }
  rewrite Eio, Ety. cbn [Z.eqb]. exists s4. split_and!; trivial.
  - assert (Em : Z.ldiff 0xffffffff (Z.ones k) mod 2 ^ k = 0).
    { rewrite ldiff_ones by lia. rewrite Zminus_mod_idemp_r, Z.sub_diag. apply Z.mod_0_l. apply Z.pow_nonzero; lia. }
    rewrite (ldiff_flags base k), (ldiff_flags _ k flags ltac:(lia) Em) by (destruct Hf; lia). rewrite sized by lia. rewrite (Z.mod_small (2 ^ k)); [reflexivity|].
    split; [apply Z.pow_nonneg; lia|apply Z.pow_lt_mono_r; lia].
  - rewrite H4. f_equal. rewrite ldiff_ones by lia. rewrite (lor_add base flags 4) by (first [apply (aligned_weaken base k); trivial; lia|destruct Hf; lia]).
    rewrite <- Z.add_mod_idemp_l by lia. rewrite Hal, Z.add_0_l, Z.mod_small; [lia|]. pose proof (Z.pow_le_mono_r 2 4 k ltac:(lia) ltac:(lia)). destruct Hf; lia.
Qed.

(** The low half of a 64-bit base address is lost: a register below 4 GiB gives address 0. *)
Theorem GetBar_64bit_address s a i baseLow : good s -> valid a -> 0 <= i <= 4 -> view s a (0x10 + i * 4) 4 = baseLow -> baseLow .& 1 = 0 -> (baseLow .>> 1) .& 3 = 2 ->
  exists s' size, GetBar a i s = Ret s' (mkBar 0 (u64 (view s a (0x10 + i * 4 + 4) 4 .<< 32)) size true false true).
Proof.
  intros Hg Ha Hi Hv Hio Hty. set (r := 0x10 + i * 4) in *. unfold GetBar. fold r. destruct (Z.ltb_spec 5 i) as [|_]; [lia|].
  assert (Hr : inside r 4) by (apply bar_inside; lia). assert (Hr' : inside (r + 4) 4) by (unfold r; replace (0x10 + i * 4 + 4) with (0x10 + (i + 1) * 4) by lia; apply bar_inside; lia).
  destruct (read_law a r 4 s Hg Ha Hr) as (s1 & E1 & Hg1 & H1). rewrite (bind_ret _ _ _ _ _ E1), Hv.
  destruct (write_law a r 0xffffffff 4 s1 Hg1 Ha Hr) as (s2 & E2 & Hg2 & H2). rewrite (bind_ret _ _ _ _ _ E2).
  destruct (read_law a r 4 s2 Hg2 Ha Hr) as (s3 & E3 & Hg3 & H3). rewrite (bind_ret _ _ _ _ _ E3).
  destruct (write_law a r baseLow 4 s3 Hg3 Ha Hr) as (s4 & E4 & Hg4 & H4). rewrite (bind_ret _ _ _ _ _ E4), Hio, Hty. cbn [Z.eqb Pos.eqb].
  destruct (read_law a (r + 4) 4 s4 Hg4 Ha Hr') as (s5 & E5 & Hg5 & H5). rewrite (bind_ret _ _ _ _ _ E5).
  destruct (write_law a (r + 4) 0xffffffff 4 s5 Hg5 Ha Hr') as (s6 & E6 & Hg6 & H6). rewrite (bind_ret _ _ _ _ _ E6).
  destruct (read_law a (r + 4) 4 s6 Hg6 Ha Hr') as (s7 & E7 & Hg7 & H7). rewrite (bind_ret _ _ _ _ _ E7).
  destruct (write_law a (r + 4) (view s4 a (r + 4) 4) 4 s7 Hg7 Ha Hr') as (s8 & E8 & Hg8 & H8). rewrite (bind_ret _ _ _ _ _ E8).
  exists s8. eexists. unfold mret, M_ret. do 2 f_equal. rewrite H4, H3, H2, H1 by (trivial; lia). cbn [Z.ldiff]. apply Z.lor_0_r.
Qed.
End Bars.

(** ** Capabilities *)
Section Capabilities.
Context {St : Type} {AM : AccessMechanism St} {CL : ConfigLaws St}.
Implicit Types (s : St) (a : DeviceAddress).

(** The linked list of capabilities from an offset on. *)
Inductive chain s a : Z -> list Capability -> Prop :=
| chain_end o : o < 0x40 -> chain s a o []
| chain_cons o rest : 0x40 <= o -> chain s a ((view s a o 2 .>> 8) .& 0xfc) rest -> chain s a o (mkCapability (view s a o 2 .& 0xff) o :: rest).

Lemma next_inside x : inside (x .& 0xfc) 2.
Proof.
  assert (E : x .& 0xfc = 4 * ((x .>> 2) mod 2 ^ 6)).
  { rewrite <- Z.land_ones by lia. rewrite Z.mul_comm. change 4 with (2 ^ 2). rewrite <- Z.shiftl_mul_pow2 by lia. change 0xfc with (window 2 6). change (Z.ones 6) with (window 0 6).
    fields i. positions; trivial; f_equal; lia. }
  pose proof (Z.mod_pos_bound (x .>> 2) (2 ^ 6) ltac:(lia)). rewrite E. repeat split; auto; try lia. rewrite Z.mul_comm. replace (_ * 4) with ((x .>> 2) mod 2 ^ 6 * 2 * 2) by lia. apply Z.mod_mul. lia.
Qed.

Lemma chain_view s s' a o caps : (forall a r n, valid a -> inside r n -> view s' a r n = view s a r n) -> valid a -> inside o 2 -> chain s a o caps -> chain s' a o caps.
Proof.
  intros Hv Ha Ho Hc. induction Hc as [o Hlt|o rest Hge _ IH]; [now constructor|]. rewrite <- (Hv a o 2 Ha Ho).
  constructor; [trivial|]. rewrite (Hv a o 2 Ha Ho). apply IH, next_inside.
Qed.
Lemma capabilities_loop_spec a ttl : valid a -> forall s o, good s -> inside o 2 ->
  wp (capabilities_loop a ttl o) s (fun s' l => good s' /\ (length l <= ttl)%nat /\ forall caps, chain s a o caps -> l = take ttl caps).
Proof.
  intros Ha. induction ttl as [|ttl IH]; intros s o Hg Ho; cbn [capabilities_loop].
  { apply wp_ret. split_and!; trivial. }
  destruct (Z.ltb_spec o 0x40) as [Hlt|Hge].
  { apply wp_ret. split_and!; [trivial|cbn; lia|]. intros caps Hc. inversion Hc; [reflexivity|lia]. }
  destruct (read_law a o 2 s Hg Ha Ho) as (s1 & E1 & Hg1 & H1). unfold wp. rewrite (bind_ret _ _ _ _ _ E1).
  destruct (IH s1 _ Hg1 (next_inside (view s a o 2 .>> 8))) as (s2 & l & E2 & Hg2 & Hl & Hc). rewrite (bind_ret _ _ _ _ _ E2).
  eexists _, _. split; [reflexivity|]. split_and!; [exact Hg2|cbn; lia|]. intros caps Hcaps. inversion Hcaps as [|o' rest Ho' Hrest]; subst; [lia|]. cbn [take]. f_equal.
  apply Hc, (chain_view s); auto using next_inside.
Qed.

(** The capabilities of a device are those of its list, in order and with their offsets; 48 at
    most are read, so that a list that leads back into itself ends too. *)
Theorem ReadCapabilities_list s a : good s -> valid a -> inside (view s a eCapabilitiesPointer 1) 2 ->
  exists s' l, ReadCapabilities a s = Ret s' l /\ (length l <= 48)%nat /\ forall caps, chain s a (view s a eCapabilitiesPointer 1) caps -> l = take 48 caps.
Proof.
  intros Hg Ha Hp. unfold ReadCapabilities. destruct (read_law a eCapabilitiesPointer 1 s Hg Ha) as (s1 & E1 & Hg1 & H1); [register|]. rewrite (bind_ret _ _ _ _ _ E1).
  destruct (capabilities_loop_spec a 48 Ha s1 _ Hg1 Hp) as (s2 & l & E2 & _ & Hl & Hc). exists s2, l. split_and!; trivial. intros caps Hcaps. now apply Hc, (chain_view s).
Qed.
End Capabilities.

(** ** Defects *)

(** What is written through the ports does not reach the device: the value goes to the port of the
    address. *)
Theorem legacy_write_lost dev offset value size (s : Legacy.Ports) : exists s', am_Write dev offset value size s = Ret s' tt /\ Legacy.dwords s' = Legacy.dwords s.
Proof. eexists. split; [unfold am_Write, legacy_access, Legacy.Write, mbind, M_bind, Legacy.Out, Legacy.In; cbn [Z.eqb Legacy.CONFIG_ADDRESS Legacy.CONFIG_DATA Pos.eqb]; reflexivity|reflexivity]. Qed.

(** A bridge whose last bus is 255 is searched for ever. *)
Theorem bridge_to_bus_255_never_ends detect domain (s : Legacy.Ports) turns bus b : Legacy.dwords s = (fun _ => 0xffffffff) -> 0 <= bus <= 255 ->
  child_buses detect domain turns bus 255 b s = Diverges.
Proof.
  revert s bus. induction turns as [|turns IH]; intros s bus Hs Hb; cbn [child_buses]; (destruct (Z.ltb_spec 255 bus); [lia|]); [reflexivity|].
  destruct (@read_law _ _ legacy_laws (mkAddress 0 0 bus 0) eVendorID 2 s I I ltac:(register)) as (s' & E & _ & _). rewrite (bind_ret _ _ _ _ _ E).
  replace (@view _ _ legacy_laws s (mkAddress 0 0 bus 0) eVendorID 2) with PCI_INVALID by (cbn; now rewrite Hs). cbn [Z.eqb PCI_INVALID Pos.eqb].
  apply IH; [|unfold u8, wrap; pose proof (Z.mod_pos_bound (bus + 1) (2 ^ 8) ltac:(lia)); lia].
  revert E. unfold am_Read, legacy_access, Legacy.Read, mbind, M_bind, Legacy.Out, Legacy.In. cbn [Z.eqb Legacy.CONFIG_ADDRESS Legacy.CONFIG_DATA Pos.eqb]. intros [= <-]. exact Hs.
Qed.

(** A host controller with several functions gets no root bus: the loop ends at the first function
    that answers. *)
Theorem multifunction_host_has_no_bus {St : Type} {AM : AccessMechanism St} {CL : ConfigLaws St} (s : St) domain depth :
  good s -> valid (mkAddress domain 0 0 0) -> present s (mkAddress domain 0 0 0) = true -> header s (mkAddress domain 0 0 0) .& 0x80 <> 0 ->
  exists s', HostController_Initialize depth domain s = Ret s' [].
Proof.
  intros Hg Ha Hp Hh. unfold HostController_Initialize. destruct (read_law (mkAddress domain 0 0 0) eHeaderType 1 s Hg Ha ltac:(register)) as (s1 & E1 & Hg1 & H1).
  rewrite (bind_ret _ _ _ _ _ E1). fold (header s (mkAddress domain 0 0 0)). apply Z.eqb_neq in Hh. rewrite Hh. change (seqZ 0 8) with (0 :: seqZ 1 7). cbn [root_functions].
  destruct (read_law (mkAddress domain 0 0 0) eVendorID 2 s1 Hg1 Ha ltac:(register)) as (s2 & E2 & Hg2 & H2).
  rewrite (bind_ret _ _ _ _ _ E2), H1 by (trivial; register). fold (present s (mkAddress domain 0 0 0)). rewrite Hp. now exists s2.
Qed.

(** The upper half of the address of a message signalled interrupt, which holds the address of the
    interrupt controllers, is never written. *)
Theorem msi_address_not_written {St : Type} {AM : AccessMechanism St} {CL : ConfigLaws St} (s : St) garbage cpuid vector d off :
  good s -> valid (m_Address d) -> m_MsiOffset d = Some off -> 0 <= off <= 240 -> off mod 4 = 0 -> (view s (m_Address d) (off + 2) 2 .>> 1) .& 7 < 5 ->
  exists s', MsiSet garbage cpuid vector d s = Ret s' true /\ view s' (m_Address d) (off + 6) 2 = view s (m_Address d) (off + 6) 2.
Proof.
  intros Hg Ha Hoff Ho Hal Hmmc. unfold MsiSet. rewrite Hoff. set (a := m_Address d) in *.
  assert (Hin : forall k, 0 <= k <= 14 -> k mod 2 = 0 -> inside (off + k) 2).
  { intros k Hk Hk2. repeat split; auto; try lia. apply Z.mod_divide in Hal as [q ->]; [|lia]. apply Z.mod_divide in Hk2 as [q' ->]; [|lia]. replace (q * 4 + q' * 2) with ((2 * q + q') * 2) by lia. apply Z.mod_mul. lia. }
  destruct (read_law a (off + 2) 2 s Hg Ha (Hin 2 ltac:(lia) eq_refl)) as (s1 & E1 & Hg1 & H1). rewrite (bind_ret _ _ _ _ _ E1).
  set (c := view s a (off + 2) 2) in *. assert (Hnn : 0 <= (c .>> 1) .& 7) by (apply Z.land_nonneg; lia).
  rewrite assert_ret.
  2:{ apply Z.ltb_lt. rewrite Z.shiftl_1_l. change 32 with (2 ^ 5). apply Z.pow_lt_mono_r; lia. }
  destruct (write_law a (off + 4) ((Z.ldiff garbage (window 12 20) .| ((cpuid .& 0xff) .<< 12) .| (0xfee .<< 20)) .& 0xffff) 2 s1 Hg1 Ha (Hin 4 ltac:(lia) eq_refl)) as (s2 & E2 & Hg2 & H2). rewrite (bind_ret _ _ _ _ _ E2).
  set (o := off + (if Z.testbit c 7 then 0x0c else 0x08)). assert (Hino : inside o 2) by (unfold o; destruct (Z.testbit c 7); apply Hin; lia || reflexivity).
  destruct (write_law a o ((Z.ldiff garbage (window 0 11) .| (vector .& 0xff)) .& 0xffff) 2 s2 Hg2 Ha Hino) as (s3 & E3 & Hg3 & H3). rewrite (bind_ret _ _ _ _ _ E3).
  destruct (write_law a (off + 2) (Z.ldiff c (window 4 3) .| 1) 2 s3 Hg3 Ha (Hin 2 ltac:(lia) eq_refl)) as (s4 & E4 & Hg4 & H4). rewrite (bind_ret _ _ _ _ _ E4).
  exists s4. split; [reflexivity|]. pose proof (Hin 6 ltac:(lia) eq_refl) as H6. rewrite H4, H3, H2, H1; trivial; try lia. unfold o. destruct (Z.testbit c 7); lia.
Qed.

(** A bridge in slot 1 with bus 1 behind it, where a device is in slot 2: the device is found twice,
    and enumerating the devices of the machine passes the bus instead of the device. *)
Definition behind_bridge : Legacy.Ports := Legacy.mkPorts 0 (fun a =>
  let at_ b s r := Legacy.config_address (mkAddress 0 b s 0) r in
  if a =? at_ 0 1 0 then 0x00011b36 else if a =? at_ 0 1 0xc then 0x00010000 else if a =? at_ 0 1 0x18 then 0x00000100 else if a =? at_ 0 1 0x20 then 1
  else if a =? at_ 1 2 0 then 0x10018086 else if a =? at_ 1 2 0xc then 0 else 0xffffffff).
Definition visits (b : Bus) : list DeviceAddress :=
  match Enumerate (fun a (l : list DeviceAddress) => Ret (l ++ [a]) false) b [] with Ret l _ => l | _ => [] end.
Theorem device_behind_bridge : exists s' b, DetectDevices 2 0 (mkBus 0 0 [] []) behind_bridge = Ret s' b
  /\ m_AvailableFunctions <$> m_ChildBridges b = [[mkAddress 0 1 2 0; mkAddress 0 1 2 0]] /\ visits b = [mkAddress 0 1 0 0].
Proof.
  destruct (DetectDevices 2 0 (mkBus 0 0 [] []) behind_bridge) as [s' b| | |] eqn:E; vm_compute in E; try discriminate.
  exists s', b. split; [reflexivity|]. injection E as _ <-. split; reflexivity.
Qed.

(** ** Witnesses *)

(** A bus with one device in slot 3. *)
Definition one_device : Legacy.Ports := Legacy.mkPorts 0 (fun a =>
  if a =? Legacy.config_address (mkAddress 0 0 3 0) 0 then 0x10018086 else if a =? Legacy.config_address (mkAddress 0 0 3 0) 0xc then 0 else 0xffffffff).
Definition checked_functions (s : Legacy.Ports) : bool :=
  forallb (fun slot => forallb (fun f => negb (present s (mkAddress 0 0 slot f)) || (header s (mkAddress 0 0 slot f) .& 0x7f =? 0)) (seqZ 0 8)) (seqZ 0 32).
Lemma checked_no_bridges s : checked_functions s = true -> no_bridges 0 0 s.
Proof.
  unfold checked_functions. rewrite forallb_forall. intros H slot f Hs Hf Hp. specialize (H slot). rewrite forallb_forall in H.
  specialize (H ltac:(apply list_elem_of_In, elem_of_seqZ; lia) f ltac:(apply list_elem_of_In, elem_of_seqZ; lia)). rewrite Hp in H. now apply Z.eqb_eq in H.
Qed.
Lemma DetectDevices_complete_witness : exists s', DetectDevices 1 0 (mkBus 0 0 [] []) one_device = Ret s' (mkBus 0 0 [mkAddress 0 0 3 0] []).
Proof.
  destruct (DetectDevices_complete one_device 0 0 0 0) as (s' & E & _); [intros; exact I|exact I|apply checked_no_bridges; vm_compute; reflexivity|].
  exists s'. exact E.
Defined.

(** A register of 4096 bytes at 0xfebf0000; the state is its content. *)
Definition bar_state : Type := Z.
#[export] Instance bar_access : AccessMechanism bar_state := {|
  am_Read _ r _ s := Ret s (if r =? 0x10 then s else 0);
  am_Write _ r v _ s := Ret (if r =? 0x10 then Z.ldiff v (Z.ones 12) else s) tt
|}.
#[export] Program Instance bar_laws : ConfigLaws bar_state := {| good _ := True; valid a := a = mkAddress 0 0 0 0; view s _ r _ := if r =? 0x10 then s else 0 |}.
Next Obligation. intros a r n s _ _ _. now exists s. Qed.
Next Obligation.
  intros a r v n s _ -> Hr. eexists. split; [reflexivity|]. split; [trivial|]. cbn. intros a' r' n' -> Hr' [[]|H]; [reflexivity|].
  destruct (Z.eqb_spec r' 0x10) as [->|]; [|reflexivity]. destruct (Z.eqb_spec r 0x10) as [->|]; [|reflexivity]. destruct Hr as (_ & _ & Hn & _), Hr' as (_ & _ & Hn' & _). lia.
Qed.
Lemma GetBar_memory_witness : exists s', GetBar (St := bar_state) (mkAddress 0 0 0 0) 0 0xfebf0000 = Ret s' (mkBar 0 0xfebf0000 4096 true false false) /\ s' = 0xfebf0000.
Proof.
  destruct (GetBar_memory (St := bar_state) 0xfebf0000 (mkAddress 0 0 0 0) 0 12 0 0xfebf0000) as (s' & E & _ & Hv); try reflexivity; try lia.
  - intros s v _. eexists. split; [reflexivity|]. split; [exact I|]. cbn. now rewrite Z.lor_0_r.
  - exists s'. split; [exact E|exact Hv].
Defined.
(** Every capability points to itself. *)
Definition looping_list : Legacy.Ports := Legacy.mkPorts 0 (fun _ => 0x4040).
Lemma ReadCapabilities_list_witness : exists s' l, ReadCapabilities (mkAddress 0 0 3 0) looping_list = Ret s' l /\ (length l <= 48)%nat.
Proof.
  destruct (@ReadCapabilities_list _ _ legacy_laws looping_list (mkAddress 0 0 3 0) I I ltac:(vm_compute; intuition congruence)) as (s' & l & E & Hl & _).
  exists s', l. split; [exact E|exact Hl].
Defined.

(** * PCI: controllers and names of vendors

    [Drivers/PCI/PCI.cpp]: the host controllers the firmware lists, and the database of vendors. *)

(** ** Host controllers *)
Record McfgEntry := mkMcfg { mcfg_Address : Z; mcfg_Segment : Z; StartBus : Z; EndBus : Z }.
Definition MCFG_size : Z := 44.
Definition MCFG_Entry_size : Z := 16.
(** The table: its length and its entries. *)
Definition DetectControllers (mcfg : option (Z * (Z -> McfgEntry))) : gmap Z (Z * Z * Z) :=
  match mcfg with
  | None => ∅
  | Some (length, entries) =>
      if length <? MCFG_size + MCFG_Entry_size then ∅
      else
        let entryCount := (length - MCFG_size) / MCFG_Entry_size in
        list_to_map ((fun i => (i, (StartBus (entries i), EndBus (entries i), mcfg_Address (entries i)))) <$> seqZ 0 entryCount)
  end.
(** [PCI::Initialize]: a machine without a table has one domain, at no address. *)
Definition controllers (mcfg : option (Z * (Z -> McfgEntry))) : gmap Z (Z * Z * Z) :=
  let c := DetectControllers mcfg in if bool_decide (c = ∅) then {[0 := (0, 32, 0)]} else c.
(** The mechanism [HostController::Initialize] chooses. *)
Definition uses_ecam (pci_ecam : option bool) (address : Z) : bool := default true pci_ecam && negb (address =? 0).

(** ** The database of vendors *)
Section Database.
Context {SU : StringUtils}.
Definition IsHexDigit (c : Z) : bool := ((48 <=? c) && (c <=? 57)) || ((97 <=? c) && (c <=? 102)) || ((65 <=? c) && (c <=? 70)).
Definition isalpha (c : Z) : bool := ((97 <=? c) && (c <=? 122)) || ((65 <=? c) && (c <=? 90)).
Fixpoint skip_to_letter (cs : list Z) : list Z := match cs with [] => [] | c :: cs' => if isalpha c then cs else skip_to_letter cs' end.
Definition ParseVendorID (line : list Z) (vendors : gmap Z (list Z)) : gmap Z (list Z) :=
  if (length line <? 4)%nat then vendors
  else if negb (forallb IsHexDigit (take 4 line)) then vendors
  else
    let name := skip_to_letter (drop 4 line) in
    if bool_decide (name = []) then vendors
    else <[u16 (ToNumber (take 4 line) 16) := name]> vendors.

(** [FindFirstOf("\n", pos)] and [FindFirstNotOf("\n\r", pos)]. *)
Fixpoint find_from (p : Z -> bool) (cs : list Z) : option nat :=
  match cs with [] => None | c :: cs => if p c then Some O else S <$> find_from p cs end.
Definition FindFirst (p : Z -> bool) (pos : nat) (buffer : list Z) : option nat := Nat.add pos <$> find_from p (drop pos buffer).
(** Every turn moves on, so as many turns as there are characters are enough. *)
Fixpoint database_loop (turns : nat) (buffer : list Z) (currentPos : nat) (vendors : gmap Z (list Z)) : option (gmap Z (list Z)) :=
  match FindFirst (Z.eqb 10) currentPos buffer with
  | None => Some vendors
  | Some newLinePos =>
      match turns with
      | O => None
      | S turns =>
          let line := slice currentPos (newLinePos - currentPos) buffer in
          let vendors := if bool_decide (line = []) then vendors else ParseVendorID line vendors in
          match FindFirst (fun c => negb ((c =? 10) || (c =? 13))) newLinePos buffer with
          | None => Some vendors
          | Some currentPos => database_loop turns buffer currentPos vendors
          end
      end
  end.
Definition InitializeDatabase (buffer : list Z) : option (gmap Z (list Z)) := database_loop (length buffer) buffer 0 ∅.

(** ** Theorems *)

(** A line of the file. *)
Definition line_ok (line : list Z) : Prop := line <> [] /\ Forall (fun c => c <> 10 /\ c <> 13) line.

Lemma find_newline line rest : line_ok line -> find_from (Z.eqb 10) (line ++ 10 :: rest) = Some (length line).
Proof.
  intros [_ H]. induction H as [|c line [Hc _] _ IH]; [reflexivity|]. cbn [app find_from length]. destruct (Z.eqb_spec 10 c); [congruence|]. now rewrite IH.
Qed.
Definition join (lines : list (list Z)) : list Z := concat ((fun l => l ++ [10]) <$> lines).
Lemma next_line lines : Forall line_ok lines -> find_from (fun c => negb ((c =? 10) || (c =? 13))) (10 :: join lines) = match lines with [] => None | _ => Some 1%nat end.
Proof.
  intros H. cbn [find_from Z.eqb Pos.eqb orb negb]. destruct H as [|line lines [Hne Hl] _]; [reflexivity|]. unfold join. cbn [fmap list_fmap concat].
  destruct Hl as [|c line [H1 H2] _]; [congruence|]. cbn [app find_from]. apply Z.eqb_neq in H1, H2. now rewrite H1, H2.
Qed.
Lemma FindFirst_app p pre rest : FindFirst p (length pre) (pre ++ rest) = Nat.add (length pre) <$> find_from p rest.
Proof. unfold FindFirst. now rewrite drop_app_length. Qed.

Lemma database_loop_spec lines : Forall line_ok lines -> forall turns pre vendors, (length lines <= turns)%nat ->
  database_loop turns (pre ++ join lines) (length pre) vendors = Some (fold_left (fun v l => ParseVendorID l v) lines vendors).
Proof.
  induction 1 as [|line lines Hl Hls IH]; intros turns pre vendors Ht.
  { destruct turns; cbn [database_loop]; rewrite FindFirst_app; reflexivity. }
  destruct turns as [|turns]; [cbn in Ht; lia|]. cbn [database_loop].
  assert (E : pre ++ join (line :: lines) = (pre ++ line) ++ 10 :: join lines) by (unfold join; cbn [fmap list_fmap concat]; rewrite <- !(assoc app); reflexivity).
  assert (E1 : FindFirst (Z.eqb 10) (length pre) (pre ++ join (line :: lines)) = Some (length (pre ++ line))).
  { rewrite E, <- (assoc app), FindFirst_app, find_newline by trivial. now rewrite length_app. }
  rewrite E1. replace (length (pre ++ line) - length pre)%nat with (length line) by (rewrite length_app; lia).
  replace (slice (length pre) (length line) (pre ++ join (line :: lines))) with line.
  2:{ rewrite E, <- (assoc app). unfold slice. now rewrite drop_app_length, take_app_length. }
  rewrite bool_decide_eq_false_2 by apply Hl. rewrite E, FindFirst_app, next_line by trivial.
  destruct lines as [|next lines]; [reflexivity|]. cbn [fmap option_fmap option_map].
  replace (length (pre ++ line) + 1)%nat with (length ((pre ++ line) ++ [10])) by (rewrite length_app; reflexivity).
  etransitivity; [|apply (IH turns ((pre ++ line) ++ [10]) (ParseVendorID line vendors)); cbn in *; lia]. f_equal. now rewrite <- (assoc app (pre ++ line)).
Qed.

(** Every line of the file of identifiers is parsed, in order, when the last ends with a newline. *)
Theorem InitializeDatabase_lines lines : Forall line_ok lines ->
  InitializeDatabase (join lines) = Some (fold_left (fun v l => ParseVendorID l v) lines ∅).
Proof.
  intros H. apply (database_loop_spec lines H (length (join lines)) [] ∅). unfold join. clear H. induction lines as [|l ls IH]; [reflexivity|].
  cbn [fmap list_fmap concat]. rewrite !length_app. cbn. lia.
Qed.
End Database.

(** "10b7  3Com": the digit of the name is lost. *)
Theorem vendor_loses_digit {SU : StringUtils} : exists v, ParseVendorID [49; 48; 98; 55; 32; 32; 51; 67; 111; 109] ∅ !! v = Some [67; 111; 109].
Proof. eexists. cbn. apply lookup_insert_eq. Qed.
(** The number of the segment of an entry is not used: the entries are numbered. *)
Theorem segments_ignored address start end_ : controllers (Some (60, fun _ => mkMcfg address 5 start end_)) = {[0 := (start, end_, address)]}.
Proof. reflexivity. Qed.
