(* ===== verification/Interrupts.v ===== *)
(** * Descriptor tables and interrupt handlers

    [Arch/x86_64/GDT.cpp], [Arch/x86_64/IDT.cpp], [Arch/x86_64/InterruptManager.cpp],
    [Arch/InterruptHandler.hpp] and [Arch/x86_64/Drivers/PIC.cpp]: segment and gate descriptors, the
    table of handlers, the way of an interrupt to its handler, and the 8259A controllers. *)

From Stdlib Require Import ZArith Lia Bool.
From stdpp Require Import base gmap list numbers.
From S2P Require Import Prelude Effects.

(** ** Segment descriptors *)
Module GDT.
Record SegmentDescriptor := mkSegment { LimitLow : Z; BaseLow : Z; BaseMiddle : Z; Access : Z; LimitHigh : Z; Flags : Z; BaseHigh : Z }.
Record TaskStateSegmentDescriptor := mkTss { Length : Z; tss_BaseLow : Z; BaseMiddle1 : Z; Flags1 : Z; Flags2 : Z; BaseMiddle2 : Z; tss_BaseHigh : Z; Reserved : Z }.
Record GDTEntries := mkGdt { Null : SegmentDescriptor; KernelCode : SegmentDescriptor; KernelData : SegmentDescriptor; UserCode : SegmentDescriptor; UserData : SegmentDescriptor; TSS : TaskStateSegmentDescriptor }.
Definition KERNEL_CODE_SELECTOR : Z := 0x08.
Definition KERNEL_DATA_SELECTOR : Z := 0x10.
Definition USERLAND_DATA_SELECTOR : Z := 0x18.
Definition USERLAND_CODE_SELECTOR : Z := 0x20.
Definition TSS_SELECTOR : Z := 0x28.
Definition GDT_SEGMENT_PRESENT : Z := 0x80.
Definition TaskStateSegment_size : Z := 104.

Definition GDTWriteEntry (base limit access flags : Z) : SegmentDescriptor :=
  mkSegment (limit .& 0xffff) (base .& 0xffff) ((base .>> 16) .& 0xff) (access .| GDT_SEGMENT_PRESENT) ((limit .>> 16) .& 0xf) (flags .& 0xf) ((base .>> 24) .& 0xff).
Definition TSSWriteEntry (base : Z) : TaskStateSegmentDescriptor :=
  mkTss TaskStateSegment_size (u16 base) (u8 (base .>> 16)) ((8 .<< 4) .| (8 .| 1)) 0 (u8 (base .>> 24)) (u32 (base .>> 32)) 0.
Definition Initialize : GDTEntries :=
  mkGdt (mkSegment 0 0 0 0 0 0 0) (GDTWriteEntry 0 0xffffffff 0x9a 0xa) (GDTWriteEntry 0 0xffffffff 0x92 0xa) (GDTWriteEntry 0 0 0xf2 0xa) (GDTWriteEntry 0 0 0xfa 0xa) (TSSWriteEntry 0).
Definition LoadTSS (tss : Z) (g : GDTEntries) : option GDTEntries :=
  if tss =? 0 then None else Some (mkGdt (Null g) (KernelCode g) (KernelData g) (UserCode g) (UserData g) (TSSWriteEntry tss)).

(** The segment a selector names. *)
Definition segment (g : GDTEntries) (selector : Z) : option SegmentDescriptor := [Null g; KernelCode g; KernelData g; UserCode g; UserData g] !! Z.to_nat (selector .>> 3).
(** How the processor reads a descriptor: code or data, and its privilege level. *)
Definition is_code (d : SegmentDescriptor) : bool := Z.testbit (Access d) 3.
Definition level (d : SegmentDescriptor) : Z := (Access d .>> 5) .& 3.
Definition tss_base (d : TaskStateSegmentDescriptor) : Z := tss_BaseLow d .| (BaseMiddle1 d .<< 16) .| (BaseMiddle2 d .<< 24) .| (tss_BaseHigh d .<< 32).
End GDT.

(** ** Gates *)
Record IDTEntry := mkGate { IsrLow : Z; KernelCS : Z; IST : Z; Attributes : Z; IsrMiddle : Z; IsrHigh : Z; gate_Reserved : Z }.
Definition MAX_IDT_ENTRIES : Z := 256.
Definition IDT_ENTRY_PRESENT : Z := 0x80.
Definition GATE_TYPE_INTERRUPT : Z := 0xe.
Definition GATE_TYPE_TRAP : Z := 0xf.
Definition BREAKPOINT : Z := 0x03.
Definition PAGE_FAULT : Z := 0x0e.

Definition gate (handler attributes : Z) : IDTEntry :=
  mkGate (handler .& 0xffff) GDT.KERNEL_CODE_SELECTOR 0 attributes ((handler .& 0xffff0000) .>> 16) ((handler .& 0xffffffff00000000) .>> 32) 0.
Definition gate_handler (g : IDTEntry) : Z := IsrLow g .| (IsrMiddle g .<< 16) .| (IsrHigh g .<< 32).

(** ** Handlers *)
Inductive Exception := raiseException | breakpoint | pageFault.

Section Handlers.
Context {R : Type}.
Record InterruptHandler := mkHandler { eoiFirst : bool; m_InterruptVector : Z; m_Routine : option R; m_Reserved : bool }.
Definition IsUsed (h : InterruptHandler) : bool := if m_Routine h then true else false.
Definition IsReserved (h : InterruptHandler) : bool := m_Reserved h.
Definition Reserve (h : InterruptHandler) : InterruptHandler := mkHandler (eoiFirst h) (m_InterruptVector h) (m_Routine h) true.
Definition SetHandler (r : R) (h : InterruptHandler) : InterruptHandler := mkHandler (eoiFirst h) (m_InterruptVector h) (Some r) (m_Reserved h).
Definition SetInterruptVector (v : Z) (h : InterruptHandler) : InterruptHandler := mkHandler (eoiFirst h) v (m_Routine h) (m_Reserved h).

(** The gates, the handlers and the handlers of exceptions. *)
Record Tables := mkTables { s_IdtEntries : list IDTEntry; s_InterruptHandlers : list InterruptHandler; exceptionHandlers : list Exception }.
Definition with_handlers (hs : list InterruptHandler) (t : Tables) : Tables := mkTables (s_IdtEntries t) hs (exceptionHandlers t).

Definition idtWriteEntry (vector handler attributes : Z) : M Tables unit :=
  _ ← Assert (vector <? MAX_IDT_ENTRIES);
  update (fun t => mkTables (<[Z.to_nat vector := gate handler attributes]> (s_IdtEntries t)) (s_InterruptHandlers t) (exceptionHandlers t)).
Definition SetIST (vector value : Z) (t : Tables) : Tables :=
  mkTables (alter (fun g => mkGate (IsrLow g) (KernelCS g) (u8 value) (Attributes g) (IsrMiddle g) (IsrHigh g) (gate_Reserved g)) (Z.to_nat vector) (s_IdtEntries t))
    (s_InterruptHandlers t) (exceptionHandlers t).
Definition SetDPL (vector dpl : Z) (t : Tables) : Tables :=
  mkTables (alter (fun g => mkGate (IsrLow g) (KernelCS g) (IST g) (Z.ldiff (Attributes g) 0x60 .| ((dpl .& 3) .<< 5)) (IsrMiddle g) (IsrHigh g) (gate_Reserved g)) (Z.to_nat vector) (s_IdtEntries t))
    (s_InterruptHandlers t) (exceptionHandlers t).
(** One turn of [IDT::Initialize]; [interrupt_handlers] are the entry points of the assembly. *)
Definition init_vector (interrupt_handlers : Z -> Z) (i : Z) : M Tables unit :=
  _ ← idtWriteEntry i (interrupt_handlers i) (IDT_ENTRY_PRESENT .| (if i <? 0x20 then GATE_TYPE_TRAP else GATE_TYPE_INTERRUPT));
  update (fun t => mkTables (s_IdtEntries t) (alter (SetInterruptVector i) (Z.to_nat i) (s_InterruptHandlers t))
    (if i <? 32 then <[Z.to_nat i := raiseException]> (exceptionHandlers t) else exceptionHandlers t)).
Definition IDT_Initialize (interrupt_handlers : Z -> Z) : M Tables unit :=
  _ ← each (init_vector interrupt_handlers) (seqZ 0 256);
  _ ← update (fun t => mkTables (s_IdtEntries t) (s_InterruptHandlers t)
    (<[Z.to_nat PAGE_FAULT := pageFault]> (<[Z.to_nat BREAKPOINT := breakpoint]> (exceptionHandlers t))));
  update (SetDPL BREAKPOINT 3).

(** [IDT::AllocateHandler]: the vector of the handler. *)
Definition first_free (hs : list InterruptHandler) (start : Z) : option Z :=
  List.find (fun i => match hs !! Z.to_nat i with Some h => negb (IsUsed h) && negb (IsReserved h) | None => false end) (seqZ start (256 - start)).
Definition AllocateHandler (LegacyPIC : bool) (hint : Z) : M Tables Z := fun t =>
  let hs := s_InterruptHandlers t in
  let hint := if hint <? 0x20 then hint + 0x20 else hint in
  let legacy := LegacyPIC && (0x20 <=? hint) && (hint <=? 0x20 + 15) && match hs !! Z.to_nat hint with Some h => negb (IsUsed h) | None => false end in
  if legacy then Ret t hint
  else
    match first_free hs hint with
    | Some i => Ret (with_handlers (alter (fun h => SetInterruptVector i (Reserve h)) (Z.to_nat i) hs) t) i
    | None => Panic
    end.
(** The owner of a handler binds its routine. *)
Definition Bind (vector : Z) (r : R) : M Tables unit := update (fun t => with_handlers (alter (SetHandler r) (Z.to_nat vector) (s_InterruptHandlers t)) t).

(** What an interrupt leads to. *)
Inductive Action := RunException (e : Exception) | RunRoutine (r : R) | EndOfInterrupt (vector : Z) | HaltCpu.
Definition raiseInterrupt (vector : Z) (t : Tables) : list Action :=
  if vector <? 0x20 then match exceptionHandlers t !! Z.to_nat vector with Some e => [RunException e] | None => [] end
  else
    match s_InterruptHandlers t !! Z.to_nat vector with
    | Some (mkHandler first _ (Some r) _) => if first then [EndOfInterrupt vector; RunRoutine r] else [RunRoutine r; EndOfInterrupt vector]
    | _ => [HaltCpu]
    end.
End Handlers.
Arguments InterruptHandler : clear implicits.
Arguments Tables : clear implicits.
Arguments Action : clear implicits.

(** ** The 8259A controllers *)
Module PIC.
Definition PIC1_COMMAND : Z := 0x20.
Definition PIC1_DATA : Z := 0x21.
Definition PIC2_COMMAND : Z := 0xa0.
Definition PIC2_DATA : Z := 0xa1.
Definition OCW2_SEND_EOI : Z := 0x20.
Definition OCW3_GET_IRR : Z := 0x0a.
Definition OCW3_GET_ISR : Z := 0x0b.

(** A chip: its mask, the vector of its first line, the lines in service and requested, the words of
    the initialization that are still awaited, the register the next read of the command port
    gives, and how many ends of interrupts it was sent. *)
Record Chip := mkChip { imr : Z; vector_base : Z; isr : Z; irr : Z; awaited : nat; reads_isr : bool; eois : nat }.
Definition write_command (v : Z) (c : Chip) : Chip :=
  if Z.testbit v 4 then mkChip (imr c) (vector_base c) (isr c) (irr c) 3 (reads_isr c) (eois c)
  else if v =? OCW2_SEND_EOI then mkChip (imr c) (vector_base c) (isr c) (irr c) (awaited c) (reads_isr c) (S (eois c))
  else if v =? OCW3_GET_ISR then mkChip (imr c) (vector_base c) (isr c) (irr c) (awaited c) true (eois c)
  else if v =? OCW3_GET_IRR then mkChip (imr c) (vector_base c) (isr c) (irr c) (awaited c) false (eois c)
  else c.
Definition write_data (v : Z) (c : Chip) : Chip :=
  match awaited c with
  | O => mkChip v (vector_base c) (isr c) (irr c) 0 (reads_isr c) (eois c)
  | S n => mkChip (imr c) (if (n =? 2)%nat then v else vector_base c) (isr c) (irr c) n (reads_isr c) (eois c)
  end.
Definition Pics : Type := Chip * Chip.
Definition Out (port v : Z) : M Pics unit := update (fun '(a, b) =>
  if port =? PIC1_COMMAND then (write_command v a, b) else if port =? PIC1_DATA then (write_data v a, b)
  else if port =? PIC2_COMMAND then (a, write_command v b) else if port =? PIC2_DATA then (a, write_data v b) else (a, b)).
Definition In (port : Z) : M Pics Z := gets (fun '(a, b) =>
  if port =? PIC1_DATA then imr a else if port =? PIC2_DATA then imr b
  else let c : Chip := if port =? PIC1_COMMAND then a else b in if reads_isr c then isr c else irr c).

Definition line (irq : Z) : Z * Z := if 8 <=? irq then (PIC2_DATA, irq - 8) else (PIC1_DATA, irq).
Definition Mask (irq : Z) : M Pics unit := let '(port, irq) := line irq in ocw1 ← In port; Out port (u8 (ocw1 .| (1 .<< irq))).
Definition Unmask (irq : Z) : M Pics unit := let '(port, irq) := line irq in ocw1 ← In port; Out port (u8 (Z.ldiff ocw1 (1 .<< irq))).
Definition MaskAllIRQs : M Pics unit := _ ← Out PIC1_DATA 0xff; Out PIC2_DATA 0xff.
Definition UnmaskAllIRQs : M Pics unit := _ ← Out PIC1_DATA 0; Out PIC2_DATA 0.
Definition Remap (masterOffset slaveOffset : Z) : M Pics unit :=
  pic1Mask ← In PIC1_DATA;
  pic2Mask ← In PIC2_DATA;
  let icw1 := 0x10 .| 0x01 in
  _ ← Out PIC1_COMMAND icw1;
  _ ← Out PIC2_COMMAND icw1;
  _ ← Out PIC1_DATA masterOffset;
  _ ← Out PIC2_DATA slaveOffset;
  _ ← Out PIC1_DATA 0x04;
  _ ← Out PIC2_DATA 0x02;
  _ ← Out PIC1_DATA 0x01;
  _ ← Out PIC2_DATA 0x01;
  _ ← Out PIC1_DATA pic1Mask;
  Out PIC2_DATA pic2Mask.
Definition Initialize : M Pics unit := Remap 0x20 0x28.
Definition GetIRQRegister (ocw3 : Z) : M Pics Z :=
  _ ← Out PIC1_COMMAND ocw3;
  _ ← Out PIC2_COMMAND ocw3;
  high ← In PIC2_COMMAND;
  low ← In PIC1_COMMAND;
  mret (u16 ((high .<< 8) .| low)).
Definition GetISR : M Pics Z := GetIRQRegister OCW3_GET_ISR.
Definition GetIRR : M Pics Z := GetIRQRegister OCW3_GET_IRR.
Definition HandleSpuriousInterrupt (irq : Z) : M Pics bool :=
  if negb (irq =? 8) && negb (irq =? 15) then mret false
  else
    isr ← GetISR;
    if Z.testbit isr irq then mret false
    else if irq =? 15 then _ ← Out PIC1_COMMAND OCW2_SEND_EOI; mret true
    else mret true.
Definition SendEOI (irq : Z) : M Pics unit :=
  spurious ← HandleSpuriousInterrupt irq;
  if (spurious : bool) then mret tt else
  _ ← (if 8 <=? irq then Out PIC2_COMMAND OCW2_SEND_EOI else mret tt);
  Out PIC1_COMMAND OCW2_SEND_EOI.
End PIC.
