(* ===== verification/InterruptTheorems.v ===== *)
(** * Descriptor tables and interrupt handlers: theorems *)

From Stdlib Require Import ZArith Lia Bool.
From stdpp Require Import base gmap list numbers.
From S2P Require Import Prelude Effects Interrupts.

(** ** Descriptors *)
Theorem gate_roundtrip handler attributes : in_u 64 handler -> gate_handler (gate handler attributes) = handler.
Proof.
  intros H. unfold gate_handler, gate. cbn [IsrLow IsrMiddle IsrHigh]. change 0xffff with (window 0 16). change 0xffff0000 with (window 16 16). change 0xffffffff00000000 with (window 32 32).
  fields i. destruct (Z.lt_ge_cases i 16); [|destruct (Z.lt_ge_cases i 32); [|destruct (Z.lt_ge_cases i 64)]]; positions; beyond 64 handler; trivial; f_equal; lia.
Qed.
Theorem tss_roundtrip base : in_u 64 base -> GDT.tss_base (GDT.TSSWriteEntry base) = base.
Proof.
  intros H. unfold GDT.tss_base, GDT.TSSWriteEntry, u8, u16, u32. cbn [GDT.tss_BaseLow GDT.BaseMiddle1 GDT.BaseMiddle2 GDT.tss_BaseHigh].
  fields i. destruct (Z.lt_ge_cases i 16); [|destruct (Z.lt_ge_cases i 24); [|destruct (Z.lt_ge_cases i 32); [|destruct (Z.lt_ge_cases i 64)]]]; positions; beyond 64 base; trivial; f_equal; lia.
Qed.
(** The selectors name a code and a data segment of the kernel and of programs. *)
Theorem selectors_name_segments : forall g, g = GDT.Initialize ->
  (fun s => (fun d => (GDT.is_code d, GDT.level d)) <$> GDT.segment g s) <$> [GDT.KERNEL_CODE_SELECTOR; GDT.KERNEL_DATA_SELECTOR; GDT.USERLAND_CODE_SELECTOR; GDT.USERLAND_DATA_SELECTOR]
  = [Some (true, 0); Some (false, 0); Some (true, 3); Some (false, 3)].
Proof. intros g ->. reflexivity. Qed.

Section Handlers.
Context {R : Type}.
Notation Tables := (Tables R).
Notation InterruptHandler := (InterruptHandler R).
Implicit Types (t : Tables) (hs : list InterruptHandler).

(** ** The interrupt descriptor table *)
Definition gate_attributes (v : Z) : Z := IDT_ENTRY_PRESENT .| (if v <? 0x20 then GATE_TYPE_TRAP else GATE_TYPE_INTERRUPT).
(** The vectors up to [n] are initialized. *)
Record initialized (entry : Z -> Z) (n : Z) t : Prop := {
  init_length : length (s_IdtEntries t) = 256%nat;
  init_gates v : 0 <= v < n -> s_IdtEntries t !! Z.to_nat v = Some (gate (entry v) (gate_attributes v));
  init_exceptions : length (exceptionHandlers t) = 32%nat;
  init_raise v : 0 <= v < Z.min n 32 -> exceptionHandlers t !! Z.to_nat v = Some raiseException;
  init_vectors v h : 0 <= v < n -> s_InterruptHandlers t !! Z.to_nat v = Some h -> m_InterruptVector h = v
}.
Lemma init_vector_spec entry n t : initialized entry n t -> 0 <= n < 256 -> exists t', init_vector entry n t = Ret t' tt /\ initialized entry (n + 1) t'.
Proof.
  intros [Hl Hg He Hr Hv] Hn. unfold init_vector, idtWriteEntry. eexists. split.
  - unfold mbind, M_bind at 1. unfold mbind, M_bind. rewrite (proj2 (Z.ltb_lt n MAX_IDT_ENTRIES)) by (unfold MAX_IDT_ENTRIES; lia). reflexivity.
  - split; cbn [s_IdtEntries s_InterruptHandlers exceptionHandlers].
    + now rewrite length_insert.
    + intros v Hv'. destruct (Z.eq_dec v n) as [->|]; [now rewrite list_lookup_insert_eq by lia|]. rewrite list_lookup_insert_ne by lia. apply Hg. lia.
    + destruct (n <? 32); [now rewrite length_insert|exact He].
    + intros v Hv'. destruct (Z.ltb_spec n 32).
      * destruct (Z.eq_dec v n) as [->|]; [now rewrite list_lookup_insert_eq by lia|]. rewrite list_lookup_insert_ne by lia. apply Hr. lia.
      * apply Hr. lia.
    + intros v h Hv' Hh. destruct (Z.eq_dec v n) as [->|].
      * rewrite list_lookup_alter_eq in Hh. destruct (_ !! Z.to_nat n); [|discriminate]. now injection Hh as <-.
      * rewrite list_lookup_alter_ne in Hh by lia. apply (Hv v h); [lia|exact Hh].
Qed.
Lemma init_vectors_spec entry k : forall n t, initialized entry n t -> 0 <= n -> n + Z.of_nat k <= 256 ->
  exists t', each (init_vector entry) (seqZ n (Z.of_nat k)) t = Ret t' tt /\ initialized entry (n + Z.of_nat k) t'.
Proof.
  induction k as [|k IH]; intros n t Ht Hn Hk.
  - exists t. split; [reflexivity|]. now rewrite Z.add_0_r.
  - rewrite seqZ_cons by lia. cbn [each]. destruct (init_vector_spec entry n t Ht ltac:(lia)) as (t1 & E1 & H1). rewrite (bind_ret _ _ _ _ _ E1).
    destruct (IH (Z.succ n) t1) as (t' & E & H'); [exact H1|lia|lia|]. exists t'. replace (Z.pred (Z.of_nat (S k))) with (Z.of_nat k) by lia. split; [exact E|].
    replace (n + Z.of_nat (S k)) with (Z.succ n + Z.of_nat k) by lia. exact H'.
Qed.

(** After [IDT::Initialize] every vector has a present gate to its entry point, a trap gate for
    exceptions and an interrupt gate for the others; programs may raise only the breakpoint; page
    faults and breakpoints have their own handlers, the other exceptions the common one. *)
Theorem IDT_Initialize_gates entry t : length (s_IdtEntries t) = 256%nat -> length (exceptionHandlers t) = 32%nat -> (forall v, in_u 64 (entry v)) ->
  exists t', IDT_Initialize entry t = Ret t' tt
  /\ (forall v, 0 <= v < 256 -> exists g, s_IdtEntries t' !! Z.to_nat v = Some g /\ gate_handler g = entry v /\ Attributes g = if v =? BREAKPOINT then 0xef else gate_attributes v)
  /\ (forall v, 0 <= v < 32 -> exceptionHandlers t' !! Z.to_nat v = Some (if v =? PAGE_FAULT then pageFault else if v =? BREAKPOINT then breakpoint else raiseException)).
Proof.
  intros Hl He Hu. unfold IDT_Initialize.
  destruct (init_vectors_spec entry 256 0 t) as (t1 & E1 & [Hl1 Hg1 He1 Hr1 _]); [split; trivial; intros; lia|lia|lia|]. change (Z.of_nat 256) with 256 in *.
  rewrite (bind_ret _ _ _ _ _ E1), update_ret. eexists. split; [reflexivity|]. cbn [s_IdtEntries exceptionHandlers SetDPL]. split.
  - intros v Hv. destruct (Z.eqb_spec v BREAKPOINT) as [->|Hne].
    + exists (mkGate (entry BREAKPOINT .& 0xffff) GDT.KERNEL_CODE_SELECTOR 0 0xef ((entry BREAKPOINT .& 0xffff0000) .>> 16) ((entry BREAKPOINT .& 0xffffffff00000000) .>> 32) 0).
      split_and!; [|exact (gate_roundtrip (entry BREAKPOINT) 0xef (Hu BREAKPOINT))|reflexivity].
      rewrite list_lookup_alter_eq, (Hg1 BREAKPOINT) by (unfold BREAKPOINT; lia). reflexivity.
    + exists (gate (entry v) (gate_attributes v)). split_and!; [|now apply gate_roundtrip|reflexivity].
      rewrite list_lookup_alter_ne by (unfold BREAKPOINT in *; lia). apply Hg1. lia.
  - intros v Hv. destruct (Z.eqb_spec v PAGE_FAULT) as [->|Hp]; [now rewrite list_lookup_insert_eq by (rewrite length_insert, He1; cbn; lia)|].
    rewrite list_lookup_insert_ne by (unfold PAGE_FAULT in *; lia). destruct (Z.eqb_spec v BREAKPOINT) as [->|Hb]; [now rewrite list_lookup_insert_eq by (rewrite He1; cbn; lia)|].
    rewrite list_lookup_insert_ne by (unfold BREAKPOINT in *; lia). apply Hr1. lia.
Qed.

(** ** Handing out handlers *)
Lemma first_free_some hs start i : first_free hs start = Some i -> start <= i < 256 /\ exists h, hs !! Z.to_nat i = Some h /\ IsUsed h = false /\ IsReserved h = false.
Proof.
  intros H. apply List.find_some in H as [Hi Hf]. apply list_elem_of_In, elem_of_seqZ in Hi. split; [lia|].
  destruct (hs !! Z.to_nat i) as [h|]; [|discriminate]. exists h. destruct (IsUsed h), (IsReserved h); try discriminate. auto.
Qed.
Lemma first_free_none hs start : 0 <= start -> first_free hs start = None -> forall i h, start <= i < 256 -> hs !! Z.to_nat i = Some h -> IsUsed h = true \/ IsReserved h = true.
Proof.
  intros Hs H i h Hi Hh. pose proof (List.find_none _ _ H i ltac:(apply list_elem_of_In, elem_of_seqZ; lia)) as Hf. cbn beta in Hf. rewrite Hh in Hf.
  destruct (IsUsed h), (IsReserved h); try discriminate; auto.
Qed.

(** Drivers ask for handlers and bind routines to those they got; [LegacyPIC] says whether the machine
    has the legacy controller. *)
Inductive history (LegacyPIC : bool) : Tables -> gmap Z (option R) -> Prop :=
| history_start t : Forall (fun h => IsUsed h = false /\ IsReserved h = false) (s_InterruptHandlers t) -> history LegacyPIC t ∅
| history_alloc t owned hint t' v : history LegacyPIC t owned -> 0 <= hint < 256 -> AllocateHandler LegacyPIC hint t = Ret t' v -> history LegacyPIC t' (<[v := None]> owned)
| history_bind t owned v old r t' : history LegacyPIC t owned -> owned !! v = Some old -> Bind v r t = Ret t' tt -> history LegacyPIC t' (<[v := Some r]> owned).

Section Legacy.
Variable LegacyPIC : bool.
(** The sixteen lines of the legacy controller, whose handlers are not reserved. *)
Definition legacy_line (v : Z) : Prop := LegacyPIC = true /\ 0x20 <= v <= 0x2f.
(** The owners' view agrees with the table. *)
Definition agrees t (owned : gmap Z (option R)) : Prop :=
  (forall v r, owned !! v = Some r -> 0x20 <= v < 256 /\ exists h, s_InterruptHandlers t !! Z.to_nat v = Some h /\ (IsReserved h = true \/ legacy_line v) /\ m_Routine h = r) /\
  (forall v h, owned !! v = None -> 0 <= v -> s_InterruptHandlers t !! Z.to_nat v = Some h -> IsUsed h = false).

Lemma allocated hint t t' v : AllocateHandler LegacyPIC hint t = Ret t' v -> 0 <= hint ->
  0x20 <= v < 256 /\ (exists h, s_InterruptHandlers t !! Z.to_nat v = Some h /\ IsUsed h = false /\ (IsReserved h = false \/ legacy_line v))
  /\ (s_InterruptHandlers t' = alter (fun h => SetInterruptVector v (Reserve h)) (Z.to_nat v) (s_InterruptHandlers t) \/ legacy_line v /\ t' = t).
Proof.
  unfold AllocateHandler. set (start := if hint <? 0x20 then hint + 0x20 else hint). intros H Hh.
  assert (Hs : 0x20 <= start) by (unfold start; destruct (Z.ltb_spec hint 0x20); lia).
  destruct (LegacyPIC && (0x20 <=? start) && (start <=? 0x20 + 15) && _) eqn:El.
  - injection H as <- <-. rewrite !andb_true_iff, !Z.leb_le in El. destruct El as (((HL & _) & H2) & H3). assert (legacy_line start) by (split; [exact HL|lia]).
    destruct (s_InterruptHandlers t !! Z.to_nat start) as [h|]; [|discriminate]. apply negb_true_iff in H3. split_and!; [lia|lia|exists h; auto|auto].
  - destruct (first_free _ start) as [i|] eqn:E; [|discriminate]. injection H as <- <-. destruct (first_free_some _ _ _ E) as [Hi (h & H1 & H2 & H3)]. split_and!; [lia|lia|exists h; auto|left; reflexivity].
Qed.
Lemma history_agrees t owned : history LegacyPIC t owned -> agrees t owned.
Proof.
  induction 1 as [t Hf|t owned hint t' v _ [IH1 IH2] Hh Hal|t owned v old r t' _ [IH1 IH2] Hold Hb].
  - split; [intros v r Hv; now rewrite lookup_empty in Hv|]. intros v h _ _ Hh. rewrite Forall_forall in Hf. now apply (Hf h), list_elem_of_In, (list_elem_of_lookup_2 _ _ _ Hh).
  - destruct (allocated _ _ _ _ Hal ltac:(lia)) as (Hv & (h0 & Hh0 & Hu & Hr) & E). assert (Hroutine : m_Routine h0 = None) by (unfold IsUsed in Hu; now destruct (m_Routine h0)).
    assert (Helse : forall w, 0 <= w -> w <> v -> s_InterruptHandlers t' !! Z.to_nat w = s_InterruptHandlers t !! Z.to_nat w) by (intros w Hw Hne; destruct E as [->|[_ ->]]; [now rewrite list_lookup_alter_ne by lia|reflexivity]).
    split.
    + intros w r Hw. destruct (decide (w = v)) as [->|Hne].
      * rewrite lookup_insert_eq in Hw. injection Hw as <-. split; [lia|]. destruct E as [E|[El ->]]; [|exists h0; auto]. rewrite E, list_lookup_alter_eq, Hh0. eexists. split; [reflexivity|]. split_and!; [now left|exact Hroutine].
      * rewrite lookup_insert_ne in Hw by congruence. destruct (IH1 w r Hw) as (Hr1 & h & Hh1 & H2). split; [exact Hr1|]. exists h. split; [|exact H2]. now rewrite Helse by (trivial; lia).
    + intros w h Hw Hw0 Hh1. apply lookup_insert_None in Hw as [Hw Hne]. rewrite Helse in Hh1 by (trivial; congruence). exact (IH2 w h Hw Hw0 Hh1).
  - unfold Bind, update in Hb. injection Hb as <-. unfold agrees. cbn [s_InterruptHandlers with_handlers]. split.
    + intros w r' Hw. destruct (decide (w = v)) as [->|Hne].
      * rewrite lookup_insert_eq in Hw. injection Hw as <-. destruct (IH1 v old Hold) as (Hr1 & h & Hh1 & Hres & _). split; [exact Hr1|]. rewrite list_lookup_alter_eq, Hh1. eexists. split; [reflexivity|]. now split_and!.
      * rewrite lookup_insert_ne in Hw by congruence. destruct (IH1 w r' Hw) as (Hr1 & h & Hh1 & H2). split; [exact Hr1|]. exists h. split; [|exact H2].
        destruct (IH1 v old Hold) as (Hr2 & _). rewrite list_lookup_alter_ne by lia. exact Hh1.
    + intros w h Hw Hw0 Hh1. apply lookup_insert_None in Hw as [Hw Hne]. destruct (IH1 v old Hold) as (Hr2 & _). rewrite list_lookup_alter_ne in Hh1 by lia. exact (IH2 w h Hw Hw0 Hh1).
Qed.

(** C39: In every history of requests and bindings, with or without a legacy controller, a request gets
    a handler with a vector above the exceptions that was not given out before; with a legacy
    controller it can also get one of its sixteen lines that was given out, as long as no routine is
    bound to it.  An interrupt runs the routine its owner bound last, with one end of interrupt; a
    vector given out that has no routine halts the processor. *)
Theorem handlers_reach_owners t owned : history LegacyPIC t owned ->
  (forall hint t' v, 0 <= hint < 256 -> AllocateHandler LegacyPIC hint t = Ret t' v -> 0x20 <= v < 256 /\ (owned !! v = None \/ (LegacyPIC = true /\ v <= 0x2f /\ owned !! v = Some None))) /\
  (forall v r, owned !! v = Some (Some r) -> raiseInterrupt v t = [EndOfInterrupt v; RunRoutine r] \/ raiseInterrupt v t = [RunRoutine r; EndOfInterrupt v]) /\
  (forall v, owned !! v = Some None -> raiseInterrupt v t = [HaltCpu]).
Proof.
  intros H. destruct (history_agrees t owned H) as [H1 _]. split_and!.
  - intros hint t' v Hh Hal. destruct (allocated _ _ _ _ Hal ltac:(lia)) as (Hv & (h & Hh0 & Hu & Hr) & _). split; [lia|].
    destruct (owned !! v) as [r|] eqn:E; [right|now left]. destruct (H1 v r E) as (_ & h' & Hh' & Hr' & Hrt). rewrite Hh0 in Hh'. injection Hh' as <-. unfold IsUsed in Hu. destruct (m_Routine h); [discriminate|]. subst r.
    destruct Hr as [Hr|[HL Hr]]; [|split_and!; trivial; lia]. destruct Hr' as [Hr'|[HL Hr']]; [congruence|split_and!; trivial; lia].
  - intros v r Hv. destruct (H1 v _ Hv) as (Hv' & h & Hh & _ & Hr). unfold raiseInterrupt. destruct (Z.ltb_spec v 0x20); [lia|]. rewrite Hh. destruct h as [first vec routine res]. cbn in Hr. subst. destruct first; auto.
  - intros v Hv. destruct (H1 v _ Hv) as (Hv' & h & Hh & _ & Hr). unfold raiseInterrupt. destruct (Z.ltb_spec v 0x20); [lia|]. rewrite Hh. destruct h. cbn in Hr. now subst.
Qed.
End Legacy.

(** With a legacy controller a handler of its range is not reserved: two requests with the same hint
    get the same handler. *)
Theorem legacy_handler_given_twice t hint h : 0 <= hint < 16 -> s_InterruptHandlers t !! Z.to_nat (hint + 0x20) = Some h -> IsUsed h = false ->
  AllocateHandler true hint t = Ret t (hint + 0x20).
Proof.
  intros Hh Hl Hu. unfold AllocateHandler. rewrite (proj2 (Z.ltb_lt hint 0x20)) by lia. rewrite Hl, Hu.
  rewrite (proj2 (Z.leb_le 0x20 (hint + 0x20))), (proj2 (Z.leb_le (hint + 0x20) (0x20 + 15))) by lia. reflexivity.
Qed.
End Handlers.

(** ** The 8259A controllers *)
Section Pics.
Import PIC.
(** The mask of the sixteen lines. *)
Definition masks (s : Pics) : Z := imr s.1 .| (imr s.2 .<< 8).
Definition ready (s : Pics) : Prop := in_u 8 (imr s.1) /\ in_u 8 (imr s.2) /\ awaited s.1 = O /\ awaited s.2 = O.

Lemma masked_bits x y i j f : in_u 8 x -> in_u 8 y -> 0 <= i < 16 -> 0 <= j ->
  (forall b k, 0 <= k < 8 -> in_u 8 b -> in_u 8 (f b k)) -> (forall b k l, 0 <= k < 8 -> 0 <= l < 8 -> l <> k -> Z.testbit (f b k) l = Z.testbit b l) ->
  j <> i -> Z.testbit (if 8 <=? i then x .| (f y (i - 8) .<< 8) else f x i .| (y .<< 8)) j = Z.testbit (x .| (y .<< 8)) j.
Proof.
  intros Hx Hy Hi Hj Hf Hk Hne. destruct (Z.leb_spec 8 i); rewrite !Z.lor_spec, !bit_shl by lia; destruct (Z.leb_spec 8 j); cbn [andb]; rewrite ?orb_false_r; trivial.
  - destruct (Z.lt_ge_cases j 16); [rewrite Hk by lia; reflexivity|]. rewrite (bit_outside 8 (f y (i - 8))), (bit_outside 8 y); trivial; try lia. apply Hf; trivial; lia.
  - rewrite (bit_outside 8 (f x i)), (bit_outside 8 x); trivial; try lia. apply Hf; trivial; lia.
  - apply Hk; lia.
Qed.

(** Reading the mask of a line, changing it and writing it back. *)
Definition set_mask (f : Z -> Z -> Z) (irq : Z) (s : Pics) : Pics :=
  let with_imr c m := mkChip m (vector_base c) (isr c) (irr c) 0 (reads_isr c) (eois c) in
  if 8 <=? irq then (s.1, with_imr s.2 (f (imr s.2) (irq - 8))) else (with_imr s.1 (f (imr s.1) irq), s.2).
Lemma set_mask_run f irq (s : Pics) : ready s -> (let '(port, k) := line irq in x ← In port; Out port (f x k)) s = Ret (set_mask f irq s) tt.
Proof.
  destruct s as [a b]. intros (_ & _ & Wa & Wb). cbn [fst snd] in *. unfold line, set_mask. destruct (8 <=? irq); cbn; unfold mbind, M_bind, Out, update, In, gets, write_data; cbn; now rewrite ?Wa, ?Wb.
Qed.
Lemma set_mask_others f irq (s : Pics) j : ready s -> 0 <= irq < 16 -> 0 <= j -> j <> irq ->
  (forall b k, 0 <= k < 8 -> in_u 8 b -> in_u 8 (f b k)) -> (forall b k l, 0 <= k < 8 -> 0 <= l < 8 -> l <> k -> Z.testbit (f b k) l = Z.testbit b l) ->
  Z.testbit (masks (set_mask f irq s)) j = Z.testbit (masks s) j.
Proof.
  intros (Ha & Hb & _ & _) Hi Hj Hne Hf Hk. unfold masks. rewrite <- (masked_bits (imr s.1) (imr s.2) irq j f Ha Hb Hi Hj Hf Hk Hne). unfold set_mask. now destruct (8 <=? irq).
Qed.
Lemma set_mask_own f irq (s : Pics) v : ready s -> 0 <= irq < 16 -> (forall b k, 0 <= k < 8 -> in_u 8 b -> Z.testbit (f b k) k = v /\ in_u 8 (f b k)) ->
  Z.testbit (masks (set_mask f irq s)) irq = v.
Proof.
  intros (Ha & Hb & _ & _) Hi Hf. unfold masks, set_mask. destruct (Z.leb_spec 8 irq); cbn [fst snd imr]; rewrite Z.lor_spec, bit_shl by lia.
  - rewrite (bit_outside 8 (imr s.1)) by (trivial; lia). rewrite (proj2 (Z.leb_le 8 irq)) by lia. cbn [orb andb]. apply Hf; trivial; lia.
  - rewrite (proj2 (Z.leb_gt 8 irq)) by lia. cbn [andb]. rewrite orb_false_r. apply Hf; trivial; lia.
Qed.

Definition mask_bit (b k : Z) : Z := u8 (b .| (1 .<< k)).
Definition unmask_bit (b k : Z) : Z := u8 (Z.ldiff b (1 .<< k)).
Lemma mask_bit_spec b k l : 0 <= k < 8 -> 0 <= l < 8 -> Z.testbit (mask_bit b k) l = (l =? k) || Z.testbit b l.
Proof.
  intros Hk Hl. unfold mask_bit, u8. rewrite bit_wrap, Z.lor_spec, Z.shiftl_1_l, Z.pow2_bits_eqb, orb_comm, (Z.eqb_sym k l) by lia.
  rewrite (proj2 (Z.leb_le 0 l)), (proj2 (Z.ltb_lt l 8)) by lia. reflexivity.
Qed.
Lemma unmask_bit_spec b k l : 0 <= k < 8 -> 0 <= l < 8 -> Z.testbit (unmask_bit b k) l = negb (l =? k) && Z.testbit b l.
Proof.
  intros Hk Hl. unfold unmask_bit, u8. rewrite bit_wrap, Z.ldiff_spec, Z.shiftl_1_l, Z.pow2_bits_eqb, (andb_comm (Z.testbit b l)), (Z.eqb_sym k l) by lia.
  rewrite (proj2 (Z.leb_le 0 l)), (proj2 (Z.ltb_lt l 8)) by lia. reflexivity.
Qed.
Lemma in_u8 x : in_u 8 (u8 x).
Proof. unfold in_u, u8, wrap. apply Z.mod_pos_bound. lia. Qed.
(** Masking a line sets its bit in the masks of the two controllers, unmasking clears it, and
    the other lines keep theirs. *)
Theorem Mask_line irq (s : Pics) : 0 <= irq < 16 -> ready s ->
  (exists s', Mask irq s = Ret s' tt /\ Z.testbit (masks s') irq = true /\ forall j, 0 <= j -> j <> irq -> Z.testbit (masks s') j = Z.testbit (masks s) j) /\
  (exists s', Unmask irq s = Ret s' tt /\ Z.testbit (masks s') irq = false /\ forall j, 0 <= j -> j <> irq -> Z.testbit (masks s') j = Z.testbit (masks s) j).
Proof.
  intros Hi Hr. split.
  - exists (set_mask mask_bit irq s). split_and!.
    + exact (set_mask_run mask_bit irq s Hr).
    + apply set_mask_own; trivial. intros b k Hk _. rewrite mask_bit_spec, Z.eqb_refl by trivial. split; [reflexivity|apply in_u8].
    + intros j Hj Hne. apply set_mask_others; trivial; [intros; apply in_u8|]. intros b k l Hk Hl Hlk. rewrite mask_bit_spec by trivial. apply Z.eqb_neq in Hlk. now rewrite Hlk.
  - exists (set_mask unmask_bit irq s). split_and!.
    + exact (set_mask_run unmask_bit irq s Hr).
    + apply set_mask_own; trivial. intros b k Hk _. rewrite unmask_bit_spec, Z.eqb_refl by trivial. split; [reflexivity|apply in_u8].
    + intros j Hj Hne. apply set_mask_others; trivial; [intros; apply in_u8|]. intros b k l Hk Hl Hlk. rewrite unmask_bit_spec by trivial. apply Z.eqb_neq in Hlk. now rewrite Hlk.
Qed.
(** Remapping moves the two controllers to their vectors and keeps their masks. *)
Theorem Remap_keeps_masks m n (s : Pics) : ready s -> exists s', Remap m n s = Ret s' tt /\ vector_base s'.1 = m /\ vector_base s'.2 = n /\ masks s' = masks s /\ ready s'.
Proof.
  destruct s as [a b]. intros (Ha & Hb & Wa & Wb). cbn [fst snd] in *.
  exists (mkChip (imr a) m (isr a) (irr a) 0 (reads_isr a) (eois a), mkChip (imr b) n (isr b) (irr b) 0 (reads_isr b) (eois b)).
  split; [reflexivity|]. cbn. repeat split; trivial; apply Ha || apply Hb.
Qed.
(** The end of an interrupt is announced with its vector instead of its line: the second controller
    is told of the end of interrupts of the first, and no interrupt is taken for spurious. *)
Theorem eoi_gets_vector irq (s : Pics) : 0 <= irq < 16 -> exists s', SendEOI (0x20 + irq) s = Ret s' tt /\ eois s'.1 = S (eois s.1) /\ eois s'.2 = S (eois s.2).
Proof.
  intros Hi. destruct s as [a b]. unfold SendEOI, HandleSpuriousInterrupt. rewrite (proj2 (Z.eqb_neq (0x20 + irq) 8)), (proj2 (Z.eqb_neq (0x20 + irq) 15)) by lia. cbn [negb andb].
  rewrite mret_ret. rewrite (proj2 (Z.leb_le 8 (0x20 + irq))) by lia. eexists. split; [reflexivity|]. split; reflexivity.
Qed.
End Pics.

(** ** Witnesses *)
Definition empty_tables : Tables nat := mkTables (replicate 256 (gate 0 0)) (replicate 256 (mkHandler false 0 None false)) (replicate 32 raiseException).
Lemma IDT_Initialize_gates_witness : exists t', IDT_Initialize (fun v => 0x100000 + 16 * (v mod 256)) empty_tables = Ret t' tt
  /\ exists g, s_IdtEntries t' !! 200%nat = Some g /\ gate_handler g = 0x100c80.
Proof.
  destruct (IDT_Initialize_gates (fun v => 0x100000 + 16 * (v mod 256)) empty_tables) as (t' & E & Hg & _); [reflexivity|reflexivity| |].
  - intros v. pose proof (Z.mod_pos_bound v 256 ltac:(lia)). unfold in_u. cbn beta. lia.
  - exists t'. split; [exact E|]. destruct (Hg 200 ltac:(lia)) as (g & H1 & H2 & _). exists g. split; [exact H1|exact H2].
Defined.
Lemma handlers_reach_owners_witness : exists t owned, history true t owned /\ owned !! 0x21 = Some (Some 7%nat) /\ raiseInterrupt 0x21 t = [RunRoutine 7%nat; EndOfInterrupt 0x21].
Proof.
  assert (H0 : history true empty_tables ∅) by (apply history_start; apply Forall_replicate; split; reflexivity).
  assert (H1 : exists t1, AllocateHandler true 1 empty_tables = Ret t1 0x21 /\ history true t1 {[0x21 := None]}).
  { eexists. split; [vm_compute; reflexivity|]. eapply (history_alloc _ _ ∅ 1); [exact H0|lia|vm_compute; reflexivity]. }
  destruct H1 as (t1 & E1 & H1). vm_compute in E1. injection E1 as <-.
  pose proof (history_bind _ _ _ 0x21 None 7%nat _ H1 eq_refl eq_refl) as H2.
  eexists _, _. split; [exact H2|]. split; [reflexivity|]. destruct (proj1 (proj2 (handlers_reach_owners _ _ _ H2)) 0x21 7%nat eq_refl) as [E|E]; [vm_compute in E; discriminate|exact E].
Defined.
Lemma Mask_line_witness : exists s', PIC.Mask 12 (PIC.mkChip 0xb8 0x20 0 0 0 false 0, PIC.mkChip 0x8f 0x28 0 0 0 false 0) = Ret s' tt /\ Z.testbit (masks s') 12 = true.
Proof.
  destruct (proj1 (Mask_line 12 (PIC.mkChip 0xb8 0x20 0 0 0 false 0, PIC.mkChip 0x8f 0x28 0 0 0 false 0) ltac:(lia) ltac:(repeat split; cbn; lia))) as (s' & E & Hb & _).
  exists s'. split; [exact E|exact Hb].
Defined.
