(* ===== verification/Apic.v ===== *)
(** * The interrupt controllers of the firmware tables

    [Firmware/ACPI/MADT.cpp] and [Arch/x86_64/Drivers/IoApic.cpp]: the table that lists processors
    and interrupt controllers, and the redirection of interrupts to vectors. *)

From Stdlib Require Import ZArith Lia Bool.
From stdpp Require Import base gmap list numbers.
From S2P Require Import Prelude Disk Effects.

(** ** The table *)
Module MADT.
Record LapicEntry := mkLapic { ProcessorID : Z; ApicID : Z; lapic_Flags : Z }.
Record IoApicEntry := mkIoApicEntry { ioapic_ApicID : Z; Address : Z; GsiBase : Z }.
Record IsoEntry := mkIso { BusSource : Z; IrqSource : Z; Gsi : Z; iso_Flags : Z }.
Record LapicNmiEntry := mkNmi { Processor : Z; nmi_Flags : Z; Lint : Z }.
Record Lists := mkLists { s_LapicEntries : list LapicEntry; s_IoApicEntries : list IoApicEntry; s_IsoEntries : list IsoEntry; s_LapicNmiEntries : list LapicNmiEntry }.
Definition MADT_size : Z := 44.
Definition eProcessorLapic : Z := 0x00.
Definition eIoApic : Z := 0x01.
Definition eInterruptSourceOverride : Z := 0x02.
Definition eLapicNmi : Z := 0x04.

Section Table.
(** The memory from the first entry on. *)
Variable mem : Z -> Z.
Definition word (off : Z) (n : nat) : Z := le_word (mem <$> seqZ off (Z.of_nat n)).
(** The copy of one entry. *)
Definition add_entry (off : Z) (l : Lists) : Lists :=
  let id := mem off in
  if id =? eProcessorLapic then mkLists (s_LapicEntries l ++ [mkLapic (mem (off + 2)) (mem (off + 3)) (word (off + 4) 4)]) (s_IoApicEntries l) (s_IsoEntries l) (s_LapicNmiEntries l)
  else if id =? eIoApic then mkLists (s_LapicEntries l) (s_IoApicEntries l ++ [mkIoApicEntry (mem (off + 2)) (word (off + 4) 4) (word (off + 8) 4)]) (s_IsoEntries l) (s_LapicNmiEntries l)
  else if id =? eInterruptSourceOverride then
    mkLists (s_LapicEntries l) (s_IoApicEntries l) (s_IsoEntries l ++ [mkIso (mem (off + 2)) (mem (off + 3)) (word (off + 4) 4) (word (off + 8) 2)]) (s_LapicNmiEntries l)
  else if id =? eLapicNmi then mkLists (s_LapicEntries l) (s_IoApicEntries l) (s_IsoEntries l) (s_LapicNmiEntries l ++ [mkNmi (mem (off + 2)) (word (off + 3) 2) (mem (off + 5))])
  else l.
(** The condition of the loop is computed without sign. *)
Definition more (length off : Z) : bool := 2 <=? u64 (length - MADT_size - off).
Fixpoint entries_loop (turns : nat) (length off : Z) (l : Lists) : option Lists :=
  if more length off then
    match turns with
    | O => None
    | S turns => entries_loop turns length (u64 (off + Z.max (mem (off + 1)) 2)) (add_entry off l)
    end
  else Some l.
(** Entries take two bytes at least. *)
Definition Initialize (length : Z) : option Lists := entries_loop (Z.to_nat length) length 0 (mkLists [] [] [] []).
End Table.
Definition LegacyPIC (Flags : Z) : bool := Z.testbit Flags 0.
End MADT.

(** ** The controllers *)
Module IoApic.
Definition eVersion : Z := 0x01.
Definition eArbitrationID : Z := 0x02.
Definition eRedirectionTableLow : Z := 0x10.
Definition eRedirectionTableHigh : Z := 0x11.

(** A controller with its registers. *)
Record IoApic := mkIoApic { m_Enabled : bool; m_GsiBase : Z; m_RedirectionEntryCount : Z; regs : Z -> Z }.
Definition Read (reg : Z) (c : IoApic) : Z := u32 (regs c reg).
Definition Write (reg value : Z) (c : IoApic) : option IoApic :=
  if (reg =? eVersion) || (reg =? eArbitrationID) then None
  else Some (mkIoApic (m_Enabled c) (m_GsiBase c) (m_RedirectionEntryCount c) (fun r => if r =? reg then u32 value else regs c r)).
Definition new_IoApic (hardware : Z -> Z) (gsiBase : Z) : IoApic := mkIoApic false gsiBase ((u32 (hardware eVersion) .& 0xff0000) .>> 16) hardware.

Definition low_register (gsi : Z) (c : IoApic) : Z := u32 (u32 (gsi - m_GsiBase c) * 2 + eRedirectionTableLow).
Definition high_register (gsi : Z) (c : IoApic) : Z := u32 (u32 (gsi - m_GsiBase c) * 2 + eRedirectionTableHigh).
Definition SetRedirectionEntry (gsi entry : Z) (c : IoApic) : option IoApic :=
  c' ← Write (low_register gsi c) entry c; Write (high_register gsi c) (entry .>> 32) c'.
Definition MaskGsi (gsi : Z) (c : IoApic) : option IoApic :=
  let entry := (u64 (Read (high_register gsi c) c .<< 32) .| Read (low_register gsi c) c) .| (1 .<< 16) in
  SetRedirectionEntry gsi entry c.
Definition MaskAllEntries (c : IoApic) : option IoApic :=
  fold_left (fun c gsi => c ← c; MaskGsi gsi c) (seqZ (m_GsiBase c) (m_RedirectionEntryCount c)) (Some c).
Definition Enable (c : IoApic) : IoApic := mkIoApic true (m_GsiBase c) (m_RedirectionEntryCount c) (regs c).
Definition Disable (c : IoApic) : option IoApic := c ← MaskAllEntries c; Some (mkIoApic false (m_GsiBase c) (m_RedirectionEntryCount c) (regs c)).

(** [IoApicRedirectionEntry]: the fields before [Destination] take 60 bits, so that it does not fit
    into the first eight bytes any more and is placed behind them. *)
Definition redirection_entry (vector : Z) (activeLow level masked : bool) (destination : Z) : Z :=
  (vector .& 0xff) .| (Z.b2z activeLow .<< 13) .| (Z.b2z level .<< 15) .| (Z.b2z masked .<< 16) .| ((destination .& 0xff) .<< 64).
Definition entry_low (e : Z) : Z := u32 e.
Definition entry_high (e : Z) : Z := u32 (e .>> 32).

Definition GetIoApicForGsi (gsi : Z) (cs : list IoApic) : option (nat * IoApic) :=
  list_find (fun c => m_GsiBase c <= gsi < m_GsiBase c + m_RedirectionEntryCount c) cs.
(** Failed assertions and the panic are [None]. *)
Definition SetGsiRedirect (lapicID vector gsi flags : Z) (status : bool) (cs : list IoApic) : option (list IoApic) :=
  let gsi := u8 gsi in
  '(i, c) ← GetIoApicForGsi gsi cs;
  let entry := redirection_entry vector (Z.testbit flags 1) (Z.testbit flags 3) (negb status) lapicID in
  c' ← SetRedirectionEntry gsi (u64 (entry_high entry .<< 32) .| entry_low entry) c;
  Some (<[i := c']> cs).
Definition SetIrqRedirect (isos : list MADT.IsoEntry) (lapicID vector irq : Z) (status : bool) (cs : list IoApic) : option (list IoApic) :=
  match List.find (fun iso => MADT.IrqSource iso =? irq) isos with
  | Some iso => SetGsiRedirect lapicID vector (MADT.Gsi iso) (MADT.iso_Flags iso) status cs
  | None => SetGsiRedirect lapicID vector irq 0 status cs
  end.
Definition IsAnyEnabled (cs : list IoApic) : bool := existsb m_Enabled cs.
(** [IoApic::Initialize]: [hardware] are the registers at an address. *)
Definition init_controller (hardware : Z -> Z -> Z) (cs : option (list IoApic)) (e : MADT.IoApicEntry) : option (list IoApic) :=
  cs ← cs; c ← MaskAllEntries (new_IoApic (hardware (MADT.Address e)) (MADT.GsiBase e)); Some (cs ++ [Enable c]).
Definition Initialize (hardware : Z -> Z -> Z) (entries : list MADT.IoApicEntry) (cs : list IoApic) : option (list IoApic) :=
  if bool_decide (cs <> []) then Some cs else if bool_decide (entries = []) then Some cs else fold_left (init_controller hardware) entries (Some []).
End IoApic.

(** * The interrupt controllers of the firmware tables: theorems *)

Section Madt.
Import MADT.

(** The entries of a table, as the firmware writes them. *)
Inductive Entry := Lapic (e : LapicEntry) | Controller (e : IoApicEntry) | Override (e : IsoEntry) | Nmi (e : LapicNmiEntry) | Other (id : Z) (data : list Z).
Definition encode_entry (e : Entry) : list Z :=
  match e with
  | Lapic e => [0; 8; ProcessorID e; ApicID e] ++ le_bytes 4 (lapic_Flags e)
  | Controller e => [1; 12; ioapic_ApicID e; 0] ++ le_bytes 4 (Address e) ++ le_bytes 4 (GsiBase e)
  | Override e => [2; 10; BusSource e; IrqSource e] ++ le_bytes 4 (Gsi e) ++ le_bytes 2 (iso_Flags e)
  | Nmi e => [4; 6; Processor e] ++ le_bytes 2 (nmi_Flags e) ++ [Lint e]
  | Other id data => [id; 2 + Z.of_nat (length data)] ++ data
  end.
Definition entry_fits (e : Entry) : Prop :=
  match e with
  | Lapic e => in_u 32 (lapic_Flags e)
  | Controller e => in_u 32 (Address e) /\ in_u 32 (GsiBase e)
  | Override e => in_u 32 (Gsi e) /\ in_u 16 (iso_Flags e)
  | Nmi e => in_u 16 (nmi_Flags e)
  | Other id data => (id <> 0 /\ id <> 1 /\ id <> 2 /\ id <> 4) /\ (length data < 250)%nat
  end.
Definition collect (l : Lists) (e : Entry) : Lists :=
  match e with
  | Lapic e => mkLists (s_LapicEntries l ++ [e]) (s_IoApicEntries l) (s_IsoEntries l) (s_LapicNmiEntries l)
  | Controller e => mkLists (s_LapicEntries l) (s_IoApicEntries l ++ [e]) (s_IsoEntries l) (s_LapicNmiEntries l)
  | Override e => mkLists (s_LapicEntries l) (s_IoApicEntries l) (s_IsoEntries l ++ [e]) (s_LapicNmiEntries l)
  | Nmi e => mkLists (s_LapicEntries l) (s_IoApicEntries l) (s_IsoEntries l) (s_LapicNmiEntries l ++ [e])
  | Other _ _ => l
  end.

(** The memory holds these bytes at an offset. *)
Definition holds (mem : Z -> Z) (off : Z) (bs : list Z) : Prop := forall i b, bs !! i = Some b -> mem (off + Z.of_nat i) = b.
Lemma holds_app mem off a b : holds mem off (a ++ b) -> holds mem off a /\ holds mem (off + Z.of_nat (length a)) b.
Proof.
  intros H. split; intros i x Hx.
  - apply H. rewrite lookup_app_l; [exact Hx|]. now apply lookup_lt_Some in Hx.
  - rewrite <- Z.add_assoc, <- Nat2Z.inj_add. apply H. rewrite lookup_app_r by lia. now replace (length a + i - length a)%nat with i by lia.
Qed.
Lemma holds_word mem off n x : holds mem off (le_bytes n x) -> 0 <= x < 256 ^ Z.of_nat n -> word mem off n = x.
Proof.
  intros H Hx. unfold word. replace (mem <$> seqZ off (Z.of_nat n)) with (le_bytes n x); [rewrite le_word_le_bytes; now apply Z.mod_small|].
  apply list_eq. intros i. rewrite list_lookup_fmap. destruct (le_bytes n x !! i) as [b|] eqn:E.
  - pose proof (lookup_lt_Some _ _ _ E) as Hi. rewrite le_bytes_length in Hi. rewrite lookup_seqZ_lt by lia. cbn. now rewrite (H i b E).
  - apply lookup_ge_None in E. rewrite le_bytes_length in E. rewrite lookup_seqZ_ge by lia. reflexivity.
Qed.
Lemma holds_at mem off bs i b : holds mem off bs -> bs !! i = Some b -> mem (off + Z.of_nat i) = b.
Proof. intros H. apply H. Qed.

Lemma add_entry_collects mem off l e : holds mem off (encode_entry e) -> entry_fits e -> add_entry mem off l = collect l e /\ Z.max (mem (off + 1)) 2 = Z.of_nat (length (encode_entry e)).
Proof.
  intros H Hf. pose proof (fun i b => holds_at mem off _ i b H) as At. unfold add_entry.
  assert (H0 : forall b, encode_entry e !! 0%nat = Some b -> mem off = b) by (intros b Hb; rewrite <- (At 0%nat b Hb); f_equal; lia).
  destruct e as [e|e|e|e|id data]; cbn [encode_entry] in H, At, H0 |- *; rewrite (H0 _ eq_refl); rewrite (At 1%nat _ eq_refl : mem (off + 1) = _); cbn [entry_fits] in Hf; cbn [collect].
  - apply holds_app in H as [_ H]. rewrite (At 2%nat _ eq_refl : mem (off + 2) = _), (At 3%nat _ eq_refl : mem (off + 3) = _), (holds_word mem (off + 4) 4 _ H Hf). now destruct e.
  - destruct Hf as [Hf1 Hf2]. apply holds_app in H as [_ H]. apply holds_app in H as [H1 H2]. rewrite le_bytes_length, <- Z.add_assoc in H2.
    rewrite (At 2%nat _ eq_refl : mem (off + 2) = _), (holds_word mem (off + 4) 4 _ H1 Hf1), (holds_word mem (off + 8) 4 _ H2 Hf2). now destruct e.
  - destruct Hf as [Hf1 Hf2]. apply holds_app in H as [_ H]. apply holds_app in H as [H1 H2]. rewrite le_bytes_length, <- Z.add_assoc in H2.
    rewrite (At 2%nat _ eq_refl : mem (off + 2) = _), (At 3%nat _ eq_refl : mem (off + 3) = _), (holds_word mem (off + 4) 4 _ H1 Hf1), (holds_word mem (off + 8) 2 _ H2 Hf2). now destruct e.
  - apply holds_app in H as [_ H]. apply holds_app in H as [H1 H2].
    rewrite (At 2%nat _ eq_refl : mem (off + 2) = _), (At 5%nat _ eq_refl : mem (off + 5) = _), (holds_word mem (off + 3) 2 _ H1 Hf). now destruct e.
  - destruct Hf as [(N0 & N1 & N2 & N4) Hl]. unfold eProcessorLapic, eIoApic, eInterruptSourceOverride, eLapicNmi.
    rewrite (proj2 (Z.eqb_neq id 0) N0), (proj2 (Z.eqb_neq id 1) N1), (proj2 (Z.eqb_neq id 2) N2), (proj2 (Z.eqb_neq id 4) N4). split; [reflexivity|]. rewrite length_app. cbn [length]. lia.
Qed.
Lemma entry_nonempty e : entry_fits e -> (2 <= length (encode_entry e))%nat.
Proof. destruct e; cbn; lia. Qed.

Lemma entries_loop_spec mem es : Forall entry_fits es -> forall turns off length l, holds mem off (concat (encode_entry <$> es)) -> 0 <= off -> length < 2 ^ 32 ->
  length = MADT_size + off + Z.of_nat (List.length (concat (encode_entry <$> es))) -> (List.length es <= turns)%nat ->
  entries_loop mem turns length off l = Some (fold_left collect es l).
Proof.
  induction 1 as [|e es He Hes IH]; intros turns off length l Hm Ho Hb Hl Ht.
  - assert (E : more length off = false). { unfold more. cbn in Hl. rewrite Hl. replace (MADT_size + off + Z.of_nat 0 - MADT_size - off) with 0 by lia. reflexivity. }
    destruct turns; cbn [entries_loop]; rewrite E; reflexivity.
  - destruct turns as [|turns]; [cbn in Ht; lia|]. cbn [entries_loop]. cbn [fmap list_fmap concat] in Hm, Hl. rewrite length_app in Hl. apply holds_app in Hm as [Hm1 Hm2].
    pose proof (entry_nonempty e He). assert (Hsize : MADT_size = 44) by reflexivity.
    assert (E : more length off = true). { unfold more, u64, wrap. rewrite Z.mod_small by lia. apply Z.leb_le. lia. }
    rewrite E. destruct (add_entry_collects mem off l e Hm1 He) as [-> ->].
    assert (Eo : u64 (off + Z.of_nat (List.length (encode_entry e))) = off + Z.of_nat (List.length (encode_entry e))) by (unfold u64, wrap; apply Z.mod_small; lia).
    rewrite Eo. cbn [fold_left]. apply IH; [exact Hm2|lia|lia|lia|cbn in Ht; lia].
Qed.
Lemma entries_count es : Forall entry_fits es -> (List.length es <= List.length (concat (encode_entry <$> es)))%nat.
Proof. induction 1 as [|e es He _ IH]; [cbn; lia|]. cbn [fmap list_fmap concat List.length]. rewrite length_app. pose proof (entry_nonempty e He). lia. Qed.

(** Reading the table the firmware wrote for a list of entries gives its processors, interrupt
    controllers, overrides and non-maskable interrupts, each in their order; entries of other kinds
    are passed over. *)
Theorem MADT_roundtrip mem es : Forall entry_fits es -> holds mem 0 (concat (encode_entry <$> es)) ->
  MADT_size + Z.of_nat (length (concat (encode_entry <$> es))) < 2 ^ 32 ->
  Initialize mem (MADT_size + Z.of_nat (length (concat (encode_entry <$> es)))) = Some (fold_left collect es (mkLists [] [] [] [])).
Proof.
  intros He Hm Hl. unfold Initialize. apply entries_loop_spec; trivial; [lia|]. pose proof (entries_count es He). unfold MADT_size in *. lia.
Qed.
(** An entry that reaches beyond the table is not its last: the rest is computed without sign. *)
Theorem MADT_runs_past_end length off : 0 <= length - MADT_size < off -> off < 2 ^ 63 -> more length off = true.
Proof.
  intros H Ho. unfold more, u64, wrap. apply Z.leb_le. replace (length - MADT_size - off) with ((length - MADT_size - off + 2 ^ 64) + (-1) * 2 ^ 64) by lia.
  rewrite Z.mod_add, Z.mod_small by lia. lia.
Qed.
End Madt.

Section Redirection.
Import IoApic.
Implicit Types (c : IoApic) (cs : list IoApic).

Lemma ioapic_Write_spec reg v c : reg <> eVersion -> reg <> eArbitrationID ->
  Write reg v c = Some (mkIoApic (m_Enabled c) (m_GsiBase c) (m_RedirectionEntryCount c) (fun r => if r =? reg then u32 v else regs c r)).
Proof. intros H1 H2. unfold Write. apply Z.eqb_neq in H1, H2. now rewrite H1, H2. Qed.

(** The lines of a controller. *)
Definition covers c (gsi : Z) : Prop := m_GsiBase c <= gsi < m_GsiBase c + m_RedirectionEntryCount c.
Definition sane c : Prop := 0 <= m_GsiBase c /\ 0 <= m_RedirectionEntryCount c < 256.
Definition table_index c gsi : Z := eRedirectionTableLow + 2 * (gsi - m_GsiBase c).
Lemma registers gsi c : sane c -> covers c gsi -> low_register gsi c = table_index c gsi /\ high_register gsi c = table_index c gsi + 1.
Proof.
  intros Hs Hc. unfold sane, covers in *. unfold low_register, high_register, table_index, eRedirectionTableLow, eRedirectionTableHigh, u32, wrap. rewrite !(Z.mod_small (gsi - m_GsiBase c)) by lia. rewrite !Z.mod_small by lia. lia.
Qed.
Lemma SetRedirectionEntry_spec gsi entry c : sane c -> covers c gsi -> exists c', SetRedirectionEntry gsi entry c = Some c' /\ m_GsiBase c' = m_GsiBase c
  /\ regs c' (table_index c gsi) = u32 entry /\ regs c' (table_index c gsi + 1) = u32 (entry .>> 32)
  /\ forall r, r <> table_index c gsi -> r <> table_index c gsi + 1 -> regs c' r = regs c r.
Proof.
  intros Hs Hc. destruct (registers gsi c Hs Hc) as [El Eh]. unfold SetRedirectionEntry. rewrite El, Eh. unfold covers in Hc.
  assert (0x10 <= table_index c gsi) by (unfold table_index, eRedirectionTableLow; lia).
  rewrite ioapic_Write_spec by (unfold eVersion, eArbitrationID; lia). cbn [mbind option_bind]. rewrite ioapic_Write_spec by (unfold eVersion, eArbitrationID; lia).
  eexists. split; [reflexivity|]. cbn [regs m_GsiBase]. split_and!; [reflexivity| | |].
  - rewrite (proj2 (Z.eqb_neq _ (table_index c gsi + 1))) by lia. now rewrite Z.eqb_refl.
  - now rewrite Z.eqb_refl.
  - intros r H1 H2. apply Z.eqb_neq in H1, H2. now rewrite H1, H2.
Qed.

(** The low half of an entry: the vector, the polarity, the trigger mode and the mask. *)
Definition low_half (vector : Z) (activeLow level masked : bool) : Z := (vector .& 0xff) .| (Z.b2z activeLow .<< 13) .| (Z.b2z level .<< 15) .| (Z.b2z masked .<< 16).
Lemma bit_b2z b i : Z.testbit (Z.b2z b) i = b && (i =? 0).
Proof. destruct (Z.eqb_spec i 0) as [->|H]; [rewrite andb_true_r; now destruct b|]. rewrite andb_false_r. apply (bit_outside 1); [destruct b; unfold in_u; cbn; lia|lia|lia]. Qed.
Lemma low_half_u32 vector a l m : in_u 32 (low_half vector a l m).
Proof.
  unfold low_half. assert (H : forall b k, 0 <= k < 31 -> in_u 32 (Z.b2z b .<< k)).
  { intros b k Hk. unfold in_u. rewrite Z.shiftl_mul_pow2 by lia. pose proof (Z.pow_lt_mono_r 2 k 32 ltac:(lia) ltac:(lia) ltac:(lia)). pose proof (Z.pow_pos_nonneg 2 k ltac:(lia) ltac:(lia)). destruct b; cbn [Z.b2z]; lia. }
  repeat apply in_u_lor; try lia; try (apply H; lia). change 0xff with (Z.ones 8). rewrite Z.land_ones by lia. pose proof (Z.mod_pos_bound vector (2 ^ 8) ltac:(lia)). unfold in_u. lia.
Qed.
Lemma entry_halves vector a l m d : u64 (entry_high (redirection_entry vector a l m d) .<< 32) .| entry_low (redirection_entry vector a l m d) = low_half vector a l m.
Proof.
  pose proof (low_half_u32 vector a l m) as H. unfold redirection_entry, entry_high, entry_low, u32, u64. fold (low_half vector a l m).
  change 0xff with (window 0 8). fields i.
  destruct (Z.lt_ge_cases i 32); [|destruct (Z.lt_ge_cases i 64)]; positions; beyond 32 (low_half vector a l m); trivial.
Qed.

(** Redirecting an interrupt writes the vector, the polarity, the trigger mode and the mask, as
    the override of the interrupt says, into the entry of its line, and nothing else of any
    controller changes. *)
Theorem SetIrqRedirect_entry isos lapicID vector irq status cs i c : 
  let iso := List.find (fun iso => MADT.IrqSource iso =? irq) isos in
  let gsi := match iso with Some iso => MADT.Gsi iso | None => irq end in
  let flags := match iso with Some iso => MADT.iso_Flags iso | None => 0 end in
  in_u 8 gsi -> GetIoApicForGsi gsi cs = Some (i, c) -> sane c ->
  exists c', SetIrqRedirect isos lapicID vector irq status cs = Some (<[i := c']> cs)
    /\ regs c' (table_index c gsi) = low_half vector (Z.testbit flags 1) (Z.testbit flags 3) (negb status)
    /\ regs c' (table_index c gsi + 1) = 0
    /\ forall r, r <> table_index c gsi -> r <> table_index c gsi + 1 -> regs c' r = regs c r.
Proof.
  intros iso gsi flags Hg Hfind Hs. assert (E : SetIrqRedirect isos lapicID vector irq status cs = SetGsiRedirect lapicID vector gsi flags status cs).
  { unfold SetIrqRedirect, gsi, flags, iso. now destruct (List.find _ isos). }
  rewrite E. unfold SetGsiRedirect. replace (u8 gsi) with gsi by (unfold u8, wrap; symmetry; now apply Z.mod_small). rewrite Hfind. cbn [mbind option_bind].
  assert (Hc : covers c gsi) by (apply list_find_Some in Hfind; apply Hfind). rewrite entry_halves.
  destruct (SetRedirectionEntry_spec gsi (low_half vector (Z.testbit flags 1) (Z.testbit flags 3) (negb status)) c Hs Hc) as (c' & E' & _ & H1 & H2 & H3). rewrite E'. cbn [mbind option_bind].
  pose proof (low_half_u32 vector (Z.testbit flags 1) (Z.testbit flags 3) (negb status)) as Hu.
  exists c'. split_and!; trivial.
  - rewrite H1. unfold u32, wrap. now apply Z.mod_small.
  - rewrite H2. rewrite Z.shiftr_div_pow2, Z.div_small by (unfold in_u in *; lia). reflexivity.
Qed.
(** The processor the interrupt is for is not written anywhere. *)
Theorem destination_ignored isos lapicID lapicID' vector irq status cs : SetIrqRedirect isos lapicID vector irq status cs = SetIrqRedirect isos lapicID' vector irq status cs.
Proof. unfold SetIrqRedirect, SetGsiRedirect. destruct (List.find _ _); rewrite !entry_halves; destruct (GetIoApicForGsi _ _) as [[]|]; cbn [mbind option_bind]; rewrite ?entry_halves; reflexivity. Qed.
(** The last line of a controller is not reached: its version register holds the number of the last
    entry, which is taken for their number. *)
Theorem last_line_unreachable hardware : u32 (hardware eVersion) = 0x00170020 -> GetIoApicForGsi 22 [new_IoApic hardware 0] <> None /\ GetIoApicForGsi 23 [new_IoApic hardware 0] = None.
Proof. intros H. unfold GetIoApicForGsi, new_IoApic. rewrite H. split; vm_compute; [discriminate|reflexivity]. Qed.
End Redirection.

(** ** Witnesses *)
Definition table : list Entry := [Lapic (MADT.mkLapic 0 0 1); Other 5 [0; 0; 1; 2; 3; 4; 5; 6; 7; 8]; Controller (MADT.mkIoApicEntry 0 0xfec00000 0); Override (MADT.mkIso 0 0 2 0); Nmi (MADT.mkNmi 255 5 1)].
Definition table_bytes : list Z := concat (encode_entry <$> table).
Lemma MADT_roundtrip_witness : MADT.Initialize (fun i => nth (Z.to_nat i) table_bytes 0) (44 + Z.of_nat (length table_bytes))
  = Some (MADT.mkLists [MADT.mkLapic 0 0 1] [MADT.mkIoApicEntry 0 0xfec00000 0] [MADT.mkIso 0 0 2 0] [MADT.mkNmi 255 5 1]).
Proof.
  refine (MADT_roundtrip (fun i => nth (Z.to_nat i) table_bytes 0) table _ _ _).
  - unfold table. repeat (apply List.Forall_cons; [cbn; unfold in_u; cbn; lia|]). apply List.Forall_nil.
  - intros i b Hb. rewrite Z.add_0_l, Nat2Z.id. apply nth_lookup_Some with (d := 0) in Hb. exact Hb.
  - vm_compute. reflexivity.
Defined.
Lemma SetIrqRedirect_entry_witness : exists c', IoApic.SetIrqRedirect [MADT.mkIso 0 0 2 0] 0 0x20 0 true [IoApic.mkIoApic true 0 23 (fun _ => 0x10000)] = Some [c'] /\ IoApic.regs c' 0x14 = 0x20.
Proof.
  destruct (SetIrqRedirect_entry [MADT.mkIso 0 0 2 0] 0 0x20 0 true [IoApic.mkIoApic true 0 23 (fun _ => 0x10000)] 0 (IoApic.mkIoApic true 0 23 (fun _ => 0x10000))) as (c' & E & H & _).
  - split; cbn; lia.
  - reflexivity.
  - split; cbn; lia.
  - exists c'. split; [exact E|exact H].
Defined.
