(* ===== verification/HardwareTimers.v ===== *)
(** * Clocks and timers of the machine

    [Arch/x86_64/CMOS.cpp], [Arch/x86_64/Drivers/Time/RTC.cpp], [PIT.cpp] and [Lapic.cpp]. *)

From Stdlib Require Import ZArith Lia Bool.
From stdpp Require Import base list numbers.
From S2P Require Import Prelude.

(** ** The real time clock *)
Module RTC.
Definition eRtcSeconds : Z := 0x00.
Definition eRtcMinutes : Z := 0x02.
Definition eRtcHours : Z := 0x04.
Definition eRtcDayOfMonth : Z := 0x07.
Definition eRtcMonth : Z := 0x08.
Definition eRtcYear : Z := 0x09.
Definition eRtcStatusA : Z := 0x0a.
Definition eRtcStatusB : Z := 0x0b.
Definition eRtcCentury : Z := 0x32.
Definition BcdToBin (bcd : Z) : Z := u8 ((bcd .& 0x0f) + (bcd .>> 4) * 10).

Section Clock.
(** The registers of the clock at every moment; each access takes a moment. *)
Variable cmos : nat -> Z -> Z.
Definition IsUpdateInProgress (t : nat) : bool := Z.testbit (cmos t eRtcStatusA) 7.
(** [while (IsUpdateInProgress())], for a number of moments. *)
Fixpoint wait (moments t : nat) : option nat :=
  if IsUpdateInProgress t then match moments with O => None | S moments => wait moments (S t) end else Some (S t).
Definition ReadRegister (moments : nat) (reg : Z) (t : nat) : option (nat * Z) :=
  t ← wait moments t;
  let value := cmos t reg in
  Some (S (S t), if Z.testbit (cmos (S t) eRtcStatusB) 2 then value else BcdToBin value).
(** [GetCentury]; [centuryAvailable] is what [ACPI::GetCentury] says. *)
Definition GetCentury (moments : nat) (centuryAvailable : bool) (t : nat) : option (nat * Z) :=
  if centuryAvailable then ReadRegister moments eRtcCentury t else Some (t, 20).
Record DateTime := mkDate { Year : Z; Month : Z; Day : Z; Hour : Z; Minute : Z; Second : Z }.
(** [CurrentTime], up to the conversion to seconds. *)
Definition CurrentTime (moments : nat) (centuryAvailable : bool) (t : nat) : option (nat * DateTime) :=
  t ← wait moments t;
  '(t, _) ← ReadRegister moments eRtcStatusB t;
  '(t, century) ← GetCentury moments centuryAvailable t;
  '(t, year) ← ReadRegister moments eRtcYear t;
  '(t, month) ← ReadRegister moments eRtcMonth t;
  '(t, day) ← ReadRegister moments eRtcDayOfMonth t;
  '(t, hour) ← ReadRegister moments eRtcHours t;
  '(t, minute) ← ReadRegister moments eRtcMinutes t;
  '(t, second) ← ReadRegister moments eRtcSeconds t;
  Some (t, mkDate (century * 100 + year) month day hour minute second).
(** The time of the day in seconds, as an 8-bit number. *)
Definition GetTime (moments : nat) (t : nat) : option (nat * Z) :=
  '(t, hour) ← ReadRegister moments eRtcHours t;
  '(t, minute) ← ReadRegister moments eRtcMinutes t;
  '(t, second) ← ReadRegister moments eRtcSeconds t;
  Some (t, u8 (hour * 3600 + minute * 60 + second)).
(** [while (lastSecond != GetTime())] of [Sleep], for a number of turns; [None] while it waits. *)
Fixpoint sleep_loop (turns moments : nat) (lastSecond : Z) (t : nat) : option nat :=
  match turns with
  | O => None
  | S turns => '(t, now) ← GetTime moments t; if lastSecond =? now then Some t else sleep_loop turns moments lastSecond t
  end.
End Clock.
End RTC.

(** ** The programmable interval timer *)
Module PIT.
Definition BASE_FREQUENCY : Z := 1193182.
Definition FREQUENCY : Z := 1000.
Definition SEND_WORD : Z := 0x30.
Definition CHANNEL0_DATA : Z := 0x40.
Definition COMMAND : Z := 0x43.
Definition SELECT_CHANNEL0 : Z := 0x00.
Definition eOneShot : Z := 0x02.
Definition eRate : Z := 0x04.
Definition eSquareWave : Z := 0x06.

(** What is written to the ports. *)
Definition SetReloadValue (mode reloadValue : Z) : list (Z * Z) :=
  let reloadValue := u16 reloadValue in
  [(COMMAND, u8 (SEND_WORD .| mode)); (CHANNEL0_DATA, u8 reloadValue); (CHANNEL0_DATA, u8 (reloadValue .>> 8))].
Definition reload_for (frequency : Z) : Z :=
  let reloadValue := BASE_FREQUENCY / frequency in
  if frequency / 2 <? BASE_FREQUENCY mod frequency then reloadValue + 1 else reloadValue.
Definition SetFrequency (mode frequency : Z) : list (Z * Z) := SetReloadValue mode (reload_for frequency).
(** The constructor sets a tenth of the frequency. *)
Definition new_PIT : list (Z * Z) := SetFrequency eRate (FREQUENCY / 10).
Definition Start (oneShot : bool) (milliseconds : Z) : list (Z * Z) :=
  let mode := if oneShot then eOneShot else eSquareWave in
  SetReloadValue mode (u64 (milliseconds * BASE_FREQUENCY) / 3000) ++ [(COMMAND, u8 (CHANNEL0_DATA .| SEND_WORD .| mode))].
Definition Stop (mode : Z) : list (Z * Z) := SetReloadValue mode 0.
(** The two bytes of the counter. *)
Definition GetCurrentCount (lo hi : Z) : Z := let hi := hi .<< 8 in u16 (hi .<< 8) .| lo.
(** The nanoseconds [Tick] advances the clock by. *)
Definition Tick_ns : Z := (1000 / FREQUENCY) * 1000000.
(** The value the timer counts down from after a word was written to its channel. *)
Definition loaded (writes : list (Z * Z)) : option Z :=
  match List.filter (fun w => w.1 =? CHANNEL0_DATA) writes with [(_, lo); (_, hi)] => Some (lo + 256 * hi) | _ => None end.
End PIT.

(** ** The timer of the local APIC *)
Module Lapic.
Definition LAPIC_EOI_ACK : Z := 0x00.
Definition LAPIC_EOI_REGISTER : Z := 0xb0.
Definition LAPIC_ICR_LOW_REGISTER : Z := 0x300.
Definition LAPIC_ICR_HIGH_REGISTER : Z := 0x310.
Definition LAPIC_TIMER_REGISTER : Z := 0x320.
Definition LAPIC_LINT0_REGISTER : Z := 0x350.
Definition LAPIC_LINT1_REGISTER : Z := 0x360.
Definition LAPIC_TIMER_INITIAL_COUNT_REGISTER : Z := 0x380.
Definition LAPIC_TIMER_CURRENT_COUNT_REGISTER : Z := 0x390.
Definition LAPIC_TIMER_DIVIDER_REGISTER : Z := 0x3e0.

Record Lapic := mkLapic { m_X2Apic : bool; m_TicksPerMs : Z; regs : Z -> Z }.
(** Without x2APIC the register at the base address is read, whatever the register. *)
Definition Read (reg : Z) (l : Lapic) : Z := u32 (if m_X2Apic l then regs l reg else regs l 0).
Definition Write (reg value : Z) (l : Lapic) : Lapic :=
  mkLapic (m_X2Apic l) (m_TicksPerMs l) (fun r => if r =? reg then (if m_X2Apic l then u64 value else u32 value) else regs l r).
Definition SendEOI (l : Lapic) : Lapic := Write LAPIC_EOI_REGISTER LAPIC_EOI_ACK l.
Definition SendIpi (flags id : Z) (l : Lapic) : Lapic :=
  if negb (m_X2Apic l) then Write LAPIC_ICR_LOW_REGISTER flags (Write LAPIC_ICR_HIGH_REGISTER (u32 (id .<< 24)) l)
  else Write LAPIC_ICR_LOW_REGISTER (u64 (id .<< 32) .| (1 .<< 14) .| flags) l.
Definition CalibrateTimer (l : Lapic) : Lapic :=
  let l := Write LAPIC_TIMER_DIVIDER_REGISTER 0x03 l in
  let l := Write LAPIC_TIMER_INITIAL_COUNT_REGISTER 0xffffffff l in
  let l := Write LAPIC_TIMER_REGISTER (Z.ldiff (Read LAPIC_TIMER_REGISTER l) (1 .<< 16)) l in
  let l := Write LAPIC_TIMER_REGISTER (Read LAPIC_TIMER_REGISTER l .| (1 .<< 16)) l in
  mkLapic (m_X2Apic l) (u32 (0xffffffff - Read LAPIC_TIMER_CURRENT_COUNT_REGISTER l)) (regs l).
Definition Start (mode vector milliseconds : Z) (l : Lapic) : Lapic :=
  let l := if m_TicksPerMs l =? 0 then CalibrateTimer l else l in
  let ticks := u64 (m_TicksPerMs l * milliseconds) in
  let l := Write LAPIC_TIMER_DIVIDER_REGISTER 0x03 l in
  let value := Z.ldiff (Read LAPIC_TIMER_REGISTER l) (3 .<< 17) in
  let value := value .| (mode .<< 17) in
  let value := value .& 0xffffff00 in
  let value := value .| vector in
  let l := Write LAPIC_TIMER_REGISTER value l in
  let l := Write LAPIC_TIMER_INITIAL_COUNT_REGISTER (if ticks =? 0 then 1 else ticks) l in
  Write LAPIC_TIMER_REGISTER (Z.ldiff (Read LAPIC_TIMER_REGISTER l) (1 .<< 16)) l.
Definition Stop (l : Lapic) : Lapic := Write LAPIC_TIMER_REGISTER (1 .<< 16) (Write LAPIC_TIMER_INITIAL_COUNT_REGISTER 0 l).
Definition SetNmi (vector currentCPUID cpuID flags lint : Z) (l : Lapic) : Lapic :=
  if negb (cpuID =? 0xff) && negb (currentCPUID =? cpuID) then l
  else
    let nmi := 0x400 .| vector in
    let nmi := if Z.testbit flags 1 then nmi .| (1 .<< 13) else nmi in
    let nmi := if Z.testbit flags 3 then nmi .| (1 .<< 15) else nmi in
    if lint =? 0 then Write LAPIC_LINT0_REGISTER nmi l else if lint =? 1 then Write LAPIC_LINT1_REGISTER nmi l else l.
End Lapic.

(** ** Theorems *)

(** A number of two decimal digits, one in each half of the byte. *)
Definition to_bcd (n : Z) : Z := 16 * (n / 10) + n mod 10.
Theorem bcd_roundtrip n : 0 <= n < 100 -> RTC.BcdToBin (to_bcd n) = n.
Proof.
  intros H. assert (G : forallb (fun n => RTC.BcdToBin (to_bcd n) =? n) (seqZ 0 100) = true) by (vm_compute; reflexivity).
  rewrite forallb_forall in G. apply Z.eqb_eq, G, list_elem_of_In, elem_of_seqZ. lia.
Qed.

(** A sleep whose end is beyond the 8-bit time of the day never ends. *)
Theorem rtc_sleep_never_ends cmos turns moments lastSecond t : 256 <= lastSecond -> RTC.sleep_loop cmos turns moments lastSecond t = None.
Proof.
  intros Hl. revert t. induction turns as [|turns IH]; intros t; [reflexivity|]. cbn [RTC.sleep_loop]. destruct (RTC.GetTime cmos moments t) as [[t' now]|] eqn:E; [|reflexivity].
  cbn [mbind option_bind]. assert (Hn : 0 <= now < 256).
  { revert E. unfold RTC.GetTime. repeat (destruct (RTC.ReadRegister _ _ _ _) as [[]|]; [|discriminate]; cbn [mbind option_bind]). intros [= _ <-]. unfold u8, wrap. apply Z.mod_pos_bound. lia. }
  rewrite (proj2 (Z.eqb_neq lastSecond now)) by lia. apply IH.
Qed.

(** [SetFrequency] loads the timer with the divisor that comes nearest to the frequency. *)
Theorem SetFrequency_nearest mode frequency : 19 <= frequency <= PIT.BASE_FREQUENCY ->
  exists reload, PIT.loaded (PIT.SetFrequency mode frequency) = Some reload /\ 2 * Z.abs (PIT.BASE_FREQUENCY - reload * frequency) <= frequency + 1.
Proof.
  intros Hf. set (reload := PIT.reload_for frequency). exists reload.
  assert (Hr : 0 <= reload < 2 ^ 16 /\ 2 * Z.abs (PIT.BASE_FREQUENCY - reload * frequency) <= frequency + 1).
  { unfold reload, PIT.reload_for. set (B := PIT.BASE_FREQUENCY) in *. assert (HB : B = 1193182) by reflexivity.
    pose proof (Z.div_mod B frequency ltac:(lia)) as E. pose proof (Z.mod_pos_bound B frequency ltac:(lia)) as M. pose proof (Z.div_le_lower_bound B frequency 0 ltac:(lia) ltac:(lia)) as L.
    assert (U : B / frequency < 62800) by (apply Z.div_lt_upper_bound; nia). pose proof (Z.div_mod frequency 2 ltac:(lia)) as F. pose proof (Z.mod_pos_bound frequency 2 ltac:(lia)).
    destruct (Z.ltb_spec (frequency / 2) (B mod frequency)); split; nia. }
  split; [|apply Hr]. unfold PIT.SetFrequency, PIT.SetReloadValue, PIT.loaded. fold reload. cbn [List.filter fst Z.eqb Pos.eqb PIT.COMMAND PIT.CHANNEL0_DATA].
  unfold u16, u8, wrap. rewrite (Z.mod_small reload) by lia. rewrite Z.shiftr_div_pow2 by lia. f_equal. rewrite (Z.mod_small (reload / 2 ^ 8)) by (split; [apply Z.div_pos; lia|apply Z.div_lt_upper_bound; lia]).
  pose proof (Z.div_mod reload (2 ^ 8) ltac:(lia)). lia.
Qed.
(** The timer is set to 100 interrupts in a second, and each advances the clock by a millisecond. *)
Theorem pit_clock_is_slow : PIT.loaded PIT.new_PIT = Some (PIT.reload_for 100) /\ 100 * PIT.Tick_ns = 1000000000 / 10.
Proof. split; reflexivity. Qed.
(** One millisecond is programmed as a third of it. *)
Theorem pit_interval_too_short : PIT.loaded (PIT.Start true 1) = Some 397 /\ PIT.BASE_FREQUENCY / 1000 = 1193.
Proof. split; reflexivity. Qed.
(** The upper byte of the counter is lost. *)
Theorem pit_count_loses_high lo hi : PIT.GetCurrentCount lo hi = lo.
Proof. unfold PIT.GetCurrentCount. rewrite Z.shiftl_shiftl by lia. unfold u16, wrap. rewrite Z.shiftl_mul_pow2 by lia. change (8 + 8) with 16. rewrite Z.mod_mul by lia. reflexivity. Qed.

(** [Start] with x2APIC sets the vector, the mode and the count of the timer, unmasks it, and
    keeps the other bits of its register. *)
Theorem Lapic_Start_programs l mode vector ms : Lapic.m_X2Apic l = true -> Lapic.m_TicksPerMs l <> 0 -> 0 <= mode < 4 -> in_u 8 vector ->
  let l' := Lapic.Start mode vector ms l in
  let lvt := Lapic.regs l' Lapic.LAPIC_TIMER_REGISTER in
  lvt .& 0xff = vector /\ (lvt .>> 17) .& 3 = mode /\ Z.testbit lvt 16 = false /\
  Lapic.regs l' Lapic.LAPIC_TIMER_INITIAL_COUNT_REGISTER = (let ticks := u64 (Lapic.m_TicksPerMs l * ms) in if ticks =? 0 then 1 else ticks) /\
  Lapic.regs l' Lapic.LAPIC_TIMER_DIVIDER_REGISTER = 0x03.
Proof.
  intros Hx Ht Hm Hv. cbv zeta. unfold Lapic.Start. apply Z.eqb_neq in Ht. rewrite Ht. unfold Lapic.Write, Lapic.Read.
  cbn [Lapic.m_X2Apic Lapic.m_TicksPerMs Lapic.regs Z.eqb Pos.eqb Lapic.LAPIC_TIMER_REGISTER Lapic.LAPIC_TIMER_INITIAL_COUNT_REGISTER Lapic.LAPIC_TIMER_DIVIDER_REGISTER].
  rewrite Hx. change (Lapic.regs l Lapic.LAPIC_TIMER_REGISTER) with (Lapic.regs l 0x320). set (x := Lapic.regs l 0x320). clearbody x. assert (Hmode : in_u 2 mode) by exact Hm. unfold u32, u64.
  change (3 .<< 17) with (window 17 2). change 0xffffff00 with (window 8 24). change (1 .<< 16) with (window 16 1). change 0xff with (window 0 8).
  match goal with |- context [?y .& 3] => change (y .& 3) with (y .& window 0 2) end.
  split_and!.
  - fields i. destruct (Z.lt_ge_cases i 8); positions; beyond 8 vector; trivial; beyond 2 mode; trivial.
  - fields i. destruct (Z.lt_ge_cases i 2); positions; beyond 8 vector; beyond 2 mode; trivial. rewrite ?orb_false_r. f_equal. lia.
  - autorewrite with fields. now positions.
  - destruct (Z.eqb_spec (wrap 64 (Lapic.m_TicksPerMs l * ms)) 0); [reflexivity|]. unfold wrap. now rewrite Z.mod_mod by lia.
  - reflexivity.
Qed.
(** Without x2APIC every register reads as the first. *)
Theorem lapic_read_ignores_register l reg reg' : Lapic.m_X2Apic l = false -> Lapic.Read reg l = Lapic.Read reg' l.
Proof. intros H. unfold Lapic.Read. now rewrite H. Qed.

Lemma SetFrequency_nearest_witness : exists reload, PIT.loaded (PIT.SetFrequency PIT.eRate 1000) = Some reload /\ reload = 1193.
Proof. destruct (SetFrequency_nearest PIT.eRate 1000 ltac:(vm_compute; split; discriminate)) as (r & E & _). exists r. split; [exact E|]. vm_compute in E. congruence. Defined.
Lemma Lapic_Start_programs_witness : Lapic.regs (Lapic.Start 1 0x30 5 (Lapic.mkLapic true 1000 (fun _ => 0))) Lapic.LAPIC_TIMER_INITIAL_COUNT_REGISTER = 5000.
Proof. exact (proj1 (proj2 (proj2 (proj2 (Lapic_Start_programs (Lapic.mkLapic true 1000 (fun _ => 0)) 1 0x30 5 eq_refl ltac:(discriminate) ltac:(lia) ltac:(split; lia)))))). Defined.
