(* ===== verification/I8042.v ===== *)
(** * The PS/2 controller

    [Arch/x86_64/Drivers/I8042Controller.cpp]: the driver of the keyboard controller, over its two
    ports.  The chip is a parameter; a chip that answers at once is given below. *)

From Stdlib Require Import ZArith Lia Bool.
From stdpp Require Import base list numbers.
From S2P Require Import Prelude Posix Effects.

(** [IO::In<byte>] and [IO::Out<byte>] on the ports of the chip. *)
Class Ports (H : Type) := { in_port : Z -> H -> H * Z; out_port : Z -> Z -> H -> H }.

Definition eBuffer : Z := 0x60.
Definition port_eCommand : Z := 0x64.
Definition port_eStatus : Z := 0x64.
Definition eReadConfigurationByte : Z := 0x20.
Definition eWriteConfigurationByte : Z := 0x60.
Definition eDisablePort2 : Z := 0xa7.
Definition eEnablePort2 : Z := 0xa8.
Definition eTestPort2 : Z := 0xa9.
Definition eTestController : Z := 0xaa.
Definition eTestPort1 : Z := 0xab.
Definition eDisablePort1 : Z := 0xad.
Definition eEnablePort1 : Z := 0xae.
Definition eWriteToPort2 : Z := 0xd4.
Definition eEnablePort1Irq : Z := 0x01.
Definition eEnablePort2Irq : Z := 0x02.
Definition eDisablePort1Clock : Z := 0x10.
Definition eDisablePort2Clock : Z := 0x20.
Definition eEnablePort1Translation : Z := 0x40.
Definition ePortTestSuccess : Z := 0x00.
Definition eSelfTestSuccess : Z := 0x55.
Definition eDeviceTestPassed : Z := 0xaa.
Definition eAcknowledge : Z := 0xfa.
Definition eResend : Z := 0xfe.
Definition eIdentify : Z := 0xf2.
Definition eEnableScanning : Z := 0xf4.
Definition eDisableScanning : Z := 0xf5.
Definition eReset : Z := 0xff.
Inductive DevicePort := ePort1 | ePort2.
Definition is_port1 (p : DevicePort) : bool := match p with ePort1 => true | ePort2 => false end.
Inductive Ps2DeviceType := eUndefined | eATKeyboard | eStandardMouse | eScrollWheelMouse | e5ButtonMouse | eMf2Keyboard | eThinkPadKeyboard | eNcdKeyboard
  | eStandardKeyboard | eJapaneseGKeyboard | eJapanesePKeyboard | eJapaneseAKeyboard.
Definition EIO : Z := 5.
Definition EBUSY : Z := 16.

Definition ToPs2DeviceType (byte1 byte2 : option Z) : Ps2DeviceType :=
  let b1 d := default d byte1 in
  let b2 := default 0 byte2 in
  let no2 := if byte2 then false else true in
  if (if byte1 then false else true) && no2 then eATKeyboard
  else if (b1 1 =? 0x00) && no2 then eStandardMouse
  else if (b1 0 =? 0x03) && no2 then eScrollWheelMouse
  else if (b1 0 =? 0x04) && no2 then e5ButtonMouse
  else if (b1 0 =? 0xab) && ((b2 =? 0x83) || (b2 =? 0xc1)) then eMf2Keyboard
  else if (b1 0 =? 0xab) && (b2 =? 0x84) then eThinkPadKeyboard
  else if (b1 0 =? 0xab) && (b2 =? 0x85) then eNcdKeyboard
  else if (b1 0 =? 0xab) && (b2 =? 0x86) then eStandardKeyboard
  else if (b1 0 =? 0xab) && (b2 =? 0x90) then eJapaneseGKeyboard
  else if (b1 0 =? 0xab) && (b2 =? 0x91) then eJapanesePKeyboard
  else if (b1 0 =? 0xab) && (b2 =? 0x92) then eJapaneseAKeyboard
  else if (b1 0 =? 0xac) && (b2 =? 0xa1) then eNcdKeyboard
  else eUndefined.

Section Controller.
Context {H : Type} {PO : Ports H}.
Record State := mkState { chip : H; m_Port1Available : bool; m_Port2Available : bool }.
Notation M := (M State).
(** Turns of the loops that wait for ever. *)
Variable patience : nat.

Definition ReadPort (port : Z) : M Z := fun s => let '(h, v) := in_port port (chip s) in Ret (mkState h (m_Port1Available s) (m_Port2Available s)) v.
Definition WritePort (port data : Z) : M unit := update (fun s => mkState (out_port port data (chip s)) (m_Port1Available s) (m_Port2Available s)).
Definition IsOutputEmpty : M bool := status ← ReadPort port_eStatus; mret (status .& 1 =? 0).
Definition IsInputEmpty : M bool := status ← ReadPort port_eStatus; mret (status .& 2 =? 0).

Fixpoint wait_until (turns : nat) (ready : M bool) : M unit :=
  match turns with O => diverges | S turns => ok ← ready; if (ok : bool) then mret tt else wait_until turns ready end.
Definition ReadBlocking : M Z := _ ← wait_until patience (empty ← IsOutputEmpty; mret (negb empty)); ReadPort eBuffer.
Definition WriteBlocking (port data : Z) : M unit := _ ← wait_until patience IsInputEmpty; WritePort port data.

(** [WaitForIncomingData] and [WaitForWriteReady] *)
Definition READ_WRITE_TIMEOUT : nat := Z.to_nat 10000.
Fixpoint try_until (tries : nat) (ready : M bool) : M (Z + unit) :=
  match tries with O => mret (inl EBUSY) | S tries => ok ← ready; if (ok : bool) then mret (inr tt) else try_until tries ready end.
Definition WaitForIncomingData : M (Z + unit) := try_until READ_WRITE_TIMEOUT (empty ← IsOutputEmpty; mret (negb empty)).
Definition WaitForWriteReady : M (Z + unit) := try_until READ_WRITE_TIMEOUT IsInputEmpty.
Definition TryRead : M (Z + Z) := try_ WaitForIncomingData (fun _ => v ← ReadPort eBuffer; mret (inr v)).
Definition TryWrite (port data : Z) : M (Z + unit) := try_ WaitForWriteReady (fun _ => _ ← WritePort port data; mret (inr tt)).
(** A call whose error is replaced by another. *)
Definition or_error {A} (e : Z) (m : M (Z + A)) : M (Z + A) := r ← m; mret (match r with inl _ => inl e | inr a => inr a end).
Definition SendCommand (command : Z) : M (Z + unit) := or_error EBUSY (TryWrite port_eCommand command).
(** A call whose result is not looked at. *)
Definition ignore {A} (m : M (Z + A)) : M unit := _ ← m; mret tt.

Definition MAX_FLUSH_READ_TRY_COUNT : nat := 16.
Fixpoint flush_loop (tries : nat) : M (Z + unit) :=
  empty ← IsOutputEmpty;
  if (empty : bool) then mret (inr tt) else
  match tries with O => mret (inl EIO) | S tries => _ ← ReadPort eBuffer; flush_loop tries end.
Definition FlushReadBuffer : M (Z + unit) := flush_loop MAX_FLUSH_READ_TRY_COUNT.

(** [WriteDevicePort]: one write and its response; the loop, which ends neither before 150 writes
    nor as long as the device asks to send again; and a last write. *)
Definition write_once (port : DevicePort) (data : Z) : M (Z + Z) :=
  try_ WaitForWriteReady (fun _ =>
    try_ (match port with
          | ePort1 => mret (inr tt)
          | ePort2 => s ← get; if m_Port2Available s then SendCommand eWriteToPort2 else mret (inl ENODEV)
          end) (fun _ =>
      try_ (or_error EBUSY (TryWrite eBuffer data)) (fun _ => r ← ReadBlocking; mret (inr r)))).
Fixpoint write_attempts (turns : nat) (port : DevicePort) (data attempts response : Z) : M (Z + Z * Z) :=
  if (attempts <? 150) || (response =? eResend) then
    match turns with O => diverges | S turns => try_ (write_once port data) (fun r => write_attempts turns port data (attempts + 1) r) end
  else mret (inr (attempts + 1, response)).
Definition WriteDevicePort (port : DevicePort) (data : Z) : M (Z + unit) :=
  try_ (write_attempts (150 + patience) port data 0 0) (fun '(attempts, response) =>
    if (150 <=? attempts) && (response =? eResend) then mret (inl EBUSY) else _ ← WriteBlocking eBuffer data; mret (inr tt)).
Definition SendDeviceCommand (port : DevicePort) (command : Z) : M (Z + unit) := WriteDevicePort port command.

Definition EnableDevice (port : DevicePort) : M (Z + unit) :=
  try_ (or_error ENODEV FlushReadBuffer) (fun _ =>
  try_ (or_error ENODEV (SendCommand eReadConfigurationByte)) (fun _ =>
    config ← ReadBlocking;
    let config := config .| (if is_port1 port then eEnablePort1Irq .| eEnablePort1Translation else eEnablePort2Irq) in
    let config := Z.ldiff config (if is_port1 port then eDisablePort1Clock else eDisablePort2Clock) in
    try_ (or_error ENODEV (SendCommand eWriteConfigurationByte)) (fun _ =>
      _ ← WriteBlocking eBuffer config;
      or_error ENODEV (SendCommand (if is_port1 port then eEnablePort1 else eEnablePort2))))).
Definition DisableDevice (port : DevicePort) : M (Z + unit) :=
  try_ (or_error ENODEV FlushReadBuffer) (fun _ =>
  try_ (or_error ENODEV (SendCommand eReadConfigurationByte)) (fun _ =>
    config ← ReadBlocking;
    let config := Z.ldiff config (if is_port1 port then eEnablePort1Irq else eEnablePort2Irq) in
    let config := config .| (if is_port1 port then eDisablePort1Clock else eDisablePort2Clock) in
    try_ (or_error ENODEV (SendCommand eWriteConfigurationByte)) (fun _ =>
      _ ← WriteBlocking eBuffer config;
      _ ← ignore (SendCommand (if is_port1 port then eDisablePort1 else eDisablePort2));
      mret (inr tt)))).
Definition set_translation (f : Z -> Z) : M (Z + unit) :=
  _ ← ignore FlushReadBuffer;
  _ ← ignore (SendCommand eReadConfigurationByte);
  config ← ReadBlocking;
  _ ← ignore (SendCommand eWriteConfigurationByte);
  _ ← WriteBlocking eBuffer (f config);
  mret (inr tt).
Definition EnablePort1Translation : M (Z + unit) := set_translation (fun config => config .| eEnablePort1Translation).
Definition DisablePort1Translation : M (Z + unit) := set_translation (fun config => Z.ldiff config eEnablePort1Translation).

Definition ResetDevice (port : DevicePort) : M (Z + unit) :=
  _ ← ignore FlushReadBuffer;
  try_ (SendDeviceCommand port eReset) (fun _ =>
    byte1 ← TryRead;
    byte2 ← TryRead;
    match byte1, byte2 with
    | inl e, _ => mret (inl e)
    | _, inl e => mret (inl e)
    | inr b1, inr b2 =>
        if (b1 =? eAcknowledge) && (b2 =? eDeviceTestPassed) then _ ← TryRead; _ ← TryRead; mret (inr tt) else mret (inl ENODEV)
    end).

Definition DisableDevices : M (Z + unit) := try_ (SendCommand eDisablePort1) (fun _ => SendCommand eDisablePort2).
(** [PerformSelfTest]: the loop reads the answer only while the command could not be sent. *)
Fixpoint self_test_loop (attempts : nat) : M unit :=
  r ← SendCommand eTestController;
  match r, attempts with
  | inl _, S attempts => status ← TryRead; if bool_decide (status = inr eSelfTestSuccess) then mret tt else self_test_loop attempts
  | _, _ => mret tt
  end.
Definition PerformSelfTest : M bool :=
  r ← SendCommand eReadConfigurationByte;
  match r with
  | inl _ => mret false
  | inr _ =>
      config ← ReadBlocking;
      _ ← self_test_loop 5;
      r ← SendCommand eWriteConfigurationByte;
      match r with inl _ => mret false | inr _ => r ← TryWrite eBuffer config; mret (match r with inl _ => false | inr _ => true end) end
  end.
Definition IsDualChannel : M bool :=
  _ ← ignore (SendCommand eEnablePort2);
  _ ← ignore (SendCommand eReadConfigurationByte);
  config ← ReadBlocking;
  let isDualChannel := config .& eDisablePort2Clock =? 0 in
  if negb isDualChannel then mret false else
  _ ← ignore (SendCommand eDisablePort2);
  let config := Z.ldiff (Z.ldiff config eEnablePort2Irq) eDisablePort2Clock in
  _ ← ignore (SendCommand eWriteConfigurationByte);
  _ ← WriteBlocking eBuffer config;
  mret true.
Definition TestSingleInterface (port : DevicePort) : M bool :=
  r ← SendCommand (if is_port1 port then eTestPort1 else eTestPort2);
  match r with inl _ => mret false | inr _ => status ← ReadBlocking; mret (status =? ePortTestSuccess) end.
Definition TestInterfaces : M bool :=
  p1 ← TestSingleInterface ePort1;
  _ ← update (fun s => mkState (chip s) p1 (m_Port2Available s));
  p2 ← TestSingleInterface ePort2;
  _ ← update (fun s => mkState (chip s) (m_Port1Available s) p2);
  mret (p1 || p2).

(** The answer to a command of a device. *)
Definition acknowledged {A} (k : M (Z + A)) : M (Z + A) :=
  try_ TryRead (fun response => if negb (response =? eAcknowledge) then mret (inl ENODEV) else k).
Definition ScanPortForDevices (port : DevicePort) : M (Z + Ps2DeviceType) :=
  _ ← ignore (SendCommand (if is_port1 port then eEnablePort1 else eEnablePort2));
  try_ (SendDeviceCommand port eDisableScanning) (fun _ => acknowledged (
    _ ← ignore FlushReadBuffer;
    try_ (SendDeviceCommand port eIdentify) (fun _ => acknowledged (
      byte1 ← TryRead;
      byte2 ← TryRead;
      _ ← ignore FlushReadBuffer;
      try_ (SendDeviceCommand port eEnableScanning) (fun _ => acknowledged (
        try_ (or_error ENODEV (SendCommand (if is_port1 port then eDisablePort1 else eDisablePort2))) (fun _ =>
          _ ← ignore FlushReadBuffer;
          let value (b : Z + Z) := match b with inl _ => None | inr v => Some v end in
          mret (inr (ToPs2DeviceType (value byte1) (value byte2)))))))))).
(** [EnumerateDevices], up to the registration of the keyboard. *)
Definition EnumerateDevices : M unit :=
  s ← get;
  _ ← (if m_Port1Available s then ignore (ScanPortForDevices ePort1) else mret tt);
  s ← get;
  (if m_Port2Available s then ignore (ScanPortForDevices ePort2) else mret tt).

Definition Initialize : M (Z + unit) :=
  try_ (or_error ENODEV FlushReadBuffer) (fun _ =>
  try_ (or_error ENODEV DisableDevices) (fun _ =>
  try_ (or_error ENODEV (SendCommand eReadConfigurationByte)) (fun _ =>
    config ← ReadBlocking;
    let config := Z.ldiff config eEnablePort1Irq in
    let config := Z.ldiff config eEnablePort1Translation in
    let config := Z.ldiff config eEnablePort2Irq in
    let config := Z.ldiff config eDisablePort1Clock in
    try_ (or_error ENODEV (SendCommand eWriteConfigurationByte)) (fun _ =>
    try_ (or_error ENODEV (TryWrite eBuffer config)) (fun _ =>
      ok ← PerformSelfTest;
      if negb (ok : bool) then mret (inl ENODEV) else
      dual ← IsDualChannel;
      _ ← update (fun s => mkState (chip s) (m_Port1Available s) dual);
      ok ← TestInterfaces;
      if negb (ok : bool) then mret (inl ENODEV) else
      _ ← EnumerateDevices;
      mret (inr tt)))))).

(** [HandleInterrupt]: the bytes for the keyboard. *)
Fixpoint HandleInterrupt (turns : nat) : M (list Z) :=
  empty ← IsOutputEmpty;
  if (empty : bool) then mret [] else
  match turns with
  | O => diverges
  | S turns => byte ← TryRead; rest ← HandleInterrupt turns; mret (match byte with inr b => b :: rest | inl _ => rest end)
  end.
End Controller.
Arguments State : clear implicits.

(** * The PS/2 controller: theorems

    On a chip that takes commands at once: the buffer is emptied, ports are enabled and disabled with
    their bits of the configuration and no others; and defects of the self test and of writing to a
    device. *)

(** ** A chip *)
Section Chip.
(** What the devices answer to a byte. *)
Variables reply1 reply2 : Z -> list Z.
Inductive Awaits := ForDevice1 | ForConfig | ForDevice2.
(** The bytes to be read, the configuration, what the next byte is for, and the bytes the devices
    were sent. *)
Record Chip := mkChip { queue : list Z; cfg : Z; awaits : Awaits; sent1 : list Z; sent2 : list Z }.
Definition answer (bs : list Z) (c : Chip) : Chip := mkChip (queue c ++ bs) (cfg c) (awaits c) (sent1 c) (sent2 c).
Definition with_cfg (x : Z) (c : Chip) : Chip := mkChip (queue c) x (awaits c) (sent1 c) (sent2 c).
Definition with_awaits (a : Awaits) (c : Chip) : Chip := mkChip (queue c) (cfg c) a (sent1 c) (sent2 c).
Definition command (v : Z) (c : Chip) : Chip :=
  if v =? eReadConfigurationByte then answer [cfg c] c
  else if v =? eWriteConfigurationByte then with_awaits ForConfig c
  else if v =? eWriteToPort2 then with_awaits ForDevice2 c
  else if v =? eTestController then answer [eSelfTestSuccess] c
  else if (v =? eTestPort1) || (v =? eTestPort2) then answer [ePortTestSuccess] c
  else if v =? eDisablePort1 then with_cfg (cfg c .| eDisablePort1Clock) c
  else if v =? eEnablePort1 then with_cfg (Z.ldiff (cfg c) eDisablePort1Clock) c
  else if v =? eDisablePort2 then with_cfg (cfg c .| eDisablePort2Clock) c
  else if v =? eEnablePort2 then with_cfg (Z.ldiff (cfg c) eDisablePort2Clock) c
  else c.
Definition data (v : Z) (c : Chip) : Chip :=
  match awaits c with
  | ForConfig => mkChip (queue c) v ForDevice1 (sent1 c) (sent2 c)
  | ForDevice1 => mkChip (queue c ++ reply1 v) (cfg c) ForDevice1 (sent1 c ++ [v]) (sent2 c)
  | ForDevice2 => mkChip (queue c ++ reply2 v) (cfg c) ForDevice1 (sent1 c) (sent2 c ++ [v])
  end.
#[export] Instance chip_ports : Ports Chip := {|
  in_port p c := if p =? port_eStatus then (c, match queue c with [] => 0 | _ => 1 end)
                 else match queue c with [] => (c, 0) | b :: q => (mkChip q (cfg c) (awaits c) (sent1 c) (sent2 c), b) end;
  out_port p v c := if p =? port_eCommand then command v c else data v c
|}.

Notation State := (State Chip).
Variable patience : nat.
Hypothesis Hpatience : (0 < patience)%nat.
Definition on (c : Chip) (s : State) : State := mkState c (m_Port1Available s) (m_Port2Available s).
Definition pop (c : Chip) : Chip := mkChip (tail (queue c)) (cfg c) (awaits c) (sent1 c) (sent2 c).

Lemma on_chip s : on (chip s) s = s.
Proof. now destruct s. Qed.
Lemma IsOutputEmpty_chip s : IsOutputEmpty s = Ret s (bool_decide (queue (chip s) = [])).
Proof. destruct s as [c p1 p2]. unfold IsOutputEmpty, mbind, M_bind, ReadPort. cbn. now destruct (queue c). Qed.
Lemma IsInputEmpty_chip s : IsInputEmpty s = Ret s true.
Proof. destruct s as [c p1 p2]. unfold IsInputEmpty, mbind, M_bind, ReadPort. cbn. now destruct (queue c). Qed.
Lemma timeout : exists n, READ_WRITE_TIMEOUT = S n.
Proof. exists (Z.to_nat 9999). unfold READ_WRITE_TIMEOUT. rewrite <- Z2Nat.inj_succ by lia. reflexivity. Qed.
Lemma WaitForWriteReady_chip s : WaitForWriteReady s = Ret s (inr tt).
Proof. unfold WaitForWriteReady. destruct timeout as [n ->]. cbn [try_until]. now rewrite (bind_ret _ _ _ _ _ (IsInputEmpty_chip s)). Qed.
Lemma TryWrite_chip p v s : TryWrite p v s = Ret (on (out_port p v (chip s)) s) (inr tt).
Proof. unfold TryWrite. now rewrite (try_ret _ _ _ _ _ (WaitForWriteReady_chip s)). Qed.
Lemma SendCommand_chip v s : SendCommand v s = Ret (on (command v (chip s)) s) (inr tt).
Proof. unfold SendCommand, or_error. now rewrite (bind_ret _ _ _ _ _ (TryWrite_chip port_eCommand v s)). Qed.
Lemma ReadBlocking_chip b q s : queue (chip s) = b :: q -> ReadBlocking patience s = Ret (on (pop (chip s)) s) b.
Proof.
  intros Hq. unfold ReadBlocking. destruct patience as [|n]; [lia|]. cbn [wait_until]. unfold mbind at 1, M_bind at 1, mbind, M_bind. rewrite IsOutputEmpty_chip, Hq.
  cbn. unfold ReadPort. cbn. rewrite Hq. unfold on, pop. now rewrite Hq.
Qed.
Lemma WriteBlocking_chip v s : WriteBlocking patience eBuffer v s = Ret (on (data v (chip s)) s) tt.
Proof. unfold WriteBlocking. destruct patience as [|n]; [lia|]. cbn [wait_until]. unfold mbind, M_bind. now rewrite IsInputEmpty_chip. Qed.

(** [FlushReadBuffer] empties the buffer of the controller when it holds at most 16 bytes, and
    gives up with [EIO] otherwise. *)
Lemma flush_loop_chip n s : flush_loop n s = Ret (on (mkChip (drop n (queue (chip s))) (cfg (chip s)) (awaits (chip s)) (sent1 (chip s)) (sent2 (chip s))) s)
  (if bool_decide (length (queue (chip s)) <= n)%nat then inr tt else inl EIO).
Proof.
  revert s. induction n as [|n IH]; intros s; cbn [flush_loop]; rewrite (bind_ret _ _ _ _ _ (IsOutputEmpty_chip s)); destruct (queue (chip s)) as [|b q] eqn:E.
  - cbn. unfold on. rewrite <- E. now destruct s as [[] ? ?].
  - cbn. unfold on. rewrite <- E. now destruct s as [[] ? ?].
  - cbn. unfold on. rewrite <- E. now destruct s as [[] ? ?].
  - rewrite bool_decide_eq_false_2 by discriminate. assert (Er : ReadPort eBuffer s = Ret (on (pop (chip s)) s) b) by (unfold ReadPort; cbn; unfold pop; rewrite E; reflexivity).
    rewrite (bind_ret _ _ _ _ _ Er), IH. cbn [on chip pop queue cfg awaits sent1 sent2]. rewrite E. cbn [tail drop length]. unfold on. cbn.
    f_equal. destruct (decide (length q <= n)%nat); [rewrite !bool_decide_eq_true_2 by lia|rewrite !bool_decide_eq_false_2 by lia]; reflexivity.
Qed.
Theorem FlushReadBuffer_empties s : exists s', FlushReadBuffer s = Ret s' (if bool_decide (length (queue (chip s)) <= 16)%nat then inr tt else inl EIO)
  /\ queue (chip s') = drop 16 (queue (chip s)) /\ cfg (chip s') = cfg (chip s).
Proof. eexists. split; [apply flush_loop_chip|]. split; reflexivity. Qed.

Definition flushed (c : Chip) : Chip := mkChip [] (cfg c) (awaits c) (sent1 c) (sent2 c).
Lemma flush_all s : (length (queue (chip s)) <= 16)%nat -> FlushReadBuffer s = Ret (on (flushed (chip s)) s) (inr tt).
Proof. intros H. unfold FlushReadBuffer. rewrite flush_loop_chip, bool_decide_eq_true_2 by exact H. unfold MAX_FLUSH_READ_TRY_COUNT. now rewrite drop_ge. Qed.
Lemma or_error_ok {A} e (m : M State (Z + A)) s s' a : m s = Ret s' (inr a) -> or_error e m s = Ret s' (inr a).
Proof. intros E. unfold or_error. now rewrite (bind_ret _ _ _ _ _ E). Qed.

(** Enabling a port sets its interrupt and, for the first port, the translation, and starts its
    clock; disabling clears the interrupt and stops the clock; the other bits of the configuration
    stay, and nothing is left in the buffer. *)
Theorem EnableDevice_configures s port : (length (queue (chip s)) <= 16)%nat ->
  let bits := if is_port1 port then eEnablePort1Irq .| eEnablePort1Translation else eEnablePort2Irq in
  let irq := if is_port1 port then eEnablePort1Irq else eEnablePort2Irq in
  let clock := if is_port1 port then eDisablePort1Clock else eDisablePort2Clock in
  (exists s', EnableDevice patience port s = Ret s' (inr tt) /\ cfg (chip s') = Z.ldiff (cfg (chip s) .| bits) clock /\ queue (chip s') = []) /\
  (exists s', DisableDevice patience port s = Ret s' (inr tt) /\ cfg (chip s') = Z.ldiff (cfg (chip s)) irq .| clock /\ queue (chip s') = []).
Proof.
  intros Hq bits irq clock. pose proof (flush_all s Hq) as E1. set (s1 := on (flushed (chip s)) s) in *.
  pose proof (SendCommand_chip eReadConfigurationByte s1) as E2. set (s2 := on (command eReadConfigurationByte (chip s1)) s1) in *.
  assert (E3 : ReadBlocking patience s2 = Ret (on (pop (chip s2)) s2) (cfg (chip s))) by (apply (ReadBlocking_chip _ []); reflexivity). set (s3 := on (pop (chip s2)) s2) in *.
  pose proof (SendCommand_chip eWriteConfigurationByte s3) as E4. set (s4 := on (command eWriteConfigurationByte (chip s3)) s3) in *.
  split.
  - set (v := Z.ldiff (cfg (chip s) .| bits) clock). pose proof (WriteBlocking_chip v s4) as E5. set (s5 := on (data v (chip s4)) s4) in *.
    pose proof (SendCommand_chip (if is_port1 port then eEnablePort1 else eEnablePort2) s5) as E6. eexists. split; [|split].
    + unfold EnableDevice. rewrite (try_ret _ _ _ _ _ (or_error_ok ENODEV _ _ _ _ E1)), (try_ret _ _ _ _ _ (or_error_ok ENODEV _ _ _ _ E2)), (bind_ret _ _ _ _ _ E3).
      rewrite (try_ret _ _ _ _ _ (or_error_ok ENODEV _ _ _ _ E4)). fold bits clock. fold v. rewrite (bind_ret _ _ _ _ _ E5). exact (or_error_ok ENODEV _ _ _ _ E6).
    + assert (Hv : Z.ldiff v clock = v) by (unfold v; apply Z.bits_inj'; intros i Hi; rewrite !Z.ldiff_spec; now destruct (Z.testbit (_ .| _) i), (Z.testbit clock i)).
      revert Hv. unfold clock. destruct port; cbn [is_port1]; intros Hv; exact Hv.
    + destruct port; reflexivity.
  - set (v := Z.ldiff (cfg (chip s)) irq .| clock). pose proof (WriteBlocking_chip v s4) as E5. set (s5 := on (data v (chip s4)) s4) in *.
    pose proof (SendCommand_chip (if is_port1 port then eDisablePort1 else eDisablePort2) s5) as E6. eexists. split; [|split].
    + unfold DisableDevice. rewrite (try_ret _ _ _ _ _ (or_error_ok ENODEV _ _ _ _ E1)), (try_ret _ _ _ _ _ (or_error_ok ENODEV _ _ _ _ E2)), (bind_ret _ _ _ _ _ E3).
      rewrite (try_ret _ _ _ _ _ (or_error_ok ENODEV _ _ _ _ E4)). fold irq clock. fold v. rewrite (bind_ret _ _ _ _ _ E5). unfold ignore.
      rewrite bind_assoc, (bind_ret _ _ _ _ _ E6). reflexivity.
    + assert (Hv : v .| clock = v) by (unfold v; apply Z.bits_inj'; intros i Hi; rewrite !Z.lor_spec; now destruct (Z.testbit (Z.ldiff _ _) i), (Z.testbit clock i)).
      revert Hv. unfold clock. destruct port; cbn [is_port1]; intros Hv; exact Hv.
    + destruct port; reflexivity.
Qed.

(** ** Defects *)

(** One write to a device that acknowledges it. *)
Lemma write_once_acknowledged v s : queue (chip s) = [] -> awaits (chip s) = ForDevice1 -> reply1 v = [eAcknowledge] ->
  write_once patience ePort1 v s = Ret (on (mkChip [] (cfg (chip s)) ForDevice1 (sent1 (chip s) ++ [v]) (sent2 (chip s))) s) (inr eAcknowledge).
Proof.
  intros Hq Ha Hr. unfold write_once. rewrite (try_ret _ _ _ _ _ (WaitForWriteReady_chip s)), (try_ret (mret (inr tt)) _ s s tt eq_refl).
  set (s1 := on (data v (chip s)) s). assert (E1 : or_error EBUSY (TryWrite eBuffer v) s = Ret s1 (inr tt)) by (apply or_error_ok, TryWrite_chip).
  rewrite (try_ret _ _ _ _ _ E1). assert (Hq1 : queue (chip s1) = [eAcknowledge]) by (cbn; unfold data; rewrite Ha; cbn; now rewrite Hq, Hr).
  rewrite (bind_ret _ _ _ _ _ (ReadBlocking_chip _ _ s1 Hq1)). unfold mret, M_ret. f_equal. unfold s1, pop, on. cbn. unfold data. rewrite Ha. cbn. now rewrite Hq, Hr.
Qed.
Lemma write_attempts_acknowledged v k : reply1 v = [eAcknowledge] -> forall turns s r, queue (chip s) = [] -> awaits (chip s) = ForDevice1 -> r <> eResend -> (k < turns)%nat -> (k <= 150)%nat ->
  write_attempts patience turns ePort1 v (150 - Z.of_nat k) r s
  = Ret (on (mkChip [] (cfg (chip s)) ForDevice1 (sent1 (chip s) ++ replicate k v) (sent2 (chip s))) s) (inr (151, if (k =? 0)%nat then r else eAcknowledge)).
Proof.
  intros Hr. induction k as [|k IH]; intros turns s r Hq Ha Hne Ht Hk; (destruct turns as [|turns]; [lia|]); cbn [write_attempts].
  - rewrite (proj2 (Z.ltb_ge (150 - Z.of_nat 0) 150)), (proj2 (Z.eqb_neq r eResend)) by (trivial; lia). cbn [orb replicate Nat.eqb]. unfold mret, M_ret. rewrite app_nil_r. f_equal. unfold on. destruct s as [[]]; cbn in *. now subst.
  - rewrite (proj2 (Z.ltb_lt (150 - Z.of_nat (S k)) 150)) by lia. cbn [orb]. rewrite (try_ret _ _ _ _ _ (write_once_acknowledged v s Hq Ha Hr)).
    replace (150 - Z.of_nat (S k) + 1) with (150 - Z.of_nat k) by lia. rewrite IH by (trivial; try discriminate; lia).
    unfold on. cbn [chip cfg sent1 sent2 m_Port1Available m_Port2Available]. rewrite <- (assoc app). cbn [replicate]. destruct k; reflexivity.
Qed.
(** A byte for a device is sent 151 times: the loop does not end when the device acknowledges it. *)
Theorem WriteDevicePort_repeats v s : queue (chip s) = [] -> awaits (chip s) = ForDevice1 -> reply1 v = [eAcknowledge] ->
  exists s', WriteDevicePort patience ePort1 v s = Ret s' (inr tt) /\ sent1 (chip s') = sent1 (chip s) ++ replicate 151 v.
Proof.
  intros Hq Ha Hr. unfold WriteDevicePort. change 0 with (150 - Z.of_nat 150) at 1.
  rewrite (try_ret _ _ _ _ _ (write_attempts_acknowledged v 150 Hr (150 + patience) s 0 Hq Ha ltac:(discriminate) ltac:(lia) ltac:(lia))).
  cbn [Z.leb Z.compare Pos.compare Pos.compare_cont andb Nat.eqb Z.eqb eAcknowledge eResend Pos.eqb]. rewrite (bind_ret _ _ _ _ _ (WriteBlocking_chip v _)).
  eexists. split; [reflexivity|]. unfold data. cbn [chip on awaits sent1]. rewrite <- (assoc app). f_equal.
Qed.

(** The answer of the self test is not read and is then taken for the configuration: the controller
    is found to have two channels whatever it has, and its configuration is overwritten. *)
Theorem self_test_answer_misread s : queue (chip s) = [] -> awaits (chip s) = ForDevice1 ->
  exists s', (_ ← PerformSelfTest patience; IsDualChannel patience) s = Ret s' true /\ cfg (chip s') = eSelfTestSuccess.
Proof.
  intros Hq Ha. unfold PerformSelfTest. eexists. split.
  - rewrite bind_assoc. rewrite (bind_ret _ _ _ _ _ (SendCommand_chip eReadConfigurationByte s)). set (s1 := on (command eReadConfigurationByte (chip s)) s).
    assert (Hq1 : queue (chip s1) = [cfg (chip s)]) by (cbn; now rewrite Hq). rewrite bind_assoc, (bind_ret _ _ _ _ _ (ReadBlocking_chip _ _ s1 Hq1)). set (s2 := on (pop (chip s1)) s1).
    rewrite bind_assoc. set (s3 := on (command eTestController (chip s2)) s2). assert (E3 : self_test_loop 5 s2 = Ret s3 tt) by (cbn [self_test_loop]; now rewrite (bind_ret _ _ _ _ _ (SendCommand_chip eTestController s2))).
    rewrite (bind_ret _ _ _ _ _ E3), bind_assoc, (bind_ret _ _ _ _ _ (SendCommand_chip eWriteConfigurationByte s3)). set (s4 := on (command eWriteConfigurationByte (chip s3)) s3).
    rewrite bind_assoc, (bind_ret _ _ _ _ _ (TryWrite_chip eBuffer (cfg (chip s)) s4)). set (s5 := on (out_port eBuffer (cfg (chip s)) (chip s4)) s4). rewrite mret_ret.
    unfold IsDualChannel, ignore. rewrite bind_assoc, (bind_ret _ _ _ _ _ (SendCommand_chip eEnablePort2 s5)), mret_ret. set (s6 := on (command eEnablePort2 (chip s5)) s5).
    rewrite bind_assoc, (bind_ret _ _ _ _ _ (SendCommand_chip eReadConfigurationByte s6)), mret_ret. set (s7 := on (command eReadConfigurationByte (chip s6)) s6).
    assert (Hq7 : queue (chip s7) = eSelfTestSuccess :: [cfg (chip s6)]) by (cbn; rewrite Hq; reflexivity). rewrite (bind_ret _ _ _ _ _ (ReadBlocking_chip _ _ s7 Hq7)). set (s8 := on (pop (chip s7)) s7).
    change (eSelfTestSuccess .& eDisablePort2Clock =? 0) with true. cbn [negb].
    rewrite bind_assoc, (bind_ret _ _ _ _ _ (SendCommand_chip eDisablePort2 s8)), mret_ret. set (s9 := on (command eDisablePort2 (chip s8)) s8).
    rewrite bind_assoc, (bind_ret _ _ _ _ _ (SendCommand_chip eWriteConfigurationByte s9)), mret_ret. set (s10 := on (command eWriteConfigurationByte (chip s9)) s9).
    rewrite (bind_ret _ _ _ _ _ (WriteBlocking_chip _ s10)). reflexivity.
  - reflexivity.
Qed.
End Chip.

(** ** Witnesses *)
Definition idle : State Chip := mkState (mkChip [0x1c] 0x35 ForDevice1 [] []) true true.
Lemma EnableDevice_configures_witness : exists s', EnableDevice (PO := chip_ports (fun _ => []) (fun _ => [])) 1 ePort1 idle = Ret s' (inr tt) /\ cfg (chip s') = 0x65.
Proof.
  destruct (proj1 (EnableDevice_configures (fun _ => []) (fun _ => []) 1 ltac:(lia) idle ePort1 ltac:(cbn; lia))) as (s' & E & Hc & _).
  exists s'. split; [exact E|exact Hc].
Defined.
