(* ===== verification/CommandLine.v ===== *)
(** * The command line of the kernel

    [Boot/CommandLine.cpp]: options [-key=value] and [-flag].  [StringUtils::IsSpace] is a function of
    the Prism library. *)

From Stdlib Require Import ZArith Lia Bool.
From stdpp Require Import base gmap list numbers.
From S2P Require Import Prelude Disk.

Definition quote : Z := 34.
Definition dash : Z := 45.
Definition equals_sign : Z := 61.

Section CommandLine.
Variable IsSpace : Z -> bool.
Notation Options := (gmap (list Z) (list Z)).

Definition unquote (args : list Z) : list Z :=
  let args := match args with c :: rest => if c =? quote then rest else args | [] => [] end in
  match list.last args with Some c => if c =? quote then removelast args else args | None => args end.
(** [arg.Find('=')] *)
Fixpoint split_at_equals (arg : list Z) : list Z * option (list Z) :=
  match arg with
  | [] => ([], None)
  | c :: arg => if c =? equals_sign then ([], Some arg) else let '(k, v) := split_at_equals arg in (c :: k, v)
  end.
Definition set_option (arg : list Z) (result : Options) : Options :=
  let '(key, value) := split_at_equals arg in <[key := default [] value]> result.
(** The word up to the next space, and what follows. *)
Fixpoint take_word (cs : list Z) : list Z * list Z :=
  match cs with
  | [] => ([], [])
  | c :: cs' => if IsSpace c then ([], cs) else let '(w, rest) := take_word cs' in (c :: w, rest)
  end.
Fixpoint skip_spaces (cs : list Z) : list Z := match cs with c :: cs' => if IsSpace c then skip_spaces cs' else cs | [] => [] end.
(** The characters from [pos] on; every turn takes one at least. *)
Fixpoint parse_loop (turns : nat) (cs : list Z) (result : Options) : option Options :=
  match skip_spaces cs with
  | [] => Some result
  | c :: cs =>
      match turns with
      | O => None
      | S turns =>
          if c =? dash then let '(arg, rest) := take_word cs in parse_loop turns rest (set_option arg result)
          else parse_loop turns cs result
      end
  end.
Definition ParseArguments (args : list Z) (s_OptionMap : Options) : option Options := parse_loop (length args) (unquote args) s_OptionMap.
Definition Contains (key : list Z) (o : Options) : bool := bool_decide (is_Some (o !! key)).
(** ["true"] and ["1"] *)
Definition GetBoolean (key : list Z) (o : Options) : option bool :=
  (fun v => bool_decide (v = [116; 114; 117; 101]) || bool_decide (v = [49])) <$> o !! key.
Definition GetString (key : list Z) (o : Options) : list Z := default [] (o !! key).

(** ** Theorems *)

(** An option with its value, if it has one. *)
Definition Option_ : Type := list Z * option (list Z).
Definition encode (o : Option_) : list Z := dash :: o.1 ++ match o.2 with Some v => equals_sign :: v | None => [] end.
Definition option_fits (o : Option_) : Prop :=
  Forall (fun c => IsSpace c = false /\ c <> equals_sign /\ c <> quote) o.1 /\ Forall (fun c => IsSpace c = false /\ c <> quote) (default [] o.2).
Variable space : Z.
Hypothesis Hspace : IsSpace space = true.
Hypothesis Hsigns : IsSpace dash = false /\ IsSpace equals_sign = false.
Definition line (os : list Option_) : list Z := concat ((fun o => encode o ++ [space]) <$> os).

Lemma take_word_app w rest : Forall (fun c => IsSpace c = false) w -> take_word (w ++ space :: rest) = (w, space :: rest).
Proof. induction 1 as [|c w Hc _ IH]; cbn [app take_word]; [now rewrite Hspace|]. now rewrite Hc, IH. Qed.
Lemma split_option (o : Option_) : option_fits o -> split_at_equals (o.1 ++ match o.2 with Some v => equals_sign :: v | None => [] end) = o.
Proof.
  destruct o as [k v]. intros [Hk _]. cbn [fst snd] in *. induction Hk as [|c k (_ & Hc & _) _ IH]; cbn [app split_at_equals].
  - now destruct v.
  - apply Z.eqb_neq in Hc. now rewrite Hc, IH.
Qed.
Lemma word_plain (o : Option_) : option_fits o -> Forall (fun c => IsSpace c = false) (o.1 ++ match o.2 with Some v => equals_sign :: v | None => [] end).
Proof.
  intros [Hk Hv]. apply Forall_app. split; [eapply List.Forall_impl; [|exact Hk]; now intros c (H & _)|]. destruct (o.2); constructor; [apply Hsigns|]. eapply List.Forall_impl; [|exact Hv]. now intros c (H & _).
Qed.
Definition add (result : Options) (o : Option_) : Options := <[o.1 := default [] o.2]> result.
Lemma parse_loop_spec os : Forall option_fits os -> forall turns pre result, (length os <= turns)%nat -> Forall (fun c => IsSpace c = true) pre ->
  parse_loop turns (pre ++ line os) result = Some (fold_left add os result).
Proof.
  induction 1 as [|o os Ho _ IH]; intros turns pre result Ht Hpre.
  - assert (E : skip_spaces (pre ++ line []) = []) by (unfold line; cbn; rewrite app_nil_r; induction Hpre as [|c pre Hc _ IH']; cbn; [reflexivity|now rewrite Hc]).
    destruct turns; cbn [parse_loop]; now rewrite E.
  - destruct turns as [|turns]; [cbn in Ht; lia|]. cbn [parse_loop].
    set (w := o.1 ++ match o.2 with Some v => equals_sign :: v | None => [] end).
    assert (E : skip_spaces (pre ++ line (o :: os)) = dash :: w ++ space :: line os).
    { unfold line. cbn [fmap list_fmap concat]. induction Hpre as [|c pre Hc _ IH']; cbn [app skip_spaces]; [|now rewrite Hc].
      unfold encode. cbn [app skip_spaces]. rewrite (proj1 Hsigns). fold w. now rewrite <- (assoc app). }
    rewrite E. cbn [Z.eqb dash Pos.eqb]. rewrite (take_word_app w) by now apply word_plain. cbn [fold_left].
    replace (set_option w result) with (add result o) by (unfold set_option, w; rewrite split_option by trivial; now destruct o).
    apply (IH turns [space]); [cbn in Ht; lia|]. now constructor.
Qed.
Lemma unquote_line os : Forall option_fits os -> space <> quote -> unquote (line os) = line os.
Proof.
  intros Hos Hq. unfold unquote. destruct os as [|o os]; [reflexivity|]. set (l := line (o :: os)).
  assert (E : match l with c :: rest => if c =? quote then rest else l | [] => [] end = l) by reflexivity. rewrite E.
  assert (El : exists l', l = l' ++ [space]).
  { unfold l, line. destruct (exists_last (l := o :: os) ltac:(discriminate)) as (front & o' & ->). rewrite fmap_app, concat_app. cbn [fmap list_fmap concat]. rewrite app_nil_r, List.app_assoc. eauto. }
  destruct El as [l' ->]. rewrite last_snoc. now rewrite (proj2 (Z.eqb_neq space quote)).
Qed.

Lemma line_length os : (length os <= length (line os))%nat.
Proof. induction os as [|o os IH]; [reflexivity|]. change (line (o :: os)) with ((encode o ++ [space]) ++ line os). rewrite !length_app. cbn [length]. lia. Qed.

(** The options of a command line are found with their values; of two options with the same key
    the last counts; options that are not given are not found. *)
Theorem ParseArguments_options os key : Forall option_fits os -> space <> quote ->
  exists o, ParseArguments (line os) ∅ = Some o /\ o !! key = match List.find (fun p => bool_decide (p.1 = key)) (reverse os) with Some p => Some (default [] p.2) | None => None end.
Proof.
  intros Hos Hq. exists (fold_left add os ∅). split.
  - unfold ParseArguments. rewrite (unquote_line os Hos Hq). apply (parse_loop_spec os Hos _ []); [|constructor]. apply line_length.
  - assert (G : forall l o, fold_left add l o !! key = match List.find (fun p => bool_decide (p.1 = key)) (reverse l) with Some p => Some (default [] p.2) | None => o !! key end).
    { clear. induction l as [|p l IH] using rev_ind; intros o; [reflexivity|]. rewrite fold_left_app, reverse_snoc. cbn [fold_left List.find]. change (add (fold_left add l o) p) with (<[p.1 := default [] p.2]> (fold_left add l o)).
      destruct (decide (p.1 = key)) as [<-|Hne]; [now rewrite bool_decide_eq_true_2, lookup_insert_eq|]. now rewrite bool_decide_eq_false_2, lookup_insert_ne. }
    rewrite G. reflexivity.
Qed.
End CommandLine.

Definition blank (c : Z) : bool := (c =? 32) || ((9 <=? c) && (c <=? 13)).
(** A dash within a word starts an option: "root=a-b" sets the option "b". *)
Theorem dash_within_word : ParseArguments blank [114; 111; 111; 116; 61; 97; 45; 98] ∅ = Some {[ [98] := [] ]}.
Proof. reflexivity. Qed.
Lemma ParseArguments_options_witness : exists o, ParseArguments blank (line 32 [([97], Some [49]); ([98], None)]) ∅ = Some o /\ o !! [97] = Some [49].
Proof.
  refine (ParseArguments_options blank 32 eq_refl (conj eq_refl eq_refl) [([97], Some [49]); ([98], None)] [97] _ _); [|discriminate].
  repeat constructor; discriminate.
Defined.
