(* ===== verification/FileSyscalls.v ===== *)
(** * System calls on files

    [API/VFS.cpp] with the descriptor operations of [Scheduler/Process.cpp] they call and
    [Library/UserBuffer.hpp]: the calls of a process on paths, descriptors and directories, composed
    from the virtual file system ([VFS]), the descriptor table ([FileDescriptors]) and the metadata
    of inodes ([INode]).

    The state is what the calls of one process see: the file systems, the table of the process and
    the descriptor objects its numbers refer to (two numbers can share one), its working directory,
    credentials and mask, the regions of its address space and the bytes of memory.  A pointer
    argument is an address; an access to a byte that is not there is a page fault in the kernel.

    Parameters, beside the interfaces: the length check of [Prism]'s paths, the test for the higher
    half, the integer a returned reference is converted to, the order of a hash table, bytes of fresh
    heap memory, the addresses of two string constants of the kernel and the depth of nested links. *)

From Stdlib Require Import ZArith Lia Bool Ascii String.
From stdpp Require Import base gmap list numbers strings.
From S2P Require Import Prelude Prism AddressSpace Posix Disk FileDescriptors Effects VFS Scheduler Process Time.

(** * Metadata of inodes

    [VFS/INode.hpp] and [VFS/INode.cpp]: the metadata every inode carries, what [stat] reports of
    it and in which layout, permissions, and the changes of mode, owner and time stamps. *)

Module INode.
Definition W_OK : Z := 2.
Definition S_IWUSR : Z := 0x80.
Definition S_IWGRP : Z := 0x10.
Definition S_IWOTH : Z := 0x2.
Definition S_IRWXO : Z := 0x7.
Definition EROFS : Z := 30.

Definition no_time : timespec := mkTimespec 0 0.
(** [timespec::operator bool] *)
Definition time_set (t : timespec) : bool := negb (tv_sec t =? 0) || negb (tv_nsec t =? 0).

Record Metadata := mkMetadata {
  ID : Z; Mode : Z; Size : Z; LinkCount : Z; BlockSize : Z; BlockCount : Z; RootDeviceID : Z; DeviceID : Z; UID : Z; GID : Z;
  AccessTime : timespec; ModificationTime : timespec; ChangeTime : timespec
}.

(** ** [stat] *)
Record stat := mkStat {
  st_dev : Z; st_ino : Z; st_nlink : Z; st_mode : Z; st_uid : Z; st_gid : Z; st_rdev : Z; st_size : Z; st_blksize : Z; st_blocks : Z;
  st_atim : timespec; st_mtim : timespec; st_ctim : timespec
}.
Definition Stats (m : Metadata) : stat :=
  mkStat (DeviceID m) (ID m) (LinkCount m) (Mode m) (UID m) (GID m) (RootDeviceID m) (Size m) (BlockSize m) (BlockCount m)
    (AccessTime m) (ModificationTime m) (ChangeTime m).
Definition time_bytes (t : timespec) : list Z := le_bytes 8 (tv_sec t) ++ le_bytes 8 (tv_nsec t).
(** The structure in memory, the unused words cleared. *)
Definition stat_bytes (s : stat) : list Z :=
  le_bytes 8 (st_dev s) ++ le_bytes 8 (st_ino s) ++ le_bytes 8 (st_nlink s) ++ le_bytes 4 (st_mode s) ++ le_bytes 4 (st_uid s)
  ++ le_bytes 4 (st_gid s) ++ le_bytes 4 0 ++ le_bytes 8 (st_rdev s) ++ le_bytes 8 (st_size s) ++ le_bytes 8 (st_blksize s)
  ++ le_bytes 8 (st_blocks s) ++ time_bytes (st_atim s) ++ time_bytes (st_mtim s) ++ time_bytes (st_ctim s) ++ replicate 24 0.
Definition sizeof_stat : nat := 144.

(** ** Permissions *)
Definition CanWrite (m : Metadata) (creds : Scheduler.Credentials) : bool :=
  if (Scheduler.EffectiveUserID creds =? 0) || truthy (Mode m .& S_IWOTH) then true
  else if (Scheduler.EffectiveUserID creds =? UID m) && truthy (Mode m .& S_IWUSR) then true
  else (GID m =? Scheduler.EffectiveGroupID creds) && truthy (Mode m .& S_IWGRP).
Definition ReadOnly (m : Metadata) : bool := false.
Definition Immutable (m : Metadata) : bool := false.
Definition CheckPermissions (m : Metadata) (mask : Z) : Z + Z :=
  if truthy (mask .& W_OK) then
    if ReadOnly m && (S_ISREG (Mode m) || S_ISDIR (Mode m) || S_ISLNK (Mode m)) then inl EROFS
    else if Immutable m then inl EACCES
    else inr 0
  else inr 0.

(** ** Changes *)
Definition SetOwner (uid gid : Z) (m : Metadata) : Metadata :=
  if (uid =? UID m) && (gid =? GID m) then m
  else mkMetadata (ID m) (Mode m) (Size m) (LinkCount m) (BlockSize m) (BlockCount m) (RootDeviceID m) (DeviceID m) uid gid
         (AccessTime m) (ModificationTime m) (ChangeTime m).
(** The bits of the new mode are added to those of the old. *)
Definition ChangeMode (mode : Z) (m : Metadata) : Metadata :=
  mkMetadata (ID m) (Mode m .| (mode .& 0x1ff)) (Size m) (LinkCount m) (BlockSize m) (BlockCount m) (RootDeviceID m) (DeviceID m) (UID m) (GID m)
    (AccessTime m) (ModificationTime m) (ChangeTime m).
Definition UpdateTimestamps (atime mtime ctime : timespec) (m : Metadata) : Metadata :=
  mkMetadata (ID m) (Mode m) (Size m) (LinkCount m) (BlockSize m) (BlockCount m) (RootDeviceID m) (DeviceID m) (UID m) (GID m)
    (if time_set atime then atime else AccessTime m) (if time_set mtime then mtime else ModificationTime m)
    (if time_set ctime then ctime else ChangeTime m).

(** ** Theorems *)
Lemma stat_bytes_length s : length (stat_bytes s) = sizeof_stat.
Proof. unfold stat_bytes, time_bytes. rewrite !length_app, !le_bytes_length, length_replicate. reflexivity. Qed.

(** [chmod] cannot take a permission away: the bits of the old mode stay. *)
Theorem ChangeMode_keeps_permissions mode m : Mode m .& Mode (ChangeMode mode m) = Mode m.
Proof. cbn. apply Z.bits_inj'. intros n _. rewrite Z.land_spec, Z.lor_spec. now destruct (Z.testbit (Mode m) n). Qed.
End INode.

(** ** System calls on files *)
(** What the calls use of inodes and file systems beside [FsOps]: metadata, contents, and the
    virtual functions for control, renaming and removal.  Removal answers whether the entry has
    been taken out of its directory. *)
Class FileOps (S I : Type) := {
  file_Metadata : S -> I -> INode.Metadata;
  file_set_Metadata : S -> I -> INode.Metadata -> S;
  file_FlushMetadata : S -> I -> S * (Z + unit);
  file_Read : S -> I -> Z -> Z -> Z * list Z;
  file_Write : S -> I -> Z -> list Z -> option (S * Z);
  file_Truncate : S -> I -> Z -> S * (Z + Z);
  file_IoCtl : S -> gmap Z Z -> I -> Z -> Z -> S * gmap Z Z * (Z + Z);
  file_Rename : S -> I -> I -> string -> S * (Z + unit);
  file_RmDir : S -> I -> string -> I -> S * (Z + bool);
  file_Filesystem : S -> I -> option Z;
  filesystem_Sync : S -> Z -> S * (Z + unit);
  filesystem_Stats : S -> Z -> Z + list Z
}.

Module FileCalls.
Definition AT_FDCWD : Z := -100.
Definition AT_SYMLINK_NOFOLLOW : Z := 0x100.
Definition AT_NO_AUTOMOUNT : Z := 0x800.
Definition AT_EMPTY_PATH : Z := 0x1000.
Definition F_DUPFD : Z := 0.
Definition F_GETFD : Z := 1.
Definition F_SETFD : Z := 2.
Definition F_GETFL : Z := 3.
Definition F_SETFL : Z := 4.
Definition F_DUPFD_CLOEXEC : Z := 1030.
Definition FIONBIO : Z := 0x5421.
Definition FIONCLEX : Z := 0x5450.
Definition FIOCLEX : Z := 0x5451.
Definition FIOASYNC : Z := 0x5452.
Definition FIOQSIZE : Z := 0x5460.
Definition O_NOCTTY : Z := 0x400.
Definition O_TRUNC : Z := 0x1000.
Definition O_NONBLOCK : Z := 0x4000.
Definition FASYNC : Z := 0x2000.
Definition UTIME_NOW : Z := 2 ^ 30 - 1.
Definition UTIME_OMIT : Z := 2 ^ 30 - 2.
Definition MAX_PATH_LENGTH : Z := 4096.
Definition ENOTTY : Z := 25.
Definition ERANGE : Z := 34.

Section Calls.
Context {Paths : PathOps} {S I : Type} {FS : FsOps S I} {FO : FileOps S I} {PM : PrismMath}.
Context (ValidateLength : string -> bool) (IsHigherHalf : Z -> bool) (entry_value : Z -> Z).
Context (table_order : gmap string Z -> list (string * Z)) (fresh_bytes : nat -> list Z).
Context (empty_literal dot_literal : Z) (link_depth : nat).

(** A descriptor object: its entry, the inode of its [File], and the state of a listing. *)
Record Handle := mkHandle {
  h_Entry : Z; h_File : option I; h_AccessMode : Z; h_Offset : Z; h_Flags : Z; h_DescriptionFlags : Z;
  h_DirEntries : Descriptors.DirectoryEntries; h_Iterator : nat
}.
Definition with_offset (o : Z) (h : Handle) : Handle :=
  mkHandle (h_Entry h) (h_File h) (h_AccessMode h) o (h_Flags h) (h_DescriptionFlags h) (h_DirEntries h) (h_Iterator h).
Definition with_flags (f : Z) (h : Handle) : Handle :=
  mkHandle (h_Entry h) (h_File h) (h_AccessMode h) (h_Offset h) f (h_DescriptionFlags h) (h_DirEntries h) (h_Iterator h).
Definition with_listing (l : Descriptors.Listing) (h : Handle) : Handle :=
  mkHandle (h_Entry h) (h_File h) (h_AccessMode h) (Descriptors.l_offset l) (h_Flags h) (h_DescriptionFlags h)
    (Descriptors.l_entries l) (Descriptors.l_iterator l).

Record World := mkWorld {
  vfs : VFS.State S I; table : Descriptors.FileDescriptorTable Z; handles : gmap Z Handle; next_handle : Z;
  m_CWD : option Z; creds : Scheduler.Credentials; m_Umask : Z; space : list Region; memory : gmap Z Z; now : timespec
}.
Notation M := (Effects.M World).
Definition set_vfs (v : VFS.State S I) (w : World) : World :=
  mkWorld v (table w) (handles w) (next_handle w) (m_CWD w) (creds w) (m_Umask w) (space w) (memory w) (now w).
Definition set_table (t : Descriptors.FileDescriptorTable Z) (w : World) : World :=
  mkWorld (vfs w) t (handles w) (next_handle w) (m_CWD w) (creds w) (m_Umask w) (space w) (memory w) (now w).
Definition set_handle (n : Z) (h : Handle) (w : World) : World :=
  mkWorld (vfs w) (table w) (<[n := h]> (handles w)) (next_handle w) (m_CWD w) (creds w) (m_Umask w) (space w) (memory w) (now w).
Definition add_handle (h : Handle) (w : World) : World :=
  mkWorld (vfs w) (table w) (<[next_handle w := h]> (handles w)) (next_handle w + 1) (m_CWD w) (creds w) (m_Umask w) (space w) (memory w) (now w).
Definition set_cwd (e : option Z) (w : World) : World :=
  mkWorld (vfs w) (table w) (handles w) (next_handle w) e (creds w) (m_Umask w) (space w) (memory w) (now w).
Definition set_memory (m : gmap Z Z) (w : World) : World :=
  mkWorld (vfs w) (table w) (handles w) (next_handle w) (m_CWD w) (creds w) (m_Umask w) (space w) m (now w).
Definition err {A} (e : Z) : M (Z + A) := mret (inl e).
Definition ok (n : Z) : M (Z + Z) := mret (inr n).

(** A function of the file system layer, on its part of the state. *)
Definition lift {A} (m : Effects.M (VFS.State S I) A) : M A := fun w =>
  match m (vfs w) with Ret v a => Ret (set_vfs v w) a | Halted v => Halted (set_vfs v w) | Panic => Panic | Diverges => Diverges end.
Definition fs_gets {A} (f : S -> A) : M A := gets (fun w => f (VFS.filesystems (vfs w))).
Definition fs_run {A} (f : S -> S * A) : M A := lift (VFS.fs_op f).
Definition entry_of (e : Z) : M (VFS.DirectoryEntry I) := lift (VFS.entry_of e).
Definition metadata (i : I) : M INode.Metadata := fs_gets (fun s => file_Metadata s i).

(** ** User memory *)
Definition load (a n : Z) : M (list Z) := w ← get; deref (mapM (fun i => memory w !! i) (seqZ a n)).
Definition store (a : Z) (bs : list Z) : M unit :=
  _ ← load a (Z.of_nat (length bs)); update (fun w => set_memory (mem_write (memory w) a bs) w).
Fixpoint c_string (fuel : nat) (m : gmap Z Z) (a : Z) : option string :=
  match fuel with
  | O => None
  | Datatypes.S fuel =>
      c ← m !! a;
      if c =? 0 then Some ""%string else s ← c_string fuel m (a + 1); Some (String (ascii_of_N (Z.to_N c)) s)
  end.
(** [CPU::CopyStringFromUser], or a view of a string; a view of the null pointer is empty. *)
Definition view (a : Z) : M string := if a =? 0 then mret ""%string else w ← get; deref (c_string (Datatypes.S (size (memory w))) (memory w) a).
Definition string_bytes (s : string) : list Z := (fun c => Z.of_N (N_of_ascii c)) <$> list_ascii_of_string s.
Definition ValidateAddress (a mode size : Z) : M bool := gets (fun w => Processes.validate_loop (space w) a mode size).
Definition ValidateRead (a size : Z) : M bool := ValidateAddress a Processes.PROT_READ size.
Definition ValidateWrite (a size : Z) : M bool := ValidateAddress a Processes.PROT_WRITE size.
Definition ForUserBuffer (a : Z) : bool := negb (truthy a && IsHigherHalf a).

(** ** Descriptors of the process *)
Definition GetFileHandle (fd : Z) : M (option Z) := gets (fun w => Descriptors.GetFd (table w) (i32 fd)).
Definition handle_of (n : Z) : M Handle := w ← get; deref (handles w !! n).
Definition modify_handle (n : Z) (f : Handle -> Handle) : M unit := h ← handle_of n; update (set_handle n (f h)).
(** The handle behind a number, or [EBADF]. *)
Definition with_fd {A} (fd : Z) (k : Z -> M (Z + A)) : M (Z + A) :=
  n ← GetFileHandle fd; match n with None => err EBADF | Some n => k n end.
(** [INode()->...] of a descriptor: the inode of its directory entry. *)
Definition fd_INode (n : Z) : M (option I) := h ← handle_of n; d ← entry_of (h_Entry h); mret (VFS.m_INode d).

#[export] Instance inode_ops : Descriptors.INodeOps (S * I) := {|
  Descriptors.inode_IsDirectory p := S_ISDIR (inode_Mode p.1 p.2);
  Descriptors.inode_Size p := INode.Size (file_Metadata p.1 p.2);
  Descriptors.inode_Read p off count := file_Read p.1 p.2 off count;
  Descriptors.inode_Write p off bs := match file_Write p.1 p.2 off bs with Some (s, n) => Some ((s, p.2), n) | None => None end;
  Descriptors.inode_Truncate p size := let '(s, r) := file_Truncate p.1 p.2 size in ((s, p.2), r)
|}.
(** The descriptor of [FileDescriptors] a handle stands for, in a state of the file systems. *)
Definition descriptor (h : Handle) (s : S) : Descriptors.FileDescriptor (S * I) :=
  Descriptors.mkFd ((fun i => (s, i)) <$> h_File h) (h_AccessMode h) (h_Offset h) (h_Flags h).
Definition put_descriptor (n : Z) (d : Descriptors.FileDescriptor (S * I)) : M unit :=
  _ ← (match Descriptors.m_File d with Some (s, _) => lift (VFS.put_filesystems s) | None => mret tt end);
  modify_handle n (with_offset (Descriptors.m_Offset d)).

Definition fd_Read (n out count offset : Z) : M (Z + Z) :=
  h ← handle_of n;
  s ← fs_gets id;
  let '(d, r, bs) := Descriptors.Read (descriptor h s) count offset in
  _ ← store out bs;
  _ ← put_descriptor n d;
  mret r.
(** The bytes are fetched by the inode, once the descriptor has been checked. *)
Definition fd_Write (n in_ count offset : Z) : M (Z + Z) :=
  h ← handle_of n;
  s ← fs_gets id;
  let d := descriptor h s in
  let reaches := Descriptors.CanWrite d && match h_File h with Some i => negb (S_ISDIR (inode_Mode s i)) | None => false end in
  bs ← (if reaches then load in_ count else mret []);
  match Descriptors.Write d bs offset with
  | None => diverges
  | Some (d, r) => _ ← put_descriptor n d; mret r
  end.
(** [Read(buffer, count)] and [Write(buffer, count)] use the offset of the descriptor. *)
Definition fd_Read_here (n out count : Z) : M (Z + Z) :=
  if negb (ForUserBuffer out) then err EFAULT else h ← handle_of n; fd_Read n out count (i64 (h_Offset h)).
Definition fd_Write_here (n in_ count : Z) : M (Z + Z) :=
  if negb (ForUserBuffer in_) then err EFAULT else h ← handle_of n; fd_Write n in_ count (i64 (h_Offset h)).

(** [FileDescriptor(dentry, flags, accMode)] fills the cache of the directory. *)
Definition new_FileDescriptor (dentry flags accMode : Z) : M Z :=
  d ← entry_of dentry;
  _ ← lift (VFS.PopulateDirectoryEntries dentry);
  let h := mkHandle dentry (VFS.m_INode d) accMode 0 (flags .& VFS.O_CLOEXEC)
    (Z.ldiff flags (VFS.O_CREAT .| VFS.O_DIRECTORY .| VFS.O_EXCL .| O_NOCTTY .| VFS.O_NOFOLLOW .| O_TRUNC .| VFS.O_CLOEXEC))
    (Descriptors.mkEntries [] false) 0 in
  w ← get;
  _ ← update (add_handle h);
  mret (next_handle w).
Definition Process_OpenAt (dirFd : Z) (path : string) (flags mode : Z) : M (Z + Z) :=
  w ← get;
  parent ← (if Absolute path then r ← lift VFS.RootDirectoryEntry; mret (inr (Some r))
            else if negb (i32 dirFd =? AT_FDCWD) then
              n ← GetFileHandle dirFd;
              match n with None => mret (inl EBADF) | Some n => h ← handle_of n; mret (inr (Some (h_Entry h))) end
            else mret (inr (m_CWD w)));
  match parent with
  | inl e => err e
  | inr parent =>
      try_ (lift (VFS.Open link_depth (m_Umask w) parent path (i32 flags) mode)) (fun '(dentry, acc) =>
        n ← new_FileDescriptor dentry (i32 flags) acc;
        w ← get;
        let '(t, fd) := Descriptors.Insert (table w) n (-1) in
        _ ← update (set_table t);
        ok fd)
  end.
(** One number more than the table has entries, from the first that is not negative on. *)
Definition Process_DupFd (oldFdNum newFdNum : Z) : M (Z + Z) :=
  w ← get;
  match Descriptors.DupFd (Datatypes.S (Z.to_nat (- newFdNum) + size (Descriptors.m_Table (table w)))) (table w) oldFdNum newFdNum with
  | None => diverges
  | Some (t, r) => _ ← update (set_table t); mret r
  end.

(** ** Paths relative to a descriptor *)
Definition IsDirectory_entry (e : Z) : M bool := d ← entry_of e; mret (VFS.IsDirectory d).
Definition ResolveAtFd (dirFdNum : Z) (path : string) (flags : Z) : M (Z + VFS.PathResolution) :=
  _ ← lift (VFS.set_errno VFS.no_error);
  w ← get;
  if bool_decide (path = ""%string) then
    if negb (truthy (flags .& AT_EMPTY_PATH)) then err ENOENT
    else if dirFdNum =? AT_FDCWD then
      cwd ← deref (m_CWD w); d ← entry_of cwd;
      parent ← deref (VFS.m_Parent d); p ← entry_of parent;
      grand ← deref (VFS.m_Parent p);
      looked ← lift (VFS.Lookup grand (VFS.m_Name p));
      mret (inr (looked, Some cwd, VFS.m_Name d))
    else
      with_fd dirFdNum (fun n => h ← handle_of n; d ← entry_of (h_Entry h); mret (inr (VFS.m_Parent d, Some (h_Entry h), VFS.m_Name d)))
  else if negb (ValidateLength path) then err ENAMETOOLONG
  else
    root ← lift VFS.RootDirectoryEntry;
    base ← (if Absolute path then mret (inr (Some root))
            else if dirFdNum =? AT_FDCWD then mret (inr (m_CWD w))
            else with_fd dirFdNum (fun n => h ← handle_of n; dir ← IsDirectory_entry (h_Entry h); if (dir : bool) then mret (inr (Some (h_Entry h))) else err ENOTDIR));
    match base with
    | inl e => err e
    | inr base =>
        res ← lift (VFS.ResolvePath link_depth base path (negb (truthy (flags .& AT_SYMLINK_NOFOLLOW))));
        v ← gets vfs;
        if negb (VFS.errno v =? VFS.no_error) && negb (VFS.errno v =? ENOENT) then err (VFS.errno v) else mret (inr res)
    end.

(** ** Reading and writing *)
Definition Read (fdNum out bytes : Z) : M (Z + Z) :=
  valid ← ValidateWrite out bytes;
  if negb valid then err EFAULT
  else
    with_fd fdNum (fun n =>
      h ← handle_of n;
      if negb (truthy (h_AccessMode h .& Descriptors.eRead)) then err EBADF else fd_Read_here n out bytes).
Definition Write (fdNum in_ bytes : Z) : M (Z + Z) :=
  valid ← ValidateRead in_ bytes;
  if negb valid then err EFAULT else with_fd fdNum (fun n => fd_Write_here n in_ bytes).
Definition Open (path flags mode : Z) : M (Z + Z) :=
  valid ← ValidateRead path MAX_PATH_LENGTH;
  if negb valid then err EFAULT
  else p ← view path; if negb (ValidateLength p) then err ENAMETOOLONG else Process_OpenAt AT_FDCWD p flags mode.
Definition Close (fdNum : Z) : M (Z + Z) :=
  w ← get;
  let '(t, r) := Descriptors.CloseFd (table w) (i32 fdNum) in
  _ ← update (set_table t); ok r.
Definition LSeek (fdNum offset whence : Z) : M (Z + Z) :=
  with_fd fdNum (fun n =>
    h ← handle_of n; s ← fs_gets id;
    match Descriptors.Seek (descriptor h s) (i32 whence) offset with
    | None => panic
    | Some (d, r) => _ ← put_descriptor n d; mret r
    end).
Definition PRead (fdNum out count offset : Z) : M (Z + Z) :=
  with_fd fdNum (fun n =>
    valid ← ValidateAddress out Processes.PROT_READ count;
    if negb valid then err EFAULT else if negb (ForUserBuffer out) then err EFAULT else fd_Read n out count offset).
Definition PWrite (fdNum in_ count offset : Z) : M (Z + Z) :=
  with_fd fdNum (fun n =>
    valid ← ValidateAddress in_ Processes.PROT_WRITE count;
    if negb valid then err EFAULT else if negb (ForUserBuffer in_) then err EFAULT else fd_Write n in_ count offset).

(** ** Descriptors: control and flags *)
Definition SetCloseOnExec (closeOnExec : bool) (h : Handle) : Handle :=
  with_flags (if closeOnExec then h_Flags h .| VFS.O_CLOEXEC else Z.ldiff (h_Flags h) VFS.O_CLOEXEC) h.
(** [GetFlags] and [GetDescriptionFlags] read the same field, their setters write it. *)
Definition GetFlags (h : Handle) : Z := h_Flags h.
Definition GetDescriptionFlags (h : Handle) : Z := h_Flags h.
Definition SetFlags (flags : Z) : Handle -> Handle := with_flags (i32 flags).
Definition SetDescriptionFlags (flags : Z) : Handle -> Handle := with_flags (i32 flags).
(** [FIONBIO] and [FIOASYNC]: a flag set or cleared as the integer at the argument says. *)
Definition flag_from_user (n argument flag : Z) : M (Z + Z) :=
  bs ← load argument 8;
  h ← handle_of n;
  _ ← modify_handle n (SetDescriptionFlags (if truthy (le_word bs) then GetDescriptionFlags h .| flag else Z.ldiff (GetDescriptionFlags h) flag));
  ok 0.
Definition IoCtl (fdNum request argument : Z) : M (Z + Z) :=
  with_fd fdNum (fun n =>
    if request =? FIOCLEX then _ ← modify_handle n (SetCloseOnExec true); ok 0
    else if request =? FIONCLEX then _ ← modify_handle n (SetCloseOnExec false); ok 0
    else if request =? FIONBIO then flag_from_user n argument O_NONBLOCK
    else if request =? FIOASYNC then flag_from_user n argument FASYNC
    else if request =? FIOQSIZE then
      h ← handle_of n; d ← entry_of (h_Entry h);
      link ← (if VFS.IsDirectory d || VFS.IsRegular d then mret true else lift (VFS.IsSymlink d));
      if negb link then err ENOTTY
      else i ← fd_INode n; i ← deref i; m ← metadata i; _ ← store argument (le_bytes 8 (INode.Size m)); ok 0
    else
      i ← fd_INode n; i ← deref i;
      w ← get;
      let '(s, mem, r) := file_IoCtl (VFS.filesystems (vfs w)) (memory w) i request argument in
      _ ← lift (VFS.put_filesystems s);
      _ ← update (set_memory mem);
      mret r).

Definition Dup (oldFdNum : Z) : M (Z + Z) := Process_DupFd oldFdNum (-1).
Definition Dup2 (oldFdNum newFdNum : Z) : M (Z + Z) := Process_DupFd oldFdNum newFdNum.
Definition Dup3 (oldFdNum newFdNum flags : Z) : M (Z + Z) := if oldFdNum =? newFdNum then err EINVAL else Process_DupFd oldFdNum newFdNum.
(** [for (newFdNum = arg; current->GetFileHandle(newFdNum); newFdNum++);] *)
Fixpoint first_free (fuel : nat) (t : Descriptors.FileDescriptorTable Z) (n : Z) : option Z :=
  match Descriptors.GetFd t (i32 n) with
  | None => Some n
  | Some _ => match fuel with O => None | Datatypes.S fuel => first_free fuel t (n + 1) end
  end.
Definition FCntl (fdNum op arg : Z) : M (Z + Z) :=
  with_fd fdNum (fun n =>
    h ← handle_of n;
    if (op =? F_DUPFD) || (op =? F_DUPFD_CLOEXEC) then
      w ← get;
      match first_free (size (Descriptors.m_Table (table w))) (table w) (i64 arg) with
      | None => diverges
      | Some newFdNum => Dup3 fdNum newFdNum (if op =? F_DUPFD then 0 else VFS.O_CLOEXEC)
      end
    else if op =? F_GETFD then ok (GetFlags h)
    else if op =? F_SETFD then _ ← modify_handle n (SetFlags arg); ok 0
    else if op =? F_GETFL then ok (GetDescriptionFlags h)
    else if op =? F_SETFL then
      if truthy (arg .& VFS.O_ACCMODE) then err EINVAL else _ ← modify_handle n (SetDescriptionFlags arg); ok 0
    else err EINVAL).

(** ** Access and size *)
Definition Access (filename mode : Z) : M (Z + Z) :=
  valid ← ValidateRead filename MAX_PATH_LENGTH;
  if negb valid then err EFAULT
  else
    path ← view filename;
    if negb (ValidateLength path) then err ENAMETOOLONG
    else if negb (mode =? mode .& INode.S_IRWXO) then err EINVAL
    else
      res ← lift (VFS.ResolvePath link_depth None path true);
      match res.1.2 with
      | None => err ENOENT
      | Some e =>
          d ← entry_of e;
          match VFS.m_INode d with
          | None => err ENOENT
          | Some i =>
              m ← metadata i;
              match INode.CheckPermissions m mode with
              | inl e => err (if truthy (mode .& INode.S_IWOTH) && (S_ISDIR (INode.Mode m) || S_ISREG (INode.Mode m)) then INode.EROFS else e)
              | inr r => ok r
              end
          end
      end.
Definition Truncate (path length : Z) : M (Z + Z) :=
  if length <? 0 then err EINVAL
  else
    valid ← ValidateRead path MAX_PATH_LENGTH;
    if negb valid then err EFAULT
    else
      p ← view path;
      if negb (ValidateLength p) then err ENAMETOOLONG
      else
        root ← lift VFS.RootDirectoryEntry;
        res ← lift (VFS.ResolvePath link_depth (Some root) p true);
        match res.1.2 with
        | None => err ENOENT
        | Some e =>
            d ← entry_of e;
            if VFS.IsDirectory d then err EISDIR
            else if negb (VFS.IsRegular d) then err EINVAL
            else
              i ← deref (VFS.m_INode d); m ← metadata i;
              match INode.CheckPermissions m INode.W_OK with
              | inl e => err e
              | inr _ => fs_run (fun s => file_Truncate s i length)
              end
        end.
Definition FTruncate (fdNum length : Z) : M (Z + Z) :=
  if length <? 0 then err EINVAL
  else
    with_fd fdNum (fun n =>
      h ← handle_of n; s ← fs_gets id;
      match Descriptors.Truncate (descriptor h s) length with
      | None => panic
      | Some (d, r) => _ ← put_descriptor n d; mret r
      end).

(** ** The working directory *)
Definition GetCwd (buffer size : Z) : M (Z + Z) :=
  if (buffer =? 0) || (size =? 0) then err EINVAL
  else
    valid ← ValidateWrite buffer size;
    if negb valid then err EFAULT
    else
      w ← get;
      cwd ← deref (m_CWD w);
      path ← lift (VFS.Path (base.size (VFS.entries (vfs w))) cwd);
      if size <? Z.of_nat (String.length path) then err ERANGE
      else _ ← store buffer (string_bytes path); ok 0.
Definition ChDir (filename : Z) : M (Z + Z) :=
  valid ← ValidateRead filename 1;
  if negb valid then err EFAULT
  else
    path ← view filename;
    if negb (ValidateLength path) then err ENAMETOOLONG
    else
      w ← get;
      match m_CWD w with
      | None => err ENOENT
      | Some cwd =>
          res ← lift (VFS.ResolvePath link_depth (Some cwd) path true);
          match res.1.2 with
          | None => err ENOENT
          | Some e => dir ← IsDirectory_entry e; if negb dir then err ENOTDIR else _ ← update (set_cwd (Some e)); ok 0
          end
      end.
Definition FChDir (fdNum : Z) : M (Z + Z) :=
  with_fd fdNum (fun n =>
    h ← handle_of n; d ← entry_of (h_Entry h);
    match VFS.m_INode d with
    | None => err ENOENT
    | Some i =>
        mode ← fs_gets (fun s => inode_Mode s i);
        if negb (S_ISDIR mode) then err ENOTDIR else _ ← update (set_cwd (Some (h_Entry h))); ok 0
    end).

(** ** Creating, linking, renaming, removing *)
(** A reference to the new entry, returned as an integer. *)
Definition returned (m : Effects.M (VFS.State S I) (Z + Z)) : M (Z + Z) := try_ (lift m) (fun e => ok (entry_value e)).
Definition MkDirAt (dirFdNum pathname mode : Z) : M (Z + Z) :=
  valid ← ValidateRead pathname 255;
  if negb valid then err EFAULT
  else
    path ← view pathname;
    try_ (ResolveAtFd dirFdNum path 0) (fun '(parent, _, base) => directory ← deref parent; returned (VFS.CreateDirectory directory base mode)).
Definition MkDir (pathname mode : Z) : M (Z + Z) := MkDirAt AT_FDCWD pathname mode.
Definition MkNodAt (dirFdNum pathname mode dev : Z) : M (Z + Z) :=
  valid ← ValidateRead pathname 255;
  if negb valid then err EFAULT
  else
    path ← view pathname;
    try_ (ResolveAtFd dirFdNum path 0) (fun '(parent, _, base) => directory ← deref parent; returned (VFS.CreateNode directory base mode dev "")).
Definition OpenAt (dirFdNum pathname flags mode : Z) : M (Z + Z) := path ← view pathname; Process_OpenAt dirFdNum path flags mode.
Definition Creat (pathname mode : Z) : M (Z + Z) :=
  valid ← ValidateRead pathname MAX_PATH_LENGTH;
  if negb valid then err EFAULT
  else
    path ← view pathname;
    if negb (ValidateLength path) then err ENAMETOOLONG
    else Process_OpenAt AT_FDCWD path (VFS.O_CREAT .| VFS.O_WRONLY .| O_TRUNC) mode.
Definition LinkAt (oldDirFdNum oldPath newDirFdNum newPath flags : Z) : M (Z + Z) :=
  oldName ← view oldPath;
  newName ← view newPath;
  try_ (ResolveAtFd oldDirFdNum oldName 0) (fun '(oldParent, _, oldBase) =>
    try_ (ResolveAtFd newDirFdNum newName 0) (fun '(newParent, _, newBase) =>
      o ← deref oldParent; n ← deref newParent;
      returned (VFS.Link o oldBase n newBase))).
Definition Link (oldPath newPath : Z) : M (Z + Z) := LinkAt AT_FDCWD oldPath AT_FDCWD newPath 0.
Definition Unlink (path : Z) : M (Z + Z) := err VFS.ENOSYS.
Definition UnlinkAt (dirFdNum path flags : Z) : M (Z + Z) := err VFS.ENOSYS.
Definition SymlinkAt (targetPath newDirFdNum linkPath : Z) : M (Z + Z) :=
  target ← view targetPath;
  link ← view linkPath;
  try_ (ResolveAtFd newDirFdNum link 0) (fun '(parent, _, base) => directory ← deref parent; returned (VFS.Symlink directory base target)).
Definition Symlink (target linkPath : Z) : M (Z + Z) := SymlinkAt target AT_FDCWD linkPath.

(** The inode that is renamed is the one of the old parent. *)
Definition RenameAt2 (oldDirFdNum oldPath newDirFdNum newPath flags : Z) : M (Z + Z) :=
  oldName ← view oldPath;
  try_ (ResolveAtFd oldDirFdNum oldName 0) (fun '(oldParent, oldEntry, oldBase) =>
    newName ← view newPath;
    try_ (ResolveAtFd newDirFdNum newName 0) (fun '(newParent, newEntry, newBase) =>
      op ← deref oldParent; opd ← entry_of op; opi ← deref (VFS.m_INode opd);
      mode ← fs_gets (fun s => inode_Mode s opi);
      if negb (S_ISDIR mode) then err ENOTDIR
      else if bool_decide (oldEntry = None) then err ENOENT
      else if bool_decide (is_Some newEntry) then err EEXIST
      else
        np ← deref newParent; npd ← entry_of np; npi ← deref (VFS.m_INode npd);
        try_ (fs_run (fun s => file_Rename s opi npi (if bool_decide (newBase = ""%string) then oldBase else newBase))) (fun _ => ok 0))).
Definition RenameAt (oldDirFdNum oldPath newDirFdNum newPath : Z) : M (Z + Z) := RenameAt2 oldDirFdNum oldPath newDirFdNum newPath 0.
Definition Rename (oldPath newPath : Z) : M (Z + Z) := RenameAt AT_FDCWD oldPath AT_FDCWD newPath.

Definition RmDir (pathname : Z) : M (Z + Z) :=
  valid ← ValidateRead pathname 255;
  if negb valid then err EFAULT
  else
    path ← view pathname;
    w ← get;
    _ ← Assert (bool_decide (is_Some (m_CWD w)));
    let entryName := if bool_decide (BaseName path = ""%string) then BaseName (ParentPath path) else BaseName path in
    try_ (lift (VFS.ResolveParent link_depth (if Absolute path then None else m_CWD w) path)) (fun parentEntry =>
      p ← entry_of parentEntry;
      entry ← lift (VFS.Lookup parentEntry entryName);
      match entry with
      | None => err ENOENT
      | Some e =>
          pi ← deref (VFS.m_INode p); mode ← fs_gets (fun s => inode_Mode s pi);
          d ← entry_of e;
          if negb (S_ISDIR mode) || negb (VFS.IsDirectory d) then err ENOTDIR
          else
            i ← deref (VFS.m_INode d);
            try_ (fs_run (fun s => file_RmDir s pi (VFS.m_Name d) i)) (fun removed =>
              _ ← (if (removed : bool) then parent ← deref (VFS.m_Parent d); lift (VFS.RemoveChild parent e) else mret tt);
              ok 0)
      end).

(** ** Links, modes, times *)
Definition ReadLinkAt (dirFdNum path outBuffer bufferSize : Z) : M (Z + Z) :=
  p ← view path;
  try_ (ResolveAtFd dirFdNum p AT_SYMLINK_NOFOLLOW) (fun '(_, entry, _) =>
    match entry with
    | None => err ENOENT
    | Some e =>
        d ← entry_of e; i ← deref (VFS.m_INode d);
        target ← fs_gets (fun s => inode_ReadLink s i);
        match target with
        | inl e => err e
        | inr t => _ ← store outBuffer (take (Z.to_nat (Z.min (Z.of_nat (String.length t)) bufferSize)) (string_bytes t)); ok 0
        end
    end).
Definition ReadLink (path out size : Z) : M (Z + Z) := ReadLinkAt AT_FDCWD path out size.
Definition change_metadata (i : I) (f : INode.Metadata -> INode.Metadata) : M (Z + Z) :=
  m ← metadata i;
  _ ← fs_run (fun s => (file_set_Metadata s i (f m), tt));
  try_ (fs_run (fun s => file_FlushMetadata s i)) (fun _ => ok 0).
(** The flags of the resolution are the new mode. *)
Definition FChModAt (dirFdNum path mode flags : Z) : M (Z + Z) :=
  p ← view path;
  try_ (ResolveAtFd dirFdNum p mode) (fun '(_, entry, _) =>
    match entry with
    | None => err ENOENT
    | Some e =>
        w ← get;
        d ← entry_of e; i ← deref (VFS.m_INode d); m ← metadata i;
        if negb (Scheduler.EffectiveUserID (creds w) =? 0) && negb (Scheduler.UserID (creds w) =? INode.UID m) then err EPERM
        else change_metadata i (INode.ChangeMode mode)
    end).
Definition ChMod (path mode : Z) : M (Z + Z) := FChModAt AT_FDCWD path mode 0.
Definition FChMod (fdNum mode : Z) : M (Z + Z) := FChModAt fdNum dot_literal mode 0.

Definition read_time (a : Z) : M timespec :=
  bs ← load a 16; mret (mkTimespec (i64 (le_word (take 8 bs))) (i64 (le_word (drop 8 bs)))).
(** The two times of [utimbuf] are read as the two words of a pair. *)
Definition UTime (path out : Z) : M (Z + Z) :=
  p ← view path;
  root ← lift VFS.RootDirectoryEntry;
  res ← lift (VFS.ResolvePath link_depth (Some root) p true);
  match res.1.2 with
  | None => err ENOENT
  | Some e =>
      d ← entry_of e;
      match VFS.m_INode d with
      | None => err ENOENT
      | Some i =>
          w ← get; m ← metadata i;
          if negb (INode.CanWrite m (creds w)) then err EPERM
          else
            times ← read_time out;
            change_metadata i (INode.UpdateTimestamps (mkTimespec (tv_sec times) 0) (mkTimespec (tv_nsec times) 0) INode.no_time)
      end
  end.
Definition validateTimespec (t : timespec) : bool :=
  (tv_nsec t =? UTIME_NOW) || (tv_nsec t =? UTIME_OMIT) || ((0 <=? tv_nsec t) && (tv_nsec t <=? 999999999)).
Definition chosen_time (now : timespec) (t : timespec) : timespec :=
  if tv_nsec t =? UTIME_NOW then now else if tv_nsec t =? UTIME_OMIT then INode.no_time else t.
Definition UtimensAt (dirFdNum pathname times flags : Z) : M (Z + Z) :=
  pathValid ← ValidateRead pathname 1;
  timesValid ← ValidateRead times 32;
  if (truthy pathname && negb pathValid) || (truthy times && negb timesValid) then err EFAULT
  else
    w ← get;
    atime ← (if truthy times then read_time times else mret (now w));
    mtime ← (if truthy times then read_time (times + 16) else mret (now w));
    if (tv_nsec atime =? UTIME_OMIT) && (tv_nsec mtime =? UTIME_OMIT) then ok 0
    else if truthy times && negb (validateTimespec atime) && negb (validateTimespec mtime) then err EINVAL
    else
      path ← view pathname;
      r ← ResolveAtFd dirFdNum path flags;
      inode ← (match r with
               | inl e =>
                   if (dirFdNum <? 0) && negb (dirFdNum =? AT_FDCWD) then mret (inl e)
                   else with_fd dirFdNum (fun n => i ← fd_INode n; mret (inr i))
               | inr (_, None, _) => mret (inl ENOENT)
               | inr (_, Some e, _) => d ← entry_of e; mret (inr (VFS.m_INode d))
               end);
      match inode with
      | inl e => err e
      | inr None => err ENOENT
      | inr (Some i) =>
          m ← metadata i;
          if negb (INode.CanWrite m (creds w)) then err EPERM
          else change_metadata i (INode.UpdateTimestamps (chosen_time (now w) atime) (chosen_time (now w) mtime) (now w))
      end.

(** ** File systems *)
(** Each mount point is asked, in order. *)
Fixpoint sync_loop (hosts : list Z) : M unit :=
  match hosts with
  | [] => mret tt
  | host :: hosts =>
      d ← entry_of host; g ← deref (VFS.m_MountGate d); gd ← entry_of g; i ← deref (VFS.m_INode gd);
      fs ← fs_gets (fun s => file_Filesystem s i); fs ← deref fs;
      _ ← fs_run (fun s => filesystem_Sync s fs);
      sync_loop hosts
  end.
Definition SyncFilesystems : M (Z + Z) := w ← get; _ ← sync_loop (VFS.s_MountPoints (vfs w)); ok 0.
Definition SyncFs (fdNum : Z) : M (Z + Z) :=
  with_fd fdNum (fun n =>
    i ← fd_INode n; i ← deref i;
    fs ← fs_gets (fun s => file_Filesystem s i);
    match fs with
    | None => err ENODEV
    | Some fs => try_ (fs_run (fun s => filesystem_Sync s fs)) (fun _ => ok 0)
    end).
Definition StatFs (path out : Z) : M (Z + Z) :=
  p ← view path;
  try_ (lift (VFS.resolve link_depth None p VFS.lookup_eFollowLinks)) (fun entry =>
    e ← deref entry; d ← entry_of e;
    match VFS.m_INode d with
    | None => err ENOENT
    | Some i =>
        fs ← fs_gets (fun s => file_Filesystem s i);
        match fs with
        | None => err ENOENT
        | Some fs =>
            stats ← fs_gets (fun s => filesystem_Stats s fs);
            match stats with inl e => err e | inr bs => _ ← store out bs; ok 0 end
        end
    end).
Definition Mount (pathname targetPath filesystemType flags data : Z) : M (Z + Z) :=
  w ← get;
  if negb (Scheduler.EffectiveUserID (creds w) =? 0) then err EPERM
  else
    sourceValid ← ValidateRead pathname MAX_PATH_LENGTH;
    targetValid ← ValidateRead targetPath MAX_PATH_LENGTH;
    typeValid ← ValidateRead filesystemType 255;
    dataValid ← ValidateRead data 4096;
    if (truthy pathname && negb sourceValid) || negb targetValid || negb typeValid || (truthy data && negb dataValid) then err EFAULT
    else
      source ← view pathname;
      target ← view targetPath;
      if bool_decide (target = ""%string) then err ENOENT
      else if filesystemType =? 0 then err EINVAL
      else
        fsType ← view filesystemType;
        if bool_decide (fsType = ""%string) then err ENODEV
        else
          _ ← view data;
          try_ (lift (VFS.Mount link_depth None source target fsType)) (fun _ => ok 0).

(** ** Status *)
Definition put_stats (out : Z) (i : I) : M (Z + Z) := m ← metadata i; _ ← store out (INode.stat_bytes (INode.Stats m)); ok 0.
Definition FStatAt (dirFdNum path flags out : Z) : M (Z + Z) :=
  if truthy (Z.ldiff flags (AT_EMPTY_PATH .| AT_NO_AUTOMOUNT .| AT_SYMLINK_NOFOLLOW)) || (out =? 0) then err EINVAL
  else
    valid ← ValidateRead path 1;
    if truthy path && negb valid then err EFAULT
    else
      p ← view path;
      if negb (ValidateLength p) then err ENAMETOOLONG
      else
        fd ← GetFileHandle dirFdNum;
        w ← get;
        match m_CWD w with
        | None => err ENOENT
        | Some cwdEntry =>
            if bool_decide (p = ""%string) then
              if negb (truthy (flags .& AT_EMPTY_PATH)) then err ENOENT
              else if dirFdNum =? AT_FDCWD then
                c ← entry_of cwdEntry; match VFS.m_INode c with None => err ENOENT | Some i => put_stats out i end
              else match fd with None => err EBADF | Some n => i ← fd_INode n; i ← deref i; put_stats out i end
            else
              parent ← (if Absolute p then r ← lift VFS.RootDirectoryEntry; mret (inr r)
                        else if dirFdNum =? AT_FDCWD then g ← lift (VFS.FollowMounts cwdEntry); mret (inr g)
                        else match fd with
                             | None => mret (inl EBADF)
                             | Some n =>
                                 h ← handle_of n; dir ← IsDirectory_entry (h_Entry h);
                                 if negb dir then mret (inl ENOTDIR) else g ← lift (VFS.FollowMounts (h_Entry h)); mret (inr g)
                             end);
              match parent with
              | inl e => err e
              | inr parent =>
                  res ← lift (VFS.ResolvePath link_depth (Some parent) p (negb (truthy (flags .& AT_SYMLINK_NOFOLLOW))));
                  v ← gets vfs;
                  match res.1.2 with
                  | None => err (VFS.errno v)
                  | Some e => d ← entry_of e; match VFS.m_INode d with None => err (VFS.errno v) | Some i => put_stats out i end
                  end
              end
        end.
Definition Stat (path out : Z) : M (Z + Z) := FStatAt AT_FDCWD path 0 out.
Definition FStat (fdNum out : Z) : M (Z + Z) := FStatAt fdNum empty_literal AT_EMPTY_PATH out.
Definition LStat (path out : Z) : M (Z + Z) := FStatAt AT_FDCWD path AT_SYMLINK_NOFOLLOW out.
(** The body stops at its first statement. *)
Definition PSelect6 (fdCount readFds writeFds exceptFds timeout sigmask : Z) : M (Z + Z) := ok (-1).

(** ** Directories *)
(** A directory is looked at when the records of the last listing are used up.  The record of an entry, with the bytes behind the name as the heap gave them. *)
Definition dirent_bytes (r : Descriptors.dirent) : list Z :=
  let used := le_bytes 8 (Descriptors.d_ino r) ++ le_bytes 8 (Descriptors.d_off r) ++ le_bytes 2 (Descriptors.d_reclen r)
    ++ le_bytes 1 (Descriptors.d_type r) ++ string_bytes (Descriptors.d_name r) ++ [0] in
  used ++ drop (length used) (fresh_bytes (Z.to_nat (Descriptors.d_reclen r))).
Definition inode_number (e : Z) : M (option (Z * Z)) :=
  d ← entry_of e; match VFS.m_INode d with None => mret None | Some i => m ← metadata i; mret (Some (INode.ID m, INode.Mode m)) end.
Fixpoint children_numbers (l : list (string * Z)) : M (list (string * option (Z * Z))) :=
  match l with [] => mret [] | (name, e) :: l => x ← inode_number e; r ← children_numbers l; mret ((name, x) :: r) end.
(** The directory as the listing sees it. *)
Definition directory_of (e : Z) : M Descriptors.Directory :=
  g ← lift (VFS.FollowMounts e);
  c ← lift (VFS.entry_FollowSymlinks (VFS.ResolvePath link_depth) (VFS.SYMLOOP_MAX - 1) g);
  current ← deref c;
  parent ← lift (VFS.GetEffectiveParent current);
  self ← inode_number current; self ← deref self;
  up ← inode_number (default current parent); up ← deref up;
  d ← entry_of current;
  children ← children_numbers (table_order (VFS.m_Children d));
  mret (Descriptors.mkDir self up children).
Definition GetDEnts64 (fdNum outBuffer count : Z) : M (Z + Z) :=
  valid ← ValidateRead outBuffer MAX_PATH_LENGTH;
  if (outBuffer =? 0) || negb valid then err EFAULT
  else
    with_fd fdNum (fun n =>
      h ← handle_of n;
      isDir ← IsDirectory_entry (h_Entry h);
      if negb isDir then err ENOTDIR
      else
        dir ← (if bool_decide (Descriptors.Entries (h_DirEntries h) = []) then directory_of (h_Entry h) else mret (Descriptors.mkDir (0, 0) (0, 0) []));
        match Descriptors.GetDirEntries (3 + length (Descriptors.dir_children dir)) dir
                (Descriptors.mkListing (h_DirEntries h) (h_Iterator h) (h_Offset h)) count with
        | None => diverges
        | Some (l, r, records) =>
            _ ← store outBuffer (records ≫= dirent_bytes);
            _ ← modify_handle n (with_listing l);
            mret r
        end).
End Calls.
Arguments Handle : clear implicits.
Arguments World : clear implicits.
End FileCalls.
