(* ===== verification/FileSyscallTheorems.v ===== *)
(** * System calls on files: theorems *)

From Stdlib Require Import ZArith Lia Bool Ascii String.
From stdpp Require Import base gmap list numbers strings.
From S2P Require Import Prelude Effects Prism Posix Disk AddressSpace Time Scheduler Process FileDescriptors FileDescriptorTheorems VFS VFSProofs VFSTheorems SynthFs SynthFsTheorems FileSyscalls.

Import FileCalls.

Section Calls.
Context {Paths : PathOps} {S I : Type} {FS : FsOps S I} {FO : FileOps S I} {PM : PrismMath}.
Context {Laws : @Descriptors.INodeLaws (S * I) inode_ops}.
Context (IsHigherHalf : Z -> bool).
Notation World := (World S I).
Notation Handle := (Handle I).
Implicit Types (w : World) (h : Handle).

(** ** Memory *)
Definition mapped (m : gmap Z Z) (a n : Z) : Prop := forall i, a <= i < a + n -> is_Some (m !! i).
Lemma mapM_mapped (m : gmap Z Z) l : (forall i, i ∈ l -> is_Some (m !! i)) -> exists bs, mapM (fun i => m !! i) l = Some bs /\ length bs = length l.
Proof.
  induction l as [|a l IH]; intros H; [now exists []|]. destruct (H a) as [x Hx]; [left|]. destruct IH as (bs & Hbs & Hl); [intros i Hi; apply H; now right|].
  exists (x :: bs). cbn. rewrite Hx. cbn. rewrite Hbs. cbn. split; [reflexivity|]. now rewrite Hl.
Qed.
Lemma load_mapped w a n : mapped (memory w) a n -> exists bs, load a n w = Ret w bs.
Proof.
  intros H. unfold load. rewrite get_ret. destruct (mapM_mapped (memory w) (seqZ a n)) as (bs & -> & _); [|now exists bs].
  intros i Hi. apply H. rewrite elem_of_seqZ in Hi. lia.
Qed.
Definition holds (m : gmap Z Z) (a : Z) (bs : list Z) : Prop := forall k b, bs !! k = Some b -> m !! (a + Z.of_nat k) = Some b.
Lemma mapM_holds bs : forall m a, holds m a bs -> mapM (fun i => m !! i) (seqZ a (Z.of_nat (length bs))) = Some bs.
Proof.
  induction bs as [|b bs IH]; intros m a H; [reflexivity|]. cbn [length]. rewrite Nat2Z.inj_succ, seqZ_cons by lia. cbn [mapM].
  pose proof (H 0%nat b eq_refl) as H0. rewrite Z.add_0_r in H0. rewrite H0. cbn [mbind option_bind]. rewrite Z.pred_succ, IH; [reflexivity|].
  intros k x Hk. rewrite <- (H (Datatypes.S k) x Hk). f_equal. lia.
Qed.
Lemma load_holds w a bs n : n = Z.of_nat (length bs) -> holds (memory w) a bs -> load a n w = Ret w bs.
Proof. intros -> H. unfold load. rewrite get_ret, mapM_holds by trivial. reflexivity. Qed.
Lemma store_ret w a bs : mapped (memory w) a (Z.of_nat (length bs)) -> store a bs w = Ret (set_memory (mem_write (memory w) a bs) w) tt.
Proof. intros H. unfold store. destruct (load_mapped w a _ H) as (old & E). now rewrite (bind_ret _ _ _ _ _ E). Qed.
Lemma store_faults w a bs i : a <= i < a + Z.of_nat (length bs) -> memory w !! i = None -> store a bs w = Panic.
Proof.
  intros Hi Hn. unfold store, load. apply bind_panic. rewrite get_ret.
  destruct (mapM _ _) as [l|] eqn:E; [|reflexivity]. exfalso. apply mapM_Some in E. 
  assert (Hin : i ∈ seqZ a (Z.of_nat (length bs))) by (apply elem_of_seqZ; lia). apply list_elem_of_lookup in Hin as [k Hk].
  destruct (Forall2_lookup_l _ _ _ _ _ E Hk) as (y & _ & Hy). congruence.
Qed.
Lemma written_holds (m : gmap Z Z) a bs : holds (mem_write m a bs) a bs.
Proof.
  intros k b Hk. rewrite mem_write_lookup. pose proof (lookup_lt_Some _ _ _ Hk). destruct (decide _); [|lia].
  rewrite <- Hk. f_equal. lia.
Qed.
Lemma written_mapped (m : gmap Z Z) a bs a' n : mapped m a' n -> mapped (mem_write m a bs) a' n.
Proof.
  intros H i Hi. rewrite mem_write_lookup. destruct (decide _) as [Hd|]; [|auto].
  apply lookup_lt_is_Some. lia.
Qed.

(** ** Descriptors *)
Definition put_fs (s : S) (v : VFS.State S I) : VFS.State S I :=
  VFS.mkState (VFS.entries v) (VFS.next_entry v) (VFS.s_RootDirectoryEntry v) (VFS.s_MountPoints v) (VFS.s_FilesystemDrivers v) s (VFS.errno v).
Definition put_file (d : Descriptors.FileDescriptor (S * I)) w : World :=
  match Descriptors.m_File d with Some (s, _) => set_vfs (put_fs s (vfs w)) w | None => w end.
Lemma put_file_keeps d w : table (put_file d w) = table w /\ handles (put_file d w) = handles w /\ space (put_file d w) = space w
  /\ memory (put_file d w) = memory w /\ m_CWD (put_file d w) = m_CWD w.
Proof. unfold put_file. destruct (Descriptors.m_File d) as [[s i]|]; auto. Qed.

Lemma handle_ret {B} n h (k : Handle -> Effects.M World B) w : handles w !! n = Some h -> (handle_of n ≫= k) w = k h w.
Proof. intros H. apply bind_ret. unfold handle_of. rewrite get_ret. now rewrite H. Qed.
Lemma put_descriptor_ret n h d w : handles w !! n = Some h ->
  put_descriptor n d w = Ret (set_handle n (with_offset (Descriptors.m_Offset d) h) (put_file d w)) tt.
Proof.
  intros H. unfold put_descriptor. rewrite (bind_ret _ _ w (put_file d w) tt).
  - unfold modify_handle. rewrite (handle_ret n h) by (destruct (put_file_keeps d w) as (_ & -> & _); exact H). reflexivity.
  - unfold put_file. now destruct (Descriptors.m_File d) as [[s i]|].
Qed.
Lemma fd_ret {A} fd n (k : Z -> Effects.M World (Z + A)) w : Descriptors.GetFd (table w) (i32 fd) = Some n -> with_fd fd k w = k n w.
Proof. intros H. unfold with_fd, GetFileHandle. rewrite gets_ret, H. reflexivity. Qed.
Lemma fd_bad {A} fd (k : Z -> Effects.M World (Z + A)) w : Descriptors.GetFd (table w) (i32 fd) = None -> with_fd fd k w = Ret w (inl EBADF).
Proof. intros H. unfold with_fd, GetFileHandle. rewrite gets_ret, H. reflexivity. Qed.

(** The offset the call passes is the one the descriptor would take. *)
Lemma Read_here (d : Descriptors.FileDescriptor (S * I)) count : Descriptors.Read d count (i64 (Descriptors.m_Offset d)) = Descriptors.Read d count (-1).
Proof. unfold Descriptors.Read. destruct (i64 (Descriptors.m_Offset d) <? 0); reflexivity. Qed.
Lemma Write_here (d : Descriptors.FileDescriptor (S * I)) bs : Descriptors.Write d bs (i64 (Descriptors.m_Offset d)) = Descriptors.Write d bs (-1).
Proof. unfold Descriptors.Write. destruct (i64 (Descriptors.m_Offset d) <? 0); reflexivity. Qed.

(** The world after a call on a descriptor. *)
Definition after n h d w (m : gmap Z Z) : World := set_handle n (with_offset (Descriptors.m_Offset d) h) (put_file d (set_memory m w)).
Lemma after_keeps n h d w m : table (after n h d w m) = table w /\ space (after n h d w m) = space w /\ memory (after n h d w m) = m
  /\ m_CWD (after n h d w m) = m_CWD w /\ handles (after n h d w m) = <[n := with_offset (Descriptors.m_Offset d) h]> (handles w).
Proof. unfold after. destruct (put_file_keeps d (set_memory m w)) as (A & B & C & D & E). cbn. now rewrite A, B, C, D, E. Qed.
Lemma after_filesystems n h d w m s i : Descriptors.m_File d = Some (s, i) -> VFS.filesystems (vfs (after n h d w m)) = s.
Proof. intros H. unfold after, put_file. now rewrite H. Qed.
(** The handle after the call stands for the descriptor after it. *)
Lemma after_descriptor n h d w m s i : h_File h = Some i -> Descriptors.m_File d = Some (s, i) ->
  Descriptors.m_AccessMode d = h_AccessMode h -> Descriptors.m_Flags d = h_Flags h ->
  descriptor (with_offset (Descriptors.m_Offset d) h) (VFS.filesystems (vfs (after n h d w m))) = d.
Proof.
  intros Hi Hf Ha Hl. rewrite (after_filesystems n h d w m s i Hf). unfold descriptor. cbn [h_File h_AccessMode h_Offset h_Flags with_offset].
  rewrite Hi. cbn. destruct d; cbn in *. congruence.
Qed.

Section File.
Context (w : World) (n : Z) (h : Handle).
Notation s := (VFS.filesystems (vfs w)).
Notation d := (descriptor h s).
Hypothesis Hh : handles w !! n = Some h.

Lemma fd_Read_ret out count off d' r bs : Descriptors.Read d count off = (d', r, bs) -> mapped (memory w) out (Z.of_nat (length bs)) ->
  fd_Read n out count off w = Ret (after n h d' w (mem_write (memory w) out bs)) r.
Proof.
  intros HR Hm. unfold fd_Read. rewrite (handle_ret n h) by trivial. unfold fs_gets. rewrite gets_ret. cbn [id]. rewrite HR.
  rewrite (bind_ret _ _ _ _ _ (store_ret w out bs Hm)).
  rewrite (bind_ret _ _ _ _ _ (put_descriptor_ret n h d' (set_memory (mem_write (memory w) out bs) w) Hh)). reflexivity.
Qed.
Lemma fd_Write_ret in_ count off i bs d' r : Descriptors.CanWrite d = true -> h_File h = Some i -> S_ISDIR (inode_Mode s i) = false ->
  holds (memory w) in_ bs -> count = Z.of_nat (length bs) -> Descriptors.Write d bs off = Some (d', r) ->
  fd_Write n in_ count off w = Ret (after n h d' w (memory w)) r.
Proof.
  intros Hw Hi Hd Hb Hc HW. unfold fd_Write. rewrite (handle_ret n h) by trivial. unfold fs_gets. rewrite gets_ret. cbn [id].
  rewrite Hw, Hi, Hd. cbn [andb negb]. rewrite (bind_ret _ _ _ _ _ (load_holds w in_ bs count Hc Hb)), HW.
  rewrite (bind_ret _ _ _ _ _ (put_descriptor_ret n h d' w Hh)). unfold after. now replace (set_memory (memory w) w) with w by now destruct w.
Qed.
End File.
Lemma LSeek_ret w fd n h off whence d' r : Descriptors.GetFd (table w) (i32 fd) = Some n -> handles w !! n = Some h ->
  Descriptors.Seek (descriptor h (VFS.filesystems (vfs w))) (i32 whence) off = Some (d', r) ->
  LSeek fd off whence w = Ret (after n h d' w (memory w)) r.
Proof.
  intros Hfd Hh HS. unfold LSeek. rewrite (fd_ret fd n) by trivial. rewrite (handle_ret n h) by trivial. unfold fs_gets. rewrite gets_ret. cbn [id]. rewrite HS.
  rewrite (bind_ret _ _ _ _ _ (put_descriptor_ret n h d' w Hh)). unfold after. now replace (set_memory (memory w) w) with w by now destruct w.
Qed.

(** What a descriptor keeps: its rights, and the inode it is open on. *)
Definition same_file (d d' : Descriptors.FileDescriptor (S * I)) : Prop :=
  Descriptors.m_AccessMode d' = Descriptors.m_AccessMode d /\ Descriptors.m_Flags d' = Descriptors.m_Flags d
  /\ forall s i, Descriptors.m_File d = Some (s, i) -> exists s', Descriptors.m_File d' = Some (s', i).
Lemma same_file_refl d : same_file d d.
Proof. split_and!; eauto. Qed.
Lemma Write_same d bs off d' r : Descriptors.Write d bs off = Some (d', r) -> same_file d d'.
Proof.
  unfold Descriptors.Write. destruct (negb _); [intros [= <- <-]; apply same_file_refl|].
  destruct (Descriptors.m_File d) as [[s i]|] eqn:Hf; [|intros [= <- <-]; apply same_file_refl].
  unfold Descriptors.File_Write. destruct (Descriptors.inode_IsDirectory (s, i)); cbn [mbind option_bind].
  - intros [= <- <-]. split_and!; trivial. intros s0 i0 E. rewrite Hf in E. injection E as <- <-. cbn. eauto.
  - cbn. destruct (file_Write s i _ bs) as [[s' k]|]; [|discriminate]. cbn. intros [= <- <-]. split_and!; trivial.
    intros s0 i0 E. rewrite Hf in E. injection E as <- <-. cbn. eauto.
Qed.
Lemma Seek_same d whence off d' r : Descriptors.Seek d whence off = Some (d', r) -> same_file d d' /\ Descriptors.m_File d' = Descriptors.m_File d.
Proof.
  unfold Descriptors.Seek. destruct (Descriptors.m_File d) as [p|] eqn:Hf; [|discriminate]. cbn [mbind option_bind].
  repeat case_match; intros [= <- _]; (split; [split_and!; cbn; rewrite ?Hf; eauto|cbn; trivial]).
Qed.
Lemma Read_same d count off d' r bs : Descriptors.Read d count off = (d', r, bs) -> same_file d d' /\ Descriptors.m_File d' = Descriptors.m_File d.
Proof.
  unfold Descriptors.Read. destruct (negb _); [intros [= <- _ _]; split; trivial; apply same_file_refl|].
  destruct (Descriptors.m_File d) as [p|] eqn:Hf; [|intros [= <- _ _]; split; trivial; apply same_file_refl].
  repeat case_match; intros [= <- _ _]; (split; [split_and!; cbn; rewrite ?Hf; eauto|cbn; trivial]).
Qed.

(** A user buffer the checks of the calls accept. *)
Record user_buffer w (a len : Z) : Prop := {
  buffer_read : Processes.validate_loop (space w) a Processes.PROT_READ len = true;
  buffer_write : Processes.validate_loop (space w) a Processes.PROT_WRITE len = true;
  buffer_user : IsHigherHalf a = false
}.

(** C17: A process that writes bytes to a file, seeks back to where it started and reads gets the
    bytes in its buffer, through any number of the same descriptor; no other byte of its memory
    changes. *)
Theorem written_bytes_read_back w fd fd' n h i in_ out bs :
  Descriptors.GetFd (table w) (i32 fd) = Some n -> Descriptors.GetFd (table w) (i32 fd') = Some n -> handles w !! n = Some h -> h_File h = Some i ->
  on_file (descriptor h (VFS.filesystems (vfs w))) (VFS.filesystems (vfs w), i) -> h_AccessMode h = 3 -> h_Offset h + Z.of_nat (length bs) < 2 ^ 61 ->
  user_buffer w in_ (Z.of_nat (length bs)) -> user_buffer w out (Z.of_nat (length bs)) ->
  holds (memory w) in_ bs -> mapped (memory w) out (Z.of_nat (length bs)) ->
  exists w1 w2 w3, Write IsHigherHalf fd in_ (Z.of_nat (length bs)) w = Ret w1 (inr (Z.of_nat (length bs)))
  /\ LSeek fd (h_Offset h) Descriptors.SEEK_SET w1 = Ret w2 (inr (h_Offset h))
  /\ Read IsHigherHalf fd' out (Z.of_nat (length bs)) w2 = Ret w3 (inr (Z.of_nat (length bs)))
  /\ memory w3 = mem_write (memory w) out bs /\ table w3 = table w.
Proof.
  intros Hfd Hfd' Hh Hi Hon Hacc Hlen [Hr1 _ Hu1] [_ Hw2 Hu2] Hb Hm. set (d := descriptor h _) in *.
  assert (Hcr : Descriptors.CanRead d = true) by (unfold Descriptors.CanRead, d; cbn; now rewrite Hacc).
  assert (Hcw : Descriptors.CanWrite d = true) by (unfold Descriptors.CanWrite, d; cbn; now rewrite Hacc).
  destruct (write_seek_read d _ bs (h_Offset h) Hon Hcr Hcw eq_refl Hlen) as (d1 & d2 & d3 & HW & HS & HR).
  destruct (Write_same _ _ _ _ _ HW) as (A1 & F1 & I1). destruct (I1 _ _ (on_File _ _ Hon)) as (s1 & E1).
  destruct (Seek_same _ _ _ _ _ HS) as ((A2 & F2 & _) & E2). rewrite E1 in E2.
  set (len := Z.of_nat (length bs)) in *. set (h1 := with_offset (Descriptors.m_Offset d1) h). set (w1 := after n h d1 w (memory w)).
  set (h2 := with_offset (Descriptors.m_Offset d2) h1). set (w2 := after n h1 d2 w1 (memory w1)).
  destruct (after_keeps n h d1 w (memory w)) as (T1 & S1 & M1 & _ & H1). destruct (after_keeps n h1 d2 w1 (memory w1)) as (T2 & S2 & M2 & _ & H2).
  assert (D1 : descriptor h1 (VFS.filesystems (vfs w1)) = d1) by (apply (after_descriptor n h d1 w _ s1 i); trivial).
  assert (D2 : descriptor h2 (VFS.filesystems (vfs w2)) = d2).
  { apply (after_descriptor n h1 d2 w1 _ s1 i); trivial; [rewrite A2, A1|rewrite F2, F1]; reflexivity. }
  assert (Hh1 : handles w1 !! n = Some h1) by (unfold w1; rewrite H1; apply lookup_insert_eq).
  assert (Hh2 : handles w2 !! n = Some h2) by (unfold w2; rewrite H2; apply lookup_insert_eq).
  exists w1, w2, (after n h2 d3 w2 (mem_write (memory w2) out bs)). split_and!.
  - unfold Write, ValidateRead, ValidateAddress. rewrite gets_ret, Hr1. cbn [negb]. rewrite (fd_ret fd n) by trivial.
    unfold fd_Write_here, ForUserBuffer. rewrite Hu1, andb_false_r. cbn [negb]. rewrite (handle_ret n h) by trivial.
    apply (fd_Write_ret w n h Hh in_ len _ i bs d1); trivial; [exact (Descriptors.inode_file_spec _ (on_file_file _ _ Hon))|].
    change (h_Offset h) with (Descriptors.m_Offset d). now rewrite Write_here.
  - apply (LSeek_ret w1 fd n h1); [unfold w1; now rewrite T1|exact Hh1|]. rewrite D1. exact HS.
  - unfold Read, ValidateWrite, ValidateAddress. rewrite gets_ret. unfold w2 at 1. rewrite S2. unfold w1 at 1. rewrite S1, Hw2. cbn [negb].
    rewrite (fd_ret fd' n) by (unfold w2; rewrite T2; unfold w1; now rewrite T1). rewrite (handle_ret n h2) by exact Hh2.
    change (h_AccessMode h2) with (h_AccessMode h). rewrite Hacc. change (negb (truthy (3 .& Descriptors.eRead))) with false. cbn iota.
    unfold fd_Read_here, ForUserBuffer. rewrite Hu2, andb_false_r. cbn [negb]. rewrite (handle_ret n h2) by exact Hh2.
    apply (fd_Read_ret w2 n h2 Hh2 out len _ d3); [|unfold w2; rewrite M2; unfold w1; rewrite M1; exact Hm].
    change (h_Offset h2) with (Descriptors.m_Offset d2). rewrite D2, Read_here. exact HR.
  - destruct (after_keeps n h2 d3 w2 (mem_write (memory w2) out bs)) as (_ & _ & -> & _). unfold w2. rewrite M2. unfold w1. now rewrite M1.
  - destruct (after_keeps n h2 d3 w2 (mem_write (memory w2) out bs)) as (-> & _). unfold w2. rewrite T2. unfold w1. now rewrite T1.
Qed.

(** ** Positions and flags *)
(** Reading at a given position moves the position of the descriptor: the next read continues
    behind the bytes read, wherever the descriptor was. *)
Theorem PRead_moves_offset w fd n h i out count off : Descriptors.GetFd (table w) (i32 fd) = Some n -> handles w !! n = Some h -> h_File h = Some i ->
  Descriptors.inode_file (VFS.filesystems (vfs w), i) -> Descriptors.CanRead (descriptor h (VFS.filesystems (vfs w))) = true ->
  user_buffer w out count -> 0 <= off <= Z.of_nat (length (Descriptors.inode_contents (VFS.filesystems (vfs w), i))) -> 0 <= count ->
  mapped (memory w) out count ->
  exists w' k, PRead IsHigherHalf fd out count off w = Ret w' (inr k) /\ k = Z.min count (Z.of_nat (length (Descriptors.inode_contents (VFS.filesystems (vfs w), i))) - off)
  /\ handles w' !! n = Some (with_offset (off + k) h).
Proof.
  intros Hfd Hh Hi Hf Hr [Hv _ Hu] Ho Hc Hm. set (d := descriptor h _) in *. set (p := (VFS.filesystems (vfs w), i)) in *.
  set (k := Z.min count _). set (bs := slice (Z.to_nat off) (Z.to_nat k) (Descriptors.inode_contents p)).
  pose proof (Descriptors.inode_length_spec p Hf) as Hl.
  assert (HR : Descriptors.Read d count off = (Descriptors.with_offset (off + k) d, inr k, bs)).
  { unfold Descriptors.Read. rewrite Hr. cbn [negb]. unfold d at 1. cbn [Descriptors.m_File descriptor]. rewrite Hi. cbn [fmap option_fmap option_map]. fold p.
    unfold Descriptors.File_IsDirectory, Descriptors.File_Read. rewrite (Descriptors.inode_file_spec p Hf). destruct (Z.ltb_spec off 0); [lia|].
    rewrite (Descriptors.inode_Read_spec p off count Hf Ho Hc). fold k bs. unfold u64. rewrite wrap_small by (unfold in_u; lia). reflexivity. }
  assert (Hbs : Z.of_nat (length bs) <= count) by (unfold bs, slice; rewrite length_take, length_drop; lia).
  eexists _, k. split_and!; [|reflexivity|].
  - unfold PRead. rewrite (fd_ret fd n) by trivial. unfold ValidateAddress. rewrite gets_ret, Hv. unfold ForUserBuffer. rewrite Hu, andb_false_r. cbn [negb].
    apply (fd_Read_ret w n h Hh out count off _ _ bs HR). intros x Hx. apply Hm. lia.
  - match goal with |- handles (after ?n ?h ?d ?w ?m) !! _ = _ => destruct (after_keeps n h d w m) as (_ & _ & _ & _ & ->) end. apply lookup_insert_eq.
Qed.

(** Setting the status flags of a descriptor sets its descriptor flags: close-on-exec is lost. *)
Theorem SETFL_clears_cloexec w fd n h arg : Descriptors.GetFd (table w) (i32 fd) = Some n -> handles w !! n = Some h ->
  0 <= arg < 2 ^ 16 -> arg .& 3 = 0 ->
  exists w', FCntl fd F_SETFL arg w = Ret w' (inr 0) /\ FCntl fd F_GETFD 0 w' = Ret w' (inr arg) /\ arg .& VFS.O_CLOEXEC = 0.
Proof.
  intros Hfd Hh Ha Hm. assert (Hcl : forall m, Z.land m (2 ^ 16 - 1) = 0 -> 0 <= m -> arg .& m = 0).
  { intros m Hm0 Hmp. rewrite <- (Z.mod_small arg (2 ^ 16)) by lia. rewrite <- Z.land_ones by lia. rewrite <- Z.land_assoc, (Z.land_comm (Z.ones 16)).
    change (Z.ones 16) with (2 ^ 16 - 1). rewrite Hm0. apply Z.land_0_r. }
  assert (Hacc : arg .& VFS.O_ACCMODE = 0).
  { unfold VFS.O_ACCMODE. rewrite Z.land_lor_distr_r, Hm, Z.lor_0_r. apply Hcl; [reflexivity|by_computation]. }
  assert (Hi32 : i32 arg = arg) by (unfold i32, swrap; rewrite Z.mod_small by lia; destruct (Z.ltb_spec arg (2 ^ (32 - 1))); lia).
  exists (set_handle n (with_flags arg h) w). split_and!.
  - unfold FCntl. rewrite (fd_ret fd n) by trivial. rewrite (handle_ret n h) by trivial. cbn [F_SETFL F_DUPFD F_DUPFD_CLOEXEC F_GETFD F_SETFD F_GETFL Z.eqb Pos.eqb orb].
    rewrite Hacc. change (truthy 0) with false. cbn iota. unfold modify_handle. unfold SetDescriptionFlags. rewrite Hi32.
    unfold mbind, M_bind. change (handle_of n w) with (match (deref (handles w !! n) : Effects.M World Handle) w with r => r end). now rewrite Hh.
  - unfold FCntl. rewrite (fd_ret fd n) by trivial. rewrite (handle_ret n (with_flags arg h)) by apply lookup_insert_eq. reflexivity.
  - apply Hcl; [reflexivity|by_computation].
Qed.

(** ** Addresses *)
Lemma validate_outside rs a mode size : Forall (fun r => range_Contains (m_VirtualRange r) a = false) rs -> Processes.validate_loop rs a mode size = false.
Proof. induction 1 as [|r rs Hr _ IH]; [reflexivity|]. cbn [Processes.validate_loop]. rewrite Hr. exact IH. Qed.

(** [fstat] refuses every descriptor: the empty path it passes on is a constant of the kernel,
    which is no address of the process. *)
Theorem FStat_faults (ValidateLength : string -> bool) (link_depth : nat) empty_literal w fd out :
  empty_literal <> 0 -> out <> 0 -> Forall (fun r => range_Contains (m_VirtualRange r) empty_literal = false) (space w) ->
  FStat ValidateLength empty_literal link_depth fd out w = Ret w (inl EFAULT).
Proof.
  intros He Ho Hs. unfold FStat, FStatAt. change (truthy (Z.ldiff AT_EMPTY_PATH _)) with false. cbn [orb]. destruct (Z.eqb_spec out 0); [easy|].
  unfold ValidateRead, ValidateAddress. rewrite gets_ret, validate_outside by trivial. unfold truthy. destruct (Z.eqb_spec empty_literal 0); [easy|]. reflexivity.
Qed.

(** The check of a buffer is the check of its first byte: a read into a buffer that starts in a
    region and runs past the memory behind it faults in the kernel. *)
Theorem buffer_end_unchecked w fd n h i out count j base size access :
  Descriptors.GetFd (table w) (i32 fd) = Some n -> handles w !! n = Some h -> h_File h = Some i ->
  on_file (descriptor h (VFS.filesystems (vfs w))) (VFS.filesystems (vfs w), i) -> h_AccessMode h = 1 -> IsHigherHalf out = false ->
  space w = [mkRegion (mkRange base size) 0 access 0] -> base <= out < base + size -> base + size < 2 ^ 64 ->
  count <= Z.of_nat (length (Descriptors.inode_contents (VFS.filesystems (vfs w), i))) - h_Offset h ->
  out <= j < out + count -> memory w !! j = None ->
  Read IsHigherHalf fd out count w = Panic.
Proof.
  intros Hfd Hh Hi Hon Hacc Hu Hs Hout Hend Hcount Hj Hn. set (d := descriptor h _) in *.
  assert (Hcr : Descriptors.CanRead d = true) by (unfold Descriptors.CanRead, d; cbn; now rewrite Hacc).
  destruct (Read_spec d _ count Hon Hcr ltac:(lia)) as [HR _]. rewrite Z.min_l in HR by exact Hcount.
  unfold Read, ValidateWrite, ValidateAddress. rewrite gets_ret, Hs. cbn [Processes.validate_loop m_VirtualRange]. unfold range_Contains, range_End. cbn [range_Base range_Size].
  pose proof (on_offset _ _ Hon) as Ho.
  assert (Hin : (base <=? out) && (out <? u64 (base + size)) = true).
  { apply andb_true_intro. split; [apply Z.leb_le; lia|]. apply Z.ltb_lt.
    destruct (Z_lt_le_dec (base + size) 0) as [Hneg|Hpos]; [pose proof (Z.mod_pos_bound (base + size) (2 ^ 64) ltac:(lia)); unfold u64, wrap; lia|].
    unfold u64. rewrite wrap_small by (unfold in_u; lia). lia. }
  rewrite Hin. cbn [negb]. rewrite (fd_ret fd n) by trivial. rewrite (handle_ret n h), Hacc by trivial. change (negb (truthy (1 .& Descriptors.eRead))) with false. cbn iota.
  unfold fd_Read_here, ForUserBuffer. rewrite Hu, andb_false_r. cbn [negb]. rewrite (handle_ret n h) by trivial. unfold fd_Read. rewrite (handle_ret n h) by trivial.
  unfold fs_gets. rewrite gets_ret. cbn [id]. fold d. change (h_Offset h) with (Descriptors.m_Offset d). rewrite Read_here, HR.
  apply bind_panic. apply (store_faults w out _ j); trivial. unfold slice. rewrite length_take, length_drop. change (Descriptors.m_Offset d) with (h_Offset h) in *. lia.
Qed.

(** ** The working directory *)
(** A component of a path. *)
Definition component (name : string) : Prop := name <> ""%string /\ name <> "."%string /\ name <> ".."%string /\ VFS.trailing_slash name = false.
Definition path_string (names : list string) : string := foldr (fun n s => ("/" +:+ n +:+ s)%string) ""%string names.
(** The entry reached from the root by a list of names, without a mount on the way, with the inodes. *)
Inductive named_path (v : VFS.State S I) (root : Z) (ri : I) : Z -> list string -> list (string * I) -> Prop :=
  | named_root : named_path v root ri root [] []
  | named_child e d j p names stack : e <> root -> VFS.entries v !! e = Some d -> VFS.m_INode d = Some j -> VFS.m_Parent d = Some p ->
      named_path v root ri p names stack -> inode_Lookup (VFS.filesystems v) (here ri stack) (VFS.m_Name d) = inr j ->
      S_ISDIR (inode_Mode (VFS.filesystems v) j) = true -> component (VFS.m_Name d) ->
      named_path v root ri e (names ++ [VFS.m_Name d]) ((VFS.m_Name d, j) :: stack).

Lemma named_unique v root ri e names stack : named_path v root ri e names stack -> forall names' stack', named_path v root ri e names' stack' -> names = names'.
Proof.
  induction 1 as [|e d j p names stack Hne He _ Hp _ IH _ _ _]; intros names' stack' H; inversion H; subst; try congruence.
  match goal with H1 : VFS.entries v !! e = Some ?d' |- _ => assert (d' = d) as -> by congruence end.
  match goal with H1 : VFS.m_Parent d = Some ?p' |- _ => assert (p' = p) as -> by congruence end. f_equal. eauto.
Qed.
(** No entry comes twice on the way up. *)
Lemma named_bound v root ri e names stack : named_path v root ri e names stack -> is_Some (VFS.entries v !! root) ->
  exists l : list Z, NoDup l /\ length l = Datatypes.S (length names) /\ (forall x, x ∈ l -> is_Some (VFS.entries v !! x)
  /\ exists ns st, named_path v root ri x ns st /\ (length ns <= length names)%nat).
Proof.
  intros H Hroot. induction H as [|e d j p names stack Hne He Hj Hp Hn IH Hl Hd Hc].
  - exists [root]. split_and!; [apply NoDup_singleton|reflexivity|]. intros x ->%list_elem_of_singleton. split; [exact Hroot|].
    exists [], []. split; [constructor|reflexivity].
  - destruct IH as (l & Hnd & Hlen & Hl'). assert (Hme : named_path v root ri e (names ++ [VFS.m_Name d]) ((VFS.m_Name d, j) :: stack)) by (now apply (named_child v root ri e d j p)).
    exists (e :: l). split_and!.
    + apply list.NoDup_cons. split; [|exact Hnd]. intros Hin. destruct (Hl' e Hin) as (_ & ns & st & Hns & Hle).
      pose proof (named_unique _ _ _ _ _ _ Hme _ _ Hns) as <-. rewrite length_app in Hle. cbn in Hle. lia.
    + cbn. rewrite length_app, Hlen. cbn. lia.
    + intros x [->|Hx]%elem_of_cons; [split; [eauto|]; exists (names ++ [VFS.m_Name d]), ((VFS.m_Name d, j) :: stack); auto|].
      destruct (Hl' x Hx) as (Hs & ns & st & Hns & Hle). split; [exact Hs|]. exists ns, st. split; [exact Hns|]. rewrite length_app. lia.
Qed.
Lemma named_fuel v root ri e names stack : named_path v root ri e names stack -> is_Some (VFS.entries v !! root) -> (length names <= size (VFS.entries v))%nat.
Proof.
  intros H Hroot. destruct (named_bound _ _ _ _ _ _ H Hroot) as (l & Hnd & Hlen & Hl).
  assert (Hsub : list_to_set l ⊆@{gset Z} dom (VFS.entries v)) by (intros x Hx%elem_of_list_to_set; apply elem_of_dom; now apply Hl).
  apply subseteq_size in Hsub. rewrite size_list_to_set, size_dom in Hsub by exact Hnd. lia.
Qed.

Lemma append_assoc (a b c : string) : ((a +:+ b) +:+ c = a +:+ b +:+ c)%string.
Proof. induction a as [|x a IH]; [reflexivity|]. exact (f_equal (String x) IH). Qed.
Lemma append_nil_r (a : string) : (a +:+ "" = a)%string.
Proof. induction a as [|x a IH]; [reflexivity|]. exact (f_equal (String x) IH). Qed.
Lemma path_string_app a b : path_string (a ++ b) = (path_string a +:+ path_string b)%string.
Proof. induction a as [|n a IH]; [reflexivity|]. change (path_string ((n :: a) ++ b)) with ("/" +:+ n +:+ path_string (a ++ b))%string. rewrite IH. change (path_string (n :: a)) with ("/" +:+ n +:+ path_string a)%string. now rewrite !append_assoc. Qed.
(** The loop of [Path] gathers the names. *)
Lemma path_loop_named v root ri e names stack : VFSProofs.cache v root ri -> named_path v root ri e names stack -> forall fuel built, (length names <= fuel)%nat ->
  VFS.path_loop fuel root (Some e) built v = Ret v (path_string names +:+ built)%string.
Proof.
  intros Hc. induction 1 as [|e d j p names stack Hne He Hj Hp Hn IH Hl Hd Hcomp]; intros fuel built Hfuel.
  - destruct fuel; cbn [VFS.path_loop]; rewrite Z.eqb_refl; reflexivity.
  - rewrite length_app in Hfuel. cbn in Hfuel. destruct fuel as [|fuel]; [lia|]. cbn [VFS.path_loop]. rewrite (proj2 (Z.eqb_neq e root) Hne).
    rewrite (entry_ret e d) by trivial. rewrite (bind_ret _ _ _ _ _ (GetEffectiveParent_child v root ri e d p Hc He Hne Hp)).
    rewrite bool_decide_eq_false_2.
    + rewrite IH by lia. rewrite path_string_app. cbn. now rewrite !append_assoc.
    + intros E. destruct Hcomp as (_ & _ & _ & Hs). rewrite E in Hs. discriminate.
Qed.
(** Walking the names leads to the inodes. *)
Lemma walk_named v root ri e names stack : named_path v root ri e names stack -> forall rest,
  walk (VFS.filesystems v) (fun _ => None) ri (names ++ rest) [] = walk (VFS.filesystems v) (fun _ => None) ri rest stack.
Proof.
  induction 1 as [|e d j p names stack Hne He Hj Hp Hn IH Hl Hd (H0 & H1 & H2 & _)]; intros rest; [reflexivity|].
  rewrite <- List.app_assoc, IH. cbn [app walk]. rewrite !bool_decide_eq_false_2 by trivial. unfold walk_step. rewrite Hl. cbn [from_option id]. rewrite Hd, orb_true_r. reflexivity.
Qed.

(** [getcwd] stores the absolute path of the working directory: walking the path from the
    root in the file systems leads to the inode of the directory. *)
Theorem GetCwd_names_directory w root ri e names stack buffer size :
  VFSProofs.cache (vfs w) root ri -> m_CWD w = Some e -> named_path (vfs w) root ri e names stack -> names <> [] ->
  Split (path_string names) = names -> buffer <> 0 -> Z.of_nat (String.length (path_string names)) <= size ->
  Processes.validate_loop (space w) buffer Processes.PROT_WRITE size = true -> mapped (memory w) buffer size ->
  exists w', GetCwd buffer size w = Ret w' (inr 0) /\ memory w' = mem_write (memory w) buffer (string_bytes (path_string names))
  /\ vfs w' = vfs w /\ m_CWD w' = Some e
  /\ walk (VFS.filesystems (vfs w')) (fun _ => None) ri (Split (path_string names)) [] = Some stack.
Proof.
  intros Hc Hcwd Hn Hne Hsp Hb Hsz Hv Hm. destruct (cache_root _ _ _ Hc) as (dr & Hdr & _).
  assert (Hpos : (0 < String.length (path_string names))%nat) by (destruct names; [easy|apply Nat.lt_0_succ]).
  assert (Hlen : length (string_bytes (path_string names)) = String.length (path_string names)).
  { unfold string_bytes. rewrite length_fmap. clear. induction (path_string names) as [|c s IH]; [reflexivity|]. cbn. now rewrite IH. }
  exists (set_memory (mem_write (memory w) buffer (string_bytes (path_string names))) w). split_and!; try reflexivity; [|exact Hcwd|].
  - unfold GetCwd. rewrite (proj2 (Z.eqb_neq buffer 0) Hb). cbn [orb]. destruct (Z.eqb_spec size 0); [lia|].
    unfold ValidateWrite, ValidateAddress. rewrite gets_ret, Hv. cbn [negb]. rewrite get_ret, Hcwd, deref_ret.
    rewrite (bind_ret _ _ w w (path_string names)).
    + destruct (Z.ltb_spec size (Z.of_nat (String.length (path_string names)))); [lia|].
      rewrite (bind_ret _ _ _ _ _ (store_ret w buffer _ ltac:(rewrite Hlen; intros x Hx; apply Hm; lia))). reflexivity.
    + unfold lift, VFS.Path. rewrite (bind_ret _ _ _ _ _ (cache_host _ _ _ Hc)).
      rewrite (bind_ret _ _ _ _ _ (path_loop_named (vfs w) root ri e names stack Hc Hn _ "" (named_fuel _ _ _ _ _ _ Hn (ex_intro _ dr Hdr)))).
      rewrite bool_decide_eq_false_2 by (rewrite append_nil_r; intros E; now rewrite E in Hpos). cbn. rewrite append_nil_r. now destruct w.
  - cbn [vfs set_memory]. rewrite Hsp. rewrite <- (app_nil_r names) at 1. now rewrite (walk_named _ _ _ _ _ _ Hn []).
Qed.
End Calls.

(** ** Files of the in-memory file system *)
Section TmpfsFiles.
Context {B : Type} {Buf : Buffer B} (DivRoundUp : Z -> Z -> Z).
Notation Fs := (SynthFs.Fs B).

Definition tmpfs_metadata (i : Z) (n : SynthFs.Node B) : INode.Metadata :=
  INode.mkMetadata i (SynthFs.m_Mode n) (SynthFs.m_Size n) (SynthFs.m_LinkCount n) 512 (SynthFs.m_BlockCount n) 0 (SynthFs.m_DeviceID n) (SynthFs.m_UID n) (SynthFs.m_GID n)
    INode.no_time INode.no_time INode.no_time.
Definition on_node {A} (s : Fs) (i : Z) (f : SynthFs.Node B -> SynthFs.Node B * A) (none : A) : Fs * A :=
  match SynthFs.nodes s !! i with Some n => let '(n, a) := f n in (SynthFs.update i (fun _ => n) s, a) | None => (s, none) end.
#[export] Instance tmpfs_files : FileOps Fs Z := {|
  file_Metadata s i := match SynthFs.nodes s !! i with Some n => tmpfs_metadata i n | None => INode.mkMetadata i 0 0 0 0 0 0 0 0 0 INode.no_time INode.no_time INode.no_time end;
  file_set_Metadata s i m := SynthFs.update i (fun n => SynthFs.mkNode (INode.Mode m) (SynthFs.m_Size n) (SynthFs.m_LinkCount n) (SynthFs.m_BlockCount n) (INode.UID m) (INode.GID m)
    (SynthFs.m_DeviceID n) (SynthFs.m_Buffer n) (SynthFs.m_Children n) (SynthFs.m_Target n)) s;
  file_FlushMetadata s i := (s, inr tt);
  file_Read s i off count := match SynthFs.nodes s !! i with Some n => let '(bs, k) := SynthFs.Read n off count in (k, bs) | None => (0, []) end;
  file_Write s i off bs :=
    match SynthFs.nodes s !! i with
    | Some n => match SynthFs.Write DivRoundUp 63 n bs off with Some (n, k) => Some (SynthFs.update i (fun _ => n) s, k) | None => None end
    | None => None
    end;
  file_Truncate s i size := on_node s i (fun n => (SynthFs.Truncate DivRoundUp n size, inr 0)) (inl EFAULT);
  file_IoCtl s mem i request arg := (s, mem, inl ENODEV);
  file_Rename s i newParent newName := (SynthFs.Rename s i newParent newName, inr tt);
  file_RmDir s dir name i := match SynthFs.RmDir s dir name i with (s, None) => (s, inr true) | (s, Some e) => (s, inl e) end;
  file_Filesystem s i := Some 0;
  filesystem_Sync s fs := (s, inl VFS.ENOSYS);
  filesystem_Stats s fs := inl VFS.ENOSYS
|}.

#[export] Program Instance tmpfs_file_laws : @Descriptors.INodeLaws (Fs * Z) inode_ops := {|
  Descriptors.inode_file p := exists n, SynthFs.nodes p.1 !! p.2 = Some n /\ @Descriptors.inode_file _ _ (synth_laws DivRoundUp) n;
  Descriptors.inode_contents p := match SynthFs.nodes p.1 !! p.2 with Some n => synth_contents n | None => [] end
|}.
Next Obligation. intros [s i] (n & Hn & Hf). cbn in *. unfold tmpfs_mode. rewrite Hn. exact (proj1 Hf). Qed.
Next Obligation. intros [s i] (n & Hn & Hf). cbn in *. rewrite Hn. exact (@Descriptors.inode_length_spec _ _ (synth_laws DivRoundUp) n Hf). Qed.
Next Obligation.
  intros [s i] off count (n & Hn & Hf). cbn [fst snd] in *. rewrite Hn. intros Ho Hc. cbn [Descriptors.inode_Read inode_ops file_Read tmpfs_files fst snd]. rewrite Hn.
  exact (@Descriptors.inode_Read_spec _ _ (synth_laws DivRoundUp) n off count Hf Ho Hc).
Qed.
Next Obligation.
  intros [s i] off bs (n & Hn & Hf) Ho Hb. cbn [fst snd] in *. destruct (@Descriptors.inode_Write_spec _ _ (synth_laws DivRoundUp) n off bs Hf Ho Hb) as (n' & Hw & Hf' & Hl & Hs).
  assert (Hu : SynthFs.nodes (SynthFs.update i (fun _ => n') s) !! i = Some n') by (unfold SynthFs.update; cbn; now rewrite lookup_alter_eq, Hn).
  exists (SynthFs.update i (fun _ => n') s, i). cbn [Descriptors.inode_Write inode_ops file_Write tmpfs_files fst snd]. rewrite Hn.
  change (Descriptors.inode_Write n off bs) with (SynthFs.Write DivRoundUp 63 n bs off) in Hw. rewrite Hw. split_and!; [reflexivity|exists n'; auto| |]; rewrite Hu; trivial.
Qed.
End TmpfsFiles.

(** ** Witnesses *)
#[local] Instance files_ref : FileOps (SynthFs.Fs (list Z)) Z := tmpfs_files ex_div.
Definition not_higher (a : Z) : bool := false.
(** A process with one region from 0x1000 on, of which 0x300 bytes are there: strings at 0x1000
    and 0x1040, bytes to write at 0x1100, buffers behind. *)
Definition user_bytes : gmap Z Z :=
  mem_write (mem_write (mem_write (mem_write ∅ 0x1000 (replicate 0x300 0)) 0x1000 (string_bytes "/motd")) 0x1040 (string_bytes "/etc")) 0x1100 (string_bytes "hello").
Definition root_creds : Scheduler.Credentials := Scheduler.mkCredentials 0 0 0 0 0 0 0 0 1 1.
Definition user_region : Region := mkRegion (mkRange 0x1000 0x10000) 0 3 0.
Definition start (v : VFS.State (SynthFs.Fs (list Z)) Z) (cwd : Z) : World (SynthFs.Fs (list Z)) Z :=
  mkWorld v (Descriptors.mkTable ∅ 3) ∅ 0 (Some cwd) root_creds 0 [user_region] user_bytes INode.no_time.
Definition open_motd := Open (fun _ => true) 1%nat 0x1000 (VFS.O_CREAT .| VFS.O_RDWR) 0x1a4 (start (boot tmp0) 1).
Definition opened : World (SynthFs.Fs (list Z)) Z := match open_motd with Ret w _ => w | _ => start (boot tmp0) 1 end.

(** The file does not exist before; descriptor 3 is open on it. *)
Example open_creates : match open_motd with Ret w r => r = inr 3 /\ h_File <$> handles w !! 0 = Some (Some 3) | _ => False end.
Proof. vm_compute. split; reflexivity. Qed.
Definition opened_handle : Handle Z := mkHandle 2 (Some 3) 3 0 0 2 (Descriptors.mkEntries [] false) 0.
Lemma opened_handles : handles opened !! 0 = Some opened_handle.
Proof. vm_compute. reflexivity. Qed.
Lemma opened_file : Descriptors.inode_file (VFS.filesystems (vfs opened), 3).
Proof. eexists. split; [vm_compute; reflexivity|]. split; [reflexivity|]. by_computation. Qed.
Lemma opened_on_file : on_file (descriptor opened_handle (VFS.filesystems (vfs opened))) (VFS.filesystems (vfs opened), 3).
Proof. split; [reflexivity|exact opened_file|]. vm_compute. split; discriminate. Qed.
Definition holdsb (m : gmap Z Z) (a : Z) (bs : list Z) : bool := bool_decide (mapM (fun i => m !! i) (seqZ a (Z.of_nat (length bs))) = Some bs).
Lemma holdsb_spec m a bs : holdsb m a bs = true -> holds m a bs.
Proof.
  intros H%bool_decide_eq_true k b Hk. apply mapM_Some in H. destruct (Forall2_lookup_r _ _ _ _ _ H Hk) as (x & Hx & E).
  apply lookup_seqZ in Hx as [-> _]. exact E.
Qed.
Definition mappedb (m : gmap Z Z) (a n : Z) : bool := forallb (fun i => bool_decide (is_Some (m !! i))) (seqZ a n).
Lemma mappedb_spec m a n : mappedb m a n = true -> mapped m a n.
Proof.
  intros H i Hi. unfold mappedb in H. rewrite List.forallb_forall in H. specialize (H i). apply bool_decide_eq_true in H; [exact H|].
  apply list_elem_of_In, elem_of_seqZ. lia.
Qed.
Lemma opened_space : space opened = [user_region].
Proof. vm_compute. reflexivity. Qed.
Lemma opened_buffer a : range_Contains (m_VirtualRange user_region) a = true -> user_buffer not_higher opened a 5.
Proof. intros H. split; [| |reflexivity]; rewrite opened_space; cbn [Processes.validate_loop]; now rewrite H. Qed.

Lemma written_bytes_read_back_witness : exists w1 w2 w3, Write not_higher 3 0x1100 5 opened = Ret w1 (inr 5) /\ LSeek 3 0 Descriptors.SEEK_SET w1 = Ret w2 (inr 0)
  /\ Read not_higher 3 0x1200 5 w2 = Ret w3 (inr 5) /\ memory w3 = mem_write (memory opened) 0x1200 (string_bytes "hello") /\ table w3 = table opened.
Proof.
  apply (written_bytes_read_back not_higher opened 3 3 0 opened_handle 3 0x1100 0x1200 (string_bytes "hello")).
  - vm_compute; reflexivity.
  - vm_compute; reflexivity.
  - exact opened_handles.
  - reflexivity.
  - exact opened_on_file.
  - reflexivity.
  - by_computation.
  - now apply opened_buffer.
  - now apply opened_buffer.
  - apply holdsb_spec. vm_compute. reflexivity.
  - apply mappedb_spec. vm_compute. reflexivity.
Defined.
Lemma PRead_moves_offset_witness : exists w' k, PRead not_higher 3 0x1200 5 7 opened = Ret w' (inr k) /\ k = 5 /\ handles w' !! 0 = Some (with_offset 12 opened_handle).
Proof.
  destruct (PRead_moves_offset not_higher opened 3 0 opened_handle 3 0x1200 5 7) as (w' & k & H1 & H2 & H3).
  - vm_compute; reflexivity.
  - exact opened_handles.
  - reflexivity.
  - exact opened_file.
  - reflexivity.
  - now apply opened_buffer.
  - vm_compute. split; discriminate.
  - lia.
  - apply mappedb_spec. vm_compute. reflexivity.
  - assert (k = 5) as -> by (rewrite H2; vm_compute; reflexivity). exists w', 5. auto.
Defined.
Lemma SETFL_clears_cloexec_witness : exists w', FCntl 3 F_SETFL O_NONBLOCK opened = Ret w' (inr 0) /\ FCntl 3 F_GETFD 0 w' = Ret w' (inr O_NONBLOCK) /\ O_NONBLOCK .& VFS.O_CLOEXEC = 0.
Proof. apply (SETFL_clears_cloexec opened 3 0 opened_handle O_NONBLOCK); [vm_compute; reflexivity|exact opened_handles|by_computation|reflexivity]. Defined.
Lemma FStat_faults_witness : FStat (fun _ => true) 0x7fff0000 1 3 0x1200 opened = Ret opened (inl EFAULT).
Proof. apply (FStat_faults (fun _ => true) 1 0x7fff0000 opened 3 0x1200); [discriminate|discriminate|]. rewrite opened_space. repeat constructor. Defined.
Definition read_only : World (SynthFs.Fs (list Z)) Z := set_handle 0 (mkHandle 2 (Some 3) 1 0 0 2 (Descriptors.mkEntries [] false) 0) opened.
Lemma set_handle_keeps (n : Z) (h : Handle Z) (w : World (SynthFs.Fs (list Z)) Z) : vfs (set_handle n h w) = vfs w /\ space (set_handle n h w) = space w
  /\ handles (set_handle n h w) !! n = Some h.
Proof. split_and!; [reflexivity|reflexivity|apply lookup_insert_eq]. Qed.
Lemma read_only_vfs : vfs read_only = vfs opened.
Proof. exact (proj1 (set_handle_keeps 0 _ opened)). Qed.
Lemma read_only_space : space read_only = [user_region].
Proof. rewrite <- opened_space. exact (proj1 (proj2 (set_handle_keeps 0 _ opened))). Qed.
Lemma read_only_on_file : on_file (descriptor (mkHandle 2 (Some 3) 1 0 0 2 (Descriptors.mkEntries [] false) 0) (VFS.filesystems (vfs read_only))) (VFS.filesystems (vfs read_only), 3).
Proof. rewrite read_only_vfs. split; [reflexivity|exact opened_file|]. vm_compute. split; discriminate. Qed.
Lemma read_only_length : 8 <= Z.of_nat (length (Descriptors.inode_contents (VFS.filesystems (vfs read_only), 3))) - 0.
Proof. rewrite read_only_vfs. vm_compute. discriminate. Qed.
Lemma read_only_memory : memory read_only !! 0x1300 = None.
Proof. vm_compute. reflexivity. Qed.
Lemma read_only_table : Descriptors.GetFd (table read_only) (i32 3) = Some 0.
Proof. vm_compute. reflexivity. Qed.
Lemma buffer_end_unchecked_witness : Read not_higher 3 0x12fc 8 read_only = Panic.
Proof.
  refine (buffer_end_unchecked not_higher read_only 3 0 (mkHandle 2 (Some 3) 1 0 0 2 (Descriptors.mkEntries [] false) 0) 3 0x12fc 8 0x1300 0x1000 0x10000 3
    read_only_table (proj2 (proj2 (set_handle_keeps 0 _ opened))) eq_refl read_only_on_file eq_refl eq_refl read_only_space _ _ read_only_length _ read_only_memory); lia.
Defined.

(** The directory /etc, visited. *)
Definition visited : VFS.State (SynthFs.Fs (list Z)) Z :=
  VFS.mkState {[0 := VFS.mkEntry "/" 0x22 None false 0 None (Some 1) ∅; 1 := VFS.mkEntry "/" VFS.eDirectory (Some 2) false 0 (Some 0) None {["etc"%string := 2]};
                2 := VFS.mkEntry "etc" VFS.eDirectory (Some 4) false 0 (Some 1) None ∅]} 3 (Some 0) [0] ["tmpfs"%string] tmp1 0.
Lemma visited_cache : VFSProofs.cache visited 1 2.
Proof.
  split.
  - intros e d. cbn [VFS.entries visited]. rewrite !lookup_insert_Some. intros [[<- <-]|[_ [[<- <-]|[_ [<- <-]%lookup_singleton_Some]]]].
    + split; [cbn; lia|discriminate].
    + split; [cbn; lia|]. intros i [= <-]. split; [vm_compute; reflexivity|]. intros n c H. cbn in H. apply lookup_singleton_Some in H as [<- <-].
      split; [discriminate|]. eexists _, 4. split; [reflexivity|]. split_and!; vm_compute; reflexivity.
    + split; [cbn; lia|]. intros i [= <-]. split; [vm_compute; reflexivity|]. intros n c H. cbn in H. now rewrite lookup_empty in H.
  - eexists. now split_and!.
  - vm_compute. reflexivity.
Qed.
Lemma GetCwd_names_directory_witness : exists w', GetCwd 0x1200 64 (start visited 2) = Ret w' (inr 0)
  /\ memory w' = mem_write user_bytes 0x1200 (string_bytes "/etc") /\ vfs w' = visited /\ m_CWD w' = Some 2
  /\ walk (VFS.filesystems (vfs w')) (fun _ => None) 2 (Split "/etc") [] = Some [("etc"%string, 4)].
Proof.
  apply (GetCwd_names_directory (start visited 2) 1 2 2 ["etc"%string] [("etc"%string, 4)] 0x1200 64).
  - exact visited_cache.
  - reflexivity.
  - refine (named_child visited 1 2 2 (VFS.mkEntry "etc" VFS.eDirectory (Some 4) false 0 (Some 1) None ∅) 4 1 [] [] _ eq_refl eq_refl eq_refl (named_root _ _ _) _ _ _).
    + lia.
    + vm_compute. reflexivity.
    + vm_compute. reflexivity.
    + unfold component. split_and!; (discriminate || reflexivity).
  - discriminate.
  - vm_compute. reflexivity.
  - discriminate.
  - by_computation.
  - vm_compute. reflexivity.
  - apply mappedb_spec. vm_compute. reflexivity.
Defined.

(** Renaming /a/x to /b/y gives the directory a the name y in b; x stays where it was. *)
Definition tmp_two : SynthFs.Fs (list Z) :=
  let s := (SynthFs.CreateDirectory tmp0 2 "a" 0x1ed 0 0).1 in
  let s := (SynthFs.CreateDirectory s 2 "b" 0x1ed 0 0).1 in
  (SynthFs.CreateFile s 3 "x" 0x1a4 0 0).1.
Definition two_names : gmap Z Z := mem_write (mem_write (mem_write ∅ 0x1000 (replicate 0x80 0)) 0x1000 (string_bytes "/a/x")) 0x1040 (string_bytes "/b/y").
Theorem Rename_renames_parent : match Rename (fun _ => true) 1 0x1000 0x1040 (set_memory two_names (start (boot tmp_two) 1)) with
  | Ret w r => r = inr 0 /\ SynthFs.Lookup (VFS.filesystems (vfs w)) 4 "y" = inr 3 /\ SynthFs.Lookup (VFS.filesystems (vfs w)) 3 "x" = inr 5
  | _ => False
  end.
Proof. vm_compute. split_and!; reflexivity. Qed.
