(* ===== verification/PNG.v ===== *)
(** * PNG images

    [Library/Image.cpp] and [Library/Image.hpp]: the chunks of a PNG file, its header and palette,
    the inflated scanlines and their filters, and the conversion of the pixels for the framebuffer.
    The data is inflated by [ZLib].

    [Prism]'s byte stream is an interface; memory outside a buffer is an outcome.  Checksums are
    compared for a message only. *)

From Stdlib Require Import ZArith Lia Bool.
From stdpp Require Import base list numbers.
From S2P Require Import Prelude Prism ZLib Disk.

#[local] Open Scope outcome_scope.

(** ** [Prism/Memory/ByteStream.hpp] *)
Class ByteStream (St : Type) := {
  stream_of : list Z -> St;
  bytes_of : St -> list Z;
  ReadN : nat -> St -> list Z * St;
  Skip : nat -> St -> St;
  stream_of_spec bs : bytes_of (stream_of bs) = bs;
  ReadN_spec n s : (n <= length (bytes_of s))%nat -> (ReadN n s).1 = take n (bytes_of s) /\ bytes_of (ReadN n s).2 = drop n (bytes_of s);
  Skip_spec n s : (n <= length (bytes_of s))%nat -> bytes_of (Skip n s) = drop n (bytes_of s)
}.
(** A stream that gives zeros at its end. *)
#[export] Program Instance byte_list : ByteStream (list Z) := {|
  stream_of bs := bs; bytes_of bs := bs; ReadN n s := (take n s ++ replicate (n - length s) 0, drop n s); Skip n s := drop n s
|}.
Next Obligation. reflexivity. Qed.
Next Obligation. intros n s H. cbn. replace (n - length s)%nat with 0%nat by lia. now rewrite app_nil_r. Qed.
Next Obligation. reflexivity. Qed.

Module PNG.
(** ** Constants *)
Definition SIGNATURE : list Z := [0x89; 0x50; 0x4e; 0x47; 0x0d; 0x0a; 0x1a; 0x0a].
Definition ToChunkType (a b c d : Z) : Z := (a .<< 24) .| (b .<< 16) .| (c .<< 8) .| d.
Definition eIHDR : Z := ToChunkType 0x49 0x48 0x44 0x52.
Definition eIDAT : Z := ToChunkType 0x49 0x44 0x41 0x54.
Definition ePLTE : Z := ToChunkType 0x50 0x4c 0x54 0x45.
Definition eIEND : Z := ToChunkType 0x49 0x45 0x4e 0x44.
Definition etRNS : Z := ToChunkType 0x74 0x52 0x4e 0x53.
Definition eCgBI : Z := ToChunkType 0x43 0x67 0x42 0x49.
Definition eGrayscale : Z := 0.
Definition eTrueColor : Z := 2.
Definition eIndexed : Z := 3.
Definition eGrayscaleWithAlpha : Z := 4.
Definition eTrueColorWithAlpha : Z := 6.
Definition ColorType_eCount : Z := 7.
Definition eDeflate : Z := 0.
Definition FilterType_eCount : Z := 5.
Definition InterlaceMethod_eCount : Z := 2.
Inductive FilterType := eNone | eSub | eUp | eAverage | ePaeth.
Definition to_FilterType (x : Z) : option FilterType :=
  if x =? 0 then Some eNone else if x =? 1 then Some eSub else if x =? 2 then Some eUp else if x =? 3 then Some eAverage
  else if x =? 4 then Some ePaeth else None.

Definition PredictPaeth (a b c : Z) : Z :=
  let p := a + b - c in
  let pa := Z.abs (p - a) in
  let pb := Z.abs (p - b) in
  let pc := Z.abs (p - c) in
  if (pa <=? pb) && (pa <=? pc) then a else if pb <=? pc then b else c.

(** ** The loader *)
Record PaletteEntry := mkPaletteEntry { Red : Z; Green : Z; Blue : Z; Alpha : Z }.
Record Loader := mkLoader {
  m_Width : Z; m_Height : Z; m_Depth : Z; m_ColorType : Z; m_Interlace : Z; m_ChannelCount : Z;
  m_Palette : list PaletteEntry; m_CompressedData : list Z; m_IdatSize : Z
}.
Definition new_Loader : Loader := mkLoader 0 0 0 eGrayscale 0 0 [] [] 0.
Definition with_palette (p : list PaletteEntry) (l : Loader) : Loader :=
  mkLoader (m_Width l) (m_Height l) (m_Depth l) (m_ColorType l) (m_Interlace l) (m_ChannelCount l) p (m_CompressedData l) (m_IdatSize l).
Definition with_data (data : list Z) (size : Z) (l : Loader) : Loader :=
  mkLoader (m_Width l) (m_Height l) (m_Depth l) (m_ColorType l) (m_Interlace l) (m_ChannelCount l) (m_Palette l) data size.

(** Big-endian integers. *)
Definition be_word (bs : list Z) : Z := le_word (rev bs).

Section Loader.
Context {St Str : Type} {ByS : ByteStream St} {BS : BitStream Str} {PM : PrismMath}.
(** What fresh memory holds, the bit stream over the data, the header and the locals of the
    decompressor and the number of its steps. *)
Context (fresh : nat -> list Z) (bit_stream : list Z -> Str).
Context (header_method : Z -> Z) (header_dictionary : Z -> bool) (header_data : Z -> Z) (stack : Locals) (inflate_fuel : nat).

Definition ReadU32 (s : St) : Z * St := let '(bs, s) := ReadN 4 s in (be_word bs, s).
Definition ReadU8 (s : St) : Z * St := let '(bs, s) := ReadN 1 s in (be_word bs, s).

(** ** Header *)
Definition validDepthsForColorType : list (list Z) :=
  [[1; 2; 4; 8; 16]; [0; 0; 0; 0; 0]; [8; 16; 0; 0; 0]; [1; 2; 4; 8; 0]; [8; 16; 0; 0; 0]; [0; 0; 0; 0; 0]; [8; 16; 0; 0; 0]].
Definition channelCountForColorType : list Z := [1; 0; 3; 1; 2; 0; 4].
(** The sizes are signed: no size is above the largest integer. *)
Definition ParseIHDR (s : St) (length : Z) (l : Loader) : Outcome (Loader * St) :=
  if negb (length =? 13) then Failed
  else
    let '(w, s) := ReadU32 s in
    let '(h, s) := ReadU32 s in
    let width := i32 w in
    let height := i32 h in
    if (width =? 0) || (2 ^ 31 - 1 <? width) || (height =? 0) || (2 ^ 31 - 1 <? height) then Failed
    else
      let '(depth, s) := ReadU8 s in
      if (16 <? depth) || negb (IsPowerOfTwo depth) then Failed
      else
        let '(color, s) := ReadU8 s in
        if ColorType_eCount <=? color then Failed
        else if negb (existsb (Z.eqb depth) (nth (Z.to_nat color) validDepthsForColorType [])) then Failed
        else
          let '(compression, s) := ReadU8 s in
          if negb (compression =? eDeflate) then Failed
          else
            let '(filter, s) := ReadU8 s in
            if negb (filter =? 0) then Failed
            else
              let '(interlace, s) := ReadU8 s in
              if InterlaceMethod_eCount <=? interlace then Failed
              else
                Ok (mkLoader width height depth color interlace (nth (Z.to_nat color) channelCountForColorType 0)
                      (m_Palette l) (m_CompressedData l) (m_IdatSize l), s).

(** ** Palette and data *)
Fixpoint palette_loop (n : nat) (s : St) (palette : list PaletteEntry) : list PaletteEntry * St :=
  match n with
  | O => (palette, s)
  | S n =>
      let '(r, s) := ReadU8 s in let '(g, s) := ReadU8 s in let '(b, s) := ReadU8 s in
      palette_loop n s (palette ++ [mkPaletteEntry r g b 0])
  end.
Definition ParsePLTE (s : St) (length : Z) (l : Loader) : Outcome (Loader * St) :=
  if (m_ColorType l =? eGrayscale) || (m_ColorType l =? eGrayscaleWithAlpha) then Failed
  else if 256 * 3 <? length then Failed
  else if negb (length / 3 * 3 =? length) then Failed
  else let '(p, s) := palette_loop (Z.to_nat (length / 3)) s (m_Palette l) in Ok (with_palette p l, s).

(** [while (m_IdatSize + chunk.Length > newSize) newSize <<= 1;] *)
Fixpoint idat_grow (fuel : nat) (newSize wanted : Z) : Outcome Z :=
  if newSize <? wanted then match fuel with O => OutOfFuel | S fuel => idat_grow fuel (u64 (newSize .<< 1)) wanted end
  else Ok newSize.
Definition ParseIDAT (s : St) (length : Z) (l : Loader) : Outcome (Loader * St) :=
  if (m_ColorType l =? eIndexed) && bool_decide (m_Palette l = []) then Failed
  else if (1 .<< 30) <? length then Failed
  else if i32 (m_IdatSize l + length) <? i32 (m_IdatSize l) then Failed
  else
    let size := Z.of_nat (List.length (m_CompressedData l)) in
    let! data :=
      (if size <? m_IdatSize l + length then
         let! newSize := idat_grow 64 (if size =? 0 then (if 4096 <? length then length else 4096) else size) (m_IdatSize l + length) in
         Ok (m_CompressedData l ++ drop (List.length (m_CompressedData l)) (fresh (Z.to_nat newSize)))
       else Ok (m_CompressedData l)) in
    let '(bs, s) := ReadN (Z.to_nat length) s in
    Ok (with_data (splice (Z.to_nat (m_IdatSize l)) bs data) (m_IdatSize l + length) l, s).

(** One byte per entry of the palette is read, whatever the length of the chunk; for the colour
    types that are not supported nothing is read.  The answer only decides about a message. *)
Fixpoint alpha_loop (todo done : list PaletteEntry) (s : St) : list PaletteEntry * St :=
  match todo with
  | [] => (done, s)
  | e :: todo => let '(a, s) := ReadU8 s in alpha_loop todo (done ++ [mkPaletteEntry (Red e) (Green e) (Blue e) a]) s
  end.
Definition ParseTRNS (s : St) (length : Z) (l : Loader) : bool * Loader * St :=
  if negb (Z.of_nat (List.length (m_CompressedData l)) =? 0) then (false, l, s)
  else if (m_ColorType l =? eGrayscale) || (m_ColorType l =? eTrueColor) then (true, l, s)
  else if m_ColorType l =? eIndexed then
    if bool_decide (m_Palette l = []) then (false, l, s)
    else if Z.of_nat (List.length (m_Palette l)) <? length then (false, l, s)
    else let '(p, s) := alpha_loop (m_Palette l) [] s in (true, with_palette p l, s)
  else (false, l, s).

(** ** Chunks *)
Definition ParseChunk (s : St) (length type : Z) (l : Loader) : Outcome (Loader * St) :=
  if type =? eCgBI then Ok (l, Skip (Z.to_nat length) s)
  else if type =? eIHDR then Failed
  else if type =? ePLTE then ParsePLTE s length l
  else if type =? etRNS then let '(_, l, s) := ParseTRNS s length l in Ok (l, s)
  else if type =? eIDAT then ParseIDAT s length l
  else if type =? eIEND then Ok (l, s)
  else if (type .& (1 .<< 29)) =? 0 then Failed
  else Ok (l, Skip (Z.to_nat length) s).
Fixpoint chunk_loop (fuel : nat) (s : St) (l : Loader) : Outcome (Loader * St) :=
  match fuel with
  | O => OutOfFuel
  | S fuel =>
      let '(length, s) := ReadU32 s in
      let '(type, s) := ReadU32 s in
      let! (l, s) := ParseChunk s length type l in
      let '(_, s) := ReadU32 s in
      if type =? eIEND then Ok (l, s) else chunk_loop fuel s l
  end.

(** ** Scanlines *)
(** The rows are a buffer and the offsets of the current row and of the one above it. *)
Definition unfilter_byte (filter : FilterType) (value left above upperLeft : Z) : Z :=
  match filter with
  | eNone => value
  | eSub => u8 (value + left)
  | eUp => u8 (value + above)
  | eAverage => u8 (value + u8 ((left + above) .>> 1))
  | ePaeth => u8 (value + PredictPaeth left above upperLeft)
  end.
Fixpoint unfilter_loop (n : nat) (buffer : list Z) (currentRow : Z) (previousRow : option Z) (bytesPerPixel x : Z) (filter : FilterType) : Outcome (list Z) :=
  match n with
  | O => Ok buffer
  | S n =>
      let! leftward := (if bytesPerPixel <=? x then get buffer (currentRow + x - bytesPerPixel) else Ok 0) in
      let! above := (match previousRow with Some p => get buffer (p + x) | None => Ok 0 end) in
      let! upperLeft := (match previousRow with Some p => if bytesPerPixel <=? x then get buffer (p + x - bytesPerPixel) else Ok 0 | None => Ok 0 end) in
      let! value := get buffer (currentRow + x) in
      let! buffer := set buffer (currentRow + x) (unfilter_byte filter value leftward above upperLeft) in
      unfilter_loop n buffer currentRow previousRow bytesPerPixel (x + 1) filter
  end.
Definition UnfilterScanline (buffer : list Z) (currentRow : Z) (previousRow : option Z) (bytesPerPixel length : Z) (filter : FilterType) : Outcome (list Z) :=
  unfilter_loop (Z.to_nat length) buffer currentRow previousRow bytesPerPixel 0 filter.

(** The bytes from [off] on are replaced; [OutOfBounds] if they do not fit. *)
Definition write_bytes (buffer : list Z) (off : Z) (bs : list Z) : Outcome (list Z) :=
  if (off <? 0) || (Z.of_nat (length buffer) <? off + Z.of_nat (length bs)) then OutOfBounds else Ok (splice (Z.to_nat off) bs buffer).
Definition read_bytes (buffer : list Z) (off : Z) (n : nat) : Outcome (list Z) :=
  if (off <? 0) || (Z.of_nat (length buffer) <? off + Z.of_nat n) then OutOfBounds else Ok (slice (Z.to_nat off) n buffer).
(** Pixels of fewer channels are spread to four bytes, from the last to the first. *)
Fixpoint spread_loop (x : nat) (buffer : list Z) (currentRow channels : Z) : Outcome (list Z) :=
  match x with
  | O => Ok buffer
  | S x =>
      let! px := read_bytes buffer (currentRow + Z.of_nat x * channels) (Z.to_nat channels) in
      let! buffer := write_bytes buffer (currentRow + Z.of_nat x * 4) px in
      let! buffer := (if channels =? 3 then set buffer (currentRow + Z.of_nat x * 4 + 3) 255 else Ok buffer) in
      spread_loop x buffer currentRow channels
  end.
Fixpoint swap_loop (n : nat) (buffer : list Z) (at_ : Z) : Outcome (list Z) :=
  match n with
  | O => Ok buffer
  | S n =>
      let! a := get buffer at_ in
      let! b := get buffer (at_ + 1) in
      let! buffer := set buffer at_ b in
      let! buffer := set buffer (at_ + 1) a in
      swap_loop n buffer (at_ + 2)
  end.

(** One row: the filtered bytes are appended to what was written so far, the row is unfiltered at
    its place in the picture.  [out] is the offset of the output stream. *)
Definition defilter_row (l : Loader) (stride imageRowBytes bytesPerPixel y : Z) (filter : FilterType) (row : list Z) (out : Z) (buffer : list Z) : Outcome (list Z) :=
  let! buffer := write_bytes buffer out row in
  let currentRow := u64 (stride * y) in
  let! buffer := UnfilterScanline buffer currentRow (if y =? 0 then None else Some (u64 (stride * (y - 1)))) (i32 bytesPerPixel) (i32 imageRowBytes) filter in
  let! buffer := (if (m_ChannelCount l <? 4) && (m_Depth l =? 8) then spread_loop (Z.to_nat (m_Width l)) buffer currentRow (m_ChannelCount l) else Ok buffer) in
  if m_Depth l =? 16 then swap_loop (Z.to_nat (stride / 2)) buffer currentRow else Ok buffer.
Fixpoint defilter_loop (n : nat) (l : Loader) (stride imageRowBytes bytesPerPixel y : Z) (input : list Z) (out : Z) (buffer : list Z) : Outcome (list Z) :=
  match n with
  | O => Ok buffer
  | S n =>
      match input with
      | [] => OutOfBounds
      | f :: input =>
          match to_FilterType f with
          | None => Ok []
          | Some filter =>
              let! buffer := defilter_row l stride imageRowBytes bytesPerPixel y filter (take (Z.to_nat imageRowBytes) input) out buffer in
              defilter_loop n l stride imageRowBytes bytesPerPixel (y + 1) (drop (Z.to_nat imageRowBytes) input) (out + imageRowBytes) buffer
          end
      end
  end.
(** An empty buffer stands for a picture that could not be decoded. *)
Definition Defilter (l : Loader) (input : list Z) : Outcome (list Z) :=
  let bytesPerSample := if m_Depth l =? 16 then 2 else 1 in
  let bytesPerPixel := bytesPerSample * m_ChannelCount l in
  let stride := u64 (m_Width l * 4 * bytesPerSample) in
  let imageRowBytes := DivRoundUp (u64 (m_ChannelCount l * m_Width l * m_Depth l)) 8 in
  if Z.of_nat (length input) <? u64 ((imageRowBytes + 1) * m_Height l) then Ok []
  else
    let buffer := fresh (Z.to_nat (u64 (i32 (m_Width l * m_Height l) * 4))) in
    defilter_loop (Z.to_nat (m_Height l)) l stride imageRowBytes bytesPerPixel 0 input 0 buffer.

(** ** Loading *)
Definition new_Decompressor : Decompressor := mkDecompressor None 0 0 new_HuffmanTree new_HuffmanTree.
(** The data, if there is a buffer, up to the output pointer. *)
Definition inflate (data : list Z) (size rawSize : Z) : Outcome (option (list Z)) :=
  let! (_, d) := Decompress fresh header_method header_dictionary header_data inflate_fuel stack new_Decompressor size rawSize (bit_stream (take (Z.to_nat size) data)) in
  Ok (match m_OutputBuffer d with Some buffer => Some (take (Z.to_nat (m_OutputPointer d)) buffer) | None => None end).
Definition Loader_LoadFromMemory (fuel : nat) (data : list Z) : Outcome (Loader * list Z) :=
  let '(signature, s) := ReadN 8 (stream_of data) in
  if negb (bool_decide (signature = SIGNATURE)) then Failed
  else
    let '(length, s) := ReadU32 s in
    let '(type, s) := ReadU32 s in
    if negb (type =? eIHDR) then Failed
    else
      let! (l, s) := ParseIHDR s length new_Loader in
      let '(_, s) := ReadU32 s in
      let! (l, s) := chunk_loop fuel s l in
      if Z.of_nat (List.length (m_CompressedData l)) =? 0 then Failed
      else
        let stride := u64 (DivRoundUp (u64 (m_ChannelCount l * m_Width l * m_Depth l + 7)) 8 + 1) in
        let! data := inflate (m_CompressedData l) (m_IdatSize l) (u64 (stride * m_Height l)) in
        match data with
        | None => Failed
        | Some data => let! pixels := Defilter l data in if bool_decide (pixels = []) then Failed else Ok (l, pixels)
        end.

(** ** Images *)
Record Image := mkImage { i_Pixels : list Z; i_Width : Z; i_Height : Z; i_Pitch : Z; i_BitsPerPixel : Z }.
Definition convert (p : Z) : Z := (p .& 0x0000ff00) .| ((p .& 0x00ff0000) .>> 16) .| ((p .& 0x000000ff) .<< 16).
Fixpoint convert_loop (n : nat) (at_ : Z) (pixels : list Z) : Outcome (list Z) :=
  match n with
  | O => Ok pixels
  | S n =>
      let! px := read_bytes pixels at_ 4 in
      let! pixels := write_bytes pixels at_ (le_bytes 4 (convert (le_word px))) in
      convert_loop n (at_ + 4) pixels
  end.
Definition Image_LoadFromMemory (fuel : nat) (data : list Z) : Outcome Image :=
  let! (l, pixels) := Loader_LoadFromMemory fuel data in
  let! pixels := convert_loop (Z.to_nat (u64 (m_Width l * m_Height l))) 0 pixels in
  Ok (mkImage pixels (u64 (m_Width l)) (u64 (m_Height l)) (i32 (m_Width l * 4)) 32).
End Loader.
End PNG.
