(* ===== verification/PNGTheorems.v ===== *)
(** * PNG images: theorems

    Undoing the filters of the scanlines gives back the rows; a file made of the chunks of a
    picture with four channels of eight bits is loaded as that picture, whatever the filters and
    however the data is split into chunks; and four defects: pictures of three channels, pictures
    of sixteen bits, negative sizes, and transparency chunks. *)

From Stdlib Require Import ZArith Lia Bool.
From stdpp Require Import base list numbers.
From S2P Require Import Prelude Prism ZLib Huffman Inflate InflateTheorems Disk PNG.

Import PNG.
#[local] Open Scope outcome_scope.

(** ** The reference: filtering a row *)
Definition prediction (f : FilterType) (leftward above upperLeft : Z) : Z :=
  match f with
  | eNone => 0 | eSub => leftward | eUp => above | eAverage => u8 ((leftward + above) .>> 1) | ePaeth => PredictPaeth leftward above upperLeft
  end.
Definition byte_before (bpp x : nat) (row : list Z) : Z := if (bpp <=? x)%nat then nth (x - bpp) row 0 else 0.
Definition predicted (f : FilterType) (bpp : nat) (above row : list Z) (x : nat) : Z :=
  prediction f (byte_before bpp x row) (nth x above 0) (byte_before bpp x above).
(** The bytes of a filtered row: what the prediction from its neighbours misses. *)
Definition filter_row (f : FilterType) (bpp : nat) (above row : list Z) : list Z :=
  (fun x => u8 (nth x row 0 - predicted f bpp above row x)) <$> seq 0 (length row).
Definition filter_code (f : FilterType) : Z := match f with eNone => 0 | eSub => 1 | eUp => 2 | eAverage => 3 | ePaeth => 4 end.

Lemma filter_row_length f bpp above row : length (filter_row f bpp above row) = length row.
Proof. unfold filter_row. now rewrite length_fmap, length_seq. Qed.
Lemma filter_row_lookup f bpp above row x : (x < length row)%nat ->
  filter_row f bpp above row !! x = Some (u8 (nth x row 0 - predicted f bpp above row x)).
Proof. intros H. unfold filter_row. rewrite list_lookup_fmap, lookup_seq_lt by lia. reflexivity. Qed.
Lemma to_filter_code f : to_FilterType (filter_code f) = Some f.
Proof. now destruct f. Qed.

Lemma u8_small x : byte x -> u8 x = x.
Proof. intros H. unfold u8. apply wrap_small. exact H. Qed.
(** Adding the prediction undoes the filter. *)
Lemma unfilter_filter f v l a u : byte v -> unfilter_byte f (u8 (v - prediction f l a u)) l a u = v.
Proof.
  intros Hv. assert (H : forall p, u8 (u8 (v - p) + p) = v).
  { intros p. unfold u8, wrap. rewrite Zplus_mod_idemp_l. replace (v - p + p) with v by lia. apply Z.mod_small. exact Hv. }
  destruct f; cbn [unfilter_byte prediction]; [|apply H..]. rewrite Z.sub_0_r. now apply u8_small.
Qed.

(** ** Buffers *)
Lemma get_ok a i (x : Z) : 0 <= i -> a !! Z.to_nat i = Some x -> get a i = Ok x.
Proof. intros Hi H. unfold get. destruct (Z.ltb_spec i 0); [lia|]. now rewrite H. Qed.
Lemma get_part (pre row post : list Z) i x : 0 <= i -> row !! Z.to_nat i = Some x -> get (pre ++ row ++ post) (Z.of_nat (length pre) + i) = Ok x.
Proof.
  intros Hi H. apply get_ok; [lia|]. replace (Z.to_nat (Z.of_nat (length pre) + i)) with (length pre + Z.to_nat i)%nat by lia.
  rewrite lookup_app_r by lia. replace (length pre + Z.to_nat i - length pre)%nat with (Z.to_nat i) by lia.
  now rewrite lookup_app_l by (eapply lookup_lt_Some; eassumption).
Qed.
Lemma set_middle (a b : list Z) x y : set (a ++ x :: b) (Z.of_nat (length a)) y = Ok (a ++ y :: b).
Proof.
  unfold set. rewrite length_app. cbn [length]. destruct (Z.ltb_spec (Z.of_nat (length a)) 0); [lia|]. cbn [orb].
  destruct (Z.leb_spec (Z.of_nat (length a + S (length b))) (Z.of_nat (length a))); [lia|]. rewrite Nat2Z.id. do 2 f_equal.
  rewrite insert_app_r_alt by lia. now rewrite Nat.sub_diag.
Qed.
Lemma nth_of_lookup (l : list Z) i x : l !! i = Some x -> nth i l 0 = x.
Proof. apply nth_lookup_Some. Qed.
Lemma lookup_of_nth (l : list Z) i : (i < length l)%nat -> l !! i = Some (nth i l 0).
Proof. intros H. destruct (lookup_lt_is_Some_2 l i H) as [x Hx]. rewrite Hx. now rewrite (nth_of_lookup _ _ _ Hx). Qed.

(** The row above, as the loop finds it: none, or a row at an offset before the current one. *)
Definition row_above (pre : list Z) (previousRow : option Z) (above : list Z) (len : nat) : Prop :=
  match previousRow with
  | None => above = []
  | Some p => exists pre0 mid, pre = pre0 ++ above ++ mid /\ p = Z.of_nat (length pre0) /\ length above = len
  end.
Lemma above_byte pre previousRow above len l x : row_above pre previousRow above len -> 0 <= x < Z.of_nat len ->
  (match previousRow with Some p => get (pre ++ l) (p + x) | None => Ok 0 end) = Ok (nth (Z.to_nat x) above 0).
Proof.
  intros H Hx. destruct previousRow as [p|]; cbn in H.
  - destruct H as (pre0 & mid & -> & -> & Hl). rewrite <- !List.app_assoc. apply get_part; [lia|]. apply lookup_of_nth. lia.
  - subst above. now destruct (Z.to_nat x).
Qed.

(** ** Undoing the filters *)
Lemma unfilter_loop_spec f bpp pre previousRow above row post : Forall byte row -> row_above pre previousRow above (length row) -> (0 < bpp)%nat ->
  forall rest done, row = done ++ rest ->
  unfilter_loop (length rest) (pre ++ done ++ drop (length done) (filter_row f bpp above row) ++ post) (Z.of_nat (length pre)) previousRow (Z.of_nat bpp) (Z.of_nat (length done)) f
  = Ok (pre ++ row ++ post).
Proof.
  intros Hb Ha Hbpp. induction rest as [|v rest IH]; intros done Hrow.
  - cbn [length unfilter_loop]. rewrite drop_ge by (rewrite filter_row_length, Hrow, length_app; cbn; lia). rewrite app_nil_r in Hrow. now rewrite Hrow.
  - cbn [length unfilter_loop]. set (x := length done) in *. set (F := filter_row f bpp above row) in *.
    assert (Hx : (x < length row)%nat) by (rewrite Hrow, length_app; cbn; lia).
    assert (Hv : nth x row 0 = v) by (rewrite Hrow; unfold x; now rewrite nth_middle).
    assert (HF : drop x F = u8 (v - predicted f bpp above row x) :: drop (S x) F).
    { apply drop_S. unfold F. now rewrite filter_row_lookup, Hv by trivial. }
    rewrite HF. set (b := u8 (v - predicted f bpp above row x)) in *.
    assert (Hleft : (if Z.of_nat bpp <=? Z.of_nat x then get (pre ++ done ++ (b :: drop (S x) F) ++ post) (Z.of_nat (length pre) + Z.of_nat x - Z.of_nat bpp) else Ok 0)
      = Ok (byte_before bpp x row)).
    { unfold byte_before. destruct (Nat.leb_spec bpp x), (Z.leb_spec (Z.of_nat bpp) (Z.of_nat x)); try lia; [|reflexivity].
      replace (Z.of_nat (length pre) + Z.of_nat x - Z.of_nat bpp) with (Z.of_nat (length pre) + (Z.of_nat x - Z.of_nat bpp)) by lia.
      apply get_part; [lia|]. replace (Z.to_nat (Z.of_nat x - Z.of_nat bpp)) with (x - bpp)%nat by lia.
      rewrite lookup_of_nth by (fold x; lia). rewrite Hrow, app_nth1 by (fold x; lia). reflexivity. }
    rewrite Hleft. cbn [bind]. rewrite (above_byte pre previousRow above (length row)) by (trivial; lia). cbn [bind]. rewrite Nat2Z.id.
    assert (Hul : (match previousRow with Some p => if Z.of_nat bpp <=? Z.of_nat x then get (pre ++ done ++ (b :: drop (S x) F) ++ post) (p + Z.of_nat x - Z.of_nat bpp) else Ok 0 | None => Ok 0 end)
      = Ok (byte_before bpp x above)).
    { unfold byte_before. destruct (Nat.leb_spec bpp x), (Z.leb_spec (Z.of_nat bpp) (Z.of_nat x)); try lia; [|now destruct previousRow].
      pose proof (above_byte pre previousRow above (length row) (done ++ (b :: drop (S x) F) ++ post) (Z.of_nat x - Z.of_nat bpp) Ha ltac:(lia)) as E.
      replace (Z.to_nat (Z.of_nat x - Z.of_nat bpp)) with (x - bpp)%nat in E by lia. destruct previousRow as [p|]; [|exact E].
      rewrite <- E. f_equal. lia. }
    rewrite Hul. cbn [bind]. rewrite List.app_assoc. cbn [app].
    replace (Z.of_nat (length pre) + Z.of_nat x) with (Z.of_nat (length (pre ++ done))) by (rewrite length_app; fold x; lia).
    rewrite (get_ok _ _ b) by (try lia; rewrite Nat2Z.id, lookup_app_r, Nat.sub_diag by lia; reflexivity). cbn [bind]. rewrite set_middle. cbn [bind].
    unfold b, predicted. rewrite unfilter_filter by (rewrite Hrow in Hb; apply Forall_app in Hb as [_ Hb]; now apply Forall_inv in Hb).
    specialize (IH (done ++ [v])). rewrite length_app in IH. cbn [length] in IH. rewrite <- List.app_assoc in IH. specialize (IH Hrow).
    fold x in IH. replace (x + 1)%nat with (S x) in IH by lia. rewrite <- IH. f_equal; [|lia].
    now rewrite <- !List.app_assoc.
Qed.

(** Undoing the filter of a scanline gives back the row: for every filter, every distance of
    neighbouring pixels, and every row above, the loop that works in place inverts the filter of the
    specification, and leaves the rest of the buffer alone. *)
Theorem UnfilterScanline_inverts f bpp pre previousRow above row post : Forall byte row -> row_above pre previousRow above (length row) -> (0 < bpp)%nat ->
  UnfilterScanline (pre ++ filter_row f bpp above row ++ post) (Z.of_nat (length pre)) previousRow (Z.of_nat bpp) (Z.of_nat (length row)) f = Ok (pre ++ row ++ post).
Proof.
  intros Hb Ha Hbpp. unfold UnfilterScanline. rewrite Nat2Z.id. exact (unfilter_loop_spec f bpp pre previousRow above row post Hb Ha Hbpp row [] eq_refl).
Qed.

(** ** Pictures of four channels *)
(** Rows with their filters, and the bytes the specification lays them out as. *)
Fixpoint scanlines (bpp : nat) (above : list Z) (rows : list (FilterType * list Z)) : list Z :=
  match rows with
  | [] => []
  | (f, row) :: rows => filter_code f :: filter_row f bpp above row ++ scanlines bpp row rows
  end.
Definition picture (rows : list (FilterType * list Z)) : list Z := concat (snd <$> rows).
Definition rows_ok (w : nat) (rows : list (FilterType * list Z)) : Prop := Forall (fun r => length r.2 = (4 * w)%nat /\ Forall byte r.2) rows.

Lemma scanlines_length w above rows : rows_ok w rows -> length (scanlines 4 above rows) = ((4 * w + 1) * length rows)%nat.
Proof.
  intros H. revert above. induction H as [|[f row] rows [Hl _] _ IH]; intros above; [cbn; lia|]. cbn [scanlines length] in *.
  rewrite length_app, filter_row_length, IH. cbn in Hl. lia.
Qed.
Lemma picture_length w rows : rows_ok w rows -> length (picture rows) = (4 * w * length rows)%nat.
Proof. induction 1 as [|[f row] rows [Hl _] _ IH]; [cbn; lia|]. unfold picture in *. cbn. rewrite length_app, IH. cbn in Hl. lia. Qed.
Lemma picture_bytes w rows : rows_ok w rows -> Forall byte (picture rows).
Proof. induction 1 as [|[f row] rows [_ Hb] _ IH]; [constructor|]. unfold picture in *. cbn. apply Forall_app; auto. Qed.

Section Decoding.
Context {PM : PrismMath} (fresh : nat -> list Z) (fresh_length : forall n, length (fresh n) = n).

Lemma write_at (a b bs : list Z) off : off = Z.of_nat (length a) -> (length bs <= length b)%nat ->
  write_bytes (a ++ b) off bs = Ok (a ++ bs ++ drop (length bs) b).
Proof.
  intros -> Hb. unfold write_bytes. rewrite length_app. destruct (Z.ltb_spec (Z.of_nat (length a)) 0); [lia|]. cbn [orb].
  destruct (Z.ltb_spec (Z.of_nat (length a + length b)) (Z.of_nat (length a) + Z.of_nat (length bs))); [lia|].
  unfold splice. rewrite Nat2Z.id, take_app_length, drop_app_add. reflexivity.
Qed.
Lemma DivRoundUp_exact k : 0 <= k -> DivRoundUp (k * 8) 8 = k.
Proof. intros H. pose proof (DivRoundUp_spec (k * 8) 8 ltac:(lia) ltac:(lia)). lia. Qed.

Lemma i32_small x : 0 <= x < 2 ^ 31 -> i32 x = x.
Proof. intros H. unfold i32, swrap. rewrite Z.mod_small by lia. destruct (Z.ltb_spec x (2 ^ (32 - 1))); lia. Qed.
Lemma u64_small x : 0 <= x < 2 ^ 64 -> u64 x = x.
Proof. intros H. unfold u64. apply wrap_small. exact H. Qed.

Section Rows.
Context (l : Loader) (w : nat).
Hypothesis (Hw : m_Width l = Z.of_nat w) (Hch : m_ChannelCount l = 4) (Hd : m_Depth l = 8) (Hw0 : (0 < w)%nat).
Notation len := (Z.of_nat (4 * w)).

(** The rows that are done are in front, the row above is the last of them. *)
Lemma defilter_loop_spec rows : rows_ok w rows -> forall (done : list (FilterType * list Z)) (free : list Z) above,
  rows_ok w done -> above = match rev (snd <$> done) with r :: _ => r | [] => [] end ->
  (4 * w * length rows <= length free)%nat -> len * Z.of_nat (length done + length rows) < 2 ^ 31 ->
  defilter_loop (length rows) l len len 4 (Z.of_nat (length done)) (scanlines 4 above rows) (len * Z.of_nat (length done)) (picture done ++ free)
  = Ok (picture done ++ picture rows ++ drop (4 * w * length rows) free).
Proof.
  induction 1 as [|[f row] rows [Hl Hb] Hok IH]; intros done free above Hdone Habove Hfree Hbound.
  - cbn [length]. rewrite Nat.mul_0_r, drop_0. cbn. now rewrite ?app_nil_r.
  - cbn [length defilter_loop scanlines] in *. cbn [snd] in Hl, Hb. rewrite to_filter_code, Nat2Z.id.
    rewrite take_app_length', drop_app_length' by (rewrite filter_row_length; lia).
    assert (Hpl : length (picture done) = (4 * w * length done)%nat) by now apply picture_length.
    unfold defilter_row. rewrite write_at by (rewrite ?Hpl, ?filter_row_length; lia). cbn [bind]. rewrite filter_row_length, Hl.
    rewrite (u64_small (len * Z.of_nat (length done))), (i32_small len) by nia.
    replace (len * Z.of_nat (length done)) with (Z.of_nat (length (picture done))) by (rewrite Hpl; lia).
    set (prev := if Z.of_nat (length done) =? 0 then None else Some (u64 (len * (Z.of_nat (length done) - 1)))).
    assert (Hprev : row_above (picture done) prev above (length row)).
    { unfold prev. destruct done as [|r0 done0 _] using rev_ind; [cbn in *; now subst|].
      rewrite length_app in *. cbn [length] in *. destruct (Z.eqb_spec (Z.of_nat (length done0 + 1)) 0); [lia|]. cbn.
      rewrite fmap_app, rev_app_distr in Habove. cbn in Habove. subst above. apply Forall_app in Hdone as [Hd0 [[Hr0 _] _]%list.Forall_cons].
      exists (picture done0), []. rewrite u64_small by lia. split_and!; [unfold picture; rewrite fmap_app, concat_app; cbn; now rewrite app_nil_r|rewrite (picture_length w) by trivial; lia|lia]. }
    assert (Hun : UnfilterScanline (picture done ++ filter_row f 4 above row ++ drop (4 * w) free) (Z.of_nat (length (picture done))) prev 4 len f
      = Ok (picture done ++ row ++ drop (4 * w) free)).
    { unfold UnfilterScanline. rewrite Nat2Z.id, <- Hl. exact (unfilter_loop_spec f 4 (picture done) prev above row _ Hb Hprev ltac:(lia) row [] eq_refl). }
    change (i32 4) with 4. rewrite Hun. cbn [bind]. rewrite Hch, Hd. change ((4 <? 4) && (8 =? 8)) with false. change (8 =? 16) with false. cbn iota. cbn [bind].
    assert (Hsnoc : picture (done ++ [(f, row)]) = picture done ++ row) by (unfold picture; rewrite fmap_app, concat_app; cbn; now rewrite app_nil_r).
    specialize (IH (done ++ [(f, row)]) (drop (4 * w) free) row). rewrite length_app in IH. cbn [length] in IH.
    replace (Z.of_nat (length (picture done)) + len) with (len * Z.of_nat (length done + 1)) by (rewrite Hpl; lia).
    replace (Z.of_nat (length done) + 1) with (Z.of_nat (length done + 1)) by lia.
    rewrite List.app_assoc, <- Hsnoc, IH.
    + rewrite Hsnoc, drop_drop, <- !List.app_assoc. do 2 f_equal. unfold picture. cbn. rewrite <- List.app_assoc. do 2 f_equal. f_equal. lia.
    + apply Forall_app. split; [exact Hdone|]. repeat constructor; trivial.
    + rewrite fmap_app, rev_app_distr. reflexivity.
    + rewrite length_drop. lia.
    + replace (length done + 1 + length rows)%nat with (length done + S (length rows))%nat by lia. exact Hbound.
Qed.

Lemma Defilter_rows rows : rows_ok w rows -> rows <> [] -> m_Height l = Z.of_nat (length rows) -> len * Z.of_nat (length rows) < 2 ^ 31 ->
  Defilter fresh l (scanlines 4 [] rows) = Ok (picture rows).
Proof.
  intros Hok Hne Hh Hb. unfold Defilter. rewrite Hw, Hch, Hd, Hh. change (8 =? 16) with false. cbn iota zeta.
  assert (Hz : (0 < length rows)%nat) by (destruct rows; [easy|cbn; lia]).
  assert (Hlen : len < 2 ^ 31) by nia.
  assert (E1 : u64 (4 * Z.of_nat w * 8) = len * 8) by (rewrite u64_small by lia; lia). rewrite E1, DivRoundUp_exact by lia.
  assert (E2 : u64 (Z.of_nat w * 4 * 1) = len) by (rewrite u64_small by lia; lia). rewrite E2.
  assert (E3 : u64 ((len + 1) * Z.of_nat (length rows)) = Z.of_nat (length (scanlines 4 [] rows))).
  { rewrite (scanlines_length w) by trivial. rewrite u64_small by nia. nia. }
  rewrite E3. destruct (Z.ltb_spec (Z.of_nat (length (scanlines 4 [] rows))) (Z.of_nat (length (scanlines 4 [] rows)))); [lia|].
  assert (E4 : u64 (i32 (Z.of_nat w * Z.of_nat (length rows)) * 4) = Z.of_nat (4 * w * length rows)) by (rewrite i32_small by nia; rewrite u64_small by nia; nia).
  rewrite E4, !Nat2Z.id. pose proof (defilter_loop_spec rows Hok [] (fresh (4 * w * length rows)) [] ltac:(constructor) eq_refl ltac:(rewrite fresh_length; lia) Hb) as HL.
  cbn [length picture fmap list_fmap concat app] in HL. change (Z.of_nat 0) with 0 in HL. rewrite Z.mul_0_r in HL. change (1 * 4) with 4. rewrite HL.
  rewrite drop_ge by (rewrite fresh_length; lia). now rewrite app_nil_r.
Qed.
End Rows.
End Decoding.

(** ** The pixels of an image *)
(** Red and blue change places, alpha is dropped. *)
Fixpoint bgr (l : list Z) : list Z := match l with r :: g :: b :: _ :: l => b :: g :: r :: 0 :: bgr l | _ => [] end.

Lemma land_field p k : 0 <= k -> p .& (255 .<< k) = ((p .>> k) mod 256) .<< k.
Proof.
  intros Hk. change 255 with (Z.ones 8). apply Z.bits_inj'. intros n Hn. rewrite Z.land_spec, !Z.shiftl_spec by lia.
  change 256 with (2 ^ 8). rewrite <- Z.land_ones by lia. destruct (Z.lt_ge_cases n k).
  - rewrite !(Z.testbit_neg_r _ (n - k)) by lia. now rewrite andb_false_r.
  - rewrite Z.land_spec, Z.shiftr_spec by lia. now replace (n - k + k) with n by lia.
Qed.
Lemma convert_pixel r g b a : byte r -> byte g -> byte b -> byte a -> le_bytes 4 (convert (le_word [r; g; b; a])) = [b; g; r; 0].
Proof.
  unfold byte. intros Hr Hg Hb Ha. set (p := le_word [r; g; b; a]). assert (Hp : p = r + 256 * g + 65536 * b + 16777216 * a) by (unfold p; cbn; lia).
  assert (Hc : convert p = b + 256 * g + 65536 * r).
  { unfold convert. change 0x0000ff00 with (255 .<< 8). change 0x00ff0000 with (255 .<< 16). change 0x000000ff with (255 .<< 0). rewrite !land_field by lia.
    rewrite !Z.shiftr_div_pow2, !Z.shiftl_mul_pow2 by lia. change (2 ^ 8) with 256. change (2 ^ 16) with 65536. change (2 ^ 0) with 1. rewrite Z.div_mul by lia.
    replace ((p / 256) mod 256) with g by (rewrite Hp; Z.div_mod_to_equations; lia).
    replace ((p / 65536) mod 256) with b by (rewrite Hp; Z.div_mod_to_equations; lia).
    replace ((p / 1) mod 256) with r by (rewrite Hp; Z.div_mod_to_equations; lia).
    rewrite (lor_add (g * 256) b 8) by (try lia; change (2 ^ 8) with 256; now rewrite Z.mod_mul by lia).
    rewrite Z.lor_comm, (lor_add (r * 1 * 65536) (g * 256 + b) 16) by (try lia; change (2 ^ 16) with 65536; now rewrite Z.mod_mul by lia). lia. }
  rewrite Hc. cbn [le_bytes].
  repeat match goal with |- context [?x / 256 / 256] => rewrite (Z.div_div x 256 256) by lia end. change (256 * 256) with 65536.
  repeat f_equal; Z.div_mod_to_equations; lia.
Qed.

Lemma convert_loop_spec n : forall done todo, length todo = (4 * n)%nat -> Forall byte todo ->
  convert_loop n (Z.of_nat (length done)) (done ++ todo) = Ok (done ++ bgr todo).
Proof.
  induction n as [|n IH]; intros done todo Hl Hb; [destruct todo; [reflexivity|discriminate]|].
  destruct todo as [|r [|g [|b [|a todo]]]]; cbn in Hl; try lia. rewrite !list.Forall_cons in Hb. destruct Hb as (Hr & Hg & Hbb & Ha & Hb).
  cbn [convert_loop]. unfold read_bytes. rewrite length_app. cbn [length].
  destruct (Z.ltb_spec (Z.of_nat (length done)) 0); [lia|]. cbn [orb].
  destruct (Z.ltb_spec (Z.of_nat (length done + S (S (S (S (length todo)))))) (Z.of_nat (length done) + Z.of_nat 4)); [lia|]. cbn [bind].
  unfold slice. rewrite Nat2Z.id, drop_app_length. cbn [take]. rewrite convert_pixel by trivial. rewrite write_at by (cbn; lia). cbn [bind length drop].
  replace (Z.of_nat (length done) + 4) with (Z.of_nat (length (done ++ [b; g; r; 0]))) by (rewrite length_app; cbn; lia).
  rewrite drop_0, List.app_assoc, IH by (trivial; lia). cbn [bgr]. now rewrite <- List.app_assoc.
Qed.

(** ** Files *)
Definition be_bytes (n : nat) (x : Z) : list Z := rev (le_bytes n x).
Lemma be_bytes_length n x : length (be_bytes n x) = n.
Proof. unfold be_bytes. now rewrite length_rev, le_bytes_length. Qed.
Lemma be_word_bytes n x : 0 <= x < 256 ^ Z.of_nat n -> be_word (be_bytes n x) = x.
Proof. intros H. unfold be_word, be_bytes. rewrite rev_involutive, le_word_le_bytes. now apply Z.mod_small. Qed.

Record FileChunk := mkChunk { c_type : Z; c_data : list Z; c_crc : Z }.
Definition chunk_bytes (c : FileChunk) : list Z := be_bytes 4 (Z.of_nat (length (c_data c))) ++ be_bytes 4 (c_type c) ++ c_data c ++ be_bytes 4 (c_crc c).
(** A chunk of data, or one a reader may ignore. *)
Definition chunk_ok (c : FileChunk) : Prop :=
  in_u 32 (c_type c) /\ in_u 32 (c_crc c) /\ Z.of_nat (length (c_data c)) <= 2 ^ 30 /\ Forall byte (c_data c) /\
  (c_type c = eIDAT \/ (c_type c <> etRNS /\ (c_type c .& (1 .<< 29)) <> 0)).
Definition idat (cs : list FileChunk) : list Z := concat (c_data <$> filter (fun c => c_type c = eIDAT) cs).
Definition header_chunk (w h crc : Z) : FileChunk := mkChunk eIHDR (be_bytes 4 w ++ be_bytes 4 h ++ [8; eTrueColorWithAlpha; eDeflate; 0; 0]) crc.
Definition png_file (w h : Z) (cs : list FileChunk) : list Z :=
  SIGNATURE ++ chunk_bytes (header_chunk w h 0) ++ concat (chunk_bytes <$> cs) ++ chunk_bytes (mkChunk eIEND [] 0).

Section Files.
Context {St Str : Type} {ByS : ByteStream St} {BS : BitStream Str} {PM : PrismMath}.
Context (fresh : nat -> list Z) (fresh_length : forall n, length (fresh n) = n).

Lemma ReadN_app (s : St) n a b : bytes_of s = a ++ b -> length a = n -> exists s', ReadN n s = (a, s') /\ bytes_of s' = b.
Proof.
  intros Hs <-. destruct (ReadN_spec (length a) s ltac:(rewrite Hs, length_app; lia)) as [H1 H2]. rewrite Hs in H1, H2.
  rewrite take_app_length in H1. rewrite drop_app_length in H2. destruct (ReadN (length a) s) as [x s'] eqn:E. exists s'. cbn in *. now subst.
Qed.
Lemma ReadU32_app (s : St) x b : in_u 32 x -> bytes_of s = be_bytes 4 x ++ b -> exists s', ReadU32 s = (x, s') /\ bytes_of s' = b.
Proof.
  intros Hx Hs. destruct (ReadN_app s 4 _ _ Hs (be_bytes_length 4 x)) as (s' & E & Hs'). exists s'. unfold ReadU32. rewrite E, be_word_bytes by exact Hx. auto.
Qed.
Lemma ReadU8_app (s : St) x b : bytes_of s = x :: b -> exists s', ReadU8 s = (x, s') /\ bytes_of s' = b.
Proof.
  intros Hs. destruct (ReadN_app s 1 [x] b Hs eq_refl) as (s' & E & Hs'). exists s'. unfold ReadU8. rewrite E. split; [|exact Hs'].
  unfold be_word. cbn. now rewrite Z.add_0_r.
Qed.

(** The compressed data gathered so far. *)
Record gathered (l : Loader) (data : list Z) : Prop := {
  g_size : m_IdatSize l = Z.of_nat (length data);
  g_data : take (length data) (m_CompressedData l) = data;
  g_room : Z.of_nat (length (m_CompressedData l)) < 2 ^ 31
}.
Definition same_header (l l' : Loader) : Prop :=
  m_Width l' = m_Width l /\ m_Height l' = m_Height l /\ m_Depth l' = m_Depth l /\ m_ColorType l' = m_ColorType l /\ m_ChannelCount l' = m_ChannelCount l.

Lemma idat_grow_spec fuel : forall c wanted, 0 < c < 2 ^ 31 -> wanted <= 2 ^ 30 -> wanted <= c * 2 ^ Z.of_nat fuel ->
  exists n, idat_grow fuel c wanted = Ok n /\ wanted <= n < 2 ^ 31 /\ c <= n.
Proof.
  induction fuel as [|fuel IH]; intros c wanted Hc Hw Hf; cbn [idat_grow]; destruct (Z.ltb_spec c wanted) as [Hlt|Hge];
    try (exists c; split_and!; trivial; lia).
  assert (E : u64 (c .<< 1) = c * 2) by (rewrite Z.shiftl_mul_pow2 by lia; change (2 ^ 1) with 2; apply u64_small; lia). rewrite E.
  destruct (IH (c * 2) wanted) as (n & -> & H1 & H2); [lia|trivial| |].
  { replace (Z.of_nat (S fuel)) with (Z.succ (Z.of_nat fuel)) in Hf by lia. rewrite Z.pow_succ_r in Hf by lia. lia. }
  exists n. split_and!; trivial; lia.
Qed.
Lemma ParseIDAT_spec (s : St) l data bs rest : gathered l data -> m_ColorType l <> eIndexed -> bytes_of s = bs ++ rest ->
  Z.of_nat (length (data ++ bs)) <= 2 ^ 30 ->
  exists l' s', ParseIDAT fresh s (Z.of_nat (length bs)) l = Ok (l', s') /\ bytes_of s' = rest /\ gathered l' (data ++ bs) /\ same_header l l'.
Proof.
  intros [Hsz Hd Hroom] Hct Hs Hb. rewrite length_app in Hb. unfold ParseIDAT. rewrite (proj2 (Z.eqb_neq _ _) Hct). cbn [andb].
  change (1 .<< 30) with (2 ^ 30). destruct (Z.ltb_spec (2 ^ 30) (Z.of_nat (length bs))); [lia|]. rewrite !i32_small by lia.
  destruct (Z.ltb_spec (m_IdatSize l + Z.of_nat (length bs)) (m_IdatSize l)); [lia|].
  assert (Hle : (length data <= length (m_CompressedData l))%nat) by (rewrite <- Hd at 1; rewrite length_take; lia).
  set (size := Z.of_nat (length (m_CompressedData l))) in *.
  assert (Hgrow : exists buf, (if size <? m_IdatSize l + Z.of_nat (length bs) then
      let! newSize := idat_grow 64 (if size =? 0 then (if 4096 <? Z.of_nat (length bs) then Z.of_nat (length bs) else 4096) else size) (m_IdatSize l + Z.of_nat (length bs)) in
      Ok (m_CompressedData l ++ drop (length (m_CompressedData l)) (fresh (Z.to_nat newSize))) else Ok (m_CompressedData l)) = Ok buf
      /\ take (length data) buf = data /\ Z.of_nat (length data) + Z.of_nat (length bs) <= Z.of_nat (length buf) < 2 ^ 31).
  { destruct (Z.ltb_spec size (m_IdatSize l + Z.of_nat (length bs))) as [Hlt|Hge]; [|exists (m_CompressedData l); split_and!; trivial; unfold size in *; lia].
    set (c0 := if size =? 0 then _ else size).
    assert (Hc0 : 0 < c0 < 2 ^ 31 /\ size <= c0 /\ m_IdatSize l + Z.of_nat (length bs) <= c0 * 2 ^ Z.of_nat 64).
    { unfold c0. change (Z.of_nat 64) with 64. destruct (Z.eqb_spec size 0); [destruct (Z.ltb_spec 4096 (Z.of_nat (length bs)))|]; unfold size in *; lia. }
    destruct (idat_grow_spec 64 c0 (m_IdatSize l + Z.of_nat (length bs))) as (n & -> & Hn & Hcn); [lia|lia|lia|]. cbn [bind].
    eexists. split; [reflexivity|]. assert (Hlen : length (m_CompressedData l ++ drop (length (m_CompressedData l)) (fresh (Z.to_nat n))) = Z.to_nat n).
    { rewrite length_app, length_drop, fresh_length. unfold size in *. lia. }
    rewrite Hlen. split; [rewrite take_app_le by lia; exact Hd|lia]. }
  destruct Hgrow as (buf & -> & Hbuf & Hlen). cbn [bind]. rewrite Nat2Z.id.
  destruct (ReadN_app s (length bs) bs rest Hs eq_refl) as (s' & -> & Hs'). eexists _, s'. split; [reflexivity|]. split; [exact Hs'|]. split; [|now split_and!].
  split; cbn [m_IdatSize m_CompressedData with_data].
  - rewrite length_app. lia.
  - rewrite Hsz, Nat2Z.id, length_app. unfold splice. rewrite Hbuf. rewrite List.app_assoc, take_app_le by (rewrite length_app; lia).
    apply take_ge. rewrite length_app. lia.
  - rewrite Hsz, Nat2Z.id, splice_length by lia. lia.
Qed.

Lemma chunk_loop_spec cs : Forall chunk_ok cs -> forall (s : St) l data rest,
  bytes_of s = concat (chunk_bytes <$> cs) ++ chunk_bytes (mkChunk eIEND [] 0) ++ rest -> gathered l data -> m_ColorType l <> eIndexed ->
  Z.of_nat (length (data ++ idat cs)) <= 2 ^ 30 ->
  exists l' s', chunk_loop fresh (S (length cs)) s l = Ok (l', s') /\ gathered l' (data ++ idat cs) /\ same_header l l'.
Proof.
  induction 1 as [|c cs (Ht & Hcrc & Hlen & Hby & Hkind) _ IH]; intros s l data rest Hs Hg Hct Htotal.
  - unfold chunk_bytes in Hs. cbn [fmap list_fmap concat c_data c_type c_crc length app] in Hs. change (Z.of_nat 0) with 0 in Hs. rewrite <- !List.app_assoc in Hs.
    cbn [length chunk_loop]. destruct (ReadU32_app s 0 _ ltac:(by_computation) Hs) as (s1 & -> & Hs1).
    destruct (ReadU32_app s1 eIEND _ ltac:(by_computation) Hs1) as (s2 & -> & Hs2). change (ParseChunk fresh s2 0 eIEND l) with (Ok (l, s2)). cbn [bind].
    destruct (ReadU32 s2) as [x s3]. exists l, s3. rewrite Z.eqb_refl. split_and!; trivial; [|now split_and!]. unfold idat. cbn. now rewrite app_nil_r.
  - cbn [fmap list_fmap concat] in Hs. unfold chunk_bytes at 1 in Hs. rewrite <- !List.app_assoc in Hs. cbn [length]. set (k := S (length cs)) in *. cbn [chunk_loop].
    destruct (ReadU32_app s (Z.of_nat (length (c_data c))) _ ltac:(unfold in_u; lia) Hs) as (s1 & -> & Hs1).
    destruct (ReadU32_app s1 (c_type c) _ Ht Hs1) as (s2 & -> & Hs2).
    assert (Hidat : idat (c :: cs) = (if decide (c_type c = eIDAT) then c_data c else []) ++ idat cs) by (unfold idat; rewrite filter_cons; now destruct (decide _)).
    assert (Hstep : exists l1 s3, ParseChunk fresh s2 (Z.of_nat (length (c_data c))) (c_type c) l = Ok (l1, s3)
      /\ bytes_of s3 = be_bytes 4 (c_crc c) ++ concat (chunk_bytes <$> cs) ++ chunk_bytes (mkChunk eIEND [] 0) ++ rest
      /\ gathered l1 (data ++ if decide (c_type c = eIDAT) then c_data c else []) /\ same_header l l1 /\ (c_type c =? eIEND) = false).
    { destruct (decide (c_type c = eIDAT)) as [E|Hne].
      - rewrite E. change (ParseChunk fresh s2 (Z.of_nat (length (c_data c))) eIDAT l) with (ParseIDAT fresh s2 (Z.of_nat (length (c_data c))) l).
        destruct (ParseIDAT_spec s2 l data (c_data c) _ Hg Hct Hs2) as (l1 & s3 & E1 & E2 & E3 & E4); [rewrite Hidat in Htotal; rewrite !length_app in *; lia|].
        exists l1, s3. split_and!; trivial.
      - destruct Hkind as [|[Htr Hanc]]; [easy|].
        assert (Hno : forall t, t .& (1 .<< 29) = 0 -> (c_type c =? t) = false) by (intros t H; apply Z.eqb_neq; intros E; rewrite E in Hanc; easy).
        unfold ParseChunk. rewrite (Hno eCgBI eq_refl), (Hno eIHDR eq_refl), (Hno ePLTE eq_refl), (Hno eIDAT eq_refl), (Hno eIEND eq_refl), (proj2 (Z.eqb_neq _ _) Htr). rewrite (proj2 (Z.eqb_neq _ _) Hanc). rewrite Nat2Z.id.
        eexists _, _. split; [reflexivity|]. split; [|split; [now rewrite app_nil_r|split; [unfold same_header; now split_and!|reflexivity]]].
        rewrite Skip_spec by (rewrite Hs2, length_app; lia). rewrite Hs2, drop_app_length. reflexivity. }
    destruct Hstep as (l1 & s3 & -> & Hs3 & Hg1 & Hh1 & Hend). cbn [bind]. destruct (ReadU32_app s3 (c_crc c) _ Hcrc Hs3) as (s4 & -> & Hs4). rewrite Hend.
    rewrite Hidat, List.app_assoc in Htotal |- *. destruct Hh1 as (A1 & A2 & A3 & A4 & A5).
    destruct (IH s4 l1 _ rest Hs4 Hg1 ltac:(congruence) Htotal) as (l' & s' & -> & Hg' & B1 & B2 & B3 & B4 & B5).
    exists l', s'. split_and!; trivial. split_and!; congruence.
Qed.

Lemma ParseIHDR_spec (s : St) (w h : nat) rest : (0 < w)%nat -> (0 < h)%nat -> Z.of_nat w < 2 ^ 31 -> Z.of_nat h < 2 ^ 31 ->
  bytes_of s = c_data (header_chunk (Z.of_nat w) (Z.of_nat h) 0) ++ rest ->
  exists s', ParseIHDR s 13 new_Loader = Ok (mkLoader (Z.of_nat w) (Z.of_nat h) 8 eTrueColorWithAlpha 0 4 [] [] 0, s') /\ bytes_of s' = rest.
Proof.
  intros Hw Hh Hw31 Hh31 Hs. cbn [c_data header_chunk] in Hs. rewrite <- !List.app_assoc in Hs. unfold ParseIHDR. change (negb (13 =? 13)) with false. cbn iota.
  destruct (ReadU32_app s (Z.of_nat w) _ ltac:(unfold in_u; lia) Hs) as (s1 & -> & Hs1).
  destruct (ReadU32_app s1 (Z.of_nat h) _ ltac:(unfold in_u; lia) Hs1) as (s2 & -> & Hs2). rewrite !i32_small by lia.
  destruct (Z.eqb_spec (Z.of_nat w) 0); [lia|]. destruct (Z.eqb_spec (Z.of_nat h) 0); [lia|]. destruct (Z.ltb_spec (2 ^ 31 - 1) (Z.of_nat w)); [lia|].
  destruct (Z.ltb_spec (2 ^ 31 - 1) (Z.of_nat h)); [lia|]. cbn [orb]. cbn [app] in Hs2.
  destruct (ReadU8_app s2 _ _ Hs2) as (s3 & -> & Hs3). change (16 <? 8) with false. rewrite (proj2 (IsPowerOfTwo_spec 8) ltac:(exists 3; split; [lia|reflexivity])). cbn [negb orb].
  destruct (ReadU8_app s3 _ _ Hs3) as (s4 & -> & Hs4). change (ColorType_eCount <=? eTrueColorWithAlpha) with false. cbn iota.
  change (negb (existsb (Z.eqb 8) (nth (Z.to_nat eTrueColorWithAlpha) validDepthsForColorType []))) with false. cbn iota.
  destruct (ReadU8_app s4 _ _ Hs4) as (s5 & -> & Hs5). change (negb (eDeflate =? eDeflate)) with false. cbn iota.
  destruct (ReadU8_app s5 _ _ Hs5) as (s6 & -> & Hs6). change (negb (0 =? 0)) with false. cbn iota.
  destruct (ReadU8_app s6 _ _ Hs6) as (s7 & -> & Hs7). change (InterlaceMethod_eCount <=? 0) with false. cbn iota. now exists s7.
Qed.

Context (bit_stream : list Z -> Str) (header_method : Z -> Z) (header_dictionary : Z -> bool) (header_data : Z -> Z) (stack : Locals) (inflate_fuel : nat).
Notation inflates := (inflate fresh bit_stream header_method header_dictionary header_data stack inflate_fuel).

Lemma Loader_loads rows (w : nat) cs : rows_ok w rows -> rows <> [] -> (0 < w)%nat -> Z.of_nat (4 * w) * Z.of_nat (length rows) < 2 ^ 31 ->
  Forall chunk_ok cs -> idat cs <> [] -> Z.of_nat (length (idat cs)) <= 2 ^ 30 ->
  inflates (idat cs) (Z.of_nat (length (idat cs))) ((4 * Z.of_nat w + 2) * Z.of_nat (length rows)) = Ok (Some (scanlines 4 [] rows)) ->
  exists l, Loader_LoadFromMemory (St := St) fresh bit_stream header_method header_dictionary header_data stack inflate_fuel (S (length cs)) (png_file (Z.of_nat w) (Z.of_nat (length rows)) cs)
    = Ok (l, picture rows) /\ m_Width l = Z.of_nat w /\ m_Height l = Z.of_nat (length rows).
Proof.
  intros Hok Hne Hw Hsize Hcs Hidat Htotal Hinf. assert (Hh : (0 < length rows)%nat) by (destruct rows; [easy|cbn; lia]).
  assert (Hw31 : Z.of_nat w < 2 ^ 31) by nia. assert (Hh31 : Z.of_nat (length rows) < 2 ^ 31) by nia.
  unfold Loader_LoadFromMemory. pose proof (stream_of_spec (St := St) (png_file (Z.of_nat w) (Z.of_nat (length rows)) cs)) as Hs0.
  unfold png_file at 2 in Hs0. unfold chunk_bytes at 1 in Hs0. rewrite <- !List.app_assoc in Hs0.
  destruct (ReadN_app _ 8 SIGNATURE _ Hs0 eq_refl) as (s1 & -> & Hs1). rewrite bool_decide_eq_true_2 by reflexivity. cbn [negb].
  change (Z.of_nat (length (c_data (header_chunk (Z.of_nat w) (Z.of_nat (length rows)) 0)))) with 13 in Hs1.
  destruct (ReadU32_app s1 13 _ ltac:(by_computation) Hs1) as (s2 & -> & Hs2).
  destruct (ReadU32_app s2 eIHDR _ ltac:(by_computation) Hs2) as (s3 & -> & Hs3). rewrite Z.eqb_refl. cbn [negb].
  destruct (ParseIHDR_spec s3 w (length rows) _ Hw Hh Hw31 Hh31 Hs3) as (s4 & -> & Hs4). cbn [bind].
  destruct (ReadU32_app s4 0 _ ltac:(by_computation) Hs4) as (s5 & -> & Hs5).
  set (l0 := mkLoader _ _ _ _ _ _ _ _ _).
  destruct (chunk_loop_spec cs Hcs s5 l0 [] [] ltac:(rewrite Hs5; now rewrite app_nil_r)) as (l & s6 & -> & Hg & Hl1 & Hl2 & Hl3 & _ & Hl5);
    [split; [reflexivity|reflexivity|by_computation]|discriminate|exact Htotal|]. cbn [bind app] in *. destruct Hg as [Hsz Hdata Hroom].
  assert (Hpos : (0 < length (idat cs))%nat) by (destruct (idat cs); [easy|cbn; lia]).
  assert (Hlc : (length (idat cs) <= length (m_CompressedData l))%nat) by (rewrite <- Hdata at 1; rewrite length_take; lia).
  destruct (Z.eqb_spec (Z.of_nat (length (m_CompressedData l))) 0); [lia|].
  rewrite Hl1, Hl2, Hl3, Hl5. cbn [m_Width m_Height m_Depth m_ChannelCount l0].
  assert (Hst : u64 (u64 (DivRoundUp (u64 (4 * Z.of_nat w * 8 + 7)) 8 + 1) * Z.of_nat (length rows)) = (4 * Z.of_nat w + 2) * Z.of_nat (length rows)).
  { rewrite (u64_small (4 * Z.of_nat w * 8 + 7)) by lia. pose proof (DivRoundUp_spec (4 * Z.of_nat w * 8 + 7) 8 ltac:(lia) ltac:(lia)) as HD.
    replace (DivRoundUp (4 * Z.of_nat w * 8 + 7) 8) with (4 * Z.of_nat w + 1) by lia. rewrite (u64_small (4 * Z.of_nat w + 1 + 1)) by lia. rewrite u64_small by nia. lia. }
  rewrite Hst. assert (Hsame : inflates (m_CompressedData l) (m_IdatSize l) ((4 * Z.of_nat w + 2) * Z.of_nat (length rows)) = Ok (Some (scanlines 4 [] rows))).
  { rewrite <- Hinf, Hsz. unfold inflate. now rewrite Nat2Z.id, Hdata, take_ge by lia. }
  rewrite Hsame. cbn [bind]. rewrite (Defilter_rows fresh fresh_length l w) by (trivial; congruence). cbn [bind].
  rewrite bool_decide_eq_false_2 by (intros E; apply (f_equal length) in E; rewrite (picture_length w) in E by trivial; cbn in E; lia).
  exists l. now rewrite Hl1, Hl2.
Qed.

(** The data inflates to the bytes its tokens stand for. *)
Lemma inflates_stream blocks bits rest data out room : zlib_stream header_method header_dictionary header_data (bit_stream data) (bits ++ rest) ->
  encode_stream blocks = Some bits -> (16 <= length rest)%nat -> expand [] (concat blocks) = Some out -> Z.of_nat (length out) < room < 2 ^ 64 ->
  (length (concat blocks) + length blocks <= inflate_fuel)%nat -> inflates data (Z.of_nat (length data)) room = Ok (Some out).
Proof.
  intros Hz He Hr Hx Hroom Hf. unfold inflate. rewrite Nat2Z.id, take_ge by lia.
  destruct (Decompress_inflates fresh stack fresh_length header_method header_dictionary header_data blocks (bit_stream data) bits rest out inflate_fuel new_Decompressor (Z.of_nat (length data)) room) as (d' & buf & -> & Hbuf & Ht); trivial; [split; apply new_tree_shaped|].
  cbn [bind]. now rewrite Hbuf, Ht.
Qed.

(** C26: a file with a picture of four channels of eight bits, not interlaced, is loaded as that picture.  The
    rows may use any filters; the filtered rows may be compressed by any literals and matches, in any number
    of blocks with the fixed codes, behind a header that the decompressor accepts; the compressed data may be
    split into any number of chunks with ignorable chunks between them (no palette and no transparency).
    The image has the size of the picture and its pixels, red and blue exchanged and alpha set to
    zero for the framebuffer. *)
Theorem LoadFromMemory_roundtrip rows (w : nat) cs blocks bits rest : rows_ok w rows -> rows <> [] -> (0 < w)%nat -> Z.of_nat (4 * w) * Z.of_nat (length rows) < 2 ^ 31 ->
  Forall chunk_ok cs -> Z.of_nat (length (idat cs)) <= 2 ^ 30 ->
  idat cs <> [] -> zlib_stream header_method header_dictionary header_data (bit_stream (idat cs)) (bits ++ rest) -> (16 <= length rest)%nat ->
  encode_stream blocks = Some bits -> expand [] (concat blocks) = Some (scanlines 4 [] rows) -> (length (concat blocks) + length blocks <= inflate_fuel)%nat ->
  Image_LoadFromMemory (St := St) fresh bit_stream header_method header_dictionary header_data stack inflate_fuel (S (length cs)) (png_file (Z.of_nat w) (Z.of_nat (length rows)) cs)
    = Ok (mkImage (bgr (picture rows)) (Z.of_nat w) (Z.of_nat (length rows)) (4 * Z.of_nat w) 32).
Proof.
  intros Hok Hne Hw Hsize Hcs Htotal Hidat Hz Hr He Hx Hf. assert (Hh : (0 < length rows)%nat) by (destruct rows; [easy|cbn; lia]). assert (Hw31 : Z.of_nat (4 * w) < 2 ^ 31) by nia.
  destruct (Loader_loads rows w cs Hok Hne Hw Hsize Hcs Hidat Htotal) as (l & E & Hlw & Hlh).
  { apply (inflates_stream blocks bits rest); trivial. rewrite (scanlines_length w) by trivial. nia. }
  unfold Image_LoadFromMemory. rewrite E. cbn [bind]. rewrite Hlw, Hlh. rewrite !u64_small by nia.
  replace (Z.to_nat (Z.of_nat w * Z.of_nat (length rows))) with (w * length rows)%nat by lia.
  pose proof (convert_loop_spec (w * length rows) [] (picture rows) ltac:(rewrite (picture_length w) by trivial; lia) (picture_bytes w rows Hok)) as HC.
  cbn [app length] in HC. change (Z.of_nat 0) with 0 in HC. rewrite HC. cbn [bind]. rewrite i32_small by lia. do 2 f_equal. lia.
Qed.
End Files.

(** ** Samples *)
Definition zeros (n : nat) : list Z := replicate n 0.
Definition bits_of_byte (x : Z) : list bool := (fun i => Z.testbit x (Z.of_nat i)) <$> seq 0 8.
Fixpoint bytes_of_bits (fuel : nat) (bits : list bool) : list Z :=
  match fuel, bits with
  | S fuel, _ :: _ => le_value (take 8 bits) :: bytes_of_bits fuel (drop 8 bits)
  | _, _ => []
  end.
Definition sample_bit_stream (data : list Z) : BoolStream := mkBools 0 (concat (bits_of_byte <$> data)).
(** The fields of the two bytes in front of the stream. *)
Definition sample_method (header : Z) : Z := header .& 15.
Definition sample_dictionary (header : Z) : bool := Z.testbit header 13.
Definition sample_header_data (header : Z) : Z := ((header .& 255) .<< 8) .| (header .>> 8).
(** A stream of literals. *)
Definition deflated (data : list Z) : list Z :=
  let bits := default [] (encode_stream [Literal <$> data]) ++ replicate 32 false in
  [0x78; 0x01] ++ bytes_of_bits (length bits) bits.
Definition load_sample (fuel : nat) (data : list Z) : Outcome Image :=
  Image_LoadFromMemory zeros sample_bit_stream sample_method sample_dictionary sample_header_data no_locals 100 fuel data.

Definition sample_rows : list (FilterType * list Z) := [(eSub, [1; 2; 3; 4; 11; 12; 13; 14]); (ePaeth, [21; 250; 23; 24; 31; 32; 33; 34])].
Definition sample_tokens : list (list Token) := [Literal <$> scanlines 4 [] sample_rows].
Definition sample_chunks : list FileChunk :=
  let data := deflated (scanlines 4 [] sample_rows) in
  [mkChunk (ToChunkType 0x67 0x41 0x4d 0x41) [0; 0; 177; 143] 7; mkChunk eIDAT (take 11 data) 8; mkChunk eIDAT (drop 11 data) 9].

Lemma UnfilterScanline_inverts_witness :
  UnfilterScanline ([1; 2; 3; 4; 9] ++ filter_row ePaeth 2 [2; 3; 4] [250; 7; 80] ++ [5]) 5 (Some 1) 2 3 ePaeth = Ok ([1; 2; 3; 4; 9] ++ [250; 7; 80] ++ [5]).
Proof.
  apply (UnfilterScanline_inverts ePaeth 2 [1; 2; 3; 4; 9] (Some 1) [2; 3; 4] [250; 7; 80] [5]).
  - repeat constructor; cbv; congruence.
  - exists [1], [9]. now split_and!.
  - lia.
Defined.

Lemma sample_chunks_ok : Forall chunk_ok sample_chunks.
Proof.
  assert (H : forallb (fun c => (0 <=? c_type c) && (c_type c <? 2 ^ 32) && (0 <=? c_crc c) && (c_crc c <? 2 ^ 32) && (Z.of_nat (length (c_data c)) <=? 2 ^ 30)
    && forallb (fun x => (0 <=? x) && (x <? 256)) (c_data c) && ((c_type c =? eIDAT) || (negb (c_type c =? etRNS) && negb ((c_type c .& (1 .<< 29)) =? 0)))) sample_chunks = true) by (vm_compute; reflexivity).
  rewrite forallb_forall in H. rewrite List.Forall_forall. intros c Hc. apply H in Hc.
  rewrite !andb_true_iff, orb_true_iff, andb_true_iff, !negb_true_iff, !Z.leb_le, !Z.ltb_lt, Z.eqb_eq, !Z.eqb_neq, forallb_forall in Hc.
  destruct Hc as ((((((H1 & H2) & H3) & H4) & H5) & H6) & H7). unfold chunk_ok, in_u. do 4 (split; [try (split; trivial); trivial|]); [|exact H7].
  apply List.Forall_forall. intros x Hx. apply H6 in Hx.
  apply andb_true_iff in Hx as [Ha Hb]. apply Z.leb_le in Ha. apply Z.ltb_lt in Hb. now split.
Qed.

Lemma LoadFromMemory_roundtrip_witness :
  Image_LoadFromMemory zeros sample_bit_stream sample_method sample_dictionary sample_header_data no_locals 100 (S (length sample_chunks))
    (png_file (Z.of_nat 2) (Z.of_nat (length sample_rows)) sample_chunks)
  = Ok (mkImage (bgr (picture sample_rows)) (Z.of_nat 2) (Z.of_nat (length sample_rows)) (4 * Z.of_nat 2) 32)
  /\ bgr (picture sample_rows) = [3; 2; 1; 0; 13; 12; 11; 0; 23; 250; 21; 0; 33; 32; 31; 0].
Proof.
  split; [|reflexivity].
  apply (LoadFromMemory_roundtrip zeros (fun n => length_replicate n 0) sample_bit_stream sample_method sample_dictionary sample_header_data no_locals 100 sample_rows 2 sample_chunks
    sample_tokens (default [] (encode_stream sample_tokens)) (drop (length (default [] (encode_stream sample_tokens))) (drop 16 (remaining (sample_bit_stream (idat sample_chunks)))))).
  - repeat constructor; cbv; congruence.
  - discriminate.
  - lia.
  - vm_compute. reflexivity.
  - exact sample_chunks_ok.
  - vm_compute. discriminate.
  - vm_compute. discriminate.
  - vm_compute. split_and!; reflexivity.
  - vm_compute. lia.
  - vm_compute. reflexivity.
  - vm_compute. reflexivity.
  - vm_compute. lia.
Defined.

(** ** Defects *)
(** A file with one chunk of data and a header of its own. *)
Definition file_of (header : list Z) (chunks : list FileChunk) : list Z :=
  SIGNATURE ++ chunk_bytes (mkChunk eIHDR header 0) ++ concat (chunk_bytes <$> chunks) ++ chunk_bytes (mkChunk eIEND [] 0).
Definition header_of (w h depth color : Z) : list Z := be_bytes 4 w ++ be_bytes 4 h ++ [depth; color; eDeflate; 0; 0].
Definition data_chunk (data : list Z) : FileChunk := mkChunk eIDAT (deflated data) 0.

(** With three channels the second row is not where it is unfiltered: the rows are written one
    after the other, the row is taken at the stride of four channels, so a picture of
    two grey rows comes out with coloured pixels in both of them. *)
Theorem three_channels_wrong_rows :
  load_sample 2 (file_of (header_of 2 2 8 eTrueColor) [data_chunk ([0; 50; 50; 50; 50; 50; 50] ++ [0; 90; 90; 90; 90; 90; 90])])
  = Ok (mkImage [50; 50; 50; 0; 90; 50; 50; 0; 90; 90; 90; 0; 0; 0; 90; 0] 2 2 8 32).
Proof. vm_compute. reflexivity. Qed.

(** The buffer of a picture has four bytes per pixel, the rows of a picture with sixteen bits per
    channel have eight: a well-formed picture of one pixel is written past the end of the buffer. *)
Theorem sixteen_bits_out_of_bounds :
  load_sample 2 (file_of (header_of 1 1 16 eTrueColorWithAlpha) [data_chunk [0; 1; 2; 3; 4; 5; 6; 7; 8]]) = OutOfBounds.
Proof. vm_compute. reflexivity. Qed.

(** The guard against sizes that are too large compares signed numbers with the largest one: a
    width of 2^31 and more is accepted as a negative width. *)
Theorem negative_width_accepted :
  exists l s, ParseIHDR (header_of 0xffffffff 1 8 eTrueColorWithAlpha) 13 new_Loader = Ok (l, s) /\ m_Width l = -1.
Proof. eexists _, _. split; [vm_compute; reflexivity|reflexivity]. Qed.

(** A transparency chunk of a colour picture is reported as parsed but not skipped: its bytes
    are taken for the next chunk, so a well-formed file is refused, while the file without the
    chunk is loaded. *)
Theorem transparency_chunk_breaks_file :
  let data := data_chunk [0; 50; 60; 70] in
  let header := header_of 1 1 8 eTrueColor in
  load_sample 2 (file_of header [data]) = Ok (mkImage [70; 60; 50; 0] 1 1 4 32)
  /\ load_sample 9 (file_of header [mkChunk etRNS [0; 0; 0; 0; 0; 0] 0; data]) = Failed.
Proof. vm_compute. split; reflexivity. Qed.
