(* ===== verification/MemoryCalls.v ===== *)
(** * Memory of processes and of the kernel

    [API/MM.cpp] (mmap, mprotect, munmap), [Memory/MM.cpp] (regions with frames, page faults),
    [Memory/Region.cpp] and the allocation of kernel addresses of [Memory/VMM.cpp].

    The state is the machine of [ExecutableProgram]: page map, frames, physical memory and address
    space.  For the calls of a process it is the page map and the address space of that process,
    for the kernel's own regions those of the kernel, with the next free kernel address.  A region
    in the tree is shared: changing it is replacing the element of the tree. *)

From Stdlib Require Import ZArith Lia Bool.
From stdpp Require Import base gmap list numbers.
From S2P Require Import Prelude Prism PageTables PageTableProofs PageMap BitmapAllocator AddressSpace Posix Effects ExecutableProgram Process.

Module MemoryCalls.
Import Processes.

(** ** [API/Posix/sys/mman.h] *)
Definition MAP_FAILED : Z := 2 ^ 64 - 1.
Definition MAP_SHARED : Z := 0x01.
Definition MAP_FIXED : Z := 0x10.
Definition MAP_ANONYMOUS : Z := 0x20.
Definition MAP_DENYWRITE : Z := 0x800.
Definition MAP_EXECUTABLE : Z := 0x1000.
Definition MAP_HUGE_2MB : Z := 21 .<< 26.
Definition MAP_HUGE_1GB : Z := 30 .<< 26.

(** ** Regions *)
Definition SetPhysicalBase (phys : Z) (r : Region) : Region := mkRegion (m_VirtualRange r) phys (m_Access r) (m_Fd r).
Definition SetAccessMode (access : Z) (r : Region) : Region := mkRegion (m_VirtualRange r) (m_PhysicalBase r) access (m_Fd r).
(** Reading, writing and executing are added whatever the access mode. *)
Definition Region_PageAttributes (r : Region) : Z :=
  let flags := attr eWriteBack in
  let flags := if IsReadable r then attr_or flags eRead else flags in
  let flags := if IsWriteable r then attr_or flags eWrite else flags in
  let flags := if IsExecutable r then attr_or flags eExecutable else flags in
  let flags := if truthy (m_Access r .& Access_eUser) then attr_or flags eUser else flags in
  attr_or (attr_or (attr_or flags eRead) eWrite) eExecutable.
Definition Prot2AccessFlags (prot : Z) : Z :=
  let access := Access_eUser in
  let access := if truthy (prot .& PROT_READ) then access .| Access_eRead else access in
  let access := if truthy (prot .& PROT_WRITE) then access .| Access_eWrite else access in
  if truthy (prot .& PROT_EXEC) then access .| Access_eExecute else access.

Section Calls.
Context {HH : HigherHalf} {H : Type} {TH : TableHeap H} {B : Type} {BM : Bitmap B} {PM : PrismMath}
  {T : Type} {RB : RedBlackTree T Region}.
Context (pagingMode : PagingMode) (s_1GibPages : bool) (topLevel : Z).
Notation MachineM := (M (Machine H B T)).

(** The element of the tree under the base of a region is changed. *)
Definition change_region (r : Region) : MachineM unit :=
  update (fun st => with_space (Insert (Erase (addressSpace st) (VirtualBase r)) (VirtualBase r) r) st).
Definition find_region (address : Z) : MachineM (option Region) := gets (fun st => Find (addressSpace st) address).

(** [PageMap::MapRegion] and [RemapRegion] of a region, with pages of 4096 bytes. *)
Definition map_region (r : Region) : MachineM bool :=
  st ← get;
  let '(ok, m) := MapRegion pagingMode s_1GibPages topLevel (pageMap st) (VirtualBase r) (m_PhysicalBase r) (Size r) (Region_PageAttributes r) 4096 in
  _ ← update (with_page_map m); mret ok.
Definition remap_region (r : Region) : MachineM bool :=
  st ← get;
  let '(ok, m) := RemapRegion pagingMode s_1GibPages topLevel (pageMap st) (VirtualBase r) (Size r) (Region_PageAttributes r) 0 in
  _ ← update (with_page_map m); mret ok.
Definition free_pages (phys count : Z) : MachineM unit := update (fun st => with_pmm (PMM.FreePages (pmm st) phys count) st).

(** ** System calls *)
Definition allocate_region (length alignment : Z) : MachineM (option Region) :=
  st ← get; let '(r, a) := AllocateRegion (addressSpace st) length alignment in _ ← update (with_space a); mret r.
Definition allocate_fixed (virt size : Z) : MachineM (option Region) :=
  st ← get; let '(r, a) := AllocateFixed (addressSpace st) virt size in _ ← update (with_space a); mret r.

(** Files are refused at the top, so the branch that maps them is never reached; the descriptor is
    only looked up.  [MAP_FAILED] is returned as an address. *)
Definition MMap (addr length prot flags fdNum offset : Z) : MachineM (Z + Z) :=
  if truthy (addr .& not64 GetAddressMask) then mret (inr (i64 MAP_FAILED))
  else
    let flags := i32 (flags .& not64 (MAP_EXECUTABLE .| MAP_DENYWRITE)) in
    if negb (truthy (flags .& MAP_ANONYMOUS)) then mret (inr (i64 MAP_FAILED))
    else
      let access := Prot2AccessFlags prot in
      if length =? 0 then mret (inl EINVAL)
      else
        let length := AlignUp length 4096 in
        let pageSize := if truthy (flags .& MAP_HUGE_2MB) then 0x200000 else if truthy (flags .& MAP_HUGE_1GB) then 0x40000000 else 4096 in
        if negb (offset =? 0) then mret (inl EINVAL)
        else
          region ← (if truthy (flags .& MAP_FIXED) then allocate_fixed addr length else allocate_region length pageSize);
          match region with
          | None => mret (inl ENOMEM)
          | Some region =>
              let region := SetAccessMode access region in
              _ ← change_region region;
              found ← find_region (VirtualBase region);
              _ ← Assert (bool_decide (VirtualBase <$> found = Some (VirtualBase region)));
              mret (inr (i64 (VirtualBase region)))
          end.

(** The test of the alignment uses the complement of the size itself. *)
Definition MProtect (virt length prot : Z) : MachineM (Z + Z) :=
  if truthy (virt .& not64 4096) then mret (inl EINVAL)
  else
    let length := AlignUp length 4096 in
    if length =? 0 then mret (inl EINVAL)
    else
      let regionEnd := u64 (virt + length) in
      if regionEnd <? virt then mret (inl EINVAL)
      else if virt =? regionEnd then mret (inr 0)
      else if truthy (i32 prot .& not64 (PROT_READ .| PROT_WRITE .| PROT_EXEC)) then mret (inl EINVAL)
      else
        region ← find_region virt;
        match region with
        | None => mret (inl EFAULT)
        | Some region =>
            let region := SetAccessMode (Prot2AccessFlags prot) region in
            _ ← change_region region;
            _ ← remap_region region;
            mret (inr 0)
        end.

(** [missing] is the container's answer for a key it does not have: an address inside a region. *)
Definition MUnMap (missing : Z -> T -> option Region * T) (virt length : Z) : MachineM (Z + Z) :=
  found ← find_region virt;
  match found with
  | None => mret (inl EINVAL)
  | Some _ =>
      st ← get;
      region ← (match find (fun kr : Z * Region => kr.1 =? virt) (tree_elements (m_RegionTree (addressSpace st))) with
                | Some (_, r) => mret r
                | None => let '(r, t) := missing virt (m_RegionTree (addressSpace st)) in
                          _ ← update (with_space (mkSpace t (m_TotalRange (addressSpace st)))); deref r
                end);
      _ ← free_pages (m_PhysicalBase region) (Size region / 4096);
      _ ← update (fun st => with_space (Erase (addressSpace st) virt) st);
      mret (inr 0)
  end.

(** ** Regions with frames *)
Definition access_of (access flags : Z) : Z :=
  let access := if truthy (attr_and flags eRead) then access .| Access_eRead else access in
  let access := if truthy (attr_and flags eWrite) then access .| Access_eWrite else access in
  if truthy (attr_and flags eExecutable) then access .| Access_eExecute else access.
Definition AllocateUserRegion (bytes flags : Z) : MachineM (option Region) :=
  region ← allocate_region bytes 0;
  match region with
  | None => mret None
  | Some region =>
      let pageCount := DivRoundUp bytes 4096 in
      phys ← CallocatePages pageCount;
      if phys =? 0 then mret None
      else
        let region := SetAccessMode (access_of Access_eUser flags) (SetPhysicalBase phys region) in
        _ ← change_region region;
        _ ← map_region region;
        mret (Some region)
  end.

(** ** Page faults *)
Definition eNotPresent : Z := 1 .<< 0.
Definition PageFaultReason_eWrite : Z := 1 .<< 1.
Definition PageFaultReason_eUser : Z := 1 .<< 2.
(** [operator|=] does not change its operand: the reason is what the variable held. *)
Definition reason_or (lhs rhs : Z) : Z := lhs.
Definition pageFaultReason (reason0 errorCode : Z) : Z :=
  let reason := reason0 in
  let reason := if negb (truthy (errorCode .& (1 .<< 0))) then reason_or reason (1 .<< 0) else reason in
  let reason := if truthy (errorCode .& (1 .<< 1)) then reason_or reason (1 .<< 1) else reason in
  let reason := if truthy (errorCode .& (1 .<< 2)) then reason_or reason (1 .<< 2) else reason in
  let reason := if truthy (errorCode .& (1 .<< 3)) then reason_or reason (1 .<< 3) else reason in
  let reason := if truthy (errorCode .& (1 .<< 4)) then reason_or reason (1 .<< 4) else reason in
  let reason := if truthy (errorCode .& (1 .<< 5)) then reason_or reason (1 .<< 5) else reason in
  let reason := if truthy (errorCode .& (1 .<< 6)) then reason_or reason (1 .<< 6) else reason in
  if truthy (errorCode .& (1 .<< 7)) then reason_or reason (1 .<< 7) else reason.

(** What becomes of the process: it goes on, it is ended, or nothing is done about the fault. *)
Inductive FaultResult := Resumed | Ended | Unhandled.
(** A process without a region there is told and ended, unless its message is refused as a buffer of
    the user; without a process, or in the kernel, the machine stops. *)
Definition HandlePageFault (process : bool) (IsHigherHalf : Z -> bool) (message : Z) (address reason : Z) : MachineM FaultResult :=
  let unresolved : MachineM FaultResult :=
    let kernelFault := negb (truthy (reason .& PageFaultReason_eUser)) in
    if process && negb kernelFault then
      if truthy message && IsHigherHalf message then mret Unhandled else mret Ended
    else panic in
  region ← (if process then find_region address else mret None);
  match region with
  | None => unresolved
  | Some region =>
      let pageCount := DivRoundUp (Size region) 4096 in
      phys ← CallocatePages pageCount;
      if phys =? 0 then unresolved
      else
        let region := SetPhysicalBase phys region in
        _ ← change_region region;
        _ ← map_region region;
        mret Resumed
  end.
Definition pageFault (process : bool) (IsHigherHalf : Z -> bool) (message reason0 : Z) (cr2 errorCode : Z) : MachineM FaultResult :=
  HandlePageFault process IsHigherHalf message cr2 (pageFaultReason reason0 errorCode).
End Calls.

(** ** The kernel's own regions *)
Section Kernel.
Context {HH : HigherHalf} {H : Type} {TH : TableHeap H} {B : Type} {BM : Bitmap B} {PM : PrismMath}
  {T : Type} {RB : RedBlackTree T Region}.
Context (pagingMode : PagingMode) (s_1GibPages : bool) (topLevel : Z).
Record Kernel := mkKernel { machine : Machine H B T; s_VirtualAddressSpace : Z }.
Notation KernelM := (M Kernel).
Definition on_machine {A} (m : M (Machine H B T) A) : KernelM A := fun k =>
  match m (machine k) with
  | Ret st a => Ret (mkKernel st (s_VirtualAddressSpace k)) a
  | Halted st => Halted (mkKernel st (s_VirtualAddressSpace k))
  | Panic => Panic
  | Diverges => Diverges
  end.

Definition AllocateSpace (increment alignment : Z) (lowerHalf : bool) : KernelM Z :=
  _ ← (Assert (alignment <=? 4096) : KernelM unit);
  let alignment := if alignment =? 0 then 8 else alignment in
  k ← (get : KernelM Kernel);
  let virt := AlignUp (s_VirtualAddressSpace k) alignment in
  _ ← update (fun k => mkKernel (machine k) (u64 (s_VirtualAddressSpace k + u64 (virt - s_VirtualAddressSpace k + increment))));
  mret (if lowerHalf then FromHigherHalf virt else ToHigherHalf virt).
Definition MapKernelRange (virt phys size attributes : Z) : KernelM bool :=
  on_machine (st ← get;
    let '(ok, m) := MapRange pagingMode s_1GibPages topLevel (pageMap st) virt phys size attributes in
    _ ← update (with_page_map m); mret ok).
Definition MapKernelRegion (virt phys pageCount attributes : Z) : KernelM bool := MapKernelRange virt phys (u64 (pageCount * 4096)) attributes.
Definition UnmapKernelRange (virt size flags : Z) : KernelM bool :=
  on_machine (st ← get;
    let '(ok, m) := UnmapRange pagingMode s_1GibPages topLevel (pageMap st) virt size flags in
    _ ← update (with_page_map m); mret ok).

(** Regions of every use but the user's. *)
Definition MM_AllocateRegion (bytes attributes : Z) : KernelM (option Region) :=
  let pageCount := DivRoundUp bytes 4096 in
  phys ← on_machine (CallocatePages pageCount);
  if phys =? 0 then mret None
  else
    virt ← AllocateSpace bytes 0 false;
    if virt =? 0 then _ ← on_machine (free_pages phys pageCount); mret None
    else
      let region := SetAccessMode (access_of 0 attributes) (new_Region phys virt (u64 (pageCount * 4096))) in
      ok ← MapKernelRegion (VirtualBase region) (m_PhysicalBase region) pageCount attributes;
      if negb ok then _ ← on_machine (free_pages phys pageCount); mret None
      else
        _ ← on_machine (update (fun st => with_space (Insert (addressSpace st) virt region) st));
        mret (Some region).

Definition AllocateDMACoherent (size flags : Z) : KernelM Region :=
  let pageCount := DivRoundUp size 4096 in
  pages ← on_machine (CallocatePages pageCount);
  virt ← AllocateSpace (u64 (pageCount * 4096)) 0x1000 true;
  ok ← MapKernelRegion virt pages pageCount flags;
  _ ← Assert ok;
  mret (SetAccessMode (Access_eRead .| Access_eWrite) (new_Region pages virt (u64 (pageCount * 4096)))).
Definition FreeDMA_Region (region : Region) : KernelM bool := UnmapKernelRange (VirtualBase region) (Size region) 0.
Definition VMM_MapIoRegion (phys size : Z) (write : bool) (alignment : Z) : KernelM Z :=
  virt ← AllocateSpace size alignment true;
  let attributes := attr_or eRead eUncacheableStrong in
  let attributes := if write then attr_or attributes eWrite else attributes in
  ok ← (MapKernelRange virt phys size attributes : KernelM bool);
  if (ok : bool) then mret virt else mret 0.
End Kernel.
Arguments Kernel : clear implicits.
Arguments mkKernel {H B T}.
End MemoryCalls.
