(* ===== verification/MemoryCallTheorems.v ===== *)
(** * Memory of processes and of the kernel: theorems

    Memory a process maps reads as zeros from the first access on, unless released memory left a
    translation there, and touching it disturbs nothing else; in
    every history of mappings, faults and releases the regions of a process stay disjoint and no
    frame backs two of them; and the defects: releases that leave the translation, protection that
    is refused or ignored, faults whose reason is lost, kernel regions that share a page. *)

From Stdlib Require Import ZArith Lia Bool.
From stdpp Require Import base gmap list numbers.
From S2P Require Import Prelude Prism PageTables PageTableProofs PageMap PageMapTheorems BitmapAllocator BitmapAllocatorProofs PhysicalMemory AddressSpace AddressSpaceProofs Posix Effects ExecutableProgram ProgramTheorems LoaderTheorems Process MemoryCalls.

Import Processes MemoryCalls.

(** ** Attributes *)
Definition user_region (r : Region) : Prop := truthy (m_Access r .& Access_eUser) = true.
(** Every region of a process is mapped for reading, writing and executing. *)
Lemma attributes_user r : user_region r -> Region_PageAttributes r = user_attributes.
Proof. intros E. unfold Region_PageAttributes. rewrite E. now destruct (IsReadable r), (IsWriteable r), (IsExecutable r). Qed.
Lemma Prot2AccessFlags_user prot : truthy (Prot2AccessFlags prot .& Access_eUser) = true.
Proof. unfold Prot2AccessFlags. now destruct (truthy (prot .& PROT_READ)), (truthy (prot .& PROT_WRITE)), (truthy (prot .& PROT_EXEC)). Qed.

(** ** Regions that change *)
Section Space.
Context {T : Type} {RB : RedBlackTree T Region} {PM : PrismMath}.
Implicit Types a : AddressSpace T.
Definition changed a r : AddressSpace T := Insert (Erase a (VirtualBase r)) (VirtualBase r) r.

Lemma changed_ok a r0 r : space_ok a -> r0 ∈ regions a -> m_VirtualRange r = m_VirtualRange r0 ->
  space_ok (changed a r) /\ forall r', r' ∈ regions (changed a r) <-> r' = r \/ (r' ∈ regions a /\ VirtualBase r' <> VirtualBase r).
Proof.
  intros Hok Hr0 Hrange. assert (Hv : VirtualBase r = VirtualBase r0) by (unfold VirtualBase; now rewrite Hrange). assert (Hs : Size r = Size r0) by (unfold Size; now rewrite Hrange).
  destruct (Erase_spec a (VirtualBase r) Hok) as [Hok1 Hin1]. pose proof (regions_ok a r0 Hok Hr0) as Hreg.
  destruct (Insert_ok (Erase a (VirtualBase r)) r Hok1) as [Hok2 Hin2].
  - unfold region_ok in *. now rewrite Hv, Hs.
  - intros r' [Hr' Hne]%Hin1. pose proof (ok_apart a Hok (VirtualBase r0) r0 (VirtualBase r') r') as Hap.
    unfold apart in *. rewrite Hv, Hs in *. apply Hap; [now apply elem_regions|now apply elem_regions|congruence].
  - split; [exact Hok2|]. intros r'. unfold changed. rewrite Hin2, Hin1. tauto.
Qed.
Lemma Find_owner a r x : space_ok a -> r ∈ regions a -> owns r x -> Find a x = Some r.
Proof.
  intros Hok Hr Ho. pose proof (Find_spec a x Hok) as HF. destruct (Find a x) as [r'|]; [|now destruct (HF r Hr)].
  destruct HF as (_ & _ & Hu). now rewrite (Hu r Hr Ho).
Qed.
Lemma AllocateRegion_physical a length alignment r a' : AllocateRegion a length alignment = (Some r, a') -> m_PhysicalBase r = 0.
Proof.
  unfold AllocateRegion. destruct (scan _ _ _ _ _) as [x []]; [intros [= <- _]; reflexivity|]. destruct (IsAvailable _ _ _); [intros [= <- _]; reflexivity|discriminate].
Qed.
Lemma owns_base r : region_ok r -> owns r (VirtualBase r).
Proof. intros (_ & H & _). unfold owns. lia. Qed.
End Space.

Section Process.
Context {HH : HigherHalf} {H : Type} {TH : TableHeap H} {B : Type} {BM : Bitmap B} {PM : PrismMath}
  {T : Type} {RB : RedBlackTree T Region}.
Variables (pm : PagingMode) (gib : bool) (top hhdm : Z).
Hypothesis direct_map_linear : forall p, 0 <= p < 2 ^ 46 -> ToHigherHalf p = p + hhdm.
Notation Machine := (Machine H B T).
Implicit Types st : Machine.
Context (IsHigherHalf : Z -> bool) (message : Z).
Notation HandlePageFault := (HandlePageFault (T:=T) pm gib top true IsHigherHalf message).

Lemma map_region_user r st : user_region r ->
  map_region pm gib top r st = map_range (T:=T) pm gib top (VirtualBase r) (m_PhysicalBase r) (Size r) st.
Proof. intros E. unfold map_region, map_range, MapRegion. rewrite attributes_user by exact E. reflexivity. Qed.

(** ** A fault in a region *)
(** What handling a fault in region [r] leaves: [np] fresh frames from [p] on behind it, all zeros;
    the rest of the user half is as it was. *)
Record fault_resolved st st' (r : Region) (p np : Z) : Prop := {
  v_block : block pm top hhdm st' (VirtualBase r) p np (fun _ => 0);
  v_free j : p <= j < p + np -> used st j = false;
  v_used j : 0 <= j < page_count (alloc st) -> used st' j = if decide (p <= j < p + np) then true else used st j;
  v_out w : 0 <= w < 2 ^ 47 -> ~ owns r w -> sees pm top st' w = sees pm top st w;
  v_blocks u q nq c : block pm top hhdm st u q nq c -> 0 <= u -> u + nq * 4096 <= 2 ^ 47 ->
    (forall off, 0 <= off < nq * 4096 -> ~ owns r (u + off)) -> block pm top hhdm st' u q nq c;
  v_space : addressSpace st' = changed (addressSpace st) (SetPhysicalBase (p * 4096) r)
}.

Lemma fault_run n st r np address reason : ready pm top ((depth pm - 1) * Z.to_nat np + n) st -> space_ok (addressSpace st) -> r ∈ regions (addressSpace st) ->
  owns r address -> user_region r -> (4096 | VirtualBase r) -> Size r = np * 4096 -> VirtualBase r + Size r <= 2 ^ 47 -> (PMM.AllocatePages (pmm st) np).1 <> 0 ->
  exists st' p, HandlePageFault address reason st = Ret st' Resumed /\ ready pm top n st' /\ fault_resolved st st' r p np.
Proof.
  intros Hr Hok Hin Ho Hu Hal Hsz Hend Hne. destruct (regions_ok _ _ Hok Hin) as (Hv0 & Hs0 & _). assert (Hnp : 0 < np) by lia.
  unfold MemoryCalls.HandlePageFault. unfold find_region at 1. rewrite gets_ret, (Find_owner _ r) by trivial.
  assert (Hpc : DivRoundUp (Size r) 4096 = np) by (pose proof (DivRoundUp_spec (Size r) 4096 ltac:(lia) ltac:(lia)); lia). rewrite Hpc.
  destruct (CallocatePages_run pm top hhdm direct_map_linear _ st np Hr Hnp Hne) as (st1 & p & Hc & Hfr & Hr1 & Hp1). rewrite (bind_ret _ _ _ _ _ Hc).
  destruct (f_frames _ _ _ _ _ Hfr) as [Hp Hpe]. destruct (Z.eqb_spec (p * 4096) 0); [lia|].
  assert (Hsp1 : addressSpace st1 = addressSpace st).
  { clear -Hc. unfold CallocatePages in Hc. rewrite get_ret in Hc. destruct (PMM.AllocatePages _ _) as [q x]. rewrite update_ret in Hc.
    destruct (q =? 0); [now injection Hc as <- _|]. rewrite update_ret in Hc. now injection Hc as <- _. }
  unfold change_region. rewrite update_ret. set (r1 := SetPhysicalBase (p * 4096) r).
  change (Insert (Erase (addressSpace st1) (VirtualBase r1)) (VirtualBase r1) r1) with (changed (addressSpace st1) r1). rewrite Hsp1.
  set (st2 := with_space (changed (addressSpace st) r1) st1).
  assert (Hr2 : ready pm top ((depth pm - 1) * Z.to_nat np + n) st2) by (destruct Hr1; now split).
  destruct (map_range_run pm gib top n st2 (VirtualBase r) 0 p np Hr2 Hal ltac:(lia) Hv0 Hnp ltac:(lia) Hp) as (st3 & Hm & Hr3 & Hrem).
  { change (alloc st2) with (alloc st1). rewrite (f_count _ _ _ _ _ Hfr). exact Hpe. }
  assert (Hsp3 : addressSpace st3 = changed (addressSpace st) r1).
  { clear -Hm. unfold map_range in Hm. rewrite get_ret in Hm. destruct (MapRange _ _ _ _ _ _ _ _) as [ok m]. rewrite update_ret in Hm. now injection Hm as <- _. }
  assert (Hmr : map_region pm gib top r1 st2 = Ret st3 true).
  { rewrite map_region_user by exact Hu. change (VirtualBase r1) with (VirtualBase r). change (Size r1) with (Size r). rewrite Hsz, <- (Z.add_0_r (VirtualBase r)). exact Hm. }
  rewrite (bind_ret _ _ _ _ _ Hmr). exists st3, p. split; [reflexivity|]. split; [exact Hr3|].
  assert (Hused : forall j, used st3 j = used st1 j) by (intros j; unfold used, alloc; now rewrite (m_pmm _ _ _ _ _ _ _ Hrem)).
  assert (Hc3 : page_count (alloc st3) = page_count (alloc st)) by (unfold alloc at 1; rewrite (m_pmm _ _ _ _ _ _ _ Hrem); exact (f_count _ _ _ _ _ Hfr)).
  split; trivial.
  - split.
    + rewrite Hc3. now split.
    + intros j Hj. rewrite Hused, (f_used _ _ _ _ _ Hfr) by lia. now rewrite decide_True.
    + exact (m_in _ _ _ _ _ _ _ Hrem).
    + intros off Hoff. rewrite (m_ram _ _ _ _ _ _ _ Hrem). now apply (f_zero _ _ _ _ _ Hfr).
  - exact (f_free _ _ _ _ _ Hfr).
  - intros j Hj. rewrite Hused. now apply (f_used _ _ _ _ _ Hfr).
  - intros w Hw Hout. rewrite (m_out _ _ _ _ _ _ _ Hrem) by (trivial; unfold owns in Hout; lia). unfold sees. change (pageMap st2) with (pageMap st1). now rewrite (f_map _ _ _ _ _ Hfr).
  - intros u q nq c Hb Hu0 Hu1 Hap. pose proof (block_framed pm top hhdm _ _ _ _ _ _ _ _ Hfr Hb) as Hb1.
    apply (block_remapped pm top hhdm st2 st3 (VirtualBase r) p np); trivial; [|now destruct Hb1; split].
    intros off Hoff Hin'. apply (Hap off Hoff). unfold owns. lia.
Qed.

(** ** Mapping memory *)
(** Flags of private anonymous memory: no fixed address, no huge pages. *)
Definition anonymous (flags : Z) : bool :=
  let flags := i32 (flags .& not64 (MAP_EXECUTABLE .| MAP_DENYWRITE)) in
  truthy (flags .& MAP_ANONYMOUS) && negb (truthy (flags .& MAP_FIXED)) && negb (truthy (flags .& MAP_HUGE_2MB)) && negb (truthy (flags .& MAP_HUGE_1GB)).

Lemma MMap_run st length prot flags fdNum : space_ok (addressSpace st) -> 0 < length -> anonymous flags = true ->
  roomy (addressSpace st) (AlignUp length 4096) 4096 -> (forall r a, AllocateRegion (addressSpace st) (AlignUp length 4096) 4096 = (Some r, a) -> VirtualBase r + Size r <= 2 ^ 47) ->
  exists r a, MMap (T:=T) (H:=H) (B:=B) 0 length prot flags fdNum 0 st = Ret (with_space a st) (inr (VirtualBase r))
  /\ space_ok a /\ (forall r', r' ∈ regions a <-> r' = r \/ r' ∈ regions (addressSpace st)) /\ (forall r', r' ∈ regions (addressSpace st) -> apart r r')
  /\ user_region r /\ m_PhysicalBase r = 0 /\ (4096 | VirtualBase r) /\ Size r = AlignUp length 4096 /\ region_ok r /\ VirtualBase r + Size r <= 2 ^ 47.
Proof.
  clear direct_map_linear. intros Hok Hl Hf Hroom Hend. unfold anonymous in Hf. unfold MMap. change (truthy (0 .& not64 GetAddressMask)) with false. cbn iota.
  set (fl := i32 _) in *. rewrite !andb_true_iff, !negb_true_iff in Hf. destruct Hf as (((-> & ->) & ->) & ->). cbn [negb]. destruct (Z.eqb_spec length 0); [lia|]. change (0 =? 0) with true. cbn [negb].
  pose proof (AlignUp_ge length 4096 ltac:(lia) ltac:(lia)) as Hup. assert (Hl' : 0 < AlignUp length 4096) by lia.
  destruct (AllocateRegion_spec (addressSpace st) (AlignUp length 4096) 4096 Hok Hl' ltac:(lia) Hroom) as (r & a & Ha & Hsz & Hal & Hrok & Hap & Hok' & Hin).
  specialize (Hend r a Ha). unfold allocate_region at 1. rewrite bind_assoc, get_ret, Ha, bind_assoc, update_ret, mret_ret.
  set (r1 := SetAccessMode (Prot2AccessFlags prot) r). unfold change_region. rewrite update_ret. cbn [addressSpace with_space].
  change (Insert (Erase a (VirtualBase r1)) (VirtualBase r1) r1) with (changed a r1).
  destruct (changed_ok a r r1 Hok' (proj2 (Hin r) (or_introl eq_refl)) eq_refl) as [Hok1 Hin1].
  unfold find_region at 1. rewrite gets_ret. cbn [addressSpace with_space].
  rewrite (Find_owner (changed a r1) r1 (VirtualBase r1) Hok1 (proj2 (Hin1 r1) (or_introl eq_refl)) (owns_base r1 Hrok)).
  rewrite assert_ret by now apply bool_decide_eq_true_2. exists r1, (changed a r1). split_and!; trivial; try apply Hrok.
  - unfold mret, M_ret. f_equal. f_equal. change (VirtualBase r1) with (VirtualBase r). unfold i64, swrap. destruct Hrok as (H1 & H2 & H3).
    rewrite Z.mod_small by lia. destruct (Z.ltb_spec (VirtualBase r) (2 ^ (64 - 1))); lia.
  - intros r'. rewrite Hin1, Hin. change (VirtualBase r1) with (VirtualBase r). split; [intros [->|[[->|Hr'] Hne]]; [now left|easy|now right]|].
    intros [->|Hr']; [now left|right]. split; [now right|]. intros E. destruct (Hap r' Hr') as [X|X]; destruct (regions_ok _ _ Hok Hr') as (? & ? & ?); destruct Hrok as (? & ? & ?); lia.
  - apply Prot2AccessFlags_user.
  - destruct (AllocateRegion_physical (addressSpace st) (AlignUp length 4096) 4096 r a Ha). reflexivity.
Qed.

(** The processor's access to address [x]: the byte its translation leads to; where there is none it
    raises the page fault, and when the handler returns the instruction is tried once more. *)
Definition load (reason0 errorCode x : Z) : M Machine (option Z) := fun st =>
  match user_byte pm top st x with
  | Some b => Ret st (Some b)
  | None => (_ ← pageFault pm gib top true IsHigherHalf message reason0 x errorCode; gets (fun st => user_byte pm top st x)) st
  end.
(** Translations lead only to memory of regions: true of a fresh process, kept by mapping and by
    faults, and lost by releasing touched memory ([munmap_leaves_translation]). *)
Definition translated_inside st : Prop :=
  forall x, 0 <= x < 2 ^ 47 -> sees pm top st x <> None -> exists r, r ∈ regions (addressSpace st) /\ owns r x.

Lemma untranslated st r x : translated_inside st -> (forall r', r' ∈ regions (addressSpace st) -> apart r r') -> owns r x -> 0 <= x < 2 ^ 47 -> user_byte pm top st x = None.
Proof.
  intros Hin Hap Ho Hx. unfold user_byte. destruct (sees pm top st x) as [[pte s]|] eqn:E; [|reflexivity].
  destruct (Hin x Hx) as (r' & Hr' & Ho'); [congruence|]. specialize (Hap r' Hr'). unfold apart, owns in *. lia.
Qed.
Lemma translated_after st a st2 r p np : translated_inside st -> space_ok a -> (forall r', r' ∈ regions a <-> r' = r \/ r' ∈ regions (addressSpace st)) ->
  (forall r', r' ∈ regions (addressSpace st) -> apart r r') -> region_ok r -> fault_resolved (with_space a st) st2 r p np -> translated_inside st2.
Proof.
  intros Hti Hok Hin Hap (_ & Hs & _) [V1 V2 V3 V4 V5 V6] x Hx Hsee. rewrite V6. cbn [addressSpace with_space].
  destruct (changed_ok a r (SetPhysicalBase (p * 4096) r) Hok (proj2 (Hin r) (or_introl eq_refl)) eq_refl) as [_ Hin'].
  destruct (decide (VirtualBase r <= x < VirtualBase r + Size r)) as [Hx'|Hx'].
  - exists (SetPhysicalBase (p * 4096) r). split; [apply Hin'; now left|exact Hx'].
  - rewrite V4 in Hsee by trivial. destruct (Hti x Hx Hsee) as (r' & Hr' & Ho'). exists r'. split; [|exact Ho']. apply Hin'. right. split; [apply Hin; now right|].
    specialize (Hap r' Hr'). change (VirtualBase (SetPhysicalBase (p * 4096) r)) with (VirtualBase r). unfold apart, owns in *. lia.
Qed.

(** C5: Memory a process maps reads as zeros, where translations lead only to memory of regions
    (which holds until touched memory is released: [munmap] leaves its translation behind).  As long
    as addresses, frames and page tables last, an anonymous mapping returns the page-aligned base of
    a range that no region had, none of which is translated; so the first access anywhere in it
    faults, the handler backs the whole range with free frames, and that access and every later one
    in the range read zero, the later ones without a fault.  The pages outside are translated as
    before, memory mapped there keeps its frames and its contents, and translations again lead only
    to memory of regions. *)
Theorem mapped_memory_reads_zero n st length prot flags fdNum : space_ok (addressSpace st) -> 0 < length -> anonymous flags = true ->
  roomy (addressSpace st) (AlignUp length 4096) 4096 -> (forall r a, AllocateRegion (addressSpace st) (AlignUp length 4096) 4096 = (Some r, a) -> VirtualBase r + Size r <= 2 ^ 47) ->
  ready pm top ((depth pm - 1) * Z.to_nat (AlignUp length 4096 / 4096) + n) st -> (PMM.AllocatePages (pmm st) (AlignUp length 4096 / 4096)).1 <> 0 ->
  translated_inside st ->
  exists base st1, MMap (T:=T) 0 length prot flags fdNum 0 st = Ret st1 (inr base) /\ (4096 | base)
  /\ (forall r x, r ∈ regions (addressSpace st) -> owns r x -> ~ base <= x < base + AlignUp length 4096)
  /\ (forall off, 0 <= off < AlignUp length 4096 -> user_byte pm top st1 (base + off) = None)
  /\ forall off reason0 errorCode, 0 <= off < AlignUp length 4096 ->
     exists st2, load reason0 errorCode (base + off) st1 = Ret st2 (Some 0)
     /\ (forall k reason1 errorCode1, 0 <= k < AlignUp length 4096 -> load reason1 errorCode1 (base + k) st2 = Ret st2 (Some 0))
     /\ translated_inside st2
     /\ (forall w, 0 <= w < 2 ^ 47 -> ~ base <= w < base + AlignUp length 4096 -> sees pm top st2 w = sees pm top st w)
     /\ (forall u q nq c, block pm top hhdm st u q nq c -> 0 <= u -> u + nq * 4096 <= 2 ^ 47 ->
          u + nq * 4096 <= base \/ base + AlignUp length 4096 <= u -> block pm top hhdm st2 u q nq c).
Proof.
  intros Hok Hl Hf Hroom Hend Hr Hne Hti. destruct (MMap_run st length prot flags fdNum Hok Hl Hf Hroom Hend) as (r & a & HM & Hok' & Hin & Hap & Hu & _ & Hal & Hsz & Hrok & Hend').
  set (len := AlignUp length 4096) in *. assert (Hdiv : (4096 | len)) by (apply AlignUp_divide; lia). destruct Hdiv as [np Hnp].
  assert (Hq : len / 4096 = np) by (rewrite Hnp, Z.div_mul by lia; reflexivity). rewrite Hq in *. assert (Hv : 0 <= VirtualBase r) by apply Hrok.
  exists (VirtualBase r), (with_space a st). split; [exact HM|]. split; [exact Hal|]. split.
  { intros r' x Hr' Ho Hx. specialize (Hap r' Hr'). unfold apart, owns in *. lia. }
  assert (Hnone : forall off, 0 <= off < len -> user_byte pm top (with_space a st) (VirtualBase r + off) = None).
  { intros off Hoff. change (user_byte pm top st (VirtualBase r + off) = None). apply (untranslated st r); trivial; unfold owns; lia. }
  split; [exact Hnone|].
  intros off reason0 errorCode Hoff. assert (Hr1 : ready pm top ((depth pm - 1) * Z.to_nat np + n) (with_space a st)) by (destruct Hr; now split).
  destruct (fault_run n (with_space a st) r np (VirtualBase r + off) (pageFaultReason reason0 errorCode) Hr1) as (st2 & p & HF & Hr2 & HV); trivial.
  { apply Hin. now left. } { unfold owns. lia. } { lia. }
  pose proof (translated_after st a st2 r p np Hti Hok' Hin Hap Hrok HV) as Hti2. destruct HV as [V1 V2 V3 V4 V5 V6].
  assert (Hz : forall k, 0 <= k < len -> user_byte pm top st2 (VirtualBase r + k) = Some 0)
    by (intros k Hk; apply (block_byte pm top hhdm direct_map_linear n st2 (VirtualBase r) p np (fun _ => 0)); trivial; lia).
  exists st2. split_and!; trivial.
  - unfold load. rewrite Hnone by trivial. unfold pageFault. rewrite (bind_ret _ _ _ _ _ HF). unfold gets. now rewrite Hz.
  - intros k reason1 errorCode1 Hk. unfold load. now rewrite Hz.
  - intros w Hw Hout. rewrite V4 by (trivial; unfold owns; lia). reflexivity.
  - intros u q nq c Hb Hu0 Hu1 Hd. apply V5; trivial; [now destruct Hb; split|]. intros o Ho. unfold owns. lia.
Qed.
End Process.

(** ** Histories of a process *)
Section Histories.
Context {HH : HigherHalf} {H : Type} {TH : TableHeap H} {B : Type} {BM : Bitmap B} {PM : PrismMath}
  {T : Type} {RB : RedBlackTree T Region}.
Variables (pm : PagingMode) (gib : bool) (top : Z) (missing : Z -> T -> option Region * T) (IsHigherHalf : Z -> bool) (message : Z).
Notation Machine := (Machine H B T).
Implicit Types (st : Machine) (p : PMM.State B) (a : AddressSpace T).

Definition frame_used p (j : Z) : bool := GetIndex (m_PageBitmap (PMM.s_BitmapAllocator p)) j.
Definition frame_count p : Z := page_count (PMM.s_BitmapAllocator p).
(** Frame [j] backs region [r]. *)
Definition backs (j : Z) (r : Region) : Prop := m_PhysicalBase r <> 0 /\ m_PhysicalBase r <= j * 4096 < m_PhysicalBase r + Size r.
(** Regions are disjoint and made of whole pages; their frames exist, are marked used, and no two
    regions share one. *)
Record memory_ok p a : Prop := {
  o_space : space_ok a;
  o_init : PMM.s_Initialized p = true;
  o_inv : inv (PMM.s_BitmapAllocator p);
  o_page : m_PageSize (PMM.s_BitmapAllocator p) = 4096;
  o_size r : r ∈ regions a -> (4096 | Size r);
  o_frames r : r ∈ regions a -> m_PhysicalBase r <> 0 -> exists q, m_PhysicalBase r = q * 4096 /\ 0 < q /\ q + Size r / 4096 <= frame_count p;
  o_used r j : r ∈ regions a -> backs j r -> frame_used p j = true;
  o_apart r1 r2 j : r1 ∈ regions a -> r2 ∈ regions a -> backs j r1 -> backs j r2 -> r1 = r2
}.

Lemma backs_range r j q n : m_PhysicalBase r = q * 4096 -> Size r = n * 4096 -> backs j r -> q <= j < q + n.
Proof. intros Hq Hs [_ Hj]. rewrite Hq, Hs in Hj. lia. Qed.
Lemma same_range_same a r1 r2 : space_ok a -> r1 ∈ regions a -> r2 ∈ regions a -> VirtualBase r1 = VirtualBase r2 -> r1 = r2.
Proof.
  intros Hok H1 H2 E. pose proof (Find_owner a r1 _ Hok H1 (owns_base r1 (regions_ok _ _ Hok H1))) as F1.
  pose proof (Find_owner a r2 _ Hok H2 (owns_base r2 (regions_ok _ _ Hok H2))) as F2. rewrite E in F1. congruence.
Qed.

(** A new region without frames. *)
Lemma ok_insert p a a' r : memory_ok p a -> space_ok a' -> (forall r', r' ∈ regions a' <-> r' = r \/ r' ∈ regions a) ->
  m_PhysicalBase r = 0 -> (4096 | Size r) -> memory_ok p a'.
Proof.
  intros [O1 O2 O3 O4 O5 O6 O7 O8] Hok Hin H0 Hs. assert (Hnb : forall j, ~ backs j r) by (intros j [X _]; contradiction).
  split; trivial.
  - intros r' [->|Hr']%Hin; auto.
  - intros r' [->|Hr']%Hin Hn; [contradiction|auto].
  - intros r' j [->|Hr']%Hin Hb; [now destruct (Hnb j)|eauto].
  - intros r1 r2 j [->|Hr1]%Hin [->|Hr2]%Hin Hb1 Hb2; try now destruct (Hnb j). eauto.
Qed.
(** A region with other access rights. *)
Lemma ok_access p a r access : memory_ok p a -> r ∈ regions a -> memory_ok p (changed a (SetAccessMode access r)).
Proof.
  intros [O1 O2 O3 O4 O5 O6 O7 O8] Hr. destruct (changed_ok a r (SetAccessMode access r) O1 Hr eq_refl) as [Hok Hin].
  split; trivial.
  - intros r' [->|[Hr' _]]%Hin; [exact (O5 r Hr)|auto].
  - intros r' [->|[Hr' _]]%Hin; [exact (O6 r Hr)|auto].
  - intros r' j [->|[Hr' _]]%Hin; [exact (O7 r j Hr)|exact (O7 r' j Hr')].
  - intros r1 r2 j [->|[Hr1 N1]]%Hin [->|[Hr2 N2]]%Hin Hb1 Hb2; [reflexivity| | |eauto].
    + destruct N2. change (backs j r) in Hb1. now rewrite (O8 r r2 j Hr Hr2 Hb1 Hb2).
    + destruct N1. change (backs j r) in Hb2. now rewrite (O8 r1 r j Hr1 Hr Hb1 Hb2).
Qed.
(** Frames for a region, whatever backed it before. *)
Lemma ok_frames p a r np ptr p' : memory_ok p a -> r ∈ regions a -> Size r = np * 4096 -> PMM.AllocatePages p np = (ptr, p') ->
  memory_ok p' (if ptr =? 0 then a else changed a (SetPhysicalBase ptr r)).
Proof.
  intros [O1 O2 O3 O4 O5 O6 O7 O8] Hr Hs Ha. destruct (regions_ok _ _ O1 Hr) as (_ & Hpos & _). unfold PMM.AllocatePages in Ha. rewrite O2 in Ha. cbn [negb] in Ha.
  destruct (AllocatePages (PMM.s_BitmapAllocator p) np) as [ptr' s'] eqn:Eb. injection Ha as -> <-.
  assert (Hnp : 0 < np) by lia.
  destruct (AllocatePages_spec _ _ _ _ O3 Hnp Eb) as [Hinv [(-> & Hset & _)|(q & Hphys & Hq & Hrun & Hset & _)]];
    destruct (pages_set_count _ _ _ _ _ Hset) as [Hc Hz]; destruct Hset as (_ & Hqe & Hg & _).
  - cbn [Z.eqb]. split; cbn [PMM.s_Initialized PMM.s_BitmapAllocator]; trivial; [congruence|..].
    + intros r' Hr' Hn. unfold frame_count. cbn [PMM.s_BitmapAllocator]. rewrite Hc. now apply O6.
    + intros r' j Hr' Hb. unfold frame_used. cbn [PMM.s_BitmapAllocator]. destruct (O6 r' Hr' (proj1 Hb)) as (q & Eq & Hq & Hqe'). destruct (O5 r' Hr') as [n En].
      pose proof (backs_range r' j q n Eq En Hb) as Hj. rewrite En, Z.div_mul in Hqe' by lia. rewrite Hg by (unfold frame_count in *; lia). rewrite decide_False by lia. exact (O7 r' j Hr' Hb).
  - rewrite O4 in *. destruct (Z.eqb_spec ptr 0); [lia|]. destruct (changed_ok a r (SetPhysicalBase ptr r) O1 Hr eq_refl) as [Hok Hin].
    assert (Hnew : forall j, backs j (SetPhysicalBase ptr r) -> q <= j < q + np) by (intros j Hb; apply (backs_range _ _ q np) in Hb; trivial).
    assert (Hold : forall r' j, r' ∈ regions a -> backs j r' -> 0 <= j < page_count (PMM.s_BitmapAllocator p) /\ ~ q <= j < q + np).
    { intros r' j Hr' Hb. destruct (O6 r' Hr' (proj1 Hb)) as (q' & Eq & Hq' & Hqe'). destruct (O5 r' Hr') as [n' En]. pose proof (backs_range r' j q' n' Eq En Hb) as Hj.
      rewrite En, Z.div_mul in Hqe' by lia. unfold frame_count in Hqe'. split; [lia|]. intros Hin'. pose proof (O7 r' j Hr' Hb) as Hu. unfold frame_used in Hu. rewrite Hrun in Hu by lia. discriminate. }
    split; cbn [PMM.s_Initialized PMM.s_BitmapAllocator]; trivial.
    + intros r' [->|[Hr' _]]%Hin; [exact (O5 r Hr)|auto].
    + intros r' [->|[Hr' _]]%Hin Hn; unfold frame_count; cbn [PMM.s_BitmapAllocator]; rewrite Hc; [|now apply O6].
      exists q. change (Size (SetPhysicalBase ptr r)) with (Size r). rewrite Hs, Z.div_mul by lia. split_and!; trivial.
    + intros r' j [->|[Hr' _]]%Hin Hb; unfold frame_used; cbn [PMM.s_BitmapAllocator].
      * specialize (Hnew j Hb). rewrite Hg by lia. now rewrite decide_True.
      * destruct (Hold r' j Hr' Hb) as [Hj Hj']. rewrite Hg by lia. rewrite decide_False by lia. exact (O7 r' j Hr' Hb).
    + intros r1 r2 j [->|[Hr1 _]]%Hin [->|[Hr2 _]]%Hin Hb1 Hb2; [reflexivity| | |eauto].
      * destruct (Hold r2 j Hr2 Hb2) as [_ []]. auto.
      * destruct (Hold r1 j Hr1 Hb1) as [_ []]. auto.
Qed.
(** A region that goes with its frames. *)
Lemma ok_release p a r : memory_ok p a -> r ∈ regions a -> memory_ok (PMM.FreePages p (m_PhysicalBase r) (Size r / 4096)) (Erase a (VirtualBase r)).
Proof.
  intros Hm Hr. pose proof Hm as [O1 O2 O3 O4 O5 O6 O7 O8]. destruct (Erase_spec a (VirtualBase r) O1) as [Hok Hin]. destruct (O5 r Hr) as [n En].
  destruct (regions_ok _ _ O1 Hr) as (_ & Hpos & _). rewrite En, Z.div_mul by lia.
  destruct (decide (m_PhysicalBase r = 0)) as [E0|Hn0].
  - assert (Ef : PMM.FreePages p (m_PhysicalBase r) n = p).
    { unfold PMM.FreePages, FreePages. rewrite E0, Z.eqb_refl, orb_true_r. now destruct p. }
    rewrite Ef. split; trivial.
    + intros r' [Hr' _]%Hin. auto.
    + intros r' [Hr' _]%Hin. auto.
    + intros r' j [Hr' _]%Hin. exact (O7 r' j Hr').
    + intros r1 r2 j [Hr1 _]%Hin [Hr2 _]%Hin. eauto.
  - destruct (O6 r Hr Hn0) as (q & Eq & Hq & Hqe). rewrite En, Z.div_mul in Hqe by lia.
    destruct (FreePages_spec (PMM.s_BitmapAllocator p) q n O3 Hq ltac:(lia) Hqe) as (Hinv & Hset & _). rewrite O4, <- Eq in *.
    destruct (pages_set_count _ _ _ _ _ Hset) as [Hc Hz]. destruct Hset as (_ & _ & Hg & _).
    assert (Hgone : forall r' j, r' ∈ regions a -> VirtualBase r' <> VirtualBase r -> backs j r' -> 0 <= j < page_count (PMM.s_BitmapAllocator p) /\ ~ q <= j < q + n).
    { intros r' j Hr' Hne Hb. destruct (O6 r' Hr' (proj1 Hb)) as (q' & Eq' & Hq' & Hqe'). destruct (O5 r' Hr') as [n' En']. pose proof (backs_range r' j q' n' Eq' En' Hb) as Hj.
      rewrite En', Z.div_mul in Hqe' by lia. unfold frame_count in Hqe'. split; [lia|]. intros Hj'. apply Hne. f_equal. apply (O8 r' r j); trivial. split; [exact Hn0|]. rewrite Eq, En. lia. }
    unfold PMM.FreePages. split; cbn [PMM.s_Initialized PMM.s_BitmapAllocator]; trivial; [congruence|..].
    + intros r' [Hr' _]%Hin. auto.
    + intros r' [Hr' _]%Hin Hn. unfold frame_count. cbn [PMM.s_BitmapAllocator]. rewrite Hc. now apply O6.
    + intros r' j [Hr' Hne]%Hin Hb. unfold frame_used. cbn [PMM.s_BitmapAllocator]. destruct (Hgone r' j Hr' Hne Hb) as [Hj Hj'].
      rewrite Hg by lia. rewrite decide_False by lia. exact (O7 r' j Hr' Hb).
    + intros r1 r2 j [Hr1 _]%Hin [Hr2 _]%Hin. eauto.
Qed.

(** ** Steps *)
(** Addresses last for a mapping of [length] bytes: with every alignment there is room behind the regions. *)
Definition addresses_last a (length : Z) : Prop :=
  0 < length < 2 ^ 62 /\ forall alignment, alignment ∈ [4096; 0x200000; 0x40000000] -> roomy a (AlignUp length 4096) alignment.
Inductive memory_step : Machine -> Machine -> Prop :=
  | step_map st addr length prot flags fdNum offset st' answer :
      0 <= addr < 2 ^ 64 -> addresses_last (addressSpace st) length ->
      MMap addr length prot flags fdNum offset st = Ret st' answer -> memory_step st st'
  | step_protect st virt length prot st' answer :
      MProtect pm gib top virt length prot st = Ret st' answer -> memory_step st st'
  | step_unmap st r length st' answer :
      r ∈ regions (addressSpace st) -> MUnMap missing (VirtualBase r) length st = Ret st' answer -> memory_step st st'
  | step_fault st process address reason0 errorCode st' result :
      pageFault pm gib top process IsHigherHalf message reason0 address errorCode st = Ret st' result -> memory_step st st'.

Lemma CallocatePages_effect np st : exists st', CallocatePages np st = Ret st' (PMM.AllocatePages (pmm st) np).1
  /\ pmm st' = (PMM.AllocatePages (pmm st) np).2 /\ addressSpace st' = addressSpace st.
Proof.
  unfold CallocatePages. rewrite get_ret. destruct (PMM.AllocatePages (pmm st) np) as [ptr p']. rewrite update_ret. destruct (Z.eqb_spec ptr 0) as [->|];
    eexists; split; reflexivity || (split; reflexivity).
Qed.
Lemma map_region_effect r st : exists m ok, map_region pm gib top r st = Ret (with_page_map m st) ok.
Proof. unfold map_region. rewrite get_ret. destruct (MapRegion _ _ _ _ _ _ _ _ _) as [ok m]. rewrite update_ret. now exists m, ok. Qed.
Lemma remap_region_effect r st : exists m ok, remap_region pm gib top r st = Ret (with_page_map m st) ok.
Proof. unfold remap_region. rewrite get_ret. destruct (RemapRegion _ _ _ _ _ _ _ _) as [ok m]. rewrite update_ret. now exists m, ok. Qed.

Lemma fault_effect process address reason st st' result : HandlePageFault pm gib top process IsHigherHalf message address reason st = Ret st' result ->
  (pmm st' = pmm st /\ addressSpace st' = addressSpace st) \/
  exists r, Find (addressSpace st) address = Some r /\ let ptr := (PMM.AllocatePages (pmm st) (DivRoundUp (Size r) 4096)).1 in
    pmm st' = (PMM.AllocatePages (pmm st) (DivRoundUp (Size r) 4096)).2
    /\ addressSpace st' = if ptr =? 0 then addressSpace st else changed (addressSpace st) (SetPhysicalBase ptr r).
Proof.
  unfold HandlePageFault. set (unresolved := if process && _ then _ else _).
  assert (Hun : forall s s' x, unresolved s = Ret s' x -> s' = s).
  { intros s s' x. unfold unresolved. destruct (process && _); [|discriminate]. destruct (truthy message && _); now intros [= <- _]. }
  destruct process; [|rewrite mret_ret; intros E%Hun; left; now subst]. unfold find_region at 1. rewrite gets_ret.
  destruct (Find (addressSpace st) address) as [r|] eqn:EF; [|intros E%Hun; left; now subst]. intros E. right. exists r. split; [reflexivity|].
  destruct (CallocatePages_effect (DivRoundUp (Size r) 4096) st) as (st1 & Hc & Hp & Ha). rewrite (bind_ret _ _ _ _ _ Hc) in E. cbn zeta.
  destruct (_ =? 0); [apply Hun in E; subst st'; auto|]. unfold change_region in E. rewrite update_ret in E.
  match type of E with (map_region _ _ _ ?r1 ≫= _) ?s = _ => destruct (map_region_effect r1 s) as (m & ok & Hm) end. rewrite (bind_ret _ _ _ _ _ Hm) in E.
  injection E as <- _. cbn. rewrite Ha. auto.
Qed.

Lemma page_address addr : 0 <= addr < 2 ^ 64 -> truthy (addr .& not64 GetAddressMask) = false -> addr < 2 ^ 52.
Proof.
  intros Ha Hm. destruct (Z.lt_ge_cases addr (2 ^ 52)) as [|Hge]; [trivial|]. exfalso.
  apply negb_false_iff, Z.eqb_eq in Hm. set (k := Z.log2 addr).
  assert (Hk : 52 <= k < 64) by (split; [apply Z.log2_le_pow2; lia|apply Z.log2_lt_pow2; lia]).
  assert (Hb : Z.testbit (addr .& not64 GetAddressMask) k = true).
  { rewrite Z.land_spec. unfold k at 1. rewrite Z.bit_log2 by lia. cbn [andb].
    assert (Hc : k = 52 \/ k = 53 \/ k = 54 \/ k = 55 \/ k = 56 \/ k = 57 \/ k = 58 \/ k = 59 \/ k = 60 \/ k = 61 \/ k = 62 \/ k = 63) by lia.
    repeat destruct Hc as [->|Hc]; try (vm_compute; reflexivity). rewrite Hc. vm_compute. reflexivity. }
  rewrite Hm, Z.bits_0 in Hb. discriminate.
Qed.

(** A mapping that is made: a region without frames, whose access rights are set. *)
Lemma MMap_effect addr length prot flags fdNum offset st st' answer : memory_ok (pmm st) (addressSpace st) -> 0 <= addr < 2 ^ 64 ->
  addresses_last (addressSpace st) length -> MMap addr length prot flags fdNum offset st = Ret st' answer -> memory_ok (pmm st') (addressSpace st').
Proof.
  intros Hok Ha [Hl Hroom]. pose proof (AlignUp_ge length 4096 ltac:(lia) ltac:(lia)) as Hup. pose proof (AlignUp_divide length 4096 ltac:(lia) ltac:(lia)) as Hdiv.
  assert (Hpos : 0 < AlignUp length 4096) by lia.
  unfold MMap. destruct (truthy (addr .& _)) eqn:Em; [now intros [= <- _]|]. apply page_address in Em; [|exact Ha]. cbn zeta. assert (Hfit : addr + AlignUp length 4096 + 4096 < 2 ^ 64) by lia. set (fl := i32 _).
  destruct (truthy (fl .& MAP_ANONYMOUS)); [|now intros [= <- _]]. cbn [negb]. destruct (length =? 0); [now intros [= <- _]|].
  destruct (offset =? 0); [|now intros [= <- _]]. cbn [negb]. set (ps := if truthy (fl .& MAP_HUGE_2MB) then _ else _).
  assert (Hps : ps ∈ [4096; 0x200000; 0x40000000] /\ 0 < ps) by (unfold ps; destruct (truthy _); [|destruct (truthy _)]; split; (lia || set_solver)).
  set (region := if truthy (fl .& MAP_FIXED) then _ else _).
  assert (Hreg : exists o a', region st = Ret (with_space a' st) o /\ match o with
    | None => a' = addressSpace st
    | Some r => space_ok a' /\ (forall r', r' ∈ regions a' <-> r' = r \/ r' ∈ regions (addressSpace st)) /\ m_PhysicalBase r = 0 /\ (4096 | Size r) end).
  { unfold region. destruct (truthy (fl .& MAP_FIXED)).
    - unfold allocate_fixed. rewrite get_ret. pose proof (AllocateFixed_spec (addressSpace st) addr (AlignUp length 4096) (o_space _ _ Hok) (proj1 Ha) Hpos Hfit) as HA.
      assert (Hph : forall r a', AllocateFixed (addressSpace st) addr (AlignUp length 4096) = (Some r, a') -> m_PhysicalBase r = 0) by (unfold AllocateFixed; intros r a'; destruct (negb _); [discriminate|now intros [= <- _]]).
      destruct (AllocateFixed (addressSpace st) addr (AlignUp length 4096)) as [[r|] a'] eqn:EA; rewrite update_ret; eexists _, a'; (split; [reflexivity|]).
      + destruct HA as (_ & Hsz & _ & Hok' & Hin). split_and!; trivial; [now apply (Hph r a')|]. rewrite Hsz. apply AlignUp_divide; lia.
      + now destruct HA.
    - unfold allocate_region. rewrite get_ret.
      destruct (AllocateRegion_spec (addressSpace st) (AlignUp length 4096) ps (o_space _ _ Hok) Hpos (proj2 Hps) (Hroom _ (proj1 Hps))) as (r & a' & EA & Hsz & _ & _ & _ & Hok' & Hin).
      rewrite EA, update_ret. exists (Some r), a'. split; [reflexivity|]. split_and!; trivial; [now apply (AllocateRegion_physical _ _ _ _ _ EA)|now rewrite Hsz]. }
  destruct Hreg as (o & a' & Hrun & Ho). rewrite (bind_ret _ _ _ _ _ Hrun). destruct o as [r|]; [|subst a'; intros [= <- _]; now destruct st].
  destruct Ho as (Hok' & Hin & H0 & Hs). pose proof (ok_insert _ _ a' r Hok Hok' Hin H0 Hs) as HA.
  unfold change_region. rewrite update_ret. unfold find_region at 1. rewrite gets_ret. destruct (bool_decide _) eqn:Eb; [|intros E; now rewrite assert_panic in E].
  rewrite assert_ret by reflexivity. intros [= <- _]. apply (ok_access _ a' r); [exact HA|apply Hin; now left].
Qed.

Lemma MUnMap_effect r length st st' answer : memory_ok (pmm st) (addressSpace st) -> r ∈ regions (addressSpace st) -> MUnMap missing (VirtualBase r) length st = Ret st' answer ->
  pageMap st' = pageMap st /\ ram st' = ram st /\ pmm st' = PMM.FreePages (pmm st) (m_PhysicalBase r) (Size r / 4096) /\ addressSpace st' = Erase (addressSpace st) (VirtualBase r) /\ answer = inr 0.
Proof.
  intros Hok Hr. unfold MUnMap. unfold find_region at 1. rewrite gets_ret. pose proof (o_space _ _ Hok) as Hs.
  rewrite (Find_owner _ r _ Hs Hr (owns_base r (regions_ok _ _ Hs Hr))), get_ret.
  assert (Hfind : find (fun kr : Z * Region => kr.1 =? VirtualBase r) (tree_elements (m_RegionTree (addressSpace st))) = Some (VirtualBase r, r)).
  { pose proof (proj1 (elem_regions _ _ Hs) Hr) as Hel. unfold elements in Hel.
    destruct (find _ _) as [[k r']|] eqn:E.
    - apply find_some in E as [Hin Hk]. cbn in Hk. apply Z.eqb_eq in Hk. subst k. apply list_elem_of_In in Hin. do 2 f_equal.
      destruct (ok_key _ Hs _ _ Hin) as [Hk _]. apply (same_range_same (addressSpace st)); trivial; [|now rewrite <- Hk]. apply elem_regions; [exact Hs|]. now rewrite <- Hk.
    - pose proof (List.find_none _ _ E _ (proj1 (list_elem_of_In _ _) Hel)) as Hn. cbn in Hn. rewrite Z.eqb_refl in Hn. discriminate. }
  rewrite Hfind, mret_ret. unfold free_pages. rewrite !update_ret. intros [= <- <-]. now split_and!.
Qed.
Lemma MProtect_effect virt length prot st st' answer : memory_ok (pmm st) (addressSpace st) -> MProtect pm gib top virt length prot st = Ret st' answer -> memory_ok (pmm st') (addressSpace st').
Proof.
  intros Hok. unfold MProtect. destruct (truthy _); [now intros [= <- _]|]. destruct (_ =? 0); [now intros [= <- _]|]. destruct (_ <? _); [now intros [= <- _]|].
  destruct (_ =? _); [now intros [= <- _]|]. destruct (truthy _); [now intros [= <- _]|]. unfold find_region at 1. rewrite gets_ret.
  pose proof (Find_spec (addressSpace st) virt (o_space _ _ Hok)) as HF. destruct (Find (addressSpace st) virt) as [r|]; [|now intros [= <- _]]. destruct HF as (Hr & _ & _).
  unfold change_region. rewrite update_ret. match goal with |- (remap_region _ _ _ ?r1 ≫= _) ?s = _ -> _ => destruct (remap_region_effect r1 s) as (m & ok & Hm) end.
  rewrite (bind_ret _ _ _ _ _ Hm). intros [= <- _]. cbn. now apply ok_access.
Qed.

Lemma memory_step_ok st st' : memory_step st st' -> memory_ok (pmm st) (addressSpace st) -> memory_ok (pmm st') (addressSpace st').
Proof.
  intros Hstep Hok. destruct Hstep as [st addr length prot flags fdNum offset st' answer Ha Hl E|st virt length prot st' answer E|st r length st' answer Hr E|st process address reason0 errorCode st' result E].
  - now apply (MMap_effect addr length prot flags fdNum offset st st' answer).
  - now apply (MProtect_effect virt length prot st st' answer).
  - destruct (MUnMap_effect r length st st' answer Hok Hr E) as (_ & _ & -> & -> & _). now apply ok_release.
  - apply fault_effect in E as [[-> ->]|(r & HF & -> & ->)]; [exact Hok|]. pose proof (Find_spec (addressSpace st) address (o_space _ _ Hok)) as HS. rewrite HF in HS. destruct HS as (Hr & _ & _).
    destruct (o_size _ _ Hok r Hr) as [np Hnp]. destruct (regions_ok _ _ (o_space _ _ Hok) Hr) as (_ & Hpos & _).
    assert (Hd : DivRoundUp (Size r) 4096 = np) by (pose proof (DivRoundUp_spec (Size r) 4096 ltac:(lia) ltac:(lia)); lia). rewrite Hd.
    apply (ok_frames (pmm st) (addressSpace st) r np); trivial. now destruct (PMM.AllocatePages _ _).
Qed.

(** C30: In every history of mmap, mprotect, munmap and page faults, with any arguments and any error
    codes, the regions of the process stay pairwise disjoint, every frame that backs a region is marked
    used, and no frame backs two regions. *)
Theorem memory_histories st st' : memory_ok (pmm st) (addressSpace st) -> rtc memory_step st st' ->
  (forall r1 r2 x, r1 ∈ regions (addressSpace st') -> r2 ∈ regions (addressSpace st') -> owns r1 x -> owns r2 x -> r1 = r2)
  /\ (forall r j, r ∈ regions (addressSpace st') -> backs j r -> frame_used (pmm st') j = true)
  /\ (forall r1 r2 j, r1 ∈ regions (addressSpace st') -> r2 ∈ regions (addressSpace st') -> backs j r1 -> backs j r2 -> r1 = r2).
Proof.
  intros Hok Hr. assert (Hok' : memory_ok (pmm st') (addressSpace st')).
  { revert Hok. induction Hr as [|s1 s2 s3 Hs _ IH]; [trivial|]. intros Hok. apply IH. now apply (memory_step_ok s1). }
  split_and!; [|exact (o_used _ _ Hok')|exact (o_apart _ _ Hok')].
  intros r1 r2 x Hr1 Hr2 H1 H2. pose proof (Find_owner _ r1 x (o_space _ _ Hok') Hr1 H1). pose proof (Find_owner _ r2 x (o_space _ _ Hok') Hr2 H2). congruence.
Qed.
End Histories.

(** ** Defects *)
Section Defects.
Context {HH : HigherHalf} {H : Type} {TH : TableHeap H} {B : Type} {BM : Bitmap B} {PM : PrismMath}
  {T : Type} {RB : RedBlackTree T Region}.
Variables (pm : PagingMode) (gib : bool) (top hhdm : Z).
Implicit Types st : Machine H B T.

(** Munmap gives the frames of a region back and forgets the region, but leaves the page tables
    alone: the process still reads and writes the frames, which the allocator will hand out again. *)
Theorem munmap_leaves_translation missing st r p np c length st' answer : memory_ok (pmm st) (addressSpace st) -> r ∈ regions (addressSpace st) ->
  m_PhysicalBase r = p * 4096 -> Size r = np * 4096 -> block pm top hhdm st (VirtualBase r) p np c ->
  MUnMap missing (VirtualBase r) length st = Ret st' answer ->
  answer = inr 0 /\ Find (addressSpace st') (VirtualBase r) = None /\ (forall v, user_byte pm top st' v = user_byte pm top st v)
  /\ (forall off, 0 <= off < np * 4096 -> sees pm top st' (VirtualBase r + off) = Some (leaf (p * 4096 + off / 4096 * 4096) user_attributes, 1%nat))
  /\ (forall j, p <= j < p + np -> used st' j = false).
Proof.
  intros Hok Hr Hp Hs Hb E. destruct (MUnMap_effect missing r length st st' answer Hok Hr E) as (E1 & E2 & E3 & E4 & ->). pose proof (o_space _ _ Hok) as Hsp.
  destruct (regions_ok _ _ Hsp Hr) as (_ & Hpos & _). split_and!; trivial.
  - rewrite E4. destruct (Erase_spec (addressSpace st) (VirtualBase r) Hsp) as [Hok' Hin]. pose proof (Find_spec (Erase (addressSpace st) (VirtualBase r)) (VirtualBase r) Hok') as HF.
    destruct (Find _ _) as [r'|]; [|reflexivity]. destruct HF as ([Hr' Hne]%Hin & Ho & _). destruct Hne.
    pose proof (Find_owner _ r' _ Hsp Hr' Ho) as F1. pose proof (Find_owner _ r _ Hsp Hr (owns_base r (regions_ok _ _ Hsp Hr))) as F2. congruence.
  - intros v. unfold user_byte, sees. now rewrite E1, E2.
  - intros off Hoff. unfold sees. rewrite E1. now apply (b_view _ _ _ _ _ _ _ _ Hb).
  - intros j Hj. destruct (b_frames _ _ _ _ _ _ _ _ Hb) as [Hp0 Hpe].
    destruct (FreePages_spec (alloc st) p np (o_inv _ _ Hok) Hp0 ltac:(lia) Hpe) as (_ & (_ & _ & Hg & _) & _).
    unfold used, alloc. rewrite E3. unfold PMM.FreePages. cbn [PMM.s_BitmapAllocator]. rewrite Hp, Hs, Z.div_mul by lia. pose proof (o_page _ _ Hok) as Hpg. unfold alloc in *. rewrite Hpg in Hg.
    rewrite Hg by (unfold page_count in *; lia). now rewrite decide_True.
Qed.

(** The test for whole pages uses the page size itself as a mask: protecting any page but the
    first two is refused. *)
Theorem MProtect_refuses st virt length prot : (4096 | virt) -> 8192 <= virt < 2 ^ 64 -> MProtect pm gib top virt length prot st = Ret st (inl EINVAL).
Proof.
  intros _ Hv. unfold MProtect. enough (E : truthy (virt .& not64 4096) = true) by now rewrite E.
  unfold truthy. apply negb_true_iff, Z.eqb_neq. intros E. set (k := Z.log2 virt).
  assert (Hk : 13 <= k < 64) by (split; [apply Z.log2_le_pow2; lia|apply Z.log2_lt_pow2; lia]).
  assert (Hb : Z.testbit (virt .& not64 4096) k = true).
  { rewrite Z.land_spec. unfold k at 1. rewrite Z.bit_log2 by lia. change (not64 4096) with (Z.ones 51 .<< 13 .| Z.ones 12). rewrite Z.lor_spec, Z.shiftl_spec by lia.
    rewrite (Z.ones_spec_low 51) by lia. reflexivity. }
  rewrite E, Z.bits_0 in Hb. discriminate.
Qed.

(** The page tables never enforce the protection of a region: the entries of any region are
    writeable and executable. *)
Theorem protection_ignored r : GetFlag (ToNativeFlags (Region_PageAttributes r)) PTE_WRITEABLE = true /\ GetFlag (ToNativeFlags (Region_PageAttributes r)) PTE_NOEXEC = false.
Proof.
  unfold Region_PageAttributes. destruct (IsReadable r), (IsWriteable r), (IsExecutable r), (truthy (m_Access r .& Access_eUser)); split; vm_compute; reflexivity.
Qed.

(** The reason of a page fault does not depend on its error code: it is the value a variable
    that is never assigned happens to have. *)
Theorem pageFaultReason_lost reason0 errorCode1 errorCode2 : pageFaultReason reason0 errorCode1 = reason0 /\ pageFaultReason reason0 errorCode1 = pageFaultReason reason0 errorCode2.
Proof.
  assert (E : forall e, pageFaultReason reason0 e = reason0).
  { intros e. unfold pageFaultReason, reason_or. now repeat match goal with |- context [if ?b then reason0 else reason0] => replace (if b then reason0 else reason0) with reason0 by now destruct b end. }
  now rewrite !E.
Qed.

(** A process that touches an address of no region is not ended: the message for its terminal
    lies in the kernel, is refused as a buffer of the user, and the handler returns to the faulting
    instruction. *)
Theorem segfault_not_ended IsHigherHalf message address reason st : Find (addressSpace st) address = None -> truthy (reason .& PageFaultReason_eUser) = true ->
  truthy message = true -> IsHigherHalf message = true -> HandlePageFault pm gib top true IsHigherHalf message address reason st = Ret st Unhandled.
Proof.
  intros HF Hu Hm Hh. unfold HandlePageFault. unfold find_region at 1. rewrite gets_ret, HF, Hu, Hm, Hh. reflexivity.
Qed.

(** Every fault in a region is taken for its first: a region that already has frames gets new
    ones, its contents are lost, and its old frames stay marked used although no region has them. *)
Theorem fault_discards_contents IsHigherHalf message n st r p np c address reason : (forall p, 0 <= p < 2 ^ 46 -> ToHigherHalf p = p + hhdm) ->
  ready pm top ((depth pm - 1) * Z.to_nat np + n) st -> memory_ok (pmm st) (addressSpace st) -> r ∈ regions (addressSpace st) ->
  owns r address -> user_region r -> (4096 | VirtualBase r) -> Size r = np * 4096 -> VirtualBase r + Size r <= 2 ^ 47 -> (PMM.AllocatePages (pmm st) np).1 <> 0 ->
  m_PhysicalBase r = p * 4096 -> block pm top hhdm st (VirtualBase r) p np c ->
  exists st', HandlePageFault pm gib top true IsHigherHalf message address reason st = Ret st' Resumed
  /\ (forall off, 0 <= off < Size r -> user_byte pm top st (VirtualBase r + off) = Some (c off) /\ user_byte pm top st' (VirtualBase r + off) = Some 0)
  /\ (forall j, p <= j < p + np -> used st' j = true /\ forall r', r' ∈ regions (addressSpace st') -> ~ backs j r').
Proof.
  intros HL Hr Hok Hin Ho Hu Hal Hsz Hend Hne Hp Hb. pose proof (o_space _ _ Hok) as Hsp. destruct (regions_ok _ _ Hsp Hin) as (Hv & Hpos & _).
  destruct (fault_run pm gib top hhdm HL IsHigherHalf message n st r np address reason Hr Hsp Hin Ho Hu Hal Hsz Hend Hne) as (st' & q & HF & Hr' & [V1 V2 V3 V4 V5 V6]).
  exists st'. split; [exact HF|]. destruct (b_frames _ _ _ _ _ _ _ _ Hb) as [Hp0 Hpe]. split.
  - intros off Hoff. split; [apply (block_byte pm top hhdm HL _ st _ p np c off Hr); trivial; lia|].
    apply (block_byte pm top hhdm HL n st' _ q np (fun _ => 0)); trivial. lia.
  - intros j Hj. pose proof (b_used _ _ _ _ _ _ _ _ Hb j Hj) as Hused. split; [rewrite V3 by lia; now destruct (decide _)|].
    intros r' Hr1 Hbk. rewrite V6 in Hr1. destruct (changed_ok (addressSpace st) r (SetPhysicalBase (q * 4096) r) Hsp Hin eq_refl) as [_ Hin']. apply Hin' in Hr1 as [->|[Hr1 Hne']].
    + apply (backs_range _ _ q np) in Hbk; trivial. rewrite V2 in Hused by lia. discriminate.
    + apply Hne'. change (VirtualBase (SetPhysicalBase (q * 4096) r)) with (VirtualBase r). f_equal. apply (o_apart _ _ Hok r' r j Hr1 Hin Hbk). split; lia.
Qed.
End Defects.

(** ** Witnesses, on the machine the loader is tried on *)
Lemma example_linear p : 0 <= p < 2 ^ 46 -> ToHigherHalf p = p + direct_map.
Proof. intros Hp. cbn [ToHigherHalf higher_half_ref]. unfold u64. rewrite wrap_small; [reflexivity|]. unfold direct_map. split; lia. Qed.
Lemma space0_regions r : ~ r ∈ regions space0.
Proof. intros Hr. apply list_elem_of_In in Hr. destruct Hr. Qed.
Lemma example_last length : length = 4000 \/ length = 5000 -> addresses_last space0 length.
Proof.
  intros Hl. split; [lia|]. intros alignment Ha. split; [|intros r []%space0_regions].
  rewrite !elem_of_cons, elem_of_nil in Ha. destruct Hl as [->| ->], Ha as [->|[->|[->|[]]]]; vm_compute; reflexivity.
Qed.
Lemma example_memory_ok : memory_ok (pmm example_machine) (addressSpace example_machine).
Proof.
  split; [exact space0_ok|reflexivity|exact booted_inv|reflexivity|..]; [intros r []%space0_regions|intros r []%space0_regions|intros r j []%space0_regions|intros r1 r2 j []%space0_regions].
Qed.
Definition example_state {A} (o : outcome (Machine BumpHeap (list bool) {l : list (Z * Region) | assoc_sorted l}) A) := default example_machine (after o).
Definition MAP_sample : Z := 0x22.
Definition example_mapped := example_state (MMap 0 4000 3 MAP_sample (-1) 0 example_machine).
Definition example_base : Z := 0x140000000.
Definition example_touched := example_state (pageFault eLevel4 true boot_top true (fun _ => true) 1 0 (example_base + 7) 6 example_mapped).
Definition example_missing (k : Z) (t : {l : list (Z * Region) | assoc_sorted l}) : option Region * {l : list (Z * Region) | assoc_sorted l} := (None, t).
Definition example_region : Region := mkRegion (mkRange example_base 0x1000) 0x1000 11 0.

Lemma example_translated : translated_inside eLevel4 boot_top example_machine.
Proof. intros x _ E. destruct E. change (view eLevel4 boot_top (boot_memory 8) x = None). apply boot_view. Qed.
Lemma mapped_memory_reads_zero_witness : exists base st1 st2, MMap 0 5000 3 MAP_sample (-1) 0 example_machine = Ret st1 (inr base)
  /\ load eLevel4 true boot_top (fun _ => true) 1 0 6 (base + 4097) st1 = Ret st2 (Some 0) /\ load eLevel4 true boot_top (fun _ => true) 1 0 4 (base + 8191) st2 = Ret st2 (Some 0).
Proof.
  destruct (mapped_memory_reads_zero eLevel4 true boot_top direct_map example_linear (fun _ => true) 1 0 example_machine 5000 3 MAP_sample (-1)) as (base & st1 & HM & _ & _ & _ & HF).
  - exact space0_ok.
  - lia.
  - reflexivity.
  - apply (proj2 (example_last 5000 (or_intror eq_refl))). left.
  - intros r a E. apply (f_equal fst) in E. cbn [fst] in E. assert (E' : Some r = Some (new_Region 0 example_base 0x2000)) by (rewrite <- E; vm_compute; reflexivity). injection E' as ->. vm_compute. discriminate.
  - exact example_ready.
  - vm_compute. discriminate.
  - exact example_translated.
  - destruct (HF 4097 0 6) as (st2 & E & Hz & _); [vm_compute; split; congruence|]. exists base, st1, st2. split; [exact HM|]. split; [exact E|]. apply Hz. vm_compute. split; congruence.
Defined.

Definition answer {A} (o : outcome (Machine BumpHeap (list bool) {l : list (Z * Region) | assoc_sorted l}) A) : option A := match o with Ret _ a => Some a | _ => None end.
Lemma answered {A} (o : outcome (Machine BumpHeap (list bool) {l : list (Z * Region) | assoc_sorted l}) A) a : answer o = Some a -> o = Ret (example_state o) a.
Proof. destruct o; try discriminate. cbn. now intros [= ->]. Qed.
Lemma Ret_inj {St A} (s s' : St) (a a' : A) : Ret s a = Ret s' a' -> s = s' /\ a = a'.
Proof. now intros [= -> ->]. Qed.
Lemma example_map_run : MMap 0 4000 3 MAP_sample (-1) 0 example_machine = Ret example_mapped (inr example_base).
Proof. apply answered. vm_compute. reflexivity. Qed.
Lemma example_fault_run : pageFault eLevel4 true boot_top true (fun _ => true) 1 0 (example_base + 7) 6 example_mapped = Ret example_touched Resumed.
Proof. apply answered. vm_compute. reflexivity. Qed.
Lemma example_history : rtc (memory_step eLevel4 true boot_top example_missing (fun _ => true) 1) example_machine example_touched.
Proof.
  apply (rtc_l _ _ example_mapped); [|apply rtc_once].
  - exact (step_map _ _ _ _ _ _ example_machine 0 4000 3 MAP_sample (-1) 0 _ _ ltac:(lia) (example_last 4000 (or_introl eq_refl)) example_map_run).
  - exact (step_fault _ _ _ _ _ _ _ true (example_base + 7) 0 6 _ _ example_fault_run).
Qed.
Lemma example_touched_regions : regions (addressSpace example_touched) = [example_region].
Proof. vm_compute. reflexivity. Qed.
Lemma example_touched_ok : memory_ok (pmm example_touched) (addressSpace example_touched).
Proof.
  pose proof example_memory_ok as Hok. revert Hok. generalize example_history. generalize example_machine, example_touched. induction 1 as [|s1 s2 s3 Hs _ IH]; [trivial|].
  intros Hok. apply IH. exact (memory_step_ok _ _ _ _ _ _ s1 s2 Hs Hok).
Qed.
(** After the fault the region has frame 1, which holds zeros. *)
Lemma example_resolved : ready eLevel4 boot_top 3 example_touched /\ block eLevel4 boot_top direct_map example_touched example_base 1 1 (fun _ => 0).
Proof.
  destruct (MMap_run example_machine 4000 3 MAP_sample (-1) space0_ok ltac:(lia) eq_refl (proj2 (example_last 4000 (or_introl eq_refl)) 4096 ltac:(left))) as (r & a & HM & Hok & Hin & _ & Hu & _ & Hal & Hsz & Hrok & Hend).
  { intros r a E. apply (f_equal fst) in E. cbn [fst] in E. assert (E' : Some r = Some (new_Region 0 example_base 0x1000)) by (rewrite <- E; vm_compute; reflexivity). injection E' as ->. vm_compute. discriminate. }
  pose proof example_map_run as HM'. rewrite HM in HM'. apply Ret_inj in HM' as [HM1 [= HM2]]. change (AlignUp 4000 4096) with (1 * 4096) in Hsz.
  destruct (fault_run eLevel4 true boot_top direct_map example_linear (fun _ => true) 1 3 example_mapped r 1 (example_base + 7) (pageFaultReason 0 6)) as (st' & p & HF & Hr & V); trivial.
  - rewrite <- HM1. destruct example_ready. now split.
  - rewrite <- HM1. exact Hok.
  - rewrite <- HM1. apply Hin. now left.
  - unfold owns. rewrite HM2, Hsz. lia.
  - vm_compute. discriminate.
  - pose proof example_fault_run as HF'. unfold pageFault in HF'. rewrite HF in HF'. apply Ret_inj in HF' as [-> _]. split; [exact Hr|].
    pose proof (v_block _ _ _ _ _ _ _ _ V) as Hb. rewrite HM2 in Hb. enough (p = 1) by now subst p.
    pose proof example_touched_regions as HR. rewrite (v_space _ _ _ _ _ _ _ _ V) in HR.
    destruct (changed_ok (addressSpace example_mapped) r (SetPhysicalBase (p * 4096) r) ltac:(rewrite <- HM1; exact Hok) ltac:(rewrite <- HM1; apply Hin; now left) eq_refl) as [_ Hin'].
    pose proof (proj2 (Hin' (SetPhysicalBase (p * 4096) r)) (or_introl eq_refl)) as HI. rewrite HR in HI. apply list_elem_of_singleton in HI.
    apply (f_equal m_PhysicalBase) in HI. cbn in HI. lia.
Qed.
Lemma example_region_in : example_region ∈ regions (addressSpace example_touched).
Proof. rewrite example_touched_regions. left. Qed.

Lemma memory_histories_witness : frame_used (pmm example_touched) 1 = true.
Proof.
  destruct (memory_histories eLevel4 true boot_top example_missing (fun _ => true) 1 example_machine example_touched example_memory_ok example_history) as (_ & Hu & _).
  apply (Hu example_region); [exact example_region_in|vm_compute; repeat split; congruence].
Defined.
Lemma munmap_leaves_translation_witness : exists st', MUnMap example_missing example_base 4000 example_touched = Ret st' (inr 0)
  /\ used st' 1 = false /\ sees eLevel4 boot_top st' (example_base + 5) = Some (leaf 0x1000 user_attributes, 1%nat).
Proof.
  pose (o := MUnMap example_missing example_base 4000 example_touched). assert (E : o = Ret (example_state o) (inr 0)) by (apply answered; vm_compute; reflexivity).
  exists (example_state o). split; [exact E|].
  destruct (munmap_leaves_translation eLevel4 boot_top direct_map example_missing example_touched example_region 1 1 (fun _ => 0) 4000 (example_state o) (inr 0)
    example_touched_ok example_region_in eq_refl eq_refl (proj2 example_resolved) E) as (_ & _ & _ & Hs & Hu).
  split; [apply Hu; lia|exact (Hs 5 ltac:(lia))].
Defined.
Lemma MProtect_refuses_witness : MProtect eLevel4 true boot_top example_base 4096 1 example_touched = Ret example_touched (inl EINVAL).
Proof. apply (MProtect_refuses eLevel4 true boot_top example_touched example_base 4096 1); [now exists 0x140000|unfold example_base; lia]. Defined.
Lemma segfault_not_ended_witness : HandlePageFault eLevel4 true boot_top true (fun _ => true) 1 0x1000 4 example_touched = Ret example_touched Unhandled.
Proof. apply (segfault_not_ended eLevel4 true boot_top (fun _ => true) 1 0x1000 4 example_touched); vm_compute; reflexivity. Defined.
Lemma fault_discards_contents_witness : exists st', HandlePageFault eLevel4 true boot_top true (fun _ => true) 1 example_base 2 example_touched = Ret st' Resumed /\ used st' 1 = true.
Proof.
  destruct (fault_discards_contents eLevel4 true boot_top direct_map (fun _ => true) 1 0 example_touched example_region 1 1 (fun _ => 0) example_base 2 example_linear
    (proj1 example_resolved) example_touched_ok example_region_in) as (st' & HF & _ & Hu).
  - vm_compute. split; congruence.
  - reflexivity.
  - now exists 0x140000.
  - reflexivity.
  - vm_compute. discriminate.
  - vm_compute. discriminate.
  - reflexivity.
  - exact (proj2 example_resolved).
  - exists st'. split; [exact HF|]. apply (Hu 1). lia.
Defined.

(** ** Regions of the kernel *)
Definition example_kernel : Kernel BumpHeap (list bool) {l : list (Z * Region) | assoc_sorted l} := mkKernel example_machine 0x4000000000.
(** Regions of the kernel are packed at multiples of eight bytes but mapped in whole pages: of
    two small regions in a row the second one's frame replaces the first one's, and both regions
    show the same memory. *)
Theorem kernel_regions_share_page :
  match (r1 ← MM_AllocateRegion eLevel4 true boot_top 100 (attr eRW); r2 ← MM_AllocateRegion eLevel4 true boot_top 100 (attr eRW); mret (r1, r2)) example_kernel with
  | Ret k (Some r1, Some r2) =>
      m_PhysicalBase r1 = 0x1000 /\ m_PhysicalBase r2 = 0x2000 /\ VirtualBase r2 = VirtualBase r1 + 104 /\ ~ apart r1 r2
      /\ view eLevel4 boot_top (pageMap (machine k)) (VirtualBase r1) = Some (leaf (m_PhysicalBase r2) (attr eRW), 1%nat)
  | _ => False
  end.
Proof. vm_compute. repeat split; try congruence. intros [X|X]; now apply X. Qed.
