(* ===== verification/Kasan.v ===== *)
(** * The address sanitizer

    [Debug/Kasan.cpp]: the shadow memory, in which one byte describes eight bytes of memory; marking
    of objects, globals and stack memory; and the checks the compiler inserts before every access.

    The check of an access is proved equivalent to a check of each of its bytes; what marking an
    object makes of the accesses to it is stated exactly, which shows what the sanitizer misses. *)

From Stdlib Require Import ZArith Lia Bool.
From stdpp Require Import base list numbers.
From S2P Require Import Prelude Effects.

Module Kasan.
Definition SHADOW_SHIFT : Z := 3.
Definition SHADOW_SCALE : Z := 1 .<< SHADOW_SHIFT.
Definition SHADOW_MASK : Z := (1 .<< SHADOW_SHIFT) - 1.
Definition ALLOCA_REDZONE_SIZE : Z := 32.
(** [ShadowType] is a byte. *)
Definition eUnpoisoned8Bytes : Z := 0.
Definition eStackLeft : Z := 0xf1.
Definition eStackMiddle : Z := 0xf2.
Definition eStackRight : Z := 0xf3.
Definition eUseAfterScope : Z := 0xf8.
Definition eGeneric : Z := 0xfa.
Inductive AccessType := eLoad | eStore.

(** The shadow memory, by its own addresses. *)
Record State := mkState { s_Initialized : bool; s_ShadowBase : Z; s_ShadowOffset : Z; shadow : Z -> Z }.
Definition with_shadow (m : Z -> Z) (s : State) : State := mkState (s_Initialized s) (s_ShadowBase s) (s_ShadowOffset s) m.
Definition Fill (m : Z -> Z) (dest value n : Z) : Z -> Z := fun x => if (dest <=? x) && (x <? dest + n) then value else m x.
Notation KasanM := (M State).

Section Sanitizer.
(** The offset of the direct map, and [Math::RoundUpToPowerOfTwo] of a number and an alignment. *)
Context (HigherHalfOffset : Z) (RoundUpToPowerOfTwo : Z -> Z -> Z).

Definition Initialize (shadowBase : Z) : KasanM unit :=
  update (fun s => mkState true shadowBase (u64 (shadowBase - (HigherHalfOffset .>> SHADOW_SHIFT))) (shadow s)).
Definition va_to_shadow (s : State) (address : Z) : Z := u64 ((address .>> SHADOW_SHIFT) + s_ShadowOffset s).
(** A violation stops the machine. *)
Definition PrintViolation (address size : Z) (accessType : AccessType) (shadowType : Z) : KasanM unit := panic.

(** ** Marking *)
Definition FillShadow (address size type : Z) : KasanM unit :=
  s ← get;
  if negb (s_Initialized s) then mret tt
  else
    _ ← Assert (address mod SHADOW_SCALE =? 0);
    _ ← Assert (size mod SHADOW_SCALE =? 0);
    update (fun s => with_shadow (Fill (shadow s) (va_to_shadow s address) type (size .>> SHADOW_SHIFT)) s).
Definition MarkRegion (address validSize totalSize type : Z) : KasanM unit :=
  s ← get;
  if negb (s_Initialized s) then mret tt
  else
    _ ← Assert (address mod SHADOW_SCALE =? 0);
    _ ← Assert (totalSize mod SHADOW_SCALE =? 0);
    let dest := va_to_shadow s address in
    let validShadowSize := validSize .>> SHADOW_SHIFT in
    let m := Fill (shadow s) dest eUnpoisoned8Bytes validShadowSize in
    let unalignedSize := validSize .& SHADOW_MASK in
    let m := if truthy unalignedSize then Fill m (dest + validShadowSize) (u8 unalignedSize) 1 else m in
    let poisonedShadowSize := u64 (totalSize - RoundUpToPowerOfTwo validSize SHADOW_SCALE) .>> SHADOW_SHIFT in
    let m := Fill m (dest + validShadowSize + (if truthy unalignedSize then 1 else 0)) type poisonedShadowSize in
    update (with_shadow m).

(** ** Checks *)
(** Nothing, or the shadow byte that forbids the access.  The shadow is unsigned. *)
Definition check_granule (s : State) (address last : Z) : option Z :=
  let value := shadow s (va_to_shadow s address) in
  let minimalValidShadow := (u64 (address + last) .& SHADOW_MASK) + 1 in
  if (value =? eUnpoisoned8Bytes) || (minimalValidShadow <=? value) then None else Some value.
Definition same_granule (address last : Z) : bool := (address .>> SHADOW_SHIFT) =? (u64 (address + last) .>> SHADOW_SHIFT).
Definition both (first second : option Z) : option Z := match first with Some t => Some t | None => second end.
Definition Check1ShadowByte (s : State) (address : Z) : option Z := check_granule s address 0.
Definition Check2ShadowBytes (s : State) (address : Z) : option Z :=
  if negb (same_granule address 1) then both (Check1ShadowByte s address) (Check1ShadowByte s (u64 (address + 1))) else check_granule s address 1.
Definition Check4ShadowBytes (s : State) (address : Z) : option Z :=
  if negb (same_granule address 3) then both (Check2ShadowBytes s address) (Check2ShadowBytes s (u64 (address + 2))) else check_granule s address 3.
Definition Check8ShadowBytes (s : State) (address : Z) : option Z :=
  if negb (same_granule address 7) then both (Check4ShadowBytes s address) (Check4ShadowBytes s (u64 (address + 4))) else check_granule s address 7.

(** The three loops; each turn takes at least one byte, so [n] turns are enough. *)
Fixpoint head_loop (fuel : nat) (s : State) (address n : Z) : Z + Z * Z :=
  match fuel with
  | O => inr (address, n)
  | S fuel =>
      if truthy (address mod 8) && (0 <? n) then
        match Check1ShadowByte s address with Some t => inl t | None => head_loop fuel s (u64 (address + 1)) (n - 1) end
      else inr (address, n)
  end.
Fixpoint middle_loop (fuel : nat) (s : State) (address n : Z) : Z + Z * Z :=
  match fuel with
  | O => inr (address, n)
  | S fuel =>
      if 8 <=? n then
        match Check8ShadowBytes s address with Some t => inl t | None => middle_loop fuel s (u64 (address + 8)) (n - 8) end
      else inr (address, n)
  end.
Fixpoint tail_loop (fuel : nat) (s : State) (address n : Z) : Z + Z * Z :=
  match fuel with
  | O => inr (address, n)
  | S fuel =>
      if 0 <? n then
        match Check1ShadowByte s address with Some t => inl t | None => tail_loop fuel s (u64 (address + 1)) (n - 1) end
      else inr (address, n)
  end.
Definition CheckN_ShadowBytes (s : State) (address n : Z) : option Z :=
  match head_loop (Z.to_nat n) s address n with
  | inl t => Some t
  | inr (address, n) =>
      match middle_loop (Z.to_nat n) s address n with
      | inl t => Some t
      | inr (address, n) => match tail_loop (Z.to_nat n) s address n with inl t => Some t | inr _ => None end
      end
  end.

Definition check_access (s : State) (address size : Z) : option Z :=
  if size =? 1 then Check1ShadowByte s address
  else if size =? 2 then Check2ShadowBytes s address
  else if size =? 4 then Check4ShadowBytes s address
  else if size =? 8 then Check8ShadowBytes s address
  else CheckN_ShadowBytes s address size.
Definition CheckShadowBytes (address size : Z) (accessType : AccessType) : KasanM unit :=
  s ← get;
  if size =? 0 then mret tt
  else if negb (s_Initialized s) then mret tt
  else if (address <? HigherHalfOffset) || (s_ShadowBase s <=? address) then mret tt
  else match check_access s address size with None => mret tt | Some t => PrintViolation address size accessType t end.

(** ** What the compiler calls *)
Definition asan_load (size address : Z) : KasanM unit := CheckShadowBytes address size eLoad.
Definition asan_store (size address : Z) : KasanM unit := CheckShadowBytes address size eStore.
Definition asan_report_load (size address : Z) : KasanM unit := PrintViolation address size eLoad eGeneric.
Definition asan_report_store (size address : Z) : KasanM unit := PrintViolation address size eStore eGeneric.
Definition asan_loadN (address size : Z) : KasanM unit := CheckShadowBytes address size eLoad.
Definition asan_storeN (address size : Z) : KasanM unit := CheckShadowBytes address size eStore.
Definition asan_report_load_n (address size : Z) : KasanM unit := PrintViolation address size eLoad eGeneric.
Definition asan_report_store_n (address size : Z) : KasanM unit := PrintViolation address size eStore eGeneric.
Record asan_global := mkGlobal { g_Address : Z; g_ValidSize : Z; g_TotalSize : Z }.
Definition asan_register_globals (globals : list asan_global) : KasanM unit :=
  each (fun g => MarkRegion (g_Address g) (g_ValidSize g) (g_TotalSize g) eGeneric) globals.
Definition asan_unregister_globals (globals : list asan_global) : KasanM unit :=
  each (fun g => MarkRegion (g_Address g) (g_TotalSize g) (g_TotalSize g) eUnpoisoned8Bytes) globals.
Definition asan_alloca_poison (address size : Z) : KasanM unit :=
  _ ← Assert (address mod ALLOCA_REDZONE_SIZE =? 0);
  let roundedSize := RoundUpToPowerOfTwo size ALLOCA_REDZONE_SIZE in
  _ ← FillShadow (u64 (address - ALLOCA_REDZONE_SIZE)) ALLOCA_REDZONE_SIZE eStackLeft;
  _ ← MarkRegion address size roundedSize eStackMiddle;
  FillShadow (u64 (address + roundedSize)) ALLOCA_REDZONE_SIZE eStackRight.
Definition asan_allocas_unpoison (start end_ : Z) : KasanM unit :=
  _ ← Assert (end_ <=? start);
  let size := u64 (end_ - start) in
  _ ← Assert (size mod SHADOW_SCALE =? 0);
  FillShadow start size eUnpoisoned8Bytes.
Definition asan_poison_stack_memory (address size : Z) : KasanM unit := FillShadow address (RoundUpToPowerOfTwo size SHADOW_SCALE) eUseAfterScope.
Definition asan_unpoison_stack_memory (address size : Z) : KasanM unit := FillShadow address (RoundUpToPowerOfTwo size SHADOW_SCALE) eUnpoisoned8Bytes.
End Sanitizer.
End Kasan.

Import Kasan.

(** ** Bytes *)
(** What the shadow says of one byte: its granule is open, or the byte lies in the open part. *)
Definition byte_ok (s : State) (a : Z) : Prop := shadow s (va_to_shadow s a) = 0 \/ a mod 8 + 1 <= shadow s (va_to_shadow s a).

Lemma shift3 a : a .>> SHADOW_SHIFT = a / 8.
Proof. now rewrite Z.shiftr_div_pow2 by (unfold SHADOW_SHIFT; lia). Qed.
Lemma mask7 a : a .& SHADOW_MASK = a mod 8.
Proof. change SHADOW_MASK with (Z.ones 3). now rewrite Z.land_ones by lia. Qed.
Lemma va_to_shadow_granule s a b : a / 8 = b / 8 -> va_to_shadow s a = va_to_shadow s b.
Proof. intros E. unfold va_to_shadow. now rewrite !shift3, E. Qed.

Section Checks.
Context (s : State).
Implicit Types (a n w : Z).
Definition open_from a n : Prop := forall i, 0 <= i < n -> byte_ok s (a + i).

Lemma open_split a n m : 0 <= n -> 0 <= m -> open_from a (n + m) <-> open_from a n /\ open_from (a + n) m.
Proof.
  intros Hn Hm. split.
  - intros H. split; intros i Hi; [apply H; lia|]. replace (a + n + i) with (a + (n + i)) by lia. apply H. lia.
  - intros [H1 H2] i Hi. destruct (Z.lt_ge_cases i n); [apply H1; lia|]. replace (a + i) with (a + n + (i - n)) by lia. apply H2. lia.
Qed.

(** Within a granule the last byte decides. *)
Lemma check_granule_spec a k : 0 <= a -> 0 <= k -> a + k < 2 ^ 64 -> a / 8 = (a + k) / 8 -> check_granule s a k = None <-> open_from a (k + 1).
Proof.
  intros Ha Hk Hlt E. unfold check_granule. unfold u64. rewrite (wrap_small 64) by (split; lia). rewrite mask7. set (v := shadow s (va_to_shadow s a)).
  assert (Hv : forall i, 0 <= i <= k -> shadow s (va_to_shadow s (a + i)) = v /\ (a + i) mod 8 <= (a + k) mod 8).
  { intros i Hi. assert (Hg : (a + i) / 8 = a / 8) by (Z.div_mod_to_equations; lia). split; [unfold v; now rewrite (va_to_shadow_granule s (a + i) a)|Z.div_mod_to_equations; lia]. }
  destruct ((v =? eUnpoisoned8Bytes) || _) eqn:Ec.
  - split; [intros _|trivial]. apply orb_true_iff in Ec. rewrite Z.eqb_eq, Z.leb_le in Ec. intros i Hi. destruct (Hv i ltac:(lia)) as [Ev Hm]. unfold byte_ok. rewrite Ev. unfold eUnpoisoned8Bytes in Ec. lia.
  - split; [discriminate|]. intros H. apply orb_false_iff in Ec. rewrite Z.eqb_neq, Z.leb_gt in Ec. specialize (H k ltac:(lia)). unfold byte_ok in H. rewrite (proj1 (Hv k ltac:(lia))) in H. unfold eUnpoisoned8Bytes in Ec. lia.
Qed.
Lemma both_none x y : both x y = None <-> x = None /\ y = None.
Proof. destruct x; cbn; naive_solver. Qed.
Lemma same_granule_spec a k : 0 <= a -> 0 <= k -> a + k < 2 ^ 64 -> same_granule a k = true <-> a / 8 = (a + k) / 8.
Proof. intros. unfold same_granule, u64. rewrite wrap_small by (split; lia). now rewrite !shift3, Z.eqb_eq. Qed.

Definition checks w (C : Z -> option Z) : Prop := forall a, 0 <= a -> a + w <= 2 ^ 64 -> C a = None <-> open_from a w.
(** Twice the width: one granule, or two halves. *)
Lemma wide_spec w C : 0 < w -> checks w C ->
  checks (2 * w) (fun a => if negb (same_granule a (2 * w - 1)) then both (C a) (C (u64 (a + w))) else check_granule s a (2 * w - 1)).
Proof.
  intros Hw HC a Ha Hlt. pose proof (same_granule_spec a (2 * w - 1) Ha ltac:(lia) ltac:(lia)) as Hg. destruct (same_granule a (2 * w - 1)); cbn [negb].
  - rewrite check_granule_spec by (try lia; now apply Hg). now replace (2 * w - 1 + 1) with (2 * w) by lia.
  - rewrite both_none. unfold u64. rewrite wrap_small by (split; lia). rewrite (HC a), (HC (a + w)) by lia. replace (2 * w) with (w + w) by lia. now rewrite open_split by lia.
Qed.
Lemma Check1_spec : checks 1 (Check1ShadowByte s).
Proof. intros a Ha Hlt. unfold Check1ShadowByte. rewrite check_granule_spec by (trivial; try lia; now rewrite Z.add_0_r). reflexivity. Qed.
Lemma Check2_spec : checks 2 (Check2ShadowBytes s).
Proof. exact (wide_spec 1 _ ltac:(lia) Check1_spec). Qed.
Lemma Check4_spec : checks 4 (Check4ShadowBytes s).
Proof. exact (wide_spec 2 _ ltac:(lia) Check2_spec). Qed.
Lemma Check8_spec : checks 8 (Check8ShadowBytes s).
Proof. exact (wide_spec 4 _ ltac:(lia) Check4_spec). Qed.

(** ** Loops *)
(** A loop stops at a byte that is not open, or has left an open part behind. *)
Definition scanned a n (r : Z + Z * Z) (P : Z -> Prop) : Prop :=
  match r with
  | inl _ => ~ open_from a n
  | inr (a', n') => a <= a' /\ a' + n' = a + n /\ 0 <= n' /\ open_from a (a' - a) /\ P n'
  end.
Lemma scanned_step w C a n r P : checks w C -> 0 < w <= n -> 0 <= a -> a + n < 2 ^ 64 -> C a = None -> scanned (a + w) (n - w) r P -> scanned a n r P.
Proof.
  intros HC Hw Ha Hlt E Hs. apply HC in E; [|lia|lia]. destruct r as [t|[a' n']]; cbn in *.
  - intros Hop. apply Hs. replace n with (w + (n - w)) in Hop by lia. now apply open_split in Hop as [_ ?]; [|lia..].
  - destruct Hs as (H1 & H2 & H3 & H4 & H5). split_and!; trivial; try lia. replace (a' - a) with (w + (a' - (a + w))) by lia. apply open_split; [lia..|]. now split.
Qed.
Lemma scanned_stop w C a n t P : checks w C -> 0 < w <= n -> 0 <= a -> a + n < 2 ^ 64 -> C a = Some t -> scanned a n (inl t) P.
Proof.
  intros HC Hw Ha Hlt E Hop. replace n with (w + (n - w)) in Hop by lia. apply open_split in Hop as [Hop _]; [|lia..]. apply HC in Hop; [congruence|lia|lia].
Qed.
Lemma scanned_end a n (P : Z -> Prop) : 0 <= n -> P n -> scanned a n (inr (a, n)) P.
Proof. intros Hn HP. cbn. split_and!; trivial; try lia. intros i Hi. lia. Qed.

Lemma head_loop_spec fuel : forall a n, 0 <= a -> 0 <= n -> a + n < 2 ^ 64 -> scanned a n (head_loop fuel s a n) (fun _ => True).
Proof.
  induction fuel as [|fuel IH]; intros a n Ha Hn Hlt; cbn [head_loop]; [now apply scanned_end|].
  destruct (truthy (a mod 8) && (0 <? n)) eqn:Ec; [|now apply scanned_end]. apply andb_true_iff in Ec as [_ Hpos%Z.ltb_lt].
  destruct (Check1ShadowByte s a) as [t|] eqn:E; [now apply (scanned_stop 1 _ a n t _ Check1_spec); [lia..|]|].
  unfold u64. rewrite wrap_small by (split; lia). apply (scanned_step 1 _ a n _ _ Check1_spec); try lia; trivial. apply IH; lia.
Qed.
Lemma middle_loop_spec fuel : forall a n, 0 <= a -> 0 <= n -> a + n < 2 ^ 64 -> scanned a n (middle_loop fuel s a n) (fun _ => True).
Proof.
  induction fuel as [|fuel IH]; intros a n Ha Hn Hlt; cbn [middle_loop]; [now apply scanned_end|].
  destruct (Z.leb_spec 8 n) as [Hpos|]; [|now apply scanned_end].
  destruct (Check8ShadowBytes s a) as [t|] eqn:E; [now apply (scanned_stop 8 _ a n t _ Check8_spec); [lia..|]|].
  unfold u64. rewrite wrap_small by (split; lia). apply (scanned_step 8 _ a n _ _ Check8_spec); try lia; trivial. apply IH; lia.
Qed.
Lemma tail_loop_spec fuel : forall a n, 0 <= a -> 0 <= n <= Z.of_nat fuel -> a + n < 2 ^ 64 -> scanned a n (tail_loop fuel s a n) (fun n' => n' = 0).
Proof.
  induction fuel as [|fuel IH]; intros a n Ha Hn Hlt; cbn [tail_loop]; [apply scanned_end; lia|].
  destruct (Z.ltb_spec 0 n) as [Hpos|]; [|apply scanned_end; lia].
  destruct (Check1ShadowByte s a) as [t|] eqn:E; [now apply (scanned_stop 1 _ a n t _ Check1_spec); [lia..|]|].
  unfold u64. rewrite wrap_small by (split; lia). apply (scanned_step 1 _ a n _ _ Check1_spec); try lia; trivial. apply IH; lia.
Qed.
Lemma CheckN_spec a n : 0 <= a -> 0 <= n -> a + n < 2 ^ 64 -> CheckN_ShadowBytes s a n = None <-> open_from a n.
Proof.
  intros Ha Hn Hlt. unfold CheckN_ShadowBytes. pose proof (head_loop_spec (Z.to_nat n) a n Ha Hn Hlt) as H1.
  destruct (head_loop _ s a n) as [t|[a1 n1]]; cbn in H1; [now split|]. destruct H1 as (A1 & A2 & A3 & A4 & _).
  pose proof (middle_loop_spec (Z.to_nat n1) a1 n1 ltac:(lia) A3 ltac:(lia)) as H2.
  assert (Hs1 : open_from a n <-> open_from a1 n1) by (replace n with (a1 - a + n1) by lia; rewrite open_split by lia; replace (a + (a1 - a)) with a1 by lia; tauto).
  destruct (middle_loop _ s a1 n1) as [t|[a2 n2]]; cbn in H2; [rewrite Hs1; now split|]. destruct H2 as (B1 & B2 & B3 & B4 & _).
  pose proof (tail_loop_spec (Z.to_nat n2) a2 n2 ltac:(lia) ltac:(lia) ltac:(lia)) as H3.
  assert (Hs2 : open_from a1 n1 <-> open_from a2 n2) by (replace n1 with (a2 - a1 + n2) by lia; rewrite open_split by lia; replace (a1 + (a2 - a1)) with a2 by lia; tauto).
  rewrite Hs1, Hs2. destruct (tail_loop _ s a2 n2) as [t|[a3 n3]]; cbn in H3; [now split|]. destruct H3 as (C1 & C2 & C3 & C4 & ->). split; [intros _|trivial].
  now replace n2 with (a3 - a2) by lia.
Qed.
Lemma check_access_spec a n : 0 <= a -> 0 < n -> a + n < 2 ^ 64 -> check_access s a n = None <-> open_from a n.
Proof.
  intros Ha Hn Hlt. unfold check_access. destruct (Z.eqb_spec n 1) as [->|]; [apply Check1_spec; lia|]. destruct (Z.eqb_spec n 2) as [->|]; [apply Check2_spec; lia|].
  destruct (Z.eqb_spec n 4) as [->|]; [apply Check4_spec; lia|]. destruct (Z.eqb_spec n 8) as [->|]; [apply Check8_spec; lia|]. apply CheckN_spec; lia.
Qed.
End Checks.

Lemma CheckShadowBytes_run HigherHalfOffset (s : State) address size kind : s_Initialized s = true -> 0 < size -> HigherHalfOffset <= address < s_ShadowBase s ->
  CheckShadowBytes HigherHalfOffset address size kind s = match check_access s address size with None => Ret s tt | Some _ => Panic end.
Proof.
  intros Hi Hs Hr. unfold CheckShadowBytes. rewrite get_ret. destruct (Z.eqb_spec size 0); [lia|]. rewrite Hi.
  destruct (Z.ltb_spec address HigherHalfOffset); [lia|]. destruct (Z.leb_spec (s_ShadowBase s) address); [lia|]. now destruct (check_access s address size).
Qed.

(** C33: the check of an access is the check of its bytes.  For every size, aligned or not, the routine
    that looks at one shadow byte per eight bytes lets an access to checked memory pass exactly if the
    shadow opens each byte of it, and stops the machine otherwise; it changes nothing. *)
Theorem CheckShadowBytes_bytewise HigherHalfOffset (s : State) address size kind : s_Initialized s = true -> 0 <= address -> 0 < size -> address + size < 2 ^ 64 ->
  HigherHalfOffset <= address < s_ShadowBase s ->
  (CheckShadowBytes HigherHalfOffset address size kind s = Ret s tt <-> forall i, 0 <= i < size -> byte_ok s (address + i)) /\
  (CheckShadowBytes HigherHalfOffset address size kind s = Panic <-> exists i, 0 <= i < size /\ ~ byte_ok s (address + i)).
Proof.
  intros Hi Ha Hs Hlt Hr. pose proof (check_access_spec s address size Ha Hs Hlt) as Hc. rewrite CheckShadowBytes_run by trivial.
  destruct (check_access s address size) as [t|]; split; split; try discriminate; try easy.
  - intros Hop. assert (X : Some t = None) by now apply Hc. discriminate.
  - intros _. destruct (decide (Forall (fun i => shadow s (va_to_shadow s (address + i)) = 0 \/ (address + i) mod 8 + 1 <= shadow s (va_to_shadow s (address + i))) (seqZ 0 size))) as [Hall|Hn].
    + assert (X : Some t = None); [|discriminate]. apply Hc. intros i Hi'. rewrite Forall_forall in Hall. apply Hall. apply list_elem_of_In, elem_of_seqZ. lia.
    + apply not_Forall_Exists in Hn; [|apply _]. apply Exists_exists in Hn as (i & Hin & Hn). apply list_elem_of_In, elem_of_seqZ in Hin. exists i. split; [lia|exact Hn].
  - intros _. now apply Hc.
  - intros (i & Hi' & Hn). destruct Hn. now apply (proj1 Hc eq_refl).
Qed.

(** ** Marking *)
Section Marking.
Context (RoundUpToPowerOfTwo : Z -> Z -> Z).
(** Rounding up to a multiple. *)
Hypothesis RoundUp_spec : forall x a, 0 <= x -> 0 < a -> x <= RoundUpToPowerOfTwo x a < x + a /\ (a | RoundUpToPowerOfTwo x a).
Implicit Types s : State.

Lemma va_shift s a k r : (8 | a) -> 0 <= k -> 0 <= r < 8 -> va_to_shadow s a + k < 2 ^ 64 -> va_to_shadow s (a + 8 * k + r) = va_to_shadow s a + k.
Proof.
  intros [q ->] Hk Hr. unfold va_to_shadow. rewrite !shift3, Z.div_mul by lia. replace ((q * 8 + 8 * k + r) / 8) with (q + k) by (Z.div_mod_to_equations; lia).
  set (x := q + s_ShadowOffset s). replace (q + k + s_ShadowOffset s) with (x + k) by lia. unfold u64, wrap. intros Hlt. pose proof (Z.mod_pos_bound x (2 ^ 64) ltac:(lia)).
  rewrite <- Zplus_mod_idemp_l. apply Z.mod_small. lia.
Qed.

(** An object of [valid] bytes in a block of [total] bytes. *)
Record markable s address valid total : Prop := {
  k_init : s_Initialized s = true;
  k_address : (8 | address);
  k_total : (8 | total);
  k_valid : 0 <= valid <= total;
  k_small : total < 2 ^ 64;
  k_shadow : va_to_shadow s address + total / 8 < 2 ^ 64
}.
Lemma MarkRegion_run s address valid total type : markable s address valid total ->
  exists s', MarkRegion RoundUpToPowerOfTwo address valid total type s = Ret s' tt
  /\ s_Initialized s' = true /\ s_ShadowBase s' = s_ShadowBase s /\ s_ShadowOffset s' = s_ShadowOffset s
  /\ (forall k, 0 <= k < total / 8 -> shadow s' (va_to_shadow s address + k) = if k <? valid / 8 then 0 else if 8 * k <? valid then valid mod 8 else type)
  /\ (forall x, ~ va_to_shadow s address <= x < va_to_shadow s address + total / 8 -> shadow s' x = shadow s x).
Proof.
  intros [Hi [q ->] [t Ht] Hv Hsm Hsh]. unfold MarkRegion. rewrite get_ret, Hi. cbn [negb]. rewrite !assert_ret by (subst; change SHADOW_SCALE with 8; rewrite ?Z.mod_mul by lia; reflexivity).
  destruct (RoundUp_spec valid 8 ltac:(lia) ltac:(lia)) as [Hup [u Hu]]. change SHADOW_SCALE with 8. rewrite !shift3, mask7. set (D := va_to_shadow s (q * 8)) in *.
  subst total. rewrite Z.div_mul in * by lia. pose proof (Z.div_mod valid 8 ltac:(lia)) as Hdm. pose proof (Z.mod_pos_bound valid 8 ltac:(lia)) as Hm.
  set (d := valid / 8) in *. set (r := valid mod 8) in *.
  unfold u64. rewrite (wrap_small 64) by (split; lia). rewrite Hu in *. replace (t * 8 - u * 8) with ((t - u) * 8) by lia. rewrite Z.div_mul by lia.
  assert (Hr8 : u8 r = r) by (apply wrap_small; split; lia). rewrite Hr8.
  eexists. split; [reflexivity|]. split; [exact Hi|]. split; [reflexivity|]. split; [reflexivity|]. cbn [shadow with_shadow]. unfold Fill, truthy, eUnpoisoned8Bytes.
  destruct (Z.eqb_spec r 0) as [Hr0|Hr0]; cbn [negb]; split; intros k Hk;
    repeat match goal with |- context [Z.leb ?x ?y] => destruct (Z.leb_spec x y) | |- context [Z.ltb ?x ?y] => destruct (Z.ltb_spec x y) end; cbn [andb]; try reflexivity; lia.
Qed.
(** Which bytes of the block are open. *)
Lemma marked_bytes s s' address valid total type : markable s address valid total -> MarkRegion RoundUpToPowerOfTwo address valid total type s = Ret s' tt ->
  forall off, 0 <= off < total -> byte_ok s' (address + off) <-> off < valid \/ (RoundUpToPowerOfTwo valid 8 <= off /\ (type = 0 \/ off mod 8 + 1 <= type)).
Proof.
  intros Hk E off Hoff. destruct (MarkRegion_run s address valid total type Hk) as (s1 & E1 & _ & _ & Hso & Hin & _). rewrite E1 in E. injection E as ->.
  destruct Hk as [Hi Hal [t Ht] Hv Hsm Hsh]. destruct (RoundUp_spec valid 8 ltac:(lia) ltac:(lia)) as [Hup [u Hu]].
  assert (Hva : va_to_shadow s' (address + off) = va_to_shadow s address + off / 8).
  { unfold va_to_shadow at 1. rewrite Hso. fold (va_to_shadow s (address + off)). pose proof (Z.div_mod off 8 ltac:(lia)). pose proof (Z.mod_pos_bound off 8 ltac:(lia)).
    replace (address + off) with (address + 8 * (off / 8) + off mod 8) at 1 by lia. apply va_shift; trivial; [Z.div_mod_to_equations; lia|]. subst total. rewrite Z.div_mul in Hsh by lia. Z.div_mod_to_equations. lia. }
  assert (Hmod : (address + off) mod 8 = off mod 8) by (destruct Hal as [q ->]; rewrite Z.add_comm; apply Z_mod_plus_full).
  unfold byte_ok. rewrite Hva, Hmod, Hin by (subst total; rewrite Z.div_mul by lia; Z.div_mod_to_equations; lia). rewrite Hu in *.
  destruct (Z.ltb_spec (off / 8) (valid / 8)); [split; [intros _; left|auto]; Z.div_mod_to_equations; lia|].
  destruct (Z.ltb_spec (8 * (off / 8)) valid); split; intros X; Z.div_mod_to_equations; lia.
Qed.

(** An object that is marked may be used as a whole, and an access that touches the rest of a last
    granule which the object does not fill is stopped. *)
Theorem objects_checked HigherHalfOffset s s' address valid total type off size kind : markable s address valid total -> 0 <= HigherHalfOffset <= address ->
  address + total <= s_ShadowBase s -> s_ShadowBase s < 2 ^ 64 -> MarkRegion RoundUpToPowerOfTwo address valid total type s = Ret s' tt -> 0 <= off -> 0 < size ->
  (off + size <= valid -> CheckShadowBytes HigherHalfOffset (address + off) size kind s' = Ret s' tt) /\
  (off + size <= total -> valid < off + size -> Z.max off valid < RoundUpToPowerOfTwo valid 8 -> CheckShadowBytes HigherHalfOffset (address + off) size kind s' = Panic).
Proof.
  intros Hk HH Hb Hb64 E Ho Hs. pose proof (marked_bytes s s' address valid total type Hk E) as Hbytes.
  destruct (MarkRegion_run s address valid total type Hk) as (s1 & E1 & Hi & Hsb & _). rewrite E1 in E. injection E as ->.
  destruct Hk as [_ _ _ Hv _ _]. destruct (RoundUp_spec valid 8 ltac:(lia) ltac:(lia)) as [Hup Hdiv]. split.
  - intros Hle. rewrite CheckShadowBytes_run by (trivial; rewrite ?Hsb; lia).
    rewrite (proj2 (check_access_spec s' (address + off) size ltac:(lia) Hs ltac:(lia))); [reflexivity|]. intros i Hi'. rewrite <- Z.add_assoc. apply Hbytes; lia.
  - intros Hle Hlt Hoff. rewrite CheckShadowBytes_run by (trivial; rewrite ?Hsb; lia).
    destruct (check_access s' (address + off) size) eqn:Ec; [reflexivity|]. exfalso. apply check_access_spec in Ec; [|lia..].
    set (x := Z.max off valid). specialize (Ec (x - off) ltac:(lia)). rewrite <- Z.add_assoc in Ec. apply Hbytes in Ec; [|lia]. lia.
Qed.

(** The shadow values that poison memory are compared as unsigned numbers and are larger than any
    offset in a granule: accesses to a red zone, or to freed memory, are never reported. *)
Theorem redzones_not_reported HigherHalfOffset s s' address valid total type off size kind : markable s address valid total -> 0 <= HigherHalfOffset <= address ->
  address + total <= s_ShadowBase s -> s_ShadowBase s < 2 ^ 64 -> type ∈ [eStackLeft; eStackMiddle; eStackRight; eUseAfterScope; eGeneric] ->
  MarkRegion RoundUpToPowerOfTwo address valid total type s = Ret s' tt -> RoundUpToPowerOfTwo valid 8 <= off -> 0 < size -> off + size <= total ->
  CheckShadowBytes HigherHalfOffset (address + off) size kind s' = Ret s' tt.
Proof.
  intros Hk HH Hb Hb64 Ht E Ho Hs Hle. pose proof (marked_bytes s s' address valid total type Hk E) as Hbytes.
  destruct (MarkRegion_run s address valid total type Hk) as (s1 & E1 & Hi & Hsb & _). rewrite E1 in E. injection E as ->.
  destruct Hk as [_ _ _ Hv _ _]. destruct (RoundUp_spec valid 8 ltac:(lia) ltac:(lia)) as [Hup Hdiv].
  assert (Ht8 : 8 <= type) by (rewrite !elem_of_cons, elem_of_nil in Ht; destruct Ht as [->|[->|[->|[->|[->|[]]]]]]; vm_compute; discriminate).
  rewrite CheckShadowBytes_run by (trivial; rewrite ?Hsb; lia).
  rewrite (proj2 (check_access_spec s' (address + off) size ltac:(lia) Hs ltac:(lia))); [reflexivity|]. intros i Hi'. rewrite <- Z.add_assoc. apply Hbytes; [lia|].
  right. split; [lia|right]. pose proof (Z.mod_pos_bound (off + i) 8 ltac:(lia)). lia.
Qed.
End Marking.

(** The assertion about the ends of an area of the stack is the wrong way round: unpoisoning an area
    whose end lies above its start stops the machine. *)
Theorem allocas_unpoison_stops s start end_ : start < end_ -> asan_allocas_unpoison start end_ s = Panic.
Proof. intros Hlt. unfold asan_allocas_unpoison. apply assert_panic. apply Z.leb_gt. lia. Qed.

(** ** Witnesses *)
Definition round_up (x a : Z) : Z := (x + a - 1) / a * a.
Lemma round_up_spec x a : 0 <= x -> 0 < a -> x <= round_up x a < x + a /\ (a | round_up x a).
Proof. intros Hx Ha. unfold round_up. split; [Z.div_mod_to_equations; nia|now exists ((x + a - 1) / a)]. Qed.
Definition sample_state : State := mkState true 0x10000 0x10000 (fun _ => 0).
Definition sample_marked : State := match MarkRegion round_up 0x1000 13 32 eGeneric sample_state with Ret s _ => s | _ => sample_state end.
Lemma sample_markable : markable sample_state 0x1000 13 32.
Proof. split; [reflexivity|now exists 512|now exists 4|lia|lia|vm_compute; reflexivity]. Qed.

Lemma sample_run : MarkRegion round_up 0x1000 13 32 eGeneric sample_state = Ret sample_marked tt.
Proof. unfold sample_marked. now destruct (MarkRegion_run round_up round_up_spec sample_state 0x1000 13 32 eGeneric sample_markable) as (s1 & -> & _). Qed.

Lemma CheckShadowBytes_bytewise_witness : CheckShadowBytes 0 0x100b 4 eLoad sample_marked = Panic.
Proof.
  destruct (CheckShadowBytes_bytewise 0 sample_marked 0x100b 4 eLoad) as [_ Hp]; [reflexivity|lia|lia|lia|vm_compute; split; congruence|].
  apply Hp. exists 3. split; [lia|]. vm_compute. intuition congruence.
Defined.
Lemma objects_checked_witness : CheckShadowBytes 0 0x1003 10 eStore sample_marked = Ret sample_marked tt /\ CheckShadowBytes 0 0x100c 4 eLoad sample_marked = Panic.
Proof.
  split.
  - apply (objects_checked round_up round_up_spec 0 sample_state sample_marked 0x1000 13 32 eGeneric 3 10 eStore sample_markable ltac:(lia) ltac:(discriminate) ltac:(reflexivity) sample_run); lia.
  - apply (objects_checked round_up round_up_spec 0 sample_state sample_marked 0x1000 13 32 eGeneric 12 4 eLoad sample_markable ltac:(lia) ltac:(discriminate) ltac:(reflexivity) sample_run); try lia. reflexivity.
Defined.
Lemma redzones_not_reported_witness : CheckShadowBytes 0 0x1010 8 eStore sample_marked = Ret sample_marked tt.
Proof.
  apply (redzones_not_reported round_up round_up_spec 0 sample_state sample_marked 0x1000 13 32 eGeneric 16 8 eStore sample_markable ltac:(lia) ltac:(discriminate) ltac:(reflexivity)
    ltac:(do 4 right; left) sample_run); [discriminate|lia|lia].
Defined.
Lemma allocas_unpoison_stops_witness : asan_allocas_unpoison 0x1000 0x1020 sample_state = Panic.
Proof. apply (allocas_unpoison_stops sample_state 0x1000 0x1020). lia. Defined.
