(* ===== verification/Firmware.v ===== *)
(** * Firmware tables

    [Firmware/DMI/SMBIOS.cpp]: the structures of the system management tables and their strings;
    [Firmware/DeviceTree/DeviceTree.cpp] and [Node.cpp]: the flattened device tree; and the lookup of
    tables of [Firmware/ACPI/ACPI.cpp].

    Memory is a function from addresses to bytes; texts and loops without a bound of their own have
    fuel. *)

From Stdlib Require Import ZArith Lia Bool.
From stdpp Require Import base gmap list numbers.
From S2P Require Import Prelude Prism Disk Effects.

(** ** Memory *)
Definition Bytes : Type := Z -> Z.
Definition le_at (mem : Bytes) (a : Z) (n : nat) : Z := le_word ((fun i => mem (a + Z.of_nat i)) <$> seq 0 n).
Definition be_at (mem : Bytes) (a : Z) (n : nat) : Z := le_word (rev ((fun i => mem (a + Z.of_nat i)) <$> seq 0 n)).
(** The length of a text that ends with a zero. *)
Fixpoint text_length (fuel : nat) (mem : Bytes) (a : Z) : option Z :=
  match fuel with
  | O => None
  | S fuel => if mem a =? 0 then Some 0 else match text_length fuel mem (a + 1) with Some n => Some (n + 1) | None => None end
  end.
(** These bytes lie at an address. *)
Definition holds (mem : Bytes) (a : Z) (bs : list Z) : Prop := forall i x, bs !! i = Some x -> mem (a + Z.of_nat i) = x.
Lemma lies_app mem a l1 l2 : holds mem a (l1 ++ l2) <-> holds mem a l1 /\ holds mem (a + Z.of_nat (length l1)) l2.
Proof.
  split.
  - intros H. split; intros i x Hx; [apply H; now apply lookup_app_l_Some|]. rewrite <- Z.add_assoc, <- Nat2Z.inj_add. apply H. rewrite lookup_app_r by lia. now replace (length l1 + i - length l1)%nat with i by lia.
  - intros [H1 H2] i x Hx. apply lookup_app_Some in Hx as [Hx|[Hi Hx]]; [now apply H1|]. apply H2 in Hx. rewrite <- Hx. f_equal. lia.
Qed.
Lemma lies_cons mem a x l : holds mem a (x :: l) <-> mem a = x /\ holds mem (a + 1) l.
Proof.
  change (x :: l) with ([x] ++ l). rewrite lies_app. cbn [length]. change (Z.of_nat 1) with 1. split; intros [H1 H2]; split; trivial.
  - specialize (H1 0%nat x eq_refl). now rewrite Z.add_0_r in H1.
  - intros i y Hy. destruct i; [injection Hy as <-; now rewrite Z.add_0_r|discriminate].
Qed.
Lemma text_length_spec mem a s fuel : holds mem a (s ++ [0]) -> Forall (fun x => x <> 0) s -> (length s < fuel)%nat -> text_length fuel mem a = Some (Z.of_nat (length s)).
Proof.
  revert a fuel. induction s as [|x s IH]; intros a fuel Hm Hz Hf; (destruct fuel as [|fuel]; [cbn in Hf; lia|]); cbn [text_length app length] in *.
  - apply lies_cons in Hm as [-> _]. reflexivity.
  - apply lies_cons in Hm as [-> Hm]. apply list.Forall_cons in Hz as [Hx Hz]. rewrite (proj2 (Z.eqb_neq _ _) Hx). rewrite (IH (a + 1) fuel Hm Hz) by lia. f_equal. lia.
Qed.

(** ** [Firmware/DMI/SMBIOS.cpp] *)
Module SMBIOS.
Definition eEndOfTable : Z := 127.
Definition Type_at (mem : Bytes) (header : Z) : Z := mem header.
Definition Length_at (mem : Bytes) (header : Z) : Z := mem (header + 1).

(** The loop of [DmiString], one turn for each text before. *)
Fixpoint skip_texts (n : nat) (fuel : nat) (mem : Bytes) (current : Z) : option Z :=
  match n with
  | O => Some current
  | S n => if mem current =? 0 then Some current else match text_length fuel mem current with Some k => skip_texts n fuel mem (current + k + 1) | None => None end
  end.
(** The address of a text; the number zero stands for an empty text of the kernel. *)
Definition DmiString (fuel : nat) (mem : Bytes) (header index : Z) : option (option Z) :=
  let current := header + Length_at mem header in
  if index =? 0 then Some None
  else match skip_texts (Z.to_nat (index - 1)) fuel mem current with Some a => Some (Some a) | None => None end.

Fixpoint double_zero (fuel : nat) (mem : Bytes) (strTab i : Z) : option Z :=
  match fuel with
  | O => None
  | S fuel => if negb (mem (strTab + i - 1) =? 0) || negb (mem (strTab + i) =? 0) then double_zero fuel mem strTab (i + 1) else Some i
  end.
Definition CalculateStructLength (fuel : nat) (mem : Bytes) (header : Z) : option Z :=
  match double_zero fuel mem (header + Length_at mem header) 1 with Some i => Some (Length_at mem header + i + 1) | None => None end.

(** The structures of the table, by their addresses; [None] if the fuel is used up. *)
Fixpoint enumerate (turns fuel : nat) (mem : Bytes) (tableStart tableEnd : Z) : option (list Z) :=
  match turns with
  | O => None
  | S turns =>
      if tableStart <? tableEnd then
        if Type_at mem tableStart =? eEndOfTable then Some [tableStart]
        else
          match CalculateStructLength fuel mem tableStart with
          | Some n => match enumerate turns fuel mem (tableStart + n) tableEnd with Some l => Some (tableStart :: l) | None => None end
          | None => None
          end
      else Some []
  end.
(** The entry point: the anchor, the length and the address of the table; [None] on the outside if the fuel is used up, on the inside if there is no table. *)
Definition Initialize (turns fuel : nat) (mem : Bytes) (entry32 : Z) : option (option (list Z)) :=
  if entry32 =? 0 then Some None
  else if negb (le_at mem entry32 4 =? 0x5f4d535f) then Some None
  else
    let structureTableLength := le_at mem (entry32 + 22) 2 in
    let structureTableAddress := le_at mem (entry32 + 24) 4 in
    match enumerate turns fuel mem structureTableAddress (structureTableAddress + structureTableLength) with Some l => Some (Some l) | None => None end.
End SMBIOS.
Import SMBIOS.

(** A structure of the specification: its type, the rest of its formatted area, its texts. *)
Record Structure := mkStructure { t_type : Z; t_rest : list Z; t_texts : list (list Z) }.
Definition texts_bytes (texts : list (list Z)) : list Z := concat ((fun s => s ++ [0]) <$> texts).
Definition text_area (texts : list (list Z)) : list Z := match texts with [] => [0; 0] | _ => texts_bytes texts ++ [0] end.
Definition structure_bytes (t : Structure) : list Z := [t_type t; 2 + Z.of_nat (length (t_rest t))] ++ t_rest t ++ text_area (t_texts t).
Definition structure_ok (t : Structure) : Prop := Forall (fun s => s <> [] /\ Forall (fun x => x <> 0) s) (t_texts t).

(** The index of the second of the first two zeros in a row; [prev]: the byte before was zero. *)
Fixpoint first_double (prev : bool) (l : list Z) : option nat :=
  match l with [] => None | x :: l => if prev && (x =? 0) then Some 0%nat else S <$> first_double (x =? 0) l end.
Lemma first_double_text p s r : s <> [] -> Forall (fun x => x <> 0) s -> first_double p (s ++ r) = (fun n => length s + n)%nat <$> first_double false r.
Proof.
  intros Hne Hz. revert p. induction Hz as [|x s Hx Hz IH]; intros p; [easy|]. cbn [app first_double]. rewrite (proj2 (Z.eqb_neq _ _) Hx), andb_false_r.
  destruct s as [|y s]; [cbn; now destruct (first_double false r)|]. rewrite (IH ltac:(discriminate) false). cbn [length]. now destruct (first_double false r).
Qed.
Lemma first_double_texts texts p : texts <> [] -> Forall (fun s => s <> [] /\ Forall (fun x => x <> 0) s) texts -> first_double p (texts_bytes texts ++ [0]) = Some (length (texts_bytes texts)).
Proof.
  intros Hne Ht. revert p Hne. induction Ht as [|s texts [Hs Hz] Ht IH]; intros p Hne; [easy|]. unfold texts_bytes in *. cbn [fmap list_fmap concat]. rewrite <- !List.app_assoc.
  rewrite first_double_text by trivial. cbn [app first_double andb]. change (0 =? 0) with true. rewrite !length_app. cbn [length].
  destruct texts as [|t texts]; [cbn; f_equal; lia|]. rewrite (IH true ltac:(discriminate)). cbn [fmap option_fmap option_map]. f_equal; lia.
Qed.
Lemma first_double_area texts : Forall (fun s => s <> [] /\ Forall (fun x => x <> 0) s) texts -> first_double false (text_area texts) = Some (length (text_area texts) - 1)%nat.
Proof.
  intros Ht. destruct texts as [|t texts]; [reflexivity|]. unfold text_area. rewrite first_double_texts by (trivial; discriminate). rewrite length_app. cbn [length]. f_equal. lia.
Qed.
Lemma double_zero_spec mem tab l : holds mem tab l -> forall rest done n fuel, l = done ++ rest -> done <> [] ->
  first_double (match list.last done with Some x => x =? 0 | None => false end) rest = Some n -> (n < fuel)%nat ->
  double_zero fuel mem tab (Z.of_nat (length done)) = Some (Z.of_nat (length done + n)).
Proof.
  intros Hm. induction rest as [|x rest IH]; intros done n fuel Hl Hne Hf Hfuel; [discriminate|]. destruct fuel as [|fuel]; [lia|]. cbn [double_zero first_double] in *.
  destruct (exists_last Hne) as (d & y & ->). rewrite list.last_snoc in Hf. rewrite length_app in *. cbn [length] in *.
  assert (Hy : mem (tab + Z.of_nat (length d + 1) - 1) = y).
  { replace (tab + Z.of_nat (length d + 1) - 1) with (tab + Z.of_nat (length d)) by lia. apply Hm. subst l. rewrite <- List.app_assoc. now rewrite lookup_app_r, Nat.sub_diag by lia. }
  assert (Hx : mem (tab + Z.of_nat (length d + 1)) = x) by (apply Hm; subst l; rewrite lookup_app_r by (rewrite length_app; cbn; lia); rewrite length_app; cbn [length]; now rewrite Nat.sub_diag).
  rewrite Hy, Hx. destruct (y =? 0) eqn:Ey, (x =? 0) eqn:Ex; cbn [andb negb orb] in *;
    [injection Hf as <-; f_equal; lia|..]; (destruct (first_double _ rest) as [m|] eqn:Em; [|discriminate]); injection Hf as <-;
    (pose proof (IH ((d ++ [y]) ++ [x]) m fuel) as H1; rewrite !length_app in H1; cbn [length] in H1; rewrite list.last_snoc, Ex in H1;
     replace (Z.of_nat (length d + 1) + 1) with (Z.of_nat (length d + 1 + 1)) by lia; rewrite H1; [f_equal; lia|now rewrite <- List.app_assoc|now destruct d|trivial|lia]).
Qed.

(** The length of a structure is the length of its bytes. *)
Lemma CalculateStructLength_spec mem a t fuel : structure_ok t -> holds mem a (structure_bytes t) -> (length (structure_bytes t) <= fuel)%nat ->
  CalculateStructLength fuel mem a = Some (Z.of_nat (length (structure_bytes t))).
Proof.
  intros Hok Hm Hf. unfold structure_bytes in Hm, Hf |- *. apply lies_app in Hm as [Hh Hm]. apply lies_app in Hm as [_ Hm]. cbn [length] in Hm.
  apply lies_cons in Hh as [_ Hh]. apply lies_cons in Hh as [Hlen _]. unfold CalculateStructLength, Length_at. rewrite Hlen. rewrite !length_app in *. cbn [length] in *.
  replace (a + (2 + Z.of_nat (length (t_rest t)))) with (a + Z.of_nat 2 + Z.of_nat (length (t_rest t))) by lia. pose proof (first_double_area _ Hok) as Hd.
  destruct (text_area (t_texts t)) as [|x area] eqn:Ea; [destruct (t_texts t) as [|? [|]]; unfold text_area in Ea; [discriminate|now destruct (texts_bytes _)..]|].
  cbn [first_double andb] in Hd. cbn [length] in *. destruct (first_double (x =? 0) area) as [m|] eqn:Em; [|discriminate]. injection Hd as Hd.
  change 1 with (Z.of_nat (length [x])) at 1. rewrite (double_zero_spec mem _ (x :: area) Hm area [x] m fuel eq_refl ltac:(discriminate)); [f_equal; cbn [length]; lia|exact Em|lia].
Qed.

(** The walk over the table finds every structure, in order, whatever their formatted areas and
    texts are, and ends at the end-of-table structure. *)
Theorem enumerate_structures mem ts last start tableEnd fuel : Forall structure_ok ts -> Forall (fun t => t_type t <> eEndOfTable) ts -> t_type last = eEndOfTable ->
  holds mem start (concat (structure_bytes <$> ts) ++ structure_bytes last) -> start + Z.of_nat (length (concat (structure_bytes <$> ts))) < tableEnd ->
  (length (concat (structure_bytes <$> ts)) <= fuel)%nat ->
  enumerate (S (length ts)) fuel mem start tableEnd = Some ((fun i => start + Z.of_nat (length (concat (structure_bytes <$> take i ts)))) <$> seq 0 (S (length ts))).
Proof.
  intros Hok Hty Hlast. revert start. induction Hok as [|t ts Ht Hok IH]; intros start Hm Hend Hf.
  - cbn [fmap list_fmap concat length app] in *. unfold structure_bytes in Hm. apply lies_cons in Hm as [Hm _]. cbn [enumerate]. rewrite (proj2 (Z.ltb_lt _ _)) by lia. unfold Type_at. rewrite Hm, Hlast. cbn. now rewrite Z.add_0_r.
  - apply list.Forall_cons in Hty as [Ht1 Hty]. cbn [fmap list_fmap concat] in *. rewrite <- List.app_assoc in Hm. apply lies_app in Hm as [Hm1 Hm2]. rewrite length_app in Hend, Hf.
    cbn [length]. set (n := S (length ts)) in *. cbn [enumerate]. rewrite (proj2 (Z.ltb_lt _ _)) by lia.
    assert (Hty1 : Type_at mem start = t_type t) by (unfold structure_bytes in Hm1; now apply lies_cons in Hm1 as [? _]). rewrite Hty1, (proj2 (Z.eqb_neq _ _) Ht1).
    rewrite (CalculateStructLength_spec mem start t fuel Ht Hm1) by lia. rewrite (IH Hty (start + Z.of_nat (length (structure_bytes t)))) by (trivial; lia).
    change (seq 0 (S n)) with (0%nat :: seq 1 n). rewrite <- (fmap_S_seq 0 n). cbn [take fmap list_fmap concat length]. f_equal. f_equal; [cbn; lia|].
    rewrite <- list_fmap_compose. apply list_fmap_ext. intros i k _. cbn [compose take fmap list_fmap concat]. rewrite length_app. cbn. lia.
Qed.

Lemma skip_texts_spec mem fuel texts : Forall (fun s => s <> [] /\ Forall (fun x => x <> 0) s) texts -> forall a i s, holds mem a (texts_bytes texts) -> (length (texts_bytes texts) <= fuel)%nat ->
  texts !! i = Some s -> exists b, skip_texts i fuel mem a = Some b /\ holds mem b (s ++ [0]).
Proof.
  induction 1 as [|t texts [Hne Hz] Ht IH]; intros a i s Hm Hf Hi; [discriminate|]. unfold texts_bytes in Hm, Hf. cbn [fmap list_fmap concat] in Hm, Hf.
  apply lies_app in Hm as [Hm1 Hm2]. rewrite !length_app in *. cbn [length] in *. destruct i as [|i]; [injection Hi as ->; exists a; now split|]. cbn [skip_texts].
  destruct t as [|x t]; [easy|]. pose proof Hm1 as Hm1'. apply lies_cons in Hm1' as [Hx _]. rewrite Hx. apply list.Forall_cons in Hz as Hz'. rewrite (proj2 (Z.eqb_neq _ _) (proj1 Hz')).
  rewrite (text_length_spec mem a (x :: t) fuel Hm1 Hz) by lia. replace (a + Z.of_nat (length (x :: t)) + 1) with (a + Z.of_nat (length (x :: t) + 1)) by lia. apply IH; trivial. unfold texts_bytes. lia.
Qed.
(** The text with a number from one on is the one with that number of the structure's texts. *)
Theorem DmiString_text mem a t i s fuel : structure_ok t -> holds mem a (structure_bytes t) -> (length (structure_bytes t) <= fuel)%nat -> t_texts t !! i = Some s ->
  exists b, DmiString fuel mem a (Z.of_nat i + 1) = Some (Some b) /\ holds mem b (s ++ [0]).
Proof.
  intros Hok Hm Hf Hi. unfold structure_bytes in Hm, Hf. apply lies_app in Hm as [Hh Hm]. apply lies_app in Hm as [_ Hm]. cbn [length] in Hm.
  apply lies_cons in Hh as [_ Hh]. apply lies_cons in Hh as [Hlen _]. rewrite !length_app in Hf. unfold text_area in Hm, Hf. destruct (t_texts t) as [|t1 texts] eqn:Et; [discriminate|]. rewrite <- Et in *.
  apply lies_app in Hm as [Hm _]. rewrite length_app in Hf. destruct (skip_texts_spec mem fuel (t_texts t) Hok _ i s Hm ltac:(lia) Hi) as (b & Hb & Hs). exists b. split; [|exact Hs].
  unfold DmiString, Length_at. rewrite Hlen. rewrite (proj2 (Z.eqb_neq (Z.of_nat i + 1) 0)) by lia. replace (Z.to_nat (Z.of_nat i + 1 - 1)) with i by lia.
  replace (a + (2 + Z.of_nat (length (t_rest t)))) with (a + Z.of_nat 2 + Z.of_nat (length (t_rest t))) by lia. now rewrite Hb.
Qed.

(** A table of a BIOS structure with two texts, one without texts and the end. *)
Definition table_example : list Structure :=
  [mkStructure 0 [0; 0; 1; 2] [[65; 66]; [49; 46; 48]]; mkStructure 4 [1; 0; 7] []].
Definition table_end : Structure := mkStructure 127 [2; 0] [].
Definition memory_of (base : Z) (bs : list Z) : Bytes := fun a => if a <? base then 0 else nth (Z.to_nat (a - base)) bs 0.
Lemma memory_of_holds base bs : holds (memory_of base bs) base bs.
Proof.
  intros i x Hx. unfold memory_of. rewrite (proj2 (Z.ltb_ge _ _)) by lia. replace (Z.to_nat (base + Z.of_nat i - base)) with i by lia.
  now apply nth_lookup_Some.
Qed.
Lemma enumerate_structures_witness :
  enumerate 3 64 (memory_of 0x9000 (concat (structure_bytes <$> table_example) ++ structure_bytes table_end)) 0x9000 0x9030 = Some [0x9000; 0x900e; 0x9015].
Proof.
  change [0x9000; 0x900e; 0x9015] with ((fun i => 0x9000 + Z.of_nat (length (concat (structure_bytes <$> take i table_example)))) <$> seq 0 (S (length table_example))).
  apply (enumerate_structures _ table_example table_end).
  - repeat constructor; try discriminate.
  - repeat constructor; discriminate.
  - reflexivity.
  - apply memory_of_holds.
  - vm_compute. reflexivity.
  - vm_compute. lia.
Defined.

(** ** [Firmware/DeviceTree/DeviceTree.cpp] and [Node.cpp]

    Nodes are numbered in the order of their allocation; a pointer to a node is its number, a null
    pointer is [None]. *)
Module DeviceTree.
Definition FDT_MAGIC : Z := 0xd00dfeed.
Definition eBeginNode : Z := 1.
Definition eEndNode : Z := 2.
Definition eProperty : Z := 3.
Definition eNop : Z := 4.
Definition eEnd : Z := 9.

Record Property := mkProperty { p_Parent : nat; p_Name : list Z; p_Data : Z; p_DataSize : Z }.
Record Node := mkNode { m_Parent : option nat; m_Name : list Z; m_Children : gmap (list Z) nat; m_Properties : gmap (list Z) Property }.
Definition InsertNode (name : list Z) (node : nat) (n : Node) : Node := mkNode (m_Parent n) (m_Name n) (<[name := node]> (m_Children n)) (m_Properties n).
Definition InsertProperty (name : list Z) (property : Property) (n : Node) : Node := mkNode (m_Parent n) (m_Name n) (m_Children n) (<[name := property]> (m_Properties n)).

(** The nodes allocated so far and the locals [root] and [current] of [ParseFDT]. *)
Record Parser := mkParser { nodes : list Node; root : option nat; current : option nat }.
(** A turn of the loop goes on at an offset, returns, uses a null pointer, or reads a text longer than the fuel. *)
Inductive Turn := Next (offset : Z) (p : Parser) | Return (result : bool) (p : Parser) | NullPointer | NoFuel.

(** A text that ends with a zero. *)
Definition text_at (fuel : nat) (mem : Bytes) (a : Z) : option (list Z) :=
  match text_length fuel mem a with Some n => Some ((fun i => mem (a + Z.of_nat i)) <$> seq 0 (Z.to_nat n)) | None => None end.

(** [eBeginNode]; [None]: the node is inserted at a null pointer. *)
Definition begin_node (name : list Z) (p : Parser) : option Parser :=
  let newNode := length (nodes p) in
  let new := mkNode (current p) (match root p with None => [47] | Some _ => name end) ∅ ∅ in
  match root p with
  | None => Some (mkParser (nodes p ++ [new]) (current p) (Some newNode))
  | Some _ =>
      match current p with
      | None => None
      | Some c => Some (mkParser (alter (InsertNode name newNode) c (nodes p) ++ [new]) (root p) (Some newNode))
      end
  end.
(** [eEndNode] *)
Definition end_node (p : Parser) : Parser :=
  let parent := match current p with Some c => match nodes p !! c with Some n => m_Parent n | None => None end | None => None end in
  mkParser (nodes p) (root p) (match parent with Some q => Some q | None => root p end).
(** [eProperty] *)
Definition add_property (name : list Z) (data size : Z) (p : Parser) : Parser :=
  match current p with
  | Some c => mkParser (alter (InsertProperty name (mkProperty c name data size)) c (nodes p)) (root p) (current p)
  | None => p
  end.

Section Parse.
Context `{PrismMath}.
Variable fuel : nat.
Variable mem : Bytes.

Definition turn (structureBlock stringBlock offset : Z) (p : Parser) : Turn :=
  let token := be_at mem (structureBlock + offset) 4 in
  let offset := offset + 4 in
  if token =? eBeginNode then
    match text_at fuel mem (structureBlock + offset) with
    | Some name =>
        match begin_node name p with
        | Some p => Next (AlignUp (offset + Z.of_nat (length name) + 1) 4) p
        | None => NullPointer
        end
    | None => NoFuel
    end
  else if token =? eEndNode then Next offset (end_node p)
  else if token =? eProperty then
    let m_Length := be_at mem (structureBlock + offset) 4 in
    let m_NameOffset := be_at mem (structureBlock + offset + 4) 4 in
    match text_at fuel mem (stringBlock + m_NameOffset) with
    | Some name => Next (AlignUp (offset + (8 + m_Length)) 4) (add_property name (structureBlock + offset + 8) m_Length p)
    | None => NoFuel
    end
  else if token =? eNop then Next offset p
  else if token =? eEnd then Return true p
  else Return false p.

(** The loop; the result is [None] if the fuel is used up, and then [None] if a null pointer was used. *)
Fixpoint fdt_loop (turns : nat) (structureBlock stringBlock size offset : Z) (p : Parser) : option (option (bool * Parser)) :=
  match turns with
  | O => None
  | S turns =>
      if offset <? size then
        match turn structureBlock stringBlock offset p with
        | Next offset p => fdt_loop turns structureBlock stringBlock size offset p
        | Return result p => Some (Some (result, p))
        | NullPointer => Some None
        | NoFuel => None
        end
      else Some (Some (true, p))
  end.
(** The result, the nodes and the new [s_RootNode] (kept when the parser gives up). *)
Definition ParseFDT (turns : nat) (header : Z) (s_RootNode : option nat) : option (option (bool * list Node * option nat)) :=
  let structureBlock := header + be_at mem (header + 8) 4 in
  let stringBlock := header + be_at mem (header + 12) 4 in
  match fdt_loop turns structureBlock stringBlock (be_at mem (header + 36) 4) 0 (mkParser [] None None) with
  | Some (Some (result, p)) => Some (Some (result, nodes p, if result then root p else s_RootNode))
  | Some None => Some None
  | None => None
  end.
(** On x86-64 a null header is an error; [header] is the address in the direct map. *)
Definition Initialize (turns : nat) (header : Z) (s_RootNode : option nat) : option (option (bool * list Node * option nat)) :=
  if header =? 0 then Some (Some (false, [], s_RootNode))
  else if negb (be_at mem header 4 =? FDT_MAGIC) then Some (Some (false, [], s_RootNode))
  else ParseFDT turns header s_RootNode.
End Parse.
End DeviceTree.
Import DeviceTree.

Section ParseEnds.
Context `{PrismMath}.
Variable fuel : nat.
Variable mem : Bytes.
Hypothesis bytes : forall a, byte (mem a).
Hypothesis texts_end : forall a, exists n, text_length fuel mem a = Some n.

Lemma le_word_nonneg bs : Forall byte bs -> 0 <= le_word bs.
Proof. induction 1 as [|x bs Hx Hb IH]; cbn [le_word]; [lia|]. unfold byte in Hx. lia. Qed.
Lemma be_at_nonneg a n : 0 <= be_at mem a n.
Proof. apply le_word_nonneg, Forall_rev, Forall_fmap, Forall_forall. intros i _. apply bytes. Qed.
Lemma texts_found a : exists s, text_at fuel mem a = Some s.
Proof. unfold text_at. destruct (texts_end a) as (n & ->). eauto. Qed.

(** Once there is a root there is a current node. *)
Definition safe (p : Parser) : Prop := root p <> None -> current p <> None.
Lemma begin_node_safe name p : safe p -> exists p', begin_node name p = Some p' /\ safe p'.
Proof.
  unfold safe, begin_node. intros Hs. destruct (root p) as [r|]; [|eexists; split; [reflexivity|now cbn]].
  destruct (current p) as [c|]; [|now destruct (Hs ltac:(discriminate))]. eexists; split; [reflexivity|now cbn].
Qed.
Lemma end_node_safe p : safe (end_node p).
Proof. unfold safe, end_node. cbn. intros Hr. now destruct (match current p with Some c => _ | None => None end). Qed.
Lemma add_property_safe name data size p : safe p -> safe (add_property name data size p).
Proof. unfold safe, add_property. now destruct (current p) eqn:Ec; [cbn; rewrite ?Ec|rewrite Ec]. Qed.

Lemma turn_safe sb tb offset p : 0 <= offset -> safe p ->
  match turn fuel mem sb tb offset p with Next o p' => offset + 4 <= o /\ safe p' | Return _ _ => True | NullPointer | NoFuel => False end.
Proof.
  intros Ho Hs. unfold turn. destruct (be_at mem (sb + offset) 4 =? eBeginNode).
  - destruct (texts_found (sb + (offset + 4))) as (name & ->). destruct (begin_node_safe name p Hs) as (p' & -> & Hs'). split; [|exact Hs'].
    pose proof (AlignUp_ge (offset + 4 + Z.of_nat (length name) + 1) 4 ltac:(lia) ltac:(lia)). lia.
  - destruct (_ =? eEndNode); [split; [lia|apply end_node_safe]|]. destruct (_ =? eProperty).
    + set (len := be_at mem (sb + (offset + 4)) 4). assert (Hl : 0 <= len) by apply be_at_nonneg. destruct (texts_found (tb + be_at mem (sb + (offset + 4) + 4) 4)) as (name & ->).
      split; [|now apply add_property_safe]. pose proof (AlignUp_ge (offset + 4 + (8 + len)) 4 ltac:(lia) ltac:(lia)). lia.
    + destruct (_ =? eNop); [split; [lia|exact Hs]|]. now destruct (_ =? eEnd).
Qed.
Lemma fdt_loop_ends sb tb size turns offset p : 0 <= offset -> safe p -> 0 < Z.of_nat turns -> size - offset <= 4 * (Z.of_nat turns - 1) ->
  exists r, fdt_loop fuel mem turns sb tb size offset p = Some (Some r).
Proof.
  revert offset p. induction turns as [|turns IH]; intros offset p Ho Hs Ht Hsz; [lia|]. cbn [fdt_loop]. destruct (offset <? size) eqn:E; [|eauto]. apply Z.ltb_lt in E.
  pose proof (turn_safe sb tb offset p Ho Hs) as Hturn. destruct (turn fuel mem sb tb offset p) as [o p'|b p'| |]; [|eauto|easy|easy]. destruct Hturn as [Ho' Hs']. apply IH; trivial; lia.
Qed.
(** On every blob, even one that is not a device tree, the parser returns after at most one turn
    for every four bytes of the structure block, and it never uses a null pointer. *)
Theorem ParseFDT_ends header s turns : 0 < Z.of_nat turns -> be_at mem (header + 36) 4 <= 4 * (Z.of_nat turns - 1) ->
  exists r, ParseFDT fuel mem turns header s = Some (Some r).
Proof.
  intros Ht Hsz. unfold ParseFDT. destruct (fdt_loop_ends (header + be_at mem (header + 8) 4) (header + be_at mem (header + 12) 4) (be_at mem (header + 36) 4) turns 0 (mkParser [] None None)) as ([b p] & ->); [lia|easy|lia|lia|].
  eauto.
Qed.
End ParseEnds.

(** *** Trees

    A node of a device tree: its name, its properties (the offset of the name, the name, the data)
    and its nodes. *)
Inductive Tree := T (name : list Z) (props : list (Z * list Z * list Z)) (children : list Tree).
Definition tree_name (t : Tree) : list Z := let 'T name _ _ := t in name.
Inductive Token := KBegin (name : list Z) | KEnd | KProperty (offset : Z) (name data : list Z).
Fixpoint tokens (t : Tree) : list Token :=
  let 'T name props children := t in
  [KBegin name] ++ ((fun '(o, n, d) => KProperty o n d) <$> props) ++ concat (map tokens children) ++ [KEnd].

Definition be_bytes4 (x : Z) : list Z := rev (le_bytes 4 x).
(** The zeros after so many bytes up to the next word. *)
Definition padding (n : nat) : list Z := replicate ((4 - n mod 4) mod 4) 0.
Definition padded (bs : list Z) : list Z := bs ++ padding (length bs).
Definition token_bytes (k : Token) : list Z :=
  match k with
  | KBegin name => be_bytes4 eBeginNode ++ padded (name ++ [0])
  | KEnd => be_bytes4 eEndNode
  | KProperty offset name data => be_bytes4 eProperty ++ be_bytes4 (Z.of_nat (length data)) ++ be_bytes4 offset ++ padded data
  end.
(** A token fits its fields, and the name of a property lies in the string block. *)
Definition token_ok (mem : Bytes) (stringBlock : Z) (k : Token) : Prop :=
  match k with
  | KBegin name => Forall (fun x => x <> 0) name
  | KEnd => True
  | KProperty offset name data => 0 <= offset < 2 ^ 32 /\ Z.of_nat (length data) < 2 ^ 32 /\ Forall (fun x => x <> 0) name /\ holds mem (stringBlock + offset) (name ++ [0])
  end.

(** What a token does; the data of a property lies somewhere in memory. *)
Inductive token_step (mem : Bytes) : Token -> Parser -> Parser -> Prop :=
| step_begin name p p' : begin_node name p = Some p' -> token_step mem (KBegin name) p p'
| step_end p : token_step mem KEnd p (end_node p)
| step_property o name data a p : holds mem a data -> token_step mem (KProperty o name data) p (add_property name a (Z.of_nat (length data)) p).
Inductive runs (mem : Bytes) : list Token -> Parser -> Parser -> Prop :=
| runs_nil p : runs mem [] p p
| runs_cons k ks p1 p2 p3 : token_step mem k p1 p2 -> runs mem ks p2 p3 -> runs mem (k :: ks) p1 p3.
Lemma runs_app mem ks1 ks2 p p' : runs mem (ks1 ++ ks2) p p' <-> exists q, runs mem ks1 p q /\ runs mem ks2 q p'.
Proof.
  split.
  - revert p. induction ks1 as [|k ks1 IH]; intros p Hr; [exists p; split; [constructor|exact Hr]|]. inversion Hr as [|? ? ? p2 ? Hk Hks]; subst. destruct (IH _ Hks) as (q & H1 & H2). exists q. split; [econstructor; eassumption|exact H2].
  - intros (q & H1 & H2). induction H1; [exact H2|]. econstructor; [eassumption|now apply IHruns].
Qed.

(** **** The bytes of the structure block *)
Lemma le_word_map mem a n bs : length bs = n -> holds mem a bs -> (fun i => mem (a + Z.of_nat i)) <$> seq 0 n = bs.
Proof.
  intros Hl Hm. apply list_eq. intros i. rewrite list_lookup_fmap. destruct (decide (i < n)%nat) as [Hi|Hi].
  - rewrite lookup_seq_lt by lia. cbn. destruct (lookup_lt_is_Some_2 bs i ltac:(lia)) as (x & Hx). rewrite Hx. f_equal. now apply Hm.
  - rewrite lookup_seq_ge by lia. cbn. symmetry. apply lookup_ge_None_2. lia.
Qed.
Lemma be_at_bytes mem a x : 0 <= x < 2 ^ 32 -> holds mem a (be_bytes4 x) -> be_at mem a 4 = x.
Proof. intros Hx Hm. unfold be_at. rewrite (le_word_map mem a 4 (be_bytes4 x)) by trivial. unfold be_bytes4. rewrite rev_involutive, le_word_le_bytes. now apply Z.mod_small. Qed.
Lemma text_at_bytes mem a s fuel : holds mem a (s ++ [0]) -> Forall (fun x => x <> 0) s -> (length s < fuel)%nat -> text_at fuel mem a = Some s.
Proof. intros Hm Hz Hf. unfold text_at. rewrite (text_length_spec mem a s fuel Hm Hz Hf), Nat2Z.id. apply lies_app in Hm as [Hm _]. now rewrite (le_word_map mem a (length s) s). Qed.
Lemma padded_length bs : (4 | Z.of_nat (length (padded bs))) /\ (length bs <= length (padded bs) < length bs + 4)%nat.
Proof.
  unfold padded, padding. rewrite length_app, length_replicate. pose proof (Nat.div_mod_eq (length bs) 4). pose proof (Nat.mod_upper_bound (length bs) 4 ltac:(lia)).
  destruct (decide (length bs mod 4 = 0)%nat) as [E|E]; [rewrite E in *; change ((4 - 0) mod 4)%nat with 0%nat|rewrite (Nat.mod_small (4 - length bs mod 4)) by lia];
    (split; [|lia]); [exists (Z.of_nat (length bs / 4))|exists (Z.of_nat (length bs / 4) + 1)]; lia.
Qed.
Lemma token_bytes_words k : (4 | Z.of_nat (length (token_bytes k))) /\ (4 <= length (token_bytes k))%nat.
Proof.
  destruct k as [name| |o name data]; cbn [token_bytes]; rewrite ?length_app; change (length (be_bytes4 _)) with 4%nat; [|split; [now exists 1|lia]|];
    [destruct (padded_length (name ++ [0])) as [[q Hq] _]; (split; [exists (q + 1)|]); lia|destruct (padded_length data) as [[q Hq] _]; (split; [exists (q + 3)|]); lia].
Qed.
Section Bytes.
Context `{PrismMath}.
Lemma AlignUp_padded (o : Z) (bs : list Z) : 0 <= o -> (4 | o) -> AlignUp (o + Z.of_nat (length bs)) 4 = o + Z.of_nat (length (padded bs)).
Proof.
  intros Ho [a Ha]. destruct (padded_length bs) as [[b Hb] Hl]. pose proof (AlignUp_ge (o + Z.of_nat (length bs)) 4 ltac:(lia) ltac:(lia)). destruct (AlignUp_divide (o + Z.of_nat (length bs)) 4 ltac:(lia) ltac:(lia)) as [c Hc]. lia.
Qed.
(** A turn of the loop at the bytes of a token does what the token does. *)
Lemma turn_token mem fuel sb tb k offset p : token_ok mem tb k -> holds mem (sb + offset) (token_bytes k) -> 0 <= offset -> (4 | offset) ->
  (match k with KBegin name | KProperty _ name _ => length name < fuel | KEnd => True end)%nat -> safe p ->
  exists p', turn fuel mem sb tb offset p = Next (offset + Z.of_nat (length (token_bytes k))) p' /\ token_step mem k p p' /\ safe p'.
Proof.
  intros Hok Hm Ho Ha Hf Hs. pose proof Ha as [q Hq]. destruct k as [name| |o name data]; cbn [token_bytes token_ok] in *.
  - apply lies_app in Hm as [H1 H2]. change (length (be_bytes4 _)) with 4%nat in H2. unfold padded in H2. apply lies_app in H2 as [H2 _]. destruct (begin_node_safe name p Hs) as (p' & Hp' & Hs'). exists p'.
    unfold turn. rewrite (be_at_bytes mem _ eBeginNode) by (trivial; now cbn). change (eBeginNode =? eBeginNode) with true. cbv iota. replace (sb + (offset + 4)) with (sb + offset + Z.of_nat 4) by lia. rewrite (text_at_bytes mem _ name fuel) by trivial. rewrite Hp'.
    split_and!; trivial; [|now constructor]. f_equal. rewrite length_app. change (length (be_bytes4 eBeginNode)) with 4%nat.
    pose proof (AlignUp_padded (offset + 4) (name ++ [0]) ltac:(lia) ltac:(exists (q + 1); lia)) as Hal. rewrite length_app in Hal. cbn [length] in Hal. replace (offset + 4 + Z.of_nat (length name) + 1) with (offset + 4 + Z.of_nat (length name + 1)) by lia. rewrite Hal. lia.
  - exists (end_node p). unfold turn. rewrite (be_at_bytes mem _ eEndNode) by (trivial; now cbn). change (eEndNode =? eBeginNode) with false. change (eEndNode =? eEndNode) with true. split_and!; [reflexivity|constructor|apply end_node_safe].
  - destruct Hok as (Hoff & Hlen & Hz & Hname). rewrite !lies_app in Hm. change (length (be_bytes4 _)) with 4%nat in Hm. destruct Hm as (H1 & H2 & H3 & H4). unfold padded in H4. apply lies_app in H4 as [H4 _].
    exists (add_property name (sb + offset + Z.of_nat 4 + Z.of_nat 4 + Z.of_nat 4) (Z.of_nat (length data)) p). unfold turn. rewrite (be_at_bytes mem _ eProperty) by (trivial; now cbn). change (eProperty =? eBeginNode) with false. change (eProperty =? eEndNode) with false. change (eProperty =? eProperty) with true. cbv iota.
    replace (sb + (offset + 4)) with (sb + offset + Z.of_nat 4) by lia. rewrite (be_at_bytes mem (sb + offset + Z.of_nat 4) (Z.of_nat (length data))) by (trivial; lia).
    replace (sb + offset + Z.of_nat 4 + 4) with (sb + offset + Z.of_nat 4 + Z.of_nat 4) by lia. rewrite (be_at_bytes mem _ o) by trivial. rewrite (text_at_bytes mem _ name fuel) by trivial.
    split_and!; [|now constructor|now apply add_property_safe]. f_equal; [|f_equal; lia]. rewrite !length_app. change (length (be_bytes4 _)) with 4%nat.
    pose proof (AlignUp_padded (offset + 12) data ltac:(lia) ltac:(exists (q + 3); lia)) as Hal. replace (offset + 4 + (8 + Z.of_nat (length data))) with (offset + 12 + Z.of_nat (length data)) by lia. rewrite Hal. lia.
Qed.
End Bytes.

(** **** What the nodes of the parser represent

    A property or a node that is there twice is the last one. *)
Fixpoint last_with {A} (key : A -> list Z) (k : list Z) (l : list A) : option A :=
  match l with
  | [] => None
  | x :: l => match last_with key k l with Some y => Some y | None => if decide (key x = k) then Some x else None end
  end.
Lemma last_with_snoc {A} (key : A -> list Z) k l x : last_with key k (l ++ [x]) = if decide (key x = k) then Some x else last_with key k l.
Proof. induction l as [|y l IH]; cbn [app last_with]; [reflexivity|]. rewrite IH. now destruct (decide (key x = k)). Qed.
Definition prop_name (p : Z * list Z * list Z) : list Z := p.1.2.

(** A map has an entry for every key of a list, related to the last element with that key, and no others. *)
Definition tracks {A B} (key : A -> list Z) (R : A -> B -> Prop) (m : gmap (list Z) B) (l : list A) : Prop :=
  forall k, match last_with key k l, m !! k with Some x, Some y => R x y | None, None => True | _, _ => False end.
Lemma tracks_snoc {A B} key (R : A -> B -> Prop) m l x y : tracks key R m l -> R x y -> tracks key R (<[key x := y]> m) (l ++ [x]).
Proof.
  intros Ht Hr k. rewrite last_with_snoc. destruct (decide (key x = k)) as [<-|Hk]; [now rewrite lookup_insert_eq|]. rewrite lookup_insert_ne by trivial. apply Ht.
Qed.
Lemma tracks_impl {A B} key (R R' : A -> B -> Prop) m l : (forall x y, R x y -> R' x y) -> tracks key R m l -> tracks key R' m l.
Proof. intros Hi Ht k. specialize (Ht k). destruct (last_with key k l), (m !! k); auto. Qed.
Definition property_of (mem : Bytes) (x : Z * list Z * list Z) (y : Property) : Prop :=
  p_Name y = prop_name x /\ p_DataSize y = Z.of_nat (length x.2) /\ holds mem (p_Data y) x.2.

(** The node of this number shows the tree, to a depth, under a name of its own. *)
Fixpoint shows (depth : nat) (mem : Bytes) (ns : list Node) (label : list Z) (n : nat) (t : Tree) : Prop :=
  match depth with
  | O => True
  | S depth =>
      let 'T _ props children := t in
      exists nd, ns !! n = Some nd /\ m_Name nd = label /\ tracks prop_name (property_of mem) (m_Properties nd) props /\
        tracks tree_name (fun t n => shows depth mem ns (tree_name t) n t) (m_Children nd) children
  end.

(** These nodes lie in a store from a number on. *)
Definition stored (base : nat) (sub ns : list Node) : Prop := forall i nd, sub !! i = Some nd -> ns !! (base + i)%nat = Some nd.
Lemma stored_app base sub1 sub2 ns : stored base (sub1 ++ sub2) ns -> stored base sub1 ns /\ stored (base + length sub1) sub2 ns.
Proof.
  intros Hs. split; intros i nd Hi; [apply Hs; now apply lookup_app_l_Some|]. rewrite <- Nat.add_assoc. apply Hs. rewrite lookup_app_r by lia. now replace (length sub1 + i - length sub1)%nat with i by lia.
Qed.
Lemma alter_middle (f : Node -> Node) pre nd sub : alter f (length pre) (pre ++ nd :: sub) = pre ++ f nd :: sub.
Proof. rewrite alter_app_r_alt by lia. now rewrite Nat.sub_diag. Qed.
(** The children of a node are shown by the nodes after it. *)
Definition children_shown (mem : Bytes) (base : nat) (sub : list Node) (m : gmap (list Z) nat) (ts : list Tree) : Prop :=
  forall ns depth, stored base sub ns -> tracks tree_name (fun t n => shows depth mem ns (tree_name t) n t) m ts.

Definition with_properties (m : gmap (list Z) Property) (n : Node) : Node := mkNode (m_Parent n) (m_Name n) (m_Children n) m.
Definition with_children (m : gmap (list Z) nat) (n : Node) : Node := mkNode (m_Parent n) (m_Name n) m (m_Properties n).

Lemma properties_run mem props : forall done pre nd sub rt p', tracks prop_name (property_of mem) (m_Properties nd) done ->
  runs mem ((fun '(o, n, d) => KProperty o n d) <$> props) (mkParser (pre ++ nd :: sub) rt (Some (length pre))) p' ->
  exists m, p' = mkParser (pre ++ with_properties m nd :: sub) rt (Some (length pre)) /\ tracks prop_name (property_of mem) m (done ++ props).
Proof.
  induction props as [|[[o n] d] props IH]; intros done pre nd sub rt p' Ht Hr; cbn [fmap list_fmap] in Hr.
  - inversion Hr; subst. exists (m_Properties nd). split; [now destruct nd|now rewrite app_nil_r].
  - inversion Hr as [|? ? ? q ? Hk Hks]; subst. inversion Hk as [| |? ? ? a ? Ha]; subst. cbn [add_property current nodes] in Hks. rewrite alter_middle in Hks.
    apply (IH (done ++ [(o, n, d)])) in Hks as (m & -> & Hm); [|cbn [InsertProperty m_Properties]; apply (tracks_snoc prop_name _ _ _ (o, n, d)); [exact Ht|now split]].
    exists m. split; [now destruct nd|]. now rewrite <- List.app_assoc in Hm.
Qed.

(** The tokens of a tree below the root add its nodes, and insert it at the current node. *)
Definition tree_runs (mem : Bytes) (t : Tree) : Prop := forall ns r c p', (c < length ns)%nat -> runs mem (tokens t) (mkParser ns (Some r) (Some c)) p' ->
  exists sub, p' = mkParser (alter (InsertNode (tree_name t) (length ns)) c ns ++ sub) (Some r) (Some c) /\ sub <> [] /\
    forall ns' depth, stored (length ns) sub ns' -> shows depth mem ns' (tree_name t) (length ns) t.
Lemma children_run mem ts : Forall (tree_runs mem) ts -> forall done pre nd sub r p', children_shown mem (S (length pre)) sub (m_Children nd) done ->
  runs mem (concat (map tokens ts)) (mkParser (pre ++ nd :: sub) (Some r) (Some (length pre))) p' ->
  exists m sub', p' = mkParser (pre ++ with_children m nd :: sub ++ sub') (Some r) (Some (length pre)) /\ children_shown mem (S (length pre)) (sub ++ sub') m (done ++ ts).
Proof.
  induction 1 as [|t ts Ht Hts IH]; intros done pre nd sub r p' Hc Hr; cbn [map concat] in Hr.
  - inversion Hr; subst. exists (m_Children nd), []. rewrite !app_nil_r. split; [now destruct nd|exact Hc].
  - apply runs_app in Hr as (q & Hr1 & Hr2). apply Ht in Hr1 as (sub1 & -> & Hne & Hs1); [|rewrite length_app; cbn; lia]. rewrite alter_middle, <- List.app_assoc in Hr2. cbn [app] in Hr2.
    apply (IH (done ++ [t])) in Hr2 as (m & sub2 & -> & Hm).
    + exists m, (sub1 ++ sub2). rewrite <- !List.app_assoc in *. split; [now destruct nd|exact Hm].
    + intros ns depth Hst. apply stored_app in Hst as [Hst1 Hst2]. cbn [InsertNode m_Children]. apply (tracks_snoc tree_name); [now apply Hc|].
      rewrite length_app in *. cbn [length] in *. apply Hs1. now replace (length pre + S (length sub))%nat with (S (length pre) + length sub)%nat by lia.
Qed.
(** The tokens of a node after its beginning. *)
Lemma body_runs mem name props ts : Forall (tree_runs mem) ts -> forall pre nd r q, m_Children nd = ∅ -> m_Properties nd = ∅ ->
  runs mem (((fun '(o, n, d) => KProperty o n d) <$> props) ++ concat (map tokens ts) ++ [KEnd]) (mkParser (pre ++ [nd]) (Some r) (Some (length pre))) q ->
  exists sub, q = mkParser (pre ++ sub) (Some r) (Some (default r (m_Parent nd))) /\ sub <> [] /\
    forall ns' depth, stored (length pre) sub ns' -> shows depth mem ns' (m_Name nd) (length pre) (T name props ts).
Proof.
  intros Hts pre nd r q Hnc Hnp Hr. apply runs_app in Hr as (q1 & Hr1 & Hr). apply (properties_run mem props []) in Hr1 as (mp & -> & Hmp); [|intros k; now rewrite Hnp, lookup_empty].
  apply runs_app in Hr as (q2 & Hr2 & Hr). apply (children_run mem ts Hts []) in Hr2 as (m & sub & -> & Hm); [|intros ns depth _ k; cbn [with_properties m_Children]; now rewrite Hnc, lookup_empty].
  inversion Hr as [|? ? ? q3 ? Hk Hks]; subst. inversion Hks; subst. inversion Hk; subst. cbn [app] in *. exists (with_children m (with_properties mp nd) :: sub). split_and!; [|discriminate|].
  - unfold end_node. cbn [current nodes root]. rewrite lookup_app_r, Nat.sub_diag by lia. cbn. now destruct (m_Parent nd).
  - intros ns' [|depth] Hst; [easy|]. cbn [shows]. exists (with_children m (with_properties mp nd)). split_and!; trivial.
    + specialize (Hst 0%nat _ eq_refl). now rewrite Nat.add_0_r in Hst.
    + apply Hm. intros i x Hi. specialize (Hst (S i) x Hi). now replace (S (length pre) + i)%nat with (length pre + S i)%nat by lia.
Qed.
Lemma tree_runs_all mem : forall t, tree_runs mem t.
Proof.
  fix IH 1. intros [name props ts]. assert (Hts : Forall (tree_runs mem) ts) by (induction ts as [|t ts IHts]; constructor; [apply IH|exact IHts]). clear IH.
  intros ns r c p' Hc Hr. cbn [tokens] in Hr. inversion Hr as [|? ? ? q ? Hk Hks]; subst. inversion Hk as [? ? ? Hb| |]; subst. cbn [begin_node root current nodes] in Hb. injection Hb as <-.
  set (ns1 := alter (InsertNode name (length ns)) c ns) in *. assert (Hl : length ns1 = length ns) by apply length_alter. rewrite <- Hl in Hks.
  apply (body_runs mem name props ts Hts) in Hks as (sub & -> & Hne & Hsub); [|reflexivity..]. exists sub. cbn [tree_name]. split_and!; trivial. intros ns' depth Hst. rewrite <- Hl in Hst |- *. now apply Hsub.
Qed.

(** **** The blob of a tree *)
Definition brief_name (fuel : nat) (k : Token) : Prop := (match k with KBegin name | KProperty _ name _ => length name < fuel | KEnd => True end)%nat.
Section Blob.
Context `{PrismMath}.
Lemma fdt_loop_tokens mem fuel sb tb size ks : Forall (token_ok mem tb) ks -> Forall (brief_name fuel) ks -> forall offset p, safe p -> 0 <= offset -> (4 | offset) ->
  holds mem (sb + offset) (concat (token_bytes <$> ks) ++ be_bytes4 eEnd) -> offset + Z.of_nat (length (concat (token_bytes <$> ks))) < size ->
  exists p', runs mem ks p p' /\ forall turns, (length ks < turns)%nat -> fdt_loop fuel mem turns sb tb size offset p = Some (Some (true, p')).
Proof.
  intros Hok Hn. induction Hok as [|k ks Hk Hok IH]; intros offset p Hs Ho Ha Hm Hsz; cbn [fmap list_fmap concat app length] in *.
  - exists p. split; [constructor|]. intros [|turns] Ht; [lia|]. cbn [fdt_loop]. rewrite (proj2 (Z.ltb_lt _ _)) by lia. unfold turn. now rewrite (be_at_bytes mem _ eEnd) by (trivial; now cbn).
  - apply list.Forall_cons in Hn as [Hk1 Hn]. rewrite <- List.app_assoc in Hm. apply lies_app in Hm as [Hm1 Hm2]. rewrite length_app in Hsz. destruct (turn_token mem fuel sb tb k offset p Hk Hm1 Ho Ha Hk1 Hs) as (p1 & Hturn & Hstep & Hs1).
    destruct (token_bytes_words k) as [[w Hw] _]. destruct Ha as [q Hq].
    destruct (IH Hn (offset + Z.of_nat (length (token_bytes k))) p1) as (p' & Hr & Hl); [trivial|lia|exists (q + w); lia|now rewrite Z.add_assoc|lia|].
    exists p'. split; [econstructor; eassumption|]. intros [|turns] Ht; [lia|]. cbn [fdt_loop]. rewrite (proj2 (Z.ltb_lt _ _)) by lia. rewrite Hturn. apply Hl. lia.
Qed.
(** A blob whose structure block holds the tokens of a tree, and the end. *)
Definition blob (mem : Bytes) (fuel : nat) (header : Z) (t : Tree) : Prop :=
  let structureBlock := header + be_at mem (header + 8) 4 in
  let stringBlock := header + be_at mem (header + 12) 4 in
  Forall (token_ok mem stringBlock) (tokens t) /\ Forall (brief_name fuel) (tokens t) /\
  holds mem structureBlock (concat (token_bytes <$> tokens t) ++ be_bytes4 eEnd) /\ Z.of_nat (length (concat (token_bytes <$> tokens t))) < be_at mem (header + 36) 4.
Lemma ParseFDT_runs mem fuel header t s turns : blob mem fuel header t -> (length (tokens t) < turns)%nat ->
  exists p, runs mem (tokens t) (mkParser [] None None) p /\ ParseFDT fuel mem turns header s = Some (Some (true, nodes p, root p)).
Proof.
  intros (Hok & Hn & Hm & Hsz) Ht. destruct (fdt_loop_tokens mem fuel (header + be_at mem (header + 8) 4) _ (be_at mem (header + 36) 4) _ Hok Hn 0 (mkParser [] None None)) as (p & Hr & Hl); [easy|lia|now exists 0|now rewrite Z.add_0_r|exact Hsz|].
  exists p. split; [exact Hr|]. unfold ParseFDT. now rewrite (Hl turns Ht).
Qed.

(** C40: parsing the blob of a device tree builds the tree, with all its properties and at every
    depth, except that the first node below the root is not in it: it is a node of its own called
    [/], whose parent is the root but which the root does not list. *)
Theorem ParseFDT_tree mem fuel header name props first rest s turns : blob mem fuel header (T name props (first :: rest)) -> (length (tokens (T name props (first :: rest))) < turns)%nat ->
  exists ns, ParseFDT fuel mem turns header s = Some (Some (true, ns, Some 0%nat)) /\
    forall depth, shows depth mem ns [47] 0 (T name props rest) /\ shows depth mem ns [47] 1 first.
Proof.
  intros Hb Ht. destruct (ParseFDT_runs mem fuel header _ s turns Hb Ht) as (p & Hr & ->). clear Hb Ht. cbn [tokens map concat] in Hr.
  inversion Hr as [|? ? ? q ? Hk Hks]; subst. inversion Hk as [? ? ? Hb| |]; subst. injection Hb as <-. clear Hk Hr. cbn [app length nodes] in Hks.
  apply runs_app in Hks as (q1 & Hr1 & Hks). apply (properties_run mem props [] []) in Hr1 as (mp & -> & Hmp); [|intros k; cbn [m_Properties]; now rewrite lookup_empty]. set (nd := with_properties mp _) in *. cbn [app length] in *.
  apply runs_app in Hks as (q2 & Hks & Hend). apply runs_app in Hks as (q3 & Hr3 & Hks). destruct first as [name1 props1 children1]. cbn [tokens] in Hr3. inversion Hr3 as [|? ? ? q4 ? Hk4 Hks4]; subst. inversion Hk4 as [? ? ? Hb| |]; subst. injection Hb as <-.
  apply (body_runs mem name1 props1 children1 (proj2 (Forall_forall _ _) (fun t _ => tree_runs_all mem t)) [nd]) in Hks4 as (sub & -> & Hne & Hsub); [|reflexivity..].
  apply (children_run mem rest (proj2 (Forall_forall _ _) (fun t _ => tree_runs_all mem t)) [] [] nd sub) in Hks as (m & sub' & -> & Hm); [|intros ns depth _ k; subst nd; cbn [with_properties m_Children]; now rewrite lookup_empty].
  inversion Hend as [|? ? ? q5 ? Hk5 Hks5]; subst. inversion Hks5; subst. inversion Hk5; subst. cbn [end_node nodes root app] in *. eexists. split; [reflexivity|]. intros depth.
  assert (Hst : stored 1 (sub ++ sub') (with_children m nd :: sub ++ sub')) by (intros i x Hi; exact Hi). split.
  - destruct depth as [|depth]; [easy|]. exists (with_children m nd). split_and!; trivial. now apply Hm.
  - apply Hsub. now apply stored_app in Hst as [Hst _].
Qed.
(** A device tree whose root has properties but no nodes is parsed successfully and there is no root. *)
Theorem ParseFDT_no_root mem fuel header name props s turns : blob mem fuel header (T name props []) -> (length (tokens (T name props [])) < turns)%nat ->
  exists ns, ParseFDT fuel mem turns header s = Some (Some (true, ns, None)).
Proof.
  intros Hb Ht. destruct (ParseFDT_runs mem fuel header _ s turns Hb Ht) as (p & Hr & ->). clear Hb Ht. cbn [tokens map concat app] in Hr.
  inversion Hr as [|? ? ? q ? Hk Hks]; subst. inversion Hk as [? ? ? Hb| |]; subst. injection Hb as <-. cbn [app length nodes] in Hks.
  apply runs_app in Hks as (q1 & Hr1 & Hend). apply (properties_run mem props [] []) in Hr1 as (mp & -> & Hmp); [|intros k; cbn [m_Properties]; now rewrite lookup_empty].
  inversion Hend as [|? ? ? q5 ? Hk5 Hks5]; subst. inversion Hks5; subst. inversion Hk5; subst. eexists. reflexivity.
Qed.
End Blob.

(** A tree with a property at the root and two nodes, the second with a property. *)
Definition tree_example : Tree := T [] [(0, [109], [7; 8; 9])] [T [97] [] []; T [98] [(2, [107], [5])] []].
Definition structure_example : list Z := concat (token_bytes <$> tokens tree_example) ++ be_bytes4 eEnd.
Definition blob_example : list Z :=
  (be_bytes4 FDT_MAGIC ++ be_bytes4 116 ++ be_bytes4 40 ++ be_bytes4 112 ++ be_bytes4 0 ++ be_bytes4 17 ++ be_bytes4 16 ++ be_bytes4 0 ++ be_bytes4 4 ++ be_bytes4 72) ++
  structure_example ++ [109; 0] ++ [107; 0].
Lemma blob_example_ok : blob (memory_of 0x9000 blob_example) 16 0x9000 tree_example.
Proof.
  pose proof (memory_of_holds 0x9000 blob_example) as Hm. unfold blob_example in Hm at 2. rewrite !(lies_app _ _ _ (_ ++ _)) in Hm. destruct Hm as (_ & Hs & H1). apply lies_app in H1 as [H1 H2].
  unfold blob. split_and!.
  - repeat constructor; first [discriminate|lia|exact H1|exact H2].
  - repeat constructor; unfold brief_name; cbn; lia.
  - exact Hs.
  - vm_compute. reflexivity.
Qed.
Lemma ParseFDT_tree_witness : exists ns, ParseFDT 16 (memory_of 0x9000 blob_example) 16 0x9000 None = Some (Some (true, ns, Some 0%nat)) /\
  (forall depth, shows depth (memory_of 0x9000 blob_example) ns [47] 0 (T [] [(0, [109], [7; 8; 9])] [T [98] [(2, [107], [5])] []])).
Proof.
  destruct (ParseFDT_tree (memory_of 0x9000 blob_example) 16 0x9000 [] [(0, [109], [7; 8; 9])] (T [97] [] []) [T [98] [(2, [107], [5])] []] None 16 blob_example_ok ltac:(vm_compute; lia)) as (ns & He & Hs).
  exists ns. split; [exact He|]. intros depth. apply Hs.
Defined.

(** ** The lookup of tables of [Firmware/ACPI/ACPI.cpp] *)
Module ACPI.
Definition sizeof_SDTHeader : Z := 36.
Section Tables.
Variable mem : Bytes.
Variable ToHigherHalf : Z -> Z.
Variable s_XsdtAvailable : bool.
Variable s_Rsdt : Z.

Definition table_length (header : Z) : Z := le_at mem (header + 4) 4.
Definition ValidateChecksum (header : Z) : bool :=
  negb (foldl (fun checksum i => u32 (checksum + mem (header + Z.of_nat i))) 0 (seq 0 (Z.to_nat (table_length header))) =? 0).
Definition GetTablePointer (index : Z) : Z :=
  let index := index mod 256 in
  ToHigherHalf (if s_XsdtAvailable then le_at mem (s_Rsdt + 36 + 8 * index) 8 else le_at mem (s_Rsdt + 36 + 4 * index) 4).
Definition entryCount : Z := u64 (table_length s_Rsdt - sizeof_SDTHeader) / (if s_XsdtAvailable then 8 else 4).
(** [strncmp] finds no difference in so many bytes. *)
Fixpoint strncmp (n : nat) (s : list Z) (a : Z) : bool :=
  match n with
  | O => true
  | S n => let c := hd 0 s in if c =? mem a then if c =? 0 then true else strncmp n (tl s) (a + 1) else false
  end.
(** [n] turns are left; [0] is the null pointer. *)
Fixpoint table_loop (n : nat) (i : Z) (signature : list Z) (index : Z) : Z :=
  match n with
  | O => 0
  | S n =>
      let header := GetTablePointer i in
      if header =? 0 then table_loop n (i + 1) signature index
      else if negb (ValidateChecksum header) then table_loop n (i + 1) signature index
      else if strncmp 4 signature header then
        if index =? 0 then header else table_loop n (i + 1) signature (u64 (index + 1))
      else table_loop n (i + 1) signature index
  end.
Definition GetTable (signature : list Z) (index : Z) : Z := if s_Rsdt =? 0 then 0 else table_loop (Z.to_nat entryCount) 0 signature index.
End Tables.
End ACPI.
Import ACPI.

Section TableLookup.
Variable mem : Bytes.
Variable ToHigherHalf : Z -> Z.
Variable s_XsdtAvailable : bool.
Variable s_Rsdt : Z.
Hypothesis bytes : forall a, byte (mem a).

Lemma checksum_sum header n : Z.of_nat n < 2 ^ 24 -> 0 < mem header ->
  let sum := foldl (fun checksum i => u32 (checksum + mem (header + Z.of_nat i))) 0 (seq 0 n) in 0 <= sum <= 255 * Z.of_nat n /\ ((0 < n)%nat -> 0 < sum).
Proof.
  intros Hn Hf. induction n as [|n IH]; [cbn; lia|]. specialize (IH ltac:(lia)). cbn zeta in IH |- *. rewrite seq_S, foldl_snoc. cbn [Nat.add].
  set (sum := foldl _ 0 (seq 0 n)) in *. pose proof (bytes (header + Z.of_nat n)) as Hb. unfold byte in Hb. unfold u32, wrap. rewrite Z.mod_small by lia. split; [lia|]. intros _.
  destruct n as [|n]; [|lia]. change (Z.of_nat 0) with 0 in *. rewrite Z.add_0_r in *. lia.
Qed.
(** Every table whose first byte is not zero passes the check, whatever its checksum is. *)
Lemma ValidateChecksum_accepts header : 0 < mem header -> 0 < table_length mem header < 2 ^ 24 -> ValidateChecksum mem header = true.
Proof.
  intros Hf Hl. unfold ValidateChecksum. destruct (checksum_sum header (Z.to_nat (table_length mem header)) ltac:(lia) Hf) as [_ Hp]. cbn zeta in Hp.
  apply negb_true_iff, Z.eqb_neq. specialize (Hp ltac:(lia)). lia.
Qed.
Lemma table_loop_first signature n i k : (k < n)%nat -> let header := GetTablePointer mem ToHigherHalf s_XsdtAvailable s_Rsdt (i + Z.of_nat k) in
  (forall j, (j < k)%nat -> strncmp mem 4 signature (GetTablePointer mem ToHigherHalf s_XsdtAvailable s_Rsdt (i + Z.of_nat j)) = false) ->
  header <> 0 -> ValidateChecksum mem header = true -> strncmp mem 4 signature header = true ->
  table_loop mem ToHigherHalf s_XsdtAvailable s_Rsdt n i signature 0 = header.
Proof.
  intros Hk header Hj Hh Hc Hs. subst header. revert i k Hk Hj Hh Hc Hs. induction n as [|n IH]; intros i k Hk Hj Hh Hc Hs; [lia|]. cbn [table_loop]. destruct k as [|k].
  - rewrite Z.add_0_r in *. rewrite (proj2 (Z.eqb_neq _ _) Hh), Hc, Hs. reflexivity.
  - assert (Hrec : table_loop mem ToHigherHalf s_XsdtAvailable s_Rsdt n (i + 1) signature 0 = GetTablePointer mem ToHigherHalf s_XsdtAvailable s_Rsdt (i + Z.of_nat (S k))).
    { replace (i + Z.of_nat (S k)) with (i + 1 + Z.of_nat k) in * by lia. apply (IH (i + 1) k); trivial; [lia|]. intros j Hjk. replace (i + 1 + Z.of_nat j) with (i + Z.of_nat (S j)) by lia. apply Hj. lia. }
    specialize (Hj 0%nat ltac:(lia)). rewrite Z.add_0_r in Hj. rewrite Hj. destruct (_ =? 0); [exact Hrec|]. now destruct (negb _).
Qed.
(** The first table with the signature is found, whatever its checksum is. *)
Theorem GetTable_first signature k : s_Rsdt <> 0 -> Z.of_nat k < entryCount mem s_XsdtAvailable s_Rsdt -> let header := GetTablePointer mem ToHigherHalf s_XsdtAvailable s_Rsdt (Z.of_nat k) in
  (forall j, (j < k)%nat -> strncmp mem 4 signature (GetTablePointer mem ToHigherHalf s_XsdtAvailable s_Rsdt (Z.of_nat j)) = false) ->
  header <> 0 -> 0 < mem header -> 0 < table_length mem header < 2 ^ 24 -> strncmp mem 4 signature header = true ->
  GetTable mem ToHigherHalf s_XsdtAvailable s_Rsdt signature 0 = header.
Proof.
  intros Hr Hk header Hj Hh Hf Hl Hs. unfold GetTable. rewrite (proj2 (Z.eqb_neq _ _) Hr). apply (table_loop_first signature _ 0 k); rewrite ?Z.add_0_l; trivial; [lia|].
  now apply ValidateChecksum_accepts.
Qed.
Lemma table_loop_later signature n : forall i index, 0 < index -> index + Z.of_nat n < 2 ^ 64 -> table_loop mem ToHigherHalf s_XsdtAvailable s_Rsdt n i signature index = 0.
Proof.
  induction n as [|n IH]; intros i index Hi Hn; [reflexivity|]. cbn [table_loop]. rewrite (proj2 (Z.eqb_neq index 0)) by lia. assert (Hu : u64 (index + 1) = index + 1) by (unfold u64, wrap; apply Z.mod_small; lia).
  rewrite Hu. destruct (_ =? 0); [apply IH; lia|]. destruct (negb _); [apply IH; lia|]. destruct (strncmp _ _ _ _); apply IH; lia.
Qed.
(** Only the first table of a signature can be found: any other index counts away from zero. *)
Theorem GetTable_later signature index : 0 < index -> index + entryCount mem s_XsdtAvailable s_Rsdt < 2 ^ 64 -> GetTable mem ToHigherHalf s_XsdtAvailable s_Rsdt signature index = 0.
Proof.
  intros Hi Hn. unfold GetTable. destruct (s_Rsdt =? 0); [reflexivity|]. apply table_loop_later; [exact Hi|]. assert (0 <= entryCount mem s_XsdtAvailable s_Rsdt); [|lia].
  unfold entryCount, u64, wrap. apply Z.div_pos; [apply Z.mod_pos_bound; lia|now destruct s_XsdtAvailable].
Qed.
End TableLookup.

Lemma ParseFDT_ends_witness : let mem a := if Z.even a then 0 else 1 in exists r, ParseFDT 2 mem (Z.to_nat 20000) 0x9000 None = Some (Some r).
Proof.
  intros mem. apply (ParseFDT_ends 2 mem); [| |vm_compute; reflexivity|vm_compute; discriminate].
  - intros a. unfold byte, mem. destruct (Z.even a); lia.
  - intros a. cbn [text_length]. unfold mem. rewrite Z.even_add. destruct (Z.even a); cbn; eauto.
Defined.
(** A root table of two tables with the same signature and wrong checksums. *)
Definition two_tables : list Z :=
  [82; 83; 68; 84; 44; 0; 0; 0] ++ replicate 28 0 ++ [0x30; 0x50; 0; 0; 0x60; 0x50; 0; 0] ++ replicate 4 0 ++
  [72; 80; 69; 84; 40; 0; 0; 0] ++ replicate 40 0 ++ [72; 80; 69; 84; 40; 0; 0; 0] ++ replicate 40 0.
Lemma two_tables_bytes a : byte (memory_of 0x5000 two_tables a).
Proof.
  unfold memory_of. destruct (a <? 0x5000); [unfold byte; lia|]. assert (Hb : Forall byte two_tables) by (apply bytesb_spec; vm_compute; reflexivity).
  destruct (nth_in_or_default (Z.to_nat (a - 0x5000)) two_tables 0) as [Hin| ->]; [|unfold byte; lia]. rewrite List.Forall_forall in Hb. now apply Hb.
Qed.
Lemma GetTable_first_witness : GetTable (memory_of 0x5000 two_tables) (fun a => a) false 0x5000 [72; 80; 69; 84] 0 = 0x5030.
Proof.
  assert (Hp : GetTablePointer (memory_of 0x5000 two_tables) (fun a => a) false 0x5000 (Z.of_nat 0) = 0x5030) by (vm_compute; reflexivity). rewrite <- Hp.
  apply (GetTable_first (memory_of 0x5000 two_tables) (fun a => a) false 0x5000 two_tables_bytes [72; 80; 69; 84] 0); rewrite ?Hp; [lia|vm_compute; reflexivity|intros j Hj; lia|lia|vm_compute; reflexivity|vm_compute; split; reflexivity|vm_compute; reflexivity].
Defined.
Lemma GetTable_later_witness : GetTable (memory_of 0x5000 two_tables) (fun a => a) false 0x5000 [72; 80; 69; 84] 1 = 0.
Proof. apply (GetTable_later (memory_of 0x5000 two_tables) (fun a => a) false 0x5000 [72; 80; 69; 84] 1); [lia|vm_compute; reflexivity]. Defined.
