(* ===== verification/EchFs.v ===== *)
(** * The EchFs driver ([VFS/EchFs])

    Mounting a volume, listing a directory from the main directory table, reading a file.  Structures
    are the bytes read from the device, fields are at their offsets.  A directory is listed as the
    sequence of nodes that are inserted, each under its own name; the keys of the map are views of a
    buffer on the stack, so the map itself is not modelled.  Time stamps are not modelled. *)

From Stdlib Require Import ZArith Lia Bool.
From stdpp Require Import base list numbers.
From S2P Require Import Prelude Prism Posix Disk.

(** ** Structures *)
Definition Signature (table : list Z) : list Z := take 8 (drop 4 table).
Definition TotalBlockCount := mkField 12 8.
Definition MainDirectoryLength := mkField 20 8.
Definition BytesPerBlock := mkField 28 8.
Definition sizeof_EchFsIdentityTable : nat := 60.

Definition ECHFS_SIGNATURE : list Z := [0x5f; 0x45; 0x43; 0x48; 0x5f; 0x46; 0x53; 0x5f].
Definition ECHFS_ROOT_DIRECTORY_ID : Z := 0xffffffffffffffff.
Definition eRegular : Z := 0.
Definition eDirectory : Z := 1.

Definition ParentID := mkField 0 8.
Definition ObjectType := mkField 8 1.
Definition OwnerID := mkField 228 2.
Definition GroupID := mkField 230 2.
Definition Payload := mkField 240 8.
Definition FileSize := mkField 248 8.
Definition sizeof_EchFsDirectoryEntry : nat := 256.
(** The name: the bytes up to a zero; [None] if there is none in the entry. *)
Fixpoint name_text (bs : list Z) : option (list Z) :=
  match bs with [] => None | b :: bs => if b =? 0 then Some [] else cons b <$> name_text bs end.
Definition Name (entry : list Z) : option (list Z) := name_text (drop 9 entry).

Record EchFsINode := mkINode {
  node_name : list Z; node_mode : Z; m_DirectoryEntry : list Z; m_DirectoryEntryOffset : Z;
  node_LinkCount : Z; node_UID : Z; node_GID : Z; node_Size : Z; node_BlockSize : Z; node_BlockCount : Z }.

Section EchFs.
Context {D : Type} {Dev : Device D} `{PrismMath}.

Record EchFs := mkEchFs {
  m_SourceDevice : D; m_BlockSize : Z; m_BytesLimit : Z; m_AllocationTableOffset : Z; m_AllocationTableSize : Z;
  m_MainDirectoryStart : Z; m_MainDirectoryEnd : Z }.

(** ** Mounting *)
Inductive mounted :=
| Mounted (fs : EchFs) (root : EchFsINode)
| MountNull (** [nullptr] *)
| MountFault (** a division by zero *).

Definition volume_layout (source : D) (table : list Z) : EchFs :=
  let total := get_field TotalBlockCount table in
  let block := get_field BytesPerBlock table in
  let tableSize := u64 (total * 8 + block - 1) / block in
  let start := u64 (u64 (16 + tableSize) * block) in
  mkEchFs source block (u64 (total * block)) 16 tableSize start (u64 (start + get_field MainDirectoryLength table * block)).
Definition root_node (fs : EchFs) (total : Z) (entry : list Z) : EchFsINode :=
  mkINode [0x2f] (0x1a4 .| S_IFDIR) entry (m_MainDirectoryStart fs) 2 0 0 (u64 (total * m_BlockSize fs)) (m_BlockSize fs) total.
Definition Mount (source : option D) : mounted :=
  match source with
  | None => MountNull
  | Some source =>
      match device_Read source 0 sizeof_EchFsIdentityTable with
      | None => MountNull
      | Some table =>
          if negb (Z.of_nat (length table) =? Z.of_nat sizeof_EchFsIdentityTable) then MountNull
          else if negb (bool_decide (Signature table = ECHFS_SIGNATURE)) then MountNull
          else if get_field BytesPerBlock table =? 0 then MountFault
          else
            let fs := volume_layout source table in
            match device_Read source (i64 (m_MainDirectoryStart fs)) sizeof_EchFsDirectoryEntry with
            | None => MountNull
            | Some entry =>
                if negb (Z.of_nat (length entry) =? Z.of_nat sizeof_EchFsDirectoryEntry) then MountNull
                else if negb (get_field ParentID entry =? ECHFS_ROOT_DIRECTORY_ID) then MountNull
                else Mounted fs (root_node fs (get_field TotalBlockCount table) entry)
            end
      end
  end.

(** ** Listing a directory *)
Definition entry_file_mode (entry : list Z) : Z :=
  if get_field ObjectType entry =? eRegular then 0x1a4 .| S_IFREG else if get_field ObjectType entry =? eDirectory then 0x1a4 .| S_IFDIR else 0x1a4.
(** The directory an entry has to name as its parent to be listed. *)
Definition inodeDirectoryID (IsFilesystemRoot : bool) (inodeEntry entry : list Z) : Z :=
  if negb (get_field ObjectType entry =? eRegular) && (get_field ObjectType entry =? eDirectory) && IsFilesystemRoot then ECHFS_ROOT_DIRECTORY_ID else get_field Payload inodeEntry.
Definition listed_node (fs : EchFs) (name entry : list Z) (offset : Z) : EchFsINode :=
  mkINode name (entry_file_mode entry) entry offset 1 (get_field OwnerID entry) (get_field GroupID entry) (get_field FileSize entry) (m_BlockSize fs)
    (DivRoundUp (get_field FileSize entry) (m_BlockSize fs)).
(** What a read leaves in a structure. *)
Definition read_into (d : D) (offset : Z) (size : nat) (old : list Z) : list Z :=
  match device_Read d (i64 offset) size with Some bs => splice 0 bs old | None => old end.
(** The nodes inserted, in order; [None] if the turns are used up or a name has no end. *)
Fixpoint listing_loop (turns : nat) (fs : EchFs) (root : bool) (inodeEntry entry : list Z) (offset : Z) : option (list EchFsINode) :=
  match turns with
  | O => None
  | S turns =>
      if offset <? m_MainDirectoryEnd fs then
        let entry := read_into (m_SourceDevice fs) offset sizeof_EchFsDirectoryEntry entry in
        match Name entry with
        | None => None
        | Some name =>
            match listing_loop turns fs root inodeEntry entry (u64 (offset + Z.of_nat sizeof_EchFsDirectoryEntry)) with
            | None => None
            | Some nodes =>
                if bool_decide (name = []) then Some nodes
                else if negb (get_field ParentID entry =? inodeDirectoryID root inodeEntry entry) then Some nodes
                else Some (listed_node fs name entry offset :: nodes)
            end
        end
      else Some []
  end.
Definition Populate (turns : nat) (fs : EchFs) (IsFilesystemRoot : bool) (native : EchFsINode) : option (list EchFsINode) :=
  listing_loop turns fs IsFilesystemRoot (m_DirectoryEntry native) (replicate sizeof_EchFsDirectoryEntry 0) (m_DirectoryEntryOffset native).

(** ** Reading a file *)
Inductive outcome := Ret (nread : option (list Z)) | Panic.
Definition ReadDirectoryEntry (fs : EchFs) (entry : list Z) (offset bytes : Z) : outcome :=
  if negb (get_field ObjectType entry =? eRegular) then Panic
  else if get_field FileSize entry <? u64 offset then Ret (Some [])
  else
    let bytes := if get_field FileSize entry <? u64 (u64 offset + bytes) then u64 (get_field FileSize entry - offset) else bytes in
    Ret (device_Read (m_SourceDevice fs) (i64 (get_field Payload entry * m_BlockSize fs + offset)) (Z.to_nat bytes)).
Definition Read (fs : EchFs) (node : EchFsINode) (offset bytes : Z) : outcome := ReadDirectoryEntry fs (m_DirectoryEntry node) offset bytes.
End EchFs.
Arguments EchFs : clear implicits.
Arguments mounted : clear implicits.

(** ** Theorems *)
Section Theorems.
Context {D : Type} {Dev : Device D} `{PrismMath}.
Implicit Types fs : EchFs D.

(** The entries of the main directory from an offset to its end. *)
Definition entry_offset (start : Z) (i : nat) : Z := start + 256 * Z.of_nat i.
Definition entry_at (fs : EchFs D) (start : Z) (i : nat) : list Z := extent (m_SourceDevice fs) (entry_offset start i) 256.
Definition main_directory (fs : EchFs D) (start : Z) (n : nat) : Prop :=
  0 <= start /\ entry_offset start n = m_MainDirectoryEnd fs /\ m_MainDirectoryEnd fs <= device_size (m_SourceDevice fs) < 2 ^ 63 /\
  forall i, (i < n)%nat -> Name (entry_at fs start i) <> None.
Definition listed (fs : EchFs D) (root : bool) (inodeEntry : list Z) (start : Z) (i : nat) : option EchFsINode :=
  match Name (entry_at fs start i) with
  | Some (c :: name) =>
      if get_field ParentID (entry_at fs start i) =? inodeDirectoryID root inodeEntry (entry_at fs start i)
      then Some (listed_node fs (c :: name) (entry_at fs start i) (entry_offset start i)) else None
  | _ => None
  end.

Lemma read_into_extent (d : D) off n old : 0 <= off -> off + Z.of_nat n <= device_size d < 2 ^ 63 -> length old = n -> read_into d off n old = extent d off n.
Proof.
  intros H0 H1 Hl. unfold read_into. rewrite i64_small by lia.
  rewrite device_Read_spec by lia. fold (extent d off n). unfold splice. rewrite extent_length, take_0, drop_ge by lia. cbn. apply app_nil_r.
Qed.
Lemma main_directory_next fs start n : main_directory fs start (S n) -> main_directory fs (start + 256) n.
Proof.
  intros (H0 & H1 & H2 & H3). unfold main_directory, entry_offset, entry_at in *. split_and!; [lia|lia|lia|lia|]. intros i Hi. specialize (H3 (S i) ltac:(lia)). unfold entry_offset in *. now replace (start + 256 + 256 * Z.of_nat i) with (start + 256 * Z.of_nat (S i)) by lia.
Qed.
Lemma listed_next fs root ie start i : listed fs root ie (start + 256) i = listed fs root ie start (S i).
Proof. unfold listed, entry_at, entry_offset. now replace (start + 256 + 256 * Z.of_nat i) with (start + 256 * Z.of_nat (S i)) by lia. Qed.
Lemma omap_listed_next fs root ie start (l : list nat) : omap (listed fs root ie (start + 256)) l = omap (listed fs root ie start) (S <$> l).
Proof. induction l as [|i l IH]; [reflexivity|]. cbn [fmap list_fmap omap list_omap]. rewrite listed_next. now rewrite <- IH. Qed.
Lemma listing_loop_spec fs root ie n : forall start old turns, main_directory fs start n -> length old = 256%nat -> (n < turns)%nat ->
  listing_loop turns fs root ie old start = Some (omap (listed fs root ie start) (seq 0 n)).
Proof.
  induction n as [|n IH]; intros start old turns Hm Hl Ht; (destruct turns as [|turns]; [lia|]); cbn [listing_loop]; pose proof Hm as (H0 & H1 & H2 & H3); unfold entry_offset in H1.
  - now rewrite (proj2 (Z.ltb_ge _ _)) by lia.
  - rewrite (proj2 (Z.ltb_lt _ _)) by lia. unfold sizeof_EchFsDirectoryEntry in *. rewrite read_into_extent by lia.
    assert (He : extent (m_SourceDevice fs) start 256 = entry_at fs start 0) by (unfold entry_at, entry_offset; now rewrite Z.add_0_r). rewrite He.
    replace (u64 (start + Z.of_nat 256)) with (start + 256) by (unfold u64, wrap; rewrite Z.mod_small; lia). rewrite (IH (start + 256)) by first [now apply main_directory_next|unfold entry_at; now rewrite extent_length|lia].
    cbn [seq omap list_omap]. rewrite <- fmap_S_seq. rewrite <- omap_listed_next.
    generalize (omap (listed fs root ie (start + 256)) (seq 0 n)). intros rest. unfold listed. specialize (H3 0%nat ltac:(lia)). destruct (Name (entry_at fs start 0)) as [[|c name]|]; [reflexivity| |easy]. rewrite bool_decide_false by discriminate.
    unfold entry_offset. rewrite Z.add_0_r. now destruct (_ =? inodeDirectoryID _ _ _).
Qed.

(** The nodes inserted are those of the entries that name the directory as their parent, from its own entry on. *)
Lemma Populate_spec fs root native n turns : main_directory fs (m_DirectoryEntryOffset native) n -> (n < turns)%nat ->
  Populate turns fs root native = Some (omap (listed fs root (m_DirectoryEntry native) (m_DirectoryEntryOffset native)) (seq 0 n)).
Proof. intros Hm Ht. unfold Populate. apply listing_loop_spec; trivial. Qed.
Lemma listed_elem fs root ie start n node : node ∈ omap (listed fs root ie start) (seq 0 n) <->
  exists i c name, (i < n)%nat /\ Name (entry_at fs start i) = Some (c :: name) /\ get_field ParentID (entry_at fs start i) = inodeDirectoryID root ie (entry_at fs start i) /\
    node = listed_node fs (c :: name) (entry_at fs start i) (entry_offset start i).
Proof.
  rewrite list_elem_of_omap. split.
  - intros (i & Hi & Hl). apply elem_of_seq in Hi. unfold listed in Hl. destruct (Name (entry_at fs start i)) as [[|c name]|] eqn:En; try discriminate.
    destruct (_ =? _) eqn:Ep; [|discriminate]. injection Hl as <-. apply Z.eqb_eq in Ep. exists i, c, name. split_and!; trivial; lia.
  - intros (i & c & name & Hi & Hn & Hp & ->). exists i. split; [apply elem_of_seq; lia|]. unfold listed. rewrite Hn. now rewrite (proj2 (Z.eqb_eq _ _) Hp).
Qed.

(** Listing a directory below the root inserts, in the order of the main directory, the nodes of
    exactly the entries from the directory's own entry on that name it as their parent. *)
Theorem Populate_directory fs native n turns : main_directory fs (m_DirectoryEntryOffset native) n -> (n < turns)%nat ->
  exists nodes, Populate turns fs false native = Some nodes /\ forall node, node ∈ nodes <->
    exists i c name, let e := entry_at fs (m_DirectoryEntryOffset native) i in
      (i < n)%nat /\ Name e = Some (c :: name) /\ get_field ParentID e = get_field Payload (m_DirectoryEntry native) /\ node = listed_node fs (c :: name) e (entry_offset (m_DirectoryEntryOffset native) i).
Proof.
  intros Hm Ht. eexists. split; [exact (Populate_spec fs false native n turns Hm Ht)|]. intros node. rewrite listed_elem. cbn zeta.
  assert (Hd : forall e, inodeDirectoryID false (m_DirectoryEntry native) e = get_field Payload (m_DirectoryEntry native)) by (intros e; unfold inodeDirectoryID; now rewrite andb_false_r).
  split; intros (i & c & name & Hi & Hn & Hp & Hc); exists i, c, name; rewrite Hd in *; now split_and!.
Qed.
(** Listing the root inserts the directories of the root, but the files it inserts are those whose
    parent is the payload of the first entry of the main directory: files of the root are not listed. *)
Theorem Populate_root fs root n turns : main_directory fs (m_DirectoryEntryOffset root) n -> (n < turns)%nat ->
  exists nodes, Populate turns fs true root = Some nodes /\ forall node, node ∈ nodes <->
    exists i c name, let e := entry_at fs (m_DirectoryEntryOffset root) i in
      (i < n)%nat /\ Name e = Some (c :: name) /\ node = listed_node fs (c :: name) e (entry_offset (m_DirectoryEntryOffset root) i) /\
      get_field ParentID e = (if get_field ObjectType e =? eDirectory then ECHFS_ROOT_DIRECTORY_ID else get_field Payload (m_DirectoryEntry root)).
Proof.
  intros Hm Ht. eexists. split; [exact (Populate_spec fs true root n turns Hm Ht)|]. intros node. rewrite listed_elem. cbn zeta.
  assert (Hd : forall e, inodeDirectoryID true (m_DirectoryEntry root) e = if get_field ObjectType e =? eDirectory then ECHFS_ROOT_DIRECTORY_ID else get_field Payload (m_DirectoryEntry root)).
  { intros e. unfold inodeDirectoryID. destruct (Z.eqb_spec (get_field ObjectType e) eRegular) as [->|Hr]; cbn; [reflexivity|]. now rewrite andb_true_r. }
  split; intros (i & c & name & Hi & Hn & Hp & Hc); exists i, c, name; rewrite ?Hd in *; now split_and!.
Qed.

(** Reading at an offset of a file gives the bytes of the device behind its first block, cut at the
    end of the file, as if its blocks were adjacent. *)
Theorem ReadDirectoryEntry_bytes fs entry offset bytes : get_field ObjectType entry = eRegular -> Forall byte entry -> 0 <= m_BlockSize fs -> 0 <= offset <= get_field FileSize entry -> 0 <= bytes < 2 ^ 63 ->
  let first := get_field Payload entry * m_BlockSize fs in first + get_field FileSize entry <= device_size (m_SourceDevice fs) < 2 ^ 63 ->
  ReadDirectoryEntry fs entry offset bytes = Ret (Some (slice (Z.to_nat offset) (Z.to_nat bytes) (extent (m_SourceDevice fs) first (Z.to_nat (get_field FileSize entry))))).
Proof.
  intros Hr Hb Hbs Ho Hn first Hd. unfold ReadDirectoryEntry. rewrite Hr. change (negb (eRegular =? eRegular)) with false. cbv iota. pose proof (get_field_nonneg Payload entry Hb) as Hp. assert (Hf : 0 <= first) by (subst first; nia).
  set (size := get_field FileSize entry) in *. unfold u64, wrap. rewrite (Z.mod_small offset) by lia. rewrite (proj2 (Z.ltb_ge size offset)) by lia. rewrite (Z.mod_small (offset + bytes)) by lia. rewrite (Z.mod_small (size - offset)) by lia. fold first.
  rewrite (i64_small (first + offset)) by lia.
  f_equal. unfold slice. rewrite extent_drop by lia. rewrite Z2Nat.id by lia. destruct (size <? offset + bytes) eqn:E; [apply Z.ltb_lt in E|apply Z.ltb_ge in E]; rewrite device_Read_spec by lia; f_equal.
  - rewrite take_ge by (rewrite extent_length; lia). unfold extent. f_equal. f_equal. lia.
  - rewrite extent_take by lia. unfold extent. reflexivity.
Qed.

(** Mounting a volume puts the main directory at the first block behind the allocation table, which
    holds a number of eight bytes for every block; it fails if the first entry of the main directory is
    not in the root, also for an empty volume. *)
Theorem Mount_volume source : let table := extent source 0 60 in
  let total := get_field TotalBlockCount table in let block := get_field BytesPerBlock table in let len := get_field MainDirectoryLength table in
  Signature table = ECHFS_SIGNATURE -> 0 < block -> 256 <= len * block -> 17 * block + 8 * total + len * block <= device_size source < 2 ^ 63 ->
  exists fs root, 16 * block + 8 * total <= m_MainDirectoryStart fs < 17 * block + 8 * total /\ (block | m_MainDirectoryStart fs) /\
    m_MainDirectoryEnd fs = m_MainDirectoryStart fs + len * block /\ m_SourceDevice fs = source /\ m_BlockSize fs = block /\
    m_DirectoryEntry root = extent source (m_MainDirectoryStart fs) 256 /\ m_DirectoryEntryOffset root = m_MainDirectoryStart fs /\
    Mount (Some source) = if get_field ParentID (m_DirectoryEntry root) =? ECHFS_ROOT_DIRECTORY_ID then Mounted fs root else MountNull.
Proof.
  intros table total block len Hs Hb Hl Hd. assert (Ht : 0 <= total) by apply get_field_nonneg, extent_bytes. assert (Hlen : 0 <= len) by apply get_field_nonneg, extent_bytes.
  set (q := (total * 8 + block - 1) / block). assert (Hq : total * 8 <= q * block < total * 8 + block).
  { pose proof (Z.div_mod (total * 8 + block - 1) block ltac:(lia)). pose proof (Z.mod_pos_bound (total * 8 + block - 1) block Hb). unfold q. nia. }
  assert (Hq0 : 0 <= q) by (apply Z.div_pos; lia). assert (Hqs : q <= q * block) by nia. set (start := (16 + q) * block). assert (Hst : start = 16 * block + q * block) by (unfold start; lia).
  assert (Hg : volume_layout source table = mkEchFs source block (u64 (total * block)) 16 q start (start + len * block)).
  { unfold volume_layout. fold total block len. unfold u64, wrap. rewrite (Z.mod_small (total * 8 + block - 1)) by lia. fold q. rewrite (Z.mod_small (16 + q)) by lia. fold start. rewrite (Z.mod_small start) by lia. now rewrite (Z.mod_small (start + len * block)) by lia. }
  exists (volume_layout source table), (root_node (volume_layout source table) total (extent source start 256)). rewrite Hg. cbn [m_MainDirectoryStart m_MainDirectoryEnd m_SourceDevice m_BlockSize root_node m_DirectoryEntry m_DirectoryEntryOffset].
  split_and!; trivial; [lia|lia|now exists (16 + q)|]. unfold Mount. rewrite device_Read_spec by (unfold sizeof_EchFsIdentityTable; lia). change (device_byte source <$> seqZ 0 (Z.of_nat sizeof_EchFsIdentityTable)) with table.
  replace (length table) with sizeof_EchFsIdentityTable by (symmetry; apply extent_length). rewrite Z.eqb_refl. cbn [negb]. rewrite bool_decide_true by trivial. fold block. rewrite (proj2 (Z.eqb_neq block 0)) by lia. cbn [negb]. rewrite Hg. cbn [m_MainDirectoryStart].
  rewrite i64_small by lia.
  rewrite device_Read_spec by (unfold sizeof_EchFsDirectoryEntry; lia). change (device_byte source <$> seqZ start (Z.of_nat sizeof_EchFsDirectoryEntry)) with (extent source start 256). rewrite extent_length. cbn [negb Z.of_nat Z.eqb]. now destruct (_ =? ECHFS_ROOT_DIRECTORY_ID).
Qed.
End Theorems.

(** ** A volume

    Two blocks of main directory: the directory [d], a file [f] in it and a file [g] of the root. *)
Definition ech_entry (parent type : Z) (name : list Z) (payload size : Z) : list Z :=
  le_bytes 8 parent ++ [type] ++ name ++ replicate (201 - length name) 0 ++ replicate 30 0 ++ le_bytes 8 payload ++ le_bytes 8 size.
Definition ech_table : list Z := replicate 4 0 ++ ECHFS_SIGNATURE ++ le_bytes 8 64 ++ le_bytes 8 2 ++ le_bytes 8 512 ++ replicate 24 0.
Definition ech_disk : MemDisk :=
  mkMemDisk (mem_write (mem_write ∅ 0 ech_table) 8704
    (ech_entry ECHFS_ROOT_DIRECTORY_ID eDirectory [100] 1 0 ++ ech_entry 1 eRegular [102] 20 3 ++ ech_entry ECHFS_ROOT_DIRECTORY_ID eRegular [103] 21 4 ++ replicate 256 0)) 32768.
Definition ech_fs : EchFs MemDisk := mkEchFs ech_disk 512 32768 16 1 8704 9728.
Definition ech_root : EchFsINode := root_node ech_fs 64 (extent ech_disk 8704 256).
Lemma Mount_volume_witness : exists fs root, Mount (Some ech_disk) = Mounted fs root /\ m_MainDirectoryStart fs = 8704.
Proof.
  destruct (Mount_volume ech_disk) as (fs & root & Hs & Hd & _ & _ & _ & He & _ & Hm); [vm_compute; reflexivity|vm_compute; reflexivity|vm_compute; discriminate|vm_compute; split; [discriminate|reflexivity]|].
  change (get_field BytesPerBlock (extent ech_disk 0 60)) with 512 in *. change (get_field TotalBlockCount (extent ech_disk 0 60)) with 64 in *. assert (Hst : m_MainDirectoryStart fs = 8704) by (destruct Hd as [q Hq]; lia).
  exists fs, root. split; [|exact Hst]. rewrite Hm, He, Hst. replace (get_field ParentID (extent ech_disk 8704 256)) with ECHFS_ROOT_DIRECTORY_ID by (vm_compute; reflexivity). reflexivity.
Defined.
Lemma ech_main_directory : main_directory ech_fs 8704 4.
Proof.
  assert (Hn : forall i, (i < 4)%nat -> Name (entry_at ech_fs 8704 i) <> None).
  { intros i Hi. destruct i as [|[|[|[|i]]]]; [vm_compute; discriminate..|lia]. }
  repeat split; [vm_compute; discriminate|vm_compute; discriminate|exact Hn].
Qed.
(** The root lists [d] and the file of [d], and not its own file. *)
Lemma Populate_root_witness : exists nodes, Populate 5 ech_fs true ech_root = Some nodes /\ (exists node, node ∈ nodes /\ node_name node = [102]) /\ (forall node, node ∈ nodes -> node_name node <> [103]).
Proof.
  destruct (Populate_root ech_fs ech_root 4 5 ech_main_directory ltac:(lia)) as (nodes & Hp & Hn). exists nodes. split; [exact Hp|]. split.
  - exists (listed_node ech_fs [102] (entry_at ech_fs 8704 1) 8960). split; [|reflexivity]. apply Hn. exists 1%nat, 102, []. split_and!; [lia|vm_compute; reflexivity|reflexivity|vm_compute; reflexivity].
  - intros node He. apply Hn in He as (i & c & name & Hi & Hname & -> & Hpar). cbn [listed_node node_name]. intros Heq. injection Heq as -> ->. revert Hname Hpar. destruct i as [|[|[|[|i]]]]; [vm_compute; discriminate..|lia].
Defined.
Definition ech_dir : EchFsINode := listed_node ech_fs [100] (entry_at ech_fs 8704 0) 8704.
Lemma Populate_directory_witness : exists nodes, Populate 5 ech_fs false ech_dir = Some nodes /\ exists node, node ∈ nodes /\ node_name node = [102].
Proof.
  destruct (Populate_directory ech_fs ech_dir 4 5 ech_main_directory ltac:(lia)) as (nodes & Hp & Hn). exists nodes. split; [exact Hp|].
  exists (listed_node ech_fs [102] (entry_at ech_fs 8704 1) 8960). split; [|reflexivity]. apply Hn. exists 1%nat, 102, []. split_and!; [lia|vm_compute; reflexivity|vm_compute; reflexivity|reflexivity].
Defined.
Lemma ReadDirectoryEntry_bytes_witness : ReadDirectoryEntry ech_fs (ech_entry 1 eRegular [102] 17 300) 4 8 = Ret (Some (slice 4 8 (extent ech_disk 8704 300))).
Proof.
  apply (ReadDirectoryEntry_bytes ech_fs (ech_entry 1 eRegular [102] 17 300) 4 8).
  - vm_compute. reflexivity.
  - apply bytesb_spec. vm_compute. reflexivity.
  - vm_compute. discriminate.
  - vm_compute. split; discriminate.
  - lia.
  - vm_compute. split; [discriminate|reflexivity].
Defined.
