(* ===== verification/NVMe.v ===== *)
(** * NVMe drives ([Drivers/Storage/NVMe])

    The queues of commands and completions ([NVMeQueue.cpp]), the name space with its cache of blocks
    ([NVMeNameSpace.cpp]) and the search for name spaces ([NVMeController.cpp]).

    The other side of a queue, the drive, is modelled by [device_turn]: it takes the next command from the
    submission queue, carries it out and posts a completion with its phase.  What a command does to
    memory and disk is a parameter, with the behaviour the driver relies on as hypotheses.  The wait for
    a completion has fuel, the times the driver looks. *)

From Stdlib Require Import ZArith Lia Bool.
From stdpp Require Import base list numbers.
From S2P Require Import Prelude Prism Disk Effects.

(** ** [NVMeQueue.hpp] *)
Definition IO_WRITE : Z := 0x01.
Definition IO_READ : Z := 0x02.

(** The union of a command; the other commands are those of the administration queue. *)
Inductive Union := NoCommand | ReadWrite (SLba Len : Z).
Record Submission := mkSubmission { OpCode : Z; CompleteID : Z; NameSpaceID : Z; Prp1 : Z; Prp2 : Z; Command : Union }.
Record Completion := mkCompletion { CommandID : Z; Status : Z }.
Record Queue := mkQueue {
  m_Depth : Z; m_Submit : list Submission; m_Complete : list Completion;
  m_SubmitTail : Z; m_CompleteHead : Z; m_CompletePhase : Z; m_CmdId : Z }.

(** The drive's side of a queue: what was written to the submission doorbell, and its own indices. *)
Record DriveQueue := mkDriveQueue { d_doorbell : Z; d_head : Z; d_tail : Z; d_phase : Z }.
(** Memory, by the addresses of the direct map, and the bytes of the name space. *)
Record Hw := mkHw { ram : Z -> Z; disk : Z -> Z }.

(** ** [NVMeNameSpace.hpp] *)
Definition CacheReady : Z := 1.
Record CachedBlock := mkCached { Cache : Z; Block : Z; cb_Status : Z }.
Record NameSpace := mkNameSpace {
  m_ID : Z; m_MaxPhysRPages : Z; m_PhysRegPgs : Z; m_LbaSize : Z; m_LbaCount : Z; m_CacheBlockSize : Z;
  m_Cache : list CachedBlock; m_Overwritten : Z }.

Record World := mkWorld { space : NameSpace; queue : Queue; drive : DriveQueue; hw : Hw }.
Definition with_space (n : NameSpace) (w : World) : World := mkWorld n (queue w) (drive w) (hw w).
Definition with_queue (q : Queue) (w : World) : World := mkWorld (space w) q (drive w) (hw w).
Definition with_drive (d : DriveQueue) (w : World) : World := mkWorld (space w) (queue w) d (hw w).
Definition with_hw (h : Hw) (w : World) : World := mkWorld (space w) (queue w) (drive w) h.
Definition with_cache (c : list CachedBlock) (n : NameSpace) : NameSpace := mkNameSpace (m_ID n) (m_MaxPhysRPages n) (m_PhysRegPgs n) (m_LbaSize n) (m_LbaCount n) (m_CacheBlockSize n) c (m_Overwritten n).
Definition with_overwritten (o : Z) (n : NameSpace) : NameSpace := mkNameSpace (m_ID n) (m_MaxPhysRPages n) (m_PhysRegPgs n) (m_LbaSize n) (m_LbaCount n) (m_CacheBlockSize n) (m_Cache n) o.

(** Bytes stored in memory. *)
Definition poke (mem : Z -> Z) (a : Z) (bs : list Z) : Z -> Z :=
  fun x => if (a <=? x) && (x <? a + Z.of_nat (length bs)) then nth (Z.to_nat (x - a)) bs 0 else mem x.
Definition peek (mem : Z -> Z) (a n : Z) : list Z := (fun i => mem (a + i)) <$> seqZ 0 n.

Section NVMe.
Context `{HigherHalf}.
(** What a command does, and its status. *)
Variable execute : Submission -> Hw -> Hw * Z.
(** The memory [new] gives to the buffer of a slot of the cache. *)
Variable new_buffer : nat -> Z.
(** How often the driver looks for a completion. *)
Variable polls : nat.

(** ** The queue *)
Definition set_CompleteID (i : Z) (c : Submission) : Submission := mkSubmission (OpCode c) i (NameSpaceID c) (Prp1 c) (Prp2 c) (Command c).
Definition Submit (cmd : Submission) : M World unit :=
  q ← gets queue;
  let tail := (m_SubmitTail q + 1) mod m_Depth q in
  _ ← Assert (negb (m_Depth q =? 0));
  _ ← update (fun w => with_drive (mkDriveQueue tail (d_head (drive w)) (d_tail (drive w)) (d_phase (drive w))) w);
  update (with_queue (mkQueue (m_Depth q) (<[Z.to_nat (m_SubmitTail q) := cmd]> (m_Submit q)) (m_Complete q) tail (m_CompleteHead q) (m_CompletePhase q) (m_CmdId q))).

(** The drive carries out the next command, if there is one. *)
Definition device_turn (w : World) : World :=
  let d := drive w in
  let q := queue w in
  if d_head d =? d_doorbell d then w
  else
    match m_Submit q !! Z.to_nat (d_head d) with
    | None => w
    | Some cmd =>
        let '(h, status) := execute cmd (hw w) in
        let completion := mkCompletion (CompleteID cmd) (2 * status + d_phase d) in
        let tail := (d_tail d + 1) mod m_Depth q in
        mkWorld (space w)
          (mkQueue (m_Depth q) (m_Submit q) (<[Z.to_nat (d_tail d) := completion]> (m_Complete q)) (m_SubmitTail q) (m_CompleteHead q) (m_CompletePhase q) (m_CmdId q))
          (mkDriveQueue (d_doorbell d) ((d_head d + 1) mod m_Depth q) tail (if tail =? 0 then 1 - d_phase d else d_phase d)) h
    end.

(** The loop of [AwaitSubmit]; the drive has a turn between two looks. *)
Fixpoint wait_loop (polls : nat) (phase : Z) : M World Z :=
  match polls with
  | O => diverges
  | S polls =>
      q ← gets queue;
      c ← deref (m_Complete q !! Z.to_nat (m_CompleteHead q));
      if (Status c .& 1) =? phase then mret (Status c) else _ ← update device_turn; wait_loop polls phase
  end.
Definition AwaitSubmit (cmd : Submission) : M World Z :=
  q ← gets queue;
  let currentHead := m_CompleteHead q in
  let currentPhase := m_CompletePhase q in
  _ ← update (with_queue (mkQueue (m_Depth q) (m_Submit q) (m_Complete q) (m_SubmitTail q) currentHead currentPhase (u32 (m_CmdId q + 1))));
  _ ← Submit (set_CompleteID (u16 (m_CmdId q)) cmd);
  status ← wait_loop polls currentPhase;
  let status := status .>> 1 in
  _ ← Assert (status =? 0);
  let currentHead := (currentHead + 1) mod m_Depth q in
  let currentPhase := if currentHead =? 0 then (if currentPhase =? 0 then 1 else 0) else currentPhase in
  _ ← update (fun w => let q := queue w in with_queue (mkQueue (m_Depth q) (m_Submit q) (m_Complete q) (m_SubmitTail q) currentHead currentPhase (m_CmdId q)) w);
  mret status.

(** ** Blocks *)
Definition PAGE_SIZE : Z := 4096.
(** The loop that fills the list of pages; a place outside of the array is undefined behaviour, taken for a stop. *)
Fixpoint prp_loop (n : nat) (i : Z) (page cid : Z) : M World unit :=
  match n with
  | O => mret tt
  | S n =>
      w ← get;
      let index := u64 (i + u64 (cid * m_MaxPhysRPages (space w))) in
      _ ← Assert (index <? m_MaxPhysRPages (space w) * m_Depth (queue w));
      _ ← update (fun w => with_hw (mkHw (poke (ram (hw w)) (m_PhysRegPgs (space w) + 8 * index) (le_bytes 8 (u64 (FromHigherHalf page + PAGE_SIZE + i * PAGE_SIZE)))) (disk (hw w))) w);
      prp_loop n (i + 1) page cid
  end.
Definition ReadWriteLba (dest start bytes : Z) (write : bool) : M World Z :=
  w ← get;
  let n := space w in
  let bytes := if m_LbaCount n <=? u64 (start + bytes) then u64 (bytes - u64 (u64 (start + bytes) - m_LbaCount n)) else bytes in
  let pageOff := dest .& (PAGE_SIZE - 1) in
  let cid := m_CmdId (queue w) in
  let size := u64 (bytes * m_LbaSize n) in
  let shouldUsePrpList := 2 * PAGE_SIZE <? size in
  let shouldUsePrp := (PAGE_SIZE <? size) && negb shouldUsePrpList in
  _ ← (if shouldUsePrpList then
         let prpcount := u64 (u64 (bytes - 1) * m_LbaSize n) / PAGE_SIZE in
         _ ← Assert (prpcount <=? m_MaxPhysRPages n);
         prp_loop (Z.to_nat prpcount) 0 (dest - pageOff) cid
       else mret tt);
  let '(prp1, prp2) :=
    if shouldUsePrpList then (FromHigherHalf dest, FromHigherHalf (m_PhysRegPgs n + 8 * u64 (cid * m_MaxPhysRPages n)))
    else if shouldUsePrp then (0, FromHigherHalf (dest + PAGE_SIZE))
    else (FromHigherHalf dest, 0) in
  status ← AwaitSubmit (mkSubmission (if write then IO_WRITE else IO_READ) 0 (m_ID n) prp1 prp2 (ReadWrite start (u16 (bytes - 1))));
  _ ← Assert (status =? 0);
  mret 0.

(** ** The cache *)
Definition ready (block : Z) (c : CachedBlock) : bool := (Block c =? block) && negb (cb_Status c =? 0).
Definition FindBlock (block : Z) (n : NameSpace) : option nat :=
  match list_find (fun c => ready block c = true) (m_Cache n) with Some (i, _) => Some i | None => None end.
Definition set_slot (i : nat) (f : CachedBlock -> CachedBlock) (n : NameSpace) : NameSpace := with_cache (alter f i (m_Cache n)) n.
(** The slot to fill: a free one with a new buffer, which [new] clears, or the next in turn. *)
Definition choose_slot : M World nat :=
  n ← gets space;
  match list_find (fun c => cb_Status c = 0) (m_Cache n) with
  | Some (i, _) =>
      _ ← update (fun w => with_hw (mkHw (poke (ram (hw w)) (new_buffer i) (replicate (Z.to_nat (m_CacheBlockSize n)) 0)) (disk (hw w))) w);
      _ ← update (fun w => with_space (set_slot i (fun c => mkCached (new_buffer i) (Block c) (cb_Status c)) (space w)) w);
      mret i
  | None =>
      if m_Overwritten n =? 512 then _ ← update (fun w => with_space (with_overwritten 0 (space w)) w); mret 0%nat
      else _ ← update (fun w => with_space (with_overwritten (m_Overwritten n + 1) (space w)) w); mret (Z.to_nat (m_Overwritten n))
  end.
Definition CacheBlock (block : Z) : M World nat :=
  target ← choose_slot;
  n ← gets space;
  c ← deref (m_Cache n !! target);
  _ ← ReadWriteLba (Cache c) (u64 (m_CacheBlockSize n / m_LbaSize n * block)) (m_CacheBlockSize n / m_LbaSize n) false;
  _ ← update (fun w => with_space (set_slot target (fun c => mkCached (Cache c) block CacheReady) (space w)) w);
  mret target.
Definition slot_of (sector : Z) : M World nat :=
  n ← gets space;
  match FindBlock sector n with Some i => mret i | None => CacheBlock sector end.

(** [turns] bounds the loops: one for every block the range touches. *)
Fixpoint cached_read_loop (turns : nat) (offset bytes progress : Z) (dest : list Z) : M World (list Z) :=
  if progress <? bytes then
    match turns with
    | O => diverges
    | S turns =>
        n ← gets space;
        _ ← Assert (negb (m_CacheBlockSize n =? 0));
        slot ← slot_of (u64 (offset + progress) / m_CacheBlockSize n);
        n ← gets space;
        let off := u64 (offset + progress) mod m_CacheBlockSize n in
        let chunk := Z.min (bytes - progress) (m_CacheBlockSize n - off) in
        c ← deref (m_Cache n !! slot);
        w ← get;
        cached_read_loop turns offset bytes (progress + chunk) (dest ++ peek (ram (hw w)) (Cache c + off) chunk)
    end
  else mret dest.
Definition Read (turns : nat) (offset bytes : Z) : M World (list Z) := cached_read_loop turns offset bytes 0 [].
Fixpoint cached_write_loop (turns : nat) (src : list Z) (offset progress : Z) : M World Z :=
  let bytes := Z.of_nat (length src) in
  if progress <? bytes then
    match turns with
    | O => diverges
    | S turns =>
        n ← gets space;
        _ ← Assert (negb (m_CacheBlockSize n =? 0));
        slot ← slot_of (u64 (offset + progress) / m_CacheBlockSize n);
        n ← gets space;
        let off := u64 (offset + progress) mod m_CacheBlockSize n in
        let chunk := Z.min (bytes - progress) (m_CacheBlockSize n - off) in
        c ← deref (m_Cache n !! slot);
        _ ← update (fun w => with_hw (mkHw (poke (ram (hw w)) (Cache c + off) (slice (Z.to_nat progress) (Z.to_nat chunk) src)) (disk (hw w))) w);
        _ ← update (fun w => with_space (set_slot slot (fun c => mkCached (Cache c) (Block c) CacheReady) (space w)) w);
        _ ← ReadWriteLba (Cache c) (u64 (m_CacheBlockSize n / m_LbaSize n * Block c)) (m_CacheBlockSize n / m_LbaSize n) true;
        cached_write_loop turns src offset (progress + chunk)
    end
  else mret bytes.
Definition Write (turns : nat) (src : list Z) (offset : Z) : M World Z := cached_write_loop turns src offset 0.
End NVMe.

(** ** The controller: which name spaces are added *)
Definition DetectNameSpaces (namespaceIDs : list Z) (namespaceCount : nat) : list Z :=
  filter (fun i => truthy i && (i <? Z.of_nat namespaceCount) = true) (take namespaceCount namespaceIDs).
(** The sizes [NameSpace::Initialize] computes from the format of the name space; the cache is empty. *)
Definition initial_space (id prps maxTransShift lbaShift total : Z) : NameSpace :=
  let maxLbas := 1 .<< (maxTransShift - lbaShift) in
  let lbaSize := 1 .<< lbaShift in
  mkNameSpace id (maxLbas * lbaSize / PAGE_SIZE) prps lbaSize total (lbaSize * 4) (replicate 512 (mkCached 0 0 0)) 0.

(** ** The queue in step with the drive *)
Definition synced (w : World) : Prop :=
  let q := queue w in let d := drive w in
  2 <= m_Depth q < 2 ^ 16 /\ Z.of_nat (length (m_Submit q)) = m_Depth q /\ Z.of_nat (length (m_Complete q)) = m_Depth q /\
  0 <= m_SubmitTail q < m_Depth q /\ d_doorbell d = m_SubmitTail q /\ d_head d = m_SubmitTail q /\
  0 <= m_CompleteHead q < m_Depth q /\ d_tail d = m_CompleteHead q /\ d_phase d = m_CompletePhase q /\ (m_CompletePhase q = 0 \/ m_CompletePhase q = 1) /\
  forall i c, m_Complete q !! i = Some c -> Status c .& 1 = if Z.of_nat i <? m_CompleteHead q then m_CompletePhase q else 1 - m_CompletePhase q.

Section Await.
Context `{HigherHalf}.
Variable execute : Submission -> Hw -> Hw * Z.
Lemma next_index x n : 0 <= x < n -> 0 <= (x + 1) mod n < n /\ ((x + 1) mod n = 0 /\ x = n - 1 \/ (x + 1) mod n = x + 1 /\ x + 1 < n).
Proof.
  intros Hx. split; [apply Z.mod_pos_bound; lia|]. destruct (decide (x = n - 1)) as [->|Hn]; [left; replace (n - 1 + 1) with n by lia; rewrite Z_mod_same_full; lia|right; rewrite Z.mod_small; lia].
Qed.
(** A command is carried out once and its own completion is seen: the queue stays in step, or the
    kernel stops at the error the drive reports. *)
Lemma AwaitSubmit_cases polls cmd w h st : (2 <= polls)%nat -> synced w -> execute (set_CompleteID (u16 (m_CmdId (queue w))) cmd) (hw w) = (h, st) ->
  if st =? 0 then exists w', AwaitSubmit execute polls cmd w = Ret w' 0 /\ synced w' /\ hw w' = h /\ space w' = space w /\ m_Depth (queue w') = m_Depth (queue w) /\ m_CmdId (queue w') = u32 (m_CmdId (queue w) + 1)
  else AwaitSubmit execute polls cmd w = Panic.
Proof.
  intros Hp (Hd & Hls & Hlc & Ht & Hdb & Hdh & Hh & Hdt & Hdp & Hph & Hst) He. destruct w as [n [depth sub com tail head phase cid] [db dh dt dp] hw0]. cbn [queue drive hw space m_Depth m_Submit m_Complete m_SubmitTail m_CompleteHead m_CompletePhase m_CmdId d_doorbell d_head d_tail d_phase] in *. subst db dh dt dp.
  set (c1 := set_CompleteID (u16 cid) cmd) in *. destruct (next_index tail depth Ht) as [Ht1 Ht2]. destruct (next_index head depth Hh) as [Hh1 Hh2].
  destruct polls as [|[|polls]]; [lia|lia|]. unfold AwaitSubmit, Submit. cbn [wait_loop].
  unfold mbind, M_bind, gets, update, mret, M_ret, Assert, with_queue, with_drive. cbn [queue drive hw space m_Depth m_Submit m_Complete m_SubmitTail m_CompleteHead m_CompletePhase m_CmdId d_doorbell d_head d_tail d_phase]. rewrite (proj2 (Z.eqb_neq depth 0)) by lia. cbn [negb mret M_ret queue drive hw space m_Depth m_Submit m_Complete m_SubmitTail m_CompleteHead m_CompletePhase m_CmdId].
  destruct (lookup_lt_is_Some_2 com (Z.to_nat head) ltac:(lia)) as (c0 & Hc0). rewrite Hc0. cbn [deref mret M_ret]. pose proof (Hst _ _ Hc0) as Hs0. rewrite Z2Nat.id, Z.ltb_irrefl in Hs0 by lia.
  replace (Status c0 .& 1 =? phase) with false by (symmetry; apply Z.eqb_neq; lia). cbv beta iota.
  match goal with |- context [device_turn execute ?W] => assert (Hturn : device_turn execute W =
    mkWorld n (mkQueue depth (<[Z.to_nat tail := c1]> sub) (<[Z.to_nat head := mkCompletion (CompleteID c1) (2 * st + phase)]> com) ((tail + 1) mod depth) head phase (u32 (cid + 1)))
      (mkDriveQueue ((tail + 1) mod depth) ((tail + 1) mod depth) ((head + 1) mod depth) (if (head + 1) mod depth =? 0 then 1 - phase else phase)) h) end.
  { unfold device_turn. cbn [queue drive hw space m_Depth m_Submit m_Complete m_SubmitTail m_CompleteHead m_CompletePhase m_CmdId d_doorbell d_head d_tail d_phase].
    replace (tail =? (tail + 1) mod depth) with false by (symmetry; apply Z.eqb_neq; lia). rewrite list_lookup_insert_eq by lia. fold c1. now rewrite He. }
  rewrite !Hturn. cbn [queue drive hw space m_Depth m_Submit m_Complete m_SubmitTail m_CompleteHead m_CompletePhase m_CmdId].
  rewrite list_lookup_insert_eq by lia. cbn [deref mret M_ret Status]. assert (Hl : (2 * st + phase) .& 1 = phase) by (rewrite (Z.land_ones _ 1), (Z.add_comm _ phase), (Z.mul_comm 2), Z.mod_add by lia; destruct Hph as [-> | ->]; reflexivity). rewrite Hl, Z.eqb_refl. cbn [Status].
  assert (Hr : (2 * st + phase) .>> 1 = st) by (rewrite Z.shiftr_div_pow2, (Z.add_comm _ phase), (Z.mul_comm 2), Z.div_add by lia; destruct Hph as [-> | ->]; reflexivity). rewrite Hr. destruct (st =? 0) eqn:Hst0; [|reflexivity]. apply Z.eqb_eq in Hst0. subst st. cbn [Z.eqb mret M_ret]. eexists. split; [reflexivity|]. split; [|now cbn].
  unfold synced. cbn [queue drive hw space m_Depth m_Submit m_Complete m_SubmitTail m_CompleteHead m_CompletePhase m_CmdId d_doorbell d_head d_tail d_phase]. rewrite !length_insert.
  assert (Hphase : (if (head + 1) mod depth =? 0 then if phase =? 0 then 1 else 0 else phase) = if (head + 1) mod depth =? 0 then 1 - phase else phase) by (destruct Hph as [-> | ->]; reflexivity).
  rewrite Hphase. split_and!; trivial; try lia; [destruct (_ =? 0); lia|].
  intros i c Hi. destruct (decide (i = Z.to_nat head)) as [->|Hne].
  - rewrite list_lookup_insert_eq in Hi by lia. injection Hi as <-. cbn [Status]. rewrite Hl. rewrite Z2Nat.id by lia. destruct Hh2 as [[-> ?]|[-> ?]]; [cbn; rewrite (proj2 (Z.ltb_ge _ _)) by lia; lia|]. rewrite (proj2 (Z.eqb_neq _ _)) by lia. now rewrite (proj2 (Z.ltb_lt _ _)) by lia.
  - rewrite list_lookup_insert_ne in Hi by congruence. pose proof (Hst _ _ Hi) as Hs. apply lookup_lt_Some in Hi. rewrite Hs. destruct Hh2 as [[-> ?]|[-> ?]].
    + rewrite (proj2 (Z.ltb_lt (Z.of_nat i) head)) by lia. cbn. rewrite (proj2 (Z.ltb_ge _ _)) by lia. lia.
    + rewrite (proj2 (Z.eqb_neq _ _)) by lia. destruct (Z.ltb_spec (Z.of_nat i) head); [now rewrite (proj2 (Z.ltb_lt _ _)) by lia|now rewrite (proj2 (Z.ltb_ge _ _)) by lia].
Qed.
Lemma AwaitSubmit_spec polls cmd w h : (2 <= polls)%nat -> synced w -> execute (set_CompleteID (u16 (m_CmdId (queue w))) cmd) (hw w) = (h, 0) ->
  exists w', AwaitSubmit execute polls cmd w = Ret w' 0 /\ synced w' /\ hw w' = h /\ space w' = space w /\ m_Depth (queue w') = m_Depth (queue w) /\ m_CmdId (queue w') = u32 (m_CmdId (queue w) + 1).
Proof. intros Hp Hs He. exact (AwaitSubmit_cases polls cmd w h 0 Hp Hs He). Qed.
End Await.

(** ** The name space as an array of bytes *)
Section Coherence.
Context `{HigherHalf}.
Variable execute : Submission -> Hw -> Hw * Z.
Variable new_buffer : nat -> Z.
Variable polls : nat.
Variables (id ls count : Z).

(** Reading and writing blocks through one page, as the drive documents it. *)
Definition drive_reads : Prop := forall cmd h slba len, OpCode cmd = IO_READ -> NameSpaceID cmd = id -> Command cmd = ReadWrite slba len ->
  0 <= slba -> 0 <= len -> slba + len + 1 <= count -> Prp1 cmd mod 4096 + (len + 1) * ls <= 4096 ->
  let a := ToHigherHalf (Prp1 cmd) in
  (execute cmd h).2 = 0 /\ (forall x, disk (execute cmd h).1 x = disk h x) /\
  forall x, ram (execute cmd h).1 x = if decide (a <= x < a + (len + 1) * ls) then disk h (slba * ls + (x - a)) else ram h x.
Definition drive_writes : Prop := forall cmd h slba len, OpCode cmd = IO_WRITE -> NameSpaceID cmd = id -> Command cmd = ReadWrite slba len ->
  0 <= slba -> 0 <= len -> slba + len + 1 <= count -> Prp1 cmd mod 4096 + (len + 1) * ls <= 4096 ->
  let a := ToHigherHalf (Prp1 cmd) in
  (execute cmd h).2 = 0 /\ (forall x, ram (execute cmd h).1 x = ram h x) /\
  forall x, disk (execute cmd h).1 x = if decide (slba * ls <= x < (slba + len + 1) * ls) then ram h (a + (x - slba * ls)) else disk h x.
(** What the driver needs of the heap and never asks of it ([new u8[m_CacheBlockSize]] has no alignment):
    the buffers lie in the direct map, apart, and each within one page.  [second_page_at_zero] below says
    what a transfer does otherwise. *)
Definition buffers_ok : Prop :=
  (forall k, (k < 512)%nat -> ToHigherHalf (FromHigherHalf (new_buffer k)) = new_buffer k /\ FromHigherHalf (new_buffer k) mod 4096 + 4 * ls <= 4096) /\
  (forall j k, (j < 512)%nat -> (k < 512)%nat -> j <> k -> new_buffer j + 4 * ls <= new_buffer k \/ new_buffer k + 4 * ls <= new_buffer j).

Hypothesis sizes : 0 < ls <= 1024 /\ 0 < count /\ count * ls < 2 ^ 63.
Hypothesis reads : drive_reads.
Hypothesis writes : drive_writes.
Hypothesis buffers : buffers_ok.
Hypothesis patience : (2 <= polls)%nat.

Definition fits (n : NameSpace) : Prop :=
  m_ID n = id /\ m_LbaSize n = ls /\ m_LbaCount n = count /\ m_CacheBlockSize n = ls * 4 /\ length (m_Cache n) = 512%nat /\ 0 <= m_Overwritten n <= 512.
(** A slot that is in use holds its block. *)
Definition slot_ok (h : Hw) (i : nat) (c : CachedBlock) : Prop :=
  cb_Status c <> 0 -> Cache c = new_buffer i /\ 0 <= Block c /\ Block c * 4 < count /\
    forall j, 0 <= j < 4 * ls -> Block c * (4 * ls) + j < count * ls -> ram h (new_buffer i + j) = disk h (Block c * (4 * ls) + j).
Definition coherent (w : World) : Prop :=
  synced w /\ fits (space w) /\ (forall i c, m_Cache (space w) !! i = Some c -> slot_ok (hw w) i c) /\
  forall i j c d, m_Cache (space w) !! i = Some c -> m_Cache (space w) !! j = Some d -> cb_Status c <> 0 -> cb_Status d <> 0 -> Block c = Block d -> i = j.

(** The number of blocks a transfer moves: fewer at the end. *)
Definition moved (b : Z) : Z := Z.min 4 (count - 4 * b).
Lemma transfer_command w k b (write : bool) : synced w -> fits (space w) -> (k < 512)%nat -> 0 <= b -> 4 * b < count ->
  exists cmd, OpCode cmd = (if write then IO_WRITE else IO_READ) /\ NameSpaceID cmd = id /\ Command cmd = ReadWrite (4 * b) (moved b - 1) /\ Prp1 cmd = FromHigherHalf (new_buffer k) /\
    ((execute cmd (hw w)).2 = 0 -> exists w', ReadWriteLba execute polls (new_buffer k) (4 * b) 4 write w = Ret w' 0 /\ synced w' /\ hw w' = (execute cmd (hw w)).1 /\ space w' = space w).
Proof.
  intros Hs (Hid & Hls & Hc & _) Hk Hb Hbc. destruct sizes as (Hl & Hc0 & Hsz). assert (Hc63 : count < 2 ^ 63) by (clear - Hl Hc0 Hsz; nia).
  set (cmd := mkSubmission (if write then IO_WRITE else IO_READ) (u16 (m_CmdId (queue w))) id (FromHigherHalf (new_buffer k)) 0 (ReadWrite (4 * b) (moved b - 1))). exists cmd. split_and!; trivial. intros He.
  destruct (execute cmd (hw w)) as [h st] eqn:Ex. cbn in He. subst st. cbn [fst].
  destruct (AwaitSubmit_spec execute polls (mkSubmission (if write then IO_WRITE else IO_READ) 0 id (FromHigherHalf (new_buffer k)) 0 (ReadWrite (4 * b) (moved b - 1))) w h patience Hs Ex) as (w' & Hw' & Hs' & Hh' & Hsp & _).
  exists w'. split_and!; trivial. unfold ReadWriteLba. rewrite get_ret. cbv zeta. rewrite Hid, Hls, Hc.
  assert (Hm : (if count <=? u64 (4 * b + 4) then u64 (4 - u64 (u64 (4 * b + 4) - count)) else 4) = moved b).
  { unfold moved, u64, wrap. rewrite (Z.mod_small (4 * b + 4)) by lia. destruct (Z.leb_spec count (4 * b + 4)); [|lia]. rewrite (Z.mod_small (4 * b + 4 - count)) by lia. rewrite Z.mod_small; lia. }
  rewrite Hm. assert (Hmv : 1 <= moved b <= 4) by (unfold moved; lia). assert (Hu : u64 (moved b * ls) = moved b * ls) by (unfold u64, wrap; apply Z.mod_small; nia). rewrite Hu.
  unfold PAGE_SIZE. rewrite (proj2 (Z.ltb_ge (2 * 4096) (moved b * ls))) by nia. rewrite (proj2 (Z.ltb_ge 4096 (moved b * ls))) by nia. cbn [andb]. rewrite mret_ret.
  replace (u16 (moved b - 1)) with (moved b - 1) by (unfold u16, wrap; rewrite Z.mod_small; lia). rewrite (bind_ret _ _ _ _ _ Hw'). reflexivity.
Qed.
Lemma transfer_read w k b : synced w -> fits (space w) -> (k < 512)%nat -> 0 <= b -> 4 * b < count ->
  exists w', ReadWriteLba execute polls (new_buffer k) (4 * b) 4 false w = Ret w' 0 /\ synced w' /\ space w' = space w /\ (forall x, disk (hw w') x = disk (hw w) x) /\
    forall x, ram (hw w') x = if decide (new_buffer k <= x < new_buffer k + moved b * ls) then disk (hw w) (b * (4 * ls) + (x - new_buffer k)) else ram (hw w) x.
Proof.
  intros Hs Hf Hk Hb Hbc. destruct sizes as (Hl & _). destruct (transfer_command w k b false Hs Hf Hk Hb Hbc) as (cmd & Ho & Hi & Hc & Hp & Hrun). destruct buffers as [Hbuf _]. destruct (Hbuf k Hk) as [Hto Hpage].
  destruct (reads cmd (hw w) (4 * b) (moved b - 1) Ho Hi Hc) as (Hst & Hd & Hr); [lia|unfold moved; lia|unfold moved; lia|rewrite Hp; unfold moved; nia|]. destruct (Hrun Hst) as (w' & Hw' & Hs' & Hh' & Hsp).
  exists w'. rewrite Hh'. split_and!; trivial. intros x. rewrite Hr, Hp, Hto. replace (moved b - 1 + 1) with (moved b) by lia. now replace (4 * b * ls) with (b * (4 * ls)) by lia.
Qed.
Lemma transfer_write w k b : synced w -> fits (space w) -> (k < 512)%nat -> 0 <= b -> 4 * b < count ->
  exists w', ReadWriteLba execute polls (new_buffer k) (4 * b) 4 true w = Ret w' 0 /\ synced w' /\ space w' = space w /\ (forall x, ram (hw w') x = ram (hw w) x) /\
    forall x, disk (hw w') x = if decide (b * (4 * ls) <= x < b * (4 * ls) + moved b * ls) then ram (hw w) (new_buffer k + (x - b * (4 * ls))) else disk (hw w) x.
Proof.
  intros Hs Hf Hk Hb Hbc. destruct sizes as (Hl & _). destruct (transfer_command w k b true Hs Hf Hk Hb Hbc) as (cmd & Ho & Hi & Hc & Hp & Hrun). destruct buffers as [Hbuf _]. destruct (Hbuf k Hk) as [Hto Hpage].
  destruct (writes cmd (hw w) (4 * b) (moved b - 1) Ho Hi Hc) as (Hst & Hd & Hr); [lia|unfold moved; lia|unfold moved; lia|rewrite Hp; unfold moved; nia|]. destruct (Hrun Hst) as (w' & Hw' & Hs' & Hh' & Hsp).
  exists w'. rewrite Hh'. split_and!; trivial. intros x. rewrite Hr, Hp, Hto. replace (4 * b * ls) with (b * (4 * ls)) by lia. now replace ((4 * b + (moved b - 1) + 1) * ls) with (b * (4 * ls) + moved b * ls) by lia.
Qed.

(** *** The cache *)
Lemma FindBlock_Some b n i : FindBlock b n = Some i -> exists c, m_Cache n !! i = Some c /\ Block c = b /\ cb_Status c <> 0.
Proof.
  unfold FindBlock. destruct (list_find _ _) as [[j c]|] eqn:E; [|discriminate]. intros Hi. injection Hi as <-. apply list_find_Some in E as (Hc & Hr & _). apply andb_prop in Hr as [Hb Hs].
  exists c. split_and!; [trivial|now apply Z.eqb_eq|]. intros H0. rewrite H0 in Hs. discriminate.
Qed.
Lemma FindBlock_None b n i c : FindBlock b n = None -> m_Cache n !! i = Some c -> cb_Status c <> 0 -> Block c <> b.
Proof.
  unfold FindBlock. destruct (list_find _ _) as [[j d]|] eqn:E; [discriminate|]. intros _ Hc Hs Hb. apply list_find_None in E. rewrite list.Forall_forall in E.
  apply (E c); [now apply list_elem_of_lookup_2 in Hc|]. unfold ready. now rewrite (proj2 (Z.eqb_eq _ _) Hb), (proj2 (Z.eqb_neq _ _) Hs).
Qed.
Lemma poke_outside mem a bs x : ~ (a <= x < a + Z.of_nat (length bs)) -> poke mem a bs x = mem x.
Proof. intros Hx. unfold poke. destruct (Z.leb_spec a x), (Z.ltb_spec x (a + Z.of_nat (length bs))); trivial. lia. Qed.
Definition inside_buffer (k : nat) (x : Z) : Prop := new_buffer k <= x < new_buffer k + 4 * ls.
Lemma fits_set_slot i f n : fits n -> fits (set_slot i f n).
Proof. unfold fits, set_slot, with_cache. cbn [m_ID m_LbaSize m_LbaCount m_CacheBlockSize m_Cache m_Overwritten]. now rewrite length_alter. Qed.
Lemma set_slot_cache i f n : m_Cache (set_slot i f n) = alter f i (m_Cache n).
Proof. reflexivity. Qed.
Lemma choose_slot_spec w : coherent w -> exists w1 target c, choose_slot new_buffer w = Ret w1 target /\ (target < 512)%nat /\ synced w1 /\ fits (space w1) /\
  m_Cache (space w1) !! target = Some c /\ Cache c = new_buffer target /\ (forall i, i <> target -> m_Cache (space w1) !! i = m_Cache (space w) !! i) /\
  (forall x, disk (hw w1) x = disk (hw w) x) /\ (forall x, ~ inside_buffer target x -> ram (hw w1) x = ram (hw w) x).
Proof.
  intros (Hs & Hf & Hok & _). pose proof Hf as (H1 & H2 & H3 & H4 & H5 & H6). destruct sizes as (Hl & _). unfold choose_slot. rewrite gets_ret. destruct (list_find (fun c => cb_Status c = 0) (m_Cache (space w))) as [[i c]|] eqn:E.
  - apply list_find_Some in E as (Hc & H0 & _). pose proof (lookup_lt_Some _ _ _ Hc) as Hi. rewrite !update_ret. eexists _, i, _. split; [reflexivity|]. cbn [with_space with_hw space hw queue drive disk ram]. rewrite ?set_slot_cache.
    split; [lia|]. split; [exact Hs|]. split; [now apply fits_set_slot|]. split_and!; [rewrite list_lookup_alter_eq, Hc; reflexivity|reflexivity|intros j Hj; now rewrite list_lookup_alter_ne by congruence|reflexivity|].
    intros x Hx. apply poke_outside. rewrite length_replicate, H4. unfold inside_buffer in Hx. lia.
  - apply list_find_None in E. rewrite list.Forall_forall in E. set (target := if m_Overwritten (space w) =? 512 then 0%nat else Z.to_nat (m_Overwritten (space w))).
    assert (Ht : (target < 512)%nat) by (unfold target; destruct (Z.eqb_spec (m_Overwritten (space w)) 512); lia). destruct (lookup_lt_is_Some_2 (m_Cache (space w)) target ltac:(lia)) as (c & Hc).
    assert (Hca : Cache c = new_buffer target) by (apply (Hok _ _ Hc); apply E; now apply list_elem_of_lookup_2 in Hc).
    exists (with_space (with_overwritten (if m_Overwritten (space w) =? 512 then 0 else m_Overwritten (space w) + 1) (space w)) w), target, c. split_and!; trivial.
    + unfold target. destruct (_ =? 512); now rewrite update_ret.
    + unfold fits. cbn [with_space space with_overwritten m_ID m_LbaSize m_LbaCount m_CacheBlockSize m_Cache m_Overwritten]. split_and!; trivial; destruct (Z.eqb_spec (m_Overwritten (space w)) 512); lia.
Qed.
Lemma slot_kept w h i c k : slot_ok (hw w) i c -> (i < 512)%nat -> (k < 512)%nat -> i <> k -> (forall x, disk h x = disk (hw w) x) -> (forall x, ~ inside_buffer k x -> ram h x = ram (hw w) x) -> slot_ok h i c.
Proof.
  intros Hok Hi Hk Hne Hd Hr Hst. destruct (Hok Hst) as (Hc & Hb & Hlt & Hm). split_and!; trivial. intros j Hj Hj2. rewrite Hd, Hr; [now apply Hm|]. unfold inside_buffer. destruct buffers as [_ Hap]. specialize (Hap i k Hi Hk Hne). lia.
Qed.
Lemma quotient : ls * 4 / ls = 4.
Proof. destruct sizes as [Hl _]. rewrite Z.mul_comm. apply Z.div_mul. lia. Qed.
Lemma block_number b : 0 <= b -> 4 * b < count -> u64 (4 * b) = 4 * b.
Proof. intros Hb Hc. destruct sizes as (Hl & H0 & Hz). assert (count < 2 ^ 63) by (clear - Hl H0 Hz; nia). unfold u64, wrap. apply Z.mod_small. lia. Qed.
Lemma in_moved b j : 0 <= j < 4 * ls -> b * (4 * ls) + j < count * ls -> j < moved b * ls.
Proof. intros Hj Hb. destruct sizes as (Hl & _). unfold moved. destruct (Z.min_spec 4 (count - 4 * b)) as [[_ ->]|[_ ->]]; lia. Qed.
Lemma CacheBlock_spec w b : coherent w -> 0 <= b -> 4 * b < count -> FindBlock b (space w) = None ->
  exists w' k c, CacheBlock execute new_buffer polls b w = Ret w' k /\ coherent w' /\ (forall x, disk (hw w') x = disk (hw w) x) /\ m_Cache (space w') !! k = Some c /\ Block c = b /\ cb_Status c <> 0.
Proof.
  intros Hco Hb Hbc Hnone. destruct (choose_slot_spec w Hco) as (w1 & k & c & Hch & Hk & Hs1 & Hf1 & Hc & Hca & Hoth & Hd1 & Hr1). destruct Hco as (_ & _ & Hok & Huniq).
  destruct (transfer_read w1 k b Hs1 Hf1 Hk Hb Hbc) as (w2 & Hw2 & Hs2 & Hsp2 & Hd2 & Hr2). pose proof Hf1 as (H1 & H2 & H3 & H4 & H5 & H6).
  unfold CacheBlock. rewrite (bind_ret _ _ _ _ _ Hch), gets_ret, Hc, deref_ret, H2, H4, quotient, Hca, (block_number b Hb Hbc), (bind_ret _ _ _ _ _ Hw2), update_ret. destruct sizes as (Hl & _).
  eexists _, k, (mkCached (new_buffer k) b CacheReady). split; [reflexivity|]. cbn [with_space space hw queue drive]. rewrite ?set_slot_cache, ?Hsp2.
  assert (Hcache : forall i d, alter (fun c => mkCached (Cache c) b CacheReady) k (m_Cache (space w1)) !! i = Some d -> i = k /\ d = mkCached (new_buffer k) b CacheReady \/ i <> k /\ m_Cache (space w) !! i = Some d).
  { intros i d Hi. destruct (decide (i = k)) as [->|Hne]; [left; rewrite list_lookup_alter_eq, Hc in Hi; injection Hi as <-; now rewrite Hca|right; rewrite list_lookup_alter_ne, Hoth in Hi by congruence; now split]. }
  split_and!; [|intros x; now rewrite Hd2, Hd1|rewrite list_lookup_alter_eq, Hc; cbn; now rewrite Hca|reflexivity|discriminate].
  unfold coherent. cbn [with_space space hw queue drive]. rewrite ?set_slot_cache, ?Hsp2. split; [exact Hs2|]. split; [now apply fits_set_slot|]. split.
  - intros i d Hi. destruct (Hcache i d Hi) as [[-> ->]|[Hne Hi']].
    + intros _. cbn [Cache Block]. split_and!; trivial; [lia|]. intros j Hj Hj2. rewrite Hr2, Hd2. pose proof (in_moved b j Hj Hj2). rewrite decide_True by lia. f_equal. lia.
    + assert (Hi5 : (i < 512)%nat) by (apply lookup_lt_Some in Hi; rewrite length_alter in Hi; lia). apply (slot_kept w _ i d k); trivial; [now apply Hok|intros x; now rewrite Hd2, Hd1|]. intros x Hx. rewrite Hr2, decide_False by (unfold inside_buffer, moved in *; nia). now apply Hr1.
  - intros i j c1 c2 Hi Hj Hst1 Hst2 Hbl. destruct (Hcache i c1 Hi) as [[-> ->]|[Hn1 Hi']], (Hcache j c2 Hj) as [[-> ->]|[Hn2 Hj']]; trivial; cbn [Block] in *.
    + now destruct (FindBlock_None b (space w) j c2 Hnone Hj' Hst2).
    + now destruct (FindBlock_None b (space w) i c1 Hnone Hi' Hst1).
    + exact (Huniq i j c1 c2 Hi' Hj' Hst1 Hst2 Hbl).
Qed.
Lemma slot_of_spec w b : coherent w -> 0 <= b -> 4 * b < count ->
  exists w' k c, slot_of execute new_buffer polls b w = Ret w' k /\ coherent w' /\ (forall x, disk (hw w') x = disk (hw w) x) /\ m_Cache (space w') !! k = Some c /\ Block c = b /\ cb_Status c <> 0.
Proof.
  intros Hco Hb Hbc. unfold slot_of. rewrite gets_ret. destruct (FindBlock b (space w)) as [k|] eqn:E; [|now apply CacheBlock_spec]. destruct (FindBlock_Some b _ k E) as (c & Hc & Hbl & Hst). exists w, k, c. now split_and!.
Qed.

(** *** Reading and writing *)
Lemma peek_app mem a n m : 0 <= n -> 0 <= m -> peek mem a (n + m) = peek mem a n ++ peek mem (a + n) m.
Proof.
  intros Hn Hm. unfold peek. rewrite seqZ_app, fmap_app by lia. f_equal. rewrite Z.add_0_l. replace (seqZ n m) with (Z.add n <$> seqZ 0 m) by (rewrite fmap_add_seqZ; now rewrite Z.add_0_r). rewrite <- list_fmap_compose. apply list_fmap_ext. intros i x _. cbn. f_equal. lia.
Qed.
Lemma peek_ext mem mem' a a' n : (forall i, 0 <= i < n -> mem (a + i) = mem' (a' + i)) -> peek mem a n = peek mem' a' n.
Proof. intros He. unfold peek. apply list_fmap_ext. intros i x Hx%lookup_seqZ. apply He. lia. Qed.
Lemma place o : 0 <= o < count * ls -> let b := o / (ls * 4) in let off := o mod (ls * 4) in u64 o = o /\ 0 <= b /\ 4 * b < count /\ o = b * (4 * ls) + off /\ 0 <= off < 4 * ls.
Proof.
  intros Ho b off. destruct sizes as (Hl & H0 & Hz). pose proof (Z.div_mod o (ls * 4) ltac:(lia)) as Hdm. pose proof (Z.mod_pos_bound o (ls * 4) ltac:(lia)) as Hmod. fold b off in Hdm, Hmod.
  assert (Hb : 0 <= b) by (apply Z.div_pos; lia). split_and!; [unfold u64, wrap; apply Z.mod_small; lia|exact Hb|nia|lia|lia|lia].
Qed.
Lemma cached_read_loop_spec turns : forall w offset bytes progress dest, coherent w -> 0 <= offset -> 0 <= progress <= bytes -> offset + bytes <= count * ls -> bytes - progress <= Z.of_nat turns ->
  exists w', cached_read_loop execute new_buffer polls turns offset bytes progress dest w = Ret w' (dest ++ peek (disk (hw w)) (offset + progress) (bytes - progress)) /\ coherent w' /\ forall x, disk (hw w') x = disk (hw w) x.
Proof.
  induction turns as [|turns IH]; intros w offset bytes progress dest Hco Ho Hp Hr Ht; cbn [cached_read_loop].
  - assert (progress = bytes) as -> by lia. rewrite Z.ltb_irrefl, Z.sub_diag. exists w. cbn. rewrite app_nil_r. now split_and!.
  - destruct (Z.ltb_spec progress bytes) as [Hlt|Hge]; [|assert (progress = bytes) as -> by lia; rewrite Z.sub_diag; exists w; cbn; rewrite app_nil_r; now split_and!].
    destruct (place (offset + progress) ltac:(lia)) as (Hu & Hb & Hbc & Hdm & Hoff). destruct sizes as (Hl & _). rewrite gets_ret. pose proof Hco as (_ & (H1 & H2 & H3 & H4 & H5 & H6) & _). rewrite H4. rewrite assert_ret by (apply negb_true_iff, Z.eqb_neq; lia). rewrite Hu.
    destruct (slot_of_spec w _ Hco Hb Hbc) as (w1 & k & c & Hw1 & Hco1 & Hd1 & Hc & Hbl & Hst). rewrite (bind_ret _ _ _ _ _ Hw1), gets_ret. pose proof Hco1 as (_ & (_ & _ & _ & H4' & _) & Hok1 & _). rewrite H4', Hc, deref_ret, get_ret.
    destruct (Hok1 k c Hc Hst) as (Hca & _ & _ & Hm). rewrite Hca. set (off := (offset + progress) mod (ls * 4)) in *. set (chunk := Z.min (bytes - progress) (ls * 4 - off)). assert (Hch : 1 <= chunk <= bytes - progress /\ chunk <= ls * 4 - off) by (unfold chunk; lia).
    destruct (IH w1 offset bytes (progress + chunk) (dest ++ peek (ram (hw w1)) (new_buffer k + off) chunk) Hco1) as (w' & Hw' & Hco' & Hd'); [lia|lia|lia|lia|]. exists w'. rewrite Hw'. split_and!; [|exact Hco'|intros x; now rewrite Hd', Hd1].
    f_equal. rewrite <- List.app_assoc. f_equal. replace (bytes - progress) with (chunk + (bytes - (progress + chunk))) by lia. rewrite peek_app by lia. f_equal.
    + apply peek_ext. intros i Hi. rewrite <- Z.add_assoc. rewrite Hm by (rewrite ?Hbl; lia). rewrite Hd1, Hbl. f_equal. lia.
    + rewrite Z.add_assoc. apply peek_ext. intros i _. apply Hd1.
Qed.
Lemma poke_inside mem a bs x : a <= x < a + Z.of_nat (length bs) -> poke mem a bs x = nth (Z.to_nat (x - a)) bs 0.
Proof. intros Hx. unfold poke. now rewrite (proj2 (Z.leb_le a x)), (proj2 (Z.ltb_lt x (a + Z.of_nat (length bs)))) by lia. Qed.
(** One turn of writing: the block in the cache and on the disk. *)
Lemma write_cached_block w k c off bs : coherent w -> m_Cache (space w) !! k = Some c -> cb_Status c <> 0 -> 0 <= off -> off + Z.of_nat (length bs) <= 4 * ls -> Block c * (4 * ls) + off + Z.of_nat (length bs) <= count * ls ->
  let w1 := with_space (set_slot k (fun c => mkCached (Cache c) (Block c) CacheReady) (space w)) (with_hw (mkHw (poke (ram (hw w)) (Cache c + off) bs) (disk (hw w))) w) in
  exists w', ReadWriteLba execute polls (Cache c) (4 * Block c) 4 true w1 = Ret w' 0 /\ coherent w' /\
    forall x, disk (hw w') x = if decide (Block c * (4 * ls) + off <= x < Block c * (4 * ls) + off + Z.of_nat (length bs)) then nth (Z.to_nat (x - (Block c * (4 * ls) + off))) bs 0 else disk (hw w) x.
Proof.
  intros (Hs & Hf & Hok & Huniq) Hc Hst Ho Hlen Hend w1. pose proof Hf as (_ & _ & _ & _ & H5 & _). pose proof (lookup_lt_Some _ _ _ Hc) as Hk. destruct sizes as (Hl & _). destruct (Hok k c Hc Hst) as (Hca & Hb & Hbc & Hm). set (b := Block c) in *.
  destruct (transfer_write w1 k b) as (w' & Hw' & Hs' & Hsp & Hr & Hd); [exact Hs|now apply fits_set_slot|lia|lia|lia|]. rewrite Hca. exists w'. split; [exact Hw'|].
  assert (Hram : forall x, ram (hw w1) x = poke (ram (hw w)) (new_buffer k + off) bs x) by (intros x; cbn; now rewrite Hca).
  assert (Hdisk : forall x, disk (hw w') x = if decide (b * (4 * ls) + off <= x < b * (4 * ls) + off + Z.of_nat (length bs)) then nth (Z.to_nat (x - (b * (4 * ls) + off))) bs 0 else disk (hw w) x).
  { intros x. rewrite Hd. destruct (decide (b * (4 * ls) <= x < b * (4 * ls) + moved b * ls)) as [Hin|Hout].
    - rewrite Hram. destruct (decide _) as [Hi|Hi]; [rewrite poke_inside by lia; f_equal; f_equal; lia|]. rewrite poke_outside by lia. rewrite Hm; [f_equal; lia|unfold moved in Hin; nia|unfold moved in Hin; nia].
    - rewrite decide_False; [reflexivity|]. intros Hi. apply Hout. split; [lia|]. pose proof (in_moved b (x - b * (4 * ls)) ltac:(lia) ltac:(lia)). lia. }
  split; [|exact Hdisk]. unfold coherent. rewrite Hsp. cbn [w1 with_space space]. rewrite set_slot_cache. split; [exact Hs'|]. split; [now apply fits_set_slot|].
  assert (Hcache : forall i d, alter (fun c => mkCached (Cache c) (Block c) CacheReady) k (m_Cache (space w)) !! i = Some d -> i = k /\ d = mkCached (new_buffer k) b CacheReady \/ i <> k /\ m_Cache (space w) !! i = Some d).
  { intros i d Hi. destruct (decide (i = k)) as [->|Hne]; [left; rewrite list_lookup_alter_eq, Hc in Hi; injection Hi as <-; now rewrite Hca|right; rewrite list_lookup_alter_ne in Hi by congruence; now split]. }
  split.
  - intros i d Hi. destruct (Hcache i d Hi) as [[-> ->]|[Hne Hi']].
    + intros _. cbn [Cache Block]. split_and!; trivial. intros j Hj Hj2. pose proof (in_moved b j Hj Hj2). rewrite Hr, Hd, decide_True by lia. f_equal. lia.
    + intros Hsd. destruct (Hok i d Hi' Hsd) as (Hca' & Hb' & Hbc' & Hm'). split_and!; trivial. intros j Hj Hj2. assert (Hbb : Block d <> b) by (intros He; apply Hne; now apply (Huniq i k d c)). apply lookup_lt_Some in Hi'.
      destruct buffers as [_ Hap]. specialize (Hap i k ltac:(lia) ltac:(lia) Hne). rewrite Hr, Hram, poke_outside, Hdisk, decide_False by nia. now apply Hm'.
  - intros i j c1 c2 Hi Hj Hst1 Hst2 Hbl. destruct (Hcache i c1 Hi) as [[-> ->]|[Hn1 Hi']], (Hcache j c2 Hj) as [[-> ->]|[Hn2 Hj']]; trivial; cbn [Block] in *.
    + now apply (Huniq k j c c2).
    + now apply (Huniq i k c1 c).
    + now apply (Huniq i j c1 c2).
Qed.
(** The array with bytes stored in it. *)
Definition stored_at (o : Z) (bs : list Z) (old : Z -> Z) (x : Z) : Z := if decide (o <= x < o + Z.of_nat (length bs)) then nth (Z.to_nat (x - o)) bs 0 else old x.
Lemma cached_write_loop_spec turns : forall w src offset progress, coherent w -> 0 <= offset -> 0 <= progress <= Z.of_nat (length src) -> offset + Z.of_nat (length src) <= count * ls -> Z.of_nat (length src) - progress <= Z.of_nat turns ->
  exists w', cached_write_loop execute new_buffer polls turns src offset progress w = Ret w' (Z.of_nat (length src)) /\ coherent w' /\
    forall x, disk (hw w') x = stored_at (offset + progress) (drop (Z.to_nat progress) src) (disk (hw w)) x.
Proof.
  assert (Hdone : forall w (src : list Z) offset x, disk (hw w) x = stored_at (offset + Z.of_nat (length src)) (drop (Z.to_nat (Z.of_nat (length src))) src) (disk (hw w)) x).
  { intros w src offset x. unfold stored_at. rewrite drop_ge by lia. cbn [length]. now rewrite decide_False by lia. }
  induction turns as [|turns IH]; intros w src offset progress Hco Ho Hp Hr Ht; cbn [cached_write_loop].
  - assert (progress = Z.of_nat (length src)) as -> by lia. rewrite Z.ltb_irrefl. exists w. split_and!; trivial; now apply Hdone.
  - destruct (Z.ltb_spec progress (Z.of_nat (length src))) as [Hlt|Hge]; [|assert (progress = Z.of_nat (length src)) as -> by lia; exists w; split_and!; trivial; now apply Hdone].
    destruct (place (offset + progress) ltac:(lia)) as (Hu & Hb & Hbc & Hdm & Hoff). destruct sizes as (Hl & _). rewrite gets_ret. pose proof Hco as (_ & (_ & _ & _ & H4 & _) & _). rewrite H4. rewrite assert_ret by (apply negb_true_iff, Z.eqb_neq; lia). rewrite Hu.
    destruct (slot_of_spec w _ Hco Hb Hbc) as (w1 & k & c & Hw1 & Hco1 & Hd1 & Hc & Hbl & Hst). rewrite (bind_ret _ _ _ _ _ Hw1), gets_ret. pose proof Hco1 as (_ & (_ & H2' & _ & H4' & _) & Hok1 & _). rewrite H4', Hc, deref_ret, H2', !update_ret.
    set (off := (offset + progress) mod (ls * 4)) in *. set (chunk := Z.min (Z.of_nat (length src) - progress) (ls * 4 - off)). assert (Hch : 1 <= chunk <= Z.of_nat (length src) - progress /\ chunk <= ls * 4 - off) by (unfold chunk; lia).
    set (bs := slice (Z.to_nat progress) (Z.to_nat chunk) src). assert (Hbs : Z.of_nat (length bs) = chunk) by (unfold bs, slice; rewrite length_take, length_drop; lia).
    rewrite quotient, (block_number (Block c)) by (rewrite Hbl; lia). destruct (write_cached_block w1 k c off bs Hco1 Hc Hst) as (w2 & Hw2 & Hco2 & Hd2); [lia|lia|rewrite Hbl; lia|]. cbn [with_space with_hw space hw queue drive] in Hw2 |- *. rewrite (bind_ret _ _ _ _ _ Hw2).
    destruct (IH w2 src offset (progress + chunk) Hco2) as (w' & Hw' & Hco' & Hd'); [lia|lia|lia|lia|]. exists w'. split_and!; trivial. intros x. rewrite Hd'. rewrite Hbl in Hd2. unfold stored_at. rewrite !length_drop.
    destruct (decide (offset + (progress + chunk) <= x < _)) as [Hi|Hi].
    + rewrite decide_True by lia. rewrite !nth_lookup, !lookup_drop. do 2 f_equal. lia.
    + rewrite Hd2, Hd1, Hbs. destruct (decide (_ <= x < _ + chunk)) as [Hj|Hj]; [|now rewrite decide_False by lia]. rewrite decide_True by lia. unfold bs, slice.
      rewrite !nth_lookup, lookup_take_lt, !lookup_drop by lia. do 2 f_equal. lia.
Qed.

(** **** Histories *)
Inductive Op := OpRead (offset bytes : Z) | OpWrite (offset : Z) (src : list Z).
Definition in_range (o : Op) : Prop := match o with OpRead offset bytes => 0 <= offset /\ 0 <= bytes /\ offset + bytes <= count * ls | OpWrite offset src => 0 <= offset /\ offset + Z.of_nat (length src) <= count * ls end.
(** The calls; a write answers with nothing. *)
Definition call (o : Op) : M World (list Z) :=
  match o with OpRead offset bytes => Read execute new_buffer polls (Z.to_nat bytes) offset bytes | OpWrite offset src => _ ← Write execute new_buffer polls (length src) src offset; mret [] end.
Fixpoint calls (l : list Op) : M World (list (list Z)) := match l with [] => mret [] | o :: l => r ← call o; rs ← calls l; mret (r :: rs) end.
(** The same calls on an array of bytes. *)
Fixpoint answers (l : list Op) (a : Z -> Z) : list (list Z) :=
  match l with
  | [] => []
  | OpRead offset bytes :: l => peek a offset bytes :: answers l a
  | OpWrite offset src :: l => [] :: answers l (stored_at offset src a)
  end.
Lemma answers_ext l : forall a a', (forall x, a x = a' x) -> answers l a = answers l a'.
Proof.
  induction l as [|[offset bytes|offset src] l IH]; intros a a' He; cbn [answers]; [reflexivity|f_equal; [apply peek_ext; intros i _; apply He|now apply IH]|]. f_equal. apply IH. intros x. unfold stored_at. now destruct (decide _).
Qed.
(** C32: on a drive with blocks of at most 1024 bytes, and with a heap that gives the cache buffers of four
    blocks that lie each within one page and do not overlap, every history of reads and writes inside the
    name space answers as an array of bytes does, whatever the cache holds, loses and writes back, and
    none of its calls stops the kernel.  The drive follows its documentation for reads and writes of
    such buffers and has its turn while the driver waits. *)
Theorem namespace_histories l : forall w, coherent w -> Forall in_range l -> exists w', calls l w = Ret w' (answers l (disk (hw w))) /\ coherent w'.
Proof.
  induction l as [|o l IH]; intros w Hco Hr; [now exists w|]. apply list.Forall_cons in Hr as [Ho Hr]. cbn [calls]. destruct o as [offset bytes|offset src]; cbn [call in_range answers] in *.
  - unfold Read. destruct (cached_read_loop_spec (Z.to_nat bytes) w offset bytes 0 [] Hco) as (w1 & Hw1 & Hco1 & Hd1); [lia|lia|lia|lia|]. rewrite Z.add_0_r, Z.sub_0_r in Hw1. cbn [app] in Hw1. rewrite (bind_ret _ _ _ _ _ Hw1).
    destruct (IH w1 Hco1 Hr) as (w' & Hw' & Hco'). rewrite (bind_ret _ _ _ _ _ Hw'). exists w'. split; [|exact Hco']. unfold mret, M_ret. f_equal. f_equal. now apply answers_ext.
  - unfold Write. destruct (cached_write_loop_spec (length src) w src offset 0 Hco) as (w1 & Hw1 & Hco1 & Hd1); [lia|lia|lia|lia|]. rewrite bind_assoc, (bind_ret _ _ _ _ _ Hw1), mret_ret. destruct (IH w1 Hco1 Hr) as (w' & Hw' & Hco'). rewrite (bind_ret _ _ _ _ _ Hw'). exists w'. split; [|exact Hco'].
    unfold mret, M_ret. f_equal. f_equal. apply answers_ext. intros x. now rewrite Hd1, Z.add_0_r.
Qed.
(** The cache of a new name space. *)
Lemma initial_coherent w prps shift lbaShift : synced w -> space w = initial_space id prps shift lbaShift count -> ls = 1 .<< lbaShift -> coherent w.
Proof.
  clear sizes reads writes buffers patience. intros Hs Hsp Hl. unfold coherent, fits. rewrite Hsp. unfold initial_space. cbn [m_ID m_LbaSize m_LbaCount m_CacheBlockSize m_Cache m_Overwritten]. rewrite length_replicate, <- Hl.
  split_and!; trivial; try lia; [intros i c [-> _]%lookup_replicate; now intros []|intros i j c d [-> _]%lookup_replicate; now intros _ []].
Qed.
End Coherence.

(** ** Defects *)
Section Defects.
Context `{HigherHalf}.
Variable execute : Submission -> Hw -> Hw * Z.
Variable polls : nat.

(** A transfer of more than one page and at most two names no first page: the drive is given address
    zero. *)
Theorem two_pages_at_zero dest start bytes write w : let n := space w in 0 <= start -> 0 < bytes < 2 ^ 16 -> start + bytes < m_LbaCount n < 2 ^ 63 -> 0 <= m_LbaSize n -> 4096 < bytes * m_LbaSize n <= 8192 ->
  ReadWriteLba execute polls dest start bytes write w =
    (status ← AwaitSubmit execute polls (mkSubmission (if write then IO_WRITE else IO_READ) 0 (m_ID n) 0 (FromHigherHalf (dest + 4096)) (ReadWrite start (bytes - 1))); _ ← Assert (status =? 0); mret 0) w.
Proof.
  intros n Hs Hb Hc Hl Hsz. unfold ReadWriteLba. rewrite get_ret. cbv zeta. fold n. unfold u64, u16, wrap, PAGE_SIZE. rewrite (Z.mod_small (start + bytes)) by lia. rewrite (proj2 (Z.leb_gt (m_LbaCount n) (start + bytes))) by lia. rewrite (Z.mod_small (bytes * m_LbaSize n)) by lia.
  rewrite (proj2 (Z.ltb_ge (2 * 4096) (bytes * m_LbaSize n))) by lia. rewrite (proj2 (Z.ltb_lt 4096 (bytes * m_LbaSize n))) by lia. cbn [andb negb]. rewrite mret_ret. now rewrite (Z.mod_small (bytes - 1)) by lia.
Qed.
(** A transfer of at most a page names its first page alone, also where the buffer reaches into the
    next page: the drive is given address zero for the rest. *)
Theorem second_page_at_zero dest start bytes write w : let n := space w in 0 <= start -> 0 < bytes < 2 ^ 16 -> start + bytes < m_LbaCount n < 2 ^ 63 -> 0 <= m_LbaSize n -> bytes * m_LbaSize n <= 4096 < dest mod 4096 + bytes * m_LbaSize n ->
  ReadWriteLba execute polls dest start bytes write w =
    (status ← AwaitSubmit execute polls (mkSubmission (if write then IO_WRITE else IO_READ) 0 (m_ID n) (FromHigherHalf dest) 0 (ReadWrite start (bytes - 1))); _ ← Assert (status =? 0); mret 0) w.
Proof.
  intros n Hs Hb Hc Hl Hsz. unfold ReadWriteLba. rewrite get_ret. cbv zeta. fold n. unfold u64, u16, wrap, PAGE_SIZE. rewrite (Z.mod_small (start + bytes)) by lia. rewrite (proj2 (Z.leb_gt (m_LbaCount n) (start + bytes))) by lia. rewrite (Z.mod_small (bytes * m_LbaSize n)) by nia.
  rewrite (proj2 (Z.ltb_ge (2 * 4096) (bytes * m_LbaSize n))) by lia. rewrite (proj2 (Z.ltb_ge 4096 (bytes * m_LbaSize n))) by lia. cbn [andb negb]. rewrite mret_ret. now rewrite (Z.mod_small (bytes - 1)) by lia.
Qed.
(** A transfer behind the end of the name space stops the kernel. *)
Theorem past_end_panics dest start bytes write w : let n := space w in 0 < bytes < 2 ^ 16 -> m_LbaCount n < start < 2 ^ 40 -> 0 <= m_LbaCount n -> 0 < m_LbaSize n <= 4096 -> m_MaxPhysRPages n < 2 ^ 50 ->
  ReadWriteLba execute polls dest start bytes write w = Panic.
Proof.
  intros n Hb Hc Hc0 Hl Hmax. unfold ReadWriteLba. rewrite get_ret. cbv zeta. fold n. unfold u64, wrap, PAGE_SIZE. rewrite (Z.mod_small (start + bytes)) by lia. rewrite (proj2 (Z.leb_le (m_LbaCount n) (start + bytes))) by lia. rewrite (Z.mod_small (start + bytes - m_LbaCount n)) by lia.
  set (k := start - m_LbaCount n). assert (Hk : 0 < k < 2 ^ 40) by (unfold k; lia). replace (bytes - (start + bytes - m_LbaCount n)) with (- k) by (unfold k; lia). set (ls := m_LbaSize n) in *.
  assert (Hm : (- k) mod 2 ^ 64 = 2 ^ 64 - k) by (symmetry; apply Z.mod_unique with (q := -1); lia). rewrite Hm.
  assert (Hkl : 0 < k * ls < 2 ^ 53) by (clear - Hk Hl; nia). assert (Hm2 : ((2 ^ 64 - k) * ls) mod 2 ^ 64 = 2 ^ 64 - k * ls) by (symmetry; apply Z.mod_unique with (q := ls - 1); lia). rewrite Hm2.
  rewrite (proj2 (Z.ltb_lt (2 * 4096) _)) by lia. rewrite (Z.mod_small (2 ^ 64 - k - 1)) by lia.
  assert (Hm3 : ((2 ^ 64 - k - 1) * ls) mod 2 ^ 64 = 2 ^ 64 - (k + 1) * ls) by (symmetry; apply Z.mod_unique with (q := ls - 1); lia). rewrite Hm3.
  apply bind_panic. apply assert_panic. apply Z.leb_gt. apply Z.lt_le_trans with (2 ^ 50); [exact Hmax|]. apply Z.div_le_lower_bound; lia.
Qed.
(** From the command on whose number is the depth of the queue, a transfer of more than two pages fills its list of
    pages outside of the array. *)
Theorem list_out_of_bounds n0 page cid w : let n := space w in 0 < m_MaxPhysRPages n -> m_Depth (queue w) <= cid -> cid * m_MaxPhysRPages n < 2 ^ 64 -> 0 <= m_Depth (queue w) ->
  prp_loop (S n0) 0 page cid w = Panic.
Proof.
  intros n Hm Hc Hw Hd. cbn [prp_loop]. rewrite get_ret. apply assert_panic. fold n. unfold u64, wrap. rewrite Z.add_0_l, Z.mod_mod, Z.mod_small by (try lia; nia). apply Z.ltb_ge. nia.
Qed.
End Defects.
(** The name space whose number is the number of name spaces is never added, which on a drive with one
    is the only one. *)
Theorem last_name_space_missed ids count : Z.of_nat count ∉ DetectNameSpaces ids count.
Proof. unfold DetectNameSpaces. intros [Hp _]%list_elem_of_filter. apply andb_prop in Hp as [_ Hp]. apply Z.ltb_lt in Hp. lia. Qed.

(** ** A drive *)
Definition drive_ref `{HigherHalf} (ls : Z) (cmd : Submission) (h : Hw) : Hw * Z :=
  match Command cmd with
  | ReadWrite slba len =>
      let a := ToHigherHalf (Prp1 cmd) in
      if OpCode cmd =? IO_READ then (mkHw (fun x => if decide (a <= x < a + (len + 1) * ls) then disk h (slba * ls + (x - a)) else ram h x) (disk h), 0)
      else (mkHw (ram h) (fun x => if decide (slba * ls <= x < (slba + len + 1) * ls) then ram h (a + (x - slba * ls)) else disk h x), 0)
  | _ => (h, 0)
  end.
Lemma drive_ref_reads `{HigherHalf} id ls count : drive_reads (drive_ref ls) id ls count.
Proof. intros cmd h slba len Ho _ Hc _ _ _ _. unfold drive_ref. rewrite Hc, Ho. cbn. now split_and!. Qed.
Lemma drive_ref_writes `{HigherHalf} id ls count : drive_writes (drive_ref ls) id ls count.
Proof. intros cmd h slba len Ho _ Hc _ _ _ _. unfold drive_ref. rewrite Hc, Ho. cbn. now split_and!. Qed.
Definition heap_pages (k : nat) : Z := 0xffff800000100000 + 4096 * Z.of_nat k.
#[local] Instance direct_map_ref : HigherHalf := {| ToHigherHalf p := p + 0xffff800000000000; FromHigherHalf v := v - 0xffff800000000000 |}.
Lemma heap_pages_ok : buffers_ok heap_pages 512.
Proof.
  split.
  - intros k Hk. cbn. unfold heap_pages. split; [lia|]. replace (0xffff800000100000 + 4096 * Z.of_nat k - 0xffff800000000000) with ((256 + Z.of_nat k) * 4096) by lia. rewrite Z.mod_mul by lia. lia.
  - intros j k Hj Hk Hne. unfold heap_pages. lia.
Qed.
Definition new_drive : World :=
  mkWorld (initial_space 1 0 20 9 64) (mkQueue 4 (replicate 4 (mkSubmission 0 0 0 0 0 NoCommand)) (replicate 4 (mkCompletion 0 0)) 0 0 1 0) (mkDriveQueue 0 0 0 1) (mkHw (fun _ => 0) (fun x => x mod 256)).
Lemma new_drive_synced : synced new_drive.
Proof. unfold synced. cbn. split_and!; trivial; try lia. intros i c Hi. destruct i as [|[|[|[|i]]]]; cbn in Hi; [injection Hi as <-; reflexivity..|discriminate]. Qed.
(** Writing three bytes over the end of a block, twice, with reads of the whole block in between. *)
Lemma namespace_histories_witness : exists w',
  calls (drive_ref 512) heap_pages 2 [OpRead 2046 4; OpWrite 2047 [1; 2; 3]; OpRead 2046 5; OpWrite 2048 [9]; OpRead 2046 4] new_drive = Ret w' [[254; 255; 0; 1]; []; [254; 1; 2; 3; 2]; []; [254; 1; 9; 3]].
Proof.
  destruct (namespace_histories (drive_ref 512) heap_pages 2 1 512 64) with (l := [OpRead 2046 4; OpWrite 2047 [1; 2; 3]; OpRead 2046 5; OpWrite 2048 [9]; OpRead 2046 4]) (w := new_drive) as (w' & Hw' & _).
  - lia.
  - apply drive_ref_reads.
  - apply drive_ref_writes.
  - apply heap_pages_ok.
  - lia.
  - apply initial_coherent with (prps := 0) (shift := 20) (lbaShift := 9); [apply new_drive_synced|reflexivity|reflexivity].
  - repeat constructor; cbn; lia.
  - exists w'. rewrite Hw'. f_equal.
Defined.
